(* ===== verification/_CoqProject ===== *)
-Q . S2P
Prelude.v
Text.v
Codec.v
Errors.v
Amount.v
Redis.v
RateLimit.v
Idempotency.v
Auth.v
Resilience.v
F64.v
Webhooks.v
StellarService.v
TipPipeline.v
Sharding.v
Locks.v
Saga.v
Replay.v
Session.v
Pages.v
OffsetPages.v
Crypto.v
Access.v
Quota.v
TxPool.v
Cache.v
HttpCache.v
Jobs.v
Collab.v
Events.v
Moderation.v
Indexer.v
Sql.v
Subscriptions.v
ScheduledTips.v
Decimal.v
Teams.v
Campaigns.v
Refunds.v
Accounts.v
Live.v
Mesh.v
Layers.v
Creators.v
Buses.v
TipRoutes.v
Messaging.v
Notices.v
Comments.v
Goals.v
Admin.v
Verification.v
Flags.v
Analytics.v
