(* ===== verification/Prelude.v ===== *)
(** * stellar-tipjar-backend: a verification library

    The backend takes tips paid on the Stellar network: an HTTP gateway in front
    of handlers over Postgres and Redis, a verifier that asks Horizon whether a
    tip was really paid, and webhooks that tell the creators.  This library
    models the parts of src/src/ that carry that logic as functions and proves
    what makes each of them correct, and, where the code does not do what it is
    meant to, proves what it does instead.

    ** Conventions

    - A handler is a function of the handler monad [M W E A] (this file): from
      a world to a result and a world.  A world is a record of the tables,
      caches and sinks the component reaches.  An early return keeps the changes
      made before it, as the code does outside a transaction.
    - A query or a Redis call is atomic.  Each one first takes a [fault] from
      the schedule in the world ([remote]): it works, is refused, or takes
      effect and loses its reply.  Theorems quantify over the schedule.
    - Interleavings are step relations or lists of atomic calls: several
      requests, tasks or replicas act on one world, and the theorems quantify
      over the order.
    - Machine integers are [Z] with the wrap-around, saturation or check the
      source has ([wrap_u32], [u64_saturating_mul], [i64_checked], ..).  [f64]
      (file F64) is the IEEE type of the Standard Library's SpecFloat.
    - Text is UTF-8 bytes in a [string]; file Text has the functions of Rust's
      standard library that the sources call.
    - Code that is not in the repository (SHA-256, HMAC, JWT, bcrypt, gzip,
      serde, Horizon, sqlx's row decoding, random ids) is a parameter, with its
      documented laws as hypotheses; each theorem with such a hypothesis has a
      witness at a concrete function (file Codec gives a codec with a round
      trip).

    ** Parts

    Foundations.
    - Prelude: integers, [result], the handler monad, remote calls, lists,
      invariants of handlers, tactics and the hint databases.  Text: strings.
      Codec: a codec for witnesses.  F64: floats.
    - Errors (errors/): the error values, their HTTP status and envelope.
    - Redis: the interface [Redis V St] of the commands used, its laws
      [RedisLaws], and the instance [redis_map] with expiring keys.

    Tips.
    - Amount (services/stellar_service.rs, validation/): XLM amounts as stroops,
      memos, addresses and their CRC-16.
    - Resilience (services/circuit_breaker.rs, retry.rs, db/retry.rs,
      service_mesh/circuit_breaker.rs): both breakers and both retry loops.
    - StellarService (services/stellar_service.rs): the lookups at Horizon and
      the verification of a tip, through Amount and Resilience.  It discharges
      the interface [TipVerifier] with its law [VerifierSound].
    - TipPipeline (controllers/tip_controller.rs, queue/, jobs/reconciliation.rs,
      models/tip.rs): recording, verification jobs, confirmation, rejection,
      reconciliation and the deletions of tips (jobs/handlers.rs,
      controllers/admin_controller.rs, saga/tip_saga.rs), proved against that
      interface, as handlers and as a system of interleaved tasks.
    - TipRoutes (services/validation_service.rs, validation/amount.rs, routes/tips.rs,
      v1/mod.rs, v2/mod.rs, main.rs): the limits of a creator, the routes that
      record tips and the routers of both versions, against the laws of [Axum].
    - TxPool (services/tx_pool_service.rs): transactions waiting for Horizon.
    - Saga (saga/): steps with retries and compensations, and the tip saga.
    - Sharding (sharding/): strategies, router, migration of tips.
    - Webhooks (webhooks/): signatures, secrets and their rotation, delivery
      with retries and breaker, dead letters.
    - Indexer (indexer/): the pages of records Horizon streams; those that parse
      as payments and merges are kept once.
    - Live (ws.rs): the WebSocket connections that follow the tips.
    - Mesh (service_mesh/, gateway/api_gateway.rs, routes/load_balancer.rs): the
      registry of instances, the balancer, the canary and the upstream of a request.
    - Pages, OffsetPages (models/pagination.rs, pagination/): signed keyset
      cursors and the pages of tips; offset cursors.

    Requests.
    - Layers (gateway/versioning.rs, request_transformer.rs, middleware/, main.rs):
      the middlewares around the routes and their order.
    - RateLimit (gateway/rate_limit_script.rs, rate_limiter.rs,
      rate_limit_policy.rs, client_ip.rs): the GCRA script and its caller, the
      tiers, the address of the client and the middleware.
    - Quota (gateway/quota_manager.rs): daily and monthly quotas.
    - Idempotency (idempotency/, routes/tips.rs): the Redis and Postgres stores,
      the service that falls back from one to the other, and the middleware.
    - Replay (security/replay_protection.rs): nonces and timestamps.
    - Cache (cache/): the three layers, eviction and invalidation; an operation is
      a program of sections under the lock of one layer, run alone or taking
      turns with others.  HttpCache (gateway/cache_middleware.rs,
      middleware/cache.rs): stored responses.

    - Moderation (moderation/, routes/admin.rs): rules, detector, review queue.

    Creators and their money.
    - Creators (controllers/creator_controller.rs, routes/creators.rs,
      cache/redis_client.rs): pages, their cache, and the wallet that is paid.
    - Sql: a store of tables with statements, transactions, faults and histories,
      which the files below share.  Decimal: crate rust_decimal, as a class.
    - Subscriptions (controllers/subscription_controller.rs,
      services/subscription_service.rs), ScheduledTips
      (controllers/scheduled_tip_controller.rs, services/scheduled_tip_service.rs),
      Teams (controllers/team_controller.rs), Campaigns
      (controllers/campaign_controller.rs), Refunds
      (controllers/refund_controller.rs), each with its routes.

    Identity.
    - Auth (services/auth_service.rs, token_family_service.rs,
      security/token_revocation.rs, routes/auth.rs): keys, tokens, families of
      refresh tokens, revocation, and the session handlers.
    - Accounts (routes/auth.rs, services/auth_service.rs): login, passwords, TOTP
      enrolment, backup codes and recovery, over the encrypted columns.
    - Session (security/session_management.rs): server-side sessions.
    - Access (security/rbac.rs, permissions.rs, middleware/, gateway/,
      routes/auth.rs): roles, API keys, guards, registration and login.
    - Crypto (crypto/encryption.rs): encrypted columns and key rotation.

    Background and collaboration.
    - Locks (services/distributed_lock.rs): leases in Redis.
    - Jobs (jobs/): the queue in Postgres, workers and handlers.
    - Events (events/, cqrs/projections.rs, cqrs/synchronizer.rs): the log of
      domain events, snapshots, replay and the read model.
    - Messaging (queue/publisher.rs, consumer.rs, handlers.rs, connection.rs): the
      messages over RabbitMQ, against the laws of [Amqp].
    - Buses (cqrs/command_bus.rs, handlers.rs, query_bus.rs): commands and queries,
      against the interface [CommandServices] with its laws [ServiceLaws], which
      the worlds of Creators, TipPipeline and Events discharge together.
    - Notices (controllers/notification_controller.rs): preferences and notifications,
      for any store with these tables ([Part]).  Comments
      (controllers/comment_controller.rs) and Goals (controllers/goal_controller.rs)
      are such stores, each with its routes.
    - Admin (middleware/admin_auth.rs): the guard of the administrators, for any store
      with their table; behind it Verification
      (controllers/verification_controller.rs) and Flags
      (controllers/feature_flag_controller.rs).
    - Analytics (analytics/): the task that follows the broadcast of tips, its
      statistics, anomalies, windows and alerts.
    - Collab (collaboration/): operational transformation, the session of a
      document, its log and presence.

    The operations keep the names of the source; a comment before each
    definition names the file, the lines and the function it translates.  A
    prefix tells apart the fields and functions that share a name ([vj_],
    [tip_], [cb_], [mb_]).

    ** Theorems

    - Tips: a tip shown as confirmed was paid, in every history, and while it is
      not deleted it settles once ([confirmed_tip_paid], [tip_settles_once]); the verifier decides on
      what Horizon reported and on nothing else ([verify_tip_sound],
      [verify_tip_decides]); the job queue drains and stuck tips come back
      ([worker_drains], [run_once_requeues]); pooled transactions, sagas,
      migrations, the indexer and live connections ([tx_pool_sound], [saga_compensates],
      [migration_keeps_tips], [indexer_exactly_once], [tip_limits_enforced],
      [live_transcript], [live_isolation]).  The cursors of the pages are signed
      and would visit every row once if rows decoded ([keyset_cursor_signed],
      [pages_cover]).
    - Amounts: the parsers accept the decimal grammar exactly and keep the value
      ([xlm_to_stroops_correct], [xlm_to_stroops_format]); the address decoder
      accepts exactly the StrKey encoding.
    - Requests: a request retried after its answer runs once and locks exclude each other
      ([middleware_exactly_once], [redis_lock_exclusion]); the limiter admits no
      more than burst and rate over any window and any replicas
      ([gcra_window_correct], [gcra_burst_exact], [gcra_retry_after]), reads the
      client's address behind proxies and fails closed where it must; quotas
      are bounded by each client's own limits, an accepted request is not accepted
      again by a later check, caches serve what was stored ([quota_bound], [replayed_request_refused], [cache_coherent],
      [response_replayed]); content is refused exactly for what it says and a
      flagged item is settled once ([moderation_verdict], [reviews_settle_once]).
    - Creators: the key of a wallet signed its address, a page is at most five minutes old
      ([wallet_proved], [creator_page_fresh]).  Their money: paid periods follow
      each other, scheduled tips run once,
      splits sum to the tip, campaigns keep to their budgets and refunds settle
      once ([subscription_periods_contiguous], [one_shot_runs_once],
      [tip_splits_exact], [campaign_budget_conserved], [refund_settles_once]).
    - Identity: reuse of a refresh token disables its family, revocation fails
      closed, tokens validate for their lifetime; guards run handlers only for
      vouched callers ([permission_enforced], [gateway_identity_sound],
      [session_guard]); a session needs both factors and a backup code opens one
      only ([session_needs_both_factors], [backup_code_single_use],
      [enrolment_codes_recover]); encrypted columns round trip.
    - Routing: every healthy instance gets its turn, a session keeps its instance,
      the canary gets its weight ([balancer_fair], [sticky_session_holds],
      [canary_exact], [gateway_answers]); every request is answered in a known
      version and a window admits its limit ([version_answered], [throttle_bound]).
    - Webhooks: signatures are sound and round trip; a delivery is attempted a
      bounded number of times.
    - Locks refine an abstract table of leases and exclude each other; a job is
      held by one worker and started a bounded number of times; the log of a
      document replays to the document ([lock_refinement], [lock_exclusion],
      [job_attempts_bounded], [document_replays_log]).
    - The state of a creator from its snapshot is the state from all its events,
      and the read model counts each tip, exactly once when nothing fails
      ([event_log_replays], [read_model_exact], [read_model_at_least_once]); if the
      rows of tips decoded, the commands would log only what they recorded, once
      ([command_log_sound]); a queue of
      messages drains within their retries ([queue_drains]).
    - The comments of a tip are threads, and a deletion takes a thread exactly
      ([comment_threads], [comment_kept_once]); preferences merge
      ([preferences_merged], [all_read]); the status of a goal is sound in every
      interleaving and a milestone is recorded once when nothing fails
      ([goal_status_sound], [milestones_once], [progress_at_most_full]); a badge was
      approved ([badge_was_approved]); a flag is on for exactly whom it says
      ([evaluate_decides], [rollout_grows], [flags_are_guarded]); the statistics of
      a creator are those of the tips received, and a window's metrics those of
      what is recent ([analytics_sound], [stats_exact], [window_metrics]).
    - Breakers, retries and errors: states after any history, termination,
      capped delays, well-formed answers.
    - Where the code departs from its intent: [tip_rows_do_not_decode],
      [login_cannot_refresh], [registration_strands_account],
      [rotation_loses_columns], [redis_begin_race], [pg_stale_completion],
      [write_through_records_nothing], [failed_delivery_parked],
      [first_rotation_no_overlap], [quota_overshoot], [stranded_stays],
      [promotion_outlives_ttl], [promotion_revives], [gateway_hit_loses_body],
      [written_listing_stays], [listing_shows_no_tip], [previous_page_skips], [gap_counts_twice],
      [restart_counts_twice], [poison_event_blocks],
      [flagged_twice], [flag_without_item], [ledger_is_lost], [unparsed_frame_lost],
      [unset_contract_skips],
      [renewed_by_two_replicas], [occurrence_run_twice], [stranded_forever],
      [negative_split], [campaigns_do_not_list], [refunded_twice],
      [password_change_locks_out], [spent_code_returns], [idle_never_closes],
      [busy_stream_times_out], [revoked_token_listens],
      [second_canary_starves], [failover_is_first], [throttle_unreachable],
      [v1_migration_link_lost], [wallet_redirected], [no_creator_is_created],
      [stale_wallet_cached], [commands_never_answered], [answered_tip_lost],
      [server_never_starts], [tip_rate_unlimited], [nan_is_an_amount],
      [failed_copy_is_lost], [retried_at_once],
      [replies_cross_tips], [flagged_thread_listed], [unwilling_notified],
      [no_goal_is_created], [tip_not_counted], [cancelled_goal_completes],
      [milestone_twice], [approved_document_replaced], [rejected_keeps_badge],
      [approved_without_badge], [anomaly_needs_eleven], [alerted_again],
      [lost_tips_uncounted], [early_spike_unnoticed].

    ** Bounds and fuel

    [with_db_retry] loops while errors are retryable: [with_db_retry_terminates]
    shows that [max_retries + 1] rounds are enough.  The Postgres begin of an
    idempotent request calls itself after a lost race: [pg_begin_terminates]
    shows that two rounds are enough.  [worker] drains the verification queue:
    [worker_drains] shows that six jobs per job waiting are enough.  The
    migration of tips, the worker of the job queue and the lookup of a session
    take a number of rounds too; their theorems say what every number of them
    does.  Printing a number and trimming a string take the number of bits and
    of bytes as fuel, which [print_Z_spec] and [trim_all_visible] show to be
    enough.  All other recursion is structural; retry loops count down the
    attempts they are given.

    ** Not modelled

    Log lines, traces and Prometheus metrics; HTTP framing and JSON syntax;
    bulk operations, which are simulated; tenants, whose tables the migrations
    define in three ways;
    scheduled reports and backups, which query and log;
    the monitors of shards, sagas and jobs, which only report; the routes,
    GraphQL and OpenAPI declarations; email, uploads, CDN, WebRTC and
    currency rates, which are I/O; health checks, chaos and mocking tools; the
    floating-point heuristics of ml/. *)

From stdpp Require Export base option list gmap strings.
From Stdlib Require Export ZArith Lia Bool Permutation.

#[global] Open Scope Z_scope.

(** ** Machine integers

    Rust integers are [Z] values kept in range; the operations below are the
    wrapping, saturating and checked variants the sources use. *)

Definition u8_max : Z := 2 ^ 8 - 1.
Definition u32_max : Z := 2 ^ 32 - 1.
Definition u64_max : Z := 2 ^ 64 - 1.
Definition i64_max : Z := 2 ^ 63 - 1.
Definition i64_min : Z := - 2 ^ 63.

Definition wrap_u16 (z : Z) : Z := z mod 2 ^ 16.
Definition wrap_u32 (z : Z) : Z := z mod 2 ^ 32.
Definition wrap_u64 (z : Z) : Z := z mod 2 ^ 64.
Definition wrap_i64 (z : Z) : Z := (z + 2 ^ 63) mod 2 ^ 64 - 2 ^ 63.

(** [as i64] of a [u64], [as i32] of a [u32] and the like keep the bit
    pattern. *)
Definition wrap_i32 (z : Z) : Z := (z + 2 ^ 31) mod 2 ^ 32 - 2 ^ 31.

Definition u64_saturating_sub (a b : Z) : Z := Z.max 0 (a - b).
Definition u64_saturating_mul (a b : Z) : Z := Z.min u64_max (a * b).
Definition u64_saturating_pow (a n : Z) : Z := Z.min u64_max (a ^ n).
Definition u32_saturating_pow (a n : Z) : Z := Z.min u32_max (a ^ n).

Definition i64_checked (z : Z) : option Z :=
  if (i64_min <=? z) && (z <=? i64_max) then Some z else None.

(** Ceiling division of non-negative integers. *)
Definition div_ceil (a b : Z) : Z := (a + b - 1) / b.

#[global] Arguments wrap_u16 : simpl never.
#[global] Arguments wrap_u32 : simpl never.
#[global] Arguments wrap_u64 : simpl never.
#[global] Arguments wrap_i64 : simpl never.
#[global] Arguments wrap_i32 : simpl never.
#[global] Arguments div_ceil : simpl never.

(** ** Rust's [Result] *)

Inductive result (A E : Type) : Type :=
| Ok (a : A)
| Err (e : E).
Arguments Ok {A E} a.
Arguments Err {A E} e.

Definition is_ok {A E} (r : result A E) : bool :=
  match r with Ok _ => true | Err _ => false end.

Definition result_map {A B E} (f : A -> B) (r : result A E) : result B E :=
  match r with Ok a => Ok (f a) | Err e => Err e end.

#[export] Instance result_bind {E} : MBind (fun A => result A E) :=
  fun A B f r => match r with Ok a => f a | Err e => Err e end.

Definition ok_or {A E} (e : E) (o : option A) : result A E :=
  match o with Some a => Ok a | None => Err e end.

#[export] Instance result_eq_dec {A E} `{EqDecision A, EqDecision E} :
  EqDecision (result A E).
Proof. solve_decision. Defined.

(** ** The handler monad

    A handler runs in a world [W] (the database tables, caches and sinks it
    reaches) and returns a [result]: the world reached so far is kept when a
    handler returns early with an error, because the code does not roll it
    back unless it runs inside a transaction. *)

Definition M (W E A : Type) : Type := W -> result A E * W.

#[export] Instance M_ret {W E} : MRet (M W E) := fun A a w => (Ok a, w).

#[export] Instance M_bind {W E} : MBind (M W E) := fun A B k m w =>
  match m w with
  | (Ok a, w') => k a w'
  | (Err e, w') => (Err e, w')
  end.

Definition throw {W E A} (e : E) : M W E A := fun w => (Err e, w).
Definition gets {W E A} (f : W -> A) : M W E A := fun w => (Ok (f w), w).
Definition modify {W E} (f : W -> W) : M W E unit := fun w => (Ok tt, f w).
Definition lift {W E A} (r : result A E) : M W E A := fun w => (r, w).

(** Run [m] and hand its result to the continuation, whatever it is: a
    [match fut.await { Ok(..) .. Err(..) .. }] or a [let _ = fut.await]. *)
Definition attempt {W E E' A} (m : M W E A) : M W E' (result A E) :=
  fun w => let '(r, w') := m w in (Ok r, w').

Definition map_err {W E E' A} (f : E -> E') (m : M W E A) : M W E' A :=
  fun w => match m w with
           | (Ok a, w') => (Ok a, w')
           | (Err e, w') => (Err (f e), w')
           end.

(** [Option::ok_or_else(..)?] *)
Definition expect {W E A} (e : E) (o : option A) : M W E A := lift (ok_or e o).

(** ** Remote calls that may fail

    Every query to Postgres or Redis can fail.  A world that is reached over
    the network carries the schedule of what the next calls meet: the call
    succeeds, is refused before it had an effect, or takes effect and loses
    its reply.  Theorems quantify over the schedule. *)

Inductive fault : Type :=
| Fine
| Refused
| ReplyLost.

#[export] Instance fault_eq_dec : EqDecision fault.
Proof. solve_decision. Defined.

Class Networked (W : Type) : Type := {
  next_fault : W -> fault * W
}.

Definition remote {W E A} `{Networked W} (e : E) (q : W -> A * W) : M W E A :=
  fun w =>
    let '(f, w1) := next_fault w in
    match f with
    | Fine => let '(a, w2) := q w1 in (Ok a, w2)
    | Refused => (Err e, w1)
    | ReplyLost => let '(_, w2) := q w1 in (Err e, w2)
    end.

(** An operation of a part of a world. *)
Definition zoom {S W E A} (get : W -> S) (put : S -> W -> W) (m : M S E A) : M W E A :=
  fun w => let '(r, s) := m (get w) in (r, put s w).

(** The schedule as a list: an exhausted list means no more faults. *)
Definition pop_fault (l : list fault) : fault * list fault :=
  match l with
  | [] => (Fine, [])
  | f :: l' => (f, l')
  end.

(** ** Lists *)

(** [iter().find(..)], [iter().position(..)] *)
Fixpoint position {A} (p : A -> bool) (l : list A) : option nat :=
  match l with
  | [] => None
  | x :: l' => if p x then Some O else S <$> position p l'
  end.

(** Stable insertion sort on a key: [sort_by_key]. *)
Fixpoint insert_by {A} (le : A -> A -> bool) (x : A) (l : list A) : list A :=
  match l with
  | [] => [x]
  | y :: l' => if le x y then x :: y :: l' else y :: insert_by le x l'
  end.

Fixpoint sort_by {A} (le : A -> A -> bool) (l : list A) : list A :=
  match l with
  | [] => []
  | x :: l' => insert_by le x (sort_by le l')
  end.

Definition sumZ (l : list Z) : Z := fold_right Z.add 0 l.

(** Left-to-right loop with an accumulator in the handler monad. *)
Fixpoint forM {W E A B} (l : list A) (b : B) (f : B -> A -> M W E B) : M W E B :=
  match l with
  | [] => mret b
  | x :: l' => b' ← f b x; forM l' b' f
  end.

(** ** Tactics *)

(** Split every [match] and [if] of the goal and the hypotheses. *)
Ltac case_all :=
  repeat match goal with
  | |- context [match ?x with _ => _ end] =>
      lazymatch x with context [match _ with _ => _ end] => fail | _ => destruct x eqn:? end
  | H : context [match ?x with _ => _ end] |- _ =>
      lazymatch x with context [match _ with _ => _ end] => fail | _ => destruct x eqn:? end
  end.

(** Reflect boolean comparisons on [Z] into propositions. *)
Ltac zbool :=
  repeat match goal with
  | H : (_ && _)%bool = true |- _ => apply andb_true_iff in H as [? ?]
  | H : (_ || _)%bool = false |- _ => apply orb_false_iff in H as [? ?]
  | H : (_ <? _) = true |- _ => apply Z.ltb_lt in H
  | H : (_ <? _) = false |- _ => apply Z.ltb_ge in H
  | H : (_ <=? _) = true |- _ => apply Z.leb_le in H
  | H : (_ <=? _) = false |- _ => apply Z.leb_gt in H
  | H : (_ =? _) = true |- _ => apply Z.eqb_eq in H
  | H : (_ =? _) = false |- _ => apply Z.eqb_neq in H
  | H : (_ >? _) = _ |- _ => rewrite Z.gtb_ltb in H
  | H : (_ >=? _) = _ |- _ => rewrite Z.geb_leb in H
  | H : negb _ = true |- _ => apply negb_true_iff in H
  | H : negb _ = false |- _ => apply negb_false_iff in H
  end.

Ltac zcase := case_all; zbool; try lia.

(** Unfold the handler monad in the goal or in a hypothesis. *)
Ltac run_m :=
  unfold mbind, mret, M_bind, M_ret, throw, gets, modify, lift, attempt, expect,
    map_err, ok_or in *; simpl in *.

(** Run the first bind of the goal one step, whatever abbreviation of the monad it is at. *)
Ltac bind_step :=
  match goal with
  | |- context [@mbind ?F ?I ?A ?B ?k ?m ?w] =>
      change (@mbind F I A B k m w)
        with (match m w with (Ok a, w') => k a w' | (Err e, w') => (Err e, w') end);
      cbn beta iota
  end.

(** ** Shared lemmas *)

Create HintDb tipjar.
Create HintDb stable.
Create Rewrite HintDb tipjar.

Lemma pow_pos_2 (n : Z) : 0 <= n -> 0 < 2 ^ n.
Proof. intros. apply Z.pow_pos_nonneg; lia. Qed.

Lemma wrap_u32_id z : 0 <= z <= u32_max -> wrap_u32 z = z.
Proof. unfold u32_max, wrap_u32. intros. apply Z.mod_small. lia. Qed.

Lemma wrap_u64_id z : 0 <= z <= u64_max -> wrap_u64 z = z.
Proof. unfold u64_max, wrap_u64. intros. apply Z.mod_small. lia. Qed.

Lemma wrap_i64_id z : i64_min <= z <= i64_max -> wrap_i64 z = z.
Proof.
  unfold i64_max, i64_min, wrap_i64. intros.
  rewrite Z.mod_small; lia.
Qed.

Lemma wrap_u32_range z : 0 <= wrap_u32 z <= u32_max.
Proof. unfold wrap_u32, u32_max. pose proof (Z.mod_pos_bound z (2 ^ 32)). lia. Qed.

Lemma wrap_u64_range z : 0 <= wrap_u64 z <= u64_max.
Proof. unfold wrap_u64, u64_max. pose proof (Z.mod_pos_bound z (2 ^ 64)). lia. Qed.

#[export] Hint Resolve pow_pos_2 wrap_u32_range wrap_u64_range : tipjar.
#[export] Hint Rewrite wrap_u32_id wrap_u64_id wrap_i64_id using lia : tipjar.

Lemma i64_checked_Some z n : i64_checked z = Some n <-> n = z /\ i64_min <= z <= i64_max.
Proof.
  unfold i64_checked. destruct (_ && _) eqn:E; zbool.
  - split; [intros [= <-]; lia | intros [-> _]; reflexivity].
  - apply andb_false_iff in E. split; [discriminate | intros [-> ?]]. destruct E; zbool; lia.
Qed.

Lemma div_ceil_spec a b : 0 <= a -> 0 < b ->
  b * (div_ceil a b - 1) < a <= b * div_ceil a b \/ (a = 0 /\ div_ceil a b = 0).
Proof.
  intros Ha Hb. unfold div_ceil.
  pose proof (Z.div_mod (a + b - 1) b ltac:(lia)).
  pose proof (Z.mod_pos_bound (a + b - 1) b Hb).
  destruct (decide (a = 0)) as [-> | Hne].
  - right. split; [done |]. apply Z.div_small. lia.
  - left. nia.
Qed.

Lemma div_ceil_pos a b : 0 < a -> 0 < b -> 0 < div_ceil a b.
Proof. intros. unfold div_ceil. apply Z.div_str_pos. lia. Qed.

#[export] Hint Resolve div_ceil_pos : tipjar.

(** A handler runs like another whose parts run like its parts. *)
Lemma bind_ext {W E A B} (m m' : M W E A) (k k' : A -> M W E B) w :
  m w = m' w -> (forall a w', k a w' = k' a w') -> (m ≫= k) w = (m' ≫= k') w.
Proof. intros Hm Hk. unfold mbind, M_bind. rewrite Hm. destruct (m' w) as [[a | e] w']; auto. Qed.

(** The first part succeeds. *)
Lemma bind_run {W E A B} (m : M W E A) (k : A -> M W E B) a w w' :
  m w = (Ok a, w') -> (m ≫= k) w = k a w'.
Proof. intros H. unfold mbind, M_bind. by rewrite H. Qed.

(** A sequence that answers. *)
Lemma bind_answers {W E A B} (m : M W E A) (k : A -> M W E B) w b w' :
  (m ≫= k) w = (Ok b, w') -> exists a w1, m w = (Ok a, w1) /\ k a w1 = (Ok b, w').
Proof. unfold mbind, M_bind. destruct (m w) as [[a | e] w1]; [eauto | done]. Qed.

Lemma sumZ_app l1 l2 : sumZ (l1 ++ l2) = sumZ l1 + sumZ l2.
Proof. unfold sumZ. induction l1; simpl; lia. Qed.

Lemma insert_by_perm {A} le (x : A) l : insert_by le x l ≡ₚ x :: l.
Proof.
  induction l as [| y l IH]; simpl; [done |].
  destruct (le x y); [done |]. rewrite IH. apply Permutation_swap.
Qed.

Lemma sort_by_perm {A} le (l : list A) : sort_by le l ≡ₚ l.
Proof. induction l as [| x l IH]; simpl; [done |]. by rewrite insert_by_perm, IH. Qed.

(** [List.filter], the filter on boolean conditions, respects permutations, as does [map]. *)
#[export] Instance list_filter_perm {A} (p : A -> bool) : Proper ((≡ₚ) ==> (≡ₚ)) (List.filter p).
Proof.
  induction 1 as [| x l l' _ IH | x y l | l l' l'' _ IH1 _ IH2]; simpl; [done | | | by rewrite IH1].
  - destruct (p x); [by f_equiv | done].
  - destruct (p x), (p y); try done. apply Permutation_swap.
Qed.

#[export] Instance list_map_perm {A B} (f : A -> B) : Proper ((≡ₚ) ==> (≡ₚ)) (map f).
Proof. intros l l' H. by apply Permutation_map. Qed.

(** A key determines the element. *)
Lemma nodup_key_inj {A B} (f : A -> B) l x y : NoDup (f <$> l) -> x ∈ l -> y ∈ l -> f x = f y -> x = y.
Proof.
  intros Hnd (i & Hi)%list_elem_of_lookup (j & Hj)%list_elem_of_lookup He.
  assert ((f <$> l) !! i = Some (f x)) as Hi' by by rewrite list_lookup_fmap, Hi.
  assert ((f <$> l) !! j = Some (f x)) as Hj' by by rewrite list_lookup_fmap, Hj, He.
  rewrite (NoDup_lookup _ _ _ _ Hnd Hi' Hj') in Hi. congruence.
Qed.

Section sorting.
Context {A : Type} (le : A -> A -> bool).
Hypothesis le_total : forall x y, le x y = false -> le y x = true.
Hypothesis le_trans : forall x y z, le x y = true -> le y z = true -> le x z = true.

(** Every element is below all that follow it. *)
Fixpoint ordered (l : list A) : Prop :=
  match l with
  | [] => True
  | x :: l' => (forall y, y ∈ l' -> le x y = true) /\ ordered l'
  end.

Lemma insert_by_ordered x l : ordered l -> ordered (insert_by le x l).
Proof.
  induction l as [| y l IH]; simpl; [set_solver |]. intros [Hy Hl].
  destruct (le x y) eqn:E; simpl.
  - split; [| done]. intros z [-> | Hz]%elem_of_cons; [done |]. eapply le_trans; [exact E | by apply Hy].
  - split; [| by apply IH]. intros z. rewrite insert_by_perm. intros [-> | Hz]%elem_of_cons; auto.
Qed.

Lemma sort_by_ordered l : ordered (sort_by le l).
Proof. induction l as [| x l IH]; simpl; [done |]. by apply insert_by_ordered. Qed.

(** Sorting a sorted list. *)
Lemma sort_by_id l : ordered l -> sort_by le l = l.
Proof.
  induction l as [| x l IH]; simpl; [done |]. intros [Hx Hl]. rewrite (IH Hl).
  destruct l as [| y l]; simpl; [done |]. by rewrite (Hx y (list_elem_of_here _ _)).
Qed.

(** What the first [n] leave out is above all they contain. *)
Lemma ordered_take n l x y :
  ordered l -> x ∈ take n l -> y ∈ drop n l -> le x y = true.
Proof.
  revert n. induction l as [| z l IH]; intros [| n]; simpl;
    [by intros _ ?%elem_of_nil | by intros _ ?%elem_of_nil | by intros _ ?%elem_of_nil |].
  intros [Hz Hl] [-> | Hx]%elem_of_cons Hy; [| by eapply IH].
  apply Hz. assert (y ∈ take n l ++ drop n l) as H by (apply elem_of_app; by right).
  by rewrite take_drop in H.
Qed.

Lemma insert_by_filter (p : A -> bool) x l :
  ordered l -> List.filter p (insert_by le x l) = if p x then insert_by le x (List.filter p l) else List.filter p l.
Proof.
  induction l as [| y l IH]; simpl; [intros _; by destruct (p x) |]. intros [Hy Hl]. specialize (IH Hl).
  destruct (le x y) eqn:E; simpl.
  - destruct (p x); [| done]. destruct (p y) eqn:Hp; simpl; [by rewrite E |].
    assert (forall z, z ∈ List.filter p l -> le x z = true) as Hz.
    { intros z Hz. apply list_elem_of_In, filter_In in Hz as [Hz%list_elem_of_In _]. eapply le_trans; [exact E | auto]. }
    destruct (List.filter p l) as [| z l']; [done |]. simpl. by rewrite (Hz z (list_elem_of_here _ _)).
  - rewrite IH. destruct (p x), (p y); simpl; by rewrite ?E.
Qed.

(** Sorting the rows of a condition is selecting from the sorted rows. *)
Lemma sort_by_filter (p : A -> bool) l : sort_by le (List.filter p l) = List.filter p (sort_by le l).
Proof.
  induction l as [| x l IH]; simpl; [done |]. rewrite insert_by_filter by apply sort_by_ordered.
  destruct (p x); simpl; by rewrite IH.
Qed.
End sorting.

Lemma existsb_false_iff {A} (f : A -> bool) l : existsb f l = false <-> forall x, x ∈ l -> f x = false.
Proof.
  induction l as [| x l IH]; simpl; [by split; [intros _ y ?%not_elem_of_nil |] |].
  rewrite orb_false_iff, IH. split.
  - intros [Hx Hl] y [-> | Hy]%elem_of_cons; auto.
  - intros H. split; [| intros y Hy]; apply H; [left | by right].
Qed.

Lemma position_Some {A} (p : A -> bool) l i :
  position p l = Some i ->
  exists x, l !! i = Some x /\ p x = true /\
    forall j y, (j < i)%nat -> l !! j = Some y -> p y = false.
Proof.
  revert i. induction l as [| x l IH]; intros i; simpl; [done |].
  destruct (p x) eqn:Hp; simpl.
  - intros [= <-]. exists x. split_and!; [done | done | lia].
  - destruct (position p l) as [k |]; intros [= <-].
    destruct (IH k eq_refl) as (y & Hy & Hpy & Hmin).
    exists y. split_and!; [done | done |].
    intros [| j] z Hj Hz; simpl in *; [congruence | apply (Hmin j); [lia | done]].
Qed.

Lemma position_None {A} (p : A -> bool) l :
  position p l = None <-> forall x, x ∈ l -> p x = false.
Proof.
  induction l as [| x l IH]; simpl.
  - split; [intros _ x Hx; by apply elem_of_nil in Hx | done].
  - destruct (p x) eqn:Hp; simpl.
    + split; [done |]. intros H. rewrite (H x) in Hp; [done | set_solver].
    + destruct (position p l); simpl; split; try done.
      * intros H. assert (Some n = None) as E by (apply IH; set_solver). done.
      * intros _ y Hy. apply elem_of_cons in Hy as [-> | Hy]; [done |]. by apply IH.
Qed.

(** Running a bind whose first part is known. *)
Lemma bind_ok {W E A B} (m : M W E A) (k : A -> M W E B) w a w' :
  m w = (Ok a, w') -> (m ≫= k) w = k a w'.
Proof. unfold mbind, M_bind. by intros ->. Qed.

Lemma bind_err {W E A B} (m : M W E A) (k : A -> M W E B) w e w' :
  m w = (Err e, w') -> (m ≫= k) w = (Err e, w').
Proof. unfold mbind, M_bind. by intros ->. Qed.

Lemma filter_none {A} (P : A -> Prop) `{!forall x, Decision (P x)} (l : list A) :
  (forall x, x ∈ l -> ~ P x) -> filter P l = [].
Proof.
  induction l as [| x l IH]; intros Hn; [done |].
  rewrite filter_cons_False by (apply Hn; set_solver). apply IH. set_solver.
Qed.

Lemma filter_every {A} (P : A -> Prop) `{!forall x, Decision (P x)} (l : list A) :
  (forall x, x ∈ l -> P x) -> filter P l = l.
Proof.
  induction l as [| x l IH]; intros Hn; [done |].
  rewrite filter_cons_True by (apply Hn; set_solver). f_equal. apply IH. set_solver.
Qed.

(** ** Invariants of handlers

    Whatever a handler answers, and whatever its calls meet, it keeps [I]. *)
Definition stable {W E A} (I : W -> Prop) (m : M W E A) : Prop := forall w, I w -> I (snd (m w)).

Section invariants.
Context {W E : Type} (I : W -> Prop).

Lemma stable_ret {A} (a : A) : stable I (mret a : M W E A).
Proof. by intros w. Qed.

Lemma stable_throw {A} (e : E) : stable I (throw e : M W E A).
Proof. by intros w. Qed.

Lemma stable_lift {A} (r : result A E) : stable I (lift r).
Proof. by intros w. Qed.

Lemma stable_gets {A} (f : W -> A) : stable I (gets f : M W E A).
Proof. by intros w. Qed.

Lemma stable_modify (f : W -> W) : (forall w, I w -> I (f w)) -> stable I (modify f : M W E unit).
Proof. intros Hf w. apply Hf. Qed.

Lemma stable_bind {A B} (m : M W E A) (k : A -> M W E B) :
  stable I m -> (forall a, stable I (k a)) -> stable I (m ≫= k).
Proof.
  intros Hm Hk w Hw. specialize (Hm w Hw). unfold mbind, M_bind. destruct (m w) as [[a | e] w']; [| done].
  by apply Hk.
Qed.

(** The same, with what the first part answers when it succeeds. *)
Lemma stable_bind_value {A B} (Q : A -> Prop) (m : M W E A) (k : A -> M W E B) :
  stable I m -> (forall w a w', I w -> m w = (Ok a, w') -> Q a) -> (forall a, Q a -> stable I (k a)) ->
  stable I (m ≫= k).
Proof.
  intros Hm HQ Hk w Hw. specialize (Hm w Hw). unfold mbind, M_bind. destruct (m w) as [[a | e] w'] eqn:E1; [| done].
  apply Hk; [by eapply HQ | done].
Qed.

Lemma stable_attempt {E' A} (m : M W E A) : stable I m -> stable I (attempt m : M W E' (result A E)).
Proof. intros Hm w Hw. specialize (Hm w Hw). unfold attempt. by destruct (m w). Qed.

Lemma stable_map_err {E' A} (f : E -> E') (m : M W E A) : stable I m -> stable I (map_err f m).
Proof. intros Hm w Hw. specialize (Hm w Hw). unfold map_err. by destruct (m w) as [[a | e] w']. Qed.

Lemma stable_forM {A B} (l : list A) (b : B) (f : B -> A -> M W E B) :
  (forall b a, stable I (f b a)) -> stable I (forM l b f).
Proof.
  intros Hf. revert b. induction l as [| a l IH]; intros b; [apply stable_ret |].
  apply stable_bind; [apply Hf | intros; apply IH].
Qed.

Lemma stable_remote {A} `{Networked W} (e : E) (q : W -> A * W) :
  (forall w, I w -> I (snd (next_fault w))) -> (forall w, I w -> I (snd (q w))) -> stable I (remote e q).
Proof.
  intros Hn Hq w Hw. specialize (Hn w Hw). unfold remote. destruct (next_fault w) as [f w1]. simpl in Hn.
  specialize (Hq w1 Hn). destruct (q w1) as [a w2]. by destruct f.
Qed.
End invariants.

#[export] Hint Resolve stable_ret stable_throw stable_lift stable_gets stable_bind stable_attempt stable_map_err
  stable_forM : stable.
