(* ===== verification/Text.v ===== *)
(** * Text: the Rust string and integer-parsing functions the sources use

    A Rust [&str] is its UTF-8 bytes, a [string] here, so [str::len] is
    [slength].  The operations are those of Rust's standard library:
    [split], [split_once], [strip_prefix], [trim], [parse::<u64>],
    [parse::<i64>] and the printing of integers with [{}]. *)

From Stdlib Require Export Ascii.
From Stdlib Require Strings.String.

Abbreviation string_of_list_ascii := Stdlib.Strings.String.string_of_list_ascii.
Abbreviation list_ascii_of_string := Stdlib.Strings.String.list_ascii_of_string.
Abbreviation slength := Stdlib.Strings.String.length.
From S2P Require Import Prelude.

#[global] Open Scope Z_scope.

(** ** Characters *)

Definition byte (c : ascii) : Z := Z.of_N (N_of_ascii c).

Definition is_digit (c : ascii) : bool := (48 <=? byte c) && (byte c <=? 57).
Definition is_lower (c : ascii) : bool := (97 <=? byte c) && (byte c <=? 122).
Definition is_upper (c : ascii) : bool := (65 <=? byte c) && (byte c <=? 90).
Definition is_alphanumeric (c : ascii) : bool := is_digit c || is_lower c || is_upper c.

(** [char::is_ascii_hexdigit] *)
Definition is_hexdigit (c : ascii) : bool :=
  is_digit c || ((97 <=? byte c) && (byte c <=? 102)) || ((65 <=? byte c) && (byte c <=? 70)).

(** Visible ASCII characters other than the space. *)
Definition is_visible (c : ascii) : bool := (33 <=? byte c) && (byte c <=? 126).

Definition upper (c : ascii) : ascii :=
  if is_lower c then ascii_of_N (N_of_ascii c - 32) else c.
Definition lower (c : ascii) : ascii :=
  if is_upper c then ascii_of_N (N_of_ascii c + 32) else c.

(** ** Strings *)

Fixpoint all_chars (p : ascii -> bool) (s : string) : bool :=
  match s with
  | EmptyString => true
  | String c s' => p c && all_chars p s'
  end.

Fixpoint map_chars (f : ascii -> ascii) (s : string) : string :=
  match s with
  | EmptyString => EmptyString
  | String c s' => String (f c) (map_chars f s')
  end.

(** [str::split(sep)]: at least one piece. *)
Fixpoint split_on (sep : ascii) (s : string) : list string :=
  match s with
  | EmptyString => [""]
  | String c s' =>
      if Ascii.eqb c sep then "" :: split_on sep s'
      else match split_on sep s' with
           | p :: ps => String c p :: ps
           | [] => [String c ""]
           end
  end.

(** [str::split_once(sep)] *)
Fixpoint split_once (sep : ascii) (s : string) : option (string * string) :=
  match s with
  | EmptyString => None
  | String c s' =>
      if Ascii.eqb c sep then Some ("", s')
      else match split_once sep s' with
           | Some (a, b) => Some (String c a, b)
           | None => None
           end
  end.

(** [str::strip_prefix(p)] *)
Fixpoint strip_prefix (p s : string) : option string :=
  match p with
  | EmptyString => Some s
  | String c p' =>
      match s with
      | String d s' => if Ascii.eqb c d then strip_prefix p' s' else None
      | EmptyString => None
      end
  end.

Definition starts_with (p s : string) : bool :=
  match strip_prefix p s with Some _ => true | None => false end.

(** [str::contains(p)] *)
Fixpoint contains (p s : string) : bool :=
  starts_with p s ||
  match s with
  | EmptyString => false
  | String _ s' => contains p s'
  end.

(** [parts.join(sep)] *)
Fixpoint join (sep : string) (l : list string) : string :=
  match l with
  | [] => ""
  | [s] => s
  | s :: l' => s +:+ sep +:+ join sep l'
  end.

(** The process environment, [std::env::var(k).ok()]. *)
Definition environment : Type := string -> option string.

(** [s.trim_start_matches(c)] *)
Fixpoint trim_start_char (c : ascii) (s : string) : string :=
  match s with
  | String d s' => if Ascii.eqb d c then trim_start_char c s' else s
  | EmptyString => ""
  end.

(** [s.replace(c, d)] for characters. *)
Definition replace_char (c d : ascii) (s : string) : string :=
  map_chars (fun x => if Ascii.eqb x c then d else x) s.

(** [HeaderValue::to_str]: visible ASCII, space and tab only. *)
Definition header_to_str (s : string) : option string :=
  if all_chars (fun c => is_visible c || (byte c =? 32) || (byte c =? 9)) s then Some s else None.

(** ** Trimming

    The UTF-8 encodings of the characters with the [White_Space] property. *)

Definition chr (z : Z) : ascii := ascii_of_N (Z.to_N z).

Definition white_space : list (list ascii) :=
  map (map chr)
  ([[9]; [10]; [11]; [12]; [13]; [32]; [194; 133]; [194; 160]; [225; 154; 128];
    [226; 128; 128]; [226; 128; 129]; [226; 128; 130]; [226; 128; 131]; [226; 128; 132];
    [226; 128; 133]; [226; 128; 134]; [226; 128; 135]; [226; 128; 136]; [226; 128; 137];
    [226; 128; 138]; [226; 128; 168]; [226; 128; 169]; [226; 128; 175]; [226; 129; 159];
    [227; 128; 128]] : list (list Z)).

Fixpoint strip_bytes (p l : list ascii) : option (list ascii) :=
  match p, l with
  | [], _ => Some l
  | c :: p', d :: l' => if Ascii.eqb c d then strip_bytes p' l' else None
  | _ :: _, [] => None
  end.

Fixpoint strip_any (pats : list (list ascii)) (l : list ascii) : option (list ascii) :=
  match pats with
  | [] => None
  | p :: pats' => match strip_bytes p l with Some l' => Some l' | None => strip_any pats' l end
  end.

Fixpoint trim_front (fuel : nat) (pats : list (list ascii)) (l : list ascii) : list ascii :=
  match fuel with
  | O => l
  | S n => match strip_any pats l with Some l' => trim_front n pats l' | None => l end
  end.

Definition trim_list (pats : list (list ascii)) (l : list ascii) : list ascii :=
  trim_front (length l) pats l.

(** [str::trim] *)
Definition trim (s : string) : string :=
  string_of_list_ascii
    (rev (trim_list (map (@rev ascii) white_space)
            (rev (trim_list white_space (list_ascii_of_string s))))).

(** ** Integers *)

Definition digit_value (c : ascii) : Z := byte c - 48.

Fixpoint parse_digits_from (acc : Z) (s : string) : option Z :=
  match s with
  | EmptyString => Some acc
  | String c s' => if is_digit c then parse_digits_from (10 * acc + digit_value c) s' else None
  end.

Definition parse_digits (s : string) : option Z := parse_digits_from 0 s.

Definition in_range (lo hi : Z) (o : option Z) : option Z :=
  match o with
  | Some z => if (lo <=? z) && (z <=? hi) then Some z else None
  | None => None
  end.

(** [from_str_radix(10)]: an optional sign, then at least one digit, and the
    value must fit; ["-"] is a sign only for signed types. *)
Definition parse_u64 (s : string) : option Z :=
  match s with
  | EmptyString => None
  | String "+" s' => match s' with "" => None | _ => in_range 0 u64_max (parse_digits s') end
  | _ => in_range 0 u64_max (parse_digits s)
  end.

Definition parse_u32 (s : string) : option Z := in_range 0 u32_max (parse_u64 s).

Definition parse_i64 (s : string) : option Z :=
  match s with
  | EmptyString => None
  | String "+" s' =>
      match s' with "" => None | _ => in_range i64_min i64_max (parse_digits s') end
  | String "-" s' =>
      match s' with "" => None | _ => in_range i64_min i64_max (Z.opp <$> parse_digits s') end
  | _ => in_range i64_min i64_max (parse_digits s)
  end.

Definition digit_char (d : Z) : ascii := chr (48 + d).

Fixpoint print_digits (fuel : nat) (n : Z) (acc : string) : string :=
  match fuel with
  | O => acc
  | S f =>
      let acc' := String (digit_char (n mod 10)) acc in
      if n <? 10 then acc' else print_digits f (n / 10) acc'
  end.

(** Decimal printing of a non-negative integer; [Z.log2 n + 1] steps are
    enough because a step divides by ten. *)
Definition print_Z (n : Z) : string := print_digits (S (Z.to_nat (Z.log2 n))) n "".

(** [to_string] of a signed integer. *)
Definition print_i64 (n : Z) : string := if n <? 0 then "-" +:+ print_Z (- n) else print_Z n.

(** [s.chars().count()]: the bytes that are not UTF-8 continuation bytes. *)
Fixpoint char_count (s : string) : nat :=
  match s with
  | EmptyString => O
  | String c s' => if Z.land (byte c) 192 =? 128 then char_count s' else S (char_count s')
  end.

(** [format!("{:0<w$}", s)]: pad with zeros on the right up to [w] characters. *)
Definition pad_right_zeros (w : nat) (s : string) : string :=
  s +:+ string_of_list_ascii (repeat "0"%char (w - char_count s)).

(** ** Lemmas: characters and lists of characters *)

Lemma byte_range c : 0 <= byte c <= 255.
Proof.
  unfold byte. pose proof (N_ascii_bounded c). lia.
Qed.

Lemma byte_chr z : 0 <= z <= 255 -> byte (chr z) = z.
Proof.
  intros. unfold byte, chr. rewrite N_ascii_embedding; lia.
Qed.

Lemma digit_char_spec d : 0 <= d <= 9 ->
  is_digit (digit_char d) = true /\ digit_value (digit_char d) = d.
Proof.
  intros. unfold is_digit, digit_value, digit_char. rewrite byte_chr by lia.
  split; [apply andb_true_iff; split; apply Z.leb_le; lia | lia].
Qed.

Lemma digit_visible c : is_digit c = true -> is_visible c = true.
Proof.
  unfold is_digit, is_visible. intros H. zbool. apply andb_true_iff.
  split; apply Z.leb_le; lia.
Qed.

Lemma hexdigit_visible c : is_hexdigit c = true -> is_visible c = true.
Proof.
  unfold is_hexdigit, is_digit, is_visible. intros H. apply andb_true_iff.
  rewrite !orb_true_iff, !andb_true_iff, !Z.leb_le in *. lia.
Qed.

Lemma hexdigit_not_comma c : is_hexdigit c = true -> Ascii.eqb c "," = false.
Proof.
  intros H. apply Ascii.eqb_neq. intros ->. by vm_compute in H.
Qed.

Lemma digit_not_comma c : is_digit c = true -> Ascii.eqb c "," = false.
Proof.
  intros H. apply Ascii.eqb_neq. intros ->. by vm_compute in H.
Qed.

Lemma string_app_nil_r s : s +:+ "" = s.
Proof. induction s as [| c s IH]; [done |]. unfold String.app in *. simpl. by rewrite IH. Qed.

Lemma string_app_cons c s t : String c s +:+ t = String c (s +:+ t).
Proof. reflexivity. Qed.

Lemma string_app_nil_l t : "" +:+ t = t.
Proof. reflexivity. Qed.

Lemma string_app_assoc s t u : (s +:+ t) +:+ u = s +:+ (t +:+ u).
Proof. induction s as [| c s IH]; [done |]. by rewrite !string_app_cons, IH. Qed.

Lemma string_length_app s t :
  slength (s +:+ t) = (slength s + slength t)%nat.
Proof. induction s as [| c s IH]; [done |]. rewrite string_app_cons. simpl. by rewrite IH. Qed.

#[export] Hint Rewrite string_app_nil_r string_app_nil_l string_app_cons : tipjar.

Lemma all_chars_app p s t : all_chars p (s +:+ t) = all_chars p s && all_chars p t.
Proof.
  induction s as [| c s IH]; [done |]. rewrite string_app_cons. simpl. rewrite IH.
  apply andb_assoc.
Qed.

Lemma all_chars_impl (p q : ascii -> bool) s :
  (forall c, p c = true -> q c = true) -> all_chars p s = true -> all_chars q s = true.
Proof.
  intros Hpq. induction s as [| c s IH]; simpl; [done |].
  intros H. apply andb_true_iff in H as [? ?]. apply andb_true_iff. eauto.
Qed.

(** ** Lemmas: splitting and joining *)

Definition lacks (sep : ascii) (s : string) : bool :=
  all_chars (fun c => negb (Ascii.eqb c sep)) s.

Lemma split_on_nonempty sep s : split_on sep s <> [].
Proof. destruct s as [| c s]; simpl; [done |]. case_all; done. Qed.

Lemma split_on_app sep s t :
  split_on sep (s +:+ String sep t) = split_on sep s ++ split_on sep t.
Proof.
  induction s as [| c s IH].
  - simpl. by rewrite Ascii.eqb_refl.
  - rewrite string_app_cons. simpl. rewrite IH. destruct (Ascii.eqb c sep); [done |].
    destruct (split_on sep s) eqn:E; [by apply split_on_nonempty in E | done].
Qed.

Lemma split_on_lacks sep s : lacks sep s = true -> split_on sep s = [s].
Proof.
  induction s as [| c s IH]; [done |]. unfold lacks in *. simpl. intros H. zbool.
  rewrite H, IH; done.
Qed.

Lemma split_on_join sep l :
  l <> [] -> Forall (fun s => lacks sep s = true) l ->
  split_on sep (join (String sep "") l) = l.
Proof.
  induction l as [| s l IH]; [done |]. intros _ H.
  apply Forall_cons in H as [Hs Hl]. destruct l as [| t l].
  - by apply split_on_lacks.
  - change (split_on sep (s +:+ String sep (join (String sep "") (t :: l))) = s :: t :: l).
    rewrite split_on_app, split_on_lacks, IH; done.
Qed.

Lemma join_split_on sep s : join (String sep "") (split_on sep s) = s.
Proof.
  induction s as [| c s IH]; [done |]. simpl. destruct (Ascii.eqb_spec c sep) as [-> |].
  - destruct (split_on sep s) as [| p ps] eqn:E; [by apply split_on_nonempty in E |].
    cbn [join] in *. by rewrite IH.
  - destruct (split_on sep s) as [| p [| q ps]] eqn:E; [by apply split_on_nonempty in E | |];
      cbn [join] in *; by rewrite <- IH.
Qed.

Lemma split_on_lacks_pieces sep s : Forall (fun p => lacks sep p = true) (split_on sep s).
Proof.
  induction s as [| c s IH]; simpl; [by repeat constructor |].
  destruct (Ascii.eqb c sep) eqn:E; [by constructor |].
  destruct (split_on sep s) as [| p ps]; [repeat constructor; unfold lacks; simpl; by rewrite E |].
  apply Forall_cons in IH as [? ?]. constructor; [| done]. unfold lacks in *. simpl.
  by rewrite E.
Qed.

Lemma split_once_lacks sep s : lacks sep s = true -> split_once sep s = None.
Proof.
  induction s as [| c s IH]; [done |]. unfold lacks in *. simpl. intros H. zbool.
  rewrite H, IH; done.
Qed.

Lemma split_once_app sep s t :
  lacks sep s = true -> split_once sep (s +:+ String sep t) = Some (s, t).
Proof.
  induction s as [| c s IH]; unfold lacks in *; simpl.
  - by rewrite Ascii.eqb_refl.
  - intros H. zbool. rewrite H. fold (String.append s (String sep t)). by rewrite IH.
Qed.

Lemma split_once_Some sep s a b :
  split_once sep s = Some (a, b) -> s = a +:+ String sep b /\ lacks sep a = true.
Proof.
  revert a. induction s as [| c s IH]; intros a; simpl; [done |].
  destruct (Ascii.eqb c sep) eqn:E.
  - intros [= <- <-]. apply Ascii.eqb_eq in E as ->. done.
  - destruct (split_once sep s) as [[a' b'] |]; [| done]. intros [= <- <-].
    destruct (IH a' eq_refl) as [-> ?]. unfold lacks in *. simpl. by rewrite E.
Qed.

Lemma strip_prefix_app p s : strip_prefix p (p +:+ s) = Some s.
Proof.
  induction p as [| c p IH]; [done |]. rewrite string_app_cons. simpl.
  by rewrite Ascii.eqb_refl.
Qed.

Lemma strip_prefix_Some p s t : strip_prefix p s = Some t -> s = p +:+ t.
Proof.
  revert s. induction p as [| c p IH]; intros s; simpl; [by intros [= ->] |].
  destruct s as [| d s]; [done |]. destruct (Ascii.eqb c d) eqn:E; [| done].
  apply Ascii.eqb_eq in E as ->. intros H. by rewrite string_app_cons, <- (IH s H).
Qed.

(** ** Lemmas: trimming *)

Lemma strip_any_visible c l :
  is_visible c = true -> strip_any white_space (c :: l) = None.
Proof.
  intros H. destruct c as [[] [] [] [] [] [] [] []]; vm_compute in H;
    try discriminate H; reflexivity.
Qed.

Lemma strip_any_rev_visible c l :
  is_visible c = true -> strip_any (map (@rev ascii) white_space) (c :: l) = None.
Proof.
  intros H. destruct c as [[] [] [] [] [] [] [] []]; vm_compute in H;
    try discriminate H; reflexivity.
Qed.

Lemma list_ascii_app s t :
  list_ascii_of_string (s +:+ t) = (list_ascii_of_string s ++ list_ascii_of_string t)%list.
Proof. induction s as [| c s IH]; [done |]. rewrite string_app_cons. simpl. by rewrite IH. Qed.

Lemma trim_list_head pats c l : strip_any pats (c :: l) = None -> trim_list pats (c :: l) = c :: l.
Proof. unfold trim_list. cbn [length trim_front]. by intros ->. Qed.

(** A string that begins and ends with visible characters is not changed. *)
Lemma trim_visible s c t d :
  is_visible c = true -> is_visible d = true ->
  String c s = t +:+ String d "" -> trim (String c s) = String c s.
Proof.
  intros Hc Hd Heq. unfold trim.
  assert (trim_list white_space (list_ascii_of_string (String c s))
          = list_ascii_of_string (String c s)) as ->.
  { simpl list_ascii_of_string. apply trim_list_head, strip_any_visible, Hc. }
  rewrite Heq, list_ascii_app, rev_app_distr.
  change (rev (list_ascii_of_string (String d "")) ++ rev (list_ascii_of_string t))%list
    with (d :: rev (list_ascii_of_string t)).
  rewrite trim_list_head by apply strip_any_rev_visible, Hd.
  cbn [rev]. rewrite rev_involutive.
  change [d] with (list_ascii_of_string (String d "")). rewrite <- list_ascii_app.
  apply Stdlib.Strings.String.string_of_list_ascii_of_string.
Qed.

Lemma string_snoc s : s = "" \/ exists t d, s = t +:+ String d "".
Proof.
  induction s as [| c s [-> | (t & d & ->)]]; [by left | right; by exists "", c |].
  right. exists (String c t), d. reflexivity.
Qed.

Lemma trim_all_visible s : all_chars is_visible s = true -> trim s = s.
Proof.
  intros H. destruct s as [| c s]; [reflexivity |].
  destruct (string_snoc (String c s)) as [? | (t & d & Heq)]; [done |].
  eapply trim_visible; [| | exact Heq].
  - simpl in H. by zbool.
  - rewrite Heq, all_chars_app in H. zbool. simpl in *. by zbool.
Qed.
#[export] Hint Resolve trim_all_visible digit_visible hexdigit_visible : tipjar.

(** ** Lemmas: parsing and printing integers *)

Lemma parse_digits_from_app acc s t :
  parse_digits_from acc (s +:+ t) =
  match parse_digits_from acc s with Some a => parse_digits_from a t | None => None end.
Proof.
  revert acc. induction s as [| c s IH]; intros acc; [done |].
  rewrite string_app_cons. simpl. destruct (is_digit c); [apply IH | done].
Qed.

Lemma parse_digits_from_Some acc s n :
  parse_digits_from acc s = Some n -> all_chars is_digit s = true.
Proof.
  revert acc. induction s as [| c s IH]; intros acc; simpl; [done |].
  destruct (is_digit c); [apply IH | done].
Qed.

Lemma digit_value_range c : is_digit c = true -> 0 <= digit_value c <= 9.
Proof. unfold is_digit, digit_value. intros. zbool. lia. Qed.

Lemma parse_digits_from_total acc s :
  all_chars is_digit s = true ->
  exists n, parse_digits_from acc s = Some (acc * 10 ^ Z.of_nat (slength s) + n)
            /\ 0 <= n < 10 ^ Z.of_nat (slength s)
            /\ parse_digits s = Some n.
Proof.
  unfold parse_digits.
  revert acc. induction s as [| c s IH]; intros acc H.
  - exists 0. simpl. split_and!; [f_equal; lia | lia | lia | done].
  - simpl in H. zbool. pose proof (digit_value_range c H).
    destruct (IH (10 * acc + digit_value c) H0) as (n & Hn & Hr & Hp).
    destruct (IH (10 * 0 + digit_value c) H0) as (n' & Hn' & _ & Hp').
    assert (n' = n) as -> by congruence.
    exists (digit_value c * 10 ^ Z.of_nat (slength s) + n).
    simpl slength. rewrite Nat2Z.inj_succ, Z.pow_succ_r by lia.
    cbn [parse_digits_from]. rewrite H. split_and!.
    + rewrite Hn. f_equal. lia.
    + nia.
    + nia.
    + rewrite Hn'. f_equal; lia.
Qed.

Lemma parse_digits_None s : all_chars is_digit s = false -> parse_digits s = None.
Proof.
  destruct (parse_digits s) eqn:E; [| done].
  apply parse_digits_from_Some in E. by rewrite E.
Qed.

Lemma parse_digits_range s n : parse_digits s = Some n -> 0 <= n < 10 ^ Z.of_nat (slength s).
Proof.
  intros H. pose proof (parse_digits_from_Some _ _ _ H) as Hd.
  destruct (parse_digits_from_total 0 s Hd) as (m & ? & ? & Hm). congruence.
Qed.

Lemma print_digits_spec fuel n acc :
  0 <= n < 2 ^ Z.of_nat fuel ->
  exists s, print_digits fuel n acc = s +:+ acc /\ (fuel <> O -> s <> "")
            /\ all_chars is_digit s = true /\ (fuel <> O -> parse_digits s = Some n).
Proof.
  revert n acc. induction fuel as [| f IH]; intros n acc Hn; [by exists "" |].
  rewrite Nat2Z.inj_succ, Z.pow_succ_r in Hn by lia.
  pose proof (Z.mod_pos_bound n 10 ltac:(lia)).
  pose proof (Z.div_mod n 10 ltac:(lia)) as Hdm.
  destruct (digit_char_spec (n mod 10) ltac:(lia)) as [Hd Hv].
  simpl. destruct (n <? 10) eqn:E; zbool.
  - exists (String (digit_char (n mod 10)) ""). split_and!; [done | done | simpl; by rewrite Hd |].
    intros _. unfold parse_digits. cbn [parse_digits_from]. rewrite Hd, Hv. f_equal.
    rewrite Z.mod_small in *; lia.
  - destruct f as [| f]; [simpl in Hn; lia |].
    destruct (IH (n / 10) (String (digit_char (n mod 10)) acc)) as (s & Hs & Hne & Hds & Hp).
    { split; [apply Z.div_pos; lia |]. apply Z.div_lt_upper_bound; lia. }
    exists (s +:+ String (digit_char (n mod 10)) ""). rewrite Hs. split_and!.
    + by rewrite string_app_assoc.
    + intros _ Hcontra. destruct s; done.
    + rewrite all_chars_app, Hds. simpl. by rewrite Hd.
    + intros _. unfold parse_digits in *. rewrite parse_digits_from_app, (Hp ltac:(lia)).
      cbn [parse_digits_from]. rewrite Hd, Hv. f_equal. lia.
Qed.

Lemma print_Z_spec n : 0 <= n ->
  print_Z n <> "" /\ all_chars is_digit (print_Z n) = true /\ parse_digits (print_Z n) = Some n.
Proof.
  intros Hn. unfold print_Z.
  destruct (print_digits_spec (S (Z.to_nat (Z.log2 n))) n "") as (s & -> & Hne & Hd & Hp).
  { split; [done |]. rewrite Nat2Z.inj_succ, Z2Nat.id by apply Z.log2_nonneg.
    destruct (decide (n = 0)) as [-> | ?]; [reflexivity |].
    apply Z.log2_spec. lia. }
  rewrite string_app_nil_r. split_and!; auto.
Qed.

Lemma digits_no_sign s : all_chars is_digit s = true -> s <> "" ->
  parse_u64 s = in_range 0 u64_max (parse_digits s) /\
  parse_i64 s = in_range i64_min i64_max (parse_digits s).
Proof.
  destruct s as [| c s]; [done |]. simpl all_chars. intros H _. zbool.
  destruct c as [[] [] [] [] [] [] [] []]; try (vm_compute in H; discriminate H); split; reflexivity.
Qed.

Lemma in_range_Some lo hi o z : in_range lo hi o = Some z <-> o = Some z /\ lo <= z <= hi.
Proof.
  destruct o as [y |]; simpl; [| naive_solver].
  destruct (_ && _) eqn:E; zbool; [naive_solver |].
  apply andb_false_iff in E. split; [done |]. intros [[= ->] ?]. destruct E; zbool; lia.
Qed.

Lemma parse_u64_print n : 0 <= n <= u64_max -> parse_u64 (print_Z n) = Some n.
Proof.
  intros. destruct (print_Z_spec n) as (? & ? & Hp); [lia |].
  rewrite (proj1 (digits_no_sign _ ltac:(done) ltac:(done))), Hp. by apply in_range_Some.
Qed.

Lemma parse_i64_print n : 0 <= n <= i64_max -> parse_i64 (print_Z n) = Some n.
Proof.
  intros. destruct (print_Z_spec n) as (? & ? & Hp); [lia |].
  rewrite (proj2 (digits_no_sign _ ltac:(done) ltac:(done))), Hp. apply in_range_Some.
  unfold i64_min. split; [done | lia].
Qed.
#[export] Hint Rewrite parse_u64_print parse_i64_print using lia : tipjar.

(** ** Lemmas: padding *)

Lemma char_count_digits s : all_chars is_digit s = true -> char_count s = slength s.
Proof.
  induction s as [| c s IH]; [done |]. simpl. intros H. zbool. rewrite IH by done.
  destruct c as [[] [] [] [] [] [] [] []]; vm_compute in H; try discriminate H; reflexivity.
Qed.

Lemma zeros_spec k :
  all_chars is_digit (string_of_list_ascii (repeat "0"%char k)) = true /\
  slength (string_of_list_ascii (repeat "0"%char k)) = k /\
  forall acc, parse_digits_from acc (string_of_list_ascii (repeat "0"%char k))
              = Some (acc * 10 ^ Z.of_nat k).
Proof.
  induction k as [| k (Hd & Hl & Hp)].
  - split_and!; [done | done |]. intros acc. simpl. f_equal. lia.
  - split_and!; [simpl; by rewrite Hd | simpl; by rewrite Hl |]. intros acc.
    cbn [repeat Stdlib.Strings.String.string_of_list_ascii parse_digits_from].
    change (is_digit "0") with true. cbv iota. rewrite Hp.
    change (digit_value "0") with 0. rewrite Nat2Z.inj_succ, Z.pow_succ_r by lia.
    f_equal. lia.
Qed.

(** Padding digits on the right scales their value. *)
Lemma pad_right_zeros_digits w s v :
  parse_digits s = Some v -> (slength s <= w)%nat ->
  all_chars is_digit (pad_right_zeros w s) = true /\
  slength (pad_right_zeros w s) = w /\
  parse_digits (pad_right_zeros w s) = Some (v * 10 ^ Z.of_nat (w - slength s)).
Proof.
  intros Hv Hw. pose proof (parse_digits_from_Some _ _ _ Hv) as Hd.
  unfold pad_right_zeros. rewrite char_count_digits by done.
  destruct (zeros_spec (w - slength s)) as (Hz & Hl & Hp).
  split_and!.
  - by rewrite all_chars_app, Hd, Hz.
  - rewrite string_length_app, Hl. lia.
  - unfold parse_digits in *. by rewrite parse_digits_from_app, Hv.
Qed.

Lemma substring_all n s : slength s = n -> Stdlib.Strings.String.substring 0 n s = s.
Proof.
  revert n. induction s as [| c s IH]; intros n H; simpl in H; subst; [done |].
  simpl. by rewrite IH.
Qed.
