(* ===== verification/Codec.v ===== *)
(** * A concrete codec

    Serialization (serde_json, base64, gzip, ..) comes from other crates; the
    components take it as a pair of functions with a round-trip law.  The pair
    defined here satisfies that law for every countable type, so that the
    witnesses of theorems with such a hypothesis run on it.  [tally] draws
    identifiers. *)

From stdpp Require Import countable.
From S2P Require Import Prelude Text.

(** The binary digits of a number, least significant first. *)
Fixpoint bits (p : positive) : string :=
  match p with
  | xH => ""
  | xO p' => String "0" (bits p')
  | xI p' => String "1" (bits p')
  end.

Fixpoint unbits (s : string) : positive :=
  match s with
  | EmptyString => xH
  | String c s' => if Ascii.eqb c "1"%char then xI (unbits s') else xO (unbits s')
  end.

Lemma unbits_bits p : unbits (bits p) = p.
Proof. induction p as [p IH | p IH |]; simpl; by rewrite ?IH. Qed.

Definition to_text {A} `{Countable A} (a : A) : string := bits (encode a).

Definition from_text {A} `{Countable A} (s : string) : result A string :=
  match decode (unbits s) with Some a => Ok a | None => Err "malformed" end.

Lemma from_to_text {A} `{Countable A} (a : A) : from_text (to_text a) = Ok a.
Proof. unfold from_text, to_text. by rewrite unbits_bits, decode_encode. Qed.

(** Identifiers that differ: the n-th one has n letters. *)
Fixpoint tally (n : nat) : string := match n with O => EmptyString | S n' => String "i" (tally n') end.

Lemma tally_inj m n : tally m = tally n -> m = n.
Proof. revert n. induction m as [| m IH]; intros [| n]; simpl; intros [=]; auto. Qed.
