(* ===== verification/Errors.v ===== *)
(** * Errors: the error types of src/src/errors and their HTTP responses

    [AppError] and the three enums it wraps, the mapping to an HTTP status, to
    the stable error code, message and details of the error envelope, and the
    [IntoResponse] that turns an error into a response.  JSON values
    ([serde_json::Value]) are the type [json]; log lines are not modelled. *)

From S2P Require Import Prelude Text.

(** [serde_json::Value], as far as the error bodies use it. *)
Inductive json : Type :=
| JNum (n : Z)
| JStr (s : string)
| JObj (fields : list (string * json)).

(** src/src/errors/database.rs:4-14 DatabaseError *)
Inductive DatabaseError : Type :=
| NotFound (entity identifier : string)
| UniqueViolation (field : string)
| QueryFailed.

(** src/src/errors/stellar.rs:5-45 StellarError *)
Inductive StellarError : Type :=
| TransactionNotFound (hash : string)
| InvalidTransaction (reason : string)
| NetworkUnavailable
| CircuitBreakerOpen
| TransactionFailed (code message : string)
| OperationFailed (code message : string)
| StellarRateLimited (retry_after_secs : Z)
| GatewayTimeout
| DestinationUnfunded (address : string)
| InsufficientBalance (available_xlm required_xlm : string)
| MemoTooLong (actual_bytes : Z).

(** src/src/errors/validation.rs:2-11 ValidationError *)
Inductive ValidationError : Type :=
| InvalidJson (reason : string)
| InvalidFields (fields : list (string * json))
| InvalidRequest (message : string).

(** src/src/errors/app_error.rs:13-41 AppError *)
Inductive AppError : Type :=
| Database (e : DatabaseError)
| Stellar (e : StellarError)
| Validation (e : ValidationError)
| CreatorNotFound (username : string)
| Unauthorized (message : string)
| Forbidden (message : string)
| Conflict (code message : string)
| ServiceUnavailable (message : string)
| RateLimited (message : string) (retry_after_secs : option Z)
| IdempotencyKeyReused (message : string)
| IdempotencyKeyLocked (retry_after_secs : Z)
| Internal.

(** src/src/errors/app_error.rs:10-10 AppResult *)
Definition AppResult (T : Type) : Type := result T AppError.

(** ** Constructors *)

(** src/src/errors/app_error.rs:57-59 AppError::internal *)
Definition internal : AppError := Internal.

(** src/src/errors/app_error.rs:61-64 AppError::internal_with_message *)
Definition internal_with_message (msg : string) : AppError := Internal.

(** src/src/errors/app_error.rs:66-69 AppError::database_error *)
Definition database_error (msg : string) : AppError := Database QueryFailed.

(** src/src/errors/app_error.rs:83-88 AppError::not_found *)
Definition not_found (message : string) : AppError := Database (NotFound "resource" message).

(** src/src/errors/app_error.rs:90-94 AppError::bad_request *)
Definition bad_request (message : string) : AppError := Validation (InvalidRequest message).

(** src/src/errors/app_error.rs:96-101 AppError::rate_limited_with_retry *)
Definition rate_limited_with_retry (message : string) (retry_after_secs : Z) : AppError :=
  RateLimited message (Some retry_after_secs).

(** src/src/errors/app_error.rs:103-107 AppError::service_unavailable *)
Definition service_unavailable (message : string) : AppError := ServiceUnavailable message.

(** The part of [sqlx::Error] that the mapping inspects: the SQLSTATE of a
    database error with the constraint it names, a missing row, or another
    failure. *)
Inductive sqlx_error : Type :=
| SqlxDatabase (code : option string) (constraint : option string)
| SqlxRowNotFound
| SqlxOther.

(** src/src/errors/database.rs:17-28 DatabaseError::from_sqlx *)
Definition from_sqlx (err : sqlx_error) : DatabaseError :=
  match err with
  | SqlxDatabase (Some code) constraint =>
      if String.eqb code "23505" then UniqueViolation (default "unknown" constraint)
      else QueryFailed
  | _ => QueryFailed
  end.

(** src/src/errors/app_error.rs:202-210 From<sqlx::Error> *)
Definition app_error_from_sqlx (err : sqlx_error) : AppError := Database (from_sqlx err).

(** ** Status, code, message and details *)

(** src/src/errors/app_error.rs:110-141 AppError::status_code *)
Definition status_code (e : AppError) : Z :=
  match e with
  | Database (NotFound _ _) => 404
  | Database (UniqueViolation _) => 409
  | Database QueryFailed => 500
  | Stellar err =>
      match err with
      | TransactionNotFound _ => 422
      | InvalidTransaction _ => 422
      | NetworkUnavailable => 502
      | CircuitBreakerOpen => 503
      | TransactionFailed _ _ => 422
      | OperationFailed _ _ => 422
      | StellarRateLimited _ => 429
      | GatewayTimeout => 504
      | DestinationUnfunded _ => 422
      | InsufficientBalance _ _ => 422
      | MemoTooLong _ => 422
      end
  | Validation _ => 400
  | CreatorNotFound _ => 404
  | Unauthorized _ => 401
  | Forbidden _ => 403
  | Conflict _ _ => 409
  | ServiceUnavailable _ => 503
  | RateLimited _ _ => 429
  | IdempotencyKeyReused _ => 422
  | IdempotencyKeyLocked _ => 409
  | Internal => 500
  end.

(** src/src/errors/database.rs:30-55 DatabaseError::code, message, details *)
Definition database_envelope (e : DatabaseError) : string * string * json :=
  match e with
  | NotFound entity identifier =>
      ("DB_NOT_FOUND", entity +:+ " not found",
       JObj [("entity", JStr entity); ("identifier", JStr identifier)])
  | UniqueViolation field =>
      ("DB_UNIQUE_VIOLATION", "A record with this " +:+ field +:+ " already exists",
       JObj [("field", JStr field)])
  | QueryFailed => ("DB_QUERY_FAILED", "Unable to complete database operation", JObj [])
  end.

(** src/src/errors/stellar.rs:48-62 StellarError::code *)
Definition stellar_code (e : StellarError) : string :=
  match e with
  | TransactionNotFound _ => "STELLAR_TX_NOT_FOUND"
  | InvalidTransaction _ => "STELLAR_INVALID_TX"
  | NetworkUnavailable => "STELLAR_NETWORK_UNAVAILABLE"
  | CircuitBreakerOpen => "STELLAR_CIRCUIT_OPEN"
  | TransactionFailed _ _ => "STELLAR_TX_FAILED"
  | OperationFailed _ _ => "STELLAR_OP_FAILED"
  | StellarRateLimited _ => "STELLAR_RATE_LIMITED"
  | GatewayTimeout => "STELLAR_GATEWAY_TIMEOUT"
  | DestinationUnfunded _ => "STELLAR_DESTINATION_UNFUNDED"
  | InsufficientBalance _ _ => "STELLAR_INSUFFICIENT_BALANCE"
  | MemoTooLong _ => "STELLAR_MEMO_TOO_LONG"
  end.

(** src/src/errors/stellar.rs:64-107 StellarError::message *)
Definition stellar_message (e : StellarError) : string :=
  match e with
  | TransactionNotFound _ => "Transaction not found or unsuccessful on the Stellar network"
  | InvalidTransaction reason => "Invalid Stellar transaction: " +:+ reason
  | NetworkUnavailable => "Unable to verify transaction on the Stellar network"
  | CircuitBreakerOpen => "Transaction verification is temporarily unavailable"
  | TransactionFailed _ message => message
  | OperationFailed _ message => message
  | StellarRateLimited secs =>
      "Too many requests to Stellar network. Please retry after " +:+ print_Z secs +:+ " seconds."
  | GatewayTimeout =>
      "Stellar network timed out. Your tip may have been submitted — please check your transaction status before retrying."
  | DestinationUnfunded address =>
      "The destination account " +:+ Stdlib.Strings.String.substring 0 8 address +:+
      " does not exist on the Stellar network. It must be funded with at least 1 XLM before receiving a tip."
  | InsufficientBalance available required =>
      "Insufficient spendable balance. You have " +:+ available +:+
      " XLM available but " +:+ required +:+ " XLM is required."
  | MemoTooLong n =>
      "Tip memo is " +:+ print_Z n +:+
      " bytes (UTF-8), but Stellar memos are limited to 28 bytes. Please shorten your memo."
  end.

(** src/src/errors/stellar.rs:109-132 StellarError::details *)
Definition stellar_details (e : StellarError) : json :=
  match e with
  | TransactionNotFound hash => JObj [("transaction_hash", JStr hash)]
  | InvalidTransaction reason => JObj [("reason", JStr reason)]
  | NetworkUnavailable | CircuitBreakerOpen => JObj []
  | TransactionFailed code _ => JObj [("result_code", JStr code)]
  | OperationFailed code _ => JObj [("result_code", JStr code)]
  | StellarRateLimited secs => JObj [("retry_after_secs", JNum secs)]
  | GatewayTimeout => JObj [("action", JStr "check_transaction_status_before_retry")]
  | DestinationUnfunded address => JObj [("destination", JStr address)]
  | InsufficientBalance available required =>
      JObj [("available_xlm", JStr available); ("required_xlm", JStr required)]
  | MemoTooLong n => JObj [("actual_bytes", JNum n); ("max_bytes", JNum 28)]
  end.

(** src/src/errors/validation.rs:14-36 ValidationError::code, message, details *)
Definition validation_envelope (e : ValidationError) : string * string * json :=
  match e with
  | InvalidJson reason =>
      ("INVALID_JSON", "Invalid JSON payload: " +:+ reason, JObj [("reason", JStr reason)])
  | InvalidFields fields =>
      ("VALIDATION_ERROR", "One or more fields failed validation", JObj [("fields", JObj fields)])
  | InvalidRequest message => ("INVALID_REQUEST", message, JObj [])
  end.

(** src/src/errors/app_error.rs:149-187 AppError::code_message_details *)
Definition code_message_details (e : AppError) : string * string * option json :=
  match e with
  | Database err =>
      let '(code, message, details) := database_envelope err in
      match err with
      | QueryFailed => (code, "Internal server error", None)
      | _ => (code, message, Some details)
      end
  | Stellar err => (stellar_code err, stellar_message err, Some (stellar_details err))
  | Validation err =>
      let '(code, message, details) := validation_envelope err in (code, message, Some details)
  | CreatorNotFound username =>
      ("CREATOR_NOT_FOUND", "Creator not found", Some (JObj [("username", JStr username)]))
  | Unauthorized message => ("UNAUTHORIZED", message, None)
  | Forbidden message => ("FORBIDDEN", message, None)
  | Conflict code message => (code, message, None)
  | ServiceUnavailable message => ("SERVICE_UNAVAILABLE", message, None)
  | RateLimited message retry =>
      ("RATE_LIMIT_EXCEEDED", message,
       (fun s => JObj [("retry_after_secs", JNum s)]) <$> retry)
  | IdempotencyKeyReused message => ("IDEMPOTENCY_KEY_REUSED", message, None)
  | IdempotencyKeyLocked secs =>
      ("IDEMPOTENCY_KEY_LOCKED", "A request with this Idempotency-Key is already in progress",
       Some (JObj [("retry_after_secs", JNum secs)]))
  | Internal => ("INTERNAL_ERROR", "Internal server error", None)
  end.

(** src/src/errors/app_error.rs:46-54 ErrorResponse *)
Record ErrorResponse : Type := {
  er_error : string;
  er_code : string;
  er_status : Z;
  er_details : option json;
  er_request_id : option string
}.

(** An HTTP response: status line, headers, body. *)
Record Response (B : Type) : Type := {
  resp_status : Z;
  resp_headers : list (string * string);
  resp_body : B
}.
Arguments resp_status {B} _.
Arguments resp_headers {B} _.
Arguments resp_body {B} _.

(** src/src/errors/app_error.rs:189-199 AppError::to_error_response *)
Definition to_error_response (rid : option string) (e : AppError) : ErrorResponse :=
  let '(c, m, d) := code_message_details e in
  {| er_error := m; er_code := c; er_status := status_code e;
     er_details := d; er_request_id := rid |}.

(** src/src/errors/app_error.rs:232-261 IntoResponse for AppError *)
Definition into_response (rid : option string) (e : AppError) : Response ErrorResponse :=
  let retry_after_secs :=
    match e with
    | RateLimited _ retry => retry
    | IdempotencyKeyLocked secs => Some secs
    | _ => None
    end in
  {| resp_status := status_code e;
     resp_headers :=
       match retry_after_secs with
       | Some secs => [("Retry-After", print_Z secs)]
       | None => []
       end;
     resp_body := to_error_response rid e |}.

(** ** Properties *)

(** The response of every error is well formed: the HTTP status equals the
    [status] field of the envelope and is a 4xx or 5xx, and a [Retry-After]
    header is present exactly for the errors that carry a delay of their own;
    an internal failure (a failed query or [Internal]) exposes no detail. *)
Lemma into_response_well_formed (rid : option string) (e : AppError) :
  resp_status (into_response rid e) = er_status (resp_body (into_response rid e)) /\
  400 <= resp_status (into_response rid e) <= 599 /\
  (resp_headers (into_response rid e) = [] <->
   ~ (exists m s, e = RateLimited m (Some s)) /\ ~ (exists s, e = IdempotencyKeyLocked s)) /\
  (resp_status (into_response rid e) = 500 ->
   er_details (resp_body (into_response rid e)) = None /\
   er_error (resp_body (into_response rid e)) = "Internal server error").
Proof.
  destruct e as [[] | [] | [] | | | | | | ? [] | | |]; cbn; split_and!; try done; try lia;
    split; naive_solver.
Qed.
