(* ===== verification/Amount.v ===== *)
(** * Amount: XLM amounts, memos and Stellar addresses

    The two conversions from an XLM decimal string to stroops
    (src/src/services/stellar_service.rs and src/src/validation/amount.rs), the
    memo limit, and the validation and decoding of a Stellar address with its
    CRC-16 (src/src/validation/stellar.rs).  [i64] overflow follows the release
    profile, where an unchecked [*] or [+] wraps.  The slice [&padded[..7]] cannot
    panic: the fractional part has at most seven bytes and the padding is
    ASCII, so byte 7 always starts a character. *)

From Stdlib Require Import Ascii.
From S2P Require Import Prelude Text Errors.

(** ** Conversions *)

(** src/src/services/stellar_service.rs:29-29 STROOPS_PER_XLM *)
Definition STROOPS_PER_XLM : Z := 10000000.

(** src/src/services/stellar_service.rs:31-31 STELLAR_DECIMAL_PLACES *)
Definition STELLAR_DECIMAL_PLACES : nat := 7.

(** src/src/services/stellar_service.rs:27-27 MEMO_MAX_BYTES *)
Definition MEMO_MAX_BYTES : Z := 28.

(** src/src/services/stellar_service.rs:514-514 is_ascii_digits *)
Definition is_ascii_digits (s : string) : bool :=
  negb (String.eqb s "") && all_chars is_digit s.

(** src/src/services/stellar_service.rs:506-507 invalid *)
Definition invalid (reason : string) : AppError := Stellar (InvalidTransaction reason).

(** src/src/services/stellar_service.rs:474-559 StellarService::xlm_to_stroops *)
Definition xlm_to_stroops (amount_str : string) : AppResult Z :=
  let '(whole_str, frac_str) :=
    match split_once "." amount_str with
    | Some (whole, frac) => (whole, frac)
    | None => (amount_str, "")
    end in
  if negb (is_ascii_digits whole_str) then
    Err (invalid ("Amount '" +:+ amount_str +:+ "' is not a non-negative decimal number"))
  else if negb (String.eqb frac_str "") && negb (is_ascii_digits frac_str) then
    Err (invalid ("Amount '" +:+ amount_str +:+ "' has an invalid fractional part"))
  else if (STELLAR_DECIMAL_PLACES <? slength frac_str)%nat then
    Err (invalid ("Amount '" +:+ amount_str +:+ "' has more than 7 decimal places"))
  else
    match parse_i64 whole_str with
    | None => Err (invalid ("Amount '" +:+ amount_str +:+ "' is too large"))
    | Some whole =>
        match parse_i64 (pad_right_zeros STELLAR_DECIMAL_PLACES frac_str) with
        | None => Err (invalid ("Amount '" +:+ amount_str +:+ "' has an invalid fractional part"))
        | Some fractional =>
            ok_or (invalid ("Amount '" +:+ amount_str +:+ "' overflows i64 stroops"))
              (s ← i64_checked (whole * STROOPS_PER_XLM); i64_checked (s + fractional))
        end
    end.

(** src/src/validation/amount.rs:29-73 xlm_to_stroops_str *)
Definition xlm_to_stroops_str (amount0 : string) : result Z string :=
  let amount := trim amount0 in
  let '(whole_str, frac_str) :=
    match split_once "." amount with
    | Some (w, f) => (w, f)
    | None => (amount, "")
    end in
  if String.eqb whole_str "" then Err ("Invalid XLM amount: '" +:+ amount +:+ "'")
  else
    match parse_i64 whole_str with
    | None =>
        Err ("Cannot parse whole part '" +:+ whole_str +:+ "' of amount '" +:+ amount +:+ "'")
    | Some whole =>
        if whole <? 0 then Err ("Amount must not be negative: '" +:+ amount +:+ "'")
        else if (7 <? slength frac_str)%nat then
          Err ("Amount '" +:+ amount +:+ "' has more than 7 decimal places")
        else
          let padded := pad_right_zeros 7 frac_str in
          match parse_i64 (Stdlib.Strings.String.substring 0 7 padded) with
          | None => Err ("Cannot parse fractional part of amount '" +:+ amount +:+ "'")
          | Some fractional => Ok (wrap_i64 (wrap_i64 (whole * 10000000) + fractional))
          end
    end.

(** src/src/services/stellar_service.rs:206-219 StellarService::validate_memo *)
Definition validate_memo (memo : string) : AppResult unit :=
  let byte_len := Z.of_nat (slength memo) in
  if MEMO_MAX_BYTES <? byte_len then Err (Stellar (MemoTooLong byte_len)) else Ok tt.

(** ** Addresses *)

(** src/src/validation/stellar.rs:4-26 validate_stellar_address *)
Definition validate_stellar_address (address : string) : result unit string :=
  if negb (slength address =? 56)%nat then Err "Stellar address must be exactly 56 characters"
  else if negb (starts_with "G" address) then Err "Stellar address must start with 'G'"
  else if negb (all_chars (fun c => is_alphanumeric c && is_upper c) address) then
    Err "Stellar address must contain only uppercase alphanumeric characters"
  else Ok tt.

(** src/src/validation/stellar.rs:58-64 one bit of crc16_xmodem *)
Definition crc16_bit (crc : Z) : Z :=
  if negb (Z.land crc 32768 =? 0)
  then Z.lxor (wrap_u16 (Z.shiftl crc 1)) 4129
  else wrap_u16 (Z.shiftl crc 1).

(** src/src/validation/stellar.rs:56-65 one byte of crc16_xmodem *)
Definition crc16_byte (crc b : Z) : Z :=
  Nat.iter 8 crc16_bit (Z.lxor crc (wrap_u16 (Z.shiftl b 8))).

(** src/src/validation/stellar.rs:54-67 crc16_xmodem *)
Definition crc16_xmodem (data : list Z) : Z := foldl crc16_byte 0 data.

(** src/src/validation/stellar.rs:38-38 ED25519_PUBLIC_KEY_VERSION *)
Definition ED25519_PUBLIC_KEY_VERSION : Z := 48.

Section decode.
(** [BASE32_NOPAD.decode] of the crate data-encoding. *)
Variable base32_decode : string -> option (list Z).

(** src/src/validation/stellar.rs:28-52 decode_stellar_public_key *)
Definition decode_stellar_public_key (address : string) : result (list Z) string :=
  match base32_decode address with
  | None => Err "Invalid Stellar public key encoding"
  | Some decoded =>
      if negb (length decoded =? 35)%nat then Err "Invalid Stellar public key length"
      else if negb (nth 0 decoded 0 =? ED25519_PUBLIC_KEY_VERSION) then
        Err "Invalid Stellar public key version"
      else
        let payload := take 33 decoded in
        let checksum := nth 33 decoded 0 + 256 * nth 34 decoded 0 in
        if negb (crc16_xmodem payload =? checksum) then Err "Invalid Stellar public key checksum"
        else Ok (take 32 (drop 1 decoded))
  end.
End decode.

(** The StrKey of a public key, before base32: the reference the decoder is
    checked against. *)
Definition strkey_bytes (key : list Z) : list Z :=
  let payload := ED25519_PUBLIC_KEY_VERSION :: key in
  payload ++ [Z.land (crc16_xmodem payload) 255; Z.shiftr (crc16_xmodem payload) 8].

(** ** The decimal grammar of a Stellar amount *)

(** [s] is [digits] or [digits.digits] with at most seven decimals, and denotes
    [n] stroops. *)
Definition decimal_amount (s : string) (n : Z) : Prop :=
  exists w f wv fv,
    (s = w /\ f = "" \/ s = w +:+ String "." f) /\
    w <> "" /\ parse_digits w = Some wv /\ parse_digits f = Some fv /\
    (slength f <= 7)%nat /\
    n = wv * STROOPS_PER_XLM + fv * 10 ^ Z.of_nat (7 - slength f).

(** Horizon's format: the whole part, a point and exactly seven decimals. *)
Fixpoint print_fixed (k : nat) (n : Z) (acc : string) : string :=
  match k with
  | O => acc
  | S k' => print_fixed k' (n / 10) (String (digit_char (n mod 10)) acc)
  end.

Definition format_stroops (n : Z) : string :=
  print_Z (n / STROOPS_PER_XLM) +:+ String "." (print_fixed 7 (n mod STROOPS_PER_XLM) "").

(** ** Lemmas *)

Lemma digits_lack_dot s : all_chars is_digit s = true -> lacks "." s = true.
Proof.
  unfold lacks. apply all_chars_impl. intros c Hc. apply negb_true_iff, Ascii.eqb_neq.
  intros ->. by vm_compute in Hc.
Qed.

Lemma is_ascii_digits_spec s :
  is_ascii_digits s = true <-> s <> "" /\ exists v, parse_digits s = Some v.
Proof.
  unfold is_ascii_digits. rewrite andb_true_iff, negb_true_iff, String.eqb_neq.
  split; intros [? H]; split; try done.
  - destruct (parse_digits_from_total 0 s H) as (v & _ & _ & ?). eauto.
  - destruct H as [v H]. by eapply parse_digits_from_Some.
Qed.

Lemma split_amount w f :
  all_chars is_digit w = true -> split_once "." (w +:+ String "." f) = Some (w, f).
Proof. intros. by apply split_once_app, digits_lack_dot. Qed.

Lemma parse_i64_digits s v :
  parse_digits s = Some v -> s <> "" -> parse_i64 s = in_range i64_min i64_max (Some v).
Proof.
  intros Hv Hne. rewrite <- Hv.
  apply (digits_no_sign s); [by eapply parse_digits_from_Some | done].
Qed.

Lemma padded_fraction f fv :
  parse_digits f = Some fv -> (slength f <= 7)%nat ->
  parse_i64 (pad_right_zeros 7 f) = Some (fv * 10 ^ Z.of_nat (7 - slength f)) /\
  0 <= fv * 10 ^ Z.of_nat (7 - slength f) < STROOPS_PER_XLM /\
  slength (pad_right_zeros 7 f) = 7%nat.
Proof.
  intros Hf Hl. destruct (pad_right_zeros_digits 7 f fv Hf Hl) as (_ & Hlen & Hp).
  pose proof (parse_digits_range _ _ Hp) as Hr. rewrite Hlen in Hr.
  change (10 ^ Z.of_nat 7) with STROOPS_PER_XLM in Hr. split_and!; try lia.
  rewrite (parse_i64_digits _ _ Hp).
  - apply in_range_Some. unfold i64_min, i64_max, STROOPS_PER_XLM in *. split; [done | lia].
  - intros E. by rewrite E in Hlen.
Qed.

(** What the conversion computes once the parts are known to be digits. *)
Lemma xlm_to_stroops_parts s w f wv fv :
  split_once "." s = Some (w, f) \/ (split_once "." s = None /\ w = s /\ f = "") ->
  w <> "" -> parse_digits w = Some wv -> parse_digits f = Some fv -> (slength f <= 7)%nat ->
  match xlm_to_stroops s with
  | Ok n => n = wv * STROOPS_PER_XLM + fv * 10 ^ Z.of_nat (7 - slength f) /\ n <= i64_max
  | Err _ => i64_max < wv * STROOPS_PER_XLM + fv * 10 ^ Z.of_nat (7 - slength f)
  end.
Proof.
  intros Hs Hw Hwv Hfv Hl. unfold xlm_to_stroops.
  assert ((match split_once "." s with
           | Some (whole, frac) => (whole, frac) | None => (s, "") end) = (w, f)) as ->.
  { destruct Hs as [-> | (-> & -> & ->)]; done. }
  assert (is_ascii_digits w = true) as -> by (apply is_ascii_digits_spec; eauto).
  assert (negb (String.eqb f "") && negb (is_ascii_digits f) = false) as ->.
  { destruct (String.eqb_spec f "") as [-> | Hf]; [done |].
    assert (is_ascii_digits f = true) as -> by (apply is_ascii_digits_spec; eauto). done. }
  assert ((STELLAR_DECIMAL_PLACES <? slength f)%nat = false) as ->
    by (apply Nat.ltb_ge; unfold STELLAR_DECIMAL_PLACES; lia).
  destruct (padded_fraction f fv Hfv Hl) as (Hpad & Hrange & _).
  unfold STELLAR_DECIMAL_PLACES. cbn [negb]. rewrite Hpad, (parse_i64_digits w wv) by done.
  pose proof (parse_digits_range _ _ Hwv).
  unfold ok_or, mbind, option_bind, in_range, i64_checked, i64_min, i64_max, STROOPS_PER_XLM in *.
  repeat case_match; zbool; simplify_eq; try lia;
    repeat match goal with H : _ && _ = false |- _ => apply andb_false_iff in H as [H | H] end;
    zbool; lia.
Qed.

Lemma xlm_to_stroops_shape s n :
  xlm_to_stroops s = Ok n ->
  exists w f wv fv,
    (split_once "." s = Some (w, f) \/ (split_once "." s = None /\ w = s /\ f = "")) /\
    w <> "" /\ parse_digits w = Some wv /\ parse_digits f = Some fv /\ (slength f <= 7)%nat.
Proof.
  intros H. set (p := match split_once "." s with
                      | Some (whole, frac) => (whole, frac) | None => (s, "") end).
  assert (split_once "." s = Some p \/ (split_once "." s = None /\ p = (s, ""))) as Hp.
  { subst p. destruct (split_once "." s) as [[? ?] |]; auto. }
  unfold xlm_to_stroops in H. fold p in H. destruct p as [w f].
  destruct (is_ascii_digits w) eqn:Hw; [| done]. cbn [negb] in H.
  destruct (negb (String.eqb f "") && negb (is_ascii_digits f)) eqn:Hf; [done |].
  destruct (STELLAR_DECIMAL_PLACES <? slength f)%nat eqn:Hl; [done |].
  apply is_ascii_digits_spec in Hw as (Hw & wv & Hwv). apply Nat.ltb_ge in Hl.
  unfold STELLAR_DECIMAL_PLACES in Hl.
  assert (exists fv, parse_digits f = Some fv) as [fv Hfv].
  { apply andb_false_iff in Hf as [Hf | Hf]; zbool.
    - apply String.eqb_eq in Hf as ->. by exists 0.
    - apply is_ascii_digits_spec in Hf as [_ Hf]. done. }
  exists w, f, wv, fv. split_and!; try done.
  destruct Hp as [Hp | [Hp [= -> ->]]]; auto.
Qed.

Lemma split_once_shape s w f :
  (split_once "." s = Some (w, f) \/ (split_once "." s = None /\ w = s /\ f = "")) ->
  s = w /\ f = "" \/ s = w +:+ String "." f.
Proof.
  intros [H | (_ & -> & ->)]; [right; by apply split_once_Some in H as [-> _] | by left].
Qed.

Lemma print_fixed_spec k n acc :
  0 <= n ->
  exists s, print_fixed k n acc = s +:+ acc /\ slength s = k /\
            parse_digits s = Some (n mod 10 ^ Z.of_nat k).
Proof.
  revert n acc. induction k as [| k IH]; intros n acc Hn.
  - exists "". split_and!; [done | done |]. simpl. by rewrite Z.mod_1_r.
  - pose proof (Z.mod_pos_bound n 10 ltac:(lia)).
    destruct (digit_char_spec (n mod 10) ltac:(lia)) as [Hd Hv].
    destruct (IH (n / 10) (String (digit_char (n mod 10)) acc)) as (s & Hs & Hl & Hp).
    { apply Z.div_pos; lia. }
    exists (s +:+ String (digit_char (n mod 10)) ""). cbn [print_fixed]. split_and!.
    + by rewrite Hs, string_app_assoc.
    + rewrite string_length_app, Hl. simpl. lia.
    + unfold parse_digits in *. rewrite parse_digits_from_app, Hp.
      cbn [parse_digits_from]. rewrite Hd, Hv. f_equal.
      rewrite Nat2Z.inj_succ, Z.pow_succ_r by lia.
      rewrite (Z.rem_mul_r n 10 (10 ^ Z.of_nat k)) by lia. lia.
Qed.

Lemma decimal_amount_format n : 0 <= n -> decimal_amount (format_stroops n) n.
Proof.
  intros Hn. unfold decimal_amount, format_stroops.
  pose proof (Z.mod_pos_bound n STROOPS_PER_XLM ltac:(done)).
  destruct (print_Z_spec (n / STROOPS_PER_XLM)) as (Hne & _ & Hw).
  { apply Z.div_pos; [done |]. unfold STROOPS_PER_XLM. lia. }
  destruct (print_fixed_spec 7 (n mod STROOPS_PER_XLM) "") as (f & Hf & Hl & Hp); [lia |].
  rewrite string_app_nil_r in Hf.
  eexists _, f, _, _. split_and!; [right; by rewrite Hf | done | exact Hw | exact Hp | lia |].
  rewrite Hl, (Z.mod_small (n mod STROOPS_PER_XLM)) by (unfold STROOPS_PER_XLM in *; lia).
  change (10 ^ Z.of_nat (7 - 7)) with 1.
  pose proof (Z.div_mod n STROOPS_PER_XLM ltac:(done)). lia.
Qed.

Lemma decimal_amount_parts s n :
  decimal_amount s n ->
  exists w f wv fv,
    (split_once "." s = Some (w, f) \/ (split_once "." s = None /\ w = s /\ f = "")) /\
    w <> "" /\ parse_digits w = Some wv /\ parse_digits f = Some fv /\ (slength f <= 7)%nat /\
    n = wv * STROOPS_PER_XLM + fv * 10 ^ Z.of_nat (7 - slength f).
Proof.
  intros (w & f & wv & fv & Hs & Hw & Hwv & Hfv & Hl & Hn).
  exists w, f, wv, fv. split_and!; try done.
  pose proof (parse_digits_from_Some _ _ _ Hwv) as Hd.
  destruct Hs as [[-> ->] | ->]; [right | left; by apply split_amount].
  split_and!; try done. by apply split_once_lacks, digits_lack_dot.
Qed.

Lemma decimal_amount_unique s n m : decimal_amount s n -> decimal_amount s m -> n = m.
Proof.
  intros Hn%decimal_amount_parts Hm%decimal_amount_parts.
  destruct Hn as (w & f & wv & fv & Hs & _ & Hw & Hf & _ & ->).
  destruct Hm as (w' & f' & wv' & fv' & Hs' & _ & Hw' & Hf' & _ & ->).
  assert (w = w' /\ f = f') as [<- <-] by naive_solver. congruence.
Qed.

Lemma digits_visible s v : parse_digits s = Some v -> all_chars is_visible s = true.
Proof.
  intros H. eapply all_chars_impl; [apply digit_visible |].
  by eapply parse_digits_from_Some.
Qed.

Lemma decimal_amount_visible s n : decimal_amount s n -> all_chars is_visible s = true.
Proof.
  intros (w & f & wv & fv & Hs & _ & Hwv & Hfv & _).
  destruct Hs as [[-> ->] | ->]; [by eapply digits_visible |].
  rewrite all_chars_app. change (all_chars is_visible (String "." f)) with (all_chars is_visible f).
  by rewrite (digits_visible _ _ Hwv), (digits_visible _ _ Hfv).
Qed.

Lemma xlm_to_stroops_iff s n :
  xlm_to_stroops s = Ok n <-> decimal_amount s n /\ n <= i64_max.
Proof.
  split.
  - intros H. destruct (xlm_to_stroops_shape s n H) as (w & f & wv & fv & Hs & Hw & Hwv & Hfv & Hl).
    pose proof (xlm_to_stroops_parts s w f wv fv Hs Hw Hwv Hfv Hl) as Hp. rewrite H in Hp.
    destruct Hp as [-> ?]. split; [| done]. exists w, f, wv, fv.
    split_and!; try done. by apply split_once_shape.
  - intros [Hd Hn].
    destruct (decimal_amount_parts s n Hd) as (w & f & wv & fv & Hs & Hw & Hwv & Hfv & Hl & ->).
    pose proof (xlm_to_stroops_parts s w f wv fv Hs Hw Hwv Hfv Hl) as Hp.
    destruct (xlm_to_stroops s); [by destruct Hp as [-> _] | lia].
Qed.

(** C8: [xlm_to_stroops] decides the decimal grammar exactly: it returns [Ok n]
    just when the string is [digits] or [digits.digits] with at most seven
    decimals, denotes [n] stroops, and [n] fits an [i64].  In particular it
    never rounds, wraps or returns a negative amount. *)
Lemma xlm_to_stroops_correct s n :
  xlm_to_stroops s = Ok n <-> decimal_amount s n /\ n <= i64_max.
Proof.
  apply xlm_to_stroops_iff.
Qed.

Lemma xlm_to_stroops_str_parts s w f wv fv :
  all_chars is_visible s = true ->
  split_once "." s = Some (w, f) \/ (split_once "." s = None /\ w = s /\ f = "") ->
  w <> "" -> parse_digits w = Some wv -> parse_digits f = Some fv -> (slength f <= 7)%nat ->
  wv * STROOPS_PER_XLM + fv * 10 ^ Z.of_nat (7 - slength f) <= i64_max ->
  xlm_to_stroops_str s = Ok (wv * STROOPS_PER_XLM + fv * 10 ^ Z.of_nat (7 - slength f)).
Proof.
  intros Hv Hs Hw Hwv Hfv Hl Hn. unfold xlm_to_stroops_str. rewrite trim_all_visible by done.
  assert ((match split_once "." s with Some (w0, f0) => (w0, f0) | None => (s, "") end) = (w, f))
    as -> by (destruct Hs as [-> | (-> & -> & ->)]; done).
  destruct (String.eqb_spec w "") as [? | _]; [done |].
  destruct (padded_fraction f fv Hfv Hl) as (Hpad & Hrange & Hlen).
  pose proof (parse_digits_range _ _ Hwv). unfold STROOPS_PER_XLM in *.
  rewrite (parse_i64_digits w wv) by done.
  assert (in_range i64_min i64_max (Some wv) = Some wv) as ->.
  { apply in_range_Some. unfold i64_min, i64_max in *. split; [done | lia]. }
  assert ((wv <? 0) = false) as -> by (apply Z.ltb_ge; lia).
  assert ((7 <? slength f)%nat = false) as -> by (apply Nat.ltb_ge; lia).
  rewrite substring_all, Hpad by done.
  unfold i64_max in *.
  rewrite (wrap_i64_id (wv * 10000000)) by (unfold i64_min, i64_max; lia).
  by rewrite wrap_i64_id by (unfold i64_min, i64_max; lia).
Qed.

(** The two conversions agree wherever the strict one succeeds: the amount a
    tip is recorded with ([xlm_to_stroops_str]) is the amount the on-chain
    verifier computes ([xlm_to_stroops]) for the same string.  They disagree
    on a negative zero: ["-0.5"] is half an XLM for the first and an error for
    the second. *)
Lemma xlm_to_stroops_str_agrees s n :
  (xlm_to_stroops s = Ok n -> xlm_to_stroops_str s = Ok n) /\
  (xlm_to_stroops_str "-0.5" = Ok 5000000 /\ is_ok (xlm_to_stroops "-0.5") = false).
Proof.
  split; [| split; vm_compute; reflexivity].
  intros [Hd Hn]%xlm_to_stroops_iff.
  pose proof (decimal_amount_visible s n Hd) as Hv.
  destruct (decimal_amount_parts s n Hd) as (w & f & wv & fv & Hs & Hw & Hwv & Hfv & Hl & ->).
  eapply xlm_to_stroops_str_parts; eauto.
Qed.

(** Printing an amount the way Horizon does and converting it back is the
    identity on every amount an [i64] of stroops can hold. *)
Lemma xlm_to_stroops_format n :
  0 <= n <= i64_max -> xlm_to_stroops (format_stroops n) = Ok n.
Proof.
  intros Hn. apply xlm_to_stroops_iff. split; [apply decimal_amount_format |]; lia.
Qed.

Lemma xlm_to_stroops_format_witness :
  0 <= 105000000 <= i64_max /\ xlm_to_stroops (format_stroops 105000000) = Ok 105000000 /\
  format_stroops 105000000 = "10.5000000".
Proof.
  split_and!; [lia | by unfold i64_max | | vm_compute; reflexivity].
  apply (xlm_to_stroops_format 105000000). unfold i64_max. lia.
Defined.

(** ** Addresses *)

Lemma is_upper_not_digit c : is_upper c = true -> is_digit c = false.
Proof. unfold is_upper, is_digit. intros H. zbool. apply andb_false_iff. right. apply Z.leb_gt. lia. Qed.

(** The address validation accepts only strings of 56 upper-case letters: it
    refuses every address that contains a digit, although the base32 alphabet
    of Stellar addresses contains the digits 2 to 7 and the error message asks
    for "uppercase alphanumeric characters". *)
Lemma validate_stellar_address_letters a :
  validate_stellar_address a = Ok tt <->
  slength a = 56%nat /\ starts_with "G" a = true /\ all_chars is_upper a = true.
Proof.
  unfold validate_stellar_address.
  assert (all_chars (fun c => is_alphanumeric c && is_upper c) a = all_chars is_upper a) as ->.
  { induction a as [| c a IH]; [done |]. cbn [all_chars]. rewrite IH. unfold is_alphanumeric.
    destruct (is_upper c), (is_digit c), (is_lower c); done. }
  destruct (Nat.eqb_spec (slength a) 56), (starts_with "G" a), (all_chars is_upper a);
    naive_solver.
Qed.

Lemma wrap_u16_range z : 0 <= wrap_u16 z < 65536.
Proof. unfold wrap_u16. apply Z.mod_pos_bound. lia. Qed.

Lemma lxor_u16_range a b : 0 <= a < 65536 -> 0 <= b < 65536 -> 0 <= Z.lxor a b < 65536.
Proof.
  intros Ha Hb. split; [apply Z.lxor_nonneg; lia |].
  destruct (decide (Z.lxor a b = 0)) as [-> | Hne]; [lia |].
  assert (0 <= Z.lxor a b) by (apply Z.lxor_nonneg; lia).
  apply (Z.log2_lt_pow2 _ 16); [lia |].
  eapply Z.le_lt_trans; [apply Z.log2_lxor; lia |].
  apply Z.max_lub_lt; (destruct (decide (0 < a)), (decide (0 < b)));
    try (apply Z.log2_lt_pow2; lia); rewrite ?Z.log2_nonpos by lia; lia.
Qed.

Lemma crc16_bit_range c : 0 <= crc16_bit c < 65536.
Proof.
  unfold crc16_bit. destruct (negb _); [apply lxor_u16_range; [| lia] |]; apply wrap_u16_range.
Qed.

Lemma crc16_byte_range c b : 0 <= crc16_byte c b < 65536.
Proof. unfold crc16_byte. simpl. apply crc16_bit_range. Qed.

Lemma crc16_xmodem_range l : 0 <= crc16_xmodem l < 65536.
Proof.
  unfold crc16_xmodem. destruct l as [| b l] using rev_ind; [simpl; lia |].
  rewrite foldl_snoc. apply crc16_byte_range.
Qed.

Lemma crc_bytes l : Z.land (crc16_xmodem l) 255 + 256 * Z.shiftr (crc16_xmodem l) 8 = crc16_xmodem l.
Proof.
  change 255 with (Z.ones 8). rewrite Z.land_ones, Z.shiftr_div_pow2 by lia.
  change (2 ^ 8) with 256. pose proof (Z.div_mod (crc16_xmodem l) 256). lia.
Qed.

Lemma two_bytes a b c :
  0 <= a <= 255 -> c = a + 256 * b -> Z.land c 255 = a /\ Z.shiftr c 8 = b.
Proof.
  intros Ha ->. change 255 with (Z.ones 8). rewrite Z.land_ones, Z.shiftr_div_pow2 by lia.
  change (2 ^ 8) with 256. rewrite (Z.mul_comm 256 b).
  split; [rewrite Z.mod_add, Z.mod_small | rewrite Z.div_add, Z.div_small]; lia.
Qed.

(** A 35-byte string is its first byte, 32 bytes and two more. *)
Lemma split_35 (l : list Z) :
  length l = 35%nat ->
  exists b key x y, l = b :: key ++ [x; y] /\ length key = 32%nat.
Proof.
  destruct l as [| b l]; [done |]. intros [= H].
  exists b, (take 32 l).
  assert (length (drop 32 l) = 2%nat) as H2 by (rewrite length_drop; lia).
  destruct (drop 32 l) as [| x [| y [| z t]]] eqn:E; try done.
  exists x, y. rewrite <- E, take_drop. split; [done |]. rewrite length_take. lia.
Qed.

Lemma decode_fields b key x y :
  length key = 32%nat ->
  nth 0 (b :: key ++ [x; y]) 0 = b /\ take 33 (b :: key ++ [x; y]) = b :: key /\
  nth 33 (b :: key ++ [x; y]) 0 = x /\ nth 34 (b :: key ++ [x; y]) 0 = y /\
  take 32 (drop 1 (b :: key ++ [x; y])) = key.
Proof.
  intros H. cbn [nth drop take]. split_and!; try done.
  - by rewrite take_app_length'.
  - rewrite app_nth2, H by lia. done.
  - rewrite app_nth2, H by lia. done.
  - by rewrite drop_0, take_app_length'.
Qed.

(** Decoding a public key accepts exactly the StrKey encoding: it returns [key]
    just when the base32 text decodes to the version byte, the 32 bytes of
    [key] and their CRC-16 in little-endian order.  So two keys are never read
    from one address, and a corrupted checksum or version is refused. *)
Lemma decode_stellar_public_key_correct base32_decode address key :
  (forall l, base32_decode address = Some l -> Forall (fun b => 0 <= b <= 255) l) ->
  decode_stellar_public_key base32_decode address = Ok key <->
  length key = 32%nat /\ base32_decode address = Some (strkey_bytes key).
Proof.
  intros Hbytes. unfold decode_stellar_public_key, strkey_bytes. split.
  - destruct (base32_decode address) as [l |] eqn:Hl; [| done].
    destruct (Nat.eqb_spec (length l) 35) as [Hlen |]; [| done]. cbn [negb].
    destruct (split_35 l Hlen) as (b & k & x & y & -> & Hk).
    destruct (decode_fields b k x y Hk) as (-> & -> & -> & -> & ->).
    destruct (Z.eqb_spec b ED25519_PUBLIC_KEY_VERSION) as [-> |]; [| done]. cbn [negb].
    destruct (crc16_xmodem _ =? _) eqn:E; [| done]. cbn [negb]. zbool. intros [= <-].
    specialize (Hbytes _ eq_refl). split; [done |]. f_equal.
    apply Forall_cons in Hbytes as [_ [_ Hxy]%Forall_app].
    apply Forall_cons in Hxy as [Hx _].
    destruct (two_bytes x y _ Hx E) as [-> ->]. done.
  - intros [Hk ->]. set (p := ED25519_PUBLIC_KEY_VERSION :: key).
    change (p ++ ?t) with (ED25519_PUBLIC_KEY_VERSION :: key ++ t).
    assert (forall x y, length (ED25519_PUBLIC_KEY_VERSION :: key ++ [x; y]) = 35%nat) as ->
      by (intros; simpl; rewrite length_app, Hk; done).
    destruct (decode_fields ED25519_PUBLIC_KEY_VERSION key (Z.land (crc16_xmodem p) 255)
                (Z.shiftr (crc16_xmodem p) 8) Hk) as (-> & -> & -> & -> & ->).
    fold p. rewrite Z.eqb_refl, crc_bytes, Z.eqb_refl. done.
Qed.

Lemma decode_stellar_public_key_correct_witness :
  decode_stellar_public_key (fun _ => Some (strkey_bytes (repeat 7 32))) "G" = Ok (repeat 7 32).
Proof.
  apply (decode_stellar_public_key_correct _ "G" (repeat 7 32)).
  - intros l [= <-]. repeat constructor; try lia; vm_compute; discriminate.
  - split; reflexivity.
Defined.
