(* ===== verification/Redis.v ===== *)
(** * The key-value service

    Redis is not part of the repository: the components that use it are
    written against the class [Redis] below, which gives the commands the
    sources issue at a time of the server's clock, and proved from the laws of
    [RedisLaws], which state the documented behaviour of those commands.
    [redis_map] is a concrete server that satisfies the laws; the witnesses
    run on it. *)

From S2P Require Import Prelude Text.

(** A value is whatever the component stores under its keys; [now] is in
    milliseconds. *)
Class Redis (V St : Type) : Type := {
  r_get : Z -> string -> St -> option V;
  r_set_px : Z -> string -> V -> Z -> St -> St;
  r_set : string -> V -> St -> St;
  r_del : string -> St -> St;
  r_pttl : Z -> string -> St -> Z
}.

Class RedisLaws (V St : Type) `{Redis V St} : Prop := {
  r_get_set_same t t0 k v ttl s :
    t0 <= t < t0 + ttl -> r_get t k (r_set_px t0 k v ttl s) = Some v;
  r_get_set_expired t t0 k v ttl s :
    0 < ttl -> t0 + ttl <= t -> r_get t k (r_set_px t0 k v ttl s) = None;
  r_get_set_other t t0 k k' v ttl s :
    k <> k' -> r_get t k' (r_set_px t0 k v ttl s) = r_get t k' s;
  r_get_set_plain t k v s : r_get t k (r_set k v s) = Some v;
  r_get_set_plain_other t k k' v s : k <> k' -> r_get t k' (r_set k v s) = r_get t k' s;
  r_get_del_same t k s : r_get t k (r_del k s) = None;
  r_get_del_other t k k' s : k <> k' -> r_get t k' (r_del k s) = r_get t k' s;
  r_get_expires t t' k v s : t <= t' -> r_get t' k s = Some v -> r_get t k s = Some v;
  r_pttl_spec t t' k v s :
    r_get t k s = Some v -> t <= t' ->
    if r_pttl t k s =? -1 then r_get t' k s = Some v
    else r_get t' k s = Some v <-> t' < t + r_pttl t k s
}.

(** [SET k v NX PX ttl]: sets only an absent key; the reply says whether it
    did. *)
Definition r_set_nx_px {V St} `{Redis V St} (now : Z) (k : string) (v : V) (ttl : Z)
    (s : St) : bool * St :=
  match r_get now k s with
  | Some _ => (false, s)
  | None => (true, r_set_px now k v ttl s)
  end.

(** The compare-and-delete script of the lock owners: [GET], and [DEL] when the
    value is the owner's token; the reply is the number of keys deleted. *)
Definition r_del_if {V St} `{EqDecision V, Redis V St} (now : Z) (k : string) (v : V) (s : St) : Z * St :=
  if bool_decide (r_get now k s = Some v) then (1, r_del k s) else (0, s).

(** [INCR k] on a key without expiry: the new value, or [None] when the value is
    not an integer or would overflow. *)
Definition r_incr {St} `{Redis string St} (now : Z) (k : string) (s : St) : option Z * St :=
  match r_get now k s with
  | None => (Some 1, r_set k "1" s)
  | Some v =>
      match parse_i64 v with
      | Some n => if n <? i64_max then (Some (n + 1), r_set k (print_Z (n + 1)) s) else (None, s)
      | None => (None, s)
      end
  end.

(** [SETEX k ttl v], the time to live in seconds: one that is not positive or
    overflows the server's clock is an error. *)
Definition setex {V St} `{Redis V St} (now : Z) (k : string) (ttl : Z) (v : V) (s : St) : option unit * St :=
  if (0 <? ttl) && (now + ttl * 1000 <=? i64_max) then (Some tt, r_set_px now k v (ttl * 1000) s)
  else (None, s).

(** Writing a key that exists keeps its expiry. *)
Definition r_overwrite {V St} `{Redis V St} (now : Z) (k : string) (v : V) (s : St) : St :=
  let left := r_pttl now k s in
  if left =? -1 then r_set k v s else r_set_px now k v left s.

(** [EXPIRE k ttl], in seconds; the reply is an error when the time overflows the
    clock. *)
Definition r_expire {V St} `{Redis V St} (now : Z) (k : string) (ttl : Z) (s : St) : option bool * St :=
  if i64_max <? now + ttl * 1000 then (None, s)
  else
    match r_get now k s with
    | Some v => (Some true, if 0 <? ttl then r_set_px now k v (ttl * 1000) s else r_del k s)
    | None => (Some false, s)
    end.

(** ** A concrete server: a map from keys to values with an optional deadline *)

Abbreviation redis_map V := (gmap string (V * option Z)).

Definition alive (now : Z) (deadline : option Z) : bool :=
  match deadline with None => true | Some d => now <? d end.

#[export] Instance redis_map_ops (V : Type) : Redis V (redis_map V) := {
  r_get now k s :=
    match s !! k with
    | Some (v, deadline) => if alive now deadline then Some v else None
    | None => None
    end;
  r_set_px now k v ttl s := <[k := (v, Some (now + ttl))]> s;
  r_set k v s := <[k := (v, None)]> s;
  r_del k s := delete k s;
  r_pttl now k s :=
    match s !! k with
    | Some (_, None) => -1
    | Some (_, Some deadline) => if now <? deadline then deadline - now else -2
    | None => -2
    end
}.

#[export] Instance redis_map_laws (V : Type) : RedisLaws V (redis_map V).
Proof.
  constructor; unfold r_get, r_set_px, r_set, r_del, r_pttl; simpl; intros;
    rewrite ?lookup_insert_eq, ?lookup_delete_eq, ?lookup_insert_ne, ?lookup_delete_ne by done; try done.
  - simpl. destruct (t <? t0 + ttl) eqn:Ht; [done | zbool; lia].
  - simpl. destruct (t <? t0 + ttl) eqn:Ht; [zbool; lia | done].
  - destruct (s !! k) as [[x [d |]] |]; simpl in *; try done.
    destruct (t' <? d) eqn:Ht'; [| done]. destruct (t <? d) eqn:Ht; [done | zbool; lia].
  - destruct (s !! k) as [[x [d |]] |]; simpl in *; try done.
    destruct (t <? d) eqn:Ht; [| done]. zbool. destruct (d - t =? -1) eqn:Hd; zbool; [lia |].
    destruct (t' <? d) eqn:Ht'; zbool; (split; [intros; lia || done | intros; done || lia]).
Qed.

#[export] Hint Rewrite @r_get_del_same : tipjar.

Lemma r_set_nx_px_true {V St} `{RedisLaws V St} now k v ttl (s s' : St) :
  r_set_nx_px now k v ttl s = (true, s') ->
  r_get now k s = None /\ s' = r_set_px now k v ttl s.
Proof. unfold r_set_nx_px. destruct (r_get now k s); intros [=]; by subst. Qed.

Lemma r_set_nx_px_false {V St} `{RedisLaws V St} now k v ttl (s s' : St) :
  r_set_nx_px now k v ttl s = (false, s') -> s' = s /\ exists v', r_get now k s = Some v'.
Proof. unfold r_set_nx_px. destruct (r_get now k s) eqn:Hg; intros [=]; subst; eauto. Qed.
