(* ===== verification/RateLimit.v ===== *)
(** * Gateway rate limiting

    The GCRA script run inside Redis and its caller (gateway/rate_limit_script.rs),
    the client address behind trusted proxies (gateway/client_ip.rs), the fail
    policy of a route (gateway/rate_limit_policy.rs) and the middleware that
    combines them (gateway/rate_limiter.rs). *)

From S2P Require Import Prelude Text Errors Redis.

(** ** The GCRA script *)

(** src/src/gateway/rate_limit_script.rs:14-27 GcraDecision *)
Record GcraDecision : Type := {
  allowed : bool;
  remaining : Z;
  gd_limit : Z;
  reset_after_secs : Z;
  retry_after_secs : Z
}.

(** The reply of the script: admitted, remaining, retry_after_ms, reset_after_ms. *)
Definition gcra_reply : Type := bool * Z * Z * Z.

(** The script after its [GET]: from the stored arrival time, if any, the
    reply and the arrival time to store, if any.  Lua computes with doubles, which
    are the integers here as long as the instants, in milliseconds, and what is
    added to them stay below 2^53.

    src/src/gateway/rate_limit_script.rs:36-78 GCRA_SCRIPT *)
Definition gcra_body (stored : option Z) (now emission_interval burst : Z)
    : gcra_reply * option Z :=
  let burst_offset := emission_interval * (burst - 1) in
  let tat := match stored with None => now | Some tat => tat end in
  let tat := if tat <? now then now else tat in
  let separation := tat - now in
  if burst_offset <? separation then
    ((false, 0, separation - burst_offset, tat - now), None)
  else
    let new_tat := tat + emission_interval in
    let new_separation := new_tat - now in
    let remaining := (burst_offset - new_separation) / emission_interval + 1 in
    let remaining := if remaining <? 0 then 0 else remaining in
    ((true, remaining, 0, new_separation), Some new_tat).

(** src/src/gateway/rate_limit_script.rs:145-151 ms_to_secs_ceil *)
Definition ms_to_secs_ceil (ms : Z) : Z :=
  if ms <=? 0 then 0 else wrap_u64 (ms + 999) / 1000.

Section gcra.
Context {St : Type} `{RedisLaws Z St}.

(** src/src/gateway/rate_limit_script.rs:37-77 GCRA_SCRIPT, with the keys it
    reads and writes; [clock] is the server's clock, [now] the caller's.  One
    call is atomic. *)
Definition gcra_script (clock : Z) (key : string) (now emission_interval burst ttl : Z) (s : St)
    : gcra_reply * St :=
  let '(reply, new_tat) := gcra_body (r_get clock key s) now emission_interval burst in
  match new_tat with
  | None => (reply, s)
  | Some tat => (reply, r_set_px clock key tat ttl s)
  end.

End gcra.

(** [(period_ms as f64 / limit as f64).ceil() as i64]: the quotient of two
    integers with a numerator below 2^53 is never rounded to an integer from
    the wrong side, so this is the integer ceiling.

    src/src/gateway/rate_limit_script.rs:117-123 the parameters of GcraLimiter::check *)
Definition gcra_params (limit burst period_secs : Z) : Z * Z * Z :=
  let limit := Z.max limit 1 in
  let burst := Z.max burst 1 in
  let period_ms := wrap_i64 (Z.max period_secs 1 * 1000) in
  let emission_interval_ms := div_ceil period_ms limit in
  let ttl_ms := wrap_i64 (period_ms + emission_interval_ms * wrap_i64 burst + 1000) in
  (emission_interval_ms, burst, ttl_ms).

(** src/src/gateway/rate_limit_script.rs:135-141 the result of GcraLimiter::check *)
Definition gcra_decision (limit : Z) (reply : gcra_reply) : GcraDecision :=
  let '(allowed, remaining, retry_after_ms, reset_after_ms) := reply in
  {| allowed := allowed; remaining := remaining; gd_limit := wrap_i64 (Z.max limit 1);
     reset_after_secs := ms_to_secs_ceil reset_after_ms;
     retry_after_secs := ms_to_secs_ceil retry_after_ms |}.

(** src/src/gateway/rate_limit_script.rs:108-142 GcraLimiter::check, a call that
    reaches the server *)
Definition gcra_check {St} `{Redis Z St} (clock : Z) (key : string) (limit burst period_secs now : Z)
    (s : St) : GcraDecision * St :=
  let '(interval, b, ttl) := gcra_params limit burst period_secs in
  let '(reply, s') := gcra_script clock key now interval b ttl s in
  (gcra_decision limit reply, s').

#[global] Arguments gcra_params : simpl never.
#[global] Arguments ms_to_secs_ceil : simpl never.
#[global] Arguments gcra_check : simpl never.

(** ** Client address *)

Section client_ip.
(** [IpAddr], its [FromStr] and the [Display] used in keys. *)
Context {IpAddr : Type}.
Variable parse_ip : string -> option IpAddr.
Variable unspecified : IpAddr.

(** src/src/gateway/client_ip.rs:83-88 trusted_proxy_depth *)
Definition trusted_proxy_depth (env : environment) : Z :=
  default 0 (v ← env "TRUSTED_PROXY_DEPTH"; parse_u64 v).

(** src/src/gateway/client_ip.rs:68-81 resolve_from_xff *)
Definition resolve_from_xff (header : string) (depth : Z) : option IpAddr :=
  let hops := filter (fun s => s <> "") (map trim (split_on ","%char header)) in
  if (Z.of_nat (length hops) =? 0) || (Z.of_nat (length hops) <? depth) then None
  else
    let idx := (length hops - Z.to_nat depth)%nat in
    s ← hops !! idx; parse_ip s.

(** src/src/gateway/client_ip.rs:37-63 extract_client_ip; [xff] is the value of
    the [X-Forwarded-For] header, [peer] the address of the connection *)
Definition extract_client_ip (env : environment) (xff : option string) (peer : option IpAddr) : IpAddr :=
  let depth := trusted_proxy_depth env in
  let from_header :=
    if 0 <? depth then
      header ← (v ← xff; header_to_str v); resolve_from_xff header depth
    else None in
  match from_header with
  | Some ip => ip
  | None => default unspecified peer
  end.

End client_ip.

(** ** Fail policy *)

(** src/src/gateway/rate_limit_policy.rs:12-18 FailPolicy *)
Inductive FailPolicy : Type :=
| FailOpen
| FailClosed.

#[export] Instance FailPolicy_eq_dec : EqDecision FailPolicy.
Proof. solve_decision. Defined.

(** src/src/gateway/rate_limit_policy.rs:21-26 FailPolicy::as_str *)
Definition policy_str (p : FailPolicy) : string :=
  match p with FailOpen => "fail_open" | FailClosed => "fail_closed" end.

(** src/src/gateway/rate_limit_policy.rs:31-40 FAIL_CLOSED_MARKERS *)
Definition FAIL_CLOSED_MARKERS : list string :=
  ["/auth/"; "/login"; "/register"; "/password"; "/api-keys"; "/mfa"; "/2fa"; "/otp"].

(** src/src/gateway/rate_limit_policy.rs:78-85 last_path_segment *)
Definition last_path_segment (path : string) : option string :=
  segment ← last (filter (fun s => s <> "" /\ starts_with "v" s = false)
                    (split_on "/"%char (trim_start_char "/"%char path)));
  Some (replace_char "-"%char "_"%char (map_chars upper segment)).

(** src/src/gateway/rate_limit_policy.rs:70-76 parse_policy_env *)
Definition parse_policy_env (env : environment) (var : string) : option FailPolicy :=
  v ← env var;
  let v := map_chars lower v in
  if bool_decide (v ∈ ["closed"; "fail_closed"; "fail-closed"]) then Some FailClosed
  else if bool_decide (v ∈ ["open"; "fail_open"; "fail-open"]) then Some FailOpen
  else None.

(** src/src/gateway/rate_limit_policy.rs:51-68 resolve *)
Definition resolve_policy (env : environment) (path : string) : FailPolicy :=
  match (segment ← last_path_segment path;
         parse_policy_env env ("RATE_LIMIT_FAIL_POLICY_" +:+ segment)) with
  | Some policy => policy
  | None =>
      match parse_policy_env env "RATE_LIMIT_FAIL_POLICY_DEFAULT" with
      | Some policy => policy
      | None =>
          if existsb (fun m => contains m path) FAIL_CLOSED_MARKERS then FailClosed else FailOpen
      end
  end.

(** ** Tiers, limits and keys *)

(** The part of [GatewayIdentity] the gateway reads (the claims of a JWT and
    the id of a key are carried along unread).

    src/src/gateway/context.rs:9-25 GatewayIdentity *)
Inductive GatewayIdentity : Type :=
| Jwt (subject role : string)
| ApiKey (key name : string) (permissions : list string)
| AnonymousId.

(** src/src/gateway/context.rs:33-41 GatewayIdentity::has_permission *)
Definition has_permission (id : GatewayIdentity) (permission : string) : bool :=
  match id with
  | Jwt _ _ => true
  | ApiKey _ _ permissions =>
      existsb (fun p => bool_decide (p = permission) || bool_decide (p = "*")) permissions
  | AnonymousId => false
  end.

(** src/src/gateway/rate_limiter.rs:31-41 CallerTier *)
Inductive CallerTier : Type :=
| Anonymous
| Free
| Premium
| Admin.

(** src/src/gateway/rate_limiter.rs:72-79 CallerTier::as_str *)
Definition tier_str (t : CallerTier) : string :=
  match t with
  | Anonymous => "anonymous" | Free => "free" | Premium => "premium" | Admin => "admin"
  end.

(** src/src/gateway/rate_limiter.rs:376-381 env_u64 *)
Definition env_u64 (env : environment) (key : string) (dflt : Z) : Z :=
  default dflt (v ← env key; parse_u64 v).

(** src/src/gateway/rate_limiter.rs:51-70 CallerTier::limits *)
Definition limits (env : environment) (t : CallerTier) : Z * Z :=
  match t with
  | Anonymous => (env_u64 env "RATE_LIMIT_ANON_RPM" 30, env_u64 env "RATE_LIMIT_ANON_BURST" 10)
  | Free => (env_u64 env "RATE_LIMIT_FREE_RPM" 120, env_u64 env "RATE_LIMIT_FREE_BURST" 30)
  | Premium =>
      (env_u64 env "RATE_LIMIT_PREMIUM_RPM" 600, env_u64 env "RATE_LIMIT_PREMIUM_BURST" 120)
  | Admin => (env_u64 env "RATE_LIMIT_ADMIN_RPM" 6000, env_u64 env "RATE_LIMIT_ADMIN_BURST" 1000)
  end.

(** src/src/gateway/rate_limiter.rs:96-115 route_override *)
Definition route_override (env : environment) (path : string) : option (Z * Z) :=
  key ← last_path_segment path;
  rpm ← (v ← env ("ROUTE_RL_" +:+ key +:+ "_RPM"); parse_u64 v);
  let burst := default (rpm / 4) (v ← env ("ROUTE_RL_" +:+ key +:+ "_BURST"); parse_u64 v) in
  Some (rpm, burst).

(** src/src/gateway/rate_limiter.rs:120-138 tier_from_identity *)
Definition tier_from_identity (identity : option GatewayIdentity) : CallerTier :=
  match identity with
  | Some (Jwt _ role) =>
      if bool_decide (role = "admin") || bool_decide (role = "superadmin") then Admin
      else if bool_decide (role = "premium") then Premium
      else Free
  | Some (ApiKey _ _ permissions) =>
      if existsb (fun p => bool_decide (p = "*") || bool_decide (p = "admin")) permissions
      then Admin
      else if existsb (fun p => bool_decide (p = "premium")) permissions then Premium
      else Free
  | Some AnonymousId | None => Anonymous
  end.

(** ** The middleware *)

Section gateway.
Context {IpAddr : Type} (parse_ip : string -> option IpAddr) (unspecified : IpAddr)
  (show_ip : IpAddr -> string).
Context {St : Type} `{RedisLaws Z St}.
(** The rest of the application: its state, and the handlers the middleware
    wraps, from a request to a response. *)
Context {App Body : Type}.
Variable json_body : json -> Body.
Variable env : environment.

(** The parts of a request the middleware reads, and the whole request for
    the next handler. *)
Record GwRequest : Type := {
  rq_path : string;
  rq_identity : option GatewayIdentity;
  rq_xff : option string;
  rq_peer : option IpAddr
}.

(** [redis] is [None] when the pool was never connected; [clock] is the clock
    of the Redis server. *)
Record GwWorld : Type := {
  gw_redis : option St;
  gw_clock : Z;
  gw_faults : list fault;
  gw_app : App;
  gw_metrics : list (string * list string)
}.

(** src/src/gateway/rate_limiter.rs:148-160 client_key *)
Definition client_key (identity : option GatewayIdentity) (req : GwRequest) : string :=
  match identity with
  | Some (Jwt subject _) => "rl:jwt:" +:+ subject
  | Some (ApiKey key _ _) =>
      "rl:apikey:" +:+ Stdlib.Strings.String.substring 0 (Nat.min (slength key) 16) key
  | _ => "rl:ip:" +:+ show_ip (extract_client_ip parse_ip unspecified env (rq_xff req) (rq_peer req))
  end.

(** [HeaderMap::insert]: names compare case-insensitively, a present value is
    replaced. *)
Definition header_insert (k v : string) (hs : list (string * string)) : list (string * string) :=
  filter (fun h => map_chars lower h.1 <> map_chars lower k) hs ++ [(k, v)].

Definition with_headers (f : list (string * string) -> list (string * string))
    (r : Response Body) : Response Body :=
  {| resp_status := resp_status r; resp_headers := f (resp_headers r); resp_body := resp_body r |}.

(** src/src/gateway/rate_limiter.rs:167-183 add_rate_limit_headers *)
Definition add_rate_limit_headers (limit remaining reset_secs : Z) : Response Body -> Response Body :=
  with_headers (fun hs =>
    let limit_val := print_Z limit in
    let remaining_val := print_Z (Z.max remaining 0) in
    let reset_val := print_Z reset_secs in
    header_insert "RateLimit-Reset" reset_val
    (header_insert "RateLimit-Remaining" remaining_val
    (header_insert "RateLimit-Limit" limit_val
    (header_insert "X-RateLimit-Reset" reset_val
    (header_insert "X-RateLimit-Remaining" remaining_val
    (header_insert "X-RateLimit-Limit" limit_val hs)))))).

(** src/src/gateway/rate_limiter.rs:185-211 too_many_requests *)
Definition too_many_requests (rid : json) (message : string) (retry_after : Z) (tier : string)
    (limit reset_secs : Z) : Response Body :=
  let body := JObj [("error", JStr message); ("code", JStr "RATE_LIMIT_EXCEEDED");
    ("status", JNum 429);
    ("details", JObj [("tier", JStr tier); ("limit_rpm", JNum limit);
                      ("retry_after_secs", JNum retry_after); ("reset_at_secs", JNum reset_secs)]);
    ("request_id", rid)] in
  add_rate_limit_headers limit 0 reset_secs
    {| resp_status := 429; resp_headers := [("Retry-After", print_Z retry_after)];
       resp_body := json_body body |}.

(** src/src/gateway/rate_limiter.rs:218-230 degraded_fail_closed *)
Definition degraded_fail_closed (rid : json) (tier : string) : Response Body :=
  let body := JObj [("error", JStr "Rate limiting is temporarily unavailable and this endpoint fails closed for safety. Please retry shortly.");
    ("code", JStr "RATE_LIMIT_DEGRADED"); ("status", JNum 503);
    ("details", JObj [("tier", JStr tier)]); ("request_id", rid)] in
  {| resp_status := 503; resp_headers := [("Retry-After", "1")]; resp_body := json_body body |}.

Definition inc (name : string) (labels : list string) (w : GwWorld) : GwWorld :=
  {| gw_redis := gw_redis w; gw_clock := gw_clock w; gw_faults := gw_faults w;
     gw_app := gw_app w; gw_metrics := (name, labels) :: gw_metrics w |}.

(** One GCRA call through the pool: [None] when there is no pool, [Some (Err _)]
    when the call failed (before or after it took effect).

    src/src/gateway/rate_limiter.rs:286-296 gcra_result of gateway_rate_limit *)
Definition gcra_result (key : string) (rpm burst now : Z) (w : GwWorld)
    : option (result GcraDecision unit) * GwWorld :=
  match gw_redis w with
  | None => (None, w)
  | Some s =>
      let '(f, faults) := pop_fault (gw_faults w) in
      let '(d, s') := gcra_check (gw_clock w) (key +:+ ":gcra") rpm burst 60 now s in
      let after (s : St) := {| gw_redis := Some s; gw_clock := gw_clock w; gw_faults := faults;
                               gw_app := gw_app w; gw_metrics := gw_metrics w |} in
      match f with
      | Fine => (Some (Ok d), after s')
      | Refused => (Some (Err tt), after s)
      | ReplyLost => (Some (Err tt), after s')
      end
  end.

Definition run_next (next : GwRequest -> App -> Response Body * App) (req : GwRequest) (w : GwWorld)
    : Response Body * GwWorld :=
  let '(r, a) := next req (gw_app w) in
  (r, {| gw_redis := gw_redis w; gw_clock := gw_clock w; gw_faults := gw_faults w;
         gw_app := a; gw_metrics := gw_metrics w |}).

(** Lines 261-268 of the middleware: the limits and the key of a request.

    src/src/gateway/rate_limiter.rs:256-268 the limits and key of gateway_rate_limit *)
Definition gateway_limits (req : GwRequest) : CallerTier * Z * Z * string :=
  let tier := tier_from_identity (rq_identity req) in
  let '(rpm, burst) :=
    match route_override env (rq_path req) with
    | Some ov => ov
    | None => limits env tier
    end in
  (tier, rpm, burst, client_key (rq_identity req) req).

(** src/src/gateway/rate_limiter.rs:251-372 gateway_rate_limit *)
Definition gateway_rate_limit (rid : json) (now_ms : Z)
    (next : GwRequest -> App -> Response Body * App) (req : GwRequest) (w : GwWorld)
    : Response Body * GwWorld :=
  let path := rq_path req in
  let '(tier, rpm, burst, key) := gateway_limits req in
  let w := inc "RATE_LIMIT_REQUESTS_TOTAL" [tier_str tier; path] w in
  let '(gcra, w) := gcra_result key rpm burst now_ms w in
  match gcra with
  | Some (Ok decision) =>
      if negb (allowed decision) then
        (too_many_requests rid "Rate limit exceeded. Please slow down."
           (retry_after_secs decision) (tier_str tier) (wrap_u64 (gd_limit decision))
           (reset_after_secs decision),
         inc "RATE_LIMIT_EXCEEDED_TOTAL" [tier_str tier; "gcra"; path] w)
      else
        let '(resp, w) := run_next next req w in
        let resp := add_rate_limit_headers (wrap_u64 (gd_limit decision)) (remaining decision)
                      (reset_after_secs decision) resp in
        (with_headers (header_insert "X-RateLimit-Tier" (tier_str tier)) resp, w)
  | Some (Err _) | None =>
      let policy := resolve_policy env path in
      if bool_decide (policy = FailClosed) then
        (degraded_fail_closed rid (tier_str tier),
         inc "RATE_LIMIT_DEGRADED_TOTAL" [tier_str tier; policy_str policy; "rejected"] w)
      else
        let w := inc "RATE_LIMIT_DEGRADED_TOTAL" [tier_str tier; policy_str policy; "allowed"] w in
        let reset_secs := 60 - (wrap_u64 now_ms / 1000) mod 60 in
        let '(resp, w) := run_next next req w in
        let resp := add_rate_limit_headers rpm (wrap_i64 rpm) reset_secs resp in
        let resp := with_headers (header_insert "X-RateLimit-Tier" (tier_str tier)) resp in
        (with_headers (header_insert "X-RateLimit-Degraded" "true") resp, w)
  end.

End gateway.

(** ** Histories of calls on one server *)

(** A call of [GcraLimiter::check] with the gateway's period of 60 seconds, by
    any replica, on any key. *)
Record gcra_call : Type := {
  gc_key : string;
  gc_clock : Z;
  gc_now : Z;
  gc_limit : Z;
  gc_burst : Z
}.

Definition run_call {St} `{Redis Z St} (c : gcra_call) (s : St) : GcraDecision * St :=
  gcra_check (gc_clock c) (gc_key c) (gc_limit c) (gc_burst c) 60 (gc_now c) s.

Fixpoint run_calls {St} `{Redis Z St} (h : list gcra_call) (s : St)
    : list (gcra_call * GcraDecision) * St :=
  match h with
  | [] => ([], s)
  | c :: h' =>
      let '(d, s1) := run_call c s in
      let '(ds, s2) := run_calls h' s1 in
      ((c, d) :: ds, s2)
  end.

(** The calls on [k] that were admitted and whose caller's clock read between
    [a] and [b]. *)
Definition admitted (k : string) (a b : Z) (ds : list (gcra_call * GcraDecision)) : nat :=
  length (filter (fun cd => gc_key cd.1 = k /\ allowed cd.2 = true /\ a <= gc_now cd.1 <= b) ds).

(** Calls reach the server in the order of its clock, from [c0] on, and the
    clocks of the callers are within [30.5] seconds of it. *)
Fixpoint well_timed (c0 : Z) (h : list gcra_call) : Prop :=
  match h with
  | [] => True
  | c :: h' => c0 <= gc_clock c /\ Z.abs (gc_now c - gc_clock c) <= 30500 /\ well_timed (gc_clock c) h'
  end.

Definition sane (limit burst : Z) : Prop := 1 <= limit <= u64_max /\ 1 <= burst <= 2 ^ 40.

(** The calls on [k] all carry the same limit and burst. *)
Definition same_limits (k : string) (limit burst : Z) (h : list gcra_call) : Prop :=
  Forall (fun c => gc_key c = k -> gc_limit c = limit /\ gc_burst c = burst) h.

(** The reference limiter: one arrival time that never expires. *)
Definition ref_step (interval burst now : Z) (g : option Z) : bool * option Z :=
  match gcra_body g now interval burst with
  | ((ok, _, _, _), Some tat) => (ok, Some tat)
  | ((ok, _, _, _), None) => (ok, g)
  end.

(** ** Lemmas about the script *)

Lemma gcra_params_gateway limit burst : sane limit burst ->
  exists interval, gcra_params limit burst 60 = (interval, burst, 61000 + interval * burst) /\
    1 <= interval <= 60000 /\ 60000 <= limit * interval.
Proof.
  intros [Hl Hb]. exists (div_ceil 60000 limit). unfold gcra_params.
  rewrite !Z.max_l by lia. change (wrap_i64 (60 * 1000)) with 60000.
  pose proof (div_ceil_pos 60000 limit ltac:(lia) ltac:(lia)).
  destruct (div_ceil_spec 60000 limit) as [Hs | Hs]; [lia | lia | | lia].
  assert (div_ceil 60000 limit <= 60000).
  { unfold div_ceil. apply Z.div_le_upper_bound; [lia |]. nia. }
  rewrite (wrap_i64_id burst) by (unfold i64_max, i64_min; lia).
  rewrite wrap_i64_id by (unfold i64_max, i64_min; nia).
  split_and!; [| lia | lia | lia]. f_equal. lia.
Qed.

(** An expired arrival time is no different from one in the past. *)
Lemma gcra_body_past tat now interval burst : tat <= now ->
  gcra_body (Some tat) now interval burst = gcra_body None now interval burst.
Proof.
  intros Hle. unfold gcra_body. rewrite Z.ltb_irrefl.
  destruct (tat <? now) eqn:Hlt; [done |]. zbool. by replace tat with now by lia.
Qed.

Lemma gcra_body_admit stored now interval burst reply tat' :
  gcra_body stored now interval burst = (reply, Some tat') ->
  tat' = Z.max (default now stored) now + interval /\
  Z.max (default now stored) now <= now + interval * (burst - 1) /\ exists a b c, reply = (true, a, b, c).
Proof.
  unfold gcra_body. destruct stored as [t |]; simpl; destruct (_ <? now) eqn:?; zbool;
    destruct (_ <? _ - _) eqn:?; intros [= <- <-]; zbool;
    split_and!; try lia; eauto.
Qed.

Lemma gcra_body_reject stored now interval burst reply :
  gcra_body stored now interval burst = (reply, None) ->
  now + interval * (burst - 1) < Z.max (default now stored) now /\
  exists r, reply = (false, 0, Z.max (default now stored) now - now - interval * (burst - 1), r).
Proof.
  unfold gcra_body. destruct stored as [t |]; simpl; destruct (_ <? now) eqn:?; zbool;
    destruct (_ <? _ - _) eqn:?; intros [= <-]; zbool; (split; [lia |]); eexists; repeat f_equal; lia.
Qed.

Section histories.
Context {St : Type} `{RedisLaws Z St}.

(** What the server holds for [k], against the arrival time [g] of the
    reference limiter, at the server's time [c]. *)
Definition tracks (k : string) (ttl burst_ms c : Z) (g : option Z) (s : St) : Prop :=
  match g with
  | None => forall t, c <= t -> r_get t k s = None
  | Some tat => exists t0, t0 <= c /\ tat <= t0 + 30500 + burst_ms /\
      (forall t, c <= t < t0 + ttl -> r_get t k s = Some tat) /\
      (forall t, t0 + ttl <= t -> r_get t k s = None)
  end.

Lemma tracks_later k ttl m c c' g s : c <= c' -> tracks k ttl m c g s -> tracks k ttl m c' g s.
Proof.
  destruct g as [tat |]; simpl; intros Hc.
  - intros (t0 & ? & ? & Hin & Hout). exists t0. split_and!; try lia; intros; [apply Hin | apply Hout]; lia.
  - intros Hn t Ht. apply Hn. lia.
Qed.

Lemma tracks_body k interval burst c g now s :
  tracks k (61000 + interval * burst) (interval * burst) c g s -> Z.abs (now - c) <= 30500 ->
  gcra_body (r_get c k s) now interval burst = gcra_body g now interval burst.
Proof.
  destruct g as [tat |]; simpl.
  - intros (t0 & Ht0 & Htat & Hin & Hout) Hskew.
    destruct (decide (c < t0 + (61000 + interval * burst))) as [Hlt | Hge].
    + rewrite Hin by lia. done.
    + rewrite Hout by lia. symmetry. apply gcra_body_past. lia.
  - intros Hn _. rewrite Hn by lia. done.
Qed.

Lemma tracks_step k limit burst interval c now g s d s' :
  gcra_params limit burst 60 = (interval, burst, 61000 + interval * burst) ->
  1 <= interval -> 1 <= burst ->
  tracks k (61000 + interval * burst) (interval * burst) c g s -> Z.abs (now - c) <= 30500 ->
  gcra_check c k limit burst 60 now s = (d, s') ->
  allowed d = fst (ref_step interval burst now g) /\
  tracks k (61000 + interval * burst) (interval * burst) c (snd (ref_step interval burst now g)) s'.
Proof.
  intros Hp Hi Hb Htr Hskew. unfold gcra_check, gcra_script, ref_step. rewrite Hp.
  rewrite (tracks_body _ _ _ _ _ _ _ Htr Hskew).
  destruct (gcra_body g now interval burst) as [reply [tat |]] eqn:Hbody; intros [= <- <-].
  - apply gcra_body_admit in Hbody as (Htat & Hle & a & b & e & ->). simpl. split; [done |].
    exists c. split_and!; [lia | nia | |]; intros t Ht.
    + apply r_get_set_same. lia.
    + apply r_get_set_expired; nia.
  - apply gcra_body_reject in Hbody as (_ & r & ->). by split.
Qed.

Lemma tracks_other k k' limit burst interval c now g ttl m s d s' :
  k' <> k -> tracks k ttl m c g s ->
  gcra_check c k' limit burst interval now s = (d, s') -> tracks k ttl m c g s'.
Proof.
  intros Hne Htr. unfold gcra_check, gcra_script.
  destruct (gcra_params _ _ _) as [[i b] t'].
  destruct (gcra_body _ _ _ _) as [reply [tat |]]; intros [= <- <-]; [| done].
  destruct g as [tat0 |]; simpl in *.
  - destruct Htr as (t0 & ? & ? & Hin & Hout). exists t0.
    split_and!; try done; intros; rewrite r_get_set_other by done; auto.
  - intros t Ht. rewrite r_get_set_other by done. auto.
Qed.

Lemma admitted_cons k a b c d ds :
  admitted k a b ((c, d) :: ds) =
  ((if decide (gc_key c = k /\ allowed d = true /\ (a <= gc_now c <= b)%Z) then 1 else 0)
   + admitted k a b ds)%nat.
Proof. unfold admitted. rewrite filter_cons. simpl. by destruct (decide _). Qed.

(** Each admission in the window moves the arrival time by one interval, and an
    admission needs it to be at most [burst - 1] intervals ahead. *)
Lemma window_bound k limit burst interval a b h c0 g (s : St) :
  gcra_params limit burst 60 = (interval, burst, 61000 + interval * burst) ->
  1 <= interval -> 1 <= burst -> a <= b ->
  well_timed c0 h -> same_limits k limit burst h ->
  tracks k (61000 + interval * burst) (interval * burst) c0 g s ->
  Z.of_nat (admitted k a b (fst (run_calls h s))) * interval
    <= Z.max 0 (b + interval * burst - Z.max a (default a g)).
Proof.
  intros Hp Hi Hb Hab. revert c0 g s.
  induction h as [| c h IH]; intros c0 g s Htime Hsame Htr; [unfold admitted; simpl; lia |].
  simpl in Htime. destruct Htime as (Hc & Hskew & Htime).
  apply Forall_cons in Hsame as [Hck Hsame].
  apply (tracks_later _ _ _ _ (gc_clock c)) in Htr; [| done].
  cbn [run_calls]. destruct (run_call c s) as [d s1] eqn:Hrun.
  destruct (run_calls h s1) as [ds s2] eqn:Hruns. simpl fst. rewrite admitted_cons.
  unfold run_call in Hrun. destruct (decide (gc_key c = k)) as [Hk | Hk].
  - destruct (Hck Hk) as [Hl Hbu]. rewrite Hk, Hl, Hbu in Hrun.
    destruct (tracks_step _ _ _ _ _ _ _ _ _ _ Hp Hi Hb Htr Hskew Hrun) as [Hal Htr'].
    specialize (IH _ _ s1 Htime Hsame Htr'). rewrite Hruns in IH. simpl fst in IH.
    unfold ref_step in Hal, IH.
    destruct (gcra_body g (gc_now c) interval burst) as [[[[ok ?] ?] ?] [tat |]] eqn:Hbody;
      simpl in Hal, IH.
    + apply gcra_body_admit in Hbody as (-> & Hle & _).
      destruct (decide _) as [(_ & _ & Hin) | _]; destruct g; simpl in *; nia.
    + apply gcra_body_reject in Hbody as (_ & ? & [= -> _ _ _]).
      rewrite decide_False by (intros (_ & ? & _); congruence). simpl. lia.
  - rewrite decide_False by tauto. simpl Nat.add.
    specialize (IH _ _ s1 Htime Hsame (tracks_other _ _ _ _ _ _ _ _ _ _ _ _ _ Hk Htr Hrun)).
    rewrite Hruns in IH. done.
Qed.

(** Identical calls on a key whose arrival time is [j] intervals ahead. *)
Lemma burst_run k limit burst interval now n j g (s : St) :
  gcra_params limit burst 60 = (interval, burst, 61000 + interval * burst) ->
  1 <= interval -> 1 <= burst -> (Z.of_nat j <= burst) ->
  tracks k (61000 + interval * burst) (interval * burst) now g s ->
  Z.max (default now g) now = now + Z.of_nat j * interval ->
  map (fun cd => allowed cd.2)
    (fst (run_calls (replicate n {| gc_key := k; gc_clock := now; gc_now := now;
                                    gc_limit := limit; gc_burst := burst |}) s))
  = (replicate (Nat.min n (Z.to_nat burst - j)) true ++
     replicate (n - (Z.to_nat burst - j)) false)%list.
Proof.
  intros Hp Hi Hb. revert j g s. induction n as [| n IH]; intros j g s Hj Htr Hg; [done |].
  cbn [replicate run_calls]. destruct (run_call _ s) as [d s1] eqn:Hrun.
  destruct (run_calls _ s1) as [ds s2] eqn:Hruns. simpl.
  unfold run_call in Hrun. simpl in Hrun.
  assert (Z.abs (now - now) <= 30500) as Hskew by lia.
  destruct (tracks_step _ _ _ _ _ _ _ _ _ _ Hp Hi Hb Htr Hskew Hrun) as [Hal Htr'].
  unfold ref_step in Hal, Htr'.
  destruct (gcra_body g now interval burst) as [[[[ok ?] ?] ?] [tat |]] eqn:Hbody; simpl in Hal, Htr'.
  - apply gcra_body_admit in Hbody as (-> & Hle & ? & ? & ? & [= -> _ _ _]).
    rewrite Hg in Hle. rewrite Hg in Htr'.
    assert (Z.of_nat j < burst) as Hjb.
    { enough (Z.of_nat j <= burst - 1) by lia. apply (Z.mul_le_mono_pos_r _ _ interval); lia. }
    assert (Z.max (default now (Some (now + Z.of_nat j * interval + interval))) now
            = now + Z.of_nat (S j) * interval) as Hg' by (simpl default; lia).
    assert (HIH := IH (S j) (Some (now + Z.of_nat j * interval + interval)) s1 ltac:(lia) Htr' Hg').
    rewrite Hruns in HIH. simpl in HIH. rewrite Hal, HIH.
    replace (Z.to_nat burst - j)%nat with (S (Z.to_nat burst - S j)) by lia. done.
  - apply gcra_body_reject in Hbody as (Hlt & ? & [= -> _ _ _]). rewrite Hg in Hlt.
    assert (Z.of_nat j = burst) as Hjb.
    { enough (burst - 1 < Z.of_nat j) by lia. apply (Z.mul_lt_mono_pos_r interval); lia. }
    assert (HIH := IH j g s1 Hj Htr' Hg). rewrite Hruns in HIH. simpl in HIH. rewrite Hal, HIH.
    replace (Z.to_nat burst - j)%nat with 0%nat by lia. rewrite !Nat.min_0_r, !Nat.sub_0_r. done.
Qed.

Lemma tracks_absent k ttl m c s : r_get c k s = None -> tracks k ttl m c None s.
Proof.
  intros Hn t Ht. destruct (r_get t k s) eqn:Hg; [| done].
  rewrite (r_get_expires c t k _ s Ht Hg) in Hn. done.
Qed.
End histories.

(** ** Properties *)

(** C2: Whatever the other clients of the server do, whatever the order in which
    the replicas' clocks stamp the calls, and although the key expires: the
    calls on one key admitted in any interval of [b - a] milliseconds exceed
    the burst by at most the configured rate, [limit] per 60 seconds. *)
Lemma gcra_window_correct {St} `{RedisLaws Z St} (k : string) (limit burst a b c0 : Z)
    (h : list gcra_call) (s : St) :
  sane limit burst -> a <= b -> well_timed c0 h -> same_limits k limit burst h ->
  r_get c0 k s = None ->
  60000 * (Z.of_nat (admitted k a b (fst (run_calls h s))) - burst) <= limit * (b - a).
Proof.
  intros Hsane Hab Htime Hsame Habs.
  destruct (gcra_params_gateway limit burst Hsane) as (i & Hp & Hi & Hrate).
  destruct Hsane as [Hl Hb].
  pose proof (window_bound k limit burst i a b h c0 None s Hp ltac:(lia) ltac:(lia) Hab
    Htime Hsame (tracks_absent k _ _ c0 s Habs)) as Hw.
  simpl default in Hw. rewrite Z.max_id in Hw.
  rewrite Z.max_r in Hw by nia.
  destruct (Z_le_gt_dec (Z.of_nat (admitted k a b (fst (run_calls h s)))) burst); nia.
Qed.

Lemma gcra_window_correct_witness :
  let h := map (fun t => {| gc_key := if t mod 3 =? 0 then "rl:jwt:u:gcra" else "rl:ip:1.2.3.4:gcra";
                            gc_clock := 1000 + 50 * t; gc_now := 1000 + 50 * t - 17;
                            gc_limit := 120; gc_burst := 3 |}) (map Z.of_nat (seq 0 60)) in
  let n := admitted "rl:jwt:u:gcra" 1000 3000 (fst (run_calls h (∅ : redis_map Z))) in
  n = 5%nat /\ 60000 * (Z.of_nat n - 3) <= 120 * (3000 - 1000).
Proof.
  split; [vm_compute; reflexivity |].
  apply (gcra_window_correct _ _ _ _ _ 0); [split; vm_compute; split; discriminate | lia | | | done].
  - vm_compute. repeat split; discriminate.
  - repeat constructor.
Defined.

(** From an absent key exactly the first [burst] of any number of simultaneous
    calls are admitted. *)
Lemma gcra_burst_exact {St} `{RedisLaws Z St} (k : string) (limit burst now : Z) (n : nat) (s : St) :
  sane limit burst -> r_get now k s = None ->
  map (fun cd => allowed cd.2)
    (fst (run_calls (replicate n {| gc_key := k; gc_clock := now; gc_now := now;
                                    gc_limit := limit; gc_burst := burst |}) s))
  = (replicate (Nat.min n (Z.to_nat burst)) true ++ replicate (n - Z.to_nat burst) false)%list.
Proof.
  intros Hsane Habs. destruct (gcra_params_gateway limit burst Hsane) as (i & Hp & Hi & _).
  destruct Hsane as [Hl Hb].
  rewrite (burst_run k limit burst i now n 0 None s); try done; try lia.
  - by rewrite Nat.sub_0_r.
  - by apply tracks_absent.
  - simpl default. lia.
Qed.

Lemma gcra_burst_exact_witness :
  map (fun cd => allowed cd.2)
    (fst (run_calls (replicate 5 {| gc_key := "k"; gc_clock := 77; gc_now := 77;
                                    gc_limit := 30; gc_burst := 3 |}) (∅ : redis_map Z)))
  = [true; true; true; false; false].
Proof.
  rewrite (gcra_burst_exact "k" 30 3 77 5 (∅ : redis_map Z)); [reflexivity | | reflexivity].
  split; vm_compute; split; discriminate.
Defined.

Lemma secs_cover ms : 0 < ms <= u64_max - 999 ->
  0 < ms_to_secs_ceil ms /\ ms <= 1000 * ms_to_secs_ceil ms < ms + 1000.
Proof.
  intros Hms. unfold ms_to_secs_ceil. destruct (ms <=? 0) eqn:Hle; zbool; [lia |].
  rewrite wrap_u64_id by (unfold u64_max in *; lia).
  pose proof (Z.div_mod (ms + 999) 1000 ltac:(lia)).
  pose proof (Z.mod_pos_bound (ms + 999) 1000 ltac:(lia)). lia.
Qed.

Lemma gcra_check_allowed {St} `{Redis Z St} clock k limit burst i ttl b now (s : St) :
  gcra_params limit burst 60 = (i, b, ttl) ->
  allowed (fst (gcra_check clock k limit burst 60 now s)) = true <->
  Z.max (default now (r_get clock k s)) now <= now + i * (b - 1).
Proof.
  intros Hp. unfold gcra_check, gcra_script. rewrite Hp.
  destruct (gcra_body _ _ _ _) as [reply [tat |]] eqn:Hbody; simpl.
  - apply gcra_body_admit in Hbody as (_ & Hle & ? & ? & ? & ->). by simpl.
  - apply gcra_body_reject in Hbody as (Hlt & ? & ->). simpl. split; [done | lia].
Qed.

(** A rejected call consumes nothing, and its [Retry-After] is exact to the
    second: every call on the key from then on is admitted (unless another
    call was), and no call more than a second earlier would have been. *)
Lemma gcra_retry_after {St} `{RedisLaws Z St} (k : string) (limit burst clock now : Z) (s s' : St)
    (d : GcraDecision) :
  sane limit burst -> 0 <= now ->
  (forall tat, r_get clock k s = Some tat -> tat <= i64_max) ->
  gcra_check clock k limit burst 60 now s = (d, s') -> allowed d = false ->
  s' = s /\ remaining d = 0 /\ 0 < retry_after_secs d /\
  (forall clock' now', clock <= clock' -> now + 1000 * retry_after_secs d <= now' ->
     allowed (fst (gcra_check clock' k limit burst 60 now' s)) = true) /\
  (forall now', now <= now' <= now + 1000 * (retry_after_secs d - 1) ->
     allowed (fst (gcra_check clock k limit burst 60 now' s)) = false).
Proof.
  intros Hsane Hnow Hbound Hc Hrej.
  destruct (gcra_params_gateway limit burst Hsane) as (i & Hp & Hi & _). destruct Hsane as [Hl Hb].
  unfold gcra_check, gcra_script in Hc. rewrite Hp in Hc.
  destruct (gcra_body _ _ _ _) as [reply [tat |]] eqn:Hbody; injection Hc as <- <-.
  { apply gcra_body_admit in Hbody as (_ & _ & ? & ? & ? & ->). done. }
  apply gcra_body_reject in Hbody as (Hlt & r & ->). cbn [gcra_decision retry_after_secs remaining].
  destruct (r_get clock k s) as [tat |] eqn:Hg; simpl default in *; [| nia].
  specialize (Hbound tat eq_refl).
  assert (0 <= i * (burst - 1)) as Hoff by (apply Z.mul_nonneg_nonneg; lia).
  destruct (secs_cover (Z.max tat now - now - i * (burst - 1))) as [Hpos Hcov].
  { unfold u64_max, i64_max in *. nia. }
  split_and!; try done.
  - intros clock' now' Hclock Hnow'. apply (gcra_check_allowed _ _ _ _ _ _ _ _ _ Hp).
    destruct (r_get clock' k s) as [t |] eqn:Hg'; simpl; [| nia].
    pose proof (r_get_expires _ _ _ _ _ Hclock Hg'). assert (t = tat) as -> by congruence. lia.
  - intros now' Hnow'. apply not_true_iff_false. rewrite (gcra_check_allowed _ _ _ _ _ _ _ _ _ Hp).
    rewrite Hg. simpl. lia.
Qed.

Lemma gcra_retry_after_witness :
  let s := (<["k" := (6077, Some 100000)]> ∅ : redis_map Z) in
  let d := {| allowed := false; remaining := 0; gd_limit := 30;
              reset_after_secs := 6; retry_after_secs := 2 |} in
  gcra_check 577 "k" 30 3 60 577 s = (d, s) /\
  allowed (fst (gcra_check 2577 "k" 30 3 60 2577 s)) = true.
Proof.
  intros s d.
  assert (gcra_check 577 "k" 30 3 60 577 s = (d, s)) as Hc by (vm_compute; reflexivity).
  split; [exact Hc |].
  destruct (gcra_retry_after "k" 30 3 577 577 s s d) as (_ & _ & _ & Hok & _).
  - split; vm_compute; split; discriminate.
  - lia.
  - intros tat Hg. change (Some 6077 = Some tat) in Hg. injection Hg as <-. discriminate.
  - exact Hc.
  - reflexivity.
  - apply Hok; vm_compute; discriminate.
Defined.

(** A header a chain of proxies built: whatever the client sent, then the peer
    each trusted proxy observed, appended after a comma. *)
Fixpoint appended (hops : list string) : string :=
  match hops with
  | [] => ""
  | h :: hops' => ", " +:+ h +:+ appended hops'
  end.

Lemma split_appended p hops :
  Forall (fun h => lacks "," h = true) hops ->
  split_on "," (p +:+ appended hops) = (split_on "," p ++ map (fun h => " " +:+ h) hops)%list.
Proof.
  revert p. induction hops as [| h hops IH]; intros p Hl; simpl.
  - by rewrite string_app_nil_r, app_nil_r.
  - apply Forall_cons in Hl as [Hh Hl].
    change (split_on "," (p +:+ String "," (" " +:+ h +:+ appended hops))
            = (split_on "," p ++ (" " +:+ h) :: map (fun h => " " +:+ h) hops)%list).
    rewrite split_on_app. f_equal. rewrite <- string_app_assoc, IH by done.
    rewrite (split_on_lacks _ (" " +:+ h)); [done |]. unfold lacks in *. by simpl.
Qed.

(** A hop as a proxy writes it. *)
Definition clean_hop (h : string) : Prop :=
  lacks "," h = true /\ trim (" " +:+ h) = h /\ h <> "".

Lemma hops_appended p hops : Forall clean_hop hops ->
  filter (fun s => s <> "") (map trim (split_on "," (p +:+ appended hops)))
  = (filter (fun s => s <> "") (map trim (split_on "," p)) ++ hops)%list.
Proof.
  intros Hc. rewrite split_appended by (eapply Forall_impl; [exact Hc | by intros ? (? & _)]).
  rewrite map_app, filter_app. f_equal. rewrite map_map.
  induction Hc as [| h hops (_ & Ht & Hne) Hc IH]; [done |]. cbn [map].
  rewrite Ht, filter_cons_True by done. by f_equal.
Qed.

(** With [N] trusted proxies the address used as the key is the peer the
    outermost one observed, whatever the client wrote in [X-Forwarded-For];
    the hops between the proxies play no role. *)
Lemma client_ip_unspoofable {IpAddr} (parse_ip : string -> option IpAddr) unspecified env p h hops peer :
  trusted_proxy_depth env = Z.of_nat (length (h :: hops)) ->
  Forall clean_hop (h :: hops) ->
  header_to_str (p +:+ appended (h :: hops)) <> None ->
  extract_client_ip parse_ip unspecified env (Some (p +:+ appended (h :: hops))) peer
  = default (default unspecified peer) (parse_ip h).
Proof.
  intros Hd Hc Hvis. unfold extract_client_ip. rewrite Hd.
  destruct (0 <? _) eqn:Hpos; [| zbool; simpl in *; lia]. cbn [mbind option_bind].
  destruct (header_to_str _) as [v |] eqn:Hv; [| done].
  assert (v = p +:+ appended (h :: hops)) as ->.
  { unfold header_to_str in Hv. destruct (all_chars _ _); by simplify_eq. }
  cbn [mbind option_bind]. unfold resolve_from_xff. rewrite (hops_appended _ _ Hc), Nat2Z.id.
  rewrite length_app. set (pre := filter _ _).
  destruct (_ || _) eqn:Hshort.
  { apply orb_true_iff in Hshort as [?%Z.eqb_eq | ?%Z.ltb_lt]; simpl length in *; lia. }
  replace (length pre + length (h :: hops) - length (h :: hops))%nat with (length pre) by lia.
  rewrite lookup_app_r, Nat.sub_diag by lia. simpl. by destruct (parse_ip h).
Qed.

Lemma client_ip_unspoofable_witness :
  extract_client_ip (fun s => Some s) "0.0.0.0"
    (fun k => if bool_decide (k = "TRUSTED_PROXY_DEPTH") then Some "2" else None)
    (Some ("6.6.6.6,  1.1.1.1 " +:+ appended ["203.0.113.9"; "10.0.0.2"])) (Some "10.0.0.1")
  = "203.0.113.9".
Proof.
  rewrite client_ip_unspoofable; [reflexivity | reflexivity | | vm_compute; discriminate].
  repeat constructor; vm_compute; try reflexivity; discriminate.
Defined.

(** The server cannot be asked, or its answer does not come back. *)
Definition outage {St App} (w : GwWorld (St := St) (App := App)) : Prop :=
  gw_redis w = None \/ fst (pop_fault (gw_faults w)) <> Fine.

Lemma gcra_result_outage {St} `{Redis Z St} {App} key rpm burst now (w : GwWorld (St := St) (App := App)) :
  outage w ->
  match fst (gcra_result key rpm burst now w) with Some (Ok _) => False | _ => True end.
Proof.
  intros [Hn | Hf]; unfold gcra_result; [by rewrite Hn |].
  destruct (gw_redis w); [| done]. destruct (pop_fault _) as [[] l]; [done | |];
    by destruct (gcra_check _ _ _ _ _ _ _).
Qed.

Lemma gcra_result_app {St} `{Redis Z St} {App} key rpm burst now (w : GwWorld (St := St) (App := App)) :
  gw_app (snd (gcra_result key rpm burst now w)) = gw_app w.
Proof.
  unfold gcra_result. destruct (gw_redis w); [| done].
  destruct (pop_fault _) as [[] l]; by destruct (gcra_check _ _ _ _ _ _ _).
Qed.

Lemma header_inserted k v hs : (k, v) ∈ header_insert k v hs.
Proof. unfold header_insert. set_solver. Qed.

(** While Redis is out of reach, and no override is set, exactly the routes
    that guard authentication are refused, with a 503 and before their handler
    runs; every other request is served by its handler and marked degraded. *)
Lemma outage_fails_closed {IpAddr} parse_ip (unspecified : IpAddr) show_ip {St} `{RedisLaws Z St}
    {App Body} (json_body : json -> Body) env rid now next req (w : GwWorld (St := St) (App := App)) :
  outage w -> (forall v, starts_with "RATE_LIMIT_FAIL_POLICY_" v = true -> env v = None) ->
  let '(resp, w') := gateway_rate_limit parse_ip unspecified show_ip json_body env rid now next req w in
  if existsb (fun m => contains m (rq_path req)) FAIL_CLOSED_MARKERS
  then resp_status resp = 503 /\ gw_app w' = gw_app w
  else resp_status resp = resp_status (fst (next req (gw_app w))) /\
       resp_body resp = resp_body (fst (next req (gw_app w))) /\
       gw_app w' = snd (next req (gw_app w)) /\
       ("X-RateLimit-Degraded", "true") ∈ resp_headers resp.
Proof.
  intros Hout Hpol. unfold gateway_rate_limit.
  destruct (gateway_limits _ _ _ _ _) as [[[tier rpm] burst] key].
  assert (outage (inc "RATE_LIMIT_REQUESTS_TOTAL" [tier_str tier; rq_path req] w)) as Hout' by done.
  apply (gcra_result_outage key rpm burst now) in Hout'.
  pose proof (gcra_result_app key rpm burst now
    (inc "RATE_LIMIT_REQUESTS_TOTAL" [tier_str tier; rq_path req] w)) as Happ.
  destruct (gcra_result _ _ _ _ _) as [gcra w1]. cbn [fst snd] in *.
  change (gw_app w1 = gw_app w) in Happ.
  assert (resolve_policy env (rq_path req)
    = if existsb (fun m => contains m (rq_path req)) FAIL_CLOSED_MARKERS then FailClosed else FailOpen)
    as Hres.
  { unfold resolve_policy, parse_policy_env.
    rewrite (Hpol "RATE_LIMIT_FAIL_POLICY_DEFAULT") by reflexivity.
    destruct (last_path_segment _); [| done]. cbn [mbind option_bind].
    by rewrite Hpol by (unfold starts_with; by rewrite strip_prefix_app). }
  destruct gcra as [[d | []] |]; [done | |]; rewrite Hres; destruct (existsb _ _); simpl;
    try (by split); unfold run_next; simpl; rewrite Happ; destruct (next req (gw_app w)) as [r a];
    simpl; split_and!; try done; apply header_inserted.
Qed.

Lemma outage_fails_closed_witness :
  let w := {| gw_redis := Some (∅ : redis_map Z); gw_clock := 5; gw_faults := [Refused];
              gw_app := 0%nat; gw_metrics := [] |} in
  let next := fun (_ : GwRequest) n =>
    ({| resp_status := 200; resp_headers := []; resp_body := JStr "r" |}, S n) in
  let run p := gateway_rate_limit (fun s => Some s) "0.0.0.0" (fun s => s) (fun j => j)
    (fun _ => None) (JStr "r") 5 next
    {| rq_path := p; rq_identity := None; rq_xff := None; rq_peer := None |} w in
  (resp_status (fst (run "/api/v1/auth/login")) = 503 /\ gw_app (snd (run "/api/v1/auth/login")) = 0%nat)
  /\ gw_app (snd (run "/api/v1/tips")) = 1%nat.
Proof.
  intros w next run. split.
  - pose proof (outage_fails_closed (fun s => Some s) "0.0.0.0" (fun s => s) (fun j : json => j)
      (fun _ => None) (JStr "r") 5 next
      {| rq_path := "/api/v1/auth/login"; rq_identity := None; rq_xff := None; rq_peer := None |} w
      ltac:(right; discriminate) ltac:(done)) as Hc.
    exact Hc.
  - pose proof (outage_fails_closed (fun s => Some s) "0.0.0.0" (fun s => s) (fun j : json => j)
      (fun _ => None) (JStr "r") 5 next
      {| rq_path := "/api/v1/tips"; rq_identity := None; rq_xff := None; rq_peer := None |} w
      ltac:(right; discriminate) ltac:(done)) as (_ & _ & Hc & _).
    exact Hc.
Defined.
