(* ===== verification/Idempotency.v ===== *)
(** * Idempotency keys

    idempotency/store.rs (the Redis and Postgres backends), service.rs (Redis
    first, Postgres when it is out of reach), fingerprint.rs, error.rs and
    middleware.rs.  The SQL statements are functions on the table
    [idempotency_keys], keyed by its UNIQUE column [scope_hash].  Gzip, SHA-256
    in hexadecimal, JSON encoding of the Redis record and UUID parsing come
    from other crates and are parameters. *)

From stdpp Require Import countable.
From S2P Require Import Prelude Text Codec Errors Redis.

(** src/src/idempotency/error.rs:8-13 IdempotencyError *)
Inductive IdempotencyError : Type :=
| Backend (message : string)
| Serialization (message : string).

(** src/src/idempotency/error.rs:16-18 IdempotencyError::is_backend_unavailable *)
Definition is_backend_unavailable (e : IdempotencyError) : bool :=
  match e with Backend _ => true | Serialization _ => false end.

(** src/src/idempotency/store.rs:56-60 StoredResponse *)
Record StoredResponse : Type := {
  sr_status : Z;
  sr_content_type : option string;
  sr_body : string
}.

(** src/src/idempotency/store.rs:63-68 Decision *)
Inductive Decision : Type :=
| Proceed (token : string)
| Replay (response : StoredResponse)
| Mismatch
| Conflict (retry_after_secs : Z).

(** src/src/idempotency/store.rs:125-130 RedisRecord *)
Record RedisRecord : Type := {
  rr_status : Z;
  rr_content_type : option string;
  rr_fingerprint : string;
  rr_body_gzip : string
}.

(** A row of [idempotency_keys]; times in milliseconds. *)
Record IdemRow : Type := {
  ir_principal : string;
  ir_route : string;
  ir_key : string;
  ir_fingerprint : string;
  ir_in_flight : bool;
  ir_status : option Z;
  ir_content_type : option string;
  ir_body : option string;
  ir_body_hash : option string;
  ir_created_at : Z;
  ir_completed_at : option Z;
  ir_expires_at : Z
}.

(** src/src/idempotency/store.rs:51-51 REDIS_LOCK_PREFIX *)
Definition REDIS_LOCK_PREFIX : string := "idem:lock:".

(** src/src/idempotency/store.rs:52-52 REDIS_DONE_PREFIX *)
Definition REDIS_DONE_PREFIX : string := "idem:done:".

(** src/src/idempotency/service.rs:13-22 IdempotencyConfig; durations in milliseconds *)
Record IdempotencyConfig : Type := {
  entry_ttl : Z;
  lock_ttl : Z;
  max_body_bytes : Z
}.

(** src/src/idempotency/service.rs:24-45 IdempotencyConfig::default *)
Definition idempotency_config_default (env : environment) : IdempotencyConfig :=
  {| entry_ttl := default (24 * 3600) (v ← env "IDEMPOTENCY_TTL_SECONDS"; parse_u64 v) * 1000;
     lock_ttl := default 30000 (v ← env "IDEMPOTENCY_LOCK_TTL_MS"; parse_u64 v);
     max_body_bytes := default (64 * 1024) (v ← env "IDEMPOTENCY_MAX_BODY_BYTES"; parse_u64 v) |}.

(** src/src/idempotency/service.rs:51-55 ExecutionGuard *)
Record ExecutionGuard : Type := {
  g_scope_hash : string;
  g_fingerprint : string;
  g_token : string
}.

(** src/src/idempotency/service.rs:58-63 Outcome *)
Inductive Outcome : Type :=
| OProceed (guard : ExecutionGuard)
| OReplay (response : StoredResponse)
| OMismatch
| OConflict (retry_after_secs : Z).

(** ** The SQL statements *)

Abbreviation idem_table := (gmap string IdemRow).

(** [INSERT .. ON CONFLICT (scope_hash) DO NOTHING]: the rows affected.

    src/src/idempotency/store.rs:285-301 the INSERT of PostgresBackend::begin *)
Definition pg_insert (now : Z) (scope principal route key fp : string) (t : idem_table)
    : Z * idem_table :=
  match t !! scope with
  | Some _ => (0, t)
  | None =>
      (1, <[scope := {| ir_principal := principal; ir_route := route; ir_key := key;
                        ir_fingerprint := fp; ir_in_flight := true; ir_status := None;
                        ir_content_type := None; ir_body := None; ir_body_hash := None;
                        ir_created_at := now; ir_completed_at := None;
                        ir_expires_at := now + 3600000 |}]> t)
  end.

(** src/src/idempotency/store.rs:311-321 the SELECT of PostgresBackend::begin *)
Definition pg_select_live (now : Z) (scope : string) (t : idem_table) : option IdemRow :=
  row ← t !! scope; if now <? ir_expires_at row then Some row else None.

(** src/src/idempotency/store.rs:330-336 the DELETE of PostgresBackend::begin *)
Definition pg_delete_expired (now : Z) (scope : string) (t : idem_table) : idem_table :=
  match t !! scope with
  | Some row => if ir_expires_at row <=? now then delete scope t else t
  | None => t
  end.

(** src/src/idempotency/store.rs:365-379 the reclaiming UPDATE of PostgresBackend::begin *)
Definition pg_reclaim (now : Z) (scope fp : string) (lock_ttl : Z) (t : idem_table) : Z * idem_table :=
  match t !! scope with
  | Some row =>
      if ir_in_flight row && (ir_created_at row <? now - lock_ttl) then
        (1, <[scope := {| ir_principal := ir_principal row; ir_route := ir_route row;
                          ir_key := ir_key row; ir_fingerprint := fp; ir_in_flight := true;
                          ir_status := ir_status row; ir_content_type := ir_content_type row;
                          ir_body := ir_body row; ir_body_hash := ir_body_hash row;
                          ir_created_at := now; ir_completed_at := ir_completed_at row;
                          ir_expires_at := ir_expires_at row |}]> t)
      else (0, t)
  | None => (0, t)
  end.

(** [entry_ttl.as_secs()] seconds from now.

    src/src/idempotency/store.rs:413-434 the UPDATE of PostgresBackend::complete *)
Definition pg_complete_update (now : Z) (scope : string) (status : Z) (content_type body hash : option string)
    (entry_ttl : Z) (t : idem_table) : idem_table :=
  match t !! scope with
  | Some row =>
      <[scope := {| ir_principal := ir_principal row; ir_route := ir_route row;
                    ir_key := ir_key row; ir_fingerprint := ir_fingerprint row;
                    ir_in_flight := false; ir_status := Some status;
                    ir_content_type := content_type; ir_body := body; ir_body_hash := hash;
                    ir_created_at := ir_created_at row; ir_completed_at := Some now;
                    ir_expires_at := now + entry_ttl / 1000 * 1000 |}]> t
  | None => t
  end.

(** src/src/idempotency/store.rs:441-445 the DELETE of PostgresBackend::fail *)
Definition pg_delete_in_flight (scope : string) (t : idem_table) : idem_table :=
  match t !! scope with
  | Some row => if ir_in_flight row then delete scope t else t
  | None => t
  end.

(** [status as i16] and [as u16]. *)
Definition wrap_i16 (z : Z) : Z := (z + 2 ^ 15) mod 2 ^ 16 - 2 ^ 15.
#[global] Arguments wrap_i16 : simpl never.

(** ** The backends *)

Section idempotency.
Context {St : Type} `{RedisLaws string St}.
Variable compress : string -> string.
Variable decompress : string -> result string string.
Variable sha256_hex : string -> string.
Variable to_json : RedisRecord -> string.
Variable from_json : string -> result RedisRecord string.
(** The [n]-th UUID drawn by the process. *)
Variable uuid : nat -> string.

(** Both stores, the clock (milliseconds), the UUIDs drawn and what the next
    calls to the stores meet. *)
Record IdemWorld : Type := {
  iw_kv : St;
  iw_table : idem_table;
  iw_now : Z;
  iw_uuids : nat;
  iw_faults : list fault;
  iw_metrics : list string
}.

#[export] Instance IdemWorld_networked : Networked IdemWorld := {
  next_fault w :=
    let '(f, l) := pop_fault (iw_faults w) in
    (f, {| iw_kv := iw_kv w; iw_table := iw_table w; iw_now := iw_now w; iw_uuids := iw_uuids w;
           iw_faults := l; iw_metrics := iw_metrics w |})
}.

Definition Idem : Type -> Type := M IdemWorld IdempotencyError.

Definition redis_call {A} (q : Z -> St -> A * St) : Idem A :=
  remote (Backend "redis") (fun w =>
    let '(a, s) := q (iw_now w) (iw_kv w) in
    (a, {| iw_kv := s; iw_table := iw_table w; iw_now := iw_now w; iw_uuids := iw_uuids w;
           iw_faults := iw_faults w; iw_metrics := iw_metrics w |})).

Definition sql {A} (q : Z -> idem_table -> A * idem_table) : Idem A :=
  remote (Backend "postgres") (fun w =>
    let '(a, t) := q (iw_now w) (iw_table w) in
    (a, {| iw_kv := iw_kv w; iw_table := t; iw_now := iw_now w; iw_uuids := iw_uuids w;
           iw_faults := iw_faults w; iw_metrics := iw_metrics w |})).

Definition new_uuid : Idem string := fun w =>
  (Ok (uuid (iw_uuids w)),
   {| iw_kv := iw_kv w; iw_table := iw_table w; iw_now := iw_now w; iw_uuids := S (iw_uuids w);
      iw_faults := iw_faults w; iw_metrics := iw_metrics w |}).

Definition metric (name : string) : Idem unit := fun w =>
  (Ok tt,
   {| iw_kv := iw_kv w; iw_table := iw_table w; iw_now := iw_now w; iw_uuids := iw_uuids w;
      iw_faults := iw_faults w; iw_metrics := name :: iw_metrics w |}).

Definition serialization {A} (r : result A string) : Idem A :=
  lift (match r with Ok a => Ok a | Err m => Err (Serialization m) end).

(** src/src/idempotency/store.rs:143-166 RedisBackend::begin, step 1 *)
Definition redis_lookup (scope fp : string) : Idem (option Decision) :=
  existing ← redis_call (fun now s => (r_get now (REDIS_DONE_PREFIX +:+ scope) s, s));
  match existing with
  | Some raw =>
      record ← serialization (from_json raw);
      if bool_decide (rr_fingerprint record = fp) then
        body ← serialization (decompress (rr_body_gzip record));
        mret (Some (Replay {| sr_status := rr_status record;
                              sr_content_type := rr_content_type record; sr_body := body |}))
      else mret (Some Mismatch)
  | None => mret None
  end.

(** [SET .. NX PX ms] is refused when [ms] is not positive.

    src/src/idempotency/store.rs:168-192 RedisBackend::begin, steps 2 and 3 *)
Definition redis_acquire (scope : string) (lock_ttl : Z) : Idem Decision :=
  token ← new_uuid;
  acquired ← redis_call (fun now s =>
    if lock_ttl <=? 0 then (None, s)
    else let '(ok, s') := r_set_nx_px now (REDIS_LOCK_PREFIX +:+ scope) token lock_ttl s in (Some ok, s'));
  match acquired with
  | None => throw (Backend "invalid expire time in 'set' command")
  | Some true => mret (Proceed token)
  | Some false =>
      reply ← attempt (redis_call (fun now s => (r_pttl now (REDIS_LOCK_PREFIX +:+ scope) s, s)));
      let pttl := match reply with Ok ms => ms | Err _ => 1000 end in
      mret (Conflict (Z.max (Z.max pttl 0 / 1000) 1))
  end.

(** src/src/idempotency/store.rs:134-193 RedisBackend::begin *)
Definition redis_begin (scope principal route key fp : string) (lock_ttl : Z) : Idem Decision :=
  found ← redis_lookup scope fp;
  match found with
  | Some d => mret d
  | None => redis_acquire scope lock_ttl
  end.

(** src/src/idempotency/store.rs:237-257 release_redis_lock *)
Definition release_redis_lock (scope token : string) : Idem unit :=
  _ ← redis_call (fun now s => r_del_if now (REDIS_LOCK_PREFIX +:+ scope) token s);
  mret tt.

(** [SETEX] with whole seconds, refused when they are not positive.

    src/src/idempotency/store.rs:195-229 RedisBackend::complete *)
Definition redis_complete (scope token fp : string) (response : StoredResponse) (entry_ttl max_body : Z)
    : Idem unit :=
  let body_gzip := compress (sr_body response) in
  _ ← (if Z.of_nat (slength body_gzip) <=? max_body then
         let record := {| rr_status := sr_status response;
                          rr_content_type := sr_content_type response;
                          rr_fingerprint := fp; rr_body_gzip := body_gzip |} in
         stored ← redis_call (fun now s =>
           if entry_ttl / 1000 <=? 0 then (false, s)
           else (true, r_set_px now (REDIS_DONE_PREFIX +:+ scope) (to_json record)
                         (entry_ttl / 1000 * 1000) s));
         if stored : bool then mret tt else throw (Backend "invalid expire time in 'setex' command")
       else metric "IDEMPOTENCY_BODY_TOO_LARGE_TOTAL");
  release_redis_lock scope token.

(** src/src/idempotency/store.rs:231-234 RedisBackend::fail *)
Definition redis_fail (scope token : string) : Idem unit := release_redis_lock scope token.

(** src/src/idempotency/store.rs:350-387 PostgresBackend::begin on a live row *)
Definition pg_begin_row (scope fp token : string) (lock_ttl : Z) (row : IdemRow) : Idem Decision :=
  if negb (ir_in_flight row) then
    if bool_decide (ir_fingerprint row = fp) then
      body ← serialization (decompress (default "" (ir_body row)));
      mret (Replay {| sr_status := wrap_u16 (default 200 (ir_status row));
                      sr_content_type := ir_content_type row; sr_body := body |})
    else mret Mismatch
  else
    reclaimed ← sql (fun now => pg_reclaim now scope fp lock_ttl);
    if reclaimed =? 1 then mret (Proceed token)
    else mret (Conflict (Z.max (lock_ttl / 1000) 1)).

(** The recursion of the source on [fuel]; running out of it is told apart as
    [None].

    src/src/idempotency/store.rs:273-388 PostgresBackend::begin *)
Fixpoint pg_begin_fuel (fuel : nat) (scope principal route key fp : string) (lock_ttl : Z)
    : Idem (option Decision) :=
  match fuel with
  | O => mret None
  | S fuel' =>
      token ← new_uuid;
      inserted ← sql (fun now => pg_insert now scope principal route key fp);
      if inserted =? 1 then mret (Some (Proceed token))
      else
        row ← sql (fun now t => (pg_select_live now scope t, t));
        match row with
        | None =>
            _ ← sql (fun now t => (tt, pg_delete_expired now scope t));
            pg_begin_fuel fuel' scope principal route key fp lock_ttl
        | Some row => d ← pg_begin_row scope fp token lock_ttl row; mret (Some d)
        end
  end.

(** src/src/idempotency/store.rs:390-437 PostgresBackend::complete *)
Definition pg_complete (scope token fp : string) (response : StoredResponse) (entry_ttl max_body : Z)
    : Idem unit :=
  let body_gzip := compress (sr_body response) in
  stored ← (if Z.of_nat (slength body_gzip) <=? max_body
            then mret (Some body_gzip, Some (sha256_hex (sr_body response)))
            else _ ← metric "IDEMPOTENCY_BODY_TOO_LARGE_TOTAL"; mret (None, None));
  let '(stored_body, stored_hash) := stored in
  sql (fun now t => (tt, pg_complete_update now scope (wrap_i16 (sr_status response))
                           (sr_content_type response) stored_body stored_hash entry_ttl t)).

(** src/src/idempotency/store.rs:439-447 PostgresBackend::fail *)
Definition pg_fail (scope token : string) : Idem unit :=
  sql (fun now t => (tt, pg_delete_in_flight scope t)).

(** The trait object of a backend.

    src/src/idempotency/store.rs:71-93 IdempotencyBackend *)
Record IdempotencyBackend : Type := {
  ib_begin : string -> string -> string -> string -> string -> Z -> Idem Decision;
  ib_complete : string -> string -> string -> StoredResponse -> Z -> Z -> Idem unit;
  ib_fail : string -> string -> Idem unit
}.

(** src/src/idempotency/store.rs:450-452 redis_backend *)
Definition redis_backend : IdempotencyBackend :=
  {| ib_begin := redis_begin; ib_complete := redis_complete; ib_fail := redis_fail |}.

(** The recursion of [begin] unfolds at most twice when nobody else changes the
    row in between ([pg_begin_terminates]); the model gives it two rounds.

    src/src/idempotency/store.rs:454-456 postgres_backend *)
Definition postgres_backend : IdempotencyBackend :=
  {| ib_begin scope principal route key fp lock_ttl :=
       d ← pg_begin_fuel 2 scope principal route key fp lock_ttl;
       match d with Some d => mret d | None => throw (Serialization "out of fuel") end;
     ib_complete := pg_complete; ib_fail := pg_fail |}.

(** ** Fingerprints *)

(** The byte [0x00] that separates the hashed parts. *)
Definition nul : string := String (chr 0) "".

(** src/src/idempotency/fingerprint.rs:8-16 compute_fingerprint *)
Definition compute_fingerprint (method path body : string) : string :=
  sha256_hex (method +:+ nul +:+ path +:+ nul +:+ body).

(** src/src/idempotency/fingerprint.rs:20-28 compute_scope_hash *)
Definition compute_scope_hash (principal route key : string) : string :=
  sha256_hex (principal +:+ nul +:+ route +:+ nul +:+ key).

(** ** The service *)

(** src/src/idempotency/service.rs:77-81 IdempotencyService *)
Record IdempotencyService : Type := {
  sv_redis : option IdempotencyBackend;
  sv_pg : IdempotencyBackend;
  sv_config : IdempotencyConfig
}.

(** [redis] says whether a connection was configured.

    src/src/idempotency/service.rs:84-90 IdempotencyService::new *)
Definition new_service (redis : bool) (config : IdempotencyConfig) : IdempotencyService :=
  {| sv_redis := if redis then Some redis_backend else None;
     sv_pg := postgres_backend; sv_config := config |}.

(** src/src/idempotency/service.rs:106-146 the decision of IdempotencyService::begin *)
Definition service_decision (sv : IdempotencyService) (scope principal route key fp : string)
    : Idem Decision :=
  let ttl := lock_ttl (sv_config sv) in
  match sv_redis sv with
  | Some redis =>
      r ← attempt (ib_begin redis scope principal route key fp ttl);
      match r with
      | Ok decision => mret decision
      | Err e =>
          if is_backend_unavailable e then
            _ ← metric "IDEMPOTENCY_REDIS_FALLBACK_TOTAL";
            ib_begin (sv_pg sv) scope principal route key fp ttl
          else throw e
      end
  | None => ib_begin (sv_pg sv) scope principal route key fp ttl
  end.

(** src/src/idempotency/service.rs:96-172 IdempotencyService::begin *)
Definition service_begin (sv : IdempotencyService) (principal route key fp : string) : Idem Outcome :=
  let scope := compute_scope_hash principal route key in
  decision ← service_decision sv scope principal route key fp;
  match decision with
  | Proceed token =>
      _ ← metric "IDEMPOTENCY_EXECUTED_TOTAL";
      mret (OProceed {| g_scope_hash := scope; g_fingerprint := fp; g_token := token |})
  | Replay response => _ ← metric "IDEMPOTENCY_REPLAY_TOTAL"; mret (OReplay response)
  | Mismatch => _ ← metric "IDEMPOTENCY_MISMATCH_TOTAL"; mret OMismatch
  | Conflict secs => _ ← metric "IDEMPOTENCY_CONFLICT_TOTAL"; mret (OConflict secs)
  end.

(** src/src/idempotency/service.rs:174-209 IdempotencyService::complete *)
Definition service_complete (sv : IdempotencyService) (guard : ExecutionGuard) (response : StoredResponse)
    : Idem unit :=
  let c := sv_config sv in
  _ ← ib_complete (sv_pg sv) (g_scope_hash guard) (g_token guard) (g_fingerprint guard) response
        (entry_ttl c) (max_body_bytes c);
  match sv_redis sv with
  | Some redis =>
      _ ← attempt (ib_complete redis (g_scope_hash guard) (g_token guard) (g_fingerprint guard) response
                     (entry_ttl c) (max_body_bytes c));
      mret tt
  | None => mret tt
  end.

(** src/src/idempotency/service.rs:211-218 IdempotencyService::fail *)
Definition service_fail (sv : IdempotencyService) (guard : ExecutionGuard) : Idem unit :=
  _ ← match sv_redis sv with
      | Some redis => _ ← attempt (ib_fail redis (g_scope_hash guard) (g_token guard)); mret tt
      | None => mret tt
      end;
  ib_fail (sv_pg sv) (g_scope_hash guard) (g_token guard).

(** ** The middleware *)

Variable is_uuid : string -> bool.
Context {IpAddr : Type} (parse_ip : string -> option IpAddr) (show_ip : IpAddr -> string).

(** What the middleware reads of a request; [im_body] is [None] when reading
    the body fails. *)
Record IdemRequest : Type := {
  im_method : string;
  im_path : string;
  im_key : option string;
  im_subject : option string;
  im_forwarded_for : option string;
  im_real_ip : option string;
  im_body : option string
}.

(** A response; its [resp_body] is [None] when reading it fails. *)
Definition IdemResponse : Type := Response (option string).

(** src/src/routes/tips.rs:119-132 extract_client_ip *)
Definition header_client_ip (req : IdemRequest) : option IpAddr :=
  match (v ← im_forwarded_for req; v ← header_to_str v;
         first ← head (split_on "," v); parse_ip (trim first)) with
  | Some ip => Some ip
  | None => v ← im_real_ip req; v ← header_to_str v; parse_ip v
  end.

(** src/src/idempotency/middleware.rs:165-173 resolve_principal *)
Definition resolve_principal (req : IdemRequest) : string :=
  match im_subject req with
  | Some sub => "user:" +:+ sub
  | None =>
      match header_client_ip req with
      | Some ip => "ip:" +:+ show_ip ip
      | None => "anon:unscoped"
      end
  end.

(** src/src/idempotency/middleware.rs:152-157 extract_idempotency_key *)
Definition extract_idempotency_key (req : IdemRequest) : option string :=
  v ← im_key req; header_to_str v.

(** src/src/idempotency/middleware.rs:139-150 build_replay_response; a status a
    [StatusCode] cannot hold is replaced by 200 *)
Definition build_replay_response (stored : StoredResponse) : IdemResponse :=
  {| resp_status := if (100 <=? sr_status stored) && (sr_status stored <=? 999)
                    then sr_status stored else 200;
     resp_headers := ("x-idempotent-replay", "true") ::
       match sr_content_type stored with Some ct => [("content-type", ct)] | None => [] end;
     resp_body := Some (sr_body stored) |}.

(** The value of a header (names are lower case in a [HeaderMap]). *)
Definition header (k : string) (hs : list (string * string)) : option string :=
  snd <$> head (filter (fun h => h.1 = k) hs).

(** An error's own response: its body as JSON text. *)
Variable error_body : ErrorResponse -> string.
Variable rid : option string.

Definition error_response (e : AppError) : IdemResponse :=
  let r := into_response rid e in
  {| resp_status := resp_status r; resp_headers := resp_headers r;
     resp_body := Some (error_body (resp_body r)) |}.

Context {App : Type}.
(** The handler: its response, the application state it leaves and the
    milliseconds it takes. *)
Variable next : IdemRequest -> App -> IdemResponse * App * Z.

Definition later (ms : Z) (w : IdemWorld) : IdemWorld :=
  {| iw_kv := iw_kv w; iw_table := iw_table w; iw_now := iw_now w + ms; iw_uuids := iw_uuids w;
     iw_faults := iw_faults w; iw_metrics := iw_metrics w |}.

Definition with_replay_header (r : IdemResponse) : IdemResponse :=
  {| resp_status := resp_status r;
     resp_headers := ("x-idempotent-replay", "false") ::
       filter (fun h => h.1 <> "x-idempotent-replay") (resp_headers r);
     resp_body := resp_body r |}.

(** src/src/idempotency/middleware.rs:89-135 the Proceed arm of idempotency_middleware *)
Definition run_guarded (sv : IdempotencyService) (guard : ExecutionGuard) (req : IdemRequest)
    (a : App) (w : IdemWorld) : IdemResponse * App * IdemWorld :=
  let '(response, a, ms) := next req a in
  let w := later ms w in
  match resp_body response with
  | None => let '(_, w) := service_fail sv guard w in (error_response Internal, a, w)
  | Some body =>
      let w :=
        if resp_status response <? 500 then
          snd (service_complete sv guard
                 {| sr_status := resp_status response;
                    sr_content_type := v ← header "content-type" (resp_headers response); header_to_str v;
                    sr_body := body |} w)
        else snd (service_fail sv guard w) in
      (with_replay_header response, a, w)
  end.

(** src/src/idempotency/middleware.rs:32-137 idempotency_middleware *)
Definition idempotency_middleware (sv : IdempotencyService) (req : IdemRequest) (a : App) (w : IdemWorld)
    : IdemResponse * App * IdemWorld :=
  let run_next :=
    let '(response, a, ms) := next req a in (response, a, later ms w) in
  if negb (bool_decide (im_method req ∈ ["POST"; "PUT"; "PATCH"; "DELETE"])) then run_next
  else match extract_idempotency_key req with
  | None => run_next
  | Some raw_key =>
      if negb (is_uuid raw_key) then
        (error_response (bad_request "Idempotency-Key must be a valid UUID"), a, w)
      else
        let principal := resolve_principal req in
        let route := im_method req +:+ " " +:+ im_path req in
        match im_body req with
        | None => (error_response (bad_request "Invalid request body"), a, w)
        | Some body =>
            let fp := compute_fingerprint (im_method req) (im_path req) body in
            match service_begin sv principal route raw_key fp w with
            | (Err _, w) =>
                let '(response, a, ms) := next req a in (response, a, later ms w)
            | (Ok (OReplay stored), w) => (build_replay_response stored, a, w)
            | (Ok OMismatch, w) =>
                (error_response (IdempotencyKeyReused
                   "This Idempotency-Key was already used with a different request body"), a, w)
            | (Ok (OConflict secs), w) => (error_response (IdempotencyKeyLocked secs), a, w)
            | (Ok (OProceed guard), w) => run_guarded sv guard req a w
            end
        end
  end.

End idempotency.

(** ** Lemmas: what an action preserves *)

(** Two keys of the store never meet. *)
Lemma lock_key_inj a b : REDIS_LOCK_PREFIX +:+ a = REDIS_LOCK_PREFIX +:+ b -> a = b.
Proof. apply (inj (fun s => REDIS_LOCK_PREFIX +:+ s)). Qed.

Lemma done_lock_ne a b : REDIS_DONE_PREFIX +:+ a <> REDIS_LOCK_PREFIX +:+ b.
Proof. discriminate. Qed.

#[export] Hint Resolve lock_key_inj done_lock_ne : tipjar.

Section invariants.
Context {St : Type} `{RedisLaws string St}.

Definition keeps {A} (P : IdemWorld (St := St) -> Prop) (m : Idem A) : Prop :=
  forall w, P w -> P (snd (m w)).

(** A property of the Redis store and the clock. *)
Definition kv_prop (P : Z -> St -> Prop) (w : IdemWorld (St := St)) : Prop := P (iw_now w) (iw_kv w).

Lemma keeps_bind {A B} P (m : Idem A) (k : A -> Idem B) :
  keeps P m -> (forall a, keeps P (k a)) -> keeps P (m ≫= k).
Proof.
  intros Hm Hk w Hw. unfold mbind, M_bind. specialize (Hm w Hw).
  destruct (m w) as [[a | e] w1]; [by apply Hk | done].
Qed.

Lemma keeps_ret {A} P (a : A) : keeps P (mret a : Idem A).
Proof. by intros w. Qed.

Lemma keeps_throw {A} P e : keeps P (throw e : Idem A).
Proof. by intros w. Qed.

Lemma keeps_serialization {A} P (r : result A string) : keeps P (serialization r).
Proof. by intros w. Qed.

Lemma keeps_attempt {A} P (m : Idem A) : keeps P m -> keeps P (attempt (E' := IdempotencyError) m).
Proof. intros Hm w Hw. specialize (Hm w Hw). unfold attempt. by destruct (m w). Qed.

Lemma keeps_metric P n : keeps (kv_prop P) (metric n).
Proof. by intros w. Qed.

Lemma keeps_uuid P uuid : keeps (kv_prop P) (new_uuid uuid).
Proof. by intros w. Qed.

Lemma keeps_sql {A} P (q : Z -> idem_table -> A * idem_table) : keeps (kv_prop P) (sql q).
Proof.
  intros w Hw. unfold sql, remote. simpl. destruct (pop_fault _) as [[] l]; simpl;
    by destruct (q (iw_now w) (iw_table w)).
Qed.

Lemma keeps_redis {A} (P : Z -> St -> Prop) (q : Z -> St -> A * St) :
  (forall now s, P now s -> P now (snd (q now s))) -> keeps (kv_prop P) (redis_call q).
Proof.
  intros Hq w Hw. unfold redis_call, remote. simpl.
  specialize (Hq (iw_now w) (iw_kv w) Hw).
  destruct (pop_fault _) as [[] l]; simpl; by destruct (q (iw_now w) (iw_kv w)).
Qed.
End invariants.

Create HintDb keeps.
#[export] Hint Resolve keeps_bind keeps_ret keeps_throw keeps_serialization keeps_attempt
  keeps_metric keeps_uuid keeps_sql keeps_redis : keeps.

(** ** Mutual exclusion *)

Section exclusion.
Context {St : Type} `{RedisLaws string St}.
Variable compress : string -> string.
Variable decompress : string -> result string string.
Variable to_json : RedisRecord -> string.
Variable from_json : string -> result RedisRecord string.
Variable uuid : nat -> string.

(** [a] holds the lock of [scope] until [deadline]. *)
Definition holds (scope a : string) (deadline now : Z) (s : St) : Prop :=
  forall t, now <= t < deadline -> r_get t (REDIS_LOCK_PREFIX +:+ scope) s = Some a.

(** What the clients of the store do, one atomic command sequence at a time,
    with whatever outages: every step of every backend operation, except that
    the holder [a] of [scope] does not release it. *)
Inductive client_step (scope a : string) : IdemWorld -> IdemWorld -> Prop :=
| st_wait ms w : 0 <= ms -> client_step scope a w (later ms w)
| st_lookup sc fp w : client_step scope a w (snd (redis_lookup decompress from_json sc fp w))
| st_acquire sc ttl w : client_step scope a w (snd (redis_acquire uuid sc ttl w))
| st_complete sc tok fp r ttl mx w :
    (sc = scope -> tok <> a) ->
    client_step scope a w (snd (redis_complete compress to_json sc tok fp r ttl mx w))
| st_fail sc tok w : (sc = scope -> tok <> a) -> client_step scope a w (snd (redis_fail sc tok w)).

Lemma holds_set_nx scope a d now s k v ttl :
  holds scope a d now s -> now < d -> 0 < ttl ->
  holds scope a d now (snd (r_set_nx_px now k v ttl s)).
Proof.
  intros Hh Hd Httl. destruct (r_set_nx_px now k v ttl s) as [[|] s'] eqn:Hset; simpl.
  - apply r_set_nx_px_true in Hset as [Hnone ->]. intros t Ht.
    destruct (decide (k = REDIS_LOCK_PREFIX +:+ scope)) as [-> | Hne].
    + rewrite (Hh now) in Hnone by lia. done.
    + rewrite r_get_set_other by done. by apply Hh.
  - by apply r_set_nx_px_false in Hset as [-> _].
Qed.

Lemma holds_release scope a d now s sc tok :
  (sc = scope -> tok <> a) -> holds scope a d now s -> now < d ->
  holds scope a d now (snd (r_del_if now (REDIS_LOCK_PREFIX +:+ sc) tok s)).
Proof.
  intros Hne Hh Hd. unfold r_del_if. case_bool_decide as Hg; simpl; [| done].
  intros t Ht. destruct (decide (sc = scope)) as [-> | Hsc].
  - rewrite (Hh now) in Hg by lia. injection Hg as <-. by destruct Hne.
  - rewrite r_get_del_other; [by apply Hh | intros Heq; by apply Hsc, lock_key_inj].
Qed.

Lemma client_step_holds scope a d w w' :
  client_step scope a w w' -> iw_now w <= iw_now w' /\
  (iw_now w < d -> kv_prop (holds scope a d) w -> kv_prop (holds scope a d) w').
Proof.
  set (Q := fun w0 : IdemWorld (St := St) => iw_now w0 = iw_now w /\
              (iw_now w < d -> kv_prop (holds scope a d) w -> kv_prop (holds scope a d) w0)).
  assert (forall A (m : Idem A), keeps (kv_prop (fun now s => now = iw_now w /\
            (iw_now w < d -> kv_prop (holds scope a d) w -> holds scope a d now s))) m ->
          Q (snd (m w))) as Hkeeps.
  { intros A m Hm. specialize (Hm w). unfold kv_prop in Hm. apply Hm. split; [done |]. auto. }
  assert (forall w', Q w' -> iw_now w <= iw_now w' /\
    (iw_now w < d -> kv_prop (holds scope a d) w -> kv_prop (holds scope a d) w')) as HQ.
  { intros w0 [-> ?]. split; [lia | done]. }
  destruct 1 as [ms w Hms | sc fp w | sc ttl w | sc tok fp r ttl mx w Hne | sc tok w Hne].
  - split; [simpl; lia |]. intros Hd Hh t Ht. apply Hh. simpl in Ht. lia.
  - apply HQ, Hkeeps. unfold redis_lookup. apply keeps_bind; [by apply keeps_redis |].
    intros [raw |]; [| apply keeps_ret]. apply keeps_bind; [apply keeps_serialization |].
    intros rec. case_bool_decide; auto with keeps.
  - apply HQ, Hkeeps. unfold redis_acquire. apply keeps_bind; [apply keeps_uuid |]. intros tok.
    apply keeps_bind.
    + apply keeps_redis. intros now s [-> Hh]. destruct (ttl <=? 0) eqn:Httl; zbool; [done |].
      destruct (r_set_nx_px _ _ _ _ _) as [ok s'] eqn:Hset. simpl. split; [done |]. intros Hd Hw.
      change s' with (snd (ok, s')). rewrite <- Hset. apply holds_set_nx; auto.
    + intros [[] |]; [apply keeps_ret | | apply keeps_throw].
      apply keeps_bind; [apply keeps_attempt; by apply keeps_redis | intros; apply keeps_ret].
  - apply HQ, Hkeeps. unfold redis_complete, release_redis_lock. apply keeps_bind.
    + destruct (_ <=? mx); [| apply keeps_metric].
      apply keeps_bind; [| intros []; [apply keeps_ret | apply keeps_throw]].
      apply keeps_redis. intros now s [-> Hh]. destruct (_ <=? 0); [done |]. simpl. split; [done |].
      intros Hd Hw t Ht. rewrite r_get_set_other by apply done_lock_ne. by apply Hh.
    + intros _. apply keeps_bind; [| intros; apply keeps_ret].
      apply keeps_redis. intros now s [-> Hh]. split; [done |]. intros. apply holds_release; auto.
  - apply HQ, Hkeeps. unfold redis_fail, release_redis_lock.
    apply keeps_bind; [| intros; apply keeps_ret].
    apply keeps_redis. intros now s [-> Hh]. split; [done |]. intros. apply holds_release; auto.
Qed.

Lemma client_steps_holds scope a d w w' :
  rtc (client_step scope a) w w' -> iw_now w <= iw_now w' /\
  (iw_now w' < d -> kv_prop (holds scope a d) w -> kv_prop (holds scope a d) w').
Proof.
  induction 1 as [w | w1 w2 w3 Hstep _ [Hle IH]]; [split; [lia | done] |].
  destruct (client_step_holds scope a d _ _ Hstep) as [Hle' Hh]. split; [lia |].
  intros Hd Hw. apply IH; [done |]. apply Hh; [lia | done].
Qed.

Lemma acquire_holds scope ttl w a w' :
  redis_acquire uuid scope ttl w = (Ok (Proceed a), w') ->
  0 < ttl /\ iw_now w' = iw_now w /\ kv_prop (holds scope a (iw_now w + ttl)) w'.
Proof.
  unfold redis_acquire, redis_call, remote, new_uuid, attempt, throw.
  unfold mbind, M_bind, mret, M_ret. simpl.
  destruct (pop_fault (iw_faults w)) as [[] l]; simpl; destruct (ttl <=? 0) eqn:Httl; try done;
    destruct (r_set_nx_px _ _ _ _ _) as [[|] s'] eqn:Hset; simpl; try done; zbool.
  - intros [= <- <-]. apply r_set_nx_px_true in Hset as [_ ->]. unfold kv_prop. simpl.
    split_and!; [lia | done |]. intros t Ht. by apply r_get_set_same.
  - by destruct (pop_fault l) as [[] l'].
Qed.

Lemma acquire_refused scope ttl w a d :
  kv_prop (holds scope a d) w -> iw_now w < d ->
  forall tok, fst (redis_acquire uuid scope ttl w) <> Ok (Proceed tok).
Proof.
  intros Hh Hd tok Heq. destruct (redis_acquire uuid scope ttl w) as [r w'] eqn:Hacq.
  simpl in Heq. subst r. revert Hacq.
  unfold redis_acquire, redis_call, remote, new_uuid, attempt, throw.
  unfold mbind, M_bind, mret, M_ret. simpl.
  assert (forall v, r_set_nx_px (iw_now w) (REDIS_LOCK_PREFIX +:+ scope) v ttl (iw_kv w)
                    = (false, iw_kv w)) as Hset.
  { intros v. unfold r_set_nx_px. by rewrite (Hh (iw_now w)) by (unfold kv_prop in *; lia). }
  destruct (pop_fault (iw_faults w)) as [[] l]; simpl; destruct (ttl <=? 0); try done;
    rewrite Hset; simpl; try done. by destruct (pop_fault l) as [[] l'].
Qed.
End exclusion.

(** ** Properties *)

(** The Redis lock excludes: once a request was told to proceed with token [a],
    no other request on the scope is told to proceed before the lock's time is
    up, whatever requests run in between and whatever calls fail, unless a
    release with that very token is issued. *)
Lemma redis_lock_exclusion {St} `{RedisLaws string St} compress decompress to_json from_json uuid
    scope ttl ttl' a (w w1 w2 : IdemWorld (St := St)) tok :
  redis_acquire uuid scope ttl w = (Ok (Proceed a), w1) ->
  rtc (client_step compress decompress to_json from_json uuid scope a) w1 w2 ->
  iw_now w2 < iw_now w + ttl ->
  fst (redis_acquire uuid scope ttl' w2) <> Ok (Proceed tok).
Proof.
  intros Hacq Hsteps Hd. apply acquire_holds in Hacq as (Httl & Hnow & Hh).
  apply client_steps_holds with (d := iw_now w + ttl) in Hsteps as [Hle Hkeep].
  apply (acquire_refused uuid scope ttl' w2 a (iw_now w + ttl)); auto.
Qed.

Lemma redis_lock_exclusion_witness :
  let uuid := fun n : nat => if (n =? 0)%nat then "a" else "b" in
  let w := {| iw_kv := (∅ : redis_map string); iw_table := ∅; iw_now := 100; iw_uuids := 0;
              iw_faults := [Fine; ReplyLost]; iw_metrics := [] |} in
  let w1 := snd (redis_acquire uuid "s" 30000 w) in
  let w2 := snd (redis_fail "s" "b" (later 5000 w1)) in
  fst (redis_acquire uuid "s" 30000 w) = Ok (Proceed "a") /\
  fst (redis_acquire uuid "s" 30000 w2) <> Ok (Proceed "b").
Proof.
  intros uuid w w1 w2.
  split; [vm_compute; reflexivity |].
  refine (redis_lock_exclusion (fun s => s) Ok (fun _ => "") (fun s => Err s) uuid "s" 30000 30000 "a" w w1 w2
            "b" _ _ _).
  - vm_compute. reflexivity.
  - eapply rtc_l; [apply (st_wait _ _ _ _ _ _ _ 5000); lia |].
    apply rtc_once, st_fail. intros _. discriminate.
  - vm_compute. reflexivity.
Defined.

Section pg_begin.
Context {St : Type} `{Redis string St}.
Variable decompress : string -> result string string.
Variable uuid : nat -> string.
Variables (scope p r k fp : string) (ttl : Z).

Abbreviation rounds n := (pg_begin_fuel decompress uuid n scope p r k fp ttl).

Lemma sql_cases {A} (q : Z -> idem_table -> A * idem_table) (w : IdemWorld (St := St)) :
  (exists w', sql q w = (Ok (fst (q (iw_now w) (iw_table w))), w') /\
     iw_now w' = iw_now w /\ iw_table w' = snd (q (iw_now w) (iw_table w))) \/
  (exists e w', sql q w = (Err e, w')).
Proof.
  unfold sql, remote. simpl. destruct (pop_fault _) as [[] l]; simpl;
    destruct (q (iw_now w) (iw_table w)) as [x t]; [left; eexists; by split_and! | right | right]; eauto.
Qed.

Lemma pg_insert_cases now t :
  fst (pg_insert now scope p r k fp t) = 1 \/
  (exists row, t !! scope = Some row /\ pg_insert now scope p r k fp t = (0, t)).
Proof. unfold pg_insert. destruct (t !! scope) eqn:Ht; [right; eauto | by left]. Qed.

Lemma pg_begin_row_some token row (w : IdemWorld (St := St)) :
  fst ((d ← pg_begin_row decompress scope fp token ttl row; mret (Some d)) w) <> Ok None.
Proof.
  unfold mbind, M_bind. by destruct (pg_begin_row _ _ _ _ _ _ w) as [[d | e] w'].
Qed.

Lemma pg_round (w : IdemWorld (St := St)) :
  (exists res w', res <> Ok None /\ forall n, rounds (S n) w = (res, w')) \/
  (exists w', iw_table w !! scope <> None /\ iw_table w' !! scope = None /\
     forall n, rounds (S n) w = rounds n w').
Proof.
  destruct (new_uuid uuid w) as [[token | ?] w0] eqn:Hu; [| done].
  assert (iw_table w0 = iw_table w) as Htab0 by (injection Hu as _ <-; done).
  destruct (sql_cases (fun now => pg_insert now scope p r k fp) w0)
    as [(w1 & Hq & Hnow & Htab) | (e & w1 & Hq)].
  2: { left. exists (Err e), w1. split; [done |]. intros n. cbn [pg_begin_fuel].
       by rewrite (bind_ok _ _ _ _ _ Hu), (bind_err _ _ _ _ _ Hq). }
  destruct (pg_insert_cases (iw_now w0) (iw_table w0)) as [Hins | (row & Hrow & Hins)].
  { left. exists (Ok (Some (Proceed token))), w1. split; [done |]. intros n. cbn [pg_begin_fuel].
    by rewrite (bind_ok _ _ _ _ _ Hu), (bind_ok _ _ _ _ _ Hq), Hins. }
  rewrite Hins in Hq, Htab. cbn [fst snd] in *.
  destruct (sql_cases (fun now t => (pg_select_live now scope t, t)) w1)
    as [(w2 & Hq2 & Hnow2 & Htab2) | (e & w2 & Hq2)].
  2: { left. exists (Err e), w2. split; [done |]. intros n. cbn [pg_begin_fuel].
       by rewrite (bind_ok _ _ _ _ _ Hu), (bind_ok _ _ _ _ _ Hq); apply bind_err. }
  destruct (pg_select_live (iw_now w1) scope (iw_table w1)) as [row' |] eqn:Hsel; cbn [fst snd] in *.
  { left. eexists _, _. split; [apply (pg_begin_row_some token row' w2) |]. intros n.
    cbn [pg_begin_fuel]. rewrite (bind_ok _ _ _ _ _ Hu), (bind_ok _ _ _ _ _ Hq).
    change (0 =? 1) with false. cbv iota. rewrite (bind_ok _ _ _ _ _ Hq2). apply surjective_pairing. }
  destruct (sql_cases (fun now t => (tt, pg_delete_expired now scope t)) w2)
    as [(w3 & Hq3 & _ & Htab3) | (e & w3 & Hq3)].
  2: { left. exists (Err e), w3. split; [done |]. intros n. cbn [pg_begin_fuel].
       rewrite (bind_ok _ _ _ _ _ Hu), (bind_ok _ _ _ _ _ Hq). change (0 =? 1) with false. cbv iota.
       rewrite (bind_ok _ _ _ _ _ Hq2). by apply bind_err. }
  right. exists w3. split_and!; [by rewrite <- Htab0, Hrow | | intros n].
  - rewrite Htab3, Htab2, Htab. cbn [snd]. unfold pg_delete_expired. rewrite Hrow.
    unfold pg_select_live in Hsel. rewrite Htab, Hrow in Hsel. cbn [mbind option_bind] in Hsel.
    destruct (iw_now w1 <? ir_expires_at row) eqn:Hlive; [done |].
    destruct (ir_expires_at row <=? iw_now w2) eqn:He; zbool; [| lia]. apply lookup_delete_eq.
  - cbn [pg_begin_fuel]. rewrite (bind_ok _ _ _ _ _ Hu), (bind_ok _ _ _ _ _ Hq).
    change (0 =? 1) with false. cbv iota. rewrite (bind_ok _ _ _ _ _ Hq2). exact (bind_ok _ _ _ _ _ Hq3).
Qed.

End pg_begin.

(** The recursion of the Postgres [begin] ends: two rounds always suffice,
    whatever the table holds and whatever calls fail, because a round recurses
    only after it deleted the expired row that was in its way. *)
Lemma pg_begin_terminates {St} `{Redis string St} decompress uuid fuel scope p r k fp ttl
    (w : IdemWorld (St := St)) :
  pg_begin_fuel decompress uuid (2 + fuel) scope p r k fp ttl w
    = pg_begin_fuel decompress uuid 2 scope p r k fp ttl w /\
  fst (pg_begin_fuel decompress uuid 2 scope p r k fp ttl w) <> Ok None.
Proof.
  change (2 + fuel)%nat with (S (S fuel)).
  destruct (pg_round decompress uuid scope p r k fp ttl w)
    as [(res & w' & Hres & Hn) | (w' & _ & Hnone & Hn)].
  { rewrite (Hn (S fuel)), (Hn 1%nat). by split. }
  rewrite (Hn (S fuel)), (Hn 1%nat).
  destruct (pg_round decompress uuid scope p r k fp ttl w')
    as [(res & w2 & Hres & Hn') | (w2 & Hsome & _)]; [| done].
  rewrite (Hn' fuel), (Hn' 0%nat). by split.
Qed.

Lemma wrap_u16_i16 s : 0 <= s < 2 ^ 16 -> wrap_u16 (wrap_i16 s) = s.
Proof.
  intros Hs. unfold wrap_u16, wrap_i16. rewrite Zminus_mod, Z.mod_mod, <- Zminus_mod by lia.
  rewrite Z.add_simpl_r. by apply Z.mod_small.
Qed.

(** ** A request, its completion and its replays when no call fails *)

Section protocol.
Context {St : Type} `{RedisLaws string St}.
Variable compress : string -> string.
Variable decompress : string -> result string string.
Variable sha256_hex : string -> string.
Variable to_json : RedisRecord -> string.
Variable from_json : string -> result RedisRecord string.
Variable uuid : nat -> string.
Hypothesis gzip_round_trip : forall b, decompress (compress b) = Ok b.
Hypothesis json_round_trip : forall r, from_json (to_json r) = Ok r.

Abbreviation World := (IdemWorld (St := St)).
Abbreviation service redis config :=
  (new_service compress decompress sha256_hex to_json from_json uuid redis config).

(** Nothing is known of the scope. *)
Definition fresh (redis : bool) (scope : string) (w : World) : Prop :=
  iw_faults w = [] /\
  if redis then r_get (iw_now w) (REDIS_DONE_PREFIX +:+ scope) (iw_kv w) = None /\
                r_get (iw_now w) (REDIS_LOCK_PREFIX +:+ scope) (iw_kv w) = None
  else iw_table w !! scope = None.

(** The request is executing. *)
Definition pending (redis : bool) (scope fp : string) (w : World) : Prop :=
  iw_faults w = [] /\
  if redis then True
  else exists row, iw_table w !! scope = Some row /\ ir_in_flight row = true /\ ir_fingerprint row = fp.

(** Its response is on record until [until]. *)
Definition completed (redis : bool) (scope fp : string) (r : StoredResponse) (until : Z) (w : World) : Prop :=
  iw_faults w = [] /\
  if redis then
    forall t, iw_now w <= t < until ->
      r_get t (REDIS_DONE_PREFIX +:+ scope) (iw_kv w)
      = Some (to_json {| rr_status := sr_status r; rr_content_type := sr_content_type r;
                         rr_fingerprint := fp; rr_body_gzip := compress (sr_body r) |})
  else exists row, iw_table w !! scope = Some row /\ ir_in_flight row = false /\
    ir_fingerprint row = fp /\ ir_status row = Some (wrap_i16 (sr_status r)) /\
    ir_content_type row = sr_content_type r /\ ir_body row = Some (compress (sr_body r)) /\
    ir_expires_at row = until.

Lemma completed_later redis scope fp r until ms w :
  0 <= ms -> completed redis scope fp r until w -> completed redis scope fp r until (later ms w).
Proof.
  intros Hms [Hf Hc]. split; [done |]. destruct redis; [| done].
  intros t Ht. apply Hc. simpl in Ht. lia.
Qed.

Lemma pending_later redis scope fp ms w : pending redis scope fp w -> pending redis scope fp (later ms w).
Proof. done. Qed.

Ltac run :=
  unfold mbind, M_bind, mret, M_ret, attempt, throw, serialization, lift, redis_call, sql, remote,
    metric, new_uuid in *; simpl in *.

Lemma begin_fresh redis config principal route key fp (w : World) :
  fresh redis (compute_scope_hash sha256_hex principal route key) w -> 0 < lock_ttl config ->
  exists guard w', service_begin sha256_hex (service redis config) principal route key fp w
                   = (Ok (OProceed guard), w') /\
    g_scope_hash guard = compute_scope_hash sha256_hex principal route key /\ g_fingerprint guard = fp /\
    iw_now w' = iw_now w /\ pending redis (g_scope_hash guard) fp w'.
Proof.
  destruct w as [s t now n fl mt]. intros [Hf Hfresh] Httl. simpl in Hf, Hfresh. subst fl.
  unfold service_begin, service_decision. destruct redis; simpl.
  - destruct Hfresh as [Hdone Hlock]. unfold redis_begin, redis_lookup, redis_acquire. run.
    rewrite Hdone. simpl. destruct (lock_ttl config <=? 0) eqn:Hle; zbool; [lia |].
    unfold r_set_nx_px. rewrite Hlock. simpl. by eexists _, _.
  - run. unfold pg_insert at 1. rewrite Hfresh. simpl. eexists _, _. split_and!; try done.
    split; [done |]. eexists. simpl. rewrite lookup_insert_eq. by split_and!.
Qed.

Lemma complete_pending redis config guard r (w : World) :
  pending redis (g_scope_hash guard) (g_fingerprint guard) w ->
  Z.of_nat (slength (compress (sr_body r))) <= max_body_bytes config ->
  0 < entry_ttl config / 1000 ->
  exists w', service_complete (service redis config) guard r w = (Ok tt, w') /\
    iw_now w' = iw_now w /\
    completed redis (g_scope_hash guard) (g_fingerprint guard) r
      (iw_now w + entry_ttl config / 1000 * 1000) w'.
Proof.
  destruct w as [s t now n fl mt]. intros [Hf Hp] Hfit Httl. simpl in Hf, Hp. subst fl.
  unfold service_complete. simpl. unfold pg_complete.
  destruct (_ <=? max_body_bytes config) eqn:Hle; zbool; [| lia].
  destruct redis; run.
  - unfold redis_complete. rewrite (proj2 (Z.leb_le _ _) Hfit).
    destruct (entry_ttl config / 1000 <=? 0) eqn:Hz; zbool; [lia |]. unfold release_redis_lock. run.
    unfold r_del_if. case_bool_decide; simpl; eexists; (split_and!; [done | done | split; [done |]]);
      simpl; intros t' Ht'; [rewrite r_get_del_other by apply not_eq_sym, done_lock_ne |];
      apply r_get_set_same; lia.
  - destruct Hp as (row & Hrow & Hfl & Hfp). eexists. split_and!; [done | done | split; [done |]]. simpl.
    unfold pg_complete_update. rewrite Hrow. eexists. rewrite lookup_insert_eq. by split_and!.
Qed.

Lemma begin_completed redis config principal route key fp fp' r until (w : World) :
  completed redis (compute_scope_hash sha256_hex principal route key) fp r until w ->
  iw_now w < until -> 0 <= sr_status r < 2 ^ 16 ->
  exists w', service_begin sha256_hex (service redis config) principal route key fp' w
    = (Ok (if bool_decide (fp = fp') then OReplay r else OMismatch), w').
Proof.
  destruct w as [s t now n fl mt], r as [st ct body]. intros [Hf Hc] Hnow Hst.
  simpl in Hf, Hc, Hnow, Hst. subst fl.
  unfold service_begin, service_decision. destruct redis; simpl.
  - unfold redis_begin, redis_lookup. run. rewrite (Hc now) by lia. simpl. rewrite json_round_trip.
    simpl. case_bool_decide; simpl; [rewrite gzip_round_trip; simpl |]; by eexists.
  - destruct Hc as (row & Hrow & Hfl & Hfp & Hs & Hct & Hb & He). run. unfold pg_insert. rewrite Hrow.
    simpl. unfold pg_select_live. rewrite Hrow. simpl. rewrite He.
    destruct (now <? until) eqn:Hlt; zbool; [| lia]. unfold pg_begin_row. rewrite Hfl, Hfp. simpl. run.
    case_bool_decide; simpl; [| by eexists].
    rewrite Hb. simpl. rewrite gzip_round_trip. simpl. rewrite Hs, Hct. simpl.
    rewrite wrap_u16_i16 by lia. by eexists.
Qed.
End protocol.

(** A request the middleware intercepts, with its key and body. *)
Definition intercepted (is_uuid : string -> bool) (req : IdemRequest) (key body : string) : Prop :=
  im_method req ∈ ["POST"; "PUT"; "PATCH"; "DELETE"] /\ extract_idempotency_key req = Some key /\
  is_uuid key = true /\ im_body req = Some body.

(** The scope of a request under a key. *)
Definition scope_of {IpAddr} (sha256_hex : string -> string) parse_ip (show_ip : IpAddr -> string)
    (req : IdemRequest) (key : string) : string :=
  compute_scope_hash sha256_hex (resolve_principal parse_ip show_ip req)
    (im_method req +:+ " " +:+ im_path req) key.

Section middleware.
Context {St : Type} `{RedisLaws string St}.
Variables (compress : string -> string) (decompress : string -> result string string).
Variables (sha256_hex : string -> string) (to_json : RedisRecord -> string).
Variables (from_json : string -> result RedisRecord string) (uuid : nat -> string).
Variable is_uuid : string -> bool.
Context {IpAddr : Type} (parse_ip : string -> option IpAddr) (show_ip : IpAddr -> string).
Variables (error_body : ErrorResponse -> string) (rid : option string).
Context {App : Type} (next : IdemRequest -> App -> IdemResponse * App * Z).
Hypothesis gzip_round_trip : forall b, decompress (compress b) = Ok b.
Hypothesis json_round_trip : forall r, from_json (to_json r) = Ok r.

Abbreviation service redis config :=
  (new_service compress decompress sha256_hex to_json from_json uuid redis config).
Abbreviation middleware sv :=
  (idempotency_middleware (St := St) sha256_hex is_uuid parse_ip show_ip error_body rid next sv).

(** What is kept of a response. *)
Definition stored_of (resp : IdemResponse) (body : string) : StoredResponse :=
  {| sr_status := resp_status resp;
     sr_content_type := v ← header "content-type" (resp_headers resp); header_to_str v;
     sr_body := body |}.

Lemma middleware_first redis config req key body resp a a1 ms rbody (w : IdemWorld (St := St)) :
  intercepted is_uuid req key body ->
  fresh redis (scope_of sha256_hex parse_ip show_ip req key) w ->
  0 < lock_ttl config -> 0 < entry_ttl config / 1000 ->
  next req a = (resp, a1, ms) -> 0 <= ms ->
  resp_status resp < 500 -> resp_body resp = Some rbody ->
  Z.of_nat (slength (compress rbody)) <= max_body_bytes config ->
  exists w', middleware (service redis config) req a w = (with_replay_header resp, a1, w') /\
    iw_now w' = iw_now w + ms /\
    completed compress to_json redis (scope_of sha256_hex parse_ip show_ip req key)
      (compute_fingerprint sha256_hex (im_method req) (im_path req) body)
      (stored_of resp rbody) (iw_now w' + entry_ttl config / 1000 * 1000) w'.
Proof.
  intros (Hm & Hk & Hu & Hb) Hfresh Hlock Hentry Hnext Hms Hst Hbody Hfit.
  unfold idempotency_middleware. rewrite bool_decide_true by done. cbn [negb].
  rewrite Hk, Hu, Hb. cbn [negb]. unfold scope_of in *.
  destruct (begin_fresh compress decompress sha256_hex to_json from_json uuid redis config _ _ _
    (compute_fingerprint sha256_hex (im_method req) (im_path req) body) w Hfresh Hlock)
    as (guard & w1 & Hbegin & Hg & Hfp & Hnow & Hp).
  rewrite Hbegin. unfold run_guarded. rewrite Hnext, Hbody.
  rewrite (proj2 (Z.ltb_lt _ _) Hst).
  rewrite <- Hfp in Hp. apply (pending_later _ _ _ ms) in Hp.
  destruct (complete_pending compress decompress sha256_hex to_json from_json uuid redis config guard
    (stored_of resp rbody) (later ms w1) Hp) as (w2 & Hc & Hnow2 & Hcomp); [done | done |].
  unfold stored_of in Hc. rewrite Hc. exists w2. cbn [snd]. split; [done |].
  rewrite Hnow2. cbn [later iw_now]. rewrite Hnow. split; [done |].
  rewrite <- Hg, <- Hfp. rewrite <- Hnow. exact Hcomp.
Qed.

Lemma middleware_again redis config req key body fp stored until a (w : IdemWorld (St := St)) :
  intercepted is_uuid req key body ->
  completed compress to_json redis (scope_of sha256_hex parse_ip show_ip req key) fp stored until w ->
  iw_now w < until -> 0 <= sr_status stored < 2 ^ 16 ->
  exists w', middleware (service redis config) req a w
    = (if bool_decide (fp = compute_fingerprint sha256_hex (im_method req) (im_path req) body)
       then build_replay_response stored
       else error_response error_body rid (IdempotencyKeyReused
              "This Idempotency-Key was already used with a different request body"), a, w').
Proof.
  intros (Hm & Hk & Hu & Hb) Hcomp Hnow Hst.
  unfold idempotency_middleware. rewrite bool_decide_true by done. cbn [negb].
  rewrite Hk, Hu, Hb. cbn [negb]. unfold scope_of in *.
  destruct (begin_completed compress decompress sha256_hex to_json from_json uuid gzip_round_trip
    json_round_trip redis config _ _ _ fp
    (compute_fingerprint sha256_hex (im_method req) (im_path req) body) stored until w Hcomp Hnow Hst)
    as (w' & Hbegin).
  rewrite Hbegin. exists w'. by case_bool_decide.
Qed.
End middleware.


#[export] Instance RedisRecord_eq_dec : EqDecision RedisRecord.
Proof. solve_decision. Defined.

#[export] Instance RedisRecord_countable : Countable RedisRecord.
Proof.
  refine (inj_countable' (fun r => (rr_status r, rr_content_type r, rr_fingerprint r, rr_body_gzip r))
    (fun '(s, c, f, b) => {| rr_status := s; rr_content_type := c; rr_fingerprint := f; rr_body_gzip := b |}) _).
  by intros [].
Defined.


(** ** Where the promise stops *)

(** The Redis [begin] reads the completed entry and takes the lock in two
    calls.  A duplicate that reads before the first request completes and takes
    the lock after it released proceeds: its handler runs a second time while
    the first response is on record, with no call failing and no lock
    expiring. *)
Lemma redis_begin_race {St} `{RedisLaws string St} compress decompress to_json from_json uuid
    scope fp a r ttl ettl mx (w : IdemWorld (St := St)) :
  iw_faults w = [] -> 0 < ttl -> 0 < ettl / 1000 ->
  Z.of_nat (slength (compress (sr_body r))) <= mx ->
  r_get (iw_now w) (REDIS_DONE_PREFIX +:+ scope) (iw_kv w) = None ->
  r_get (iw_now w) (REDIS_LOCK_PREFIX +:+ scope) (iw_kv w) = Some a ->
  exists w1 w2 w3 tok,
    redis_lookup decompress from_json scope fp w = (Ok None, w1) /\
    redis_complete compress to_json scope a fp r ettl mx w1 = (Ok tt, w2) /\
    redis_acquire uuid scope ttl w2 = (Ok (Proceed tok), w3) /\
    exists raw, r_get (iw_now w3) (REDIS_DONE_PREFIX +:+ scope) (iw_kv w3) = Some raw.
Proof.
  destruct w as [s t now n fl mt]. simpl. intros -> Httl Hettl Hfit Hdone Hlock.
  unfold redis_lookup, redis_complete, redis_acquire, release_redis_lock.
  rewrite (proj2 (Z.leb_le _ _) Hfit).
  unfold mbind, M_bind, mret, M_ret, attempt, throw, redis_call, remote, new_uuid. simpl.
  rewrite Hdone. eexists _, _, _, _. split; [reflexivity |]. simpl.
  destruct (ettl / 1000 <=? 0) eqn:Hz; zbool; [lia |]. simpl.
  unfold r_del_if. rewrite r_get_set_other by apply done_lock_ne.
  rewrite bool_decide_true by done. split; [reflexivity |]. simpl.
  destruct (ttl <=? 0) eqn:Hz'; zbool; [lia |]. unfold r_set_nx_px.
  rewrite r_get_del_same. simpl. split; [reflexivity |]. simpl. eexists.
  rewrite r_get_set_other by apply not_eq_sym, done_lock_ne.
  rewrite r_get_del_other by apply not_eq_sym, done_lock_ne.
  apply r_get_set_same. lia.
Qed.

Lemma redis_begin_race_witness :
  let w := {| iw_kv := r_set_px 5 "idem:lock:s" "a" 30000 (∅ : redis_map string); iw_table := ∅;
              iw_now := 10; iw_uuids := 0; iw_faults := []; iw_metrics := [] |} in
  exists w1 w2 w3 tok,
    redis_lookup Ok from_text "s" "f" w = (Ok None, w1) /\
    redis_complete (fun b => b) to_text "s" "a" "f"
      {| sr_status := 201; sr_content_type := None; sr_body := "x" |} 86400000 65536 w1 = (Ok tt, w2) /\
    redis_acquire (fun _ => "b") "s" 30000 w2 = (Ok (Proceed tok), w3) /\
    exists raw, r_get (iw_now w3) "idem:done:s" (iw_kv w3) = Some raw.
Proof.
  intros w. apply (redis_begin_race (fun b => b) Ok to_text from_text (fun _ => "b") "s" "f" "a"); done.
Defined.

Section table.
Context {St : Type} `{RedisLaws string St}.

Definition table_prop (P : idem_table -> Prop) (w : IdemWorld (St := St)) : Prop := P (iw_table w).

Lemma keeps_table_redis {A} P (q : Z -> St -> A * St) : keeps (table_prop P) (redis_call q).
Proof.
  intros w Hw. unfold redis_call, remote. simpl. destruct (pop_fault _) as [[] l]; simpl;
    by destruct (q (iw_now w) (iw_kv w)).
Qed.

Lemma keeps_table_metric P n : keeps (table_prop P) (metric n).
Proof. by intros w. Qed.

Lemma keeps_table_sql {A} (P : idem_table -> Prop) (q : Z -> idem_table -> A * idem_table) :
  (forall now t, P t -> P (snd (q now t))) -> keeps (table_prop P) (sql q).
Proof.
  intros Hq w Hw. unfold sql, remote. simpl. specialize (Hq (iw_now w) (iw_table w) Hw).
  destruct (pop_fault _) as [[] l]; simpl; by destruct (q (iw_now w) (iw_table w)).
Qed.

Lemma keeps_release P sc tok : keeps (table_prop P) (release_redis_lock sc tok).
Proof. apply keeps_bind; [apply keeps_table_redis | intros; apply keeps_ret]. Qed.
End table.

#[export] Hint Resolve keeps_table_redis keeps_table_metric keeps_release : keeps.

(** The write-through to Postgres is an UPDATE: for a request that Redis
    admitted there is no row to update, so nothing is recorded, and once Redis
    cannot be reached a duplicate proceeds. *)
Lemma write_through_records_nothing {St} `{RedisLaws string St} compress decompress sha256_hex to_json
    from_json uuid config guard r principal route key fp (w w' : IdemWorld (St := St)) l :
  let sv := new_service compress decompress sha256_hex to_json from_json uuid true config in
  let scope := compute_scope_hash sha256_hex principal route key in
  g_scope_hash guard = scope -> iw_table w !! scope = None ->
  iw_table w' = iw_table (snd (service_complete sv guard r w)) -> iw_faults w' = Refused :: Fine :: l ->
  iw_table (snd (service_complete sv guard r w)) !! scope = None /\
  exists guard', fst (service_begin sha256_hex sv principal route key fp w') = Ok (OProceed guard').
Proof.
  intros sv scope Hg Hnone Htab Hfl.
  assert (iw_table (snd (service_complete sv guard r w)) !! scope = None) as Hafter.
  { revert Hnone. apply (keeps_bind (table_prop (fun t => t !! scope = None))).
    - apply keeps_bind; [| intros [b h]; apply keeps_table_sql].
      + destruct (_ <=? _); [apply keeps_ret |].
        apply keeps_bind; [apply keeps_table_metric | intros; apply keeps_ret].
      + intros now t Ht. simpl. unfold pg_complete_update. by rewrite Hg, Ht.
    - intros _. apply keeps_bind; [| intros; apply keeps_ret]. apply keeps_attempt.
      apply keeps_bind; [| intros; apply keeps_release].
      destruct (_ <=? _); [| apply keeps_table_metric].
      apply keeps_bind; [apply keeps_table_redis | intros []; [apply keeps_ret | apply keeps_throw]]. }
  split; [done |]. rewrite <- Htab in Hafter. destruct w' as [s t now n fl mt]. simpl in *. subst fl.
  unfold service_begin, service_decision. simpl. unfold redis_begin, redis_lookup.
  unfold mbind, M_bind, mret, M_ret, attempt, throw, redis_call, sql, remote, metric, new_uuid. simpl.
  unfold pg_insert. fold scope. rewrite Hafter. simpl. by eexists.
Qed.

Lemma write_through_records_nothing_witness :
  let sv := new_service (fun s => s) Ok (fun s => s) to_text from_text (fun _ => "t") true
              (idempotency_config_default (fun _ => None)) in
  let w := {| iw_kv := (∅ : redis_map string); iw_table := ∅; iw_now := 1000; iw_uuids := 0;
              iw_faults := []; iw_metrics := [] |} in
  let guard := {| g_scope_hash := compute_scope_hash (fun s => s) "u" "POST /tips" "k";
                  g_fingerprint := "f"; g_token := "t" |} in
  let w1 := snd (service_complete sv guard
                   {| sr_status := 201; sr_content_type := None; sr_body := "x" |} w) in
  let w2 := {| iw_kv := iw_kv w1; iw_table := iw_table w1; iw_now := 2000; iw_uuids := 1;
               iw_faults := [Refused; Fine]; iw_metrics := [] |} in
  exists guard', fst (service_begin (fun s => s) sv "u" "POST /tips" "k" "f" w2) = Ok (OProceed guard').
Proof.
  intros sv w guard w1 w2.
  apply (write_through_records_nothing (fun s => s) Ok (fun s => s) to_text from_text (fun _ => "t")
    (idempotency_config_default (fun _ => None)) guard
    {| sr_status := 201; sr_content_type := None; sr_body := "x" |} "u" "POST /tips" "k" "f" w w2 []);
    reflexivity.
Defined.

(** The Postgres backend ignores tokens: when a slow request was taken for
    crashed and its row reclaimed by another request (of any fingerprint), its
    late completion is recorded under the other request's fingerprint, and the
    other request's retries replay a response that is not theirs. *)
Lemma pg_stale_completion {St} `{RedisLaws string St} compress decompress sha256_hex uuid
    scope p route key fp' tok fp r ttl ettl mx row (w : IdemWorld (St := St)) :
  (forall b, decompress (compress b) = Ok b) -> iw_faults w = [] ->
  iw_table w !! scope = Some row -> ir_in_flight row = true -> iw_now w < ir_expires_at row ->
  ir_created_at row < iw_now w - ttl -> 0 < ettl / 1000 -> 0 <= sr_status r < 2 ^ 16 ->
  Z.of_nat (slength (compress (sr_body r))) <= mx ->
  let begin := ib_begin (postgres_backend compress decompress sha256_hex uuid) in
  exists tok' w1 w2 w3,
    begin scope p route key fp' ttl w = (Ok (Proceed tok'), w1) /\
    ib_complete (postgres_backend compress decompress sha256_hex uuid) scope tok fp r ettl mx w1
      = (Ok tt, w2) /\
    begin scope p route key fp' ttl w2 = (Ok (Replay r), w3).
Proof.
  intros Hgz Hf Hrow Hfl Hexp Hold Httl Hst Hfit. destruct w as [s t now n fl mt], r as [st ct body].
  simpl in *. subst fl.
  assert (pg_reclaim now scope fp' ttl t = (1, snd (pg_reclaim now scope fp' ttl t))) as Hrec.
  { unfold pg_reclaim. rewrite Hrow, Hfl, (proj2 (Z.ltb_lt _ _) Hold). done. }
  unfold mbind, M_bind, mret, M_ret, throw, lift, sql, remote, metric, new_uuid. simpl.
  unfold pg_insert at 1. rewrite Hrow. simpl. unfold pg_select_live at 1. rewrite Hrow. simpl.
  rewrite (proj2 (Z.ltb_lt _ _) Hexp). unfold pg_begin_row at 1. rewrite Hfl. simpl.
  unfold mbind, M_bind, mret, M_ret, sql, remote. simpl. rewrite Hrec. simpl.
  eexists _, _, _, _. split; [reflexivity |]. unfold pg_complete.
  simpl sr_body. rewrite (proj2 (Z.leb_le _ _) Hfit).
  unfold mbind, M_bind, mret, M_ret, sql, remote. simpl. split; [reflexivity |]. simpl.
  unfold pg_complete_update, pg_reclaim, pg_insert, pg_select_live, pg_begin_row. rewrite Hrow, Hfl.
  rewrite (proj2 (Z.ltb_lt _ _) Hold). simpl. rewrite !lookup_insert_eq. simpl. rewrite lookup_insert_eq. simpl.
  destruct (now <? _) eqn:Hlt; zbool; [| lia]. rewrite bool_decide_true by done.
  unfold mbind, M_bind, mret, M_ret, serialization, lift. simpl. rewrite Hgz. simpl.
  rewrite wrap_u16_i16 by lia. reflexivity.
Qed.

Lemma pg_stale_completion_witness :
  let row := {| ir_principal := "u"; ir_route := "POST /tips"; ir_key := "k"; ir_fingerprint := "f1";
                ir_in_flight := true; ir_status := None; ir_content_type := None; ir_body := None;
                ir_body_hash := None; ir_created_at := 0; ir_completed_at := None;
                ir_expires_at := 3600000 |} in
  let w := {| iw_kv := (∅ : redis_map string); iw_table := {["s" := row]}; iw_now := 31000;
              iw_uuids := 0; iw_faults := []; iw_metrics := [] |} in
  let pg := postgres_backend (St := redis_map string) (fun s => s) Ok (fun s => s) (fun _ => "t") in
  let r := {| sr_status := 201; sr_content_type := None; sr_body := "first" |} in
  exists tok' w1 w2 w3,
    ib_begin pg "s" "u" "POST /tips" "k" "f2" 30000 w = (Ok (Proceed tok'), w1) /\
    ib_complete pg "s" "old" "f1" r 86400000 65536 w1 = (Ok tt, w2) /\
    ib_begin pg "s" "u" "POST /tips" "k" "f2" 30000 w2 = (Ok (Replay r), w3).
Proof.
  intros row w pg r.
  apply (pg_stale_completion (fun s => s) Ok (fun s => s) (fun _ => "t") "s" "u" "POST /tips" "k" "f2"
    "old" "f1" r 30000 86400000 65536 row w); done.
Defined.
