(* ===== verification/Auth.v ===== *)
(** * Sessions and tokens

    services/auth_service.rs (signing keys, token issue and validation),
    security/token_revocation.rs (the denylist and the token epoch in Redis),
    services/token_family_service.rs (refresh-token families in Postgres) and
    the handlers of routes/auth.rs that need only them; those that read the
    account are in file Accounts.  JWT encoding comes from another crate and is
    a parameter. *)

From stdpp Require Import countable relations.
From S2P Require Import Prelude Text Codec Errors Redis.

(** src/src/services/token_family_service.rs:16-16 FAMILY_TTL_DAYS *)
Definition FAMILY_TTL_DAYS : Z := 7.

(** src/src/services/auth_service.rs:16-17 ACCESS_TOKEN_SECS and REFRESH_TOKEN_SECS *)
Definition TOKEN_SECS : Z * Z := (60 * 15, 60 * 60 * 24 * 7).

(** src/src/services/auth_service.rs:20-20 CLOCK_SKEW_LEEWAY_SECS *)
Definition CLOCK_SKEW_LEEWAY_SECS : Z := 30.

(** src/src/models/auth.rs:88-110 Claims *)
Record Claims : Type := {
  sub : string;
  kind : string;
  role : string;
  exp : Z;
  iat : Z;
  nbf : Z;
  iss : string;
  aud : string;
  jti : string;
  family : option string;
  tv : Z
}.

(** A row of [refresh_token_families]; UUIDs are their canonical text, times
    are in seconds.

    src/src/services/token_family_service.rs:19-30 TokenFamily *)
Record TokenFamily : Type := {
  tf_id : string;
  tf_username : string;
  tf_current_jti : string;
  tf_revoked : bool;
  tf_revoked_reason : option string;
  tf_user_agent : option string;
  tf_ip_address : option string;
  tf_created_at : Z;
  tf_rotated_at : Z;
  tf_expires_at : Z
}.

(** src/src/services/token_family_service.rs:46-61 RotationOutcome *)
Inductive RotationOutcome : Type :=
| Rotated
| ReuseDetected
| AlreadyRevoked
| Expired
| FamilyNotFound.

#[export] Instance RotationOutcome_eq_dec : EqDecision RotationOutcome.
Proof. solve_decision. Defined.

(** src/src/services/token_family_service.rs:65-81 decide_rotation *)
Definition decide_rotation (f : TokenFamily) (presented_jti : string) (now : Z) : RotationOutcome :=
  if tf_revoked f then AlreadyRevoked
  else if tf_expires_at f <? now then Expired
  else if bool_decide (tf_current_jti f = presented_jti) then Rotated
  else ReuseDetected.

(** src/src/services/auth_service.rs:38-41 KeySet *)
Record KeySet : Type := {
  keys : gmap string string;
  active_kid : string
}.

(** src/src/services/auth_service.rs:106-111 IssuedTokens *)
Record IssuedTokens : Type := {
  access_token : string;
  refresh_token : string;
  access_jti : string;
  refresh_jti : string
}.

(** The columns of [creators] the authentication handlers use, as the texts they hold. *)
Record Creator : Type := {
  cr_password_hash : string;
  cr_totp_secret : option string;
  cr_totp_enabled : bool;
  cr_backup_code_hashes : list string
}.

Abbreviation families := (gmap string TokenFamily).

(** ** The SQL statements on [refresh_token_families] *)

Definition set_revoked (reason : string) (f : TokenFamily) : TokenFamily :=
  {| tf_id := tf_id f; tf_username := tf_username f; tf_current_jti := tf_current_jti f;
     tf_revoked := true; tf_revoked_reason := Some reason; tf_user_agent := tf_user_agent f;
     tf_ip_address := tf_ip_address f; tf_created_at := tf_created_at f;
     tf_rotated_at := tf_rotated_at f; tf_expires_at := tf_expires_at f |}.

Definition set_jti (jti : string) (now : Z) (f : TokenFamily) : TokenFamily :=
  {| tf_id := tf_id f; tf_username := tf_username f; tf_current_jti := jti;
     tf_revoked := tf_revoked f; tf_revoked_reason := tf_revoked_reason f;
     tf_user_agent := tf_user_agent f; tf_ip_address := tf_ip_address f;
     tf_created_at := tf_created_at f; tf_rotated_at := now; tf_expires_at := tf_expires_at f |}.

(** The UPDATE a rotation commits.

    src/src/services/token_family_service.rs:135-161 the match of rotate_or_detect_reuse *)
Definition rotation_update (outcome : RotationOutcome) (family_id new_jti : string) (now : Z)
    (t : families) : families :=
  match outcome with
  | Rotated => alter (set_jti new_jti now) family_id t
  | ReuseDetected => alter (set_revoked "reuse_detected") family_id t
  | AlreadyRevoked | Expired | FamilyNotFound => t
  end.

(** src/src/services/token_family_service.rs:169-177 the UPDATE of revoke_family *)
Definition revoke_family_update (family_id reason : string) (t : families) : bool * families :=
  match t !! family_id with
  | Some f => if tf_revoked f then (false, t) else (true, <[family_id := set_revoked reason f]> t)
  | None => (false, t)
  end.

(** src/src/services/token_family_service.rs:183-191 the UPDATE of revoke_all_for_user *)
Definition revoke_all_update (username reason : string) (t : families) : Z * families :=
  let hit f := bool_decide (tf_username f = username) && negb (tf_revoked f) in
  (Z.of_nat (size (filter (fun kf => hit kf.2 = true) t)),
   (fun f => if hit f then set_revoked reason f else f) <$> t).

Section auth.
Context {St : Type} `{RedisLaws string St}.
Variable env : environment.
Variable uuid : nat -> string.
Variable parse_uuid : string -> option string.
(** [decode_header]: algorithm and key id; [encode] with HS256 under a key id;
    [decode] with a secret, a leeway and the current time. *)
Variable jwt_decode_header : string -> option (string * option string).
Variable jwt_encode : string -> string -> Claims -> option string.
Variable jwt_decode : string -> Z -> Z -> string -> option Claims.

(** A handler fails with an error response, or panics. *)
Inductive failure : Type :=
| EApp (e : AppError)
| EPanic.

(** Times in seconds; [aw_redis] is [None] without a connection. *)
Record AuthWorld : Type := {
  aw_families : families;
  aw_redis : option St;
  aw_creators : gmap string Creator;
  aw_now : Z;
  aw_uuids : nat;
  aw_faults : list fault
}.

#[export] Instance AuthWorld_networked : Networked AuthWorld := {
  next_fault w :=
    let '(f, l) := pop_fault (aw_faults w) in
    (f, {| aw_families := aw_families w; aw_redis := aw_redis w; aw_creators := aw_creators w;
           aw_now := aw_now w; aw_uuids := aw_uuids w; aw_faults := l |})
}.

Definition Auth : Type -> Type := M AuthWorld failure.

Definition fail_with {A} (e : AppError) : Auth A := throw (EApp e).

Definition query_failed : failure := EApp (app_error_from_sqlx SqlxOther).

(** A statement on the families, on the creators. *)
Definition sql {A} (q : Z -> families -> A * families) : Auth A :=
  remote query_failed (fun w =>
    let '(a, t) := q (aw_now w) (aw_families w) in
    (a, {| aw_families := t; aw_redis := aw_redis w; aw_creators := aw_creators w;
           aw_now := aw_now w; aw_uuids := aw_uuids w; aw_faults := aw_faults w |})).

Definition sql_creators {A} (q : gmap string Creator -> A * gmap string Creator) : Auth A :=
  remote query_failed (fun w =>
    let '(a, t) := q (aw_creators w) in
    (a, {| aw_families := aw_families w; aw_redis := aw_redis w; aw_creators := t;
           aw_now := aw_now w; aw_uuids := aw_uuids w; aw_faults := aw_faults w |})).

(** A command when there is a connection; [None] without one. *)
Definition redis {A} (q : Z -> St -> A * St) : Auth (option (result A unit)) := fun w =>
  match aw_redis w with
  | None => (Ok None, w)
  | Some s =>
      let '(f, w1) := next_fault w in
      let '(a, s') := q (aw_now w * 1000) s in
      let set s := {| aw_families := aw_families w1; aw_redis := Some s;
                      aw_creators := aw_creators w1; aw_now := aw_now w1;
                      aw_uuids := aw_uuids w1; aw_faults := aw_faults w1 |} in
      match f with
      | Fine => (Ok (Some (Ok a)), set s')
      | Refused => (Ok (Some (Err tt)), set s)
      | ReplyLost => (Ok (Some (Err tt)), set s')
      end
  end.

Definition new_uuid : Auth string := fun w =>
  (Ok (uuid (aw_uuids w)),
   {| aw_families := aw_families w; aw_redis := aw_redis w; aw_creators := aw_creators w;
      aw_now := aw_now w; aw_uuids := S (aw_uuids w); aw_faults := aw_faults w |}).

Definition utc_now : Auth Z := gets aw_now.

(** ** Signing keys *)

(** One entry [kid:secret] of [JWT_SIGNING_KEYS]; [splitn(2, ':')] gives the
    whole entry as the kid when there is no colon.

    src/src/services/auth_service.rs:50-62 the loop of load_keyset *)
Definition add_key (ks : gmap string string) (pair : string) : gmap string string :=
  let pair := trim pair in
  let '(kid, secret) :=
    match split_once ":"%char pair with
    | Some (a, b) => (trim a, trim b)
    | None => (trim pair, "")
    end in
  if bool_decide (pair = "") || bool_decide (kid = "") || bool_decide (secret = "") then ks
  else <[kid := secret]> ks.

(** src/src/services/auth_service.rs:47-84 load_keyset *)
Definition load_keyset : result KeySet failure :=
  match env "JWT_SIGNING_KEYS" with
  | Some raw =>
      let ks := fold_left add_key (split_on ","%char raw) ∅ in
      match env "JWT_ACTIVE_KID" with
      | None => Err (EApp Internal)
      | Some kid =>
          match ks !! kid with
          | None => Err (EApp Internal)
          | Some _ => Ok {| keys := ks; active_kid := kid |}
          end
      end
  | None =>
      match env "JWT_SECRET" with
      | None => Err EPanic
      | Some secret => Ok {| keys := {["default" := secret]}; active_kid := "default" |}
      end
  end.

(** src/src/services/auth_service.rs:26-28 jwt_issuer *)
Definition jwt_issuer : string := default "stellar-tipjar-backend" (env "JWT_ISSUER").

(** src/src/services/auth_service.rs:30-32 jwt_audience *)
Definition jwt_audience : string := default "stellar-tipjar-api" (env "JWT_AUDIENCE").

(** src/src/services/auth_service.rs:86-102 sign *)
Definition sign (claims : Claims) (ks : KeySet) : result string failure :=
  match keys ks !! active_kid ks with
  | None => Err (EApp Internal)
  | Some secret => ok_or (EApp Internal) (jwt_encode (active_kid ks) secret claims)
  end.

(** src/src/services/auth_service.rs:129-155 the claims of issue_tokens *)
Definition token_claims (access : bool) (username role family_id jti : string) (tv now : Z) : Claims :=
  {| sub := username; kind := if access then "access" else "refresh"; role := role;
     exp := now + (if access then fst TOKEN_SECS else snd TOKEN_SECS); iat := now; nbf := now;
     iss := jwt_issuer; aud := jwt_audience; jti := jti;
     family := if access then None else Some family_id; tv := tv |}.

(** src/src/services/auth_service.rs:116-167 issue_tokens *)
Definition issue_tokens (username role family_id : string) (tv : Z) : Auth IssuedTokens :=
  ks ← lift load_keyset;
  now ← utc_now;
  access_jti ← new_uuid;
  refresh_jti ← new_uuid;
  access_token ← lift (sign (token_claims true username role family_id access_jti tv now) ks);
  refresh_token ← lift (sign (token_claims false username role family_id refresh_jti tv now) ks);
  mret {| access_token := access_token; refresh_token := refresh_token;
          access_jti := access_jti; refresh_jti := refresh_jti |}.

(** src/src/services/auth_service.rs:190-250 validate_token *)
Definition validate_token (token expected_kind : string) : Auth Claims :=
  let unauthorized := Unauthorized "Invalid or expired token" in
  ks ← lift load_keyset;
  header ← expect (EApp unauthorized) (jwt_decode_header token);
  let '(alg, kid) := header in
  if negb (bool_decide (alg = "HS256")) then fail_with unauthorized
  else
    let kid := default (active_kid ks) kid in
    secret ← expect (EApp unauthorized) (keys ks !! kid);
    now ← utc_now;
    claims ← expect (EApp unauthorized) (jwt_decode secret CLOCK_SKEW_LEEWAY_SECS now token);
    if negb (bool_decide (iss claims = jwt_issuer)) || negb (bool_decide (aud claims = jwt_audience))
    then fail_with unauthorized
    else if negb (bool_decide (kind claims = expected_kind))
    then fail_with (Unauthorized "Invalid token kind")
    else mret claims.

(** ** Revocation of access tokens *)

(** src/src/security/token_revocation.rs:18-20 denylist_key *)
Definition denylist_key (jti : string) : string := "revoked_jti:" +:+ jti.

(** src/src/security/token_revocation.rs:22-24 epoch_key *)
Definition epoch_key (username : string) : string := "token_epoch:" +:+ username.

(** src/src/security/token_revocation.rs:28-42 revoke_jti *)
Definition revoke_jti (jti : string) (ttl_secs : Z) : Auth unit :=
  if ttl_secs <=? 0 then mret tt
  else _ ← redis (fun now s => (tt, r_set_px now (denylist_key jti) "1" (ttl_secs * 1000) s)); mret tt.

(** src/src/security/token_revocation.rs:46-55 bump_epoch *)
Definition bump_epoch (username : string) : Auth unit :=
  _ ← redis (fun now => r_incr now (epoch_key username)); mret tt.

(** src/src/security/token_revocation.rs:59-68 current_epoch *)
Definition current_epoch (username : string) : Auth Z :=
  reply ← redis (fun now s => (r_get now (epoch_key username) s, s));
  match reply with
  | Some (Ok v) => mret (default 0 (v ← v; parse_i64 v))
  | _ => mret 0
  end.

(** A value that is not an integer is an error of the reply's conversion.

    src/src/security/token_revocation.rs:73-97 check_not_revoked *)
Definition check_not_revoked (jti username : string) (token_tv : Z) : Auth unit :=
  reply ← redis (fun now s => ((r_get now (denylist_key jti) s, r_get now (epoch_key username) s), s));
  let unverified := ServiceUnavailable "Unable to verify session status" in
  match reply with
  | None => mret tt
  | Some (Err _) => fail_with unverified
  | Some (Ok (revoked, epoch)) =>
      match epoch, v ← epoch; parse_i64 v with
      | Some _, None => fail_with unverified
      | _, n =>
          match revoked with
          | Some _ => fail_with (Unauthorized "Token has been revoked")
          | None =>
              if token_tv <? default 0 n then fail_with (Unauthorized "Token has been revoked")
              else mret tt
          end
      end
  end.

(** ** Refresh-token families *)

(** src/src/services/token_family_service.rs:84-107 create_family *)
Definition create_family (username refresh_jti : string) (user_agent ip_address : option string)
    : Auth string :=
  id ← new_uuid;
  now ← utc_now;
  _ ← sql (fun db_now t =>
    (tt, <[id := {| tf_id := id; tf_username := username; tf_current_jti := refresh_jti;
                    tf_revoked := false; tf_revoked_reason := None; tf_user_agent := user_agent;
                    tf_ip_address := ip_address; tf_created_at := db_now; tf_rotated_at := db_now;
                    tf_expires_at := now + FAMILY_TTL_DAYS * 86400 |}]> t));
  mret id.

(** The transaction: its statements take effect at the commit; a failure on
    the way rolls it back.

    src/src/services/token_family_service.rs:112-165 rotate_or_detect_reuse *)
Definition rotate_or_detect_reuse (family_id presented_jti new_jti : string) : Auth RotationOutcome :=
  _ ← sql (fun _ t => (tt, t));
  found ← sql (fun _ t => (t !! family_id, t));
  match found with
  | None => mret FamilyNotFound
  | Some f =>
      now ← utc_now;
      let outcome := decide_rotation f presented_jti now in
      _ ← match outcome with
          | Rotated | ReuseDetected => sql (fun _ t => (tt, t))
          | _ => mret tt
          end;
      _ ← sql (fun db_now t => (tt, rotation_update outcome family_id new_jti db_now t));
      mret outcome
  end.

(** src/src/services/token_family_service.rs:168-178 revoke_family *)
Definition revoke_family (family_id reason : string) : Auth bool :=
  sql (fun _ => revoke_family_update family_id reason).

(** src/src/services/token_family_service.rs:182-192 revoke_all_for_user *)
Definition revoke_all_for_user (username reason : string) : Auth Z :=
  sql (fun _ => revoke_all_update username reason).

(** src/src/services/token_family_service.rs:194-200 get_family *)
Definition get_family (family_id : string) : Auth (option TokenFamily) :=
  sql (fun _ t => (t !! family_id, t)).

(** src/src/services/token_family_service.rs:203-213 list_active_for_user *)
Definition list_active_for_user (username : string) : Auth (list TokenFamily) :=
  sql (fun now t =>
    (sort_by (fun a b => tf_created_at b <=? tf_created_at a)
       (filter (fun f => tf_username f = username /\ tf_revoked f = false /\ now < tf_expires_at f)
          (map snd (map_to_list t))), t)).

(** ** The handlers *)

(** src/src/routes/auth.rs:74-101 issue_new_session *)
Definition issue_new_session (user_agent ip : option string) (username role : string) : Auth IssuedTokens :=
  tv ← current_epoch username;
  family_id ← new_uuid;
  issued ← issue_tokens username role family_id tv;
  _ ← create_family username (refresh_jti issued) user_agent ip;
  mret issued.

(** src/src/routes/auth.rs:254-310 refresh *)
Definition refresh (token : string) : Auth IssuedTokens :=
  let invalid := Unauthorized "Invalid or expired refresh token" in
  claims ← map_err (fun e => match e with EApp _ => EApp invalid | EPanic => EPanic end)
             (validate_token token "refresh");
  family_id ← expect (EApp invalid) (f ← family claims; parse_uuid f);
  presented_jti ← expect (EApp invalid) (parse_uuid (jti claims));
  tv ← current_epoch (sub claims);
  issued ← issue_tokens (sub claims) (role claims) family_id tv;
  outcome ← rotate_or_detect_reuse family_id presented_jti (refresh_jti issued);
  match outcome with
  | Rotated => mret issued
  | ReuseDetected =>
      fail_with (Unauthorized "Refresh token reuse detected; this session family has been revoked")
  | AlreadyRevoked | Expired | FamilyNotFound => fail_with invalid
  end.

(** src/src/routes/auth.rs:325-352 logout *)
Definition logout (claims : Claims) (refresh_token : option string) : Auth unit :=
  now ← utc_now;
  _ ← revoke_jti (jti claims) (exp claims - now);
  match refresh_token with
  | None => mret tt
  | Some token =>
      r ← attempt (validate_token token "refresh");
      match r with
      | Err EPanic => throw EPanic
      | Err (EApp _) => mret tt
      | Ok rc =>
          if bool_decide (sub rc = sub claims) then
            match f ← family rc; parse_uuid f with
            | Some family_id => _ ← attempt (revoke_family family_id "logout"); mret tt
            | None => mret tt
            end
          else mret tt
      end
  end.

(** src/src/routes/auth.rs:431-446 revoke_session *)
Definition revoke_session (claims : Claims) (family_id : string) : Auth unit :=
  found ← get_family family_id;
  f ← expect (EApp (not_found "Session not found")) found;
  if negb (bool_decide (tf_username f = sub claims))
  then fail_with (Forbidden "Cannot revoke another user's session")
  else _ ← revoke_family family_id "user_revoked"; mret tt.

(** src/src/routes/auth.rs:455-464 revoke_all_sessions *)
Definition revoke_all_sessions (claims : Claims) : Auth unit :=
  _ ← revoke_all_for_user (sub claims) "user_revoked_all";
  _ ← bump_epoch (sub claims);
  mret tt.

End auth.

(** ** Lemmas: one call at a time *)

#[export] Instance Claims_eq_dec : EqDecision Claims.
Proof. solve_decision. Defined.

Section calls.
Context {St : Type} `{RedisLaws string St}.

(** A statement answers, with the effect it has on the table; or it errs, and
    had its effect or none. *)
Lemma families_sql_cases {A} (q : Z -> families -> A * families) (w : AuthWorld (St := St)) :
  let '(a, t) := q (aw_now w) (aw_families w) in
  exists w', aw_now w' = aw_now w /\ aw_uuids w' = aw_uuids w /\
    ((sql q w = (Ok a, w') /\ aw_families w' = t) \/
     (exists e, sql q w = (Err e, w') /\ (aw_families w' = t \/ aw_families w' = aw_families w))).
Proof.
  unfold sql, remote. simpl. destruct (q (aw_now w) (aw_families w)) as [a t] eqn:Hq.
  destruct (pop_fault (aw_faults w)) as [[] l]; simpl; rewrite ?Hq; simpl;
    eexists; (split_and!; [| | first [left; split; reflexivity | right; eexists; split; [reflexivity |];
      first [right; reflexivity | left; reflexivity]]]); done.
Qed.

(** The same for a statement that leaves the table alone. *)
Lemma sql_reads {A B} (q : families -> A) (k : A -> Auth B) (w : AuthWorld (St := St)) :
  exists w', aw_now w' = aw_now w /\ aw_families w' = aw_families w /\
    (((sql (fun _ t => (q t, t)) ≫= k) w = k (q (aw_families w)) w') \/
     (exists e, (sql (fun _ t => (q t, t)) ≫= k) w = (Err e, w'))).
Proof.
  pose proof (families_sql_cases (fun _ t => (q t, t)) w) as (w' & Hn & _ & [[Hq Ht] | (e & Hq & Ht)]);
    exists w'; (split; [done |]); split; try naive_solver.
  - left. by apply bind_ok.
  - right. exists e. by apply bind_err.
Qed.

Definition effect {A} (r : result A failure) (a : A) (t t' t0 : families) : Prop :=
  (r = Ok a /\ t' = t) \/ ((exists e, r = Err e) /\ (t' = t \/ t' = t0)).

Lemma commit_cases {A} (a : A) (q : Z -> families -> families) (w : AuthWorld (St := St)) r w' :
  ((_ ← sql (fun now t => (tt, q now t)); mret a) : Auth A) w = (r, w') ->
  aw_now w' = aw_now w /\
  effect r a (q (aw_now w) (aw_families w)) (aw_families w') (aw_families w).
Proof.
  pose proof (families_sql_cases (fun now t => (tt, q now t)) w) as (w1 & Hn & _ & [[Hq Ht] | (e & Hq & Ht)]);
    [rewrite (bind_ok _ _ _ _ _ Hq) | rewrite (bind_err _ _ _ _ _ Hq)];
    intros [= <- <-]; (split; [done |]); unfold effect; naive_solver.
Qed.

Lemma stmt_reads {B} o (k : unit -> Auth B) (w : AuthWorld (St := St)) :
  let m := match o with
           | Rotated | ReuseDetected => sql (fun _ t => (tt, t))
           | _ => mret tt
           end in
  exists w', aw_now w' = aw_now w /\ aw_families w' = aw_families w /\
    ((m ≫= k) w = k tt w' \/ exists e, (m ≫= k) w = (Err e, w')).
Proof. destruct o; try (exists w; by auto); apply (sql_reads (fun _ => tt) k w). Qed.

(** What a rotation does to the table, whatever calls fail: nothing, or the
    update its outcome calls for; when it answers, it did the latter. *)
Lemma rotate_cases fid j j' (w : AuthWorld (St := St)) r w' :
  rotate_or_detect_reuse fid j j' w = (r, w') ->
  let outcome := match aw_families w !! fid with
                 | Some f => decide_rotation f j (aw_now w)
                 | None => FamilyNotFound
                 end in
  aw_now w' = aw_now w /\
  effect r outcome (rotation_update outcome fid j' (aw_now w) (aw_families w))
    (aw_families w') (aw_families w).
Proof.
  unfold rotate_or_detect_reuse.
  match goal with |- (sql _ ≫= ?k) w = _ -> _ =>
    destruct (sql_reads (fun _ => tt) k w) as (w1 & Hn1 & Ht1 & [Hq | [e Hq]]) end;
    rewrite Hq; [| intros [= <- <-]; unfold effect; naive_solver].
  match goal with |- (sql _ ≫= ?k) w1 = _ -> _ =>
    destruct (sql_reads (fun t => t !! fid) k w1) as (w2 & Hn2 & Ht2 & [Hq2 | [e Hq2]]) end;
    rewrite Hq2; [| intros [= <- <-]; rewrite Ht2, Ht1, Hn2, Hn1; unfold effect; naive_solver].
  rewrite Ht1 in *. destruct (aw_families w !! fid) as [f |] eqn:Hf.
  2: { intros [= <- <-]. rewrite Ht2, Hn2, Hn1. unfold effect. simpl. naive_solver. }
  change ((utc_now ≫= ?k) w2) with (k (aw_now w2) w2). cbv beta zeta. rewrite Hn2, Hn1.
  set (o := decide_rotation f j (aw_now w)).
  assert (forall w3, aw_now w3 = aw_now w -> aw_families w3 = aw_families w ->
    ((_ ← sql (fun now t => (tt, rotation_update o fid j' now t)); mret o) : Auth _) w3 = (r, w') ->
    aw_now w' = aw_now w /\
    effect r o (rotation_update o fid j' (aw_now w) (aw_families w)) (aw_families w') (aw_families w))
    as Hcommit.
  { intros w3 Hn3 Ht3 Hrun.
    apply (commit_cases o (rotation_update o fid j')) in Hrun. by rewrite Hn3, Ht3 in Hrun. }
  match goal with |- (_ ≫= ?k) w2 = _ -> _ =>
    destruct (stmt_reads o k w2) as (w3 & Hn3 & Ht3 & [Hq3 | [e Hq3]]) end;
    rewrite Hq3; [apply Hcommit; congruence |].
  intros [= <- <-]. rewrite Ht3, Ht2, Hn3, Hn2, Hn1. unfold effect. naive_solver.
Qed.
End calls.

(** ** Histories of a family *)

Section histories.
Context {St : Type} `{RedisLaws string St}.
Variable uuid : nat -> string.

Definition wait (secs : Z) (w : AuthWorld (St := St)) : AuthWorld :=
  {| aw_families := aw_families w; aw_redis := aw_redis w; aw_creators := aw_creators w;
     aw_now := aw_now w + secs; aw_uuids := aw_uuids w; aw_faults := aw_faults w |}.

(** Anything that can happen to the families: rotations and revocations of any
    family by anyone and new logins, each meeting whatever outage; the ids of
    new tokens and families are new ([fid] and [j] are in use). *)
Inductive session_step (fid j : string) : AuthWorld -> AuthWorld -> Prop :=
| ss_wait secs w : 0 <= secs -> session_step fid j w (wait secs w)
| ss_rotate fid' presented new w : new <> j ->
    session_step fid j w (snd (rotate_or_detect_reuse fid' presented new w))
| ss_revoke fid' reason w : session_step fid j w (snd (revoke_family fid' reason w))
| ss_revoke_all user reason w : session_step fid j w (snd (revoke_all_for_user user reason w))
| ss_create user jti ua ip w : uuid (aw_uuids w) <> fid ->
    session_step fid j w (snd (create_family uuid user jti ua ip w)).

(** A property of one family's row that revocation and rotation to another
    token preserve. *)
Definition row_stable (j : string) (P : TokenFamily -> Prop) : Prop :=
  (forall f reason, P f -> P (set_revoked reason f)) /\
  (forall f jti now, jti <> j -> tf_revoked f = false -> P f -> P (set_jti jti now f)).

Definition row_prop (fid : string) (P : TokenFamily -> Prop) (t : families) : Prop :=
  exists f, t !! fid = Some f /\ P f.

Lemma revoke_update_stable fid j P fid' reason t :
  row_stable j P -> row_prop fid P t -> row_prop fid P (snd (revoke_family_update fid' reason t)).
Proof.
  intros [Hr _] (f & Hf & HP). unfold revoke_family_update.
  destruct (t !! fid') as [g |] eqn:Hg; [| by exists f]. destruct (tf_revoked g); [by exists f |].
  simpl. destruct (decide (fid' = fid)) as [-> | Hne].
  - exists (set_revoked reason g). rewrite lookup_insert_eq. split; [done |]. apply Hr. congruence.
  - exists f. by rewrite lookup_insert_ne.
Qed.

Lemma revoke_all_stable fid j P user reason t :
  row_stable j P -> row_prop fid P t -> row_prop fid P (snd (revoke_all_update user reason t)).
Proof.
  intros [Hr _] (f & Hf & HP). unfold revoke_all_update. simpl. eexists.
  rewrite lookup_fmap, Hf. split; [reflexivity |]. simpl. destruct (_ && _); auto.
Qed.

Lemma rotation_update_stable fid j P fid' presented new now t :
  row_stable j P -> new <> j -> row_prop fid P t ->
  row_prop fid P (rotation_update
    match t !! fid' with Some f => decide_rotation f presented now | None => FamilyNotFound end
    fid' new now t).
Proof.
  intros [Hr Hj] Hne (f & Hf & HP). destruct (t !! fid') as [g |] eqn:Hg; [| by exists f].
  unfold decide_rotation. destruct (tf_revoked g) eqn:Hrev; [by exists f |].
  destruct (_ <? _); [by exists f |].
  destruct (decide (fid' = fid)) as [-> | Hfid]; case_bool_decide; simpl.
  - eexists. rewrite lookup_alter_eq, Hf. split; [reflexivity |].
    apply Hj; [done | congruence | done].
  - eexists. rewrite lookup_alter_eq, Hf. split; [reflexivity |]. by apply Hr.
  - exists f. by rewrite lookup_alter_ne.
  - exists f. by rewrite lookup_alter_ne.
Qed.

Lemma sql_stable {A} (P : families -> Prop) (q : Z -> families -> A * families) (w : AuthWorld (St := St)) :
  P (aw_families w) -> P (snd (q (aw_now w) (aw_families w))) -> P (aw_families (snd (sql q w))).
Proof.
  intros H1 H2. pose proof (families_sql_cases q w) as Hq. destruct (q _ _) as [a t].
  destruct Hq as (w' & _ & _ & [[Hq Ht] | (e & Hq & [Ht | Ht])]); rewrite Hq; simpl; by rewrite Ht.
Qed.

Lemma session_step_stable fid j P w w' :
  row_stable j P -> session_step fid j w w' ->
  row_prop fid P (aw_families w) -> row_prop fid P (aw_families w').
Proof.
  intros HP Hstep HR. destruct Hstep as [secs w | fid' pr new w Hne | | | user jti ua ip w Hne].
  - done.
  - destruct (rotate_or_detect_reuse fid' pr new w) as [r w'] eqn:Hrot.
    apply rotate_cases in Hrot as [_ Heff]. simpl.
    pose proof (rotation_update_stable fid j P fid' pr new (aw_now w) _ HP Hne HR) as Hupd.
    destruct Heff as [[_ ->] | [_ [-> | ->]]]; done.
  - unfold revoke_family. apply sql_stable; [done |]. by apply (revoke_update_stable _ j).
  - unfold revoke_all_for_user. apply sql_stable; [done |]. by apply (revoke_all_stable _ j).
  - unfold create_family.
    change ((new_uuid uuid ≫= ?k) w) with (k (uuid (aw_uuids w)) (snd (new_uuid uuid w))). cbv beta.
    set (w1 := snd (new_uuid uuid w)). change (aw_families w) with (aw_families w1) in HR.
    change ((utc_now ≫= ?k) w1) with (k (aw_now w1) w1). cbv beta.
    unfold mbind, M_bind at 1.
    match goal with |- context [sql ?q w1] =>
      assert (row_prop fid P (aw_families (snd (sql q w1)))) as Hs; [| destruct (sql q w1) as [[] ?]; done] end.
    apply sql_stable; [done |]. simpl. destruct HR as (f & Hf & HPf). exists f.
    by rewrite lookup_insert_ne.
Qed.

Lemma session_steps_stable fid j P w w' :
  row_stable j P -> rtc (session_step fid j) w w' ->
  row_prop fid P (aw_families w) -> row_prop fid P (aw_families w').
Proof. intros HP. induction 1; eauto using session_step_stable. Qed.

Lemma retired_stable j : row_stable j (fun f => tf_current_jti f <> j).
Proof. by split. Qed.

Lemma dead_stable j : row_stable j (fun f => tf_revoked f = true).
Proof. split; [done |]. intros f jti now _ Hf Ht. congruence. Qed.
End histories.

(** ** Properties *)

(** C3: Refresh tokens are single use, and their reuse kills the session: once a
    token was rotated away, no history of logins, rotations, revocations and
    outages makes it acceptable again; and after its reuse was detected, no
    token of that family is ever accepted. *)
Lemma refresh_token_reuse {St} `{RedisLaws string St} uuid fid j j1 j2 (w w1 w2 w3 w4 : AuthWorld (St := St)) r :
  rotate_or_detect_reuse fid j j1 w = (Ok Rotated, w1) -> j1 <> j ->
  rtc (session_step uuid fid j) w1 w2 ->
  rotate_or_detect_reuse fid j j2 w2 = (r, w3) ->
  rtc (session_step uuid fid j) w3 w4 ->
  r <> Ok Rotated /\
  (r = Ok ReuseDetected -> forall k k', fst (rotate_or_detect_reuse fid k k' w4) <> Ok Rotated).
Proof.
  intros Hrot1 Hj1 Hsteps1 Hrot2 Hsteps2.
  apply rotate_cases in Hrot1 as [_ Heff]. unfold effect in Heff.
  destruct Heff as [[Hok1 Ht1] | [[e He] _]]; [| done].
  destruct (aw_families w !! fid) as [f |] eqn:Hf; [| done].
  assert (row_prop fid (fun f => tf_current_jti f <> j) (aw_families w2)) as (g & Hg & Hgj).
  { eapply session_steps_stable; [apply retired_stable | exact Hsteps1 |].
    injection Hok1 as Ho. rewrite Ht1, <- Ho. exists (set_jti j1 (aw_now w) f). simpl.
    by rewrite lookup_alter_eq, Hf. }
  apply rotate_cases in Hrot2 as [_ Heff2]. rewrite Hg in Heff2. unfold effect in Heff2.
  assert (decide_rotation g j (aw_now w2) <> Rotated) as Hnot.
  { unfold decide_rotation. destruct (tf_revoked g), (tf_expires_at g <? aw_now w2); try done. by rewrite bool_decide_false. }
  destruct Heff2 as [[-> Ht3] | [[e ->] _]]; [| done]. split; [congruence |].
  intros [= Hdet] k k' Hbad. rewrite Hdet in Ht3.
  assert (row_prop fid (fun f => tf_revoked f = true) (aw_families w4)) as (h & Hh & Hhr).
  { eapply session_steps_stable; [apply dead_stable | exact Hsteps2 |].
    rewrite Ht3. exists (set_revoked "reuse_detected" g). simpl. by rewrite lookup_alter_eq, Hg. }
  destruct (rotate_or_detect_reuse fid k k' w4) as [r5 w5] eqn:Hrot5. simpl in Hbad. subst r5.
  apply rotate_cases in Hrot5 as [_ [[Hok _] | [[e He] _]]]; [| done].
  rewrite Hh in Hok. unfold decide_rotation in Hok. rewrite Hhr in Hok. done.
Qed.

Lemma refresh_token_reuse_witness :
  let fam := {| tf_id := "F"; tf_username := "u"; tf_current_jti := "j0"; tf_revoked := false;
                tf_revoked_reason := None; tf_user_agent := None; tf_ip_address := None;
                tf_created_at := 0; tf_rotated_at := 0; tf_expires_at := 604800 |} in
  let w := {| aw_families := {["F" := fam]}; aw_redis := Some (∅ : redis_map string);
              aw_creators := ∅; aw_now := 100; aw_uuids := 0; aw_faults := [] |} in
  let w1 := snd (rotate_or_detect_reuse "F" "j0" "j1" w) in
  let w3 := snd (rotate_or_detect_reuse "F" "j0" "j2" (wait 60 w1)) in
  fst (rotate_or_detect_reuse "F" "j1" "j3" w3) <> Ok Rotated.
Proof.
  intros fam w w1 w3.
  destruct (refresh_token_reuse (fun _ => "x") "F" "j0" "j1" "j2" w w1 (wait 60 w1) w3 w3
              (Ok ReuseDetected)) as [_ Hdead].
  - vm_compute. reflexivity.
  - discriminate.
  - apply rtc_once, ss_wait. discriminate.
  - vm_compute. reflexivity.
  - apply rtc_refl.
  - by apply Hdead.
Defined.

(** ** Issue and validation *)

Section jwt.
Context {St : Type} `{RedisLaws string St}.
Variable env : environment.
Variable uuid : nat -> string.
Variable parse_uuid : string -> option string.
Variable jwt_decode_header : string -> option (string * option string).
Variable jwt_encode : string -> string -> Claims -> option string.
Variable jwt_decode : string -> Z -> Z -> string -> option Claims.

(** What the JWT library documents: a token made with HS256 names its key, and
    decodes under the secret it was made with while its [nbf] and [exp] admit
    the time, within the leeway. *)
Record jwt_laws : Prop := {
  encode_total k s c : exists t, jwt_encode k s c = Some t;
  encode_header k s c t : jwt_encode k s c = Some t -> jwt_decode_header t = Some ("HS256", Some k);
  encode_decode k s c t leeway now :
    jwt_encode k s c = Some t -> nbf c <= now + leeway -> now - leeway <= exp c ->
    jwt_decode s leeway now t = Some c
}.
Hypothesis laws : jwt_laws.

Abbreviation World := (AuthWorld (St := St)).
Abbreviation validate := (validate_token (St := St) env jwt_decode_header jwt_decode).

Lemma load_keyset_active ks : load_keyset env = Ok ks -> exists s, keys ks !! active_kid ks = Some s.
Proof.
  unfold load_keyset. destruct (env "JWT_SIGNING_KEYS") as [raw |].
  - destruct (env "JWT_ACTIVE_KID") as [kid |]; [| done].
    destruct (fold_left add_key (split_on ","%char raw) ∅ !! kid) as [s |] eqn:Hs; [| done].
    intros [= <-]. by exists s.
  - destruct (env "JWT_SECRET") as [s |]; [| done]. intros [= <-]. exists s. simpl.
    apply lookup_insert_eq.
Qed.

Lemma sign_total ks c : load_keyset env = Ok ks ->
  exists s t, keys ks !! active_kid ks = Some s /\ sign jwt_encode c ks = Ok t /\
              jwt_encode (active_kid ks) s c = Some t.
Proof.
  intros Hks. destruct (load_keyset_active ks Hks) as [s Hs].
  destruct (encode_total laws (active_kid ks) s c) as [t Ht].
  exists s, t. unfold sign. by rewrite Hs, Ht.
Qed.

Lemma validate_signed ks c t k (w : World) :
  load_keyset env = Ok ks -> sign jwt_encode c ks = Ok t ->
  nbf c <= aw_now w + 30 -> aw_now w - 30 <= exp c ->
  iss c = jwt_issuer env -> aud c = jwt_audience env ->
  validate t k w = (if bool_decide (kind c = k) then (Ok c, w)
                    else (Err (EApp (Unauthorized "Invalid token kind")), w)).
Proof.
  intros Hks Hsign Hn He Hi Ha. destruct (sign_total ks c Hks) as (s & t' & Hs & Hsign' & Henc).
  assert (t' = t) as -> by congruence.
  unfold validate_token, lift, expect, utc_now, gets, fail_with, throw, mbind, M_bind, mret, M_ret.
  rewrite Hks, (encode_header laws _ _ _ _ Henc). simpl.
  unfold lift. rewrite Hs. simpl.
  rewrite (encode_decode laws _ _ _ _ CLOCK_SKEW_LEEWAY_SECS (aw_now w) Henc) by done. simpl.
  rewrite Hi, Ha, !bool_decide_true by done. simpl. by case_bool_decide.
Qed.

Lemma issue_tokens_run ks username role fid tv (w : World) :
  load_keyset env = Ok ks ->
  exists issued w', issue_tokens env uuid jwt_encode username role fid tv w = (Ok issued, w') /\
    sign jwt_encode (token_claims env true username role fid (uuid (aw_uuids w)) tv (aw_now w)) ks
      = Ok (access_token issued) /\
    sign jwt_encode (token_claims env false username role fid (uuid (S (aw_uuids w))) tv (aw_now w)) ks
      = Ok (refresh_token issued) /\
    refresh_jti issued = uuid (S (aw_uuids w)) /\
    w' = {| aw_families := aw_families w; aw_redis := aw_redis w; aw_creators := aw_creators w;
            aw_now := aw_now w; aw_uuids := S (S (aw_uuids w)); aw_faults := aw_faults w |}.
Proof.
  intros Hks. unfold issue_tokens, lift, utc_now, gets, new_uuid, mbind, M_bind, mret, M_ret.
  rewrite Hks. simpl.
  destruct (sign_total ks (token_claims env true username role fid (uuid (aw_uuids w)) tv (aw_now w)) Hks)
    as (_ & t1 & _ & H1 & _).
  destruct (sign_total ks (token_claims env false username role fid (uuid (S (aw_uuids w))) tv (aw_now w)) Hks)
    as (_ & t2 & _ & H2 & _).
  rewrite H1. simpl. rewrite H2. simpl. eexists _, _. split_and!; simpl; reflexivity || done.
Qed.
End jwt.

(** Issued tokens validate, as what they are and for as long as they last: the
    access token for 15 minutes and the refresh token for 7 days (with the 30
    seconds of leeway), each only under its own kind, and with the claims they
    were issued for. *)
Lemma issued_tokens_validate {St} `{RedisLaws string St} env uuid dh enc dec ks username role fid tv
    (w : AuthWorld (St := St)) :
  jwt_laws dh enc dec -> load_keyset env = Ok ks ->
  exists issued w', issue_tokens env uuid enc username role fid tv w = (Ok issued, w') /\
    forall v : AuthWorld (St := St),
    let validate := validate_token env dh dec in
    (aw_now w - 30 <= aw_now v <= aw_now w + 900 + 30 ->
       fst (validate (access_token issued) "access" v)
         = Ok (token_claims env true username role fid (uuid (aw_uuids w)) tv (aw_now w)) /\
       fst (validate (access_token issued) "refresh" v)
         = Err (EApp (Unauthorized "Invalid token kind"))) /\
    (aw_now w - 30 <= aw_now v <= aw_now w + 604800 + 30 ->
       fst (validate (refresh_token issued) "refresh" v)
         = Ok (token_claims env false username role fid (uuid (S (aw_uuids w))) tv (aw_now w)) /\
       fst (validate (refresh_token issued) "access" v)
         = Err (EApp (Unauthorized "Invalid token kind"))).
Proof.
  intros laws Hks.
  destruct (issue_tokens_run env uuid dh enc dec laws ks username role fid tv w Hks)
    as (issued & w' & Hrun & Hacc & Href & _ & _).
  exists issued, w'. split; [done |]. intros v validate.
  split; intros Hnow; split; unfold validate;
    (erewrite validate_signed; [| exact laws | exact Hks | first [exact Hacc | exact Href]
      | simpl; lia | simpl; lia | done | done]); reflexivity.
Qed.

(** The JWT library of the witnesses: the token is its claims, key id and
    secret. *)
#[export] Instance Claims_countable : Countable Claims.
Proof.
  refine (inj_countable'
    (fun c => (sub c, kind c, role c, (exp c, iat c, nbf c), (iss c, aud c, jti c), (family c, tv c)))
    (fun '(s, k, r, (e, i, n), (isr, au, j), (f, t)) =>
       {| sub := s; kind := k; role := r; exp := e; iat := i; nbf := n; iss := isr; aud := au;
          jti := j; family := f; tv := t |}) _).
  by intros [].
Defined.

Definition demo_encode (k s : string) (c : Claims) : option string := Some (to_text (k, s, c)).

Definition demo_header (t : string) : option (string * option string) :=
  match from_text (A := string * string * Claims) t with
  | Ok (k, _, _) => Some ("HS256", Some k)
  | Err _ => None
  end.

Definition demo_decode (secret : string) (leeway now : Z) (t : string) : option Claims :=
  match from_text (A := string * string * Claims) t with
  | Ok (_, s, c) =>
      if bool_decide (s = secret) && (nbf c <=? now + leeway) && (now - leeway <=? exp c)
      then Some c else None
  | Err _ => None
  end.

Lemma demo_laws : jwt_laws demo_header demo_encode demo_decode.
Proof.
  constructor.
  - intros k s c. by eexists.
  - intros k s c t [= <-]. unfold demo_header. by rewrite from_to_text.
  - intros k s c t leeway now [= <-] Hn He. unfold demo_decode. rewrite from_to_text.
    rewrite bool_decide_true by done. apply Z.leb_le in Hn, He. by rewrite Hn, He.
Qed.

Definition demo_env (k : string) : option string :=
  if bool_decide (k = "JWT_SECRET") then Some "s3cret" else None.

Lemma issued_tokens_validate_witness :
  let w := {| aw_families := ∅; aw_redis := Some (∅ : redis_map string); aw_creators := ∅;
              aw_now := 1000; aw_uuids := 0; aw_faults := [] |} in
  exists issued, fst (issue_tokens demo_env (fun n => print_Z (Z.of_nat n)) demo_encode "u" "creator" "F" 0 w)
                 = Ok issued /\
    is_ok (fst (validate_token demo_env demo_header demo_decode (access_token issued) "access"
                  (wait 900 w))) = true.
Proof.
  intros w.
  destruct (issued_tokens_validate demo_env (fun n => print_Z (Z.of_nat n)) demo_header demo_encode
    demo_decode {| keys := {["default" := "s3cret"]}; active_kid := "default" |} "u" "creator" "F" 0 w
    demo_laws ltac:(reflexivity)) as (issued & w' & Hrun & Hv).
  exists issued. rewrite Hrun. split; [reflexivity |].
  destruct (Hv (wait 900 w)) as [Ha _].
  destruct Ha as [-> _]; [simpl; lia | reflexivity].
Defined.

Lemma current_epoch_run {St} `{Redis string St} username (w : AuthWorld (St := St)) :
  aw_faults w = [] -> exists tv, current_epoch username w = (Ok tv, w).
Proof.
  destruct w as [t r c now n fl]. simpl. intros ->.
  unfold current_epoch, redis, mbind, M_bind, mret, M_ret. simpl. destruct r as [s |]; simpl; by eexists.
Qed.

Lemma sql_run {St A} (q : Z -> families -> A * families) (w : AuthWorld (St := St)) :
  aw_faults w = [] ->
  sql q w = (Ok (fst (q (aw_now w) (aw_families w))),
    {| aw_families := snd (q (aw_now w) (aw_families w)); aw_redis := aw_redis w;
       aw_creators := aw_creators w; aw_now := aw_now w; aw_uuids := aw_uuids w; aw_faults := [] |}).
Proof.
  destruct w as [t r c now n fl]. simpl. intros ->. unfold sql, remote. simpl.
  by destruct (q now t).
Qed.

Lemma rotate_missing {St} fid j j' (w : AuthWorld (St := St)) :
  aw_faults w = [] -> aw_families w !! fid = None ->
  exists w', rotate_or_detect_reuse fid j j' w = (Ok FamilyNotFound, w').
Proof.
  destruct w as [t r c now n fl]. simpl. intros -> Hnone.
  unfold rotate_or_detect_reuse, sql, remote, mbind, M_bind, mret, M_ret. simpl.
  rewrite Hnone. by eexists.
Qed.

(** The session a login creates cannot be refreshed: the tokens carry a family
    id drawn by the handler, the row is stored under another one drawn by
    [create_family].  With no call failing, the refresh token of a fresh login
    is refused at any time of its lifetime. *)
Lemma login_cannot_refresh {St} `{RedisLaws string St} env uuid parse_uuid dh enc dec ks ua ip username role
    secs (w w1 : AuthWorld (St := St)) issued :
  jwt_laws dh enc dec -> load_keyset env = Ok ks ->
  (forall n, parse_uuid (uuid n) = Some (uuid n)) -> (forall m n, uuid m = uuid n -> m = n) ->
  aw_faults w = [] -> (forall n, (aw_uuids w <= n)%nat -> aw_families w !! uuid n = None) ->
  issue_new_session env uuid enc ua ip username role w = (Ok issued, w1) -> 0 <= secs <= 604800 ->
  fst (refresh env uuid parse_uuid dh enc dec (refresh_token issued) (wait secs w1))
    = Err (EApp (Unauthorized "Invalid or expired refresh token")) /\
  exists f id, aw_families w1 !! id = Some f /\ tf_username f = username /\ tf_revoked f = false.
Proof.
  intros laws Hks Hparse Hinj Hfl Hfresh Hlogin Hsecs. unfold issue_new_session in Hlogin.
  destruct (current_epoch_run username w Hfl) as [tv0 Htv]. rewrite (bind_ok _ _ _ _ _ Htv) in Hlogin.
  change ((new_uuid uuid ≫= ?k) w) with (k (uuid (aw_uuids w)) (snd (new_uuid uuid w))) in Hlogin.
  cbv beta in Hlogin. set (wa := snd (new_uuid uuid w)) in *.
  destruct (issue_tokens_run env uuid dh enc dec laws ks username role (uuid (aw_uuids w)) tv0 wa Hks)
    as (i & wb & Hi & _ & Href & Hjti & Hwb).
  rewrite (bind_ok _ _ _ _ _ Hi) in Hlogin. unfold create_family in Hlogin.
  subst wb. unfold mbind at 1, M_bind at 1 in Hlogin. simpl in Hlogin.
  unfold mbind, M_bind, new_uuid, utc_now, gets, mret, M_ret, sql, remote in Hlogin. simpl in Hlogin.
  rewrite Hfl in Hlogin. simpl in Hlogin. injection Hlogin as <- <-.
  split.
  2: { eexists _, (uuid (S (S (S (aw_uuids w))))). simpl. rewrite lookup_insert_eq. by split. }
  unfold refresh, map_err.
  match goal with |- context [wait secs ?x] => set (w1 := x) end.
  assert (validate_token env dh dec (refresh_token i) "refresh" (wait secs w1)
    = (Ok (token_claims env false username role (uuid (aw_uuids w)) (uuid (S (aw_uuids wa))) tv0 (aw_now wa)),
       wait secs w1)) as Hval.
  { erewrite validate_signed; [| exact laws | exact Hks | exact Href | simpl; lia | simpl; lia | done | done].
    reflexivity. }
  unfold mbind at 1, M_bind at 1. rewrite Hval. unfold expect, lift. simpl.
  rewrite !Hparse. unfold mbind at 1 2, M_bind at 1 2. simpl.
  destruct (current_epoch_run username (wait secs w1) eq_refl) as [tv1 Htv1].
  rewrite (bind_ok _ _ _ _ _ Htv1).
  destruct (issue_tokens_run env uuid dh enc dec laws ks username role (uuid (aw_uuids w)) tv1
    (wait secs w1) Hks) as (i2 & w2 & Hi2 & _ & _ & _ & Hw2).
  rewrite (bind_ok _ _ _ _ _ Hi2).
  destruct (rotate_missing (uuid (aw_uuids w)) (uuid (S (aw_uuids wa))) (refresh_jti i2) w2) as [w3 Hrot].
  - by subst w2.
  - subst w2. simpl. rewrite lookup_insert_ne; [apply Hfresh; lia |].
    intros Heq. apply Hinj in Heq. lia.
  - by rewrite (bind_ok _ _ _ _ _ Hrot).
Qed.

Lemma to_text_inj {A} `{Countable A} (a b : A) : to_text a = to_text b -> a = b.
Proof. intros Heq. pose proof (from_to_text a) as Ha. rewrite Heq, from_to_text in Ha. congruence. Qed.

Lemma login_cannot_refresh_witness :
  let uuid := to_text (A := nat) in
  let w := {| aw_families := ∅; aw_redis := Some (∅ : redis_map string); aw_creators := ∅;
              aw_now := 1000; aw_uuids := 0; aw_faults := [] |} in
  exists issued w1,
    issue_new_session demo_env uuid demo_encode None None "u" "creator" w = (Ok issued, w1) /\
    fst (refresh demo_env uuid (fun s => Some s) demo_header demo_encode demo_decode
           (refresh_token issued) (wait 60 w1))
      = Err (EApp (Unauthorized "Invalid or expired refresh token")).
Proof.
  intros uuid w.
  destruct (issue_new_session demo_env uuid demo_encode None None "u" "creator" w)
    as [[issued | e] w1] eqn:Hlogin; [| vm_compute in Hlogin; discriminate].
  exists issued, w1. split; [reflexivity |].
  eapply (login_cannot_refresh demo_env uuid (fun s => Some s) demo_header demo_encode demo_decode
    {| keys := {["default" := "s3cret"]}; active_kid := "default" |} None None "u" "creator" 60 w w1 issued);
    [exact demo_laws | reflexivity | reflexivity | apply to_text_inj | reflexivity | reflexivity
    | exact Hlogin | lia].
Defined.

(** ** Revocation *)

(** The check of an access token fails closed: it refuses when Redis is
    configured and does not answer.  After a token was denylisted it is refused
    until it would have expired, and after a user's epoch was bumped every
    token stamped with the earlier epoch is refused, whatever calls fail. *)
Lemma revocation_fails_closed {St} `{RedisLaws string St} jti user tv secs (w : AuthWorld (St := St)) s :
  aw_redis w = Some s -> aw_faults w = [] ->
  (forall v, r_get (aw_now w * 1000) (epoch_key user) s = Some v -> exists n, v = print_Z n /\ 0 <= n < i64_max) ->
  (forall (v : AuthWorld (St := St)) sv, aw_redis v = Some sv -> fst (pop_fault (aw_faults v)) <> Fine ->
     fst (check_not_revoked jti user tv v)
       = Err (EApp (ServiceUnavailable "Unable to verify session status"))) /\
  (forall v, aw_now w <= aw_now v < aw_now w + secs ->
     aw_redis v = aw_redis (snd (revoke_jti jti secs w)) ->
     fst (check_not_revoked jti user tv v) <> Ok tt) /\
  (tv <= match fst (current_epoch user w) with Ok n => n | Err _ => 0 end ->
   forall v, aw_redis v = aw_redis (snd (bump_epoch user w)) ->
     fst (check_not_revoked jti user tv v) <> Ok tt).
Proof.
  intros Hs Hfl Hnum. split_and!.
  - intros v sv Hsv Hf. unfold check_not_revoked, redis, mbind, M_bind. rewrite Hsv. simpl.
    by destruct (pop_fault (aw_faults v)) as [[] l].
  - intros v Hv Hr. destruct w as [t r c now n fl]. simpl in *. subst r fl.
    unfold revoke_jti in Hr. destruct (secs <=? 0) eqn:Hsecs; zbool; [lia |].
    unfold redis, mbind, M_bind in Hr. simpl in Hr.
    unfold check_not_revoked, redis, mbind, M_bind. rewrite Hr. simpl.
    destruct (pop_fault (aw_faults v)) as [[] l]; simpl; try done.
    rewrite r_get_set_same by lia. destruct (r_get (aw_now v * 1000) (epoch_key user) _) as [e |]; [destruct (parse_i64 e) |]; unfold fail_with, throw; simpl; congruence.
  - intros Htv v Hr. destruct w as [t r c now n fl]. simpl in *. subst r fl.
    unfold current_epoch, bump_epoch, redis, mbind, M_bind in *. simpl in Hr, Htv.
    unfold r_incr in Hr. unfold check_not_revoked, redis, mbind, M_bind.
    destruct (r_get (now * 1000) (epoch_key user) s) as [e |] eqn:He.
    + destruct (Hnum e eq_refl) as (k & -> & Hk). simpl in Htv. rewrite parse_i64_print in Hr, Htv by lia.
      destruct (k <? i64_max) eqn:Hlt; zbool; [| lia]. simpl in Hr, Htv. rewrite Hr. simpl.
      destruct (pop_fault (aw_faults v)) as [[] l]; simpl; try done.
      rewrite r_get_set_plain. simpl. rewrite parse_i64_print by lia.
      destruct (r_get (aw_now v * 1000) (denylist_key jti) _); [unfold fail_with, throw; simpl; congruence |].
      destruct (tv <? k + 1) eqn:Hlt'; zbool; [unfold fail_with, throw; simpl; congruence | lia].
    + simpl in Hr, Htv. rewrite Hr. simpl.
      destruct (pop_fault (aw_faults v)) as [[] l]; simpl; try done.
      rewrite r_get_set_plain. simpl.
      destruct (r_get (aw_now v * 1000) (denylist_key jti) _); [unfold fail_with, throw; simpl; congruence |].
      change (10 * 0 + digit_value "1") with 1.
      destruct (tv <? 1) eqn:Hlt'; zbool; [unfold fail_with, throw; simpl; congruence | lia].
Qed.

Lemma revocation_fails_closed_witness :
  let w := {| aw_families := ∅; aw_redis := Some (∅ : redis_map string); aw_creators := ∅;
              aw_now := 1000; aw_uuids := 0; aw_faults := [] |} in
  fst (check_not_revoked "j" "u" 0 (wait 100 (snd (bump_epoch "u" w)))) <> Ok tt.
Proof.
  intros w.
  destruct (revocation_fails_closed "j" "u" 0 900 w (∅ : redis_map string)) as (_ & _ & Hb).
  - reflexivity.
  - reflexivity.
  - intros v Hv. vm_compute in Hv. discriminate Hv.
  - apply Hb; [vm_compute; discriminate | reflexivity].
Defined.

(** Revoking all sessions of a user leaves none of them usable and touches
    nobody else's: afterwards no refresh of any family of the user rotates,
    and the families of the others are as they were. *)
Lemma revoke_all_exact {St} `{RedisLaws string St} user reason n (w w' : AuthWorld (St := St)) :
  revoke_all_for_user user reason w = (Ok n, w') ->
  (forall fid f, aw_families w' !! fid = Some f -> tf_username f = user ->
     tf_revoked f = true /\ forall j j', fst (rotate_or_detect_reuse fid j j' w') <> Ok Rotated) /\
  (forall fid f, tf_username f <> user ->
     aw_families w' !! fid = Some f <-> aw_families w !! fid = Some f) /\
  dom (aw_families w') = dom (aw_families w).
Proof.
  intros Hrun. unfold revoke_all_for_user in Hrun.
  pose proof (families_sql_cases (fun _ => revoke_all_update user reason) w)
    as (w0 & _ & _ & [[Hq Ht] | (e & Hq & _)]); rewrite Hrun in Hq; [| done].
  injection Hq as _ <-. rewrite Ht.
  assert (forall fid f, (aw_families w' !! fid = Some f -> tf_username f = user -> tf_revoked f = true)) as Hdead.
  { intros fid f. rewrite Ht, lookup_fmap. destruct (aw_families w !! fid) as [g |]; simpl; [| done].
    intros [= <-]. destruct (tf_revoked g) eqn:Hg; [by rewrite andb_false_r |].
    case_bool_decide as Hu; simpl; [done |]. by intros. }
  rewrite <- Ht. split_and!.
  - intros fid f Hf Hu. pose proof (Hdead fid f Hf Hu) as Hr. split; [done |]. intros j j' Hbad.
    destruct (rotate_or_detect_reuse fid j j' w') as [r w2] eqn:Hrot. simpl in Hbad. subst r.
    apply rotate_cases in Hrot as [_ [[Hok _] | [[e He] _]]]; [| done].
    rewrite Hf in Hok. unfold decide_rotation in Hok. by rewrite Hr in Hok.
  - intros fid f Hu. rewrite Ht, lookup_fmap.
    destruct (aw_families w !! fid) as [g |]; simpl; [| done].
    case_bool_decide as Hgu; simpl; [| done]. split; intros [= Heq]; subst.
    + exfalso. apply Hu. by destruct (negb (tf_revoked g)).
    + by exfalso.
  - rewrite Ht. apply dom_fmap_L.
Qed.

Lemma revoke_all_exact_witness :
  let fam u := {| tf_id := "F"; tf_username := u; tf_current_jti := "j"; tf_revoked := false;
                tf_revoked_reason := None; tf_user_agent := None; tf_ip_address := None;
                tf_created_at := 0; tf_rotated_at := 0; tf_expires_at := 604800 |} in
  let w := {| aw_families := {["A" := fam "u"; "B" := fam "v"]}; aw_redis := Some (∅ : redis_map string);
              aw_creators := ∅; aw_now := 100; aw_uuids := 0; aw_faults := [] |} in
  let w' := snd (revoke_all_for_user "u" "x" w) in
  fst (revoke_all_for_user "u" "x" w) = Ok 1 /\ aw_families w' !! "B" = Some (fam "v").
Proof.
  intros fam w w'. assert (revoke_all_for_user "u" "x" w = (Ok 1, w')) as Hrun by (vm_compute; reflexivity).
  split; [by rewrite Hrun |].
  destruct (revoke_all_exact "u" "x" 1 w w' Hrun) as (_ & Hothers & _).
  apply Hothers; [discriminate | vm_compute; reflexivity].
Defined.
