(* ===== verification/Resilience.v ===== *)
(** * Resilience: circuit breakers and retries

    The circuit breaker of src/src/services/circuit_breaker.rs and its
    configuration from the environment, the breaker of the service mesh
    (src/src/service_mesh/circuit_breaker.rs), and the retry loops of
    src/src/services/retry.rs and src/src/db/retry.rs.

    Time is an argument: [now] is what [now_secs] returns.  A breaker's atomics
    are the fields of a record; an operation is one atomic update (a theorem
    about a history is about any interleaving of the operations of all the
    tasks that share the breaker).  Delays are nanoseconds. *)

From S2P Require Import Prelude Text.

(** ** services/circuit_breaker.rs *)

(** src/src/services/circuit_breaker.rs:6-13 CircuitState *)
Inductive CircuitState : Type := Closed | Open | HalfOpen.

#[export] Instance CircuitState_eq_dec : EqDecision CircuitState.
Proof. solve_decision. Defined.

(** src/src/services/circuit_breaker.rs:15-16 DEFAULT_FAILURE_THRESHOLD *)
Definition DEFAULT_FAILURE_THRESHOLD : Z := 5.

(** src/src/services/circuit_breaker.rs:18-19 DEFAULT_RECOVERY_TIMEOUT_SECS *)
Definition DEFAULT_RECOVERY_TIMEOUT_SECS : Z := 60.

(** src/src/services/circuit_breaker.rs:28-33 CircuitBreakerConfig *)
Record CircuitBreakerConfig : Type := {
  cfg_failure_threshold : Z;
  cfg_recovery_timeout : Z
}.

(** src/src/services/circuit_breaker.rs:118-134 the loop of read_env_var *)
Fixpoint read_env_keys {T} (env : environment) (parse : string -> option T)
    (is_valid : T -> bool) (keys : list string) : option T :=
  match keys with
  | [] => None
  | key :: keys' =>
      match env key with
      | None => read_env_keys env parse is_valid keys'
      | Some raw =>
          match parse (trim raw) with
          | Some value =>
              if is_valid value then Some value else read_env_keys env parse is_valid keys'
          | None => read_env_keys env parse is_valid keys'
          end
      end
  end.

(** src/src/services/circuit_breaker.rs:102-136 read_env_var *)
Definition read_env_var {T} (env : environment) (parse : string -> option T)
    (prefix : option string) (name : string) (is_valid : T -> bool) : option T :=
  let keys :=
    match prefix with
    | Some p => [map_chars upper p +:+ "_" +:+ name]
    | None => []
    end ++ [name] in
  read_env_keys env parse is_valid keys.

(** src/src/services/circuit_breaker.rs:69-99 CircuitBreakerConfig::resolve *)
Definition resolve (env : environment) (prefix : option string) : CircuitBreakerConfig :=
  {| cfg_failure_threshold :=
       default DEFAULT_FAILURE_THRESHOLD
         (read_env_var env parse_u32 prefix "CIRCUIT_BREAKER_FAILURE_THRESHOLD"
            (fun threshold => 0 <? threshold));
     cfg_recovery_timeout :=
       default DEFAULT_RECOVERY_TIMEOUT_SECS
         (read_env_var env parse_u64 prefix "CIRCUIT_BREAKER_RECOVERY_TIMEOUT_SECS"
            (fun _ => true)) |}.

(** src/src/services/circuit_breaker.rs:138-149 CircuitBreaker *)
Record CircuitBreaker : Type := {
  failure_threshold : Z;
  recovery_timeout : Z;
  failure_count : Z;
  last_failure_time : Z
}.

(** src/src/services/circuit_breaker.rs:152-159 CircuitBreaker::new *)
Definition cb_new (threshold timeout : Z) : CircuitBreaker :=
  {| failure_threshold := threshold; recovery_timeout := timeout;
     failure_count := 0; last_failure_time := 0 |}.

(** src/src/services/circuit_breaker.rs:161-164 CircuitBreaker::from_config *)
Definition cb_from_config (c : CircuitBreakerConfig) : CircuitBreaker :=
  cb_new (cfg_failure_threshold c) (cfg_recovery_timeout c).

(** src/src/services/circuit_breaker.rs:172-177 CircuitBreaker::from_env_prefixed *)
Definition cb_from_env_prefixed (env : environment) (prefix : string) : CircuitBreaker :=
  cb_from_config (resolve env (Some prefix)).

(** src/src/services/circuit_breaker.rs:189-204 CircuitBreaker::state *)
Definition cb_state (now : Z) (cb : CircuitBreaker) : CircuitState :=
  if failure_count cb <? failure_threshold cb then Closed
  else if recovery_timeout cb <=? wrap_u64 (now - last_failure_time cb) then HalfOpen
  else Open.

(** src/src/services/circuit_breaker.rs:206-213 CircuitBreaker::allow_request *)
Definition allow_request (now : Z) (cb : CircuitBreaker) : bool :=
  match cb_state now cb with
  | Closed => true
  | HalfOpen => true
  | Open => false
  end.

(** src/src/services/circuit_breaker.rs:215-218 CircuitBreaker::record_success *)
Definition record_success (cb : CircuitBreaker) : CircuitBreaker :=
  {| failure_threshold := failure_threshold cb; recovery_timeout := recovery_timeout cb;
     failure_count := 0; last_failure_time := last_failure_time cb |}.

(** src/src/services/circuit_breaker.rs:220-225 CircuitBreaker::record_failure *)
Definition record_failure (now : Z) (cb : CircuitBreaker) : CircuitBreaker :=
  {| failure_threshold := failure_threshold cb; recovery_timeout := recovery_timeout cb;
     failure_count := wrap_u32 (failure_count cb + 1); last_failure_time := now |}.

(** ** service_mesh/circuit_breaker.rs *)

(** src/src/service_mesh/circuit_breaker.rs:13-21 CircuitBreaker *)
Record MeshBreaker : Type := {
  mb_state : CircuitState;
  mb_failure_count : Z;
  mb_success_count : Z;
  mb_last_failure_time : option Z;
  mb_failure_threshold : Z;
  mb_success_threshold : Z;
  mb_timeout : Z
}.

(** src/src/service_mesh/circuit_breaker.rs:24-34 CircuitBreaker::new *)
Definition mb_new (failure_threshold success_threshold timeout : Z) : MeshBreaker :=
  {| mb_state := Closed; mb_failure_count := 0; mb_success_count := 0;
     mb_last_failure_time := None; mb_failure_threshold := failure_threshold;
     mb_success_threshold := success_threshold; mb_timeout := timeout |}.

(** src/src/service_mesh/circuit_breaker.rs:36-39 CircuitBreaker::is_open *)
Definition mb_is_open (b : MeshBreaker) : bool := bool_decide (mb_state b = Open).

Definition mb_with (b : MeshBreaker) (st : CircuitState) (fc sc : Z) (lf : option Z)
    : MeshBreaker :=
  {| mb_state := st; mb_failure_count := fc; mb_success_count := sc;
     mb_last_failure_time := lf; mb_failure_threshold := mb_failure_threshold b;
     mb_success_threshold := mb_success_threshold b; mb_timeout := mb_timeout b |}.

(** src/src/service_mesh/circuit_breaker.rs:41-58 CircuitBreaker::record_success *)
Definition mb_record_success (b : MeshBreaker) : MeshBreaker :=
  match mb_state b with
  | Closed => mb_with b Closed 0 (mb_success_count b) (mb_last_failure_time b)
  | HalfOpen =>
      let count := wrap_u32 (mb_success_count b + 1) in
      if mb_success_threshold b <=? count
      then mb_with b Closed 0 0 (mb_last_failure_time b)
      else mb_with b HalfOpen (mb_failure_count b) count (mb_last_failure_time b)
  | Open => b
  end.

(** src/src/service_mesh/circuit_breaker.rs:60-68 CircuitBreaker::record_failure *)
Definition mb_record_failure (now : Z) (b : MeshBreaker) : MeshBreaker :=
  let count := wrap_u32 (mb_failure_count b + 1) in
  if mb_failure_threshold b <=? count
  then mb_with b Open count (mb_success_count b) (Some now)
  else mb_with b (mb_state b) count (mb_success_count b) (mb_last_failure_time b).

(** src/src/service_mesh/circuit_breaker.rs:70-81 CircuitBreaker::check_half_open *)
Definition mb_check_half_open (now : Z) (b : MeshBreaker) : MeshBreaker :=
  match mb_state b, mb_last_failure_time b with
  | Open, Some last_failure =>
      if mb_timeout b <=? now - last_failure
      then mb_with b HalfOpen (mb_failure_count b) 0 (mb_last_failure_time b)
      else b
  | _, _ => b
  end.

(** One operation on a shared mesh breaker at time [now]. *)
Inductive mesh_step (now : Z) (b : MeshBreaker) : MeshBreaker -> Prop :=
| MeshSuccess : mesh_step now b (mb_record_success b)
| MeshFailure : mesh_step now b (mb_record_failure now b)
| MeshCheck : mesh_step now b (mb_check_half_open now b).

Inductive mesh_reachable (ft st timeout : Z) : Z -> MeshBreaker -> Prop :=
| MeshInit now : mesh_reachable ft st timeout now (mb_new ft st timeout)
| MeshStep now now' b b' :
    mesh_reachable ft st timeout now b -> now <= now' -> mesh_step now' b b' ->
    mesh_reachable ft st timeout now' b'.

(** ** services/retry.rs *)

(** [Duration::MAX], in nanoseconds. *)
Definition DURATION_MAX : Z := u64_max * 1000000000 + 999999999.

(** src/src/services/retry.rs:7-14 RetryConfig *)
Record RetryConfig : Type := {
  max_retries : nat;
  base_delay : Z;
  max_delay : Z
}.

(** src/src/services/retry.rs:16-24 RetryConfig::default *)
Definition retry_config_default : RetryConfig :=
  {| max_retries := 3; base_delay := 500 * 1000000; max_delay := 10 * 1000000000 |}.

(** src/src/services/retry.rs:48-51 the delay before the next attempt *)
Definition retry_delay (c : RetryConfig) (attempt : nat) : Z :=
  Z.min (Z.min DURATION_MAX (base_delay c * u32_saturating_pow 2 (Z.of_nat attempt)))
    (max_delay c).

(** src/src/services/retry.rs:38-64 the loop of with_retry, with [left] attempts
    after this one and the delays slept so far *)
Fixpoint retry_loop {W E A} (c : RetryConfig) (operation : M W E A)
    (attempt left : nat) (sleeps : list Z) (w : W) : result A E * W * list Z :=
  match operation w with
  | (Ok value, w') => (Ok value, w', sleeps)
  | (Err err, w') =>
      match left with
      | O => (Err err, w', sleeps)
      | S left' => retry_loop c operation (S attempt) left' (sleeps ++ [retry_delay c attempt]) w'
      end
  end.

(** src/src/services/retry.rs:26-67 with_retry *)
Definition with_retry {W E A} (c : RetryConfig) (operation : M W E A) (w : W)
    : result A E * W * list Z :=
  retry_loop c operation 0 (max_retries c) [] w.

(** ** db/retry.rs *)

Section db_retry.
Context {W E A : Type}.
(** [format!("{:?}", error)] *)
Variable debug : E -> string.

(** src/src/db/retry.rs:39-46 is_retryable *)
Definition is_retryable (error : E) : bool :=
  let s := debug error in
  contains "deadlock" s || contains "serialization failure" s ||
  contains "could not serialize" s || contains "40001" s || contains "40P01" s.

(** src/src/db/retry.rs:15-36 the loop of with_db_retry; [None] when [fuel]
    runs out *)
Fixpoint db_retry_loop (fuel : nat) (max_retries attempts : Z) (f : M W E A)
    (sleeps : list Z) (w : W) : option (result A E * W * list Z) :=
  match fuel with
  | O => None
  | S fuel' =>
      match f w with
      | (Ok r, w') => Some (Ok r, w', sleeps)
      | (Err e, w') =>
          let attempts := wrap_u32 (attempts + 1) in
          if (max_retries <? attempts) || negb (is_retryable e)
          then Some (Err e, w', sleeps)
          else
            let delay := wrap_u64 (100 * u64_saturating_pow 2 (attempts - 1)) * 1000000 in
            db_retry_loop fuel' max_retries attempts f (sleeps ++ [delay]) w'
      end
  end.

(** src/src/db/retry.rs:10-37 with_db_retry *)
Definition with_db_retry (fuel : nat) (max_retries : Z) (f : M W E A) (w : W)
    : option (result A E * W * list Z) :=
  db_retry_loop fuel max_retries 0 f [] w.
End db_retry.

(** ** Histories of a breaker *)

Inductive outcome : Type :=
| Success
| Failure (at_time : Z).

Definition record (cb : CircuitBreaker) (o : outcome) : CircuitBreaker :=
  match o with
  | Success => record_success cb
  | Failure t => record_failure t cb
  end.

Definition run (cb : CircuitBreaker) (h : list outcome) : CircuitBreaker := foldl record cb h.

(** The failures after the last success, and the time of the last failure. *)
Definition failures_since_success (h : list outcome) : Z :=
  foldl (fun n o => match o with Success => 0 | Failure _ => n + 1 end) 0 h.

Definition last_failure (h : list outcome) : Z :=
  foldl (fun t o => match o with Success => t | Failure t' => t' end) 0 h.

(** ** Lemmas and properties: the service breaker *)

Lemma failures_bound h : 0 <= failures_since_success h <= Z.of_nat (length h).
Proof.
  unfold failures_since_success.
  induction h as [| o h IH] using rev_ind; [done |].
  rewrite foldl_snoc, length_app. destruct o; simpl; lia.
Qed.

Lemma run_fields threshold timeout h :
  Z.of_nat (length h) <= u32_max ->
  run (cb_new threshold timeout) h =
  {| failure_threshold := threshold; recovery_timeout := timeout;
     failure_count := failures_since_success h; last_failure_time := last_failure h |}.
Proof.
  unfold run, failures_since_success, last_failure.
  induction h as [| o h IH] using rev_ind; intros Hlen; [done |].
  rewrite length_app in Hlen. simpl in Hlen. rewrite !foldl_snoc, IH by lia.
  destruct o as [| t]; simpl; [done |]. unfold record_failure. simpl. f_equal.
  apply wrap_u32_id. pose proof (failures_bound h). unfold failures_since_success in *. lia.
Qed.

(** What a breaker answers depends on its history alone: it is closed while
    fewer than [threshold] failures were recorded since the last success;
    otherwise it rejects requests for [timeout] seconds after the last failure
    and lets every request through (half-open) from then on.  The history is
    any sequence of outcomes recorded by the tasks sharing the breaker. *)
Lemma breaker_history threshold timeout h now :
  Z.of_nat (length h) <= u32_max ->
  0 <= last_failure h <= now -> now <= u64_max ->
  cb_state now (run (cb_new threshold timeout) h) =
    (if failures_since_success h <? threshold then Closed
     else if timeout <=? now - last_failure h then HalfOpen else Open) /\
  (allow_request now (run (cb_new threshold timeout) h) = false <->
   threshold <= failures_since_success h /\ now - last_failure h < timeout).
Proof.
  intros Hlen Hlast Hnow. rewrite run_fields by done.
  unfold allow_request, cb_state. simpl. rewrite wrap_u64_id by lia.
  destruct (failures_since_success h <? threshold) eqn:E1;
    destruct (timeout <=? now - last_failure h) eqn:E2; zbool; (split; [done |]);
    split; try done; lia.
Qed.

Lemma breaker_history_witness :
  cb_state 30 (run (cb_new 3 60) [Failure 10; Success; Failure 11; Failure 12; Failure 13]) = Open /\
  cb_state 73 (run (cb_new 3 60) [Failure 10; Success; Failure 11; Failure 12; Failure 13]) = HalfOpen.
Proof.
  split.
  - rewrite (proj1 (breaker_history 3 60 [Failure 10; Success; Failure 11; Failure 12; Failure 13]
      30 ltac:(vm_compute; discriminate) ltac:(vm_compute; split; discriminate)
      ltac:(vm_compute; discriminate))). reflexivity.
  - rewrite (proj1 (breaker_history 3 60 [Failure 10; Success; Failure 11; Failure 12; Failure 13]
      73 ltac:(vm_compute; discriminate) ltac:(vm_compute; split; discriminate)
      ltac:(vm_compute; discriminate))). reflexivity.
Defined.

Lemma read_env_keys_valid {T} env (parse : string -> option T) is_valid keys v :
  read_env_keys env parse is_valid keys = Some v -> is_valid v = true.
Proof.
  induction keys as [| k keys IH]; simpl; [done |].
  destruct (env k) as [raw |]; [| done]. destruct (parse (trim raw)) as [x |]; [| done].
  destruct (is_valid x) eqn:E; [by intros [= ->] | done].
Qed.

(** A breaker configured from any environment starts closed: the threshold is
    at least one whatever the variables hold. *)
Lemma configured_breaker_starts_closed env prefix now :
  cb_state now (cb_from_config (resolve env prefix)) = Closed.
Proof.
  unfold cb_state, cb_from_config, resolve, cb_new. simpl.
  destruct (read_env_var _ _ _ _ _) as [v |] eqn:E; simpl; [| done].
  apply read_env_keys_valid in E. by rewrite E.
Qed.

(** ** Lemmas and properties: the mesh breaker *)

(** What every reachable state of a mesh breaker satisfies. *)
Record mesh_wf (ft st timeout now : Z) (b : MeshBreaker) : Prop := {
  mw_params : mb_failure_threshold b = ft /\ mb_success_threshold b = st /\ mb_timeout b = timeout;
  mw_closed : mb_state b = Closed -> 0 <= mb_failure_count b < ft;
  mw_half : mb_state b = HalfOpen -> 0 <= mb_success_count b < st;
  mw_tripped : mb_state b <> Closed -> exists t, mb_last_failure_time b = Some t /\ t <= now
}.

Ltac carry_failure Ht :=
  intros; destruct Ht as (? & ? & ?); [done |]; eexists; split; [done | lia].

Lemma mesh_step_wf ft st timeout now now' b b' :
  0 < ft <= u32_max -> 0 < st <= u32_max -> now <= now' ->
  mesh_wf ft st timeout now b -> mesh_step now' b b' -> mesh_wf ft st timeout now' b'.
Proof.
  intros Hft Hst Hnow [(? & ? & ?) Hc Hh Ht] [].
  - unfold mb_record_success. pose proof (wrap_u32_range (mb_success_count b + 1)).
    destruct (mb_state b) eqn:Es; [| | destruct (_ <=? _) eqn:E; zbool]; split; simpl;
      rewrite ?Es; try done; try lia; by carry_failure Ht.
  - unfold mb_record_failure. pose proof (wrap_u32_range (mb_failure_count b + 1)).
    destruct (_ <=? _) eqn:E; zbool; split; simpl; try done; try lia.
    + intros _. exists now'. split; [done | lia].
    + by carry_failure Ht.
  - unfold mb_check_half_open.
    destruct (mb_state b) eqn:Es; [by split; rewrite ?Es | | split; rewrite ?Es; try done;
      by carry_failure Ht].
    destruct Ht as (t & Ht & ?); [done |]. rewrite Ht.
    destruct (_ <=? _) eqn:E; split; simpl; rewrite ?Es; try done; try lia;
      intros _; exists t; (split; [done | lia]).
Qed.

Lemma mesh_reachable_wf ft st timeout now b :
  0 < ft <= u32_max -> 0 < st <= u32_max ->
  mesh_reachable ft st timeout now b -> mesh_wf ft st timeout now b.
Proof.
  intros Hft Hst Hr. induction Hr as [now | now now' b b' Hr IH Hle Hstep].
  - split; simpl; try done; lia.
  - by eapply mesh_step_wf.
Qed.

(** The state machine of the mesh breaker, for every reachable state: while it
    is closed fewer than [ft] failures are counted; it leaves [Open] only by
    [check_half_open], never before [timeout] has elapsed since the failure
    that tripped it; and it closes again only from [HalfOpen], on the [st]-th
    success counted there. *)
Lemma mesh_breaker_transitions ft st timeout now now' b b' :
  0 < ft <= u32_max -> 0 < st <= u32_max ->
  mesh_reachable ft st timeout now b -> now <= now' -> mesh_step now' b b' ->
  (mb_state b = Closed -> mb_failure_count b < ft) /\
  (mb_state b = Open -> mb_state b' = Open \/
     (mb_state b' = HalfOpen /\ b' = mb_check_half_open now' b /\
      exists t, mb_last_failure_time b = Some t /\ t <= now /\ timeout <= now' - t)) /\
  (mb_state b <> Closed -> mb_state b' = Closed ->
     mb_state b = HalfOpen /\ b' = mb_record_success b /\ st <= mb_success_count b + 1) /\
  (mb_state b = Closed -> mb_state b' <> HalfOpen).
Proof.
  intros Hft Hst Hr Hle Hstep.
  pose proof (mesh_reachable_wf _ _ _ _ _ Hft Hst Hr) as [(Hf & Hs & Hto) Hc Hh Ht].
  split; [intros E; specialize (Hc E); lia |].
  destruct Hstep; unfold mb_record_success, mb_record_failure, mb_check_half_open.
  - destruct (mb_state b) eqn:Es; [split_and!; done | |].
    + rewrite Es. split_and!; try done. by left.
    + specialize (Hh eq_refl).
      rewrite wrap_u32_id by lia.
      destruct (_ <=? _) eqn:E; zbool; simpl; split_and!; try done; intros; split_and!; try done; lia.
  - destruct (_ <=? _) eqn:E; simpl; intuition congruence.
  - destruct (mb_state b) eqn:Es; rewrite ?Es; [split_and!; try done; by rewrite Es | |
      split_and!; try done; by rewrite Es].
    destruct Ht as (t & Ht & Htn); [done |]. rewrite Ht.
    destruct (_ <=? _) eqn:E; zbool; simpl; rewrite ?Es; split_and!; try done.
    + intros _. right. split_and!; try done. exists t. split_and!; [done | done | lia].
    + intros _. by left.
Qed.

Lemma mesh_breaker_transitions_witness :
  let b0 := mb_new 2 1 30 in
  let b1 := mb_record_failure 5 b0 in
  let b2 := mb_record_failure 6 b1 in
  let b3 := mb_check_half_open 40 b2 in
  mb_state b2 = Open /\ mb_state b3 = HalfOpen /\
  (mb_state b3 <> Closed -> mb_state (mb_record_success b3) = Closed ->
   mb_state b3 = HalfOpen /\ mb_record_success b3 = mb_record_success b3 /\
   1 <= mb_success_count b3 + 1).
Proof.
  intros b0 b1 b2 b3. split; [reflexivity |]. split; [reflexivity |].
  assert (mesh_reachable 2 1 30 40 b3) as Hr.
  { apply (MeshStep _ _ _ 6 40 b2); [| lia | apply MeshCheck].
    apply (MeshStep _ _ _ 5 6 b1); [| lia | apply MeshFailure].
    apply (MeshStep _ _ _ 0 5 b0); [| lia | apply MeshFailure]. apply MeshInit. }
  apply (mesh_breaker_transitions 2 1 30 40 41 b3 (mb_record_success b3));
    [unfold u32_max; lia | unfold u32_max; lia | exact Hr | lia | apply MeshSuccess].
Defined.

(** ** Lemmas and properties: retries *)

(** The world after the first [n] calls of an operation. *)
Definition calls {W E A} (op : M W E A) (n : nat) (w : W) : W :=
  Nat.iter n (fun w => snd (op w)) w.

Lemma calls_S {W E A} (op : M W E A) n w : calls op (S n) w = calls op n (snd (op w)).
Proof. unfold calls. by rewrite Nat.iter_succ_r. Qed.

(** [k] attempts failed in a row, and the attempt after them is decisive. *)
Definition stops_after {W E A} (op : M W E A) (k limit : nat) (w : W) (r : result A E) : Prop :=
  (k <= limit)%nat /\
  (forall i, (i < k)%nat -> is_ok (fst (op (calls op i w))) = false) /\
  r = fst (op (calls op k w)) /\ (is_ok r = true \/ k = limit).

Lemma stops_after_S {W E A} (op : M W E A) k limit w e w' r :
  op w = (Err e, w') -> stops_after op k limit w' r -> stops_after op (S k) (S limit) w r.
Proof.
  intros Hop (Hk & Hfail & Hr & Hend). unfold stops_after. rewrite calls_S, Hop. simpl.
  split_and!; [lia | | done | naive_solver].
  intros [| i] Hi; [unfold calls; simpl; by rewrite Hop |].
  rewrite calls_S, Hop. apply Hfail. lia.
Qed.

Lemma retry_loop_spec {W E A} c (op : M W E A) a left sleeps w r w' sl :
  retry_loop c op a left sleeps w = (r, w', sl) ->
  exists k, stops_after op k left w r /\ w' = calls op (S k) w /\
            sl = (sleeps ++ map (retry_delay c) (seq a k))%list.
Proof.
  revert a sleeps w. induction left as [| left IH]; intros a sleeps w; simpl;
    destruct (op w) as [[v | e] w1] eqn:Hop.
  1-3: intros [= <- <- <-]; exists 0%nat; unfold stops_after, calls; simpl;
    rewrite Hop, app_nil_r; split_and!; try done; try lia; auto.
  intros H. destruct (IH _ _ _ H) as (k & Hstop & Hw & Hsl).
  exists (S k). split_and!.
  - by eapply stops_after_S.
  - by rewrite calls_S, Hop.
  - rewrite Hsl. simpl. by rewrite <- app_assoc.
Qed.

Lemma retry_delay_bound c i : retry_delay c i <= max_delay c.
Proof. unfold retry_delay. lia. Qed.

Lemma retry_delay_monotone c i j :
  0 <= base_delay c -> (i <= j)%nat -> retry_delay c i <= retry_delay c j.
Proof.
  intros Hb Hij. unfold retry_delay, u32_saturating_pow.
  assert (2 ^ Z.of_nat i <= 2 ^ Z.of_nat j) by (apply Z.pow_le_mono_r; lia).
  assert (base_delay c * Z.min u32_max (2 ^ Z.of_nat i)
          <= base_delay c * Z.min u32_max (2 ^ Z.of_nat j)) by (apply Z.mul_le_mono_nonneg_l; lia).
  lia.
Qed.

(** [with_retry] always returns, after at most [max_retries + 1] calls: it
    stops at the first success, or after the last allowed attempt with its
    error, and slept once between consecutive attempts, each time no longer
    than [max_delay] and no shorter than the time before. *)
Lemma with_retry_correct {W E A} (c : RetryConfig) (op : M W E A) w :
  0 <= base_delay c ->
  exists k r w' sleeps,
    with_retry c op w = (r, w', sleeps) /\
    stops_after op k (max_retries c) w r /\ w' = calls op (S k) w /\
    length sleeps = k /\ Forall (fun d => d <= max_delay c) sleeps /\
    (forall i j d d', (i <= j)%nat -> sleeps !! i = Some d -> sleeps !! j = Some d' -> d <= d').
Proof.
  intros Hb. destruct (with_retry c op w) as [[r w'] sl] eqn:H.
  destruct (retry_loop_spec _ _ _ _ _ _ _ _ _ H) as (k & Hstop & Hw & ->). simpl.
  exists k, r, w', (map (retry_delay c) (seq 0 k)). split_and!; try done.
  - by rewrite length_map, length_seq.
  - apply Forall_forall. intros d Hd. apply list_elem_of_In, in_map_iff in Hd as (i & <- & _).
    apply retry_delay_bound.
  - intros i j d d' Hij Hi Hj.
    rewrite list_lookup_fmap in Hi, Hj.
    apply fmap_Some in Hi as (x & [-> _]%lookup_seq & ->).
    apply fmap_Some in Hj as (y & [-> _]%lookup_seq & ->).
    by apply retry_delay_monotone.
Qed.

Lemma with_retry_correct_witness :
  exists k r w' sleeps,
    with_retry retry_config_default
      (fun n : nat => if (n <? 2)%nat then (Err "down", S n) else (Ok n, S n)) 0%nat
      = (r, w', sleeps) /\ r = Ok 2%nat /\ k = 2%nat /\ length sleeps = k.
Proof.
  destruct (with_retry_correct retry_config_default
    (fun n : nat => if (n <? 2)%nat then (Err "down", S n) else (Ok n, S n)) 0%nat)
    as (k & r & w' & sleeps & H & _ & _ & Hlen & _).
  - simpl. lia.
  - exists k, r, w', sleeps. vm_compute in H. injection H as <- <- <-.
    split; [reflexivity |]. split; [reflexivity |]. rewrite <- Hlen. split; reflexivity.
Defined.

Section db_retry_facts.
Context {W E A : Type}.
Variable debug : E -> string.

Lemma db_retry_loop_total fuel mr attempts (f : M W E A) sleeps w :
  0 <= attempts <= mr -> mr < u32_max -> (Z.to_nat (mr - attempts) < fuel)%nat ->
  exists k r,
    db_retry_loop debug fuel mr attempts f sleeps w
      = Some (r, calls f (S k) w, (sleeps ++ map (fun i =>
          wrap_u64 (100 * u64_saturating_pow 2 (Z.of_nat i)) * 1000000)
          (seq (Z.to_nat attempts) k))%list) /\
    r = fst (f (calls f k w)) /\ (k <= Z.to_nat (mr - attempts))%nat /\
    (forall i, (i < k)%nat ->
       exists e, fst (f (calls f i w)) = Err e /\ is_retryable debug e = true) /\
    (is_ok r = true \/ k = Z.to_nat (mr - attempts) \/
     exists e, r = Err e /\ is_retryable debug e = false).
Proof.
  revert attempts sleeps w.
  induction fuel as [| fuel IH]; intros attempts sleeps w Ha Hmr Hfuel; [lia |].
  simpl. destruct (f w) as [[v | e] w'] eqn:Hf.
  - exists 0%nat, (Ok v). unfold calls. simpl. rewrite Hf, app_nil_r.
    split_and!; try done; [lia | lia | by left].
  - rewrite wrap_u32_id by lia. destruct (mr <? attempts + 1) eqn:Hlt; simpl.
    { zbool. exists 0%nat, (Err e). unfold calls. simpl. rewrite Hf, app_nil_r.
      split_and!; try done; [lia | lia | right; left; lia]. }
    destruct (is_retryable debug e) eqn:Er; simpl.
    + zbool. replace (attempts + 1 - 1) with attempts by lia.
      destruct (IH (attempts + 1) (sleeps ++ [wrap_u64 (100 * u64_saturating_pow 2 attempts) * 1000000])%list
                  w') as (k & r & Heq & Hr & Hk & Hfail & Hend); try lia.
      exists (S k), r. rewrite !calls_S, Hf. simpl snd. split_and!.
      * rewrite Heq, <- app_assoc. simpl seq. simpl map.
        rewrite Z2Nat.id by lia. replace (Z.to_nat (attempts + 1)) with (S (Z.to_nat attempts)) by lia.
        done.
      * done.
      * lia.
      * intros [| i] Hi; [unfold calls; simpl; rewrite Hf; eauto |].
        rewrite calls_S, Hf. apply Hfail. lia.
      * destruct Hend as [? | [? | ?]]; [by left | right; left; lia | right; by right].
    + exists 0%nat, (Err e). unfold calls. simpl. rewrite Hf, app_nil_r.
      split_and!; try done; [lia | lia | right; right; eauto].
Qed.
End db_retry_facts.

(** C12: [with_db_retry] terminates: [max_retries + 1] iterations of its unbounded
    loop are always enough.  It returns the first success, or the first error
    that is not retryable, or the error of the last allowed attempt; every
    earlier attempt failed with a retryable error. *)
Lemma with_db_retry_terminates {W E A} (debug : E -> string) (max_retries : Z) (f : M W E A) w :
  0 <= max_retries < u32_max ->
  exists k r w' sleeps,
    with_db_retry debug (S (Z.to_nat max_retries)) max_retries f w = Some (r, w', sleeps) /\
    (k <= Z.to_nat max_retries)%nat /\ r = fst (f (calls f k w)) /\ w' = calls f (S k) w /\
    length sleeps = k /\
    (forall i, (i < k)%nat ->
       exists e, fst (f (calls f i w)) = Err e /\ is_retryable debug e = true) /\
    (is_ok r = true \/ k = Z.to_nat max_retries \/
     exists e, r = Err e /\ is_retryable debug e = false).
Proof.
  intros Hmr.
  destruct (db_retry_loop_total debug (S (Z.to_nat max_retries)) max_retries 0 f [] w)
    as (k & r & Heq & Hr & Hk & Hfail & Hend); try lia.
  rewrite Z.sub_0_r in Hk, Hend. unfold with_db_retry. rewrite Heq.
  exists k, r, (calls f (S k) w). eexists. split_and!; try done.
  simpl. by rewrite length_map, length_seq.
Qed.

Lemma with_db_retry_terminates_witness :
  exists k r w' sleeps,
    with_db_retry (fun e : string => e) 4 3
      (fun n : nat => if (n <? 2)%nat then (Err "deadlock detected", S n) else (Err "syntax", S n)) 0%nat
      = Some (r, w', sleeps) /\ r = Err (A := nat) "syntax" /\ length sleeps = k /\ k = 2%nat.
Proof.
  destruct (with_db_retry_terminates (A := nat) (fun e : string => e) 3
    (fun n : nat => if (n <? 2)%nat then (Err "deadlock detected", S n) else (Err "syntax", S n)) 0%nat)
    as (k & r & w' & sleeps & H & _ & _ & _ & Hlen & _).
  - unfold u32_max. lia.
  - exists k, r, w', sleeps. split; [exact H |]. vm_compute in H. injection H as <- <- <-.
    rewrite <- Hlen. repeat split; reflexivity.
Defined.
