(* ===== verification/F64.v ===== *)
(** * 64-bit floating point

    The few [f64] operations the sources use in back-off computations, on the
    IEEE-754 binary64 values of the standard library's [SpecFloat]: conversion
    from an integer, product, [powi] (by squaring, as the compiler's runtime
    does it) and the saturating, truncating [as u64] and [as i64]. *)

From Stdlib Require Import SpecFloat.
From S2P Require Import Prelude.

Definition f64 : Type := spec_float.

Definition f64_of_Z (z : Z) : f64 := binary_normalize 53 1024 z 0 false.

Definition f64_mul (x y : f64) : f64 := SFmul 53 1024 x y.

(** [powi] of a positive exponent, given as its binary digits. *)
Fixpoint f64_powi_pos (r a : f64) (b : positive) : f64 :=
  match b with
  | xH => f64_mul r a
  | xO b' => f64_powi_pos r (f64_mul a a) b'
  | xI b' => f64_powi_pos (f64_mul r a) (f64_mul a a) b'
  end.

Definition f64_powi (a : f64) (n : Z) : f64 :=
  match n with
  | Zpos b => f64_powi_pos (f64_of_Z 1) a b
  | _ => f64_of_Z 1
  end.

(** Truncation toward zero. *)
Definition f64_trunc (x : f64) : Z :=
  match x with
  | S754_finite s m e =>
      let v := if 0 <=? e then Zpos m * 2 ^ e else Zpos m / 2 ^ (- e) in
      if s then - v else v
  | _ => 0
  end.

Definition f64_div (x y : f64) : f64 := SFdiv 53 1024 x y.

(** [f64::min]: a NaN gives way to the other operand. *)
Definition f64_min (x y : f64) : f64 :=
  match x with
  | S754_nan => y
  | _ => match y with S754_nan => x | _ => if SFltb y x then y else x end
  end.

(** [x.ceil() as i64] *)
Definition f64_ceil_as_i64 (x : f64) : Z :=
  match x with
  | S754_infinity false => i64_max
  | S754_infinity true => i64_min
  | S754_finite s m e =>
      let m := if s then Zneg m else Zpos m in
      let v := if 0 <=? e then m * 2 ^ e else - (- m / 2 ^ (- e)) in
      Z.max i64_min (Z.min i64_max v)
  | _ => 0
  end.

(** [x as u64] and [x as i64]: NaN is 0, out of range saturates. *)
Definition f64_as_u64 (x : f64) : Z :=
  match x with
  | S754_infinity false => u64_max
  | _ => Z.max 0 (Z.min u64_max (f64_trunc x))
  end.

Definition f64_as_i64 (x : f64) : Z :=
  match x with
  | S754_infinity false => i64_max
  | S754_infinity true => i64_min
  | _ => Z.max i64_min (Z.min i64_max (f64_trunc x))
  end.

Lemma f64_as_u64_range x : 0 <= f64_as_u64 x <= u64_max.
Proof. unfold f64_as_u64, u64_max. destruct x as [| [] | |]; lia. Qed.

Lemma f64_as_i64_range x : i64_min <= f64_as_i64 x <= i64_max.
Proof. unfold f64_as_i64, i64_min, i64_max. destruct x as [| [] | |]; lia. Qed.

#[global] Arguments f64_as_u64 : simpl never.
#[global] Arguments f64_as_i64 : simpl never.
