(* ===== verification/Webhooks.v ===== *)
(** * Webhooks

    webhooks/signature.rs (the timestamped signature header), mod.rs
    (registrations, secret rotation, the delivery log), sender.rs (one attempt)
    and retry.rs (the delivery loop with its per-endpoint circuit breaker and
    the dead-letter queue).  HMAC-SHA256 in hexadecimal and the JSON text of a
    payload are parameters; the endpoint's replies are part of the world. *)

From S2P Require Import Prelude Text F64 Errors Resilience.

(** ** Signatures *)

(** src/src/webhooks/signature.rs:34-34 SIGNATURE_TOLERANCE_SECS *)
Definition SIGNATURE_TOLERANCE_SECS : Z := 300.

(** src/src/webhooks/signature.rs:79-84 ParsedSignature *)
Record ParsedSignature : Type := {
  ps_timestamp : Z;
  ps_v1_values : list string
}.

(** src/src/webhooks/signature.rs:178-193 SignatureError *)
Inductive SignatureError : Type :=
| MalformedHeader
| NoSignatureValues
| TimestampOutOfWindow (timestamp now tolerance_secs : Z)
| SignatureMismatch.

(** One part of the header.

    src/src/webhooks/signature.rs:90-97 the loop of parse_signature_header *)
Definition parse_part (acc : option Z * list string) (part : string) : option Z * list string :=
  let part := trim part in
  match strip_prefix "t=" part with
  | Some ts_str => (parse_u64 ts_str, acc.2)
  | None =>
      match strip_prefix "v1=" part with
      | Some sig => (acc.1, (acc.2 ++ [sig])%list)
      | None => acc
      end
  end.

(** src/src/webhooks/signature.rs:86-103 parse_signature_header *)
Definition parse_signature_header (header : string) : option ParsedSignature :=
  let '(timestamp, v1_values) := fold_left parse_part (split_on ","%char header) (None, []) in
  ts ← timestamp;
  Some {| ps_timestamp := ts; ps_v1_values := v1_values |}.

(** Bytes are compared by their difference.

    src/src/webhooks/signature.rs:227-230 the loop of constant_time_eq *)
Fixpoint bytes_diff (diff : Z) (a b : string) : Z :=
  match a, b with
  | String x a', String y b' => bytes_diff (Z.lor diff (Z.lxor (byte x) (byte y))) a' b'
  | _, _ => diff
  end.

(** src/src/webhooks/signature.rs:223-232 constant_time_eq *)
Definition constant_time_eq (a b : string) : bool :=
  if negb (slength a =? slength b)%nat then false else bytes_diff 0 a b =? 0.

Section signature.
(** [hex(HMAC-SHA256(secret, message))] *)
Variable hmac_hex : string -> string -> string.

(** src/src/webhooks/signature.rs:41-47 compute_v1 *)
Definition compute_v1 (secret : string) (timestamp : Z) (raw_body : string) : string :=
  hmac_hex secret (print_Z timestamp +:+ "." +:+ raw_body).

(** src/src/webhooks/signature.rs:66-72 build_signature_header_at *)
Definition build_signature_header_at (secrets : list string) (raw_body : string) (timestamp : Z) : string :=
  join "," (("t=" +:+ print_Z timestamp)
            :: map (fun secret => "v1=" +:+ compute_v1 secret timestamp raw_body) secrets).

(** src/src/webhooks/signature.rs:135-174 verify_signature_at *)
Definition verify_signature_at (signature_header raw_body secret : string) (tolerance_secs now : Z)
    : result unit SignatureError :=
  match parse_signature_header signature_header with
  | None => Err MalformedHeader
  | Some parsed =>
      let age := u64_saturating_sub now (ps_timestamp parsed) in
      let skew := u64_saturating_sub (ps_timestamp parsed) now in
      if (tolerance_secs <? age) || (tolerance_secs <? skew)
      then Err (TimestampOutOfWindow (ps_timestamp parsed) now tolerance_secs)
      else match ps_v1_values parsed with
      | [] => Err NoSignatureValues
      | vs =>
          let expected := compute_v1 secret (ps_timestamp parsed) raw_body in
          if existsb (fun v => constant_time_eq v expected) vs then Ok tt else Err SignatureMismatch
      end
  end.

(** src/src/webhooks/signature.rs:205-207 generate_signature *)
Definition generate_signature (secret payload : string) : string := compute_v1 secret 0 payload.

End signature.

(** ** Registrations, secrets and logs *)

(** src/src/webhooks/mod.rs:16-24 Webhook *)
Record Webhook : Type := {
  wk_id : string;
  wk_url : string;
  wk_secret : string;
  wk_enabled : bool;
  wk_events : list string;
  wk_created_at : Z;
  wk_updated_at : Z
}.

(** src/src/webhooks/mod.rs:63-72 WebhookSecret *)
Record WebhookSecret : Type := {
  ws_id : string;
  ws_webhook_id : string;
  ws_secret : string;
  ws_is_primary : bool;
  ws_created_at : Z
}.

(** src/src/webhooks/mod.rs:49-59 WebhookLog *)
Record WebhookLog : Type := {
  wl_webhook_id : string;
  wl_event_type : string;
  wl_payload : string;
  wl_status_code : option Z;
  wl_response_body : option string;
  wl_success : bool;
  wl_attempts : Z
}.

(** src/src/webhooks/retry.rs:106-118 DeadLetterEntry *)
Record DeadLetterEntry : Type := {
  dl_id : string;
  dl_webhook_id : string;
  dl_delivery_id : string;
  dl_event_type : string;
  dl_payload : string;
  dl_last_error : string;
  dl_attempts : Z;
  dl_failed_at : Z
}.

(** src/src/webhooks/sender.rs:14-21 DeliveryContext *)
Record DeliveryContext : Type := {
  delivery_id : string;
  ctx_event_type : string;
  secrets : list string
}.

(** src/src/webhooks/retry.rs:122-132 DeliveryStatus *)
Record DeliveryStatus : Type := {
  ds_webhook_id : string;
  ds_delivery_id : string;
  ds_event_type : string;
  ds_success : bool;
  ds_attempts : Z;
  ds_last_status_code : option Z;
  ds_last_error : option string;
  ds_delivered_at : option Z
}.

(** src/src/webhooks/retry.rs:32-41 WebhookRetryConfig *)
Record WebhookRetryConfig : Type := {
  max_attempts : Z;
  initial_delay_ms : Z;
  max_delay_ms : Z;
  backoff_multiplier : f64;
  circuit_failure_threshold : Z;
  circuit_recovery_secs : Z
}.

(** src/src/webhooks/retry.rs:43-54 WebhookRetryConfig::default *)
Definition webhook_retry_default : WebhookRetryConfig :=
  {| max_attempts := 5; initial_delay_ms := 1000; max_delay_ms := 60000;
     backoff_multiplier := f64_of_Z 2; circuit_failure_threshold := 5;
     circuit_recovery_secs := 300 |}.

(** src/src/webhooks/retry.rs:58-62 WebhookRetryConfig::base_delay_ms *)
Definition base_delay_ms (c : WebhookRetryConfig) (attempt : Z) : Z :=
  let ms := f64_as_u64 (f64_mul (f64_of_Z (initial_delay_ms c))
                          (f64_powi (backoff_multiplier c) (wrap_i32 attempt))) in
  Z.min ms (max_delay_ms c).

(** [nanos] is the sub-second part of the clock.

    src/src/webhooks/retry.rs:65-78 WebhookRetryConfig::jittered_delay *)
Definition jittered_delay (nanos : Z) (c : WebhookRetryConfig) (attempt : Z) : Z :=
  let base := base_delay_ms c attempt in
  if 0 <? base then nanos mod (base + 1) else 0.

(** A request as the endpoint receives it. *)
Record Sent : Type := {
  st_url : string;
  st_delivery_id : string;
  st_event_type : string;
  st_signature : string;
  st_body : string;
  st_time : Z
}.

Section webhooks.
Variable hmac_hex : string -> string -> string.
Variable uuid : nat -> string.
Variable fresh_secret : nat -> string.
(** The sub-second nanoseconds of the clock at a time. *)
Variable nanos : Z -> Z.
(** Whether Postgres finds a unique index for [ON CONFLICT (delivery_id)]; it
    does not infer a partial index from that clause, and the one the
    repository's migration 0071 creates is partial. *)
Variable dlq_conflict_index : bool.

(** The tables, the process's breakers, the clock (milliseconds), what the next
    statements meet, the endpoints' next replies with the time they take, what
    was sent and the counters. *)
Record WebhookWorld : Type := {
  wh_hooks : gmap string Webhook;
  wh_secrets : list WebhookSecret;
  wh_logs : list WebhookLog;
  wh_dlq : list DeadLetterEntry;
  wh_circuits : gmap string CircuitBreaker;
  wh_now : Z;
  wh_uuids : nat;
  wh_faults : list fault;
  wh_replies : list (result Z string * Z);
  wh_sent : list Sent;
  wh_metrics : list string
}.

Definition set_tables hooks secrets logs dlq (w : WebhookWorld) : WebhookWorld :=
  {| wh_hooks := hooks; wh_secrets := secrets; wh_logs := logs; wh_dlq := dlq;
     wh_circuits := wh_circuits w; wh_now := wh_now w; wh_uuids := wh_uuids w;
     wh_faults := wh_faults w; wh_replies := wh_replies w; wh_sent := wh_sent w;
     wh_metrics := wh_metrics w |}.

#[export] Instance WebhookWorld_networked : Networked WebhookWorld := {
  next_fault w :=
    let '(f, l) := pop_fault (wh_faults w) in
    (f, {| wh_hooks := wh_hooks w; wh_secrets := wh_secrets w; wh_logs := wh_logs w;
           wh_dlq := wh_dlq w; wh_circuits := wh_circuits w; wh_now := wh_now w;
           wh_uuids := wh_uuids w; wh_faults := l; wh_replies := wh_replies w;
           wh_sent := wh_sent w; wh_metrics := wh_metrics w |})
}.

Definition Hook : Type -> Type := M WebhookWorld sqlx_error.

(** A statement. *)
Definition sql {A} (q : WebhookWorld -> A * WebhookWorld) : Hook A := remote SqlxOther q.

Definition new_uuid : Hook string := fun w =>
  (Ok (uuid (wh_uuids w)),
   {| wh_hooks := wh_hooks w; wh_secrets := wh_secrets w; wh_logs := wh_logs w;
      wh_dlq := wh_dlq w; wh_circuits := wh_circuits w; wh_now := wh_now w;
      wh_uuids := S (wh_uuids w); wh_faults := wh_faults w; wh_replies := wh_replies w;
      wh_sent := wh_sent w; wh_metrics := wh_metrics w |}).

(** src/src/webhooks/mod.rs:356-362 generate_secret *)
Definition generate_secret : Hook string := fun w =>
  (Ok (fresh_secret (wh_uuids w)), snd (new_uuid w)).

Definition metric (name : string) : Hook unit := modify (fun w =>
  {| wh_hooks := wh_hooks w; wh_secrets := wh_secrets w; wh_logs := wh_logs w;
     wh_dlq := wh_dlq w; wh_circuits := wh_circuits w; wh_now := wh_now w;
     wh_uuids := wh_uuids w; wh_faults := wh_faults w; wh_replies := wh_replies w;
     wh_sent := wh_sent w; wh_metrics := name :: wh_metrics w |}).

Definition sleep (ms : Z) : Hook unit := modify (fun w =>
  {| wh_hooks := wh_hooks w; wh_secrets := wh_secrets w; wh_logs := wh_logs w;
     wh_dlq := wh_dlq w; wh_circuits := wh_circuits w; wh_now := wh_now w + ms;
     wh_uuids := wh_uuids w; wh_faults := wh_faults w; wh_replies := wh_replies w;
     wh_sent := wh_sent w; wh_metrics := wh_metrics w |}).

Definition set_circuit (url : string) (f : CircuitBreaker -> CircuitBreaker) : Hook unit :=
  modify (fun w =>
  {| wh_hooks := wh_hooks w; wh_secrets := wh_secrets w; wh_logs := wh_logs w;
     wh_dlq := wh_dlq w; wh_circuits := alter f url (wh_circuits w); wh_now := wh_now w;
     wh_uuids := wh_uuids w; wh_faults := wh_faults w; wh_replies := wh_replies w;
     wh_sent := wh_sent w; wh_metrics := wh_metrics w |}).

(** src/src/webhooks/mod.rs:78-91 create_webhook; new rows are enabled by default *)
Definition create_webhook (url : string) (events : list string) : Hook Webhook :=
  secret ← generate_secret;
  id ← new_uuid;
  sql (fun w =>
    let hook := {| wk_id := id; wk_url := url; wk_secret := secret; wk_enabled := true;
                   wk_events := events; wk_created_at := wh_now w; wk_updated_at := wh_now w |} in
    (hook, set_tables (<[id := hook]> (wh_hooks w)) (wh_secrets w) (wh_logs w) (wh_dlq w) w)).

(** src/src/webhooks/mod.rs:99-104 get_webhook *)
Definition get_webhook (id : string) : Hook (option Webhook) := sql (fun w => (wh_hooks w !! id, w)).

(** src/src/webhooks/mod.rs:106-126 update_webhook *)
Definition update_webhook (id : string) (url : option string) (events : option (list string))
    (enabled : option bool) : Hook (option Webhook) :=
  sql (fun w =>
    let f h := {| wk_id := wk_id h; wk_url := default (wk_url h) url; wk_secret := wk_secret h;
                  wk_enabled := default (wk_enabled h) enabled;
                  wk_events := default (wk_events h) events;
                  wk_created_at := wk_created_at h; wk_updated_at := wh_now w |} in
    (f <$> wh_hooks w !! id,
     set_tables (alter f id (wh_hooks w)) (wh_secrets w) (wh_logs w) (wh_dlq w) w)).

(** The rows of other tables that reference the webhook go with it.

    src/src/webhooks/mod.rs:128-135 delete_webhook *)
Definition delete_webhook (id : string) : Hook bool :=
  sql (fun w =>
    (bool_decide (is_Some (wh_hooks w !! id)),
     set_tables (delete id (wh_hooks w))
       (filter (fun s => ws_webhook_id s <> id) (wh_secrets w))
       (filter (fun l => wl_webhook_id l <> id) (wh_logs w))
       (filter (fun d => dl_webhook_id d <> id) (wh_dlq w)) w)).

Definition set_primary (b : bool) (s : WebhookSecret) : WebhookSecret :=
  {| ws_id := ws_id s; ws_webhook_id := ws_webhook_id s; ws_secret := ws_secret s;
     ws_is_primary := b; ws_created_at := ws_created_at s |}.

(** [ORDER BY created_at DESC LIMIT n] of a webhook's secrets. *)
Definition newest_secrets (id : string) (n : nat) (ss : list WebhookSecret) : list WebhookSecret :=
  take n (sort_by (fun a b => ws_created_at b <=? ws_created_at a)
            (filter (fun s => ws_webhook_id s = id) ss)).

(** src/src/webhooks/mod.rs:151-210 rotate_secret *)
Definition rotate_secret (webhook_id : string) (retain_count : Z) : Hook (string * option string) :=
  new_secret ← generate_secret;
  current ← sql (fun w => (wk_secret <$> wh_hooks w !! webhook_id, w));
  _ ← sql (fun w => (tt, set_tables
        (alter (fun h => {| wk_id := wk_id h; wk_url := wk_url h; wk_secret := new_secret;
                            wk_enabled := wk_enabled h; wk_events := wk_events h;
                            wk_created_at := wk_created_at h; wk_updated_at := wh_now w |})
           webhook_id (wh_hooks w)) (wh_secrets w) (wh_logs w) (wh_dlq w) w));
  id ← new_uuid;
  _ ← sql (fun w => (tt, set_tables (wh_hooks w)
        ({| ws_id := id; ws_webhook_id := webhook_id; ws_secret := new_secret;
            ws_is_primary := true; ws_created_at := wh_now w |} :: wh_secrets w)
        (wh_logs w) (wh_dlq w) w));
  _ ← sql (fun w => (tt, set_tables (wh_hooks w)
        (map (fun s => if bool_decide (ws_webhook_id s = webhook_id /\ ws_secret s <> new_secret)
                       then set_primary false s else s) (wh_secrets w))
        (wh_logs w) (wh_dlq w) w));
  _ ← sql (fun w =>
        let kept := map ws_id (newest_secrets webhook_id (Z.to_nat retain_count) (wh_secrets w)) in
        (tt, set_tables (wh_hooks w)
           (filter (fun s => ws_webhook_id s <> webhook_id \/ ws_id s ∈ kept) (wh_secrets w))
           (wh_logs w) (wh_dlq w) w));
  mret (new_secret, current).

(** src/src/webhooks/mod.rs:214-235 active_secrets *)
Definition active_secrets (webhook_id : string) : Hook (list string) :=
  rows ← sql (fun w =>
    (take 2 (sort_by (fun a b => (ws_is_primary a && negb (ws_is_primary b)) ||
                                 (Bool.eqb (ws_is_primary a) (ws_is_primary b) &&
                                  (ws_created_at b <=? ws_created_at a)))
               (filter (fun s => ws_webhook_id s = webhook_id) (wh_secrets w))), w));
  match rows with
  | [] => row ← sql (fun w => (wk_secret <$> wh_hooks w !! webhook_id, w));
          mret (match row with Some s => [s] | None => [] end)
  | _ => mret (map ws_secret rows)
  end.

(** src/src/webhooks/mod.rs:242-267 log_delivery *)
Definition log_delivery (l : WebhookLog) : Hook unit :=
  sql (fun w => (tt, set_tables (wh_hooks w) (wh_secrets w) (l :: wh_logs w) (wh_dlq w) w)).

(** ** Sending *)

(** src/src/webhooks/sender.rs:25-31 DeliveryContext::new *)
Definition new_context (event_type secret : string) : Hook DeliveryContext :=
  id ← new_uuid;
  mret {| delivery_id := id; ctx_event_type := event_type; secrets := [secret] |}.

(** The next reply of the endpoint: a status, or no response at all.  A reply
    outside 2xx is an error.

    src/src/webhooks/sender.rs:60-121 send_webhook *)
Definition send_webhook (url : string) (ctx : DeliveryContext) (payload : string)
    : Hook (result Z string) := fun w =>
  let sent := {| st_url := url; st_delivery_id := delivery_id ctx;
                 st_event_type := ctx_event_type ctx;
                 st_signature := build_signature_header_at hmac_hex (secrets ctx) payload
                                   (wh_now w / 1000);
                 st_body := payload; st_time := wh_now w |} in
  let '(reply, ms, replies) :=
    match wh_replies w with
    | [] => (Err "no response", 10000, [])
    | (reply, ms) :: replies => (reply, ms, replies)
    end in
  let reply :=
    match reply with
    | Ok status =>
        if (200 <=? status) && (status <=? 299) then Ok status
        else Err ("Webhook delivery failed with status: " +:+ print_Z status)
    | Err e => Err e
    end in
  (Ok reply,
   {| wh_hooks := wh_hooks w; wh_secrets := wh_secrets w; wh_logs := wh_logs w;
      wh_dlq := wh_dlq w; wh_circuits := wh_circuits w; wh_now := wh_now w + ms;
      wh_uuids := wh_uuids w; wh_faults := wh_faults w; wh_replies := replies;
      wh_sent := sent :: wh_sent w; wh_metrics := wh_metrics w |}).

(** ** The delivery loop *)

(** src/src/webhooks/retry.rs:89-100 get_or_create_circuit *)
Definition get_or_create_circuit (url : string) (c : WebhookRetryConfig) : Hook unit := modify (fun w =>
  match wh_circuits w !! url with
  | Some _ => w
  | None =>
      {| wh_hooks := wh_hooks w; wh_secrets := wh_secrets w; wh_logs := wh_logs w;
         wh_dlq := wh_dlq w;
         wh_circuits := <[url := cb_new (circuit_failure_threshold c) (circuit_recovery_secs c)]>
                          (wh_circuits w);
         wh_now := wh_now w; wh_uuids := wh_uuids w; wh_faults := wh_faults w;
         wh_replies := wh_replies w; wh_sent := wh_sent w; wh_metrics := wh_metrics w |}
  end).

Definition circuit_open (url : string) : Hook bool := gets (fun w =>
  match wh_circuits w !! url with
  | Some cb => match cb_state (wh_now w / 1000) cb with Open => true | _ => false end
  | None => false
  end).

(** [INSERT .. ON CONFLICT (delivery_id) DO UPDATE]; the statement fails when
    no unique index can be inferred.

    src/src/webhooks/retry.rs:327-357 move_to_dlq *)
Definition move_to_dlq (webhook_id delivery_id event_type payload last_error : string) (attempts : Z)
    : Hook unit :=
  id ← new_uuid;
  done ← sql (fun w =>
    if negb dlq_conflict_index then (false, w)
    else
      let update d := {| dl_id := dl_id d; dl_webhook_id := dl_webhook_id d;
                         dl_delivery_id := dl_delivery_id d; dl_event_type := dl_event_type d;
                         dl_payload := dl_payload d; dl_last_error := last_error;
                         dl_attempts := attempts; dl_failed_at := wh_now w |} in
      let dlq :=
        if existsb (fun d => bool_decide (dl_delivery_id d = delivery_id)) (wh_dlq w)
        then map (fun d => if bool_decide (dl_delivery_id d = delivery_id) then update d else d)
               (wh_dlq w)
        else {| dl_id := id; dl_webhook_id := webhook_id; dl_delivery_id := delivery_id;
                dl_event_type := event_type; dl_payload := payload; dl_last_error := last_error;
                dl_attempts := attempts; dl_failed_at := wh_now w |} :: wh_dlq w in
      (true, set_tables (wh_hooks w) (wh_secrets w) (wh_logs w) dlq w));
  if done : bool then mret tt else throw (SqlxDatabase (Some "42P10") None).

(** Whether a retry is called off: the wait before it, then the breaker.

    src/src/webhooks/retry.rs:201-223 the head of an iteration of deliver_with_context *)
Definition before_attempt (attempt : Z) (hook : Webhook) (c : WebhookRetryConfig) : Hook bool :=
  if 0 <? attempt then
    delay ← gets (fun w => jittered_delay (nanos (wh_now w)) c (attempt - 1));
    _ ← metric ("WEBHOOK_RETRY_ATTEMPTS_TOTAL " +:+ print_Z attempt);
    _ ← sleep delay;
    circuit_open (wk_url hook)
  else mret false.

(** The attempts from number [attempt] on, [left] of them.  The result is the
    status of a success, or the error to report.

    src/src/webhooks/retry.rs:200-279 the loop of deliver_with_context *)
Fixpoint attempts_loop (left : nat) (attempt : Z) (hook : Webhook) (ctx : DeliveryContext)
    (payload : string) (c : WebhookRetryConfig) (last_error : string)
    : Hook (result DeliveryStatus string) :=
  match left with
  | O => mret (Err last_error)
  | S left' =>
      aborted ← before_attempt attempt hook c;
      if aborted : bool then
        mret (Err ("circuit breaker OPEN after attempt " +:+ print_Z attempt +:+ "; aborting retries"))
      else
        reply ← send_webhook (wk_url hook) ctx payload;
        match reply with
        | Ok status =>
            _ ← set_circuit (wk_url hook) record_success;
            _ ← metric "WEBHOOK_DELIVERIES_TOTAL success";
            _ ← Prelude.attempt (E' := sqlx_error) (log_delivery
                  {| wl_webhook_id := wk_id hook; wl_event_type := ctx_event_type ctx;
                     wl_payload := payload; wl_status_code := Some status;
                     wl_response_body := None; wl_success := true; wl_attempts := attempt + 1 |});
            now ← gets wh_now;
            mret (Ok {| ds_webhook_id := wk_id hook; ds_delivery_id := delivery_id ctx;
                        ds_event_type := ctx_event_type ctx; ds_success := true;
                        ds_attempts := attempt + 1; ds_last_status_code := Some status;
                        ds_last_error := None; ds_delivered_at := Some now |})
        | Err e =>
            now ← gets wh_now;
            _ ← set_circuit (wk_url hook) (record_failure (now / 1000));
            _ ← metric "WEBHOOK_DELIVERIES_TOTAL failure";
            attempts_loop left' (attempt + 1) hook ctx payload c e
        end
  end.

Definition failed_status (hook : Webhook) (ctx : DeliveryContext) (attempts : Z) (error : string)
    : DeliveryStatus :=
  {| ds_webhook_id := wk_id hook; ds_delivery_id := delivery_id ctx;
     ds_event_type := ctx_event_type ctx; ds_success := false; ds_attempts := attempts;
     ds_last_status_code := None; ds_last_error := Some error; ds_delivered_at := None |}.

(** src/src/webhooks/retry.rs:171-198 the fail-fast of deliver_with_context *)
Definition skip_delivery (hook : Webhook) (ctx : DeliveryContext) (payload : string)
    : Hook DeliveryStatus :=
  let msg := "circuit breaker OPEN for endpoint " +:+ wk_url hook +:+ "; skipping delivery" in
  _ ← attempt (E' := sqlx_error)
        (move_to_dlq (wk_id hook) (delivery_id ctx) (ctx_event_type ctx) payload msg 0);
  _ ← metric "WEBHOOK_DLQ_TOTAL";
  mret (failed_status hook ctx 0 msg).

(** src/src/webhooks/retry.rs:281-322 the end of deliver_with_context *)
Definition park_delivery (hook : Webhook) (ctx : DeliveryContext) (payload : string)
    (c : WebhookRetryConfig) (last_error : string) : Hook DeliveryStatus :=
  _ ← metric "WEBHOOK_DLQ_TOTAL";
  _ ← attempt (E' := sqlx_error)
        (move_to_dlq (wk_id hook) (delivery_id ctx) (ctx_event_type ctx) payload last_error
           (wrap_i32 (max_attempts c)));
  _ ← attempt (E' := sqlx_error) (log_delivery
        {| wl_webhook_id := wk_id hook; wl_event_type := ctx_event_type ctx;
           wl_payload := payload; wl_status_code := None;
           wl_response_body := Some last_error; wl_success := false;
           wl_attempts := wrap_i32 (max_attempts c) |});
  mret (failed_status hook ctx (max_attempts c) last_error).

(** src/src/webhooks/retry.rs:158-323 deliver_with_context *)
Definition deliver_with_context (hook : Webhook) (ctx : DeliveryContext) (payload : string)
    (c : WebhookRetryConfig) : Hook DeliveryStatus :=
  _ ← get_or_create_circuit (wk_url hook) c;
  blocked ← circuit_open (wk_url hook);
  if blocked : bool then skip_delivery hook ctx payload
  else
    r ← attempts_loop (Z.to_nat (max_attempts c)) 0 hook ctx payload c "";
    match r with
    | Ok status => mret status
    | Err last_error => park_delivery hook ctx payload c last_error
    end.

(** src/src/webhooks/retry.rs:144-153 deliver_with_retry *)
Definition deliver_with_retry (hook : Webhook) (event_type payload : string) (c : WebhookRetryConfig)
    : Hook DeliveryStatus :=
  ctx ← new_context event_type (wk_secret hook);
  deliver_with_context hook ctx payload c.

(** src/src/webhooks/retry.rs:371-401 replay_dlq_entry *)
Definition replay_dlq_entry (dlq_id : string) (c : WebhookRetryConfig) : Hook DeliveryStatus :=
  found ← sql (fun w => (head (filter (fun d => dl_id d = dlq_id) (wh_dlq w)), w));
  entry ← expect SqlxRowNotFound found;
  hook ← get_webhook (dl_webhook_id entry);
  hook ← expect SqlxRowNotFound hook;
  ctx ← new_context (dl_event_type entry) (wk_secret hook);
  let ctx := {| delivery_id := dl_delivery_id entry; ctx_event_type := ctx_event_type ctx;
                secrets := secrets ctx |} in
  status ← deliver_with_context hook ctx (dl_payload entry) c;
  if ds_success status then
    _ ← sql (fun w => (tt, set_tables (wh_hooks w) (wh_secrets w) (wh_logs w)
                            (filter (fun d => dl_id d <> dlq_id) (wh_dlq w)) w));
    mret status
  else mret status.

(** One webhook of an event.

    src/src/webhooks/mod.rs:312-345 the task of trigger_webhooks for one webhook *)
Definition dispatch (hook : Webhook) (event_type : string) (event_value : string) : Hook DeliveryStatus :=
  r ← attempt (E' := sqlx_error) (active_secrets (wk_id hook));
  let ss := match r with Ok (s :: ss) => s :: ss | _ => [wk_secret hook] end in
  ctx ← new_context event_type (hd "" ss);
  let ctx := if (1 <? length ss)%nat
             then {| delivery_id := delivery_id ctx; ctx_event_type := ctx_event_type ctx; secrets := ss |}
             else ctx in
  deliver_with_context hook ctx event_value webhook_retry_default.

End webhooks.

(** ** Lemmas on signatures *)

Lemma byte_inj x y : byte x = byte y -> x = y.
Proof.
  unfold byte. intros Heq. apply N2Z.inj in Heq.
  rewrite <- (ascii_N_embedding x), <- (ascii_N_embedding y). by rewrite Heq.
Qed.

Lemma bytes_diff_zero d a b :
  0 <= d -> slength a = slength b -> bytes_diff d a b = 0 <-> d = 0 /\ a = b.
Proof.
  revert d b. induction a as [| x a IH]; intros d [| y b] Hd Hlen; simpl in *; try done.
  - naive_solver.
  - assert (0 <= Z.lor d (Z.lxor (byte x) (byte y))) as Hnn.
    { pose proof (byte_range x). pose proof (byte_range y).
      apply Z.lor_nonneg. split; [done |]. apply Z.lxor_nonneg. lia. }
    rewrite IH by (done || lia). rewrite Z.lor_eq_0_iff, Z.lxor_eq_0_iff. split.
    + intros [[-> Hb] ->]. apply byte_inj in Hb as ->. done.
    + intros [-> [= -> ->]]. done.
Qed.

Lemma constant_time_eq_spec a b : constant_time_eq a b = true <-> a = b.
Proof.
  unfold constant_time_eq. destruct (slength a =? slength b)%nat eqn:Hlen; simpl.
  - apply Nat.eqb_eq in Hlen. rewrite Z.eqb_eq, bytes_diff_zero by (done || lia). naive_solver.
  - apply Nat.eqb_neq in Hlen. split; [done | intros ->; done].
Qed.

Lemma parse_v1 ts acc vs :
  Forall (fun v => all_chars is_hexdigit v = true) vs ->
  fold_left parse_part (map (fun v => "v1=" +:+ v) vs) (ts, acc) = (ts, (acc ++ vs)%list).
Proof.
  intros Hv. revert acc. induction Hv as [| v vs Hhex Hv IH]; intros acc; simpl; [by rewrite app_nil_r |].
  unfold parse_part at 2.
  assert (trim ("v1=" +:+ v) = "v1=" +:+ v) as Htrim.
  { apply trim_all_visible. rewrite all_chars_app. simpl.
    eapply all_chars_impl; [apply hexdigit_visible | done]. }
  rewrite Htrim. simpl. rewrite IH. by rewrite <- app_assoc.
Qed.

Lemma print_Z_digits n : 0 <= n -> all_chars is_digit (print_Z n) = true.
Proof. intros Hn. by destruct (print_Z_spec n Hn) as (? & ? & ?). Qed.

Section hmac.
Variable hmac_hex : string -> string -> string.
Hypothesis hmac_is_hex : forall k m, all_chars is_hexdigit (hmac_hex k m) = true.

Lemma lacks_comma_hex v : all_chars is_hexdigit v = true -> lacks ","%char v = true.
Proof. apply all_chars_impl. intros c Hc. by rewrite (hexdigit_not_comma c Hc). Qed.

Lemma lacks_comma_digits v : all_chars is_digit v = true -> lacks ","%char v = true.
Proof. apply all_chars_impl. intros c Hc. by rewrite (digit_not_comma c Hc). Qed.

Lemma parse_built secrets body ts :
  0 <= ts <= u64_max ->
  parse_signature_header (build_signature_header_at hmac_hex secrets body ts)
  = Some {| ps_timestamp := ts; ps_v1_values := map (fun s => compute_v1 hmac_hex s ts body) secrets |}.
Proof.
  intros Hts. unfold parse_signature_header, build_signature_header_at.
  assert (all_chars is_digit (print_Z ts) = true) as Hdig by (apply print_Z_digits; lia).
  rewrite (split_on_join ","%char); [| done |].
  2: { constructor.
       - unfold lacks. simpl. by apply lacks_comma_digits.
       - apply Forall_map, Forall_true. intros s. unfold lacks. simpl. apply lacks_comma_hex, hmac_is_hex. }
  cbn [fold_left]. unfold parse_part at 2.
  assert (trim ("t=" +:+ print_Z ts) = "t=" +:+ print_Z ts) as Htrim.
  { apply trim_all_visible. rewrite all_chars_app. simpl.
    eapply all_chars_impl; [apply digit_visible | done]. }
  rewrite Htrim. simpl strip_prefix. cbv iota. cbn [snd].
  rewrite <- (map_map (fun s => compute_v1 hmac_hex s ts body) (fun v => "v1=" +:+ v)).
  change ("" +:+ print_Z ts) with (print_Z ts). rewrite parse_u64_print, parse_v1 by
    (lia || (apply Forall_map, Forall_true; intros s; apply hmac_is_hex)).
  done.
Qed.
End hmac.

Lemma in_window ts now tol : 0 <= tol ->
  (tol <? u64_saturating_sub now ts) || (tol <? u64_saturating_sub ts now) = false
  <-> now - tol <= ts <= now + tol.
Proof.
  intros Htol. unfold u64_saturating_sub.
  rewrite orb_false_iff, !Z.ltb_ge. lia.
Qed.

(** ** Properties *)

(** A signature built for any set of active secrets verifies under each of
    them, at every moment within the tolerance of its timestamp. *)
Lemma signature_round_trip hmac_hex secrets secret body ts tol now :
  (forall k m, all_chars is_hexdigit (hmac_hex k m) = true) ->
  0 <= ts <= u64_max -> 0 <= tol -> now - tol <= ts <= now + tol -> secret ∈ secrets ->
  verify_signature_at hmac_hex (build_signature_header_at hmac_hex secrets body ts) body secret tol now
  = Ok tt.
Proof.
  intros Hhex Hts Htol Hwin Hin. unfold verify_signature_at. rewrite (parse_built _ Hhex) by done.
  cbn [ps_timestamp ps_v1_values]. rewrite (proj2 (in_window ts now tol Htol) Hwin).
  destruct (map _ secrets) as [| v vs] eqn:Hmap.
  { destruct secrets; [by apply elem_of_nil in Hin | done]. }
  rewrite <- Hmap.
  assert (existsb (fun v => constant_time_eq v (compute_v1 hmac_hex secret ts body))
            (map (fun s => compute_v1 hmac_hex s ts body) secrets) = true) as ->; [| done].
  apply existsb_exists. eexists. split; [| by apply constant_time_eq_spec].
  apply in_map_iff. exists secret. split; [done |]. by apply list_elem_of_In.
Qed.

Lemma signature_round_trip_witness :
  verify_signature_at (fun k m => if bool_decide (k = "old") then "0a1b" else "ff")
    (build_signature_header_at (fun k m => if bool_decide (k = "old") then "0a1b" else "ff")
       ["new"; "old"] "body" 1715000000) "body" "old" 300 1715000299 = Ok tt.
Proof.
  apply signature_round_trip; [| unfold u64_max; lia | lia | lia | set_solver].
  intros k m. by case_bool_decide.
Defined.

(** C6: Nothing else verifies: acceptance means that the header carries a timestamp
    within the tolerance, and the HMAC of that timestamp and this body under
    the secret among its [v1] values. *)
Lemma signature_sound hmac_hex header body secret tol now :
  0 <= tol ->
  verify_signature_at hmac_hex header body secret tol now = Ok tt <->
  exists p, parse_signature_header header = Some p /\
    now - tol <= ps_timestamp p <= now + tol /\
    hmac_hex secret (print_Z (ps_timestamp p) +:+ "." +:+ body) ∈ ps_v1_values p.
Proof.
  intros Htol. unfold verify_signature_at.
  destruct (parse_signature_header header) as [[ts vs] |]; [| naive_solver]. cbn [ps_timestamp ps_v1_values].
  destruct (_ || _) eqn:Hwin.
  { split; [done |]. intros (p & [= <-] & Hin & _). apply (in_window ts now tol Htol) in Hin.
    simpl in Hin. congruence. }
  apply (in_window ts now tol Htol) in Hwin.
  assert (existsb (fun v => constant_time_eq v (compute_v1 hmac_hex secret ts body)) vs = true <->
          hmac_hex secret (print_Z ts +:+ "." +:+ body) ∈ vs) as Hex.
  { rewrite existsb_exists. split.
    - intros (v & Hv & Heq). apply constant_time_eq_spec in Heq as ->. by apply list_elem_of_In.
    - intros Hv. eexists. split; [by apply list_elem_of_In | by apply constant_time_eq_spec]. }
  destruct vs as [| v vs].
  { split; [done |]. intros (p & [= <-] & _ & Hv). by apply elem_of_nil in Hv. }
  destruct (existsb _ _); split; try done.
  - intros _. eexists. split; [reflexivity |]. split; [done |]. by apply Hex.
  - intros (p & [= <-] & _ & Hv). exfalso. apply Hex in Hv. discriminate.
Qed.

Lemma signature_sound_witness :
  verify_signature_at (fun k m => "ab") "t=100,v1=ab" "body" "s" 300 401 <> Ok tt.
Proof.
  intros Hok.
  apply (signature_sound (fun k m => "ab") "t=100,v1=ab" "body" "s" 300 401 ltac:(lia)) in Hok
    as (p & Hp & Hwin & _).
  vm_compute in Hp. injection Hp as <-. simpl in Hwin. lia.
Defined.

(** ** Lemmas on deliveries *)

Section deliveries.
Variable hmac_hex : string -> string -> string.
Variable uuid : nat -> string.
Variable nanos : Z -> Z.
Variable index : bool.

(** Steps that neither send nor touch the dead-letter queue. *)
Definition quiet (w w' : WebhookWorld) : Prop :=
  wh_sent w' = wh_sent w /\ wh_dlq w' = wh_dlq w /\ (wh_faults w = [] -> wh_faults w' = []).

Lemma hook_quiet_trans a b c : quiet a b -> quiet b c -> quiet a c.
Proof. unfold quiet. intros (-> & -> & ?) (-> & -> & ?). auto. Qed.

Lemma log_quiet l w : exists r w', attempt (E' := sqlx_error) (log_delivery l) w = (Ok r, w') /\ quiet w w'.
Proof.
  unfold attempt, log_delivery, sql, remote. simpl. destruct (wh_faults w) as [| [] fl] eqn:Hf; simpl;
    eexists _, _; (split; [reflexivity |]); unfold quiet; simpl; split_and!; congruence || done.
Qed.

Lemma before_quiet a hook c w : exists b w', before_attempt nanos a hook c w = (Ok b, w') /\ quiet w w'.
Proof.
  unfold before_attempt. destruct (0 <? a); [| by exists false, w].
  eexists _, _. split; [reflexivity |]. by split_and!.
Qed.

(** A request of this delivery. *)
Definition carries (hook : Webhook) (ctx : DeliveryContext) (payload : string) (s : Sent) : Prop :=
  st_url s = wk_url hook /\ st_delivery_id s = delivery_id ctx /\
  st_event_type s = ctx_event_type ctx /\ st_body s = payload /\
  st_signature s = build_signature_header_at hmac_hex (secrets ctx) payload (st_time s / 1000).

(** What the loop did: the requests it sent, oldest last. *)
Definition sends (hook : Webhook) (ctx : DeliveryContext) (payload : string) (limit : nat)
    (w w' : WebhookWorld) (n : nat) : Prop :=
  exists sent, wh_sent w' = (sent ++ wh_sent w)%list /\ length sent = n /\ (n <= limit)%nat /\
    Forall (carries hook ctx payload) sent.

Lemma attempts_loop_spec left a hook ctx payload c e w :
  exists out w' n, attempts_loop hmac_hex nanos left a hook ctx payload c e w = (Ok out, w') /\
    sends hook ctx payload left w w' n /\ wh_dlq w' = wh_dlq w /\
    (wh_faults w = [] -> wh_faults w' = []) /\
    match out with
    | Ok st => ds_success st = true /\ ds_attempts st = a + Z.of_nat n /\ (0 < n)%nat /\
               ds_delivery_id st = delivery_id ctx
    | Err _ => True
    end.
Proof.
  revert a e w. induction left as [| left IH]; intros a e w.
  { exists (Err e), w, 0%nat. split_and!; try done. exists []. by split_and!. }
  cbn [attempts_loop]. destruct (before_quiet a hook c w) as (b & w1 & Hb & Hs1 & Hd1 & Hf1).
  rewrite (bind_ok _ _ _ _ _ Hb). destruct b.
  { eexists (Err _), w1, 0%nat. split; [reflexivity |]. split_and!; try done. exists []. rewrite Hs1. split_and!; by auto with lia. }
  destruct (send_webhook hmac_hex (wk_url hook) ctx payload w1) as [[reply |] w2] eqn:Hsend;
    [| unfold send_webhook in Hsend; by destruct (wh_replies w1) as [| [? ?] ?]].
  assert (exists s, wh_sent w2 = s :: wh_sent w1 /\ carries hook ctx payload s /\
                    wh_dlq w2 = wh_dlq w1 /\ wh_faults w2 = wh_faults w1) as (s & Hs2 & Hc & Hd2 & Hf2).
  { unfold send_webhook in Hsend. destruct (wh_replies w1) as [| [? ?] ?]; injection Hsend as _ <-;
      eexists; by split_and!. }
  rewrite (bind_ok _ _ _ _ _ Hsend). destruct reply as [status | e'].
  - match goal with |- context [(log_delivery ?l)] =>
      destruct (log_quiet l (snd (metric "WEBHOOK_DELIVERIES_TOTAL success"
        (snd (set_circuit (wk_url hook) record_success w2))))) as (r & w3 & Hlog & Hs3 & Hd3 & Hf3) end.
    simpl in Hs3, Hd3, Hf3.
    eexists _, w3, 1%nat. split.
    { unfold mbind at 1, M_bind at 1. simpl. unfold mbind at 1, M_bind at 1. simpl.
      rewrite (bind_ok _ _ _ _ _ Hlog). reflexivity. }
    split_and!; try done; try lia; [| congruence | rewrite Hf2 in Hf3; auto].
    exists [s]. rewrite Hs3, Hs2, Hs1. split_and!; [done | done | lia | by constructor].
  - unfold mbind, M_bind. simpl.
    match goal with |- context [attempts_loop _ _ left ?a' hook ctx payload c e' ?x] =>
      destruct (IH a' e' x) as (out & w' & n & Hrun & (sent & Hs & Hlen & Hle & Hall) & Hd & Hf & Hout) end.
    rewrite Hrun. exists out, w', (S n). simpl in Hs, Hd, Hf.
    split_and!; [done | | congruence | intros H0; apply Hf; rewrite Hf2; auto |].
    + exists (sent ++ [s])%list. rewrite Hs, Hs2, Hs1, <- app_assoc, length_app, Forall_app.
      split_and!; [done | simpl; lia | lia | done | by constructor].
    + destruct out; [| done]. destruct Hout as (? & ? & ? & ?). split_and!; [done | lia | lia | done].
Qed.
End deliveries.

(** The dead letters of a delivery. *)
Definition parked (id : string) (w : WebhookWorld) : list DeadLetterEntry :=
  filter (fun d => dl_delivery_id d = id) (wh_dlq w).

Section dead_letters.
Variable hmac_hex : string -> string -> string.
Variable uuid : nat -> string.
Variable nanos : Z -> Z.
Variable index : bool.

Definition same_sent (w w' : WebhookWorld) : Prop :=
  wh_sent w' = wh_sent w /\ (wh_faults w = [] -> wh_faults w' = []).

Lemma parked_update id (f : DeadLetterEntry -> DeadLetterEntry) l :
  (forall d, dl_delivery_id (f d) = dl_delivery_id d) ->
  filter (fun d => dl_delivery_id d = id)
    (map (fun d => if bool_decide (dl_delivery_id d = id) then f d else d) l)
  = map f (filter (fun d => dl_delivery_id d = id) l).
Proof.
  intros Hf. induction l as [| d l IH]; [done |]. cbn [map]. case_bool_decide as Hd.
  - rewrite !filter_cons_True by (rewrite ?Hf; done). cbn [map]. by f_equal.
  - by rewrite !filter_cons_False by done.
Qed.

Lemma move_to_dlq_spec wid id ev p e n w :
  exists r w', attempt (E' := sqlx_error) (move_to_dlq uuid index wid id ev p e n) w = (Ok r, w') /\
    same_sent w w' /\ (index = false -> wh_dlq w' = wh_dlq w) /\
    (index = true -> wh_faults w = [] -> (length (parked id w) <= 1)%nat ->
       exists d, parked id w' = [d] /\ dl_last_error d = e /\ dl_attempts d = n).
Proof.
  unfold attempt, move_to_dlq, sql, remote, mbind, M_bind. simpl. destruct index.
  - destruct (wh_faults w) as [| [] fl] eqn:Hf; simpl;
      eexists _, _; (split; [reflexivity |]); unfold same_sent; simpl;
      (split; [split; [done | congruence] |]); (split; [done |]); try (intros _ ?; congruence).
    intros _ _ Hlen. unfold parked in *. simpl.
    destruct (existsb _ (wh_dlq w)) eqn:Hex.
    + rewrite parked_update by done.
      apply existsb_exists in Hex as (d & Hd & Heq%bool_decide_eq_true).
      destruct (filter _ (wh_dlq w)) as [| d0 [| ? ?]] eqn:Hfil; simpl in Hlen; [| | lia].
      * assert (d ∈ filter (fun d => dl_delivery_id d = id) (wh_dlq w)) as Hin.
        { apply list_elem_of_filter. split; [done | by apply list_elem_of_In]. }
        rewrite Hfil in Hin. by apply elem_of_nil in Hin.
      * eexists. split; [reflexivity |]. by split.
    + rewrite filter_cons_True by done. rewrite filter_none; [eexists; split; [reflexivity | by split] |].
      intros d Hd Heq.
      enough (existsb (fun d => bool_decide (dl_delivery_id d = id)) (wh_dlq w) = true) by congruence.
      apply existsb_exists. exists d. split; [by apply list_elem_of_In | by apply bool_decide_eq_true].
  - destruct (wh_faults w) as [| [] fl] eqn:Hf; simpl;
      eexists _, _; (split; [reflexivity |]); unfold same_sent; simpl;
      (split; [split; [done | congruence] |]); by split.
Qed.

Lemma sends_same hook ctx p limit w w1 w2 n :
  wh_sent w1 = wh_sent w2 -> sends hmac_hex hook ctx p limit w w1 n -> sends hmac_hex hook ctx p limit w w2 n.
Proof. intros Heq (sent & Hs & ?). exists sent. by rewrite <- Heq. Qed.
End dead_letters.

Section deliver.
Variable hmac_hex : string -> string -> string.
Variable uuid : nat -> string.
Variable nanos : Z -> Z.
Variable index : bool.

(** The failed status and what it leaves in the queue. *)
Definition parks (id : string) (w w' : WebhookWorld) (st : DeliveryStatus) : Prop :=
  ds_success st = false /\ ds_delivery_id st = id /\
  (index = false -> wh_dlq w' = wh_dlq w) /\
  (index = true -> wh_faults w = [] -> (length (parked id w) <= 1)%nat ->
     exists d, parked id w' = [d] /\ ds_last_error st = Some (dl_last_error d)).

Lemma skip_spec hook ctx p w : exists st w',
  skip_delivery uuid index hook ctx p w = (Ok st, w') /\ wh_sent w' = wh_sent w /\
  parks (delivery_id ctx) w w' st.
Proof.
  unfold skip_delivery.
  match goal with |- context [move_to_dlq _ _ ?wid ?id ?ev p ?msg ?n] =>
    destruct (move_to_dlq_spec uuid index wid id ev p msg n w) as (r & w' & Hm & [Hs _] & Hno & Hyes) end.
  rewrite (bind_ok _ _ _ _ _ Hm). eexists _, _. split; [reflexivity |]. split; [done |].
  split_and!; try done. intros Hi Hf Hl. destruct (Hyes Hi Hf Hl) as (d & Hp & He & _).
  exists d. split; [done |]. by rewrite He.
Qed.

Lemma park_delivery_spec hook ctx p c e w : exists st w',
  park_delivery uuid index hook ctx p c e w = (Ok st, w') /\ wh_sent w' = wh_sent w /\
  parks (delivery_id ctx) w w' st.
Proof.
  unfold park_delivery.
  assert (exists w0, metric "WEBHOOK_DLQ_TOTAL" w = (Ok tt, w0) /\ wh_sent w0 = wh_sent w /\
    wh_dlq w0 = wh_dlq w /\ wh_faults w0 = wh_faults w) as (w0 & H0 & Hs0 & Hd0 & Hf0)
    by (eexists; by split_and!).
  rewrite (bind_ok _ _ _ _ _ H0).
  match goal with |- context [move_to_dlq _ _ ?wid ?id ?ev p ?msg ?n] =>
    destruct (move_to_dlq_spec uuid index wid id ev p msg n w0) as (r & w1 & Hm & [Hs _] & Hno & Hyes) end.
  rewrite (bind_ok _ _ _ _ _ Hm).
  match goal with |- context [log_delivery ?l] => destruct (log_quiet l w1) as (r2 & w2 & Hl & Hs2 & Hd2 & _) end.
  rewrite (bind_ok _ _ _ _ _ Hl). eexists _, _. split; [reflexivity |]. split; [congruence |].
  unfold parked in *. rewrite Hd0, Hf0 in *.
  split_and!; try done; unfold parked; rewrite Hd2; [done |].
  intros Hi Hf Hlen. destruct (Hyes Hi Hf Hlen) as (d & Hp & He & _). exists d. split; [done |]. by rewrite He.
Qed.

Lemma deliver_spec hook ctx p c w r w' :
  deliver_with_context hmac_hex uuid nanos index hook ctx p c w = (r, w') ->
  exists st n, r = Ok st /\ sends hmac_hex hook ctx p (Z.to_nat (max_attempts c)) w w' n /\
    ((ds_success st = true /\ ds_delivery_id st = delivery_id ctx /\ ds_attempts st = Z.of_nat n /\
      (0 < n)%nat /\ wh_dlq w' = wh_dlq w) \/ parks (delivery_id ctx) w w' st).
Proof.
  unfold deliver_with_context.
  assert (exists w1, get_or_create_circuit (wk_url hook) c w = (Ok tt, w1) /\ wh_sent w1 = wh_sent w /\
            wh_dlq w1 = wh_dlq w /\ wh_faults w1 = wh_faults w) as (w1 & Hget & Hs1 & Hd1 & Hf1).
  { unfold get_or_create_circuit, modify. destruct (wh_circuits w !! wk_url hook); eexists; by split_and!. }
  rewrite (bind_ok _ _ _ _ _ Hget).
  assert (exists blocked, circuit_open (wk_url hook) w1 = (Ok blocked, w1)) as [blocked Hopen] by by eexists.
  rewrite (bind_ok _ _ _ _ _ Hopen).
  assert (forall st w2, parks (delivery_id ctx) w1 w2 st -> parks (delivery_id ctx) w w2 st) as Hback.
  { unfold parks, parked. intros st w2. by rewrite Hd1, Hf1. }
  destruct blocked.
  { destruct (skip_spec hook ctx p w1) as (st & w2 & Hskip & Hs2 & Hp). rewrite Hskip.
    intros [= <- <-]. exists st, 0%nat. split; [done |]. split; [| right; by apply Hback].
    exists []. rewrite Hs2, Hs1. split_and!; by auto with lia. }
  destruct (attempts_loop_spec hmac_hex nanos (Z.to_nat (max_attempts c)) 0 hook ctx p c "" w1)
    as (out & w2 & n & Hrun & (sent & Hs & Hrest) & Hd2 & Hf2 & Hout).
  rewrite (bind_ok _ _ _ _ _ Hrun). rewrite Hs1 in Hs. destruct out as [st | e].
  { intros [= <- <-]. destruct Hout as (Hok & Hn & Hpos & Hid). exists st, n. split; [done |].
    split; [by exists sent |]. left. split_and!; try done; congruence. }
  destruct (park_delivery_spec hook ctx p c e w2) as (st & w3 & Hg & Hs3 & Hp). rewrite Hg.
  intros [= <- <-]. exists st, n. split; [done |]. split; [exists sent; by rewrite Hs3 |].
  right. apply Hback. unfold parks, parked in *. rewrite Hd2 in Hp. naive_solver.
Qed.
End deliver.

(** A delivery always returns a status, after at most [max_attempts] requests;
    all of them go to the same URL with the same delivery id, event type and
    body, each signed at the time it is sent under every active secret.  It
    reports success after exactly the number of attempts it counts, with
    nothing parked. *)
Lemma delivery_attempts hmac_hex uuid nanos index hook ctx p c w r w' :
  deliver_with_context hmac_hex uuid nanos index hook ctx p c w = (r, w') ->
  exists st sent, r = Ok st /\ wh_sent w' = (sent ++ wh_sent w)%list /\
    (length sent <= Z.to_nat (max_attempts c))%nat /\
    Forall (fun s => st_url s = wk_url hook /\ st_delivery_id s = delivery_id ctx /\
                     st_event_type s = ctx_event_type ctx /\ st_body s = p /\
                     st_signature s = build_signature_header_at hmac_hex (secrets ctx) p (st_time s / 1000))
      sent /\
    ds_delivery_id st = delivery_id ctx /\
    (ds_success st = true ->
       ds_attempts st = Z.of_nat (length sent) /\ (0 < length sent)%nat /\ wh_dlq w' = wh_dlq w).
Proof.
  intros Hrun. apply deliver_spec in Hrun as (st & n & -> & (sent & Hs & Hlen & Hle & Hall) & Hcase).
  exists st, sent. rewrite Hlen. split_and!; try done.
  - by destruct Hcase as [(_ & ? & _) | (_ & ? & _)].
  - destruct Hcase as [(_ & _ & ? & ? & ?) | (Hf & _)]; [done |]. by rewrite Hf.
Qed.

Definition demo_hook : Webhook :=
  {| wk_id := "h"; wk_url := "https://e"; wk_secret := "s"; wk_enabled := true; wk_events := ["tip"];
     wk_created_at := 0; wk_updated_at := 0 |}.

Definition demo_world (replies : list (result Z string * Z)) : WebhookWorld :=
  {| wh_hooks := {["h" := demo_hook]}; wh_secrets := []; wh_logs := []; wh_dlq := [];
     wh_circuits := ∅; wh_now := 1000000; wh_uuids := 0; wh_faults := []; wh_replies := replies;
     wh_sent := []; wh_metrics := [] |}.

Definition demo_ctx : DeliveryContext :=
  {| delivery_id := "d"; ctx_event_type := "tip"; secrets := ["s"] |}.

Lemma delivery_attempts_witness :
  exists st (sent : list Sent), fst (deliver_with_context (fun _ _ => "ab") (fun n => print_Z (Z.of_nat n)) (fun _ => 7) true
      demo_hook demo_ctx "{}" webhook_retry_default (demo_world [(Ok 500, 20); (Ok 204, 30)]))
    = Ok st /\ ds_attempts st = Z.of_nat (length sent) /\ length sent = 2%nat.
Proof.
  destruct (deliver_with_context (fun _ _ => "ab") (fun n => print_Z (Z.of_nat n)) (fun _ => 7) true
      demo_hook demo_ctx "{}" webhook_retry_default (demo_world [(Ok 500, 20); (Ok 204, 30)]))
    as [r w'] eqn:Hrun.
  destruct (delivery_attempts _ _ _ _ _ _ _ _ _ _ _ Hrun) as (st & sent & -> & Hs & _ & _ & _ & Hok).
  exists st, sent. vm_compute in Hrun. injection Hrun as <- <-.
  split; [reflexivity |]. destruct (Hok eq_refl) as (Hn & _). split; [exact Hn |].
  cbn [wh_sent demo_world] in Hs. rewrite app_nil_r in Hs. by rewrite <- Hs.
Defined.

(** A failed delivery is parked exactly once in the dead-letter queue, under
    its delivery id and with its last error, when Postgres can use the unique
    index on [delivery_id]; when it cannot infer it, the delivery is lost: the
    queue is as before and the caller is told of nothing. *)
Lemma failed_delivery_parked hmac_hex uuid nanos index hook ctx p c w st w' :
  deliver_with_context hmac_hex uuid nanos index hook ctx p c w = (Ok st, w') ->
  ds_success st = false -> wh_faults w = [] -> (length (parked (delivery_id ctx) w) <= 1)%nat ->
  if index then exists d, parked (delivery_id ctx) w' = [d] /\ ds_last_error st = Some (dl_last_error d)
  else wh_dlq w' = wh_dlq w.
Proof.
  intros Hrun Hfail Hf Hlen.
  apply deliver_spec in Hrun as (st' & n & [= <-] & _ & [(Hok & _) | (_ & _ & Hno & Hyes)]); [congruence |].
  destruct index; [by apply Hyes | by apply Hno].
Qed.

Lemma failed_delivery_parked_witness :
  exists d st, fst (deliver_with_context (fun _ _ => "ab") (fun n => print_Z (Z.of_nat n)) (fun _ => 7) true
      demo_hook demo_ctx "{}" webhook_retry_default (demo_world [])) = Ok st /\
    parked "d" (snd (deliver_with_context (fun _ _ => "ab") (fun n => print_Z (Z.of_nat n)) (fun _ => 7) true
      demo_hook demo_ctx "{}" webhook_retry_default (demo_world []))) = [d].
Proof.
  destruct (deliver_with_context (fun _ _ => "ab") (fun n => print_Z (Z.of_nat n)) (fun _ => 7) true
      demo_hook demo_ctx "{}" webhook_retry_default (demo_world [])) as [[st |] w'] eqn:Hrun;
    [| vm_compute in Hrun; discriminate].
  destruct (failed_delivery_parked (fun _ _ => "ab") (fun n => print_Z (Z.of_nat n)) (fun _ => 7) true
    demo_hook demo_ctx "{}" webhook_retry_default (demo_world []) st w' Hrun) as (d & Hd & _).
  - vm_compute in Hrun. injection Hrun as <- _. reflexivity.
  - reflexivity.
  - apply Nat.le_0_l.
  - exists d, st. split; [reflexivity | exact Hd].
Defined.

(** Run the first action of a sequence on an explicit world. *)
Ltac run_hook :=
  match goal with |- context [@mbind ?M ?i ?A ?B ?k ?m ?w] =>
    let r := eval cbv beta iota zeta delta [sql remote next_fault WebhookWorld_networked pop_fault
      set_tables generate_secret new_uuid fst snd wh_hooks wh_secrets wh_logs wh_dlq wh_circuits
      wh_now wh_uuids wh_faults wh_replies wh_sent wh_metrics] in (m w) in
    match r with (Ok ?a, ?w') => change (@mbind M i A B k m w) with (k a w'); cbv beta end
  end.

(** The first rotation of a webhook's secret has no overlap: a webhook has no
    row in [webhook_secrets] until it is rotated, and the rotation records only
    the new secret there, so deliveries are signed with the new secret alone
    while the caller is handed the old one as still retiring. *)
Lemma first_rotation_no_overlap uuid fresh_secret id hook retain w :
  wh_faults w = [] -> wh_hooks w !! id = Some hook ->
  (forall s, s ∈ wh_secrets w -> ws_webhook_id s <> id) -> 1 <= retain ->
  exists new w', rotate_secret uuid fresh_secret id retain w = (Ok (new, Some (wk_secret hook)), w') /\
    new = fresh_secret (wh_uuids w) /\ fst (active_secrets id w') = Ok [new].
Proof.
  destruct w as [hooks ss logs dlq cs now n fl reps sent ms]. cbn [wh_faults wh_hooks wh_secrets wh_uuids].
  intros -> Hhook Hnone Hretain.
  set (s := {| ws_id := uuid (S n); ws_webhook_id := id; ws_secret := fresh_secret n;
               ws_is_primary := true; ws_created_at := now |}).
  unfold rotate_secret. do 7 run_hook. rewrite Hhook.
  eexists _, _. split; [reflexivity |]. split; [reflexivity |]. fold s.
  assert (map (fun s => if bool_decide (ws_webhook_id s = id /\ ws_secret s <> fresh_secret n)
                        then set_primary false s else s) (s :: ss) = s :: ss) as ->.
  { cbn [map]. rewrite bool_decide_false by naive_solver. f_equal.
    clear -Hnone. induction ss as [| x ss IH]; [done |]. cbn [map]. rewrite IH by set_solver.
    rewrite bool_decide_false; [done |]. intros [Hx _]. apply (Hnone x); set_solver. }
  unfold newest_secrets.
  rewrite (filter_cons_True (fun s => ws_webhook_id s = id)), (filter_none (fun s => ws_webhook_id s = id) ss)
    by done.
  replace (Z.to_nat retain) with (S (Z.to_nat (retain - 1))) by lia. cbn [sort_by insert_by take map].
  unfold active_secrets. run_hook.
  rewrite filter_cons_True by (right; apply elem_of_cons; by left).
  rewrite (filter_cons_True (fun s => ws_webhook_id s = id)) by done.
  rewrite (filter_none (fun x => ws_webhook_id x = id)); [reflexivity |].
  intros x Hx. apply list_elem_of_filter in Hx as [_ Hx]. auto.
Qed.

Lemma first_rotation_no_overlap_witness :
  exists new w', rotate_secret (fun n => print_Z (Z.of_nat n)) (fun n => "s" +:+ print_Z (Z.of_nat n)) "h" 2
                   (demo_world []) = (Ok (new, Some "s"), w') /\
    new = "s0" /\ fst (active_secrets "h" w') = Ok [new].
Proof.
  apply (first_rotation_no_overlap (fun n => print_Z (Z.of_nat n)) (fun n => "s" +:+ print_Z (Z.of_nat n))
    "h" demo_hook 2 (demo_world [])); [reflexivity | reflexivity | | lia].
  intros s Hs. by apply elem_of_nil in Hs.
Defined.
