(* ===== verification/StellarService.v ===== *)
(** * StellarService: what Horizon says about a transaction

    src/src/services/stellar_service.rs: the Horizon responses, the fee, the
    account lookup, the transaction and operation lookups with their retries
    and the shared circuit breaker, and the verification of a tip.

    Horizon is outside the repository: its replies are functions of the number
    of the call and of the resource, so that every call may be answered
    differently.  A reply is a failure to send, or a status with the
    [Retry-After] header and the body as serde decodes it ([None] when it does
    not decode).  Time is in nanoseconds; the breaker counts seconds.

    The trait [TipVerifier] is a class, and [VerifierSound] states what the
    tip pipeline relies on: a confirmed request has its evidence.  The service
    discharges both. *)

From S2P Require Import Prelude Text Errors Amount Resilience.

(** ** Horizon's replies *)

(** src/src/services/stellar_service.rs:36-51 HorizonTransactionResponse *)
Record HorizonTransactionResponse : Type := {
  tx_id : string;
  tx_hash : string;
  successful : bool;
  tx_source_account : string;
  tx_memo : option string;
  tx_memo_type : option string
}.

(** src/src/services/stellar_service.rs:53-68 HorizonOperation *)
Record HorizonOperation : Type := {
  op_type : string;
  op_to : option string;
  op_amount : option string;
  op_asset_type : option string
}.

(** src/src/services/stellar_service.rs:82-92 HorizonFeeStats *)
Record HorizonFeeStats : Type := {
  last_ledger_base_fee : option string;
  fee_charged_p99 : option (option string)
}.

(** src/src/services/stellar_service.rs:102-108 HorizonBalance *)
Record HorizonBalance : Type := {
  bal_asset_type : string;
  balance : string;
  selling_liabilities : option string
}.

(** src/src/services/stellar_service.rs:94-100 HorizonAccountResponse *)
Record HorizonAccountResponse : Type := {
  account_id : string;
  subentry_count : Z;
  balances : list HorizonBalance
}.

(** An HTTP exchange. *)
Inductive http_reply (B : Type) : Type :=
| SendFailed
| Reply (status : Z) (retry_after : option string) (body : option B).
Arguments SendFailed {B}.
Arguments Reply {B} status retry_after body.

(** ** Verification requests *)

(** src/src/services/stellar_service.rs:112-127 TipVerifyRequest *)
Record TipVerifyRequest : Type := {
  vr_transaction_hash : string;
  vr_amount_stroops : Z;
  vr_destination : string;
  vr_expected_memo : option string;
  vr_source_account : string
}.

(** src/src/services/stellar_service.rs:129-134 VerifyOutcome *)
Inductive VerifyOutcome : Type :=
| Confirmed
| Rejected (reason : string).

#[export] Instance VerifyOutcome_eq_dec : EqDecision VerifyOutcome.
Proof. solve_decision. Defined.

(** src/src/services/stellar_service.rs:136-141 TipVerifier *)
Class TipVerifier (V : Type) : Type := {
  verify_tip : TipVerifyRequest -> M V AppError VerifyOutcome
}.

(** What a verifier promises: it confirms only what has its evidence, and the
    claims it confirmed are those of the request. *)
Class VerifierSound (V : Type) `{TipVerifier V} (evidence : TipVerifyRequest -> Prop) : Prop := {
  confirmed_evidence : forall req v v',
    verify_tip req v = (Ok Confirmed, v') -> evidence req
}.

(** ** The service *)

(** src/src/services/stellar_service.rs:21-21 FEE_FLOOR_STROOPS *)
Definition FEE_FLOOR_STROOPS : Z := 100.

(** src/src/services/stellar_service.rs:23-23 FEE_CEILING_STROOPS *)
Definition FEE_CEILING_STROOPS : Z := 10000.

Section service.
(** Horizon: the reply to the n-th call of the process. *)
Variable get_fee_stats : nat -> http_reply HorizonFeeStats.
Variable get_account : nat -> string -> http_reply HorizonAccountResponse.
Variable get_tx : nat -> string -> http_reply HorizonTransactionResponse.
Variable get_ops : nat -> string -> http_reply (list HorizonOperation).
Variable env : environment.

(** src/src/services/stellar_service.rs:155-166 StellarService *)
Record StellarService : Type := {
  retry_config : RetryConfig;
  circuit_breaker : CircuitBreaker;
  clock : Z;
  horizon_calls : nat
}.

Definition Stellar_ : Type -> Type := M StellarService AppError.

(** src/src/services/stellar_service.rs:169-190 StellarService::new *)
Definition stellar_new (now : Z) : StellarService :=
  {| retry_config := retry_config_default;
     circuit_breaker := cb_from_env_prefixed env "HORIZON";
     clock := now; horizon_calls := O |}.

Definition set_clock (now : Z) (s : StellarService) : StellarService :=
  {| retry_config := retry_config s; circuit_breaker := circuit_breaker s;
     clock := now; horizon_calls := horizon_calls s |}.

Definition set_breaker (cb : CircuitBreaker) (s : StellarService) : StellarService :=
  {| retry_config := retry_config s; circuit_breaker := cb;
     clock := clock s; horizon_calls := horizon_calls s |}.

(** One request: the reply and one more call. *)
Definition send {B} (reply : nat -> http_reply B) : Stellar_ (http_reply B) := fun s =>
  (Ok (reply (horizon_calls s)),
   {| retry_config := retry_config s; circuit_breaker := circuit_breaker s;
      clock := clock s; horizon_calls := S (horizon_calls s) |}).

Definition now_secs (s : StellarService) : Z := clock s / 1000000000.

Definition network_unavailable : AppError := Stellar NetworkUnavailable.

(** src/src/services/stellar_service.rs:221-253 StellarService::fetch_base_fee *)
Definition fetch_base_fee : Stellar_ Z :=
  r ← send get_fee_stats;
  let raw :=
    match r with
    | Reply _ _ (Some stats) =>
        let p99 := match fee_charged_p99 stats with Some (Some p) => Some p | _ => None end in
        match p99 with Some p => Some p | None => last_ledger_base_fee stats end ≫= parse_u64
    | _ => None
    end in
  mret (Z.min FEE_CEILING_STROOPS (Z.max FEE_FLOOR_STROOPS (default FEE_FLOOR_STROOPS raw))).

(** src/src/services/stellar_service.rs:255-300 StellarService::check_account_exists *)
Definition check_account_exists (address : string) : Stellar_ HorizonAccountResponse :=
  r ← send (fun n => get_account n address);
  match r with
  | SendFailed => throw network_unavailable
  | Reply status retry_after body =>
      if status =? 200 then
        expect (invalid "Malformed account response from Horizon") body
      else if status =? 404 then throw (Stellar (DestinationUnfunded address))
      else if status =? 429 then
        let retry := h ← retry_after; v ← header_to_str h; parse_u64 v in
        throw (Stellar (StellarRateLimited (default 60 retry)))
      else throw network_unavailable
  end.

(** src/src/services/stellar_service.rs:408-424 the reading of a transaction reply *)
Definition read_transaction (r : http_reply HorizonTransactionResponse)
    : AppResult (option HorizonTransactionResponse) :=
  match r with
  | SendFailed => Err network_unavailable
  | Reply status _ body =>
      if status =? 200 then result_map Some (ok_or (invalid "Malformed Horizon response") body)
      else if status =? 404 then Ok None
      else if (status =? 429) || ((500 <=? status) && (status <=? 599)) then
        Err network_unavailable
      else Err (invalid ("Unexpected Horizon status: " +:+ print_Z status))
  end.

(** src/src/services/stellar_service.rs:398-426 the attempt of fetch_transaction *)
Definition transaction_attempt (hash : string) : Stellar_ (option HorizonTransactionResponse) :=
  r ← send (fun n => get_tx n hash);
  lift (read_transaction r).

(** [with_retry] on the service: the sleeps pass on the clock. *)
Definition retrying {A} (c : RetryConfig) (op : Stellar_ A) : Stellar_ A := fun s =>
  let '(r, s', sleeps) := with_retry c op s in
  (r, set_clock (clock s' + sumZ sleeps) s').

(** src/src/services/stellar_service.rs:386-395 the retry configuration of fetch_transaction *)
Definition transaction_retry_config : RetryConfig :=
  let retry_delay_ms := default 3000 (env "STELLAR_504_RETRY_DELAY_MS" ≫= parse_u64) in
  {| max_retries := 1; base_delay := retry_delay_ms * 1000000; max_delay := retry_delay_ms * 1000000 |}.

(** src/src/services/stellar_service.rs:372-433 StellarService::fetch_transaction *)
Definition fetch_transaction (hash : string) : Stellar_ (option HorizonTransactionResponse) :=
  allowed ← gets (fun s => allow_request (now_secs s) (circuit_breaker s));
  if negb allowed then throw (Stellar CircuitBreakerOpen)
  else
    result ← attempt (retrying transaction_retry_config (transaction_attempt hash));
    match result with
    | Ok _ => modify (fun s => set_breaker (record_success (circuit_breaker s)) s)
    | Err _ => modify (fun s => set_breaker (record_failure (now_secs s) (circuit_breaker s)) s)
    end;;
    lift result.

(** The reply is the first page of the operations, which the source takes for all
    of them; a transaction with more is judged by this page.

    src/src/services/stellar_service.rs:450-460 the reading of an operations reply *)
Definition read_operations (r : http_reply (list HorizonOperation))
    : AppResult (list HorizonOperation) :=
  match r with
  | SendFailed => Err network_unavailable
  | Reply status _ body =>
      if (200 <=? status) && (status <=? 299) then
        ok_or (invalid "Malformed Horizon operations response") body
      else Err network_unavailable
  end.

(** src/src/services/stellar_service.rs:440-462 the attempt of fetch_operations *)
Definition operations_attempt (hash : string) : Stellar_ (list HorizonOperation) :=
  r ← send (fun n => get_ops n hash);
  lift (read_operations r).

(** src/src/services/stellar_service.rs:435-467 StellarService::fetch_operations *)
Definition fetch_operations (hash : string) : Stellar_ (list HorizonOperation) :=
  c ← gets retry_config;
  retrying c (operations_attempt hash).

(** src/src/services/stellar_service.rs:469-474 StellarService::verify_transaction *)
Definition verify_transaction (transaction_hash : string) : Stellar_ bool :=
  tx ← fetch_transaction transaction_hash;
  mret (match tx with Some t => successful t | None => false end).

(** src/src/services/stellar_service.rs:642-646 the operation the verifier looks for *)
Definition pays_destination (destination : string) (op : HorizonOperation) : bool :=
  String.eqb (op_type op) "payment" &&
  bool_decide (op_asset_type op = Some "native") &&
  bool_decide (op_to op = Some destination).

(** src/src/services/stellar_service.rs:648-671 the amount comparison *)
Definition compare_amount (req : TipVerifyRequest) (matching_payment : option HorizonOperation)
    : AppResult VerifyOutcome :=
  match matching_payment with
  | None =>
      Ok (Rejected ("No native payment to " +:+ vr_destination req +:+ " found in transaction"))
  | Some op =>
      on_chain_stroops ← xlm_to_stroops (default "0" (op_amount op));
      if negb (on_chain_stroops =? vr_amount_stroops req) then
        Ok (Rejected ("Amount mismatch: expected " +:+ print_Z (vr_amount_stroops req) +:+
                      " stroops, on-chain " +:+ print_Z on_chain_stroops))
      else Ok Confirmed
  end.

(** src/src/services/stellar_service.rs:629-637 the memo check *)
Definition memo_mismatch (req : TipVerifyRequest) (tx : HorizonTransactionResponse)
    : option string :=
  match vr_expected_memo req with
  | Some expected =>
      let actual := default "" (tx_memo tx) in
      if negb (String.eqb actual expected)
      then Some ("Memo mismatch: expected '" +:+ expected +:+ "', got '" +:+ actual +:+ "'")
      else None
  | None => None
  end.

(** src/src/services/stellar_service.rs:592-672 verify_tip *)
Definition stellar_verify_tip (req : TipVerifyRequest) : Stellar_ VerifyOutcome :=
  found ← fetch_transaction (vr_transaction_hash req);
  match found with
  | None => mret (Rejected "Transaction not found on Stellar network")
  | Some tx =>
      if negb (successful tx) then
        mret (Rejected "Transaction did not succeed on the Stellar network")
      else if negb (String.eqb (tx_source_account tx) (vr_source_account req)) then
        mret (Rejected ("Source account mismatch: expected " +:+ vr_source_account req +:+
                        ", got " +:+ tx_source_account tx))
      else
        match memo_mismatch req tx with
        | Some reason => mret (Rejected reason)
        | None =>
            operations ← fetch_operations (vr_transaction_hash req);
            lift (compare_amount req (snd <$> list_find (pays_destination (vr_destination req)) operations))
        end
  end.
End service.

(** ** What Horizon reported *)

Section reports.
Variable get_tx : nat -> string -> http_reply HorizonTransactionResponse.
Variable get_ops : nat -> string -> http_reply (list HorizonOperation).
Variable env : environment.

(** Some call was answered with the transaction, or with its absence. *)
Definition tx_reported (hash : string) (o : option HorizonTransactionResponse) : Prop :=
  exists n, read_transaction (get_tx n hash) = Ok o.

Definition ops_reported (hash : string) (ops : list HorizonOperation) : Prop :=
  exists n, read_operations (get_ops n hash) = Ok ops.

(** The transaction succeeded, came from the claimed account and carries the
    expected memo. *)
Definition made_by (req : TipVerifyRequest) (tx : HorizonTransactionResponse) : Prop :=
  successful tx = true /\ tx_source_account tx = vr_source_account req /\
  forall m, vr_expected_memo req = Some m -> default "" (tx_memo tx) = m.

(** [op] is the first native payment of the operations to the destination. *)
Definition first_payment (destination : string) (ops : list HorizonOperation) (op : HorizonOperation)
    : Prop :=
  exists i, ops !! i = Some op /\ pays_destination destination op = true /\
    forall j op', (j < i)%nat -> ops !! j = Some op' -> pays_destination destination op' = false.

(** The amount of an operation, in stroops. *)
Definition op_stroops (op : HorizonOperation) (n : Z) : Prop :=
  decimal_amount (default "0" (op_amount op)) n.

(** Horizon reported everything the request claims. *)
Definition settled (req : TipVerifyRequest) : Prop :=
  exists tx ops op,
    tx_reported (vr_transaction_hash req) (Some tx) /\ made_by req tx /\
    ops_reported (vr_transaction_hash req) ops /\
    first_payment (vr_destination req) ops op /\ op_stroops op (vr_amount_stroops req).

(** Horizon reported something the request contradicts. *)
Definition contradicted (req : TipVerifyRequest) : Prop :=
  tx_reported (vr_transaction_hash req) None \/
  exists tx, tx_reported (vr_transaction_hash req) (Some tx) /\
    (~ made_by req tx \/
     exists ops, ops_reported (vr_transaction_hash req) ops /\
       ((forall op, op ∈ ops -> pays_destination (vr_destination req) op = false) \/
        exists op n, first_payment (vr_destination req) ops op /\ op_stroops op n /\
                     n <> vr_amount_stroops req)).

(** ** Lemmas: calls and retries *)

(** One request whose reply [read] turns into a result. *)
Definition probe {B A} (reply : nat -> http_reply B) (read : http_reply B -> AppResult A)
    : Stellar_ A :=
  r ← send reply; lift (read r).

Definition after_calls (k : nat) (s s' : StellarService) : Prop :=
  horizon_calls s' = (horizon_calls s + k)%nat /\ retry_config s' = retry_config s /\
  circuit_breaker s' = circuit_breaker s.

Lemma probe_run {B A} (reply : nat -> http_reply B) (read : http_reply B -> AppResult A) s :
  probe reply read s = (read (reply (horizon_calls s)), snd (probe reply read s)) /\
  after_calls 1 s (snd (probe reply read s)).
Proof.
  unfold probe, after_calls. run_m. split_and!; try done; simpl; lia.
Qed.

Lemma after_calls_trans i j s s' s'' :
  after_calls i s s' -> after_calls j s' s'' -> after_calls (i + j) s s''.
Proof. intros (H1 & H2 & H3) (H4 & H5 & H6). unfold after_calls. by rewrite H4, H1, H5, H6, Nat.add_assoc. Qed.

Lemma probe_calls {B A} (reply : nat -> http_reply B) (read : http_reply B -> AppResult A) k s :
  after_calls k s (calls (probe reply read) k s).
Proof.
  revert s. induction k as [| k IH]; intros s.
  - unfold after_calls, calls. simpl. by rewrite Nat.add_0_r.
  - rewrite calls_S. eapply (after_calls_trans 1 k); [exact (proj2 (probe_run reply read s)) | apply IH].
Qed.

Lemma probe_fst {B A} (reply : nat -> http_reply B) (read : http_reply B -> AppResult A) k s :
  fst (probe reply read (calls (probe reply read) k s)) = read (reply (horizon_calls s + k)%nat).
Proof.
  destruct (probe_run reply read (calls (probe reply read) k s)) as [-> _]. simpl.
  by destruct (probe_calls reply read k s) as [-> _].
Qed.

(** What a retried request returns: the answer of the first good reply, or
    the error of the last one allowed. *)
Definition answered {B A} (reply : nat -> http_reply B) (read : http_reply B -> AppResult A)
    (limit : nat) (s : StellarService) (r : AppResult A) (k : nat) : Prop :=
  (k <= limit)%nat /\ r = read (reply (horizon_calls s + k)%nat) /\
  (forall i, (i < k)%nat -> is_ok (read (reply (horizon_calls s + i)%nat)) = false) /\
  (is_ok r = true \/ k = limit).

Lemma retrying_spec {B A} c (reply : nat -> http_reply B) (read : http_reply B -> AppResult A) s :
  exists r k s', retrying c (probe reply read) s = (r, s') /\
    answered reply read (max_retries c) s r k /\ after_calls (S k) s s'.
Proof.
  unfold retrying, with_retry.
  destruct (retry_loop c (probe reply read) 0 (max_retries c) [] s) as [[r s'] sl] eqn:H.
  destruct (retry_loop_spec _ _ _ _ _ _ _ _ _ H) as (k & (Hk & Hfail & Hr & Hend) & -> & _).
  exists r, k. eexists. split_and!; [done | |].
  - unfold answered. rewrite probe_fst in Hr. split_and!; try done.
    intros i Hi. specialize (Hfail i Hi). by rewrite probe_fst in Hfail.
  - pose proof (probe_calls reply read (S k) s) as Hc. unfold after_calls in *. done.
Qed.

(** The answer of a retried request is determined by its first good reply. *)
Lemma answered_first {B A} (reply : nat -> http_reply B) (read : http_reply B -> AppResult A)
    limit s r k i a :
  answered reply read limit s r k ->
  (i <= limit)%nat -> read (reply (horizon_calls s + i)%nat) = Ok a ->
  (forall j, (j < i)%nat -> is_ok (read (reply (horizon_calls s + j)%nat)) = false) ->
  r = Ok a /\ k = i.
Proof.
  intros (Hk & Hr & Hfail & Hend) Hi Ha Hbefore.
  destruct (Nat.lt_trichotomy k i) as [Hlt | [-> | Hgt]].
  - specialize (Hbefore k Hlt). rewrite <- Hr in Hbefore. destruct Hend; [congruence | lia].
  - split; congruence.
  - specialize (Hfail i Hgt). by rewrite Ha in Hfail.
Qed.

Lemma fetch_transaction_spec hash s :
  allow_request (now_secs s) (circuit_breaker s) = true ->
  exists r k s', fetch_transaction get_tx env hash s = (r, s') /\
    answered (fun n => get_tx n hash) read_transaction 1 s r k /\
    horizon_calls s' = (horizon_calls s + S k)%nat /\ retry_config s' = retry_config s.
Proof.
  intros Hallow. unfold fetch_transaction. run_m. rewrite Hallow. simpl.
  destruct (retrying_spec (transaction_retry_config env) (fun n => get_tx n hash) read_transaction s)
    as (r & k & s' & Hr & Hans & Hc & Hcfg & _).
  change (transaction_attempt get_tx hash) with (probe (fun n => get_tx n hash) read_transaction).
  rewrite Hr. exists r, k. destruct r; eexists; split_and!; done.
Qed.

Lemma fetch_operations_spec hash s :
  exists r k s', fetch_operations get_ops hash s = (r, s') /\
    answered (fun n => get_ops n hash) read_operations (max_retries (retry_config s)) s r k.
Proof.
  unfold fetch_operations. run_m.
  change (operations_attempt get_ops hash) with (probe (fun n => get_ops n hash) read_operations).
  destruct (retrying_spec (retry_config s) (fun n => get_ops n hash) read_operations s)
    as (r & k & s' & Hr & Hans & _). eauto.
Qed.

(** No answer to decide on: the breaker is open, Horizon failed a call, or the
    amount it reported is not one. *)
Definition unanswered (req : TipVerifyRequest) (s : StellarService) : Prop :=
  allow_request (now_secs s) (circuit_breaker s) = false \/
  (exists n, is_ok (read_transaction (get_tx n (vr_transaction_hash req))) = false) \/
  (exists n, is_ok (read_operations (get_ops n (vr_transaction_hash req))) = false) \/
  exists ops op, ops_reported (vr_transaction_hash req) ops /\
    first_payment (vr_destination req) ops op /\ forall n, op_stroops op n -> i64_max < n.

Lemma memo_mismatch_spec req tx :
  (memo_mismatch req tx = None <->
   forall m, vr_expected_memo req = Some m -> default "" (tx_memo tx) = m).
Proof.
  unfold memo_mismatch. destruct (vr_expected_memo req) as [m |]; [| naive_solver].
  destruct (String.eqb_spec (default "" (tx_memo tx)) m); simpl; naive_solver.
Qed.

Lemma find_payment destination ops :
  match snd <$> list_find (pays_destination destination) ops with
  | Some op => first_payment destination ops op
  | None => forall op, op ∈ ops -> pays_destination destination op = false
  end.
Proof.
  destruct (list_find _ ops) as [[i op] |] eqn:E; simpl.
  - apply list_find_Some in E as (Hi & Hp & Hmin). exists i. split_and!; [done | |].
    + by apply Is_true_true.
    + intros j op' Hj Hop. apply Is_true_false. by eapply Hmin.
  - apply list_find_None in E. intros op Hop. rewrite Forall_forall in E.
    apply Is_true_false. by apply E.
Qed.

Lemma first_payment_unique destination ops op op' :
  first_payment destination ops op -> first_payment destination ops op' -> op = op'.
Proof.
  intros (i & Hi & Hp & Hm) (j & Hj & Hp' & Hm').
  destruct (Nat.lt_trichotomy i j) as [H | [-> | H]]; [| congruence |].
  - specialize (Hm' _ _ H Hi). congruence.
  - specialize (Hm _ _ H Hj). congruence.
Qed.

(** The verdict on the operations. *)
Lemma compare_amount_spec req ops :
  match compare_amount req (snd <$> list_find (pays_destination (vr_destination req)) ops) with
  | Ok Confirmed => exists op, first_payment (vr_destination req) ops op /\
                               op_stroops op (vr_amount_stroops req)
  | Ok (Rejected _) =>
      (forall op, op ∈ ops -> pays_destination (vr_destination req) op = false) \/
      exists op n, first_payment (vr_destination req) ops op /\ op_stroops op n /\
                   n <> vr_amount_stroops req
  | Err _ => exists op, first_payment (vr_destination req) ops op /\
                        forall n, op_stroops op n -> i64_max < n
  end.
Proof.
  pose proof (find_payment (vr_destination req) ops) as Hf. unfold compare_amount.
  destruct (snd <$> _) as [op |]; [| by left]. unfold op_stroops.
  destruct (xlm_to_stroops (default "0" (op_amount op))) as [n | e] eqn:Hx; simpl.
  - apply xlm_to_stroops_iff in Hx as [Hd _].
    destruct (Z.eqb_spec n (vr_amount_stroops req)) as [-> |]; simpl; [by exists op |].
    right. by exists op, n.
  - exists op. split; [done |]. intros n Hn.
    destruct (Z.le_gt_cases n i64_max) as [Hle | ?]; [| done].
    by rewrite (proj2 (xlm_to_stroops_iff _ n) (conj Hn Hle)) in Hx.
Qed.

(** The verdict on a transaction that was found. *)
Definition judge (req : TipVerifyRequest) (tx : HorizonTransactionResponse) : Stellar_ VerifyOutcome :=
  if negb (successful tx) then
    mret (Rejected "Transaction did not succeed on the Stellar network")
  else if negb (String.eqb (tx_source_account tx) (vr_source_account req)) then
    mret (Rejected ("Source account mismatch: expected " +:+ vr_source_account req +:+
                    ", got " +:+ tx_source_account tx))
  else
    match memo_mismatch req tx with
    | Some reason => mret (Rejected reason)
    | None =>
        operations ← fetch_operations get_ops (vr_transaction_hash req);
        lift (compare_amount req
                (snd <$> list_find (pays_destination (vr_destination req)) operations))
    end.

(** Either the transaction is not the claimed one and is rejected, or the
    verdict is that of its operations. *)
Lemma judge_cases req tx s :
  (~ made_by req tx /\ exists reason, judge req tx s = (Ok (Rejected reason), s)) \/
  (made_by req tx /\
   judge req tx s =
     (operations ← fetch_operations get_ops (vr_transaction_hash req);
      lift (compare_amount req
              (snd <$> list_find (pays_destination (vr_destination req)) operations))) s).
Proof.
  unfold judge, made_by. pose proof (memo_mismatch_spec req tx) as Hm.
  destruct (successful tx); simpl; [| left; split; [by intros [? _] | by eexists]].
  destruct (String.eqb_spec (tx_source_account tx) (vr_source_account req)); simpl;
    [| left; split; [by intros (_ & ? & _) | by eexists]].
  destruct (memo_mismatch req tx) as [reason |]; [left | right; naive_solver].
  split; [| by eexists]. intros (_ & _ & H%Hm). done.
Qed.

Lemma judge_sound req tx s :
  tx_reported (vr_transaction_hash req) (Some tx) ->
  match fst (judge req tx s) with
  | Ok Confirmed => settled req
  | Ok (Rejected _) => contradicted req
  | Err _ => forall s0, unanswered req s0
  end.
Proof.
  intros Htx. destruct (judge_cases req tx s) as [(Hmade & reason & ->) | (Hmade & ->)].
  { right. exists tx. split; [done | by left]. }
  destruct (fetch_operations_spec (vr_transaction_hash req) s) as (r & k & s' & Hf & Hans).
  destruct Hans as (_ & Hr & _). destruct r as [ops | e].
  - rewrite (bind_ok _ _ _ _ _ Hf). unfold lift. cbn [fst].
    assert (ops_reported (vr_transaction_hash req) ops) as Hops by (eexists; by symmetry).
    pose proof (compare_amount_spec req ops) as Hc.
    destruct (compare_amount _ _) as [[| reason] | e].
    + destruct Hc as (op & Hop & Hamt). by exists tx, ops, op.
    + right. exists tx. split; [done | right; by exists ops].
    + destruct Hc as (op & Hop & Hamt). intros s0. do 3 right. by exists ops, op.
  - rewrite (bind_err _ _ _ _ _ Hf). cbn [fst]. intros s0. do 2 right. left. eexists.
    by rewrite <- Hr.
Qed.

Lemma fetch_reported hash s o s' :
  fetch_transaction get_tx env hash s = (Ok o, s') -> tx_reported hash o.
Proof.
  destruct (allow_request (now_secs s) (circuit_breaker s)) eqn:Ha.
  - destruct (fetch_transaction_spec hash s Ha) as (r & k & s1 & -> & (_ & Hr & _) & _).
    intros [= -> ->]. by eexists.
  - unfold fetch_transaction. run_m. by rewrite Ha.
Qed.

Lemma fetch_failed hash s e s' :
  fetch_transaction get_tx env hash s = (Err e, s') ->
  allow_request (now_secs s) (circuit_breaker s) = false \/
  exists n, is_ok (read_transaction (get_tx n hash)) = false.
Proof.
  destruct (allow_request (now_secs s) (circuit_breaker s)) eqn:Ha; intros H; [right | by left].
  destruct (fetch_transaction_spec hash s Ha) as (r & k & s1 & Hf & (_ & Hr & _) & _).
  rewrite Hf in H. injection H as -> ->. eexists. by rewrite <- Hr.
Qed.
End reports.

Lemma verify_tip_judge get_tx get_ops env req s tx s' :
  fetch_transaction get_tx env (vr_transaction_hash req) s = (Ok (Some tx), s') ->
  stellar_verify_tip get_tx get_ops env req s = judge get_ops req tx s'.
Proof. intros H. unfold stellar_verify_tip. by rewrite (bind_ok _ _ _ _ _ H). Qed.

Lemma verify_tip_verdict get_tx get_ops env req s :
  match fst (stellar_verify_tip get_tx get_ops env req s) with
  | Ok Confirmed => settled get_tx get_ops req
  | Ok (Rejected _) => contradicted get_tx get_ops req
  | Err _ => unanswered get_tx get_ops req s
  end.
Proof.
  destruct (fetch_transaction get_tx env (vr_transaction_hash req) s) as [[[tx |] | e] s'] eqn:Hf.
  - rewrite (verify_tip_judge _ _ _ _ _ _ _ Hf).
    pose proof (judge_sound get_tx get_ops req tx s' (fetch_reported _ _ _ _ _ _ Hf)) as H.
    by destruct (fst (judge _ _ _ _)).
  - unfold stellar_verify_tip. rewrite (bind_ok _ _ _ _ _ Hf). simpl. left.
    by eapply fetch_reported.
  - unfold stellar_verify_tip. rewrite (bind_err _ _ _ _ _ Hf). simpl.
    destruct (fetch_failed _ _ _ _ _ _ Hf); [by left | by right; left].
Qed.

(** C5: The verifier never guesses.  It confirms a tip only when Horizon
    reported a successful transaction of the claimed account with the expected
    memo, whose first native payment to the creator's wallet is worth exactly
    the claimed stroops; it rejects one only when Horizon reported a fact that
    contradicts the claim; and an outage, an open breaker or a malformed reply
    is an error, never a verdict. *)
Lemma verify_tip_sound get_tx get_ops env req s :
  match fst (stellar_verify_tip get_tx get_ops env req s) with
  | Ok Confirmed => settled get_tx get_ops req
  | Ok (Rejected _) => contradicted get_tx get_ops req
  | Err _ => unanswered get_tx get_ops req s
  end.
Proof. apply verify_tip_verdict. Qed.

(** The calls before the [i]-th of a run failed and the [i]-th was answered. *)
Definition recovers {B A} (reply : nat -> http_reply B) (read : http_reply B -> AppResult A)
    (start i : nat) (a : A) : Prop :=
  read (reply (start + i)%nat) = Ok a /\
  forall j, (j < i)%nat -> is_ok (read (reply (start + j)%nat)) = false.

(** C11: Transient failures do not change a verdict: when the breaker lets the
    request through and Horizon recovers within the retries allowed, the
    verifier confirms the tip exactly when the transaction and the operations
    Horizon then reports settle it. *)
Lemma verify_tip_decides get_tx get_ops env req s tx ops i j :
  allow_request (now_secs s) (circuit_breaker s) = true ->
  recovers (fun n => get_tx n (vr_transaction_hash req)) read_transaction
    (horizon_calls s) i (Some tx) ->
  (i <= 1)%nat ->
  recovers (fun n => get_ops n (vr_transaction_hash req)) read_operations
    (S (horizon_calls s + i)) j ops ->
  (j <= max_retries (retry_config s))%nat -> vr_amount_stroops req <= i64_max ->
  fst (stellar_verify_tip get_tx get_ops env req s) = Ok Confirmed <->
  made_by req tx /\
  exists op, first_payment (vr_destination req) ops op /\ op_stroops op (vr_amount_stroops req).
Proof.
  intros Hallow [Htx Hbefore] Hi [Hops Hbefore'] Hj Hmax.
  destruct (fetch_transaction_spec get_tx env (vr_transaction_hash req) s Hallow)
    as (r & k & s' & Hf & Hans & Hcalls & Hcfg).
  destruct (answered_first _ _ _ _ _ _ _ _ Hans Hi Htx Hbefore) as [-> ->].
  rewrite (verify_tip_judge _ _ _ _ _ _ _ Hf).
  destruct (judge_cases get_ops req tx s') as [(Hmade & reason & ->) | (Hmade & ->)];
    [split; [done | naive_solver] |].
  destruct (fetch_operations_spec get_ops (vr_transaction_hash req) s')
    as (r & k & s'' & Hg & Hans').
  rewrite Nat.add_succ_r in Hcalls. rewrite Hcfg in Hans'.
  rewrite <- Hcalls in Hops, Hbefore'.
  destruct (answered_first _ _ _ _ _ _ j ops Hans' Hj Hops Hbefore') as [-> ->].
  rewrite (bind_ok _ _ _ _ _ Hg). unfold lift. cbn [fst].
  pose proof (compare_amount_spec req ops) as Hc.
  destruct (compare_amount _ _) as [[| reason] | e]; split; try done.
  - intros (_ & op & Hop & Hamt). exfalso. destruct Hc as [Hnone | (op' & n & Hop' & Hn & Hne)].
    + destruct Hop as (m & Hm & Hp & _). rewrite (Hnone op) in Hp; [done |].
      by eapply list_elem_of_lookup_2.
    + rewrite (first_payment_unique _ _ _ _ Hop Hop') in Hamt. 
      by apply Hne, (decimal_amount_unique _ _ _ Hn).
  - intros (_ & op & Hop & Hamt). exfalso. destruct Hc as (op' & Hop' & Hn).
    rewrite (first_payment_unique _ _ _ _ Hop Hop') in Hamt. specialize (Hn _ Hamt). lia.
Qed.

Definition demo_tx : HorizonTransactionResponse :=
  {| tx_id := "t"; tx_hash := "h"; successful := true; tx_source_account := "GTIPPER";
     tx_memo := Some "thanks"; tx_memo_type := Some "text" |}.

Definition demo_payment : HorizonOperation :=
  {| op_type := "payment"; op_to := Some "GCREATOR"; op_amount := Some "10.5000000";
     op_asset_type := Some "native" |}.

Definition demo_request : TipVerifyRequest :=
  {| vr_transaction_hash := "h"; vr_amount_stroops := 105000000; vr_destination := "GCREATOR";
     vr_expected_memo := Some "thanks"; vr_source_account := "GTIPPER" |}.

(** Horizon is overloaded on its first and third calls. *)
Definition demo_get_tx (n : nat) (hash : string) : http_reply HorizonTransactionResponse :=
  if (n =? 0)%nat then Reply 504 None None else Reply 200 None (Some demo_tx).

Definition demo_get_ops (n : nat) (hash : string) : http_reply (list HorizonOperation) :=
  if (n =? 2)%nat then SendFailed else Reply 200 None (Some [demo_payment]).

Lemma verify_tip_decides_witness :
  fst (stellar_verify_tip demo_get_tx demo_get_ops (fun _ => None) demo_request
         (stellar_new (fun _ => None) 0)) = Ok Confirmed.
Proof.
  apply (verify_tip_decides demo_get_tx demo_get_ops (fun _ => None) demo_request
           (stellar_new (fun _ => None) 0) demo_tx [demo_payment] 1 1).
  - vm_compute. reflexivity.
  - split; [reflexivity |]. intros [| j] Hj; [reflexivity | lia].
  - lia.
  - split; [reflexivity |]. intros [| j] Hj; [reflexivity | lia].
  - simpl. lia.
  - unfold i64_max. simpl. lia.
  - split; [split_and!; [done | done | by intros m [= <-]] |].
    exists demo_payment. split.
    + exists 0%nat. split_and!; [done | reflexivity | lia].
    + exists "10", "5000000", 10, 5000000. split_and!; [by right | done | reflexivity | reflexivity
        | simpl; lia | reflexivity].
Defined.

(** The production verifier satisfies the promise of the trait. *)
#[export] Instance stellar_verifier get_tx get_ops env : TipVerifier StellarService := {
  verify_tip := stellar_verify_tip get_tx get_ops env
}.

#[export] Instance stellar_verifier_sound get_tx get_ops env :
  @VerifierSound StellarService (stellar_verifier get_tx get_ops env) (settled get_tx get_ops).
Proof.
  constructor. intros req s s' H. pose proof (verify_tip_verdict get_tx get_ops env req s) as Hs.
  unfold verify_tip, stellar_verifier in H. by rewrite H in Hs.
Qed.
