(* ===== verification/TipPipeline.v ===== *)
(** * TipPipeline: recording, verifying and settling tips

    The two-phase tip: src/src/controllers/tip_controller.rs inserts it as
    pending and queues a verification job, src/src/queue/worker.rs verifies the
    job against the trait [TipVerifier] and confirms or rejects the tip,
    src/src/jobs/reconciliation.rs queues the tips that stayed pending, and
    src/src/models/tip.rs has the data.

    The world holds the tables [tips], [tip_logs] and [creators], the job
    channel, the Redis cache of listings, the events handed to the webhooks and
    to the WebSocket subscribers, and the schedule of database faults.  A query
    is atomic; a handler that fails keeps what it did before.  Waiting for room
    in the channel is scheduling and not modelled ([enqueue] fails only when the
    receiver is gone); Prometheus metrics and log lines are not modelled.

    [from_row] says whether sqlx can build a [Tip] from a row with the given
    columns; [uuid] gives the random ids; [moderation_rejects] is the verdict of
    the moderation service on a message. *)

From S2P Require Import Prelude Text Errors Amount StellarService.

(** ** models/tip.rs *)

(** src/src/models/tip.rs:49-58 TipStatus *)
Inductive TipStatus : Type := PendingVerification | StatusConfirmed | StatusRejected.

#[export] Instance TipStatus_eq_dec : EqDecision TipStatus.
Proof. solve_decision. Defined.

(** src/src/models/tip.rs:60-68 TipStatus::as_str *)
Definition status_as_str (s : TipStatus) : string :=
  match s with
  | PendingVerification => "pending_verification"
  | StatusConfirmed => "confirmed"
  | StatusRejected => "rejected"
  end.

(** src/src/models/tip.rs:76-87 TipStatus::from_str *)
Definition status_from_str (s : string) : result TipStatus string :=
  if String.eqb s "pending_verification" then Ok PendingVerification
  else if String.eqb s "confirmed" then Ok StatusConfirmed
  else if String.eqb s "rejected" then Ok StatusRejected
  else Err ("unknown tip status: " +:+ s).

(** src/src/models/tip.rs:114-131 Tip *)
Record Tip : Type := {
  tip_id : string;
  tip_creator : string;
  tip_amount : string;
  tip_hash : string;
  tip_message : option string;
  tip_message_visibility : option string;
  tip_created_at : Z;
  tip_status : option TipStatus;
  tip_source : option string
}.

(** src/src/models/tip.rs:134-137 Tip::effective_status *)
Definition effective_status (t : Tip) : TipStatus := default StatusConfirmed (tip_status t).

(** src/src/models/tip.rs:139-141 Tip::is_confirmed *)
Definition is_confirmed (t : Tip) : bool := bool_decide (effective_status t = StatusConfirmed).

(** src/src/models/tip.rs:146-186 RecordTipRequest *)
Record RecordTipRequest : Type := {
  rq_username : string;
  rq_amount : string;
  rq_tipper_wallet : option string;
  rq_transaction_hash : string;
  rq_message : option string;
  rq_memo : option string;
  rq_message_visibility : string;
  rq_tipper_source_account : string
}.

(** ** queue/mod.rs *)

(** src/src/queue/mod.rs:19-36 VerificationJob *)
Record VerificationJob : Type := {
  vj_tip_id : string;
  vj_transaction_hash : string;
  vj_amount_stroops : Z;
  vj_destination : string;
  vj_expected_memo : option string;
  vj_source_account : string;
  vj_attempt : Z
}.

(** src/src/queue/mod.rs:46-46 CHANNEL_CAPACITY *)
Definition CHANNEL_CAPACITY : nat := 1024.

(** src/src/ws.rs:67-78 TipEvent *)
Record TipEvent : Type := {
  ev_creator_id : string;
  ev_tipper_id : string;
  ev_amount : Z;
  ev_timestamp : Z
}.

Section pipeline.
Context {V : Type} {verifier : TipVerifier V}.
Variable uuid : nat -> string.
Variable from_row : list string -> bool.
Variable moderation_rejects : string -> bool.

(** ** The world *)

Record World : Type := {
  w_verifier : V;
  w_tips : list Tip;
  w_creators : gmap string string;
  w_logs : list (string * string * string);
  w_queue : list VerificationJob;
  w_queue_open : bool;
  w_redis : bool;
  w_cache : gmap string (list Tip * Z);
  w_webhooks : list (string * Tip);
  w_broadcasts : list TipEvent;
  w_moderated : list string;
  w_now : Z;
  w_uuids : nat;
  w_faults : list fault
}.

Definition Pipe : Type -> Type := M World AppError.

(** One record update each. *)
Definition with_verifier (v : V) (w : World) : World :=
  {| w_verifier := v; w_tips := w_tips w; w_creators := w_creators w; w_logs := w_logs w;
     w_queue := w_queue w; w_queue_open := w_queue_open w; w_redis := w_redis w;
     w_cache := w_cache w; w_webhooks := w_webhooks w; w_broadcasts := w_broadcasts w;
     w_moderated := w_moderated w; w_now := w_now w; w_uuids := w_uuids w; w_faults := w_faults w |}.

Definition with_tables (tips : list Tip) (logs : list (string * string * string)) (w : World) : World :=
  {| w_verifier := w_verifier w; w_tips := tips; w_creators := w_creators w; w_logs := logs;
     w_queue := w_queue w; w_queue_open := w_queue_open w; w_redis := w_redis w;
     w_cache := w_cache w; w_webhooks := w_webhooks w; w_broadcasts := w_broadcasts w;
     w_moderated := w_moderated w; w_now := w_now w; w_uuids := w_uuids w; w_faults := w_faults w |}.

Definition with_queue (q : list VerificationJob) (w : World) : World :=
  {| w_verifier := w_verifier w; w_tips := w_tips w; w_creators := w_creators w; w_logs := w_logs w;
     w_queue := q; w_queue_open := w_queue_open w; w_redis := w_redis w;
     w_cache := w_cache w; w_webhooks := w_webhooks w; w_broadcasts := w_broadcasts w;
     w_moderated := w_moderated w; w_now := w_now w; w_uuids := w_uuids w; w_faults := w_faults w |}.

Definition with_outputs (cache : gmap string (list Tip * Z)) (hooks : list (string * Tip))
    (events : list TipEvent) (moderated : list string) (w : World) : World :=
  {| w_verifier := w_verifier w; w_tips := w_tips w; w_creators := w_creators w; w_logs := w_logs w;
     w_queue := w_queue w; w_queue_open := w_queue_open w; w_redis := w_redis w;
     w_cache := cache; w_webhooks := hooks; w_broadcasts := events;
     w_moderated := moderated; w_now := w_now w; w_uuids := w_uuids w; w_faults := w_faults w |}.

Definition with_env (creators : gmap string string) (now : Z) (uuids : nat) (faults : list fault)
    (w : World) : World :=
  {| w_verifier := w_verifier w; w_tips := w_tips w; w_creators := creators; w_logs := w_logs w;
     w_queue := w_queue w; w_queue_open := w_queue_open w; w_redis := w_redis w;
     w_cache := w_cache w; w_webhooks := w_webhooks w; w_broadcasts := w_broadcasts w;
     w_moderated := w_moderated w; w_now := now; w_uuids := uuids; w_faults := faults |}.

#[export] Instance world_networked : Networked World := {
  next_fault w :=
    let '(f, l) := pop_fault (w_faults w) in
    (f, with_env (w_creators w) (w_now w) (w_uuids w) l w)
}.

(** A query: an sqlx error becomes an [AppError] through [?]. *)
Definition query {A} (q : World -> A * World) : Pipe A :=
  remote (app_error_from_sqlx SqlxOther) q.

(** src/src/controllers/tip_controller.rs:77-77 the columns the statements return *)
Definition tip_columns : list string :=
  ["id"; "creator_username"; "amount"; "transaction_hash"; "created_at"; "status";
   "tipper_source_account"].

(** [fetch_optional] of a query that returns [Tip] rows: the statement has
    run when the row is decoded. *)
Definition decode_tip (o : option Tip) : Pipe (option Tip) :=
  match o with
  | Some t => if from_row tip_columns then mret (Some t) else throw (app_error_from_sqlx SqlxOther)
  | None => mret None
  end.

(** ** The channel and the cache *)

(** src/src/queue/mod.rs:54-64 VerificationQueue::enqueue *)
Definition enqueue (job : VerificationJob) : M World string unit := fun w =>
  if w_queue_open w then (Ok tt, with_queue (w_queue w ++ [job]) w)
  else (Err "Verification queue full or closed: channel closed", w).

(** src/src/queue/mod.rs:66-71 VerificationQueue::try_enqueue *)
Definition try_enqueue (job : VerificationJob) : M World string unit := fun w =>
  if negb (w_queue_open w) then (Err "Verification queue try_send failed: channel closed", w)
  else if (CHANNEL_CAPACITY <=? length (w_queue w))%nat then
    (Err "Verification queue try_send failed: no available capacity", w)
  else (Ok tt, with_queue (w_queue w ++ [job]) w).

(** src/src/cache/keys.rs:11-14 creator_tips_pattern *)
Definition creator_tips_pattern (username : string) : string :=
  "creator:" +:+ username +:+ ":tips:*".

(** src/src/cache/redis_client.rs:37-44 del: each key, literally; errors are swallowed *)
Definition redis_del (ks : list string) : Pipe unit :=
  forM ks tt (fun _ key =>
    _ ← attempt (E := AppError) (query (fun w =>
          (tt, with_outputs (delete key (w_cache w)) (w_webhooks w) (w_broadcasts w) (w_moderated w) w)));
    mret tt).

(** src/src/cache/redis_client.rs:5-5 TTL_TIPS *)
Definition TTL_TIPS : Z := 60.

(** src/src/cache/redis_client.rs:20-35 set: errors are swallowed *)
Definition redis_set (key : string) (value : list Tip) (ttl_secs : Z) : Pipe unit :=
  _ ← attempt (E := AppError) (query (fun w =>
        (tt, with_outputs (<[key := (value, w_now w + ttl_secs)]> (w_cache w)) (w_webhooks w)
               (w_broadcasts w) (w_moderated w) w)));
  mret tt.

(** src/src/controllers/tip_controller.rs:158-163 the cache invalidation *)
Definition invalidate (username : string) : Pipe unit :=
  connected ← gets w_redis;
  if (connected : bool) then redis_del [creator_tips_pattern username] else mret tt.

(** ** tip_controller.rs *)

(** src/src/controllers/tip_controller.rs:70-93 the statement that inserts a tip *)
Definition insert_tip (tid : string) (req : RecordTipRequest) (w : World)
    : result (option Tip) sqlx_error * World :=
  let tip := {| tip_id := tid; tip_creator := rq_username req; tip_amount := rq_amount req;
                tip_hash := rq_transaction_hash req; tip_message := None;
                tip_message_visibility := None; tip_created_at := w_now w;
                tip_status := Some PendingVerification;
                tip_source := Some (rq_tipper_source_account req) |} in
  if existsb (fun t => String.eqb (tip_hash t) (rq_transaction_hash req)) (w_tips w) then (Ok None, w)
  else if existsb (fun t => String.eqb (tip_id t) tid) (w_tips w) then
    (Err (SqlxDatabase (Some "23505") (Some "tips_pkey")), w)
  else match w_creators w !! rq_username req with
       | None => (Err (SqlxDatabase (Some "23503") (Some "tips_creator_username_fkey")), w)
       | Some _ => (Ok (Some tip), with_tables (w_tips w ++ [tip]) (w_logs w) w)
       end.

Definition new_uuid : Pipe string := fun w =>
  (Ok (uuid (w_uuids w)), with_env (w_creators w) (w_now w) (S (w_uuids w)) (w_faults w) w).

(** A row of tip_logs; the handlers ignore its failure. *)
Definition log_action (tid creator action : string) : Pipe unit :=
  _ ← attempt (E := AppError) (query (fun w =>
        (tt, with_tables (w_tips w) (w_logs w ++ [(tid, creator, action)]) w)));
  mret tt.

(** src/src/jobs/reconciliation.rs:156-164 fetch_creator_wallet *)
Definition fetch_creator_wallet (username : string) : Pipe (option string) :=
  query (fun w => (w_creators w !! username, w)).

Definition modify_outputs (hooks : list (string * Tip) -> list (string * Tip))
    (events : list TipEvent -> list TipEvent) (moderated : list string -> list string) : Pipe unit :=
  modify (fun w => with_outputs (w_cache w) (hooks (w_webhooks w)) (events (w_broadcasts w))
                     (moderated (w_moderated w)) w).

(** src/src/controllers/tip_controller.rs:47-65 the moderation of the message *)
Definition moderate (message : option string) : Pipe unit :=
  match message with
  | None => mret tt
  | Some msg =>
      if String.eqb (trim msg) "" then mret tt
      else
        modify_outputs id id (fun l => l ++ [msg]);;
        if moderation_rejects msg then
          throw (Validation (InvalidRequest "Tip message was rejected by content moderation"))
        else mret tt
  end.

(** src/src/controllers/tip_controller.rs:41-171 record_tip_with_context *)
Definition record_tip (req : RecordTipRequest) : Pipe Tip :=
  moderate (rq_message req);;
  tid ← new_uuid;
  inserted ← query (insert_tip tid req);
  row ← map_err app_error_from_sqlx (lift inserted);
  decoded ← decode_tip row;
  tip ← expect (Conflict "DUPLICATE_TX_HASH"
                  ("A tip with transaction hash '" +:+ rq_transaction_hash req +:+
                   "' has already been submitted")) decoded;
  log_action (tip_id tip) (tip_creator tip) "submitted";;
  amount_stroops ←
    map_err (fun e => Validation (InvalidRequest ("Invalid tip amount: " +:+ e)))
      (lift (xlm_to_stroops_str (rq_amount req)));
  wallet ← fetch_creator_wallet (rq_username req);
  destination ← expect (CreatorNotFound (rq_username req)) wallet;
  _ ← attempt (E' := AppError) (enqueue
        {| vj_tip_id := tip_id tip; vj_transaction_hash := rq_transaction_hash req;
           vj_amount_stroops := amount_stroops; vj_destination := destination;
           vj_expected_memo := rq_memo req; vj_source_account := rq_tipper_source_account req;
           vj_attempt := 0 |});
  modify_outputs id (fun l => l ++
    [{| ev_creator_id := tip_creator tip; ev_tipper_id := rq_tipper_source_account req;
        ev_amount := default 0 (parse_u64 (tip_amount tip)); ev_timestamp := tip_created_at tip |}]) id;;
  invalidate (tip_creator tip);;
  mret tip.

Definition set_status (st : TipStatus) (t : Tip) : Tip :=
  {| tip_id := tip_id t; tip_creator := tip_creator t; tip_amount := tip_amount t;
     tip_hash := tip_hash t; tip_message := tip_message t;
     tip_message_visibility := tip_message_visibility t; tip_created_at := tip_created_at t;
     tip_status := Some st; tip_source := tip_source t |}.

Definition is_pending (tid : string) (t : Tip) : bool :=
  String.eqb (tip_id t) tid && bool_decide (tip_status t = Some PendingVerification).

(** src/src/controllers/tip_controller.rs:179-187 the statement that settles a tip *)
Definition settle_tip (tid : string) (st : TipStatus) (w : World) : option Tip * World :=
  (set_status st <$> (snd <$> list_find (is_pending tid) (w_tips w)),
   with_tables (map (fun t => if is_pending tid t then set_status st t else t) (w_tips w)) (w_logs w) w).

Definition tip_not_found (tid : string) : AppError := Database (NotFound "tip" tid).

(** src/src/controllers/tip_controller.rs:175-226 confirm_tip *)
Definition confirm_tip (tid : string) : Pipe unit :=
  row ← query (settle_tip tid StatusConfirmed);
  decoded ← decode_tip row;
  tip ← expect (tip_not_found tid) decoded;
  log_action (tip_id tip) (tip_creator tip) "confirmed";;
  invalidate (tip_creator tip);;
  modify_outputs (fun l => l ++ [("tip.confirmed", tip)]) id id.

(** src/src/controllers/tip_controller.rs:228-271 reject_tip *)
Definition reject_tip (tid reason : string) : Pipe unit :=
  row ← query (settle_tip tid StatusRejected);
  decoded ← decode_tip row;
  tip ← expect (tip_not_found tid) decoded;
  log_action (tip_id tip) (tip_creator tip) ("rejected: " +:+ reason);;
  invalidate (tip_creator tip).

(** ** Deletions *)

(** Rows go, and the rows of tip_logs that refer to them (ON DELETE CASCADE). *)
Definition drop_tips (p : Tip -> bool) (w : World) : World :=
  let gone tid := existsb (fun t => String.eqb (tip_id t) tid && p t) (w_tips w) in
  with_tables (filter (fun t => p t = false) (w_tips w)) (filter (fun l => gone (fst (fst l)) = false) (w_logs w)) w.

(** src/src/jobs/handlers.rs:312-322 the clean-up of old tips *)
Definition delete_old_tips (older_than : Z) : Pipe unit :=
  query (fun w => (tt, drop_tips (fun t => tip_created_at t <? older_than) w)).

(** The tips refer to their creator with ON DELETE CASCADE.

    src/src/controllers/admin_controller.rs:34-41 delete_creator *)
Definition delete_creator (username : string) : Pipe bool :=
  query (fun w =>
    let w' := drop_tips (fun t => String.eqb (tip_creator t) username) w in
    (bool_decide (is_Some (w_creators w !! username)),
     with_env (delete username (w_creators w')) (w_now w') (w_uuids w') (w_faults w') w')).

(** src/src/saga/tip_saga.rs:48-56 DeleteTipCompensation::compensate, of the tip in the context *)
Definition delete_tip (tid : string) : Pipe unit :=
  query (fun w => (tt, drop_tips (fun t => String.eqb (tip_id t) tid) w)).

(** src/src/controllers/tip_controller.rs:273-306 get_tips_for_creator *)
Definition get_tips_for_creator (username : string) : Pipe (list Tip) :=
  rows ← query (fun w =>
    (sort_by (fun a b => tip_created_at b <=? tip_created_at a)
       (filter (fun t => tip_creator t = username /\ tip_status t = Some StatusConfirmed) (w_tips w)), w));
  tips ← (if bool_decide (rows = []) || from_row tip_columns then mret rows
          else throw (app_error_from_sqlx SqlxOther));
  connected ← gets w_redis;
  (if (connected : bool) then redis_set ("creator:" +:+ username +:+ ":tips:all") tips TTL_TIPS
   else mret tt);;
  mret tips.

(** ** queue/worker.rs *)

(** src/src/queue/worker.rs:9-10 MAX_ATTEMPTS *)
Definition MAX_ATTEMPTS : Z := 5.

(** src/src/queue/worker.rs:48-54 the request of a job *)
Definition verify_request (job : VerificationJob) : TipVerifyRequest :=
  {| vr_transaction_hash := vj_transaction_hash job; vr_amount_stroops := vj_amount_stroops job;
     vr_destination := vj_destination job; vr_expected_memo := vj_expected_memo job;
     vr_source_account := vj_source_account job |}.

Definition next_attempt (job : VerificationJob) : VerificationJob :=
  {| vj_tip_id := vj_tip_id job; vj_transaction_hash := vj_transaction_hash job;
     vj_amount_stroops := vj_amount_stroops job; vj_destination := vj_destination job;
     vj_expected_memo := vj_expected_memo job; vj_source_account := vj_source_account job;
     vj_attempt := wrap_u32 (vj_attempt job + 1) |}.

(** The verifier on its part of the world. *)
Definition verify (job : VerificationJob) : Pipe VerifyOutcome := fun w =>
  let '(r, v) := verify_tip (verify_request job) (w_verifier w) in (r, with_verifier v w).

(** src/src/queue/worker.rs:80-80 backoff, in seconds *)
Definition backoff (attempt : Z) : Z := Z.min (u64_saturating_pow 2 (wrap_u32 (attempt + 1))) 64.

Definition sleep (secs : Z) : Pipe unit := modify (fun w =>
  with_env (w_creators w) (w_now w + secs) (w_uuids w) (w_faults w) w).

(** src/src/queue/worker.rs:56-96 what process_job does with the verdict *)
Definition process_verdict (job : VerificationJob) (verdict : AppResult VerifyOutcome) : Pipe unit :=
  match verdict with
  | Ok Confirmed => _ ← attempt (E := AppError) (confirm_tip (vj_tip_id job)); mret tt
  | Ok (Rejected reason) => _ ← attempt (E := AppError) (reject_tip (vj_tip_id job) reason); mret tt
  | Err _ =>
      sleep (backoff (vj_attempt job));;
      _ ← attempt (enqueue (next_attempt job)); mret tt
  end.

(** src/src/queue/worker.rs:29-97 process_job *)
Definition process_job (job : VerificationJob) : Pipe unit :=
  if MAX_ATTEMPTS <=? vj_attempt job then mret tt
  else
    verdict ← attempt (verify job);
    process_verdict job verdict.

(** src/src/queue/worker.rs:14-27 the worker, its tasks run one after the other,
    for at most [fuel] jobs *)
Fixpoint worker (fuel : nat) (w : World) : World :=
  match fuel, w_queue w with
  | S fuel', job :: q => worker fuel' (snd (process_job job (with_queue q w)))
  | _, _ => w
  end.

(** ** jobs/reconciliation.rs *)

(** src/src/jobs/reconciliation.rs:20-22 STUCK_AFTER, in seconds *)
Definition STUCK_AFTER : Z := 5 * 60.

(** src/src/jobs/reconciliation.rs:138-154 fetch_stuck_tips *)
Definition stuck_tips (w : World) : list Tip :=
  take 100 (sort_by (fun a b => tip_created_at a <=? tip_created_at b)
    (filter (fun t => tip_status t = Some PendingVerification /\ tip_created_at t < w_now w - STUCK_AFTER)
       (w_tips w))).

(** src/src/jobs/reconciliation.rs:66-128 one tip of the pass *)
Definition reconcile_tip (enqueued : Z) (tip : Tip) : Pipe Z :=
  match xlm_to_stroops_str (tip_amount tip) with
  | Err _ => mret enqueued
  | Ok amount_stroops =>
      wallet ← attempt (E := AppError) (fetch_creator_wallet (tip_creator tip));
      match wallet with
      | Err _ => mret enqueued
      | Ok None => mret enqueued
      | Ok (Some destination) =>
          sent ← attempt (enqueue
            {| vj_tip_id := tip_id tip; vj_transaction_hash := tip_hash tip;
               vj_amount_stroops := amount_stroops; vj_destination := destination;
               vj_expected_memo := None; vj_source_account := default "" (tip_source tip);
               vj_attempt := 0 |});
          mret (if is_ok sent then enqueued + 1 else enqueued)
      end
  end.

(** src/src/jobs/reconciliation.rs:47-136 run_once *)
Definition run_once : Pipe Z :=
  rows ← attempt (E := AppError) (query (fun w => (stuck_tips w, w)));
  match rows with
  | Err _ => mret 0
  | Ok tips => forM tips 0 reconcile_tip
  end.
End pipeline.

(** ** The running system

    Requests, the worker's tasks, the reconciliation passes and the other
    handlers interleave, and tips are deleted.  A handler or a phase of a task is one step; a task
    waits between the verdict and what it does with it, so verdicts are acted on
    in any order and at any later time.  A reconciliation pass holds the rows it
    read while the others run. *)

Section system.
Context {V : Type} {verifier : TipVerifier V}.
Variable uuid : nat -> string.
Variable from_row : list string -> bool.
Variable moderation_rejects : string -> bool.
(** The wallets the creators register. *)
Variable Owned : string -> string -> Prop.

Implicit Types w : World (V := V).

Inductive task : Type :=
| Verifying (job : VerificationJob)
| Settling (job : VerificationJob) (verdict : AppResult VerifyOutcome)
| Reconciling (tips : list Tip).

Definition System : Type := World (V := V) * list task.

(** What removes tips: the clean-up job, an administrator, a compensation. *)
Inductive deletion : Type :=
| OldTips (older_than : Z)
| Creator (username : string)
| OneTip (tid : string).

Definition delete_by (d : deletion) (w : World (V := V)) : World (V := V) :=
  match d with
  | OldTips older_than => snd (delete_old_tips older_than w)
  | Creator username => snd (delete_creator username w)
  | OneTip tid => snd (delete_tip tid w)
  end.

Inductive step : System -> System -> Prop :=
| StepRecord req w ts :
    step (w, ts) (snd (record_tip uuid from_row moderation_rejects req w), ts)
| StepList username w ts :
    step (w, ts) (snd (get_tips_for_creator from_row username w), ts)
| StepReceive job q w ts :
    w_queue w = job :: q ->
    step (w, ts) (with_queue q w, Verifying job :: ts)
| StepGiveUp job w ts1 ts2 :
    MAX_ATTEMPTS <= vj_attempt job ->
    step (w, ts1 ++ Verifying job :: ts2) (w, ts1 ++ ts2)
| StepVerify job w ts1 ts2 verdict w' :
    vj_attempt job < MAX_ATTEMPTS ->
    attempt (E' := AppError) (verify job) w = (Ok verdict, w') ->
    step (w, ts1 ++ Verifying job :: ts2) (w', ts1 ++ Settling job verdict :: ts2)
| StepSettle job verdict w ts1 ts2 :
    step (w, ts1 ++ Settling job verdict :: ts2)
         (snd (process_verdict from_row job verdict w), ts1 ++ ts2)
| StepReconcile w ts : step (w, ts) (w, Reconciling (stuck_tips w) :: ts)
| StepReconcileTip tip rest n w ts1 ts2 :
    step (w, ts1 ++ Reconciling (tip :: rest) :: ts2)
         (snd (reconcile_tip n tip w), ts1 ++ Reconciling rest :: ts2)
| StepReconciled w ts1 ts2 :
    step (w, ts1 ++ Reconciling [] :: ts2) (w, ts1 ++ ts2)
| StepWallet username wallet w ts :
    Owned username wallet ->
    step (w, ts) (with_env (<[username := wallet]> (w_creators w)) (w_now w) (w_uuids w) (w_faults w) w, ts)
(** Rows are removed; a v4 uuid is not drawn twice, which matters only once rows can go. *)
| StepDelete d w ts :
    Inj (=) (=) uuid ->
    step (w, ts) (delete_by d w, ts)
| StepPass secs faults w ts :
    0 <= secs ->
    step (w, ts) (with_env (w_creators w) (w_now w + secs) (w_uuids w) faults w, ts).

(** A history is the list of its states. *)
Inductive steps : System -> System -> Prop :=
| StepsRefl s : steps s s
| StepsTrans s s' s'' : steps s s' -> step s' s'' -> steps s s''.

(** The world at start: no tips and no jobs. *)
Definition fresh (w : World (V := V)) : Prop :=
  w_tips w = [] /\ w_queue w = [] /\ w_webhooks w = [] /\
  forall u a, w_creators w !! u = Some a -> Owned u a.

(** ** Invariants *)

Context (evidence : TipVerifyRequest -> Prop) `{!VerifierSound V evidence}.

(** The job claims what the tip claims, paid to a wallet of its creator. *)
Definition claims (j : VerificationJob) (t : Tip) : Prop :=
  tip_id t = vj_tip_id j /\ tip_hash t = vj_transaction_hash j /\
  default "" (tip_source t) = vj_source_account j /\
  xlm_to_stroops_str (tip_amount t) = Ok (vj_amount_stroops j) /\
  Owned (tip_creator t) (vj_destination j).

(** The verifier has the evidence of a payment of the tip's amount by its
    transaction, from its source account, to a wallet of its creator. *)
Definition paid (t : Tip) : Prop :=
  exists j, claims j t /\ evidence (verify_request j).

(** The id was drawn and no row has it: the row was never kept, or was deleted. *)
Definition gone (w : World (V := V)) (tid : string) : Prop :=
  Inj (=) (=) uuid /\ (exists k, (k < w_uuids w)%nat /\ tid = uuid k) /\ tid ∉ tip_id <$> w_tips w.

Definition job_ok (w : World (V := V)) (j : VerificationJob) : Prop :=
  0 <= vj_attempt j <= MAX_ATTEMPTS /\ ((exists t, t ∈ w_tips w /\ claims j t) \/ gone w (vj_tip_id j)).

Record inv (w : World (V := V)) : Prop := {
  inv_ids : NoDup (tip_id <$> w_tips w);
  inv_hashes : NoDup (tip_hash <$> w_tips w);
  inv_drawn t : t ∈ w_tips w -> exists k, (k < w_uuids w)%nat /\ tip_id t = uuid k;
  inv_wallets u a : w_creators w !! u = Some a -> Owned u a;
  inv_jobs j : j ∈ w_queue w -> job_ok w j;
  inv_status t : t ∈ w_tips w -> tip_status t <> None;
  inv_confirmed t : t ∈ w_tips w -> tip_status t = Some StatusConfirmed -> paid t;
  inv_hooks_once : NoDup (tip_id <$> (w_webhooks w).*2);
  inv_hooks e t : (e, t) ∈ w_webhooks w ->
    e = "tip.confirmed" /\ tip_status t = Some StatusConfirmed /\ (t ∈ w_tips w \/ gone w (tip_id t))
}.

(** What a tip row becomes: its status is final once it is not pending. *)
Definition evolves (t t' : Tip) : Prop :=
  tip_status t <> Some PendingVerification /\ t' = t \/
  tip_status t = Some PendingVerification /\ exists st, t' = set_status st t.

(** Every row stays; ids without a row stay so. *)
Definition later (w w' : World (V := V)) : Prop :=
  (forall t, t ∈ w_tips w -> exists t', t' ∈ w_tips w' /\ evolves t t') /\
  (forall tid, gone w tid -> gone w' tid) /\
  w_webhooks w `prefix_of` w_webhooks w'.

(** The same, but rows may have gone for good. *)
Definition since (w w' : World (V := V)) : Prop :=
  (forall t, t ∈ w_tips w -> (exists t', t' ∈ w_tips w' /\ evolves t t') \/ gone w' (tip_id t)) /\
  (forall tid, gone w tid -> gone w' tid) /\
  w_webhooks w `prefix_of` w_webhooks w'.

(** The effect of an operation that starts in a good world. *)
Definition good (w w' : World (V := V)) : Prop := inv w -> inv w' /\ later w w'.

(** Same tables, jobs and webhooks. *)
Definition quiet (w w' : World (V := V)) : Prop :=
  w_tips w' = w_tips w /\ w_creators w' = w_creators w /\ w_queue w' = w_queue w /\
  w_webhooks w' = w_webhooks w /\ (w_uuids w <= w_uuids w')%nat.

Lemma evolves_refl t : tip_status t <> None -> evolves t t.
Proof.
  intros Hn. unfold evolves. destruct (decide (tip_status t = Some PendingVerification)) as [E |];
    [right | by left].
  split; [done |]. exists PendingVerification. destruct t; simpl in *; by subst.
Qed.

Lemma evolves_trans t1 t2 t3 : evolves t1 t2 -> evolves t2 t3 -> evolves t1 t3.
Proof.
  intros [[H1 ->] | [H1 [st ->]]] H2; [done |]. right. split; [done |].
  destruct H2 as [[_ ->] | [_ [st' ->]]]; [by exists st | by exists st'].
Qed.

Lemma evolves_same t t' :
  evolves t t' ->
  tip_id t' = tip_id t /\ tip_hash t' = tip_hash t /\ tip_source t' = tip_source t /\
  tip_amount t' = tip_amount t /\ tip_creator t' = tip_creator t.
Proof. by intros [[_ ->] | [_ [st ->]]]. Qed.

Lemma claims_evolves j t t' : evolves t t' -> claims j t -> claims j t'.
Proof.
  intros (E1 & E2 & E3 & E4 & E5)%evolves_same. unfold claims. by rewrite E1, E2, E3, E4, E5.
Qed.

Lemma later_refl w : inv w -> later w w.
Proof. intros I. split; [| done]. intros t Ht. exists t. split; [done |]. by apply evolves_refl, (inv_status w). Qed.

Lemma later_trans w1 w2 w3 : later w1 w2 -> later w2 w3 -> later w1 w3.
Proof.
  intros (H1 & G1 & P1) (H2 & G2 & P2). split_and!; [| auto | by etrans].
  intros t Ht. destruct (H1 t Ht) as (t2 & Ht2 & E2). destruct (H2 t2 Ht2) as (t3 & Ht3 & E3).
  exists t3. split; [done | by eapply evolves_trans].
Qed.

Lemma later_since w w' : later w w' -> since w w'.
Proof. intros (H & G & P). split_and!; [| done | done]. intros t Ht. left. auto. Qed.

Lemma since_trans w1 w2 w3 : since w1 w2 -> since w2 w3 -> since w1 w3.
Proof.
  intros (H1 & G1 & P1) (H2 & G2 & P2). split_and!; [| auto | by etrans].
  intros t Ht. destruct (H1 t Ht) as [(t2 & Ht2 & E2) | Hg]; [| right; auto].
  destruct (H2 t2 Ht2) as [(t3 & Ht3 & E3) | Hg].
  - left. exists t3. split; [done | by eapply evolves_trans].
  - right. apply evolves_same in E2 as (<- & _). done.
Qed.

Lemma good_trans w1 w2 w3 : good w1 w2 -> good w2 w3 -> good w1 w3.
Proof.
  intros H12 H23 I. destruct (H12 I) as [I2 L2]. destruct (H23 I2) as [I3 L3].
  split; [done | by eapply later_trans].
Qed.

Lemma quiet_refl w : quiet w w.
Proof. done. Qed.

Lemma quiet_trans w1 w2 w3 : quiet w1 w2 -> quiet w2 w3 -> quiet w1 w3.
Proof. unfold quiet. intros (-> & -> & -> & -> & ?) (-> & -> & -> & -> & ?). split_and!; done || lia. Qed.

Lemma gone_quiet w w' tid : quiet w w' -> gone w tid -> gone w' tid.
Proof.
  intros (Ht & _ & _ & _ & Hu) (Hi & (k & Hk & ->) & Hn). split_and!; [done | | by rewrite Ht].
  exists k. split; [lia | done].
Qed.

Lemma good_quiet w w' : quiet w w' -> good w w'.
Proof.
  intros Hquiet I. pose proof (fun tid => gone_quiet w w' tid Hquiet) as Hg.
  destruct Hquiet as (Ht & Hc & Hq & Hh & Hu). assert (inv w') as I'.
  { destruct I. constructor; rewrite ?Ht, ?Hc, ?Hq, ?Hh; try done.
    - intros t Hin. destruct (inv_drawn0 t Hin) as (k & Hk & ?). exists k. split; [lia | done].
    - intros j Hj. destruct (inv_jobs0 j Hj) as [Ha Hj']. split; [done |]. rewrite Ht. destruct Hj'; auto.
    - intros e t Hin. destruct (inv_hooks0 e t Hin) as (? & ? & [? | ?]); auto. }
  split; [done |]. destruct (later_refl w I) as (L & _ & P). split_and!; [by rewrite Ht | done | by rewrite Hh].
Qed.

Lemma good_refl w : good w w.
Proof. apply good_quiet, quiet_refl. Qed.

Lemma job_ok_since w w' j : since w w' -> job_ok w j -> job_ok w' j.
Proof.
  intros (L & G & _) [Ha [(t & Ht & Hc) | Hg]]; (split; [done |]); [| right; auto].
  destruct (L t Ht) as [(t' & Ht' & E) | Hg].
  - left. exists t'. split; [done | by eapply claims_evolves].
  - right. destruct Hc as (<- & _). done.
Qed.

Lemma job_ok_later w w' j : later w w' -> job_ok w j -> job_ok w' j.
Proof. intros L. apply job_ok_since. by apply later_since. Qed.

Lemma not_gone w t : t ∈ w_tips w -> ~ gone w (tip_id t).
Proof. intros Ht (_ & _ & Hn). apply Hn. by apply list_elem_of_fmap_2. Qed.

(** A query is quiet but for what its statement does. *)
Lemma query_cases {A} (q : World -> A * World) (w : World (V := V)) :
  exists w0, quiet w w0 /\
    ((exists e, query q w = (Err e, w0)) \/
     (exists e, query q w = (Err e, snd (q w0))) \/
     query q w = (Ok (fst (q w0)), snd (q w0))).
Proof.
  unfold query, remote. simpl. destruct (pop_fault (w_faults w)) as [f l].
  exists (with_env (w_creators w) (w_now w) (w_uuids w) l w). split; [done |].
  destruct f; destruct (q _) as [a w2]; eauto.
Qed.

(** Operations that only do quiet things. *)
Definition silent {A} (m : Pipe (V := V) A) : Prop := forall w, quiet w (snd (m w)).

Lemma silent_bind {A B} (m : Pipe A) (k : A -> Pipe B) :
  silent m -> (forall a, silent (k a)) -> silent (m ≫= k).
Proof.
  intros Hm Hk w. unfold mbind, M_bind. specialize (Hm w).
  destruct (m w) as [[a | e] w']; simpl in *; [| done].
  eapply quiet_trans; [exact Hm | apply Hk].
Qed.

Lemma silent_ret {A} (a : A) : silent (mret a).
Proof. intros w. apply quiet_refl. Qed.

Lemma silent_attempt {A} (m : Pipe A) : silent m -> silent (attempt m).
Proof. intros Hm w. unfold attempt. specialize (Hm w). by destruct (m w). Qed.

Lemma silent_query {A} (q : World -> A * World) :
  (forall w, quiet w (snd (q w))) -> silent (query q).
Proof.
  intros Hq w. destruct (query_cases q w) as (w0 & H0 & [[e ->] | [[e ->] | ->]]); simpl; [done | |];
    (eapply quiet_trans; [exact H0 | apply Hq]).
Qed.

Lemma silent_log tid creator action : silent (log_action tid creator action).
Proof. apply silent_bind; [| intros; apply silent_ret]. by apply silent_attempt, silent_query. Qed.

Lemma silent_invalidate username : silent (invalidate username).
Proof.
  apply silent_bind; [done |]. intros []; [| apply silent_ret].
  apply silent_bind; [| intros; apply silent_ret].
  apply silent_bind; [| intros; apply silent_ret]. by apply silent_attempt, silent_query.
Qed.

Lemma silent_moderate message : silent (moderate moderation_rejects message).
Proof.
  unfold moderate. destruct message as [msg |]; [| apply silent_ret].
  destruct (String.eqb _ _); [apply silent_ret |]. apply silent_bind; [done |].
  intros _. by destruct (moderation_rejects msg).
Qed.

Lemma silent_wallet username : silent (fetch_creator_wallet username).
Proof. by apply silent_query. Qed.

Lemma silent_list username : silent (get_tips_for_creator from_row username).
Proof.
  apply silent_bind; [by apply silent_query |]. intros rows.
  apply silent_bind; [by destruct (_ || _) |]. intros tips.
  apply silent_bind; [done |]. intros connected. apply silent_bind; [| intros; apply silent_ret].
  destruct connected; [| apply silent_ret].
  apply silent_bind; [| intros; apply silent_ret]. by apply silent_attempt, silent_query.
Qed.

(** ** Steps keep the invariant *)

Lemma good_enqueue j w :
  job_ok w j -> good w (snd (enqueue j w)).
Proof.
  intros Hj I. unfold enqueue. destruct (w_queue_open w); simpl; [| split; [done | by apply later_refl]].
  split; [| exact (later_refl w I)].
  destruct I. constructor; try done. simpl. intros j' [Hj' | Hj']%elem_of_app; [by apply inv_jobs0 |].
  apply list_elem_of_singleton in Hj' as ->. done.
Qed.

Lemma existsb_false {A} (p : A -> bool) l : existsb p l = false -> forall x, x ∈ l -> p x = false.
Proof.
  intros Hnone x Hx%list_elem_of_In. apply not_true_is_false. intros Hp.
  assert (existsb p l = true) by (apply existsb_exists; eauto). congruence.
Qed.

Lemma insert_tip_cases tid req w :
  match insert_tip tid req w with
  | (Ok (Some t), w') =>
      w' = with_tables (w_tips w ++ [t]) (w_logs w) w /\
      tip_id t = tid /\ tip_hash t = rq_transaction_hash req /\
      tip_source t = Some (rq_tipper_source_account req) /\ tip_amount t = rq_amount req /\
      tip_creator t = rq_username req /\ tip_status t = Some PendingVerification /\
      tip_id t ∉ tip_id <$> w_tips w /\ tip_hash t ∉ tip_hash <$> w_tips w
  | (_, w') => w' = w
  end.
Proof.
  unfold insert_tip. destruct (existsb _ (w_tips w)) eqn:E1; [done |].
  destruct (existsb (fun t => String.eqb (tip_id t) tid) _) eqn:E2; [done |].
  destruct (w_creators w !! _) as [a |]; [| done]. cbn [tip_id tip_hash tip_source tip_amount tip_creator tip_status].
  do 7 (split; [reflexivity |]).
  split; intros (t & Heq & Ht)%list_elem_of_fmap.
  - pose proof (existsb_false _ _ E2 t Ht) as Hn. apply String.eqb_neq in Hn. by subst.
  - pose proof (existsb_false _ _ E1 t Ht) as Hn. apply String.eqb_neq in Hn. by subst.
Qed.

(** A new row: its id was drawn after the world [w]. *)
Lemma good_insert t logs w w3 :
  quiet w w3 -> tip_id t = uuid (w_uuids w) -> (w_uuids w < w_uuids w3)%nat ->
  tip_status t = Some PendingVerification ->
  tip_id t ∉ tip_id <$> w_tips w3 -> tip_hash t ∉ tip_hash <$> w_tips w3 ->
  good w (with_tables (w_tips w3 ++ [t]) logs w3).
Proof.
  intros Hquiet Hdraw Hlt Hst Hid Hh I. destruct (good_quiet _ _ Hquiet I) as [I3 L3].
  assert (later w (with_tables (w_tips w3 ++ [t]) logs w3)) as L.
  { destruct L3 as (L & G & P). split_and!; [| | done].
    - intros u Hu. destruct (L u Hu) as (u' & ? & ?). exists u'. split; [simpl; set_solver | done].
    - intros tid Hg. pose proof Hg as (Hi & (k & Hk & ->) & _). destruct (G _ Hg) as (_ & Hk3 & Hn).
      split_and!; [done | done |]. simpl. rewrite fmap_app. intros [? | Heq%list_elem_of_singleton]%elem_of_app; [done |].
      rewrite Hdraw in Heq. apply Hi in Heq. lia. }
  split; [| done].
  destruct Hquiet as (Ht & Hc & Hq & Hhook & Hu).
  assert (forall j, j ∈ w_queue w3 -> job_ok (with_tables (w_tips w3 ++ [t]) logs w3) j) as Hjobs.
  { intros j. rewrite Hq. intros Hj. eapply job_ok_later, (inv_jobs w I j Hj). exact L. }
  assert (forall e u, (e, u) ∈ w_webhooks w3 -> e = "tip.confirmed" /\ tip_status u = Some StatusConfirmed /\
            (u ∈ w_tips w3 ++ [t] \/ gone (with_tables (w_tips w3 ++ [t]) logs w3) (tip_id u))) as Hhooks.
  { intros e u. rewrite Hhook. intros Hin. destruct (inv_hooks w I e u Hin) as (? & ? & [Hin' | Hg]); split_and!; try done.
    - left. rewrite Ht. set_solver.
    - right. by apply L. }
  destruct I3. constructor; simpl in *; try done.
  - rewrite fmap_app. apply NoDup_app. split_and!; [done | set_solver | apply NoDup_singleton].
  - rewrite fmap_app. apply NoDup_app. split_and!; [done | set_solver | apply NoDup_singleton].
  - intros u [Hin | ->%list_elem_of_singleton]%elem_of_app; [by apply inv_drawn0 | by exists (w_uuids w)].
  - intros u [Hin | ->%list_elem_of_singleton]%elem_of_app; [by apply inv_status0 | by rewrite Hst].
  - intros u [Hin | ->%list_elem_of_singleton]%elem_of_app; [by apply inv_confirmed0 | by rewrite Hst].
Qed.

Lemma is_pending_true tid t :
  is_pending tid t = true <-> tip_id t = tid /\ tip_status t = Some PendingVerification.
Proof.
  unfold is_pending. rewrite andb_true_iff, String.eqb_eq, bool_decide_eq_true. done.
Qed.

Definition settle_row (tid : string) (st : TipStatus) (t : Tip) : Tip :=
  if is_pending tid t then set_status st t else t.

Lemma settle_row_evolves tid st t : tip_status t <> None -> evolves t (settle_row tid st t).
Proof.
  intros Hn. unfold settle_row. destruct (is_pending tid t) eqn:E; [| by apply evolves_refl].
  apply is_pending_true in E as [_ E]. right. eauto.
Qed.

Lemma settle_tips tid st w :
  w_tips (snd (settle_tip tid st w)) = settle_row tid st <$> w_tips w.
Proof. done. Qed.

(** A settled row is a new decision about [tid] or an old row. *)
Lemma settled_row_cases tid st w t' :
  t' ∈ settle_row tid st <$> w_tips w ->
  exists t, t ∈ w_tips w /\ t' = settle_row tid st t /\
    (t' = t \/ tip_id t = tid /\ tip_status t = Some PendingVerification /\ t' = set_status st t).
Proof.
  intros (t & -> & Ht)%list_elem_of_fmap. exists t. split_and!; [done | done |]. unfold settle_row.
  destruct (is_pending tid t) eqn:E; [| by left]. apply is_pending_true in E as [? ?]. by right.
Qed.

Lemma good_settle tid st w :
  (st = StatusConfirmed -> forall t, t ∈ w_tips w -> tip_id t = tid -> paid t) ->
  good w (snd (settle_tip tid st w)).
Proof.
  intros Hpaid I.
  assert (forall t, tip_id (settle_row tid st t) = tip_id t /\ tip_hash (settle_row tid st t) = tip_hash t)
    as Hsame by (intros t; unfold settle_row; by destruct (is_pending tid t)).
  assert (tip_id <$> (settle_row tid st <$> w_tips w) = tip_id <$> w_tips w) as Hids.
  { rewrite <- list_fmap_compose. apply list_fmap_ext. intros; apply Hsame. }
  assert (forall i, gone w i -> gone (snd (settle_tip tid st w)) i) as Hg.
  { intros i (? & ? & Hn). split_and!; [done | done |]. by rewrite settle_tips, Hids. }
  assert (later w (snd (settle_tip tid st w))) as L.
  { split_and!; [| done | done]. intros t Ht. exists (settle_row tid st t).
    split; [rewrite settle_tips; by apply list_elem_of_fmap_2 |].
    by apply settle_row_evolves, (inv_status w). }
  split; [| done]. pose proof (fun j Hj => job_ok_later _ _ j L (inv_jobs w I j Hj)) as Hjobs.
  destruct I. constructor; try done; rewrite ?settle_tips.
  - by rewrite Hids.
  - rewrite <- list_fmap_compose.
    by rewrite (list_fmap_ext _ tip_hash) by (intros; apply Hsame).
  - intros t' (t & Ht & -> & _)%settled_row_cases. rewrite (proj1 (Hsame t)). by apply inv_drawn0.
  - intros t' (t & Ht & _ & [-> | (_ & _ & ->)])%settled_row_cases; [by apply inv_status0 | done].
  - intros t' (t & Ht & _ & [-> | (Hid & Hp & ->)])%settled_row_cases Hc; [by apply inv_confirmed0 |].
    injection Hc as ->. destruct (Hpaid eq_refl t Ht Hid) as (j & Hj & Hev). exists j. split; [| done].
    eapply claims_evolves; [| exact Hj]. right. eauto.
  - intros e t Ht. destruct (inv_hooks0 e t Ht) as (? & Hc & [Hin | ?]); split_and!; try done; [left | by right; apply Hg].
    assert (settle_row tid st t = t) as <-.
    { unfold settle_row. destruct (is_pending tid t) eqn:E; [| done].
      apply is_pending_true in E as [_ E]. congruence. }
    by apply list_elem_of_fmap_2.
Qed.

(** The row the statement returns was pending and is now settled. *)
Lemma settle_returns tid st w t' :
  fst (settle_tip tid st w) = Some t' ->
  exists t, t ∈ w_tips w /\ tip_id t = tid /\ tip_status t = Some PendingVerification /\
    t' = set_status st t /\ t' ∈ settle_row tid st <$> w_tips w.
Proof.
  unfold settle_tip. cbn [fst]. destruct (list_find _ _) as [[i t] |] eqn:E; [| done].
  intros [= <-]. apply list_find_Some in E as (Hi & Hp%Is_true_true & _).
  assert (t ∈ w_tips w) as Ht by (by eapply list_elem_of_lookup_2).
  assert (settle_row tid st t = set_status st t) as Hs by (unfold settle_row; by rewrite Hp).
  apply is_pending_true in Hp as [Hid Hst].
  exists t. split_and!; try done. rewrite <- Hs. by apply list_elem_of_fmap_2.
Qed.

Lemma hooks_settled w e t :
  inv w -> (e, t) ∈ w_webhooks w ->
  forall t', t' ∈ w_tips w -> tip_id t' = tip_id t -> tip_status t' = Some StatusConfirmed.
Proof.
  intros I Ht t' Ht' Heq. destruct (inv_hooks w I e t Ht) as (_ & Hc & [Hin | Hg]);
    [| exfalso; rewrite <- Heq in Hg; by eapply not_gone].
  apply list_elem_of_lookup in Hin as [i Hi]. apply list_elem_of_lookup in Ht' as [k Hk].
  assert (i = k) as ->.
  { apply (NoDup_lookup (tip_id <$> w_tips w) _ _ (tip_id t)); [apply I | |];
      rewrite list_lookup_fmap; [by rewrite Hi | by rewrite Hk, <- Heq]. }
  congruence.
Qed.

(** Notifying a tip that was confirmed a moment ago. *)
Lemma good_notify t w :
  t ∈ w_tips w -> tip_status t = Some StatusConfirmed -> tip_id t ∉ tip_id <$> (w_webhooks w).*2 ->
  good w (with_outputs (w_cache w) (w_webhooks w ++ [("tip.confirmed", t)]) (w_broadcasts w)
            (w_moderated w) w).
Proof.
  intros Ht Hc Hnew I. split.
  - destruct I. constructor; try done; simpl.
    + rewrite !fmap_app. apply NoDup_app. split_and!; [done | set_solver | apply NoDup_singleton].
    + intros e u [Hu | Heq%list_elem_of_singleton]%elem_of_app; [by apply inv_hooks0 |].
      injection Heq as -> ->. split_and!; [done | done | by left].
  - destruct (later_refl w I) as (L & G & _). split_and!; [done | done |]. simpl. by apply prefix_app_r.
Qed.

Lemma good_after {A B} (m : Pipe A) (k : A -> Pipe B) w :
  silent m -> (forall a w', quiet w w' -> good w' (snd (k a w'))) -> good w (snd ((m ≫= k) w)).
Proof.
  intros Hm Hk. unfold mbind, M_bind. specialize (Hm w).
  destruct (m w) as [[a | e] w']; simpl in *; [| by apply good_quiet].
  eapply good_trans; [by apply good_quiet | by apply Hk].
Qed.

Lemma good_silent {A} (m : Pipe A) w : silent m -> good w (snd (m w)).
Proof. intros Hm. apply good_quiet, Hm. Qed.

Lemma good_then {A B} (m : Pipe A) (k : A -> Pipe B) w :
  good w (snd (m w)) -> (forall a w', good w' (snd (k a w'))) -> good w (snd ((m ≫= k) w)).
Proof.
  intros Hm Hk. unfold mbind, M_bind. destruct (m w) as [[a | e] w']; simpl in *; [| done].
  eapply good_trans; [exact Hm | apply Hk].
Qed.

Lemma good_ok {A B} (m : Pipe A) (k : A -> Pipe B) w a w' :
  m w = (Ok a, w') -> good w w' -> good w' (snd (k a w')) -> good w (snd ((m ≫= k) w)).
Proof. intros Hm G1 G2. unfold mbind, M_bind. rewrite Hm. by eapply good_trans. Qed.

Lemma good_err {A B} (m : Pipe A) (k : A -> Pipe B) w e w' :
  m w = (Err e, w') -> good w w' -> good w (snd ((m ≫= k) w)).
Proof. intros Hm G1. unfold mbind, M_bind. by rewrite Hm. Qed.

Lemma good_attempt {E A} (m : M (World (V := V)) E A) w :
  good w (snd (m w)) -> good w (snd (attempt (E' := AppError) m w)).
Proof. unfold attempt. by destruct (m w). Qed.

(** The common part of [confirm_tip] and [reject_tip]: settle the row, then act
    on the row returned. *)
Lemma good_settled {B} tid st (k : Tip -> Pipe B) w :
  (st = StatusConfirmed -> forall t, t ∈ w_tips w -> tip_id t = tid -> paid t) ->
  (forall t w0 w1, quiet w w0 -> inv w0 -> fst (settle_tip tid st w0) = Some t ->
     w1 = snd (settle_tip tid st w0) -> good w1 (snd (k t w1))) ->
  good w (snd ((row ← query (settle_tip tid st);
                decoded ← decode_tip from_row row;
                tip ← expect (tip_not_found tid) decoded; k tip) w)).
Proof.
  intros Hpaid Hk I. destruct (query_cases (settle_tip tid st) w) as (w0 & H0 & Hcases).
  pose proof (good_quiet _ _ H0) as G0. destruct (G0 I) as [I0 _].
  assert (good w0 (snd (settle_tip tid st w0))) as G1.
  { apply good_settle. destruct H0 as (-> & _). exact Hpaid. }
  revert I. change (good w (snd ((row ← query (settle_tip tid st);
                decoded ← decode_tip from_row row;
                tip ← expect (tip_not_found tid) decoded; k tip) w))).
  destruct Hcases as [[e He] | [[e He] | He]].
  - by rewrite (bind_err _ _ _ _ _ He).
  - rewrite (bind_err _ _ _ _ _ He). by eapply good_trans.
  - rewrite (bind_ok _ _ _ _ _ He). eapply good_trans; [exact G0 |].
    eapply good_trans; [exact G1 |]. specialize (Hk) with (w0 := w0).
    destruct (fst (settle_tip tid st w0)) as [t |]; [| apply good_refl].
    unfold decode_tip. destruct (from_row tip_columns); [| apply good_refl]. by apply (Hk t).
Qed.

Lemma good_confirm tid w :
  (forall t, t ∈ w_tips w -> tip_id t = tid -> paid t) ->
  good w (snd (confirm_tip from_row tid w)).
Proof.
  intros Hpaid. apply good_settled; [done |].
  intros t w0 w1 H0 I0 Hrow ->.
  destruct (settle_returns _ _ _ _ Hrow) as (t0 & Ht0 & Hid & Hp & -> & Hin).
  apply good_after; [apply silent_log |]. intros _ w2 H2.
  apply good_after; [apply silent_invalidate |]. intros _ w3 H3.
  pose proof (quiet_trans _ _ _ H2 H3) as (Ht & _ & _ & Hh & _).
  apply good_notify; rewrite ?Ht, ?Hh; [done | done |]. simpl.
  intros (u & Hu & ([e u'] & Heq & Hhook)%list_elem_of_fmap)%list_elem_of_fmap. simpl in Heq. subst u.
  pose proof (hooks_settled _ _ _ I0 Hhook t0 Ht0 Hu). congruence.
Qed.

Lemma good_reject tid reason w : good w (snd (reject_tip from_row tid reason w)).
Proof.
  apply good_settled; [done |]. intros t w0 w1 _ _ _ _.
  apply good_silent, silent_bind; [apply silent_log | intros _; apply silent_invalidate].
Qed.

Lemma good_verdict j verdict w :
  0 <= vj_attempt j < MAX_ATTEMPTS -> job_ok w j ->
  (verdict = Ok Confirmed -> evidence (verify_request j)) ->
  good w (snd (process_verdict from_row j verdict w)).
Proof.
  intros Ha Hj Hev I. unfold process_verdict.
  assert (forall {A} (m : Pipe A), good w (snd (m w)) ->
            good w (snd ((_ ← attempt (E := AppError) (E' := AppError) m; mret tt) w))) as Hatt.
  { intros A m Hm. run_m. by destruct (m w). }
  destruct verdict as [[| reason] | e].
  - apply Hatt; [| done]. apply good_confirm. intros t Ht Hid.
    destruct Hj as [_ [(t0 & Ht0 & Hc) | Hg]]; [| exfalso; rewrite <- Hid in Hg; by eapply not_gone].
    exists j. split; [| by apply Hev].
    assert (t = t0) as ->; [| done].
    apply list_elem_of_lookup in Ht as [i Hi]. apply list_elem_of_lookup in Ht0 as [k Hk].
    assert (i = k) as ->; [| congruence].
    apply (NoDup_lookup (tip_id <$> w_tips w) _ _ (tip_id t)); [apply I | |];
      rewrite list_lookup_fmap; [by rewrite Hi | rewrite Hk; simpl; f_equal].
    destruct Hc as (-> & _). done.
  - apply Hatt; [| done]. apply good_reject.
  - set (w1 := snd (sleep (backoff (vj_attempt j)) w)).
    change (inv (snd ((_ ← attempt (E' := AppError) (enqueue (next_attempt j)); mret tt) w1)) /\
            later w (snd ((_ ← attempt (E' := AppError) (enqueue (next_attempt j)); mret tt) w1))).
    destruct (good_quiet w w1) as [I1 L1]; [done | done |].
    assert (job_ok w1 (next_attempt j)) as Hj1.
    { destruct Hj as [_ Hj]. split; [| exact Hj]. simpl.
      unfold MAX_ATTEMPTS in *. rewrite wrap_u32_id by (unfold u32_max; lia). lia. }
    pose proof (good_enqueue _ w1 Hj1 I1) as [I2 L2].
    run_m. destruct (enqueue (next_attempt j) w1) as [r w2]. simpl in *.
    split; [done | exact (later_trans _ _ _ L1 L2)].
Qed.

Lemma good_reconcile_tip n tip w :
  (exists t, t ∈ w_tips w /\ evolves tip t) \/ gone w (tip_id tip) -> good w (snd (reconcile_tip n tip w)).
Proof.
  intros Htip I.
  destruct (xlm_to_stroops_str (tip_amount tip)) as [s | e] eqn:Hs;
    [| unfold reconcile_tip; rewrite Hs; by apply good_refl].
  destruct (query_cases (fun w => (w_creators w !! tip_creator tip, w)) w) as (w0 & H0 & Hcases).
  pose proof (good_quiet _ _ H0 I) as [I0 L0].
  assert (forall r, attempt (E' := AppError) (fetch_creator_wallet (tip_creator tip)) w = (Ok r, w0) ->
    (match r with Ok (Some a) => Owned (tip_creator tip) a | _ => True end) ->
    good w (snd (reconcile_tip n tip w))) as Hmain.
  { intros r Hr Hown _. unfold reconcile_tip. rewrite Hs, (bind_ok _ _ _ _ _ Hr).
    destruct r as [[a |] |]; [| done | done].
    assert (later w0 w0) as Lr by (by apply later_refl).
    match goal with |- context [enqueue ?j] => pose proof (good_enqueue j w0) as Hq; set (job := j) in * end.
    destruct Hq as [I2 L2]; [| done |].
    - split; [unfold MAX_ATTEMPTS; simpl; lia |]. destruct Htip as [(t & Ht & E) | Hg].
      + left. destruct H0 as (-> & _). exists t. split; [done |]. eapply claims_evolves; [exact E |]. done.
      + right. by apply (gone_quiet w).
    - run_m. destruct (enqueue job w0) as [r w2]. simpl in *. split; [done | exact (later_trans _ _ _ L0 L2)]. }
  revert I. change (good w (snd (reconcile_tip n tip w))).
  destruct Hcases as [[e He] | [[e He] | He]]; simpl in He.
  - apply (Hmain (Err e)); [| done]. unfold attempt, fetch_creator_wallet. by rewrite He.
  - apply (Hmain (Err e)); [| done]. unfold attempt, fetch_creator_wallet. by rewrite He.
  - apply (Hmain (Ok (w_creators w0 !! tip_creator tip))).
    + unfold attempt, fetch_creator_wallet. by rewrite He.
    + destruct (w_creators w0 !! _) as [a |] eqn:Ha; [| done]. by apply (inv_wallets w0 I0).
Qed.

Lemma wallet_result u w o w' :
  fetch_creator_wallet u w = (Ok o, w') -> quiet w w' /\ o = w_creators w !! u.
Proof.
  unfold fetch_creator_wallet.
  destruct (query_cases (fun w => (w_creators w !! u, w)) w) as (w0 & H0 & [[e ->] | [[e ->] | ->]]);
    [done | done |].
  intros [= <- <-]. split; [done |]. simpl. by destruct H0 as (_ & -> & _).
Qed.

(** What [record_tip] does after the insertion. *)
Definition record_rest (req : RecordTipRequest) (tip : Tip) : Pipe (V := V) Tip :=
  log_action (tip_id tip) (tip_creator tip) "submitted";;
  amount_stroops ←
    map_err (fun e => Validation (InvalidRequest ("Invalid tip amount: " +:+ e)))
      (lift (xlm_to_stroops_str (rq_amount req)));
  wallet ← fetch_creator_wallet (rq_username req);
  destination ← expect (CreatorNotFound (rq_username req)) wallet;
  _ ← attempt (E' := AppError) (enqueue
        {| vj_tip_id := tip_id tip; vj_transaction_hash := rq_transaction_hash req;
           vj_amount_stroops := amount_stroops; vj_destination := destination;
           vj_expected_memo := rq_memo req; vj_source_account := rq_tipper_source_account req;
           vj_attempt := 0 |});
  modify_outputs id (fun l => l ++
    [{| ev_creator_id := tip_creator tip; ev_tipper_id := rq_tipper_source_account req;
        ev_amount := default 0 (parse_u64 (tip_amount tip)); ev_timestamp := tip_created_at tip |}]) id;;
  invalidate (tip_creator tip);;
  mret tip.

Lemma good_record_rest req t w :
  t ∈ w_tips w -> tip_hash t = rq_transaction_hash req ->
  tip_source t = Some (rq_tipper_source_account req) -> tip_amount t = rq_amount req ->
  tip_creator t = rq_username req ->
  good w (snd (record_rest req t w)).
Proof.
  intros Ht Hh Hs Ha Hc. unfold record_rest.
  apply good_after; [apply silent_log |]. intros _ w1 H1.
  destruct (xlm_to_stroops_str (rq_amount req)) as [n | e] eqn:Hn; [| apply good_refl].
  eapply (good_ok _ _ w1 n w1); [done | apply good_refl |].
  destruct (fetch_creator_wallet (rq_username req) w1) as [[o | e] w2] eqn:Hw.
  2: { eapply (good_err _ _ w1 e w2 Hw).
       pose proof (good_silent _ w1 (silent_wallet (rq_username req))) as G. by rewrite Hw in G. }
  destruct (wallet_result _ _ _ _ Hw) as [H2 ->].
  eapply (good_ok _ _ w1 _ w2 Hw); [by apply good_quiet |].
  destruct (w_creators w1 !! rq_username req) as [a |] eqn:Hown; [| apply good_refl].
  eapply (good_ok _ _ w2 a w2); [done | apply good_refl |].
  apply good_then.
  - apply good_attempt. intros I. apply good_enqueue; [| done].
    split; [unfold MAX_ATTEMPTS; simpl; lia |]. left. exists t.
    destruct H1 as (T1 & C1 & _). destruct H2 as (T2 & C2 & _). rewrite T2, T1. split; [done |].
    unfold claims. simpl. rewrite Hh, Hs, Ha, Hc, Hn. split_and!; try done.
    apply (inv_wallets w2 I). by rewrite C2.
  - intros r w3. apply good_silent, silent_bind; [done |]. intros _.
    apply silent_bind; [apply silent_invalidate | intros; apply silent_ret].
Qed.

Lemma good_record req w : good w (snd (record_tip uuid from_row moderation_rejects req w)).
Proof.
  unfold record_tip. apply good_after; [apply silent_moderate |]. intros _ w1 _.
  set (w2 := with_env (w_creators w1) (w_now w1) (S (w_uuids w1)) (w_faults w1) w1).
  set (tid := uuid (w_uuids w1)).
  match goal with |- good _ (snd ?run) => let r := eval unfold mbind at 1, M_bind at 1 in run in change run with r end.
  cbn [new_uuid]. fold w2 tid.
  assert (quiet w1 w2) as H2 by (unfold quiet; simpl; split_and!; done || lia).
  destruct (query_cases (insert_tip tid req) w2) as (w3 & H3 & Hcases).
  assert (w_uuids w1 < w_uuids w3)%nat as Hlt by (destruct H3 as (_ & _ & _ & _ & Hu); simpl in Hu; lia).
  pose proof (quiet_trans _ _ _ H2 H3) as H13. pose proof (good_quiet _ _ H13) as G0.
  pose proof (insert_tip_cases tid req w3) as Hins.
  destruct (insert_tip tid req w3) as [[[t |] | e] w4] eqn:Hi.
  2,3: subst w4; destruct Hcases as [[e' He] | [[e' He] | He]];
    [by rewrite (bind_err _ _ _ _ _ He) | by rewrite (bind_err _ _ _ _ _ He) | by rewrite (bind_ok _ _ _ _ _ He)].
  destruct Hins as (-> & Hid & Hh & Hs & Ha & Hc & Hst & Hfresh & Hnew).
  pose proof (good_insert t (w_logs w3) w1 w3 H13 Hid Hlt Hst Hfresh Hnew) as G.
  destruct Hcases as [[e He] | [[e He] | He]].
  - by rewrite (bind_err _ _ _ _ _ He).
  - by rewrite (bind_err _ _ _ _ _ He).
  - rewrite (bind_ok _ _ _ _ _ He). eapply good_trans; [exact G |]. simpl.
    eapply (good_ok _ _ _ (Some t)); [done | apply good_refl |]. simpl.
    unfold decode_tip. destruct (from_row tip_columns); [| apply good_refl].
    apply good_record_rest; [set_solver | done | done | done | done].
Qed.

(** ** Deletions keep the invariant *)

Lemma nodup_filter {B} (f : Tip -> B) (p : Tip -> bool) l : NoDup (f <$> l) -> NoDup (f <$> filter (fun t => p t = false) l).
Proof.
  induction l as [| t l IH]; [done |]. rewrite filter_cons. rewrite fmap_cons, NoDup_cons. intros [Hn Hd].
  case_decide; [| by apply IH]. rewrite fmap_cons, NoDup_cons. split; [| by apply IH].
  intros (u & Hu & [_ Hin]%list_elem_of_filter)%list_elem_of_fmap. apply Hn. rewrite Hu. by apply list_elem_of_fmap_2.
Qed.

(** Of the rows that meet [p] only the ids are left, which no row has again. *)
Lemma rows_dropped p creators w :
  Inj (=) (=) uuid -> (forall u a, creators !! u = Some a -> w_creators w !! u = Some a) -> inv w ->
  let w' := with_env creators (w_now w) (w_uuids w) (w_faults w) (drop_tips p w) in
  inv w' /\ since w w'.
Proof.
  intros Hi Hcr I w'. assert (forall t, t ∈ w_tips w' <-> p t = false /\ t ∈ w_tips w) as Hin
    by (intros t; apply (list_elem_of_filter (fun t => p t = false))).
  assert (forall tid, gone w tid -> gone w' tid) as Hg.
  { intros tid (_ & Hk & Hn). split_and!; [done | done |]. intros (t & -> & [_ Ht]%Hin)%list_elem_of_fmap.
    apply Hn. by apply list_elem_of_fmap_2. }
  assert (forall t, t ∈ w_tips w -> t ∈ w_tips w' \/ gone w' (tip_id t)) as Hrow.
  { intros t Ht. destruct (p t) eqn:Hp; [right | left; by apply Hin]. split_and!; [done | by apply (inv_drawn w I) |].
    intros (u & Heq & [Hpu Hu]%Hin)%list_elem_of_fmap. enough (u = t) by congruence.
    symmetry. exact (nodup_key_inj tip_id (w_tips w) t u (inv_ids w I) Ht Hu Heq). }
  assert (since w w') as Hs.
  { split_and!; [| done | done]. intros t Ht. destruct (Hrow t Ht) as [? | ?]; [left | by right].
    exists t. split; [done |]. by apply evolves_refl, (inv_status w). }
  split; [| done]. pose proof (fun j Hj => job_ok_since _ _ j Hs (inv_jobs w I j Hj)) as Hjobs.
  destruct I. constructor; try done.
  - by apply nodup_filter.
  - by apply nodup_filter.
  - intros t [_ Ht]%Hin. by apply inv_drawn0.
  - intros u a Hu. by apply inv_wallets0, Hcr.
  - intros t [_ Ht]%Hin. by apply inv_status0.
  - intros t [_ Ht]%Hin. by apply inv_confirmed0.
  - intros e t Ht. destruct (inv_hooks0 e t Ht) as (? & ? & [? | ?]); split_and!; auto.
Qed.

Lemma delete_sound d w : Inj (=) (=) uuid -> inv w -> inv (delete_by d w) /\ since w (delete_by d w).
Proof.
  intros Hi I. assert (forall A (q : World (V := V) -> A * World (V := V)),
      (forall w0, inv w0 -> inv (snd (q w0)) /\ since w0 (snd (q w0))) -> inv (snd (query q w)) /\ since w (snd (query q w))) as Hq.
  { intros A q Hstmt. destruct (query_cases q w) as (w0 & H0 & Hc). destruct (good_quiet _ _ H0 I) as [I0 L0].
    destruct (Hstmt w0 I0) as [I1 S1]. apply later_since in L0.
    destruct Hc as [[e ->] | [[e ->] | ->]]; simpl; (split; [done | done || by eapply since_trans]). }
  destruct d as [older_than | username | tid]; apply Hq; intros w0 I0; simpl.
  - pose proof (rows_dropped (fun t => tip_created_at t <? older_than) (w_creators w0) w0 Hi ltac:(done) I0) as Hd. by destruct w0.
  - apply rows_dropped; [done | | done]. intros u a [_ Hu]%lookup_delete_Some. exact Hu.
  - pose proof (rows_dropped (fun t => String.eqb (tip_id t) tid) (w_creators w0) w0 Hi ltac:(done) I0) as Hd. by destruct w0.
Qed.

(** ** Histories keep the invariant *)

Definition task_ok (w : World (V := V)) (t : task) : Prop :=
  match t with
  | Verifying j => job_ok w j
  | Settling j verdict =>
      job_ok w j /\ vj_attempt j < MAX_ATTEMPTS /\
      (verdict = Ok Confirmed -> evidence (verify_request j))
  | Reconciling tips => Forall (fun tip => (exists t, t ∈ w_tips w /\ evolves tip t) \/ gone w (tip_id tip)) tips
  end.

Definition sys_inv (s : System) : Prop := inv s.1 /\ Forall (task_ok s.1) s.2.

Lemma task_ok_since w w' t : since w w' -> task_ok w t -> task_ok w' t.
Proof.
  intros L. destruct t as [j | j verdict | tips]; simpl.
  - by apply job_ok_since.
  - intros (Hj & ?). split; [by eapply job_ok_since | done].
  - intros Hl. eapply Forall_impl; [exact Hl |]. intros tip [(t & Ht & E) | Hg]; destruct L as (L & G & _); [| right; auto].
    destruct (L t Ht) as [(t' & Ht' & E') | Hg]; [left; exists t'; split; [done | by eapply evolves_trans] | right].
    apply evolves_same in E as (<- & _). done.
Qed.

Lemma tasks_since w w' ts : since w w' -> Forall (task_ok w) ts -> Forall (task_ok w') ts.
Proof. intros L T. eapply Forall_impl; [exact T |]. intros t. by apply task_ok_since. Qed.

(** Rows go only by a deletion. *)
Definition deleted (w w' : World (V := V)) : Prop := exists d, w' = delete_by d w.

Definition advances (w w' : World (V := V)) : Prop := later w w' \/ deleted w w' /\ since w w'.

(** A step with a good effect on the world that keeps or drops tasks. *)
Lemma sys_inv_good w w' ts ts' :
  sys_inv (w, ts) -> good w w' -> (forall t, t ∈ ts' -> t ∈ ts \/ task_ok w' t) ->
  sys_inv (w', ts') /\ advances w w'.
Proof.
  intros [I T] G Hts. destruct (G I) as [I' L]. split; [| by left]. split; [done |].
  apply Forall_forall. intros t Ht. destruct (Hts t Ht) as [Hin | ?]; [| done].
  eapply task_ok_since; [by apply later_since |]. by eapply Forall_forall in T.
Qed.

Lemma good_env w creators now faults :
  (forall u a, creators !! u = Some a -> Owned u a) ->
  good w (with_env creators now (w_uuids w) faults w).
Proof.
  intros Hown I. split; [by destruct I |]. exact (later_refl w I).
Qed.

Lemma stuck_tips_in w t : t ∈ stuck_tips w -> t ∈ w_tips w.
Proof.
  unfold stuck_tips. intros Ht%elem_of_take. destruct Ht as (i & Ht & _).
  apply list_elem_of_lookup_2 in Ht. rewrite sort_by_perm in Ht. by apply list_elem_of_filter in Ht as [_ Ht].
Qed.

Lemma step_sound s s' : sys_inv s -> step s s' -> sys_inv s' /\ advances s.1 s'.1.
Proof.
  intros S Hstep. pose proof S as [I T]. destruct Hstep; simpl in *.
  - eapply sys_inv_good; [exact S | apply good_record | auto].
  - eapply sys_inv_good; [exact S | apply good_silent, silent_list | auto].
  - split; [| left; exact (later_refl w I)]. split.
    + destruct I. constructor; try done. simpl. intros j Hj. apply inv_jobs0. rewrite H. by right.
    + constructor; [| done]. apply (inv_jobs w I). rewrite H. by left.
  - eapply sys_inv_good; [exact S | apply good_refl | set_solver].
  - apply Forall_app in T as [_ [Tj _]%Forall_cons].
    unfold attempt, verify in *. destruct (verify_tip (verify_request job) (w_verifier w)) as [r v] eqn:Hv.
    injection H0 as <- <-.
    eapply sys_inv_good; [exact S | by apply good_quiet |].
    intros t [Ht | [-> | Ht]%elem_of_cons]%elem_of_app; [left; set_solver | right | left; set_solver].
    split; [exact Tj | split; [done |]].
    intros ->. by eapply confirmed_evidence.
  - apply Forall_app in T as [_ [(Tj & Ta & Te) _]%Forall_cons].
    eapply sys_inv_good; [exact S | | set_solver].
    apply good_verdict; [| done | done]. destruct Tj as [? _]. lia.
  - eapply sys_inv_good; [exact S | apply good_refl |].
    intros t [-> | Ht]%elem_of_cons; [right | by left].
    apply Forall_forall. intros tip Htip%stuck_tips_in. left. exists tip. split; [done |].
    by apply evolves_refl, (inv_status w).
  - apply Forall_app in T as [_ [[Tt Tr]%Forall_cons _]%Forall_cons].
    pose proof (good_reconcile_tip n tip w Tt) as G. eapply sys_inv_good; [exact S | exact G |].
    intros t [Ht | [-> | Ht]%elem_of_cons]%elem_of_app; [left; set_solver | right | left; set_solver].
    destruct (G I) as [_ L%later_since]. by apply (task_ok_since w _ (Reconciling rest)).
  - eapply sys_inv_good; [exact S | apply good_refl | set_solver].
  - eapply sys_inv_good; [exact S | apply good_env | auto].
    intros u a. rewrite lookup_insert_Some. intros [[<- <-] | [_ Hu]]; [done | by apply (inv_wallets w I)].
  - match goal with H : Inj _ _ uuid |- _ => destruct (delete_sound d w H I) as [I' L] end.
    split; [| by right; split; [exists d |]]. split; [done | by eapply tasks_since].
  - eapply sys_inv_good; [exact S | apply good_env; apply (inv_wallets w I) | auto].
Qed.

Lemma advances_since w w' : advances w w' -> since w w'.
Proof. intros [L | [_ S]]; [by apply later_since | done]. Qed.

Lemma steps_sound s s' : sys_inv s -> steps s s' -> sys_inv s' /\ since s.1 s'.1.
Proof.
  intros S Hs. induction Hs as [s | s s' s'' _ IH Hstep]; [split; [done | by apply later_since, later_refl, S] |].
  destruct (IH S) as [S' L]. destruct (step_sound _ _ S' Hstep) as [S'' L'%advances_since].
  split; [done | by eapply since_trans].
Qed.

(** A row that is missing at the end was deleted by a step on the way. *)
Lemma missing_deleted s s' t :
  sys_inv s -> steps s s' -> t ∈ w_tips s.1 -> tip_id t ∉ tip_id <$> w_tips s'.1 ->
  exists s1 s2, steps s s1 /\ step s1 s2 /\ deleted s1.1 s2.1 /\
    tip_id t ∈ tip_id <$> w_tips s1.1 /\ tip_id t ∉ tip_id <$> w_tips s2.1.
Proof.
  intros S Hs Ht. induction Hs as [s | s s' s'' Hs IH Hstep]; intros Hn.
  { exfalso. apply Hn. by apply list_elem_of_fmap_2. }
  destruct (decide (tip_id t ∈ tip_id <$> w_tips s'.1)) as [Hin | Hout]; [| by apply IH].
  destruct (steps_sound _ _ S Hs) as [S' _]. destruct (step_sound _ _ S' Hstep) as [_ [(L & _) | [Hd _]]].
  - exfalso. apply list_elem_of_fmap in Hin as (u & Hid & Hu). destruct (L u Hu) as (u' & Hu' & E).
    apply Hn. rewrite Hid. apply evolves_same in E as (<- & _). by apply list_elem_of_fmap_2.
  - by exists s', s''.
Qed.

Lemma fresh_inv w : fresh w -> sys_inv (w, []).
Proof.
  intros (Ht & Hq & Hh & Ho). split; [| constructor]. simpl.
  constructor; rewrite ?Ht, ?Hq, ?Hh; try done; try (by constructor); intros; set_solver.
Qed.

(** C4: No tip is confirmed without its payment.  In every history of the
    system - requests, jobs, verdicts acted on late and out of order,
    reconciliation passes, database faults, wallets changed meanwhile - a tip
    that is shown as confirmed has the verifier's evidence: its own transaction
    paid exactly its amount, from its source account, to a wallet its creator
    registered.  And no two tips share a transaction, so none is counted
    twice. *)
Lemma confirmed_tip_paid w0 w ts :
  fresh w0 -> steps (w0, []) (w, ts) ->
  (forall t, t ∈ w_tips w -> is_confirmed t = true -> paid t) /\
  (forall t t', t ∈ w_tips w -> t' ∈ w_tips w -> tip_hash t = tip_hash t' -> t = t').
Proof.
  intros Hf Hs. destruct (steps_sound _ _ (fresh_inv _ Hf) Hs) as [[I _] _]. simpl in I. split.
  - intros t Ht. unfold is_confirmed, effective_status. rewrite bool_decide_eq_true. intros Hc.
    apply (inv_confirmed w I); [done |]. pose proof (inv_status w I t Ht).
    destruct (tip_status t); simpl in *; congruence.
  - intros t t' [i Hi]%list_elem_of_lookup [k Hk]%list_elem_of_lookup Heq.
    assert (i = k) as ->; [| congruence].
    apply (NoDup_lookup (tip_hash <$> w_tips w) _ _ (tip_hash t)); [apply I | |];
      rewrite list_lookup_fmap; [by rewrite Hi | by rewrite Hk, Heq].
Qed.

(** C7: A tip settles at most once.  Take a row of the table at some time of a
    history, and any later time.  A row with its id is the same tip: it claims
    the same, and it has the same status if that was confirmed or rejected,
    however many jobs were queued for it.  If no row has its id, a deletion (the
    clean-up of old tips, the removal of its creator or the compensation of a
    saga) took it away, and no row has that id ever after.  The webhooks are
    told "tip.confirmed" at most once for a tip, of a tip that is confirmed in
    the table or was when it was deleted, and what they were told stays told. *)
Lemma tip_settles_once w0 w ts w' ts' :
  fresh w0 -> steps (w0, []) (w, ts) -> steps (w, ts) (w', ts') ->
  (forall t, t ∈ w_tips w ->
     (forall t', t' ∈ w_tips w' -> tip_id t' = tip_id t -> evolves t t') /\
     (tip_id t ∉ tip_id <$> w_tips w' ->
        (exists s1 s2, steps (w, ts) s1 /\ step s1 s2 /\ deleted s1.1 s2.1 /\
           tip_id t ∈ tip_id <$> w_tips s1.1 /\ tip_id t ∉ tip_id <$> w_tips s2.1) /\
        (forall w'' ts'', steps (w', ts') (w'', ts'') -> tip_id t ∉ tip_id <$> w_tips w''))) /\
  NoDup (tip_id <$> (w_webhooks w').*2) /\ w_webhooks w `prefix_of` w_webhooks w' /\
  (forall e t, (e, t) ∈ w_webhooks w' -> e = "tip.confirmed" /\ is_confirmed t = true /\
     (t ∈ w_tips w' \/ tip_id t ∉ tip_id <$> w_tips w')).
Proof.
  intros Hf Hs Hs'. destruct (steps_sound _ _ (fresh_inv _ Hf) Hs) as [S _].
  destruct (steps_sound _ _ S Hs') as [S' (L & G & P)]. pose proof S' as [I _]. simpl in *.
  split_and!; [| apply I | exact P |].
  - intros t Ht. split.
    + intros t' Ht' Heq. destruct (L t Ht) as [(u & Hu & E) | Hg]; [| exfalso; rewrite <- Heq in Hg; by eapply not_gone].
      assert (t' = u) as ->; [| done]. apply (nodup_key_inj tip_id (w_tips w')); [apply I | done | done |].
      rewrite Heq. apply evolves_same in E as (-> & _). done.
    + intros Hn. split; [by apply (missing_deleted (w, ts) (w', ts')) |]. intros w'' ts'' Hs''.
      destruct (L t Ht) as [(u & Hu & E) | Hg].
      { exfalso. apply Hn. apply evolves_same in E as (<- & _). by apply list_elem_of_fmap_2. }
      destruct (steps_sound _ _ S' Hs'') as [_ (_ & G' & _)]. by apply G' in Hg as (_ & _ & ?).
  - intros e t Ht. destruct (inv_hooks w' I e t Ht) as (-> & Hc & Hin). split_and!; [done | |].
    + unfold is_confirmed, effective_status. by rewrite Hc.
    + destruct Hin as [? | (_ & _ & ?)]; [by left | by right].
Qed.

End system.

(** ** The worker drains its queue *)

Section draining.
Context {V : Type} {verifier : TipVerifier V}.
Variable from_row : list string -> bool.

Implicit Types w : World (V := V).

Definition keeps_queue {A} (m : Pipe (V := V) A) : Prop := forall w, w_queue (snd (m w)) = w_queue w.

Lemma keeps_queue_bind {A B} (m : Pipe A) (k : A -> Pipe B) :
  keeps_queue m -> (forall a, keeps_queue (k a)) -> keeps_queue (m ≫= k).
Proof.
  intros Hm Hk w. unfold mbind, M_bind. specialize (Hm w).
  destruct (m w) as [[a | e] w']; simpl in *; [| done]. by rewrite Hk.
Qed.

Lemma keeps_silent {A} (m : Pipe (V := V) A) : silent m -> keeps_queue m.
Proof. intros Hm w. by destruct (Hm w) as (_ & _ & -> & _). Qed.

Lemma keeps_settled {B} tid st (k : Tip -> Pipe (V := V) B) :
  (forall t, keeps_queue (k t)) ->
  keeps_queue (row ← query (settle_tip tid st);
               decoded ← decode_tip from_row row;
               tip ← expect (tip_not_found tid) decoded; k tip).
Proof.
  intros Hk. apply keeps_queue_bind.
  - intros w. destruct (query_cases (settle_tip tid st) w)
      as (w0 & (_ & _ & Hq & _) & [[e ->] | [[e ->] | ->]]); done.
  - intros row. apply keeps_queue_bind.
    + intros w. unfold decode_tip. destruct row; [| done]. by destruct (from_row tip_columns).
    + intros decoded. apply keeps_queue_bind; [intros w; by destruct decoded | done].
Qed.

Lemma keeps_ignored {A} (m : Pipe (V := V) A) :
  keeps_queue m -> keeps_queue (_ ← attempt (E := AppError) m; mret tt).
Proof.
  intros Hm. apply keeps_queue_bind; [| done]. intros w. unfold attempt. specialize (Hm w). by destruct (m w).
Qed.

Lemma verdict_queue job verdict w :
  w_queue (snd (process_verdict from_row job verdict w)) = w_queue w \/
  w_queue (snd (process_verdict from_row job verdict w)) = w_queue w ++ [next_attempt job].
Proof.
  destruct verdict as [[| reason] | e]; [left; revert w .. |].
  - apply keeps_ignored, keeps_settled. intros t.
    apply keeps_queue_bind; [apply keeps_silent, silent_log |]. intros _.
    apply keeps_queue_bind; [apply keeps_silent, silent_invalidate | done].
  - apply keeps_ignored, keeps_settled. intros t.
    apply keeps_silent, silent_bind; [apply silent_log | intros _; apply silent_invalidate].
  - unfold process_verdict, enqueue. run_m. destruct (w_queue_open w); [right | left]; done.
Qed.

Lemma process_job_queue job w :
  w_queue (snd (process_job from_row job w)) = w_queue w \/
  (vj_attempt job < MAX_ATTEMPTS /\
   w_queue (snd (process_job from_row job w)) = w_queue w ++ [next_attempt job]).
Proof.
  unfold process_job. destruct (MAX_ATTEMPTS <=? vj_attempt job) eqn:Ha; [by left |]. zbool.
  unfold mbind, M_bind, attempt, verify. destruct (verify_tip _ _) as [r v].
  destruct (verdict_queue job r (with_verifier v w)); [by left | by right].
Qed.

(** How many more jobs the ones waiting can make. *)
Definition job_budget (j : VerificationJob) : nat := Z.to_nat (MAX_ATTEMPTS + 1 - vj_attempt j).
Definition queue_budget (q : list VerificationJob) : nat := sum_list_with job_budget q.

Definition attempts_ok (q : list VerificationJob) : Prop :=
  Forall (fun j => 0 <= vj_attempt j <= MAX_ATTEMPTS) q.

(** C10: The queue always drains: whatever the verifier answers, each job waiting
    is processed at most six times, so a worker that is allowed that many jobs
    ends with an empty queue - a failing Horizon cannot make it spin.  Tips
    still pending then are left to the reconciliation. *)
Lemma worker_drains fuel w :
  attempts_ok (w_queue w) -> (queue_budget (w_queue w) <= fuel)%nat ->
  w_queue (worker from_row fuel w) = [].
Proof.
  revert w. induction fuel as [| fuel IH]; intros w Hok Hb.
  - destruct (w_queue w) as [| j q] eqn:Hq; simpl; [done |]. exfalso.
    apply Forall_cons in Hok as [? _]. unfold queue_budget, job_budget, MAX_ATTEMPTS in *. simpl in Hb. lia.
  - simpl. destruct (w_queue w) as [| j q] eqn:Hq; [done |].
    apply Forall_cons in Hok as [Hj Hq'].
    unfold queue_budget in Hb. simpl in Hb. unfold MAX_ATTEMPTS in Hj.
    destruct (process_job_queue j (with_queue q w)) as [Heq | [Ha Heq]]; apply IH; rewrite Heq; simpl.
    + done.
    + unfold queue_budget, job_budget, MAX_ATTEMPTS in *. lia.
    + apply Forall_app. split; [done |]. constructor; [| done]. unfold MAX_ATTEMPTS in *. simpl.
      rewrite wrap_u32_id by (unfold u32_max; lia). lia.
    + unfold queue_budget. rewrite sum_list_with_app. simpl.
      unfold job_budget, MAX_ATTEMPTS in *. simpl. rewrite wrap_u32_id by (unfold u32_max; lia). lia.
Qed.

End draining.

(** ** Rows and reconciliation *)

Section facts.
Context {V : Type} {verifier : TipVerifier V}.
Variable uuid : nat -> string.
Variable from_row : list string -> bool.
Variable moderation_rejects : string -> bool.

Implicit Types w : World (V := V).

Lemma query_calm {A} (q : World -> A * World) w :
  w_faults w = [] -> query q w = (Ok (fst (q w)), snd (q w)).
Proof.
  intros Hf. unfold query, remote. simpl. rewrite Hf. simpl.
  assert (with_env (w_creators w) (w_now w) (w_uuids w) [] w = w) as ->.
  { destruct w. simpl in *. by subst. }
  by destruct (q w).
Qed.

Definition fails {A} (m : Pipe (V := V) A) : Prop := forall w, is_ok (fst (m w)) = false.

Lemma fails_bind {A B} (m : Pipe A) (k : A -> Pipe B) :
  (forall a, fails (k a)) -> fails (m ≫= k).
Proof. intros Hk w. unfold mbind, M_bind. destruct (m w) as [[a | e] w']; [apply Hk | done]. Qed.

Lemma fails_first {A B} (m : Pipe A) (k : A -> Pipe B) : fails m -> fails (m ≫= k).
Proof.
  intros Hm w. unfold mbind, M_bind. specialize (Hm w). by destruct (m w) as [[a | e] w'].
Qed.

Lemma undecoded {B} (k : Tip -> Pipe (V := V) B) e row :
  from_row tip_columns = false ->
  fails (decoded ← decode_tip from_row row; tip ← expect e decoded; k tip).
Proof.
  intros Hf. destruct row as [t |]; [apply fails_first | by intros w].
  intros w. unfold decode_tip. by rewrite Hf.
Qed.

Lemma undecoded_state {B} (k : Tip -> Pipe (V := V) B) e row w :
  from_row tip_columns = false ->
  snd ((decoded ← decode_tip from_row row; tip ← expect e decoded; k tip) w) = w.
Proof. intros Hf. destruct row as [t |]; [| done]. unfold decode_tip. by rewrite Hf. Qed.

Lemma settle_query_keeps tid st w :
  w_logs (snd (query (settle_tip tid st) w)) = w_logs w /\
  w_webhooks (snd (query (settle_tip tid st) w)) = w_webhooks w.
Proof. unfold query, remote. simpl. destruct (pop_fault (w_faults w)) as [f l]. by destruct f. Qed.

(** C9: sqlx builds a struct from a row only when every field that has no
    [default] attribute has its column; [Tip::message] has none, and no
    statement of the tip controller returns it.  So recording a tip never
    answers with success, and never queues a job; confirming one fails after
    the row was updated: the tip is confirmed, but nothing is logged and no
    webhook hears of it. *)
Lemma tip_rows_do_not_decode :
  (forall columns, from_row columns = true -> "message" ∈ columns) ->
  (forall req w, is_ok (fst (record_tip uuid from_row moderation_rejects req w)) = false /\
                 w_queue (snd (record_tip uuid from_row moderation_rejects req w)) = w_queue w) /\
  (forall tid w, is_ok (fst (confirm_tip from_row tid w)) = false /\
                 w_logs (snd (confirm_tip from_row tid w)) = w_logs w /\
                 w_webhooks (snd (confirm_tip from_row tid w)) = w_webhooks w) /\
  (forall tid t w, w_faults w = [] -> t ∈ w_tips w -> is_pending tid t = true ->
                   set_status StatusConfirmed t ∈ w_tips (snd (confirm_tip from_row tid w))).
Proof.
  intros Hrow. assert (from_row tip_columns = false) as Hf.
  { apply not_true_is_false. intros Hin%Hrow. unfold tip_columns in Hin. set_solver. }
  split; [| split].
  - intros req w. split.
    + revert w. apply fails_bind; intros _. apply fails_bind; intros tid. apply fails_bind; intros inserted.
      apply fails_bind; intros row. by apply undecoded.
    + revert w. change (keeps_queue (V := V) (record_tip uuid from_row moderation_rejects req)).
      apply keeps_queue_bind; [apply keeps_silent, silent_moderate |]. intros _.
      apply keeps_queue_bind; [done |]. intros tid. apply keeps_queue_bind.
      { intros w. destruct (query_cases (insert_tip tid req) w) as (w0 & (_ & _ & Hq & _) & Hcases).
        pose proof (insert_tip_cases tid req w0) as Hins. rewrite <- Hq.
        destruct (insert_tip tid req w0) as [[[t |] | e] w1] eqn:Hi; simpl in *;
          [destruct Hins as (-> & _) | subst w1 | subst w1];
          destruct Hcases as [[e' ->] | [[e' ->] | ->]]; done. }
      intros inserted. apply keeps_queue_bind; [intros w; by destruct inserted |]. intros row w.
      by rewrite undecoded_state.
  - intros tid w. split; [revert w; apply fails_bind; intros row; by apply undecoded |].
    pose proof (settle_query_keeps tid StatusConfirmed w) as Hk. unfold confirm_tip, mbind, M_bind.
    destruct (query (settle_tip tid StatusConfirmed) w) as [[row | e] w1]; [| done].
    match goal with |- w_logs (snd ?x) = _ /\ _ => assert (snd x = w1) as -> end; [| done].
    by apply undecoded_state.
  - intros tid t w Hw Ht Hp. unfold confirm_tip, mbind, M_bind. rewrite query_calm by done.
    match goal with |- _ ∈ w_tips (snd ?x) => assert (snd x = snd (settle_tip tid StatusConfirmed w)) as -> end.
    { by apply undecoded_state. }
    rewrite settle_tips. apply list_elem_of_fmap. exists t. split; [| done].
    unfold settle_row. by rewrite Hp.
Qed.

(** The job the reconciliation queues for a tip. *)
Definition requeue_job (creators : gmap string string) (tip : Tip) : option VerificationJob :=
  match xlm_to_stroops_str (tip_amount tip), creators !! tip_creator tip with
  | Ok amount_stroops, Some destination =>
      Some {| vj_tip_id := tip_id tip; vj_transaction_hash := tip_hash tip;
              vj_amount_stroops := amount_stroops; vj_destination := destination;
              vj_expected_memo := None; vj_source_account := default "" (tip_source tip);
              vj_attempt := 0 |}
  | _, _ => None
  end.

Definition jobs_of (creators : gmap string string) (tips : list Tip) : list VerificationJob :=
  omap (requeue_job creators) tips.

Lemma with_queue_same w : with_queue (w_queue w) w = w.
Proof. by destruct w. Qed.

Lemma reconcile_tip_calm n tip w :
  w_faults w = [] -> w_queue_open w = true ->
  reconcile_tip n tip w =
    (Ok (n + Z.of_nat (length (jobs_of (w_creators w) [tip]))),
     with_queue (w_queue w ++ jobs_of (w_creators w) [tip]) w).
Proof.
  intros Hf Ho. unfold reconcile_tip, jobs_of, requeue_job. simpl.
  destruct (xlm_to_stroops_str (tip_amount tip)) as [s | e]; simpl.
  - unfold mbind, M_bind, attempt, fetch_creator_wallet. rewrite query_calm by done. simpl.
    destruct (w_creators w !! tip_creator tip) as [a |]; simpl.
    + unfold enqueue. rewrite Ho. simpl. done.
    + by rewrite Z.add_0_r, app_nil_r, with_queue_same.
  - by rewrite Z.add_0_r, app_nil_r, with_queue_same.
Qed.

Lemma reconcile_all tips n w :
  w_faults w = [] -> w_queue_open w = true ->
  forM tips n reconcile_tip w =
    (Ok (n + Z.of_nat (length (jobs_of (w_creators w) tips))),
     with_queue (w_queue w ++ jobs_of (w_creators w) tips) w).
Proof.
  revert n w. induction tips as [| tip tips IH]; intros n w Hf Ho.
  - simpl. by rewrite Z.add_0_r, app_nil_r, with_queue_same.
  - cbn [forM]. rewrite (bind_ok _ _ _ _ _ (reconcile_tip_calm n tip w Hf Ho)). rewrite IH by done.
    change (jobs_of (w_creators w) (tip :: tips)) with (jobs_of (w_creators w) ([tip] ++ tips)).
    unfold jobs_of. rewrite omap_app, length_app. simpl. rewrite app_assoc. f_equal. f_equal. lia.
Qed.

(** No tip is passed over for a younger one. *)
Lemma stuck_tips_oldest w t t' :
  t ∈ stuck_tips w -> t' ∈ w_tips w -> tip_status t' = Some PendingVerification ->
  tip_created_at t' < tip_created_at t -> t' ∈ stuck_tips w.
Proof.
  unfold stuck_tips. set (stuck := filter _ (w_tips w)). set (le := fun a b : Tip => _ <=? _).
  intros Ht Ht' Hs Hlt.
  assert (t ∈ stuck) as Hin.
  { assert (t ∈ take 100 (sort_by le stuck) ++ drop 100 (sort_by le stuck)) as Hall
      by (apply elem_of_app; by left).
    by rewrite take_drop, sort_by_perm in Hall. }
  apply list_elem_of_filter in Hin as [[_ Hold] _].
  assert (t' ∈ take 100 (sort_by le stuck) ++ drop 100 (sort_by le stuck)) as [? | Hd]%elem_of_app.
  { rewrite take_drop, sort_by_perm. apply list_elem_of_filter. split; [split; [done | lia] | done]. }
  - done.
  - assert (le t t' = true) as Hle.
    { eapply (ordered_take le 100 (sort_by le stuck)); [| exact Ht | exact Hd].
      apply sort_by_ordered; unfold le; intros *; rewrite ?Z.leb_le, ?Z.leb_gt; lia. }
    apply Z.leb_le in Hle. lia.
Qed.

(** A reconciliation pass queues one job for each of the hundred oldest tips
    that have been pending for more than five minutes, in the order of their
    age, provided the amount parses and the creator exists, and answers their
    number; every stuck tip is among them when there are at most a hundred.
    The jobs claim what the tips claim, with a fresh count of attempts - and
    without the memo the tipper promised, which no table remembers. *)
Lemma run_once_requeues w :
  w_faults w = [] -> w_queue_open w = true ->
  let jobs := jobs_of (w_creators w) (stuck_tips w) in
  run_once w = (Ok (Z.of_nat (length jobs)), with_queue (w_queue w ++ jobs) w) /\
  (length (stuck_tips w) <= 100)%nat /\
  (forall t, t ∈ stuck_tips w -> t ∈ w_tips w /\ tip_status t = Some PendingVerification /\
                                 tip_created_at t < w_now w - 300) /\
  ((length (filter (fun t => tip_status t = Some PendingVerification /\
                             (tip_created_at t < w_now w - STUCK_AFTER)%Z) (w_tips w)) <= 100)%nat ->
   forall t, t ∈ w_tips w -> tip_status t = Some PendingVerification ->
             tip_created_at t < w_now w - 300 -> t ∈ stuck_tips w) /\
  (forall t t', t ∈ stuck_tips w -> t' ∈ w_tips w -> tip_status t' = Some PendingVerification ->
                tip_created_at t' < tip_created_at t -> t' ∈ stuck_tips w) /\
  (forall j, j ∈ jobs -> vj_expected_memo j = None /\ vj_attempt j = 0).
Proof.
  intros Hf Ho jobs. split_and!.
  - unfold run_once. unfold mbind, M_bind, attempt at 1. rewrite query_calm by done. cbn [fst snd].
    exact (reconcile_all (stuck_tips w) 0 w Hf Ho).
  - unfold stuck_tips. rewrite length_take. lia.
  - intros t (i & Ht & _)%elem_of_take. apply list_elem_of_lookup_2 in Ht.
    rewrite sort_by_perm in Ht. apply list_elem_of_filter in Ht as [[? ?] ?]. done.
  - intros Hlen t Ht Hs Hc. unfold stuck_tips. rewrite take_ge by (by rewrite sort_by_perm).
    rewrite sort_by_perm. by apply list_elem_of_filter.
  - apply stuck_tips_oldest.
  - intros j (tip & _ & Hj)%list_elem_of_omap. unfold requeue_job in Hj.
    destruct (xlm_to_stroops_str _); [| done]. by destruct (_ !! _); [injection Hj as <- |].
Qed.

End facts.

(** ** A history *)

(** A ledger of payments (transaction, source, destination, stroops) and the
    verifier that looks a request up in it. *)
Definition demo_ledger : list (string * string * string * Z) :=
  [("hash-1", "GFAN", "GALICE", 105000000)].

Definition demo_evidence (req : TipVerifyRequest) : Prop :=
  (vr_transaction_hash req, vr_source_account req, vr_destination req, vr_amount_stroops req)
    ∈ demo_ledger.

Definition demo_verifier : TipVerifier unit := {|
  verify_tip req v :=
    (Ok (if bool_decide (demo_evidence req) then Confirmed else Rejected "unpaid"), v)
|}.

Lemma demo_verifier_sound : @VerifierSound unit demo_verifier demo_evidence.
Proof.
  constructor. intros req v v'. simpl. by destruct (bool_decide_reflect (demo_evidence req)).
Qed.

Definition demo_req (hash : string) : RecordTipRequest :=
  {| rq_username := "alice"; rq_amount := "10.5"; rq_tipper_wallet := None;
     rq_transaction_hash := hash; rq_message := Some "great work"; rq_memo := None;
     rq_message_visibility := "public"; rq_tipper_source_account := "GFAN" |}.

Definition demo_start : World (V := unit) :=
  {| w_verifier := tt; w_tips := []; w_creators := {[ "alice" := "GALICE" ]}; w_logs := [];
     w_queue := []; w_queue_open := true; w_redis := true; w_cache := ∅; w_webhooks := [];
     w_broadcasts := []; w_moderated := []; w_now := 1000; w_uuids := O; w_faults := [] |}.

Definition demo_uuid (n : nat) : string := "tip-" +:+ print_Z (Z.of_nat n).

Definition demo_record (hash : string) (w : World (V := unit)) : World (V := unit) :=
  snd (record_tip demo_uuid (fun _ => true) (fun _ => false) (demo_req hash) w).

Definition demo_job (hash : string) (n : nat) : VerificationJob :=
  {| vj_tip_id := demo_uuid n; vj_transaction_hash := hash; vj_amount_stroops := 105000000;
     vj_destination := "GALICE"; vj_expected_memo := None; vj_source_account := "GFAN";
     vj_attempt := 0 |}.

(** Recorded, received, verified; then the same transaction again. *)
Definition demo_received : World (V := unit) := with_queue [] (demo_record "hash-1" demo_start).
Definition demo_settled : World (V := unit) :=
  snd (process_verdict (fun _ => true) (demo_job "hash-1" 0) (Ok Confirmed) demo_received).
Definition demo_end : World (V := unit) := demo_record "hash-1" demo_settled.

Definition demo_owned (username wallet : string) : Prop := username = "alice" /\ wallet = "GALICE".

Lemma demo_history_1 :
  @steps unit demo_verifier demo_uuid (fun _ => true) (fun _ => false) demo_owned
    (demo_start, []) (demo_settled, []).
Proof.
  eapply StepsTrans; [eapply StepsTrans; [eapply StepsTrans; [eapply StepsTrans |] |] |].
  - apply StepsRefl.
  - apply (StepRecord _ _ _ _ (demo_req "hash-1")).
  - apply (StepReceive _ _ _ _ (demo_job "hash-1" 0) []). vm_compute. reflexivity.
  - apply (StepVerify _ _ _ _ (demo_job "hash-1" 0) _ [] [] (Ok Confirmed) demo_received);
      vm_compute; reflexivity.
  - apply (StepSettle _ _ _ _ (demo_job "hash-1" 0) (Ok Confirmed) demo_received [] []).
Qed.

Lemma demo_history_2 :
  @steps unit demo_verifier demo_uuid (fun _ => true) (fun _ => false) demo_owned
    (demo_settled, []) (demo_end, []).
Proof.
  eapply StepsTrans; [apply StepsRefl |]. apply (StepRecord _ _ _ _ (demo_req "hash-1")).
Qed.

Lemma demo_fresh : fresh demo_owned demo_start.
Proof.
  unfold fresh. split_and!; [done | done | done |]. simpl. intros u a.
  rewrite lookup_singleton_Some. by intros [<- <-].
Qed.

Lemma confirmed_tip_paid_witness :
  exists t, t ∈ w_tips demo_settled /\ is_confirmed t = true /\ paid demo_owned demo_evidence t.
Proof.
  destruct (w_tips demo_settled) as [| t l] eqn:E; [vm_compute in E; discriminate |].
  assert (t ∈ w_tips demo_settled) as Ht by (rewrite E; left).
  assert (is_confirmed t = true) as Hc by (vm_compute in E; injection E as <- _; reflexivity).
  exists t. split; [by rewrite <- E |]. split; [done |].
  refine (proj1 (@confirmed_tip_paid unit demo_verifier demo_uuid (fun _ => true) (fun _ => false)
    demo_owned demo_evidence demo_verifier_sound demo_start demo_settled []
    demo_fresh demo_history_1) t Ht Hc).
Defined.

Lemma demo_uuid_inj : Inj (=) (=) demo_uuid.
Proof.
  intros m n H. unfold demo_uuid in H.
  assert (print_Z (Z.of_nat m) = print_Z (Z.of_nat n)) as E by (injection H as H; exact H).
  destruct (print_Z_spec (Z.of_nat m) ltac:(lia)) as (_ & _ & Hm), (print_Z_spec (Z.of_nat n) ltac:(lia)) as (_ & _ & Hn).
  rewrite E, Hn in Hm. injection Hm as Hm. lia.
Qed.

(** Then the clean-up of everything older than instant 2000. *)
Definition demo_cleaned : World (V := unit) := delete_by (OldTips 2000) demo_end.

Lemma demo_history_3 :
  @steps unit demo_verifier demo_uuid (fun _ => true) (fun _ => false) demo_owned
    (demo_settled, []) (demo_cleaned, []).
Proof.
  eapply StepsTrans; [apply demo_history_2 |]. apply (StepDelete _ _ _ _ (OldTips 2000)). apply demo_uuid_inj.
Qed.

Lemma tip_settles_once_witness :
  map tip_id (w_tips demo_settled) = ["tip-0"] /\ length (w_webhooks demo_cleaned) = 1%nat /\ w_tips demo_cleaned = [] /\
  NoDup (tip_id <$> (w_webhooks demo_cleaned).*2) /\
  forall w ts, @steps unit demo_verifier demo_uuid (fun _ => true) (fun _ => false) demo_owned (demo_cleaned, []) (w, ts) ->
    "tip-0" ∉ tip_id <$> w_tips w.
Proof.
  split; [vm_compute; reflexivity |]. split; [vm_compute; reflexivity |]. split; [vm_compute; reflexivity |].
  destruct (@tip_settles_once unit demo_verifier demo_uuid (fun _ => true) (fun _ => false)
    demo_owned demo_evidence demo_verifier_sound demo_start demo_settled [] demo_cleaned []
    demo_fresh demo_history_1 demo_history_3) as (Hrows & Hnd & _).
  split; [exact Hnd |]. intros w ts Hs.
  destruct (w_tips demo_settled) as [| t l] eqn:E; [vm_compute in E; discriminate |].
  assert (tip_id t = "tip-0") as Hid by (vm_compute in E; injection E as <- _; reflexivity).
  destruct (Hrows t) as [_ Hgone]; [left |].
  rewrite <- Hid. assert (tip_id t ∉ tip_id <$> w_tips demo_cleaned) as Hout by (vm_compute; apply not_elem_of_nil).
  exact (proj2 (Hgone Hout) w ts Hs).
Defined.

(** A verifier that never reaches Horizon. *)
Definition down_verifier : TipVerifier unit := {| verify_tip req v := (Err network_unavailable, v) |}.

Lemma worker_drains_witness :
  w_queue (@worker unit down_verifier (fun _ => true) 6 (demo_record "hash-1" demo_start)) = [].
Proof.
  apply (@worker_drains unit down_verifier (fun _ => true) 6).
  - vm_compute. repeat constructor; discriminate.
  - vm_compute. lia.
Defined.

Lemma tip_rows_do_not_decode_witness :
  is_ok (fst (record_tip demo_uuid (fun columns => bool_decide ("message" ∈ columns)) (fun _ => false)
                (demo_req "hash-1") demo_start)) = false /\
  length (w_tips (snd (record_tip demo_uuid (fun columns => bool_decide ("message" ∈ columns))
                         (fun _ => false) (demo_req "hash-1") demo_start))) = 1%nat.
Proof.
  split; [| vm_compute; reflexivity].
  apply (@tip_rows_do_not_decode unit demo_uuid (fun columns => bool_decide ("message" ∈ columns))
           (fun _ => false)).
  intros columns Hc. by apply bool_decide_eq_true in Hc.
Defined.

(** The queue was closed when the tip was recorded; six minutes later the
    reconciliation finds it. *)
Definition demo_stuck : World (V := unit) :=
  with_env {[ "alice" := "GALICE" ]} 1360 1 [] (with_queue [] (demo_record "hash-1" demo_start)).

Lemma run_once_requeues_witness :
  fst (run_once demo_stuck) = Ok 1 /\ w_queue (snd (run_once demo_stuck)) = [demo_job "hash-1" 0].
Proof.
  destruct (run_once_requeues demo_stuck) as [-> _].
  - vm_compute. reflexivity.
  - vm_compute. reflexivity.
  - split; vm_compute; reflexivity.
Defined.
