(* ===== verification/Sharding.v ===== *)
(** * Sharding: which database owns a key, and moving tips between databases

    src/src/sharding/strategy.rs (hash, range and directory placement),
    src/src/sharding/router.rs (shard ids to connection pools, fan-out),
    src/src/sharding/rebalancer.rs (imbalance report and migration) and
    src/src/db/sharding.rs (configuration and manager).

    A pool is the DSN it connects to, so two shards whose DSN falls back to the
    primary share a database.  A database holds its creators and its tips, in
    the order a sequential scan visits them; a [SELECT] without [ORDER BY]
    visits them in any order ([scan]).  The insertion of a migrated row follows
    the schema: the columns the statement leaves out take their defaults, the
    primary key absorbs a second copy, a transaction hash is unique and the
    creator must exist.  [num_shards = 0] makes the hash panic and is excluded by
    hypothesis. *)

From S2P Require Import Prelude Text Errors TipPipeline.

(** ** strategy.rs *)

(** src/src/sharding/strategy.rs:52-53 FNV_OFFSET and FNV_PRIME *)
Definition FNV_OFFSET : Z := 14695981039346656037.
Definition FNV_PRIME : Z := 1099511628211.

(** src/src/sharding/strategy.rs:55-59 the hash of fnv1a_shard *)
Fixpoint fnv1a (hash : Z) (key : string) : Z :=
  match key with
  | EmptyString => hash
  | String c key' => fnv1a (wrap_u64 (Z.lxor hash (byte c) * FNV_PRIME)) key'
  end.

(** src/src/sharding/strategy.rs:47-61 fnv1a_shard *)
Definition fnv1a_shard (key : string) (num_shards : Z) : Z :=
  wrap_u32 (fnv1a FNV_OFFSET key mod num_shards).

(** src/src/sharding/strategy.rs:6-13 ShardKey *)
Record ShardKey : Type := {
  sk_raw : string;
  sk_shard_id : Z
}.

(** src/src/sharding/strategy.rs:16-23 ShardKey::from_creator_username *)
Definition from_creator_username (username : string) (num_shards : Z) : ShardKey :=
  {| sk_raw := username; sk_shard_id := fnv1a_shard username num_shards |}.

(** [u64::from_le_bytes] *)
Fixpoint from_le_bytes (bytes : list Z) : Z :=
  match bytes with
  | [] => 0
  | b :: bytes' => b + 256 * from_le_bytes bytes'
  end.

(** src/src/sharding/strategy.rs:25-35 ShardKey::from_uuid *)
Definition from_uuid (id : string) (bytes : list Z) (num_shards : Z) : ShardKey :=
  let low := from_le_bytes (take 8 (drop 8 bytes)) in
  {| sk_raw := id; sk_shard_id := wrap_u32 (low mod num_shards) |}.

(** src/src/sharding/strategy.rs:37-44 ShardKey::from_str *)
Definition from_str (key : string) (num_shards : Z) : ShardKey :=
  {| sk_raw := key; sk_shard_id := fnv1a_shard key num_shards |}.

(** src/src/sharding/strategy.rs:65-78 ShardingStrategy *)
Inductive ShardingStrategy : Type := Hash | Range | Directory.

(** src/src/sharding/strategy.rs:88-93 RangeShardingStrategy *)
Record RangeShardingStrategy : Type := { ranges : list (Z * Z) }.

(** src/src/sharding/strategy.rs:96-111 RangeShardingStrategy::new *)
Definition range_new (num_shards : Z) : RangeShardingStrategy :=
  let range_size := u64_max / num_shards in
  {| ranges := map (fun k =>
       let i := Z.of_nat k in
       let start := wrap_u64 (i * range_size) in
       let end_ := if i =? num_shards - 1 then u64_max
                   else wrap_u64 (wrap_u64 ((i + 1) * range_size) - 1) in
       (start, end_)) (seq 0 (Z.to_nat num_shards)) |}.

(** src/src/sharding/strategy.rs:113-119 RangeShardingStrategy::shard_for *)
Definition range_shard_for (s : RangeShardingStrategy) (value : Z) : Z :=
  wrap_u32 (Z.of_nat (default 0%nat
    (position (fun '(start, end_) => (start <=? value) && (value <=? end_)) (ranges s)))).

(** src/src/sharding/strategy.rs:121-134 RangeShardingStrategy::shard_for_str *)
Definition range_shard_for_str (s : RangeShardingStrategy) (key : string) : Z :=
  range_shard_for s (fnv1a FNV_OFFSET key).

(** src/src/sharding/strategy.rs:139-145 DirectoryShardingStrategy *)
Record DirectoryShardingStrategy : Type := {
  directory : gmap string Z;
  dir_num_shards : Z
}.

(** src/src/sharding/strategy.rs:148-153 DirectoryShardingStrategy::new *)
Definition directory_new (num_shards : Z) : DirectoryShardingStrategy :=
  {| directory := ∅; dir_num_shards := num_shards |}.

(** src/src/sharding/strategy.rs:155-157 DirectoryShardingStrategy::insert *)
Definition directory_insert (key : string) (shard_id : Z) (s : DirectoryShardingStrategy)
    : DirectoryShardingStrategy :=
  {| directory := <[key := shard_id]> (directory s); dir_num_shards := dir_num_shards s |}.

(** src/src/sharding/strategy.rs:159-164 DirectoryShardingStrategy::shard_for *)
Definition directory_shard_for (s : DirectoryShardingStrategy) (key : string) : Z :=
  default (fnv1a_shard key (dir_num_shards s)) (directory s !! key).

(** ** router.rs *)

(** src/src/sharding/router.rs:27-34 ShardStatus *)
Inductive ShardStatus : Type := Active | ReadOnly | Draining | Offline.

(** src/src/sharding/router.rs:15-25 ShardDescriptor *)
Record ShardDescriptor : Type := {
  ds_shard_id : Z;
  ds_name : string;
  ds_dsn : string;
  ds_status : ShardStatus
}.

(** src/src/sharding/router.rs:61-71 ShardRouter *)
Record ShardRouter : Type := {
  descriptors : list ShardDescriptor;
  pools : gmap Z string;
  num_shards : Z;
  strategy : ShardingStrategy
}.

(** src/src/sharding/router.rs:74-87 ShardRouter::new *)
Definition router_new (ds : list ShardDescriptor) (ps : gmap Z string) (s : ShardingStrategy)
    : ShardRouter :=
  {| descriptors := ds; pools := ps; num_shards := wrap_u32 (Z.of_nat (length ds)); strategy := s |}.

(** src/src/sharding/router.rs:96-99 ShardRouter::shard_for_username *)
Definition shard_for_username (r : ShardRouter) (username : string) : Z :=
  fnv1a_shard username (num_shards r).

(** src/src/sharding/router.rs:101-104 ShardRouter::shard_for_uuid *)
Definition shard_for_uuid (r : ShardRouter) (id : string) (bytes : list Z) : Z :=
  sk_shard_id (from_uuid id bytes (num_shards r)).

(** src/src/sharding/router.rs:106-109 ShardRouter::shard_for_key *)
Definition shard_for_key (r : ShardRouter) (key : string) : Z := fnv1a_shard key (num_shards r).

(** src/src/sharding/router.rs:113-118 ShardRouter::pool *)
Definition pool (r : ShardRouter) (shard_id : Z) : AppResult string :=
  ok_or (service_unavailable ("Shard " +:+ print_Z shard_id +:+ " pool not found"))
    (pools r !! shard_id).

(** src/src/sharding/router.rs:120-123 ShardRouter::pool_for_username *)
Definition pool_for_username (r : ShardRouter) (username : string) : AppResult string :=
  pool r (shard_for_username r username).

(** src/src/sharding/router.rs:125-128 ShardRouter::pool_for_uuid *)
Definition pool_for_uuid (r : ShardRouter) (id : string) (bytes : list Z) : AppResult string :=
  pool r (shard_for_uuid r id bytes).

(** src/src/sharding/router.rs:242-246 ShardRouterBuilder *)
Record ShardRouterBuilder : Type := {
  sb_descriptors : list ShardDescriptor;
  sb_pools : gmap Z string;
  sb_strategy : ShardingStrategy
}.

(** src/src/sharding/router.rs:257-261 ShardRouterBuilder::add_shard *)
Definition add_shard (b : ShardRouterBuilder) (d : ShardDescriptor) (dsn : string) : ShardRouterBuilder :=
  {| sb_descriptors := sb_descriptors b ++ [d]; sb_pools := <[ds_shard_id d := dsn]> (sb_pools b);
     sb_strategy := sb_strategy b |}.

(** src/src/sharding/router.rs:263-267 ShardRouterBuilder::build *)
Definition build (b : ShardRouterBuilder) : ShardRouter :=
  router_new (sort_by (fun x y => ds_shard_id x <=? ds_shard_id y) (sb_descriptors b))
    (sb_pools b) (sb_strategy b).

(** ** db/sharding.rs: configuration *)

(** src/src/db/sharding.rs:30-37 ShardingConfig *)
Record ShardingConfig : Type := {
  cfg_num_shards : Z;
  cfg_strategy : ShardingStrategy;
  shard_dsns : list string
}.

(** src/src/db/sharding.rs:40-80 ShardingConfig::from_env *)
Definition from_env (env : environment) (fallback_dsn : string) : ShardingConfig :=
  let n := default 1 (env "SHARD_COUNT" ≫= parse_u32) in
  let name := map_chars lower (default "" (env "SHARD_STRATEGY")) in
  {| cfg_num_shards := n;
     cfg_strategy := if String.eqb name "range" then Range
                     else if String.eqb name "directory" then Directory else Hash;
     shard_dsns := map (fun i => default fallback_dsn
                          (env ("SHARD_" +:+ print_Z (Z.of_nat i) +:+ "_DSN"))) (seq 0 (Z.to_nat n)) |}.

(** src/src/db/sharding.rs:103-139 the router of ShardingManager::from_config *)
Definition from_config (c : ShardingConfig) : ShardRouter :=
  build (snd (foldl (fun '(i, b) dsn =>
    (i + 1, add_shard b {| ds_shard_id := i; ds_name := "shard-" +:+ print_Z i; ds_dsn := dsn;
                           ds_status := Active |} dsn))
    (0, {| sb_descriptors := []; sb_pools := ∅; sb_strategy := cfg_strategy c |}) (shard_dsns c))).

(** src/src/db/sharding.rs:227-249 init_sharding: whether the manager is built *)
Definition init_sharding (env : environment) (primary_dsn : string) : option ShardRouter :=
  let c := from_env env primary_dsn in
  if (cfg_num_shards c <=? 1) && bool_decide (env "SHARD_0_DSN" = None) &&
     bool_decide (env "SHARD_1_DSN" = None)
  then None else Some (from_config c).

(** ** The databases *)

Record ShardDb : Type := {
  sd_creators : gset string;
  sd_tips : list Tip
}.

Record ShardWorld : Type := {
  sw_dbs : gmap string ShardDb;
  sw_scans : nat;
  sw_faults : list fault
}.

Definition empty_db : ShardDb := {| sd_creators := ∅; sd_tips := [] |}.
Definition db_of (w : ShardWorld) (dsn : string) : ShardDb := default empty_db (sw_dbs w !! dsn).
Definition tips_of (w : ShardWorld) (dsn : string) : list Tip := sd_tips (db_of w dsn).

Definition set_tips (dsn : string) (tips : list Tip) (w : ShardWorld) : ShardWorld :=
  {| sw_dbs := <[dsn := {| sd_creators := sd_creators (db_of w dsn); sd_tips := tips |}]> (sw_dbs w);
     sw_scans := sw_scans w; sw_faults := sw_faults w |}.

#[export] Instance shard_world_networked : Networked ShardWorld := {
  next_fault w :=
    let '(f, l) := pop_fault (sw_faults w) in
    (f, {| sw_dbs := sw_dbs w; sw_scans := sw_scans w; sw_faults := l |})
}.

Definition Shard : Type -> Type := M ShardWorld AppError.

Definition on_shard {A} (q : ShardWorld -> A * ShardWorld) : Shard A :=
  remote (app_error_from_sqlx SqlxOther) q.

(** ** Queries over all shards *)

(** [COUNT] of the tips of a database. *)
Definition count_tips (dsn : string) : Shard Z :=
  on_shard (fun w => (Z.of_nat (length (tips_of w dsn)), w)).

Definition count_creators (dsn : string) : Shard Z :=
  on_shard (fun w => (Z.of_nat (size (sd_creators (db_of w dsn))), w)).

(** [join_all]: every future runs to its end. *)
Fixpoint join_all {A B} (f : A -> Shard B) (l : list A) : Shard (list (result B AppError)) :=
  match l with
  | [] => mret []
  | x :: l' => r ← attempt (f x); rs ← join_all f l'; mret (r :: rs)
  end.

(** [result?] over a vector. *)
Fixpoint first_error {A} (l : list (result A AppError)) : AppResult (list A) :=
  match l with
  | [] => Ok []
  | Ok a :: l' => match first_error l' with Ok rest => Ok (a :: rest) | Err e => Err e end
  | Err e :: _ => Err e
  end.

(** src/src/sharding/router.rs:142-174 ShardRouter::fan_out *)
Definition fan_out {T} (r : ShardRouter) (f : Z -> string -> Shard T) : Shard (list (Z * T)) :=
  results ← join_all (fun '(shard_id, dsn) => t ← f shard_id dsn; mret (shard_id, t))
              (map_to_list (pools r));
  output ← lift (first_error results);
  mret (sort_by (fun x y => x.1 <=? y.1) output).

(** src/src/db/sharding.rs:164-180 count_tips_all_shards *)
Definition count_tips_all_shards (r : ShardRouter) : Shard Z :=
  results ← fan_out r (fun _ dsn => count_tips dsn);
  mret (sumZ (map snd results)).

(** src/src/db/sharding.rs:182-198 count_creators_all_shards *)
Definition count_creators_all_shards (r : ShardRouter) : Shard Z :=
  results ← fan_out r (fun _ dsn => count_creators dsn);
  mret (sumZ (map snd results)).

(** src/src/sharding/router.rs:38-53 ShardStats *)
Record ShardStats : Type := {
  st_shard_id : Z;
  st_name : string;
  st_status : ShardStatus;
  st_tip_count : Z;
  st_creator_count : Z
}.

(** src/src/sharding/router.rs:187-230 the statistics of one shard *)
Definition shard_stats (r : ShardRouter) (d : ShardDescriptor) : Shard ShardStats :=
  match pools r !! ds_shard_id d with
  | None =>
      mret {| st_shard_id := ds_shard_id d; st_name := ds_name d; st_status := Offline;
              st_tip_count := 0; st_creator_count := 0 |}
  | Some dsn =>
      tips ← attempt (count_tips dsn);
      creators ← attempt (count_creators dsn);
      mret {| st_shard_id := ds_shard_id d; st_name := ds_name d; st_status := ds_status d;
              st_tip_count := match tips with Ok n => n | Err _ => 0 end;
              st_creator_count := match creators with Ok n => n | Err _ => 0 end |}
  end.

(** src/src/sharding/router.rs:178-235 ShardRouter::collect_stats *)
Definition collect_stats (r : ShardRouter) : Shard (list ShardStats) :=
  forM (descriptors r) [] (fun acc d => s ← shard_stats r d; mret (acc ++ [s])).

(** ** rebalancer.rs: analysis *)

(** src/src/sharding/rebalancer.rs:31-36 ShardMove *)
Record ShardMove : Type := {
  mv_from_shard : Z;
  mv_to_shard : Z;
  mv_estimated_rows : Z
}.

(** src/src/sharding/rebalancer.rs:15-29 RebalanceReport *)
Record RebalanceReport : Type := {
  rp_total_tips : Z;
  rp_total_creators : Z;
  rp_avg_tips : Z;
  rp_avg_creators : Z;
  rp_overloaded : list Z;
  rp_underloaded : list Z;
  rp_rebalance_needed : bool;
  rp_suggested_moves : list ShardMove
}.

(** src/src/sharding/rebalancer.rs:56-62 ShardRebalancer *)
Record ShardRebalancer : Type := {
  rb_router : ShardRouter;
  rb_imbalance_threshold_pct : Z;
  rb_batch_size : Z
}.

(** src/src/sharding/rebalancer.rs:64-71 ShardRebalancer::new *)
Definition rebalancer_new (r : ShardRouter) : ShardRebalancer :=
  {| rb_router := r; rb_imbalance_threshold_pct := 20; rb_batch_size := 500 |}.

(** src/src/sharding/rebalancer.rs:73-76 ShardRebalancer::with_threshold *)
Definition with_threshold (pct : Z) (b : ShardRebalancer) : ShardRebalancer :=
  {| rb_router := rb_router b; rb_imbalance_threshold_pct := pct; rb_batch_size := rb_batch_size b |}.

(** src/src/sharding/rebalancer.rs:78-81 ShardRebalancer::with_batch_size *)
Definition with_batch_size (n : Z) (b : ShardRebalancer) : ShardRebalancer :=
  {| rb_router := rb_router b; rb_imbalance_threshold_pct := rb_imbalance_threshold_pct b;
     rb_batch_size := n |}.

(** src/src/sharding/rebalancer.rs:103-115 the deviation test of a shard; [true]
    when it is overloaded *)
Definition deviates (avg_tips threshold : Z) (s : ShardStats) : option bool :=
  if avg_tips =? 0 then None
  else if threshold <? Z.quot (Z.abs (st_tip_count s - avg_tips) * 100) avg_tips
       then Some (avg_tips <? st_tip_count s) else None.

(** src/src/sharding/rebalancer.rs:92-141 ShardRebalancer::build_report *)
Definition build_report (b : ShardRebalancer) (stats : list ShardStats) : RebalanceReport :=
  let total_tips := sumZ (map st_tip_count stats) in
  let total_creators := sumZ (map st_creator_count stats) in
  let n := Z.max 1 (Z.of_nat (length stats)) in
  let avg_tips := Z.quot total_tips n in
  let avg_creators := Z.quot total_creators n in
  let side v := map st_shard_id (List.filter (fun s =>
    bool_decide (deviates avg_tips (rb_imbalance_threshold_pct b) s = Some v)) stats) in
  let overloaded := side true in
  let underloaded := side false in
  let move '(from, to) :=
    {| mv_from_shard := from; mv_to_shard := to;
       mv_estimated_rows :=
         match List.find (fun s => st_shard_id s =? from) stats with
         | Some s => Z.quot (st_tip_count s - avg_tips) 2
         | None => 0
         end |} in
  {| rp_total_tips := total_tips; rp_total_creators := total_creators;
     rp_avg_tips := avg_tips; rp_avg_creators := avg_creators;
     rp_overloaded := overloaded; rp_underloaded := underloaded;
     rp_rebalance_needed := negb (bool_decide (overloaded = [])) || negb (bool_decide (underloaded = []));
     rp_suggested_moves := map move (combine overloaded underloaded) |}.

(** src/src/sharding/rebalancer.rs:85-90 ShardRebalancer::analyze *)
Definition analyze (b : ShardRebalancer) : Shard RebalanceReport :=
  stats ← collect_stats (rb_router b);
  mret (build_report b stats).

(** ** rebalancer.rs: migration *)

(** src/src/sharding/rebalancer.rs:40-48 MigrationStats *)
Record MigrationStats : Type := {
  ms_from_shard : Z;
  ms_to_shard : Z;
  ms_migrated_tips : Z;
  ms_failed : Z
}.

(** src/src/sharding/rebalancer.rs:203-215 the row the INSERT writes: the columns
    it does not list take the defaults of the schema *)
Definition migrated_row (t : Tip) : Tip :=
  {| tip_id := tip_id t; tip_creator := tip_creator t; tip_amount := tip_amount t;
     tip_hash := tip_hash t; tip_message := tip_message t; tip_message_visibility := Some "public";
     tip_created_at := tip_created_at t; tip_status := Some StatusConfirmed; tip_source := None |}.

Section migration.
(** The order in which the n-th [SELECT] visits the rows. *)
Variable scan : nat -> list Tip -> list Tip.

(** src/src/sharding/rebalancer.rs:175-184 the SELECT of a batch *)
Definition fetch_batch (dsn : string) (batch_size : Z) : Shard (list Tip) :=
  on_shard (fun w =>
    (take (Z.to_nat batch_size) (scan (sw_scans w) (tips_of w dsn)),
     {| sw_dbs := sw_dbs w; sw_scans := S (sw_scans w); sw_faults := sw_faults w |})).

(** src/src/sharding/rebalancer.rs:204-208 the INSERT of a row *)
Definition insert_row (dsn : string) (t : Tip) (w : ShardWorld) : result unit sqlx_error * ShardWorld :=
  let db := db_of w dsn in
  if existsb (fun u => String.eqb (tip_id u) (tip_id t)) (sd_tips db) then (Ok tt, w)
  else if existsb (fun u => String.eqb (tip_hash u) (tip_hash t)) (sd_tips db) then
    (Err (SqlxDatabase (Some "23505") (Some "tips_transaction_hash_key")), w)
  else if negb (bool_decide (tip_creator t ∈ sd_creators db)) then
    (Err (SqlxDatabase (Some "23503") (Some "tips_creator_username_fkey")), w)
  else (Ok tt, set_tips dsn (sd_tips db ++ [migrated_row t]) w).

(** src/src/sharding/rebalancer.rs:203-217 executing it *)
Definition try_insert (dsn : string) (t : Tip) : Shard unit :=
  r ← on_shard (insert_row dsn t);
  map_err app_error_from_sqlx (lift r).

(** src/src/sharding/rebalancer.rs:222-222 the DELETE of a row *)
Definition delete_row (dsn : string) (id : string) (w : ShardWorld) : ShardWorld :=
  set_tips dsn (List.filter (fun u => negb (String.eqb (tip_id u) id)) (tips_of w dsn)) w.

(** src/src/sharding/rebalancer.rs:200-236 one row of a batch *)
Definition migrate_row (from to : string) (counts : Z * Z) (t : Tip) : Shard (Z * Z) :=
  let '(migrated, failed) := counts in
  inserted ← attempt (E := AppError) (try_insert to t);
  match inserted with
  | Ok _ =>
      _ ← attempt (E := AppError) (on_shard (fun w => (tt, delete_row from (tip_id t) w)));
      mret (wrap_u64 (migrated + 1), failed)
  | Err _ => mret (migrated, wrap_u64 (failed + 1))
  end.

(** src/src/sharding/rebalancer.rs:172-245 the loop of migrate_tips, for at most
    [fuel] batches; [None] while it is running *)
Fixpoint migrate_loop (fuel : nat) (from to : string) (to_shard nshards batch_size : Z)
    (counts : Z * Z) : Shard (option (Z * Z)) :=
  match fuel with
  | O => mret None
  | S fuel' =>
      rows ← fetch_batch from batch_size;
      if bool_decide (rows = []) then mret (Some counts)
      else
        let to_migrate :=
          List.filter (fun r => fnv1a_shard (tip_creator r) nshards =? to_shard) rows in
        if bool_decide (to_migrate = []) then mret (Some counts)
        else
          counts' ← forM to_migrate counts (migrate_row from to);
          migrate_loop fuel' from to to_shard nshards batch_size counts'
  end.

(** src/src/sharding/rebalancer.rs:158-255 ShardRebalancer::migrate_tips *)
Definition migrate_tips (fuel : nat) (b : ShardRebalancer) (from_shard to_shard : Z)
    : Shard (option MigrationStats) :=
  from_pool ← lift (pool (rb_router b) from_shard);
  to_pool ← lift (pool (rb_router b) to_shard);
  counts ← migrate_loop fuel from_pool to_pool to_shard (num_shards (rb_router b)) (rb_batch_size b) (0, 0);
  mret (match counts with
        | Some (migrated, failed) =>
            Some {| ms_from_shard := from_shard; ms_to_shard := to_shard;
                    ms_migrated_tips := migrated; ms_failed := failed |}
        | None => None
        end).

(** src/src/sharding/rebalancer.rs:257-274 ShardRebalancer::execute_rebalance *)
Definition execute_rebalance (fuel : nat) (b : ShardRebalancer) (report : RebalanceReport)
    : Shard (list (AppResult (option MigrationStats))) :=
  forM (rp_suggested_moves report) [] (fun acc mv =>
    r ← attempt (migrate_tips fuel b (mv_from_shard mv) (mv_to_shard mv));
    mret (acc ++ [r])).

End migration.

(** ** Placement *)

Lemma fnv1a_range hash key : 0 <= hash <= u64_max -> 0 <= fnv1a hash key <= u64_max.
Proof.
  revert hash. induction key as [| c key IH]; intros hash Hh; [done |].
  simpl. apply IH, wrap_u64_range.
Qed.

Lemma fnv1a_shard_range key n : 0 < n <= u32_max -> 0 <= fnv1a_shard key n < n.
Proof.
  intros Hn. unfold fnv1a_shard. pose proof (Z.mod_pos_bound (fnv1a FNV_OFFSET key) n ltac:(lia)).
  rewrite wrap_u32_id; lia.
Qed.

Lemma range_new_lookup n i :
  0 < n <= u32_max -> (i < Z.to_nat n)%nat ->
  ranges (range_new n) !! i =
    Some (Z.of_nat i * (u64_max / n),
          if Z.of_nat i =? n - 1 then u64_max else (Z.of_nat i + 1) * (u64_max / n) - 1).
Proof.
  intros Hn Hi. unfold range_new. cbn [ranges].
  rewrite list_lookup_fmap, lookup_seq_lt by done. cbn [fmap option_fmap option_map Nat.add].
  assert (0 < u64_max / n) by (apply Z.div_str_pos; unfold u64_max, u32_max in *; lia).
  assert (n * (u64_max / n) <= u64_max) by (apply Z.mul_div_le; lia).
  rewrite wrap_u64_id by nia.
  destruct (Z.eqb_spec (Z.of_nat i) (n - 1)); [done |].
  rewrite (wrap_u64_id ((Z.of_nat i + 1) * _)) by nia. by rewrite wrap_u64_id by nia.
Qed.

(** Every [u64] key belongs to exactly one range, and [shard_for] answers the
    shard of that range, so the default of its search is never taken: the ranges
    of the shards partition the key space whatever their number, the last one
    taking the remainder of the division. *)
Lemma range_partition n value :
  0 < n <= u32_max -> 0 <= value <= u64_max ->
  let s := range_new n in
  let owns i := exists start end_, ranges s !! i = Some (start, end_) /\ start <= value <= end_ in
  exists i, range_shard_for s value = Z.of_nat i /\ Z.of_nat i < n /\ owns i /\
            forall j, owns j -> j = i.
Proof.
  intros Hn Hv s owns. set (size := u64_max / n).
  assert (0 < size) as Hs by (apply Z.div_str_pos; unfold u64_max, u32_max in *; lia).
  assert (n * size <= u64_max) as Hle by (apply Z.mul_div_le; lia).
  assert (forall j, owns j -> (j < Z.to_nat n)%nat /\
            Z.of_nat j * size <= value /\
            (value < (Z.of_nat j + 1) * size \/ Z.of_nat j = n - 1)) as Howns.
  { intros j (start & end_ & Hj & Hrange).
    assert (j < Z.to_nat n)%nat as Hlt.
    { apply lookup_lt_Some in Hj. unfold s, range_new in Hj. cbn [ranges] in Hj.
      by rewrite length_map, length_seq in Hj. }
    unfold s in Hj. rewrite range_new_lookup in Hj by done. fold size in Hj.
    destruct (Z.eqb_spec (Z.of_nat j) (n - 1)); injection Hj as <- <-; split_and!; try done; lia. }
  set (k := Z.to_nat (Z.min (n - 1) (value / size))).
  assert (owns k) as Hk.
  { assert (0 <= value / size) by (apply Z.div_pos; lia).
    exists (Z.of_nat k * size), (if Z.of_nat k =? n - 1 then u64_max else (Z.of_nat k + 1) * size - 1).
    unfold s. rewrite range_new_lookup by lia. split; [done |].
    pose proof (Z.mul_div_le value size Hs). pose proof (Z.mul_succ_div_gt value size Hs).
    destruct (Z.eqb_spec (Z.of_nat k) (n - 1)); nia. }
  assert (forall j, owns j -> j = k) as Huniq.
  { intros j Hj. destruct (Howns j Hj) as (? & ? & ?). destruct (Howns k Hk) as (? & ? & ?). nia. }
  exists k. split_and!; [| lia | done | done].
  unfold range_shard_for. destruct (position _ (ranges s)) as [i |] eqn:Hp.
  - destruct (position_Some _ _ _ Hp) as ([start end_] & Hi & Hb & _). zbool.
    assert (i = k) as -> by (apply Huniq; exists start, end_; by split_and!).
    simpl. apply wrap_u32_id. unfold u32_max in *. lia.
  - exfalso. destruct Hk as (start & end_ & Hi & Hr).
    pose proof (proj1 (position_None _ _) Hp _ (list_elem_of_lookup_2 _ _ _ Hi)) as Hf.
    simpl in Hf. apply andb_false_iff in Hf as [Hf | Hf]; zbool; lia.
Qed.

Lemma range_partition_witness :
  exists i, range_shard_for (range_new 3) 6148914691236517205 = Z.of_nat i /\ Z.of_nat i < 3.
Proof.
  destruct (range_partition 3 6148914691236517205) as (i & Hi & Hlt & _).
  - unfold u32_max. lia.
  - unfold u64_max. lia.
  - exists i. split; [exact Hi | exact Hlt].
Defined.

(** ** Migration *)

Section migration_facts.
Variable scan : nat -> list Tip -> list Tip.
Hypothesis scan_perm : forall n l, scan n l ≡ₚ l.
Variables (from to : string).
Hypothesis distinct : from <> to.

Lemma tips_set_same dsn l w : tips_of (set_tips dsn l w) dsn = l.
Proof. unfold tips_of, db_of, set_tips. simpl. by rewrite lookup_insert_eq. Qed.

Lemma tips_set_other dsn dsn' l w : dsn <> dsn' -> tips_of (set_tips dsn l w) dsn' = tips_of w dsn'.
Proof. intros H. unfold tips_of, db_of, set_tips. simpl. by rewrite lookup_insert_ne. Qed.

(** Where the migration of [from] into [to] stands, started in [w0]. *)
Record migrating (w0 w : ShardWorld) : Prop := {
  mg_kept t : t ∈ tips_of w0 from ->
    t ∈ tips_of w from \/ exists u, u ∈ tips_of w to /\ tip_id u = tip_id t;
  mg_source t : t ∈ tips_of w from -> t ∈ tips_of w0 from;
  mg_target u : u ∈ tips_of w0 to -> u ∈ tips_of w to;
  mg_arrived u : u ∈ tips_of w to ->
    u ∈ tips_of w0 to \/ exists t, t ∈ tips_of w0 from /\ u = migrated_row t;
  mg_others dsn : dsn <> from -> dsn <> to -> tips_of w dsn = tips_of w0 dsn
}.

Lemma migrating_refl w : migrating w w.
Proof. constructor; auto. Qed.

(** Same tips everywhere. *)
Definition same_tips (w w' : ShardWorld) : Prop := forall dsn, tips_of w' dsn = tips_of w dsn.

Lemma migrating_same w0 w w' : same_tips w w' -> migrating w0 w -> migrating w0 w'.
Proof. intros H []. constructor; intros *; rewrite ?H; auto. Qed.

Lemma on_shard_cases {A} (q : ShardWorld -> A * ShardWorld) w :
  exists w1, sw_dbs w1 = sw_dbs w /\
    ((exists e, on_shard q w = (Err e, w1)) \/
     (exists e, on_shard q w = (Err e, snd (q w1))) \/
     on_shard q w = (Ok (fst (q w1)), snd (q w1))).
Proof.
  unfold on_shard, remote. simpl. destruct (pop_fault (sw_faults w)) as [f l].
  exists {| sw_dbs := sw_dbs w; sw_scans := sw_scans w; sw_faults := l |}. split; [done |].
  destruct f; destruct (q _) as [a w2]; eauto.
Qed.

Lemma same_dbs w w' : sw_dbs w' = sw_dbs w -> same_tips w w'.
Proof. intros H dsn. unfold tips_of, db_of. by rewrite H. Qed.

Lemma insert_row_migrating w0 w t :
  t ∈ tips_of w0 from -> migrating w0 w ->
  migrating w0 (snd (insert_row to t w)) /\
  (fst (insert_row to t w) = Ok tt ->
   exists u, u ∈ tips_of (snd (insert_row to t w)) to /\ tip_id u = tip_id t).
Proof.
  intros Ht M. unfold insert_row. destruct (existsb (fun u => String.eqb (tip_id u) (tip_id t)) _) eqn:E1.
  { simpl. split; [done |]. intros _. apply existsb_exists in E1 as (u & Hu & He).
    apply list_elem_of_In in Hu. apply String.eqb_eq in He. eauto. }
  destruct (existsb (fun u => String.eqb (tip_hash u) (tip_hash t)) _) eqn:E2; [by split |].
  destruct (negb _) eqn:E3; [by split |]. simpl.
  fold (tips_of w to). destruct M. split.
  - constructor; intros *; rewrite ?tips_set_same, ?(tips_set_other to from) by done; try (by auto).
    + intros Hin. destruct (mg_kept0 t0 Hin) as [? | (u & Hu & He)]; [by left | right].
      exists u. split; [set_solver | done].
    + intros Hin. apply elem_of_app. left. auto.
    + intros [Hin | ->%list_elem_of_singleton]%elem_of_app; [auto | right; eauto].
    + intros Hne1 Hne2. rewrite tips_set_other by done. auto.
  - intros _. exists (migrated_row t). rewrite tips_set_same. split; [set_solver | done].
Qed.

Lemma delete_row_migrating w0 w t :
  NoDup (tip_id <$> tips_of w0 from) -> t ∈ tips_of w0 from ->
  (exists u, u ∈ tips_of w to /\ tip_id u = tip_id t) ->
  migrating w0 w -> migrating w0 (delete_row from (tip_id t) w).
Proof.
  intros Hnd Ht Hu M. unfold delete_row.
  destruct M. constructor; intros *; rewrite ?tips_set_same, ?(tips_set_other from to) by done; try (by auto).
  - intros Hin. destruct (String.eqb_spec (tip_id t0) (tip_id t)) as [He | He].
    + right. by rewrite He.
    + destruct (mg_kept0 t0 Hin) as [Hin' | ?]; [left | by right].
      apply list_elem_of_In, List.filter_In. split; [by apply list_elem_of_In |].
      by apply negb_true_iff, String.eqb_neq.
  - intros [Hin _]%list_elem_of_In%List.filter_In. apply mg_source0. by apply list_elem_of_In.
  - intros Hne1 Hne2. rewrite tips_set_other by done. auto.
Qed.

Section started.
Variable w0 : ShardWorld.
Hypothesis ids : NoDup (tip_id <$> tips_of w0 from).

Lemma migrate_row_migrating counts t w :
  t ∈ tips_of w0 from -> migrating w0 w -> migrating w0 (snd (migrate_row from to counts t w)).
Proof.
  intros Ht M. unfold migrate_row. destruct counts as [migrated failed].
  assert (exists r w1, try_insert to t w = (r, w1) /\ migrating w0 w1 /\
            (is_ok r = true -> exists u, u ∈ tips_of w1 to /\ tip_id u = tip_id t)) as (r & w1 & Hr & M1 & Hok).
  { destruct (on_shard_cases (insert_row to t) w) as (w1 & Hdbs & Hcases).
    pose proof (migrating_same _ _ _ (same_dbs _ _ Hdbs) M) as M1.
    destruct (insert_row_migrating w0 w1 t Ht M1) as [M2 Hu].
    unfold try_insert, mbind, M_bind.
    destruct Hcases as [[e ->] | [[e ->] | ->]]; [by eexists _, _ | by eexists _, _ |].
    unfold map_err, lift. destruct (insert_row to t w1) as [[[] | e] w2]; simpl in *;
      eexists _, _; (split; [done |]); split; auto; done. }
  unfold mbind, M_bind, attempt. rewrite Hr.
  destruct r as [[] | e]; [| done].
  destruct (on_shard_cases (fun w => (tt, delete_row from (tip_id t) w)) w1) as (w2 & Hdbs & Hcases).
  pose proof (migrating_same _ _ _ (same_dbs _ _ Hdbs) M1) as M2.
  assert (migrating w0 (delete_row from (tip_id t) w2)) as M3.
  { apply delete_row_migrating; try done. rewrite (same_dbs _ _ Hdbs). by apply Hok. }
  destruct Hcases as [[e ->] | [[e ->] | ->]]; done.
Qed.

Lemma migrate_rows_migrating l counts w :
  (forall t, t ∈ l -> t ∈ tips_of w0 from) -> migrating w0 w ->
  migrating w0 (snd (forM l counts (migrate_row from to) w)).
Proof.
  revert counts w. induction l as [| t l IH]; intros counts w Hl M; [done |]. cbn [forM].
  unfold mbind, M_bind.
  pose proof (migrate_row_migrating counts t w (Hl t ltac:(left)) M) as M1.
  destruct (migrate_row from to counts t w) as [[c | e] w1]; [| done].
  apply IH; [set_solver | done].
Qed.

Lemma migrate_loop_migrating fuel to_shard n batch counts w :
  migrating w0 w ->
  migrating w0 (snd (migrate_loop scan fuel from to to_shard n batch counts w)).
Proof.
  revert counts w. induction fuel as [| fuel IH]; intros counts w M; [done |]. cbn [migrate_loop].
  unfold mbind, M_bind, fetch_batch.
  match goal with |- context [on_shard ?q w] => destruct (on_shard_cases q w) as (w1 & Hdbs & Hcases) end.
  pose proof (migrating_same _ _ _ (same_dbs _ _ Hdbs) M) as M1.
  set (w2 := {| sw_dbs := sw_dbs w1; sw_scans := S (sw_scans w1); sw_faults := sw_faults w1 |}) in *.
  assert (migrating w0 w2) as M2 by (apply (migrating_same w0 w1); [by apply same_dbs | exact M1]).
  destruct Hcases as [[e ->] | [[e ->] | ->]]; simpl; [done | done |]. fold w2.
  set (rows := take _ _).
  destruct (bool_decide (rows = [])); [done |].
  set (todo := List.filter _ rows). destruct (bool_decide (todo = [])); [done |].
  assert (forall t, t ∈ todo -> t ∈ tips_of w0 from) as Htodo.
  { intros t [Hin _]%list_elem_of_In%List.filter_In. apply (mg_source w0 w1 M1).
    apply list_elem_of_In, elem_of_take in Hin as (i & Hin & _).
    apply list_elem_of_lookup_2 in Hin. by rewrite scan_perm in Hin. }
  pose proof (migrate_rows_migrating todo counts w2 Htodo M2) as M3.
  destruct (forM todo counts _ w2) as [[c | e] w3]; [by apply IH | done].
Qed.
End started.
End migration_facts.

Lemma run_lift_ok {A} (a : A) (k : A -> Shard A) (w : ShardWorld) : mbind k (lift (Ok a)) w = k a w.
Proof. done. Qed.

Lemma migrate_tips_run {scan fuel b fs ts from to} :
  pools (rb_router b) !! fs = Some from -> pools (rb_router b) !! ts = Some to ->
  forall w, snd (migrate_tips scan fuel b fs ts w) =
    snd (migrate_loop scan fuel from to ts (num_shards (rb_router b)) (rb_batch_size b) (0, 0) w).
Proof.
  intros Hf Ht w. unfold migrate_tips, pool. rewrite Hf, Ht. unfold mbind, M_bind. simpl.
  destruct (migrate_loop _ _ _ _ _ _ _ _ w) as [[c | e] w']; done.
Qed.

Lemma fmap_id_inj (l : list Tip) t u : NoDup (tip_id <$> l) -> t ∈ l -> u ∈ l -> tip_id t = tip_id u -> t = u.
Proof.
  intros Hnd (i & Hi)%list_elem_of_lookup (j & Hj)%list_elem_of_lookup He.
  assert ((tip_id <$> l) !! i = Some (tip_id t)) as Hi' by by rewrite list_lookup_fmap, Hi.
  assert ((tip_id <$> l) !! j = Some (tip_id t)) as Hj' by by rewrite list_lookup_fmap, Hj, He.
  rewrite (NoDup_lookup _ _ _ _ Hnd Hi' Hj') in Hi. congruence.
Qed.

(** C17: A migration between two databases loses no tip, wherever it stops
    (database faults and unfinished loops included): every tip of the source is
    still there, or at the target as the copy the INSERT writes, or at the target
    already under its id.  The target keeps its rows and gains copies of rows of
    the source only, each of them confirmed and public, whatever the status
    and the visibility of the tip were; the source gains nothing and no other
    database changes. *)
Lemma migration_keeps_tips scan fuel b from_shard to_shard from to w :
  (forall n l, scan n l ≡ₚ l) ->
  pools (rb_router b) !! from_shard = Some from -> pools (rb_router b) !! to_shard = Some to ->
  from <> to -> NoDup (tip_id <$> tips_of w from) ->
  let w' := snd (migrate_tips scan fuel b from_shard to_shard w) in
  (forall t, t ∈ tips_of w from ->
     t ∈ tips_of w' from \/ migrated_row t ∈ tips_of w' to \/
     exists u, u ∈ tips_of w to /\ u ∈ tips_of w' to /\ tip_id u = tip_id t) /\
  (forall u, u ∈ tips_of w to -> u ∈ tips_of w' to) /\
  (forall u, u ∈ tips_of w' to -> u ∉ tips_of w to ->
     (exists t, t ∈ tips_of w from /\ u = migrated_row t) /\ tip_status u = Some StatusConfirmed) /\
  (forall t, t ∈ tips_of w' from -> t ∈ tips_of w from) /\
  (forall dsn, dsn <> from -> dsn <> to -> tips_of w' dsn = tips_of w dsn).
Proof.
  intros Hscan Hf Ht Hne Hnd w'.
  assert (migrating from to w w') as [].
  { unfold w'. rewrite (migrate_tips_run Hf Ht).
    by apply migrate_loop_migrating; [| | | apply migrating_refl]. }
  split_and!; try done.
  - intros t Hin. destruct (mg_kept0 t Hin) as [? | (u & Hu & He)]; [by left | right].
    destruct (mg_arrived0 u Hu) as [? | (t' & Ht' & ->)]; [right; eauto | left].
    by rewrite (fmap_id_inj _ t t' Hnd Hin Ht').
  - intros u Hu Hnew. destruct (mg_arrived0 u Hu) as [? | (t & Hin & ->)]; [done |].
    split; [by exists t | done].
Qed.

(** Rows of a source that all belong at the target, where no creator is
    registered (the migration of creators is a separate operation). *)
Record stuck (to : string) (to_shard n : Z) (l : list Tip) (w : ShardWorld) : Prop := {
  sk_faults : sw_faults w = [];
  sk_place t : t ∈ l -> fnv1a_shard (tip_creator t) n = to_shard;
  sk_target t : t ∈ l -> tip_creator t ∉ sd_creators (db_of w to);
  sk_fresh t u : t ∈ l -> u ∈ tips_of w to -> tip_id u <> tip_id t
}.

(** The target refuses the row, whether for its hash or for its creator. *)
Lemma try_insert_stuck to to_shard n l t w :
  stuck to to_shard n l w -> t ∈ l -> exists e, try_insert to t w = (Err e, w).
Proof.
  intros [Hf _ Hc Hi] Ht. unfold try_insert, on_shard, remote, mbind, M_bind. simpl.
  destruct w as [dbs n' faults]. simpl in Hf. subst faults. simpl. unfold insert_row.
  assert (existsb (fun u => String.eqb (tip_id u) (tip_id t))
            (sd_tips (db_of {| sw_dbs := dbs; sw_scans := n'; sw_faults := [] |} to)) = false) as ->.
  { apply existsb_false_iff. intros u Hu. apply String.eqb_neq. by apply Hi. }
  destruct (existsb _ _); [by eexists |]. rewrite bool_decide_eq_false_2 by by apply Hc. by eexists.
Qed.

Lemma migrate_rows_stuck from to to_shard n l todo counts w :
  stuck to to_shard n l w -> (forall t, t ∈ todo -> t ∈ l) ->
  exists counts', forM todo counts (migrate_row from to) w = (Ok counts', w).
Proof.
  intros Hs. revert counts. induction todo as [| t todo IH]; intros counts Hin; [by eexists |].
  cbn [forM]. unfold mbind, M_bind. destruct counts as [migrated failed]. cbn [migrate_row].
  unfold mbind, M_bind, attempt.
  destruct (try_insert_stuck to to_shard n l t w Hs (Hin t ltac:(left))) as [e ->].
  apply IH. intros u Hu. apply Hin. by right.
Qed.

Section stuck_loop.
Variable scan : nat -> list Tip -> list Tip.
Hypothesis scan_perm : forall n l, scan n l ≡ₚ l.
Variables (from to : string) (to_shard n : Z) (l : list Tip).
Hypothesis nonempty : l <> [].

Lemma stuck_scanned w : stuck to to_shard n l w -> tips_of w from = l ->
  let w1 := {| sw_dbs := sw_dbs w; sw_scans := S (sw_scans w); sw_faults := sw_faults w |} in
  stuck to to_shard n l w1 /\ tips_of w1 from = l.
Proof. intros []. split; [by constructor | done]. Qed.

Lemma filter_all {A} (f : A -> bool) (m : list A) : (forall x, x ∈ m -> f x = true) -> List.filter f m = m.
Proof.
  induction m as [| x m IH]; intros H; [done |]. simpl. rewrite H by left. f_equal. apply IH.
  intros y Hy. apply H. by right.
Qed.

Lemma migrate_loop_stuck batch fuel counts w :
  0 < batch -> stuck to to_shard n l w -> tips_of w from = l ->
  exists w', migrate_loop scan fuel from to to_shard n batch counts w = (Ok None, w') /\ sw_dbs w' = sw_dbs w.
Proof.
  intros Hb. revert counts w. induction fuel as [| fuel IH]; intros counts w Hs Hl; [by eexists |].
  cbn [migrate_loop]. destruct (stuck_scanned w Hs Hl) as [Hs1 Hl1].
  unfold fetch_batch, on_shard, remote, mbind, M_bind. simpl.
  destruct w as [dbs k faults]. pose proof (sk_faults _ _ _ _ _ Hs) as Hf. simpl in Hf. subst faults. simpl in *.
  rewrite Hl. set (rows := take _ _).
  assert (forall t, t ∈ rows -> t ∈ l) as Hrows.
  { intros t (i & Hi & _)%elem_of_take. apply list_elem_of_lookup_2 in Hi. by rewrite scan_perm in Hi. }
  assert (rows <> []) as Hne.
  { unfold rows. pose proof (Permutation_length (scan_perm k l)) as Hlen.
    destruct (scan k l) as [| t m]; [by destruct l |]. by destruct (Z.to_nat batch) eqn:?; [lia |]. }
  rewrite filter_all by (intros t Ht; apply Z.eqb_eq; by eapply sk_place, Hrows).
  rewrite !bool_decide_eq_false_2 by done.
  destruct (migrate_rows_stuck from to to_shard n l rows counts _ Hs1 Hrows) as [counts' Hrun].
  unfold mbind, M_bind. rewrite Hrun. destruct (IH counts' _ Hs1 Hl1) as (w' & -> & Hdbs). eauto.
Qed.
End stuck_loop.

(** When all the tips of the source belong at a target on which none of
    their creators is registered, and nothing migrates creators, the loop never
    ends and changes nothing, even with no fault of a database: it selects the same rows
    again and counts them as failed, for as many batches as it runs. *)
Lemma migration_never_ends scan fuel b from_shard to_shard from to w :
  (forall n l, scan n l ≡ₚ l) ->
  pools (rb_router b) !! from_shard = Some from -> pools (rb_router b) !! to_shard = Some to ->
  0 < rb_batch_size b -> tips_of w from <> [] ->
  stuck to to_shard (num_shards (rb_router b)) (tips_of w from) w ->
  exists w', migrate_tips scan fuel b from_shard to_shard w = (Ok None, w') /\ sw_dbs w' = sw_dbs w.
Proof.
  intros Hscan Hf Ht Hb Hne Hs.
  destruct (migrate_loop_stuck scan Hscan from to to_shard _ _ Hne (rb_batch_size b) fuel (0, 0) w Hb Hs eq_refl)
    as (w' & Hrun & Hdbs).
  exists w'. unfold migrate_tips, pool. rewrite Hf, Ht. unfold mbind, M_bind. simpl. by rewrite Hrun.
Qed.

(** ** A two-shard deployment for the witnesses *)

Definition two_shards : ShardRebalancer :=
  rebalancer_new (from_config {| cfg_num_shards := 2; cfg_strategy := Hash; shard_dsns := ["db-a"; "db-b"] |}).

Definition pending_tip : Tip :=
  {| tip_id := "t1"; tip_creator := "alice"; tip_amount := "5"; tip_hash := "h1"; tip_message := None;
     tip_message_visibility := Some "private"; tip_created_at := 7;
     tip_status := Some PendingVerification; tip_source := None |}.

Definition two_dbs (registered : gset string) : ShardWorld :=
  {| sw_dbs := {[ "db-a" := {| sd_creators := {[ "alice" ]}; sd_tips := [pending_tip] |};
                  "db-b" := {| sd_creators := registered; sd_tips := [] |} ]};
     sw_scans := 0; sw_faults := [] |}.

Lemma migration_keeps_tips_witness :
  let w' := snd (migrate_tips (fun _ l => l) 3 two_shards 0 1 (two_dbs {[ "alice" ]})) in
  (pending_tip ∈ tips_of w' "db-a" \/ migrated_row pending_tip ∈ tips_of w' "db-b" \/
   exists u, u ∈ tips_of (two_dbs {[ "alice" ]}) "db-b" /\ u ∈ tips_of w' "db-b" /\
             tip_id u = tip_id pending_tip) /\
  tip_status <$> tips_of w' "db-b" = [Some StatusConfirmed].
Proof.
  split; [| vm_compute; reflexivity].
  refine (proj1 (migration_keeps_tips (fun _ l => l) 3 two_shards 0 1 "db-a" "db-b" (two_dbs {[ "alice" ]})
                   (fun _ l => reflexivity l) _ _ _ _) pending_tip _).
  - vm_compute; reflexivity.
  - vm_compute; reflexivity.
  - discriminate.
  - apply NoDup_singleton.
  - apply list_elem_of_singleton. reflexivity.
Defined.

Lemma migration_never_ends_witness :
  exists w', migrate_tips (fun _ l => l) 1000 two_shards 0 1 (two_dbs ∅) = (Ok None, w') /\
             sw_dbs w' = sw_dbs (two_dbs ∅).
Proof.
  apply (migration_never_ends (fun _ l => l) 1000 two_shards 0 1 "db-a" "db-b").
  - intros _ l. reflexivity.
  - vm_compute; reflexivity.
  - vm_compute; reflexivity.
  - vm_compute; reflexivity.
  - discriminate.
  - constructor.
    + reflexivity.
    + intros t ->%list_elem_of_singleton. vm_compute; reflexivity.
    + intros t ->%list_elem_of_singleton. apply not_elem_of_empty.
    + intros t u _ Hu. exfalso. by apply not_elem_of_nil in Hu.
Defined.
