(* ===== verification/Locks.v ===== *)
(** * Distributed locks

    src/src/services/distributed_lock.rs (locks kept in Redis under an expiring
    key, with a registry in each process for monitoring) and
    src/src/routes/locks.rs (the routes that expose them), over the interface
    [Redis].

    Every replica of the service has its own registry and counters; the Redis
    server and the clock are shared.  The contract is an abstract lease table,
    [lease_step]: a resource has at most one owner until a deadline.
    [lock_refinement] shows that any interleaving of the operations of any
    replicas, Redis faults included, is a run of that table. *)

From S2P Require Import Prelude Text Errors Redis.

(** ** services/distributed_lock.rs *)

(** src/src/services/distributed_lock.rs:25-25 KEY_PREFIX *)
Definition KEY_PREFIX : string := "lock:".

(** src/src/services/distributed_lock.rs:30-38 LockError *)
Inductive LockError : Type := AlreadyHeld | Unavailable | NotOwner.

(** src/src/services/distributed_lock.rs:40-48 LockError::fmt *)
Definition lock_error_display (e : LockError) : string :=
  match e with
  | AlreadyHeld => "lock already held"
  | Unavailable => "redis unavailable"
  | NotOwner => "caller does not own the lock"
  end.

(** src/src/services/distributed_lock.rs:51-56 LockGuard *)
Record LockGuard : Type := {
  lg_resource : string;
  lg_token : string;
  lg_ttl_ms : Z
}.

(** src/src/services/distributed_lock.rs:59-65 LockInfo *)
Record LockInfo : Type := {
  li_resource : string;
  li_token : string;
  li_acquired_at : Z;
  li_ttl_ms : Z
}.

(** src/src/services/distributed_lock.rs:68-74 LockStats *)
Record LockStats : Type := {
  active_locks : list LockInfo;
  total_acquired : Z;
  total_released : Z;
  total_expired : Z
}.

(** src/src/services/distributed_lock.rs:79-86 the state of a process *)
Record DistributedLockService : Type := {
  registry : gmap string LockInfo;
  acquired : Z;
  released : Z;
  expired : Z
}.

(** src/src/services/distributed_lock.rs:89-97 DistributedLockService::new *)
Definition service_new : DistributedLockService :=
  {| registry := ∅; acquired := 0; released := 0; expired := 0 |}.

(** [SET key token NX PX ttl]: an expiry that is not positive or overflows the
    server's clock is an error. *)
Definition set_nx_px {St} `{Redis string St} (now : Z) (k v : string) (ttl : Z) (s : St)
    : option bool * St :=
  if (0 <? ttl) && (now + ttl <=? i64_max) then
    let '(ok, s') := r_set_nx_px now k v ttl s in (Some ok, s')
  else (None, s).

(** src/src/services/distributed_lock.rs:176-182 the script of renew: [PEXPIRE]
    fails on an overflow and deletes the key when the expiry is not positive *)
Definition pexpire_if {St} `{Redis string St} (now : Z) (k v : string) (ttl : Z) (s : St)
    : option Z * St :=
  if bool_decide (r_get now k s = Some v) then
    if negb (now + ttl <=? i64_max) then (None, s)
    else if ttl <=? 0 then (Some 1, r_del k s)
    else (Some 1, r_set_px now k v ttl s)
  else (Some 0, s).

Section locks.
Context {St : Type} `{Redis string St}.
(** [Uuid::new_v4] *)
Variable uuid : nat -> string.
(** The order in which a [HashMap] is visited. *)
Variable visit : gmap string LockInfo -> list (string * LockInfo).

(** The server, its clock in milliseconds, the processes and the schedule of
    faults. *)
Record LockWorld : Type := {
  lk_redis : St;
  lk_now : Z;
  lk_uuids : nat;
  lk_services : gmap nat DistributedLockService;
  lk_faults : list fault
}.

#[export] Instance lock_world_networked : Networked LockWorld := {
  next_fault w :=
    let '(f, l) := pop_fault (lk_faults w) in
    (f, {| lk_redis := lk_redis w; lk_now := lk_now w; lk_uuids := lk_uuids w;
           lk_services := lk_services w; lk_faults := l |})
}.

Definition Locked : Type -> Type := M LockWorld LockError.

Definition service (self : nat) (w : LockWorld) : DistributedLockService :=
  default service_new (lk_services w !! self).

Definition on_service (self : nat) (f : DistributedLockService -> DistributedLockService) : Locked unit :=
  modify (fun w =>
    {| lk_redis := lk_redis w; lk_now := lk_now w; lk_uuids := lk_uuids w;
       lk_services := <[self := f (service self w)]> (lk_services w); lk_faults := lk_faults w |}).

Definition redis_cmd {A} (q : Z -> St -> A * St) : Locked A :=
  remote Unavailable (fun w =>
    let '(a, s) := q (lk_now w) (lk_redis w) in
    (a, {| lk_redis := s; lk_now := lk_now w; lk_uuids := lk_uuids w;
           lk_services := lk_services w; lk_faults := lk_faults w |})).

Definition new_token : Locked string := fun w =>
  (Ok (uuid (lk_uuids w)),
   {| lk_redis := lk_redis w; lk_now := lk_now w; lk_uuids := S (lk_uuids w);
      lk_services := lk_services w; lk_faults := lk_faults w |}).

(** src/src/services/distributed_lock.rs:125-136 the registration of a lock *)
Definition register (guard : LockGuard) (now : Z) (s : DistributedLockService) : DistributedLockService :=
  {| registry := <[lg_resource guard :=
       {| li_resource := lg_resource guard; li_token := lg_token guard; li_acquired_at := now;
          li_ttl_ms := lg_ttl_ms guard |}]> (registry s);
     acquired := wrap_u64 (acquired s + 1); released := released s; expired := expired s |}.

(** src/src/services/distributed_lock.rs:101-139 DistributedLockService::acquire *)
Definition acquire (self : nat) (resource : string) (ttl_ms : Z) : Locked LockGuard :=
  let key := KEY_PREFIX +:+ resource in
  token ← new_token;
  result ← redis_cmd (fun now => set_nx_px now key token ttl_ms);
  ok ← expect Unavailable result;
  if negb ok then throw AlreadyHeld
  else
    let guard := {| lg_resource := resource; lg_token := token; lg_ttl_ms := ttl_ms |} in
    now ← gets lk_now;
    _ ← on_service self (register guard now);
    mret guard.

(** src/src/services/distributed_lock.rs:166-168 the deregistration of a lock *)
Definition deregister (resource : string) (s : DistributedLockService) : DistributedLockService :=
  {| registry := delete resource (registry s); acquired := acquired s;
     released := wrap_u64 (released s + 1); expired := expired s |}.

(** src/src/services/distributed_lock.rs:143-170 DistributedLockService::release *)
Definition release (self : nat) (guard : LockGuard) : Locked unit :=
  let key := KEY_PREFIX +:+ lg_resource guard in
  deleted ← redis_cmd (fun now => r_del_if now key (lg_token guard));
  if deleted =? 0 then throw NotOwner
  else on_service self (deregister (lg_resource guard)).

(** src/src/services/distributed_lock.rs:196-199 the new expiry in the registry *)
Definition update_ttl (resource : string) (ttl : Z) (s : DistributedLockService) : DistributedLockService :=
  {| registry := alter (fun i =>
       {| li_resource := li_resource i; li_token := li_token i; li_acquired_at := li_acquired_at i;
          li_ttl_ms := ttl |}) resource (registry s);
     acquired := acquired s; released := released s; expired := expired s |}.

(** src/src/services/distributed_lock.rs:173-202 DistributedLockService::renew *)
Definition renew (self : nat) (guard : LockGuard) (new_ttl_ms : Z) : Locked unit :=
  let key := KEY_PREFIX +:+ lg_resource guard in
  result ← redis_cmd (fun now => pexpire_if now key (lg_token guard) new_ttl_ms);
  ok ← expect Unavailable result;
  if ok =? 0 then throw NotOwner
  else on_service self (update_ttl (lg_resource guard) new_ttl_ms).

(** src/src/services/distributed_lock.rs:205-209 DistributedLockService::is_locked *)
Definition is_locked (resource : string) : Locked bool :=
  val ← attempt (E := LockError) (redis_cmd (fun now s => (r_get now (KEY_PREFIX +:+ resource) s, s)));
  mret match val with Ok v => bool_decide (is_Some v) | Err _ => false end.

(** src/src/services/distributed_lock.rs:212-220 DistributedLockService::stats *)
Definition stats (s : DistributedLockService) : LockStats :=
  {| active_locks := (visit (registry s)).*2; total_acquired := acquired s;
     total_released := released s; total_expired := expired s |}.

(** src/src/services/distributed_lock.rs:229-231 the removal of an entry *)
Definition expire_entry (resource : string) (s : DistributedLockService) : DistributedLockService :=
  match registry s !! resource with
  | Some _ =>
      {| registry := delete resource (registry s); acquired := acquired s; released := released s;
         expired := wrap_u64 (expired s + 1) |}
  | None => s
  end.

(** src/src/services/distributed_lock.rs:224-236 DistributedLockService::detect_expired *)
Definition detect_expired (self : nat) : Locked unit :=
  keys ← gets (fun w => (visit (registry (service self w))).*1);
  forM keys tt (fun _ resource =>
    locked ← is_locked resource;
    if negb locked then on_service self (expire_entry resource) else mret tt).

(** ** routes/locks.rs *)

(** What a route answers; its JSON body is left to serde. *)
Inductive LockResponse : Type :=
| LockGranted (guard : LockGuard)
| LockRenewed (resource : string) (ttl_ms : Z)
| LockStatus (resource : string) (locked : bool)
| LockSnapshot (s : LockStats)
| LockReleased
| LockConflict
| LockForbidden.

(** src/src/routes/locks.rs:72-136 the status codes of the answers *)
Definition response_status (r : LockResponse) : Z :=
  match r with
  | LockGranted _ | LockRenewed _ _ | LockStatus _ _ | LockSnapshot _ => 200
  | LockReleased => 204
  | LockConflict => 409
  | LockForbidden => 403
  end.

(** A route runs in a process that may have no lock service. *)
Definition LockRoute : Type -> Type := M LockWorld AppError.

(** src/src/routes/locks.rs:40-47 lock_svc *)
Definition lock_svc (lock_service : option nat) : LockRoute nat :=
  expect (service_unavailable "Distributed locking requires Redis") lock_service.

(** src/src/routes/locks.rs:70-70 the bounds of a requested expiry *)
Definition clamp_ttl (ttl : option Z) : Z := Z.max 100 (Z.min 300000 (default 30000 ttl)).

(** src/src/routes/locks.rs:49-52 stats *)
Definition stats_route (lock_service : option nat) : LockRoute LockResponse :=
  self ← lock_svc lock_service;
  s ← gets (fun w => stats (service self w));
  mret (LockSnapshot s).

(** src/src/routes/locks.rs:54-63 is_locked *)
Definition is_locked_route (lock_service : option nat) (resource : string) : LockRoute LockResponse :=
  _ ← lock_svc lock_service;
  locked ← map_err (fun e => service_unavailable (lock_error_display e)) (is_locked resource);
  mret (LockStatus resource locked).

(** src/src/routes/locks.rs:65-88 acquire *)
Definition acquire_route (lock_service : option nat) (resource : string) (ttl_ms : option Z)
    : LockRoute LockResponse :=
  self ← lock_svc lock_service;
  r ← attempt (acquire self resource (clamp_ttl ttl_ms));
  match r with
  | Ok guard => mret (LockGranted guard)
  | Err AlreadyHeld => mret LockConflict
  | Err e => throw (service_unavailable (lock_error_display e))
  end.

(** src/src/routes/locks.rs:90-114 release *)
Definition release_route (lock_service : option nat) (resource token : string) : LockRoute LockResponse :=
  if String.eqb token "" then throw (Validation (InvalidRequest "token is required"))
  else
    self ← lock_svc lock_service;
    r ← attempt (release self {| lg_resource := resource; lg_token := token; lg_ttl_ms := 0 |});
    match r with
    | Ok _ => mret LockReleased
    | Err NotOwner => mret LockForbidden
    | Err e => throw (service_unavailable (lock_error_display e))
    end.

(** src/src/routes/locks.rs:116-140 renew *)
Definition renew_route (lock_service : option nat) (resource token : string) (ttl_ms : option Z)
    : LockRoute LockResponse :=
  let ttl := clamp_ttl ttl_ms in
  self ← lock_svc lock_service;
  r ← attempt (renew self {| lg_resource := resource; lg_token := token; lg_ttl_ms := ttl |} ttl);
  match r with
  | Ok _ => mret (LockRenewed resource ttl)
  | Err NotOwner => mret LockForbidden
  | Err e => throw (service_unavailable (lock_error_display e))
  end.

(** ** The system: any process runs any operation at any time *)

Inductive lock_op : Type :=
| Acquire (resource : string) (ttl_ms : Z)
| Release (guard : LockGuard)
| Renew (guard : LockGuard) (ttl_ms : Z)
| Query (resource : string)
| Monitor.

Inductive lock_out : Type :=
| Granted (token : string)
| Done
| Answer (locked : bool)
| Denied (e : LockError).

Definition reply {A} (f : A -> lock_out) (m : Locked A) (w : LockWorld) : lock_out * LockWorld :=
  match m w with
  | (Ok a, w') => (f a, w')
  | (Err e, w') => (Denied e, w')
  end.

Definition run_op (self : nat) (op : lock_op) : LockWorld -> lock_out * LockWorld :=
  match op with
  | Acquire resource ttl => reply (fun g => Granted (lg_token g)) (acquire self resource ttl)
  | Release guard => reply (fun _ => Done) (release self guard)
  | Renew guard ttl => reply (fun _ => Done) (renew self guard ttl)
  | Query resource => reply Answer (is_locked resource)
  | Monitor => reply (fun _ => Done) (detect_expired self)
  end.

Definition elapse (ms : Z) (w : LockWorld) : LockWorld :=
  {| lk_redis := lk_redis w; lk_now := lk_now w + Z.max 0 ms; lk_uuids := lk_uuids w;
     lk_services := lk_services w; lk_faults := lk_faults w |}.

(** An operation at a time with what it returned. *)
Record lock_event : Type := { ev_time : Z; ev_op : lock_op; ev_out : lock_out }.

(** Each call comes some time after the previous one, from some process. *)
Fixpoint run_history (calls : list (Z * nat * lock_op)) (w : LockWorld) : list lock_event * LockWorld :=
  match calls with
  | [] => ([], w)
  | (ms, self, op) :: calls' =>
      let w1 := elapse ms w in
      let '(out, w2) := run_op self op w1 in
      let '(events, w3) := run_history calls' w2 in
      ({| ev_time := lk_now w1; ev_op := op; ev_out := out |} :: events, w3)
  end.

End locks.

(** ** The contract: a table of leases *)

(** A resource's owner and the end of its lease. *)
Abbreviation leases := (gmap string (string * Z)).

Definition owner (now : Z) (l : leases) (resource : string) : option string :=
  match l !! resource with
  | Some (token, deadline) => if now <? deadline then Some token else None
  | None => None
  end.

Inductive lease_step (now : Z) (l : leases) : lock_op -> lock_out -> leases -> Prop :=
| ls_granted resource token ttl :
    0 < ttl -> owner now l resource = None ->
    lease_step now l (Acquire resource ttl) (Granted token) (<[resource := (token, now + ttl)]> l)
| ls_held resource ttl token :
    owner now l resource = Some token ->
    lease_step now l (Acquire resource ttl) (Denied AlreadyHeld) l
| ls_released guard :
    owner now l (lg_resource guard) = Some (lg_token guard) ->
    lease_step now l (Release guard) Done (delete (lg_resource guard) l)
| ls_renewed guard ttl :
    owner now l (lg_resource guard) = Some (lg_token guard) ->
    lease_step now l (Renew guard ttl) Done (<[lg_resource guard := (lg_token guard, now + ttl)]> l)
| ls_not_released guard :
    owner now l (lg_resource guard) <> Some (lg_token guard) ->
    lease_step now l (Release guard) (Denied NotOwner) l
| ls_not_renewed guard ttl :
    owner now l (lg_resource guard) <> Some (lg_token guard) ->
    lease_step now l (Renew guard ttl) (Denied NotOwner) l
| ls_answer resource :
    lease_step now l (Query resource) (Answer (bool_decide (is_Some (owner now l resource)))) l
(** A server that does not answer is reported as no lock. *)
| ls_blind resource : lease_step now l (Query resource) (Answer false) l
| ls_monitor : lease_step now l Monitor Done l
(** No answer: the operation had its effect or none. *)
| ls_unavailable op : lease_step now l op (Denied Unavailable) l
| ls_reply_lost op out l' : lease_step now l op out l' -> lease_step now l op (Denied Unavailable) l'.

Inductive lease_run : Z -> leases -> list lock_event -> leases -> Prop :=
| lr_nil now l : lease_run now l [] l
| lr_cons now l e l1 events l2 :
    now <= ev_time e -> lease_step (ev_time e) l (ev_op e) (ev_out e) l1 ->
    lease_run (ev_time e) l1 events l2 -> lease_run now l (e :: events) l2.

(** ** Simulation *)

Section simulation.
Context {St : Type} `{RedisLaws string St}.
Variable uuid : nat -> string.
Variable visit : gmap string LockInfo -> list (string * LockInfo).
Implicit Types (w : LockWorld (St := St)) (s : St).

(** The server holds exactly the live leases, now and when nothing happens until [t]. *)
Definition represents (now : Z) s (l : leases) : Prop :=
  forall resource t, now <= t -> r_get t (KEY_PREFIX +:+ resource) s = owner t l resource.

Definition refines w (l : leases) : Prop := represents (lk_now w) (lk_redis w) l.

Lemma key_inj a b : KEY_PREFIX +:+ a = KEY_PREFIX +:+ b -> a = b.
Proof. apply (inj (fun x : string => KEY_PREFIX +:+ x)). Qed.

Lemma represents_later now now' s l : now <= now' -> represents now s l -> represents now' s l.
Proof. intros Hle R resource t Ht. apply R. lia. Qed.

Lemma represents_set now s l resource token ttl :
  0 < ttl -> represents now s l ->
  represents now (r_set_px now (KEY_PREFIX +:+ resource) token ttl s) (<[resource := (token, now + ttl)]> l).
Proof.
  intros Httl R r t Ht. unfold owner. destruct (decide (r = resource)) as [-> | Hne].
  - rewrite lookup_insert_eq. destruct (Z.ltb_spec t (now + ttl)).
    + by apply r_get_set_same.
    + by apply r_get_set_expired.
  - rewrite lookup_insert_ne by done. rewrite r_get_set_other by (by intros ?%key_inj). by apply R.
Qed.

Lemma represents_del now s l resource :
  represents now s l -> represents now (r_del (KEY_PREFIX +:+ resource) s) (delete resource l).
Proof.
  intros R r t Ht. unfold owner. destruct (decide (r = resource)) as [-> | Hne].
  - by rewrite lookup_delete_eq, r_get_del_same.
  - rewrite lookup_delete_ne by done. rewrite r_get_del_other by (by intros ?%key_inj). by apply R.
Qed.

(** A lease whose deadline has passed is no lease. *)
Lemma represents_expired now s l resource token ttl :
  ttl <= 0 -> represents now s (delete resource l) ->
  represents now s (<[resource := (token, now + ttl)]> l).
Proof.
  intros Httl R r t Ht. rewrite (R r t Ht). unfold owner. destruct (decide (r = resource)) as [-> | Hne].
  - rewrite lookup_delete_eq, lookup_insert_eq. by destruct (Z.ltb_spec t (now + ttl)); [lia |].
  - by rewrite lookup_delete_ne, lookup_insert_ne.
Qed.

(** What a command does to the world: the clock stands still, and the server is
    as it was, with no answer, or as the command leaves it. *)
Lemma redis_cmd_cases {A} (q : Z -> St -> A * St) w r w' :
  redis_cmd q w = (r, w') ->
  lk_now w' = lk_now w /\
  ((r = Err Unavailable /\ lk_redis w' = lk_redis w) \/
   (lk_redis w' = snd (q (lk_now w) (lk_redis w)) /\
    (r = Err Unavailable \/ r = Ok (fst (q (lk_now w) (lk_redis w)))))).
Proof.
  unfold redis_cmd, remote. simpl. destruct (pop_fault (lk_faults w)) as [f faults]; simpl.
  destruct f, (q (lk_now w) (lk_redis w)) as [a s]; intros [= <- <-]; simpl; eauto 6.
Qed.

Lemma on_service_run self f w r w' :
  on_service self f w = (r, w') -> r = Ok tt /\ lk_now w' = lk_now w /\ lk_redis w' = lk_redis w.
Proof. by intros [= <- <-]. Qed.

(** The operation [op] of a process simulates a step of the table. *)
Definition simulates (op : lock_op) w (out : lock_out) w' : Prop :=
  forall l, refines w l ->
  exists l', lease_step (lk_now w) l op out l' /\ represents (lk_now w) (lk_redis w') l' /\ lk_now w' = lk_now w.

Lemma refines_now s now l : represents now s l -> forall resource,
  r_get now (KEY_PREFIX +:+ resource) s = owner now l resource.
Proof. intros R resource. apply R. lia. Qed.

Lemma set_nx_px_step now s l resource token ttl r s' :
  represents now s l -> set_nx_px now (KEY_PREFIX +:+ resource) token ttl s = (r, s') ->
  exists out l', lease_step now l (Acquire resource ttl) out l' /\ represents now s' l' /\
    out = match r with Some true => Granted token | Some false => Denied AlreadyHeld
                     | None => Denied Unavailable end.
Proof.
  intros R. unfold set_nx_px. destruct (_ && _) eqn:Hv; [| intros [= <- <-]; eauto using ls_unavailable].
  zbool. unfold r_set_nx_px. rewrite (refines_now _ _ _ R).
  destruct (owner now l resource) as [o |] eqn:Ho; intros [= <- <-].
  - eexists _, l. split_and!; [by eapply ls_held | done | done].
  - eexists _, _. split_and!; [by apply ls_granted | by apply represents_set | done].
Qed.

Lemma del_if_step now s l guard r s' :
  represents now s l -> r_del_if now (KEY_PREFIX +:+ lg_resource guard) (lg_token guard) s = (r, s') ->
  exists out l', lease_step now l (Release guard) out l' /\ represents now s' l' /\
    out = if r =? 0 then Denied NotOwner else Done.
Proof.
  intros R. unfold r_del_if. rewrite (refines_now _ _ _ R). case_bool_decide as Ho; intros [= <- <-].
  - eexists _, _. split_and!; [by apply ls_released | by apply represents_del | done].
  - eexists _, l. split_and!; [by apply ls_not_released | done | done].
Qed.

Lemma pexpire_if_step now s l guard ttl r s' :
  represents now s l -> pexpire_if now (KEY_PREFIX +:+ lg_resource guard) (lg_token guard) ttl s = (r, s') ->
  exists out l', lease_step now l (Renew guard ttl) out l' /\ represents now s' l' /\
    out = match r with Some n => if n =? 0 then Denied NotOwner else Done | None => Denied Unavailable end.
Proof.
  intros R. unfold pexpire_if. rewrite (refines_now _ _ _ R). case_bool_decide as Ho.
  - destruct (negb _); [intros [= <- <-]; eauto using ls_unavailable |].
    destruct (Z.leb_spec ttl 0); intros [= <- <-];
      (eexists _, _; split_and!; [by apply ls_renewed | | done]).
    + by apply represents_expired, represents_del.
    + by apply represents_set.
  - intros [= <- <-]. eexists _, l. split_and!; [by apply ls_not_renewed | done | done].
Qed.

(** A command whose effect is a step of the table: whatever becomes of its reply,
    the call is a step. *)
Lemma command_step {A} (q : Z -> St -> A * St) op (outcome : A -> lock_out) w l r w' :
  (forall a s', q (lk_now w) (lk_redis w) = (a, s') ->
     exists out l', lease_step (lk_now w) l op out l' /\ represents (lk_now w) s' l' /\ out = outcome a) ->
  refines w l -> redis_cmd q w = (r, w') ->
  exists l', lease_step (lk_now w) l op (match r with Ok a => outcome a | Err e => Denied e end) l' /\
             represents (lk_now w) (lk_redis w') l' /\ lk_now w' = lk_now w.
Proof.
  intros Hq R Hrun. destruct (redis_cmd_cases q w r w' Hrun) as (Hnow & [[-> Hr] | [Hr Hres]]).
  - exists l. rewrite Hr. split_and!; [by apply ls_unavailable | done | done].
  - destruct (q (lk_now w) (lk_redis w)) as [a s'] eqn:E.
    destruct (Hq a s' eq_refl) as (out & l' & Hs & Hrep & ->). simpl in *. rewrite Hr.
    exists l'. split_and!; [| done | done]. destruct Hres as [-> | ->]; [by eapply ls_reply_lost | done].
Qed.

Lemma acquire_simulates self resource ttl w out w' :
  run_op uuid visit self (Acquire resource ttl) w = (out, w') -> simulates (Acquire resource ttl) w out w'.
Proof.
  intros Hrun l R. cbn [run_op] in Hrun. unfold reply, acquire, mbind, M_bind in Hrun. cbn [new_token] in Hrun.
  set (w1 := {| lk_redis := lk_redis w; lk_now := lk_now w; lk_uuids := S (lk_uuids w);
                lk_services := lk_services w; lk_faults := lk_faults w |}) in *.
  unfold new_token in Hrun. fold w1 in Hrun. set (token := uuid (lk_uuids w)) in *.
  destruct (redis_cmd _ w1) as [r w2] eqn:Hcmd.
  destruct (command_step _ (Acquire resource ttl)
              (fun o => match o with Some true => Granted token | Some false => Denied AlreadyHeld
                                | None => Denied Unavailable end) w1 l r w2
              (fun a s' => set_nx_px_step (lk_now w) (lk_redis w) l resource token ttl a s' R) R Hcmd)
    as (l' & Hs & Hrep & Hnow).
  exists l'. destruct r as [[[] |] | e]; unfold expect, lift, throw, gets, on_service, modify in Hrun; simpl in Hrun;
    injection Hrun as <- <-; done.
Qed.

Lemma release_simulates self guard w out w' :
  run_op uuid visit self (Release guard) w = (out, w') -> simulates (Release guard) w out w'.
Proof.
  intros Hrun l R. cbn [run_op] in Hrun. unfold reply, release, mbind, M_bind in Hrun.
  destruct (redis_cmd _ w) as [r w2] eqn:Hcmd.
  destruct (command_step _ (Release guard) (fun n => if n =? 0 then Denied NotOwner else Done) w l r w2
              (fun a s' => del_if_step (lk_now w) (lk_redis w) l guard a s' R) R Hcmd)
    as (l' & Hs & Hrep & Hnow).
  exists l'. revert Hrun Hs. destruct r as [n | e]; [destruct (n =? 0) |]; intros Hrun Hs; unfold throw, on_service, modify in Hrun; simpl in Hrun;
    injection Hrun as <- <-; done.
Qed.

Lemma renew_simulates self guard ttl w out w' :
  run_op uuid visit self (Renew guard ttl) w = (out, w') -> simulates (Renew guard ttl) w out w'.
Proof.
  intros Hrun l R. cbn [run_op] in Hrun. unfold reply, renew, mbind, M_bind in Hrun.
  destruct (redis_cmd _ w) as [r w2] eqn:Hcmd.
  destruct (command_step _ (Renew guard ttl)
              (fun o => match o with Some n => if n =? 0 then Denied NotOwner else Done
                                | None => Denied Unavailable end) w l r w2
              (fun a s' => pexpire_if_step (lk_now w) (lk_redis w) l guard ttl a s' R) R Hcmd)
    as (l' & Hs & Hrep & Hnow).
  exists l'. revert Hrun Hs. destruct r as [[n |] | e]; [destruct (n =? 0) eqn:Hn | |]; intros Hrun Hs;
    unfold expect, lift, throw, on_service, modify in Hrun; simpl in Hrun; rewrite ?Hn in Hrun; injection Hrun as <- <-; done.
Qed.

(** Reading changes neither the clock nor the server. *)
Definition still {A} (m : Locked A) : Prop :=
  forall w, exists a w', m w = (Ok a, w') /\ lk_now w' = lk_now w /\ lk_redis w' = lk_redis w.

Lemma is_locked_run resource w :
  exists b w', is_locked resource w = (Ok b, w') /\ lk_now w' = lk_now w /\ lk_redis w' = lk_redis w /\
    (b = false \/ b = bool_decide (is_Some (r_get (lk_now w) (KEY_PREFIX +:+ resource) (lk_redis w)))).
Proof.
  unfold is_locked, attempt, mbind, M_bind.
  destruct (redis_cmd _ w) as [r w'] eqn:Hcmd.
  destruct (redis_cmd_cases _ _ _ _ Hcmd) as (Hnow & Hcases).
  eexists _, w'. split; [done |]. split; [done |].
  destruct Hcases as [[-> Hr] | [Hr [-> | ->]]]; auto.
Qed.

Lemma still_is_locked resource : still (is_locked resource).
Proof. intros w. destruct (is_locked_run resource w) as (b & w' & ? & ? & ? & _). eauto. Qed.

Lemma still_on_service self f : still (on_service self f).
Proof. intros w. by eexists _, _. Qed.

Lemma still_bind {A B} (m : Locked A) (k : A -> Locked B) :
  still m -> (forall a, still (k a)) -> still (m ≫= k).
Proof.
  intros Hm Hk w. destruct (Hm w) as (a & w1 & Hr & Hn & Hs). destruct (Hk a w1) as (b & w2 & Hr2 & Hn2 & Hs2).
  exists b, w2. unfold mbind, M_bind. rewrite Hr. split_and!; [done | congruence | congruence].
Qed.

Lemma still_forM {A B} (l : list A) (b : B) f : (forall b x, still (f b x)) -> still (forM l b f).
Proof.
  intros Hf. revert b. induction l as [| x l IH]; intros b; [by intros w; eexists _, _ |].
  cbn [forM]. by apply still_bind.
Qed.

Lemma still_detect_expired self : still (detect_expired visit self).
Proof.
  apply (still_bind (gets _)); [by intros w; eexists _, _ |]. intros keys. apply still_forM. intros _ resource.
  apply still_bind; [apply still_is_locked |]. intros []; [by intros w; eexists _, _ | apply still_on_service].
Qed.

Lemma run_op_simulates self op w out w' : run_op uuid visit self op w = (out, w') -> simulates op w out w'.
Proof.
  destruct op as [resource ttl | guard | guard ttl | resource |].
  - apply acquire_simulates.
  - apply release_simulates.
  - apply renew_simulates.
  - cbn [run_op]. unfold reply. intros Hrun l R.
    destruct (is_locked_run resource w) as (b & w1 & Hq & Hn & Hr & Hb). rewrite Hq in Hrun.
    injection Hrun as <- <-. exists l. rewrite Hr. split_and!; [| done | done].
    destruct Hb as [-> | ->]; [apply ls_blind |].
    rewrite (refines_now _ _ _ R). apply ls_answer.
  - cbn [run_op]. unfold reply. intros Hrun l R.
    destruct (still_detect_expired self w) as ([] & w1 & Hq & Hn & Hr). rewrite Hq in Hrun.
    injection Hrun as <- <-. exists l. rewrite Hr. split_and!; [apply ls_monitor | done | done].
Qed.

Lemma history_simulates calls w l events w' :
  refines w l -> run_history uuid visit calls w = (events, w') ->
  exists l', lease_run (lk_now w) l events l' /\ refines w' l'.
Proof.
  revert w l events w'. induction calls as [| [[ms self] op] calls IH]; intros w l events w' R Hrun.
  - injection Hrun as <- <-. exists l. split; [constructor | done].
  - cbn [run_history] in Hrun. set (w1 := elapse ms w) in *.
    assert (lk_now w <= lk_now w1) as Hle by (unfold w1, elapse; simpl; lia).
    destruct (run_op uuid visit self op w1) as [out w2] eqn:Hop.
    destruct (run_history uuid visit calls w2) as [events' w3] eqn:Hrest. injection Hrun as <- <-.
    assert (refines w1 l) as R1 by (by apply (represents_later (lk_now w))).
    destruct (run_op_simulates self op w1 out w2 Hop l R1) as (l1 & Hs & Hrep & Hnow).
    rewrite <- Hnow in Hrep. destruct (IH w2 l1 events' w3 Hrep Hrest) as (l2 & Hrun2 & R2).
    rewrite Hnow in Hrun2. exists l2. split; [| done]. econstructor; [exact Hle | exact Hs | exact Hrun2].
Qed.
End simulation.

(** ** Exclusion in the table *)

(** An event that may end or move the lease of [token] on [resource]. *)
Definition may_end_lease (resource token : string) (e : lock_event) : Prop :=
  match ev_op e with
  | Release guard | Renew guard _ => lg_resource guard = resource /\ lg_token guard = token
  | _ => False
  end.

Lemma lease_step_keeps now l op out l' resource token deadline :
  lease_step now l op out l' -> now < deadline ->
  l !! resource = Some (token, deadline) ->
  ~ may_end_lease resource token {| ev_time := now; ev_op := op; ev_out := out |} ->
  l' !! resource = Some (token, deadline).
Proof.
  intros Hs Hlive Hl. assert (owner now l resource = Some token) as Ho.
  { unfold owner. rewrite Hl. by destruct (Z.ltb_spec now deadline); [| lia]. }
  unfold may_end_lease. simpl.
  induction Hs; intros Hng; try done.
  - destruct (decide (resource0 = resource)) as [-> |]; [congruence | by rewrite lookup_insert_ne].
  - destruct (decide (lg_resource guard = resource)) as [<- |]; [| by rewrite lookup_delete_ne].
    destruct Hng. split; congruence.
  - destruct (decide (lg_resource guard = resource)) as [<- |]; [| by rewrite lookup_insert_ne].
    destruct Hng. split; congruence.
  - by apply IHHs.
Qed.

Lemma lease_run_keeps now l events l' resource token deadline :
  lease_run now l events l' ->
  (forall e, e ∈ events -> ev_time e < deadline /\ ~ may_end_lease resource token e) ->
  l !! resource = Some (token, deadline) -> l' !! resource = Some (token, deadline).
Proof.
  intros Hr. induction Hr as [| now l e l1 events l2 Hle Hs Hr IH]; intros Hev Hl; [done |].
  apply IH; [intros x Hx; apply Hev; by right |].
  destruct (Hev e ltac:(left)) as [Hlt Hng]. destruct e as [t op out]. by eapply lease_step_keeps.
Qed.

Lemma lease_run_split now l ev e post l2 :
  lease_run now l (ev ++ e :: post) l2 ->
  exists l1 l1', lease_run now l ev l1 /\ lease_step (ev_time e) l1 (ev_op e) (ev_out e) l1' /\
    lease_run (ev_time e) l1' post l2 /\ now <= ev_time e /\ forall x, x ∈ ev -> ev_time x <= ev_time e.
Proof.
  revert now l. induction ev as [| a ev IH]; intros now l Hr; inversion Hr as [| ? ? ? la ? ? Hle Hs Hrest]; subst.
  - exists l, la. split_and!; [constructor | done | done | done | by intros ? ?%not_elem_of_nil].
  - destruct (IH _ _ Hrest) as (l1 & l1' & H1 & H2 & H3 & H4 & H5).
    exists l1, l1'. split_and!; [by econstructor | done | done | lia |].
    intros x [-> | Hx]%elem_of_cons; [done | by apply H5].
Qed.

Lemma lease_exclusion now l pre mid post l2 t t' resource ttl ttl' token token' :
  lease_run now l (pre ++ {| ev_time := t; ev_op := Acquire resource ttl; ev_out := Granted token |} ::
                   mid ++ {| ev_time := t'; ev_op := Acquire resource ttl'; ev_out := Granted token' |} :: post) l2 ->
  t' < t + ttl -> exists e, e ∈ mid /\ may_end_lease resource token e.
Proof.
  intros Hr Ht. destruct (lease_run_split _ _ _ _ _ _ Hr) as (l1 & la & _ & Hg & Hr2 & _).
  destruct (lease_run_split _ _ _ _ _ _ Hr2) as (lb & lc & Hmid & Hg' & _ & _ & Htimes). simpl in *.
  inversion Hg; subst. inversion Hg'; subst.
  assert (Hdec : forall e, Decision (may_end_lease resource token e))
    by (intros e; unfold may_end_lease; destruct (ev_op e); apply _).
  destruct (decide (Exists (may_end_lease resource token) mid)) as [He | Hno].
  - by apply Exists_exists in He.
  - exfalso. enough (lb !! resource = Some (token, t + ttl)) as Hl.
    { match goal with Ho : owner t' lb resource = None |- _ => unfold owner in Ho; rewrite Hl in Ho;
        destruct (Z.ltb_spec t' (t + ttl)); [done | lia] end. }
    eapply lease_run_keeps; [exact Hmid | | by rewrite lookup_insert_eq].
    intros e He. split; [apply Htimes in He; lia |]. intros Hgu. apply Hno, Exists_exists. eauto.
Qed.

(** ** The monitor during an outage *)

Section outage.
Context {St : Type} `{Redis string St}.
Variable visit : gmap string LockInfo -> list (string * LockInfo).
Variable self : nat.
Implicit Types w : LockWorld (St := St).

(** The monitor has forgotten [keys]. *)
Record forgot (keys : list string) w w' : Prop := {
  fg_registry k : registry (service self w') !! k =
    if decide (k ∈ keys) then None else registry (service self w) !! k;
  fg_expired : expired (service self w') = wrap_u64 (expired (service self w) + Z.of_nat (length keys));
  fg_redis : lk_redis w' = lk_redis w
}.

Lemma service_on_service f w w' : on_service self f w = (Ok tt, w') -> service self w' = f (service self w).
Proof. intros [= <-]. unfold service. simpl. by rewrite lookup_insert_eq. Qed.

Lemma monitor_loop_outage keys w :
  NoDup keys -> (forall k, k ∈ keys -> is_Some (registry (service self w) !! k)) ->
  0 <= expired (service self w) <= u64_max ->
  lk_faults w = repeat Refused (length keys) ->
  forgot keys w (snd (forM keys tt (fun _ resource =>
    locked ← is_locked resource;
    if negb locked then on_service self (expire_entry resource) else mret tt) w)).
Proof.
  revert w. induction keys as [| k keys IH]; intros w Hnd Hin Hexp Hf.
  { split; simpl; [done | | done]. by rewrite Z.add_0_r, wrap_u64_id. }
  apply NoDup_cons in Hnd as [Hk Hnd]. cbn [forM].
  set (w1 := {| lk_redis := lk_redis w; lk_now := lk_now w; lk_uuids := lk_uuids w;
                lk_services := lk_services w; lk_faults := repeat Refused (length keys) |}).
  assert (Hloc : is_locked k w = (Ok false, w1)).
  { unfold is_locked, attempt, redis_cmd, remote, mbind, M_bind. simpl. by rewrite Hf. }
  unfold mbind, M_bind at 1. unfold mbind, M_bind at 1. rewrite Hloc. cbn [negb].
  destruct (on_service self (expire_entry k) w1) as [r w2] eqn:Hos.
  assert (r = Ok tt) as -> by (by injection Hos). pose proof (service_on_service _ _ _ Hos) as Hserv.
  assert (lk_faults w2 = repeat Refused (length keys)) as Hf2 by (by injection Hos as <-).
  assert (lk_redis w2 = lk_redis w) as Hr2 by (by injection Hos as <-).
  assert (service self w2 = {| registry := delete k (registry (service self w));
            acquired := acquired (service self w); released := released (service self w);
            expired := wrap_u64 (expired (service self w) + 1) |}) as Hs2.
  { rewrite Hserv. unfold expire_entry. change (service self w1) with (service self w).
    destruct (Hin k ltac:(left)) as [i ->]. done. }
  destruct (IH w2) as [Hreg He Hr]; [done | | rewrite Hs2; apply wrap_u64_range | done |].
  { intros k' Hk'. rewrite Hs2. simpl. rewrite lookup_delete_ne by (by intros <-). apply Hin. by right. }
  split.
  - intros k'. etransitivity; [apply Hreg |]. rewrite Hs2. simpl. destruct (decide (k' = k)) as [-> |].
    + rewrite lookup_delete_eq. rewrite (decide_True (P := k ∈ k :: keys)) by left. by destruct (decide _).
    + rewrite lookup_delete_ne by done. apply decide_ext. rewrite elem_of_cons. naive_solver.
  - etransitivity; [apply He |]. rewrite Hs2. simpl expired. unfold wrap_u64. rewrite Zplus_mod_idemp_l. f_equal. simpl length. lia.
  - etransitivity; [apply Hr | done].
Qed.
End outage.

(** ** Theorems *)

(** C13: The lock service refines the table of leases: from a server that holds
    the leases [l], whatever operations the processes interleave, whenever they
    come and whatever Redis answers or loses, what the callers are told is a run of the table (a lock is
    granted only when the lease is free, a release and a renewal succeed for
    the owner of the lease and for nobody else), and the server holds the
    leases of the table at the end. *)
Theorem lock_refinement {St} `{RedisLaws string St} uuid visit calls (w w' : LockWorld (St := St)) l events :
  refines w l -> run_history uuid visit calls w = (events, w') ->
  exists l', lease_run (lk_now w) l events l' /\ refines w' l'.
Proof. apply history_simulates. Qed.

(** While the lease of a granted lock runs, nobody else is granted the lock,
    unless a release or a renewal was called with its token in between: so in any history
    of any processes, with any faults, from any state of the server. *)
Theorem lock_exclusion {St} `{RedisLaws string St} uuid visit calls (w w' : LockWorld (St := St)) l
    pre mid post t t' resource ttl ttl' token token' :
  refines w l ->
  run_history uuid visit calls w =
    (pre ++ {| ev_time := t; ev_op := Acquire resource ttl; ev_out := Granted token |} ::
     mid ++ {| ev_time := t'; ev_op := Acquire resource ttl'; ev_out := Granted token' |} :: post, w') ->
  t' < t + ttl -> exists e, e ∈ mid /\ may_end_lease resource token e.
Proof.
  intros R Hrun. destruct (history_simulates uuid visit calls w l _ w' R Hrun) as (l' & Hr & _).
  by eapply lease_exclusion.
Qed.

(** When Redis does not answer the monitor, every lock the process holds is
    reported as expired and forgotten, whether its lease runs or not: the registry
    is empty and the count of expired locks grew by the number of its entries. *)
Theorem monitor_outage {St} `{Redis string St} (visit : gmap string LockInfo -> list (string * LockInfo))
    self (w : LockWorld (St := St)) :
  (forall m, visit m ≡ₚ map_to_list m) ->
  let s := service self w in
  0 <= expired s <= u64_max -> lk_faults w = repeat Refused (size (registry s)) ->
  let s' := service self (snd (detect_expired visit self w)) in
  registry s' = ∅ /\ expired s' = wrap_u64 (expired s + Z.of_nat (size (registry s))) /\
  lk_redis (snd (detect_expired visit self w)) = lk_redis w.
Proof.
  intros Hvisit s Hexp Hf.
  assert (length (visit (registry s)).*1 = size (registry s)) as Hlen.
  { rewrite length_fmap, (Permutation_length (Hvisit _)). apply length_map_to_list. }
  destruct (monitor_loop_outage self (visit (registry s)).*1 w) as [Hreg He Hr].
  - rewrite (Hvisit (registry s)). apply NoDup_fst_map_to_list.
  - intros k ([k' i] & -> & Hi)%list_elem_of_fmap. rewrite Hvisit in Hi. apply elem_of_map_to_list in Hi. by exists i.
  - done.
  - by rewrite Hlen.
  - split_and!; [| by rewrite <- Hlen | done]. apply map_eq. intros k. etransitivity; [apply Hreg |].
    rewrite lookup_empty. destruct (decide _) as [| Hnot]; [done |].
    destruct (registry (service self w) !! k) as [i |] eqn:Hk; [| done]. destruct Hnot.
    apply list_elem_of_fmap. exists (k, i). split; [done |]. rewrite Hvisit. by apply elem_of_map_to_list.
Qed.

(** ** Two processes and one server, for the witnesses *)

Definition some_uuid (n : nat) : string := print_Z (Z.of_nat n).
Definition in_order (m : gmap string LockInfo) : list (string * LockInfo) := map_to_list m.

Definition fresh_world (faults : list fault) : LockWorld (St := redis_map string) :=
  {| lk_redis := ∅; lk_now := 0; lk_uuids := 0; lk_services := ∅; lk_faults := faults |}.

Lemma fresh_refines faults : refines (fresh_world faults) ∅.
Proof. intros resource t _. reflexivity. Qed.

Definition two_grants : list (Z * nat * lock_op) :=
  [(0, 0%nat, Acquire "payout" 1000);
   (10, 0%nat, Release {| lg_resource := "payout"; lg_token := "0"; lg_ttl_ms := 1000 |});
   (10, 1%nat, Acquire "payout" 1000)].

Lemma lock_refinement_witness :
  let '(events, w') := run_history some_uuid in_order two_grants (fresh_world []) in
  map ev_out events = [Granted "0"; Done; Granted "1"] /\
  exists l', lease_run 0 ∅ events l' /\ refines w' l'.
Proof.
  destruct (run_history some_uuid in_order two_grants (fresh_world [])) as [events w'] eqn:Hrun.
  split; [| exact (lock_refinement some_uuid in_order two_grants _ _ ∅ _ (fresh_refines []) Hrun)].
  change events with (fst (events, w')). rewrite <- Hrun. vm_compute. reflexivity.
Defined.

Lemma lock_exclusion_witness :
  exists e, e ∈ (run_history some_uuid in_order two_grants (fresh_world [])).1 /\ may_end_lease "payout" "0" e.
Proof.
  destruct (run_history some_uuid in_order two_grants (fresh_world [])) as [events w'] eqn:Hrun.
  set (rel := {| ev_time := 10; ev_op := Release {| lg_resource := "payout"; lg_token := "0"; lg_ttl_ms := 1000 |};
                 ev_out := Done |}).
  assert (events = [] ++ {| ev_time := 0; ev_op := Acquire "payout" 1000; ev_out := Granted "0" |} ::
            [rel] ++ {| ev_time := 20; ev_op := Acquire "payout" 1000; ev_out := Granted "1" |} :: []) as ->.
  { change events with (fst (events, w')). rewrite <- Hrun. vm_compute. reflexivity. }
  destruct (lock_exclusion some_uuid in_order two_grants _ w' ∅ [] [rel] [] 0 20 "payout" 1000 1000 "0" "1"
              (fresh_refines []) Hrun ltac:(lia)) as (e & He & Hend).
  exists e. split; [| exact Hend]. right. apply elem_of_app. by left.
Defined.

(** One lock held, then the server stops answering. *)
Definition held_world : LockWorld (St := redis_map string) :=
  let w := snd (run_op some_uuid in_order 0 (Acquire "payout" 1000) (fresh_world [])) in
  {| lk_redis := lk_redis w; lk_now := lk_now w; lk_uuids := lk_uuids w;
     lk_services := lk_services w; lk_faults := [Refused] |}.

Lemma monitor_outage_witness :
  let w' := snd (detect_expired in_order 0 held_world) in
  registry (service 0 w') = ∅ /\ expired (service 0 w') = 1 /\
  r_get 500 "lock:payout" (lk_redis w') = Some "0".
Proof.
  destruct (monitor_outage in_order 0 held_world (fun m => reflexivity (map_to_list m))) as (Hr & He & Hs).
  - vm_compute. split; discriminate.
  - vm_compute. reflexivity.
  - split_and!; [exact Hr | rewrite He; vm_compute; reflexivity | rewrite Hs; vm_compute; reflexivity].
Defined.
