(* ===== verification/Saga.v ===== *)
(** * Sagas

    src/src/saga/: step.rs (context, actions and compensations), orchestrator.rs
    (forward execution with retries, compensation in reverse order),
    tip_saga.rs (the saga that records a tip), workflow.rs and compensation.rs
    (workflows with named compensation hooks).

    An action or a compensation is a trait object: here a function on the
    application's state [A] and the saga's context, which an action may change
    even when it fails.  The tables of the orchestrator are beside it, reached
    through queries that may fail. *)

From S2P Require Import Prelude Text Errors Amount StellarService TipPipeline.

(** ** step.rs *)

Section saga.
(** The application's state, and [serde_json::Value]. *)
Context {A J : Type}.
(** The rendering of an error by [thiserror]. *)
Variable display : AppError -> string.

(** src/src/saga/step.rs:7-10 SagaContext *)
Record SagaContext : Type := {
  ctx_saga_id : string;
  ctx_data : gmap string J
}.

(** src/src/saga/step.rs:13-18 SagaContext::new *)
Definition context_new (saga_id : string) : SagaContext :=
  {| ctx_saga_id := saga_id; ctx_data := ∅ |}.

(** src/src/saga/step.rs:20-23 SagaContext::set *)
Definition set (key : string) (value : J) (ctx : SagaContext) : SagaContext :=
  {| ctx_saga_id := ctx_saga_id ctx; ctx_data := <[key := value]> (ctx_data ctx) |}.

(** src/src/saga/step.rs:25-29 SagaContext::get *)
Definition get {T} (from_value : J -> option T) (key : string) (ctx : SagaContext) : option T :=
  ctx_data ctx !! key ≫= from_value.

(** src/src/saga/step.rs:33-38 StepState *)
Inductive StepState : Type := StepPending | StepCompleted | StepCompensated | StepFailed.

(** src/src/saga/step.rs:41-48 StepState::as_str *)
Definition step_state_str (s : StepState) : string :=
  match s with
  | StepPending => "pending"
  | StepCompleted => "completed"
  | StepCompensated => "compensated"
  | StepFailed => "failed"
  end.

(** src/src/saga/step.rs:61-63 SagaAction *)
Definition SagaAction : Type := SagaContext -> A -> (AppResult unit * SagaContext) * A.

(** src/src/saga/step.rs:66-68 CompensationAction *)
Definition CompensationAction : Type := SagaContext -> A -> AppResult unit * A.

(** src/src/saga/step.rs:71-78 NoOpCompensation *)
Definition NoOpCompensation : CompensationAction := fun _ a => (Ok tt, a).

(** src/src/saga/step.rs:52-58 SagaStep *)
Record SagaStep : Type := {
  st_name : string;
  st_action : SagaAction;
  st_compensation : CompensationAction;
  st_max_retries : Z;
  st_retry_backoff_ms : Z
}.

(** ** The tables *)

(** A row of saga_step_logs. *)
Record StepLog : Type := {
  sl_saga_id : string;
  sl_step_index : Z;
  sl_step_name : string;
  sl_state : string;
  sl_error : option string
}.

(** [sg_instances] holds the state and the current step of a saga, [sg_slept]
    the delays in milliseconds. *)
Record SagaWorld : Type := {
  sg_app : A;
  sg_instances : gmap string (string * Z);
  sg_logs : list StepLog;
  sg_slept : list Z;
  sg_faults : list fault
}.

Definition with_app (a : A) (w : SagaWorld) : SagaWorld :=
  {| sg_app := a; sg_instances := sg_instances w; sg_logs := sg_logs w; sg_slept := sg_slept w;
     sg_faults := sg_faults w |}.

Definition with_saga_tables (i : gmap string (string * Z)) (l : list StepLog) (w : SagaWorld) : SagaWorld :=
  {| sg_app := sg_app w; sg_instances := i; sg_logs := l; sg_slept := sg_slept w;
     sg_faults := sg_faults w |}.

#[export] Instance saga_world_networked : Networked SagaWorld := {
  next_fault w :=
    let '(f, l) := pop_fault (sg_faults w) in
    (f, {| sg_app := sg_app w; sg_instances := sg_instances w; sg_logs := sg_logs w;
           sg_slept := sg_slept w; sg_faults := l |})
}.

Definition Saga : Type -> Type := M SagaWorld AppError.

(** A statement; a constraint it violates is an error like a lost connection. *)
Definition exec (q : SagaWorld -> result unit sqlx_error * SagaWorld) : Saga unit :=
  r ← remote (app_error_from_sqlx SqlxOther) q;
  map_err app_error_from_sqlx (lift r).

Definition sleep (ms : Z) : Saga unit := modify (fun w =>
  {| sg_app := sg_app w; sg_instances := sg_instances w; sg_logs := sg_logs w;
     sg_slept := sg_slept w ++ [ms]; sg_faults := sg_faults w |}).

(** ** orchestrator.rs *)

(** src/src/saga/orchestrator.rs:103-113 SagaOrchestrator::persist_saga *)
Definition persist_saga (saga_id saga_type : string) : Saga unit :=
  exec (fun w =>
    (Ok tt, match sg_instances w !! saga_id with
            | Some _ => w
            | None => with_saga_tables (<[saga_id := ("pending", 0)]> (sg_instances w)) (sg_logs w) w
            end)).

(** src/src/saga/orchestrator.rs:115-124 SagaOrchestrator::update_saga_step *)
Definition update_saga_step (saga_id : string) (step : nat) : Saga unit :=
  exec (fun w =>
    (Ok tt, with_saga_tables
      (alter (fun '(state, _) => (state, wrap_i32 (wrap_i32 (Z.of_nat step) + 1))) saga_id (sg_instances w))
      (sg_logs w) w)).

(** src/src/saga/orchestrator.rs:126-133 SagaOrchestrator::update_saga_state *)
Definition update_saga_state (saga_id state : string) : Saga unit :=
  exec (fun w =>
    (Ok tt, with_saga_tables (alter (fun '(_, step) => (state, step)) saga_id (sg_instances w))
              (sg_logs w) w)).

(** src/src/saga/orchestrator.rs:135-155 SagaOrchestrator::log_step: a row refers
    to its saga *)
Definition log_step (saga_id : string) (index : nat) (name : string) (state : StepState)
    (error : option string) : Saga unit :=
  exec (fun w =>
    match sg_instances w !! saga_id with
    | None => (Err (SqlxDatabase (Some "23503") (Some "saga_step_logs_saga_id_fkey")), w)
    | Some _ =>
        (Ok tt, with_saga_tables (sg_instances w)
           (sg_logs w ++ [{| sl_saga_id := saga_id; sl_step_index := wrap_i32 (Z.of_nat index);
                             sl_step_name := name; sl_state := step_state_str state;
                             sl_error := error |}]) w)
    end).

Definition run_action (s : SagaStep) (ctx : SagaContext) : Saga (AppResult unit * SagaContext) :=
  fun w => let '(rc, a) := st_action s ctx (sg_app w) in (Ok rc, with_app a w).

Definition run_compensation (s : SagaStep) (ctx : SagaContext) : Saga (AppResult unit) :=
  fun w => let '(r, a) := st_compensation s ctx (sg_app w) in (Ok r, with_app a w).

(** src/src/saga/orchestrator.rs:32-67 the attempts of a step: [left] of them
    remain; the result is [None] when one of them completed it, and the last
    error otherwise *)
Fixpoint try_step (saga_id : string) (i : nat) (step : SagaStep) (left : nat) (attempts : Z)
    (last_error : option string) (ctx : SagaContext) : Saga (option (option string) * SagaContext) :=
  match left with
  | O => mret (Some last_error, ctx)
  | S left' =>
      let attempts := attempts + 1 in
      '(r, ctx) ← run_action step ctx;
      match r with
      | Ok _ =>
          log_step saga_id i (st_name step) StepCompleted None;;
          update_saga_step saga_id i;;
          mret (None, ctx)
      | Err e =>
          (if (attempts <=? st_max_retries step) && (0 <? st_retry_backoff_ms step)
           then sleep (wrap_u64 (st_retry_backoff_ms step * attempts)) else mret tt);;
          try_step saga_id i step left' attempts (Some (display e)) ctx
      end
  end.

(** src/src/saga/orchestrator.rs:88-100 the loop of compensate, from the last
    completed step down *)
Fixpoint compensate_rev (saga_id : string) (rev_completed : list (nat * SagaStep)) (ctx : SagaContext)
    : Saga unit :=
  match rev_completed with
  | [] => mret tt
  | (i, step) :: rest =>
      r ← run_compensation step ctx;
      match r with
      | Ok _ => _ ← attempt (E' := AppError) (log_step saga_id i (st_name step) StepCompensated None); mret tt
      | Err _ => mret tt
      end;;
      compensate_rev saga_id rest ctx
  end.

(** src/src/saga/orchestrator.rs:86-101 SagaOrchestrator::compensate *)
Definition compensate (saga_id : string) (completed : list SagaStep) (ctx : SagaContext) : Saga unit :=
  compensate_rev saga_id (rev (imap pair completed)) ctx.

(** src/src/saga/orchestrator.rs:29-80 the loop over the steps, from the [i]-th *)
Fixpoint run_steps (saga_id : string) (all : list SagaStep) (i : nat) (todo : list SagaStep)
    (ctx : SagaContext) : Saga SagaContext :=
  match todo with
  | [] => mret ctx
  | step :: todo' =>
      '(outcome, ctx) ← try_step saga_id i step (S (Z.to_nat (st_max_retries step))) 0 None ctx;
      match outcome with
      | None => run_steps saga_id all (S i) todo' ctx
      | Some last_error =>
          let message := default "unknown saga step error" last_error in
          log_step saga_id i (st_name step) StepFailed (Some message);;
          update_saga_state saga_id "failed";;
          compensate saga_id (take i all) ctx;;
          update_saga_state saga_id "compensated";;
          throw (internal_with_message ("Saga step `" +:+ st_name step +:+ "` failed: " +:+ message))
      end
  end.

(** src/src/saga/orchestrator.rs:18-84 SagaOrchestrator::execute *)
Definition execute (saga_id saga_type : string) (steps : list SagaStep) : Saga SagaContext :=
  let ctx := context_new saga_id in
  persist_saga saga_id saga_type;;
  ctx ← run_steps saga_id steps 0 steps ctx;
  update_saga_state saga_id "completed";;
  mret ctx.

(** ** What a saga means for the application *)

(** The attempts of a step, without the tables. *)
Fixpoint attempts_of (step : SagaStep) (left : nat) (last_error : option string) (ctx : SagaContext) (a : A)
    : option (option string) * SagaContext * A :=
  match left with
  | O => (Some last_error, ctx, a)
  | S left' =>
      match st_action step ctx a with
      | (Ok _, ctx', a') => (None, ctx', a')
      | (Err e, ctx', a') => attempts_of step left' (Some (display e)) ctx' a'
      end
  end.

Inductive saga_outcome : Type :=
| AllCompleted (ctx : SagaContext) (a : A)
| FailedAt (i : nat) (ctx : SagaContext) (a : A).

(** Step after step, until one exhausts its attempts. *)
Fixpoint forward (i : nat) (todo : list SagaStep) (ctx : SagaContext) (a : A) : saga_outcome :=
  match todo with
  | [] => AllCompleted ctx a
  | step :: todo' =>
      match attempts_of step (S (Z.to_nat (st_max_retries step))) None ctx a with
      | (None, ctx', a') => forward (S i) todo' ctx' a'
      | (Some _, ctx', a') => FailedAt i ctx' a'
      end
  end.

(** The compensations of the steps, the last one first, each once. *)
Fixpoint undo (rev_completed : list SagaStep) (ctx : SagaContext) (a : A) : A :=
  match rev_completed with
  | [] => a
  | step :: rest => undo rest ctx (snd (st_compensation step ctx a))
  end.
End saga.
Arguments SagaContext : clear implicits.
Arguments SagaStep : clear implicits.
Arguments SagaWorld : clear implicits.

(** ** The orchestrator when its tables answer *)

Lemma imap_pair_snd {A} (l : list A) : (imap pair l).*2 = l.
Proof. rewrite fmap_imap. etransitivity; [apply (imap_const id) | apply list_fmap_id]. Qed.

Section calm.
Context {A J : Type}.
Variable display : AppError -> string.
Variable saga_id : string.
Implicit Types (w : SagaWorld A) (a : A) (ctx : SagaContext J) (step : SagaStep A J)
  (steps : list (SagaStep A J)).

(** The tables answer, the saga is in state [st] and the application in state [a]. *)
Definition at_state (st : string) a w : Prop :=
  sg_faults w = [] /\ sg_app w = a /\ exists n, sg_instances w !! saga_id = Some (st, n).

(** A saga operation that returns [b] and leads from one state to another. *)
Definition leads {B} (st : string) a (m : Saga B) (b : B) (st' : string) a' : Prop :=
  forall w, at_state st a w -> exists w', m w = (Ok b, w') /\ at_state st' a' w'.

Lemma leads_bind {B C} st a (m : Saga B) b st1 a1 (k : B -> Saga C) c st2 a2 :
  leads st a m b st1 a1 -> leads st1 a1 (k b) c st2 a2 -> leads st a (m ≫= k) c st2 a2.
Proof.
  intros Hm Hk w Hw. destruct (Hm w Hw) as (w1 & Hr & H1). destruct (Hk w1 H1) as (w2 & Hr2 & H2).
  exists w2. unfold mbind, M_bind. by rewrite Hr.
Qed.

Lemma leads_ret {B} st a (b : B) : leads st a (mret b) b st a.
Proof. intros w Hw. by exists w. Qed.

Lemma exec_calm q w : sg_faults w = [] ->
  exec q w = match q w with (Ok _, w') => (Ok tt, w') | (Err e, w') => (Err (app_error_from_sqlx e), w') end.
Proof.
  intros Hf. unfold exec, remote, mbind, M_bind. simpl. destruct w as [a i l sl f]. simpl in Hf. subst f. simpl.
  destruct (q _) as [[[] | e] w']; done.
Qed.

Lemma leads_log st a i name state error : leads st a (log_step saga_id i name state error) tt st a.
Proof.
  intros w (Hf & Ha & n & Hi). unfold log_step. rewrite exec_calm, Hi by done.
  eexists. split; [done |]. split_and!; [done | done | by exists n].
Qed.

Lemma leads_update_step st a i : leads st a (update_saga_step saga_id i) tt st a.
Proof.
  intros w (Hf & Ha & n & Hi). unfold update_saga_step. rewrite exec_calm by done.
  eexists. split; [done |]. split_and!; [done | done |]. simpl. rewrite lookup_alter_eq, Hi. by eexists.
Qed.

Lemma leads_update_state st st' a : leads st a (update_saga_state saga_id st') tt st' a.
Proof.
  intros w (Hf & Ha & n & Hi). unfold update_saga_state. rewrite exec_calm by done.
  eexists. split; [done |]. split_and!; [done | done |]. simpl. rewrite lookup_alter_eq, Hi. by eexists.
Qed.

Lemma leads_sleep st a ms : leads st a (sleep ms) tt st a.
Proof. intros w (Hf & Ha & n & Hi). eexists. split; [done |]. split_and!; [done | done | by exists n]. Qed.

Lemma leads_action st a step ctx r ctx' a' :
  st_action step ctx a = ((r, ctx'), a') -> leads st a (run_action step ctx) (r, ctx') st a'.
Proof.
  intros Hact w (Hf & Ha & n & Hi). unfold run_action. rewrite Ha, Hact.
  eexists. split; [done |]. split_and!; [done | done | by exists n].
Qed.

Lemma leads_attempt {B} st a (m : Saga B) b st' a' :
  leads st a m b st' a' -> leads st a (attempt (E' := AppError) m) (Ok b) st' a'.
Proof. intros Hm w Hw. destruct (Hm w Hw) as (w' & Hr & H'). exists w'. unfold attempt. by rewrite Hr. Qed.

Create HintDb saga.
#[local] Hint Resolve leads_ret leads_log leads_update_step leads_update_state leads_sleep leads_attempt : saga.

Lemma leads_try_step st i step left attempts last ctx a o ctx' a' :
  attempts_of display step left last ctx a = (o, ctx', a') ->
  leads st a (try_step display saga_id i step left attempts last ctx) (o, ctx') st a'.
Proof.
  revert attempts last ctx a. induction left as [| left IH]; intros attempts last ctx a; simpl.
  { intros [= <- <- <-]. apply leads_ret. }
  destruct (st_action step ctx a) as [[[[] | e] ctx1] a1] eqn:Hact.
  - intros [= <- <- <-]. eapply leads_bind; [by apply leads_action |]. cbn.
    eapply leads_bind; [apply leads_log |]. eapply leads_bind; [apply leads_update_step | apply leads_ret].
  - intros Hrest. eapply leads_bind; [by apply leads_action |]. cbn.
    eapply leads_bind; [| by apply IH]. destruct (_ && _); auto with saga.
Qed.

Lemma leads_compensate_rev st l ctx a :
  leads st a (compensate_rev saga_id l ctx) tt st (undo l.*2 ctx a).
Proof.
  revert a. induction l as [| [i step] l IH]; intros a; simpl; [apply leads_ret |].
  destruct (st_compensation step ctx a) as [r a1] eqn:Hc. simpl.
  eapply (leads_bind st a _ r st a1).
  { intros w (Hf & Ha & n & Hi). unfold run_compensation. rewrite Ha, Hc.
    eexists. split; [done |]. split_and!; [done | done | by exists n]. }
  eapply leads_bind; [| apply IH]. destruct r as [[] | e]; [| apply leads_ret].
  eapply leads_bind; [apply leads_attempt, leads_log | apply leads_ret].
Qed.

Lemma leads_compensate st steps ctx a :
  leads st a (compensate saga_id steps ctx) tt st (undo (rev steps) ctx a).
Proof.
  unfold compensate. pose proof (leads_compensate_rev st (rev (imap pair steps)) ctx a) as H.
  replace ((rev (imap pair steps)).*2) with (rev steps) in H; [done |]. symmetry.
  etransitivity; [apply map_rev |]. f_equal. apply imap_pair_snd.
Qed.

(** What the outcome of the steps means for the saga. *)
Lemma run_steps_calm all i todo ctx a w :
  at_state "pending" a w ->
  match forward display i todo ctx a with
  | AllCompleted ctx' a' => exists w', run_steps display saga_id all i todo ctx w = (Ok ctx', w') /\
                                       at_state "pending" a' w'
  | FailedAt j ctx' a' => exists w', run_steps display saga_id all i todo ctx w = (Err Internal, w') /\
                                     at_state "compensated" (undo (rev (take j all)) ctx' a') w'
  end.
Proof.
  revert i ctx a w. induction todo as [| step todo IH]; intros i ctx a w Hw; cbn [forward run_steps].
  { by exists w. }
  destruct (attempts_of display step _ None ctx a) as [[[last |] ctx'] a'] eqn:Hat.
  - destruct (leads_try_step "pending" i step _ 0 None ctx a _ _ _ Hat w Hw) as (w1 & Hr & H1).
    rewrite (bind_run _ _ _ _ _ Hr).
    match goal with |- context [log_step saga_id i (st_name step) StepFailed ?m] =>
      destruct (leads_log "pending" a' i (st_name step) StepFailed m w1 H1) as (w2 & Hr2 & H2) end.
    destruct (leads_update_state "pending" "failed" a' w2 H2) as (w3 & Hr3 & H3).
    destruct (leads_compensate "failed" (take i all) ctx' a' w3 H3) as (w4 & Hr4 & H4).
    destruct (leads_update_state "failed" "compensated" _ w4 H4) as (w5 & Hr5 & H5).
    exists w5. split; [| exact H5]. unfold mbind, M_bind. by rewrite Hr2, Hr3, Hr4, Hr5.
  - destruct (leads_try_step "pending" i step _ 0 None ctx a _ _ _ Hat w Hw) as (w1 & Hr & H1).
    rewrite (bind_run _ _ _ _ _ Hr). by apply IH.
Qed.

Lemma persist_calm saga_type w :
  sg_faults w = [] -> sg_instances w !! saga_id = None ->
  exists w', persist_saga saga_id saga_type w = (Ok tt, w') /\ at_state "pending" (sg_app w) w'.
Proof.
  intros Hf Hi. unfold persist_saga. rewrite exec_calm, Hi by done.
  eexists. split; [done |]. split_and!; [done | done |]. simpl. rewrite lookup_insert_eq. by eexists.
Qed.

Lemma execute_calm saga_type steps w :
  sg_faults w = [] -> sg_instances w !! saga_id = None ->
  match forward display 0 steps (context_new saga_id) (sg_app w) with
  | AllCompleted ctx a => exists w', execute display saga_id saga_type steps w = (Ok ctx, w') /\
                                     at_state "completed" a w'
  | FailedAt i ctx a => exists w', execute display saga_id saga_type steps w = (Err Internal, w') /\
                                   at_state "compensated" (undo (rev (take i steps)) ctx a) w'
  end.
Proof.
  intros Hf Hi. destruct (persist_calm saga_type w Hf Hi) as (w1 & Hp & H1).
  pose proof (run_steps_calm steps 0 steps (context_new saga_id) (sg_app w) w1 H1) as Hrun.
  unfold execute. destruct (forward _ _ _ _ _) as [ctx a | j ctx a]; destruct Hrun as (w2 & Hr & H2).
  - destruct (leads_update_state "pending" "completed" a w2 H2) as (w3 & Hr3 & H3).
    exists w3. split; [| done]. unfold mbind, M_bind. by rewrite Hp, Hr, Hr3.
  - exists w2. split; [| done]. unfold mbind, M_bind. by rewrite Hp, Hr.
Qed.
End calm.

(** ** Reversible steps *)

Section reversible.
Context {A J O : Type}.
Variable display : AppError -> string.
(** What the steps are meant to change together. *)
Variable obs : A -> O.
Implicit Types (ctx : SagaContext J) (a : A) (step : SagaStep A J).

(** An action that fails has changed nothing; one that succeeds is undone by its
    compensation, whatever later steps added to the context. *)
Record reversible step : Prop := {
  rv_fail ctx a e ctx' a' : st_action step ctx a = ((Err e, ctx'), a') ->
    obs a' = obs a /\ ctx_data ctx ⊆ ctx_data ctx';
  rv_grow ctx a ctx' a' : st_action step ctx a = ((Ok tt, ctx'), a') -> ctx_data ctx ⊆ ctx_data ctx';
  rv_undo ctx a ctx' a' ctx'' b : st_action step ctx a = ((Ok tt, ctx'), a') ->
    ctx_data ctx' ⊆ ctx_data ctx'' -> obs b = obs a' -> obs (snd (st_compensation step ctx'' b)) = obs a
}.

(** Whatever happens next, undoing [l] brings back what was observed in [a0]. *)
Definition undoable (a0 : A) (l : list (SagaStep A J)) ctx a : Prop :=
  forall ctx' b, ctx_data ctx ⊆ ctx_data ctx' -> obs b = obs a -> obs (undo l ctx' b) = obs a0.

Lemma attempts_undoable a0 step left last ctx a o ctx' a' l :
  reversible step -> undoable a0 l ctx a ->
  attempts_of display step left last ctx a = (o, ctx', a') ->
  match o with None => undoable a0 (step :: l) ctx' a' | Some _ => undoable a0 l ctx' a' end.
Proof.
  intros Hr. revert last ctx a. induction left as [| left IH]; intros last ctx a Hu; simpl; [by intros [= <- <- <-] |].
  destruct (st_action step ctx a) as [[[[] | e] ctx1] a1] eqn:Hact.
  - intros [= <- <- <-] ctx2 b Hc Hb. simpl. apply Hu.
    + etransitivity; [by eapply rv_grow | done].
    + by eapply rv_undo.
  - apply IH. intros ctx2 b Hc Hb. destruct (rv_fail step Hr _ _ _ _ _ Hact) as [Ho Hg].
    apply Hu; [by etransitivity | congruence].
Qed.

Lemma forward_undoable a0 pre todo ctx a i ctx' a' :
  Forall reversible todo -> undoable a0 (rev pre) ctx a ->
  forward display (length pre) todo ctx a = FailedAt i ctx' a' ->
  undoable a0 (rev (take i (pre ++ todo))) ctx' a'.
Proof.
  revert pre ctx a. induction todo as [| step todo IH]; intros pre ctx a Hall Hu; [done |]. cbn [forward].
  apply Forall_cons in Hall as [Hstep Htodo].
  destruct (attempts_of display step _ None ctx a) as [[o ctx1] a1] eqn:Hat.
  pose proof (attempts_undoable a0 step _ _ _ _ _ _ _ _ Hstep Hu Hat) as H1.
  destruct o as [last |].
  - intros [= <- <- <-]. by rewrite take_app_length.
  - intros Hf. rewrite cons_middle, app_assoc. apply (IH _ ctx1 a1); [done | by rewrite rev_unit |].
    by rewrite length_app, Nat.add_1_r.
Qed.
End reversible.

(** ** tip_saga.rs *)

Section tip_saga.
Context {V J : Type} {verifier : TipVerifier V}.
Variable uuid : nat -> string.
Variable from_row : list string -> bool.
Variable moderation_rejects : string -> bool.
Variable display : AppError -> string.
(** serde's image of a UUID. *)
Variable to_value : string -> J.
Variable from_value : J -> option string.

(** src/src/saga/tip_saga.rs:11-11 KEY_TIP_ID *)
Definition KEY_TIP_ID : string := "tip_id".

(** src/src/saga/tip_saga.rs:71-76 the payload of the event *)
Record SubmittedPayload : Type := {
  sp_tip_id : option string;
  sp_creator_username : string;
  sp_amount : string;
  sp_status : string
}.

(** The world of the tip handlers and the [tip.submitted] events handed to the
    webhooks. *)
Record TipApp : Type := {
  ta_world : World (V := V);
  ta_submitted : list SubmittedPayload
}.

(** src/src/saga/tip_saga.rs:21-40 RecordTipStep::execute *)
Definition record_tip_step (req : RecordTipRequest) : SagaAction (A := TipApp) (J := J) :=
  fun ctx app =>
    let '(r, w) := record_tip uuid from_row moderation_rejects req (ta_world app) in
    let app' := {| ta_world := w; ta_submitted := ta_submitted app |} in
    match r with
    | Ok tip => ((Ok tt, set KEY_TIP_ID (to_value (tip_id tip)) ctx), app')
    | Err e => ((Err e, ctx), app')
    end.

(** src/src/saga/tip_saga.rs:47-57 DeleteTipCompensation::compensate *)
Definition delete_tip_compensation : CompensationAction (A := TipApp) (J := J) :=
  fun ctx app =>
    match get from_value KEY_TIP_ID ctx with
    | Some tid =>
        let '(r, w) := query (fun w =>
          (tt, with_tables (List.filter (fun t => negb (String.eqb (tip_id t) tid)) (w_tips w)) (w_logs w) w))
          (ta_world app) in
        (r, {| ta_world := w; ta_submitted := ta_submitted app |})
    | None => (Ok tt, app)
    end.

(** src/src/saga/tip_saga.rs:68-81 NotifyStep::execute *)
Definition notify_step (username amount : string) : SagaAction (A := TipApp) (J := J) :=
  fun ctx app =>
    ((Ok tt, ctx),
     {| ta_world := ta_world app;
        ta_submitted := ta_submitted app ++
          [{| sp_tip_id := get from_value KEY_TIP_ID ctx; sp_creator_username := username;
              sp_amount := amount; sp_status := "pending_verification" |}] |}).

(** src/src/saga/tip_saga.rs:92-125 the steps of the tip saga *)
Definition tip_steps (req : RecordTipRequest) : list (SagaStep TipApp J) :=
  [{| st_name := "record_tip"; st_action := record_tip_step req;
      st_compensation := delete_tip_compensation; st_max_retries := 1; st_retry_backoff_ms := 200 |};
   {| st_name := "notify"; st_action := notify_step (rq_username req) (rq_amount req);
      st_compensation := NoOpCompensation; st_max_retries := 0; st_retry_backoff_ms := 0 |}].

(** src/src/saga/tip_saga.rs:88-128 run_tip_saga; [saga_id] is a fresh UUID *)
Definition run_tip_saga (saga_id : string) (req : RecordTipRequest) : Saga (SagaContext J) :=
  execute display saga_id "tip_processing" (tip_steps req).

Lemma record_undecoded req (w : World (V := V)) :
  from_row tip_columns = false -> w_faults w = [] ->
  default false (moderation_rejects <$> rq_message req) = false ->
  exists e w', record_tip uuid from_row moderation_rejects req w = (Err e, w') /\
    w_faults w' = [] /\ w_queue w' = w_queue w /\ w_creators w' = w_creators w /\
    w_tips w' = w_tips (snd (insert_tip (uuid (w_uuids w)) req w)).
Proof.
  intros Hrow Hf Hmod.
  assert (exists mods, moderate moderation_rejects (rq_message req) w =
            (Ok tt, with_outputs (w_cache w) (w_webhooks w) (w_broadcasts w) mods w)) as [mods Hm].
  { unfold moderate. destruct (rq_message req) as [msg |]; simpl in Hmod; [destruct (String.eqb _ _) |].
    - exists (w_moderated w). by destruct w.
    - unfold mbind, M_bind, modify_outputs, modify. rewrite Hmod. by eexists.
    - exists (w_moderated w). by destruct w. }
  unfold record_tip. unfold mbind at 1, M_bind at 1. rewrite Hm.
  unfold new_uuid. unfold mbind at 1, M_bind at 1. simpl w_uuids. set (w1 := with_env _ _ _ _ _).
  assert (w_faults w1 = []) as Hf1 by done.
  unfold mbind at 1, M_bind at 1. rewrite query_calm by done.
  assert (w_tips (snd (insert_tip (uuid (w_uuids w)) req w1)) =
          w_tips (snd (insert_tip (uuid (w_uuids w)) req w)) /\
          w_faults (snd (insert_tip (uuid (w_uuids w)) req w1)) = [] /\
          w_queue (snd (insert_tip (uuid (w_uuids w)) req w1)) = w_queue w /\
          w_creators (snd (insert_tip (uuid (w_uuids w)) req w1)) = w_creators w) as (Ht & Hf2 & Hq & Hc).
  { unfold insert_tip. simpl. destruct (existsb _ (w_tips w)); [done |].
    destruct (existsb _ (w_tips w)); [done |]. by destruct (w_creators w !! _). }
  destruct (insert_tip (uuid (w_uuids w)) req w1) as [[row | e] w2]; simpl in *.
  - unfold mbind at 1, M_bind at 1. unfold map_err, lift.
    unfold mbind, M_bind, decode_tip. rewrite Hrow. destruct row; eexists _, w2; (split; [done | by split_and!]).
  - eexists _, w2. split; [done | by split_and!].
Qed.

Lemma columns_lack_message :
  (forall columns, from_row columns = true -> "message" ∈ columns) -> from_row tip_columns = false.
Proof. intros H. apply not_true_is_false. intros Hin%H. unfold tip_columns in Hin. set_solver. Qed.

Lemma insert_tip_fresh tid req (w : World (V := V)) :
  is_Some (w_creators w !! rq_username req) ->
  (forall t, t ∈ w_tips w -> tip_id t <> tid /\ tip_hash t <> rq_transaction_hash req) ->
  exists t, w_tips (snd (insert_tip tid req w)) = w_tips w ++ [t] /\ tip_hash t = rq_transaction_hash req.
Proof.
  intros [wallet Hw] Hfresh. unfold insert_tip. rewrite Hw.
  rewrite (proj2 (existsb_false_iff _ (w_tips w))) by (intros t Ht; apply String.eqb_neq; by apply Hfresh).
  rewrite (proj2 (existsb_false_iff _ (w_tips w))) by (intros t Ht; apply String.eqb_neq; by apply Hfresh).
  by eexists.
Qed.

Lemma insert_tip_duplicate tid req t (w : World (V := V)) :
  t ∈ w_tips w -> tip_hash t = rq_transaction_hash req -> snd (insert_tip tid req w) = w.
Proof.
  intros Ht Hh. unfold insert_tip.
  replace (existsb _ (w_tips w)) with true; [done |]. symmetry. apply existsb_exists.
  exists t. split; [by apply list_elem_of_In | by apply String.eqb_eq].
Qed.

Lemma record_step_fails ctx req app e w' :
  record_tip uuid from_row moderation_rejects req (ta_world app) = (Err e, w') ->
  record_tip_step req ctx app = ((Err e, ctx), {| ta_world := w'; ta_submitted := ta_submitted app |}).
Proof. intros H. unfold record_tip_step. by rewrite H. Qed.

(** Both attempts fail: the first after the insertion, the second on the row it left. *)
Lemma tip_attempts_fail ctx req app :
  from_row tip_columns = false -> w_faults (ta_world app) = [] ->
  default false (moderation_rejects <$> rq_message req) = false ->
  is_Some (w_creators (ta_world app) !! rq_username req) ->
  (forall t, t ∈ w_tips (ta_world app) ->
     tip_id t <> uuid (w_uuids (ta_world app)) /\ tip_hash t <> rq_transaction_hash req) ->
  exists app', forward display 0 (tip_steps req) ctx app = FailedAt 0 ctx app' /\
    (exists t, w_tips (ta_world app') = w_tips (ta_world app) ++ [t] /\ tip_hash t = rq_transaction_hash req) /\
    w_queue (ta_world app') = w_queue (ta_world app).
Proof.
  intros Hr Hf Hmod Hc Hfresh.
  destruct (record_undecoded req (ta_world app) Hr Hf Hmod) as (e1 & w1 & Hrun1 & Hf1 & Hq1 & Hc1 & Ht1).
  destruct (record_undecoded req w1 Hr Hf1 Hmod) as (e2 & w2 & Hrun2 & Hf2 & Hq2 & Hc2 & Ht2).
  destruct (insert_tip_fresh _ req _ Hc Hfresh) as (t & Hins & Hh). rewrite Hins in Ht1.
  assert (t ∈ w_tips w1) as Hin by (rewrite Ht1; apply elem_of_app; right; left).
  rewrite (insert_tip_duplicate _ req t w1 Hin Hh) in Ht2.
  exists {| ta_world := w2; ta_submitted := ta_submitted app |}. split_and!.
  - cbn [forward tip_steps st_max_retries]. change (Z.to_nat 1) with 1%nat. cbn [attempts_of st_action].
    rewrite (record_step_fails ctx req app e1 w1 Hrun1).
    by rewrite (record_step_fails ctx req {| ta_world := w1; ta_submitted := ta_submitted app |} e2 w2 Hrun2).
  - exists t. split; [| done]. simpl. congruence.
  - simpl. congruence.
Qed.
End tip_saga.

(** ** Compensations that do not matter *)

Section unused.
Context {A J : Type}.
Variable display : AppError -> string.
Variable saga_id : string.
Implicit Types (ctx : SagaContext J) (w : SagaWorld A).

(** The step with another compensation. *)
Definition with_compensation comp (s : SagaStep A J) : SagaStep A J :=
  {| st_name := st_name s; st_action := st_action s; st_compensation := comp;
     st_max_retries := st_max_retries s; st_retry_backoff_ms := st_retry_backoff_ms s |}.

Lemma try_step_compensation comp i s left attempts last ctx w :
  try_step display saga_id i (with_compensation comp s) left attempts last ctx w =
  try_step display saga_id i s left attempts last ctx w.
Proof.
  revert attempts last ctx w. induction left as [| left IH]; intros attempts last ctx w; [done |].
  simpl. unfold mbind, M_bind. unfold run_action at 1 2. simpl.
  destruct (st_action s ctx (sg_app w)) as [[[[] | e] ctx1] a1]; [done |].
  match goal with |- (match ?m with _ => _ end) = _ => destruct m as [[[] | e'] w1] end; [apply IH | done].
Qed.

Definition with_first_compensation comp (steps : list (SagaStep A J)) : list (SagaStep A J) :=
  match steps with s :: rest => with_compensation comp s :: rest | [] => [] end.

(** A last step whose action cannot fail never asks for compensations. *)
Definition infallible (s : SagaStep A J) : Prop :=
  forall ctx a, exists ctx' a', st_action s ctx a = ((Ok tt, ctx'), a').

Lemma infallible_step all all' i s ctx w :
  infallible s -> run_steps display saga_id all i [s] ctx w = run_steps display saga_id all' i [s] ctx w.
Proof.
  intros Hs. cbn [run_steps try_step]. unfold mbind, M_bind. unfold run_action at 1 2.
  destruct (Hs ctx (sg_app w)) as (ctx' & a' & ->). cbn.
  unfold mbind, M_bind. destruct (log_step _ _ _ _ _ _) as [[[] | e] w1]; [| done].
  by destruct (update_saga_step _ _ w1) as [[[] | e] w2].
Qed.

Lemma execute_with_compensation saga_type comp s last w :
  infallible last ->
  execute display saga_id saga_type [with_compensation comp s; last] w =
  execute display saga_id saga_type [s; last] w.
Proof.
  intros Hlast. unfold execute, mbind, M_bind. destruct (persist_saga _ _ w) as [[[] | e] w1]; [| done].
  enough (run_steps display saga_id [with_compensation comp s; last] 0 [with_compensation comp s; last]
            (context_new saga_id) w1 =
          run_steps display saga_id [s; last] 0 [s; last] (context_new saga_id) w1) as -> by done.
  remember [last] as rest. cbn [run_steps].
  apply bind_ext; [apply try_step_compensation |]. intros [[e |] ctx] w2; [done |].
  subst rest. by apply infallible_step.
Qed.
End unused.

(** ** workflow.rs *)

(** src/src/saga/workflow.rs:6-13 SagaStepStatus *)
Inductive SagaStepStatus : Type :=
| WfPending | WfInProgress | WfCompleted | WfFailed | WfCompensating | WfCompensated.

#[export] Instance SagaStepStatus_eq_dec : EqDecision SagaStepStatus.
Proof. solve_decision. Defined.

(** [format!("{:?}", status)] *)
Definition status_debug (s : SagaStepStatus) : string :=
  match s with
  | WfPending => "Pending"
  | WfInProgress => "InProgress"
  | WfCompleted => "Completed"
  | WfFailed => "Failed"
  | WfCompensating => "Compensating"
  | WfCompensated => "Compensated"
  end.

(** src/src/saga/workflow.rs:16-24 SagaStep *)
Record WorkflowStep : Type := {
  wfs_id : string;
  wfs_status : SagaStepStatus;
  wfs_action : string;
  wfs_compensation : string;
  wfs_retry_count : Z;
  wfs_max_retries : Z;
  wfs_error : option string
}.

(** src/src/saga/workflow.rs:27-35 SagaWorkflow *)
Record SagaWorkflow : Type := {
  wf_id : string;
  wf_name : string;
  wf_steps : list WorkflowStep;
  wf_status : SagaStepStatus;
  wf_context : gmap string string;
  wf_created_at : Z;
  wf_updated_at : Z
}.

Definition with_steps (l : list WorkflowStep) (st : SagaStepStatus) (wf : SagaWorkflow) : SagaWorkflow :=
  {| wf_id := wf_id wf; wf_name := wf_name wf; wf_steps := l; wf_status := st;
     wf_context := wf_context wf; wf_created_at := wf_created_at wf; wf_updated_at := wf_updated_at wf |}.

Definition mark (st : SagaStepStatus) (error : option string) (s : WorkflowStep) : WorkflowStep :=
  {| wfs_id := wfs_id s; wfs_status := st; wfs_action := wfs_action s;
     wfs_compensation := wfs_compensation s; wfs_retry_count := wfs_retry_count s;
     wfs_max_retries := wfs_max_retries s; wfs_error := error |}.

(** src/src/saga/workflow.rs:38-48 SagaWorkflow::new *)
Definition workflow_new (id name : string) (now : Z) : SagaWorkflow :=
  {| wf_id := id; wf_name := name; wf_steps := []; wf_status := WfPending; wf_context := ∅;
     wf_created_at := now; wf_updated_at := now |}.

(** src/src/saga/workflow.rs:50-60 SagaWorkflow::add_step *)
Definition add_step (id action compensation : string) (max_retries : Z) (wf : SagaWorkflow) : SagaWorkflow :=
  with_steps (wf_steps wf ++
    [{| wfs_id := id; wfs_status := WfPending; wfs_action := action; wfs_compensation := compensation;
        wfs_retry_count := 0; wfs_max_retries := max_retries; wfs_error := None |}]) (wf_status wf) wf.

(** src/src/saga/workflow.rs:62-66 SagaWorkflow::get_next_pending_step *)
Definition get_next_pending_step (wf : SagaWorkflow) : option WorkflowStep :=
  List.find (fun s => bool_decide (wfs_status s = WfPending)) (wf_steps wf).

(** [iter_mut().find(..)]: the first match is changed. *)
Fixpoint update_first {A} (p : A -> bool) (f : A -> A) (l : list A) : list A :=
  match l with
  | [] => []
  | x :: l' => if p x then f x :: l' else x :: update_first p f l'
  end.

(** src/src/saga/workflow.rs:68-72 SagaWorkflow::mark_step_completed *)
Definition mark_step_completed (step_id : string) (wf : SagaWorkflow) : SagaWorkflow :=
  with_steps (update_first (fun s => String.eqb (wfs_id s) step_id)
                (fun s => mark WfCompleted (wfs_error s) s) (wf_steps wf)) (wf_status wf) wf.

(** src/src/saga/workflow.rs:74-79 SagaWorkflow::mark_step_failed *)
Definition mark_step_failed (step_id error : string) (wf : SagaWorkflow) : SagaWorkflow :=
  with_steps (update_first (fun s => String.eqb (wfs_id s) step_id)
                (mark WfFailed (Some error)) (wf_steps wf)) (wf_status wf) wf.

Definition is_completed (s : WorkflowStep) : bool := bool_decide (wfs_status s = WfCompleted).

(** src/src/saga/workflow.rs:81-85 SagaWorkflow::is_complete *)
Definition is_complete (wf : SagaWorkflow) : bool := forallb is_completed (wf_steps wf).

(** src/src/saga/workflow.rs:87-91 SagaWorkflow::has_failures *)
Definition has_failures (wf : SagaWorkflow) : bool :=
  existsb (fun s => bool_decide (wfs_status s = WfFailed)) (wf_steps wf).

(** ** compensation.rs *)

Section workflow.
Context {A J : Type}.
Variable display : AppError -> string.
Variable to_json : SagaWorkflow -> option J.
Variable from_json : J -> option SagaWorkflow.

(** The hooks of the handler, the application they act on, and the table
    saga_workflows (name, state, status). *)
Record WorkflowWorld : Type := {
  ww_hooks : gmap string (A -> AppResult unit * A);
  ww_app : A;
  ww_rows : gmap string (string * J * string);
  ww_faults : list fault
}.

#[export] Instance workflow_world_networked : Networked WorkflowWorld := {
  next_fault w :=
    let '(f, l) := pop_fault (ww_faults w) in
    (f, {| ww_hooks := ww_hooks w; ww_app := ww_app w; ww_rows := ww_rows w; ww_faults := l |})
}.

Definition Flow : Type -> Type := M WorkflowWorld AppError.

(** src/src/saga/compensation.rs:27-36 CompensationHandler::register_hook *)
Definition register_hook (name : string) (hook : A -> AppResult unit * A) (w : WorkflowWorld) : WorkflowWorld :=
  {| ww_hooks := <[name := hook]> (ww_hooks w); ww_app := ww_app w; ww_rows := ww_rows w;
     ww_faults := ww_faults w |}.

(** src/src/saga/compensation.rs:60-69 CompensationHandler::execute_compensation *)
Definition execute_compensation (compensation : string) : Flow unit := fun w =>
  match ww_hooks w !! compensation with
  | Some hook =>
      let '(r, a) := hook (ww_app w) in
      (r, {| ww_hooks := ww_hooks w; ww_app := a; ww_rows := ww_rows w; ww_faults := ww_faults w |})
  | None => remote (app_error_from_sqlx SqlxOther) (fun w => (tt, w)) w
  end.

(** src/src/saga/compensation.rs:42-54 the loop of compensate_workflow, on the
    steps from the last one down *)
Fixpoint compensate_steps (l : list WorkflowStep) (w : WorkflowWorld)
    : (AppResult unit * list WorkflowStep) * WorkflowWorld :=
  match l with
  | [] => ((Ok tt, []), w)
  | s :: l' =>
      if is_completed s then
        match execute_compensation (wfs_compensation s) w with
        | (Ok _, w1) =>
            let '((r, done), w2) := compensate_steps l' w1 in
            ((r, mark WfCompensated (wfs_error s) s :: done), w2)
        | (Err e, w1) =>
            ((Err e, mark (wfs_status s) (Some ("Compensation failed: " +:+ display e)) s :: l'), w1)
        end
      else
        let '((r, done), w1) := compensate_steps l' w in ((r, s :: done), w1)
  end.

(** src/src/saga/compensation.rs:38-58 CompensationHandler::compensate_workflow *)
Definition compensate_workflow (wf : SagaWorkflow) (w : WorkflowWorld)
    : (AppResult unit * SagaWorkflow) * WorkflowWorld :=
  let '((r, rev_steps), w') := compensate_steps (rev (wf_steps wf)) w in
  ((r, with_steps (rev rev_steps) (if is_ok r then WfCompensated else WfCompensating) wf), w').

(** src/src/saga/compensation.rs:71-89 CompensationHandler::save_workflow_state *)
Definition save_workflow_state (wf : SagaWorkflow) : Flow unit :=
  json ← expect Internal (to_json wf);
  remote (app_error_from_sqlx SqlxOther) (fun w =>
    let name := match ww_rows w !! wf_id wf with Some (name, _, _) => name | None => wf_name wf end in
    (tt, {| ww_hooks := ww_hooks w; ww_app := ww_app w;
            ww_rows := <[wf_id wf := (name, json, status_debug (wf_status wf))]> (ww_rows w);
            ww_faults := ww_faults w |})).

(** src/src/saga/compensation.rs:91-101 CompensationHandler::load_workflow_state *)
Definition load_workflow_state (workflow_id : string) : Flow SagaWorkflow :=
  row ← remote (app_error_from_sqlx SqlxOther) (fun w => (ww_rows w !! workflow_id, w));
  state ← expect (app_error_from_sqlx SqlxRowNotFound) (snd ∘ fst <$> row);
  expect Internal (from_json state).

(** The hooks in order, until one fails. *)
Fixpoint run_hooks (names : list string) : Flow unit :=
  match names with
  | [] => mret tt
  | name :: names' => execute_compensation name;; run_hooks names'
  end.

Definition compensated (s : WorkflowStep) : WorkflowStep :=
  if is_completed s then mark WfCompensated (wfs_error s) s else s.

Lemma compensate_steps_run l w :
  let '((r, l'), w') := compensate_steps l w in
  run_hooks (wfs_compensation <$> List.filter is_completed l) w = (r, w') /\
  match r with
  | Ok _ => l' = map compensated l
  | Err e => exists pre s post, l = pre ++ s :: post /\ is_completed s = true /\
      l' = map compensated pre ++ mark WfCompleted (Some ("Compensation failed: " +:+ display e)) s :: post
  end.
Proof.
  revert w. induction l as [| s l IH]; intros w; simpl; [done |].
  unfold compensated at 1. destruct (is_completed s) eqn:Hs; simpl.
  - unfold mbind, M_bind. destruct (execute_compensation (wfs_compensation s) w) as [[[] | e] w1]; simpl.
    + specialize (IH w1). destruct (compensate_steps l w1) as [[r done] w2]. destruct IH as [Hrun Hr].
      split; [exact Hrun |]. destruct r as [[] | e]; [by rewrite Hr |].
      destruct Hr as (pre & s' & post & -> & Hs' & ->).
      exists (s :: pre), s', post. split_and!; [done | done |]. simpl. unfold compensated at 2. by rewrite Hs.
    + split; [done |]. exists [], s, l. split_and!; [done | done |].
      unfold is_completed in Hs. apply bool_decide_eq_true in Hs. by rewrite Hs.
  - specialize (IH w). destruct (compensate_steps l w) as [[r done] w2]. destruct IH as [Hrun Hr].
    split; [exact Hrun |]. destruct r as [[] | e]; [by rewrite Hr |].
    destruct Hr as (pre & s' & post & -> & Hs' & ->).
    exists (s :: pre), s', post. split_and!; [done | done |]. simpl. unfold compensated at 2. by rewrite Hs.
Qed.
End workflow.

Lemma filter_compensated l : List.filter is_completed (rev (map compensated l)) = [].
Proof.
  induction l as [| s l IH]; [done |]. simpl. rewrite List.filter_app, IH. simpl.
  unfold compensated. destruct (is_completed s) eqn:Hs; [done |]. by rewrite Hs.
Qed.

(** ** Theorems *)

(** C14: With no fault of the database, and under an id that names no saga yet, a
    saga ends the way its steps do.  If each step succeeds within
    [max_retries + 1] attempts, the application is where the actions led it and
    the saga is completed; otherwise the caller gets an error, the compensations
    of all the completed steps ran, the last step's first, each once, and the
    saga is compensated.  (A fault while the log is written leaves the completed
    steps uncompensated: [saga_log_failure_strands].) *)
Theorem saga_compensates {A J} display saga_id saga_type (steps : list (SagaStep A J)) w :
  sg_faults w = [] -> sg_instances w !! saga_id = None ->
  let '(r, w') := execute display saga_id saga_type steps w in
  match forward display 0 steps (context_new saga_id) (sg_app w) with
  | AllCompleted ctx a =>
      r = Ok ctx /\ sg_app w' = a /\ exists n, sg_instances w' !! saga_id = Some ("completed", n)
  | FailedAt i ctx a =>
      r = Err Internal /\ sg_app w' = undo (rev (take i steps)) ctx a /\
      exists n, sg_instances w' !! saga_id = Some ("compensated", n)
  end.
Proof.
  intros Hf Hi. pose proof (execute_calm display saga_id saga_type steps w Hf Hi) as H.
  destruct (forward _ _ _ _ _); destruct H as (w' & -> & _ & Ha & Hs); done.
Qed.

(** All or nothing: when every action leaves no trace if it fails and is
    undone by its compensation, a saga that reports an error has changed
    nothing of what its steps are meant to change together. *)
Theorem saga_all_or_nothing {A J O} display (obs : A -> O) saga_id saga_type (steps : list (SagaStep A J)) w e w' :
  sg_faults w = [] -> sg_instances w !! saga_id = None -> Forall (reversible obs) steps ->
  execute display saga_id saga_type steps w = (Err e, w') -> obs (sg_app w') = obs (sg_app w).
Proof.
  intros Hf Hi Hall. pose proof (execute_calm display saga_id saga_type steps w Hf Hi) as H.
  destruct (forward _ _ _ _ _) as [ctx a | i ctx a] eqn:Hfw; destruct H as (w1 & -> & _ & Ha & _); [done |].
  intros [= <- <-]. rewrite Ha.
  apply (forward_undoable display obs (sg_app w) [] steps (context_new saga_id) (sg_app w) i ctx a); try done.
  by intros ctx' b _ Hb.
Qed.

(** A saga that cannot log the completion of a step returns at once: the
    step's effect stays, nothing is compensated, and the saga stays pending. *)
Theorem saga_log_failure_strands {A J} display saga_id saga_type (step : SagaStep A J) rest w ctx a :
  sg_faults w = [Fine; Refused] -> sg_instances w !! saga_id = None ->
  st_action step (context_new saga_id) (sg_app w) = ((Ok tt, ctx), a) ->
  let '(r, w') := execute display saga_id saga_type (step :: rest) w in
  is_ok r = false /\ sg_app w' = a /\ sg_logs w' = sg_logs w /\
  sg_instances w' !! saga_id = Some ("pending", 0).
Proof.
  intros Hf Hi Hact. destruct w as [app inst logs slept faults]. simpl in *. subst faults.
  unfold execute, persist_saga, exec, remote, mbind, M_bind. simpl. rewrite Hi. simpl.
  unfold mbind, M_bind, run_action. simpl. rewrite Hact. simpl.
  unfold log_step, exec, remote, mbind, M_bind. simpl.
  by split_and!; rewrite ?lookup_insert_eq.
Qed.

(** The only compensation of the tip saga, which deletes the tip, never
    runs: whatever the database does, the saga behaves the same with any other
    compensation in its place, because the step after it cannot fail.  And when
    recording inserts the tip and then fails (sqlx cannot decode the row, see
    [tip_rows_do_not_decode]), the retry meets the tip as a duplicate: the
    caller gets an error and the saga ends compensated, with the tip in the
    table and no verification job for it. *)
Theorem tip_saga_leaves_tip {V J} uuid from_row moderation_rejects display
    (to_value : string -> J) from_value saga_id req :
  let saga := run_tip_saga (V := V) uuid from_row moderation_rejects display to_value from_value saga_id req in
  (forall comp w, execute display saga_id "tip_processing" (with_first_compensation comp
      (tip_steps uuid from_row moderation_rejects to_value from_value req)) w = saga w) /\
  ((forall columns, from_row columns = true -> "message" ∈ columns) ->
   forall w, sg_faults w = [] -> sg_instances w !! saga_id = None ->
   w_faults (ta_world (sg_app w)) = [] ->
   default false (moderation_rejects <$> rq_message req) = false ->
   is_Some (w_creators (ta_world (sg_app w)) !! rq_username req) ->
   (forall t, t ∈ w_tips (ta_world (sg_app w)) ->
      tip_id t <> uuid (w_uuids (ta_world (sg_app w))) /\ tip_hash t <> rq_transaction_hash req) ->
   let '(r, w') := saga w in
   r = Err Internal /\ (exists n, sg_instances w' !! saga_id = Some ("compensated", n)) /\
   (exists t, w_tips (ta_world (sg_app w')) = w_tips (ta_world (sg_app w)) ++ [t] /\
              tip_hash t = rq_transaction_hash req) /\
   w_queue (ta_world (sg_app w')) = w_queue (ta_world (sg_app w))).
Proof.
  intros saga. split.
  - intros comp w. apply execute_with_compensation. intros ctx a. by eexists _, _.
  - intros Hrow w Hf Hi Hwf Hmod Hcreator Hfresh.
    assert (from_row tip_columns = false) as Hr by by apply columns_lack_message.
    pose proof (execute_calm display saga_id "tip_processing"
                  (tip_steps uuid from_row moderation_rejects to_value from_value req) w Hf Hi) as H.
    destruct (tip_attempts_fail uuid from_row moderation_rejects display to_value from_value
                (context_new saga_id) req (sg_app w) Hr Hwf Hmod Hcreator Hfresh) as (app & Hfw & Htips & Hq).
    rewrite Hfw in H. destruct H as (w' & Hrun & _ & Ha & Hs). unfold saga, run_tip_saga. rewrite Hrun.
    simpl in Ha. by rewrite Ha.
Qed.

(** Compensating a workflow runs the hooks of its completed steps, the last
    step's first, and stops at the first that fails.  If none fails, exactly the
    completed steps become compensated; if one does, that step and the completed ones before
    it are still completed, so that a second call runs their hooks only, and
    the workflow is left compensating. *)
Theorem workflow_compensation {A J} display (wf : SagaWorkflow) (w : WorkflowWorld (A := A) (J := J)) :
  let '((r, wf'), w') := compensate_workflow display wf w in
  run_hooks (wfs_compensation <$> List.filter is_completed (rev (wf_steps wf))) w = (r, w') /\
  match r with
  | Ok _ => wf_status wf' = WfCompensated /\ wf_steps wf' = map compensated (wf_steps wf)
  | Err e => wf_status wf' = WfCompensating /\
      exists before s after, wf_steps wf = before ++ s :: after /\ is_completed s = true /\
        wf_steps wf' = before ++ mark WfCompleted (Some ("Compensation failed: " +:+ display e)) s ::
                       map compensated after /\
        List.filter is_completed (wf_steps wf') =
          List.filter is_completed before ++
          [mark WfCompleted (Some ("Compensation failed: " +:+ display e)) s]
  end.
Proof.
  pose proof (compensate_steps_run display (rev (wf_steps wf)) w) as H. unfold compensate_workflow.
  destruct (compensate_steps display (rev (wf_steps wf)) w) as [[r l] w']. destruct H as [Hrun H].
  split; [done |]. destruct r as [[] | e]; simpl; (split; [done |]).
  - by rewrite H, map_rev, rev_involutive.
  - destruct H as (pre & s & post & Hl & Hs & ->).
    exists (rev post), s, (rev pre). rewrite rev_app_distr. simpl. rewrite <- app_assoc. simpl.
    rewrite map_rev. split_and!; [| done | done |].
    + rewrite <- (rev_involutive (wf_steps wf)), Hl, rev_app_distr. simpl. by rewrite <- app_assoc.
    + rewrite List.filter_app. simpl. f_equal. f_equal. apply filter_compensated.
Qed.

(** ** A transfer whose second half fails, for the witnesses *)

Definition shown (e : AppError) : string := "error".

Definition debit : SagaStep (Z * Z) string :=
  {| st_name := "debit";
     st_action := fun ctx '(a, b) => ((Ok tt, ctx), (a - 5, b));
     st_compensation := fun _ '(a, b) => (Ok tt, (a + 5, b));
     st_max_retries := 0; st_retry_backoff_ms := 0 |}.

Definition credit : SagaStep (Z * Z) string :=
  {| st_name := "credit";
     st_action := fun ctx ab => ((Err Internal, ctx), ab);
     st_compensation := NoOpCompensation;
     st_max_retries := 2; st_retry_backoff_ms := 100 |}.

Definition transfer_world (faults : list fault) : SagaWorld (Z * Z) :=
  {| sg_app := (20, 0); sg_instances := ∅; sg_logs := []; sg_slept := []; sg_faults := faults |}.

Lemma saga_compensates_witness :
  let '(r, w') := execute shown "s1" "transfer" [debit; credit] (transfer_world []) in
  r = Err Internal /\ sg_app w' = (20, 0) /\ sg_slept w' = [100; 200].
Proof.
  pose proof (saga_compensates shown "s1" "transfer" [debit; credit] (transfer_world []) eq_refl eq_refl) as H.
  destruct (execute shown "s1" "transfer" [debit; credit] (transfer_world [])) as [r w'] eqn:Hrun.
  destruct H as (-> & Ha & _). split; [reflexivity |]. split; [exact Ha |].
  replace w' with (snd (execute shown "s1" "transfer" [debit; credit] (transfer_world []))) by (by rewrite Hrun).
  vm_compute. reflexivity.
Defined.

Lemma saga_all_or_nothing_witness :
  sg_app (snd (execute shown "s1" "transfer" [debit; credit] (transfer_world []))) = (20, 0).
Proof.
  destruct (execute shown "s1" "transfer" [debit; credit] (transfer_world [])) as [r w'] eqn:Hrun.
  destruct r as [ctx | e].
  - exfalso. apply (f_equal (fun p => is_ok (fst p))) in Hrun. vm_compute in Hrun. discriminate.
  - refine (saga_all_or_nothing shown (fun ab : Z * Z => ab) "s1" "transfer" [debit; credit]
              (transfer_world []) e w' eq_refl eq_refl _ Hrun).
    apply Forall_cons; split; [| apply Forall_cons; split; [| apply Forall_nil; exact I]]; constructor; simpl.
    + intros ctx [a b] e' ctx' a'. discriminate.
    + intros ctx [a b] ctx' a' [= <- <-]. reflexivity.
    + intros ctx [a b] ctx' a' ctx'' [c d] [= <- <-] _ [= -> ->]. simpl. f_equal. lia.
    + intros ctx a e' ctx' a' [= _ <- <-]. split; reflexivity.
    + intros ctx a ctx' a'. discriminate.
    + intros ctx a ctx' a' ctx'' b. discriminate.
Defined.

Lemma saga_log_failure_strands_witness :
  sg_app (snd (execute shown "s1" "transfer" [debit; credit] (transfer_world [Fine; Refused]))) = (15, 0).
Proof.
  pose proof (saga_log_failure_strands shown "s1" "transfer" debit [credit] (transfer_world [Fine; Refused])
                (context_new "s1") (15, 0) eq_refl eq_refl eq_refl) as H.
  destruct (execute _ _ _ _ _) as [r w']. destruct H as (_ & H & _). exact H.
Defined.

Definition tip_saga_start : SagaWorld (TipApp (V := unit)) :=
  {| sg_app := {| ta_world := demo_start; ta_submitted := [] |}; sg_instances := ∅; sg_logs := [];
     sg_slept := []; sg_faults := [] |}.

Lemma tip_saga_leaves_tip_witness :
  let '(r, w') := run_tip_saga demo_uuid (fun columns => bool_decide ("message" ∈ columns)) (fun _ => false)
                    shown (fun x : string => x) Some "s1" (demo_req "hash-1") tip_saga_start in
  r = Err Internal /\ tip_hash <$> w_tips (ta_world (sg_app w')) = ["hash-1"].
Proof.
  destruct (tip_saga_leaves_tip (V := unit) demo_uuid (fun columns => bool_decide ("message" ∈ columns))
              (fun _ => false) shown (fun x : string => x) Some "s1" (demo_req "hash-1")) as [_ H].
  specialize (H (fun columns => proj1 (bool_decide_eq_true _)) tip_saga_start eq_refl eq_refl eq_refl eq_refl).
  destruct (run_tip_saga _ _ _ _ _ _ _ _ tip_saga_start) as [r w'].
  destruct H as (-> & _ & (t & -> & Hh) & _).
  - exists "GALICE". reflexivity.
  - intros t Ht. exfalso. by apply not_elem_of_nil in Ht.
  - split; [reflexivity |]. simpl. by rewrite Hh.
Defined.
