(* ===== verification/Replay.v ===== *)
(** * Replay protection

    src/src/security/replay_protection.rs (nonces remembered in Redis, a window
    for timestamps) and src/src/middleware/replay_protection.rs (the headers and
    the middleware), over the interface [Redis].

    An instant is a number of nanoseconds; the server's clock counts
    milliseconds.  chrono's parser and range, serde and SHA-256 are
    parameters. *)

From S2P Require Import Prelude Text Redis.

(** ** security/replay_protection.rs *)

(** src/src/security/replay_protection.rs:11-24 ReplayProtectionError *)
Inductive ReplayProtectionError : Type :=
| NonceAlreadyUsed (nonce : string)
| TimestampTooOld (t : Z)
| TimestampTooFuture (t : Z)
| InvalidNonceFormat (s : string)
| MissingNonceOrTimestamp
| RedisError (message : string).

(** src/src/security/replay_protection.rs:27-32 ReplayProtectionConfig *)
Record ReplayProtectionConfig : Type := {
  nonce_ttl_seconds : Z;
  max_timestamp_drift_seconds : Z;
  cleanup_interval_seconds : Z;
  enabled_endpoints : list string
}.

(** src/src/security/replay_protection.rs:34-47 ReplayProtectionConfig::default *)
Definition config_default : ReplayProtectionConfig :=
  {| nonce_ttl_seconds := 300; max_timestamp_drift_seconds := 60; cleanup_interval_seconds := 600;
     enabled_endpoints := ["/api/v1/tips"; "/api/v1/creators"; "/api/v1/withdrawals"] |}.

(** src/src/security/replay_protection.rs:50-55 NonceInfo *)
Record NonceInfo : Type := {
  ni_nonce : string;
  ni_used_at : Z;
  ni_client_id : option string;
  ni_endpoint : string
}.

(** src/src/security/replay_protection.rs:57-65 ReplayProtectionService *)
Record ReplayProtectionService : Type := {
  has_redis : bool;
  config : ReplayProtectionConfig
}.

(** src/src/security/replay_protection.rs:67-69 ReplayProtectionService::with_redis *)
Definition with_redis : ReplayProtectionService := {| has_redis := true; config := config_default |}.

(** src/src/security/replay_protection.rs:71-73 ReplayProtectionService::without_redis *)
Definition without_redis : ReplayProtectionService := {| has_redis := false; config := config_default |}.

Definition hex_digit (z : Z) : ascii := if z <? 10 then chr (48 + z) else chr (87 + z).

(** src/src/security/replay_protection.rs:76-81 ReplayProtectionService::generate_nonce,
    of the random bytes *)
Fixpoint generate_nonce (nonce_bytes : list Z) : string :=
  match nonce_bytes with
  | [] => EmptyString
  | b :: l => String (hex_digit (b / 16)) (String (hex_digit (b mod 16)) (generate_nonce l))
  end.

Definition nonce_key (nonce : string) : string := "nonce:" +:+ nonce.

(** src/src/security/replay_protection.rs:100-103 the format of a nonce *)
Definition valid_nonce (nonce : string) : bool :=
  (String.length nonce =? 64)%nat && all_chars is_hexdigit nonce.

Definition seconds (s : Z) : Z := s * 10 ^ 9.

(** src/src/security/replay_protection.rs:105-116 the window of the timestamps *)
Definition check_timestamp (c : ReplayProtectionConfig) (now timestamp : Z) : result unit ReplayProtectionError :=
  let min_timestamp := now - seconds (max_timestamp_drift_seconds c) in
  let max_timestamp := now + seconds (max_timestamp_drift_seconds c) in
  if timestamp <? min_timestamp then Err (TimestampTooOld timestamp)
  else if max_timestamp <? timestamp then Err (TimestampTooFuture timestamp)
  else Ok tt.

(** [TTL key] rounds the remaining time to seconds; -1 is no expiry, -2 no key. *)
Definition ttl_of {St} `{Redis string St} (now : Z) (k : string) (s : St) : Z :=
  let p := r_pttl now k s in if p <? 0 then p else (p + 500) / 1000.

Section replay.
Context {St : Type} `{Redis string St}.
(** serde, and the message of a Redis error. *)
Variable to_json : NonceInfo -> string.
Variable from_json : string -> option NonceInfo.
Variable redis_message : string.
(** [KEYS pattern] *)
Variable keys_of : Z -> string -> St -> list string.
(** SHA-256 in hexadecimal. *)
Variable sha256_hex : string -> string.

(** The server, the clock and the schedule of faults. *)
Record ReplayWorld : Type := {
  rp_redis : St;
  rp_now : Z;
  rp_faults : list fault
}.

#[export] Instance replay_world_networked : Networked ReplayWorld := {
  next_fault w :=
    let '(f, l) := pop_fault (rp_faults w) in
    (f, {| rp_redis := rp_redis w; rp_now := rp_now w; rp_faults := l |})
}.

Definition Replay : Type -> Type := M ReplayWorld ReplayProtectionError.

(** The clock of the server. *)
Definition server_now (w : ReplayWorld) : Z := rp_now w / 10 ^ 6.

Definition redis_call {A} (q : Z -> St -> A * St) : Replay A :=
  remote (RedisError redis_message) (fun w =>
    let '(a, s) := q (server_now w) (rp_redis w) in
    (a, {| rp_redis := s; rp_now := rp_now w; rp_faults := rp_faults w |})).

(** [EXISTS key] *)
Definition exists_key (key : string) : Replay bool :=
  redis_call (fun now s => (bool_decide (is_Some (r_get now key s)), s)).

(** src/src/security/replay_protection.rs:151-168 storing a nonce *)
Definition store_nonce (sv : ReplayProtectionService) (nonce : string) (client_id : option string)
    (endpoint : string) : Replay unit :=
  now ← gets rp_now;
  let info := {| ni_nonce := nonce; ni_used_at := now; ni_client_id := client_id; ni_endpoint := endpoint |} in
  r ← redis_call (fun t => setex t (nonce_key nonce) (nonce_ttl_seconds (config sv)) (to_json info));
  expect (RedisError redis_message) r.

(** src/src/security/replay_protection.rs:129-171 ReplayProtectionService::check_nonce_redis *)
Definition check_nonce_redis (sv : ReplayProtectionService) (nonce : string) (client_id : option string)
    (endpoint : string) : Replay unit :=
  used ← exists_key (nonce_key nonce);
  if (used : bool) then throw (NonceAlreadyUsed nonce)
  else store_nonce sv nonce client_id endpoint.

(** src/src/security/replay_protection.rs:84-127 ReplayProtectionService::validate_request *)
Definition validate_request (sv : ReplayProtectionService) (nonce : string) (timestamp : Z)
    (client_id : option string) (endpoint : string) : Replay unit :=
  if negb (bool_decide (endpoint ∈ enabled_endpoints (config sv))) then mret tt
  else if negb (valid_nonce nonce) then throw (InvalidNonceFormat nonce)
  else
    now ← gets rp_now;
    _ ← lift (check_timestamp (config sv) now timestamp);
    if has_redis sv then check_nonce_redis sv nonce client_id endpoint else mret tt.

(** src/src/security/replay_protection.rs:174-204 ReplayProtectionService::mark_nonce_used *)
Definition mark_nonce_used (sv : ReplayProtectionService) (nonce : string) (client_id : option string)
    (endpoint : string) : Replay unit :=
  if has_redis sv then store_nonce sv nonce client_id endpoint else mret tt.

(** src/src/security/replay_protection.rs:207-222 ReplayProtectionService::is_nonce_used *)
Definition is_nonce_used (sv : ReplayProtectionService) (nonce : string) : Replay bool :=
  if has_redis sv then exists_key (nonce_key nonce) else mret false.

(** src/src/security/replay_protection.rs:225-240 generate_request_fingerprint *)
Definition generate_request_fingerprint (method path body : string) (client_id : option string) : string :=
  sha256_hex (method +:+ path +:+ body +:+ default EmptyString client_id).

(** src/src/security/replay_protection.rs:255-271 one key of the clean-up *)
Definition cleanup_key (deleted_count : Z) (key : string) : Replay Z :=
  ttl ← redis_call (fun now s => (ttl_of now key s, s));
  if ttl =? -1 then
    redis_call (fun _ s => (tt, r_del key s));;
    mret (deleted_count + 1)
  else mret deleted_count.

(** src/src/security/replay_protection.rs:243-277 cleanup_expired_nonces *)
Definition cleanup_expired_nonces (sv : ReplayProtectionService) : Replay Z :=
  if has_redis sv then
    keys ← redis_call (fun now s => (keys_of now "nonce:*" s, s));
    forM keys 0 cleanup_key
  else mret 0.

(** src/src/security/replay_protection.rs:313-333 get_nonce_info *)
Definition get_nonce_info (sv : ReplayProtectionService) (key : string) : Replay (option NonceInfo) :=
  if has_redis sv then
    value ← redis_call (fun now s => (r_get now key s, s));
    match value with
    | Some v => info ← expect (RedisError redis_message) (from_json v); mret (Some info)
    | None => mret None
    end
  else mret None.

(** src/src/security/replay_protection.rs:280-311 get_nonce_stats: the number of
    nonces and the number per endpoint *)
Definition get_nonce_stats (sv : ReplayProtectionService) : Replay (Z * gmap string Z) :=
  if has_redis sv then
    keys ← redis_call (fun now s => (keys_of now "nonce:*" s, s));
    counts ← forM keys ∅ (fun counts key =>
      info ← attempt (E' := ReplayProtectionError) (get_nonce_info sv key);
      mret (match info with
            | Ok (Some i) => partial_alter (fun o => Some (default 0 o + 1)) (ni_endpoint i) counts
            | _ => counts
            end));
    mret (Z.of_nat (length keys), counts)
  else mret (0, ∅).

(** ** middleware/replay_protection.rs *)

(** chrono's [timestamp_opt(seconds, nanos).single()] and its parser of ISO 8601,
    and the rendering of an instant. *)
Variable timestamp_opt : Z -> Z -> option Z.
Variable parse_datetime : string -> option Z.
Variable show_datetime : Z -> string.

(** src/src/middleware/replay_protection.rs:11-15 ReplayHeaders *)
Record ReplayHeaders : Type := {
  x_nonce : option string;
  x_timestamp : option string;
  x_client_id : option string
}.

(** src/src/middleware/replay_protection.rs:18-33 ReplayHeaders::from_headers *)
Definition from_headers (headers : string -> option string) : ReplayHeaders :=
  {| x_nonce := headers "x-nonce" ≫= header_to_str;
     x_timestamp := headers "x-timestamp" ≫= header_to_str;
     x_client_id := headers "x-client-id" ≫= header_to_str |}.

(** src/src/middleware/replay_protection.rs:35-40 ReplayHeaders::validate_format *)
Definition validate_format (h : ReplayHeaders) : result unit ReplayProtectionError :=
  if bool_decide (x_nonce h = None) || bool_decide (x_timestamp h = None)
  then Err MissingNonceOrTimestamp else Ok tt.

(** src/src/middleware/replay_protection.rs:42-71 ReplayHeaders::parse_timestamp *)
Definition parse_timestamp (h : ReplayHeaders) (now : Z) : result Z ReplayProtectionError :=
  match x_timestamp h with
  | None => Err MissingNonceOrTimestamp
  | Some timestamp_str =>
      match parse_i64 timestamp_str with
      | Some secs => Ok (default now (timestamp_opt secs 0))
      | None =>
          match parse_i64 timestamp_str with
          | Some millis =>
              Ok (default now (timestamp_opt (Z.quot millis 1000) (wrap_u32 (Z.rem millis 1000 * 1000000))))
          | None =>
              ok_or (InvalidNonceFormat ("Invalid timestamp format: " +:+ timestamp_str))
                (parse_datetime timestamp_str)
          end
      end
  end.

(** A request as the middleware sees it. *)
Record ReplayRequest : Type := {
  rr_path : string;
  rr_headers : string -> option string
}.

(** src/src/middleware/replay_protection.rs:123-161 error_response: the status
    and the message of the body *)
Definition error_response (error : ReplayProtectionError) : Z * string :=
  match error with
  | NonceAlreadyUsed nonce => (409, "Nonce " +:+ nonce +:+ " has already been used")
  | TimestampTooOld t => (400, "Request timestamp " +:+ show_datetime t +:+ " is too old")
  | TimestampTooFuture t => (400, "Request timestamp " +:+ show_datetime t +:+ " is too far in the future")
  | InvalidNonceFormat nonce => (400, "Invalid nonce format: " +:+ nonce)
  | MissingNonceOrTimestamp => (400, "Missing required headers: x-nonce and x-timestamp")
  | RedisError _ => (500, "Internal server error")
  end.

(** src/src/middleware/replay_protection.rs:92-117 the checks of the middleware on
    a protected path *)
Definition check_request (sv : ReplayProtectionService) (req : ReplayRequest) : Replay unit :=
  let headers := from_headers (rr_headers req) in
  _ ← lift (validate_format headers);
  now ← gets rp_now;
  timestamp ← lift (parse_timestamp headers now);
  validate_request sv (default EmptyString (x_nonce headers)) timestamp (x_client_id headers) (rr_path req).

(** src/src/middleware/replay_protection.rs:74-121 replay_protection_middleware *)
Definition replay_protection_middleware {R} (sv : ReplayProtectionService)
    (next : ReplayRequest -> ReplayWorld -> R * ReplayWorld) (req : ReplayRequest) (w : ReplayWorld)
    : result R (Z * string) * ReplayWorld :=
  let run w := let '(r, w') := next req w in (Ok r, w') in
  if negb (bool_decide (rr_path req ∈ enabled_endpoints (config sv))) then run w
  else
    match check_request sv req w with
    | (Ok _, w') => run w'
    | (Err e, w') => (Err (error_response e), w')
    end.
End replay.

(** ** What a remembered nonce goes through *)

Section calls.
Context {St : Type} `{Redis string St}.
Variable redis_message : string.
Implicit Types (w : ReplayWorld (St := St)).

(** A call leaves the server as it was, without an answer, or as the command
    leaves it. *)
Lemma redis_call_cases {A} (q : Z -> St -> A * St) w r w' :
  redis_call redis_message q w = (r, w') ->
  rp_now w' = rp_now w /\
  ((is_ok r = false /\ rp_redis w' = rp_redis w) \/
   (rp_redis w' = snd (q (server_now w) (rp_redis w)) /\
    (is_ok r = false \/ r = Ok (fst (q (server_now w) (rp_redis w)))))).
Proof.
  unfold redis_call, remote. simpl. destruct (pop_fault (rp_faults w)) as [f l]; simpl.
  change (server_now {| rp_redis := rp_redis w; rp_now := rp_now w; rp_faults := l |}) with (server_now w).
  destruct f, (q (server_now w) (rp_redis w)) as [a s]; intros [= <- <-]; simpl; eauto 6.
Qed.

Lemma redis_call_ok {A} (q : Z -> St -> A * St) w a w' :
  redis_call redis_message q w = (Ok a, w') ->
  (a, rp_redis w') = q (server_now w) (rp_redis w) /\ rp_now w' = rp_now w.
Proof.
  intros Hq. destruct (redis_call_cases q w _ w' Hq) as (Hn & [[? _] | [Hr [? | Ha]]]); try done.
  split; [| done]. destruct (q (server_now w) (rp_redis w)). simpl in *. congruence.
Qed.
End calls.

Section remembered.
Context {St : Type} `{RedisLaws string St}.
Variable to_json : NonceInfo -> string.
Variable redis_message : string.
Variable keys_of : Z -> string -> St -> list string.
Variable sv : ReplayProtectionService.
Variable nonce : string.
(** The nonce is to be remembered until [until] at least. *)
Variable until : Z.
Implicit Types (w : ReplayWorld (St := St)) (s : St).

Lemma nonce_key_inj a b : nonce_key a = nonce_key b -> a = b.
Proof. apply (inj (fun x : string => "nonce:" +:+ x)). Qed.

(** The key is there and has an expiry, not before [until]. *)
Definition remembers (now : Z) s : Prop :=
  until <= now + nonce_ttl_seconds (config sv) * 1000 /\
  (now < until -> exists deadline, until <= deadline /\
     forall t, now <= t -> (is_Some (r_get t (nonce_key nonce) s) <-> t < deadline)).

Definition keeps {A} (m : Replay A) : Prop :=
  forall w, remembers (server_now w) (rp_redis w) ->
    rp_now (snd (m w)) = rp_now w /\ remembers (server_now w) (rp_redis (snd (m w))).

Lemma memory_ret {A} (a : A) : keeps (mret a).
Proof. by intros w. Qed.

Lemma memory_lift {A} (r : result A ReplayProtectionError) : keeps (lift r).
Proof. by intros w. Qed.

Lemma memory_gets {A} (f : ReplayWorld -> A) : keeps (gets f).
Proof. by intros w. Qed.

Lemma memory_throw {A} e : keeps (throw e : Replay A).
Proof. by intros w. Qed.

Lemma memory_bind {A B} (m : Replay A) (k : A -> Replay B) : keeps m -> (forall a, keeps (k a)) -> keeps (m ≫= k).
Proof.
  intros Hm Hk w Hw. destruct (Hm w Hw) as [Hn H1]. unfold mbind, M_bind.
  destruct (m w) as [[a | e] w1]; simpl in *; [| done].
  assert (server_now w1 = server_now w) as Hs by (unfold server_now; by rewrite Hn).
  rewrite <- Hs in H1. destruct (Hk a w1 H1) as [Hn2 H2]. rewrite Hs in H2. split; [congruence | done].
Qed.

Lemma memory_redis {A} (q : Z -> St -> A * St) :
  (forall now s, remembers now s -> remembers now (snd (q now s))) -> keeps (redis_call redis_message q).
Proof.
  intros Hq w Hw. specialize (Hq (server_now w) (rp_redis w) Hw). unfold redis_call, remote. simpl.
  destruct (pop_fault (rp_faults w)) as [[] l]; simpl;
    change (server_now {| rp_redis := rp_redis w; rp_now := rp_now w; rp_faults := l |}) with (server_now w);
    try (destruct (q (server_now w) (rp_redis w)) as [a s']); done.
Qed.

Lemma remembers_setex now nonce' v s :
  remembers now s -> remembers now (snd (setex now (nonce_key nonce') (nonce_ttl_seconds (config sv)) v s)).
Proof.
  intros [Hu Hr]. unfold setex. destruct (_ && _) eqn:Hv; [| done]. zbool. split; [done |]. intros Hlt.
  destruct (decide (nonce' = nonce)) as [-> | Hne]; simpl.
  - exists (now + nonce_ttl_seconds (config sv) * 1000). split; [done |]. intros t Ht.
    destruct (decide (t < now + nonce_ttl_seconds (config sv) * 1000)).
    + by rewrite r_get_set_same.
    + rewrite r_get_set_expired by lia. split; [by intros [? ?] | done].
  - destruct (Hr Hlt) as (deadline & Hle & Hget). exists deadline. split; [done |]. intros t Ht.
    rewrite r_get_set_other by (by intros ?%nonce_key_inj). by apply Hget.
Qed.

(** A key without expiry is not the key of the nonce. *)
Lemma remembers_del now key s :
  ttl_of now key s = -1 -> remembers now s -> remembers now (r_del key s).
Proof.
  intros Httl [Hu Hr]. split; [done |]. intros Hlt. destruct (Hr Hlt) as (deadline & Hle & Hget).
  destruct (decide (key = nonce_key nonce)) as [-> | Hne].
  - exfalso. destruct (proj2 (Hget now ltac:(lia)) ltac:(lia)) as [v Hv].
    assert (r_pttl now (nonce_key nonce) s = -1) as Hp.
    { unfold ttl_of in Httl. destruct (Z.ltb_spec (r_pttl now (nonce_key nonce) s) 0); [done |].
      pose proof (Z.div_pos (r_pttl now (nonce_key nonce) s + 500) 1000). lia. }
    pose proof (r_pttl_spec now deadline _ v s Hv ltac:(lia)) as Hspec. rewrite Hp in Hspec. simpl in Hspec.
    assert (is_Some (r_get deadline (nonce_key nonce) s)) as Hs by by eexists.
    apply Hget in Hs; lia.
  - exists deadline. split; [done |]. intros t Ht. rewrite r_get_del_other by done. by apply Hget.
Qed.

Lemma memory_store nonce' client_id endpoint :
  keeps (store_nonce to_json redis_message sv nonce' client_id endpoint).
Proof.
  apply memory_bind; [apply memory_gets |]. intros now. apply memory_bind; [| intros; apply memory_lift].
  apply memory_redis. intros t s. apply remembers_setex.
Qed.

Lemma memory_exists key : keeps (exists_key redis_message key).
Proof. by apply memory_redis. Qed.

Lemma memory_validate nonce' timestamp client_id endpoint :
  keeps (validate_request to_json redis_message sv nonce' timestamp client_id endpoint).
Proof.
  unfold validate_request. destruct (negb _); [apply memory_ret |]. destruct (negb _); [apply memory_throw |].
  apply memory_bind; [apply memory_gets |]. intros now. apply memory_bind; [apply memory_lift |]. intros _.
  destruct (has_redis sv); [| apply memory_ret].
  apply memory_bind; [apply memory_exists |]. intros []; [apply memory_throw | apply memory_store].
Qed.

Lemma memory_mark nonce' client_id endpoint :
  keeps (mark_nonce_used to_json redis_message sv nonce' client_id endpoint).
Proof. unfold mark_nonce_used. destruct (has_redis sv); [apply memory_store | apply memory_ret]. Qed.

(** The clean-up reads the expiry and deletes in two calls at the same instant. *)
Lemma memory_cleanup_key n key : keeps (cleanup_key redis_message n key).
Proof.
  intros w Hw. unfold cleanup_key. bind_step.
  destruct (redis_call redis_message (fun now s => (ttl_of now key s, s)) w) as [r w1] eqn:Hread.
  destruct (redis_call_cases _ _ _ _ _ Hread) as (Hn & Hc). simpl in Hc.
  assert (rp_redis w1 = rp_redis w) as Hs by (destruct Hc as [[_ ?] | [? _]]; done).
  assert (server_now w1 = server_now w) as Hnow by (unfold server_now; by rewrite Hn).
  destruct r as [ttl | e]; [| split; [exact Hn | simpl; by rewrite Hs]].
  assert (ttl = ttl_of (server_now w) key (rp_redis w)) as ->.
  { destruct Hc as [[? _] | [_ [? | [= ->]]]]; done. }
  destruct (Z.eqb_spec (ttl_of (server_now w) key (rp_redis w)) (-1)) as [Ht |]; [| split; [exact Hn | simpl; by rewrite Hs]].
  bind_step. destruct (redis_call redis_message (fun _ s => (tt, r_del key s)) w1) as [r w2] eqn:Hdel.
  destruct (redis_call_cases _ _ _ _ _ Hdel) as (Hn2 & Hc2). simpl in Hc2.
  assert (rp_now w2 = rp_now w /\ remembers (server_now w) (rp_redis w2)) as Hgoal.
  { split; [congruence |]. destruct Hc2 as [[_ ->] | [-> _]]; rewrite Hs; [done | by apply remembers_del]. }
  by destruct r.
Qed.

Lemma memory_forM {A B} (l : list A) (b : B) f : (forall b x, keeps (f b x)) -> keeps (forM l b f).
Proof.
  intros Hf. revert b. induction l as [| x l IH]; intros b; [apply memory_ret |]. cbn [forM]. by apply memory_bind.
Qed.

Lemma memory_cleanup : keeps (cleanup_expired_nonces redis_message keys_of sv).
Proof.
  unfold cleanup_expired_nonces. destruct (has_redis sv); [| apply memory_ret].
  apply memory_bind; [by apply memory_redis |]. intros keys. apply memory_forM, memory_cleanup_key.
Qed.

(** What other requests and tasks do while time passes. *)
Inductive other_step : ReplayWorld (St := St) -> ReplayWorld (St := St) -> Prop :=
| os_validate nonce' timestamp client_id endpoint w :
    other_step w (snd (validate_request to_json redis_message sv nonce' timestamp client_id endpoint w))
| os_mark nonce' client_id endpoint w :
    other_step w (snd (mark_nonce_used to_json redis_message sv nonce' client_id endpoint w))
| os_cleanup w : other_step w (snd (cleanup_expired_nonces redis_message keys_of sv w))
| os_pass nanos faults w :
    0 <= nanos ->
    other_step w {| rp_redis := rp_redis w; rp_now := rp_now w + nanos; rp_faults := faults |}.

Lemma other_steps_remember w w' :
  rtc other_step w w' -> remembers (server_now w) (rp_redis w) ->
  rp_now w <= rp_now w' /\ remembers (server_now w') (rp_redis w').
Proof.
  induction 1 as [w | w w1 w2 Hs _ IH]; intros Hw; [done |].
  assert (rp_now w <= rp_now w1 /\ remembers (server_now w1) (rp_redis w1)) as [Hle H1].
  { assert (forall A (m : Replay A), keeps m ->
      rp_now w <= rp_now (snd (m w)) /\ remembers (server_now (snd (m w))) (rp_redis (snd (m w)))) as Hk.
    { intros A m Hm. destruct (Hm w Hw) as [Hn Hr]. unfold server_now. rewrite Hn. split; [lia | exact Hr]. }
    destruct Hs as [| | | nanos faults w Hn];
      [apply Hk, memory_validate | apply Hk, memory_mark | apply Hk, memory_cleanup |].
    simpl. split; [lia |]. destruct Hw as [Hu Hr]. unfold server_now in *. simpl.
    assert (rp_now w / 10 ^ 6 <= (rp_now w + nanos) / 10 ^ 6) by (apply Z.div_le_mono; lia).
    split; [lia |]. intros Hlt. destruct (Hr ltac:(lia)) as (deadline & Hd & Hg).
    exists deadline. split; [done |]. intros t Ht. apply Hg. lia. }
  destruct (IH H1). split; [lia | done].
Qed.
End remembered.

(** ** Theorems *)

Section replayed.
Context {St : Type} `{RedisLaws string St}.
Variable to_json : NonceInfo -> string.
Variable redis_message : string.
Variable sv : ReplayProtectionService.
Implicit Types (w : ReplayWorld (St := St)).

Lemma validated_cases nonce timestamp client_id endpoint w w' :
  endpoint ∈ enabled_endpoints (config sv) ->
  validate_request to_json redis_message sv nonce timestamp client_id endpoint w = (Ok tt, w') ->
  valid_nonce nonce = true /\ check_timestamp (config sv) (rp_now w) timestamp = Ok tt /\
  (has_redis sv = true -> check_nonce_redis to_json redis_message sv nonce client_id endpoint w = (Ok tt, w')).
Proof.
  intros He. unfold validate_request. rewrite bool_decide_eq_true_2 by done. simpl.
  destruct (valid_nonce nonce); [| done]. simpl. unfold mbind, M_bind, gets, lift.
  destruct (check_timestamp (config sv) (rp_now w) timestamp) as [[] | e]; [| done].
  intros Hrun. split_and!; [done | done |]. intros Hredis. by rewrite Hredis in Hrun.
Qed.

(** An accepted nonce is remembered for its time to live. *)
Lemma check_nonce_remembers nonce client_id endpoint w w' :
  check_nonce_redis to_json redis_message sv nonce client_id endpoint w = (Ok tt, w') ->
  rp_now w' = rp_now w /\
  remembers sv nonce (server_now w + nonce_ttl_seconds (config sv) * 1000) (server_now w') (rp_redis w').
Proof.
  unfold check_nonce_redis. unfold mbind at 1, M_bind at 1.
  destruct (exists_key redis_message (nonce_key nonce) w) as [[used | e] w1] eqn:Hex; [| done].
  unfold exists_key in Hex. destruct (redis_call_ok _ _ _ _ _ Hex) as [_ Hn1]. destruct used; [done |].
  unfold store_nonce, gets. unfold mbind at 1, M_bind at 1. unfold mbind at 1, M_bind at 1.
  destruct (redis_call redis_message _ w1) as [[r | e] w2] eqn:Hset; [| done].
  destruct (redis_call_ok _ _ _ _ _ Hset) as [Hq Hn2]. destruct r as [[] |]; [| done]. intros [= <-].
  unfold setex in Hq. destruct (_ && _) eqn:Hv in Hq; [| done]. zbool. injection Hq as Hr.
  assert (server_now w1 = server_now w) as Hw1 by (unfold server_now; congruence).
  assert (server_now w2 = server_now w) as Hw2 by (unfold server_now; congruence).
  split; [congruence |]. rewrite Hw2, Hr, Hw1. split; [done |]. intros _.
  exists (server_now w + nonce_ttl_seconds (config sv) * 1000). split; [done |]. intros t Ht.
  destruct (decide (t < server_now w + nonce_ttl_seconds (config sv) * 1000)).
  - by rewrite r_get_set_same.
  - rewrite r_get_set_expired by lia. split; [by intros [? ?] | done].
Qed.

(** While it is remembered, it is refused. *)
Lemma remembered_refused nonce until client_id endpoint w :
  remembers sv nonce until (server_now w) (rp_redis w) -> server_now w < until ->
  is_ok (fst (check_nonce_redis to_json redis_message sv nonce client_id endpoint w)) = false.
Proof.
  intros [_ Hr] Hlt. destruct (Hr Hlt) as (deadline & Hle & Hget).
  assert (is_Some (r_get (server_now w) (nonce_key nonce) (rp_redis w))) as Hsome by (apply Hget; lia).
  unfold check_nonce_redis, mbind, M_bind.
  destruct (exists_key redis_message (nonce_key nonce) w) as [[used | e] w1] eqn:Hex; [| done].
  unfold exists_key in Hex. destruct (redis_call_ok _ _ _ _ _ Hex) as [Hq _]. injection Hq as -> _. by rewrite bool_decide_eq_true_2.
Qed.

Lemma check_timestamp_ok c now t :
  check_timestamp c now t = Ok tt ->
  now - seconds (max_timestamp_drift_seconds c) <= t <= now + seconds (max_timestamp_drift_seconds c).
Proof. unfold check_timestamp. zcase; intros; (split; lia) || done. Qed.
End replayed.

(** C15: Through Redis, on an endpoint the guard is enabled for, and with nonces
    that live longer than twice the drift allowed (300 s and 60 s by default), a
    request that was accepted is not accepted again when requests are checked
    one after another: whatever other requests, clean-ups and Redis faults came
    in between and however long after.  While its timestamp is within the
    window its nonce is remembered.  A request is its nonce and its timestamp as
    parsed: a header that is an integer outside the range of chrono parses to
    the present, each time anew ([unrepresentable_timestamp_replays]), and two
    checks of one request that overlap may both accept it
    ([concurrent_replay_accepted]). *)
Theorem replayed_request_refused {St} `{RedisLaws string St} to_json redis_message keys_of sv nonce timestamp
    client_id client_id' endpoint (w w1 w2 : ReplayWorld (St := St)) :
  has_redis sv = true -> endpoint ∈ enabled_endpoints (config sv) ->
  2 * max_timestamp_drift_seconds (config sv) < nonce_ttl_seconds (config sv) ->
  validate_request to_json redis_message sv nonce timestamp client_id endpoint w = (Ok tt, w1) ->
  rtc (other_step to_json redis_message keys_of sv) w1 w2 ->
  is_ok (fst (validate_request to_json redis_message sv nonce timestamp client_id' endpoint w2)) = false.
Proof.
  intros Hredis He Httl Hfirst Hsteps.
  destruct (validated_cases _ _ _ _ _ _ _ _ _ He Hfirst) as (_ & Ht1 & Hcheck).
  destruct (check_nonce_remembers _ _ _ _ _ _ _ _ (Hcheck Hredis)) as [Hn1 Hrem].
  destruct (other_steps_remember _ _ _ _ _ _ _ _ Hsteps Hrem) as [Hle Hrem2].
  destruct (validate_request _ _ _ _ _ _ _ w2) as [[[] | e] w3] eqn:Hagain; [| done].
  destruct (validated_cases _ _ _ _ _ _ _ _ _ He Hagain) as (_ & Ht2 & Hcheck2). exfalso.
  apply check_timestamp_ok in Ht1, Ht2. unfold seconds in *.
  assert (server_now w2 < server_now w + nonce_ttl_seconds (config sv) * 1000) as Hlt.
  { unfold server_now in *.
    assert (rp_now w2 <= rp_now w + 2000 * max_timestamp_drift_seconds (config sv) * 10 ^ 6) as Hbound by lia.
    apply (Z.div_le_mono _ _ (10 ^ 6) ltac:(lia)) in Hbound. rewrite Z.div_add in Hbound by lia. lia. }
  pose proof (remembered_refused to_json redis_message sv nonce _ client_id' endpoint w2 Hrem2 Hlt) as Hf.
  by rewrite (Hcheck2 Hredis) in Hf.
Qed.

Section accepted.
Context {St : Type} `{RedisLaws string St}.
Variable to_json : NonceInfo -> string.
Variable redis_message : string.
Variable sv : ReplayProtectionService.
Implicit Types (w : ReplayWorld (St := St)).

Lemma redis_call_calm {A} (q : Z -> St -> A * St) w :
  rp_faults w = [] ->
  redis_call redis_message q w =
    (Ok (fst (q (server_now w) (rp_redis w))),
     {| rp_redis := snd (q (server_now w) (rp_redis w)); rp_now := rp_now w; rp_faults := [] |}).
Proof.
  intros Hf. unfold redis_call, remote. simpl. rewrite Hf. simpl.
  change (server_now {| rp_redis := rp_redis w; rp_now := rp_now w; rp_faults := [] |}) with (server_now w).
  by destruct (q (server_now w) (rp_redis w)).
Qed.

(** A time to live the server takes. *)
Definition good_ttl w : Prop :=
  0 < nonce_ttl_seconds (config sv) /\ server_now w + nonce_ttl_seconds (config sv) * 1000 <= i64_max.

Lemma exists_calm key w : rp_faults w = [] ->
  exists_key redis_message key w = (Ok (bool_decide (is_Some (r_get (server_now w) key (rp_redis w)))), w).
Proof. intros Hf. unfold exists_key. rewrite redis_call_calm by done. destruct w. simpl in *. by subst. Qed.

Lemma store_calm nonce client_id endpoint w :
  rp_faults w = [] -> good_ttl w ->
  exists w', store_nonce to_json redis_message sv nonce client_id endpoint w = (Ok tt, w') /\
    rp_now w' = rp_now w /\ rp_faults w' = [] /\
    forall t, server_now w + nonce_ttl_seconds (config sv) * 1000 <= t ->
      r_get t (nonce_key nonce) (rp_redis w') = None.
Proof.
  intros Hf [H0' H1']. unfold store_nonce, gets. bind_step. cbn beta iota.
  bind_step. rewrite redis_call_calm by done. unfold setex.
  destruct (_ && _) eqn:Hv; [| apply andb_false_iff in Hv as [?%Z.ltb_ge | ?%Z.leb_gt]; lia].
  eexists. split; [done |]. split_and!; [done | done |]. intros t Ht. simpl. apply r_get_set_expired; lia.
Qed.

Lemma check_nonce_calm nonce client_id endpoint w :
  rp_faults w = [] -> good_ttl w -> r_get (server_now w) (nonce_key nonce) (rp_redis w) = None ->
  exists w', check_nonce_redis to_json redis_message sv nonce client_id endpoint w = (Ok tt, w') /\
    rp_now w' = rp_now w /\ rp_faults w' = [] /\
    forall t, server_now w + nonce_ttl_seconds (config sv) * 1000 <= t ->
      r_get t (nonce_key nonce) (rp_redis w') = None.
Proof.
  intros Hf Ht Hnone. unfold check_nonce_redis. bind_step. rewrite exists_calm, Hnone by done.
  by apply store_calm.
Qed.

(** Asking whether a nonce is used and storing it are two calls: two requests
    that both ask before either stores are both accepted. *)
Lemma concurrent_replay_accepted nonce client_id client_id' endpoint w :
  rp_faults w = [] -> good_ttl w -> r_get (server_now w) (nonce_key nonce) (rp_redis w) = None ->
  let '(used1, w1) := exists_key redis_message (nonce_key nonce) w in
  let '(used2, w2) := exists_key redis_message (nonce_key nonce) w1 in
  let '(stored1, w3) := store_nonce to_json redis_message sv nonce client_id endpoint w2 in
  let '(stored2, w4) := store_nonce to_json redis_message sv nonce client_id' endpoint w3 in
  used1 = Ok false /\ used2 = Ok false /\ stored1 = Ok tt /\ stored2 = Ok tt.
Proof.
  intros Hf Ht Hnone. rewrite exists_calm, Hnone by done. rewrite exists_calm, Hnone by done.
  destruct (store_calm nonce client_id endpoint w Hf Ht) as (w3 & -> & Hn & Hf3 & _).
  destruct (store_calm nonce client_id' endpoint w3 Hf3) as (w4 & -> & _); [| done].
  unfold good_ttl, server_now in *. by rewrite Hn.
Qed.

(** A timestamp that is an integer outside chrono's range counts as now. *)
Lemma check_request_unrepresentable timestamp_opt parse_datetime req nonce s n w :
  rp_faults w = [] -> good_ttl w -> has_redis sv = true -> 0 <= max_timestamp_drift_seconds (config sv) ->
  rr_path req ∈ enabled_endpoints (config sv) ->
  x_nonce (from_headers (rr_headers req)) = Some nonce -> valid_nonce nonce = true ->
  x_timestamp (from_headers (rr_headers req)) = Some s -> parse_i64 s = Some n -> timestamp_opt n 0 = None ->
  r_get (server_now w) (nonce_key nonce) (rp_redis w) = None ->
  exists w', check_request to_json redis_message timestamp_opt parse_datetime sv req w = (Ok tt, w') /\
    rp_now w' = rp_now w /\ rp_faults w' = [] /\
    forall t, server_now w + nonce_ttl_seconds (config sv) * 1000 <= t ->
      r_get t (nonce_key nonce) (rp_redis w') = None.
Proof.
  intros Hf Ht Hr Hd Hp Hx Hv Hs Hn Hout Hnone. unfold check_request, lift, gets.
  bind_step. unfold validate_format. rewrite Hx, Hs. cbn beta iota. simpl.
  bind_step. cbn beta iota. bind_step. unfold parse_timestamp. rewrite Hs, Hn, Hout.
  unfold validate_request. rewrite bool_decide_eq_true_2 by done. simpl. rewrite Hv. simpl.
  bind_step. unfold gets. bind_step. unfold lift, check_timestamp, seconds.
  destruct (Z.ltb_spec (rp_now w) (rp_now w - max_timestamp_drift_seconds (config sv) * 10 ^ 9)); [lia |].
  destruct (Z.ltb_spec (rp_now w + max_timestamp_drift_seconds (config sv) * 10 ^ 9) (rp_now w)); [lia |].
  rewrite Hr. by apply check_nonce_calm.
Qed.
End accepted.

(** A request whose timestamp is an integer outside the range of chrono
    is taken to be of the present, so the window never closes on it: accepted
    once, it is accepted again as soon as its nonce has expired. *)
Theorem unrepresentable_timestamp_replays {St} `{RedisLaws string St} to_json redis_message sv
    timestamp_opt parse_datetime req nonce s n (w : ReplayWorld (St := St)) nanos :
  rp_faults w = [] -> has_redis sv = true -> 0 <= max_timestamp_drift_seconds (config sv) ->
  rr_path req ∈ enabled_endpoints (config sv) ->
  x_nonce (from_headers (rr_headers req)) = Some nonce -> valid_nonce nonce = true ->
  x_timestamp (from_headers (rr_headers req)) = Some s -> parse_i64 s = Some n -> timestamp_opt n 0 = None ->
  r_get (server_now w) (nonce_key nonce) (rp_redis w) = None ->
  0 < nonce_ttl_seconds (config sv) -> nonce_ttl_seconds (config sv) * 10 ^ 9 <= nanos ->
  (rp_now w + nanos) / 10 ^ 6 + nonce_ttl_seconds (config sv) * 1000 <= i64_max ->
  let check := check_request to_json redis_message timestamp_opt parse_datetime sv req in
  let '(r1, w1) := check w in
  let w2 := {| rp_redis := rp_redis w1; rp_now := rp_now w1 + nanos; rp_faults := [] |} in
  r1 = Ok tt /\ fst (check w2) = Ok tt.
Proof.
  intros Hf Hr Hd Hp Hx Hv Hs Hn Hout Hnone H0' Hns H1' check.
  assert (rp_now w / 10 ^ 6 + nonce_ttl_seconds (config sv) * 1000 <= (rp_now w + nanos) / 10 ^ 6) as Hle.
  { rewrite <- Z.div_add by lia. apply Z.div_le_mono; lia. }
  destruct (check_request_unrepresentable to_json redis_message sv timestamp_opt parse_datetime req nonce s n w)
    as (w1 & Hrun & Hnow & Hf1 & Hgone); try done.
  { split; [done |]. unfold server_now. lia. }
  unfold check. rewrite Hrun. split; [done |].
  destruct (check_request_unrepresentable to_json redis_message sv timestamp_opt parse_datetime req nonce s n
              {| rp_redis := rp_redis w1; rp_now := rp_now w1 + nanos; rp_faults := [] |})
    as (w2 & Hrun2 & _); try done.
  - split; [done |]. unfold server_now. simpl. by rewrite Hnow.
  - simpl. apply Hgone. unfold server_now. simpl. by rewrite Hnow.
  - by rewrite Hrun2.
Qed.

(** ** A protected request, for the witnesses *)

Definition some_nonce : string := generate_nonce (repeat 171 32).
Definition info_json (i : NonceInfo) : string := ni_nonce i.
Definition all_keys (now : Z) (pattern : string) (s : redis_map string) : list string := (map_to_list s).*1.

Definition quiet_world (now : Z) : ReplayWorld (St := redis_map string) :=
  {| rp_redis := ∅; rp_now := now; rp_faults := [] |}.

Lemma replayed_request_refused_witness :
  let w1 := snd (validate_request info_json "" with_redis some_nonce 1000 None "/api/v1/tips" (quiet_world 1000)) in
  let w2 := {| rp_redis := rp_redis w1; rp_now := rp_now w1 + seconds 59; rp_faults := [] |} in
  is_ok (fst (validate_request info_json "" with_redis some_nonce 1000 None "/api/v1/tips" w2)) = false.
Proof.
  destruct (validate_request info_json "" with_redis some_nonce 1000 None "/api/v1/tips" (quiet_world 1000))
    as [r w1] eqn:Hrun. simpl.
  apply (replayed_request_refused info_json "" all_keys with_redis some_nonce 1000 None None "/api/v1/tips"
           (quiet_world 1000) w1).
  - reflexivity.
  - left.
  - reflexivity.
  - rewrite Hrun. f_equal. apply (f_equal fst) in Hrun. simpl in Hrun. rewrite <- Hrun. vm_compute. reflexivity.
  - apply rtc_once, os_pass. discriminate.
Defined.

Definition far_request : ReplayRequest :=
  {| rr_path := "/api/v1/tips";
     rr_headers := fun h => if String.eqb h "x-nonce" then Some some_nonce
                            else if String.eqb h "x-timestamp" then Some "9000000000000000" else None |}.

Definition chrono_range (secs nanos : Z) : option Z :=
  if Z.abs secs <=? 8200000000000 then Some (seconds secs + nanos) else None.

Lemma unrepresentable_timestamp_replays_witness :
  let check := check_request info_json "" chrono_range (fun _ => None) with_redis far_request in
  let '(r1, w1) := check (quiet_world 1000) in
  r1 = Ok tt /\
  fst (check {| rp_redis := rp_redis w1; rp_now := rp_now w1 + seconds 300; rp_faults := [] |}) = Ok tt.
Proof.
  apply (unrepresentable_timestamp_replays info_json "" with_redis chrono_range (fun _ => None) far_request
           some_nonce "9000000000000000" 9000000000000000 (quiet_world 1000) (seconds 300));
    try (vm_compute; reflexivity); try (vm_compute; discriminate).
  left.
Defined.
