(* ===== verification/Session.v ===== *)
(** * Server-side sessions

    src/src/security/session_management.rs (sessions kept in Redis) and
    src/src/middleware/session.rs (the middleware and the cookies), over the
    interface [Redis].

    A session is a string under [session:<id>]; the ids of a user are a set
    under [user_sessions:<user>].  Time passes between the calls to Redis: the
    world has a clock, in nanoseconds, that gives the time of each call.
    [get_session] and [delete_session] call each other, so they take fuel, and
    a computation that has used it up is [Running].  serde is a parameter. *)

From S2P Require Import Prelude Text Redis.

(** ** security/session_management.rs *)

(** src/src/security/session_management.rs:11-22 SessionError *)
Inductive SessionError : Type :=
| SessionNotFound (id : string)
| SessionExpired (id : string)
| InvalidSessionFormat (message : string)
| SessionRedisError (message : string)
| CreationFailed (message : string).

(** src/src/security/session_management.rs:25-33 SessionConfig *)
Record SessionConfig : Type := {
  session_ttl_seconds : Z;
  idle_timeout_seconds : Z;
  absolute_timeout_seconds : Z;
  cleanup_interval_secs : Z;
  max_sessions_per_user : Z;
  cookie_name : string;
  secure_cookies : bool
}.

(** src/src/security/session_management.rs:35-47 SessionConfig::default *)
Definition session_config_default : SessionConfig :=
  {| session_ttl_seconds := 3600; idle_timeout_seconds := 1800; absolute_timeout_seconds := 86400;
     cleanup_interval_secs := 300; max_sessions_per_user := 5; cookie_name := "session_id";
     secure_cookies := true |}.

(** src/src/security/session_management.rs:50-61 SessionData, instants in nanoseconds *)
Record SessionData : Type := {
  sd_session_id : string;
  sd_user_id : string;
  sd_client_id : option string;
  sd_ip_address : option string;
  sd_user_agent : option string;
  sd_created_at : Z;
  sd_last_accessed : Z;
  sd_expires_at : Z;
  sd_is_active : bool;
  sd_metadata : gmap string string
}.

(** src/src/security/session_management.rs:64-71 SessionAnalytics *)
Record SessionAnalytics : Type := {
  total_sessions : Z;
  active_sessions : Z;
  expired_sessions : Z;
  sessions_by_user : gmap string Z;
  sessions_by_client : gmap string Z;
  average_session_duration : Z
}.

Definition sec_ns (s : Z) : Z := s * 10 ^ 9.

(** src/src/security/session_management.rs:74-93 SessionData::new, with the id
    drawn *)
Definition session_data_new (id : string) (now : Z) (user_id : string)
    (client_id ip_address user_agent : option string) : SessionData :=
  {| sd_session_id := id; sd_user_id := user_id; sd_client_id := client_id; sd_ip_address := ip_address;
     sd_user_agent := user_agent; sd_created_at := now; sd_last_accessed := now;
     sd_expires_at := now + sec_ns 3600; sd_is_active := true; sd_metadata := ∅ |}.

(** src/src/security/session_management.rs:95-97 SessionData::is_expired *)
Definition is_expired (now : Z) (s : SessionData) : bool := sd_expires_at s <? now.

(** src/src/security/session_management.rs:99-102 SessionData::is_idle_expired *)
Definition is_idle_expired (now idle_timeout : Z) (s : SessionData) : bool :=
  idle_timeout <? now - sd_last_accessed s.

(** src/src/security/session_management.rs:104-106 SessionData::touch *)
Definition touch (now : Z) (s : SessionData) : SessionData :=
  {| sd_session_id := sd_session_id s; sd_user_id := sd_user_id s; sd_client_id := sd_client_id s;
     sd_ip_address := sd_ip_address s; sd_user_agent := sd_user_agent s; sd_created_at := sd_created_at s;
     sd_last_accessed := now; sd_expires_at := sd_expires_at s; sd_is_active := sd_is_active s;
     sd_metadata := sd_metadata s |}.

Definition with_expiry (t : Z) (s : SessionData) : SessionData :=
  {| sd_session_id := sd_session_id s; sd_user_id := sd_user_id s; sd_client_id := sd_client_id s;
     sd_ip_address := sd_ip_address s; sd_user_agent := sd_user_agent s; sd_created_at := sd_created_at s;
     sd_last_accessed := sd_last_accessed s; sd_expires_at := t; sd_is_active := sd_is_active s;
     sd_metadata := sd_metadata s |}.

(** src/src/security/session_management.rs:108-110 SessionData::extend_ttl *)
Definition extend_ttl (now additional_time : Z) (s : SessionData) : SessionData :=
  with_expiry (now + additional_time) s.

(** src/src/security/session_management.rs:112-114 SessionData::add_metadata *)
Definition add_metadata (key value : string) (s : SessionData) : SessionData :=
  {| sd_session_id := sd_session_id s; sd_user_id := sd_user_id s; sd_client_id := sd_client_id s;
     sd_ip_address := sd_ip_address s; sd_user_agent := sd_user_agent s; sd_created_at := sd_created_at s;
     sd_last_accessed := sd_last_accessed s; sd_expires_at := sd_expires_at s; sd_is_active := sd_is_active s;
     sd_metadata := <[key := value]> (sd_metadata s) |}.

(** src/src/security/session_management.rs:116-118 SessionData::get_metadata *)
Definition get_metadata (key : string) (s : SessionData) : option string := sd_metadata s !! key.

(** src/src/security/session_management.rs:121-124 SessionManager *)
Record SessionManager : Type := {
  sm_redis : bool;
  sm_config : SessionConfig
}.

(** src/src/security/session_management.rs:131-133 SessionManager::with_redis *)
Definition manager_with_redis : SessionManager := {| sm_redis := true; sm_config := session_config_default |}.

(** src/src/security/session_management.rs:135-137 SessionManager::without_redis *)
Definition manager_without_redis : SessionManager := {| sm_redis := false; sm_config := session_config_default |}.

(** What Redis holds: strings and sets. *)
Inductive RValue : Type :=
| RStr (s : string)
| RSet (m : gset string).

(** How a computation stops without a result: with an error, or because its fuel
    is used up. *)
Inductive stop : Type :=
| Failed (e : SessionError)
| Running.

Definition user_sessions_key (user_id : string) : string := "user_sessions:" +:+ user_id.
Definition session_key (session_id : string) : string := "session:" +:+ session_id.

Section session.
Context {St : Type} `{Redis RValue St}.
(** serde, with the message of its errors, and the message of a Redis error. *)
Variable to_json : SessionData -> string.
Variable from_json : string -> option SessionData.
Variable json_message : string -> string.
Variable redis_message : string.
(** [KEYS pattern], and the order in which a set is listed. *)
Variable keys_of : Z -> string -> St -> list string.
Variable members : gset string -> list string.
(** [Uuid::new_v4], the [n]-th drawn. *)
Variable uuid : nat -> string.

(** The server, the time of each call to it, the number of calls made and the
    schedule of faults. *)
Record SessionWorld : Type := {
  ss_redis : St;
  ss_clock : nat -> Z;
  ss_calls : nat;
  ss_uuids : nat;
  ss_faults : list fault
}.

Definition now_of (w : SessionWorld) : Z := ss_clock w (ss_calls w).

#[export] Instance session_world_networked : Networked SessionWorld := {
  next_fault w :=
    let '(f, l) := pop_fault (ss_faults w) in
    (f, {| ss_redis := ss_redis w; ss_clock := ss_clock w; ss_calls := ss_calls w;
           ss_uuids := ss_uuids w; ss_faults := l |})
}.

Definition Sess : Type -> Type := M SessionWorld stop.

(** A call to Redis, at the time of the server's clock; [None] is an error reply. *)
Definition session_redis {A} (q : Z -> St -> option A * St) : Sess A :=
  r ← attempt (E' := stop) (remote (SessionRedisError redis_message) (fun w =>
        let '(a, s) := q (now_of w / 10 ^ 6) (ss_redis w) in
        (a, {| ss_redis := s; ss_clock := ss_clock w; ss_calls := S (ss_calls w);
               ss_uuids := ss_uuids w; ss_faults := ss_faults w |})));
  match r with
  | Ok (Some a) => mret a
  | Ok None => throw (Failed (SessionRedisError redis_message))
  | Err e => throw (Failed e)
  end.

(** [GET k] of a string, [SMEMBERS k]; a key of the other type is an error. *)
Definition get_string (k : string) (now : Z) (s : St) : option (option string) * St :=
  match r_get now k s with
  | Some (RStr v) => (Some (Some v), s)
  | Some (RSet _) => (None, s)
  | None => (Some None, s)
  end.

Definition smembers (k : string) (now : Z) (s : St) : option (list string) * St :=
  match r_get now k s with
  | Some (RSet m) => (Some (members m), s)
  | Some (RStr _) => (None, s)
  | None => (Some [], s)
  end.

(** [SADD k v] and [SREM k v]. *)
Definition sadd (k v : string) (now : Z) (s : St) : option unit * St :=
  match r_get now k s with
  | Some (RSet m) => (Some tt, r_overwrite now k (RSet ({[v]} ∪ m)) s)
  | Some (RStr _) => (None, s)
  | None => (Some tt, r_set k (RSet {[v]}) s)
  end.

Definition srem (k v : string) (now : Z) (s : St) : option unit * St :=
  match r_get now k s with
  | Some (RSet m) =>
      let m' := m ∖ {[v]} in
      (Some tt, if bool_decide (m' = ∅) then r_del k s else r_overwrite now k (RSet m') s)
  | Some (RStr _) => (None, s)
  | None => (Some tt, s)
  end.

(** [if let Ok(..) = ..]: an error is a result, a computation that is running is
    not. *)
Definition if_let_ok {A} (m : Sess A) : Sess (option A) :=
  fun w => match m w with
           | (Ok a, w') => (Ok (Some a), w')
           | (Err (Failed _), w') => (Ok None, w')
           | (Err Running, w') => (Err Running, w')
           end.

(** src/src/security/session_management.rs:280-307 SessionManager::delete_session,
    given [get_session] *)
Definition delete_with (get : string -> Sess (option SessionData)) (sm : SessionManager)
    (session_id : string) : Sess unit :=
  if sm_redis sm then
    found ← if_let_ok (get session_id);
    _ ← match found with
        | Some (Some session) => session_redis (srem (user_sessions_key (sd_user_id session)) session_id)
        | _ => mret tt
        end;
    session_redis (fun _ s => (Some tt, r_del (session_key session_id) s))
  else mret tt.

(** src/src/security/session_management.rs:213-240 SessionManager::get_session *)
Fixpoint get_session (fuel : nat) (sm : SessionManager) (session_id : string) : Sess (option SessionData) :=
  match fuel with
  | O => throw Running
  | S fuel' =>
      if sm_redis sm then
        value ← session_redis (get_string (session_key session_id));
        match value with
        | Some v =>
            session ← expect (Failed (InvalidSessionFormat (json_message v))) (from_json v);
            now ← gets now_of;
            if is_expired now session then
              delete_with (get_session fuel' sm) sm session_id;; mret None
            else mret (Some session)
        | None => mret None
        end
      else mret None
  end.

Section fuelled.
Variable fuel : nat.
Variable sm : SessionManager.

Definition delete_session (session_id : string) : Sess unit := delete_with (get_session fuel sm) sm session_id.

(** src/src/security/session_management.rs:260-277 update_session_redis *)
Definition update_session_redis (session : SessionData) : Sess unit :=
  session_redis (fun now => setex now (session_key (sd_session_id session))
                              (session_ttl_seconds (sm_config sm)) (RStr (to_json session))).

(** src/src/security/session_management.rs:174-210 store_session_redis *)
Definition store_session_redis (session : SessionData) : Sess unit :=
  update_session_redis session;;
  session_redis (sadd (user_sessions_key (sd_user_id session)) (sd_session_id session));;
  session_redis (fun now => r_expire now (user_sessions_key (sd_user_id session))
                              (absolute_timeout_seconds (sm_config sm)));;
  mret tt.

(** src/src/security/session_management.rs:310-331 get_user_sessions *)
Definition get_user_sessions (user_id : string) : Sess (list SessionData) :=
  if sm_redis sm then
    ids ← session_redis (smembers (user_sessions_key user_id));
    forM ids [] (fun sessions id =>
      found ← if_let_ok (get_session fuel sm id);
      mret (match found with Some (Some s) => sessions ++ [s] | _ => sessions end))
  else mret [].

(** [iter().min_by_key(|s| s.created_at)]: the first of the least. *)
Fixpoint oldest (l : list SessionData) : option SessionData :=
  match l with
  | [] => None
  | s :: l' =>
      match oldest l' with
      | Some s' => if sd_created_at s' <? sd_created_at s then Some s' else Some s
      | None => Some s
      end
  end.

Definition draw_uuid : Sess string := fun w =>
  (Ok (uuid (ss_uuids w)),
   {| ss_redis := ss_redis w; ss_clock := ss_clock w; ss_calls := ss_calls w;
      ss_uuids := S (ss_uuids w); ss_faults := ss_faults w |}).

(** src/src/security/session_management.rs:156-164 making room for a session *)
Definition make_room (user_id : string) : Sess unit :=
  user_sessions ← if_let_ok (get_user_sessions user_id);
  match user_sessions with
  | Some sessions =>
      if max_sessions_per_user (sm_config sm) <=? Z.of_nat (length sessions) then
        match oldest sessions with
        | Some s => delete_session (sd_session_id s)
        | None => mret tt
        end
      else mret tt
  | None => mret tt
  end.

(** src/src/security/session_management.rs:141-172 SessionManager::create_session *)
Definition create_session (user_id : string) (client_id ip_address user_agent : option string)
    : Sess SessionData :=
  id ← draw_uuid;
  now ← gets now_of;
  let session := with_expiry (now + sec_ns (wrap_i64 (session_ttl_seconds (sm_config sm))))
                   (session_data_new id now user_id client_id ip_address user_agent) in
  make_room user_id;;
  (if sm_redis sm then store_session_redis session else mret tt);;
  mret session.

(** src/src/security/session_management.rs:243-258 SessionManager::touch_session *)
Definition touch_session (session_id : string) : Sess (option SessionData) :=
  found ← get_session fuel sm session_id;
  match found with
  | Some session =>
      now ← gets now_of;
      let session := touch now session in
      (if sm_redis sm then update_session_redis session else mret tt);;
      mret (Some session)
  | None => mret None
  end.

(** src/src/security/session_management.rs:334-344 delete_user_sessions *)
Definition delete_user_sessions (user_id : string) : Sess Z :=
  sessions ← get_user_sessions user_id;
  forM sessions 0 (fun deleted_count s => delete_session (sd_session_id s);; mret (deleted_count + 1)).

(** src/src/security/session_management.rs:347-366 SessionManager::refresh_session *)
Definition refresh_session (session_id : string) (additional_time : option Z) : Sess (option SessionData) :=
  found ← get_session fuel sm session_id;
  match found with
  | Some session =>
      let additional := default (sec_ns (wrap_i64 (session_ttl_seconds (sm_config sm)))) additional_time in
      now ← gets now_of;
      let session := touch now (extend_ttl now additional session) in
      (if sm_redis sm then update_session_redis session else mret tt);;
      mret (Some session)
  | None => mret None
  end.

Definition idle_timeout : Z := sec_ns (wrap_i64 (idle_timeout_seconds (sm_config sm))).

(** [key.strip_prefix("session:").unwrap_or(&key)] *)
Definition id_of_key (key : string) : string := default key (strip_prefix "session:" key).

(** src/src/security/session_management.rs:369-400 cleanup_expired_sessions *)
Definition cleanup_expired_sessions : Sess Z :=
  if sm_redis sm then
    keys ← session_redis (fun now s => (Some (keys_of now "session:*" s), s));
    forM keys 0 (fun cleaned_count key =>
      found ← if_let_ok (get_session fuel sm (id_of_key key));
      match found with
      | Some (Some session) =>
          now ← gets now_of;
          if is_expired now session || is_idle_expired now idle_timeout session then
            delete_session (sd_session_id session);; mret (cleaned_count + 1)
          else mret cleaned_count
      | _ => mret cleaned_count
      end)
  else mret 0.

Definition count_in (k : string) (m : gmap string Z) : gmap string Z :=
  partial_alter (fun n => Some (default 0 n + 1)) k m.

(** [Duration / i32] truncates the seconds and the nanoseconds. *)
Definition duration_div (d n : Z) : Z :=
  let secs := Z.quot (d / 10 ^ 9) n in
  let carry := d / 10 ^ 9 - secs * n in
  sec_ns secs + (Z.quot (d mod 10 ^ 9) n + Z.quot (carry * 10 ^ 9) n).

(** src/src/security/session_management.rs:403-466 get_session_analytics, with the
    total duration of the sessions in the place of the average until the end *)
Definition get_session_analytics : Sess SessionAnalytics :=
  let zero := {| total_sessions := 0; active_sessions := 0; expired_sessions := 0;
                 sessions_by_user := ∅; sessions_by_client := ∅; average_session_duration := 0 |} in
  if sm_redis sm then
    keys ← session_redis (fun now s => (Some (keys_of now "session:*" s), s));
    a ← forM keys zero (fun a key =>
      found ← if_let_ok (get_session fuel sm (id_of_key key));
      match found with
      | Some (Some session) =>
          now ← gets now_of;
          mret (if sd_is_active session && negb (is_expired now session) then
                  {| total_sessions := total_sessions a + 1; active_sessions := active_sessions a + 1;
                     expired_sessions := expired_sessions a;
                     sessions_by_user := count_in (sd_user_id session) (sessions_by_user a);
                     sessions_by_client := match sd_client_id session with
                                           | Some c => count_in c (sessions_by_client a)
                                           | None => sessions_by_client a
                                           end;
                     average_session_duration :=
                       average_session_duration a + (sd_last_accessed session - sd_created_at session) |}
                else
                  {| total_sessions := total_sessions a + 1; active_sessions := active_sessions a;
                     expired_sessions := expired_sessions a + 1; sessions_by_user := sessions_by_user a;
                     sessions_by_client := sessions_by_client a;
                     average_session_duration := average_session_duration a |})
      | _ => mret a
      end);
    mret (if 0 <? active_sessions a then
            {| total_sessions := total_sessions a; active_sessions := active_sessions a;
               expired_sessions := expired_sessions a; sessions_by_user := sessions_by_user a;
               sessions_by_client := sessions_by_client a;
               average_session_duration := duration_div (average_session_duration a) (active_sessions a) |}
          else a)
  else mret zero.

(** src/src/security/session_management.rs:469-490 SessionManager::validate_session *)
Definition validate_session (session_id : string) : Sess (option SessionData) :=
  found ← get_session fuel sm session_id;
  match found with
  | Some session =>
      now ← gets now_of;
      if is_expired now session then
        delete_session session_id;; throw (Failed (SessionExpired session_id))
      else if is_idle_expired now idle_timeout session then
        delete_session session_id;; throw (Failed (SessionExpired session_id))
      else touch_session session_id
  | None => throw (Failed (SessionNotFound session_id))
  end.
End fuelled.

(** ** middleware/session.rs *)

(** src/src/middleware/session.rs:63-76 should_skip_session_check *)
Definition should_skip_session_check (path : string) : bool :=
  existsb (fun skip => starts_with skip path)
    ["/health"; "/metrics"; "/api/v1/auth/login"; "/api/v1/auth/register"; "/api/v1/auth/refresh";
     "/docs"; "/swagger-ui"; "/openapi.json"].

(** src/src/middleware/session.rs:78-90 requires_authentication *)
Definition requires_authentication (path : string) : bool :=
  existsb (fun protected => starts_with protected path)
    ["/api/v1/tips"; "/api/v1/creators"; "/api/v1/withdrawals"; "/api/v1/profile"; "/api/v1/admin"].

(** src/src/middleware/session.rs:96-103 the parts of the cookie header *)
Fixpoint session_cookie (parts : list string) : option string :=
  match parts with
  | [] => None
  | part :: l =>
      match split_once "=" (trim part) with
      | Some (name, value) =>
          if String.eqb (trim name) "session_id" then Some (trim value) else session_cookie l
      | None => session_cookie l
      end
  end.

(** [Option::or_else] *)
Definition or_else {A} (o : option A) (alt : option A) : option A :=
  match o with Some a => Some a | None => alt end.

(** src/src/middleware/session.rs:92-124 extract_session_id *)
Definition extract_session_id (headers : string -> option string) : option string :=
  or_else (cookies ← (headers "cookie" ≫= header_to_str); session_cookie (split_on ";" cookies))
    (or_else (auth ← (headers "authorization" ≫= header_to_str); strip_prefix "Bearer " auth)
       (headers "x-session-id" ≫= header_to_str)).

(** A request and an answer as the middleware sees them; the session is the
    extension of the request. *)
Record SessionRequest : Type := {
  sq_path : string;
  sq_headers : string -> option string;
  sq_session : option SessionData
}.

Record SessionResponse : Type := {
  sr_status : Z;
  sr_headers : gmap string string;
  sr_body : string
}.

(** src/src/middleware/session.rs:127-130 the cookie of a session *)
Definition session_cookie_value (session_id max_age : string) : string :=
  "session_id=" +:+ session_id +:+ "; Path=/; HttpOnly; Secure; SameSite=Strict; Max-Age=" +:+ max_age.

(** src/src/middleware/session.rs:126-135 update_session_cookie *)
Definition update_session_cookie (session_id : string) (r : SessionResponse) : SessionResponse :=
  {| sr_status := sr_status r;
     sr_headers := <["set-cookie" := session_cookie_value session_id "3600"]> (sr_headers r);
     sr_body := sr_body r |}.

(** src/src/middleware/session.rs:137-170 create_session_error_response: the status
    and the message of the body *)
Definition create_session_error_response (e : SessionError) : Z * string :=
  match e with
  | SessionNotFound _ => (401, "Session not found or expired")
  | SessionExpired _ => (401, "Session has expired")
  | InvalidSessionFormat _ => (401, "Invalid session format")
  | SessionRedisError _ => (500, "Internal server error")
  | CreationFailed _ => (500, "Session creation failed")
  end.

(** The answer of the inner handler or the refusal, [None] while validating. *)
Definition Handled : Type := option (result SessionResponse (Z * string)).

(** src/src/middleware/session.rs:12-61 session_middleware *)
Definition session_middleware (fuel : nat) (sm : SessionManager)
    (next : SessionRequest -> SessionWorld -> SessionResponse * SessionWorld) (req : SessionRequest)
    (w : SessionWorld) : Handled * SessionWorld :=
  let run req w := let '(r, w') := next req w in (Some (Ok r), w') in
  if should_skip_session_check (sq_path req) then run req w
  else
    match extract_session_id (sq_headers req) with
    | Some session_id =>
        match validate_session fuel sm session_id w with
        | (Ok (Some session), w1) =>
            let '(r, w2) := next {| sq_path := sq_path req; sq_headers := sq_headers req;
                                    sq_session := Some session |} w1 in
            (Some (Ok (update_session_cookie session_id r)), w2)
        | (Ok None, w1) => (Some (Err (create_session_error_response (SessionNotFound session_id))), w1)
        | (Err (Failed e), w1) => (Some (Err (create_session_error_response e)), w1)
        | (Err Running, w1) => (None, w1)
        end
    | None =>
        if requires_authentication (sq_path req)
        then (Some (Err (create_session_error_response (SessionNotFound "no_session"))), w)
        else run req w
    end.

(** src/src/middleware/session.rs:227-257 SessionHelper::create_session_response:
    the session of the body and the cookie *)
Definition create_session_response (fuel : nat) (sm : SessionManager) (user_id : string)
    (client_id ip_address user_agent : option string) : Sess (SessionData * string) :=
  session ← create_session fuel sm user_id client_id ip_address user_agent;
  mret (session, session_cookie_value (sd_session_id session) "3600").

(** src/src/middleware/session.rs:259-274 SessionHelper::logout_response: the cookie *)
Definition logout_response (fuel : nat) (sm : SessionManager) (session_id : string) : Sess string :=
  delete_session fuel sm session_id;; mret (session_cookie_value "" "0").

(** src/src/middleware/session.rs:276-306 SessionHelper::refresh_session_response *)
Definition refresh_session_response (fuel : nat) (sm : SessionManager) (session_id : string)
    : Sess (SessionData * string) :=
  found ← refresh_session fuel sm session_id None;
  match found with
  | Some session => mret (session, session_cookie_value (sd_session_id session) "3600")
  | None => throw (Failed (SessionNotFound session_id))
  end.
End session.

(** ** Calls to Redis *)

Section calls.
Context {St : Type} `{Redis RValue St}.
Variable redis_message : string.
Implicit Types (w : SessionWorld (St := St)).

(** The world after a call that left the server at [s]. *)
Definition called (s : St) (faults : list fault) w : SessionWorld :=
  {| ss_redis := s; ss_clock := ss_clock w; ss_calls := S (ss_calls w); ss_uuids := ss_uuids w;
     ss_faults := faults |}.

Lemma session_redis_calm {A} (q : Z -> St -> option A * St) a s w :
  ss_faults w = [] -> q (now_of w / 10 ^ 6) (ss_redis w) = (Some a, s) ->
  session_redis redis_message q w = (Ok a, called s [] w).
Proof.
  intros Hf Hq. unfold session_redis, now_of in *. run_m. unfold remote. cbn -[Z.div]. rewrite Hf.
  cbn -[Z.div]. by rewrite Hq.
Qed.

(** A call that answers took effect on the server. *)
Lemma session_redis_ok {A} (q : Z -> St -> option A * St) a w w' :
  session_redis redis_message q w = (Ok a, w') ->
  q (now_of w / 10 ^ 6) (ss_redis w) = (Some a, ss_redis w') /\
  ss_clock w' = ss_clock w /\ ss_calls w' = S (ss_calls w).
Proof.
  unfold session_redis, now_of. run_m. unfold remote. cbn -[Z.div].
  destruct (pop_fault (ss_faults w)) as [f l]. cbn -[Z.div].
  destruct f, (q (ss_clock w (ss_calls w) / 10 ^ 6) (ss_redis w)) as [[b |] s]; by intros [= <- <-].
Qed.
End calls.

(** ** An expired session whose key is still there *)

Section expired.
Context {St : Type} `{RedisLaws RValue St}.
Variable from_json : string -> option SessionData.
Variable json_message : string -> string.
Variable redis_message : string.
Variable sm : SessionManager.
Variable id v : string.
Variable session : SessionData.
Implicit Types (w : SessionWorld (St := St)).

(** The server answers, its clock does not run backwards, and the session stored
    under [id] has expired while its key lives until [deadline]. *)
Definition lingers (deadline : Z) w : Prop :=
  ss_faults w = [] /\ (forall m n : nat, (m <= n)%nat -> ss_clock w m <= ss_clock w n) /\
  is_expired (now_of w) session = true /\
  (forall t, now_of w / 10 ^ 6 <= t ->
     r_get t (session_key id) (ss_redis w) = if t <? deadline then Some (RStr v) else None).

Lemma lingers_called deadline w : lingers deadline w -> lingers deadline (called (ss_redis w) [] w).
Proof.
  intros (Hf & Hm & He & Hg). unfold lingers, now_of in *. simpl.
  pose proof (Hm (ss_calls w) (S (ss_calls w)) ltac:(lia)) as Hle.
  split_and!; [done | done | |].
  - unfold is_expired in *. zbool. apply Z.ltb_lt. lia.
  - intros t Ht. apply Hg. pose proof (Z.div_le_mono _ _ (10 ^ 6) ltac:(lia) Hle). lia.
Qed.

Lemma get_session_expired deadline fuel n w :
  sm_redis sm = true -> from_json v = Some session -> lingers deadline w ->
  (forall k, (k < n)%nat -> ss_clock w (ss_calls w + k)%nat / 10 ^ 6 < deadline) ->
  deadline <= ss_clock w (ss_calls w + n)%nat / 10 ^ 6 ->
  let '(r, w') := get_session from_json json_message redis_message fuel sm id w in
  if (n <? fuel)%nat then
    r = Ok None /\ ss_calls w' = (ss_calls w + 2 * n + 1)%nat /\ ss_clock w' = ss_clock w /\ ss_faults w' = [] /\
    r_get (now_of w' / 10 ^ 6) (session_key id) (ss_redis w') = None
  else r = Err Running.
Proof.
  intros Hr Hj. revert n w. induction fuel as [| fuel IH]; intros n w Hl Halive Hdead; [done |].
  pose proof Hl as (Hf & Hm & He & Hg). pose proof (Hg _ (Z.le_refl _)) as Hnow.
  cbn [get_session]. rewrite Hr. bind_step. destruct n as [| n].
  - rewrite Nat.add_0_r in Hdead. fold (now_of w) in Hdead.
    destruct (Z.ltb_spec (now_of w / 10 ^ 6) deadline); [lia |].
    rewrite (session_redis_calm _ _ None (ss_redis w) w Hf) by (unfold get_string; by rewrite Hnow).
    cbn -[Z.div]. split_and!; [done | lia | done | done |]. unfold now_of. cbn -[Z.div].
    pose proof (Hm (ss_calls w) (S (ss_calls w)) ltac:(lia)) as Hle.
    pose proof (Z.div_le_mono _ _ (10 ^ 6) ltac:(lia) Hle). unfold now_of in *.
    rewrite Hg by lia. destruct (Z.ltb_spec (ss_clock w (S (ss_calls w)) / 10 ^ 6) deadline); [lia | done].
  - pose proof (Halive O ltac:(lia)) as Hnext. rewrite Nat.add_0_r in Hnext. fold (now_of w) in Hnext.
    destruct (Z.ltb_spec (now_of w / 10 ^ 6) deadline); [| lia].
    rewrite (session_redis_calm _ _ (Some v) (ss_redis w) w Hf) by (unfold get_string; by rewrite Hnow).
    pose proof (lingers_called _ _ Hl) as Hl1. pose proof Hl1 as (_ & _ & He1 & _).
    set (w1 := called _ _ _) in *. cbn -[Z.div]. unfold expect, ok_or. rewrite Hj. bind_step.
    unfold lift. bind_step. unfold gets. rewrite He1. bind_step.
    unfold delete_with. rewrite Hr. bind_step. unfold if_let_ok.
    specialize (IH n w1 Hl1). destruct (get_session _ _ _ fuel sm id w1) as [r w2].
    assert (forall k, (ss_calls w1 + k = ss_calls w + S k)%nat) as Hk by (intros k; simpl; lia).
    assert (ss_clock w1 = ss_clock w) as Hc by done.
    assert (if (n <? fuel)%nat then r = Ok None /\ ss_calls w2 = (ss_calls w1 + 2 * n + 1)%nat /\
              ss_clock w2 = ss_clock w1 /\ ss_faults w2 = [] else r = Err Running) as Hrec.
    { assert (forall k, (k < n)%nat -> ss_clock w1 (ss_calls w1 + k)%nat / 10 ^ 6 < deadline) as Ha.
      { intros k Hlt. rewrite Hc, Hk. apply Halive. lia. }
      rewrite <- (Hk n), <- Hc in Hdead. specialize (IH Ha Hdead).
      destruct (n <? fuel)%nat; [| done]. destruct IH as (-> & -> & -> & -> & _). done. }
    destruct (n <? fuel)%nat eqn:Hlt; unfold Nat.ltb in Hlt; cbn in Hlt; rewrite Hlt; [| by subst r].
    destruct Hrec as (-> & Hcalls & Hclock & Hfaults). cbn -[Z.div]. bind_step.
    unfold mret at 1, M_ret at 1. cbn -[Z.div].
    rewrite (session_redis_calm _ _ tt (r_del (session_key id) (ss_redis w2)) w2 Hfaults) by done.
    cbn -[Z.div Nat.mul]. split_and!; [done | rewrite Hcalls; simpl; lia | congruence | done |].
    by rewrite r_get_del_same.
Qed.
End expired.

(** ** A session that validates *)

Section valid.
Context {St : Type} `{RedisLaws RValue St}.
Variable to_json : SessionData -> string.
Variable from_json : string -> option SessionData.
Variable json_message : string -> string.
Variable redis_message : string.
Variable sm : SessionManager.
Implicit Types (w : SessionWorld (St := St)).

Lemma get_session_ok fuel id s w w' :
  get_session from_json json_message redis_message fuel sm id w = (Ok (Some s), w') ->
  (exists v, r_get (now_of w / 10 ^ 6) (session_key id) (ss_redis w) = Some (RStr v) /\ from_json v = Some s) /\
  ss_redis w' = ss_redis w /\ ss_clock w' = ss_clock w /\ ss_calls w' = S (ss_calls w) /\
  is_expired (now_of w') s = false.
Proof.
  destruct fuel as [| fuel]; [done |]. cbn [get_session]. destruct (sm_redis sm); [| done]. bind_step.
  destruct (session_redis _ _ w) as [[value | e] w1] eqn:Hget; [| done].
  apply session_redis_ok in Hget as (Hq & Hc & Hn). unfold get_string in Hq.
  destruct (r_get (now_of w / 10 ^ 6) (session_key id) (ss_redis w)) as [[v | m] |] eqn:Hr; [| done |];
    injection Hq as Hval Hst; subst value; [| by intros [=]].
  unfold expect, lift, ok_or. destruct (from_json v) as [s1 |] eqn:Hj; [| done]. bind_step.
  unfold gets. bind_step. destruct (is_expired (now_of w1) s1) eqn:He.
  - bind_step. by destruct (delete_with _ _ _ _ w1) as [[] ?].
  - intros [= <- <-]. split_and!; eauto.
Qed.

(** Between the two reads of [validate_session] nobody acts and the key can only
    expire. *)
Lemma validate_session_ok fuel id s' w w' :
  (forall m n : nat, (m <= n)%nat -> ss_clock w m <= ss_clock w n) ->
  validate_session to_json from_json json_message redis_message fuel sm id w = (Ok (Some s'), w') ->
  exists v s t, r_get (now_of w / 10 ^ 6) (session_key id) (ss_redis w) = Some (RStr v) /\ from_json v = Some s /\
    now_of w <= t /\ is_expired t s = false /\ s' = touch t s /\
    (exists t0, now_of w <= t0 <= t /\ is_idle_expired t0 (idle_timeout sm) s = false).
Proof.
  intros Hm. unfold validate_session. bind_step.
  destruct (get_session _ _ _ fuel sm id w) as [[[s |] | e] w1] eqn:Hget; try done.
  apply get_session_ok in Hget as ((v & Hv & Hj) & Hr1 & Hc1 & Hn1 & He1).
  unfold gets at 1. bind_step. rewrite He1.
  destruct (is_idle_expired (now_of w1) (idle_timeout sm) s) eqn:Hi.
  { bind_step. by destruct (delete_session _ _ _ _ _ _ w1) as [[] ?]. }
  unfold touch_session. bind_step.
  destruct (get_session _ _ _ fuel sm id w1) as [[[s2 |] | e] w2] eqn:Hget2; try done.
  apply get_session_ok in Hget2 as ((v2 & Hv2 & Hj2) & Hr2 & Hc2 & Hn2 & He2).
  assert (now_of w <= now_of w1 <= now_of w2) as [Hle1 Hle2].
  { unfold now_of. rewrite Hc2, Hc1, Hn2, Hn1. split; apply Hm; lia. }
  assert (v2 = v) as ->.
  { rewrite Hr1 in Hv2. apply (r_get_expires (now_of w / 10 ^ 6)) in Hv2; [congruence |].
    apply Z.div_le_mono; lia. }
  assert (s2 = s) as -> by congruence.
  unfold gets. bind_step. bind_step.
  intros Hout. assert (s' = touch (now_of w2) s) as ->.
  { destruct (sm_redis sm); [destruct (update_session_redis _ _ _ _ w2) as [[[] | e] w3]; [| done] |];
      by injection Hout. }
  exists v, s, (now_of w2). split_and!; [done | done | lia | done | done |]. exists (now_of w1). by split.
Qed.
End valid.

Lemma starts_with_both p q s :
  starts_with p s = true -> starts_with q s = true -> starts_with p q = true \/ starts_with q p = true.
Proof.
  unfold starts_with. revert q s. induction p as [| c p IH]; intros [| d q] [| e s]; simpl; auto; try done.
  destruct (Ascii.eqb_spec c e) as [-> |], (Ascii.eqb_spec d e) as [-> |]; try done.
  rewrite Ascii.eqb_refl. apply IH.
Qed.

Lemma protected_not_skipped path : requires_authentication path = true -> should_skip_session_check path = false.
Proof.
  intros (p & Hp & Hsp)%existsb_exists. apply existsb_false_iff. intros q Hq%list_elem_of_In.
  destruct (starts_with q path) eqn:E; [| done]. exfalso.
  assert (forall p q, In p ["/api/v1/tips"; "/api/v1/creators"; "/api/v1/withdrawals"; "/api/v1/profile"; "/api/v1/admin"] ->
    In q ["/health"; "/metrics"; "/api/v1/auth/login"; "/api/v1/auth/register"; "/api/v1/auth/refresh";
          "/docs"; "/swagger-ui"; "/openapi.json"] -> starts_with p q = false /\ starts_with q p = false) as Hd.
  { clear. intros p q Hp Hq. simpl in Hp, Hq. intuition (subst; done). }
  destruct (Hd p q Hp Hq). destruct (starts_with_both p q path Hsp E); congruence.
Qed.

(** ** Theorems *)

(** A protected path is served only with a live session: the request names a
    session that is stored, has not expired and is not idle when it is checked,
    and the handler sees it with its last access brought up to date.  So with
    any faults of Redis, any delays, and without Redis, where nobody gets
    through. *)
Theorem session_guard {St} `{RedisLaws RValue St} to_json from_json json_message redis_message fuel sm next req
    (w w' : SessionWorld (St := St)) answer :
  (forall m n : nat, (m <= n)%nat -> ss_clock w m <= ss_clock w n) ->
  requires_authentication (sq_path req) = true ->
  session_middleware to_json from_json json_message redis_message fuel sm next req w = (Some (Ok answer), w') ->
  exists id v s t t0 w1 r,
    extract_session_id (sq_headers req) = Some id /\
    r_get (now_of w / 10 ^ 6) (session_key id) (ss_redis w) = Some (RStr v) /\ from_json v = Some s /\
    now_of w <= t0 <= t /\ is_idle_expired t0 (idle_timeout sm) s = false /\ is_expired t s = false /\
    next {| sq_path := sq_path req; sq_headers := sq_headers req; sq_session := Some (touch t s) |} w1 = (r, w') /\
    answer = update_session_cookie id r.
Proof.
  intros Hm Hp. unfold session_middleware. rewrite (protected_not_skipped _ Hp), Hp.
  destruct (extract_session_id (sq_headers req)) as [id |]; [| done].
  destruct (validate_session _ _ _ _ fuel sm id w) as [[[s' |] | [e |]] w1] eqn:Hv; try done.
  destruct (validate_session_ok _ _ _ _ _ _ _ _ _ _ Hm Hv) as (v & s & t & Hg & Hj & Ht & He & -> & t0 & Ht0 & Hi).
  destruct (next _ w1) as [r w2] eqn:Hn. intros [= <- <-].
  exists id, v, s, t, t0, w1, r. rewrite Hn. split_and!; done || lia.
Qed.

(** A request with a session that has expired, but whose key in Redis lives on
    (using a session renews its key and not its expiry), is not answered while
    the key lives: reading the session deletes it, and deleting it reads it
    first.  If the key lives through the next [n] calls to Redis, the
    middleware makes [2 n + 1] calls, nested [n] deep, before it answers 401.
    The fuel is the depth. *)
Theorem expired_session_recursion {St} `{RedisLaws RValue St} to_json from_json json_message redis_message fuel sm
    next req id v s deadline n (w : SessionWorld (St := St)) :
  sm_redis sm = true -> should_skip_session_check (sq_path req) = false ->
  extract_session_id (sq_headers req) = Some id ->
  from_json v = Some s -> lingers id v s deadline w ->
  (forall k, (k < n)%nat -> ss_clock w (ss_calls w + k)%nat / 10 ^ 6 < deadline) ->
  deadline <= ss_clock w (ss_calls w + n)%nat / 10 ^ 6 ->
  let '(answer, w') := session_middleware to_json from_json json_message redis_message fuel sm next req w in
  if (n <? fuel)%nat then
    answer = Some (Err (401, "Session not found or expired")) /\ ss_calls w' = (ss_calls w + 2 * n + 1)%nat
  else answer = None.
Proof.
  intros Hr Hskip Hid Hj Hl Ha Hd. unfold session_middleware. rewrite Hskip, Hid. unfold validate_session.
  pose proof (get_session_expired from_json json_message redis_message sm id v s deadline fuel n w Hr Hj Hl Ha Hd) as Hg.
  bind_step. destruct (get_session _ _ _ fuel sm id w) as [r w1]. destruct (n <? fuel)%nat.
  - destruct Hg as (-> & Hc & _). by split.
  - by subst r.
Qed.

(** The write that brings the last access up to date stores the session whatever
    happened since it was read: after a logout that came in between, the
    session is back. *)
Lemma logout_undone {St} `{RedisLaws RValue St} to_json redis_message sm s (w : SessionWorld (St := St)) :
  ss_faults w = [] -> r_get (now_of w / 10 ^ 6) (session_key (sd_session_id s)) (ss_redis w) = None ->
  0 < session_ttl_seconds (sm_config sm) ->
  now_of w / 10 ^ 6 + session_ttl_seconds (sm_config sm) * 1000 <= i64_max ->
  let '(r, w') := update_session_redis to_json redis_message sm (touch (now_of w) s) w in
  r = Ok tt /\
  r_get (now_of w / 10 ^ 6) (session_key (sd_session_id s)) (ss_redis w') = Some (RStr (to_json (touch (now_of w) s))).
Proof.
  intros Hf _ Httl Hmax. unfold update_session_redis.
  rewrite (session_redis_calm _ _ tt
    (r_set_px (now_of w / 10 ^ 6) (session_key (sd_session_id s)) (RStr (to_json (touch (now_of w) s)))
       (session_ttl_seconds (sm_config sm) * 1000) (ss_redis w)) w Hf).
  - split; [done |]. cbn -[Z.div Z.mul]. by rewrite r_get_set_same by lia.
  - unfold setex. destruct (Z.ltb_spec 0 (session_ttl_seconds (sm_config sm))); [| lia].
    destruct (Z.leb_spec (now_of w / 10 ^ 6 + session_ttl_seconds (sm_config sm) * 1000) i64_max); [done | lia].
Qed.

(** ** A user who comes back after an hour, for the witnesses *)

Definition ann_session : SessionData :=
  with_expiry (sec_ns 3600) (session_data_new "abc" 0 "ann" None None None).

Definition used_at (t : Z) : SessionData := touch (sec_ns t) ann_session.

Definition demo_to_json (s : SessionData) : string :=
  if sd_last_accessed s =? 0 then "new" else if sd_last_accessed s =? sec_ns 1500 then "used" else "used again".
Definition demo_from_json (v : string) : option SessionData :=
  if String.eqb v "new" then Some ann_session
  else if String.eqb v "used" then Some (used_at 1500)
  else if String.eqb v "used again" then Some (used_at 3000) else None.

(** She logs in at 0 s, comes back after 25 minutes, after 50, and after 61; from
    then on a call takes a second. *)
Definition demo_clock (n : nat) : Z :=
  if (n <? 4)%nat then 0 else if (n <? 7)%nat then sec_ns 1500 else if (n <? 10)%nat then sec_ns 3000
  else sec_ns (3660 + (Z.of_nat n - 10)).

Definition demo_start : SessionWorld (St := redis_map RValue) :=
  {| ss_redis := ∅; ss_clock := demo_clock; ss_calls := 0; ss_uuids := 0; ss_faults := [] |}.

Definition demo_request : SessionRequest :=
  {| sq_path := "/api/v1/profile";
     sq_headers := fun h => if String.eqb h "cookie" then Some "theme=dark; session_id=abc" else None;
     sq_session := None |}.

Definition demo_next (req : SessionRequest) (w : SessionWorld (St := redis_map RValue)) :=
  ({| sr_status := 200; sr_headers := ∅; sr_body := default "" (sd_user_id <$> sq_session req) |}, w).

Definition demo_visit (fuel : nat) (w : SessionWorld (St := redis_map RValue)) :=
  session_middleware demo_to_json demo_from_json id "" fuel manager_with_redis demo_next demo_request w.

Definition demo_login : SessionWorld :=
  snd (create_session demo_to_json demo_from_json id "" elements (fun _ => "abc") 1 manager_with_redis
         "ann" None None None demo_start).

Definition demo_used : SessionWorld := snd (demo_visit 1 (snd (demo_visit 1 demo_login))).

Lemma demo_clock_monotone (m n : nat) : (m <= n)%nat -> demo_clock m <= demo_clock n.
Proof.
  intros Hle. unfold demo_clock, sec_ns.
  destruct (Nat.ltb_spec m 4), (Nat.ltb_spec m 7), (Nat.ltb_spec m 10),
    (Nat.ltb_spec n 4), (Nat.ltb_spec n 7), (Nat.ltb_spec n 10); lia.
Qed.

Lemma session_guard_witness :
  exists t id, is_expired t ann_session = false /\ extract_session_id (sq_headers demo_request) = Some id /\
    fst (demo_visit 1 demo_login) =
      Some (Ok (update_session_cookie id {| sr_status := 200; sr_headers := ∅; sr_body := "ann" |})).
Proof.
  assert (fst (demo_visit 1 demo_login) =
      Some (Ok (update_session_cookie "abc" {| sr_status := 200; sr_headers := ∅; sr_body := "ann" |}))) as Hans
    by (vm_compute; reflexivity).
  rewrite Hans. destruct (demo_visit 1 demo_login) as [a w'] eqn:E. simpl in Hans. subst a.
  destruct (session_guard demo_to_json demo_from_json id "" 1 manager_with_redis demo_next demo_request
    demo_login w' _ demo_clock_monotone eq_refl E) as (id & v & s & t & t0 & w1 & r & Hid & Hv & Hj & _ & _ & He & _).
  vm_compute in Hid. injection Hid as <-. vm_compute in Hv. injection Hv as <-. injection Hj as <-.
  exists t, "abc". by split_and!.
Defined.

Lemma expired_session_recursion_witness : fst (demo_visit 2940 demo_used) = None.
Proof.
  pose proof (expired_session_recursion demo_to_json demo_from_json id "" 2940 manager_with_redis demo_next demo_request
    "abc" "used again" (used_at 3000) 6600000 2940 demo_used) as H.
  assert (ss_redis demo_used !! session_key "abc" = Some (RStr "used again", Some 6600000)) as Hkey
    by (vm_compute; reflexivity).
  assert (lingers "abc" "used again" (used_at 3000) 6600000 demo_used) as Hl.
  { split_and!; [reflexivity | exact demo_clock_monotone | vm_compute; reflexivity |].
    intros t _. unfold r_get, redis_map_ops. rewrite Hkey. unfold alive. by destruct (t <? 6600000). }
  specialize (H eq_refl eq_refl eq_refl eq_refl Hl).
  assert (ss_calls demo_used = 10%nat) as Hcalls by (vm_compute; reflexivity).
  assert (ss_clock demo_used = demo_clock) as Hclock by reflexivity.
  rewrite Hcalls, Hclock in H.
  assert (forall k, demo_clock (10 + k) / 10 ^ 6 = 3660000 + Z.of_nat k * 1000) as Hk.
  { intros k. unfold demo_clock, sec_ns.
    destruct (Nat.ltb_spec (10 + k) 4), (Nat.ltb_spec (10 + k) 7), (Nat.ltb_spec (10 + k) 10); try lia.
    replace ((3660 + (Z.of_nat (10 + k) - 10)) * 10 ^ 9) with ((3660000 + Z.of_nat k * 1000) * 10 ^ 6) by lia.
    by rewrite Z.div_mul. }
  specialize (H ltac:(intros k Hlt; rewrite Hk; lia) ltac:(rewrite Hk; lia)).
  unfold demo_visit. destruct (session_middleware _ _ _ _ _ _ _ _ _) as [answer w']. exact H.
Defined.
