(* ===== verification/Pages.v ===== *)
(** * Pagination

    src/src/models/pagination.rs (signed keyset cursors and their pages), the
    paginated listing of src/src/controllers/tip_controller.rs, and
    src/src/pagination.rs with src/src/pagination/helpers.rs (the generic
    offset and cursor pagination).

    The listing is a [SELECT] on the table of tips: a filter, an order on
    [(created_at, id)] and a limit.  Here instants are in microseconds, the
    resolution of Postgres; uuids are compared as their canonical text, which
    is their order as bytes.  HMAC-SHA256, base64, the parser of uuids, chrono's
    range and Postgres's cast to [numeric] are parameters. *)

From S2P Require Import Prelude Text Errors TipPipeline.

(** ** models/pagination.rs *)

(** src/src/models/pagination.rs:13-13 DEFAULT_LIMIT *)
Definition DEFAULT_LIMIT : Z := 20.

(** src/src/models/pagination.rs:14-14 MAX_LIMIT *)
Definition MAX_LIMIT : Z := 100.

(** src/src/models/pagination.rs:15-15 DEFAULT_MAX_OFFSET *)
Definition DEFAULT_MAX_OFFSET : Z := 10000.

(** src/src/models/pagination.rs:20-25 default_max_offset *)
Definition default_max_offset (env : environment) : Z :=
  default DEFAULT_MAX_OFFSET (env "PAGINATION_MAX_OFFSET" ≫= parse_i64).

(** src/src/models/pagination.rs:26-30 cursor_secret *)
Definition cursor_secret (env : environment) : string :=
  match env "PAGINATION_CURSOR_SECRET" with
  | Some s => s
  | None => default "development-pagination-secret-change-me" (env "JWT_SECRET")
  end.

(** src/src/models/pagination.rs:33-52 PaginationParams *)
Record PaginationParams : Type := {
  pp_limit : Z;
  pp_cursor : option string;
  pp_after : option string;
  pp_before : option string;
  pp_page : option Z;
  pp_offset : option Z
}.

(** src/src/models/pagination.rs:54-65 PaginationParams::default *)
Definition pagination_params_default : PaginationParams :=
  {| pp_limit := DEFAULT_LIMIT; pp_cursor := None; pp_after := None; pp_before := None;
     pp_page := None; pp_offset := None |}.

(** src/src/models/pagination.rs:68-71 PaginationParams::validated *)
Definition validated (p : PaginationParams) : PaginationParams :=
  {| pp_limit := Z.max 1 (Z.min (pp_limit p) MAX_LIMIT); pp_cursor := pp_cursor p; pp_after := pp_after p;
     pp_before := pp_before p; pp_page := pp_page p; pp_offset := pp_offset p |}.

(** src/src/models/pagination.rs:97-100 CursorDirection *)
Inductive CursorDirection : Type := After | Before.

(** src/src/models/pagination.rs:72-78 PaginationParams::direction *)
Definition direction (p : PaginationParams) : CursorDirection :=
  match pp_before p with Some _ => Before | None => After end.

(** src/src/models/pagination.rs:79-84 PaginationParams::active_cursor *)
Definition active_cursor (p : PaginationParams) : option string :=
  match pp_before p with
  | Some c => Some c
  | None => match pp_after p with Some c => Some c | None => pp_cursor p end
  end.

(** src/src/models/pagination.rs:85-87 PaginationParams::uses_offset *)
Definition uses_offset (p : PaginationParams) : bool :=
  bool_decide (is_Some (pp_page p)) || bool_decide (is_Some (pp_offset p)).

(** src/src/models/pagination.rs:88-93 PaginationParams::offset; [clamp] panics
    ([None]) when its bounds are in the wrong order *)
Definition offset (env : environment) (p : PaginationParams) : option Z :=
  let requested :=
    match pp_offset p with
    | Some o => o
    | None => match pp_page p with
              | Some n => wrap_i64 ((Z.max n 1 - 1) * pp_limit p)
              | None => 0
              end
    end in
  let max := default_max_offset env in
  if max <? 0 then None else Some (Z.max 0 (Z.min requested max)).

(** src/src/models/pagination.rs:103-106 KeysetCursor *)
Record KeysetCursor : Type := {
  kc_created_at : Z;
  kc_id : string
}.

Section pages.
(** HMAC-SHA256 in hexadecimal, base64, uuids and the range of chrono's instants. *)
Variable hmac_hex : string -> string -> string.
Variable b64_encode : string -> string.
Variable b64_decode : string -> option string.
Variable parse_uuid : string -> option string.
Variable timestamp_micros : Z -> option Z.
Variable secret : string.

Definition pipe : ascii := "|"%char.

(** src/src/models/pagination.rs:113-120 KeysetCursor::encode *)
Definition encode_cursor (c : KeysetCursor) : string :=
  let payload := print_Z (kc_created_at c) +:+ String pipe (kc_id c) in
  let sig := hmac_hex secret payload in
  b64_encode (payload +:+ String pipe sig).

(** src/src/models/pagination.rs:122-150 KeysetCursor::decode *)
Definition decode_cursor (token : string) : AppResult KeysetCursor :=
  decoded ← ok_or (bad_request "Invalid cursor format") (b64_decode token);
  match split_on pipe decoded with
  | [p0; p1; p2] =>
      let payload := p0 +:+ String pipe p1 in
      if negb (String.eqb (hmac_hex secret payload) p2) then Err (bad_request "Invalid cursor signature")
      else
        micros ← ok_or (bad_request "Invalid cursor timestamp") (parse_i64 p0);
        id ← ok_or (bad_request "Invalid cursor id") (parse_uuid p1);
        created_at ← ok_or (bad_request "Invalid cursor timestamp") (timestamp_micros micros);
        Ok {| kc_created_at := created_at; kc_id := id |}
  | _ => Err (bad_request "Invalid cursor structure")
  end.

(** src/src/models/pagination.rs:154-159 PaginatedResponse *)
Record PaginatedResponse (T : Type) : Type := {
  items : list T;
  next_cursor : option string;
  prev_cursor : option string;
  has_more : bool
}.
Arguments items {T}.
Arguments next_cursor {T}.
Arguments prev_cursor {T}.
Arguments has_more {T}.

(** src/src/models/pagination.rs:162-179 PaginatedResponse::keyset *)
Definition keyset {T} (rows : list T) (limit : Z) (cursor_for : T -> KeysetCursor) : PaginatedResponse T :=
  let more := limit <? Z.of_nat (length rows) in
  let kept := if more then take (Z.to_nat limit) rows else rows in
  {| items := kept;
     next_cursor := (fun t => encode_cursor (cursor_for t)) <$> last kept;
     prev_cursor := (fun t => encode_cursor (cursor_for t)) <$> head kept;
     has_more := more |}.

(** src/src/models/pagination.rs:180-187 PaginatedResponse::map *)
Definition map_items {T U} (f : T -> U) (p : PaginatedResponse T) : PaginatedResponse U :=
  {| items := map f (items p); next_cursor := next_cursor p; prev_cursor := prev_cursor p;
     has_more := has_more p |}.

(** ** The paginated listing of controllers/tip_controller.rs *)

(** src/src/models/tip.rs:199-208 TipFilters *)
Record TipFilters : Type := {
  tf_min_amount : option string;
  tf_max_amount : option string;
  tf_from_date : option Z;
  tf_to_date : option Z
}.

(** src/src/models/tip.rs:212-219 TipSortParams *)
Record TipSortParams : Type := {
  ts_sort_by : string;
  ts_sort_order : string
}.

(** src/src/models/tip.rs:221-236 TipSortParams::default *)
Definition tip_sort_default : TipSortParams := {| ts_sort_by := "created_at"; ts_sort_order := "desc" |}.

(** src/src/models/tip.rs:239-251 TipSortParams::validated *)
Definition sort_validated (s : TipSortParams) : string * string :=
  (if String.eqb (ts_sort_by s) "amount" then "amount::numeric" else "created_at",
   if String.eqb (map_chars lower (ts_sort_order s)) "asc" then "ASC" else "DESC").

(** The cast [::numeric] and the order of its values. *)
Context {Num : Type}.
Variable numeric : string -> option Num.
Variable num_le : Num -> Num -> bool.

(** [a <= b] as numerics; [false] stands for the error of a cast, see [casts]. *)
Definition amount_le (a b : string) : bool :=
  match numeric a, numeric b with Some x, Some y => num_le x y | _, _ => false end.

(** src/src/controllers/tip_controller.rs:325-343 the conditions of the filters, on
    a row *)
Definition tip_condition (username : option string) (f : TipFilters) (t : Tip) : bool :=
  match username with Some u => String.eqb (tip_creator t) u | None => true end &&
  match tf_min_amount f with Some v => amount_le v (tip_amount t) | None => true end &&
  match tf_max_amount f with Some v => amount_le (tip_amount t) v | None => true end &&
  match tf_from_date f with Some d => d <=? tip_created_at t | None => true end &&
  match tf_to_date f with Some d => tip_created_at t <=? d | None => true end.

(** The bounds on the amount, and with one of them the amounts of the table, can
    be cast; otherwise the query is an error. *)
Definition casts (f : TipFilters) (tips : list Tip) : bool :=
  let bounds := option_list (tf_min_amount f) ++ option_list (tf_max_amount f) in
  forallb (fun a => bool_decide (is_Some (numeric a))) (bounds ++ (if bool_decide (bounds = []) then [] else map tip_amount tips)).

(** The order of the rows [(created_at, id)]. *)
Definition key_of (t : Tip) : KeysetCursor := {| kc_created_at := tip_created_at t; kc_id := tip_id t |}.

Definition key_lt (a b : KeysetCursor) : bool :=
  (kc_created_at a <? kc_created_at b) ||
  ((kc_created_at a =? kc_created_at b) && String.ltb (kc_id a) (kc_id b)).

Definition key_le (a b : KeysetCursor) : bool :=
  (kc_created_at a <? kc_created_at b) ||
  ((kc_created_at a =? kc_created_at b) && String.leb (kc_id a) (kc_id b)).

Definition newest_first (a b : Tip) : bool := key_le (key_of b) (key_of a).
Definition oldest_first (a b : Tip) : bool := key_le (key_of a) (key_of b).

(** src/src/controllers/tip_controller.rs:350-366 the side of the cursor *)
Definition cursor_condition (d : CursorDirection) (cursor : option KeysetCursor) (t : Tip) : bool :=
  match cursor with
  | None => true
  | Some c => match d with After => key_lt (key_of t) c | Before => key_lt c (key_of t) end
  end.

(** src/src/controllers/tip_controller.rs:374-425 the statement, its order, limit
    and offset, and the reversal of a page that was read backwards *)
Definition select_tips (env : environment) (params : PaginationParams) (username : option string)
    (f : TipFilters) (cursor : option KeysetCursor) (tips : list Tip) : option (list Tip) :=
  let rows := List.filter (fun t => tip_condition username f t && cursor_condition (direction params) cursor t) tips in
  let limit := Z.to_nat (pp_limit params + 1) in
  if uses_offset params then
    o ← offset env params;
    Some (take limit (drop (Z.to_nat o) (sort_by newest_first rows)))
  else
    Some (match direction params with
          | After => take limit (sort_by newest_first rows)
          | Before => rev (take limit (sort_by oldest_first rows))
          end).

(** The table, and the schedule of faults. *)
Record PageWorld : Type := {
  pg_tips : list Tip;
  pg_faults : list fault
}.

#[export] Instance page_world_networked : Networked PageWorld := {
  next_fault w := let '(f, l) := pop_fault (pg_faults w) in (f, {| pg_tips := pg_tips w; pg_faults := l |})
}.

(** A handler answers an error or panics. *)
Inductive page_error : Type :=
| Answered (e : AppError)
| Panicked.

(** sqlx's decoding of a row with these columns. *)
Variable from_row : list string -> bool.

(** src/src/controllers/tip_controller.rs:308-435 get_tips_paginated *)
Definition get_tips_paginated (env : environment) (username : option string) (params : PaginationParams)
    (filters : TipFilters) (_sort : TipSortParams) : M PageWorld page_error (PaginatedResponse Tip) :=
  let params := validated params in
  cursor ← match active_cursor params with
           | Some token => c ← map_err Answered (lift (decode_cursor token)); mret (Some c)
           | None => mret None
           end;
  tips ← remote (Answered (app_error_from_sqlx SqlxOther)) (fun w => (pg_tips w, w));
  if negb (casts filters tips) then throw (Answered (app_error_from_sqlx SqlxOther))
  else
    rows ← expect Panicked (select_tips env params username filters cursor tips);
    if bool_decide (rows = []) || from_row tip_columns then mret (keyset rows (pp_limit params) key_of)
    else throw (Answered (app_error_from_sqlx SqlxOther)).

(** src/src/routes/tips.rs:75-97 list_tips: the response and whether it carries
    the deprecation headers *)
Definition list_tips (env : environment) (params : PaginationParams) (filters : TipFilters)
    (sort : TipSortParams) : M PageWorld page_error (PaginatedResponse Tip * bool) :=
  result ← get_tips_paginated env None params filters sort;
  mret (result, uses_offset params).

End pages.

Arguments items {T}.
Arguments next_cursor {T}.
Arguments prev_cursor {T}.
Arguments has_more {T}.

(** ** The order of the rows *)

Lemma leb_trans a b c : String.leb a b = true -> String.leb b c = true -> String.leb a c = true.
Proof.
  intros Hab Hbc. apply Is_true_true. transitivity b; [by apply Is_true_true | by apply Is_true_true].
Qed.

Lemma ltb_leb a b : String.ltb a b = negb (String.leb b a).
Proof. unfold String.ltb, String.leb. rewrite String.compare_antisym. by destruct (String.compare b a). Qed.

Lemma key_le_total a b : key_le a b = false -> key_le b a = true.
Proof.
  unfold key_le. destruct (Z.ltb_spec (kc_created_at a) (kc_created_at b)), (Z.eqb_spec (kc_created_at a) (kc_created_at b)),
    (Z.ltb_spec (kc_created_at b) (kc_created_at a)), (Z.eqb_spec (kc_created_at b) (kc_created_at a)); simpl; try lia; try done.
  intros Hab. by destruct (String.leb_total (kc_id a) (kc_id b)) as [E | E]; rewrite E in *.
Qed.

Lemma key_le_trans a b c : key_le a b = true -> key_le b c = true -> key_le a c = true.
Proof.
  unfold key_le. intros [Hab | [Hab Hab']%andb_true_iff]%orb_true_iff [Hbc | [Hbc Hbc']%andb_true_iff]%orb_true_iff;
    apply orb_true_iff; zbool; try (left; apply Z.ltb_lt; lia).
  right. apply andb_true_iff. split; [apply Z.eqb_eq; lia | by eapply leb_trans].
Qed.

Lemma key_lt_le a b : key_lt a b = negb (key_le b a).
Proof.
  unfold key_lt, key_le. rewrite ltb_leb.
  destruct (Z.ltb_spec (kc_created_at a) (kc_created_at b)), (Z.eqb_spec (kc_created_at a) (kc_created_at b)),
    (Z.ltb_spec (kc_created_at b) (kc_created_at a)), (Z.eqb_spec (kc_created_at b) (kc_created_at a)); simpl; try lia; done.
Qed.

Lemma key_le_antisym a b : key_le a b = true -> key_le b a = true -> a = b.
Proof.
  unfold key_le. destruct a as [ta ia], b as [tb ib]. simpl.
  intros [Hab | [Hab Hab']%andb_true_iff]%orb_true_iff [Hba | [Hba Hba']%andb_true_iff]%orb_true_iff; zbool; try lia.
  f_equal; [done | by apply String.leb_antisym].
Qed.

Lemma newest_first_total a b : newest_first a b = false -> newest_first b a = true.
Proof. apply key_le_total. Qed.

Lemma newest_first_trans a b c : newest_first a b = true -> newest_first b c = true -> newest_first a c = true.
Proof. unfold newest_first. intros. by eapply key_le_trans. Qed.

(** The rows after one of a listing are those below its key. *)
Lemma after_cursor pre x suf :
  ordered newest_first (pre ++ x :: suf) -> NoDup (tip_id <$> (pre ++ x :: suf)) ->
  List.filter (cursor_condition After (Some (key_of x))) (pre ++ x :: suf) = suf.
Proof.
  intros Ho Hd.
  assert (forall l, (forall y, y ∈ l -> newest_first y x = true) -> List.filter (cursor_condition After (Some (key_of x))) l = []) as Hpre.
  { induction l as [| y l IH]; intros Hl; [done |]. simpl. rewrite key_lt_le.
    unfold newest_first in Hl. rewrite Hl by left. simpl. apply IH. intros z Hz. apply Hl. by right. }
  assert (forall l, (forall y, y ∈ l -> newest_first x y = true /\ tip_id y <> tip_id x) ->
            List.filter (cursor_condition After (Some (key_of x))) l = l) as Hsuf.
  { induction l as [| y l IH]; intros Hl; [done |]. simpl. rewrite key_lt_le.
    destruct (Hl y ltac:(left)) as [Hle Hne].
    destruct (key_le (key_of x) (key_of y)) eqn:E; simpl.
    - exfalso. apply Hne. pose proof (key_le_antisym _ _ E Hle) as Hk. by injection Hk.
    - rewrite IH; [done |]. intros z Hz. apply Hl. by right. }
  rewrite List.filter_app, Hpre.
  - simpl. rewrite key_lt_le.
    assert (key_le (key_of x) (key_of x) = true) as ->.
    { destruct (key_le (key_of x) (key_of x)) eqn:E; [done |]. pose proof (key_le_total _ _ E). congruence. }
    simpl. apply Hsuf. intros y Hy. split.
    + clear Hd. induction pre as [| z pre IH]; [by apply Ho | apply IH, Ho].
    + rewrite fmap_app, fmap_cons in Hd. apply NoDup_app in Hd as (_ & _ & Hd). apply NoDup_cons in Hd as [Hn _].
      intros E. apply Hn. rewrite <- E. apply list_elem_of_fmap. by exists y.
  - intros y Hy. clear Hd. induction pre as [| z pre IH]; [by apply elem_of_nil in Hy |].
    apply elem_of_cons in Hy as [-> | Hy]; [| by apply IH; [apply Ho |]].
    apply Ho. apply elem_of_app. right. left.
Qed.

(** ** Cursors *)

Section cursors.
Variable hmac_hex : string -> string -> string.
Variable b64_encode : string -> string.
Variable b64_decode : string -> option string.
Variable parse_uuid : string -> option string.
Variable timestamp_micros : Z -> option Z.
Variable secret : string.
Hypothesis b64_law : forall s, b64_decode (b64_encode s) = Some s.
Hypothesis hmac_is_hex : forall k m, all_chars is_hexdigit (hmac_hex k m) = true.

(** A cursor of a row: an instant after 1970 that chrono can represent, and the
    canonical text of a uuid. *)
Definition cursor_ok (c : KeysetCursor) : Prop :=
  0 <= kc_created_at c <= i64_max /\ timestamp_micros (kc_created_at c) = Some (kc_created_at c) /\
  parse_uuid (kc_id c) = Some (kc_id c) /\ lacks pipe (kc_id c) = true.

Lemma lacks_pipe_hex v : all_chars is_hexdigit v = true -> lacks pipe v = true.
Proof. apply all_chars_impl. intros [[] [] [] [] [] [] [] []]; vm_compute; done. Qed.

Lemma lacks_pipe_digits v : all_chars is_digit v = true -> lacks pipe v = true.
Proof. apply all_chars_impl. intros [[] [] [] [] [] [] [] []]; vm_compute; done. Qed.

Lemma decode_encode c :
  cursor_ok c ->
  decode_cursor hmac_hex b64_decode parse_uuid timestamp_micros secret
    (encode_cursor hmac_hex b64_encode secret c) = Ok c.
Proof.
  intros (Hr & Ht & Hu & Hl). unfold decode_cursor, encode_cursor. rewrite b64_law. simpl.
  destruct (print_Z_spec (kc_created_at c) ltac:(lia)) as (_ & Hd & _).
  set (p0 := print_Z (kc_created_at c)) in *.
  rewrite string_app_assoc, string_app_cons, split_on_app, split_on_app.
  rewrite !split_on_lacks by (done || (by apply lacks_pipe_digits) || apply lacks_pipe_hex, hmac_is_hex). simpl.
  rewrite String.eqb_refl. simpl. unfold p0. rewrite parse_i64_print by lia. simpl. rewrite Hu. simpl.
  rewrite Ht. simpl. by destruct c.
Qed.
End cursors.

Lemma nodup_part {A B} (f : A -> B) l1 l2 : l1 ⊆+ l2 -> NoDup (f <$> l2) -> NoDup (f <$> l1).
Proof. intros [k ->]%submseteq_Permutation. rewrite fmap_app. by intros [? _]%NoDup_app. Qed.

Lemma filter_part {A} (p : A -> bool) l : List.filter p l ⊆+ l.
Proof.
  induction l as [| t l IH]; simpl; [done |]. destruct (p t); [by apply submseteq_skip | by apply submseteq_cons].
Qed.

(** Following [next_cursor] from the page at [token]: a client that shows every
    page. *)
Section walking.
Context {Num : Type}.
Variable hmac_hex : string -> string -> string.
Variable b64_encode : string -> string.
Variable b64_decode : string -> option string.
Variable parse_uuid : string -> option string.
Variable timestamp_micros : Z -> option Z.
Variable secret : string.
Variable numeric : string -> option Num.
Variable num_le : Num -> Num -> bool.
Variable from_row : list string -> bool.
Variable env : environment.
Variable username : option string.
Variable filters : TipFilters.
Variable limit : Z.

Definition after_params (token : option string) : PaginationParams :=
  {| pp_limit := limit; pp_cursor := None; pp_after := token; pp_before := None; pp_page := None; pp_offset := None |}.

Definition before_params (token : string) : PaginationParams :=
  {| pp_limit := limit; pp_cursor := None; pp_after := None; pp_before := Some token; pp_page := None;
     pp_offset := None |}.

Definition fetch (params : PaginationParams) (tips : list Tip) : result (PaginatedResponse Tip) page_error :=
  fst (get_tips_paginated hmac_hex b64_encode b64_decode parse_uuid timestamp_micros secret numeric num_le
         from_row env username params filters tip_sort_default {| pg_tips := tips; pg_faults := [] |}).

Fixpoint walk (fuel : nat) (token : option string) (tips : list Tip) : list Tip :=
  match fuel with
  | O => []
  | S fuel' =>
      match fetch (after_params token) tips with
      | Ok page => items page ++ (if has_more page then walk fuel' (next_cursor page) tips else [])
      | Err _ => []
      end
  end.

(** What the client asks for, newest first. *)
Definition listing (tips : list Tip) : list Tip :=
  sort_by newest_first (List.filter (tip_condition numeric num_le username filters) tips).

(** The rows newer than [c], the one next to it first. *)
Definition newer (c : KeysetCursor) (tips : list Tip) : list Tip :=
  sort_by oldest_first (List.filter (fun t => tip_condition numeric num_le username filters t && key_lt c (key_of t)) tips).

Definition page_limit : nat := Z.to_nat (Z.max 1 (Z.min limit MAX_LIMIT)).

Definition token_of (x : option Tip) : option string :=
  (fun t => encode_cursor hmac_hex b64_encode secret (key_of t)) <$> x.

Hypothesis b64_law : forall s, b64_decode (b64_encode s) = Some s.
Hypothesis hmac_is_hex : forall k m, all_chars is_hexdigit (hmac_hex k m) = true.

(** A row with these columns is a [Tip].  It is not so for sqlx, as a [Tip] has a
    message ([listing_shows_no_tip] below): what follows tells what the cursors do
    for a row type that reads the columns the statement selects. *)
Hypothesis decodes : from_row tip_columns = true.

Lemma filter_and {A} (p q : A -> bool) l : List.filter (fun x => p x && q x) l = List.filter q (List.filter p l).
Proof. induction l as [| x l IH]; simpl; [done |]. destruct (p x); simpl; [by destruct (q x); rewrite IH | done]. Qed.

(** A page read from [rows], in the order of the statement. *)
Lemma keyset_page {T} (rows : list T) cursor_for :
  keyset hmac_hex b64_encode secret (take (S page_limit) rows) (Z.max 1 (Z.min limit MAX_LIMIT)) cursor_for =
  {| items := take page_limit rows;
     next_cursor := (fun t => encode_cursor hmac_hex b64_encode secret (cursor_for t)) <$> last (take page_limit rows);
     prev_cursor := (fun t => encode_cursor hmac_hex b64_encode secret (cursor_for t)) <$> head (take page_limit rows);
     has_more := (page_limit <? length rows)%nat |}.
Proof.
  unfold keyset. fold page_limit.
  assert ((Z.max 1 (Z.min limit MAX_LIMIT) <? Z.of_nat (length (take (S page_limit) rows))) = (page_limit <? length rows)%nat) as ->.
  { rewrite length_take. unfold page_limit.
    destruct (Z.ltb_spec (Z.max 1 (Z.min limit MAX_LIMIT))
                (Z.of_nat (Nat.min (S (Z.to_nat (Z.max 1 (Z.min limit MAX_LIMIT)))) (length rows)))),
      (Nat.ltb_spec (Z.to_nat (Z.max 1 (Z.min limit MAX_LIMIT))) (length rows)); lia. }
  assert ((if (page_limit <? length rows)%nat then take page_limit (take (S page_limit) rows)
           else take (S page_limit) rows) = take page_limit rows) as ->; [| done].
  destruct (Nat.ltb_spec page_limit (length rows)); [rewrite take_take; f_equal; lia | by rewrite !take_ge by lia].
Qed.

Lemma fetch_after pre suf tips :
  casts numeric filters tips = true -> NoDup (tip_id <$> tips) ->
  Forall (fun t => cursor_ok parse_uuid timestamp_micros (key_of t)) tips -> listing tips = pre ++ suf ->
  fetch (after_params (token_of (last pre))) tips =
    Ok {| items := take page_limit suf; next_cursor := token_of (last (take page_limit suf));
          prev_cursor := token_of (head (take page_limit suf)); has_more := (page_limit <? length suf)%nat |}.
Proof.
  intros Hcast Hd Hok Hl.
  assert (listing tips ⊆+ tips) as Hsub by (unfold listing; rewrite sort_by_perm; apply filter_part).
  assert (exists cursor, active_cursor (validated (after_params (token_of (last pre)))) = token_of (last pre) /\
    (match token_of (last pre) with
     | Some token => exists c, decode_cursor hmac_hex b64_decode parse_uuid timestamp_micros secret token = Ok c /\ cursor = Some c
     | None => cursor = None end) /\
    List.filter (cursor_condition After cursor) (listing tips) = suf) as (cursor & Ha & Hc & Hf).
  { destruct (last pre) as [x |] eqn:E; simpl.
    - apply last_Some in E as [pre' ->]. rewrite <- app_assoc in Hl. simpl in Hl.
      exists (Some (key_of x)). split_and!; [done | |].
      + exists (key_of x). split; [| done]. apply decode_encode; [done | done |].
        rewrite Forall_forall in Hok. apply Hok. apply (elem_of_submseteq (listing tips) tips x); [rewrite Hl; set_solver | done].
      + rewrite Hl. apply after_cursor.
        * rewrite <- Hl. apply sort_by_ordered; [apply newest_first_total | apply newest_first_trans].
        * rewrite <- Hl. by eapply nodup_part.
    - apply last_None in E as ->. exists None. split_and!; [done | done |]. rewrite Hl. simpl.
      clear. induction suf as [| t l IH]; simpl; [done | by rewrite IH]. }
  unfold fetch, get_tips_paginated. rewrite Ha.
  assert (forall w, (match token_of (last pre) with
           | Some token => c ← map_err Answered (lift (decode_cursor hmac_hex b64_decode parse_uuid timestamp_micros secret token)); mret (Some c)
           | None => mret None
           end : M PageWorld page_error (option KeysetCursor)) w = (Ok cursor, w)) as Hrun.
  { intros w. destruct (token_of (last pre)) as [token |]; [| by subst cursor].
    destruct Hc as (c & Hdec & ->). bind_step. unfold map_err, lift. by rewrite Hdec. }
  rewrite (bind_run _ _ cursor _ _ (Hrun _)). bind_step. simpl. rewrite Hcast. simpl.
  unfold select_tips. simpl. rewrite filter_and.
  change (direction (validated (after_params (token_of (last pre))))) with After.
  rewrite sort_by_filter by (apply newest_first_total || apply newest_first_trans). fold (listing tips). rewrite Hf.
  bind_step. simpl. rewrite decodes, orb_true_r. simpl.
  replace (Z.to_nat (Z.max 1 (Z.min limit MAX_LIMIT) + 1)) with (S page_limit) by (unfold page_limit; lia).
  rewrite keyset_page. unfold token_of. by destruct (last (take page_limit suf)), (head (take page_limit suf)).
Qed.

Lemma walk_after fuel pre suf tips :
  casts numeric filters tips = true -> NoDup (tip_id <$> tips) ->
  Forall (fun t => cursor_ok parse_uuid timestamp_micros (key_of t)) tips -> listing tips = pre ++ suf ->
  (length suf < fuel)%nat -> walk fuel (token_of (last pre)) tips = suf.
Proof.
  intros Hcast Hd Hok. revert pre suf. induction fuel as [| fuel IH]; intros pre suf Hl Hfuel; [lia |].
  cbn [walk]. rewrite (fetch_after pre suf tips) by done. simpl.
  assert (0 < page_limit)%nat as Hpos by (unfold page_limit, MAX_LIMIT; lia).
  destruct (Nat.ltb_spec page_limit (length suf)); [| by rewrite take_ge, app_nil_r by lia].
  assert (last (take page_limit suf) = last (pre ++ take page_limit suf)) as Hlast.
  { rewrite last_app. destruct (last (take page_limit suf)) eqn:E; [done |]. apply last_None in E.
    apply (f_equal length) in E. rewrite length_take in E. simpl in E. lia. }
  rewrite Hlast, (IH _ (drop page_limit suf)).
  - apply take_drop.
  - by rewrite <- app_assoc, take_drop.
  - rewrite length_drop. lia.
Qed.

Lemma fetch_before c tips :
  casts numeric filters tips = true -> cursor_ok parse_uuid timestamp_micros c ->
  fetch (before_params (encode_cursor hmac_hex b64_encode secret c)) tips =
    Ok (keyset hmac_hex b64_encode secret (rev (take (S page_limit) (newer c tips)))
          (Z.max 1 (Z.min limit MAX_LIMIT)) key_of).
Proof.
  intros Hcast Hok. unfold fetch, get_tips_paginated. cbn [active_cursor validated before_params pp_before].
  pose proof (decode_encode hmac_hex b64_encode b64_decode parse_uuid timestamp_micros secret b64_law hmac_is_hex c Hok) as Hdec.
  rewrite (bind_run _ _ (Some c) _ {| pg_tips := tips; pg_faults := [] |})
    by (bind_step; unfold map_err, lift; by rewrite Hdec).
  bind_step. simpl. rewrite Hcast. simpl.
  unfold select_tips. simpl. bind_step. simpl. rewrite decodes, orb_true_r. simpl.
  by replace (Z.to_nat (Z.max 1 (Z.min limit MAX_LIMIT) + 1)) with (S page_limit) by (unfold page_limit; lia).
Qed.
End walking.

(** ** Theorems *)

(** C22: The cursor of a row decodes to itself, and only what the server signed
    decodes: a token that is accepted carries the HMAC of its payload under
    the server's secret. *)
Theorem keyset_cursor_signed hmac_hex b64_encode b64_decode parse_uuid timestamp_micros secret c :
  (forall s, b64_decode (b64_encode s) = Some s) ->
  (forall k m, all_chars is_hexdigit (hmac_hex k m) = true) ->
  cursor_ok parse_uuid timestamp_micros c ->
  let decode := decode_cursor hmac_hex b64_decode parse_uuid timestamp_micros secret in
  decode (encode_cursor hmac_hex b64_encode secret c) = Ok c /\
  forall token c', decode token = Ok c' ->
    exists p0 p1 micros, let payload := p0 +:+ String pipe p1 in
      b64_decode token = Some (payload +:+ String pipe (hmac_hex secret payload)) /\
      parse_i64 p0 = Some micros /\ timestamp_micros micros = Some (kc_created_at c') /\
      parse_uuid p1 = Some (kc_id c').
Proof.
  intros Hb Hh Hc decode. split; [by apply decode_encode |]. intros token c'. unfold decode, decode_cursor.
  destruct (b64_decode token) as [decoded |]; [| done]. simpl.
  pose proof (join_split_on pipe decoded) as Hj.
  destruct (split_on pipe decoded) as [| p0 [| p1 [| p2 [| p3 ps]]]]; try done.
  destruct (String.eqb_spec (hmac_hex secret (p0 +:+ String pipe p1)) p2) as [<- |]; [| done]. simpl.
  destruct (parse_i64 p0) as [micros |] eqn:Hm; [| done]. simpl.
  destruct (parse_uuid p1) as [id |] eqn:Hu; [| done]. simpl.
  destruct (timestamp_micros micros) as [t |] eqn:Ht; [| done]. simpl. intros [= <-].
  exists p0, p1, micros. split_and!; [| done | done | done].
  f_equal. rewrite <- Hj. cbn [join]. by rewrite string_app_assoc.
Qed.

(** With the row type the repository has, no page of the listing shows a tip: the
    [SELECT] leaves out the message, which sqlx asks for as soon as there is a
    row.  What is answered is the empty page. *)
Theorem listing_shows_no_tip {Num} hmac_hex b64_encode b64_decode parse_uuid timestamp_micros secret
    (numeric : string -> option Num) num_le from_row env username params filters sort w page w' :
  (forall columns, from_row columns = true -> "message" ∈ columns) ->
  get_tips_paginated hmac_hex b64_encode b64_decode parse_uuid timestamp_micros secret numeric num_le from_row
    env username params filters sort w = (Ok page, w') ->
  items page = [] /\ next_cursor page = None /\ has_more page = false.
Proof.
  intros Hrow H. unfold get_tips_paginated in H.
  apply bind_answers in H as (cursor & w1 & _ & H). apply bind_answers in H as (tips & w2 & _ & H).
  destruct (casts numeric filters tips); [| done]. cbn [negb] in H.
  apply bind_answers in H as (rows & w3 & _ & H).
  assert (from_row tip_columns = false) as Hf.
  { apply not_true_is_false. intros Hin%Hrow. unfold tip_columns in Hin. set_solver. }
  rewrite Hf, orb_false_r in H. case_bool_decide as Hr; [| done]. subst rows. injection H as <- <-.
  unfold keyset. replace (_ <? _) with false by (symmetry; apply Z.ltb_ge; simpl; lia). done.
Qed.

(** Where rows decode, a client that follows [next_cursor] to the end sees every
    tip that matches the filters exactly once, newest first, whatever the page
    size it asks for; it needs no more pages than there are tips, and one. *)
Theorem pages_cover {Num} hmac_hex b64_encode b64_decode parse_uuid timestamp_micros secret
    (numeric : string -> option Num) num_le from_row env username filters limit tips fuel :
  from_row tip_columns = true ->
  (forall s, b64_decode (b64_encode s) = Some s) ->
  (forall k m, all_chars is_hexdigit (hmac_hex k m) = true) ->
  casts numeric filters tips = true -> NoDup (tip_id <$> tips) ->
  Forall (fun t => cursor_ok parse_uuid timestamp_micros (key_of t)) tips ->
  (length (List.filter (tip_condition numeric num_le username filters) tips) < fuel)%nat ->
  let seen := walk hmac_hex b64_encode b64_decode parse_uuid timestamp_micros secret numeric num_le from_row env
                username filters limit fuel None tips in
  seen ≡ₚ List.filter (tip_condition numeric num_le username filters) tips /\ ordered newest_first seen.
Proof.
  intros Hrow Hb Hh Hcast Hd Hok Hfuel seen.
  assert (seen = listing numeric num_le username filters tips) as ->.
  { apply (walk_after hmac_hex b64_encode b64_decode parse_uuid timestamp_micros secret numeric num_le from_row env username
             filters limit Hb Hh Hrow fuel [] (listing numeric num_le username filters tips)); try done.
    unfold listing. by rewrite sort_by_perm. }
  split; [apply sort_by_perm | apply sort_by_ordered; [apply newest_first_total | apply newest_first_trans]].
Qed.

(** The page before a cursor, when more than a page of tips are newer than
    it, leaves out the tip next to the cursor: the extra row that tells whether
    there is more is the one farthest from the cursor, but the response drops
    the nearest one.  (As above, for rows that decode.) *)
Theorem previous_page_skips {Num} hmac_hex b64_encode b64_decode parse_uuid timestamp_micros secret
    (numeric : string -> option Num) num_le from_row env username filters limit tips c :
  from_row tip_columns = true ->
  (forall s, b64_decode (b64_encode s) = Some s) ->
  (forall k m, all_chars is_hexdigit (hmac_hex k m) = true) ->
  casts numeric filters tips = true -> NoDup (tip_id <$> tips) -> cursor_ok parse_uuid timestamp_micros c ->
  let above := newer numeric num_le username filters c tips in
  match fetch hmac_hex b64_encode b64_decode parse_uuid timestamp_micros secret numeric num_le from_row env
          username filters (before_params limit (encode_cursor hmac_hex b64_encode secret c)) tips with
  | Ok page =>
      if (page_limit limit <? length above)%nat
      then items page = rev (take (page_limit limit) (drop 1 above)) /\ has_more page = true /\
        (forall t, head above = Some t -> t ∉ items page)
      else items page = rev above /\ has_more page = false
  | Err _ => False
  end.
Proof.
  intros Hrow Hb Hh Hcast Hd Hc above.
  assert (NoDup above) as Hnd.
  { apply (NoDup_fmap_1 tip_id). eapply nodup_part, Hd. unfold above, newer. rewrite sort_by_perm.
    apply filter_part. }
  rewrite (fetch_before hmac_hex b64_encode b64_decode parse_uuid timestamp_micros secret numeric num_le from_row env username
             filters limit Hb Hh Hrow c tips Hcast Hc). fold above.
  unfold keyset. simpl. rewrite length_rev, length_take.
  assert (Z.to_nat (Z.max 1 (Z.min limit MAX_LIMIT)) = page_limit limit) as -> by done.
  assert (Z.of_nat (page_limit limit) = Z.max 1 (Z.min limit MAX_LIMIT)) as Hl by (unfold page_limit; lia).
  destruct (Nat.ltb_spec (page_limit limit) (length above)).
  - destruct (Z.ltb_spec (Z.max 1 (Z.min limit MAX_LIMIT)) (Z.of_nat (Nat.min (S (page_limit limit)) (length above)))); [| lia].
    assert (take (page_limit limit) (rev (take (S (page_limit limit)) above)) =
            rev (take (page_limit limit) (drop 1 above))) as ->.
    { rewrite firstn_rev, length_take.
      replace (Nat.min (S (page_limit limit)) (length above) - page_limit limit)%nat with 1%nat by lia.
      by rewrite take_drop_commute. }
    split_and!; [done | done |]. destruct above as [| t0 above']; [done |]. simpl. intros t [= <-] Ht.
    apply NoDup_cons in Hnd as [Hn _]. apply Hn. apply list_elem_of_In, in_rev, list_elem_of_In in Ht.
    apply elem_of_take in Ht as (i & Ht & _). by eapply list_elem_of_lookup_2.
  - destruct (Z.ltb_spec (Z.max 1 (Z.min limit MAX_LIMIT)) (Z.of_nat (Nat.min (S (page_limit limit)) (length above)))); [lia |].
    by rewrite take_ge by lia.
Qed.

(** ** Four tips, for the witnesses *)

Definition demo_tip (id : string) (created_at : Z) : Tip :=
  {| tip_id := id; tip_creator := "ann"; tip_amount := "1"; tip_hash := id; tip_message := None;
     tip_message_visibility := None; tip_created_at := created_at; tip_status := Some StatusConfirmed;
     tip_source := None |}.

Definition demo_tips : list Tip := [demo_tip "b" 20; demo_tip "d" 30; demo_tip "a" 10; demo_tip "c" 20].
Definition demo_hmac (k m : string) : string := print_Z (Z.of_nat (String.length k + String.length m)).
Definition no_filters : TipFilters :=
  {| tf_min_amount := None; tf_max_amount := None; tf_from_date := None; tf_to_date := None |}.
Definition no_env : environment := fun _ => None.

(** A row type that any columns make. *)
Definition any_row (_ : list string) : bool := true.

(** What sqlx does: one that needs the message. *)
Definition message_row (columns : list string) : bool := bool_decide ("message" ∈ columns).

Lemma demo_hmac_hex k m : all_chars is_hexdigit (demo_hmac k m) = true.
Proof.
  destruct (print_Z_spec (Z.of_nat (String.length k + String.length m)) ltac:(lia)) as (_ & Hd & _).
  eapply all_chars_impl, Hd. unfold is_hexdigit. intros c ->. done.
Qed.

Lemma demo_cursors_ok : Forall (fun t => cursor_ok Some Some (key_of t)) demo_tips.
Proof. repeat constructor; vm_compute; done. Qed.

Lemma keyset_cursor_signed_witness :
  decode_cursor demo_hmac Some Some Some "key" (encode_cursor demo_hmac id "key" (key_of (demo_tip "d" 30)))
    = Ok (key_of (demo_tip "d" 30)).
Proof.
  destruct (keyset_cursor_signed demo_hmac id Some Some Some "key" (key_of (demo_tip "d" 30))) as [H _];
    [done | apply demo_hmac_hex | repeat constructor; vm_compute; done | exact H].
Defined.

Definition demo_walk : list Tip :=
  walk demo_hmac id Some Some Some "key" parse_i64 Z.leb any_row no_env None no_filters 2 5 None demo_tips.

Lemma pages_cover_witness :
  demo_walk = [demo_tip "d" 30; demo_tip "c" 20; demo_tip "b" 20; demo_tip "a" 10] /\ demo_walk ≡ₚ demo_tips.
Proof.
  split; [vm_compute; reflexivity |].
  assert (NoDup (tip_id <$> demo_tips)) as Hd by (apply (bool_decide_unpack _); vm_compute; exact I).
  assert (length (List.filter (tip_condition parse_i64 Z.leb None no_filters) demo_tips) < 5)%nat as Hfuel
    by (vm_compute; lia).
  destruct (pages_cover demo_hmac id Some Some Some "key" parse_i64 Z.leb any_row no_env None no_filters 2 demo_tips 5
              eq_refl (fun _ => eq_refl) demo_hmac_hex eq_refl Hd demo_cursors_ok Hfuel) as [Hseen _].
  exact Hseen.
Defined.

(** Going back from the oldest tip, one tip a page, skips [b]. *)
Lemma previous_page_skips_witness :
  exists page, fetch demo_hmac id Some Some Some "key" parse_i64 Z.leb any_row no_env None no_filters
    (before_params 1 (encode_cursor demo_hmac id "key" (key_of (demo_tip "a" 10)))) demo_tips = Ok page /\
  items page = [demo_tip "c" 20] /\ demo_tip "b" 20 ∉ items page.
Proof.
  pose proof (previous_page_skips demo_hmac id Some Some Some "key" parse_i64 Z.leb any_row no_env None no_filters 1 demo_tips
    (key_of (demo_tip "a" 10)) eq_refl (fun _ => eq_refl) demo_hmac_hex eq_refl
    ltac:(apply (bool_decide_unpack _); vm_compute; exact I) ltac:(repeat constructor; vm_compute; done)) as H.
  destruct (fetch _ _ _ _ _ _ _ _ _ _ _ _ _ _) as [page |]; [| done]. exists page. split; [done |].
  destruct H as (H1 & _ & H2). split; [exact H1 | apply H2; reflexivity].
Defined.

(** With it the listing of the four tips is an error, and that of none is a page. *)
Example listing_of_four :
  match fetch demo_hmac id Some Some Some "key" parse_i64 Z.leb message_row no_env None no_filters (after_params 2 None) demo_tips with
  | Err (Answered _) => True
  | _ => False
  end /\
  is_ok (fetch demo_hmac id Some Some Some "key" parse_i64 Z.leb message_row no_env None no_filters (after_params 2 None) []) = true.
Proof. split; vm_compute; [exact I | reflexivity]. Qed.
