(* ===== verification/OffsetPages.v ===== *)
(** * The generic pagination

    src/src/pagination.rs and src/src/pagination/helpers.rs: offset and cursor
    pagination over any list of items, with metadata, links and the text of
    the queries.  [usize] is 64 bits and wraps around; base64, the parser of
    uuids and chrono's range are parameters, an instant is in seconds where
    the cursor carries seconds.  A division by zero panics: [None]. *)

From S2P Require Import Prelude Text Errors.

(** ** pagination.rs *)

(** src/src/pagination.rs:42-47 PaginationType *)
Inductive PaginationType : Type := TypeOffset | TypeCursor.

(** src/src/pagination.rs:17-26 PaginationConfig *)
Record PaginationConfig : Type := {
  default_page_size : Z;
  max_page_size : Z;
  default_pagination_type : PaginationType;
  include_total_count : bool
}.

(** src/src/pagination.rs:28-37 PaginationConfig::default *)
Definition pagination_config_default : PaginationConfig :=
  {| default_page_size := 20; max_page_size := 100; default_pagination_type := TypeOffset;
     include_total_count := true |}.

(** src/src/pagination.rs:94-97 SortDirection *)
Inductive SortDirection : Type := Asc | Desc.

(** src/src/pagination.rs:99-103 SortDirection::default *)
Definition sort_direction_default : SortDirection := Asc.

(** [{:?}] *)
Definition sort_debug (d : SortDirection) : string := match d with Asc => "Asc" | Desc => "Desc" end.

(** src/src/pagination.rs:51-60 OffsetPaginationQuery *)
Record OffsetPaginationQuery : Type := {
  oq_page : option Z;
  oq_limit : option Z;
  oq_sort : option string;
  oq_order : option SortDirection
}.

(** src/src/pagination.rs:64-75 CursorPaginationQuery *)
Record CursorPaginationQuery : Type := {
  cq_cursor : option string;
  cq_limit : option Z;
  cq_sort : option string;
  cq_order : option SortDirection;
  cq_previous : option bool
}.

(** src/src/pagination.rs:79-89 PaginationQuery *)
Record PaginationQuery : Type := {
  pq_type : option PaginationType;
  pq_offset : OffsetPaginationQuery;
  pq_cursor : CursorPaginationQuery
}.

(** src/src/pagination.rs:107-124 OffsetPaginationMeta *)
Record OffsetPaginationMeta : Type := {
  om_page : Z;
  om_limit : Z;
  om_total_items : option Z;
  om_total_pages : option Z;
  om_has_next : bool;
  om_has_previous : bool;
  om_next_page : option Z;
  om_previous_page : option Z
}.

(** src/src/pagination.rs:128-141 CursorPaginationMeta *)
Record CursorPaginationMeta : Type := {
  cm_cursor : option string;
  cm_limit : Z;
  cm_has_next : bool;
  cm_has_previous : bool;
  cm_next_cursor : option string;
  cm_previous_cursor : option string
}.

(** src/src/pagination.rs:146-149 PaginationMeta *)
Inductive PaginationMeta : Type :=
| MetaOffset (m : OffsetPaginationMeta)
| MetaCursor (m : CursorPaginationMeta).

(** src/src/pagination.rs:153-164 PaginationLinks *)
Record PaginationLinks : Type := {
  self_link : option string;
  first_link : option string;
  prev_link : option string;
  next_link : option string;
  last_link : option string
}.

(** src/src/pagination.rs:168-175 PaginatedResponse *)
Record PageResponse (T : Type) : Type := {
  data : list T;
  pagination : PaginationMeta;
  links : PaginationLinks
}.
Arguments data {T}.
Arguments pagination {T}.
Arguments links {T}.

(** src/src/pagination.rs:179-186 Cursor *)
Record Cursor : Type := {
  cur_value : string;
  cur_timestamp : Z;
  cur_id : string
}.

(** src/src/pagination.rs:316-321 OffsetPaginationInfo *)
Record OffsetPaginationInfo : Type := {
  oi_page : Z;
  oi_limit : Z;
  oi_sort : string;
  oi_order : SortDirection
}.

(** src/src/pagination.rs:325-331 CursorPaginationInfo *)
Record CursorPaginationInfo : Type := {
  ci_cursor : option string;
  ci_limit : Z;
  ci_sort : string;
  ci_order : SortDirection;
  ci_previous : bool
}.

(** src/src/pagination.rs:309-312 PaginationInfo *)
Inductive PaginationInfo : Type :=
| InfoOffset (i : OffsetPaginationInfo)
| InfoCursor (i : CursorPaginationInfo).

(** src/src/pagination.rs:249-305 process_pagination_query *)
Definition process_pagination_query (query : PaginationQuery) (config : PaginationConfig) : AppResult PaginationInfo :=
  match default (default_pagination_type config) (pq_type query) with
  | TypeOffset =>
      let q := pq_offset query in
      let page := default 1 (oq_page q) in
      let limit := Z.min (default (default_page_size config) (oq_limit q)) (max_page_size config) in
      if page =? 0 then Err (bad_request "Page number must be greater than 0")
      else Ok (InfoOffset {| oi_page := page; oi_limit := limit;
                             oi_sort := default "created_at" (oq_sort q); oi_order := default Desc (oq_order q) |})
  | TypeCursor =>
      let q := pq_cursor query in
      let limit := Z.min (default (default_page_size config) (cq_limit q)) (max_page_size config) in
      Ok (InfoCursor {| ci_cursor := cq_cursor q; ci_limit := limit; ci_sort := default "created_at" (cq_sort q);
                        ci_order := default Desc (cq_order q); ci_previous := default false (cq_previous q) |})
  end.

(** src/src/pagination.rs:334-362 create_offset_pagination_meta *)
Definition create_offset_pagination_meta (info : OffsetPaginationInfo) (total_items : option Z)
    : option OffsetPaginationMeta :=
  let total := default 0 total_items in
  total_pages ← (if 0 <? total then
                   if oi_limit info =? 0 then None else Some (wrap_u64 ((total - 1) / oi_limit info + 1))
                 else Some 0);
  let has_next := oi_page info <? total_pages in
  let has_previous := 1 <? oi_page info in
  Some {| om_page := oi_page info; om_limit := oi_limit info; om_total_items := Some total;
          om_total_pages := Some total_pages; om_has_next := has_next; om_has_previous := has_previous;
          om_next_page := if has_next then Some (oi_page info + 1) else None;
          om_previous_page := if has_previous then Some (oi_page info - 1) else None |}.

(** src/src/pagination.rs:365-380 create_cursor_pagination_meta *)
Definition create_cursor_pagination_meta (info : CursorPaginationInfo) (has_next has_previous : bool)
    (next_cursor previous_cursor : option string) : CursorPaginationMeta :=
  {| cm_cursor := ci_cursor info; cm_limit := ci_limit info; cm_has_next := has_next;
     cm_has_previous := has_previous; cm_next_cursor := next_cursor; cm_previous_cursor := previous_cursor |}.

(** src/src/pagination.rs:390-393 a link of an offset page *)
Definition offset_link (base_url : string) (page limit : Z) (info : OffsetPaginationInfo) : string :=
  base_url +:+ "?page=" +:+ print_Z page +:+ "&limit=" +:+ print_Z limit +:+ "&sort=" +:+ oi_sort info +:+
  "&order=" +:+ sort_debug (oi_order info).

(** src/src/pagination.rs:433-440 a link of a cursor page *)
Definition cursor_link (base_url cursor : string) (limit : Z) (info : CursorPaginationInfo) : string :=
  base_url +:+ "?type=cursor" +:+ cursor +:+ "&limit=" +:+ print_Z limit +:+ "&sort=" +:+ ci_sort info +:+
  "&order=" +:+ sort_debug (ci_order info).

(** src/src/pagination.rs:383-473 generate_pagination_links *)
Definition generate_pagination_links (base_url : string) (info : PaginationInfo) (meta : PaginationMeta)
    : PaginationLinks :=
  match info, meta with
  | InfoOffset i, MetaOffset m =>
      {| self_link := Some (offset_link base_url (om_page m) (om_limit m) i);
         first_link := Some (offset_link base_url 1 (om_limit m) i);
         prev_link := if om_has_previous m
                      then Some (offset_link base_url (default 1 (om_previous_page m)) (om_limit m) i) else None;
         next_link := if om_has_next m
                      then Some (offset_link base_url (default 1 (om_next_page m)) (om_limit m) i) else None;
         last_link := (fun p => offset_link base_url p (om_limit m) i) <$> om_total_pages m |}
  | InfoCursor i, MetaCursor m =>
      {| self_link := Some (cursor_link base_url ("&cursor=" +:+ default "" (cm_cursor m)) (cm_limit m) i);
         first_link := Some (cursor_link base_url "" (cm_limit m) i);
         prev_link := (fun c => cursor_link base_url ("&cursor=" +:+ c) (cm_limit m) i +:+ "&previous=true")
                        <$> cm_previous_cursor m;
         next_link := (fun c => cursor_link base_url ("&cursor=" +:+ c) (cm_limit m) i) <$> cm_next_cursor m;
         last_link := None |}
  | _, _ => {| self_link := None; first_link := None; prev_link := None; next_link := None; last_link := None |}
  end.

(** src/src/pagination.rs:476-516 create_paginated_response *)
Definition create_paginated_response {T} (items : list T) (info : PaginationInfo) (total_items : option Z)
    (base_url : string) (has_next_page : option bool) (next_cursor previous_cursor : option string)
    : option (PageResponse T) :=
  meta ← match info with
         | InfoOffset i => MetaOffset <$> create_offset_pagination_meta i total_items
         | InfoCursor i =>
             Some (MetaCursor (create_cursor_pagination_meta i (default false has_next_page)
                                 (bool_decide (is_Some (ci_cursor i))) next_cursor previous_cursor))
         end;
  Some {| data := items; pagination := meta; links := generate_pagination_links base_url info meta |}.

Section cursors.
(** base64, uuids and the range of chrono's instants, in seconds. *)
Variable b64_encode : string -> string.
Variable b64_decode : string -> option string.
Variable parse_uuid : string -> option string.
Variable from_timestamp : Z -> option Z.

Definition bar : ascii := "|"%char.

(** src/src/pagination.rs:198-201 Cursor::encode *)
Definition cursor_encode (c : Cursor) : string :=
  b64_encode (cur_value c +:+ String bar (print_Z (cur_timestamp c) +:+ String bar (cur_id c))).

(** src/src/pagination.rs:204-233 Cursor::decode *)
Definition cursor_decode (encoded : string) : AppResult Cursor :=
  cursor_str ← ok_or (bad_request "Invalid cursor format") (b64_decode encoded);
  match split_on bar cursor_str with
  | [p0; p1; p2] =>
      secs ← ok_or (bad_request "Invalid cursor timestamp") (parse_i64 p1);
      timestamp ← ok_or (bad_request "Invalid cursor timestamp") (from_timestamp secs);
      id ← ok_or (bad_request "Invalid cursor ID") (parse_uuid p2);
      Ok {| cur_value := p0; cur_timestamp := timestamp; cur_id := id |}
  | _ => Err (bad_request "Invalid cursor structure")
  end.

(** ** pagination/helpers.rs *)

(** src/src/pagination/helpers.rs:11-20 Paginatable; an instant is cut to the
    seconds the cursor carries *)
Class Paginatable (T : Type) : Type := {
  get_cursor_value : T -> string -> AppResult string;
  get_id : T -> string;
  get_timestamp : T -> Z
}.

(** src/src/pagination/helpers.rs:111-117 the cursor of an item *)
Definition item_cursor {T} `{Paginatable T} (sort : string) (item : T) : AppResult string :=
  value ← get_cursor_value item sort;
  Ok (cursor_encode {| cur_value := value; cur_timestamp := get_timestamp item; cur_id := get_id item |}).

(** src/src/pagination/helpers.rs:91-136 PaginationHelper::generate_cursor_info *)
Definition generate_cursor_info {T} `{Paginatable T} (items : list T) (info : CursorPaginationInfo)
    : AppResult (bool * string * string) :=
  match items with
  | [] => Ok (false, "", "")
  | _ =>
      let has_next := Z.of_nat (length items) =? wrap_u64 (ci_limit info + 1) in
      let items := if has_next then take (Z.to_nat (ci_limit info)) items else items in
      next_cursor ← (if has_next then
                       match last items with Some i => item_cursor (ci_sort info) i | None => Ok "" end
                     else Ok "");
      previous_cursor ← match head items with Some i => item_cursor (ci_sort info) i | None => Ok "" end;
      Ok (has_next, next_cursor, previous_cursor)
  end.

(** src/src/pagination/helpers.rs:54-88 PaginationHelper::build_response; [None] is a
    panic *)
Definition build_response {T} `{Paginatable T} (items : list T) (info : PaginationInfo) (base_url : string)
    (total_items : option Z) : option (AppResult (PageResponse T)) :=
  let cursors :=
    match info with
    | InfoOffset i =>
        Ok (match total_items with Some total => wrap_u64 (oi_page i * oi_limit i) <? total | None => false end,
            None, None)
    | InfoCursor i =>
        '(has_next, next_cursor, previous_cursor) ← generate_cursor_info items i;
        Ok (has_next, Some next_cursor, Some previous_cursor)
    end in
  match cursors with
  | Ok (has_next, next_cursor, previous_cursor) =>
      Ok <$> create_paginated_response items info total_items base_url (Some has_next) next_cursor previous_cursor
  | Err e => Some (Err e)
  end.

(** src/src/pagination/helpers.rs:165-169 PaginationQueryBuilder *)
Record PaginationQueryBuilder : Type := {
  base_query : string;
  sort_field : string;
  sort_order : string
}.

(** src/src/pagination/helpers.rs:172-178 PaginationQueryBuilder::new *)
Definition builder_new (q : string) : PaginationQueryBuilder :=
  {| base_query := q; sort_field := "created_at"; sort_order := "DESC" |}.

(** src/src/pagination/helpers.rs:180-183 PaginationQueryBuilder::sort_by *)
Definition builder_sort_by (field : string) (b : PaginationQueryBuilder) : PaginationQueryBuilder :=
  {| base_query := base_query b; sort_field := field; sort_order := sort_order b |}.

(** src/src/pagination/helpers.rs:185-188 PaginationQueryBuilder::order_by *)
Definition builder_order_by (order : string) (b : PaginationQueryBuilder) : PaginationQueryBuilder :=
  {| base_query := base_query b; sort_field := sort_field b; sort_order := order |}.

Definition sql_order (d : SortDirection) : string := match d with Asc => "ASC" | Desc => "DESC" end.

(** src/src/pagination/helpers.rs:191-205 build_offset_query *)
Definition build_offset_query (b : PaginationQueryBuilder) (info : OffsetPaginationInfo) : string :=
  base_query b +:+ " ORDER BY " +:+ oi_sort info +:+ " " +:+ sql_order (oi_order info) +:+ " LIMIT " +:+
  print_Z (oi_limit info) +:+ " OFFSET " +:+ print_Z (wrap_u64 (wrap_u64 (oi_page info - 1) * oi_limit info)).

(** src/src/pagination/helpers.rs:208-248 build_cursor_query *)
Definition build_cursor_query (b : PaginationQueryBuilder) (info : CursorPaginationInfo) : AppResult string :=
  match ci_cursor info with
  | Some cursor_str =>
      cursor ← cursor_decode cursor_str;
      let operator := if ci_previous info then "<" else ">" in
      let order := if ci_previous info then "DESC" else "ASC" in
      Ok (base_query b +:+ " AND (" +:+ ci_sort info +:+ " " +:+ operator +:+ " '" +:+ cur_value cursor +:+
          "' OR (" +:+ ci_sort info +:+ " = '" +:+ cur_value cursor +:+ "' AND id " +:+
          (if ci_previous info then ">" else "<") +:+ " '" +:+ cur_id cursor +:+ "'))" +:+
          " ORDER BY " +:+ ci_sort info +:+ " " +:+ order +:+ " LIMIT " +:+ print_Z (wrap_u64 (ci_limit info + 1)))
  | None =>
      Ok (base_query b +:+ " ORDER BY " +:+ ci_sort info +:+ " " +:+ sql_order (ci_order info) +:+ " LIMIT " +:+
          print_Z (wrap_u64 (ci_limit info + 1)))
  end.
End cursors.

(** src/src/pagination/helpers.rs:252-276 validate_pagination_params *)
Definition validate_pagination_params (page limit : option Z) (max_limit : Z) : AppResult (Z * Z) :=
  let page := default 1 page in
  let limit := default 20 limit in
  if page =? 0 then Err (bad_request "Page number must be greater than 0")
  else if limit =? 0 then Err (bad_request "Limit must be greater than 0")
  else if max_limit <? limit then Err (bad_request ("Limit cannot exceed " +:+ print_Z max_limit))
  else Ok (page, limit).

(** src/src/pagination/helpers.rs:279-287 extract_sort_info *)
Definition extract_sort_info (sort : option string) (order : option SortDirection) (default_sort : string)
    : string * SortDirection :=
  (default default_sort sort, default Desc order).

(** ** Theorems *)

Lemma page_unique limit total i :
  0 < limit -> 0 <= i < total ->
  exists! p, 1 <= p <= (total - 1) / limit + 1 /\ (p - 1) * limit <= i < p * limit.
Proof.
  intros Hl Hi. pose proof (Z.div_mod i limit ltac:(lia)). pose proof (Z.mod_pos_bound i limit Hl).
  pose proof (Z.div_pos i limit ltac:(lia) Hl). pose proof (Z.div_le_mono i (total - 1) limit Hl ltac:(lia)).
  exists (i / limit + 1). split; [split; nia |]. intros p [_ Hp].
  assert (i / limit = p - 1) as ->; [| lia]. symmetry. apply Z.div_unique with (i - (p - 1) * limit); nia.
Qed.

(** The offset pages that the metadata announces are the listing: every item
    is on exactly one of the pages 1 to [total_pages], there is a next page
    exactly when items remain after this one, and the links to the pages
    around it are there when they exist.  A request for 0 items a page is
    accepted, and the division by it panics. *)
Theorem offset_pages_partition query config info total base_url :
  0 < total <= u64_max -> 0 <= default_page_size config -> 0 <= max_page_size config ->
  (forall l, oq_limit (pq_offset query) = Some l -> 0 <= l) ->
  (forall p, oq_page (pq_offset query) = Some p -> 0 <= p) ->
  process_pagination_query query config = Ok (InfoOffset info) ->
  if oi_limit info =? 0 then create_offset_pagination_meta info (Some total) = None
  else
    exists m pages, create_offset_pagination_meta info (Some total) = Some m /\ om_total_pages m = Some pages /\
      (forall i, 0 <= i < total ->
         exists! p, 1 <= p <= pages /\ (p - 1) * oi_limit info <= i < p * oi_limit info) /\
      (om_has_next m = true <-> oi_page info * oi_limit info < total) /\
      next_link (generate_pagination_links base_url (InfoOffset info) (MetaOffset m)) =
        (if oi_page info * oi_limit info <? total
         then Some (offset_link base_url (oi_page info + 1) (oi_limit info) info) else None) /\
      prev_link (generate_pagination_links base_url (InfoOffset info) (MetaOffset m)) =
        (if oi_page info =? 1 then None else Some (offset_link base_url (oi_page info - 1) (oi_limit info) info)).
Proof.
  intros Ht Hd Hm Hlimit Hpage Hq.
  assert (0 <= oi_limit info /\ 1 <= oi_page info) as [Hl Hp].
  { unfold process_pagination_query in Hq. destruct (default _ (pq_type query)); [| done].
    destruct (Z.eqb_spec (default 1 (oq_page (pq_offset query))) 0) as [| Hne]; [done |]. injection Hq as <-. simpl.
    destruct (oq_limit (pq_offset query)) as [l |] eqn:El, (oq_page (pq_offset query)) as [p |] eqn:Ep; simpl in *;
      try pose proof (Hlimit _ eq_refl); try pose proof (Hpage _ eq_refl); lia. }
  unfold create_offset_pagination_meta. simpl. destruct (Z.ltb_spec 0 total); [| lia].
  destruct (Z.eqb_spec (oi_limit info) 0) as [| Hne]; [done |]. simpl.
  pose proof (Z.div_mod (total - 1) (oi_limit info) Hne). pose proof (Z.mod_pos_bound (total - 1) (oi_limit info) ltac:(lia)).
  pose proof (Z.div_pos (total - 1) (oi_limit info) ltac:(lia) ltac:(lia)).
  rewrite wrap_u64_id by nia.
  assert ((oi_page info <? (total - 1) / oi_limit info + 1) = (oi_page info * oi_limit info <? total)) as Hnext.
  { apply eq_true_iff_eq. rewrite !Z.ltb_lt. nia. }
  rewrite Hnext. eexists _, _. split_and!; [reflexivity | reflexivity | | | |].
  - intros i Hi. apply page_unique; lia.
  - simpl. by rewrite Z.ltb_lt.
  - simpl. by destruct (oi_page info * oi_limit info <? total).
  - simpl. destruct (Z.ltb_spec 1 (oi_page info)), (Z.eqb_spec (oi_page info) 1); try lia; done.
Qed.

Lemma offset_pages_partition_witness :
  let info := {| oi_page := 2; oi_limit := 10; oi_sort := "name"; oi_order := Asc |} in
  exists m, create_offset_pagination_meta info (Some 25) = Some m /\ om_total_pages m = Some 3 /\
    next_link (generate_pagination_links "/tips" (InfoOffset info) (MetaOffset m)) =
      Some "/tips?page=3&limit=10&sort=name&order=Asc".
Proof.
  intros info.
  destruct (offset_pages_partition
    {| pq_type := Some TypeOffset;
       pq_offset := {| oq_page := Some 2; oq_limit := Some 10; oq_sort := Some "name"; oq_order := Some Asc |};
       pq_cursor := {| cq_cursor := None; cq_limit := None; cq_sort := None; cq_order := None; cq_previous := None |} |}
    pagination_config_default info 25 "/tips") as (m & pages & Hm & Hp & _ & _ & Hn & _);
    [unfold u64_max; lia | done | done | by intros l [= <-] | by intros p [= <-] | reflexivity |].
  exists m. split; [exact Hm |]. injection Hm as <-. split; [reflexivity |]. rewrite Hn. reflexivity.
Defined.
