(* ===== verification/Crypto.v ===== *)
(** * Encryption of columns

    src/src/crypto/encryption.rs: the keys (from Vault or the environment), the
    encryption of a column when it is written and its decryption when it is
    read, and the rotation of the keys.

    Bytes are a [string].  AES-256-GCM, base64 and hexadecimal decoding, the
    random generator and Vault's answers are parameters; the order in which a
    [HashMap] lists its keys is a parameter too.  A nonce of the wrong length
    makes [Nonce::from_slice] panic. *)

From S2P Require Import Prelude Text Codec.

(** ** UTF-8

    [String::from_utf8]: the byte sequences of the Unicode standard. *)

Definition in_bytes (lo hi : Z) (c : ascii) : bool := (lo <=? byte c) && (byte c <=? hi).
Definition continuation (c : ascii) : bool := in_bytes 128 191 c.

Fixpoint utf8_bytes (l : list ascii) : bool :=
  match l with
  | [] => true
  | a :: l1 =>
      if byte a <? 128 then utf8_bytes l1
      else
        match l1 with
        | [] => false
        | b :: l2 =>
            if in_bytes 194 223 a then continuation b && utf8_bytes l2
            else
              match l2 with
              | [] => false
              | c :: l3 =>
                  if (byte a =? 224) && in_bytes 160 191 b || in_bytes 225 236 a && continuation b ||
                     (byte a =? 237) && in_bytes 128 159 b || in_bytes 238 239 a && continuation b
                  then continuation c && utf8_bytes l3
                  else
                    match l3 with
                    | [] => false
                    | d :: l4 =>
                        ((byte a =? 240) && in_bytes 144 191 b || in_bytes 241 243 a && continuation b ||
                         (byte a =? 244) && in_bytes 128 143 b) &&
                        continuation c && continuation d && utf8_bytes l4
                    end
              end
        end
  end.

Definition valid_utf8 (s : string) : bool := utf8_bytes (list_ascii_of_string s).

(** ** crypto/encryption.rs *)

(** src/src/crypto/encryption.rs:18-18 FORMAT_PREFIX *)
Definition FORMAT_PREFIX : string := "enc:v1".

(** src/src/crypto/encryption.rs:19-19 NONCE_LEN *)
Definition NONCE_LEN : Z := 12.

(** src/src/crypto/encryption.rs:20-20 DEFAULT_KEY_TTL_SECS *)
Definition DEFAULT_KEY_TTL_SECS : Z := 300.

(** src/src/crypto/encryption.rs:38-41 CacheEntry, the instant in seconds *)
Record CacheEntry : Type := {
  ce_value : string;
  ce_fetched_at : Z
}.

(** src/src/crypto/encryption.rs:25-35 EncryptionKeyManager *)
Record EncryptionKeyManager : Type := {
  current_key_id : string;
  km_keys : gmap string string;
  vault_addr : option string;
  vault_token : option string;
  vault_mount : string;
  vault_path : string;
  km_cache : gmap string CacheEntry;
  km_ttl : Z
}.

(** The errors the operations build, and the panic of a nonce of the wrong
    length. *)
Inductive crypto_error : Type :=
| KeyNotFound (key_name : string)
| BadKeyEncoding
| BadKeyLength (bytes : Z)
| NoKeys
| ActiveKeyUnavailable
| EncryptionFailed
| InvalidFormat
| BadNonceEncoding
| BadCiphertextEncoding
| KeyUnavailable (key_id : string)
| DecryptionFailed
| NotUtf8
| NonceLengthPanic.

Definition CryptoResult (A : Type) : Type := result A crypto_error.

Section crypto.
(** AES-256-GCM: key, nonce, text. *)
Variable aes_encrypt : string -> string -> string -> option string.
Variable aes_decrypt : string -> string -> string -> option string.
(** base64 ([URL_SAFE_NO_PAD], [STANDARD]) and hexadecimal. *)
Variable b64_encode : string -> string.
Variable b64_decode : string -> option string.
Variable b64_standard_decode : string -> option string.
Variable hex_decode : string -> option string.
(** A request to Vault for a key: the transport may fail, the status may not be a
    success, and the body may lack the key. *)
Variable vault_fetch : string -> string -> string -> option (bool * option string).
(** [HashMap::keys().next()] *)
Variable first_key : gmap string string -> option string.

(** src/src/crypto/encryption.rs:122-135 EncryptionKeyManager::new *)
Definition manager_new (env : environment) : EncryptionKeyManager :=
  {| current_key_id := ""; km_keys := ∅; vault_addr := env "VAULT_ADDR"; vault_token := env "VAULT_TOKEN";
     vault_mount := default "secret" (env "VAULT_MOUNT");
     vault_path := default "stellar-tipjar" (env "VAULT_PATH");
     km_cache := ∅; km_ttl := DEFAULT_KEY_TTL_SECS |}.

Definition with_cache (c : gmap string CacheEntry) (m : EncryptionKeyManager) : EncryptionKeyManager :=
  {| current_key_id := current_key_id m; km_keys := km_keys m; vault_addr := vault_addr m;
     vault_token := vault_token m; vault_mount := vault_mount m; vault_path := vault_path m;
     km_cache := c; km_ttl := km_ttl m |}.

Definition with_keys (current : string) (ks : gmap string string) (m : EncryptionKeyManager) : EncryptionKeyManager :=
  {| current_key_id := current; km_keys := ks; vault_addr := vault_addr m;
     vault_token := vault_token m; vault_mount := vault_mount m; vault_path := vault_path m;
     km_cache := km_cache m; km_ttl := km_ttl m |}.

(** src/src/crypto/encryption.rs:137-176 vault_get *)
Definition vault_get (now : Z) (key : string) (m : EncryptionKeyManager) : option string * EncryptionKeyManager :=
  match vault_addr m, vault_token m with
  | Some addr, Some token =>
      let ask :=
        let url := addr +:+ "/v1/" +:+ vault_mount m +:+ "/data/" +:+ vault_path m in
        match vault_fetch url token key with
        | Some (true, Some secret) =>
            (Some secret, with_cache (<[key := {| ce_value := secret; ce_fetched_at := now |}]> (km_cache m)) m)
        | _ => (None, m)
        end in
      match km_cache m !! key with
      | Some entry => if now - ce_fetched_at entry <? km_ttl m then (Some (ce_value entry), m) else ask
      | None => ask
      end
  | _, _ => (None, m)
  end.

(** src/src/crypto/encryption.rs:178-190 resolve_key *)
Definition resolve_key (env : environment) (now : Z) (key_name : string) (m : EncryptionKeyManager)
    : result string crypto_error * EncryptionKeyManager :=
  match vault_get now key_name m with
  | (Some secret, m') => (Ok secret, m')
  | (None, m') => (ok_or (KeyNotFound key_name) (env key_name), m')
  end.

(** src/src/crypto/encryption.rs:379-396 parse_key *)
Definition parse_key (raw : string) : CryptoResult string :=
  decoded ← ok_or BadKeyEncoding
    (if (String.length raw =? 64)%nat && all_chars is_hexdigit raw then hex_decode raw
     else b64_standard_decode raw);
  if negb (String.length decoded =? 32)%nat then Err (BadKeyLength (Z.of_nat (String.length decoded)))
  else Ok decoded.

(** src/src/crypto/encryption.rs:193-204 the ids of the keys to load *)
Definition key_ids (env : environment) : list string :=
  match env "ENCRYPTION_KEY_IDS" with
  | Some ids => List.filter (fun id => negb (String.eqb id "")) (map trim (split_on "," ids))
  | None => ["current"; "old_1"; "old_2"]
  end.

(** src/src/crypto/encryption.rs:206-212 loading the keys *)
Fixpoint load_keys (env : environment) (now : Z) (ids : list string) (m : EncryptionKeyManager)
    : CryptoResult EncryptionKeyManager :=
  match ids with
  | [] => Ok m
  | key_id :: ids' =>
      match resolve_key env now ("ENCRYPTION_KEY_" +:+ map_chars upper key_id) m with
      | (Ok raw_key, m') =>
          key ← parse_key raw_key;
          load_keys env now ids' (with_keys (current_key_id m') (<[key_id := key]> (km_keys m')) m')
      | (Err _, m') => load_keys env now ids' m'
      end
  end.

(** src/src/crypto/encryption.rs:192-228 EncryptionKeyManager::load *)
Definition load (env : environment) (now : Z) (m : EncryptionKeyManager) : CryptoResult EncryptionKeyManager :=
  m' ← load_keys env now (key_ids env) m;
  if bool_decide (km_keys m' = ∅) then Err NoKeys
  else
    match (if bool_decide (is_Some (km_keys m' !! "current")) then Some "current" else first_key (km_keys m')) with
    | Some id => Ok (with_keys id (km_keys m') m')
    | None => Err NoKeys
    end.

(** src/src/crypto/encryption.rs:230-232 active_key_id *)
Definition active_key_id (m : EncryptionKeyManager) : string := current_key_id m.

(** src/src/crypto/encryption.rs:234-265 encrypt_to_string, with the nonce drawn *)
Definition encrypt_to_string (nonce : string) (plaintext : string) (m : EncryptionKeyManager)
    : CryptoResult string :=
  key ← ok_or ActiveKeyUnavailable (km_keys m !! current_key_id m);
  ciphertext ← ok_or EncryptionFailed (aes_encrypt key nonce plaintext);
  Ok (FORMAT_PREFIX +:+ ":" +:+ current_key_id m +:+ ":" +:+ b64_encode nonce +:+ ":" +:+ b64_encode ciphertext).

(** src/src/crypto/encryption.rs:267-329 decrypt_to_string *)
Definition decrypt_to_string (encrypted_value : string) (m : EncryptionKeyManager) : CryptoResult string :=
  rest ← ok_or InvalidFormat (r ← strip_prefix FORMAT_PREFIX encrypted_value; strip_prefix ":" r);
  '(key_id, r1) ← ok_or InvalidFormat (split_once ":" rest);
  '(p1, p2) ← ok_or InvalidFormat (split_once ":" r1);
  nonce ← ok_or BadNonceEncoding (b64_decode p1);
  ciphertext ← ok_or BadCiphertextEncoding (b64_decode p2);
  key ← ok_or (KeyUnavailable key_id) (km_keys m !! key_id);
  if negb (Z.of_nat (String.length nonce) =? NONCE_LEN) then Err NonceLengthPanic
  else
    plaintext ← ok_or DecryptionFailed (aes_decrypt key nonce ciphertext);
    if valid_utf8 plaintext then Ok plaintext else Err NotUtf8.

(** src/src/crypto/encryption.rs:333-364 rotate_keys, with the new key drawn *)
Definition rotate_keys (new_key : string) (m : EncryptionKeyManager) : EncryptionKeyManager :=
  let ks := {["current" := new_key]} in
  let ks := match km_keys m !! "current" with Some k => <["old_1" := k]> ks | None => ks end in
  let ks := match km_keys m !! "old_1" with Some k => <["old_2" := k]> ks | None => ks end in
  with_keys "current" ks m.

(** The global manager is set once.

    src/src/crypto/encryption.rs:367-371 set_global_encryption_manager *)
Definition set_global_encryption_manager (manager : EncryptionKeyManager) (global : option EncryptionKeyManager)
    : bool * option EncryptionKeyManager :=
  match global with None => (true, Some manager) | Some _ => (false, global) end.

(** No value stands for an error of the decoding, and for the panic of a stored
    nonce of the wrong length.

    src/src/crypto/encryption.rs:99-106 EncryptedString::decode *)
Definition decode_column (raw : string) (global : option EncryptionKeyManager) : option string :=
  m ← global;
  match decrypt_to_string raw m with Ok s => Some s | Err _ => None end.

(** src/src/crypto/encryption.rs:108-119 EncryptedString::encode_by_ref *)
Definition encode_column (nonce : string) (value : string) (global : option EncryptionKeyManager) : option string :=
  m ← global;
  match encrypt_to_string nonce value m with Ok s => Some s | Err _ => None end.
End crypto.

(** ** Lemmas *)

Section laws.
Variable aes_encrypt : string -> string -> string -> option string.
Variable aes_decrypt : string -> string -> string -> option string.
Variable b64_encode : string -> string.
Variable b64_decode : string -> option string.
Hypothesis aes_law : forall k n p c, aes_encrypt k n p = Some c -> aes_decrypt k n c = Some p.
Hypothesis b64_law : forall s, b64_decode (b64_encode s) = Some s.
Hypothesis b64_alphabet : forall s, lacks ":" (b64_encode s) = true.

Lemma split_once_piece c a b : lacks c a = true -> split_once c (a +:+ String c "" +:+ b) = Some (a, b).
Proof. apply split_once_app. Qed.

(** What decrypting a text that was encrypted comes to. *)
Lemma decrypt_encrypted nonce plaintext m m' v key :
  Z.of_nat (String.length nonce) = NONCE_LEN -> lacks ":" (current_key_id m) = true ->
  km_keys m !! current_key_id m = Some key ->
  encrypt_to_string aes_encrypt b64_encode nonce plaintext m = Ok v ->
  exists c, aes_encrypt key nonce plaintext = Some c /\
    decrypt_to_string aes_decrypt b64_decode v m' =
      match km_keys m' !! current_key_id m with
      | Some k => match aes_decrypt k nonce c with
                  | Some p => if valid_utf8 p then Ok p else Err NotUtf8
                  | None => Err DecryptionFailed
                  end
      | None => Err (KeyUnavailable (current_key_id m))
      end.
Proof.
  intros Hn Hid Hk. unfold encrypt_to_string. rewrite Hk. simpl.
  destruct (aes_encrypt key nonce plaintext) as [c |] eqn:Hc; [| done]. simpl. intros [= <-].
  exists c. split; [done |]. unfold decrypt_to_string. simpl.
  rewrite string_app_nil_l, split_once_piece by done. simpl. rewrite split_once_piece by apply b64_alphabet. simpl.
  rewrite !b64_law. simpl. destruct (km_keys m' !! current_key_id m) as [k |]; [| done]. simpl.
  rewrite Hn. simpl. by destruct (aes_decrypt k nonce c).
Qed.
End laws.

Lemma rotations_current news k m :
  current_key_id (fold_left (fun m k => rotate_keys k m) (news ++ [k]) m) = "current" /\
  km_keys (fold_left (fun m k => rotate_keys k m) (news ++ [k]) m) !! "current" = Some k /\
  forall id, id <> "current" -> id <> "old_1" -> id <> "old_2" ->
    km_keys (fold_left (fun m k => rotate_keys k m) (news ++ [k]) m) !! id = None.
Proof.
  rewrite fold_left_app. simpl. set (m1 := fold_left _ _ _). unfold rotate_keys. simpl.
  destruct (km_keys m1 !! "current"), (km_keys m1 !! "old_1"); split_and!; try done;
    rewrite ?lookup_insert_ne by done; try (by rewrite lookup_singleton_eq);
    intros id ???; rewrite ?lookup_insert_ne by done; by apply lookup_singleton_ne.
Qed.

(** ** Theorems *)

(** A column that was encrypted decrypts to what was written, as long as
    the manager still has under the same id the key it was written with;
    reading the database gives back what was stored. *)
Theorem encrypted_column_round_trip aes_encrypt aes_decrypt b64_encode b64_decode nonce plaintext m m' v :
  (forall k n p c, aes_encrypt k n p = Some c -> aes_decrypt k n c = Some p) ->
  (forall s, b64_decode (b64_encode s) = Some s) -> (forall s, lacks ":" (b64_encode s) = true) ->
  Z.of_nat (String.length nonce) = NONCE_LEN -> valid_utf8 plaintext = true -> lacks ":" (current_key_id m) = true ->
  encode_column aes_encrypt b64_encode nonce plaintext (Some m) = Some v ->
  km_keys m' !! current_key_id m = km_keys m !! current_key_id m ->
  decode_column aes_decrypt b64_decode v (Some m') = Some plaintext.
Proof.
  intros Ha Hb Hal Hn Hu Hid. unfold encode_column, decode_column. simpl.
  destruct (encrypt_to_string aes_encrypt b64_encode nonce plaintext m) as [v' |] eqn:He; [| done].
  intros [= <-] Hsame. destruct (km_keys m !! current_key_id m) as [key |] eqn:Hk.
  - destruct (decrypt_encrypted aes_encrypt aes_decrypt b64_encode b64_decode Hb Hal nonce plaintext m m' v' key)
      as (c & Hc & ->); [done | done | done | done |].
    rewrite Hsame, (Ha _ _ _ _ Hc), Hu. done.
  - unfold encrypt_to_string in He. by rewrite Hk in He.
Qed.

(** A rotation makes every column written before it unreadable: the text
    names its key "current", and that name now means the new key; the archived
    keys are there, and no text names them.  A key with an id of its own is
    dropped. *)
Theorem rotation_loses_columns aes_encrypt aes_decrypt b64_encode b64_decode nonce plaintext m v key news new :
  (forall k k' n p c, aes_encrypt k n p = Some c -> k <> k' -> aes_decrypt k' n c = None) ->
  (forall s, b64_decode (b64_encode s) = Some s) -> (forall s, lacks ":" (b64_encode s) = true) ->
  Z.of_nat (String.length nonce) = NONCE_LEN -> lacks ":" (current_key_id m) = true ->
  current_key_id m <> "old_1" -> current_key_id m <> "old_2" ->
  km_keys m !! current_key_id m = Some key -> new <> key ->
  encrypt_to_string aes_encrypt b64_encode nonce plaintext m = Ok v ->
  let m' := fold_left (fun m k => rotate_keys k m) (news ++ [new]) m in
  decrypt_to_string aes_decrypt b64_decode v m' =
    Err (if String.eqb (current_key_id m) "current" then DecryptionFailed else KeyUnavailable (current_key_id m)).
Proof.
  intros Ha Hb Hal Hn Hid H1 H2 Hk Hne He m'.
  destruct (decrypt_encrypted aes_encrypt aes_decrypt b64_encode b64_decode Hb Hal nonce plaintext m m' v key)
    as (c & Hc & ->); [done | done | done | done |].
  destruct (rotations_current news new m) as (_ & Hcur & Hother). fold m' in Hcur, Hother.
  destruct (String.eqb_spec (current_key_id m) "current") as [E | E].
  - rewrite E, Hcur. by rewrite (Ha _ _ _ _ _ Hc).
  - by rewrite Hother.
Qed.

(** ** A concrete cipher, for the witnesses *)

(** The text carries the key, the nonce and the plaintext; only its key and nonce
    open it. *)
Definition toy_encrypt (k n p : string) : option string := Some (to_text (k, n, p)).
Definition toy_decrypt (k n c : string) : option string :=
  match from_text c with
  | Ok (k', n', p) => if String.eqb k k' && String.eqb n n' then Some p else None
  | Err _ => None
  end.
Definition toy_encode (s : string) : string := to_text s.
Definition toy_decode (s : string) : option string := match from_text s with Ok t => Some t | Err _ => None end.

Lemma bits_lack_colon p : lacks ":" (bits p) = true.
Proof. induction p as [p IH | p IH |]; [exact IH | exact IH | done]. Qed.

Lemma toy_law k n p c : toy_encrypt k n p = Some c -> toy_decrypt k n c = Some p.
Proof. intros [= <-]. unfold toy_decrypt. by rewrite from_to_text, !String.eqb_refl. Qed.

Lemma toy_other_key k k' n p c : toy_encrypt k n p = Some c -> k <> k' -> toy_decrypt k' n c = None.
Proof.
  intros [= <-] Hne. unfold toy_decrypt. rewrite from_to_text.
  by destruct (String.eqb_spec k' k) as [-> |].
Qed.

Lemma toy_codec s : toy_decode (toy_encode s) = Some s.
Proof. unfold toy_decode, toy_encode. by rewrite from_to_text. Qed.

Definition toy_manager : EncryptionKeyManager :=
  with_keys "current" {["current" := "key one"]} (manager_new (fun _ => None)).

Lemma encrypted_column_round_trip_witness :
  exists v, encode_column toy_encrypt toy_encode "nonce 12byte" "s3cret" (Some toy_manager) = Some v /\
    decode_column toy_decrypt toy_decode v (Some toy_manager) = Some "s3cret".
Proof.
  eexists. split; [reflexivity |].
  apply (encrypted_column_round_trip toy_encrypt toy_decrypt toy_encode toy_decode "nonce 12byte" "s3cret"
           toy_manager toy_manager); [apply toy_law | apply toy_codec | intros s; apply bits_lack_colon | reflexivity ..].
Defined.

Lemma rotation_loses_columns_witness :
  exists v, encrypt_to_string toy_encrypt toy_encode "nonce 12byte" "s3cret" toy_manager = Ok v /\
    decrypt_to_string toy_decrypt toy_decode v (rotate_keys "key two" toy_manager) = Err DecryptionFailed.
Proof.
  eexists. split; [reflexivity |].
  apply (rotation_loses_columns toy_encrypt toy_decrypt toy_encode toy_decode "nonce 12byte" "s3cret"
           toy_manager _ "key one" [] "key two");
    [apply toy_other_key | apply toy_codec | intros s; apply bits_lack_colon | reflexivity | reflexivity | done | done
    | reflexivity | done | reflexivity].
Defined.
