(* ===== verification/Access.v ===== *)
(** * Who may call what

    The roles and permissions (src/src/security/permissions.rs, rbac.rs), the
    API keys (src/src/models/api_key.rs, src/src/controllers/api_key_controller.rs),
    the gateway's authentication (src/src/gateway/authentication.rs, config.rs,
    context.rs and the scopes of middleware.rs), the middlewares auth.rs,
    authorization.rs, admin_auth.rs and api_key_auth.rs, and the registration
    of src/src/routes/auth.rs.

    Tokens and their revocation are those of Auth, identities those of
    RateLimit, and an encrypted column is read and written as in Crypto.  The
    world adds to Auth's the tables of roles, API keys, admins and accounts.
    A statement on a table may meet a fault of the schedule of Auth's world. *)

From S2P Require Import Prelude Text Redis Errors Crypto RateLimit Auth.

(** ** security/permissions.rs *)

(** src/src/security/permissions.rs:4-10 Role *)
Inductive Role : Type := Guest | Supporter | CreatorRole | Moderator | AdminRole.

#[export] Instance Role_eq_dec : EqDecision Role.
Proof. solve_decision. Defined.

(** src/src/security/permissions.rs:13-21 Role::as_str *)
Definition as_str (r : Role) : string :=
  match r with
  | Guest => "guest"
  | Supporter => "supporter"
  | CreatorRole => "creator"
  | Moderator => "moderator"
  | AdminRole => "admin"
  end.

(** src/src/security/permissions.rs:30-42 Role::try_from *)
Definition role_try_from (s : string) : option Role :=
  if String.eqb s "guest" then Some Guest
  else if String.eqb s "supporter" then Some Supporter
  else if String.eqb s "creator" then Some CreatorRole
  else if String.eqb s "moderator" then Some Moderator
  else if String.eqb s "admin" then Some AdminRole
  else None.

(** src/src/security/permissions.rs:46-55 Permission *)
Inductive Permission : Type :=
| CreateCreator | UpdateCreator | DeleteCreator | SendTip | WithdrawFunds | ViewAnalytics | ManageUsers
| ModerateContent.

#[export] Instance Permission_eq_dec : EqDecision Permission.
Proof. solve_decision. Defined.

(** src/src/security/permissions.rs:59-76 Permission::allowed_for *)
Definition allowed_for (p : Permission) (r : Role) : bool :=
  match r with
  | AdminRole => true
  | Moderator => match p with ModerateContent | ViewAnalytics => true | _ => false end
  | CreatorRole => match p with CreateCreator | UpdateCreator | WithdrawFunds | ViewAnalytics => true | _ => false end
  | Supporter => match p with SendTip => true | _ => false end
  | Guest => false
  end.

(** ** models/api_key.rs: the rows, the secret as the column holds it *)

(** src/src/models/api_key.rs:9-21 ApiKey *)
Record ApiKeyRow : Type := {
  ak_id : string;
  ak_key : string;
  ak_secret : string;
  ak_name : string;
  ak_permissions : list string;
  ak_active : bool;
  ak_usage_count : Z;
  ak_created_at : Z;
  ak_rotated_at : option Z;
  ak_revoked_at : option Z
}.

(** src/src/models/api_key.rs:24-28 CreateApiKeyRequest *)
Record CreateApiKeyRequest : Type := {
  ck_name : string;
  ck_permissions : list string
}.

(** src/src/models/api_key.rs:32-39 ApiKeyCreated *)
Record ApiKeyCreated : Type := {
  akc_id : string;
  akc_key : string;
  akc_secret : string;
  akc_name : string;
  akc_permissions : list string;
  akc_created_at : Z
}.

(** src/src/models/api_key.rs:43-53 ApiKeyView *)
Record ApiKeyView : Type := {
  akv_id : string;
  akv_key : string;
  akv_name : string;
  akv_permissions : list string;
  akv_active : bool;
  akv_usage_count : Z;
  akv_created_at : Z;
  akv_rotated_at : option Z;
  akv_revoked_at : option Z
}.

(** src/src/models/api_key.rs:55-69 ApiKeyView::from *)
Definition api_key_view (k : ApiKeyRow) : ApiKeyView :=
  {| akv_id := ak_id k; akv_key := ak_key k; akv_name := ak_name k; akv_permissions := ak_permissions k;
     akv_active := ak_active k; akv_usage_count := ak_usage_count k; akv_created_at := ak_created_at k;
     akv_rotated_at := ak_rotated_at k; akv_revoked_at := ak_revoked_at k |}.

Definition with_secret (s : string) (k : ApiKeyRow) : ApiKeyRow :=
  {| ak_id := ak_id k; ak_key := ak_key k; ak_secret := s; ak_name := ak_name k;
     ak_permissions := ak_permissions k; ak_active := ak_active k; ak_usage_count := ak_usage_count k;
     ak_created_at := ak_created_at k; ak_rotated_at := ak_rotated_at k; ak_revoked_at := ak_revoked_at k |}.

(** The updates of the statements. *)
Definition with_usage (n : Z) (k : ApiKeyRow) : ApiKeyRow :=
  {| ak_id := ak_id k; ak_key := ak_key k; ak_secret := ak_secret k; ak_name := ak_name k;
     ak_permissions := ak_permissions k; ak_active := ak_active k; ak_usage_count := n;
     ak_created_at := ak_created_at k; ak_rotated_at := ak_rotated_at k; ak_revoked_at := ak_revoked_at k |}.

Definition deactivated (rotated revoked : option Z) (k : ApiKeyRow) : ApiKeyRow :=
  {| ak_id := ak_id k; ak_key := ak_key k; ak_secret := ak_secret k; ak_name := ak_name k;
     ak_permissions := ak_permissions k; ak_active := false; ak_usage_count := ak_usage_count k;
     ak_created_at := ak_created_at k; ak_rotated_at := rotated; ak_revoked_at := revoked |}.

Definition usable (k : ApiKeyRow) : bool := ak_active k && bool_decide (ak_revoked_at k = None).

Section access.
Context {St : Type} `{RedisLaws string St}.
(** The parameters of Auth. *)
Variable env : environment.
Variable jwt_decode_header : string -> option (string * option string).
Variable jwt_decode : string -> Z -> Z -> string -> option Claims.
(** The parameters of Crypto, and the manager of the process. *)
Variable aes_decrypt : string -> string -> string -> option string.
Variable b64_decode : string -> option string.
(** The n-th string of hexadecimal digits that [generate_key] draws, the n-th uuid, SHA-256
    in hexadecimal, and bcrypt. *)
Variable random_hex : nat -> string.
Variable uuid : nat -> string.
Variable sha256_hex : string -> string.
Variable bcrypt_hash : string -> option string.

Record AccessWorld : Type := {
  ac_auth : AuthWorld (St := St);
  ac_manager : option EncryptionKeyManager;
  ac_roles : gmap string string;
  ac_keys : list ApiKeyRow;
  ac_admins : gset string;
  ac_accounts : gmap string (string * string);
  ac_draws : nat
}.

#[export] Instance AccessWorld_networked : Networked AccessWorld := {
  next_fault w :=
    let '(f, a) := next_fault (ac_auth w) in
    (f, {| ac_auth := a; ac_manager := ac_manager w; ac_roles := ac_roles w; ac_keys := ac_keys w;
           ac_admins := ac_admins w; ac_accounts := ac_accounts w; ac_draws := ac_draws w |})
}.

Definition Access : Type -> Type := M AccessWorld failure.

(** A computation of Auth in the larger world. *)
Definition on_auth {A} (m : Auth (St := St) A) : Access A := fun w =>
  let '(r, a) := m (ac_auth w) in
  (r, {| ac_auth := a; ac_manager := ac_manager w; ac_roles := ac_roles w; ac_keys := ac_keys w;
         ac_admins := ac_admins w; ac_accounts := ac_accounts w; ac_draws := ac_draws w |}).

Definition with_api_keys (l : list ApiKeyRow) (w : AccessWorld) : AccessWorld :=
  {| ac_auth := ac_auth w; ac_manager := ac_manager w; ac_roles := ac_roles w; ac_keys := l;
     ac_admins := ac_admins w; ac_accounts := ac_accounts w; ac_draws := ac_draws w |}.

Definition with_roles (m : gmap string string) (w : AccessWorld) : AccessWorld :=
  {| ac_auth := ac_auth w; ac_manager := ac_manager w; ac_roles := m; ac_keys := ac_keys w;
     ac_admins := ac_admins w; ac_accounts := ac_accounts w; ac_draws := ac_draws w |}.

Definition with_accounts (m : gmap string (string * string)) (w : AccessWorld) : AccessWorld :=
  {| ac_auth := ac_auth w; ac_manager := ac_manager w; ac_roles := ac_roles w; ac_keys := ac_keys w;
     ac_admins := ac_admins w; ac_accounts := m; ac_draws := ac_draws w |}.

(** A statement: it may meet a fault, be refused by the database, or give rows;
    the errors are sqlx's. *)
Definition statement {A} (q : AccessWorld -> result A sqlx_error * AccessWorld) : M AccessWorld sqlx_error A :=
  r ← remote SqlxOther q;
  lift r.

Definition from_sqlx_error {A} (m : M AccessWorld sqlx_error A) : Access A :=
  map_err (fun e => EApp (app_error_from_sqlx e)) m.

(** ** security/rbac.rs *)

(** src/src/security/rbac.rs:16-26 RBACSystem::assign_role; the user must exist, as
    the table refers to the accounts *)
Definition assign_role (user_id : string) (role : Role) : Access unit :=
  from_sqlx_error (statement (fun w =>
    if bool_decide (map_Exists (fun _ account => fst account = user_id) (ac_accounts w))
    then (Ok tt, with_roles (<[user_id := as_str role]> (ac_roles w)) w)
    else (Err (SqlxDatabase (Some "23503") None), w))).

(** src/src/security/rbac.rs:28-41 RBACSystem::get_role *)
Definition get_role (user_id : string) : Access Role :=
  role_str ← from_sqlx_error (statement (fun w => (Ok (ac_roles w !! user_id), w)));
  mret (default Supporter (role_str ≫= role_try_from)).

(** src/src/security/rbac.rs:43-46 RBACSystem::has_permission *)
Definition rbac_has_permission (user_id : string) (p : Permission) : Access bool :=
  role ← get_role user_id;
  mret (allowed_for p role).

(** src/src/security/rbac.rs:48-57 RBACSystem::require_permission *)
Definition rbac_require_permission (user_id : string) (p : Permission) : Access unit :=
  ok ← rbac_has_permission user_id p;
  if (ok : bool) then mret tt else throw (EApp (Forbidden "Insufficient permissions")).

(** ** API keys *)

(** src/src/models/api_key.rs:181-188 generate_key *)
Definition generate_key (prefix : string) : M AccessWorld sqlx_error string := fun w =>
  (Ok (prefix +:+ "_" +:+ random_hex (ac_draws w)),
   {| ac_auth := ac_auth w; ac_manager := ac_manager w; ac_roles := ac_roles w; ac_keys := ac_keys w;
      ac_admins := ac_admins w; ac_accounts := ac_accounts w; ac_draws := S (ac_draws w) |}).

(** A row is decoded with its secret decrypted. *)
Definition decode_row (k : ApiKeyRow) (w : AccessWorld) : result ApiKeyRow sqlx_error :=
  match decode_column aes_decrypt b64_decode (ak_secret k) (ac_manager w) with
  | Some s => Ok (with_secret s k)
  | None => Err SqlxOther
  end.

(** The insertion: the widths of the columns key and secret
    (migrations/0028_api_keys_and_nonces.sql), the uniqueness of the key, and
    the row returned.

    src/src/models/api_key.rs:80-91 the statement of create *)
Definition insert_key (key secret name : string) (permissions : list string) (w : AccessWorld)
    : result ApiKeyRow sqlx_error * AccessWorld :=
  if (64 <? String.length key)%nat || (128 <? String.length secret)%nat
  then (Err (SqlxDatabase (Some "22001") None), w)
  else if existsb (fun k => String.eqb (ak_key k) key) (ac_keys w)
  then (Err (SqlxDatabase (Some "23505") (Some "api_keys_key_key")), w)
  else
    let row := {| ak_id := uuid (length (ac_keys w)); ak_key := key; ak_secret := secret; ak_name := name;
                  ak_permissions := permissions; ak_active := true; ak_usage_count := 0;
                  ak_created_at := aw_now (ac_auth w); ak_rotated_at := None; ak_revoked_at := None |} in
    (decode_row row w, with_api_keys (ac_keys w ++ [row]) w).

(** src/src/models/api_key.rs:72-101 ApiKey::create *)
Definition create (name : string) (permissions : list string) : M AccessWorld sqlx_error ApiKeyCreated :=
  key ← generate_key "tjk";
  secret ← generate_key "tjs";
  row ← statement (insert_key key secret name permissions);
  mret {| akc_id := ak_id row; akc_key := ak_key row; akc_secret := secret; akc_name := ak_name row;
          akc_permissions := ak_permissions row; akc_created_at := ak_created_at row |}.

(** Every row of a result is decoded. *)
Definition decode_rows (l : list ApiKeyRow) (w : AccessWorld) : result (list ApiKeyRow) sqlx_error :=
  foldr (fun k acc => match decode_row k w, acc with Ok a, Ok b => Ok (a :: b) | _, _ => Err SqlxOther end) (Ok []) l.

(** src/src/models/api_key.rs:103-111 ApiKey::list *)
Definition list_keys : M AccessWorld sqlx_error (list ApiKeyRow) :=
  statement (fun w => (decode_rows (sort_by (fun a b => ak_created_at b <=? ak_created_at a) (ac_keys w)) w, w)).

(** The only row of a condition on the key. *)
Definition fetch_one (p : ApiKeyRow -> bool) (w : AccessWorld) : result ApiKeyRow sqlx_error :=
  match List.find p (ac_keys w) with Some k => decode_row k w | None => Err SqlxRowNotFound end.

(** src/src/models/api_key.rs:113-122 ApiKey::get_by_key *)
Definition get_by_key (key : string) : M AccessWorld sqlx_error ApiKeyRow :=
  statement (fun w => (fetch_one (fun k => String.eqb (ak_key k) key) w, w)).

(** src/src/models/api_key.rs:125-136 ApiKey::verify *)
Definition verify (key secret : string) : M AccessWorld sqlx_error ApiKeyRow :=
  statement (fun w =>
    (fetch_one (fun k => String.eqb (ak_key k) key && String.eqb (ak_secret k) secret && usable k) w, w)).

(** src/src/models/api_key.rs:139-142 ApiKey::get_secret *)
Definition get_secret (key : string) : M AccessWorld sqlx_error string :=
  api_key ← get_by_key key;
  mret (ak_secret api_key).

(** src/src/models/api_key.rs:145-150 ApiKey::record_usage *)
Definition record_usage (key : string) : Access unit :=
  _ ← attempt (E' := failure) (statement (fun w =>
        (Ok tt, with_api_keys (map (fun k => if String.eqb (ak_key k) key
                                             then with_usage (ak_usage_count k + 1) k else k) (ac_keys w)) w)));
  mret tt.

(** src/src/models/api_key.rs:153-165 ApiKey::rotate *)
Definition rotate (key : string) : M AccessWorld sqlx_error ApiKeyCreated :=
  row ← statement (fun w =>
    let hit k := String.eqb (ak_key k) key && usable k in
    let off k := deactivated (Some (aw_now (ac_auth w))) (ak_revoked_at k) k in
    (match List.find hit (ac_keys w) with Some k => decode_row (off k) w | None => Err SqlxRowNotFound end,
     with_api_keys (map (fun k => if hit k then off k else k) (ac_keys w)) w));
  create (ak_name row) (ak_permissions row).

(** src/src/models/api_key.rs:168-177 ApiKey::revoke *)
Definition revoke (key : string) : M AccessWorld sqlx_error unit :=
  statement (fun w =>
    let hit k := String.eqb (ak_key k) key && bool_decide (ak_revoked_at k = None) in
    (Ok tt, with_api_keys (map (fun k => if hit k
       then deactivated (ak_rotated_at k) (Some (aw_now (ac_auth w))) k else k) (ac_keys w)) w)).

(** [RowNotFound] as an answer of its own, the other errors as they are. *)
Definition or_unauthorized {A} (message : string) (m : M AccessWorld sqlx_error A) : Access A :=
  map_err (fun e => EApp (match e with SqlxRowNotFound => Unauthorized message | _ => app_error_from_sqlx e end)) m.

(** src/src/controllers/api_key_controller.rs:7-14 create_api_key *)
Definition create_api_key (req : CreateApiKeyRequest) : Access ApiKeyCreated :=
  from_sqlx_error (create (ck_name req) (ck_permissions req)).

(** src/src/controllers/api_key_controller.rs:16-19 list_api_keys *)
Definition list_api_keys : Access (list ApiKeyView) :=
  l ← from_sqlx_error list_keys;
  mret (map api_key_view l).

(** src/src/controllers/api_key_controller.rs:21-29 get_api_key *)
Definition get_api_key (key : string) : Access ApiKeyView :=
  k ← or_unauthorized "API key not found" (get_by_key key);
  mret (api_key_view k).

(** src/src/controllers/api_key_controller.rs:31-36 rotate_api_key *)
Definition rotate_api_key (key : string) : Access ApiKeyCreated :=
  or_unauthorized "API key not found or already inactive" (rotate key).

(** src/src/controllers/api_key_controller.rs:38-43 revoke_api_key *)
Definition revoke_api_key (key : string) : Access unit := or_unauthorized "API key not found" (revoke key).

(** ** The gateway *)

(** src/src/gateway/config.rs:16-41 the public paths *)
Definition public_paths : list string :=
  ["/api/v1/creators"; "/api/v2/creators"; "/api/v1/tips"; "/api/v2/tips"; "/api/v1/health"; "/api/v2/health";
   "/api/v1/leaderboard"; "/api/v2/leaderboard"; "/api/v1/stats"; "/api/v2/stats"; "/api/v1/auth/login";
   "/api/v2/auth/login"; "/api/v1/auth/register"; "/api/v2/auth/register"; "/api/v1/auth/refresh";
   "/api/v2/auth/refresh"; "/metrics"; "/swagger-ui"; "/api-docs"; "/ws"; "/graphql"].

(** src/src/gateway/config.rs:62-87 GatewayConfig::is_public *)
Definition is_public (path : string) : bool :=
  bool_decide (path ∈ public_paths) ||
  existsb (fun prefix => starts_with prefix path)
    ["/api/v1/creators/"; "/api/v2/creators/"; "/api/v1/health"; "/api/v2/health"; "/api/v1/leaderboard";
     "/api/v2/leaderboard"; "/api/v1/stats"; "/api/v2/stats"; "/api/v1/search"; "/api/v2/search";
     "/metrics"; "/swagger-ui"; "/api-docs"].

(** src/src/gateway/authentication.rs:118-124 bearer_token *)
Definition bearer_token (headers : string -> option string) : option string :=
  v ← (headers "authorization" ≫= header_to_str); strip_prefix "Bearer " v.

(** src/src/gateway/authentication.rs:126-128 header_str *)
Definition header_str (headers : string -> option string) (name : string) : option string :=
  headers name ≫= header_to_str.

(** The validation of an access token and the check that it was not revoked. *)
Definition access_claims (token : string) : Access Claims :=
  claims ← map_err (fun e => match e with
                             | EApp _ => EApp (Unauthorized "Invalid or expired token")
                             | EPanic => EPanic
                             end) (on_auth (validate_token (St := St) env jwt_decode_header jwt_decode token "access"));
  _ ← on_auth (check_not_revoked (jti claims) (sub claims) (tv claims));
  mret claims.

(** src/src/gateway/authentication.rs:28-114 gateway_auth *)
Definition gateway_auth {R} (next : GatewayIdentity -> Access R) (path : string) (headers : string -> option string)
    : Access R :=
  if is_public path then next AnonymousId
  else
    match bearer_token headers with
    | Some token =>
        claims ← access_claims token;
        next (Jwt (sub claims) (Auth.role claims))
    | None =>
        match header_str headers "x-api-key", header_str headers "x-api-secret" with
        | Some key, Some secret =>
            r ← attempt (E' := failure) (verify key secret);
            match r with
            | Ok api_key =>
                record_usage (ak_key api_key);;
                next (ApiKey (ak_key api_key) (ak_name api_key) (ak_permissions api_key))
            | Err _ => throw (EApp (Unauthorized "Invalid or revoked API key"))
            end
        | _, _ =>
            throw (EApp (Unauthorized
              "Authentication required. Provide a Bearer token or X-API-Key / X-API-Secret headers."))
        end
    end.

(** src/src/gateway/middleware.rs:30-49 require_scope *)
Definition require_scope {R} (scope : string) (next : Access R) (identity : option GatewayIdentity) : Access R :=
  match identity with
  | Some (Jwt _ _) => next
  | Some (ApiKey _ _ permissions) =>
      if existsb (fun p => String.eqb p scope || String.eqb p "*") permissions then next
      else throw (EApp (Forbidden ("API key does not have the '" +:+ scope +:+ "' permission")))
  | Some AnonymousId | None => throw (EApp (Unauthorized "Authentication required"))
  end.

(** ** The middlewares *)

(** src/src/middleware/auth.rs:23-60 require_auth *)
Definition require_auth {R} (next : Role -> Claims -> Access R) (headers : string -> option string) : Access R :=
  match bearer_token headers with
  | None => throw (EApp (Unauthorized "Missing Authorization header"))
  | Some token =>
      claims ← access_claims token;
      next (default Guest (role_try_from (Auth.role claims))) claims
  end.

(** src/src/middleware/authorization.rs:20-42 require_permission, given the
    extensions of the request *)
Definition require_permission {R} (permission : Permission) (next : Access R) (claims : option Claims)
    (role : option Role) : Access R :=
  match claims with
  | None => throw (EApp (Unauthorized "Authentication required"))
  | Some _ =>
      if allowed_for permission (default Supporter role) then next
      else throw (EApp (Forbidden "Insufficient permissions"))
  end.

(** src/src/middleware/admin_auth.rs:51-56 hash_api_key *)
Definition hash_api_key (raw : string) : string := sha256_hex raw.

(** src/src/middleware/admin_auth.rs:14-48 require_admin *)
Definition require_admin {R} (next : Access R) (headers : string -> option string) : Access R :=
  match header_str headers "x-admin-key" with
  | None => throw (EApp (Unauthorized "Missing X-Admin-Key header"))
  | Some raw_key =>
      found ← from_sqlx_error (statement (fun w => (Ok (bool_decide (hash_api_key raw_key ∈ ac_admins w)), w)));
      if (found : bool) then next else throw (EApp (Unauthorized "Invalid admin key"))
  end.

(** src/src/middleware/api_key_auth.rs:14-34 require_api_key *)
Definition require_api_key {R} (next : ApiKeyRow -> Access R) (headers : string -> option string) : Access R :=
  match header_str headers "x-api-key", header_str headers "x-api-secret" with
  | Some key, Some secret =>
      r ← attempt (E' := failure) (verify key secret);
      match r with
      | Ok api_key => record_usage (ak_key api_key);; next api_key
      | Err _ => throw (EApp (Unauthorized "Invalid or revoked API key"))
      end
  | _, _ => throw (EApp (Unauthorized "Missing X-API-Key or X-API-Secret headers"))
  end.

(** ** Registration: the accounts by username, an id and the password hash as the
    column holds it *)

(** src/src/routes/auth.rs:121-152 register, up to the new session: the username *)
Definition register (username password : string) : Access string :=
  hash ← expect (EApp Internal) (bcrypt_hash password);
  map_err (fun e => EApp (match e with
                          | SqlxDatabase (Some code) _ =>
                              if String.eqb code "23505" then Conflict "USERNAME_TAKEN" "Username already taken"
                              else app_error_from_sqlx e
                          | _ => app_error_from_sqlx e
                          end))
    (statement (fun w =>
       if bool_decide (is_Some (ac_accounts w !! username))
       then (Err (SqlxDatabase (Some "23505") (Some "creators_username_key")), w)
       else (match decode_column aes_decrypt b64_decode hash (ac_manager w) with
             | Some _ => Ok username
             | None => Err SqlxOther
             end, with_accounts (<[username := (uuid (ac_draws w), hash)]> (ac_accounts w)) w))).

(** src/src/routes/auth.rs:174-189 login, the row of the account: its password hash *)
Definition login_row (username : string) : Access string :=
  row ← from_sqlx_error (statement (fun w =>
    (match ac_accounts w !! username with
     | None => Ok None
     | Some (_, raw) => match decode_column aes_decrypt b64_decode raw (ac_manager w) with
                   | Some h => Ok (Some h)
                   | None => Err SqlxOther
                   end
     end, w)));
  match row with
  | Some h => mret h
  | None => throw (EApp (Unauthorized "Invalid credentials"))
  end.
End access.

(** ** Lemmas *)

Lemma role_round_trip r : role_try_from (as_str r) = Some r.
Proof. by destruct r. Qed.

Lemma role_try_from_Some s r : role_try_from s = Some r -> s = as_str r.
Proof.
  unfold role_try_from.
  repeat match goal with |- context [String.eqb s ?t] => destruct (String.eqb_spec s t) as [-> |]; [by intros [= <-] |] end.
  done.
Qed.

Section statements.
Context {St : Type} `{Redis string St}.
Implicit Types (w : AccessWorld (St := St)).

(** What a statement leaves and answers, whatever fault it meets. *)
Lemma statement_cases {A} (q : AccessWorld (St := St) -> result A sqlx_error * AccessWorld (St := St)) w r w' :
  statement q w = (r, w') ->
  exists l, let w0 := snd (next_fault w) in
    ac_roles w0 = ac_roles w /\ ac_keys w0 = ac_keys w /\ ac_accounts w0 = ac_accounts w /\
    ac_manager w0 = ac_manager w /\ ac_draws w0 = ac_draws w /\ ac_admins w0 = ac_admins w /\
    aw_now (ac_auth w0) = aw_now (ac_auth w) /\ aw_faults (ac_auth w0) = l /\
    ((w' = w0 /\ r = Err SqlxOther) \/ (w' = snd (q w0) /\ (r = Err SqlxOther \/ r = fst (q w0)))).
Proof.
  unfold statement, remote. bind_step. simpl. destruct (pop_fault (aw_faults (ac_auth w))) as [f l]. simpl.
  destruct f; [| by intros [= <- <-]; exists l; split_and!; auto |];
    destruct (q _) as [a w2]; intros [= <- <-]; exists l; split_and!; auto.
Qed.

Lemma statement_calm {A} (q : AccessWorld (St := St) -> result A sqlx_error * AccessWorld (St := St)) w :
  aw_faults (ac_auth w) = [] -> statement q w = q w.
Proof.
  intros Hf. unfold statement, remote. bind_step. simpl. rewrite Hf. simpl.
  assert (w = {| ac_auth := {| aw_families := aw_families (ac_auth w); aw_redis := aw_redis (ac_auth w);
                               aw_creators := aw_creators (ac_auth w); aw_now := aw_now (ac_auth w);
                               aw_uuids := aw_uuids (ac_auth w); aw_faults := [] |};
                 ac_manager := ac_manager w; ac_roles := ac_roles w; ac_keys := ac_keys w;
                 ac_admins := ac_admins w; ac_accounts := ac_accounts w; ac_draws := ac_draws w |}) as <-
    by (destruct w as [[] ? ? ? ? ? ?]; simpl in *; by subst).
  by destruct (q w).
Qed.
End statements.

(** The tables an operation keeps. *)
Section access_laws.
Context {St : Type} `{RedisLaws string St}.
Variable env : environment.
Variable jwt_decode_header : string -> option (string * option string).
Variable jwt_decode : string -> Z -> Z -> string -> option Claims.
Implicit Types (w : AccessWorld (St := St)).

Abbreviation claims_of := (access_claims env jwt_decode_header jwt_decode).

(** What an accepted access token vouches for: a key of the server verified its
    claims, they are of this service and of the kind "access", and where Redis
    is configured it answered that the token is not denylisted and that its
    epoch is current. *)
Definition vouched (token : string) (claims : Claims) (a : AuthWorld (St := St)) : Prop :=
  (exists ks kid secret, load_keyset env = Ok ks /\ keys ks !! kid = Some secret /\
     jwt_decode secret CLOCK_SKEW_LEEWAY_SECS (aw_now a) token = Some claims) /\
  iss claims = jwt_issuer env /\ aud claims = jwt_audience env /\ kind claims = "access" /\
  forall s, aw_redis a = Some s ->
    r_get (aw_now a * 1000) (denylist_key (jti claims)) s = None /\
    default 0 (v ← r_get (aw_now a * 1000) (epoch_key (sub claims)) s; parse_i64 v) <= tv claims.

Lemma validate_token_ok token claims (a a' : AuthWorld (St := St)) :
  validate_token (St := St) env jwt_decode_header jwt_decode token "access" a = (Ok claims, a') ->
  a' = a /\ iss claims = jwt_issuer env /\ aud claims = jwt_audience env /\ kind claims = "access" /\
  exists ks kid secret, load_keyset env = Ok ks /\ keys ks !! kid = Some secret /\
    jwt_decode secret CLOCK_SKEW_LEEWAY_SECS (aw_now a) token = Some claims.
Proof.
  unfold validate_token, expect, fail_with, lift, utc_now, gets. bind_step.
  destruct (load_keyset env) as [ks |] eqn:Hks; [| done]. bind_step.
  destruct (jwt_decode_header token) as [[alg kid] |]; simpl; [| done].
  case_bool_decide; simpl; [| done]. bind_step.
  destruct (keys ks !! default (active_kid ks) kid) as [secret |] eqn:Hsec; simpl; [| done]. do 2 bind_step.
  destruct (jwt_decode secret CLOCK_SKEW_LEEWAY_SECS (aw_now a) token) as [c |] eqn:Hdec; simpl; [| done].
  case_bool_decide as Hi; simpl; [| done]. case_bool_decide as Ha; simpl; [| done].
  case_bool_decide as Hk; simpl; [| done]. intros [= <- <-]. split_and!; eauto 10.
Qed.

Lemma check_not_revoked_ok j u n (a a' : AuthWorld (St := St)) :
  check_not_revoked j u n a = (Ok tt, a') ->
  forall s, aw_redis a = Some s ->
    r_get (aw_now a * 1000) (denylist_key j) s = None /\
    default 0 (v ← r_get (aw_now a * 1000) (epoch_key u) s; parse_i64 v) <= n.
Proof.
  unfold check_not_revoked, redis. intros Hc s Hs. revert Hc. bind_step. rewrite Hs. simpl.
  destruct (pop_fault (aw_faults a)) as [[] l]; simpl; try done.
  destruct (r_get (aw_now a * 1000) (epoch_key u) s) as [v |]; simpl.
  - destruct (parse_i64 v) as [e |]; simpl; [| done].
    destruct (r_get (aw_now a * 1000) (denylist_key j) s); [done |].
    destruct (Z.ltb_spec n e); [done | by split].
  - destruct (r_get (aw_now a * 1000) (denylist_key j) s); [done |].
    destruct (Z.ltb_spec n 0); [done | by split].
Qed.

Lemma access_claims_ok token claims w w' :
  claims_of token w = (Ok claims, w') -> vouched token claims (ac_auth w).
Proof.
  unfold access_claims, map_err, on_auth. bind_step.
  destruct (validate_token _ _ _ token "access" (ac_auth w)) as [[c | []] a1] eqn:Hv; try done. bind_step.
  apply validate_token_ok in Hv as (-> & Hi & Ha & Hk & Hdec). simpl.
  destruct (check_not_revoked (jti c) (sub c) (tv c) (ac_auth w)) as [[[] |] a2] eqn:Hr; [| done].
  intros [= <- _]. split_and!; [done | done | done | done |].
  by eapply check_not_revoked_ok.
Qed.
End access_laws.

(** ** A concrete server, for the witnesses *)

Definition demo_auth : AuthWorld (St := redis_map string) :=
  {| aw_families := ∅; aw_redis := Some ∅; aw_creators := ∅; aw_now := 1000; aw_uuids := 0; aw_faults := [] |}.

Definition demo_access (keys : list ApiKeyRow) : AccessWorld (St := redis_map string) :=
  {| ac_auth := demo_auth; ac_manager := Some toy_manager; ac_roles := {["u0" := "creator"]}; ac_keys := keys;
     ac_admins := ∅; ac_accounts := {["ann" := ("u1", "$2b$12$x")]}; ac_draws := 0 |}.

(** The text that the column of a secret holds. *)
Definition demo_secret : string := default "" (encode_column toy_encrypt toy_encode "nonce 12byte" "tjs_1" (Some toy_manager)).

(** A token of the user u1 in the role [r], as Auth's demonstration library writes it. *)
Definition demo_token (r : string) : string :=
  default "" (demo_encode "default" "s3cret"
    {| sub := "u1"; kind := "access"; role := r; exp := 1900; iat := 1000; nbf := 1000; iss := "stellar-tipjar-backend";
       aud := "stellar-tipjar-api"; jti := "j"; family := None; tv := 0 |}).

Definition demo_key : ApiKeyRow :=
  {| ak_id := "1"; ak_key := "tjk_1"; ak_secret := demo_secret; ak_name := "bot"; ak_permissions := ["tips:write"];
     ak_active := true; ak_usage_count := 0; ak_created_at := 0; ak_rotated_at := None; ak_revoked_at := None |}.

Definition headers_of (l : list (string * string)) (name : string) : option string :=
  snd <$> List.find (fun kv => String.eqb (fst kv) name) l.

(** ** Theorems *)

(** Every text of the table of roles is that of a role. *)
Definition roles_typed {St} (w : AccessWorld (St := St)) : Prop :=
  map_Forall (fun _ s => exists r, s = as_str r) (ac_roles w).

(** C23: Roles are stored faithfully: the text of a role reads back as that role
    and no other text does, an assignment keeps the table well typed whatever
    the database does, and once it has succeeded the user holds exactly the
    permissions of the role, the other users those they had. *)
Theorem roles_stay_typed {St} `{RedisLaws string St} user role (w w' : AccessWorld (St := St)) r :
  (forall r s, role_try_from s = Some r <-> s = as_str r) /\
  (roles_typed w -> assign_role user role w = (r, w') ->
   roles_typed w' /\
   (r = Ok tt -> aw_faults (ac_auth w') = [] ->
      (forall p, fst (rbac_has_permission user p w') = Ok (allowed_for p role)) /\
      forall other, other <> user -> ac_roles w' !! other = ac_roles w !! other)).
Proof.
  split; [intros r0 s; split; [apply role_try_from_Some | intros ->; apply role_round_trip] |].
  intros Hw. unfold assign_role, from_sqlx_error, map_err.
  destruct (statement _ w) as [x w1] eqn:Hs. destruct (statement_cases _ _ _ _ Hs) as (l & Hro & _ & Hac & _ & _ & _ & _ & _ & Hc).
  assert (roles_typed w1 /\ (x = Ok tt -> ac_roles w1 = <[user := as_str role]> (ac_roles w))) as [Ht Hok].
  { destruct Hc as [[-> ->] | [-> Hx]]; [by split; [unfold roles_typed; rewrite Hro |] |].
    case_bool_decide; simpl in *.
    - unfold roles_typed. simpl. rewrite Hro. split; [apply map_Forall_insert_2; [by exists role | exact Hw] | done].
    - split; [unfold roles_typed; by rewrite Hro |]. intros ->. by destruct Hx. }
  destruct x as [[] | e]; intros [= <- <-]; split; try done. intros _ Hf. specialize (Hok eq_refl). split.
  - intros p. unfold rbac_has_permission, get_role, from_sqlx_error, map_err, statement, remote. do 3 bind_step. simpl.
    rewrite Hf. simpl. rewrite Hok, lookup_insert_eq. simpl. by rewrite role_round_trip.
  - intros other Hne. by rewrite Hok, lookup_insert_ne.
Qed.

Lemma roles_stay_typed_witness :
  let w' := snd (assign_role "u1" Moderator (demo_access [])) in
  fst (rbac_has_permission "u1" ModerateContent w') = Ok true /\
  fst (rbac_has_permission "u1" SendTip w') = Ok false /\ ac_roles w' !! "u0" = Some "creator".
Proof.
  intros w'.
  destruct (roles_stay_typed "u1" Moderator (demo_access []) w' (Ok tt)) as [_ Hrun].
  destruct Hrun as [_ Hgood].
  - intros k v Hk. exists CreatorRole. simpl in Hk. apply lookup_singleton_Some in Hk as [_ <-]. reflexivity.
  - reflexivity.
  - destruct Hgood as [Hp Ho]; [reflexivity | reflexivity |].
    split; [apply (Hp ModerateContent) |]. split; [apply (Hp SendTip) |].
    rewrite Ho by discriminate. reflexivity.
Defined.

(** C19: A handler behind [require_auth] and [require_permission] runs only for a
    token that the server vouches for and whose role has the permission; a role
    the server does not know has none.  Otherwise the answer is an error and
    the handler plays no part in it. *)
Theorem permission_enforced {St} `{RedisLaws string St} env jwt_decode_header jwt_decode headers p
    (w : AccessWorld (St := St)) :
  let run {R} (next : Role -> Claims -> Access (St := St) R) :=
    require_auth env jwt_decode_header jwt_decode
      (fun r c => require_permission p (next r c) (Some c) (Some r)) headers w in
  (exists token claims r w1, bearer_token headers = Some token /\ vouched env jwt_decode token claims (ac_auth w) /\
     role_try_from (Auth.role claims) = Some r /\ allowed_for p r = true /\
     forall R (next : Role -> Claims -> Access R), run next = next r claims w1) \/
  (exists e w1, forall R (next : Role -> Claims -> Access R), run next = (Err e, w1)).
Proof.
  intros run. unfold run, require_auth. destruct (bearer_token headers) as [token |]; [| right; by eexists _, _].
  destruct (access_claims env jwt_decode_header jwt_decode token w) as [[claims | e] w1] eqn:Hc;
    [| right; exists e, w1; intros R next; bind_step; by rewrite Hc].
  destruct (role_try_from (Auth.role claims)) as [r |] eqn:Hr.
  - destruct (allowed_for p r) eqn:Hp.
    + left. exists token, claims, r, w1. split_and!; [done | by eapply access_claims_ok | done | done |].
      intros R next. bind_step. rewrite Hc, Hr. unfold require_permission. simpl. by rewrite Hp.
    + right. eexists _, w1. intros R next. bind_step. rewrite Hc, Hr. unfold require_permission. simpl. by rewrite Hp.
  - right. eexists _, w1. intros R next. bind_step. rewrite Hc, Hr. unfold require_permission. simpl. by destruct p.
Qed.

Lemma permission_enforced_witness :
  let run r := require_auth demo_env demo_header demo_decode
    (fun r c => require_permission ModerateContent (mret tt) (Some c) (Some r))
    (headers_of [("authorization", "Bearer " +:+ demo_token r)]) (demo_access []) in
  is_ok (fst (run "moderator")) = true /\ is_ok (fst (run "creator")) = false /\ is_ok (fst (run "root")) = false /\
  exists claims, vouched demo_env demo_decode (demo_token "moderator") claims demo_auth.
Proof.
  intros run. split; [reflexivity |]. split; [reflexivity |]. split; [reflexivity |].
  destruct (permission_enforced demo_env demo_header demo_decode
    (headers_of [("authorization", "Bearer " +:+ demo_token "moderator")]) ModerateContent (demo_access []))
    as [(token & claims & r & w1 & Ht & Hv & _) | (e & w1 & He)].
  - vm_compute in Ht. injection Ht as <-. exists claims. exact Hv.
  - specialize (He unit (fun _ _ => mret tt)). vm_compute in He. discriminate He.
Defined.

(** C20: The gateway hands a handler an identity it can answer for: anonymous on a
    public path only, a user whose access token the server vouches for, or an API key
    whose row is usable and holds exactly the secret presented.  Otherwise the
    answer is an error and the handler plays no part in it. *)
Theorem gateway_identity_sound {St} `{RedisLaws string St} env jwt_decode_header jwt_decode aes_decrypt b64_decode
    path headers (w : AccessWorld (St := St)) :
  let run {R} (next : GatewayIdentity -> Access (St := St) R) :=
    gateway_auth env jwt_decode_header jwt_decode aes_decrypt b64_decode next path headers w in
  (exists id w1, (forall R (next : GatewayIdentity -> Access R), run next = next id w1) /\
     match id with
     | AnonymousId => is_public path = true
     | Jwt subject role =>
         exists token claims, bearer_token headers = Some token /\
           vouched env jwt_decode token claims (ac_auth w) /\ subject = sub claims /\ role = Auth.role claims
     | ApiKey key _ permissions =>
         exists k secret, k ∈ ac_keys w /\ usable k = true /\ ak_key k = key /\ ak_secret k = secret /\
           ak_permissions k = permissions /\ header_str headers "x-api-key" = Some key /\
           header_str headers "x-api-secret" = Some secret
     end) \/
  (exists e w1, forall R (next : GatewayIdentity -> Access R), run next = (Err e, w1)).
Proof.
  intros run. unfold run, gateway_auth. destruct (is_public path) eqn:Hp; [left; by exists AnonymousId, w |].
  destruct (bearer_token headers) as [token |].
  { destruct (access_claims env jwt_decode_header jwt_decode token w) as [[claims | e] w1] eqn:Hc.
    - left. exists (Jwt (sub claims) (Auth.role claims)), w1. split; [intros R next; bind_step; by rewrite Hc |].
      exists token, claims. split_and!; [done | by eapply access_claims_ok | done | done].
    - right. exists e, w1. intros R next. bind_step. by rewrite Hc. }
  destruct (header_str headers "x-api-key") as [key |]; [| right; by eexists _, _].
  destruct (header_str headers "x-api-secret") as [secret |]; [| right; by eexists _, _].
  destruct (verify aes_decrypt b64_decode key secret w) as [[row | e] w1] eqn:Hv.
  - left. assert (exists w2, record_usage (ak_key row) w1 = (Ok tt, w2)) as [w2 Hu].
    { unfold record_usage, attempt. bind_step. destruct (statement _ w1) as [x w2]. by exists w2. }
    exists (ApiKey (ak_key row) (ak_name row) (ak_permissions row)), w2. split.
    { intros R next. bind_step. unfold attempt. rewrite Hv. bind_step. by rewrite Hu. }
    unfold verify in Hv. apply statement_cases in Hv as (l & _ & Hk & _ & _ & _ & _ & _ & _ & [[_ ?] | [_ [? | Hr]]]); try done.
    simpl in Hr. unfold fetch_one in Hr. simpl in Hk. rewrite Hk in Hr.
    destruct (List.find _ (ac_keys w)) as [k |] eqn:Hf; [| done].
    apply find_some in Hf as [Hin Hcond]. apply andb_true_iff in Hcond as [[Hkey Hsec]%andb_true_iff Hus].
    apply String.eqb_eq in Hkey, Hsec. subst key secret.
    unfold decode_row in Hr. destruct (decode_column _ _ _ _); [| done]. injection Hr as ->. simpl.
    exists k, (ak_secret k). split_and!; try done. by apply list_elem_of_In.
  - right. eexists _, w1. intros R next. bind_step. unfold attempt. rewrite Hv. reflexivity.
Qed.

Lemma gateway_identity_sound_witness :
  let run secret := gateway_auth demo_env demo_header demo_decode toy_decrypt toy_decode
    (fun id => mret id) "/api/v1/admin" (headers_of [("x-api-key", "tjk_1"); ("x-api-secret", secret)])
    (demo_access [demo_key]) in
  fst (run demo_secret) = Ok (ApiKey "tjk_1" "bot" ["tips:write"]) /\ is_ok (fst (run "tjs_2")) = false.
Proof.
  intros run. split; [reflexivity |].
  destruct (gateway_identity_sound demo_env demo_header demo_decode toy_decrypt toy_decode
    "/api/v1/admin" (headers_of [("x-api-key", "tjk_1"); ("x-api-secret", "tjs_2")]) (demo_access [demo_key]))
    as [(id & w1 & _ & Hid) | (e & w1 & He)].
  - exfalso. destruct id as [subject role | key name permissions |]; simpl in Hid.
    + destruct Hid as (t & c & Ht & _). discriminate Ht.
    + destruct Hid as (k & secret & Hin & _ & _ & Hs & _ & _ & Hh).
      apply list_elem_of_singleton in Hin. subst k. vm_compute in Hh, Hs. congruence.
    + discriminate Hid.
  - unfold run. rewrite (He _ (fun id => mret id)). reflexivity.
Defined.

(** No API key can be issued: a generated key has 68 characters and its column
    takes 64, so every creation is refused, whatever the database does
    otherwise.  Rotating a key that exists therefore switches it off and
    returns an error in the place of its successor. *)
Theorem api_keys_never_issued {St} aes_decrypt b64_decode random_hex uuid (w : AccessWorld (St := St)) :
  (forall n, String.length (random_hex n) = 64%nat) ->
  (forall req, let '(r, w') := create_api_key aes_decrypt b64_decode random_hex uuid req w in
     is_ok r = false /\ ac_keys w' = ac_keys w) /\
  (forall key, aw_faults (ac_auth w) = [] ->
     let '(r, w') := rotate_api_key aes_decrypt b64_decode random_hex uuid key w in
     is_ok r = false /\ forall k, k ∈ ac_keys w' -> ak_key k = key -> usable k = false).
Proof.
  intros Hlen.
  assert (forall name permissions (v : AccessWorld (St := St)),
    let '(r, v') := create aes_decrypt b64_decode random_hex uuid name permissions v in
    is_ok r = false /\ ac_keys v' = ac_keys v) as Hcreate.
  { intros name permissions v. unfold create, generate_key. do 2 bind_step. bind_step.
    destruct (statement _ _) as [x v1] eqn:Hs.
    apply statement_cases in Hs as (l & _ & Hk & _ & _ & _ & _ & _ & _ & Hc).
    assert (forall u, insert_key (St := St) aes_decrypt b64_decode uuid ("tjk" +:+ "_" +:+ random_hex (ac_draws v))
        ("tjs" +:+ "_" +:+ random_hex (S (ac_draws v))) name permissions u = (Err (SqlxDatabase (Some "22001") None), u)) as Hi.
    { intros u. unfold insert_key. by rewrite !string_length_app, Hlen. }
    destruct Hc as [[-> ->] | [-> [-> | Hx]]]; rewrite ?Hi in *; simpl in *; [done | done | by subst x]. }
  split.
  - intros req. unfold create_api_key, from_sqlx_error, map_err. specialize (Hcreate (ck_name req) (ck_permissions req) w).
    destruct (create _ _ _ _ _ _ w) as [[a | e] w1]; [by destruct Hcreate | split; [done | by destruct Hcreate]].
  - intros key Hf. unfold rotate_api_key, or_unauthorized, map_err, rotate. bind_step. rewrite statement_calm by done.
    set (hit k := String.eqb (ak_key k) key && usable k).
    set (off k := deactivated (Some (aw_now (ac_auth w))) (ak_revoked_at k) k).
    assert (forall k, k ∈ map (fun k => if hit k then off k else k) (ac_keys w) -> ak_key k = key -> usable k = false) as Hoff.
    { intros k (k0 & <- & Hk0)%list_elem_of_In%in_map_iff. unfold hit. destruct (String.eqb_spec (ak_key k0) key) as [E | E]; simpl.
      - destruct (usable k0) eqn:Hu; [done | by intros _].
      - by intros ?. }
    destruct (match List.find hit (ac_keys w) with Some _ => _ | None => _ end) as [row | e]; simpl; [| by split].
    match goal with |- context [create _ _ _ _ _ _ ?v] => specialize (Hcreate (ak_name row) (ak_permissions row) v) end.
    destruct (create _ _ _ _ _ _ _) as [[a | e] w1]; destruct Hcreate as [Hno Hsame]; [done |].
    split; [done |]. rewrite Hsame. exact Hoff.
Qed.

Lemma api_keys_never_issued_witness :
  let hex (_ : nat) := "0123456789abcdef0123456789abcdef0123456789abcdef0123456789abcdef" in
  let run := create_api_key (fun _ _ _ => None) (fun _ => None) hex (fun _ => "1")
    {| ck_name := "bot"; ck_permissions := [] |} (demo_access [demo_key]) in
  is_ok (fst run) = false /\ ac_keys (snd run) = [demo_key].
Proof.
  intros hex run.
  destruct (api_keys_never_issued (fun _ _ _ => None) (fun _ => None) hex (fun _ => "1") (demo_access [demo_key]))
    as [Hcreate _]; [reflexivity |].
  specialize (Hcreate {| ck_name := "bot"; ck_permissions := [] |}). unfold run. revert Hcreate.
  destruct (create_api_key _ _ _ _ _ _) as [r w1]. intros [Hr Hk]. split; [exact Hr | exact Hk].
Defined.

(** Registering answers an error and takes the username: the hash is written as
    it is, and reading back the new row decrypts it, which a bcrypt hash does
    not survive.  From then on the same registration is a conflict, and a
    login fails on the row. *)
Theorem registration_strands_account {St} aes_decrypt b64_decode uuid bcrypt_hash username password hash
    (w : AccessWorld (St := St)) :
  bcrypt_hash password = Some hash -> strip_prefix FORMAT_PREFIX hash = None ->
  aw_faults (ac_auth w) = [] -> ac_accounts w !! username = None ->
  let '(r, w') := register aes_decrypt b64_decode uuid bcrypt_hash username password w in
  r = Err (EApp (Database QueryFailed)) /\ is_Some (ac_accounts w' !! username) /\
  fst (register aes_decrypt b64_decode uuid bcrypt_hash username password w') =
    Err (EApp (Conflict "USERNAME_TAKEN" "Username already taken")) /\
  fst (login_row aes_decrypt b64_decode username w') = Err (EApp (Database QueryFailed)).
Proof.
  intros Hb Hp Hf Hnew.
  assert (forall m, decode_column aes_decrypt b64_decode hash m = None) as Hd.
  { intros [m |]; [| done].
    change (match decrypt_to_string aes_decrypt b64_decode hash m with Ok s => Some s | Err _ => None end = None).
    unfold decrypt_to_string. by rewrite Hp. }
  assert (forall v : AccessWorld (St := St), aw_faults (ac_auth v) = [] ->
    register aes_decrypt b64_decode uuid bcrypt_hash username password v =
      match ac_accounts v !! username with
      | Some _ => (Err (EApp (Conflict "USERNAME_TAKEN" "Username already taken")), v)
      | None => (Err (EApp (Database QueryFailed)),
                 with_accounts (<[username := (uuid (ac_draws v), hash)]> (ac_accounts v)) v)
      end) as Hreg.
  { intros v Hv. unfold register, expect. rewrite Hb. unfold lift. bind_step. unfold map_err. cbn [ok_or]. rewrite statement_calm by done.
     destruct (ac_accounts v !! username); simpl; [done |]. by rewrite Hd. }
  rewrite Hreg, Hnew by done. split_and!; [done | simpl; by rewrite lookup_insert_eq; eexists | |].
  - rewrite Hreg by done. simpl. by rewrite lookup_insert_eq.
  - unfold login_row, from_sqlx_error, map_err. bind_step. rewrite statement_calm by done. simpl.
    rewrite lookup_insert_eq. by rewrite Hd.
Qed.

Lemma registration_strands_account_witness :
  let run := register (fun _ _ _ => None) (fun _ => None) (fun _ => "u2") (fun _ => Some "$2b$12$abc")
    "bob" "pw" (demo_access []) in
  fst run = Err (EApp (Database QueryFailed)) /\ ac_accounts (snd run) !! "ann" = Some ("u1", "$2b$12$x") /\
  is_Some (ac_accounts (snd run) !! "bob").
Proof.
  intros run. pose proof (registration_strands_account (fun _ _ _ => None) (fun _ => None) (fun _ => "u2")
    (fun _ => Some "$2b$12$abc") "bob" "pw" "$2b$12$abc" (demo_access [])) as Hreg.
  split; [| split; [reflexivity |]].
  - unfold run. destruct (register _ _ _ _ _ _ _) as [r w1].
    destruct Hreg as [Hr _]; [reflexivity | reflexivity | reflexivity | reflexivity | exact Hr].
  - unfold run. destruct (register _ _ _ _ _ _ _) as [r w1].
    destruct Hreg as (_ & Hs & _); [reflexivity | reflexivity | reflexivity | reflexivity | exact Hs].
Defined.
