(* ===== verification/Quota.v ===== *)
(** * Gateway quotas

    The daily and monthly quotas of the gateway (src/src/gateway/quota_manager.rs)
    and the routes that show and change them (src/src/routes/rate_limit_analytics.rs).

    A request is admitted against the counter in Postgres, handled, and counted
    afterwards by a task that the middleware spawns and does not wait for.  So
    the middleware is two functions, [quota_check] before the handler and
    [quota_after] behind it, and the world keeps the tasks that have not run.
    The calendar is chrono's, a parameter: the year, month and day of an
    instant. *)

From S2P Require Import Prelude Text F64 Errors RateLimit.

(** ** The data *)

(** src/src/gateway/quota_manager.rs:25-28 QuotaPeriod *)
Inductive QuotaPeriod : Type := Daily | Monthly.

(** src/src/gateway/quota_manager.rs:40-45 QuotaPeriod::as_str *)
Definition period_str (p : QuotaPeriod) : string :=
  match p with Daily => "daily" | Monthly => "monthly" end.

(** src/src/gateway/quota_manager.rs:52-59 ClientQuota; a row of the table *)
Record ClientQuota : Type := {
  cq_client_id : string;
  cq_period : string;
  cq_max_requests : Z;
  cq_used_requests : Z;
  cq_period_start : string;
  cq_enabled : bool
}.

(** src/src/gateway/quota_manager.rs:62-64 ClientQuota::remaining *)
Definition quota_remaining (q : ClientQuota) : Z := Z.max (wrap_i64 (cq_max_requests q - cq_used_requests q)) 0.

(** src/src/gateway/quota_manager.rs:66-68 ClientQuota::is_exhausted *)
Definition is_exhausted (q : ClientQuota) : bool := cq_max_requests q <=? cq_used_requests q.

(** src/src/gateway/quota_manager.rs:70-76 ClientQuota::usage_ratio *)
Definition usage_ratio (q : ClientQuota) : f64 :=
  if cq_max_requests q =? 0 then f64_of_Z 1
  else f64_div (f64_of_Z (cq_used_requests q)) (f64_of_Z (cq_max_requests q)).

Section tiers.
Variable env : environment.

(** src/src/gateway/quota_manager.rs:403-408 env_i64 *)
Definition env_i64 (key : string) (dflt : Z) : Z := default dflt (env key ≫= parse_i64).

(** src/src/gateway/quota_manager.rs:81-89 tier_daily_quota *)
Definition tier_daily_quota (tier : string) : Z :=
  if String.eqb tier "anonymous" then env_i64 "QUOTA_ANON_DAILY" 1000
  else if String.eqb tier "free" then env_i64 "QUOTA_FREE_DAILY" 10000
  else if String.eqb tier "premium" then env_i64 "QUOTA_PREMIUM_DAILY" 100000
  else if String.eqb tier "admin" then env_i64 "QUOTA_ADMIN_DAILY" 1000000
  else 5000.

(** src/src/gateway/quota_manager.rs:91-99 tier_monthly_quota *)
Definition tier_monthly_quota (tier : string) : Z :=
  if String.eqb tier "anonymous" then env_i64 "QUOTA_ANON_MONTHLY" 10000
  else if String.eqb tier "free" then env_i64 "QUOTA_FREE_MONTHLY" 100000
  else if String.eqb tier "premium" then env_i64 "QUOTA_PREMIUM_MONTHLY" 1000000
  else if String.eqb tier "admin" then env_i64 "QUOTA_ADMIN_MONTHLY" 10000000
  else 50000.
End tiers.

(** src/src/gateway/quota_manager.rs:175-193 tier_from_identity *)
Definition quota_tier (identity : option GatewayIdentity) : string :=
  match identity with
  | Some (Jwt _ role) =>
      if String.eqb role "admin" || String.eqb role "superadmin" then "admin"
      else if String.eqb role "premium" then "premium"
      else "free"
  | Some (ApiKey _ _ permissions) =>
      if existsb (fun p => String.eqb p "*" || String.eqb p "admin") permissions then "admin"
      else if existsb (fun p => String.eqb p "premium") permissions then "premium"
      else "free"
  | Some AnonymousId | None => "anonymous"
  end.

Section quota.
Context {IpAddr : Type} (show_ip : IpAddr -> string).
Context {App Body : Type}.
Variable json_body : json -> Body.
Variable env : environment.
(** chrono: the date of an instant as "%Y-%m-%d" and its year and month. *)
Variable date : Z -> string.
Variable year_month : Z -> Z * Z.

(** [format!("{:02}", n)] of a month. *)
Definition two_digits (n : Z) : string := if n <? 10 then "0" +:+ print_Z n else print_Z n.

(** src/src/gateway/quota_manager.rs:32-38 QuotaPeriod::current_period_start *)
Definition current_period_start (p : QuotaPeriod) (now : Z) : string :=
  match p with
  | Daily => date now
  | Monthly => let '(y, m) := year_month now in print_Z y +:+ "-" +:+ two_digits m +:+ "-01"
  end.

(** A task spawned by a request: the client, the period and the tier to count. *)
Record CountTask : Type := {
  ct_client : string;
  ct_period : QuotaPeriod;
  ct_tier : string
}.

(** The table by client, period and start of the period (its primary key): the
    limit, the count and whether the row is enforced. *)
Record QuotaWorld : Type := {
  qw_rows : gmap (string * string * string) (Z * Z * bool);
  qw_now : Z;
  qw_tasks : list CountTask;
  qw_app : App;
  qw_faults : list fault
}.

#[export] Instance QuotaWorld_networked : Networked QuotaWorld := {
  next_fault w :=
    let '(f, l) := pop_fault (qw_faults w) in
    (f, {| qw_rows := qw_rows w; qw_now := qw_now w; qw_tasks := qw_tasks w; qw_app := qw_app w; qw_faults := l |})
}.

Definition Quota : Type -> Type := M QuotaWorld AppError.

Definition with_rows (m : gmap (string * string * string) (Z * Z * bool)) (w : QuotaWorld) : QuotaWorld :=
  {| qw_rows := m; qw_now := qw_now w; qw_tasks := qw_tasks w; qw_app := qw_app w; qw_faults := qw_faults w |}.

Definition with_tasks (l : list CountTask) (w : QuotaWorld) : QuotaWorld :=
  {| qw_rows := qw_rows w; qw_now := qw_now w; qw_tasks := l; qw_app := qw_app w; qw_faults := qw_faults w |}.

(** A statement that finds the row of a client and period, and the row as a
    record. *)
Definition row_key (client : string) (p : QuotaPeriod) (w : QuotaWorld) : string * string * string :=
  (client, period_str p, current_period_start p (qw_now w)).

Definition as_quota (key : string * string * string) (row : Z * Z * bool) : ClientQuota :=
  let '(client, period, start) := key in
  let '(max, used, enabled) := row in
  {| cq_client_id := client; cq_period := period; cq_max_requests := max; cq_used_requests := used;
     cq_period_start := start; cq_enabled := enabled |}.

(** A statement may meet a fault, or be refused by the database. *)
Definition quota_query {A} (q : QuotaWorld -> AppResult A * QuotaWorld) : Quota A :=
  r ← remote (app_error_from_sqlx SqlxOther) q;
  lift r.

(** ** The statements *)

(** src/src/gateway/quota_manager.rs:105-123 fetch_quota: every error is no row *)
Definition fetch_quota (client : string) (p : QuotaPeriod) : Quota (option ClientQuota) :=
  r ← attempt (E' := AppError) (quota_query (fun w =>
    (Ok (row ← qw_rows w !! row_key client p w;
         if (snd row : bool) then Some (as_quota (row_key client p w) row) else None), w)));
  mret (match r with Ok row => row | Err _ => None end).

(** A count out of the range of BIGINT is refused.

    src/src/gateway/quota_manager.rs:139-154 the statement of increment_quota *)
Definition count_request (client : string) (p : QuotaPeriod) (max_requests : Z) (w : QuotaWorld)
    : AppResult ClientQuota * QuotaWorld :=
  let key := row_key client p w in
  let row := match qw_rows w !! key with
             | Some (max, used, enabled) => (max, used + 1, enabled)
             | None => (max_requests, 1, true)
             end in
  if i64_max <? snd (fst row) then (Err (app_error_from_sqlx (SqlxDatabase (Some "22003") None)), w)
  else (Ok (as_quota key row), with_rows (<[key := row]> (qw_rows w)) w).

(** src/src/gateway/quota_manager.rs:127-155 increment_quota *)
Definition increment_quota (client : string) (p : QuotaPeriod) (tier : string) : Quota ClientQuota :=
  let max_requests := match p with
                      | Daily => tier_daily_quota env tier
                      | Monthly => tier_monthly_quota env tier
                      end in
  quota_query (count_request client p max_requests).

(** src/src/gateway/quota_manager.rs:355-372 get_daily_quotas; [scan] is the order
    in which the database visits the rows *)
Definition get_daily_quotas (scan : list ClientQuota -> list ClientQuota) : Quota (list ClientQuota) :=
  quota_query (fun w =>
    let rows := scan (map (fun kv => as_quota (fst kv) (snd kv)) (map_to_list (qw_rows w))) in
    (Ok (take 500 (sort_by (fun a b => cq_used_requests b <=? cq_used_requests a)
       (List.filter (fun q => String.eqb (cq_period q) "daily" &&
                              String.eqb (cq_period_start q) (current_period_start Daily (qw_now w))) rows))), w)).

(** src/src/gateway/quota_manager.rs:375-399 upsert_client_quota *)
Definition upsert_client_quota (client : string) (p : QuotaPeriod) (max_requests : Z) : Quota ClientQuota :=
  quota_query (fun w =>
    let key := row_key client p w in
    let row := match qw_rows w !! key with
               | Some (_, used, enabled) => (max_requests, used, enabled)
               | None => (max_requests, 0, true)
               end in
    (Ok (as_quota key row), with_rows (<[key := row]> (qw_rows w)) w)).

(** src/src/routes/rate_limit_analytics.rs:129-147 upsert_quota *)
Definition upsert_quota (client max_period : string) (max_requests : Z) : Quota ClientQuota :=
  if max_requests <=? 0 then throw (bad_request "max_requests must be a positive integer")
  else upsert_client_quota client (if String.eqb max_period "monthly" then Monthly else Daily) max_requests.

(** ** The middleware *)

Abbreviation Request := (GwRequest (IpAddr := IpAddr)).

(** src/src/gateway/quota_manager.rs:159-173 client_id_from_identity *)
Definition client_id_from_identity (identity : option GatewayIdentity) (req : Request) : string :=
  match identity with
  | Some (Jwt subject _) => "jwt:" +:+ subject
  | Some (ApiKey key _ _) => "apikey:" +:+ Stdlib.Strings.String.substring 0 (Nat.min (slength key) 16) key
  | _ => match rq_peer req with
         | Some ip => "ip:" +:+ show_ip ip
         | None => "ip:unknown"
         end
  end.

(** src/src/gateway/quota_manager.rs:197-225 quota_too_many_requests *)
Definition quota_too_many_requests (rid : json) (client : string) (p : QuotaPeriod) (used max : Z) : Response Body :=
  let reset_hint := match p with Daily => "at midnight UTC" | Monthly => "at the start of next month" end in
  let body := JObj [("error", JStr "API quota exhausted"); ("code", JStr "QUOTA_EXCEEDED"); ("status", JNum 429);
    ("details", JObj [("client_id", JStr client); ("period", JStr (period_str p)); ("used", JNum used);
                      ("limit", JNum max); ("resets", JStr reset_hint)]);
    ("request_id", rid)] in
  with_headers (fun hs => header_insert "X-Quota-Period" (period_str p)
                          (header_insert "X-Quota-Remaining" "0" (header_insert "X-Quota-Limit" (print_i64 max) hs)))
    {| resp_status := 429; resp_headers := []; resp_body := json_body body |}.

(** src/src/gateway/quota_manager.rs:227-243 inject_quota_headers *)
Definition inject_quota_headers (q : ClientQuota) : Response Body -> Response Body :=
  with_headers (fun hs =>
    header_insert "X-Quota-Period" (cq_period q)
    (header_insert "X-Quota-Remaining" (print_i64 (quota_remaining q))
    (header_insert "X-Quota-Limit" (print_i64 (cq_max_requests q)) hs))).

(** src/src/gateway/quota_manager.rs:257-259 whether quotas are enforced; [lower]
    on the bytes is [to_lowercase] on a text that can equal "false" *)
Definition enforcement_enabled : bool :=
  match env "QUOTA_ENFORCEMENT_ENABLED" with
  | Some v => negb (String.eqb (map_chars lower v) "false")
  | None => true
  end.

(** src/src/gateway/quota_manager.rs:272-292 the check before the handler: the
    refusal, if it is one *)
Definition quota_check (rid : json) (client : string) : Quota (option (Response Body)) :=
  existing ← fetch_quota client Daily;
  mret (match existing with
        | Some q => if is_exhausted q
                    then Some (quota_too_many_requests rid client Daily (cq_used_requests q) (cq_max_requests q))
                    else None
        | None => None
        end).

(** src/src/gateway/quota_manager.rs:294-339 the work behind the handler: the task
    and the headers *)
Definition quota_after (client tier : string) (resp : Response Body) : Quota (Response Body) :=
  modify (fun w => with_tasks (qw_tasks w ++ [{| ct_client := client; ct_period := Daily; ct_tier := tier |}]) w);;
  now ← gets qw_now;
  mret (inject_quota_headers
    {| cq_client_id := client; cq_period := period_str Daily; cq_max_requests := tier_daily_quota env tier;
       cq_used_requests := 0; cq_period_start := current_period_start Daily now; cq_enabled := true |} resp).

(** src/src/gateway/quota_manager.rs:252-340 quota_enforcement *)
Definition quota_enforcement (rid : json) (next : Request -> Quota (Response Body)) (req : Request)
    : Quota (Response Body) :=
  if negb enforcement_enabled then next req
  else
    let client := client_id_from_identity (rq_identity req) req in
    let tier := quota_tier (rq_identity req) in
    refusal ← quota_check rid client;
    match refusal with
    | Some resp => mret resp
    | None => resp ← next req; quota_after client tier resp
    end.

(** src/src/gateway/quota_manager.rs:302-325 the spawned task *)
Definition run_task (t : CountTask) : Quota unit :=
  _ ← attempt (E' := AppError) (increment_quota (ct_client t) (ct_period t) (ct_tier t));
  mret tt.
End quota.

(** ** What a client is entitled to *)

(** The plans, by role of a session and by permission of an API key. *)
Inductive plan : Type := AnonymousPlan | FreePlan | PremiumPlan | AdminPlan.

Definition plan_of (identity : option GatewayIdentity) : plan :=
  match identity with
  | Some (Jwt _ role) =>
      if decide (role ∈ ["admin"; "superadmin"]) then AdminPlan
      else if decide (role = "premium") then PremiumPlan else FreePlan
  | Some (ApiKey _ _ permissions) =>
      if decide ("*" ∈ permissions \/ "admin" ∈ permissions) then AdminPlan
      else if decide ("premium" ∈ permissions) then PremiumPlan else FreePlan
  | _ => AnonymousPlan
  end.

(** Requests a day; the variable of a plan overrides its number. *)
Definition plan_quota (env : environment) (p : plan) : Z :=
  let '(variable, n) := match p with
                        | AnonymousPlan => ("QUOTA_ANON_DAILY", 1000)
                        | FreePlan => ("QUOTA_FREE_DAILY", 10000)
                        | PremiumPlan => ("QUOTA_PREMIUM_DAILY", 100000)
                        | AdminPlan => ("QUOTA_ADMIN_DAILY", 1000000)
                        end in
  match env variable with
  | Some text => default n (parse_i64 text)
  | None => n
  end.

Lemma tier_of_plan env identity :
  tier_daily_quota env (quota_tier identity) = plan_quota env (plan_of identity).
Proof.
  assert (forall p, plan_quota env p = tier_daily_quota env
            match p with AnonymousPlan => "anonymous" | FreePlan => "free" | PremiumPlan => "premium" | AdminPlan => "admin" end)
    as -> by (intros []; unfold plan_quota, tier_daily_quota, env_i64; simpl; by destruct (env _)).
  f_equal. destruct identity as [[subject role | key name permissions |] |]; simpl; [| | done | done].
  - destruct (String.eqb_spec role "admin"), (String.eqb_spec role "superadmin"), (String.eqb_spec role "premium"); simpl;
      repeat case_decide; set_solver.
  - assert (existsb (fun p => String.eqb p "*" || String.eqb p "admin") permissions = true <->
            "*" ∈ permissions \/ "admin" ∈ permissions) as H1.
    { rewrite existsb_exists. setoid_rewrite orb_true_iff. setoid_rewrite String.eqb_eq. setoid_rewrite <- list_elem_of_In.
      naive_solver. }
    assert (existsb (fun p => String.eqb p "premium") permissions = true <-> "premium" ∈ permissions) as H2.
    { rewrite existsb_exists. setoid_rewrite String.eqb_eq. setoid_rewrite <- list_elem_of_In. naive_solver. }
    destruct (existsb _ permissions), (existsb (fun p => String.eqb p "premium") permissions); repeat case_decide; naive_solver.
Qed.

(** ** Concurrent requests on one table *)

Section system.
Context {IpAddr App Body : Type} (show_ip : IpAddr -> string).
Variable json_body : json -> Body.
Variable env : environment.
Variable date : Z -> string.
Variable year_month : Z -> Z * Z.

Abbreviation World := (QuotaWorld (App := App)).
Implicit Types (w : World) (client c : string).

(** The requests that were admitted and are being handled, with their tier, and
    the clients of all that were admitted. *)
Record QuotaSystem : Type := {
  qs_world : World;
  qs_running : list (string * string);
  qs_admitted : list string
}.

(** The client of a request, as the middleware names it. *)
Abbreviation client_of req := (client_id_from_identity show_ip (rq_identity req) req).

(** [max] bounds what the client [c] may have in a day: the quotas of the plans
    under which its requests come, and the limits an administrator sets for it. *)
Inductive quota_step (c : string) (max : Z) : QuotaSystem -> QuotaSystem -> Prop :=
| QAdmit rid (req : GwRequest (IpAddr := IpAddr)) w w' running admitted :
    (client_of req = c -> plan_quota env (plan_of (rq_identity req)) <= max) ->
    quota_check json_body date year_month rid (client_of req) w = (Ok None, w') ->
    quota_step c max {| qs_world := w; qs_running := running; qs_admitted := admitted |}
      {| qs_world := w'; qs_running := (client_of req, quota_tier (rq_identity req)) :: running;
         qs_admitted := client_of req :: admitted |}
| QRefuse rid client resp w w' running admitted :
    quota_check json_body date year_month rid client w = (Ok (Some resp), w') ->
    quota_step c max {| qs_world := w; qs_running := running; qs_admitted := admitted |}
      {| qs_world := w'; qs_running := running; qs_admitted := admitted |}
| QFinish client tier (resp : Response Body) w before after admitted :
    quota_step c max {| qs_world := w; qs_running := before ++ (client, tier) :: after; qs_admitted := admitted |}
      {| qs_world := snd (quota_after env date year_month client tier resp w);
         qs_running := before ++ after; qs_admitted := admitted |}
| QTask t w before after running admitted :
    qw_tasks w = before ++ t :: after ->
    quota_step c max {| qs_world := w; qs_running := running; qs_admitted := admitted |}
      {| qs_world := snd (run_task env date year_month t (with_tasks (before ++ after) w));
         qs_running := running; qs_admitted := admitted |}
| QOverride client period n w running admitted :
    (client = c -> period <> "monthly" -> n <= max) ->
    quota_step c max {| qs_world := w; qs_running := running; qs_admitted := admitted |}
      {| qs_world := snd (upsert_quota date year_month client period n w);
         qs_running := running; qs_admitted := admitted |}
(** Time passes within the day, and the handlers work on the rest of the state. *)
| QPass now app w running admitted :
    date now = date (qw_now w) ->
    quota_step c max {| qs_world := w; qs_running := running; qs_admitted := admitted |}
      {| qs_world := {| qw_rows := qw_rows w; qw_now := now; qw_tasks := qw_tasks w; qw_app := app;
                        qw_faults := qw_faults w |};
         qs_running := running; qs_admitted := admitted |}.

Definition quota_start (w : World) : QuotaSystem := {| qs_world := w; qs_running := []; qs_admitted := [] |}.

Definition count (p : string -> bool) (l : list string) : Z := Z.of_nat (length (List.filter p l)).

(** How many requests of a client were admitted, and how many of them are not
    counted yet. *)
Definition served c (s : QuotaSystem) : Z := count (String.eqb c) (qs_admitted s).
Definition uncounted c (s : QuotaSystem) : Z :=
  count (String.eqb c) (map fst (qs_running s)) + count (String.eqb c) (map ct_client (qw_tasks (qs_world s))).

(** The calls that will fail. *)
Definition failures (w : World) : Z :=
  Z.of_nat (length (List.filter (fun f => negb (bool_decide (f = Fine))) (qw_faults w))).

(** Runs in which at most [peak] requests of the client are uncounted at a time. *)
Definition runs_within (max peak : Z) c : QuotaSystem -> QuotaSystem -> Prop :=
  rtc (fun s s' => quota_step c max s s' /\ uncounted c s' <= peak).

Definition set_faults (l : list fault) (w : World) : World :=
  {| qw_rows := qw_rows w; qw_now := qw_now w; qw_tasks := qw_tasks w; qw_app := qw_app w; qw_faults := l |}.

Lemma quota_query_run {A} (q : World -> AppResult A * World) w :
  (exists l, failures (set_faults l w) = failures w /\ quota_query q w = q (set_faults l w)) \/
  (exists l e, failures (set_faults l w) + 1 = failures w /\
     (quota_query q w = (Err e, set_faults l w) \/ quota_query q w = (Err e, snd (q (set_faults l w))))).
Proof.
  unfold quota_query, remote. bind_step. simpl. unfold failures, set_faults.
  destruct (qw_faults w) as [| [] l] eqn:Hf; simpl.
  - left. exists []. split; [done |]. by destruct (q _).
  - left. exists l. split; [done |]. by destruct (q _).
  - right. exists l, (app_error_from_sqlx SqlxOther). split; [simpl length; lia | by left].
  - right. exists l, (app_error_from_sqlx SqlxOther). split; [simpl length; lia | right]. by destruct (q _).
Qed.

Lemma count_cons p x l : count p (x :: l) = (if p x then 1 else 0) + count p l.
Proof. unfold count. simpl. destruct (p x); simpl length; lia. Qed.

Lemma count_app p l1 l2 : count p (l1 ++ l2) = count p l1 + count p l2.
Proof. unfold count. rewrite List.filter_app, length_app. lia. Qed.

Lemma count_nonneg p l : 0 <= count p l.
Proof. unfold count. lia. Qed.

Lemma uncounted_nonneg c s : 0 <= uncounted c s.
Proof. unfold uncounted, count. lia. Qed.

(** The row of the client of today: its limit and its count. *)
Definition today c w : option (Z * Z * bool) := qw_rows w !! row_key date year_month c Daily w.
Definition used c w : Z := match today c w with Some (_, u, _) => u | None => 0 end.

Section bound.
Variables (c : string) (max peak lost0 : Z).
Hypothesis peak_pos : 1 <= peak.
Hypothesis in_range : Z.max 1 max + peak + lost0 <= i64_max.

(** Every admitted request of the client is counted, will be, or fell to a
    failed call. *)
Record QInv (s : QuotaSystem) : Prop := {
  qi_lost : failures (qs_world s) <= lost0;
  qi_counted : used c (qs_world s) + uncounted c s <= served c s <=
               used c (qs_world s) + uncounted c s + (lost0 - failures (qs_world s));
  qi_bound : served c s <= Z.max 1 max + (peak - 1) + (lost0 - failures (qs_world s));
  qi_row m u e : today c (qs_world s) = Some (m, u, e) -> m <= max /\ e = true /\ 0 <= u;
  qi_daily t : t ∈ qw_tasks (qs_world s) ->
    ct_period t = Daily /\ (ct_client t = c -> tier_daily_quota env (ct_tier t) <= max);
  qi_running tier : (c, tier) ∈ qs_running s -> tier_daily_quota env tier <= max
}.

Lemma fetch_quota_run client w :
  exists l, snd (fetch_quota date year_month client Daily w) = set_faults l w /\
  ((failures (set_faults l w) = failures w /\
    fst (fetch_quota date year_month client Daily w) =
      Ok (row ← today client w; if (snd row : bool) then Some (as_quota (row_key date year_month client Daily w) row) else None)) \/
   (failures (set_faults l w) + 1 = failures w /\ fst (fetch_quota date year_month client Daily w) = Ok None)).
Proof.
  unfold fetch_quota, attempt. bind_step.
  match goal with |- context [quota_query ?q w] =>
    destruct (quota_query_run q w) as [(l & Hl & ->) | (l & e & Hl & [-> | ->])] end;
    exists l; simpl; auto.
Qed.

Lemma check_cases rid client w w' r :
  quota_check json_body date year_month rid client w = (Ok r, w') ->
  exists l, w' = set_faults l w /\
  ((failures w' = failures w /\
    match r with
    | Some _ => exists m u, today client w = Some (m, u, true) /\ m <= u
    | None => forall m u, today client w = Some (m, u, true) -> u < m
    end) \/
   (failures w' + 1 = failures w /\ r = None)).
Proof.
  unfold quota_check. bind_step. destruct (fetch_quota_run client w) as (l & Hw & Hq).
  destruct (fetch_quota date year_month client Daily w) as [q w1]. simpl in Hw, Hq. subst w1. exists l.
  destruct Hq as [[Hl ->] | [Hl ->]]; [| injection H as <- <-; by split; [| right]].
  destruct (today client w) as [[[m u] []] |]; simpl in H; [| injection H as <- <-; split; [done | by left] ..].
  unfold is_exhausted in H. simpl in H. destruct (Z.leb_spec m u); injection H as <- <-; (split; [done | left]).
  - split; [done |]. by exists m, u.
  - split; [done |]. by intros m' u' [= <- <-].
Qed.

Lemma refuse_inv l w running admitted :
  failures (set_faults l w) <= failures w ->
  QInv {| qs_world := w; qs_running := running; qs_admitted := admitted |} ->
  QInv {| qs_world := set_faults l w; qs_running := running; qs_admitted := admitted |}.
Proof.
  intros Hl [Hlost Hc Hb Hr Hd Hn]. constructor; try done; simpl in *;
    change (used c (set_faults l w)) with (used c w); unfold uncounted, served in *; simpl in *; lia.
Qed.

Lemma admit_inv rid client tier w w' running admitted :
  (client = c -> tier_daily_quota env tier <= max) ->
  quota_check json_body date year_month rid client w = (Ok None, w') ->
  uncounted c {| qs_world := w'; qs_running := (client, tier) :: running; qs_admitted := client :: admitted |} <= peak ->
  QInv {| qs_world := w; qs_running := running; qs_admitted := admitted |} ->
  QInv {| qs_world := w'; qs_running := (client, tier) :: running; qs_admitted := client :: admitted |}.
Proof.
  intros Hmax (l & -> & Hcase)%check_cases Hp [Hlost Hc Hb Hr Hd Hn].
  constructor; simpl in *; try done; try (intros t [[= <- <-] | Ht]%elem_of_cons; by auto); change (used c (set_faults l w)) with (used c w);
    unfold uncounted, served in *; simpl in *; rewrite !count_cons in *; destruct (String.eqb_spec c client) as [<- |].
  all: try (destruct Hcase as [[Hl _] | [Hl _]]; lia).
  destruct Hcase as [[Hl Ht] | [Hl _]]; [| lia]. unfold used in Hc.
  destruct (today c w) as [[[m u] e] |] eqn:Hrow; [| lia].
  destruct (Hr m u e eq_refl) as (Hm & -> & _). specialize (Ht m u eq_refl). lia.
Qed.

Lemma finish_inv client tier (resp : Response Body) w before after admitted :
  QInv {| qs_world := w; qs_running := before ++ (client, tier) :: after; qs_admitted := admitted |} ->
  QInv {| qs_world := snd (quota_after env date year_month client tier resp w);
          qs_running := before ++ after; qs_admitted := admitted |}.
Proof.
  intros [Hlost Hc Hb Hr Hd Hn].
  assert (count (String.eqb c) (map fst (before ++ (client, tier) :: after)) +
          count (String.eqb c) (map ct_client (qw_tasks w)) =
          count (String.eqb c) (map fst (before ++ after)) +
          count (String.eqb c) (map ct_client (qw_tasks w ++ [{| ct_client := client; ct_period := Daily; ct_tier := tier |}])))
    as Heq.
  { rewrite !map_app, !count_app. simpl. rewrite !count_cons. change (count (String.eqb c) []) with 0. lia. }
  constructor; simpl in *; try done.
  - change (used c (with_tasks _ w)) with (used c w). change (failures (with_tasks _ w)) with (failures w).
    unfold uncounted, served in *. simpl in *. lia.
  - intros t [Ht | ->%list_elem_of_singleton]%elem_of_app; [by apply Hd |]. split; [done |]. simpl. intros ->.
    apply Hn. apply elem_of_app. right. left.
  - intros t Ht. apply Hn. apply elem_of_app. apply elem_of_app in Ht as [? | ?]; [by left | right; by right].
Qed.

Definition rows_within w : Prop := forall m u e, today c w = Some (m, u, e) -> m <= max /\ e = true /\ 0 <= u.

(** A row of another client or another period. *)
Lemma today_other k row w w' :
  qw_rows w' = <[k := row]> (qw_rows w) -> qw_now w' = qw_now w -> k <> row_key date year_month c Daily w ->
  today c w' = today c w.
Proof. intros Hr Hn Hne. unfold today. unfold row_key in *. rewrite Hr, Hn. by apply lookup_insert_ne. Qed.

Lemma today_insert row w w' :
  qw_rows w' = <[row_key date year_month c Daily w := row]> (qw_rows w) -> qw_now w' = qw_now w ->
  today c w' = Some row.
Proof. intros Hr Hn. unfold today. unfold row_key in *. rewrite Hr, Hn. apply lookup_insert_eq. Qed.

(** What counting a request does to the row of the client. *)
Lemma count_request_effect client n w :
  (client = c -> n <= max) -> (client = c -> used c w < i64_max) -> rows_within w ->
  let w' := snd (count_request date year_month client Daily n w) in
  qw_tasks w' = qw_tasks w /\ failures w' = failures w /\ rows_within w' /\
  used c w' = used c w + (if String.eqb c client then 1 else 0).
Proof.
  intros Hn Hsmall Hr. unfold count_request.
  change (qw_rows w !! row_key date year_month client Daily w) with (today client w).
  destruct (String.eqb_spec c client) as [<- | Hne].
  - specialize (Hn eq_refl). specialize (Hsmall eq_refl). unfold used in Hsmall. unfold used at 2.
    destruct (today c w) as [[[m u] e] |] eqn:Hrow; simpl.
    + destruct (Hr m u e Hrow) as (? & -> & ?). destruct (Z.ltb_spec i64_max (u + 1)); [lia |]. simpl.
      split_and!; [done | done | |]; unfold used, rows_within; rewrite (today_insert (m, u + 1, true) w) by done; [| done].
      intros ? ? ? [= <- <- <-]. split_and!; [done | done | lia].
    + destruct (Z.ltb_spec i64_max 1); [done |]. simpl.
      split_and!; [done | done | |]; unfold used, rows_within; rewrite (today_insert (n, 1, true) w) by done; [| done].
      by intros ? ? ? [= <- <- <-].
  - set (row := match today client w with Some _ => _ | None => _ end).
    case_match; simpl; [split_and!; [done | done | done | lia] |].
    split_and!; [done | done | |]; unfold used, rows_within;
      rewrite (today_other (row_key date year_month client Daily w) row w) by (done || unfold row_key; congruence);
      [exact Hr | lia].
Qed.

(** Counting a request, or losing it to a failed call. *)
Lemma task_inv t w before after running admitted :
  qw_tasks w = before ++ t :: after ->
  QInv {| qs_world := w; qs_running := running; qs_admitted := admitted |} ->
  QInv {| qs_world := snd (run_task env date year_month t (with_tasks (before ++ after) w));
          qs_running := running; qs_admitted := admitted |}.
Proof.
  intros Ht [Hlost Hc Hb Hr Hd Hn]. simpl in *. set (w0 := with_tasks (before ++ after) w).
  destruct (Hd t) as [Hdaily Hmax]; [rewrite Ht; set_solver |].
  assert (forall t', t' ∈ qw_tasks w0 -> ct_period t' = Daily /\ (ct_client t' = c -> tier_daily_quota env (ct_tier t') <= max)) as Hd0.
  { intros t' Ht'. apply Hd. rewrite Ht. unfold w0 in Ht'. simpl in Ht'. set_solver. }
  assert (uncounted c {| qs_world := w; qs_running := running; qs_admitted := admitted |} =
          uncounted c {| qs_world := w0; qs_running := running; qs_admitted := admitted |} +
          (if String.eqb c (ct_client t) then 1 else 0)) as Hun.
  { unfold uncounted, w0. simpl. rewrite Ht, !map_app, !count_app. simpl. rewrite count_cons. lia. }
  unfold run_task, attempt. rewrite Hdaily. bind_step. unfold increment_quota.
  assert (ct_client t = c -> used c w < i64_max) as Hsmall.
  { intros He. rewrite He, String.eqb_refl in Hun.
    pose proof (uncounted_nonneg c {| qs_world := w0; qs_running := running; qs_admitted := admitted |}).
    assert (0 <= failures w) by (unfold failures; lia). lia. }
  change (failures w) with (failures w0) in *.
  destruct (quota_query_run (count_request date year_month (ct_client t) Daily (tier_daily_quota env (ct_tier t))) w0)
    as [(l & Hl & ->) | (l & e & Hl & [-> | ->])].
  1, 3: destruct (count_request_effect (ct_client t) (tier_daily_quota env (ct_tier t)) (set_faults l w0))
      as (Htasks & Hf & Hrow & Hused); [exact Hmax | exact Hsmall | exact Hr |];
    change (used c (set_faults l w0)) with (used c w) in Hused; change (qw_tasks (set_faults l w0)) with (qw_tasks w0) in Htasks;
    destruct (count_request _ _ _ _ _ _) as [r w1]; simpl in *;
    constructor; simpl; rewrite ?Htasks; try done; unfold uncounted, served in *; simpl in *; rewrite ?Htasks; lia.
  constructor; simpl; try done; change (used c (set_faults l w0)) with (used c w); unfold uncounted, served in *; simpl in *;
    destruct (String.eqb c (ct_client t)); lia.
Qed.

Lemma override_inv client p n w running admitted :
  (client = c -> p = Daily -> n <= max) ->
  QInv {| qs_world := w; qs_running := running; qs_admitted := admitted |} ->
  QInv {| qs_world := snd (upsert_client_quota date year_month client p n w);
          qs_running := running; qs_admitted := admitted |}.
Proof.
  intros Hmax [Hlost Hc Hb Hr Hd Hn]. simpl in *. unfold upsert_client_quota.
  match goal with |- context [quota_query ?q w] => set (f := q) end.
  assert (forall l, exists w', snd (f (set_faults l w)) = w' /\ qw_tasks w' = qw_tasks w /\
            failures w' = failures (set_faults l w) /\ rows_within w' /\ used c w' = used c w) as Hf.
  { intros l. eexists. split; [reflexivity |]. unfold f. simpl. split; [done |]. split; [done |].
    set (key := row_key date year_month client p (set_faults l w)). unfold rows_within, used at 1.
    destruct (decide (key = row_key date year_month c Daily w)) as [E | E].
    - assert (n <= max) as Hle by (apply Hmax; unfold key, row_key in E; [congruence | by destruct p]).
      change (qw_rows w !! key) with (qw_rows (set_faults l w) !! key).
      assert (qw_rows w !! key = today c w) as Htoday by (by rewrite E). simpl. rewrite Htoday. rewrite E.
      destruct (today c w) as [[[m u] e] |] eqn:Hrow; rewrite (today_insert _ w) by done.
      + destruct (Hr m u e eq_refl) as (_ & -> & ?). split; [by intros ? ? ? [= <- <- <-] |].
        unfold used. by rewrite Hrow.
      + split; [by intros ? ? ? [= <- <- <-] |]. unfold used. by rewrite Hrow.
    - rewrite (today_other key _ w) by done. by split. }
  destruct (quota_query_run f w) as [(l & Hl & ->) | (l & e & Hl & [-> | ->])].
  1, 3: destruct (Hf l) as (w' & Hw' & Htasks & Hfl & Hrow & Hused); rewrite ?Hw';
    try (destruct (f (set_faults l w)) as [r w1]; simpl in Hw'; subst w1); simpl;
    constructor; simpl; rewrite ?Htasks; try done; unfold uncounted, served in *; simpl in *; rewrite ?Htasks; lia.
  apply (refuse_inv l w); [simpl; lia | by constructor].
Qed.

Lemma quota_step_inv s s' : quota_step c max s s' /\ uncounted c s' <= peak -> QInv s -> QInv s'.
Proof.
  intros [Hs Hp] I. destruct Hs as [rid req w w' running admitted Hmax Hq | rid client resp w w' running admitted Hq
    | client tier resp w before after admitted | t w before after running admitted Ht
    | client p n w running admitted Hn | now app w running admitted Hday].
  - eapply admit_inv; [| exact Hq | exact Hp | exact I]. by rewrite tier_of_plan.
  - apply check_cases in Hq as (l & -> & Hcase). apply refuse_inv; [| done]. destruct Hcase; lia.
  - by apply finish_inv.
  - by apply task_inv.
  - unfold upsert_quota. destruct (n <=? 0); [exact I |].
    apply override_inv; [| exact I]. intros -> Hd. apply Hn; [done |]. intros ->. simpl in Hd. done.
  - destruct I as [Hlost Hc Hb Hr Hd Hr2].
    assert (forall rows tasks app' l, today c {| qw_rows := rows; qw_now := now; qw_tasks := tasks; qw_app := app'; qw_faults := l |} =
              today c {| qw_rows := rows; qw_now := qw_now w; qw_tasks := tasks; qw_app := app'; qw_faults := l |}) as Ht.
    { intros. unfold today, row_key. simpl. by rewrite Hday. }
    constructor; simpl in *; try done; unfold used; rewrite ?Ht; try done.
Qed.

Lemma quota_runs_inv s s' : runs_within max peak c s s' -> QInv s -> QInv s'.
Proof. induction 1; eauto using quota_step_inv. Qed.
End bound.

Lemma no_task_of t w : uncounted (ct_client t) (quota_start w) = 0 -> t ∈ qw_tasks w -> False.
Proof.
  unfold uncounted. simpl. intros H Hin. apply list_elem_of_split in Hin as (l1 & l2 & E).
  rewrite E, map_app, count_app in H. simpl in H. rewrite count_cons, String.eqb_refl in H.
  pose proof (count_nonneg (String.eqb (ct_client t)) (map ct_client l1)).
  pose proof (count_nonneg (String.eqb (ct_client t)) (map ct_client l2)). change (count _ []) with 0 in H. lia.
Qed.

(** Any number of requests that come in before the first is counted are admitted. *)
Lemma quota_overshoot (req : GwRequest (IpAddr := IpAddr)) n w max :
  let client := client_of req in
  plan_quota env (plan_of (rq_identity req)) <= max -> today client w = None -> qw_faults w = [] ->
  exists s, rtc (quota_step client max) (quota_start w) s /\ served client s = Z.of_nat n /\ uncounted client s = Z.of_nat n + uncounted client (quota_start w).
Proof.
  intros client Hmax Hrow Hf.
  assert (exists s, rtc (quota_step client max) (quota_start w) s /\ served client s = Z.of_nat n /\
            uncounted client s = Z.of_nat n + uncounted client (quota_start w) /\ qs_world s = w) as (s & Hs & Hn & Hu & _); [| by exists s].
  induction n as [| n IH]; [exists (quota_start w); split_and!; [done | done | lia | done] |].
  destruct IH as ([w0 running admitted] & Hs & Hn & Hu & Hw). simpl in Hw. subst w0.
  exists {| qs_world := w; qs_running := (client, quota_tier (rq_identity req)) :: running; qs_admitted := client :: admitted |}.
  unfold served, uncounted in *. simpl in *. rewrite !count_cons, !String.eqb_refl. split_and!; [| lia | lia | done].
  eapply rtc_r; [exact Hs |]. apply (QAdmit client max (JStr "") req); [done |]. fold client.
  unfold quota_check, fetch_quota, quota_query, remote, attempt. do 3 bind_step. simpl. rewrite Hf. simpl.
  change (qw_rows _ !! _) with (today client w). rewrite Hrow. simpl. unfold lift. simpl. destruct w; simpl in *. by subst.
Qed.
End system.

(** ** Theorems *)

(** C24: The daily quota bounds what a client is served.  Let [max] be at least the
    quota of every plan under which the requests of this client come and every
    daily limit an administrator sets for it; nothing is asked of the other
    clients.  In every interleaving of checks, handlers, counting tasks and
    changes of limits on a day that begins with no row and no uncounted request
    of the client, it is admitted at most [max] times (once if that is not
    positive), plus the requests that were admitted but not yet counted at one
    time less one, plus one for every call to the database that failed: with
    requests one at a time and no failure the limit is exact.  It is refused
    only when it was served as many requests as the limit in its row. *)
Theorem quota_bound {IpAddr App Body} (show_ip : IpAddr -> string) json_body env date year_month c max peak
    (w : QuotaWorld (App := App)) s :
  1 <= peak ->
  Z.max 1 max + peak + failures w <= i64_max ->
  today date year_month c w = None -> uncounted c (quota_start w) = 0 ->
  (forall t, t ∈ qw_tasks w -> ct_period t = Daily) ->
  runs_within (Body := Body) show_ip json_body env date year_month max peak c (quota_start w) s ->
  served c s <= Z.max 1 max + (peak - 1) + (failures w - failures (qs_world s)) /\
  forall rid resp w', quota_check json_body date year_month rid c (qs_world s) = (Ok (Some resp), w') ->
    exists limit n, today date year_month c (qs_world s) = Some (limit, n, true) /\ limit <= n <= served c s.
Proof.
  intros Hp Hrange Hrow Hnone Hd Hrun.
  assert (QInv env date year_month c max peak (failures w) (quota_start w)) as I0.
  { constructor; simpl; unfold used; rewrite ?Hrow; try done; change (served c (quota_start w)) with 0; try lia.
    - intros t Ht. split; [by apply Hd |]. intros <-. exfalso. eapply no_task_of; eauto.
    - intros tier Hin. by apply elem_of_nil in Hin. }
  pose proof (quota_runs_inv show_ip json_body env date year_month c max peak (failures w) Hp Hrange _ _ Hrun I0) as I.
  split; [apply (qi_bound _ _ _ _ _ _ _ _ I) |].
  intros rid resp w' (l & _ & [[_ (m & u & Hm & Hle)] | [_ ?]])%check_cases; [| done].
  exists m, u. split; [done |]. split; [done |].
  pose proof (proj1 (qi_counted _ _ _ _ _ _ _ _ I)) as Hc. unfold used in Hc. rewrite Hm in Hc.
  pose proof (uncounted_nonneg c s). lia.
Qed.

(** A day of one free client whose limit is set to 1, with a free plan of 10000. *)
Definition demo_date (_ : Z) : string := "2026-01-01".
Definition demo_year_month (_ : Z) : Z * Z := (2026, 1).
Definition no_quota_env : environment := fun _ => None.
Definition ip_text (a : unit) : string := "10.0.0.1".

Definition demo_request : GwRequest :=
  {| rq_path := "/"; rq_identity := Some (Jwt "ann" "user"); rq_xff := None; rq_peer := Some tt |}.
Definition demo_response : Response json := {| resp_status := 200; resp_headers := []; resp_body := JStr "" |}.
Definition demo_start : QuotaWorld (App := unit) :=
  {| qw_rows := ∅; qw_now := 0; qw_tasks := []; qw_app := tt; qw_faults := [] |}.
Definition demo_limited : QuotaWorld (App := unit) :=
  snd (upsert_quota demo_date demo_year_month "jwt:ann" "daily" 1 demo_start).
Definition demo_served : QuotaWorld (App := unit) :=
  snd (quota_after no_quota_env demo_date demo_year_month "jwt:ann" "free" demo_response demo_limited).
Definition demo_task : CountTask := {| ct_client := "jwt:ann"; ct_period := Daily; ct_tier := "free" |}.
Definition demo_counted : QuotaWorld (App := unit) :=
  snd (run_task no_quota_env demo_date demo_year_month demo_task (with_tasks [] demo_served)).

Lemma quota_bound_witness :
  let s := {| qs_world := demo_counted; qs_running := []; qs_admitted := ["jwt:ann"] |} in
  served "jwt:ann" s <= 10000 /\
  exists limit n, today demo_date demo_year_month "jwt:ann" demo_counted = Some (limit, n, true) /\ limit <= n <= served "jwt:ann" s.
Proof.
  intros s.
  destruct (quota_bound ip_text (fun j => j) no_quota_env demo_date demo_year_month "jwt:ann" 10000 1 demo_start s) as [Hb Hr].
  - lia.
  - vm_compute. discriminate.
  - reflexivity.
  - reflexivity.
  - intros t Ht. apply elem_of_nil in Ht. destruct Ht.
  - eapply rtc_l; [split; [apply (QOverride ip_text (fun j => j) no_quota_env demo_date demo_year_month _ _ "jwt:ann" "daily" 1);
      intros; lia | vm_compute; discriminate] |].
    eapply rtc_l; [split; [apply (QAdmit ip_text (fun j => j) no_quota_env demo_date demo_year_month _ _ (JStr "") demo_request);
      [intros _; vm_compute; discriminate | reflexivity] | vm_compute; discriminate] |].
    eapply rtc_l; [split; [apply (QFinish ip_text (fun j => j) no_quota_env demo_date demo_year_month _ _ "jwt:ann" "free" demo_response
      _ [] []) | vm_compute; discriminate] |].
    eapply rtc_l; [split; [apply (QTask ip_text (fun j => j) no_quota_env demo_date demo_year_month _ _
      demo_task _ [] []); reflexivity | vm_compute; discriminate] |].
    apply rtc_refl.
  - split; [simpl in Hb; vm_compute in Hb; vm_compute; exact Hb |].
    apply (Hr (JStr "") (quota_too_many_requests (fun j => j) (JStr "") "jwt:ann" Daily 1 1) demo_counted). reflexivity.
Defined.
