(* ===== verification/TxPool.v ===== *)
(** * The transaction pool

    src/src/services/tx_pool_service.rs and src/src/models/tx_pool.rs: a table of
    transactions to be confirmed on Stellar, and the worker that claims a batch
    of them, asks Horizon through StellarService and settles or reschedules
    each; src/src/routes/tx_pool.rs.

    A statement is atomic and may meet a fault.  The clock is that of the
    service, in nanoseconds.  The metadata is uninterpreted JSON; uuids, the
    rendering of an error and the order in which the database visits rows are
    parameters. *)

From S2P Require Import Prelude Text Codec Errors Resilience StellarService.

(** src/src/models/tx_pool.rs:8-13 TxPoolStatus *)
Inductive TxPoolStatus : Type := TxPending | TxProcessing | TxConfirmed | TxFailed.

#[export] Instance TxPoolStatus_eq_dec : EqDecision TxPoolStatus.
Proof. solve_decision. Defined.

Section pool.
Context {J : Type}.
(** Horizon and the environment, as in StellarService. *)
Variable get_tx : nat -> string -> http_reply HorizonTransactionResponse.
Variable env : environment.
Variable uuid : nat -> string.
Variable show_error : AppError -> string.
Variable scan : nat -> forall A, list A -> list A.

(** src/src/models/tx_pool.rs:16-27 TxPool *)
Record TxPool : Type := {
  tp_id : string;
  tp_transaction_hash : string;
  tp_status : TxPoolStatus;
  tp_retry_count : Z;
  tp_max_retries : Z;
  tp_last_error : option string;
  tp_metadata : J;
  tp_created_at : Z;
  tp_updated_at : Z;
  tp_next_retry_at : Z
}.

(** src/src/models/tx_pool.rs:31-38 EnqueueTxRequest *)
Record EnqueueTxRequest : Type := {
  er_transaction_hash : string;
  er_metadata : J;
  er_max_retries : option Z
}.

(** src/src/models/tx_pool.rs:42-51 TxPoolStatusResponse *)
Record TxPoolStatusResponse : Type := {
  ts_id : string;
  ts_transaction_hash : string;
  ts_status : TxPoolStatus;
  ts_retry_count : Z;
  ts_max_retries : Z;
  ts_last_error : option string;
  ts_created_at : Z;
  ts_updated_at : Z
}.

(** src/src/models/tx_pool.rs:53-66 TxPoolStatusResponse::from *)
Definition status_response (t : TxPool) : TxPoolStatusResponse :=
  {| ts_id := tp_id t; ts_transaction_hash := tp_transaction_hash t; ts_status := tp_status t;
     ts_retry_count := tp_retry_count t; ts_max_retries := tp_max_retries t;
     ts_last_error := tp_last_error t; ts_created_at := tp_created_at t; ts_updated_at := tp_updated_at t |}.

(** src/src/models/tx_pool.rs:70-75 TxPoolStats *)
Record TxPoolStats : Type := {
  st_pending : Z;
  st_processing : Z;
  st_confirmed : Z;
  st_failed : Z
}.

(** [NOW()] and sleeping are on the clock of the service; [tx_scans] counts the
    statements that scan the table. *)
Record TxWorld : Type := {
  tx_rows : list TxPool;
  tx_stellar : StellarService;
  tx_uuids : nat;
  tx_scans : nat;
  tx_faults : list fault
}.

#[export] Instance TxWorld_networked : Networked TxWorld := {
  next_fault w :=
    let '(f, l) := pop_fault (tx_faults w) in
    (f, {| tx_rows := tx_rows w; tx_stellar := tx_stellar w; tx_uuids := tx_uuids w; tx_scans := tx_scans w;
           tx_faults := l |})
}.

Definition Tx : Type -> Type := M TxWorld AppError.

Definition tx_now (w : TxWorld) : Z := clock (tx_stellar w).

Definition with_tx_rows (l : list TxPool) (w : TxWorld) : TxWorld :=
  {| tx_rows := l; tx_stellar := tx_stellar w; tx_uuids := tx_uuids w; tx_scans := tx_scans w;
     tx_faults := tx_faults w |}.

Definition tx_query {A} (q : TxWorld -> AppResult A * TxWorld) : Tx A :=
  r ← remote (app_error_from_sqlx SqlxOther) q;
  lift r.

(** A computation of the Stellar service in the world of the pool. *)
Definition on_stellar {A} (m : M StellarService AppError A) : Tx A := fun w =>
  let '(r, s) := m (tx_stellar w) in
  (r, {| tx_rows := tx_rows w; tx_stellar := s; tx_uuids := tx_uuids w; tx_scans := tx_scans w;
         tx_faults := tx_faults w |}).

(** [UPDATE tx_pool SET .. WHERE id = $1] *)
Definition update_tx (id : string) (f : TxPool -> TxPool) (l : list TxPool) : list TxPool :=
  map (fun t => if String.eqb (tp_id t) id then f t else t) l.

(** A row with its mutable columns. *)
Definition set_tx (st : TxPoolStatus) (retry_count : Z) (last_error : option string) (updated_at next_retry_at : Z)
    (t : TxPool) : TxPool :=
  {| tp_id := tp_id t; tp_transaction_hash := tp_transaction_hash t; tp_status := st;
     tp_retry_count := retry_count; tp_max_retries := tp_max_retries t; tp_last_error := last_error;
     tp_metadata := tp_metadata t; tp_created_at := tp_created_at t; tp_updated_at := updated_at;
     tp_next_retry_at := next_retry_at |}.

(** ** The service *)

(** src/src/services/tx_pool_service.rs:18-23 what enqueueing does to a row of the hash *)
Definition reset_row (now : Z) : TxPool -> TxPool := set_tx TxPending 0 None now now.

(** src/src/services/tx_pool_service.rs:14-31 the statement of enqueue *)
Definition upsert_tx (req : EnqueueTxRequest) (max_retries : Z) (w : TxWorld) : AppResult TxPool * TxWorld :=
  match List.find (fun t => String.eqb (tp_transaction_hash t) (er_transaction_hash req)) (tx_rows w) with
  | Some t => (Ok (reset_row (tx_now w) t), with_tx_rows (update_tx (tp_id t) (reset_row (tx_now w)) (tx_rows w)) w)
  | None =>
      let t := {| tp_id := uuid (tx_uuids w); tp_transaction_hash := er_transaction_hash req;
                  tp_status := TxPending; tp_retry_count := 0; tp_max_retries := max_retries;
                  tp_last_error := None; tp_metadata := er_metadata req; tp_created_at := tx_now w;
                  tp_updated_at := tx_now w; tp_next_retry_at := tx_now w |} in
      (Ok t, {| tx_rows := tx_rows w ++ [t]; tx_stellar := tx_stellar w; tx_uuids := S (tx_uuids w);
                tx_scans := tx_scans w; tx_faults := tx_faults w |})
  end.

(** src/src/services/tx_pool_service.rs:12-34 enqueue *)
Definition enqueue_tx (req : EnqueueTxRequest) : Tx TxPool :=
  tx_query (upsert_tx req (Z.max 1 (Z.min (default 5 (er_max_retries req)) 10))).

(** src/src/services/tx_pool_service.rs:37-43 get_by_hash *)
Definition get_by_hash (tx_hash : string) : Tx (option TxPool) :=
  tx_query (fun w => (Ok (List.find (fun t => String.eqb (tp_transaction_hash t) tx_hash) (tx_rows w)), w)).

(** src/src/services/tx_pool_service.rs:46-52 get_by_id *)
Definition get_by_id (id : string) : Tx (option TxPool) :=
  tx_query (fun w => (Ok (List.find (fun t => String.eqb (tp_id t) id) (tx_rows w)), w)).

(** src/src/services/tx_pool_service.rs:55-75 stats *)
Definition tx_stats : Tx TxPoolStats :=
  tx_query (fun w =>
    let count st := Z.of_nat (length (List.filter (fun t => bool_decide (tp_status t = st)) (tx_rows w))) in
    (Ok {| st_pending := count TxPending; st_processing := count TxProcessing;
           st_confirmed := count TxConfirmed; st_failed := count TxFailed |}, w)).

(** src/src/services/tx_pool_service.rs:88-89 the entries that are due *)
Definition tx_due (now : Z) (t : TxPool) : bool :=
  bool_decide (tp_status t = TxPending) && (tp_next_retry_at t <=? now).

Definition processing_row (now : Z) (t : TxPool) : TxPool :=
  set_tx TxProcessing (tp_retry_count t) (tp_last_error t) now (tp_next_retry_at t) t.

(** A negative limit is an error of the database.

    src/src/services/tx_pool_service.rs:83-99 the statement that claims a batch *)
Definition claim_batch (batch : Z) (w : TxWorld) : AppResult (list TxPool) * TxWorld :=
  if batch <? 0 then (Err (app_error_from_sqlx (SqlxDatabase (Some "2201W") None)), w)
  else
    let now := tx_now w in
    let due := sort_by (fun a b => tp_next_retry_at a <=? tp_next_retry_at b)
                 (List.filter (tx_due now) (scan (tx_scans w) TxPool (tx_rows w))) in
    let ids := map tp_id (take (Z.to_nat batch) due) in
    let claimed t := bool_decide (tp_id t ∈ ids) in
    (Ok (map (processing_row now) (List.filter claimed (scan (S (tx_scans w)) TxPool (tx_rows w)))),
     {| tx_rows := map (fun t => if claimed t then processing_row now t else t) (tx_rows w);
        tx_stellar := tx_stellar w; tx_uuids := tx_uuids w; tx_scans := S (S (tx_scans w));
        tx_faults := tx_faults w |}).

(** src/src/services/tx_pool_service.rs:157-157 the delay of a retry, in seconds *)
Definition backoff_secs (new_retry : Z) : Z := Z.min (wrap_u64 (30 * u64_saturating_pow 2 (wrap_u32 new_retry))) 3600.

Definition update_entry (id : string) (f : Z -> TxPool -> TxPool) : Tx unit :=
  tx_query (fun w => (Ok tt, with_tx_rows (update_tx id (f (tx_now w)) (tx_rows w)) w)).

(** src/src/services/tx_pool_service.rs:120-184 settling an entry by the answer *)
Definition settle_entry (entry : TxPool) (result : AppResult bool) : Tx unit :=
  match result with
  | Ok true =>
      update_entry (tp_id entry) (fun now t => set_tx TxConfirmed (tp_retry_count t) (tp_last_error t) now (tp_next_retry_at t) t)
  | _ =>
      let err_msg := match result with
                     | Err e => show_error e
                     | Ok _ => "transaction not found or unsuccessful"
                     end in
      let new_retry := wrap_i32 (tp_retry_count entry + 1) in
      if tp_max_retries entry <=? new_retry then
        update_entry (tp_id entry) (fun now t => set_tx TxFailed new_retry (Some err_msg) now (tp_next_retry_at t) t)
      else
        update_entry (tp_id entry) (fun now t => set_tx TxPending new_retry (Some err_msg) now (now + backoff_secs new_retry * 10 ^ 9) t)
  end.

(** src/src/services/tx_pool_service.rs:114-185 one entry of a batch *)
Definition process_entry (entry : TxPool) : Tx unit :=
  result ← attempt (E' := AppError) (on_stellar (verify_transaction get_tx env (tp_transaction_hash entry)));
  _ ← attempt (E' := AppError) (settle_entry entry result);
  mret tt.

(** src/src/services/tx_pool_service.rs:81-186 process_batch *)
Definition process_batch (batch : Z) : Tx unit :=
  rows ← attempt (E' := AppError) (tx_query (claim_batch batch));
  match rows with
  | Ok rows => forM rows tt (fun _ entry => process_entry entry)
  | Err _ => mret tt
  end.

(** src/src/services/tx_pool_service.rs:195-198 the size of a batch *)
Definition batch_size : Z := default 20 (env "TX_POOL_BATCH_SIZE" ≫= parse_i64).

(** ** The routes *)

(** src/src/routes/tx_pool.rs:24-33 enqueue *)
Definition enqueue_route (body : EnqueueTxRequest) : Tx (Z * TxPoolStatusResponse) :=
  if String.eqb (trim (er_transaction_hash body)) "" then throw (bad_request "transaction_hash is required")
  else entry ← enqueue_tx body; mret (201, status_response entry).

(** [None] is the body that says "not found".

    src/src/routes/tx_pool.rs:35-47 get_by_id *)
Definition get_by_id_route (id : string) : Tx (Z * option TxPoolStatusResponse) :=
  entry ← get_by_id id;
  mret (match entry with Some e => (200, Some (status_response e)) | None => (404, None) end).

(** src/src/routes/tx_pool.rs:49-61 get_by_hash *)
Definition get_by_hash_route (tx_hash : string) : Tx (Z * option TxPoolStatusResponse) :=
  entry ← get_by_hash tx_hash;
  mret (match entry with Some e => (200, Some (status_response e)) | None => (404, None) end).

(** src/src/routes/tx_pool.rs:63-66 stats *)
Definition stats_route : Tx (Z * TxPoolStats) := s ← tx_stats; mret (200, s).
End pool.
Arguments TxPool : clear implicits.
Arguments TxWorld : clear implicits.
Arguments EnqueueTxRequest : clear implicits.

(** ** What each operation does to the table *)

Section effects.
Context {J : Type}.
Variable get_tx : nat -> string -> http_reply HorizonTransactionResponse.
Variable env : environment.
Variable uuid : nat -> string.
Variable show_error : AppError -> string.
Variable scan : nat -> forall A, list A -> list A.
Hypothesis scan_perm : forall n A (l : list A), scan n A l ≡ₚ l.
Implicit Types (w : TxWorld J) (t entry : TxPool J).

Lemma tx_query_cases {A} (q : TxWorld J -> AppResult A * TxWorld J) w r w' :
  tx_query q w = (r, w') ->
  exists w1, tx_rows w1 = tx_rows w /\ tx_uuids w1 = tx_uuids w /\
    ((is_ok r = false /\ w' = w1) \/ (w' = snd (q w1) /\ (is_ok r = false \/ r = fst (q w1)))).
Proof.
  unfold tx_query, remote. bind_step. simpl. destruct (pop_fault (tx_faults w)) as [f l]. intros H.
  exists {| tx_rows := tx_rows w; tx_stellar := tx_stellar w; tx_uuids := tx_uuids w; tx_scans := tx_scans w;
            tx_faults := l |}.
  split_and!; try done. destruct f.
  - destruct (q _) as [a w2]. injection H as <- <-. simpl. eauto 6.
  - injection H as <- <-. by left.
  - destruct (q _) as [a w2]. injection H as <- <-. right. simpl. auto.
Qed.

(** The table after an enqueueing: a row of the hash is reset, or a new row. *)
Definition enqueues (hash : string) (n n' : nat) (l l' : list (TxPool J)) : Prop :=
  (n' = n /\ exists t now, t ∈ l /\ tp_transaction_hash t = hash /\ l' = update_tx (tp_id t) (reset_row now) l) \/
  (n' = S n /\ (forall t, t ∈ l -> tp_transaction_hash t <> hash) /\
   exists t, l' = l ++ [t] /\ tp_id t = uuid n /\ tp_transaction_hash t = hash /\ tp_status t = TxPending /\
     tp_retry_count t = 0 /\ 1 <= tp_max_retries t <= 10).

Lemma enqueue_tx_cases req w :
  let w' := snd (enqueue_tx uuid req w) in
  (tx_rows w' = tx_rows w /\ tx_uuids w' = tx_uuids w) \/
  enqueues (er_transaction_hash req) (tx_uuids w) (tx_uuids w') (tx_rows w) (tx_rows w').
Proof.
  unfold enqueue_tx. destruct (tx_query _ w) as [r w'] eqn:Hrun.
  destruct (tx_query_cases _ w r w' Hrun) as (w1 & Hr & Hu & [[_ ->] | [-> _]]); simpl; [by left | right].
  unfold upsert_tx. rewrite Hr. destruct (List.find _ _) as [t |] eqn:Hf; simpl; rewrite ?Hr, ?Hu; [left | right]; (split; [done |]).
  - apply find_some in Hf as [Hin%list_elem_of_In Hh%String.eqb_eq]. eauto.
  - split.
    + intros t Ht%list_elem_of_In. pose proof (find_none _ _ Hf t Ht) as Hn. by apply String.eqb_neq in Hn.
    + eexists. split; [reflexivity |]. simpl. split_and!; done || lia.
Qed.

(** The table after a claim, and the claimed rows. *)
Definition claims_rows (l l' claimed : list (TxPool J)) : Prop :=
  exists (p : TxPool J -> bool) now, l' = map (fun t => if p t then processing_row now t else t) l /\
    (forall t, t ∈ l -> p t = true -> tp_status t = TxPending) /\
    claimed ≡ₚ map (processing_row now) (List.filter p l).

Lemma claim_batch_cases batch w r w' :
  NoDup (tp_id <$> tx_rows w) ->
  tx_query (claim_batch scan batch) w = (r, w') ->
  tx_uuids w' = tx_uuids w /\
  ((tx_rows w' = tx_rows w /\ forall rows, r = Ok rows -> rows = []) \/
   exists claimed, claims_rows (tx_rows w) (tx_rows w') claimed /\ forall rows, r = Ok rows -> rows = claimed).
Proof.
  intros Hnd Hrun. destruct (tx_query_cases _ w r w' Hrun) as (w1 & Hr & Hu & Hc). unfold claim_batch in Hc.
  destruct Hc as [[Hno ->] | [-> Hc]]; [split; [done | left; split; [done |]]; intros rows ->; done |].
  destruct (batch <? 0); simpl in *; [split; [done | left; split; [done |]]; intros rows ->; by destruct Hc |].
  rewrite Hr in *. split; [done | right].
  set (p t := bool_decide (tp_id t ∈ map tp_id (take (Z.to_nat batch) _))) in *.
  exists (map (processing_row (tx_now w1)) (List.filter p (scan (S (tx_scans w1)) (TxPool J) (tx_rows w)))). split.
  - exists p, (tx_now w1). split; [done |]. split; [| by rewrite scan_perm].
    intros t Ht Hin%bool_decide_eq_true. apply list_elem_of_fmap in Hin as (t' & Hid & Hin).
    assert (t' ∈ List.filter (tx_due (tx_now w1)) (scan (tx_scans w1) (TxPool J) (tx_rows w))) as Hdue.
    { rewrite <- sort_by_perm. apply (subseteq_take (Z.to_nat batch)). exact Hin. }
    apply list_elem_of_In, filter_In in Hdue as [Hin' Hd]. apply list_elem_of_In in Hin'. rewrite scan_perm in Hin'.
    assert (t' = t) as <- by (by apply (nodup_key_inj tp_id (tx_rows w))).
    unfold tx_due in Hd. apply andb_true_iff in Hd as [Hd _]. by apply bool_decide_eq_true in Hd.
  - intros rows ->. by destruct Hc as [? | [= ->]].
Qed.

(** The row of an entry once its answer is in. *)
Inductive settled_tx entry (result : AppResult bool) t : TxPool J -> Prop :=
| st_confirm e u n : result = Ok true -> settled_tx entry result t (set_tx TxConfirmed (tp_retry_count t) e u n t)
| st_fail e u n : tp_max_retries entry <= wrap_i32 (tp_retry_count entry + 1) ->
    settled_tx entry result t (set_tx TxFailed (wrap_i32 (tp_retry_count entry + 1)) e u n t)
| st_retry e u n : wrap_i32 (tp_retry_count entry + 1) < tp_max_retries entry ->
    settled_tx entry result t (set_tx TxPending (wrap_i32 (tp_retry_count entry + 1)) e u n t).

Lemma settle_entry_cases entry result w :
  let w' := snd (settle_entry show_error entry result w) in
  tx_uuids w' = tx_uuids w /\
  (tx_rows w' = tx_rows w \/
   exists f : TxPool J -> TxPool J, tx_rows w' = update_tx (tp_id entry) f (tx_rows w) /\ forall t, settled_tx entry result t (f t)).
Proof.
  unfold settle_entry.
  assert (forall f w, (forall now t, settled_tx entry result t (f now t)) ->
    tx_uuids (snd (update_entry (tp_id entry) f w)) = tx_uuids w /\
    (tx_rows (snd (update_entry (tp_id entry) f w)) = tx_rows w \/
     exists g, tx_rows (snd (update_entry (tp_id entry) f w)) = update_tx (tp_id entry) g (tx_rows w) /\
       forall t, settled_tx entry result t (g t))) as Hupd.
  { intros f v Hf. unfold update_entry. destruct (tx_query _ v) as [r v'] eqn:Hrun.
    destruct (tx_query_cases _ v r v' Hrun) as (w1 & Hr & Hu & [[_ ->] | [-> _]]); simpl; rewrite ?Hr, ?Hu;
      (split; [done |]); [by left | right]. eexists. split; [reflexivity | done]. }
  destruct result as [[] | e]; [apply Hupd; intros; by apply st_confirm | |];
    (destruct (Z.leb_spec (tp_max_retries entry) (wrap_i32 (tp_retry_count entry + 1)));
      apply Hupd; intros; [by apply st_fail | by apply st_retry]).
Qed.

Lemma on_stellar_rows {A} (m : M StellarService AppError A) w :
  tx_rows (snd (on_stellar m w)) = tx_rows w /\ tx_uuids (snd (on_stellar m w)) = tx_uuids w.
Proof. unfold on_stellar. by destruct (m (tx_stellar w)). Qed.

(** The transaction is on the ledger and succeeded, as Horizon reported. *)
Definition reported_successful (hash : string) : Prop :=
  exists tx, tx_reported get_tx hash (Some tx) /\ successful tx = true.

Lemma verify_transaction_sound hash s s' :
  verify_transaction get_tx env hash s = (Ok true, s') -> reported_successful hash.
Proof.
  unfold verify_transaction. bind_step. intros H.
  destruct (allow_request (now_secs s) (circuit_breaker s)) eqn:Ha.
  - destruct (fetch_transaction_spec get_tx env hash s Ha) as (r & k & s1 & Hf & (_ & Hr & _) & _).
    rewrite Hf in H. destruct r as [[tx |] | e]; [| done | done]. injection H as Hs _.
    exists tx. split; [by eexists | done].
  - revert H. unfold fetch_transaction. bind_step. unfold gets. by rewrite Ha.
Qed.

(** ** The system: workers and clients on one table *)

(** The entries that workers have claimed, those they have an answer for, and
    the hashes of all verifications and of all calls to enqueue. *)
Record TxSystem : Type := {
  ty_world : TxWorld J;
  ty_held : list (TxPool J);
  ty_answered : list (TxPool J * AppResult bool);
  ty_verified : list string;
  ty_enqueued : list string
}.

Inductive tx_step : TxSystem -> TxSystem -> Prop :=
| TEnqueue req w held answered verified enqueued :
    tx_step {| ty_world := w; ty_held := held; ty_answered := answered; ty_verified := verified; ty_enqueued := enqueued |}
      {| ty_world := snd (enqueue_tx uuid req w); ty_held := held; ty_answered := answered; ty_verified := verified;
         ty_enqueued := er_transaction_hash req :: enqueued |}
| TClaim batch r w w' held answered verified enqueued :
    tx_query (claim_batch scan batch) w = (r, w') ->
    tx_step {| ty_world := w; ty_held := held; ty_answered := answered; ty_verified := verified; ty_enqueued := enqueued |}
      {| ty_world := w'; ty_held := match r with Ok rows => rows ++ held | Err _ => held end;
         ty_answered := answered; ty_verified := verified; ty_enqueued := enqueued |}
| TVerify entry w before after answered verified enqueued r w' :
    on_stellar (verify_transaction get_tx env (tp_transaction_hash entry)) w = (r, w') ->
    tx_step {| ty_world := w; ty_held := before ++ entry :: after; ty_answered := answered; ty_verified := verified;
               ty_enqueued := enqueued |}
      {| ty_world := w'; ty_held := before ++ after; ty_answered := (entry, r) :: answered;
         ty_verified := tp_transaction_hash entry :: verified; ty_enqueued := enqueued |}
| TSettle entry r w held before after verified enqueued :
    tx_step {| ty_world := w; ty_held := held; ty_answered := before ++ (entry, r) :: after; ty_verified := verified;
               ty_enqueued := enqueued |}
      {| ty_world := snd (settle_entry show_error entry r w); ty_held := held; ty_answered := before ++ after;
         ty_verified := verified; ty_enqueued := enqueued |}
(** A worker that dies with the entries it holds. *)
| TCrash held' answered' w held answered verified enqueued :
    held' ⊆+ held -> answered' ⊆+ answered ->
    tx_step {| ty_world := w; ty_held := held; ty_answered := answered; ty_verified := verified; ty_enqueued := enqueued |}
      {| ty_world := w; ty_held := held'; ty_answered := answered'; ty_verified := verified; ty_enqueued := enqueued |}
(** Time passes, and other requests use the service. *)
| TPass service scans faults w held answered verified enqueued :
    tx_step {| ty_world := w; ty_held := held; ty_answered := answered; ty_verified := verified; ty_enqueued := enqueued |}
      {| ty_world := {| tx_rows := tx_rows w; tx_stellar := service; tx_uuids := tx_uuids w; tx_scans := scans;
                        tx_faults := faults |};
         ty_held := held; ty_answered := answered; ty_verified := verified; ty_enqueued := enqueued |}.

Definition occurrences (hash : string) (l : list string) : Z :=
  Z.of_nat (length (List.filter (String.eqb hash) l)).

(** What the entries of a hash may still cost: the verifications left to each
    after the [k] it has had since it was claimed. *)
Definition left_of (k : Z) (hash : string) (t : TxPool J) : Z :=
  if String.eqb (tp_transaction_hash t) hash then tp_max_retries t - tp_retry_count t - k else 0.
Definition spare (k : Z) (hash : string) (l : list (TxPool J)) : Z := sumZ (map (left_of k hash) l).
Definition waiting_tx t : Z :=
  if decide (tp_status t = TxPending) then tp_max_retries t - tp_retry_count t else 0.

(** A claimed entry is a copy of a row that is still there. *)
Record entry_ok (rows : list (TxPool J)) entry : Prop := {
  eo_row : exists t, t ∈ rows /\ tp_id t = tp_id entry /\ tp_transaction_hash t = tp_transaction_hash entry /\
    tp_max_retries t = tp_max_retries entry;
  eo_count : 0 <= tp_retry_count entry < tp_max_retries entry
}.

Record tx_row_ok t : Prop := {
  to_max : 1 <= tp_max_retries t <= 10;
  to_count : 0 <= tp_retry_count t <= tp_max_retries t;
  to_pending : tp_status t = TxPending -> tp_retry_count t < tp_max_retries t;
  to_failed : tp_status t = TxFailed -> tp_retry_count t = tp_max_retries t;
  to_confirmed : tp_status t = TxConfirmed -> reported_successful (tp_transaction_hash t)
}.

Definition cost (s : TxSystem) (t : TxPool J) : Z :=
  occurrences (tp_transaction_hash t) (ty_verified s) + spare 0 (tp_transaction_hash t) (ty_held s) +
  spare 1 (tp_transaction_hash t) (map fst (ty_answered s)) + waiting_tx t.

Record TInv (s : TxSystem) : Prop := {
  ti_ids : NoDup (tp_id <$> tx_rows (ty_world s));
  ti_hashes : NoDup (tp_transaction_hash <$> tx_rows (ty_world s));
  ti_uuids t : t ∈ tx_rows (ty_world s) -> exists n, tp_id t = uuid n /\ (n < tx_uuids (ty_world s))%nat;
  ti_rows t : t ∈ tx_rows (ty_world s) -> tx_row_ok t;
  ti_held e : e ∈ ty_held s -> entry_ok (tx_rows (ty_world s)) e;
  ti_answered e r : (e, r) ∈ ty_answered s ->
    entry_ok (tx_rows (ty_world s)) e /\ (r = Ok true -> reported_successful (tp_transaction_hash e));
  ti_verified h : h ∈ ty_verified s -> exists t, t ∈ tx_rows (ty_world s) /\ tp_transaction_hash t = h;
  ti_cost t : t ∈ tx_rows (ty_world s) ->
    cost s t <= tp_max_retries t * occurrences (tp_transaction_hash t) (ty_enqueued s)
}.

Lemma occurrences_cons hash h l : occurrences hash (h :: l) = (if String.eqb hash h then 1 else 0) + occurrences hash l.
Proof. unfold occurrences. simpl. destruct (String.eqb hash h); simpl length; lia. Qed.

Lemma spare_app k hash l1 l2 : spare k hash (l1 ++ l2) = spare k hash l1 + spare k hash l2.
Proof. unfold spare. by rewrite map_app, sumZ_app. Qed.

Lemma spare_cons k hash t l : spare k hash (t :: l) = left_of k hash t + spare k hash l.
Proof. done. Qed.

Lemma spare_nonneg k hash l : 0 <= k <= 1 -> (forall t, t ∈ l -> tp_retry_count t < tp_max_retries t) -> 0 <= spare k hash l.
Proof.
  intros Hk Hl. induction l as [| t l IH]; [done |]. rewrite spare_cons. unfold left_of at 1.
  pose proof (Hl t ltac:(left)). assert (0 <= spare k hash l) by (apply IH; intros; apply Hl; by right).
  destruct (String.eqb _ _); lia.
Qed.

Lemma spare_perm k hash l l' : l ≡ₚ l' -> spare k hash l = spare k hash l'.
Proof.
  induction 1 as [| x l l' _ IH | x y l | l l' l'' _ IH1 _ IH2]; rewrite ?spare_cons; try done; lia.
Qed.

Lemma spare_part k hash l l' :
  0 <= k <= 1 -> (forall t, t ∈ l' -> tp_retry_count t < tp_max_retries t) -> l ⊆+ l' -> spare k hash l <= spare k hash l'.
Proof.
  intros Hk Hl (l0 & Hp)%submseteq_Permutation. rewrite (spare_perm k hash _ _ Hp), spare_app.
  assert (0 <= spare k hash l0); [| lia]. apply spare_nonneg; [done |]. intros t Ht. apply Hl. rewrite Hp. set_solver.
Qed.

Lemma spare_none k hash l : (forall t, t ∈ l -> tp_transaction_hash t <> hash) -> spare k hash l = 0.
Proof.
  induction l as [| t l IH]; intros Hl; [done |]. rewrite spare_cons, IH by (intros; apply Hl; by right).
  unfold left_of. destruct (String.eqb_spec (tp_transaction_hash t) hash) as [E |]; [| done].
  by destruct (Hl t ltac:(left)).
Qed.

Lemma claimed_spare p now t l :
  NoDup (tp_transaction_hash <$> l) -> t ∈ l ->
  spare 0 (tp_transaction_hash t) (map (processing_row now) (List.filter p l)) =
    if p t then tp_max_retries t - tp_retry_count t else 0.
Proof.
  induction l as [| x l IH]; intros Hnd Hin; [by apply elem_of_nil in Hin |].
  apply NoDup_cons in Hnd as [Hx Hnd]. apply elem_of_cons in Hin as [-> | Hin].
  - assert (spare 0 (tp_transaction_hash x) (map (processing_row now) (List.filter p l)) = 0) as Hz.
    { apply spare_none. intros t (y & -> & Hy)%list_elem_of_fmap. simpl. intros E. apply Hx.
      apply list_elem_of_In, filter_In in Hy as [Hy _]. rewrite <- E. apply list_elem_of_fmap. exists y.
      by split; [| apply list_elem_of_In]. }
    simpl. destruct (p x); [| done]. simpl. rewrite spare_cons, Hz. unfold left_of. simpl.
    rewrite String.eqb_refl. lia.
  - simpl. destruct (p x); [| by apply IH]. simpl. rewrite spare_cons, (IH Hnd Hin). unfold left_of at 1. simpl.
    destruct (String.eqb_spec (tp_transaction_hash x) (tp_transaction_hash t)) as [E |]; [| lia].
    destruct Hx. rewrite E. by apply list_elem_of_fmap_2.
Qed.

(** What no operation changes in a row. *)
Definition same_key t t' : Prop :=
  tp_id t' = tp_id t /\ tp_transaction_hash t' = tp_transaction_hash t /\ tp_max_retries t' = tp_max_retries t.

(** A step that rewrites the rows one by one. *)
Lemma map_inv s s' g :
  TInv s -> tx_rows (ty_world s') = map g (tx_rows (ty_world s)) -> tx_uuids (ty_world s') = tx_uuids (ty_world s) ->
  (forall t, t ∈ tx_rows (ty_world s) -> same_key t (g t) /\ tx_row_ok (g t) /\
     cost s' (g t) <= tp_max_retries t * occurrences (tp_transaction_hash t) (ty_enqueued s')) ->
  (forall e, e ∈ ty_held s' -> entry_ok (tx_rows (ty_world s)) e) ->
  (forall e r, (e, r) ∈ ty_answered s' ->
     entry_ok (tx_rows (ty_world s)) e /\ (r = Ok true -> reported_successful (tp_transaction_hash e))) ->
  (forall h, h ∈ ty_verified s' -> exists t, t ∈ tx_rows (ty_world s) /\ tp_transaction_hash t = h) ->
  TInv s'.
Proof.
  intros I Hrows Hu Hg Hheld Hans Hver.
  assert (forall B (f : TxPool J -> B), (forall t, t ∈ tx_rows (ty_world s) -> f (g t) = f t) ->
            f <$> map g (tx_rows (ty_world s)) = f <$> tx_rows (ty_world s)) as Hcol.
  { intros B f Hf. etransitivity; [apply map_map |]. apply map_ext_in. intros t Ht%list_elem_of_In. by apply Hf. }
  assert (forall e, entry_ok (tx_rows (ty_world s)) e -> entry_ok (map g (tx_rows (ty_world s))) e) as Hentry.
  { intros e [(t & Ht & Hi & Hh & Hm) Hc]. constructor; [| done]. exists (g t).
    destruct (Hg t Ht) as ((H1 & H2 & H3) & _). split; [by apply list_elem_of_fmap_2 |]. split_and!; congruence. }
  constructor; rewrite ?Hrows, ?Hu.
  - rewrite Hcol; [apply (ti_ids _ I) | intros t Ht; by apply (Hg t Ht)].
  - rewrite Hcol; [apply (ti_hashes _ I) | intros t Ht; by apply (Hg t Ht)].
  - intros t (t0 & -> & Ht)%list_elem_of_fmap. destruct (Hg t0 Ht) as ((-> & _) & _). by apply (ti_uuids _ I).
  - intros t (t0 & -> & Ht)%list_elem_of_fmap. by apply (Hg t0 Ht).
  - intros e He. by apply Hentry, Hheld.
  - intros e r He. destruct (Hans e r He). split; [by apply Hentry | done].
  - intros h Hh. destruct (Hver h Hh) as (t & Ht & He). exists (g t). split; [by apply list_elem_of_fmap_2 |].
    destruct (Hg t Ht) as ((_ & -> & _) & _). done.
  - intros t (t0 & -> & Ht)%list_elem_of_fmap. destruct (Hg t0 Ht) as ((_ & Hh & Hm) & _ & Hc). by rewrite Hh, Hm.
Qed.

Lemma waiting_nonneg t : tx_row_ok t -> 0 <= waiting_tx t.
Proof. intros [? ? _ _ _]. unfold waiting_tx. destruct (decide _); lia. Qed.

Lemma held_left s : TInv s -> forall t, t ∈ ty_held s -> tp_retry_count t < tp_max_retries t.
Proof. intros I t Ht. by apply (ti_held _ I t Ht). Qed.

Lemma answered_left s : TInv s -> forall t, t ∈ map fst (ty_answered s) -> tp_retry_count t < tp_max_retries t.
Proof. intros I t ([e r] & -> & Ht)%list_elem_of_fmap. by apply (ti_answered _ I e r Ht). Qed.

Lemma in_row_of_hash s h : TInv s -> (h ∈ ty_verified s \/ (exists e, e ∈ ty_held s /\ tp_transaction_hash e = h) \/
    (exists e r, (e, r) ∈ ty_answered s /\ tp_transaction_hash e = h)) ->
  exists t, t ∈ tx_rows (ty_world s) /\ tp_transaction_hash t = h.
Proof.
  intros I [Hh | [(e & He & <-) | (e & r & He & <-)]]; [by apply (ti_verified _ I) | |].
  - destruct (ti_held _ I e He) as [(t & Ht & _ & Hh & _) _]. eauto.
  - destruct (ti_answered _ I e r He) as [[(t & Ht & _ & Hh & _) _] _]. eauto.
Qed.

(** A hash without a row has cost nothing. *)
Lemma new_hash_cost s h :
  TInv s -> (forall t, t ∈ tx_rows (ty_world s) -> tp_transaction_hash t <> h) ->
  occurrences h (ty_verified s) = 0 /\ spare 0 h (ty_held s) = 0 /\ spare 1 h (map fst (ty_answered s)) = 0.
Proof.
  intros I Hno. pose proof (in_row_of_hash s h I) as Hrow.
  assert (~ exists t, t ∈ tx_rows (ty_world s) /\ tp_transaction_hash t = h) as Hn by (intros (t & Ht & E); by apply (Hno t)).
  split_and!.
  - unfold occurrences. destruct (List.filter _ _) as [| x l] eqn:Hf; [done |]. destruct Hn. apply Hrow. left.
    assert (In x (List.filter (String.eqb h) (ty_verified s))) as Hin by (rewrite Hf; by left).
    apply filter_In in Hin as [Hin He]. apply String.eqb_eq in He. subst x. by apply list_elem_of_In.
  - apply spare_none. intros e He E. apply Hn, Hrow. right. left. eauto.
  - apply spare_none. intros e ([e' r] & -> & He)%list_elem_of_fmap E. apply Hn, Hrow. right. right. eauto.
Qed.

(** The rows of a pool to which a row was added. *)
Lemma entry_ok_app l l0 e : entry_ok l e -> entry_ok (l ++ l0) e.
Proof. intros [(t & Ht & H) Hc]. constructor; [exists t; split; [set_solver | done] | done]. Qed.

Lemma add_row_inv s s' t :
  (forall m n, uuid m = uuid n -> m = n) -> TInv s ->
  tx_rows (ty_world s') = tx_rows (ty_world s) ++ [t] -> tx_uuids (ty_world s') = S (tx_uuids (ty_world s)) ->
  (forall t0, t0 ∈ tx_rows (ty_world s) -> tp_transaction_hash t0 <> tp_transaction_hash t) ->
  tp_id t = uuid (tx_uuids (ty_world s)) -> tp_status t = TxPending -> tp_retry_count t = 0 -> 1 <= tp_max_retries t <= 10 ->
  ty_held s' = ty_held s -> ty_answered s' = ty_answered s -> ty_verified s' = ty_verified s ->
  ty_enqueued s' = tp_transaction_hash t :: ty_enqueued s -> TInv s'.
Proof.
  intros Hinj I Hr Hu Hnew Hid Hst Hc Hm Hheld Hans Hver Henq.
  destruct (new_hash_cost _ _ I Hnew) as (Hz1 & Hz2 & Hz3).
  constructor; rewrite ?Hr, ?Hu, ?Hheld, ?Hans, ?Hver, ?Henq.
  - rewrite fmap_app. apply NoDup_app. split_and!; [apply (ti_ids _ I) | | by apply NoDup_singleton].
    intros x (t0 & -> & Ht0)%list_elem_of_fmap E%list_elem_of_singleton.
    destruct (ti_uuids _ I t0 Ht0) as (n & Hn & Hlt). rewrite Hid in E. rewrite E in Hn. apply Hinj in Hn. lia.
  - rewrite fmap_app. apply NoDup_app. split_and!; [apply (ti_hashes _ I) | | by apply NoDup_singleton].
    intros x (t0 & -> & Ht0)%list_elem_of_fmap E%list_elem_of_singleton. by apply (Hnew t0).
  - intros t0 [Ht0 | ->%list_elem_of_singleton]%elem_of_app.
    + destruct (ti_uuids _ I t0 Ht0) as (n & ? & ?). exists n. split; [done | lia].
    + eexists. split; [exact Hid | lia].
  - intros t0 [Ht0 | ->%list_elem_of_singleton]%elem_of_app; [by apply (ti_rows _ I) |].
    constructor; rewrite ?Hst; try done; lia.
  - intros e He. by apply entry_ok_app, (ti_held _ I).
  - intros e r He. destruct (ti_answered _ I e r He). split; [by apply entry_ok_app | done].
  - intros h Hh. destruct (ti_verified _ I h Hh) as (t0 & ? & ?). exists t0. split; [set_solver | done].
  - intros t0 Ht0. unfold cost. rewrite Hheld, Hans, Hver, occurrences_cons.
    apply elem_of_app in Ht0 as [Ht0 | ->%list_elem_of_singleton].
    + pose proof (ti_cost _ I t0 Ht0) as Hcost. destruct (ti_rows _ I t0 Ht0) as [? _ _ _ _]. unfold cost in Hcost.
      destruct (String.eqb _ _); lia.
    + rewrite Hz1, Hz2, Hz3, String.eqb_refl. unfold waiting_tx. rewrite decide_True by done.
      unfold occurrences. lia.
Qed.

Lemma enqueue_inv req w held answered verified enqueued :
  (forall m n, uuid m = uuid n -> m = n) ->
  TInv {| ty_world := w; ty_held := held; ty_answered := answered; ty_verified := verified; ty_enqueued := enqueued |} ->
  TInv {| ty_world := snd (enqueue_tx uuid req w); ty_held := held; ty_answered := answered; ty_verified := verified;
          ty_enqueued := er_transaction_hash req :: enqueued |}.
Proof.
  intros Hinj I. pose proof (ti_cost _ I) as Hcost. pose proof (ti_rows _ I) as Hrows. simpl in *.
  destruct (enqueue_tx_cases req w) as [[Hr Hu] | [(Hu & t0 & now & Ht0 & Hh & Hr) |
    (Hu & Hnew & t & Hr & Hid & Hh & Hst & Hc & Hm)]].
  - apply (map_inv _ _ id I); simpl; [by rewrite map_id | done | | apply (ti_held _ I) | apply (ti_answered _ I) | apply (ti_verified _ I)].
    intros t Ht. split; [done |]. split; [by apply Hrows |]. specialize (Hcost t Ht). unfold cost in *. simpl in *.
    rewrite occurrences_cons. destruct (Hrows t Ht) as [? _ _ _ _]. destruct (String.eqb _ _); lia.
  - apply (map_inv _ _ (fun t => if String.eqb (tp_id t) (tp_id t0) then reset_row now t else t) I); simpl;
      [done | done | | apply (ti_held _ I) | apply (ti_answered _ I) | apply (ti_verified _ I)].
    intros t Ht. specialize (Hcost t Ht). pose proof (Hrows t Ht) as Hok.
    destruct (String.eqb_spec (tp_id t) (tp_id t0)) as [E | E].
    + assert (t = t0) as -> by (by apply (nodup_key_inj tp_id (tx_rows w)); [apply (ti_ids _ I) | | |]).
      split; [done |]. split; [by destruct Hok; constructor; simpl; try done; lia |].
      unfold cost in *. simpl in *. rewrite occurrences_cons, <- Hh, String.eqb_refl.
      pose proof (waiting_nonneg t0 Hok). unfold waiting_tx at 1. simpl. lia.
    + split; [done |]. split; [done |]. unfold cost in *. simpl in *. rewrite occurrences_cons.
      destruct Hok as [? _ _ _ _]. destruct (String.eqb _ _); lia.
  - eapply (add_row_inv _ _ t Hinj I); simpl; try done; [intros t0 Ht0; rewrite Hh; by apply Hnew | by rewrite Hh].
Qed.

Lemma claim_inv_tx batch r w w' held answered verified enqueued :
  tx_query (claim_batch scan batch) w = (r, w') ->
  TInv {| ty_world := w; ty_held := held; ty_answered := answered; ty_verified := verified; ty_enqueued := enqueued |} ->
  TInv {| ty_world := w'; ty_held := match r with Ok rows => rows ++ held | Err _ => held end;
          ty_answered := answered; ty_verified := verified; ty_enqueued := enqueued |}.
Proof.
  intros Hq I. pose proof (ti_cost _ I) as Hcost. pose proof (ti_rows _ I) as Hrows. simpl in *.
  destruct (claim_batch_cases batch w r w' (ti_ids _ I) Hq) as [Hu [[Hr Hno] | (claimed & (p & now & Hr & Hp & Hperm) & Hok)]].
  - apply (map_inv _ _ id I); simpl; [by rewrite map_id | done | | | apply (ti_answered _ I) | apply (ti_verified _ I)].
    + intros t Ht. split; [done |]. split; [by apply Hrows |]. specialize (Hcost t Ht). unfold cost in *. simpl in *.
      destruct r as [rows |]; [rewrite (Hno rows eq_refl) |]; done.
    + destruct r as [rows |]; [rewrite (Hno rows eq_refl) |]; apply (ti_held _ I).
  - assert (Hclaimed : forall e, e ∈ claimed -> exists t, t ∈ tx_rows w /\ p t = true /\ e = processing_row now t).
    { intros e. rewrite Hperm. intros (t & -> & Ht)%list_elem_of_fmap. apply list_elem_of_In, filter_In in Ht as [Ht ?].
      exists t. by rewrite list_elem_of_In. }
    apply (map_inv _ _ (fun t => if p t then processing_row now t else t) I); simpl;
      [done | done | | | apply (ti_answered _ I) | apply (ti_verified _ I)].
    + intros t Ht. pose proof (Hrows t Ht) as Hrow. specialize (Hcost t Ht). pose proof (waiting_nonneg t Hrow) as Hw.
      assert (spare 0 (tp_transaction_hash t) (match r with Ok rows => rows ++ held | Err _ => held end) <=
              spare 0 (tp_transaction_hash t) held + (if p t then waiting_tx t else 0)) as Hs.
      { destruct r as [rows |]; [rewrite (Hok rows eq_refl), spare_app, (spare_perm _ _ _ _ Hperm) | destruct (p t); lia].
        rewrite claimed_spare by (apply (ti_hashes _ I) || done). destruct (p t) eqn:Hpt; [| lia].
        unfold waiting_tx. rewrite decide_True by (by apply Hp). lia. }
      unfold cost in *. simpl in *. destruct (p t) eqn:Hpt; (split; [done |]).
      * split; [destruct Hrow; constructor; simpl; done |].
        change (tp_transaction_hash (processing_row now t)) with (tp_transaction_hash t).
        change (waiting_tx (processing_row now t)) with 0. lia.
      * split; [done | lia].
    + intros e He. destruct r as [rows |]; [| by apply (ti_held _ I)].
      apply elem_of_app in He as [He | He]; [| by apply (ti_held _ I)]. rewrite (Hok rows eq_refl) in He.
      destruct (Hclaimed e He) as (t & Ht & Hpt & ->). destruct (Hrows t Ht) as [? ? Hpend _ _].
      constructor; [by exists t | simpl; specialize (Hpend (Hp t Ht Hpt)); lia].
Qed.

Lemma verify_inv entry w before after answered verified enqueued r w' :
  on_stellar (verify_transaction get_tx env (tp_transaction_hash entry)) w = (r, w') ->
  TInv {| ty_world := w; ty_held := before ++ entry :: after; ty_answered := answered; ty_verified := verified;
          ty_enqueued := enqueued |} ->
  TInv {| ty_world := w'; ty_held := before ++ after; ty_answered := (entry, r) :: answered;
          ty_verified := tp_transaction_hash entry :: verified; ty_enqueued := enqueued |}.
Proof.
  intros Hv I. pose proof (ti_held _ I entry ltac:(simpl; set_solver)) as Hentry. simpl in Hentry.
  destruct (on_stellar_rows (verify_transaction get_tx env (tp_transaction_hash entry)) w) as [Hr Hu].
  rewrite Hv in Hr, Hu. simpl in Hr, Hu.
  apply (map_inv _ _ id I); simpl; [by rewrite map_id | done | | | |].
  - intros t Ht. split; [done |]. split; [by apply (ti_rows _ I) |]. pose proof (ti_cost _ I t Ht) as Hcost.
    unfold cost in *. simpl in *. rewrite spare_app in *. rewrite spare_cons in *. rewrite occurrences_cons.
    unfold left_of at 1 in Hcost. unfold left_of at 1. rewrite (String.eqb_sym (tp_transaction_hash t)).
    destruct (String.eqb _ _); lia.
  - intros e He. apply (ti_held _ I). simpl. set_solver.
  - intros e r0 [[= -> ->] | He]%elem_of_cons; [| by apply (ti_answered _ I)]. split; [done |]. intros ->.
    revert Hv. unfold on_stellar. destruct (verify_transaction _ _ _ _) as [x s'] eqn:Hx. intros [= -> _].
    by eapply verify_transaction_sound.
  - intros h [-> | Hh]%elem_of_cons; [| by apply (ti_verified _ I)].
    destruct Hentry as [(t & Ht & _ & ? & _) _]. by exists t.
Qed.

Lemma settle_inv entry r w held before after verified enqueued :
  TInv {| ty_world := w; ty_held := held; ty_answered := before ++ (entry, r) :: after; ty_verified := verified;
          ty_enqueued := enqueued |} ->
  TInv {| ty_world := snd (settle_entry show_error entry r w); ty_held := held; ty_answered := before ++ after;
          ty_verified := verified; ty_enqueued := enqueued |}.
Proof.
  intros I. destruct (ti_answered _ I entry r ltac:(simpl; set_solver)) as [[(t1 & Ht1 & Hi1 & Hh1 & Hm1) Hc1] Hgood].
  assert (Hsub : forall e r0, (e, r0) ∈ before ++ after -> (e, r0) ∈ before ++ (entry, r) :: after) by (intros; set_solver).
  assert (Hspare : forall h, spare 1 h (map fst (before ++ (entry, r) :: after)) =
            left_of 1 h entry + spare 1 h (map fst (before ++ after))).
  { intros h. rewrite !map_app, !spare_app. simpl. rewrite spare_cons. lia. }
  assert (Hleft : forall h, 0 <= left_of 1 h entry) by (intros h; unfold left_of; destruct (String.eqb _ _); lia).
  simpl in *. destruct (settle_entry_cases entry r w) as [Hu [Hr | (f & Hr & Hf)]].
  - apply (map_inv _ _ id I); simpl; [by rewrite map_id | done | | apply (ti_held _ I) | | apply (ti_verified _ I)].
    + intros t Ht. split; [done |]. split; [by apply (ti_rows _ I) |]. pose proof (ti_cost _ I t Ht) as Hcost.
      unfold cost in *. simpl in *. rewrite Hspare in Hcost. pose proof (Hleft (tp_transaction_hash t)). lia.
    + intros e r0 He. by apply (ti_answered _ I), Hsub.
  - apply (map_inv _ _ (fun t => if String.eqb (tp_id t) (tp_id entry) then f t else t) I); simpl;
      [done | done | | apply (ti_held _ I) | intros e r0 He; by apply (ti_answered _ I), Hsub | apply (ti_verified _ I)].
    intros t Ht. pose proof (ti_cost _ I t Ht) as Hcost. pose proof (ti_rows _ I t Ht) as Hrow.
    unfold cost in *. simpl in *. rewrite Hspare in Hcost. pose proof (Hleft (tp_transaction_hash t)).
    destruct (String.eqb_spec (tp_id t) (tp_id entry)) as [E | E]; [| split; [done |]; split; [done | lia]].
    assert (t = t1) as -> by (apply (nodup_key_inj tp_id (tx_rows w)); [apply (ti_ids _ I) | done | done | congruence]).
    unfold left_of in Hcost. rewrite Hh1, String.eqb_refl in Hcost. pose proof (waiting_nonneg t1 Hrow).
    destruct Hrow as [Hmax Hcount Hpend Hfail Hconf].
    assert (wrap_i32 (tp_retry_count entry + 1) = tp_retry_count entry + 1) as Hwrap.
    { unfold wrap_i32. rewrite Z.mod_small; lia. }
    destruct (Hf t1) as [e u n Hok | e u n Hle | e u n Hlt]; rewrite ?Hwrap in *; (split; [done |]); (split; [constructor; simpl; try done; try lia |]).
    1: by intros _; rewrite Hh1; apply Hgood.
    all: simpl; rewrite Hh1; unfold waiting_tx at 1; simpl; lia.
Qed.

Lemma tx_step_inv s s' : (forall m n, uuid m = uuid n -> m = n) -> tx_step s s' -> TInv s -> TInv s'.
Proof.
  intros Hinj Hs I. destruct Hs as [req w held answered verified enqueued | batch r w w' held answered verified enqueued Hq
    | entry w before after answered verified enqueued r w' Hv | entry r w held before after verified enqueued
    | held' answered' w held answered verified enqueued Hh Ha | service scans faults w held answered verified enqueued].
  - by apply enqueue_inv.
  - by eapply claim_inv_tx.
  - by eapply verify_inv.
  - by apply settle_inv.
  - pose proof (held_left _ I) as Hl1. pose proof (answered_left _ I) as Hl2. simpl in *.
    apply (map_inv _ _ id I); simpl; [by rewrite map_id | done | | | | apply (ti_verified _ I)].
    + intros t Ht. split; [done |]. split; [by apply (ti_rows _ I) |]. pose proof (ti_cost _ I t Ht) as Hcost.
      unfold cost in *. simpl in *. unfold id.
      pose proof (spare_part 0 (tp_transaction_hash t) _ _ ltac:(lia) Hl1 Hh).
      pose proof (spare_part 1 (tp_transaction_hash t) (map fst answered') _ ltac:(lia) Hl2 (fmap_submseteq fst _ _ Ha)). lia.
    + intros e He. apply (ti_held _ I). by eapply elem_of_submseteq.
    + intros e r He. apply (ti_answered _ I). by eapply elem_of_submseteq.
  - apply (map_inv _ _ id I); simpl; [by rewrite map_id | done | | apply (ti_held _ I) | apply (ti_answered _ I) | apply (ti_verified _ I)].
    intros t Ht. split; [done |]. split; [by apply (ti_rows _ I) | exact (ti_cost _ I t Ht)].
Qed.

Definition tx_start (w : TxWorld J) : TxSystem :=
  {| ty_world := w; ty_held := []; ty_answered := []; ty_verified := []; ty_enqueued := [] |}.

Lemma tx_start_inv w : tx_rows w = [] -> TInv (tx_start w).
Proof.
  intros Hw. constructor; simpl; rewrite ?Hw; try (by intros ? ?%not_elem_of_nil); try (by intros ? ? ?%not_elem_of_nil);
    constructor.
Qed.

Lemma tx_steps_inv s s' : (forall m n, uuid m = uuid n -> m = n) -> rtc tx_step s s' -> TInv s -> TInv s'.
Proof. intros Hinj. induction 1; eauto using tx_step_inv. Qed.

(** The worker's loop is a run of the system. *)
Lemma process_entry_run entry w before after answered verified enqueued :
  rtc tx_step
    {| ty_world := w; ty_held := before ++ entry :: after; ty_answered := answered; ty_verified := verified;
       ty_enqueued := enqueued |}
    {| ty_world := snd (process_entry get_tx env show_error entry w); ty_held := before ++ after; ty_answered := answered;
       ty_verified := tp_transaction_hash entry :: verified; ty_enqueued := enqueued |}.
Proof.
  unfold process_entry, attempt. bind_step.
  destruct (on_stellar (verify_transaction get_tx env (tp_transaction_hash entry)) w) as [r w1] eqn:Hv.
  eapply rtc_l; [by apply TVerify |]. apply rtc_once. bind_step.
  destruct (settle_entry show_error entry r w1) as [x w2] eqn:Hs. simpl.
  replace w2 with (snd (settle_entry show_error entry r w1)) by (by rewrite Hs).
  apply (TSettle entry r w1 (before ++ after) [] answered).
Qed.

Lemma process_batch_run batch w held answered verified enqueued :
  exists hashes, rtc tx_step
    {| ty_world := w; ty_held := held; ty_answered := answered; ty_verified := verified; ty_enqueued := enqueued |}
    {| ty_world := snd (process_batch get_tx env show_error scan batch w); ty_held := held; ty_answered := answered;
       ty_verified := hashes ++ verified; ty_enqueued := enqueued |}.
Proof.
  unfold process_batch, attempt. bind_step. destruct (tx_query (claim_batch scan batch) w) as [r w1] eqn:Hq.
  assert (forall rows w1 verified, exists hashes, rtc tx_step
    {| ty_world := w1; ty_held := rows ++ held; ty_answered := answered; ty_verified := verified; ty_enqueued := enqueued |}
    {| ty_world := snd (forM rows tt (fun _ entry => process_entry get_tx env show_error entry) w1); ty_held := held;
       ty_answered := answered; ty_verified := hashes ++ verified; ty_enqueued := enqueued |}) as Hloop.
  { clear. intros rows. induction rows as [| entry rows IH]; intros w verified; [by exists [] |].
    pose proof (process_entry_run entry w [] (rows ++ held) answered verified enqueued) as Hrun. simpl. bind_step.
    assert (exists w1, process_entry get_tx env show_error entry w = (Ok tt, w1)) as [w1 Hw1].
    { unfold process_entry, attempt. bind_step. destruct (on_stellar _ w) as [x w1]. bind_step.
      destruct (settle_entry _ _ _ w1). by eexists. }
    rewrite Hw1 in *. simpl in Hrun. destruct (IH w1 (tp_transaction_hash entry :: verified)) as [hashes Hrest].
    exists (hashes ++ [tp_transaction_hash entry]). rewrite <- app_assoc. etransitivity; [exact Hrun | exact Hrest]. }
  pose proof (TClaim batch r w w1 held answered verified enqueued Hq) as Hstep.
  destruct r as [rows | e].
  - destruct (Hloop rows w1 verified) as [hashes Hrest]. exists hashes. eapply rtc_l; [exact Hstep | exact Hrest].
  - exists []. eapply rtc_l; [exact Hstep | apply rtc_refl].
Qed.

(** An entry that was claimed and that nobody works on stays as it is until it is
    enqueued again: nothing takes it back. *)
Lemma stranded_stays s s' t :
  TInv s -> tx_step s s' -> t ∈ tx_rows (ty_world s) -> tp_status t = TxProcessing ->
  (forall e r, (e, r) ∈ ty_answered s -> tp_id e <> tp_id t) ->
  occurrences (tp_transaction_hash t) (ty_enqueued s') = occurrences (tp_transaction_hash t) (ty_enqueued s) ->
  t ∈ tx_rows (ty_world s').
Proof.
  intros I Hs Ht Hst Hans Hocc.
  assert (Hkeep : forall id f, id <> tp_id t -> t ∈ update_tx id f (tx_rows (ty_world s))).
  { intros id f Hne. apply list_elem_of_fmap. exists t. split; [| done]. by destruct (String.eqb_spec (tp_id t) id). }
  destruct Hs as [req w held answered verified enqueued | batch r w w' held answered verified enqueued Hq
    | entry w before after answered verified enqueued r w' Hv | entry r w held before after verified enqueued
    | held' answered' w held answered verified enqueued Hh Ha | service scans faults w held answered verified enqueued];
    simpl in *; try done.
  - destruct (enqueue_tx_cases req w) as [[-> _] | [(_ & t0 & now & Ht0 & Hh & ->) | (_ & _ & t0 & -> & _)]]; [done | | set_solver].
    apply Hkeep. intros E. assert (t0 = t) as -> by (by apply (nodup_key_inj tp_id (tx_rows w)); [apply (ti_ids _ I) | | |]).
    rewrite occurrences_cons, Hh, String.eqb_refl in Hocc. lia.
  - destruct (claim_batch_cases batch w r w' (ti_ids _ I) Hq) as [_ [[-> _] | (claimed & (p & now & -> & Hp & _) & _)]]; [done |].
    apply list_elem_of_fmap. exists t. split; [| done]. destruct (p t) eqn:E; [| done].
    rewrite (Hp t Ht E) in Hst. done.
  - destruct (on_stellar_rows (verify_transaction get_tx env (tp_transaction_hash entry)) w) as [Hr _].
    by rewrite Hv in Hr; simpl in Hr; rewrite Hr.
  - destruct (settle_entry_cases entry r w) as [_ [-> | (f & -> & _)]]; [done |]. apply Hkeep.
    apply (Hans entry r). set_solver.
Qed.

(** Every call to enqueue a hash allows it [max_retries] verifications, so the
    total is bounded by those of its row. *)
Lemma tx_verified_bound s h :
  TInv s -> occurrences h (ty_verified s) <= 10 * occurrences h (ty_enqueued s).
Proof.
  intros I. destruct (decide (Exists (fun t => tp_transaction_hash t = h) (tx_rows (ty_world s)))) as [Hex | Hno].
  - apply Exists_exists in Hex as (t & Ht & <-). pose proof (ti_cost _ I t Ht) as Hc. unfold cost in Hc.
    pose proof (ti_rows _ I t Ht) as Hrow. pose proof (waiting_nonneg t Hrow). destruct Hrow as [Hm _ _ _ _].
    pose proof (spare_nonneg 0 (tp_transaction_hash t) _ ltac:(lia) (held_left _ I)).
    pose proof (spare_nonneg 1 (tp_transaction_hash t) _ ltac:(lia) (answered_left _ I)).
    assert (0 <= occurrences (tp_transaction_hash t) (ty_enqueued s)) by (unfold occurrences; lia). nia.
  - destruct (new_hash_cost s h I) as (-> & _ & _); [| unfold occurrences; lia].
    intros t Ht E. apply Hno, Exists_exists. eauto.
Qed.
End effects.

(** ** Theorems *)

(** C25: The pool asks and settles soundly, in every interleaving of workers,
    clients, crashes and failures: a transaction is shown as confirmed only if
    Horizon reported it as successful, as failed only after its last retry, and
    it is verified at most [max_retries] (so at most 10) times per call to
    enqueue it. *)
Theorem tx_pool_sound {J} get_tx env uuid show_error scan (w : TxWorld J) s :
  (forall n A (l : list A), scan n A l ≡ₚ l) -> (forall m n, uuid m = uuid n -> m = n) -> tx_rows w = [] ->
  rtc (tx_step get_tx env uuid show_error scan) (tx_start w) s ->
  (forall t, t ∈ tx_rows (ty_world s) ->
     (tp_status t = TxConfirmed -> reported_successful get_tx (tp_transaction_hash t)) /\
     (tp_status t = TxFailed -> tp_retry_count t = tp_max_retries t) /\
     1 <= tp_max_retries t <= 10 /\
     occurrences (tp_transaction_hash t) (ty_verified s) <=
       tp_max_retries t * occurrences (tp_transaction_hash t) (ty_enqueued s)) /\
  forall h, occurrences h (ty_verified s) <= 10 * occurrences h (ty_enqueued s).
Proof.
  intros Hscan Hinj Hw Hrun.
  pose proof (tx_steps_inv get_tx env uuid show_error scan Hscan _ _ Hinj Hrun (tx_start_inv get_tx uuid w Hw)) as I.
  split; [| intros h; by eapply tx_verified_bound].
  intros t Ht. pose proof (ti_rows _ _ _ I t Ht) as Hrow. pose proof (ti_cost _ _ _ I t Ht) as Hc. unfold cost in Hc.
  pose proof (waiting_nonneg _ t Hrow). destruct Hrow as [Hm _ _ Hf Hcf].
  pose proof (spare_nonneg 0 (tp_transaction_hash t) _ ltac:(lia) (held_left _ _ _ I)).
  pose proof (spare_nonneg 1 (tp_transaction_hash t) _ ltac:(lia) (answered_left _ _ _ I)).
  split_and!; done || lia.
Qed.

(** One transaction, enqueued and confirmed by one worker; Horizon answers the
    second call. *)
Definition empty_pool : TxWorld unit :=
  {| tx_rows := []; tx_stellar := stellar_new (fun _ => None) 0; tx_uuids := 0; tx_scans := 0; tx_faults := [] |}.
Definition demo_enqueue : EnqueueTxRequest unit :=
  {| er_transaction_hash := "h"; er_metadata := tt; er_max_retries := Some 2 |}.
Definition one_tx : TxWorld unit := snd (enqueue_tx tally demo_enqueue empty_pool).
Definition pool_scan (_ : nat) (A : Type) (l : list A) : list A := l.
Definition no_message (_ : AppError) : string := "".
Definition done_tx : TxWorld unit :=
  snd (process_batch demo_get_tx (fun _ => None) no_message pool_scan 20 one_tx).

Lemma tx_pool_sound_witness :
  exists t, t ∈ tx_rows done_tx /\ tp_status t = TxConfirmed /\ reported_successful demo_get_tx (tp_transaction_hash t).
Proof.
  destruct (process_batch_run demo_get_tx (fun _ => None) tally no_message pool_scan 20 one_tx [] [] [] ["h"])
    as [hashes Hrun].
  destruct (tx_pool_sound demo_get_tx (fun _ => None) tally no_message pool_scan empty_pool
    {| ty_world := done_tx; ty_held := []; ty_answered := []; ty_verified := hashes ++ []; ty_enqueued := ["h"] |}
    (fun _ _ _ => reflexivity _) tally_inj eq_refl) as [Hrows _].
  { eapply rtc_l; [apply (TEnqueue demo_get_tx (fun _ => None) tally no_message pool_scan demo_enqueue) | exact Hrun]. }
  destruct (tx_rows done_tx) as [| t l] eqn:Hl; [vm_compute in Hl; discriminate Hl |].
  exists t. assert (tp_status t = TxConfirmed) as Hst by (vm_compute in Hl; injection Hl as <- _; reflexivity).
  split; [left |]. split; [exact Hst |]. apply (Hrows t); [change (t ∈ tx_rows done_tx); rewrite Hl; left | exact Hst].
Defined.
