(* ===== verification/Cache.v ===== *)
(** * The multi-layer cache

    src/src/cache/: policies.rs (which entry to evict), layers.rs (one layer with
    expiring entries), mod.rs (the three layers and the promotion of what a
    lower one holds), keys.rs, invalidation.rs, coordination.rs (telling other
    nodes) and warming.rs.

    The three layers are all maps in the memory of the process, whatever their
    names.  Instants and durations are in nanoseconds.  An operation of a layer
    holds its lock and reads the clock once.  An operation of the whole cache is
    a program of such operations: it takes the locks of the layers one after
    the other and holds none in between, so the programs of several tasks
    interleave at every layer.  The order in which a HashMap is visited is the
    parameter [visit]; serde and SHA-256 are parameters. *)

From S2P Require Import Prelude Text.

(** ** policies.rs *)

(** src/src/cache/policies.rs:4-11 CacheEntry *)
Record CacheEntry : Type := {
  ce_key : string;
  ce_created_at : Z;
  ce_last_accessed : Z;
  ce_access_count : Z;
  ce_ttl : Z;
  ce_size_bytes : nat
}.

(** src/src/cache/policies.rs:14-19 EvictionStrategy *)
Inductive EvictionStrategy : Type := LRU | LFU | TTL | Adaptive.

(** src/src/cache/policies.rs:22-27 EvictionPolicy *)
Record EvictionPolicy : Type := {
  ep_strategy : EvictionStrategy;
  ep_max_entries : nat;
  ep_lru_max_idle : Z;
  ep_min_access_count : Z
}.

Definition hours (n : Z) : Z := n * 3600 * 10 ^ 9.
Definition secs (n : Z) : Z := n * 10 ^ 9.

(** src/src/cache/policies.rs:29-38 EvictionPolicy::default *)
Definition eviction_default : EvictionPolicy :=
  {| ep_strategy := Adaptive; ep_max_entries := 10000; ep_lru_max_idle := hours 1; ep_min_access_count := 5 |}.

(** src/src/cache/policies.rs:72-77 adaptive_eviction *)
Definition adaptive_eviction (p : EvictionPolicy) (now : Z) (e : CacheEntry) : bool :=
  let ttl_expired := ce_created_at e + ce_ttl e <? now in
  let stale := ce_last_accessed e <? now - secs 1800 in
  let low_value := ce_access_count e <? ep_min_access_count p in
  ttl_expired || (stale && low_value).

(** src/src/cache/policies.rs:41-48 EvictionPolicy::should_evict *)
Definition should_evict (p : EvictionPolicy) (now : Z) (e : CacheEntry) : bool :=
  match ep_strategy p with
  | LRU => ce_last_accessed e <? now - ep_lru_max_idle p
  | LFU => ce_access_count e <? ep_min_access_count p
  | TTL => ce_created_at e + ce_ttl e <? now
  | Adaptive => adaptive_eviction p now e
  end.

(** The key that [select_victims] sorts by: smaller entries go first. *)
Definition evicted_before (s : EvictionStrategy) (a b : CacheEntry) : bool :=
  match s with
  | LRU => ce_last_accessed a <=? ce_last_accessed b
  | LFU => ce_access_count a <=? ce_access_count b
  | TTL => ce_created_at a + ce_ttl a <=? ce_created_at b + ce_ttl b
  | Adaptive =>
      (ce_access_count a <? ce_access_count b) ||
      ((ce_access_count a =? ce_access_count b) &&
       ((ce_last_accessed a <? ce_last_accessed b) ||
        ((ce_last_accessed a =? ce_last_accessed b) && (ce_size_bytes b <=? ce_size_bytes a)%nat)))
  end.

(** src/src/cache/policies.rs:50-70 EvictionPolicy::select_victims *)
Definition select_victims (p : EvictionPolicy) (entries : list CacheEntry) (count : nat) : list string :=
  map ce_key (take count (sort_by (evicted_before (ep_strategy p)) entries)).

(** ** layers.rs *)

(** src/src/cache/layers.rs:243-253 wildcard_match: one star is understood *)
Definition ends_with (suffix s : string) : bool :=
  (slength suffix <=? slength s)%nat &&
  String.eqb (Stdlib.Strings.String.substring (slength s - slength suffix) (slength suffix) s) suffix.

Definition wildcard_match (pattern input : string) : bool :=
  if String.eqb pattern "*" then true
  else match split_once "*" pattern with
       | Some (prefix, suffix) => starts_with prefix input && ends_with suffix input
       | None => String.eqb pattern input
       end.

Section cache.
Variable visit : forall A, list A -> list A.

(** src/src/cache/layers.rs:12-18 StoredValue *)
Record StoredValue : Type := {
  sv_payload : string;
  sv_created_at : Z;
  sv_last_accessed : Z;
  sv_access_count : Z;
  sv_ttl : Z
}.

(** src/src/cache/layers.rs:21-25 SharedLayer *)
Record SharedLayer : Type := {
  sl_store : gmap string StoredValue;
  sl_default_ttl : Z;
  sl_policy : EvictionPolicy
}.

(** src/src/cache/layers.rs:28-34 SharedLayer::new *)
Definition layer_new (default_ttl : Z) (policy : EvictionPolicy) : SharedLayer :=
  {| sl_store := ∅; sl_default_ttl := default_ttl; sl_policy := policy |}.

Definition with_store (m : gmap string StoredValue) (l : SharedLayer) : SharedLayer :=
  {| sl_store := m; sl_default_ttl := sl_default_ttl l; sl_policy := sl_policy l |}.

Definition expired (now : Z) (v : StoredValue) : bool := sv_created_at v + sv_ttl v <? now.

(** src/src/cache/layers.rs:40-56 SharedLayer::get *)
Definition layer_get (now : Z) (key : string) (l : SharedLayer) : option string * SharedLayer :=
  match sl_store l !! key with
  | Some v =>
      if expired now v then (None, with_store (delete key (sl_store l)) l)
      else
        (Some (sv_payload v),
         with_store (<[key := {| sv_payload := sv_payload v; sv_created_at := sv_created_at v;
                                 sv_last_accessed := now;
                                 sv_access_count := Z.min u64_max (sv_access_count v + 1);
                                 sv_ttl := sv_ttl v |}]> (sl_store l)) l)
  | None => (None, l)
  end.

(** src/src/cache/layers.rs:67-74 an entry of a layer *)
Definition entry_of (kv : string * StoredValue) : CacheEntry :=
  {| ce_key := fst kv; ce_created_at := sv_created_at (snd kv); ce_last_accessed := sv_last_accessed (snd kv);
     ce_access_count := sv_access_count (snd kv); ce_ttl := sv_ttl (snd kv);
     ce_size_bytes := slength (sv_payload (snd kv)) |}.

(** src/src/cache/layers.rs:112-125 SharedLayer::metadata_snapshot *)
Definition metadata_snapshot (l : SharedLayer) : list CacheEntry := map entry_of (visit _ (map_to_list (sl_store l))).

(** chrono's [Duration::from_std]: at most [i64::MAX] milliseconds.

    src/src/cache/layers.rs:59-60 the time to live of an entry *)
Definition entry_ttl (ttl : Z) (l : SharedLayer) : Z :=
  if ttl <=? i64_max * 10 ^ 6 then ttl else secs (wrap_i64 (sl_default_ttl l / 10 ^ 9)).

(** src/src/cache/layers.rs:58-95 SharedLayer::set_with_ttl *)
Definition set_with_ttl (now : Z) (key value : string) (ttl : Z) (l : SharedLayer) : SharedLayer :=
  let ttl := entry_ttl ttl l in
  let store :=
    if (ep_max_entries (sl_policy l) <=? size (sl_store l))%nat then
      fold_left (fun m victim => delete victim m) (select_victims (sl_policy l) (metadata_snapshot l) 1) (sl_store l)
    else sl_store l in
  with_store (<[key := {| sv_payload := value; sv_created_at := now; sv_last_accessed := now;
                          sv_access_count := 1; sv_ttl := ttl |}]> store) l.

(** src/src/cache/layers.rs:97-110 SharedLayer::delete_pattern *)
Definition delete_pattern (pattern : string) (l : SharedLayer) : nat * SharedLayer :=
  (size (filter (fun kv => wildcard_match pattern (fst kv) = true) (sl_store l)),
   with_store (filter (fun kv => wildcard_match pattern (fst kv) = false) (sl_store l)) l).

(** src/src/cache/layers.rs:133-139 LocalCache::default *)
Definition local_default : SharedLayer := layer_new (secs 60) eviction_default.

(** src/src/cache/layers.rs:174-180 RedisCache::default *)
Definition redis_default : SharedLayer := layer_new (secs 300) eviction_default.

(** src/src/cache/layers.rs:211-217 DatabaseCache::default *)
Definition database_default : SharedLayer := layer_new (secs 1800) eviction_default.

(** ** mod.rs *)

(** src/src/cache/mod.rs:51-55 MultiLayerCache *)
Record MultiLayerCache : Type := {
  l1 : SharedLayer;
  l2 : SharedLayer;
  l3 : SharedLayer
}.

(** src/src/cache/mod.rs:62-68 MultiLayerCache::with_defaults *)
Definition with_defaults : MultiLayerCache :=
  {| l1 := local_default; l2 := redis_default; l3 := database_default |}.

(** One of the three layers. *)
Inductive layer_id : Type := L1 | L2 | L3.

Definition layer (i : layer_id) (c : MultiLayerCache) : SharedLayer :=
  match i with L1 => l1 c | L2 => l2 c | L3 => l3 c end.

Definition with_layer (i : layer_id) (l : SharedLayer) (c : MultiLayerCache) : MultiLayerCache :=
  match i with
  | L1 => {| l1 := l; l2 := l2 c; l3 := l3 c |}
  | L2 => {| l1 := l1 c; l2 := l; l3 := l3 c |}
  | L3 => {| l1 := l1 c; l2 := l2 c; l3 := l |}
  end.

(** An operation of the cache as what it asks of the layers: each request is one
    section under the lock of a layer, and what the task goes on with comes
    after it.  A write without a time to live takes the default of the layer. *)
Inductive cache_prog : Type :=
| Answer (r : option string)
| ReadLayer (i : layer_id) (key : string) (k : option string -> cache_prog)
| WriteLayer (i : layer_id) (key raw : string) (ttl : option Z) (k : cache_prog)
| ClearLayer (i : layer_id) (pattern : string) (k : cache_prog).

(** The payload that [get] finds, before it is decoded.

    src/src/cache/mod.rs:70-96 MultiLayerCache::get *)
Definition get_prog (key : string) : cache_prog :=
  ReadLayer L1 key (fun r =>
  match r with
  | Some raw => Answer (Some raw)
  | None =>
      ReadLayer L2 key (fun r =>
      match r with
      | Some raw => WriteLayer L1 key raw None (Answer (Some raw))
      | None =>
          ReadLayer L3 key (fun r =>
          match r with
          | Some raw => WriteLayer L2 key raw None (WriteLayer L1 key raw None (Answer (Some raw)))
          | None => Answer None
          end)
      end)
  end).

(** src/src/cache/mod.rs:98-107 MultiLayerCache::set, of a text that serde has written *)
Definition set_prog (key raw : string) (ttl : Z) : cache_prog :=
  WriteLayer L1 key raw (Some ttl) (WriteLayer L2 key raw (Some ttl) (WriteLayer L3 key raw (Some ttl) (Answer None))).

(** src/src/cache/mod.rs:109-114 MultiLayerCache::invalidate_pattern *)
Definition invalidate_prog (pattern : string) : cache_prog :=
  ClearLayer L1 pattern (ClearLayer L2 pattern (ClearLayer L3 pattern (Answer None))).

(** src/src/cache/mod.rs:116-119 MultiLayerCache::invalidate_l1_pattern *)
Definition invalidate_l1_prog (pattern : string) : cache_prog := ClearLayer L1 pattern (Answer None).

Definition write_layer (now : Z) (i : layer_id) (key raw : string) (ttl : option Z) (c : MultiLayerCache) : MultiLayerCache :=
  with_layer i (set_with_ttl now key raw (default (sl_default_ttl (layer i c)) ttl) (layer i c)) c.

Definition clear_layer (i : layer_id) (pattern : string) (c : MultiLayerCache) : MultiLayerCache :=
  with_layer i (snd (delete_pattern pattern (layer i c))) c.

(** The next section of a program, at an instant. *)
Definition turn (now : Z) (p : cache_prog) (c : MultiLayerCache) : cache_prog * MultiLayerCache :=
  match p with
  | Answer r => (Answer r, c)
  | ReadLayer i key k => let '(r, l) := layer_get now key (layer i c) in (k r, with_layer i l c)
  | WriteLayer i key raw ttl k => (k, write_layer now i key raw ttl c)
  | ClearLayer i pattern k => (k, clear_layer i pattern c)
  end.

(** A program that no other task disturbs: its n-th section is at [clk n]. *)
Fixpoint run_alone (clk : nat -> Z) (p : cache_prog) (c : MultiLayerCache) : option string * MultiLayerCache :=
  let later := fun n => clk (S n) in
  match p with
  | Answer r => (r, c)
  | ReadLayer i key k =>
      let '(r, l) := layer_get (clk 0%nat) key (layer i c) in run_alone later (k r) (with_layer i l c)
  | WriteLayer i key raw ttl k => run_alone later k (write_layer (clk 0%nat) i key raw ttl c)
  | ClearLayer i pattern k => run_alone later k (clear_layer i pattern c)
  end.

(** src/src/cache/mod.rs:70-96 MultiLayerCache::get, undisturbed *)
Definition get_raw (clk : nat -> Z) (key : string) (c : MultiLayerCache) : option string * MultiLayerCache :=
  run_alone clk (get_prog key) c.

(** src/src/cache/mod.rs:98-107 MultiLayerCache::set, undisturbed *)
Definition set_raw (clk : nat -> Z) (key raw : string) (ttl : Z) (c : MultiLayerCache) : MultiLayerCache :=
  snd (run_alone clk (set_prog key raw ttl) c).

(** src/src/cache/mod.rs:109-114 MultiLayerCache::invalidate_pattern, undisturbed *)
Definition invalidate_pattern (pattern : string) (c : MultiLayerCache) : MultiLayerCache :=
  snd (run_alone (fun _ => 0) (invalidate_prog pattern) c).

(** src/src/cache/mod.rs:116-119 MultiLayerCache::invalidate_l1_pattern *)
Definition invalidate_l1_pattern (pattern : string) (c : MultiLayerCache) : MultiLayerCache :=
  snd (run_alone (fun _ => 0) (invalidate_l1_prog pattern) c).

(** ** invalidation.rs and coordination.rs *)

(** src/src/cache/coordination.rs:14-18 InvalidationMessage *)
Record InvalidationMessage : Type := {
  im_pattern : string;
  im_node_id : string;
  im_timestamp : Z
}.

(** The nodes of a cluster with what waits in their subscriptions; a node has its
    own three layers, as all of them are in its memory. *)
Record CacheNode : Type := {
  cn_id : string;
  cn_cache : MultiLayerCache;
  cn_inbox : list InvalidationMessage
}.

(** src/src/cache/coordination.rs:33-42 InMemoryCoordinationBus::publish *)
Definition publish (msg : InvalidationMessage) (nodes : list CacheNode) : list CacheNode :=
  map (fun n => {| cn_id := cn_id n; cn_cache := cn_cache n; cn_inbox := cn_inbox n ++ [msg] |}) nodes.

(** src/src/cache/coordination.rs:65-73 coordinate_invalidation *)
Definition coordinate_invalidation (now : Z) (node_id pattern : string) (nodes : list CacheNode) : list CacheNode :=
  publish {| im_pattern := pattern; im_node_id := node_id; im_timestamp := now |} nodes.

(** One message of the loop.

    src/src/cache/coordination.rs:75-97 listen_for_invalidations *)
Definition apply_message (n : CacheNode) : CacheNode :=
  match cn_inbox n with
  | [] => n
  | msg :: rest =>
      {| cn_id := cn_id n;
         cn_cache := if String.eqb (im_node_id msg) (cn_id n) then cn_cache n
                     else invalidate_l1_pattern (im_pattern msg) (cn_cache n);
         cn_inbox := rest |}
  end.

(** src/src/cache/invalidation.rs:41-54 CacheInvalidator::invalidate_pattern, at the
    node [i] *)
Definition invalidate_everywhere (now : Z) (i : nat) (pattern : string) (nodes : list CacheNode) : list CacheNode :=
  match nodes !! i with
  | Some n =>
      coordinate_invalidation now (cn_id n) pattern
        (<[i := {| cn_id := cn_id n; cn_cache := invalidate_pattern pattern (cn_cache n); cn_inbox := cn_inbox n |}]> nodes)
  | None => nodes
  end.

(** src/src/cache/invalidation.rs:56-66 CacheInvalidator::invalidate_on_update *)
Definition invalidate_on_update (now : Z) (i : nat) (entity id : string) (nodes : list CacheNode) : list CacheNode :=
  fold_left (fun nodes pattern => invalidate_everywhere now i pattern nodes)
    [entity +:+ ":" +:+ id; entity +:+ ":*"; "list:" +:+ entity +:+ ":*"] nodes.

(** ** keys.rs *)

(** src/src/cache/keys.rs:7-9 creator *)
Definition creator_key (username : string) : string := "creator:" +:+ username.

(** src/src/cache/keys.rs:36-38 leaderboard *)
Definition leaderboard_key (board_type period : string) (limit : Z) : string :=
  "leaderboard:" +:+ board_type +:+ ":" +:+ period +:+ ":" +:+ print_i64 limit.

(** SHA-256 in hexadecimal. *)
Variable sha256_hex : string -> string.

(** src/src/cache/keys.rs:41-48 http_response *)
Definition http_response (method path query : string) : string :=
  let query_digest := if String.eqb query "" then "none" else sha256_hex query in
  "http:" +:+ method +:+ ":" +:+ path +:+ ":" +:+ query_digest.

(** src/src/cache/keys.rs:51-53 http_response_pattern *)
Definition http_response_pattern (path_prefix : string) : string := "http:*:" +:+ path_prefix +:+ ":*".

(** ** warming.rs *)

(** src/src/cache/warming.rs:72-81 CacheWarmer::warm_popular, of the items the source
    gave, with their keys and texts *)
Definition warm_popular (clk : nat -> Z) (ttl : Z) (items : list (string * string)) (c : MultiLayerCache)
    : nat * MultiLayerCache :=
  (length items, fold_left (fun c item => set_raw clk (fst item) (snd item) ttl c) items c).
End cache.

(** ** Histories *)

(** What the clients of a cache do. *)
Inductive cache_op : Type :=
| OpSet (key raw : string) (ttl : Z)
| OpGet (key : string)
| OpInvalidate (pattern : string).

Section laws.
Variable visit : forall A, list A -> list A.

(** *** One after the other *)

Definition run_op (c : MultiLayerCache) (timed : (nat -> Z) * cache_op) : MultiLayerCache :=
  match timed with
  | (clk, OpSet key raw ttl) => set_raw visit clk key raw ttl c
  | (clk, OpGet key) => snd (get_raw visit clk key c)
  | (_, OpInvalidate pattern) => invalidate_pattern visit pattern c
  end.

Definition run_ops (h : list ((nat -> Z) * cache_op)) (c : MultiLayerCache) : MultiLayerCache := fold_left run_op h c.

(** The last value of a key that was not invalidated, when its set began and for
    how long. *)
Definition observe (k : string) (last : option (Z * string * Z)) (timed : (nat -> Z) * cache_op) : option (Z * string * Z) :=
  match timed with
  | (clk, OpSet key raw ttl) => if String.eqb key k then Some (clk 0%nat, raw, ttl) else last
  | (_, OpGet _) => last
  | (_, OpInvalidate pattern) => if wildcard_match pattern k then None else last
  end.

Definition last_set (k : string) (h : list ((nat -> Z) * cache_op)) : option (Z * string * Z) := fold_left (observe k) h None.

(** An operation reads a clock that runs forward, for [delta] at most. *)
Definition brisk (delta : Z) (clk : nat -> Z) : Prop := forall n m, (n <= m)%nat -> clk n <= clk m <= clk n + delta.

(** *** At the same time *)

Definition prog_of (op : cache_op) : cache_prog :=
  match op with
  | OpSet key raw ttl => set_prog key raw ttl
  | OpGet key => get_prog key
  | OpInvalidate pattern => invalidate_prog pattern
  end.

(** A task begins an operation, or the [i]-th operation begun has its turn. *)
Inductive cache_event : Type :=
| Begin (op : cache_op)
| Turn (i : nat) (now : Z).

(** The cache and what is left of each operation begun. *)
Record CacheWorld : Type := { cw_cache : MultiLayerCache; cw_tasks : list cache_prog }.

Definition cache_step (w : CacheWorld) (e : cache_event) : CacheWorld :=
  match e with
  | Begin op => {| cw_cache := cw_cache w; cw_tasks := cw_tasks w ++ [prog_of op] |}
  | Turn i now =>
      match cw_tasks w !! i with
      | Some p => let '(p, c) := turn visit now p (cw_cache w) in {| cw_cache := c; cw_tasks := <[i := p]> (cw_tasks w) |}
      | None => w
      end
  end.

Definition cache_run (es : list cache_event) (w : CacheWorld) : CacheWorld := fold_left cache_step es w.

(** The operations begun, in order. *)
Definition begun (es : list cache_event) : list cache_op :=
  omap (fun e => match e with Begin op => Some op | Turn _ _ => None end) es.

(** chrono accepts a time to live. *)
Definition fits (ttl : Z) : Prop := 0 <= ttl <= i64_max * 10 ^ 6.

Lemma entry_ttl_fits ttl l : fits ttl -> entry_ttl ttl l = ttl.
Proof. intros [_ H]. unfold entry_ttl. by apply Z.leb_le in H as ->. Qed.

(** *** One layer *)

Lemma delete_victims (victims : list string) (m : gmap string StoredValue) k v :
  fold_left (fun m victim => delete victim m) victims m !! k = Some v -> m !! k = Some v.
Proof.
  revert m. induction victims as [| x victims IH]; intros m; simpl; [done |].
  intros H. apply IH in H. apply lookup_delete_Some in H. tauto.
Qed.

(** What a layer holds after a set: the new value, and of the rest some. *)
Lemma set_lookup now key value ttl l k v :
  sl_store (set_with_ttl visit now key value ttl l) !! k = Some v ->
  (k = key /\ sv_payload v = value /\ sv_created_at v = now /\ sv_ttl v = entry_ttl ttl l) \/
  (k <> key /\ sl_store l !! k = Some v).
Proof.
  unfold set_with_ttl. simpl. intros [[-> <-] | [Hne H]]%lookup_insert_Some; [by left | right].
  split; [done |]. case_match; [by eapply delete_victims | done].
Qed.

Lemma set_lookup_eq now key value ttl l :
  sl_store (set_with_ttl visit now key value ttl l) !! key =
    Some {| sv_payload := value; sv_created_at := now; sv_last_accessed := now; sv_access_count := 1;
            sv_ttl := entry_ttl ttl l |}.
Proof. apply lookup_insert_eq. Qed.

(** Reading a key changes no payload and no deadline. *)
Lemma get_lookup now key l k v :
  sl_store (snd (layer_get now key l)) !! k = Some v ->
  exists v0, sl_store l !! k = Some v0 /\ sv_payload v = sv_payload v0 /\ sv_created_at v = sv_created_at v0 /\
    sv_ttl v = sv_ttl v0.
Proof.
  unfold layer_get. destruct (sl_store l !! key) as [v1 |] eqn:Hk; simpl; [| by exists v].
  destruct (expired now v1); simpl.
  - intros [_ H]%lookup_delete_Some. by exists v.
  - intros [[-> <-] | [_ H]]%lookup_insert_Some; [by exists v1 | by exists v].
Qed.

Lemma get_Some now key l raw :
  fst (layer_get now key l) = Some raw ->
  exists v, sl_store l !! key = Some v /\ sv_payload v = raw /\ now <= sv_created_at v + sv_ttl v.
Proof.
  unfold layer_get. destruct (sl_store l !! key) as [v |]; [| done].
  unfold expired. destruct (Z.ltb_spec (sv_created_at v + sv_ttl v) now); [done |]. intros [= <-]. eauto.
Qed.

Lemma get_policy now key l :
  sl_default_ttl (snd (layer_get now key l)) = sl_default_ttl l /\ sl_policy (snd (layer_get now key l)) = sl_policy l.
Proof. unfold layer_get. by repeat case_match. Qed.

(** *** The three layers *)

(** A layer holds of [k] only the last value, until its time to live and some
    slack are over. *)
Definition fresh (k : string) (last : option (Z * string * Z)) (slack : Z) (l : SharedLayer) : Prop :=
  forall v, sl_store l !! k = Some v ->
    exists s ttl, last = Some (s, sv_payload v, ttl) /\ sv_created_at v + sv_ttl v <= s + ttl + slack.

Lemma fresh_get now key k last slack l : fresh k last slack l -> fresh k last slack (snd (layer_get now key l)).
Proof.
  intros Hl v (v0 & H0 & Hp & Hc & Ht)%get_lookup. destruct (Hl v0 H0) as (s & ttl & H1 & H2).
  exists s, ttl. rewrite Hp, Hc, Ht. done.
Qed.

Lemma fresh_served now k last slack l raw :
  fresh k last slack l -> fst (layer_get now k l) = Some raw -> exists s ttl, last = Some (s, raw, ttl) /\ now <= s + ttl + slack.
Proof.
  intros Hl (v & Hv & <- & Hn)%get_Some. destruct (Hl v Hv) as (s & ttl & H1 & H2). exists s, ttl. split; [done | lia].
Qed.

(** A promoted copy. *)
Lemma fresh_promote now key k last slack slack' l raw d :
  fits d -> slack + d <= slack' -> fresh k last slack' l ->
  (key = k -> exists s ttl, last = Some (s, raw, ttl) /\ now <= s + ttl + slack) ->
  fresh k last slack' (set_with_ttl visit now key raw d l).
Proof.
  intros Hd Hs Hl Hk v [(-> & Hp & Hc & Ht) | [_ H]]%set_lookup; [| by apply Hl].
  destruct (Hk eq_refl) as (s & ttl & -> & Hn). exists s, ttl. rewrite Hp, Hc, Ht, entry_ttl_fits by done. split; [done | lia].
Qed.

Lemma fresh_set clk n delta key raw ttl k last slack l :
  fits ttl -> brisk delta clk -> delta <= slack -> fresh k last slack l ->
  fresh k (observe k last (clk, OpSet key raw ttl)) slack (set_with_ttl visit (clk n) key raw ttl l).
Proof.
  intros Hf Hb Hs Hl v [(-> & Hp & Hc & Ht) | [Hne H]]%set_lookup; simpl.
  - rewrite String.eqb_refl. exists (clk 0%nat), ttl. rewrite Hp, Hc, Ht, entry_ttl_fits by done.
    split; [done |]. pose proof (Hb 0%nat n ltac:(lia)). lia.
  - destruct (String.eqb_spec key k); [congruence | by apply Hl].
Qed.

Lemma fresh_delete pattern k last slack l clk :
  fresh k last slack l -> fresh k (observe k last (clk, OpInvalidate pattern)) slack (snd (delete_pattern pattern l)).
Proof.
  intros Hl v. simpl. intros [Hv Hw]%map_lookup_filter_Some. simpl in Hw. rewrite Hw. by apply Hl.
Qed.

Section defaults.
Variables (k : string) (d1 d2 delta : Z).
Hypotheses (F1 : fits d1) (F2 : fits d2).

Record cache_ok (last : option (Z * string * Z)) (c : MultiLayerCache) : Prop := {
  co_d1 : sl_default_ttl (l1 c) = d1;
  co_d2 : sl_default_ttl (l2 c) = d2;
  co_l1 : fresh k last (d2 + d1 + 3 * delta) (l1 c);
  co_l2 : fresh k last (d2 + 2 * delta) (l2 c);
  co_l3 : fresh k last delta (l3 c)
}.

(** A read that nothing disturbs: the layers stay as they should, and what it
    gives is the last value. *)
Lemma get_raw_ok last clk key c :
  brisk delta clk -> cache_ok last c ->
  cache_ok last (snd (get_raw visit clk key c)) /\
  (forall raw, fst (get_raw visit clk key c) = Some raw -> key = k ->
     exists s ttl, last = Some (s, raw, ttl) /\ clk 0%nat <= s + ttl + d2 + d1 + 3 * delta).
Proof.
  intros Hb [E1 E2 H1 H2 H3]. unfold get_raw, get_prog. cbn [run_alone layer].
  pose proof (fresh_get (clk 0%nat) key k last _ _ H1) as G1. pose proof (fresh_get (clk 1%nat) key k last _ _ H2) as G2.
  pose proof (fresh_get (clk 2%nat) key k last _ _ H3) as G3.
  pose proof (Hb 0%nat 1%nat ltac:(lia)) as B1. pose proof (Hb 0%nat 2%nat ltac:(lia)) as B2.
  pose proof (Hb 1%nat 2%nat ltac:(lia)) as B12. pose proof (Hb 2%nat 3%nat ltac:(lia)) as B3.
  pose proof (Hb 2%nat 4%nat ltac:(lia)) as B4.
  destruct F1 as [P1 _], F2 as [P2 _].
  destruct (get_policy (clk 0%nat) key (l1 c)) as [D1 _], (get_policy (clk 1%nat) key (l2 c)) as [D2 _].
  assert (S1 := fun raw => fresh_served (clk 0%nat) k last _ (l1 c) raw H1).
  assert (S2 := fun raw => fresh_served (clk 1%nat) k last _ (l2 c) raw H2).
  assert (S3 := fun raw => fresh_served (clk 2%nat) k last _ (l3 c) raw H3).
  destruct (layer_get (clk 0%nat) key (l1 c)) as [r1 a] eqn:L1e. cbn [run_alone write_layer layer with_layer l1 l2 l3 fst snd default sl_default_ttl] in *. destruct r1 as [raw |].
  { split; [constructor; simpl; congruence || done |]. intros ? [= <-] ->. rewrite L1e in S1.
    destruct (S1 raw eq_refl) as (s & ttl & -> & ?). exists s, ttl. split; [done | lia]. }
  cbn [run_alone write_layer layer with_layer l1 l2 l3 fst snd default sl_default_ttl] in *.
  destruct (layer_get (clk 1%nat) key (l2 c)) as [r2 b] eqn:L2e. cbn [run_alone write_layer layer with_layer l1 l2 l3 fst snd default sl_default_ttl] in *. destruct r2 as [raw |].
  { assert (key = k -> exists s ttl, last = Some (s, raw, ttl) /\ clk 1%nat <= s + ttl + (d2 + 2 * delta)) as Hk.
    { intros ->. rewrite L2e in S2. by apply S2. }
    split.
    - constructor; simpl; try done; try congruence. rewrite D1, E1.
      apply (fresh_promote (clk 2%nat) key k last (d2 + 3 * delta)); [done | lia | done |].
      intros (s & ttl & -> & ?)%Hk. exists s, ttl. split; [done | lia].
    - intros ? [= <-] (s & ttl & -> & ?)%Hk. exists s, ttl. split; [done | lia]. }
  cbn [run_alone write_layer layer with_layer l1 l2 l3 fst snd default sl_default_ttl] in *.
  destruct (layer_get (clk 2%nat) key (l3 c)) as [r3 d] eqn:L3e. cbn [run_alone write_layer layer with_layer l1 l2 l3 fst snd default sl_default_ttl] in *. destruct r3 as [raw |].
  - assert (key = k -> exists s ttl, last = Some (s, raw, ttl) /\ clk 2%nat <= s + ttl + delta) as Hk.
    { intros ->. rewrite L3e in S3. by apply S3. }
    split.
    + constructor; simpl; try done; try congruence; rewrite ?D1, ?D2, ?E1, ?E2.
      * apply (fresh_promote (clk 4%nat) key k last (d2 + 3 * delta)); [done | lia | done |].
        intros (s & ttl & -> & ?)%Hk. exists s, ttl. split; [done | lia].
      * apply (fresh_promote (clk 3%nat) key k last (2 * delta)); [done | lia | done |].
        intros (s & ttl & -> & ?)%Hk. exists s, ttl. split; [done | lia].
    + intros ? [= <-] (s & ttl & -> & ?)%Hk. exists s, ttl. split; [done | lia].
  - split; [constructor; simpl; congruence || done | done].
Qed.

(** What an operation of a history should be. *)
Definition proper (timed : (nat -> Z) * cache_op) : Prop :=
  brisk delta (fst timed) /\ match snd timed with OpSet _ _ ttl => fits ttl | _ => True end.

Lemma run_op_ok last timed c :
  proper timed -> cache_ok last c -> cache_ok (observe k last timed) (run_op c timed).
Proof.
  destruct timed as [clk op]. intros [Hb Ht] Hc. pose proof (Hb 0%nat 0%nat ltac:(lia)). simpl in *.
  destruct op as [key raw ttl | key | pattern]; cbn [run_op].
  - destruct Hc as [E1 E2 H1 H2 H3], F1, F2. unfold set_raw, set_prog. cbn [run_alone snd write_layer layer with_layer].
    constructor; try done; eapply fresh_set; done || lia.
  - by apply get_raw_ok.
  - destruct Hc. constructor; try done; by apply (fresh_delete _ _ _ _ _ clk).
Qed.

Lemma run_ops_ok h last c :
  Forall proper h -> cache_ok last c -> cache_ok (fold_left (observe k) h last) (run_ops h c).
Proof.
  intros Hh. revert last c. induction Hh as [| timed h Ht Hh IH]; intros last c Hc; [done |].
  simpl. apply IH. by apply run_op_ok.
Qed.
End defaults.

(** *** The size of a layer *)

Definition bounded (l : SharedLayer) : Prop := (size (sl_store l) <= Nat.max 1 (ep_max_entries (sl_policy l)))%nat.

Hypothesis visit_perm : forall A (l : list A), visit A l ≡ₚ l.

Lemma select_one p entries :
  entries <> [] -> exists e, e ∈ entries /\ select_victims p entries 1 = [ce_key e].
Proof.
  intros Hne. unfold select_victims. pose proof (sort_by_perm (evicted_before (ep_strategy p)) entries) as Hp.
  destruct (sort_by _ entries) as [| e l]; [by apply Permutation_nil_l in Hp; rewrite Hp in Hne |].
  exists e. split; [rewrite <- Hp; left | done].
Qed.

Lemma set_bounded now key value ttl l : bounded l -> bounded (set_with_ttl visit now key value ttl l).
Proof.
  unfold bounded, set_with_ttl. simpl. intros Hb.
  assert (forall m : gmap string StoredValue, forall v, (size (<[key := v]> m) <= S (size m))%nat) as Hins.
  { intros m v. destruct (m !! key) as [v0 |] eqn:Hk; [rewrite map_size_insert_Some by (by exists v0); lia | rewrite map_size_insert_None by done; lia]. }
  destruct (Nat.leb_spec (ep_max_entries (sl_policy l)) (size (sl_store l))).
  - destruct (decide (sl_store l = ∅)) as [E | Hne].
    + rewrite E, map_size_empty in *. pose proof (Hins ∅ {| sv_payload := value; sv_created_at := now; sv_last_accessed := now; sv_access_count := 1; sv_ttl := entry_ttl ttl l |}) as Hi.
      unfold metadata_snapshot. rewrite E, map_to_list_empty.
      assert (visit _ ([] : list (string * StoredValue)) = []) as -> by (apply Permutation_nil_r, visit_perm).
      simpl. rewrite map_size_empty in Hi. unfold select_victims. simpl. lia.
    + destruct (select_one (sl_policy l) (metadata_snapshot visit l)) as (e & He & ->).
      { unfold metadata_snapshot. intros H0. apply map_eq_nil in H0. pose proof (visit_perm _ (map_to_list (sl_store l))) as Hp.
        rewrite H0 in Hp. apply Permutation_nil in Hp. by apply map_to_list_empty_iff in Hp. }
      unfold metadata_snapshot in He. rewrite visit_perm in He. apply list_elem_of_fmap in He as ([k v] & -> & Hkv).
      apply elem_of_map_to_list in Hkv. simpl. etransitivity; [apply Hins |].
      rewrite map_size_delete_Some by (by exists v). pose proof (map_size_ne_0_lookup_2 (sl_store l) k ltac:(by exists v)). lia.
  - etransitivity; [apply Hins |]. lia.
Qed.

Lemma get_bounded now key l : bounded l -> bounded (snd (layer_get now key l)).
Proof.
  unfold bounded, layer_get. destruct (sl_store l !! key) as [v |] eqn:Hk; [| done]. intros Hb.
  destruct (expired now v); simpl.
  - rewrite map_size_delete_Some by (by exists v). lia.
  - rewrite map_size_insert_Some by (by exists v). done.
Qed.

Lemma delete_bounded pattern l : bounded l -> bounded (snd (delete_pattern pattern l)).
Proof. unfold bounded. simpl. intros Hb. etransitivity; [apply map_size_filter | exact Hb]. Qed.

Definition all_bounded (c : MultiLayerCache) : Prop := bounded (l1 c) /\ bounded (l2 c) /\ bounded (l3 c).

Lemma all_bounded_layer c i : all_bounded c -> bounded (layer i c).
Proof. intros (H1 & H2 & H3). by destruct i. Qed.

Lemma all_bounded_with c i l : all_bounded c -> bounded l -> all_bounded (with_layer i l c).
Proof. intros (H1 & H2 & H3) Hl. by destruct i. Qed.

Lemma turn_bounded now p c : all_bounded c -> all_bounded (snd (turn visit now p c)).
Proof.
  intros Hc. destruct p as [r | i key k | i key raw ttl k | i pattern k]; simpl; [done | | |].
  - pose proof (get_bounded now key _ (all_bounded_layer c i Hc)). destruct (layer_get _ _ _). by apply all_bounded_with.
  - by apply all_bounded_with, set_bounded, all_bounded_layer.
  - by apply all_bounded_with, delete_bounded, all_bounded_layer.
Qed.

(** *** Operations at the same time *)

(** A program alone is its turns, one after the other: no operation takes more
    than five. *)
Fixpoint turns (n : nat) (clk : nat -> Z) (p : cache_prog) (c : MultiLayerCache) : cache_prog * MultiLayerCache :=
  match n with
  | O => (p, c)
  | S n => let '(p, c) := turn visit (clk 0%nat) p c in turns n (fun m => clk (S m)) p c
  end.

Lemma run_alone_turns clk op c :
  turns 5 clk (prog_of op) c =
    (Answer (fst (run_alone visit clk (prog_of op) c)), snd (run_alone visit clk (prog_of op) c)).
Proof.
  destruct op as [key raw ttl | key | pattern]; [done | | done].
  cbn [prog_of get_prog turns turn run_alone].
  destruct (layer_get (clk 0%nat) key _) as [[raw |] a]; [done |]. cbn [turn turns run_alone].
  destruct (layer_get (clk 1%nat) key _) as [[raw |] b]; [done |]. cbn [turn turns run_alone].
  by destruct (layer_get (clk 2%nat) key _) as [[raw |] d].
Qed.

(** [sets] holds the values that a program may write or answer for the key it
    reads. *)
Fixpoint honest (sets : string -> string -> Prop) (own : option string) (p : cache_prog) : Prop :=
  match p with
  | Answer r => forall raw, r = Some raw -> exists key, own = Some key /\ sets key raw
  | ReadLayer i key k => forall r, (forall raw, r = Some raw -> sets key raw) -> honest sets own (k r)
  | WriteLayer i key raw ttl k => sets key raw /\ honest sets own k
  | ClearLayer i pattern k => honest sets own k
  end.

(** A layer holds only such values. *)
Definition stored (sets : string -> string -> Prop) (l : SharedLayer) : Prop :=
  forall k v, sl_store l !! k = Some v -> sets k (sv_payload v).

Lemma stored_layer sets c i : stored sets (l1 c) /\ stored sets (l2 c) /\ stored sets (l3 c) -> stored sets (layer i c).
Proof. intros (? & ? & ?). by destruct i. Qed.

(** What is asked of the world between two turns. *)
Record world_ok (sets : string -> string -> Prop) (ops : list cache_op) (w : CacheWorld) : Prop := {
  wo_bounded : all_bounded (cw_cache w);
  wo_stored : forall i, stored sets (layer i (cw_cache w));
  wo_tasks : Forall2 (fun op p => honest sets (match op with OpGet key => Some key | _ => None end) p) ops (cw_tasks w)
}.

Lemma prog_honest (sets : string -> string -> Prop) op :
  (forall key raw ttl, op = OpSet key raw ttl -> sets key raw) ->
  honest sets (match op with OpGet key => Some key | _ => None end) (prog_of op).
Proof.
  destruct op as [key raw ttl | key | pattern]; intros Hs; simpl.
  - specialize (Hs key raw ttl eq_refl). by split_and!.
  - intros [raw |] Hr; simpl; [intros ? [= <-]; eauto |]. clear Hr.
    intros [raw |] Hr; simpl; [split; [eauto | intros ? [= <-]; eauto] |]. clear Hr.
    intros [raw |] Hr; simpl; [| done]. split; [eauto |]. split; [eauto |]. intros ? [= <-]; eauto.
  - done.
Qed.

Lemma turn_ok sets own now p c :
  (forall i, stored sets (layer i c)) -> honest sets own p ->
  honest sets own (fst (turn visit now p c)) /\ (forall i, stored sets (layer i (snd (turn visit now p c)))).
Proof.
  intros Hs Hp. assert (forall i l, stored sets l -> forall j, stored sets (layer j (with_layer i l c))) as Hw.
  { intros i l Hl j. pose proof (Hs L1). pose proof (Hs L2). pose proof (Hs L3). by destruct i, j. }
  destruct p as [r | i key k | i key raw ttl k | i pattern k]; simpl; [done | | |]; specialize (Hs i).
  - destruct (layer_get now key (layer i c)) as [r l] eqn:Hg. simpl in *. split.
    + apply Hp. intros raw ->. destruct (get_Some now key (layer i c) raw) as (v & Hv & <- & _); [by rewrite Hg | by apply Hs].
    + apply Hw. intros k' v Hv. destruct (get_lookup now key (layer i c) k' v) as (v0 & H0 & -> & _); [by rewrite Hg | by apply Hs].
  - destruct Hp as [Hraw Hp]. split; [done |]. apply Hw. intros k' v [(-> & -> & _) | [_ Hv]]%set_lookup; [done | by apply Hs].
  - split; [done |]. apply Hw. intros k' v [Hv _]%map_lookup_filter_Some. by apply Hs.
Qed.

Lemma cache_step_ok (sets : string -> string -> Prop) ops w e :
  (forall key raw ttl, e = Begin (OpSet key raw ttl) -> sets key raw) -> world_ok sets ops w ->
  world_ok sets (ops ++ begun [e]) (cache_step w e).
Proof.
  intros He [Hb Hs Ht]. destruct e as [op | i now]; cbn [cache_step begun omap list_omap].
  - split; [done | done |]. apply Forall2_app; [done |]. constructor; [| constructor].
    apply prog_honest. intros key raw ttl ->. by eapply He.
  - rewrite app_nil_r. destruct (cw_tasks w !! i) as [p |] eqn:Hp; [| done].
    destruct (Forall2_lookup_r _ _ _ _ _ Ht Hp) as (op & Hop & Hh).
    pose proof (turn_bounded now p _ Hb) as Hb'. pose proof (turn_ok sets _ now p _ Hs Hh) as [Hh' Hs'].
    destruct (turn visit now p (cw_cache w)) as [p' c']. split; simpl in *; [done | done |].
    rewrite <- (list_insert_id ops i op Hop). by apply Forall2_insert.
Qed.

Lemma begun_app es fs : begun (es ++ fs) = begun es ++ begun fs.
Proof. apply omap_app. Qed.

Lemma cache_run_ok (sets : string -> string -> Prop) es w :
  (forall key raw ttl, OpSet key raw ttl ∈ begun es -> sets key raw) -> world_ok sets [] w ->
  world_ok sets (begun es) (cache_run es w).
Proof.
  intros He Hw. induction es as [| e es IH] using rev_ind; [done |].
  unfold cache_run. rewrite fold_left_app, begun_app in *. apply cache_step_ok.
  - intros key raw ttl ->. apply (He key raw ttl). apply elem_of_app. right. left.
  - apply IH. intros key raw ttl Hin. apply (He key raw ttl). apply elem_of_app. by left.
Qed.

(** What was just set is read back until its time to live is over. *)
Lemma get_after_set clk clk' k raw ttl c :
  fits ttl -> clk' 0%nat <= clk 0%nat + ttl -> fst (get_raw visit clk' k (set_raw visit clk k raw ttl c)) = Some raw.
Proof.
  intros Hf Hn. unfold get_raw, set_raw, set_prog, get_prog. cbn [run_alone snd write_layer layer with_layer l1].
  unfold layer_get at 1. rewrite set_lookup_eq. simpl default. rewrite entry_ttl_fits by done.
  unfold expired. simpl. by destruct (Z.ltb_spec (clk 0%nat + ttl) (clk' 0%nat)); [lia |].
Qed.
End laws.

(** ** Theorems *)

Definition new_cache (d1 d2 d3 : Z) (p1 p2 p3 : EvictionPolicy) : MultiLayerCache :=
  {| l1 := layer_new d1 p1; l2 := layer_new d2 p2; l3 := layer_new d3 p3 |}.

Definition idle (c : MultiLayerCache) : CacheWorld := {| cw_cache := c; cw_tasks := [] |}.

(** C26: The cache is coherent for operations that do not overlap: after any
    sequence of sets, reads, promotions, evictions and invalidations, each done
    before the next begins and within [delta], a read gives the last value set
    under the key and nothing once it was invalidated; a value outlives its time
    to live by at most the two default times to live of the upper layers, which
    promotion gives it, and three times [delta]; what was just set is read back.
    For operations that overlap, at whatever layer the tasks take turns, this
    much stays: an answered read gives a value that some set put under its key,
    and no layer grows beyond its policy.  (It may be a value that has been
    replaced or invalidated since: [promotion_revives].) *)
Theorem cache_coherent visit d1 d2 d3 p1 p2 p3 :
  (forall A (l : list A), visit A l ≡ₚ l) -> fits d1 -> fits d2 ->
  let empty := new_cache d1 d2 d3 p1 p2 p3 in
  (forall delta h k, Forall (proper delta) h -> let c := run_ops visit h empty in
     (forall clk raw, brisk delta clk -> fst (get_raw visit clk k c) = Some raw ->
        exists s ttl, last_set k h = Some (s, raw, ttl) /\ clk 0%nat <= s + ttl + d2 + d1 + 3 * delta) /\
     (forall clk clk' raw ttl, fits ttl -> clk' 0%nat <= clk 0%nat + ttl ->
        fst (get_raw visit clk' k (run_op visit c (clk, OpSet k raw ttl))) = Some raw)) /\
  (forall es, let w := cache_run visit es (idle empty) in
     all_bounded (cw_cache w) /\
     forall i k raw, begun es !! i = Some (OpGet k) -> cw_tasks w !! i = Some (Answer (Some raw)) ->
       exists ttl, OpSet k raw ttl ∈ begun es).
Proof.
  intros Hv F1 F2 empty. split.
  - intros delta h k Hh c.
    assert (cache_ok k d1 d2 delta None empty) as H0 by (constructor; try done; intros v Hv0; by rewrite lookup_empty in Hv0).
    split.
    + intros clk raw Hb Hg. pose proof (run_ops_ok visit k d1 d2 delta F1 F2 h None empty Hh H0) as Hc.
      by apply (get_raw_ok visit k d1 d2 delta F1 F2 _ clk k c Hb Hc).
    + intros clk clk' raw ttl Ht Hn. by apply get_after_set.
  - intros es w. destruct (cache_run_ok visit Hv (fun k raw => exists ttl, OpSet k raw ttl ∈ begun es) es (idle empty)) as [Hb _ Ht].
    + eauto.
    + constructor; [| | constructor].
      * split_and!; unfold bounded; simpl; rewrite map_size_empty; lia.
      * intros i k v Hk. by destruct i; simpl in Hk; rewrite lookup_empty in Hk.
    + split; [done |]. intros i k raw Hi Hw. destruct (Forall2_lookup_lr _ _ _ _ _ _ Ht Hi Hw raw eq_refl) as (key & [= <-] & Hs).
      exact Hs.
Qed.

Definition small_policy : EvictionPolicy :=
  {| ep_strategy := Adaptive; ep_max_entries := 1; ep_lru_max_idle := hours 1; ep_min_access_count := 5 |}.
Definition as_listed (A : Type) (l : list A) : list A := l.

Definition small_cache : MultiLayerCache := new_cache (secs 60) (secs 300) (secs 1800) small_policy eviction_default eviction_default.

(** The clock of an operation that begins at a second and takes a millisecond for
    each of the first layers. *)
Definition ticking (s : Z) (n : nat) : Z := secs s + Z.of_nat (Nat.min n 5) * 10 ^ 6.

Lemma ticking_brisk s : brisk (5 * 10 ^ 6) (ticking s).
Proof. intros n m Hnm. unfold ticking. lia. Qed.

(** The first layer has room for one entry: "x" pushes "k" out. *)
Definition demo_history : list ((nat -> Z) * cache_op) :=
  [(ticking 0, OpSet "k" "v" (secs 5)); (ticking 1, OpSet "x" "w" (secs 5)); (ticking 4, OpGet "k")].

(** A read of "k" takes turns with a set. *)
Definition demo_events : list cache_event :=
  [Begin (OpSet "k" "v" (secs 5)); Begin (OpGet "k"); Turn 0 0; Turn 1 1; Turn 0 2; Turn 0 3].

Lemma cache_coherent_witness :
  fst (get_raw as_listed (ticking 60) "k" (run_ops as_listed demo_history small_cache)) = Some "v" /\
  ticking 60 0%nat <= secs 5 + secs 300 + secs 60 + 3 * (5 * 10 ^ 6) /\
  (exists ttl, OpSet "k" "v" ttl ∈ begun demo_events).
Proof.
  assert (fst (get_raw as_listed (ticking 60) "k" (run_ops as_listed demo_history small_cache)) = Some "v") as Hget
    by (vm_compute; reflexivity).
  split; [exact Hget |].
  destruct (cache_coherent as_listed (secs 60) (secs 300) (secs 1800) small_policy eviction_default eviction_default) as [Hseq Hpar].
  - intros A l. reflexivity.
  - split; vm_compute; discriminate.
  - split; vm_compute; discriminate.
  - split.
    + destruct (Hseq (5 * 10 ^ 6) demo_history "k") as [Hserved _].
      * repeat (apply Forall_cons; split; [split; [apply ticking_brisk | try exact I; split; vm_compute; discriminate] |]).
        constructor.
      * destruct (Hserved (ticking 60) "v" (ticking_brisk 60) Hget) as (s & ttl & Hl & Hn).
        vm_compute in Hl. injection Hl as <- <-. unfold secs in *. lia.
    + destruct (Hpar demo_events) as [_ Hset]. apply (Hset 1%nat); vm_compute; reflexivity.
Defined.

(** A read that found a value in the third layer copies it upwards after the locks
    are free: meanwhile the value is invalidated in all three layers, and the
    copies bring it back.  A read begun after both are done serves it. *)
Definition reviving_events : list cache_event :=
  [Begin (OpSet "k" "old" (secs 5)); Turn 0 0; Turn 0 0; Turn 0 0; Begin (OpSet "x" "w" (secs 5)); Turn 1 1; Turn 1 1;
   Begin (OpGet "k"); Turn 2 2; Turn 2 2; Turn 2 2;
   Begin (OpInvalidate "k"); Turn 3 3; Turn 3 3; Turn 3 3;
   Turn 2 4; Turn 2 5; Begin (OpGet "k"); Turn 4 6].

Example promotion_revives :
  let w := cache_run as_listed reviving_events
             (idle (new_cache (secs 60) (secs 300) (secs 1800) small_policy small_policy eviction_default)) in
  map (fun p => match p with Answer r => r | _ => None end) (cw_tasks w) !! 3%nat = Some None /\
  cw_tasks w !! 4%nat = Some (Answer (Some "old")).
Proof. split; vm_compute; reflexivity. Qed.

(** A copy promoted just before its time is over lives on for as long as a fresh
    one: the value of 5 seconds is served a minute later. *)
Example promotion_outlives_ttl :
  fst (get_raw as_listed (ticking 64) "k" (run_ops as_listed demo_history small_cache)) = Some "v" /\
  last_set "k" demo_history = Some (0, "v", secs 5).
Proof. split; vm_compute; reflexivity. Qed.

(** A remote invalidation clears the first layer only, and the layers below it
    belong to the node as well: the node goes on serving the old value. *)
Lemma remote_invalidation_incomplete visit clk k v msg n :
  cn_inbox n = [msg] -> im_node_id msg <> cn_id n -> wildcard_match (im_pattern msg) k = true ->
  sl_store (l2 (cn_cache n)) !! k = Some v -> expired (clk 1%nat) v = false ->
  fst (get_raw visit clk k (cn_cache (apply_message visit n))) = Some (sv_payload v).
Proof.
  intros Hi Hid Hm Hv He. unfold apply_message. rewrite Hi. apply String.eqb_neq in Hid. rewrite Hid. cbn [cn_cache].
  unfold get_raw, get_prog, invalidate_l1_pattern, invalidate_l1_prog.
  cbn [run_alone clear_layer layer with_layer l1 l2 l3 snd]. unfold layer_get at 1. simpl.
  destruct (filter _ _ !! k) as [w |] eqn:Hf.
  { apply map_lookup_filter_Some in Hf as [_ Hf]. simpl in Hf. congruence. }
  cbn [run_alone layer with_layer l1 l2 l3]. unfold layer_get. by rewrite Hv, He.
Qed.

Lemma ends_with_Some suffix s : ends_with suffix s = true -> exists pre, s = pre +:+ suffix.
Proof.
  unfold ends_with. intros [Hl%Nat.leb_le Hs%String.eqb_eq]%andb_true_iff.
  exists (Stdlib.Strings.String.substring 0 (slength s - slength suffix) s). rewrite <- Hs at 2. clear Hs.
  revert Hl. generalize (slength suffix) as n. clear. intros n Hl.
  remember (slength s - n)%nat as m eqn:Hm. revert n m Hl Hm.
  induction s as [| c s IH]; intros n m Hl Hm; simpl in *.
  - replace m with 0%nat by lia. by destruct n.
  - destruct m as [| m]; simpl.
    + replace n with (S (slength s)) by lia. simpl. by rewrite substring_all.
    + rewrite string_app_cons. f_equal. apply IH; lia.
Qed.

Lemma snoc_inj a b c d : a +:+ String c "" = b +:+ String d "" -> c = d.
Proof.
  intros H. apply (f_equal list_ascii_of_string) in H. rewrite !list_ascii_app in H. simpl in H.
  by apply app_inj_tail in H as [_ ->].
Qed.

(** The pattern for the cached responses of a path matches none of them: only its
    first star is understood, and no key ends in one. *)
Lemma http_pattern_matches_nothing sha256_hex path_prefix method path query :
  (forall q, sha256_hex q <> "" /\ lacks "*" (sha256_hex q) = true) ->
  wildcard_match (http_response_pattern path_prefix) (http_response sha256_hex method path query) = false.
Proof.
  intros Hsha. unfold wildcard_match. destruct (String.eqb_spec (http_response_pattern path_prefix) "*") as [E |]; [done |].
  change (http_response_pattern path_prefix) with ("http:" +:+ String "*" (":" +:+ path_prefix +:+ ":*")).
  rewrite split_once_app by done. apply andb_false_iff. right.
  destruct (ends_with _ _) eqn:He; [| done]. apply ends_with_Some in He as [pre He]. exfalso.
  unfold http_response in He.
  set (digest := if String.eqb query "" then "none" else sha256_hex query) in *.
  assert (digest <> "" /\ lacks "*" digest = true) as [Hne Hl].
  { unfold digest. destruct (String.eqb query ""); [done | apply Hsha]. }
  destruct (string_snoc digest) as [| (t & d & Ht)]; [done |]. rewrite Ht in He, Hl.
  assert (d = "*"%char) as ->.
  { apply (snoc_inj ("http:" +:+ method +:+ ":" +:+ path +:+ ":" +:+ t) (pre +:+ ":" +:+ path_prefix +:+ ":")).
    rewrite !string_app_assoc. exact He. }
  unfold lacks in Hl. rewrite all_chars_app in Hl. apply andb_true_iff in Hl as [_ Hl]. done.
Qed.
