(* ===== verification/HttpCache.v ===== *)
(** * Caching of HTTP responses

    The middlewares on top of the cache: src/src/middleware/cache.rs
    (conditional requests, ETags, responses replayed from the cache) and
    src/src/gateway/cache_middleware.rs (the gateway's cache and its
    invalidation by writes).

    A middleware reads the clock where the code does, and finds one instant
    during its reads and writes of the cache, which no other task disturbs; the
    handler behind it may take time and change anything.  serde, SHA-256, base64 and chrono's formats
    are parameters. *)

From S2P Require Import Prelude Text Codec F64 Errors RateLimit Idempotency Cache.

(** src/src/cache/mod.rs:28-33 CachedHttpResponse *)
Record CachedHttpResponse : Type := {
  ch_status : Z;
  ch_headers : gmap string (list string);
  ch_body : string;
  ch_cached_at : Z
}.

(** src/src/cache/mod.rs:36-43 CachedHttpResponse::new *)
Definition cached_new (now : Z) (status : Z) (headers : gmap string (list string)) (body : string) : CachedHttpResponse :=
  {| ch_status := status; ch_headers := headers; ch_body := body; ch_cached_at := now |}.

(** What the middlewares read of a request. *)
Record HttpRequest : Type := {
  hr_method : string;
  hr_path : string;
  hr_query : option string;
  hr_headers : list (string * string)
}.

Definition HttpResponse : Type := Response string.

Section http.
Variable visit : forall A, list A -> list A.
Variable sha256_hex : string -> string.
Variable sha256_base64 : string -> string.
Variable to_json : CachedHttpResponse -> option string.
Variable of_json : string -> option CachedHttpResponse.
(** chrono: the format of an HTTP date, and [DateTime::parse_from_str]. *)
Variable http_date : Z -> string.
Variable parse_from_str : string -> string -> option Z.
Context {App : Type}.

(** [hw_cache] is [None] where the application has none. *)
Record HttpWorld : Type := {
  hw_cache : option MultiLayerCache;
  hw_now : Z;
  hw_app : App
}.

Definition with_cache (c : MultiLayerCache) (w : HttpWorld) : HttpWorld :=
  {| hw_cache := Some c; hw_now := hw_now w; hw_app := hw_app w |}.

Definition Handler : Type := HttpRequest -> HttpWorld -> HttpResponse * HttpWorld.

(** src/src/cache/mod.rs:122-124 get_http_response *)
Definition get_http_response (key : string) (w : HttpWorld) : option CachedHttpResponse * HttpWorld :=
  match hw_cache w with
  | None => (None, w)
  | Some c => let '(raw, c) := get_raw visit (fun _ => hw_now w) key c in (raw ≫= of_json, with_cache c w)
  end.

(** src/src/cache/mod.rs:127-134 set_http_response *)
Definition set_http_response (key : string) (response : CachedHttpResponse) (ttl : Z) (w : HttpWorld)
    : bool * HttpWorld :=
  match hw_cache w, to_json response with
  | Some c, Some raw => (true, with_cache (set_raw visit (fun _ => hw_now w) key raw ttl c) w)
  | _, _ => (false, w)
  end.

(** The headers of a response by name, and back. *)
Definition collect_headers (hs : list (string * string)) : gmap string (list string) :=
  fold_left (fun m kv => <[map_chars lower (fst kv) := default [] (m !! map_chars lower (fst kv)) ++
                            [default "" (header_to_str (snd kv))]]> m) hs ∅.

Definition replay_headers (m : gmap string (list string)) : list (string * string) :=
  flat_map (fun kv => map (fun v => (fst kv, v)) (snd kv)) (visit _ (map_to_list m)).

(** [num_seconds] of a duration. *)
Definition num_seconds (d : Z) : Z := Z.quot d (10 ^ 9).

(** ** middleware/cache.rs *)

(** src/src/middleware/cache.rs:20-36 route_ttl *)
Definition route_ttl (path : string) : Z :=
  if starts_with "/api/v1/creators/" path || starts_with "/api/v2/creators/" path then
    if contains "/tips" path then secs 60 else secs 300
  else if contains "/leaderboard/" path then secs 300
  else if contains "/tips" path then secs 60
  else if contains "/search" path then secs 120
  else secs 300.

Definition quote : string := String (chr 34) "".

(** src/src/middleware/cache.rs:39-44 generate_etag *)
Definition generate_etag (body : string) : string := "W/" +:+ quote +:+ sha256_base64 body +:+ quote.

(** src/src/middleware/cache.rs:52-56 parse_http_date *)
Definition parse_http_date (value : string) : option Z := parse_from_str value "%a, %d %b %Y %H:%M:%S GMT".

(** src/src/middleware/cache.rs:59-64 cache_key_from_request *)
Definition cache_key_from_request (req : HttpRequest) : string :=
  http_response sha256_hex (hr_method req) (hr_path req) (default "" (hr_query req)).

(** src/src/middleware/cache.rs:96-104 the answer to a matching If-None-Match *)
Definition not_modified (etag : string) (age_secs : Z) : HttpResponse :=
  {| resp_status := 304; resp_body := "";
     resp_headers := [("etag", etag); ("cache-control", "public, max-age=3600"); ("vary", "Accept-Encoding");
                      ("x-cache-status", "HIT"); ("age", print_Z age_secs)] |}.

(** src/src/middleware/cache.rs:113-122 the answer to a matching If-Modified-Since *)
Definition not_modified_since (etag : string) (cached_at age_secs : Z) : HttpResponse :=
  {| resp_status := 304; resp_body := "";
     resp_headers := [("etag", etag); ("last-modified", http_date cached_at); ("cache-control", "public, max-age=3600");
                      ("vary", "Accept-Encoding"); ("x-cache-status", "HIT"); ("age", print_Z age_secs)] |}.

(** src/src/middleware/cache.rs:90-141 the answer from the cache *)
Definition serve_cached (req : HttpRequest) (now : Z) (cached : CachedHttpResponse) : HttpResponse :=
  let age_secs := Z.max (num_seconds (now - ch_cached_at cached)) 0 in
  let etag := generate_etag (ch_body cached) in
  if bool_decide (header "if-none-match" (hr_headers req) = Some etag) then not_modified etag age_secs
  else
    match (v ← header "if-modified-since" (hr_headers req); v ← header_to_str v; parse_http_date v) with
    | Some ims_dt =>
        if ch_cached_at cached <=? ims_dt then not_modified_since etag (ch_cached_at cached) age_secs
        else
          {| resp_status := ch_status cached; resp_body := ch_body cached;
             resp_headers := replay_headers (ch_headers cached) ++
               [("etag", etag); ("last-modified", http_date (ch_cached_at cached)); ("x-cache-status", "HIT");
                ("age", print_Z age_secs)] |}
    | None =>
        {| resp_status := ch_status cached; resp_body := ch_body cached;
           resp_headers := replay_headers (ch_headers cached) ++
             [("etag", etag); ("last-modified", http_date (ch_cached_at cached)); ("x-cache-status", "HIT");
              ("age", print_Z age_secs)] |}
    end.

Definition body_limit : Z := 1000000.

Definition insert_all (l : list (string * string)) (hs : list (string * string)) : list (string * string) :=
  fold_left (fun hs kv => header_insert (fst kv) (snd kv) hs) l hs.

(** src/src/middleware/cache.rs:145-212 the answer of the handler, stored and marked *)
Definition store_fresh (cache_key path : string) (response : HttpResponse) (w : HttpWorld) : HttpResponse * HttpWorld :=
  if negb (resp_status response =? 200) then (response, w)
  else if body_limit <? Z.of_nat (slength (resp_body response)) then
    ({| resp_status := resp_status response; resp_headers := resp_headers response; resp_body := "" |}, w)
  else
    let body := resp_body response in
    let etag_value := generate_etag body in
    let now := hw_now w in
    let w := snd (set_http_response cache_key (cached_new now 200 (collect_headers (resp_headers response)) body)
                    (route_ttl path) w) in
    ({| resp_status := resp_status response; resp_body := body;
        resp_headers := insert_all [("etag", etag_value); ("last-modified", http_date now);
          ("cache-control", "public, max-age=3600"); ("vary", "Accept-Encoding"); ("x-cache-status", "MISS")]
          (resp_headers response) |}, w).

(** src/src/middleware/cache.rs:72-213 intelligent_cache *)
Definition intelligent_cache (next : Handler) (req : HttpRequest) (w : HttpWorld) : HttpResponse * HttpWorld :=
  if negb (String.eqb (hr_method req) "GET") && negb (String.eqb (hr_method req) "HEAD") then next req w
  else
    let cache_key := cache_key_from_request req in
    let '(found, w) := get_http_response cache_key w in
    match found with
    | Some cached => (serve_cached req (hw_now w) cached, w)
    | None =>
        let '(response, w) := next req w in
        store_fresh cache_key (hr_path req) response w
    end.

(** src/src/middleware/cache.rs:218-271 cache_control *)
Definition cache_control (next : Handler) (req : HttpRequest) (w : HttpWorld) : HttpResponse * HttpWorld :=
  if negb (String.eqb (hr_method req) "GET") && negb (String.eqb (hr_method req) "HEAD") then next req w
  else
    let '(response, w) := next req w in
    if negb (resp_status response =? 200) then (response, w)
    else if body_limit <? Z.of_nat (slength (resp_body response)) then
      ({| resp_status := resp_status response; resp_headers := resp_headers response; resp_body := "" |}, w)
    else
      let etag_value := generate_etag (resp_body response) in
      if bool_decide (header "if-none-match" (hr_headers req) = Some etag_value) then
        ({| resp_status := 304; resp_body := "";
            resp_headers := [("etag", etag_value); ("cache-control", "public, max-age=3600"); ("vary", "Accept-Encoding")] |}, w)
      else
        ({| resp_status := resp_status response; resp_body := resp_body response;
            resp_headers := insert_all [("etag", etag_value); ("cache-control", "public, max-age=3600");
              ("vary", "Accept-Encoding")] (resp_headers response) |}, w).

(** ** gateway/cache_middleware.rs *)

(** src/src/gateway/cache_middleware.rs:50-59 CacheKeyStrategy *)
Inductive CacheKeyStrategy : Type :=
| KeyPath
| KeyPathQuery
| KeyPathQueryHeaders (headers : list string)
| KeyCustom (f : HttpRequest -> string).

(** src/src/gateway/cache_middleware.rs:20-33 GatewayCacheConfig, without the
    configuration of warming, which nothing reads *)
Record GatewayCacheConfig : Type := {
  gc_default_ttl : Z;
  gc_max_ttl : Z;
  gc_cacheable_methods : list string;
  gc_cacheable_status_codes : list Z;
  gc_key_strategy : CacheKeyStrategy
}.

(** src/src/gateway/cache_middleware.rs:35-46 GatewayCacheConfig::default *)
Definition gateway_cache_default : GatewayCacheConfig :=
  {| gc_default_ttl := secs 300; gc_max_ttl := secs 3600; gc_cacheable_methods := ["GET"; "HEAD"];
     gc_cacheable_status_codes := [200; 201; 301; 302; 304; 404]; gc_key_strategy := KeyPathQuery |}.

(** src/src/gateway/cache_middleware.rs:80-86 CacheMetrics *)
Record CacheMetrics : Type := {
  cm_hits : Z;
  cm_misses : Z;
  cm_sets : Z;
  cm_invalidations : Z
}.

(** src/src/gateway/cache_middleware.rs:89-97 CacheMetrics::hit_rate *)
Definition hit_rate (m : CacheMetrics) : f64 :=
  if wrap_u64 (cm_hits m + cm_misses m) =? 0 then f64_of_Z 0
  else f64_div (f64_of_Z (cm_hits m)) (f64_of_Z (wrap_u64 (cm_hits m + cm_misses m))).

(** [format!("gateway:{}?{}", path, query)] and the like. *)
Definition path_query_key (req : HttpRequest) : string :=
  match hr_query req with
  | Some query => "gateway:" +:+ hr_path req +:+ "?" +:+ query
  | None => "gateway:" +:+ hr_path req
  end.

(** src/src/gateway/cache_middleware.rs:142-170 generate_cache_key *)
Definition generate_cache_key (req : HttpRequest) (strategy : CacheKeyStrategy) : string :=
  match strategy with
  | KeyPath => "gateway:" +:+ hr_path req
  | KeyPathQuery => path_query_key req
  | KeyPathQueryHeaders headers =>
      fold_left (fun key name =>
        match header (map_chars lower name) (hr_headers req) ≫= header_to_str with
        | Some value => key +:+ ":" +:+ value
        | None => key
        end) headers (path_query_key req)
  | KeyCustom f => f req
  end.

(** src/src/gateway/cache_middleware.rs:173-198 should_cache_response *)
Definition should_cache_response (status : Z) (headers : list (string * string)) (config : GatewayCacheConfig) : bool :=
  if negb (existsb (Z.eqb status) (gc_cacheable_status_codes config)) then false
  else
    match header "cache-control" headers ≫= header_to_str with
    | Some s => if contains "no-cache" s || contains "private" s then false
                else bool_decide (header "authorization" headers = None)
    | None => bool_decide (header "authorization" headers = None)
    end.

(** src/src/gateway/cache_middleware.rs:209-217 the first max-age that can be read *)
Fixpoint max_age (directives : list string) : option Z :=
  match directives with
  | [] => None
  | d :: rest =>
      match strip_prefix "max-age=" (trim d) ≫= parse_u64 with
      | Some seconds => Some seconds
      | None => max_age rest
      end
  end.

(** src/src/gateway/cache_middleware.rs:201-221 extract_cache_ttl *)
Definition extract_cache_ttl (headers : list (string * string)) (default_ttl max_ttl : Z) : Z :=
  match (s ← header "cache-control" headers ≫= header_to_str; max_age (split_on "," s)) with
  | Some seconds => Z.min (secs seconds) max_ttl
  | None => default_ttl
  end.

(** The gateway's cache with its metrics.

    src/src/gateway/cache_middleware.rs:125-129 GatewayCacheState *)
Record GatewayCacheState : Type := {
  gs_world : HttpWorld;
  gs_metrics : CacheMetrics
}.

Definition count_hit (m : CacheMetrics) : CacheMetrics :=
  {| cm_hits := wrap_u64 (cm_hits m + 1); cm_misses := cm_misses m; cm_sets := cm_sets m;
     cm_invalidations := cm_invalidations m |}.
Definition count_miss (m : CacheMetrics) : CacheMetrics :=
  {| cm_hits := cm_hits m; cm_misses := wrap_u64 (cm_misses m + 1); cm_sets := cm_sets m;
     cm_invalidations := cm_invalidations m |}.
Definition count_set (m : CacheMetrics) : CacheMetrics :=
  {| cm_hits := cm_hits m; cm_misses := cm_misses m; cm_sets := wrap_u64 (cm_sets m + 1);
     cm_invalidations := cm_invalidations m |}.
Definition count_invalidation (m : CacheMetrics) : CacheMetrics :=
  {| cm_hits := cm_hits m; cm_misses := cm_misses m; cm_sets := cm_sets m;
     cm_invalidations := wrap_u64 (cm_invalidations m + 1) |}.

(** The answer from the cache: a status with an empty body, and the headers.

    src/src/gateway/cache_middleware.rs:239-274 the hit of gateway_cache_middleware *)
Definition gateway_hit (now : Z) (cached : CachedHttpResponse) : HttpResponse :=
  {| resp_status := ch_status cached; resp_body := "";
     resp_headers := insert_all [("x-cache", "HIT"); ("age", print_i64 (num_seconds (now - ch_cached_at cached)))]
                       (replay_headers (ch_headers cached)) |}.

(** src/src/gateway/cache_middleware.rs:224-336 gateway_cache_middleware *)
Definition gateway_cache_middleware (config : GatewayCacheConfig) (next : Handler) (req : HttpRequest)
    (s : GatewayCacheState) : HttpResponse * GatewayCacheState :=
  if negb (existsb (String.eqb (hr_method req)) (gc_cacheable_methods config)) then
    let '(r, w) := next req (gs_world s) in (r, {| gs_world := w; gs_metrics := gs_metrics s |})
  else
    let cache_key := generate_cache_key req (gc_key_strategy config) in
    let '(found, w) := get_http_response cache_key (gs_world s) in
    match found with
    | Some cached => (gateway_hit (hw_now w) cached, {| gs_world := w; gs_metrics := count_hit (gs_metrics s) |})
    | None =>
        let metrics := count_miss (gs_metrics s) in
        let '(response, w) := next req w in
        if should_cache_response (resp_status response) (resp_headers response) config then
          let ttl := extract_cache_ttl (resp_headers response) (gc_default_ttl config) (gc_max_ttl config) in
          let '(stored, w) := set_http_response cache_key
            (cached_new (hw_now w) (resp_status response) (collect_headers (resp_headers response)) (resp_body response))
            ttl w in
          ({| resp_status := resp_status response; resp_body := resp_body response;
              resp_headers := header_insert "x-cache" "MISS" (resp_headers response) |},
           {| gs_world := w; gs_metrics := if stored then count_set metrics else metrics |})
        else
          ({| resp_status := resp_status response; resp_body := resp_body response;
              resp_headers := header_insert "x-cache" "BYPASS" (resp_headers response) |},
           {| gs_world := w; gs_metrics := metrics |})
    end.

(** src/src/gateway/cache_middleware.rs:367-391 generate_invalidation_patterns *)
Definition generate_invalidation_patterns (path : string) : list string :=
  let parts := split_on "/" (trim_start_char "/" path) in
  ["gateway:" +:+ path] ++
  (if (1 <? length parts)%nat then ["gateway:/" +:+ join "/" (take (length parts - 1) parts)] else []) ++
  (if contains "/creators/" path then ["gateway:/api/v*/creators"] else []) ++
  (if contains "/tips/" path then ["gateway:/api/v*/tips"] else []).

(** src/src/gateway/cache_middleware.rs:339-364 cache_invalidation_middleware *)
Definition cache_invalidation_middleware (next : Handler) (req : HttpRequest) (s : GatewayCacheState)
    : HttpResponse * GatewayCacheState :=
  let '(response, w) := next req (gs_world s) in
  let s := {| gs_world := w; gs_metrics := gs_metrics s |} in
  if (200 <=? resp_status response) && (resp_status response <=? 299) then
    (response, fold_left (fun s pattern =>
       match hw_cache (gs_world s) with
       | Some c => {| gs_world := with_cache (invalidate_pattern visit pattern c) (gs_world s);
                      gs_metrics := count_invalidation (gs_metrics s) |}
       | None => s
       end) (generate_invalidation_patterns (hr_path req)) s)
  else (response, s).
End http.

(** ** Lemmas *)

Section laws.
Variable visit : forall A, list A -> list A.
Variable sha256_hex : string -> string.
Variable sha256_base64 : string -> string.
Variable to_json : CachedHttpResponse -> option string.
Variable of_json : string -> option CachedHttpResponse.
Variable http_date : Z -> string.
Variable parse_from_str : string -> string -> option Z.
Context {App : Type}.
Hypothesis serde : forall c, exists raw, to_json c = Some raw /\ of_json raw = Some c.
Implicit Types (w : HttpWorld (App := App)).

(** The same world at a later instant. *)
Definition later (now : Z) w : HttpWorld (App := App) :=
  {| hw_cache := hw_cache w; hw_now := now; hw_app := hw_app w |}.

Lemma stored_response_found key response ttl now c w :
  hw_cache w = Some c -> fits ttl -> now <= hw_now w + ttl ->
  let w1 := snd (set_http_response visit to_json key response ttl w) in
  fst (set_http_response visit to_json key response ttl w) = true /\ hw_now w1 = hw_now w /\
  let '(found, w2) := get_http_response visit of_json key (later now w1) in
  found = Some response /\ hw_app w2 = hw_app w /\ hw_now w2 = now.
Proof.
  intros Hc Hf Hn. destruct (serde response) as (raw & Hto & Hof). unfold set_http_response. rewrite Hc, Hto. simpl.
  split; [done |]. split; [done |]. unfold get_http_response. simpl.
  pose proof (get_after_set visit (fun _ => hw_now w) (fun _ => now) key raw ttl c Hf Hn) as Hget.
  destruct (get_raw visit (fun _ => now) key _) as [r c']. simpl in Hget. subst r. simpl. by rewrite Hof.
Qed.

Lemma in_header_insert k v k' v' hs :
  (k, v) ∈ hs -> map_chars lower k <> map_chars lower k' -> (k, v) ∈ header_insert k' v' hs.
Proof. intros Hin Hne. unfold header_insert. apply elem_of_app. left. by apply list_elem_of_filter. Qed.

Lemma route_ttl_fits path : fits (route_ttl path).
Proof. unfold route_ttl. by repeat case_match; split; vm_compute. Qed.

Lemma max_age_nonneg directives n : max_age directives = Some n -> 0 <= n.
Proof.
  induction directives as [| d rest IH]; [done |]. cbn [max_age].
  destruct (strip_prefix "max-age=" (trim d) ≫= parse_u64) as [m |] eqn:Hp; [| exact IH]. intros [= <-].
  apply bind_Some in Hp as (s & _ & Hp). unfold parse_u64 in Hp. repeat case_match; try done; by apply in_range_Some in Hp as [_ [? _]].
Qed.

Lemma extract_cache_ttl_fits headers default_ttl max_ttl :
  fits default_ttl -> fits max_ttl -> fits (extract_cache_ttl headers default_ttl max_ttl).
Proof.
  intros Hd Hm. unfold extract_cache_ttl.
  destruct (header "cache-control" headers ≫= header_to_str) as [s |]; simpl; [| done].
  destruct (max_age (split_on "," s)) as [n |] eqn:Hn; [| done]. apply max_age_nonneg in Hn.
  destruct Hm. split; unfold secs; lia.
Qed.
End laws.

(** ** Theorems *)

(** A response is replayed faithfully: after a GET or HEAD that its handler
    answered with 200 and a body within the limit, the client has an ETag, and
    for the time of the route every request for the same method, path and query
    is answered without the handler: with 304 and no body when it presents that
    ETag, and otherwise, unless it asks by date, with 200 and the same body. *)
Theorem response_replayed visit sha256_hex sha256_base64 to_json of_json http_date parse_from_str {App}
    (next next' : Handler (App := App)) req req' w w1 resp c c1 now :
  let cache next := intelligent_cache visit sha256_hex sha256_base64 to_json of_json http_date parse_from_str next in
  let key := cache_key_from_request sha256_hex req in
  let etag := generate_etag sha256_base64 (resp_body resp) in
  (forall c, exists raw, to_json c = Some raw /\ of_json raw = Some c) ->
  hr_method req = "GET" \/ hr_method req = "HEAD" ->
  hr_method req' = hr_method req -> hr_path req' = hr_path req -> hr_query req' = hr_query req ->
  hw_cache w = Some c -> fst (get_http_response visit of_json key w) = None ->
  next req (snd (get_http_response visit of_json key w)) = (resp, w1) -> hw_cache w1 = Some c1 ->
  resp_status resp = 200 -> Z.of_nat (slength (resp_body resp)) <= body_limit ->
  now <= hw_now w1 + route_ttl (hr_path req) ->
  let '(first, w2) := cache next req w in
  let '(second, w3) := cache next' req' (later now w2) in
  ("etag", etag) ∈ resp_headers first /\ resp_body first = resp_body resp /\ hw_app w3 = hw_app w2 /\
  (header "if-none-match" (hr_headers req') = Some etag -> resp_status second = 304 /\ resp_body second = "") /\
  (header "if-none-match" (hr_headers req') <> Some etag -> header "if-modified-since" (hr_headers req') = None ->
   resp_status second = 200 /\ resp_body second = resp_body resp).
Proof.
  intros cache key etag serde Hm Em Ep Eq Hc Hmiss Hnext Hc1 Hst Hlen Hnow.
  assert (negb (String.eqb (hr_method req) "GET") && negb (String.eqb (hr_method req) "HEAD") = false) as Hget.
  { by destruct Hm as [-> | ->]. }
  unfold cache, intelligent_cache. rewrite Em, Hget.
  assert (cache_key_from_request sha256_hex req' = key) as -> by (unfold key, cache_key_from_request; by rewrite Em, Ep, Eq).
  fold key. destruct (get_http_response visit of_json key w) as [found w0]. simpl in Hmiss, Hnext. subst found.
  rewrite Hnext. unfold store_fresh. rewrite Hst. simpl. destruct (Z.ltb_spec body_limit (Z.of_nat (slength (resp_body resp)))); [lia |].
  set (cached := cached_new (hw_now w1) 200 (collect_headers (resp_headers resp)) (resp_body resp)).
  destruct (stored_response_found visit to_json of_json serde key cached (route_ttl (hr_path req)) now c1 w1 Hc1
              (route_ttl_fits _) Hnow) as (_ & Hnow1 & Hfound).
  set (w2 := snd (set_http_response visit to_json key cached (route_ttl (hr_path req)) w1)) in *.
  assert (hw_app w2 = hw_app w1) as Happ by (unfold w2, set_http_response; by repeat case_match).
  destruct (get_http_response visit of_json key (later now w2)) as [found w3]. destruct Hfound as (-> & Ha & Hn).
  split_and!.
  - simpl. fold etag. unfold insert_all. simpl.
    repeat (apply in_header_insert; [| vm_compute; discriminate]). apply header_inserted.
  - done.
  - by rewrite Ha, Happ.
  - intros Hinm. unfold serve_cached. simpl. by rewrite bool_decide_true by exact Hinm.
  - intros Hinm Hims. unfold serve_cached. simpl. rewrite bool_decide_false by exact Hinm. by rewrite Hims.
Qed.

(** The gateway's cache loses bodies: after a response of the handler was
    stored, every request under the same key is answered, for its time to live,
    with the stored status, an empty body and no call of the handler, whoever
    asks: the credentials of a request are no part of the key. *)
Theorem gateway_hit_loses_body visit to_json of_json {App} config
    (next next' : Handler (App := App)) req req' s w1 resp c1 now :
  let cache := gateway_cache_middleware visit to_json of_json config in
  let key := generate_cache_key req (gc_key_strategy config) in
  (forall c, exists raw, to_json c = Some raw /\ of_json raw = Some c) ->
  fits (gc_default_ttl config) -> fits (gc_max_ttl config) ->
  existsb (String.eqb (hr_method req)) (gc_cacheable_methods config) = true ->
  existsb (String.eqb (hr_method req')) (gc_cacheable_methods config) = true ->
  generate_cache_key req' (gc_key_strategy config) = key ->
  fst (get_http_response visit of_json key (gs_world s)) = None ->
  next req (snd (get_http_response visit of_json key (gs_world s))) = (resp, w1) -> hw_cache w1 = Some c1 ->
  should_cache_response (resp_status resp) (resp_headers resp) config = true ->
  now <= hw_now w1 + extract_cache_ttl (resp_headers resp) (gc_default_ttl config) (gc_max_ttl config) ->
  let '(first, s2) := cache next req s in
  let '(second, s3) := cache next' req' {| gs_world := later now (gs_world s2); gs_metrics := gs_metrics s2 |} in
  resp_body first = resp_body resp /\ resp_status second = resp_status resp /\ resp_body second = "" /\
  hw_app (gs_world s3) = hw_app (gs_world s2).
Proof.
  intros cache key serde Hd Hmax Hm Hm' Hkey Hmiss Hnext Hc1 Hshould Hnow.
  unfold cache, gateway_cache_middleware. rewrite Hm, Hm', Hkey. simpl. fold key.
  destruct (get_http_response visit of_json key (gs_world s)) as [found w0]. simpl in Hmiss, Hnext. subst found.
  rewrite Hnext, Hshould.
  set (cached := cached_new (hw_now w1) (resp_status resp) (collect_headers (resp_headers resp)) (resp_body resp)).
  destruct (stored_response_found visit to_json of_json serde key cached
              (extract_cache_ttl (resp_headers resp) (gc_default_ttl config) (gc_max_ttl config)) now c1 w1 Hc1
              (extract_cache_ttl_fits _ _ _ Hd Hmax) Hnow) as (_ & _ & Hfound).
  assert (hw_app (snd (set_http_response visit to_json key cached
            (extract_cache_ttl (resp_headers resp) (gc_default_ttl config) (gc_max_ttl config)) w1)) = hw_app w1) as Happ
    by (unfold set_http_response; by repeat case_match).
  destruct (set_http_response visit to_json key cached _ w1) as [stored w2]. simpl in *.
  destruct (get_http_response visit of_json key (later now w2)) as [found w3]. destruct Hfound as (-> & Ha & Hn).
  split_and!; [done | done | done | simpl; congruence].
Qed.

(** A write does not invalidate the pages of a listing: the patterns name the
    path, and the key of a page has its query. *)
Example written_listing_stays :
  existsb (fun p => wildcard_match p (path_query_key
      {| hr_method := "GET"; hr_path := "/api/v1/tips"; hr_query := Some "limit=20"; hr_headers := [] |}))
    (generate_invalidation_patterns "/api/v1/tips") = false.
Proof. reflexivity. Qed.

(** ** A concrete server, for the witnesses *)

#[export] Instance CachedHttpResponse_eq_dec : EqDecision CachedHttpResponse.
Proof. solve_decision. Defined.

#[export] Instance CachedHttpResponse_countable : Countable CachedHttpResponse.
Proof.
  refine (inj_countable' (fun c => (ch_status c, ch_headers c, ch_body c, ch_cached_at c))
    (fun '(s, h, b, t) => {| ch_status := s; ch_headers := h; ch_body := b; ch_cached_at := t |}) _).
  by intros [].
Defined.

Definition demo_to_json (c : CachedHttpResponse) : option string := Some (to_text c).
Definition demo_of_json (s : string) : option CachedHttpResponse :=
  match from_text s with Ok c => Some c | Err _ => None end.

Lemma demo_serde c : exists raw, demo_to_json c = Some raw /\ demo_of_json raw = Some c.
Proof. eexists. split; [reflexivity |]. unfold demo_of_json. by rewrite from_to_text. Qed.

Definition demo_response : HttpResponse := {| resp_status := 200; resp_headers := []; resp_body := "tips" |}.
Definition demo_handler : Handler (App := nat) := fun _ w =>
  (demo_response, {| hw_cache := hw_cache w; hw_now := hw_now w; hw_app := S (hw_app w) |}).
Definition demo_http_world : HttpWorld (App := nat) := {| hw_cache := Some with_defaults; hw_now := 0; hw_app := 0%nat |}.
Definition demo_get (headers : list (string * string)) : HttpRequest :=
  {| hr_method := "GET"; hr_path := "/api/v1/tips"; hr_query := None; hr_headers := headers |}.
Definition demo_sha (s : string) : string := "sha".

Lemma response_replayed_witness :
  let cache := intelligent_cache as_listed demo_sha demo_sha demo_to_json demo_of_json print_Z (fun _ _ => None) demo_handler in
  let w2 := snd (cache (demo_get []) demo_http_world) in
  let second headers := fst (cache (demo_get headers) (later (secs 60) w2)) in
  resp_status (second [("if-none-match", generate_etag demo_sha "tips")]) = 304 /\
  resp_status (second []) = 200 /\ resp_body (second []) = "tips".
Proof.
  intros cache w2 second.
  assert (forall headers, let '(first, w2) := cache (demo_get []) demo_http_world in
            let '(second, w3) := cache (demo_get headers) (later (secs 60) w2) in
            ("etag", generate_etag demo_sha "tips") ∈ resp_headers first /\ resp_body first = "tips" /\ hw_app w3 = hw_app w2 /\
            (header "if-none-match" headers = Some (generate_etag demo_sha "tips") -> resp_status second = 304 /\ resp_body second = "") /\
            (header "if-none-match" headers <> Some (generate_etag demo_sha "tips") -> header "if-modified-since" headers = None ->
             resp_status second = 200 /\ resp_body second = "tips")) as H.
  { intros headers.
    apply (response_replayed as_listed demo_sha demo_sha demo_to_json demo_of_json print_Z (fun _ _ => None)
             demo_handler demo_handler (demo_get []) (demo_get headers) demo_http_world
             {| hw_cache := Some with_defaults; hw_now := 0; hw_app := 1%nat |} demo_response with_defaults with_defaults (secs 60) demo_serde);
      [by left | reflexivity | reflexivity | reflexivity | reflexivity | reflexivity | reflexivity | reflexivity | reflexivity
      | vm_compute; discriminate | vm_compute; discriminate]. }
  unfold second, w2. split.
  - specialize (H [("if-none-match", generate_etag demo_sha "tips")]).
    destruct (cache (demo_get []) demo_http_world) as [first w]. simpl. destruct (cache _ (later (secs 60) w)) as [r w3].
    destruct H as (_ & _ & _ & H & _). apply H. reflexivity.
  - specialize (H []).
    destruct (cache (demo_get []) demo_http_world) as [first w]. simpl. destruct (cache _ (later (secs 60) w)) as [r w3].
    destruct H as (_ & _ & _ & _ & H). apply H; [discriminate | reflexivity].
Defined.

Lemma gateway_hit_loses_body_witness :
  let cache := gateway_cache_middleware as_listed demo_to_json demo_of_json gateway_cache_default demo_handler in
  let s0 := {| gs_world := demo_http_world;
               gs_metrics := {| cm_hits := 0; cm_misses := 0; cm_sets := 0; cm_invalidations := 0 |} |} in
  let s2 := snd (cache (demo_get [("authorization", "Bearer ann")]) s0) in
  let second := fst (cache (demo_get [("authorization", "Bearer bob")])
                       {| gs_world := later (secs 300) (gs_world s2); gs_metrics := gs_metrics s2 |}) in
  resp_status second = 200 /\ resp_body second = "".
Proof.
  intros cache s0 s2 second.
  assert (let '(first, s2) := cache (demo_get [("authorization", "Bearer ann")]) s0 in
          let '(second, s3) := cache (demo_get [("authorization", "Bearer bob")])
             {| gs_world := later (secs 300) (gs_world s2); gs_metrics := gs_metrics s2 |} in
          resp_body first = "tips" /\ resp_status second = 200 /\ resp_body second = "" /\
          hw_app (gs_world s3) = hw_app (gs_world s2)) as H.
  { apply (gateway_hit_loses_body as_listed demo_to_json demo_of_json gateway_cache_default demo_handler demo_handler
             (demo_get [("authorization", "Bearer ann")]) (demo_get [("authorization", "Bearer bob")]) s0
             {| hw_cache := Some with_defaults; hw_now := 0; hw_app := 1%nat |} demo_response with_defaults (secs 300) demo_serde);
      [split; vm_compute; discriminate | split; vm_compute; discriminate | reflexivity | reflexivity | reflexivity | reflexivity
      | reflexivity | reflexivity | reflexivity | vm_compute; discriminate]. }
  unfold second, s2. destruct (cache _ s0) as [first s]. simpl in *.
  destruct (cache _ {| gs_world := later (secs 300) (gs_world s); gs_metrics := gs_metrics s |}) as [r s3]. simpl.
  split; apply H.
Defined.
