(* ===== verification/Jobs.v ===== *)
(** * Background jobs

    src/src/jobs/: types.rs (jobs, retry policy, configuration), queue.rs (the
    job table), handlers.rs (the registry and the four handlers), worker.rs (the
    worker loop and the pool), scheduler.rs (the periodic clean-up) and mod.rs
    (the start of the system).

    The table is a list of rows; a statement is atomic ([FOR UPDATE SKIP LOCKED]
    only lets statements run side by side) and may meet a fault.  Instants and
    delays are in milliseconds.  serde is a parameter; the verification of a
    transaction on Stellar is the parameter [verify_transaction]. *)

From S2P Require Import Prelude Text Codec F64.

(** ** types.rs *)

(** src/src/jobs/types.rs:81-86 JobType *)
Inductive JobType : Type := VerifyTransaction | SendNotification | CleanupData | AggregateStats.

#[export] Instance JobType_eq_dec : EqDecision JobType.
Proof. solve_decision. Defined.

(** src/src/jobs/types.rs:88-96 JobType::fmt *)
Definition job_type_str (t : JobType) : string :=
  match t with
  | VerifyTransaction => "verify_transaction"
  | SendNotification => "send_notification"
  | CleanupData => "cleanup_data"
  | AggregateStats => "aggregate_stats"
  end.

(** serde's reading of a [JobType]. *)
Definition job_type_of (s : string) : option JobType :=
  List.find (fun t => String.eqb (job_type_str t) s)
    [VerifyTransaction; SendNotification; CleanupData; AggregateStats].

(** src/src/jobs/types.rs:101-108 JobStatus *)
Inductive JobStatus : Type := JPending | JRunning | JCompleted | JFailed | JRetrying | JCancelled.

#[export] Instance JobStatus_eq_dec : EqDecision JobStatus.
Proof. solve_decision. Defined.

(** src/src/jobs/types.rs:110-118 JobStatus::fmt *)
Definition job_status_str (s : JobStatus) : string :=
  match s with
  | JPending => "pending"
  | JRunning => "running"
  | JCompleted => "completed"
  | JFailed => "failed"
  | JRetrying => "retrying"
  | JCancelled => "cancelled"
  end.

Definition job_status_of (s : string) : option JobStatus :=
  List.find (fun t => String.eqb (job_status_str t) s)
    [JPending; JRunning; JCompleted; JFailed; JRetrying; JCancelled].

(** src/src/jobs/types.rs:148-152 NotificationType *)
Inductive NotificationType : Type := TipReceived | TipVerified | TipFailed.

(** src/src/jobs/types.rs:156-160 CleanupType *)
Inductive CleanupType : Type := CompletedJobs | FailedJobs | OldTipData.

(** src/src/jobs/types.rs:123-144 JobPayload *)
Inductive JobPayload : Type :=
| PVerifyTransaction (tip_id transaction_hash creator_wallet : string)
| PSendNotification (creator_id tip_id : string) (notification_type : NotificationType)
    (recipient_email : string)
| PCleanupData (cleanup_type : CleanupType) (older_than : Z)
| PAggregateStats (creator_username : string) (period_start period_end : Z).

(** src/src/jobs/types.rs:163-170 RetryPolicy *)
Record RetryPolicy : Type := {
  rp_max_retries : Z;
  rp_base_delay_ms : Z;
  rp_max_delay_ms : Z;
  rp_backoff_multiplier : f64;
  rp_jitter : bool
}.

(** src/src/jobs/types.rs:172-182 RetryPolicy::default *)
Definition retry_policy_default : RetryPolicy :=
  {| rp_max_retries := 3; rp_base_delay_ms := 1000; rp_max_delay_ms := 60000;
     rp_backoff_multiplier := f64_of_Z 2; rp_jitter := true |}.

(** src/src/jobs/types.rs:186-191 RetryPolicy::next_delay_secs *)
Definition next_delay_secs (p : RetryPolicy) (attempt : Z) : Z :=
  let base := f64_of_Z (rp_base_delay_ms p) in
  let delay := f64_mul base (f64_powi (rp_backoff_multiplier p) attempt) in
  let delay := f64_min delay (f64_of_Z (rp_max_delay_ms p)) in
  f64_ceil_as_i64 (f64_div delay (f64_of_Z 1000)).

(** src/src/jobs/types.rs:196-202 JobConfig *)
Record JobConfig : Type := {
  jc_worker_count : nat;
  jc_poll_interval_ms : Z;
  jc_shutdown_timeout_ms : Z;
  jc_cleanup_interval_hours : Z;
  jc_job_retention_days : Z
}.

(** src/src/jobs/types.rs:204-214 JobConfig::default *)
Definition job_config_default : JobConfig :=
  {| jc_worker_count := 4; jc_poll_interval_ms := 1000; jc_shutdown_timeout_ms := 30000;
     jc_cleanup_interval_hours := 24; jc_job_retention_days := 7 |}.

(** src/src/jobs/types.rs:218-222 WorkerConfig *)
Record WorkerConfig : Type := {
  wc_worker_count : nat;
  wc_poll_interval_ms : Z;
  wc_shutdown_timeout_ms : Z
}.

(** src/src/jobs/types.rs:224-232 WorkerConfig::from *)
Definition worker_config (c : JobConfig) : WorkerConfig :=
  {| wc_worker_count := jc_worker_count c; wc_poll_interval_ms := jc_poll_interval_ms c;
     wc_shutdown_timeout_ms := jc_shutdown_timeout_ms c |}.

(** src/src/jobs/types.rs:247-272 JobError *)
Inductive JobError : Type :=
| JobDatabase
| JobRowNotFound
| JobSerialization
| HandlerNotFound (job_type : string)
| ExecutionFailed (message : string)
| JobServiceUnavailable (service : string)
| JobTimeout (duration_ms : Z)
| JobShutdown
| InvalidStateTransition (from to : string).

Section jobs.
(** [serde_json::Value]. *)
Context {J : Type}.
Variable payload_to_json : JobPayload -> option J.
Variable payload_of_json : J -> option JobPayload.
(** [Uuid::new_v4], the rendering of an error by [thiserror] and the order in
    which a sequential scan visits the rows. *)
Variable uuid : nat -> string.
Variable show_error : JobError -> string.

(** src/src/jobs/types.rs:15-29 JobRow *)
Record JobRow : Type := {
  jr_id : string;
  jr_job_type : string;
  jr_payload : J;
  jr_status : string;
  jr_retry_count : Z;
  jr_max_retries : Z;
  jr_created_at : Z;
  jr_scheduled_at : Z;
  jr_started_at : option Z;
  jr_completed_at : option Z;
  jr_error_message : option string;
  jr_worker_id : option string;
  jr_priority : Z
}.

(** src/src/jobs/types.rs:33-47 Job *)
Record Job : Type := {
  job_id : string;
  job_type : JobType;
  job_payload : JobPayload;
  job_status : JobStatus;
  job_retry_count : Z;
  job_max_retries : Z;
  job_created_at : Z;
  job_scheduled_at : Z;
  job_started_at : option Z;
  job_completed_at : option Z;
  job_error_message : option string;
  job_worker_id : option string;
  job_priority : Z
}.

(** src/src/jobs/types.rs:49-76 Job::try_from *)
Definition job_try_from (row : JobRow) : result Job JobError :=
  match job_type_of (jr_job_type row), payload_of_json (jr_payload row), job_status_of (jr_status row) with
  | Some t, Some p, Some s =>
      Ok {| job_id := jr_id row; job_type := t; job_payload := p; job_status := s;
            job_retry_count := jr_retry_count row; job_max_retries := jr_max_retries row;
            job_created_at := jr_created_at row; job_scheduled_at := jr_scheduled_at row;
            job_started_at := jr_started_at row; job_completed_at := jr_completed_at row;
            job_error_message := jr_error_message row; job_worker_id := jr_worker_id row;
            job_priority := jr_priority row |}
  | _, _, _ => Err JobSerialization
  end.

(** ** The database *)

(** The table of jobs, the ids and dates of the tips the clean-up may delete,
    the clock and the schedule of faults; [jw_scans] counts the statements that
    scan the table. *)
Record JobWorld : Type := {
  jw_jobs : list JobRow;
  jw_tips : list (string * Z);
  jw_now : Z;
  jw_uuids : nat;
  jw_scans : nat;
  jw_faults : list fault
}.

Variable scan : nat -> list JobRow -> list JobRow.

Definition with_jobs (l : list JobRow) (w : JobWorld) : JobWorld :=
  {| jw_jobs := l; jw_tips := jw_tips w; jw_now := jw_now w; jw_uuids := jw_uuids w;
     jw_scans := jw_scans w; jw_faults := jw_faults w |}.

#[export] Instance job_world_networked : Networked JobWorld := {
  next_fault w :=
    let '(f, l) := pop_fault (jw_faults w) in
    (f, {| jw_jobs := jw_jobs w; jw_tips := jw_tips w; jw_now := jw_now w; jw_uuids := jw_uuids w;
           jw_scans := jw_scans w; jw_faults := l |})
}.

Definition Jobs : Type -> Type := M JobWorld JobError.

Definition job_query {A} (q : JobWorld -> A * JobWorld) : Jobs A := remote JobDatabase q.

(** [UPDATE jobs SET .. WHERE id = $1] *)
Definition update_job (id : string) (f : JobRow -> JobRow) (w : JobWorld) : JobWorld :=
  with_jobs (map (fun r => if String.eqb (jr_id r) id then f r else r) (jw_jobs w)) w.

(** ** queue.rs *)

(** src/src/jobs/queue.rs:22-49 JobQueueManager::enqueue *)
Definition enqueue (t : JobType) (payload : JobPayload) (priority max_retries : Z) : Jobs string :=
  id ← (fun w => (Ok (uuid (jw_uuids w)),
          {| jw_jobs := jw_jobs w; jw_tips := jw_tips w; jw_now := jw_now w;
             jw_uuids := S (jw_uuids w); jw_scans := jw_scans w; jw_faults := jw_faults w |}));
  json ← expect JobSerialization (payload_to_json payload);
  _ ← job_query (fun w =>
    (tt, with_jobs (jw_jobs w ++
      [{| jr_id := id; jr_job_type := job_type_str t; jr_payload := json; jr_status := "pending";
          jr_retry_count := 0; jr_max_retries := max_retries; jr_created_at := jw_now w;
          jr_scheduled_at := jw_now w; jr_started_at := None; jr_completed_at := None;
          jr_error_message := None; jr_worker_id := None; jr_priority := priority |}]) w));
  mret id.

(** src/src/jobs/queue.rs:63-64 the rows that can be dequeued *)
Definition available (now : Z) (r : JobRow) : bool :=
  (String.eqb (jr_status r) "pending" || String.eqb (jr_status r) "retrying") && (jr_scheduled_at r <=? now).

(** src/src/jobs/queue.rs:65-65 the order of the queue *)
Definition before (r1 r2 : JobRow) : bool :=
  (jr_priority r2 <? jr_priority r1) ||
  ((jr_priority r1 =? jr_priority r2) && (jr_scheduled_at r1 <=? jr_scheduled_at r2)).

(** src/src/jobs/queue.rs:57-60 what dequeueing does to the row *)
Definition start_row (worker_id : string) (now : Z) (r : JobRow) : JobRow :=
  {| jr_id := jr_id r; jr_job_type := jr_job_type r; jr_payload := jr_payload r; jr_status := "running";
     jr_retry_count := jr_retry_count r + 1; jr_max_retries := jr_max_retries r;
     jr_created_at := jr_created_at r; jr_scheduled_at := jr_scheduled_at r;
     jr_started_at := Some now; jr_completed_at := jr_completed_at r;
     jr_error_message := jr_error_message r; jr_worker_id := Some worker_id; jr_priority := jr_priority r |}.

(** src/src/jobs/queue.rs:53-76 the statement of dequeue *)
Definition claim_next (worker_id : string) (w : JobWorld) : option JobRow * JobWorld :=
  let w1 := {| jw_jobs := jw_jobs w; jw_tips := jw_tips w; jw_now := jw_now w; jw_uuids := jw_uuids w;
               jw_scans := S (jw_scans w); jw_faults := jw_faults w |} in
  match sort_by before (List.filter (available (jw_now w)) (scan (jw_scans w) (jw_jobs w))) with
  | [] => (None, w1)
  | r :: _ => (Some (start_row worker_id (jw_now w) r), update_job (jr_id r) (start_row worker_id (jw_now w)) w1)
  end.

(** src/src/jobs/queue.rs:52-79 JobQueueManager::dequeue *)
Definition dequeue (worker_id : string) : Jobs (option Job) :=
  row ← job_query (claim_next worker_id);
  match row with
  | Some r => job ← lift (job_try_from r); mret (Some job)
  | None => mret None
  end.

(** src/src/jobs/queue.rs:83-84 what completing does to the row *)
Definition complete_row (now : Z) (r : JobRow) : JobRow :=
  {| jr_id := jr_id r; jr_job_type := jr_job_type r; jr_payload := jr_payload r; jr_status := "completed";
     jr_retry_count := jr_retry_count r; jr_max_retries := jr_max_retries r;
     jr_created_at := jr_created_at r; jr_scheduled_at := jr_scheduled_at r;
     jr_started_at := jr_started_at r; jr_completed_at := Some now;
     jr_error_message := jr_error_message r; jr_worker_id := jr_worker_id r; jr_priority := jr_priority r |}.

(** src/src/jobs/queue.rs:82-92 JobQueueManager::complete *)
Definition complete (id : string) : Jobs unit :=
  job_query (fun w => (tt, update_job id (complete_row (jw_now w)) w)).

(** src/src/jobs/queue.rs:110-116 the row of a job to be retried *)
Definition retry_row (error : string) (at_ : Z) (r : JobRow) : JobRow :=
  {| jr_id := jr_id r; jr_job_type := jr_job_type r; jr_payload := jr_payload r; jr_status := "retrying";
     jr_retry_count := jr_retry_count r; jr_max_retries := jr_max_retries r;
     jr_created_at := jr_created_at r; jr_scheduled_at := at_;
     jr_started_at := jr_started_at r; jr_completed_at := jr_completed_at r;
     jr_error_message := Some error; jr_worker_id := jr_worker_id r; jr_priority := jr_priority r |}.

(** src/src/jobs/queue.rs:132-136 the row of a job that failed for good *)
Definition failed_row (error : string) (now : Z) (r : JobRow) : JobRow :=
  {| jr_id := jr_id r; jr_job_type := jr_job_type r; jr_payload := jr_payload r; jr_status := "failed";
     jr_retry_count := jr_retry_count r; jr_max_retries := jr_max_retries r;
     jr_created_at := jr_created_at r; jr_scheduled_at := jr_scheduled_at r;
     jr_started_at := jr_started_at r; jr_completed_at := Some now;
     jr_error_message := Some error; jr_worker_id := jr_worker_id r; jr_priority := jr_priority r |}.

(** src/src/jobs/queue.rs:95-144 JobQueueManager::fail *)
Definition fail (id error : string) (policy : RetryPolicy) : Jobs unit :=
  row ← job_query (fun w => (List.find (fun r => String.eqb (jr_id r) id) (jw_jobs w), w));
  r ← expect JobRowNotFound row;
  if jr_retry_count r <? jr_max_retries r then
    let delay_secs := next_delay_secs policy (jr_retry_count r) in
    job_query (fun w => (tt, update_job id (retry_row error (jw_now w + delay_secs * 1000)) w))
  else
    job_query (fun w => (tt, update_job id (failed_row error (jw_now w)) w)).

(** src/src/jobs/queue.rs:147-165 JobQueueManager::dead_letter_jobs *)
Definition dead_letter_jobs (limit : Z) : Jobs (list Job) :=
  rows ← job_query (fun w =>
    (take (Z.to_nat limit)
       (sort_by (fun r1 r2 => default 0 (jr_completed_at r2) <=? default 0 (jr_completed_at r1))
          (List.filter (fun r => String.eqb (jr_status r) "failed") (scan (jw_scans w) (jw_jobs w)))),
     {| jw_jobs := jw_jobs w; jw_tips := jw_tips w; jw_now := jw_now w; jw_uuids := jw_uuids w;
        jw_scans := S (jw_scans w); jw_faults := jw_faults w |}));
  forM rows [] (fun acc r => job ← lift (job_try_from r); mret (acc ++ [job])).

(** The rows a clean-up deletes. *)
Definition is_done (r : JobRow) : bool :=
  String.eqb (jr_status r) "completed" || String.eqb (jr_status r) "failed".

(** src/src/jobs/queue.rs:168-183 JobQueueManager::cleanup_old_jobs *)
Definition cleanup_old_jobs (retention_days : Z) : Jobs Z :=
  job_query (fun w =>
    let old r := is_done r && (jr_created_at r <? jw_now w - retention_days * 86400000) in
    (Z.of_nat (length (List.filter old (jw_jobs w))),
     with_jobs (List.filter (fun r => negb (old r)) (jw_jobs w)) w)).

(** src/src/jobs/queue.rs:212-218 QueueMetrics *)
Record QueueMetrics : Type := {
  qm_pending : Z; qm_running : Z; qm_retrying : Z; qm_completed : Z; qm_failed : Z
}.

(** src/src/jobs/queue.rs:186-208 JobQueueManager::queue_metrics *)
Definition queue_metrics : Jobs QueueMetrics :=
  job_query (fun w =>
    let count s := Z.of_nat (length (List.filter (fun r => String.eqb (jr_status r) s) (jw_jobs w))) in
    ({| qm_pending := count "pending"; qm_running := count "running"; qm_retrying := count "retrying";
        qm_completed := count "completed"; qm_failed := count "failed" |}, w)).

(** ** handlers.rs *)

(** The answer of Stellar to [verify_transaction], an error being its text. *)
Variable verify_transaction : string -> JobWorld -> result bool string.

(** src/src/jobs/handlers.rs:12-24 JobHandler *)
Record JobHandler : Type := {
  h_job_type : JobType;
  h_retry_policy : RetryPolicy;
  h_handle : Job -> Jobs unit
}.

(** src/src/jobs/handlers.rs:27-29 JobHandlerRegistry *)
Definition JobHandlerRegistry : Type := JobType -> option JobHandler.

(** src/src/jobs/handlers.rs:32-36 JobHandlerRegistry::new *)
Definition registry_new : JobHandlerRegistry := fun _ => None.

(** src/src/jobs/handlers.rs:38-40 JobHandlerRegistry::register *)
Definition register (h : JobHandler) (reg : JobHandlerRegistry) : JobHandlerRegistry :=
  fun t => if decide (t = h_job_type h) then Some h else reg t.

(** src/src/jobs/handlers.rs:46-51 JobHandlerRegistry::retry_policy *)
Definition retry_policy (reg : JobHandlerRegistry) (t : JobType) : RetryPolicy :=
  match reg t with Some h => h_retry_policy h | None => retry_policy_default end.

(** src/src/jobs/handlers.rs:76-132 VerifyTransactionHandler *)
Definition verify_transaction_handler : JobHandler :=
  {| h_job_type := VerifyTransaction;
     h_retry_policy := {| rp_max_retries := 5; rp_base_delay_ms := 2000; rp_max_delay_ms := 120000;
                          rp_backoff_multiplier := f64_of_Z 2; rp_jitter := true |};
     h_handle := fun job =>
       match job_payload job with
       | PVerifyTransaction _ tx_hash _ =>
           answer ← gets (verify_transaction tx_hash);
           match answer with
           | Err e => throw (ExecutionFailed e)
           | Ok false => throw (ExecutionFailed ("Transaction " +:+ tx_hash +:+ " could not be verified"))
           | Ok true => mret tt
           end
       | _ => throw (ExecutionFailed "Wrong payload type for VerifyTransaction")
       end |}.

(** src/src/jobs/handlers.rs:146-205 SendNotificationHandler: the message is built
    and dropped *)
Definition send_notification_handler : JobHandler :=
  {| h_job_type := SendNotification;
     h_retry_policy := retry_policy_default;
     h_handle := fun job =>
       match job_payload job with
       | PSendNotification _ _ _ _ => mret tt
       | _ => throw (ExecutionFailed "Wrong payload type for SendNotification")
       end |}.

(** src/src/jobs/handlers.rs:218-274 AggregateStatsHandler: the statistics are
    logged *)
Definition aggregate_stats_handler : JobHandler :=
  {| h_job_type := AggregateStats;
     h_retry_policy := {| rp_max_retries := 2; rp_base_delay_ms := 5000; rp_max_delay_ms := 60000;
                          rp_backoff_multiplier := f64_of_Z 2; rp_jitter := false |};
     h_handle := fun job =>
       match job_payload job with
       | PAggregateStats _ _ _ => job_query (fun w => (tt, w))
       | _ => throw (ExecutionFailed "Wrong payload type for AggregateStats")
       end |}.

(** src/src/jobs/handlers.rs:325-330 the jobs a clean-up job deletes *)
Definition delete_jobs (status : string) (older_than : Z) (w : JobWorld) : unit * JobWorld :=
  (tt, with_jobs (List.filter (fun r => negb (String.eqb (jr_status r) status && (jr_created_at r <? older_than)))
                    (jw_jobs w)) w).

(** src/src/jobs/handlers.rs:288-342 CleanupDataHandler *)
Definition cleanup_data_handler : JobHandler :=
  {| h_job_type := CleanupData;
     h_retry_policy := retry_policy_default;
     h_handle := fun job =>
       match job_payload job with
       | PCleanupData CompletedJobs older_than => job_query (delete_jobs "completed" older_than)
       | PCleanupData FailedJobs older_than => job_query (delete_jobs "failed" older_than)
       | PCleanupData OldTipData older_than =>
           job_query (fun w =>
             (tt, {| jw_jobs := jw_jobs w;
                     jw_tips := List.filter (fun t => negb (snd t <? older_than)) (jw_tips w);
                     jw_now := jw_now w; jw_uuids := jw_uuids w; jw_scans := jw_scans w;
                     jw_faults := jw_faults w |}))
       | _ => throw (ExecutionFailed "Wrong payload type for CleanupData")
       end |}.

(** ** worker.rs *)

(** What the shutdown channel answers to [try_recv]. *)
Inductive TryRecv : Type := Received | RxClosed | RxEmpty | RxLagged.

(** tokio's broadcast channel, by the senders alive and the messages waiting. *)
Variable try_recv : nat -> nat -> TryRecv.

Definition sleep_ms (ms : Z) (w : JobWorld) : JobWorld :=
  {| jw_jobs := jw_jobs w; jw_tips := jw_tips w; jw_now := jw_now w + ms; jw_uuids := jw_uuids w;
     jw_scans := jw_scans w; jw_faults := jw_faults w |}.

(** src/src/jobs/worker.rs:72-118 what a worker does with a job; [true] when it
    stops *)
Definition run_job (reg : JobHandlerRegistry) (job : Job) (w : JobWorld) : bool * JobWorld :=
  match reg (job_type job) with
  | None =>
      let err := "No handler for job type: " +:+ job_type_str (job_type job) in
      (false, snd (fail (job_id job) err (retry_policy reg (job_type job)) w))
  | Some h =>
      match h_handle h job w with
      | (Ok _, w1) => (false, snd (complete (job_id job) w1))
      | (Err JobShutdown, w1) => (true, w1)
      | (Err e, w1) =>
          (false, snd (fail (job_id job) (show_error e) (retry_policy reg (job_type job)) w1))
      end
  end.

(** src/src/jobs/worker.rs:42-129 an iteration of JobWorker::run *)
Definition worker_iteration (reg : JobHandlerRegistry) (id : string) (poll_interval : Z)
    (senders waiting : nat) (w : JobWorld) : bool * JobWorld :=
  match try_recv senders waiting with
  | Received | RxClosed => (true, w)
  | RxEmpty | RxLagged =>
      match dequeue id w with
      | (Ok (Some job), w1) => run_job reg job w1
      | (Ok None, w1) => (false, sleep_ms poll_interval w1)
      | (Err _, w1) => (false, sleep_ms (poll_interval * 5) w1)
      end
  end.

(** src/src/jobs/worker.rs:39-130 JobWorker::run, for at most [fuel] iterations with
    the channel in the same state; [true] when it returned *)
Fixpoint worker_run (fuel : nat) (reg : JobHandlerRegistry) (id : string) (poll_interval : Z)
    (senders waiting : nat) (w : JobWorld) : bool * JobWorld :=
  match fuel with
  | O => (false, w)
  | S fuel' =>
      match worker_iteration reg id poll_interval senders waiting w with
      | (true, w1) => (true, w1)
      | (false, w1) => worker_run fuel' reg id poll_interval senders waiting w1
      end
  end.

(** ** mod.rs *)

(** src/src/jobs/worker.rs:134-139 JobWorkerPool: its configuration and the sender
    it owns *)
Record JobWorkerPool : Type := {
  wp_config : WorkerConfig;
  wp_senders : nat
}.

(** src/src/jobs/worker.rs:142-154 JobWorkerPool::new *)
Definition pool_new (c : WorkerConfig) : JobWorkerPool := {| wp_config := c; wp_senders := 1 |}.

(** src/src/jobs/worker.rs:157-177 JobWorkerPool::start: the ids of the workers it
    spawns *)
Definition pool_start (p : JobWorkerPool) : list string :=
  map (fun i => "worker-" +:+ print_Z (Z.of_nat i)) (seq 0 (wc_worker_count (wp_config p))).

(** The pool goes out of scope: its sender is dropped. *)
Definition pool_drop (p : JobWorkerPool) : JobWorkerPool :=
  {| wp_config := wp_config p; wp_senders := pred (wp_senders p) |}.

(** src/src/jobs/mod.rs:30-51 start: the registry, the workers, and the senders
    their channel has left when it returns *)
Definition start (config : JobConfig) : JobHandlerRegistry * list string * nat :=
  let registry := register cleanup_data_handler (register aggregate_stats_handler
    (register send_notification_handler (register verify_transaction_handler registry_new))) in
  let pool := pool_new (worker_config config) in
  let workers := pool_start pool in
  (registry, workers, wp_senders (pool_drop pool)).

(** src/src/jobs/scheduler.rs:56-71 schedule_cleanup *)
Definition schedule_cleanup (retention_days : Z) : Jobs unit :=
  older_than ← gets (fun w => jw_now w - retention_days * 86400000);
  forM [CompletedJobs; FailedJobs] tt (fun _ cleanup_type =>
    _ ← attempt (E' := JobError) (enqueue CleanupData (PCleanupData cleanup_type older_than) (-10) 1);
    mret tt).

End jobs.
Arguments JobRow : clear implicits.
Arguments JobWorld : clear implicits.

(** ** What each operation does to the table *)

Section effects.
Context {J : Type}.
Variable payload_to_json : JobPayload -> option J.
Variable payload_of_json : J -> option JobPayload.
Variable uuid : nat -> string.
Variable scan : nat -> list (JobRow J) -> list (JobRow J).
Variable verify_transaction : string -> JobWorld J -> result bool string.
Hypothesis scan_perm : forall n l, scan n l ≡ₚ l.
Implicit Types (w : JobWorld J) (r : JobRow J).

Definition update (id : string) (f : JobRow J -> JobRow J) (l : list (JobRow J)) : list (JobRow J) :=
  map (fun r => if String.eqb (jr_id r) id then f r else r) l.

Lemma job_query_cases {A} (q : JobWorld J -> A * JobWorld J) w (r : result A JobError) w' :
  job_query q w = (r, w') ->
  exists w1, jw_jobs w1 = jw_jobs w /\ jw_uuids w1 = jw_uuids w /\ jw_now w1 = jw_now w /\ jw_scans w1 = jw_scans w /\
    ((is_ok r = false /\ w' = w1) \/ (w' = snd (q w1) /\ (is_ok r = false \/ r = Ok (fst (q w1))))).
Proof.
  unfold job_query, remote. simpl. destruct (pop_fault (jw_faults w)) as [f l]. intros H.
  exists {| jw_jobs := jw_jobs w; jw_tips := jw_tips w; jw_now := jw_now w; jw_uuids := jw_uuids w;
            jw_scans := jw_scans w; jw_faults := l |}.
  split_and!; try done. destruct f, (q _) as [a w2]; injection H as <- <-; simpl; eauto 6.
Qed.

Lemma complete_jobs id w :
  (jw_jobs (snd (complete id w)) = jw_jobs w \/
   exists now, jw_jobs (snd (complete id w)) = update id (complete_row now) (jw_jobs w)) /\
  jw_uuids (snd (complete id w)) = jw_uuids w.
Proof.
  unfold complete. destruct (job_query _ w) as [r w'] eqn:Hrun.
  destruct (job_query_cases _ w r w' Hrun) as (w1 & Hj & Hu & _ & _ & Hc). simpl.
  destruct Hc as [[_ ->] | [-> _]]; simpl; rewrite ?Hj, ?Hu; eauto.
Qed.

Lemma find_row_some id (l : list (JobRow J)) r :
  List.find (fun r => String.eqb (jr_id r) id) l = Some r -> r ∈ l /\ jr_id r = id.
Proof. intros [Hin He]%find_some. apply list_elem_of_In in Hin. by apply String.eqb_eq in He. Qed.

(** The row a settled job goes to. *)
Inductive settled_row : JobRow J -> JobRow J -> Prop :=
| sr_complete now r : settled_row r (complete_row now r)
| sr_retry error at_ r : jr_retry_count r < jr_max_retries r -> settled_row r (retry_row error at_ r)
| sr_failed error now r : settled_row r (failed_row error now r).

(** The table after a job is settled: no row or the rows with its id changed. *)
Definition settles (id : string) (l l' : list (JobRow J)) : Prop :=
  l' = l \/ exists f, l' = update id f l /\ forall r, r ∈ l -> jr_id r = id -> settled_row r (f r).

Lemma complete_settles id w :
  settles id (jw_jobs w) (jw_jobs (snd (complete id w))) /\ jw_uuids (snd (complete id w)) = jw_uuids w.
Proof.
  destruct (complete_jobs id w) as [[H | [now H]] Hu]; (split; [| done]); [by left |].
  right. exists (complete_row now). split; [done |]. intros. constructor.
Qed.

(** Ids are a primary key. *)
Definition keyed (l : list (JobRow J)) : Prop := NoDup (jr_id <$> l).

Lemma keyed_inj l r1 r2 : keyed l -> r1 ∈ l -> r2 ∈ l -> jr_id r1 = jr_id r2 -> r1 = r2.
Proof. apply nodup_key_inj. Qed.

Lemma fail_settles id error policy w :
  keyed (jw_jobs w) ->
  settles id (jw_jobs w) (jw_jobs (snd (fail id error policy w))) /\
  jw_uuids (snd (fail id error policy w)) = jw_uuids w.
Proof.
  intros Hk. unfold fail. bind_step.
  destruct (job_query (fun w => (List.find (fun r => String.eqb (jr_id r) id) (jw_jobs w), w)) w) as [row w1] eqn:Hrun.
  destruct (job_query_cases _ w row w1 Hrun) as (w0 & Hj & Hu & _ & _ & Hc).
  assert (jw_jobs w1 = jw_jobs w /\ jw_uuids w1 = jw_uuids w) as [Hj1 Hu1].
  { destruct Hc as [[_ ->] | [-> _]]; done. }
  destruct row as [row | e]; [| simpl; split; [by left | done]].
  unfold expect. bind_step. destruct row as [row |]; [| simpl; split; [by left | done]].
  assert (row ∈ jw_jobs w /\ jr_id row = id) as [Hin Hid].
  { destruct Hc as [[? _] | [_ [? | [= Hf]]]]; try done. rewrite <- Hj. by apply find_row_some. }
  cbn [lift ok_or]. rewrite <- Hj1, <- Hu1. rewrite <- Hj1 in Hin, Hk. clear Hrun Hc Hj Hu Hj1 Hu1 w0.
  destruct (Z.ltb_spec (jr_retry_count row) (jr_max_retries row)).
  - destruct (job_query _ w1) as [r w2] eqn:Hrun.
    destruct (job_query_cases _ w1 r w2 Hrun) as (w0 & Hj & Hu & _ & _ & Hc). simpl.
    destruct Hc as [[_ ->] | [-> _]]; simpl; rewrite ?Hj, ?Hu; (split; [| done]); [by left | right].
    eexists. split; [reflexivity |]. intros r0 Hr0 Hid0.
    constructor. rewrite (keyed_inj _ r0 row Hk Hr0 Hin); [done | congruence].
  - destruct (job_query _ w1) as [r w2] eqn:Hrun.
    destruct (job_query_cases _ w1 r w2 Hrun) as (w0 & Hj & Hu & _ & _ & Hc). simpl.
    destruct Hc as [[_ ->] | [-> _]]; simpl; rewrite ?Hj, ?Hu; (split; [| done]); [by left | right].
    eexists. split; [reflexivity |]. intros. constructor.
Qed.

(** The table after a clean-up: only rows that are done are gone. *)
Definition cleans (l l' : list (JobRow J)) : Prop :=
  exists f, l' = List.filter f l /\ forall r, r ∈ l -> is_done r = false -> f r = true.

Lemma cleans_refl l : cleans l l.
Proof. exists (fun _ => true). split; [by induction l as [| x l IH]; simpl; congruence | done]. Qed.

Lemma cleanup_cleans days w :
  cleans (jw_jobs w) (jw_jobs (snd (cleanup_old_jobs days w))) /\
  jw_uuids (snd (cleanup_old_jobs days w)) = jw_uuids w.
Proof.
  unfold cleanup_old_jobs. destruct (job_query _ w) as [r w'] eqn:Hrun.
  destruct (job_query_cases _ w r w' Hrun) as (w1 & Hj & Hu & _ & _ & Hc). simpl.
  destruct Hc as [[_ ->] | [-> _]]; simpl; rewrite ?Hj, ?Hu; (split; [| done]); [apply cleans_refl |].
  eexists. split; [reflexivity |]. intros r0 _ Hd. simpl. by rewrite Hd.
Qed.

Lemma delete_jobs_cleans status older_than w :
  status = "completed" \/ status = "failed" ->
  cleans (jw_jobs w) (jw_jobs (snd (job_query (delete_jobs status older_than) w))) /\
  jw_uuids (snd (job_query (delete_jobs status older_than) w)) = jw_uuids w.
Proof.
  intros Hst. destruct (job_query _ w) as [r w'] eqn:Hrun.
  destruct (job_query_cases _ w r w' Hrun) as (w1 & Hj & Hu & _ & _ & Hc). simpl.
  destruct Hc as [[_ ->] | [-> _]]; simpl; rewrite ?Hj, ?Hu; (split; [| done]); [apply cleans_refl |].
  eexists. split; [reflexivity |]. intros r0 _ Hd. simpl. unfold is_done in Hd.
  apply orb_false_iff in Hd as [Hc Hf]. destruct Hst as [-> | ->]; by rewrite ?Hc, ?Hf.
Qed.

(** The table after a job is claimed: a row that could be dequeued is running. *)
Definition claims_row (worker_id : string) (l l' : list (JobRow J)) row : Prop :=
  exists now, row ∈ l /\ available now row = true /\ l' = update (jr_id row) (start_row worker_id now) l.

Lemma claim_next_cases worker_id w :
  (fst (claim_next scan worker_id w) = None /\ jw_jobs (snd (claim_next scan worker_id w)) = jw_jobs w) \/
  exists row, fst (claim_next scan worker_id w) = Some (start_row worker_id (jw_now w) row) /\
    claims_row worker_id (jw_jobs w) (jw_jobs (snd (claim_next scan worker_id w))) row.
Proof.
  unfold claim_next. destruct (sort_by before _) as [| row l] eqn:Hs; [by left | right].
  assert (row ∈ List.filter (available (jw_now w)) (scan (jw_scans w) (jw_jobs w))) as Hin.
  { rewrite <- (sort_by_perm before), Hs. left. }
  apply list_elem_of_In, List.filter_In in Hin as [Hin Ha]. apply list_elem_of_In in Hin. rewrite scan_perm in Hin.
  exists row. split; [done |]. by exists (jw_now w).
Qed.

Lemma dequeue_cases worker_id w :
  let '(r, w') := dequeue payload_of_json scan worker_id w in
  jw_uuids w' = jw_uuids w /\
  ((jw_jobs w' = jw_jobs w /\ forall job, r <> Ok (Some job)) \/
   exists row, claims_row worker_id (jw_jobs w) (jw_jobs w') row /\
     forall job, r = Ok (Some job) -> job_id job = jr_id row /\ job_max_retries job = jr_max_retries row).
Proof.
  unfold dequeue. bind_step.
  destruct (job_query (claim_next scan worker_id) w) as [row w1] eqn:Hrun.
  destruct (job_query_cases _ w row w1 Hrun) as (w0 & Hj & Hu & _ & _ & Hc).
  assert (jw_uuids (snd (claim_next scan worker_id w0)) = jw_uuids w0) as Hu0.
  { unfold claim_next. by destruct (sort_by before _). }
  pose proof (claim_next_cases worker_id w0) as Hn. rewrite Hj in Hn.
  assert (jw_uuids w1 = jw_uuids w) as Hu1 by (destruct Hc as [[_ ->] | [-> _]]; congruence).
  destruct row as [[row |] | e].
  - destruct Hc as [[? _] | [-> [? | [= Hr]]]]; try done.
    destruct Hn as [[Hnone _] | (row0 & Hsome & Hcl)]; [congruence |].
    assert (row = start_row worker_id (jw_now w0) row0) as -> by congruence.
    bind_step. unfold lift. destruct (job_try_from _ _) as [job | e] eqn:Hjob; (split; [done |]); right;
      exists row0; (split; [done |]); intros job' [= <-].
    unfold job_try_from in Hjob. case_all; try done. by injection Hjob as <-.
  - split; [done |]. left. destruct Hc as [[? _] | [-> [? | [= Hr]]]]; try done.
    destruct Hn as [[_ ->] | (row0 & Hsome & _)]; [done | congruence].
  - split; [done |]. destruct Hc as [[_ ->] | [-> _]]; [by left |].
    destruct Hn as [[_ ->] | (row0 & _ & Hcl)]; [by left | right]. by exists row0.
Qed.

(** A new row of the table. *)
Definition adds_row (id : string) (l l' : list (JobRow J)) : Prop :=
  exists r, l' = l ++ [r] /\ jr_id r = id /\ jr_status r = "pending" /\ jr_retry_count r = 0.

Lemma enqueue_cases t payload priority max_retries w :
  let w' := snd (enqueue payload_to_json uuid t payload priority max_retries w) in
  jw_uuids w' = S (jw_uuids w) /\
  (jw_jobs w' = jw_jobs w \/ adds_row (uuid (jw_uuids w)) (jw_jobs w) (jw_jobs w')).
Proof.
  unfold enqueue. do 2 bind_step. unfold expect, lift. destruct (payload_to_json payload) as [json |]; simpl; [| auto].
  bind_step.
  match goal with |- context [job_query ?q ?w0] => destruct (job_query q w0) as [r w1] eqn:Hrun;
    destruct (job_query_cases q w0 r w1 Hrun) as (w2 & Hj & Hu & Hnow & _ & Hc) end.
  simpl in *.
  assert (jw_uuids w1 = S (jw_uuids w) /\
          (jw_jobs w1 = jw_jobs w \/ adds_row (uuid (jw_uuids w)) (jw_jobs w) (jw_jobs w1))) as Hgoal.
  { destruct Hc as [[_ ->] | [-> _]]; simpl; rewrite ?Hu, ?Hj; (split; [done |]); [by left | right].
    eexists. split; [reflexivity |]. done. }
  by destruct r.
Qed.

(** What handling a job does to the table. *)
Lemma handle_cleans config t h job w :
  fst (fst (start verify_transaction config)) t = Some h ->
  cleans (jw_jobs w) (jw_jobs (snd (h_handle h job w))) /\ jw_uuids (snd (h_handle h job w)) = jw_uuids w.
Proof.
  assert (Hrefl : cleans (jw_jobs w) (jw_jobs w) /\ jw_uuids w = jw_uuids w) by (split; [apply cleans_refl | done]).
  unfold start, register, registry_new. simpl. case_all; intros [= <-]; simpl; destruct (job_payload job); try exact Hrefl.
  - destruct cleanup_type; [apply delete_jobs_cleans; auto | apply delete_jobs_cleans; auto |].
    destruct (job_query _ w) as [r w'] eqn:Hrun.
    destruct (job_query_cases _ w r w' Hrun) as (w1 & Hj & Hu & _ & _ & Hc). simpl.
    destruct Hc as [[_ ->] | [-> _]]; simpl; rewrite ?Hj, ?Hu; exact Hrefl.
  - destruct (job_query _ w) as [r w'] eqn:Hrun.
    destruct (job_query_cases _ w r w' Hrun) as (w1 & Hj & Hu & _ & _ & Hc). simpl.
    destruct Hc as [[_ ->] | [-> _]]; simpl; rewrite ?Hj, ?Hu; exact Hrefl.
  - bind_step. unfold gets. by destruct (verify_transaction transaction_hash w) as [[] | e0].
Qed.
End effects.

(** ** The system: workers, producers and clean-ups on one table *)

Section system.
Context {J : Type}.
Variable payload_to_json : JobPayload -> option J.
Variable payload_of_json : J -> option JobPayload.
Variable uuid : nat -> string.
Variable scan : nat -> list (JobRow J) -> list (JobRow J).
Variable verify_transaction : string -> JobWorld J -> result bool string.
Hypothesis scan_perm : forall n l, scan n l ≡ₚ l.
Hypothesis uuid_inj : forall m n, uuid m = uuid n -> m = n.
Implicit Types (w : JobWorld J) (r : JobRow J).

(** The jobs the workers hold, and every job a worker has started, with its
    [max_retries]. *)
Record System : Type := {
  sy_world : JobWorld J;
  sy_held : list string;
  sy_started : list (string * Z)
}.

Inductive step : System -> System -> Prop :=
| StepEnqueue t payload priority max_retries w held started :
    step {| sy_world := w; sy_held := held; sy_started := started |}
         {| sy_world := snd (enqueue payload_to_json uuid t payload priority max_retries w);
            sy_held := held; sy_started := started |}
| StepClaim worker job w w' held started :
    dequeue payload_of_json scan worker w = (Ok (Some job), w') ->
    step {| sy_world := w; sy_held := held; sy_started := started |}
         {| sy_world := w'; sy_held := job_id job :: held;
            sy_started := (job_id job, job_max_retries job) :: started |}
(** No job, a job that cannot be decoded, or no answer. *)
| StepNoClaim worker answer w w' held started :
    dequeue payload_of_json scan worker w = (answer, w') -> (forall job, answer <> Ok (Some job)) ->
    step {| sy_world := w; sy_held := held; sy_started := started |}
         {| sy_world := w'; sy_held := held; sy_started := started |}
| StepHandle config t h job w held started :
    fst (fst (start verify_transaction config)) t = Some h -> job_id job ∈ held ->
    step {| sy_world := w; sy_held := held; sy_started := started |}
         {| sy_world := snd (h_handle h job w); sy_held := held; sy_started := started |}
| StepComplete id w before after started :
    step {| sy_world := w; sy_held := before ++ id :: after; sy_started := started |}
         {| sy_world := snd (complete id w); sy_held := before ++ after; sy_started := started |}
| StepFail id error policy w before after started :
    step {| sy_world := w; sy_held := before ++ id :: after; sy_started := started |}
         {| sy_world := snd (fail id error policy w); sy_held := before ++ after; sy_started := started |}
(** A worker that shuts down or dies while it holds a job. *)
| StepDrop id w before after started :
    step {| sy_world := w; sy_held := before ++ id :: after; sy_started := started |}
         {| sy_world := w; sy_held := before ++ after; sy_started := started |}
| StepCleanup days w held started :
    step {| sy_world := w; sy_held := held; sy_started := started |}
         {| sy_world := snd (cleanup_old_jobs days w); sy_held := held; sy_started := started |}
| StepPass ms faults w held started :
    step {| sy_world := w; sy_held := held; sy_started := started |}
         {| sy_world := {| jw_jobs := jw_jobs w; jw_tips := jw_tips w; jw_now := jw_now w + Z.max 0 ms;
                           jw_uuids := jw_uuids w; jw_scans := jw_scans w; jw_faults := faults |};
            sy_held := held; sy_started := started |}.

(** How often a job has been started. *)
Definition runs (id : string) (started : list (string * Z)) : Z :=
  Z.of_nat (length (List.filter (fun p => String.eqb (fst p) id) started)).

Definition waiting (r : JobRow J) : Prop := jr_status r = "pending" \/ jr_status r = "retrying".

(** A row and what has been started of it. *)
Record row_ok (started : list (string * Z)) (r : JobRow J) : Prop := {
  ro_count : runs (jr_id r) started <= jr_retry_count r <= Z.max 1 (jr_max_retries r);
  ro_waiting : waiting r -> jr_retry_count r < Z.max 1 (jr_max_retries r);
  ro_max m : (jr_id r, m) ∈ started -> m = jr_max_retries r
}.

Record Inv (s : System) : Prop := {
  inv_keyed : keyed (jw_jobs (sy_world s));
  inv_ids r : r ∈ jw_jobs (sy_world s) -> exists n, jr_id r = uuid n /\ (n < jw_uuids (sy_world s))%nat;
  inv_rows r : r ∈ jw_jobs (sy_world s) -> row_ok (sy_started s) r;
  inv_started id m : (id, m) ∈ sy_started s ->
    runs id (sy_started s) <= Z.max 1 m /\ exists n, id = uuid n /\ (n < jw_uuids (sy_world s))%nat;
  inv_held : NoDup (sy_held s);
  inv_running id r : id ∈ sy_held s -> r ∈ jw_jobs (sy_world s) -> jr_id r = id -> jr_status r = "running";
  inv_held_ids id : id ∈ sy_held s -> exists m, (id, m) ∈ sy_started s
}.

Lemma update_ids id (f : JobRow J -> JobRow J) l :
  (forall r, r ∈ l -> jr_id r = id -> jr_id (f r) = jr_id r) -> jr_id <$> update id f l = jr_id <$> l.
Proof.
  intros Hf. unfold update. etransitivity; [apply map_map |]. apply map_ext_in.
  intros r Hr%list_elem_of_In. destruct (String.eqb_spec (jr_id r) id); [by apply Hf | done].
Qed.

Lemma elem_of_update id (f : JobRow J -> JobRow J) l r' :
  r' ∈ update id f l ->
  exists r, r ∈ l /\ ((jr_id r = id /\ r' = f r) \/ (jr_id r <> id /\ r' = r)).
Proof.
  unfold update. intros (r & -> & Hr)%list_elem_of_fmap. exists r. split; [done |].
  destruct (String.eqb_spec (jr_id r) id); auto.
Qed.

Lemma settled_row_facts r r' :
  settled_row r r' -> jr_id r' = jr_id r /\ jr_retry_count r' = jr_retry_count r /\
    jr_max_retries r' = jr_max_retries r /\ (waiting r' -> jr_retry_count r < jr_max_retries r).
Proof. intros []; simpl; split_and!; try done; unfold waiting; simpl; by intros [?|?]. Qed.

(** A settled job is out of its worker's hands. *)
Lemma settles_inv id w w' before after started :
  settles id (jw_jobs w) (jw_jobs w') -> jw_uuids w' = jw_uuids w ->
  Inv {| sy_world := w; sy_held := before ++ id :: after; sy_started := started |} ->
  Inv {| sy_world := w'; sy_held := before ++ after; sy_started := started |}.
Proof.
  intros Hs Hu [Hk Hids Hrows Hst Hheld Hrun Hhi]. simpl in *.
  assert (NoDup (before ++ after) /\ id ∉ before ++ after) as [Hnd Hid].
  { rewrite <- Permutation_middle in Hheld. by apply NoDup_cons in Hheld as [? ?]. }
  assert (forall x, x ∈ before ++ after -> x ∈ before ++ id :: after) as Hsub.
  { intros x. rewrite !elem_of_app, elem_of_cons. tauto. }
  destruct Hs as [Hj | (f & Hj & Hf)].
  { constructor; simpl; rewrite ?Hu, ?Hj; eauto. }
  assert (Hfacts : forall r, r ∈ jw_jobs w -> jr_id r = id -> jr_id (f r) = jr_id r /\
    jr_retry_count (f r) = jr_retry_count r /\ jr_max_retries (f r) = jr_max_retries r /\
    (waiting (f r) -> jr_retry_count r < jr_max_retries r)).
  { intros r Hr He. by apply settled_row_facts, Hf. }
  constructor; simpl; rewrite ?Hu, ?Hj; eauto.
  - unfold keyed. rewrite update_ids; [done |]. intros r Hr He. by apply Hfacts.
  - intros r' (r & Hr & [[He ->] | [He ->]])%elem_of_update; [| by apply Hids].
    destruct (Hfacts r Hr He) as (-> & _). by apply Hids.
  - intros r' (r & Hr & [[He ->] | [He ->]])%elem_of_update; [| by apply Hrows].
    destruct (Hfacts r Hr He) as (Hi & Hc & Hm & Hw). destruct (Hrows r Hr) as [[? ?] ? Hmax].
    constructor; rewrite ?Hi, ?Hc, ?Hm; [lia | | done]. intros Hwait. specialize (Hw Hwait). lia.
  - intros x r' Hx (r & Hr & [[He ->] | [He ->]])%elem_of_update Hid'.
    + destruct Hid. destruct (Hfacts r Hr He) as (Hi & _). congruence.
    + apply (Hrun x); [by apply Hsub | done | done].
Qed.

Lemma cleans_inv w w' held started :
  cleans (jw_jobs w) (jw_jobs w') -> jw_uuids w' = jw_uuids w ->
  Inv {| sy_world := w; sy_held := held; sy_started := started |} ->
  Inv {| sy_world := w'; sy_held := held; sy_started := started |}.
Proof.
  intros (f & Hw & _) Hu [Hk Hids Hrows Hst Hheld Hrun Hhi]. simpl in *.
  assert (forall r, r ∈ jw_jobs w' -> r ∈ jw_jobs w) as Hsub.
  { intros r. rewrite Hw. intros [Hr _]%list_elem_of_In%List.filter_In. by apply list_elem_of_In. }
  constructor; simpl; rewrite ?Hu; eauto.
  unfold keyed. rewrite Hw. refine (sublist_NoDup _ _ Hk _). apply fmap_sublist. clear. induction (jw_jobs w) as [| r l IH]; simpl; [done |]. destruct (f r); by constructor.
Qed.

Lemma available_waiting now r : available now r = true -> waiting r.
Proof. unfold available, waiting. intros [[H | H]%orb_true_iff _]%andb_true_iff; apply String.eqb_eq in H; auto. Qed.

Lemma runs_cons id id' m started :
  runs id ((id', m) :: started) = if decide (id' = id) then runs id started + 1 else runs id started.
Proof.
  unfold runs. simpl. destruct (String.eqb_spec id' id), (decide (id' = id)); try done. simpl length. lia.
Qed.

(** A claimed job: the worker that has it, or nobody when it could not be decoded
    or the reply was lost. *)
Lemma claim_inv worker w w' row held started (claimed : bool) :
  claims_row worker (jw_jobs w) (jw_jobs w') row -> jw_uuids w' = jw_uuids w ->
  Inv {| sy_world := w; sy_held := held; sy_started := started |} ->
  Inv {| sy_world := w'; sy_held := if claimed then jr_id row :: held else held;
         sy_started := if claimed then (jr_id row, jr_max_retries row) :: started else started |}.
Proof.
  intros (now & Hin & Ha & Hj) Hu [Hk Hids Hrows Hst Hheld Hrun Hhi]. simpl in *.
  apply available_waiting in Ha. destruct (Hrows row Hin) as [[Hc1 Hc2] Hw Hm]. specialize (Hw Ha).
  assert (jr_id row ∉ held) as Hfree.
  { intros Hh. pose proof (Hrun _ row Hh Hin eq_refl) as Hr. destruct Ha; congruence. }
  assert (Heq : forall r, r ∈ jw_jobs w -> jr_id r = jr_id row -> r = row) by (intros; by eapply keyed_inj).
  assert (Hcount : forall id, runs id (if claimed then (jr_id row, jr_max_retries row) :: started else started) <=
            runs id started + (if decide (jr_id row = id) then 1 else 0)).
  { intros id. destruct claimed; rewrite ?runs_cons; destruct (decide _); lia. }
  constructor; simpl; rewrite ?Hu, ?Hj.
  - unfold keyed. by rewrite update_ids.
  - intros r' (r & Hr & [[He ->] | [He ->]])%elem_of_update; simpl; by apply Hids.
  - intros r' (r & Hr & [[He ->] | [He ->]])%elem_of_update.
    + rewrite (Heq r Hr He) in *. pose proof (Hcount (jr_id row)) as Hn. rewrite decide_True in Hn by done.
      constructor; simpl; [lia | by intros [?|?] |]. intros m Hm'. destruct claimed; [| by apply Hm].
      apply elem_of_cons in Hm' as [[= ->] | ?]; [done | by apply Hm].
    + destruct (Hrows r Hr) as [[? ?] ? Hmr]. pose proof (Hcount (jr_id r)) as Hn. rewrite decide_False in Hn by done.
      constructor; [lia | done |]. intros m Hm'. destruct claimed; [| by apply Hmr].
      apply elem_of_cons in Hm' as [[= ? ->] | ?]; [done | by apply Hmr].
  - intros id m Hm'. pose proof (Hcount id) as Hn.
    assert ((id, m) ∈ started \/ (id = jr_id row /\ m = jr_max_retries row)) as [Hold | [-> ->]].
    { destruct claimed; [| by left]. apply elem_of_cons in Hm' as [[= -> ->] | ?]; auto. }
    + destruct (Hst id m Hold) as [Hr Hid]. split; [| done].
      destruct (decide (jr_id row = id)) as [He |]; [| lia]. subst id. rewrite (Hm m Hold). lia.
    + rewrite decide_True in Hn by done. split; [lia | by apply Hids].
  - destruct claimed; [by constructor | done].
  - intros id r' Hid (r & Hr & [[He ->] | [He ->]])%elem_of_update Hid'; [done |].
    destruct claimed; [| by eapply Hrun]. apply elem_of_cons in Hid as [-> | Hid]; [done | by eapply Hrun].
  - intros id Hid. destruct claimed; [| by apply Hhi]. apply elem_of_cons in Hid as [-> | Hid].
    + eexists. left.
    + destruct (Hhi id Hid) as [m ?]. exists m. by right.
Qed.

Lemma add_inv w w' held started :
  jw_jobs w' = jw_jobs w \/ adds_row (uuid (jw_uuids w)) (jw_jobs w) (jw_jobs w') ->
  jw_uuids w' = S (jw_uuids w) ->
  Inv {| sy_world := w; sy_held := held; sy_started := started |} ->
  Inv {| sy_world := w'; sy_held := held; sy_started := started |}.
Proof.
  intros Hadd Hu [Hk Hids Hrows Hst Hheld Hrun Hhi]. simpl in *.
  assert (Hids' : forall r, r ∈ jw_jobs w -> exists n, jr_id r = uuid n /\ (n < S (jw_uuids w))%nat).
  { intros r Hr. destruct (Hids r Hr) as (n & ? & ?). exists n. split; [done | lia]. }
  assert (Hst' : forall id m, (id, m) ∈ started ->
            runs id started <= 1 `max` m /\ exists n, id = uuid n /\ (n < S (jw_uuids w))%nat).
  { intros id m Hm. destruct (Hst id m Hm) as (? & n & ? & ?). split; [done |]. exists n. split; [done | lia]. }
  assert (Hnew : forall id n, id = uuid n -> (n < jw_uuids w)%nat -> id <> uuid (jw_uuids w)).
  { intros id n -> Hn He%uuid_inj. lia. }
  destruct Hadd as [Hj | (r0 & Hj & Hid & Hs & Hc)]; [constructor; simpl; rewrite ?Hu, ?Hj; eauto |].
  assert (Hnone : forall m, (jr_id r0, m) ∉ started).
  { intros m Hm. destruct (Hst _ _ Hm) as (_ & n & He & Hn). by apply (Hnew _ n He Hn). }
  constructor; simpl; rewrite ?Hu, ?Hj; try done.
  - unfold keyed. rewrite fmap_app. apply NoDup_app. split_and!; [done | | by apply NoDup_singleton].
    intros id (r & -> & Hr)%list_elem_of_fmap Hsame%list_elem_of_singleton.
    rewrite Hid in Hsame. destruct (Hids r Hr) as (n & He & Hn). by apply (Hnew _ n He Hn).
  - intros r [Hr | ->%list_elem_of_singleton]%elem_of_app; [by apply Hids' |].
    exists (jw_uuids w). split; [done | lia].
  - intros r [Hr | ->%list_elem_of_singleton]%elem_of_app; [by apply Hrows |].
    assert (runs (jr_id r0) started = 0) as Hr0.
    { unfold runs. destruct (List.filter _ started) as [| [i m] l] eqn:Hf; [done |]. exfalso.
      assert (In (i, m) (List.filter (fun p => String.eqb (fst p) (jr_id r0)) started)) as Hin by (rewrite Hf; by left).
      apply List.filter_In in Hin as [Hin He]. apply String.eqb_eq in He. simpl in He. subst i.
      by apply (Hnone m), list_elem_of_In. }
    constructor; rewrite ?Hr0, ?Hc; [lia | lia |]. intros m Hm. by destruct (Hnone m).
  - intros id r Hh [Hr | ->%list_elem_of_singleton]%elem_of_app He; [by eapply Hrun |].
    destruct (Hhi id Hh) as [m Hm]. subst id. by destruct (Hnone m).
Qed.

Lemma step_inv s s' : step s s' -> Inv s -> Inv s'.
Proof.
  intros Hs I. destruct Hs as [t payload priority max_retries w held started
    | worker job w w' held started Hd | worker answer w w' held started Hd Hn
    | config t h job w held started Hh Hin | id w before after started | id error policy w before after started
    | id w before after started | days w held started | ms faults w held started].
  - destruct (enqueue_cases payload_to_json uuid t payload priority max_retries w) as [Hu Hadd].
    by eapply add_inv.
  - pose proof (dequeue_cases payload_of_json scan scan_perm worker w) as H. rewrite Hd in H.
    destruct H as [Hu [[_ Hno] | (row & Hc & Hj)]]; [by destruct (Hno job) |].
    destruct (Hj job eq_refl) as [-> ->]. by apply (claim_inv worker w w' row held started true).
  - pose proof (dequeue_cases payload_of_json scan scan_perm worker w) as H. rewrite Hd in H.
    destruct H as [Hu [[Hsame _] | (row & Hc & _)]]; [| by apply (claim_inv worker w w' row held started false)].
    apply (cleans_inv w); [rewrite Hsame; apply cleans_refl | done | done].
  - destruct (handle_cleans verify_transaction config t h job w Hh) as [Hc Hu]. by apply (cleans_inv w).
  - destruct (complete_settles id w) as [Hs Hu]. by eapply settles_inv.
  - destruct (fail_settles id error policy w (inv_keyed _ I)) as [Hs Hu]. by eapply settles_inv.
  - eapply settles_inv; [by left | done | exact I].
  - destruct (cleanup_cleans days w) as [Hc Hu]. by apply (cleans_inv w).
  - apply (cleans_inv w); [apply cleans_refl | done | done].
Qed.

Lemma steps_inv s s' : rtc step s s' -> Inv s -> Inv s'.
Proof. induction 1; eauto using step_inv. Qed.

Definition system_start (w : JobWorld J) : System := {| sy_world := w; sy_held := []; sy_started := [] |}.

Lemma start_inv w : jw_jobs w = [] -> Inv (system_start w).
Proof.
  intros Hw. constructor; simpl; rewrite ?Hw; try (by intros ? ?%not_elem_of_nil);
    try (by intros ? ? ?%not_elem_of_nil); constructor.
Qed.

(** A running job that no worker holds. *)
Definition orphan (r : JobRow J) (s : System) : Prop :=
  r ∈ jw_jobs (sy_world s) /\ jr_status r = "running" /\ jr_id r ∉ sy_held s.

Lemma update_keeps id f r (l : list (JobRow J)) : r ∈ l -> jr_id r <> id -> r ∈ update id f l.
Proof.
  intros Hr Hne. apply list_elem_of_fmap. exists r. split; [| done].
  by destruct (String.eqb_spec (jr_id r) id).
Qed.

Lemma settles_keeps id l l' r : settles id l l' -> r ∈ l -> jr_id r <> id -> r ∈ l'.
Proof. intros [-> | (f & -> & _)] Hr Hne; [done | by apply update_keeps]. Qed.

Lemma cleans_keeps l l' r : cleans l l' -> r ∈ l -> jr_status r = "running" -> r ∈ l'.
Proof.
  intros (f & -> & Hf) Hr Hs. apply list_elem_of_In, List.filter_In. split; [by apply list_elem_of_In |].
  apply Hf; [done |]. unfold is_done. by rewrite Hs.
Qed.

Lemma claims_keeps worker l l' row r :
  keyed l -> claims_row worker l l' row -> r ∈ l -> jr_status r = "running" -> r ∈ l' /\ jr_id r <> jr_id row.
Proof.
  intros Hk (now & Hin & Ha & ->) Hr Hs.
  assert (jr_id r <> jr_id row) as Hne.
  { intros He. apply available_waiting in Ha. rewrite (keyed_inj l r row Hk Hr Hin He) in Hs. destruct Ha; congruence. }
  split; [by apply update_keeps | done].
Qed.

Lemma step_orphan s s' r :
  step s s' -> Inv s -> orphan r s -> orphan r s' /\ runs (jr_id r) (sy_started s') = runs (jr_id r) (sy_started s).
Proof.
  intros Hs I (Hr & Hrun & Hfree). pose proof (inv_keyed _ I) as Hk.
  destruct Hs as [t payload priority max_retries w held started
    | worker job w w' held started Hd | worker answer w w' held started Hd Hn
    | config t h job w held started Hh Hin | id w before after started | id error policy w before after started
    | id w before after started | days w held started | ms faults w held started]; simpl in *.
  - destruct (enqueue_cases payload_to_json uuid t payload priority max_retries w) as [_ Hadd].
    split; [| done]. split_and!; [| done | done]. simpl.
    destruct Hadd as [-> | (r0 & -> & _)]; [done | apply elem_of_app; by left].
  - pose proof (dequeue_cases payload_of_json scan scan_perm worker w) as H. rewrite Hd in H.
    destruct H as [_ [[_ Hno] | (row & Hc & Hj)]]; [by destruct (Hno job) |].
    destruct (Hj job eq_refl) as [-> _]. destruct (claims_keeps _ _ _ _ _ Hk Hc Hr Hrun) as [Hr' Hne].
    rewrite runs_cons, decide_False by done. split; [| done]. split_and!; [done | done |]. simpl.
    by apply not_elem_of_cons.
  - pose proof (dequeue_cases payload_of_json scan scan_perm worker w) as H. rewrite Hd in H.
    destruct H as [_ [[Hsame _] | (row & Hc & _)]]; (split; [| done]); (split_and!; [| done | done]); simpl.
    + by rewrite Hsame.
    + by apply (claims_keeps _ _ _ _ _ Hk Hc Hr Hrun).
  - destruct (handle_cleans verify_transaction config t h job w Hh) as [Hc _].
    split; [| done]. split_and!; [by eapply cleans_keeps | done | done].
  - apply not_elem_of_app in Hfree as [? [? ?]%not_elem_of_cons]. destruct (complete_settles id w) as [Hs _].
    split; [| done]. split_and!; [by eapply settles_keeps | done | by apply not_elem_of_app].
  - apply not_elem_of_app in Hfree as [? [? ?]%not_elem_of_cons]. destruct (fail_settles id error policy w Hk) as [Hs _].
    split; [| done]. split_and!; [by eapply settles_keeps | done | by apply not_elem_of_app].
  - apply not_elem_of_app in Hfree as [? [? ?]%not_elem_of_cons].
    split; [| done]. split_and!; [done | done | by apply not_elem_of_app].
  - destruct (cleanup_cleans days w) as [Hc _]. split; [| done]. split_and!; [by eapply cleans_keeps | done | done].
  - split; [| done]. by split_and!.
Qed.

Lemma steps_orphan s s' r :
  rtc step s s' -> Inv s -> orphan r s -> orphan r s' /\ runs (jr_id r) (sy_started s') = runs (jr_id r) (sy_started s).
Proof.
  induction 1 as [s | s s1 s2 Hs _ IH]; intros I Ho; [done |].
  destruct (step_orphan _ _ _ Hs I Ho) as [Ho1 Hr1]. destruct (IH (step_inv _ _ Hs I) Ho1) as [Ho2 Hr2].
  split; [done | congruence].
Qed.
End system.

(** ** Theorems *)

(** C16: However the workers, the producers and the clean-ups interleave, and
    whatever faults the database meets, a job is in the hands of one worker at
    most, it is marked as running while it is, and it is started [max_retries]
    times at most, or once when that is not positive. *)
Theorem job_attempts_bounded {J} payload_to_json payload_of_json uuid scan verify_transaction (w : JobWorld J) s :
  (forall n l, scan n l ≡ₚ l) -> (forall m n, uuid m = uuid n -> m = n) -> jw_jobs w = [] ->
  rtc (step payload_to_json payload_of_json uuid scan verify_transaction) (system_start w) s ->
  NoDup (sy_held s) /\
  (forall r, r ∈ jw_jobs (sy_world s) -> jr_id r ∈ sy_held s -> jr_status r = "running") /\
  (forall id m, (id, m) ∈ sy_started s -> runs id (sy_started s) <= Z.max 1 m).
Proof.
  intros Hscan Hinj Hw Hs.
  destruct (steps_inv _ _ uuid _ _ Hscan Hinj _ _ Hs (start_inv uuid w Hw)) as [_ _ _ Hst Hheld Hrun _].
  split_and!; [done | | intros id m Hm; by apply Hst]. intros r Hr Hh. by eapply Hrun.
Qed.

(** A job that is running and that no worker holds, because its worker
    stopped, its result could not be recorded or its row could not be decoded,
    stays so for ever: it is never started again, never failed and never
    cleaned up. *)
Theorem orphaned_job_stays {J} payload_to_json payload_of_json uuid scan verify_transaction (w : JobWorld J) s s' r :
  (forall n l, scan n l ≡ₚ l) -> (forall m n, uuid m = uuid n -> m = n) -> jw_jobs w = [] ->
  rtc (step payload_to_json payload_of_json uuid scan verify_transaction) (system_start w) s ->
  r ∈ jw_jobs (sy_world s) -> jr_status r = "running" -> jr_id r ∉ sy_held s ->
  rtc (step payload_to_json payload_of_json uuid scan verify_transaction) s s' ->
  r ∈ jw_jobs (sy_world s') /\ runs (jr_id r) (sy_started s') = runs (jr_id r) (sy_started s).
Proof.
  intros Hscan Hinj Hw Hs Hr Hrun Hfree Hs'.
  pose proof (steps_inv _ _ uuid _ _ Hscan Hinj _ _ Hs (start_inv uuid w Hw)) as I.
  destruct (steps_orphan _ _ uuid _ _ Hscan Hinj _ _ r Hs' I) as [(? & _) ?]; [by split_and! | done].
Qed.

(** The worker pool is a local of [start], so its sender is dropped when
    [start] returns: a worker that looks at its shutdown channel from then on
    returns at once and the database is not touched, whatever jobs wait in it. *)
Theorem dropped_pool_stops_workers {J} payload_of_json scan show_error verify_transaction try_recv config fuel
    (w : JobWorld J) id :
  try_recv 0%nat 0%nat = RxClosed ->
  let '(registry, workers, senders) := start verify_transaction config in
  id ∈ workers ->
  worker_run payload_of_json show_error scan try_recv (S fuel) registry id (jc_poll_interval_ms config) senders 0 w
    = (true, w).
Proof. intros Hclosed. simpl. intros _. unfold worker_iteration. by rewrite Hclosed. Qed.

Lemma before_total {J} (r1 r2 : JobRow J) : before r1 r2 = false -> before r2 r1 = true.
Proof.
  unfold before. intros [H1 H2]%orb_false_iff. zbool. apply orb_true_iff.
  destruct (Z.eqb_spec (jr_priority r1) (jr_priority r2)) as [He |]; simpl in H2; zbool.
  - right. rewrite He, Z.eqb_refl. simpl. apply Z.leb_le. lia.
  - left. apply Z.ltb_lt. lia.
Qed.

Lemma before_trans {J} (r1 r2 r3 : JobRow J) : before r1 r2 = true -> before r2 r3 = true -> before r1 r3 = true.
Proof.
  unfold before. intros H1 H2. apply orb_true_iff.
  apply orb_true_iff in H1 as [H1 | [H1 H1']%andb_true_iff]; apply orb_true_iff in H2 as [H2 | [H2 H2']%andb_true_iff];
    zbool; rewrite andb_true_iff, Z.ltb_lt, Z.eqb_eq, Z.leb_le; lia.
Qed.

(** When the database answers, dequeueing hands out a job only if one is
    pending or to be retried and due, and then one of the highest priority among
    these and the longest due among those; the job is running from then on. *)
Theorem dequeue_order {J} payload_of_json (scan : nat -> list (JobRow J) -> list (JobRow J)) worker w :
  (forall n l, scan n l ≡ₚ l) -> jw_faults w = [] ->
  let '(answer, w') := dequeue payload_of_json scan worker w in
  match answer with
  | Ok None => (forall r, r ∈ jw_jobs w -> available (jw_now w) r = false) /\ jw_jobs w' = jw_jobs w
  | _ => exists row, row ∈ jw_jobs w /\ available (jw_now w) row = true /\
      (forall r, r ∈ jw_jobs w -> available (jw_now w) r = true -> before row r = true) /\
      start_row worker (jw_now w) row ∈ jw_jobs w' /\
      match answer with Ok (Some job) => job_id job = jr_id row | _ => job_try_from payload_of_json (start_row worker (jw_now w) row) = Err JobSerialization end
  end.
Proof.
  intros Hscan Hf. unfold dequeue. bind_step. unfold job_query, remote. simpl. rewrite Hf. simpl.
  unfold claim_next. simpl.
  pose proof (sort_by_perm before (List.filter (available (jw_now w)) (scan (jw_scans w) (jw_jobs w)))) as Hperm.
  pose proof (sort_by_ordered before before_total before_trans
                (List.filter (available (jw_now w)) (scan (jw_scans w) (jw_jobs w)))) as Hord.
  assert (Hall : forall r, r ∈ jw_jobs w -> available (jw_now w) r = true ->
            r ∈ List.filter (available (jw_now w)) (scan (jw_scans w) (jw_jobs w))).
  { intros r Hr Ha. apply list_elem_of_In, List.filter_In. split; [| done]. apply list_elem_of_In. by rewrite Hscan. }
  destruct (sort_by before _) as [| row l].
  - simpl. split; [| done]. intros r Hr. destruct (available (jw_now w) r) eqn:Ha; [| done].
    specialize (Hall r Hr Ha). rewrite <- Hperm in Hall. by apply not_elem_of_nil in Hall.
  - assert (row ∈ jw_jobs w /\ available (jw_now w) row = true) as [Hin Ha].
    { assert (row ∈ List.filter (available (jw_now w)) (scan (jw_scans w) (jw_jobs w))) as H by (rewrite <- Hperm; left).
      apply list_elem_of_In, List.filter_In in H as [H ?]. apply list_elem_of_In in H. by rewrite Hscan in H. }
    assert (Hbest : forall r, r ∈ jw_jobs w -> available (jw_now w) r = true -> before row r = true).
    { intros r Hr Har. specialize (Hall r Hr Har). rewrite <- Hperm in Hall. destruct Hord as [Hmin _].
      apply elem_of_cons in Hall as [-> | Hl]; [| by apply Hmin].
      destruct (before row row) eqn:E; [done |]. by rewrite (before_total _ _ E) in E. }
    assert (Hrow : start_row worker (jw_now w) row ∈
              update (jr_id row) (start_row worker (jw_now w)) (jw_jobs w)).
    { apply list_elem_of_fmap. exists row. by rewrite String.eqb_refl. }
    cbn [fst snd]. destruct (job_try_from payload_of_json (start_row worker (jw_now w) row)) as [job | e] eqn:Hjob.
    + bind_step. unfold lift. cbn beta iota. exists row. split_and!; try done.
      unfold job_try_from in Hjob. case_all; try done. by injection Hjob as <-.
    + bind_step. unfold lift. cbn beta iota. exists row. split_and!; try done.
      rewrite Hjob. unfold job_try_from in Hjob. case_all; congruence.
Qed.

(** ** One job and one worker, for the witnesses *)

Definition in_place (n : nat) (l : list (JobRow JobPayload)) : list (JobRow JobPayload) := l.
Definition always_verified (hash : string) (w : JobWorld JobPayload) : result bool string := Ok true.

Definition empty_jobs : JobWorld JobPayload :=
  {| jw_jobs := []; jw_tips := []; jw_now := 0; jw_uuids := 0; jw_scans := 0; jw_faults := [] |}.

Definition one_job : JobWorld JobPayload :=
  snd (enqueue Some tally VerifyTransaction (PVerifyTransaction "t1" "h1" "GALICE") 0 3 empty_jobs).

Definition claimed_job : JobWorld JobPayload := snd (dequeue Some in_place "worker-0" one_job).

Definition job_step := step Some Some tally in_place always_verified.

Definition held_system : System :=
  {| sy_world := claimed_job; sy_held := [""]; sy_started := [("", 3)] |}.

Lemma held_reachable : rtc job_step (system_start empty_jobs) held_system.
Proof.
  eapply rtc_l; [apply (StepEnqueue _ _ _ _ _ VerifyTransaction (PVerifyTransaction "t1" "h1" "GALICE") 0 3) |].
  apply rtc_once.
  destruct (dequeue Some in_place "worker-0" one_job) as [r w'] eqn:Hd.
  assert (w' = claimed_job) as -> by (unfold claimed_job; by rewrite Hd).
  apply (f_equal fst) in Hd as Hr. simpl in Hr. vm_compute in Hr. subst r.
  exact (StepClaim _ _ _ _ _ "worker-0" _ one_job claimed_job [] [] Hd).
Qed.

Lemma job_attempts_bounded_witness :
  NoDup (sy_held held_system) /\ runs "" (sy_started held_system) <= 3.
Proof.
  destruct (job_attempts_bounded Some Some tally in_place always_verified empty_jobs held_system
              (fun _ l => reflexivity l) tally_inj eq_refl held_reachable) as (Hnd & _ & Hruns).
  split; [exact Hnd | apply (Hruns "" 3); left].
Defined.

(** The worker dies. *)
Definition lost_system : System := {| sy_world := claimed_job; sy_held := []; sy_started := [("", 3)] |}.

Lemma lost_reachable : rtc job_step (system_start empty_jobs) lost_system.
Proof.
  eapply rtc_r; [exact held_reachable |]. apply (StepDrop _ _ _ _ _ "" claimed_job [] []).
Qed.

Lemma later_reachable faults :
  rtc job_step lost_system
    {| sy_world := {| jw_jobs := jw_jobs claimed_job; jw_tips := jw_tips claimed_job;
                      jw_now := jw_now claimed_job + Z.max 0 86400000; jw_uuids := jw_uuids claimed_job;
                      jw_scans := jw_scans claimed_job; jw_faults := faults |};
       sy_held := []; sy_started := [("", 3)] |}.
Proof. apply rtc_once, StepPass. Qed.

Lemma orphaned_job_stays_witness :
  exists r, r ∈ jw_jobs claimed_job /\ jr_status r = "running" /\
            runs (jr_id r) (sy_started lost_system) = 1.
Proof.
  destruct (jw_jobs claimed_job) as [| r l] eqn:Hj; [vm_compute in Hj; discriminate |].
  assert (Hr : r ∈ jw_jobs (sy_world lost_system)) by (change (r ∈ jw_jobs claimed_job); rewrite Hj; left).
  assert (jr_status r = "running" /\ jr_id r = "") as [Hs Hid].
  { vm_compute in Hj. injection Hj as <- <-. split; reflexivity. }
  destruct (orphaned_job_stays Some Some tally in_place always_verified empty_jobs lost_system _ r
              (fun _ l => reflexivity l) tally_inj eq_refl lost_reachable Hr Hs (not_elem_of_nil _)
              (later_reachable [])) as [Hstays _].
  exists r. split; [left | split; [exact Hs | rewrite Hid; vm_compute; reflexivity]].
Defined.

Definition try_recv_model (senders waiting : nat) : TryRecv :=
  match waiting, senders with S _, _ => Received | O, O => RxClosed | O, S _ => RxEmpty end.

Lemma dropped_pool_stops_workers_witness :
  let '(registry, workers, senders) := start always_verified job_config_default in
  worker_run Some (fun _ => "") in_place try_recv_model 100 registry "worker-0" 1000 senders 0 one_job
    = (true, one_job).
Proof.
  pose proof (dropped_pool_stops_workers Some in_place (fun _ => "") always_verified try_recv_model
                job_config_default 99 one_job "worker-0" eq_refl) as H.
  apply H. left.
Defined.

Lemma dequeue_order_witness :
  match dequeue Some in_place "worker-0" one_job with
  | (Ok (Some job), w') => job_id job = "" /\ jr_status <$> jw_jobs w' = ["running"]
  | _ => False
  end.
Proof.
  pose proof (dequeue_order Some in_place "worker-0" one_job (fun _ l => reflexivity l) eq_refl) as H.
  destruct (dequeue Some in_place "worker-0" one_job) as [r w'] eqn:Hd.
  assert (fst (r, w') = fst (dequeue Some in_place "worker-0" one_job)) as Hr by (by rewrite Hd).
  assert (w' = snd (dequeue Some in_place "worker-0" one_job)) as -> by (by rewrite Hd).
  vm_compute in Hr. subst r. destruct H as (row & Hin & _ & _ & _ & ->).
  apply list_elem_of_singleton in Hin as ->. split; vm_compute; reflexivity.
Defined.
