(* ===== verification/Collab.v ===== *)
(** * Collaboration

    src/src/collaboration/: crdt.rs (operations, the document of a session, its
    log and its clocks), history.rs (the recorded operations) and presence.rs
    (who is in a document).

    A document is UTF-8 bytes and positions are byte offsets, as the sources use
    them; an offset inside a character makes [insert_str] and [drain] panic
    ([None]).  The locks of a session make a submission atomic.  The log of the
    recorded operations is a table reached through queries that may fail. *)

From S2P Require Import Prelude Text.

(** ** crdt.rs *)

(** src/src/collaboration/crdt.rs:15-19 OperationType *)
Inductive OperationType : Type := Insert | Delete | Update.

(** src/src/collaboration/crdt.rs:23-37 Operation *)
Record Operation : Type := {
  op_id : string;
  op_session_id : string;
  op_user_id : string;
  op_type : OperationType;
  op_position : Z;
  op_content : string;
  op_length : Z;
  op_clock : Z;
  op_timestamp : Z
}.

Definition byte_len (s : string) : Z := Z.of_nat (String.length s).

Definition with_position (p : Z) (op : Operation) : Operation :=
  {| op_id := op_id op; op_session_id := op_session_id op; op_user_id := op_user_id op;
     op_type := op_type op; op_position := p; op_content := op_content op; op_length := op_length op;
     op_clock := op_clock op; op_timestamp := op_timestamp op |}.

Definition with_clock (c : Z) (op : Operation) : Operation :=
  {| op_id := op_id op; op_session_id := op_session_id op; op_user_id := op_user_id op;
     op_type := op_type op; op_position := op_position op; op_content := op_content op;
     op_length := op_length op; op_clock := c; op_timestamp := op_timestamp op |}.

(** src/src/collaboration/crdt.rs:42-74 Operation::transform_against *)
Definition transform_against (self other : Operation) : Operation :=
  if op_timestamp self <=? op_timestamp other then self
  else
    match op_type self, op_type other with
    | Insert, Insert | Delete, Insert =>
        if op_position other <=? op_position self
        then with_position (wrap_u64 (op_position self + byte_len (op_content other))) self else self
    | Insert, Delete | Delete, Delete =>
        if op_position other <? op_position self
        then with_position (u64_saturating_sub (op_position self) (op_length other)) self else self
    | _, _ => self
    end.

(** src/src/collaboration/crdt.rs:79-83 DocumentState *)
Record DocumentState : Type := {
  doc_content : string;
  doc_version : Z;
  doc_last_modified : Z
}.

(** src/src/collaboration/crdt.rs:85-93 DocumentState::default *)
Definition document_default (now : Z) : DocumentState :=
  {| doc_content := ""; doc_version := 0; doc_last_modified := now |}.

(** [str::is_char_boundary] *)
Definition is_char_boundary (s : string) (i : nat) : bool :=
  match String.get i s with
  | Some c => negb ((128 <=? byte c) && (byte c <? 192))
  | None => (i =? String.length s)%nat
  end.

Definition prefix (n : nat) (s : string) : string := String.substring 0 n s.
Definition suffix (n : nat) (s : string) : string := String.substring n (String.length s - n) s.

(** [String::insert_str]: panics off a character boundary. *)
Definition insert_str (s : string) (i : nat) (t : string) : option string :=
  if is_char_boundary s i then Some (prefix i s +:+ t +:+ suffix i s) else None.

(** [String::drain]: panics off a character boundary and when the range is
    reversed. *)
Definition drain (s : string) (i j : nat) : option string :=
  if (i <=? j)%nat && is_char_boundary s i && is_char_boundary s j
  then Some (prefix i s +:+ suffix j s) else None.

(** src/src/collaboration/crdt.rs:98-114 the new content *)
Definition apply_content (content : string) (op : Operation) : option string :=
  let start := Z.to_nat (Z.min (op_position op) (byte_len content)) in
  let end_ := Z.to_nat (Z.min (wrap_u64 (op_position op + op_length op)) (byte_len content)) in
  match op_type op with
  | Insert => insert_str content start (op_content op)
  | Delete => drain content start end_
  | Update => rest ← drain content start end_; insert_str rest start (op_content op)
  end.

(** src/src/collaboration/crdt.rs:97-117 DocumentState::apply; [None] when it
    panics *)
Definition apply (now : Z) (op : Operation) (d : DocumentState) : option DocumentState :=
  content ← apply_content (doc_content d) op;
  Some {| doc_content := content; doc_version := wrap_u64 (doc_version d + 1); doc_last_modified := now |}.

(** src/src/collaboration/crdt.rs:121-129 CollaborationSession *)
Record CollaborationSession : Type := {
  cs_session_id : string;
  cs_document_id : string;
  cs_document : DocumentState;
  cs_operations : list Operation;
  cs_clocks : gmap string Z
}.

(** src/src/collaboration/crdt.rs:132-140 CollaborationSession::new *)
Definition session_new (session_id document_id : string) (now : Z) : CollaborationSession :=
  {| cs_session_id := session_id; cs_document_id := document_id; cs_document := document_default now;
     cs_operations := []; cs_clocks := ∅ |}.

(** src/src/collaboration/crdt.rs:154-158 the operations submit transforms against *)
Definition concurrent (op : Operation) (o : Operation) : bool :=
  negb (String.eqb (op_user_id o) (op_user_id op)) && (op_timestamp op <? op_timestamp o).

(** src/src/collaboration/crdt.rs:143-176 CollaborationSession::submit; [None] when
    applying the operation panics, which leaves the clock advanced *)
Definition submit (now : Z) (op : Operation) (s : CollaborationSession)
    : option Operation * CollaborationSession :=
  let clock := wrap_u64 (default 0 (cs_clocks s !! op_user_id op) + 1) in
  let clocks := <[op_user_id op := clock]> (cs_clocks s) in
  let op := with_clock clock op in
  let others := List.filter (concurrent op) (cs_operations s) in
  let op := foldl transform_against op others in
  match apply now op (cs_document s) with
  | Some d =>
      (Some op, {| cs_session_id := cs_session_id s; cs_document_id := cs_document_id s; cs_document := d;
                   cs_operations := cs_operations s ++ [op]; cs_clocks := clocks |})
  | None =>
      (None, {| cs_session_id := cs_session_id s; cs_document_id := cs_document_id s;
                cs_document := cs_document s; cs_operations := cs_operations s; cs_clocks := clocks |})
  end.

(** src/src/collaboration/crdt.rs:182-185 CollaborationSession::operations_since *)
Definition operations_since (version : Z) (s : CollaborationSession) : list Operation :=
  drop (Z.to_nat version) (cs_operations s).

(** src/src/collaboration/crdt.rs:189-191 SessionRegistry *)
Definition SessionRegistry : Type := gmap string CollaborationSession.

(** src/src/collaboration/crdt.rs:200-211 SessionRegistry::get_or_create *)
Definition get_or_create (session_id document_id : string) (now : Z) (r : SessionRegistry)
    : CollaborationSession * SessionRegistry :=
  match r !! document_id with
  | Some s => (s, r)
  | None => let s := session_new session_id document_id now in (s, <[document_id := s]> r)
  end.

(** src/src/collaboration/crdt.rs:213-215 SessionRegistry::get *)
Definition get (document_id : string) (r : SessionRegistry) : option CollaborationSession := r !! document_id.

(** ** history.rs *)

(** src/src/collaboration/history.rs:10-20 HistoryEntry *)
Record HistoryEntry : Type := {
  he_id : string;
  he_document_id : string;
  he_user_id : string;
  he_op_type : string;
  he_position : Z;
  he_content : string;
  he_length : Z;
  he_clock : Z;
  he_created_at : Z
}.

Record HistoryWorld : Type := {
  hw_entries : list HistoryEntry;
  hw_faults : list fault
}.

#[export] Instance history_world_networked : Networked HistoryWorld := {
  next_fault w :=
    let '(f, l) := pop_fault (hw_faults w) in (f, {| hw_entries := hw_entries w; hw_faults := l |})
}.

(** The error of a query. *)
Inductive history_error : Type := HistoryUnavailable | HistoryDuplicate.

Definition History : Type -> Type := M HistoryWorld history_error.

Definition op_type_str (t : OperationType) : string :=
  match t with Insert => "insert" | Delete => "delete" | Update => "update" end.

(** src/src/collaboration/history.rs:32-48 the row of an operation *)
Definition history_entry (op : Operation) : HistoryEntry :=
  {| he_id := op_id op; he_document_id := op_session_id op; he_user_id := op_user_id op;
     he_op_type := op_type_str (op_type op); he_position := wrap_i64 (op_position op);
     he_content := op_content op; he_length := wrap_i64 (op_length op); he_clock := wrap_i64 (op_clock op);
     he_created_at := op_timestamp op |}.

(** src/src/collaboration/history.rs:31-52 CollaborationHistory::record; the id is
    the primary key *)
Definition record (op : Operation) : History unit :=
  r ← remote HistoryUnavailable (fun w =>
    if existsb (fun e => String.eqb (he_id e) (op_id op)) (hw_entries w) then (Err HistoryDuplicate, w)
    else (Ok tt, {| hw_entries := hw_entries w ++ [history_entry op]; hw_faults := hw_faults w |}));
  lift r.

(** src/src/collaboration/history.rs:54-74 CollaborationHistory::list *)
Definition list_history (document_id : string) (since : option Z) (limit : Z) : History (list HistoryEntry) :=
  remote HistoryUnavailable (fun w =>
    (take (Z.to_nat limit)
       (sort_by (fun e1 e2 => he_clock e1 <=? he_clock e2)
          (List.filter (fun e => String.eqb (he_document_id e) document_id &&
                                 (default 0 since <=? he_created_at e)) (hw_entries w))), w)).

(** ** presence.rs *)

(** src/src/collaboration/presence.rs:11-11 PRESENCE_TTL_SECS *)
Definition PRESENCE_TTL_SECS : Z := 30.

(** src/src/collaboration/presence.rs:14-22 UserPresence *)
Record UserPresence : Type := {
  up_user_id : string;
  up_username : string;
  up_document_id : string;
  up_cursor_position : option Z;
  up_last_seen : Z;
  up_is_active : bool
}.

(** src/src/collaboration/presence.rs:25-30 UserPresence::is_stale, in
    milliseconds *)
Definition is_stale (now : Z) (p : UserPresence) : bool :=
  PRESENCE_TTL_SECS <? Z.quot (now - up_last_seen p) 1000.

(** The users of each document. *)
Abbreviation PresenceManager := (gmap string (gmap string UserPresence)).

(** src/src/collaboration/presence.rs:56-76 PresenceManager::heartbeat *)
Definition heartbeat (now : Z) (document_id user_id username : string) (cursor_position : option Z)
    (m : PresenceManager) : PresenceManager :=
  let doc := default ∅ (m !! document_id) in
  <[document_id := <[user_id :=
     {| up_user_id := user_id; up_username := username; up_document_id := document_id;
        up_cursor_position := cursor_position; up_last_seen := now; up_is_active := true |}]> doc]> m.

(** src/src/collaboration/presence.rs:78-83 PresenceManager::leave *)
Definition leave (document_id user_id : string) (m : PresenceManager) : PresenceManager :=
  match m !! document_id with Some doc => <[document_id := delete user_id doc]> m | None => m end.

(** src/src/collaboration/presence.rs:85-91 PresenceManager::active_users, by user *)
Definition active_users (now : Z) (document_id : string) (m : PresenceManager) : gmap string UserPresence :=
  match m !! document_id with
  | Some doc => filter (fun '(_, p) => is_stale now p = false) doc
  | None => ∅
  end.

(** src/src/collaboration/presence.rs:93-99 PresenceManager::cleanup_stale *)
Definition cleanup_stale (now : Z) (m : PresenceManager) : PresenceManager :=
  filter (fun '(_, doc) => doc <> ∅)
    ((fun doc : gmap string UserPresence => filter (fun '(_, p) => is_stale now p = false) doc) <$> m).

(** ** Lemmas *)

Lemma transform_later self other :
  op_timestamp self < op_timestamp other -> transform_against self other = self.
Proof. intros H. unfold transform_against. by destruct (Z.leb_spec (op_timestamp self) (op_timestamp other)); [| lia]. Qed.

Lemma transform_concurrent op l : foldl transform_against op (List.filter (concurrent op) l) = op.
Proof.
  assert (forall l', (forall o, o ∈ l' -> op_timestamp op < op_timestamp o) -> foldl transform_against op l' = op) as H.
  { induction l' as [| o l' IH]; intros Hl; [done |]. simpl. rewrite transform_later by (apply Hl; left).
    apply IH. intros o' Ho. apply Hl. by right. }
  apply H. intros o [_ Hc]%list_elem_of_In%List.filter_In. unfold concurrent in Hc. zbool. done.
Qed.

(** The clock the next operation of a user gets. *)
Definition next_clock (op : Operation) (s : CollaborationSession) : Z :=
  wrap_u64 (default 0 (cs_clocks s !! op_user_id op) + 1).

Lemma submit_run now op s :
  let op' := with_clock (next_clock op s) op in
  match apply now op' (cs_document s) with
  | Some d => fst (submit now op s) = Some op' /\ cs_document (snd (submit now op s)) = d /\
              cs_operations (snd (submit now op s)) = cs_operations s ++ [op']
  | None => fst (submit now op s) = None /\ cs_document (snd (submit now op s)) = cs_document s /\
            cs_operations (snd (submit now op s)) = cs_operations s
  end.
Proof.
  unfold submit, next_clock. simpl. rewrite transform_concurrent. by destruct (apply now _ (cs_document s)).
Qed.

(** Applying a list of operations to a content. *)
Fixpoint replay (content : string) (ops : list Operation) : option string :=
  match ops with
  | [] => Some content
  | op :: ops' => content' ← apply_content content op; replay content' ops'
  end.

Lemma replay_app content ops1 ops2 :
  replay content (ops1 ++ ops2) = (replay content ops1 ≫= fun c => replay c ops2).
Proof. revert content. induction ops1 as [| op ops1 IH]; intros content; simpl; [done |]. destruct (apply_content content op); simpl; auto. Qed.

(** A history of submissions. *)
Fixpoint submissions (l : list (Z * Operation)) (s : CollaborationSession) : CollaborationSession :=
  match l with [] => s | (now, op) :: l' => submissions l' (snd (submit now op s)) end.

Lemma submit_replays now op s :
  replay "" (cs_operations s) = Some (doc_content (cs_document s)) ->
  doc_version (cs_document s) = wrap_u64 (Z.of_nat (length (cs_operations s))) ->
  let s' := snd (submit now op s) in
  replay "" (cs_operations s') = Some (doc_content (cs_document s')) /\
  doc_version (cs_document s') = wrap_u64 (Z.of_nat (length (cs_operations s'))).
Proof.
  intros Hr Hv. pose proof (submit_run now op s) as H. simpl in *. unfold apply in H.
  destruct (apply_content (doc_content (cs_document s)) (with_clock (next_clock op s) op)) as [c |] eqn:Hc; simpl in H.
  - destruct H as (_ & -> & ->). rewrite replay_app, Hr. simpl. rewrite Hc. split; [done |].
    rewrite Hv, length_app. simpl. unfold wrap_u64. rewrite Zplus_mod_idemp_l. f_equal. lia.
  - by destruct H as (_ & -> & ->).
Qed.

Lemma submissions_replay l s :
  replay "" (cs_operations s) = Some (doc_content (cs_document s)) ->
  doc_version (cs_document s) = wrap_u64 (Z.of_nat (length (cs_operations s))) ->
  replay "" (cs_operations (submissions l s)) = Some (doc_content (cs_document (submissions l s))) /\
  doc_version (cs_document (submissions l s)) = wrap_u64 (Z.of_nat (length (cs_operations (submissions l s)))).
Proof.
  revert s. induction l as [| [now op] l IH]; intros s Hr Hv; [done |]. simpl.
  destruct (submit_replays now op s Hr Hv) as [Hr1 Hv1]. by apply IH.
Qed.

(** ** Theorems *)

(** No operation is ever transformed: the concurrent operations [submit]
    looks at are those with a later timestamp, and [transform_against] ignores
    those.  An insertion made on an old version is applied at the offset its
    author saw, whatever the others inserted before it. *)
Theorem submit_never_transforms now op s :
  fst (submit now op s) = Some (with_clock (next_clock op s) op) \/ fst (submit now op s) = None.
Proof. pose proof (submit_run now op s) as H. simpl in H. destruct (apply _ _ _); destruct H; auto. Qed.

(** C18: The log of a session rebuilds its document, after any submissions: a
    client that has the content after the first [n] operations and applies
    [operations_since n] in order obtains the document of the server, and
    the version counts the operations.  (A submission that panics changes
    neither.) *)
Theorem document_replays_log session_id document_id now l n :
  let s := submissions l (session_new session_id document_id now) in
  (0 <= n <= Z.of_nat (length (cs_operations s))) ->
  exists content, replay "" (take (Z.to_nat n) (cs_operations s)) = Some content /\
    replay content (operations_since n s) = Some (doc_content (cs_document s)) /\
    doc_version (cs_document s) = wrap_u64 (Z.of_nat (length (cs_operations s))).
Proof.
  intros s Hn. destruct (submissions_replay l (session_new session_id document_id now) eq_refl eq_refl) as [Hr Hv].
  fold s in Hr, Hv. rewrite <- (take_drop (Z.to_nat n) (cs_operations s)), replay_app in Hr.
  destruct (replay "" (take (Z.to_nat n) (cs_operations s))) as [content |]; [| done].
  exists content. by split_and!.
Qed.

(** A session records its operations under its own id, which is not the
    document's: listing a document shows none of them. *)
Lemma history_lists_sessions op w w' document_id since limit :
  record op w = (Ok tt, w') -> hw_entries w = [] -> op_session_id op <> document_id ->
  forall r w'', list_history document_id since limit w' = (Ok r, w'') -> r = [].
Proof.
  intros Hrec Hempty Hne r w''. assert (hw_entries w' = [history_entry op]) as Hw.
  { revert Hrec. unfold record. bind_step. unfold remote. simpl. destruct (pop_fault (hw_faults w)) as [[] l]; simpl;
      rewrite Hempty; simpl; try done. by intros [= <-]. }
  unfold list_history, remote. simpl. rewrite Hw.
  destruct (pop_fault (hw_faults w')) as [[] l]; simpl; try done.
  assert (String.eqb (op_session_id op) document_id = false) as -> by by apply String.eqb_neq.
  intros [= <- _]. by destruct (Z.to_nat limit).
Qed.

Lemma stale_later now now' p : now <= now' -> is_stale now p = true -> is_stale now' p = true.
Proof.
  unfold is_stale. intros Hle H. zbool. apply Z.ltb_lt.
  pose proof (Z.quot_le_mono (now - up_last_seen p) (now' - up_last_seen p) 1000 ltac:(lia) ltac:(lia)). lia.
Qed.

(** The background clean-up is not visible: at no later time does it change who
    is active. *)
Lemma cleanup_invisible now now' document_id m :
  now <= now' -> active_users now' document_id (cleanup_stale now m) = active_users now' document_id m.
Proof.
  intros Hle. unfold active_users, cleanup_stale.
  assert (Hfilter : forall doc : gmap string UserPresence,
            filter (fun '(_, p) => is_stale now' p = false) (filter (fun '(_, p) => is_stale now p = false) doc) =
            filter (fun '(_, p) => is_stale now' p = false) doc).
  { intros doc. rewrite map_filter_filter. apply map_filter_ext. intros k p _.
    split; [tauto |]. intros Hs. split; [done |]. destruct (is_stale now p) eqn:E; [| done].
    by rewrite (stale_later now now' p Hle E) in Hs. }
  rewrite map_lookup_filter, lookup_fmap. destruct (m !! document_id) as [doc |]; simpl; [| done].
  case_guard as Hg; simpl; [apply Hfilter |]. symmetry. rewrite <- Hfilter.
  rewrite Hg. apply map_filter_empty.
Qed.

(** ** Two clients, for the witness *)

Definition insertion (id user : string) (position timestamp : Z) (content : string) : Operation :=
  {| op_id := id; op_session_id := "s1"; op_user_id := user; op_type := Insert; op_position := position;
     op_content := content; op_length := 0; op_clock := 0; op_timestamp := timestamp |}.

Lemma document_replays_log_witness :
  let s := submissions [(0, insertion "o1" "ann" 0 10 "hello"); (1, insertion "o2" "bob" 5 5 " world")]
             (session_new "s1" "d1" 0) in
  doc_content (cs_document s) = "hello world" /\
  exists content, replay "" (take 1 (cs_operations s)) = Some content /\
    replay content (operations_since 1 s) = Some (doc_content (cs_document s)).
Proof.
  split; [vm_compute; reflexivity |].
  destruct (document_replays_log "s1" "d1" 0
              [(0, insertion "o1" "ann" 0 10 "hello"); (1, insertion "o2" "bob" 5 5 " world")] 1)
    as (content & H1 & H2 & _).
  - vm_compute. split; discriminate.
  - exists content. split; [exact H1 | exact H2].
Defined.
