(* ===== verification/Events.v ===== *)
(** * Domain events, snapshots and the read model

    src/src/events/: the append-only table of events, the snapshots written every
    fifty events, and the replay of a creator from its snapshot;
    src/src/cqrs/projections.rs and src/src/cqrs/synchronizer.rs: the read model
    kept up to date from the sequence of events.

    A statement is atomic and may meet a fault.  A sequence number is taken by
    each INSERT and is lost with it when the row is not kept.  The JSON of an
    event and of a snapshot is uninterpreted: serde's derived functions are
    parameters with their round trip. *)

From S2P Require Import Prelude Text Codec Errors.
From Stdlib Require Import Sorted.

(** ** events/types.rs *)

(** src/src/events/types.rs:7-7 EVENT_VERSION *)
Definition EVENT_VERSION : Z := 1.

(** src/src/events/types.rs:10-31 Event *)
Inductive Event : Type :=
| CreatorRegistered (version : Z) (id username wallet_address : string) (timestamp : Z)
| TipReceived (version : Z) (id creator_id amount transaction_hash : string) (timestamp : Z).

#[export] Instance Event_eq_dec : EqDecision Event.
Proof. solve_decision. Defined.

(** src/src/events/types.rs:38-43 Event::event_type *)
Definition event_type (e : Event) : string :=
  match e with
  | CreatorRegistered _ _ _ _ _ => "creator_registered"
  | TipReceived _ _ _ _ _ _ => "tip_received"
  end.

(** src/src/events/types.rs:45-50 Event::version *)
Definition version (e : Event) : Z :=
  match e with
  | CreatorRegistered v _ _ _ _ => v
  | TipReceived v _ _ _ _ _ => v
  end.

(** src/src/events/types.rs:52-57 Event::aggregate_id *)
Definition aggregate_id (e : Event) : string :=
  match e with
  | CreatorRegistered _ i _ _ _ => i
  | TipReceived _ _ c _ _ _ => c
  end.

(** src/src/events/types.rs:59-64 Event::timestamp *)
Definition timestamp (e : Event) : Z :=
  match e with
  | CreatorRegistered _ _ _ _ t => t
  | TipReceived _ _ _ _ _ t => t
  end.

(** ** events/projections.rs *)

(** src/src/events/projections.rs:6-13 CreatorProjection *)
Record CreatorProjection : Type := {
  cp_id : option string;
  cp_username : string;
  cp_wallet_address : string;
  cp_tip_count : Z;
  cp_registered_at : option Z
}.

Definition projection_default : CreatorProjection :=
  {| cp_id := None; cp_username := ""; cp_wallet_address := ""; cp_tip_count := 0; cp_registered_at := None |}.

(** src/src/events/projections.rs:17-35 CreatorProjection::apply *)
Definition apply (p : CreatorProjection) (e : Event) : CreatorProjection :=
  match e with
  | CreatorRegistered _ i u a t =>
      {| cp_id := Some i; cp_username := u; cp_wallet_address := a; cp_tip_count := cp_tip_count p;
         cp_registered_at := Some t |}
  | TipReceived _ _ _ _ _ _ =>
      {| cp_id := cp_id p; cp_username := cp_username p; cp_wallet_address := cp_wallet_address p;
         cp_tip_count := wrap_u64 (cp_tip_count p + 1); cp_registered_at := cp_registered_at p |}
  end.

(** src/src/events/projections.rs:38-44 CreatorProjection::from_events *)
Definition from_events (l : list Event) : CreatorProjection := fold_left apply l projection_default.

(** ** The tables *)

Section events.
Context {J : Type}.
Variable event_to_json : Event -> J.
Variable event_from_json : J -> option Event.
Variable projection_to_json : CreatorProjection -> J.
Variable projection_from_json : J -> option CreatorProjection.

Record EventRow : Type := {
  er_sequence : Z;
  er_aggregate_id : string;
  er_event_type : string;
  er_event_data : J;
  er_version : Z
}.

Record SnapshotRow : Type := {
  sn_aggregate_id : string;
  sn_sequence : Z;
  sn_data : J
}.

(** src/src/cqrs/projections.rs:112-119 CreatorSummaryView *)
Record CreatorSummaryView : Type := {
  cv_id : string;
  cv_username : string;
  cv_wallet_address : string;
  cv_tip_count : Z;
  cv_registered_at : Z
}.

(** [ew_sequence] is the last value taken from the sequence of the table;
    [ew_read_model] the table creator_read_model by its primary key;
    [ew_last_sequence] the atomic of the synchronizer in this process. *)
Record EventWorld : Type := {
  ew_events : list EventRow;
  ew_sequence : Z;
  ew_snapshots : list SnapshotRow;
  ew_read_model : gmap string CreatorSummaryView;
  ew_last_sequence : Z;
  ew_faults : list fault
}.

Definition with_faults (l : list fault) (w : EventWorld) : EventWorld :=
  {| ew_events := ew_events w; ew_sequence := ew_sequence w; ew_snapshots := ew_snapshots w;
     ew_read_model := ew_read_model w; ew_last_sequence := ew_last_sequence w; ew_faults := l |}.

#[export] Instance EventWorld_networked : Networked EventWorld := {
  next_fault w :=
    let '(f, l) := pop_fault (ew_faults w) in
    (f, with_faults l w)
}.

Definition with_log (rows : list EventRow) (sequence : Z) (w : EventWorld) : EventWorld :=
  {| ew_events := rows; ew_sequence := sequence; ew_snapshots := ew_snapshots w;
     ew_read_model := ew_read_model w; ew_last_sequence := ew_last_sequence w; ew_faults := ew_faults w |}.

Definition with_snapshots (l : list SnapshotRow) (w : EventWorld) : EventWorld :=
  {| ew_events := ew_events w; ew_sequence := ew_sequence w; ew_snapshots := l;
     ew_read_model := ew_read_model w; ew_last_sequence := ew_last_sequence w; ew_faults := ew_faults w |}.

Definition with_read_model (m : gmap string CreatorSummaryView) (w : EventWorld) : EventWorld :=
  {| ew_events := ew_events w; ew_sequence := ew_sequence w; ew_snapshots := ew_snapshots w;
     ew_read_model := m; ew_last_sequence := ew_last_sequence w; ew_faults := ew_faults w |}.

Definition with_last_sequence (n : Z) (w : EventWorld) : EventWorld :=
  {| ew_events := ew_events w; ew_sequence := ew_sequence w; ew_snapshots := ew_snapshots w;
     ew_read_model := ew_read_model w; ew_last_sequence := n; ew_faults := ew_faults w |}.

Definition Store : Type -> Type := M EventWorld sqlx_error.

Definition store_query {A} (q : EventWorld -> result A sqlx_error * EventWorld) : Store A :=
  r ← remote SqlxOther q;
  lift r.

(** ** events/store.rs *)

(** src/src/events/store.rs:7-7 SNAPSHOT_THRESHOLD *)
Definition SNAPSHOT_THRESHOLD : Z := 50.

(** src/src/events/store.rs:22-32 the statement that inserts an event *)
Definition insert_event (e : Event) (w : EventWorld) : result Z sqlx_error * EventWorld :=
  if i64_max <=? ew_sequence w then (Err (SqlxDatabase (Some "2200H") None), w)
  else
    let seq := ew_sequence w + 1 in
    (Ok seq, with_log (ew_events w ++ [{| er_sequence := seq; er_aggregate_id := aggregate_id e;
                                          er_event_type := event_type e; er_event_data := event_to_json e;
                                          er_version := version e |}]) seq w).

Definition by_sequence (a b : EventRow) : bool := er_sequence a <=? er_sequence b.

(** A query of the table: the rows of a condition by sequence number; those
    that do not decode are dropped. *)
Definition decode_rows (rows : list EventRow) : list Event := omap (fun r => event_from_json (er_event_data r)) rows.

Definition select_events (p : EventRow -> bool) (w : EventWorld) : list Event :=
  decode_rows (sort_by by_sequence (List.filter p (ew_events w))).

(** src/src/events/store.rs:50-64 EventStore::load *)
Definition load (aggregate : string) : Store (list Event) :=
  store_query (fun w => (Ok (select_events (fun r => String.eqb (er_aggregate_id r) aggregate) w), w)).

(** src/src/events/store.rs:67-86 EventStore::load_from *)
Definition load_from (aggregate : string) (from_sequence : Z) : Store (list Event) :=
  store_query (fun w => (Ok (select_events (fun r => String.eqb (er_aggregate_id r) aggregate &&
                                                    (from_sequence <=? er_sequence r)) w), w)).

(** src/src/events/store.rs:89-108 EventStore::load_up_to *)
Definition load_up_to (aggregate : string) (up_to_sequence : Z) : Store (list Event) :=
  store_query (fun w => (Ok (select_events (fun r => String.eqb (er_aggregate_id r) aggregate &&
                                                    (er_sequence r <=? up_to_sequence)) w), w)).

(** src/src/events/store.rs:111-125 EventStore::replay_from *)
Definition replay_from (from_sequence : Z) : Store (list Event) :=
  store_query (fun w => (Ok (select_events (fun r => from_sequence <=? er_sequence r) w), w)).

(** src/src/events/store.rs:139-148 the statement that keeps a snapshot *)
Definition insert_snapshot (s : SnapshotRow) (w : EventWorld) : result unit sqlx_error * EventWorld :=
  if existsb (fun t => String.eqb (sn_aggregate_id t) (sn_aggregate_id s) && (sn_sequence t =? sn_sequence s))
       (ew_snapshots w)
  then (Ok tt, w) else (Ok tt, with_snapshots (ew_snapshots w ++ [s]) w).

(** src/src/events/store.rs:130-151 EventStore::write_snapshot *)
Definition write_snapshot (aggregate : string) (sequence : Z) : Store unit :=
  events ← load_up_to aggregate sequence;
  store_query (insert_snapshot {| sn_aggregate_id := aggregate; sn_sequence := sequence;
                                  sn_data := projection_to_json (from_events events) |}).

(** src/src/events/store.rs:155-170 EventStore::load_latest_snapshot *)
Definition load_latest_snapshot (aggregate : string) : Store (option (Z * CreatorProjection)) :=
  row ← store_query (fun w =>
    (Ok (head (sort_by (fun a b => sn_sequence b <=? sn_sequence a)
                 (List.filter (fun s => String.eqb (sn_aggregate_id s) aggregate) (ew_snapshots w)))), w));
  mret (s ← row; (fun p => (sn_sequence s, p)) <$> projection_from_json (sn_data s)).

Definition count_events (aggregate : string) (w : EventWorld) : Z :=
  Z.of_nat (length (List.filter (fun r => String.eqb (er_aggregate_id r) aggregate) (ew_events w))).

(** src/src/events/store.rs:20-47 EventStore::append *)
Definition append (e : Event) : Store Z :=
  seq ← store_query (insert_event e);
  count ← store_query (fun w => (Ok (count_events (aggregate_id e) w), w));
  (if count mod SNAPSHOT_THRESHOLD =? 0 then
     _ ← attempt (E := sqlx_error) (write_snapshot (aggregate_id e) seq); mret tt
   else mret tt);;
  mret seq.

(** ** events/replay.rs *)

(** src/src/events/replay.rs:15-31 Replayer::creator_state *)
Definition creator_state (creator_id : string) : Store CreatorProjection :=
  snapshot ← load_latest_snapshot creator_id;
  match snapshot with
  | Some (snap_seq, projection) =>
      delta ← load_from creator_id (snap_seq + 1);
      mret (fold_left apply delta projection)
  | None =>
      events ← load creator_id;
      mret (from_events events)
  end.

(** src/src/events/replay.rs:35-43 Replayer::creator_state_at *)
Definition creator_state_at (creator_id : string) (up_to_sequence : Z) : Store CreatorProjection :=
  events ← load_up_to creator_id up_to_sequence;
  mret (from_events events).

(** ** cqrs/projections.rs *)

Definition Sync : Type -> Type := M EventWorld AppError.

(** [?] on a result of sqlx. *)
Definition from_store {A} (m : Store A) : Sync A := map_err app_error_from_sqlx m.

(** src/src/cqrs/projections.rs:14-18 ProjectionSyncReport *)
Record ProjectionSyncReport : Type := {
  ps_from_sequence : Z;
  ps_to_sequence : Z;
  ps_processed_events : Z
}.

(** src/src/cqrs/projections.rs:35-45 the statement that adds a creator *)
Definition insert_creator (v : CreatorSummaryView) (m : gmap string CreatorSummaryView)
    : result (gmap string CreatorSummaryView) sqlx_error :=
  match m !! cv_id v with
  | Some _ => Ok m
  | None =>
      if existsb (fun kv => String.eqb (cv_username (snd kv)) (cv_username v)) (map_to_list m) then
        Err (SqlxDatabase (Some "23505") (Some "creator_read_model_username_key"))
      else Ok (<[cv_id v := v]> m)
  end.

Definition with_tip (v : CreatorSummaryView) : CreatorSummaryView :=
  {| cv_id := cv_id v; cv_username := cv_username v; cv_wallet_address := cv_wallet_address v;
     cv_tip_count := cv_tip_count v + 1; cv_registered_at := cv_registered_at v |}.

(** src/src/cqrs/projections.rs:49-54 the statement that counts a tip *)
Definition count_tip (creator_id : string) (m : gmap string CreatorSummaryView)
    : result (gmap string CreatorSummaryView) sqlx_error :=
  match m !! creator_id with
  | Some v =>
      if i64_max <=? cv_tip_count v then Err (SqlxDatabase (Some "22003") None)
      else Ok (<[creator_id := with_tip v]> m)
  | None => Ok m
  end.

(** The statement of an event on the read model. *)
Definition project (e : Event) (m : gmap string CreatorSummaryView)
    : result (gmap string CreatorSummaryView) sqlx_error :=
  match e with
  | CreatorRegistered _ i u a t =>
      insert_creator {| cv_id := i; cv_username := u; cv_wallet_address := a; cv_tip_count := 0;
                        cv_registered_at := t |} m
  | TipReceived _ _ c _ _ _ => count_tip c m
  end.

(** src/src/cqrs/projections.rs:26-58 CqrsProjection::sync_event *)
Definition sync_event (e : Event) : Sync unit :=
  from_store (store_query (fun w =>
    match project e (ew_read_model w) with
    | Ok m => (Ok tt, with_read_model m w)
    | Err err => (Err err, w)
    end)).

(** src/src/cqrs/projections.rs:61-70 CqrsProjection::rebuild *)
Definition rebuild : Sync unit :=
  from_store (store_query (fun w => (Ok tt, with_read_model ∅ w)));;
  events ← from_store (replay_from 0);
  forM events tt (fun _ e => sync_event e;; mret tt).

(** src/src/cqrs/projections.rs:74-93 CqrsProjection::sync_from_sequence *)
Definition sync_from_sequence (from_sequence : Z) : Sync ProjectionSyncReport :=
  events ← from_store (replay_from from_sequence);
  processed ← forM events 0 (fun n e => sync_event e;; mret (n + 1));
  let to_sequence := if processed =? 0 then from_sequence - 1 else from_sequence + processed - 1 in
  mret {| ps_from_sequence := from_sequence; ps_to_sequence := to_sequence; ps_processed_events := processed |}.

(** src/src/cqrs/projections.rs:96-109 CqrsProjection::get_creator_summary_by_username *)
Definition get_creator_summary_by_username (username : string) : Sync (option CreatorSummaryView) :=
  from_store (store_query (fun w =>
    (Ok (head (List.filter (fun v => String.eqb (cv_username v) username)
                 (map snd (map_to_list (ew_read_model w))))), w))).

(** ** cqrs/synchronizer.rs *)

(** src/src/cqrs/synchronizer.rs:29-37 CqrsSynchronizer::sync_once *)
Definition sync_once : Sync ProjectionSyncReport :=
  from ← gets ew_last_sequence;
  report ← sync_from_sequence (from + 1);
  (if 0 <? ps_to_sequence report then modify (with_last_sequence (ps_to_sequence report)) else mret tt);;
  mret report.

(** src/src/cqrs/synchronizer.rs:45-61 the loop of sync_with_retry, [remaining] attempts after this one *)
Fixpoint sync_attempts (remaining : nat) : Sync ProjectionSyncReport :=
  r ← attempt sync_once;
  match r with
  | Ok report => mret report
  | Err e => match remaining with O => throw e | S n => sync_attempts n end
  end.

(** src/src/cqrs/synchronizer.rs:40-62 CqrsSynchronizer::sync_with_retry *)
Definition sync_with_retry (max_attempts : nat) : Sync ProjectionSyncReport :=
  sync_attempts (max_attempts - 1).

(** src/src/cqrs/synchronizer.rs:18-23 CqrsSynchronizer::new: a restarted process *)
Definition synchronizer_new (w : EventWorld) : EventWorld := with_last_sequence 0 w.
End events.

#[global] Arguments EventWorld _ : clear implicits.

(** ** Histories *)

(** What happens to the store: events are appended, an INSERT takes a sequence
    number and fails, the read model is brought up to date, the process is
    started again, and the next calls meet faults. *)
Inductive store_op : Type :=
| OpAppend (e : Event)
| OpBurn
| OpSync (max_attempts : nat)
| OpRestart
| OpFaults (l : list fault).

Section histories.
Context {J : Type}.
Variable event_to_json : Event -> J.
Variable event_from_json : J -> option Event.
Variable projection_to_json : CreatorProjection -> J.
Variable projection_from_json : J -> option CreatorProjection.

Abbreviation append := (append event_to_json event_from_json projection_to_json).
Abbreviation write_snapshot := (write_snapshot event_from_json projection_to_json).
Abbreviation insert_event := (insert_event event_to_json).
Abbreviation load := (load event_from_json).
Abbreviation load_up_to := (load_up_to event_from_json).
Abbreviation load_from := (load_from event_from_json).
Abbreviation replay_from := (replay_from event_from_json).
Abbreviation select_events := (select_events event_from_json).
Abbreviation decode_rows := (decode_rows event_from_json).
Abbreviation load_latest_snapshot := (load_latest_snapshot projection_from_json).
Abbreviation creator_state := (creator_state event_from_json projection_from_json).
Abbreviation creator_state_at := (creator_state_at event_from_json).
Abbreviation sync_once := (sync_once event_from_json).
Abbreviation sync_attempts := (sync_attempts event_from_json).
Abbreviation sync_with_retry := (sync_with_retry event_from_json).
Abbreviation sync_from_sequence := (sync_from_sequence event_from_json).
Abbreviation rebuild := (rebuild event_from_json).
Abbreviation world := (EventWorld J).

Definition no_events : world :=
  {| ew_events := []; ew_sequence := 0; ew_snapshots := []; ew_read_model := ∅; ew_last_sequence := 0;
     ew_faults := [] |}.

Definition run_store_op (o : store_op) (w : world) : world :=
  match o with
  | OpAppend e => snd (append e w)
  | OpBurn => with_log (ew_events w) (if ew_sequence w <? i64_max then ew_sequence w + 1 else ew_sequence w) w
  | OpSync n => snd (sync_with_retry n w)
  | OpRestart => synchronizer_new w
  | OpFaults l => with_faults l w
  end.

Definition run_store (h : list store_op) (w : world) : world := fold_left (fun w o => run_store_op o w) h w.

(** The events whose append answered a sequence number, and all that were appended. *)
Fixpoint acknowledged (h : list store_op) (w : world) : list Event :=
  match h with
  | [] => []
  | o :: h' =>
      match o with
      | OpAppend e => if is_ok (fst (append e w)) then [e] else []
      | _ => []
      end ++ acknowledged h' (run_store_op o w)
  end.

Definition requested (h : list store_op) : list Event :=
  omap (fun o => match o with OpAppend e => Some e | _ => None end) h.

Definition of_creator (creator : string) (l : list Event) : list Event :=
  List.filter (fun e => String.eqb (aggregate_id e) creator) l.
Hypothesis event_law : forall e, event_from_json (event_to_json e) = Some e.
Hypothesis projection_law : forall p, projection_from_json (projection_to_json p) = Some p.

(** ** The log: the events in the table with their sequence numbers *)

Definition row_of (ne : Z * Event) : EventRow :=
  {| er_sequence := fst ne; er_aggregate_id := aggregate_id (snd ne); er_event_type := event_type (snd ne);
     er_event_data := event_to_json (snd ne); er_version := version (snd ne) |}.

Definition picked (p : Z * Event -> bool) (log : list (Z * Event)) : list Event := map snd (List.filter p log).

Definition of_creator_upto (creator : string) (n : Z) (ne : Z * Event) : bool :=
  String.eqb (aggregate_id (snd ne)) creator && (fst ne <=? n).

Record well_kept (log : list (Z * Event)) (w : world) : Prop := {
  wk_rows : ew_events w = map row_of log;
  wk_sorted : StronglySorted Z.lt (map fst log);
  wk_below : forall ne, ne ∈ log -> fst ne <= ew_sequence w;
  wk_snapshots : forall s, s ∈ ew_snapshots w ->
    sn_sequence s <= ew_sequence w /\
    projection_from_json (sn_data s) =
      Some (from_events (picked (of_creator_upto (sn_aggregate_id s) (sn_sequence s)) log))
}.

Lemma by_sequence_total (a b : EventRow (J := J)) : by_sequence a b = false -> by_sequence b a = true.
Proof. unfold by_sequence. intros. zbool. apply Z.leb_le. lia. Qed.

Lemma by_sequence_trans (a b c : EventRow (J := J)) :
  by_sequence a b = true -> by_sequence b c = true -> by_sequence a c = true.
Proof. unfold by_sequence. intros. zbool. apply Z.leb_le. lia. Qed.

Lemma rows_ordered log : StronglySorted Z.lt (map fst log) -> ordered by_sequence (map row_of log).
Proof.
  induction log as [| [n e] log IH]; simpl; [done |]. intros [Hl Hn]%StronglySorted_inv. split; [| by apply IH].
  intros r ([n' e'] & <- & Hin)%list_elem_of_In%in_map_iff. unfold by_sequence; simpl. apply Z.leb_le.
  rewrite List.Forall_forall in Hn. apply Z.lt_le_incl, Hn, in_map_iff. by exists (n', e').
Qed.

Lemma decode_log (p : EventRow -> bool) log :
  decode_rows (List.filter p (map row_of log)) = picked (fun ne => p (row_of ne)) log.
Proof.
  unfold decode_rows, picked. induction log as [| ne log IH]; simpl; [done |].
  destruct (p (row_of ne)); simpl; [| done]. rewrite event_law. by f_equal.
Qed.

(** A query reads the events of its condition in the order they were taken. *)
Lemma select_log p log w : well_kept log w -> select_events p w = picked (fun ne => p (row_of ne)) log.
Proof.
  intros Hw. unfold select_events. rewrite (wk_rows _ _ Hw).
  rewrite sort_by_filter by (apply by_sequence_total || apply by_sequence_trans).
  rewrite sort_by_id by (apply rows_ordered, (wk_sorted _ _ Hw)). apply decode_log.
Qed.

Lemma picked_all creator log :
  picked (fun ne => String.eqb (aggregate_id (snd ne)) creator) log = of_creator creator (map snd log).
Proof.
  unfold picked, of_creator. induction log as [| [n e] log IH]; simpl; [done |].
  destruct (String.eqb _ _); simpl; by rewrite IH.
Qed.

Definition upto (n : Z) (ne : Z * Event) : bool := fst ne <=? n.
Definition after (n : Z) (ne : Z * Event) : bool := n + 1 <=? fst ne.

Lemma picked_ext p q log : (forall ne, p ne = q ne) -> picked p log = picked q log.
Proof. intros H. unfold picked. f_equal. by apply List.filter_ext. Qed.

(** The events up to a sequence number come before those after it. *)
Lemma picked_split p n log :
  StronglySorted Z.lt (map fst log) ->
  picked (fun ne => p ne && upto n ne) log ++ picked (fun ne => p ne && after n ne) log = picked p log.
Proof.
  unfold picked, upto, after. induction log as [| [m e] log IH]; simpl; [done |].
  intros [Hl Hm]%StronglySorted_inv. specialize (IH Hl). destruct (p (m, e)) eqn:E; simpl; [| done].
  destruct (m <=? n) eqn:Hmn; zbool.
  - replace (n + 1 <=? m) with false by (symmetry; apply Z.leb_gt; lia). simpl. by rewrite IH.
  - replace (n + 1 <=? m) with true by (symmetry; apply Z.leb_le; lia). simpl.
    assert (List.filter (fun ne => p ne && (fst ne <=? n)) log = []) as Hnone.
    { rewrite (List.filter_ext_in _ (fun _ => false)).
      - clear. by induction log.
      - intros [m' e'] Hin. simpl. rewrite List.Forall_forall in Hm. specialize (Hm m' (in_map fst _ _ Hin)).
        replace (m' <=? n) with false by (symmetry; apply Z.leb_gt; lia). apply andb_false_r. }
    rewrite Hnone in IH |- *. simpl in *. by rewrite IH.
Qed.

Lemma creator_split creator n log :
  StronglySorted Z.lt (map fst log) ->
  picked (of_creator_upto creator n) log ++
  picked (fun ne => String.eqb (aggregate_id (snd ne)) creator && (n + 1 <=? fst ne)) log =
  of_creator creator (map snd log).
Proof. intros H. rewrite <- picked_all. by apply picked_split. Qed.

(** Only the tables of the store matter to [well_kept]. *)
Lemma well_kept_faults log l w : well_kept log w -> well_kept log (with_faults l w).
Proof. intros [Hr Hs Hb Hsn]. by split. Qed.

Lemma well_kept_next log w : well_kept log w -> well_kept log (snd (next_fault w)).
Proof. intros Hw. simpl. destruct (pop_fault (ew_faults w)). by apply well_kept_faults. Qed.

(** The same below a sequence number that was taken. *)
Definition kept_above (log : list (Z * Event)) (n : Z) (w : world) : Prop := well_kept log w /\ n <= ew_sequence w.

Lemma stable_query {A} log n (q : world -> result A sqlx_error * world) :
  (forall w, kept_above log n w -> kept_above log n (snd (q w))) -> stable (kept_above log n) (store_query q).
Proof.
  intros Hq. unfold store_query. apply stable_bind; [apply stable_remote; [| done] | auto with stable].
  intros w [Hw Hn]. split; [by apply well_kept_next |]. simpl. by destruct (pop_fault (ew_faults w)).
Qed.

Lemma keep_snapshot log n s w :
  kept_above log n w -> sn_sequence s = n ->
  projection_from_json (sn_data s) =
    Some (from_events (picked (of_creator_upto (sn_aggregate_id s) (sn_sequence s)) log)) ->
  kept_above log n (snd (insert_snapshot s w)).
Proof.
  intros [Hw Hn] <- Hd. unfold insert_snapshot. destruct (existsb _ _); [done |]. destruct Hw as [Hr Hso Hb Hsn].
  split; [split |]; simpl; try done. intros t [Ht | ->%list_elem_of_singleton]%elem_of_app; auto.
Qed.

(** A successful query reads the tables as they are. *)
Lemma read_ok {A} (f : world -> A) w a w' :
  store_query (fun w => (Ok (f w), w)) w = (Ok a, w') -> exists l, w' = with_faults l w /\ a = f w'.
Proof.
  unfold store_query, remote. run_m. destruct (pop_fault (ew_faults w)) as [fl l].
  destruct fl; intros [= <- <-]; eauto.
Qed.

Lemma stable_write_snapshot log creator n : stable (kept_above log n) (write_snapshot creator n).
Proof.
  unfold write_snapshot.
  apply (stable_bind_value _ (fun l => l = picked (of_creator_upto creator n) log)).
  - by apply stable_query.
  - intros w l w' [Hw _] (fl & -> & ->)%read_ok. rewrite (select_log _ log); [done | by apply well_kept_faults].
  - intros l ->. apply stable_query. intros w Hw. apply keep_snapshot; simpl; auto.
Qed.

(** What follows the INSERT of an append. *)
Lemma stable_after_insert log creator seq :
  stable (kept_above log seq)
    (count ← store_query (fun w => (Ok (count_events creator w), w));
     (if count mod SNAPSHOT_THRESHOLD =? 0 then
        _ ← attempt (E := sqlx_error) (write_snapshot creator seq); mret tt
      else mret tt);;
     mret seq).
Proof.
  apply stable_bind; [by apply stable_query |]. intros count. apply stable_bind; [| auto with stable].
  destruct (_ =? 0); auto using stable_write_snapshot with stable.
Qed.

Lemma well_kept_insert log e w r w' :
  well_kept log w -> insert_event e w = (r, w') ->
  (r = Err (SqlxDatabase (Some "2200H") None) /\ w' = w) \/
  (r = Ok (ew_sequence w + 1) /\ kept_above (log ++ [(ew_sequence w + 1, e)]) (ew_sequence w + 1) w').
Proof.
  intros [Hr Hs Hb Hsn]. unfold insert_event. destruct (_ <=? _); intros [= <- <-]; [by left | right].
  split; [done |]. split; [split | done]; simpl.
  - by rewrite Hr, map_app.
  - rewrite map_app. simpl. clear Hr Hsn. induction log as [| [n x] log IH]; simpl; [by repeat constructor |].
    simpl in Hs. apply StronglySorted_inv in Hs as [Hl Hn]. constructor.
    + apply IH; [done |]. intros ne Hne. apply Hb. by right.
    + rewrite Forall_app. split; [done |]. repeat constructor. specialize (Hb (n, x) (list_elem_of_here _ _)). simpl in Hb. lia.
  - intros ne [Hne | ->%list_elem_of_singleton]%elem_of_app; simpl; [specialize (Hb ne Hne); lia | lia].
  - intros s Hin. destruct (Hsn s Hin) as [Hle Hd]. split; [lia |]. rewrite Hd. do 2 f_equal. unfold picked.
    rewrite List.filter_app. simpl. unfold of_creator_upto at 3. simpl.
    replace (ew_sequence w + 1 <=? sn_sequence s) with false by (symmetry; apply Z.leb_gt; lia).
    by rewrite andb_false_r, app_nil_r.
Qed.

(** The INSERT under a fault: it answers, fails, or is kept without an answer. *)
Lemma insert_run log e w :
  well_kept log w ->
  match store_query (insert_event e) w with
  | (Ok seq, w') => seq = ew_sequence w + 1 /\ kept_above (log ++ [(seq, e)]) seq w'
  | (Err _, w') => well_kept log w' \/ well_kept (log ++ [(ew_sequence w + 1, e)]) w'
  end.
Proof.
  intros Hw. unfold store_query, remote. run_m. destruct (pop_fault (ew_faults w)) as [f l].
  pose proof (well_kept_faults log l w Hw) as Hw1. destruct (insert_event e (with_faults l w)) as [r w2] eqn:Hi.
  destruct (well_kept_insert _ _ _ _ _ Hw1 Hi) as [[-> ->] | [-> Hk]]; destruct f; auto.
  right. apply Hk.
Qed.

(** An append adds its event or nothing, and adds it when it answers. *)
Lemma append_step log e w :
  well_kept log w ->
  let '(r, w') := append e w in
  (well_kept log w' /\ is_ok r = false) \/ well_kept (log ++ [(ew_sequence w + 1, e)]) w'.
Proof.
  intros Hw. pose proof (insert_run log e w Hw) as Hi. unfold append. unfold mbind at 1, M_bind at 1.
  destruct (store_query (insert_event e) w) as [[seq | err] w1]; [| naive_solver].
  destruct Hi as [-> Hi]. pose proof (stable_after_insert _ (aggregate_id e) _ _ Hi) as Ha.
  match goal with |- let '(_, _) := ?m in _ => destruct m as [r w2] eqn:E end.
  right. apply Ha.
Qed.

Lemma well_kept_same log w w' :
  ew_events w' = ew_events w -> ew_snapshots w' = ew_snapshots w -> ew_sequence w <= ew_sequence w' ->
  well_kept log w -> well_kept log w'.
Proof.
  intros He Hsn Hle [Hr Hs Hb Hp]. split; rewrite ?He, ?Hsn; try done.
  - intros ne Hne. specialize (Hb ne Hne). lia.
  - intros s Hin. destruct (Hp s Hin). split; [lia | done].
Qed.
Lemma stable_attempts (I : world -> Prop) n : stable I sync_once -> stable I (sync_with_retry n).
Proof.
  intros Honce. unfold sync_with_retry. generalize (n - 1)%nat as k. intros k.
  induction k as [| k IH]; simpl; (apply stable_bind; [by apply stable_attempt |]); intros [r | e]; auto with stable.
Qed.

Lemma stable_sync_query {A} log (q : world -> result A sqlx_error * world) :
  (forall w, ew_events (snd (q w)) = ew_events w /\ ew_snapshots (snd (q w)) = ew_snapshots w /\
             ew_sequence (snd (q w)) = ew_sequence w) ->
  stable (well_kept log) (from_store (store_query q)).
Proof.
  intros Hq. apply stable_map_err, stable_bind; [| auto with stable].
  apply stable_remote; [apply well_kept_next |]. intros w Hw. destruct (Hq w) as (He & Hs & Hn).
  eapply well_kept_same; eauto. lia.
Qed.

Lemma stable_sync log n : stable (well_kept log) (sync_with_retry n).
Proof.
  assert (stable (well_kept log) sync_once) as Honce.
  { apply stable_bind; [apply stable_gets |]. intros from. apply stable_bind.
    - apply stable_bind; [by apply stable_sync_query |]. intros events. apply stable_bind; [| auto with stable].
      apply stable_forM. intros k e. apply stable_bind; [| auto with stable]. apply stable_sync_query.
      intros w. by destruct (project e (ew_read_model w)).
    - intros report. apply stable_bind; [| auto with stable]. destruct (0 <? _); [| auto with stable].
      apply stable_modify. intros w. by apply well_kept_same. }
  by apply stable_attempts.
Qed.

Lemma store_op_log o log w :
  well_kept log w ->
  exists new, well_kept (log ++ new) (run_store_op o w) /\
    acknowledged [o] w `sublist_of` map snd new /\ map snd new `sublist_of` requested [o].
Proof.
  intros Hw. destruct o as [e | | n | | l]; simpl; cycle 1.
  1-4: exists []; rewrite app_nil_r; split; [| done].
  - apply (well_kept_same _ w); simpl; [done.. | | done]. case_match; lia.
  - by apply stable_sync.
  - by apply (well_kept_same _ w).
  - by apply well_kept_faults.
  - pose proof (append_step log e w Hw) as Ha. destruct (append e w) as [r w']. simpl.
    destruct Ha as [[Hw' ->] | Hw'].
    + exists []. rewrite app_nil_r. split; [done |]. split; [done | apply sublist_nil_l].
    + exists [(ew_sequence w + 1, e)]. split; [done |]. split; [| done]. destruct (is_ok r); [done | apply sublist_nil_l].
Qed.

(** Along a history the table keeps what it had, takes every event whose append
    answered, and takes nothing that was not appended. *)
Lemma run_store_log h : forall log w,
  well_kept log w ->
  exists new, well_kept (log ++ new) (run_store h w) /\
    acknowledged h w `sublist_of` map snd new /\ map snd new `sublist_of` requested h.
Proof.
  induction h as [| o h IH]; intros log w Hw; [exists []; by rewrite app_nil_r |].
  destruct (store_op_log o log w Hw) as (one & Hone & Ha1 & Hr1).
  destruct (IH _ _ Hone) as (new & Hnew & Ha2 & Hr2). exists (one ++ new). rewrite app_assoc. split; [done |].
  rewrite map_app. simpl in Ha1. rewrite app_nil_r in Ha1. split; [by apply sublist_app |].
  unfold requested in *. simpl in *. destruct o; simpl in *; by apply (sublist_app _ _ _ _ Hr1).
Qed.

(** ** Replay *)

Lemma latest_snapshot log creator w :
  well_kept log w -> ew_faults w = [] ->
  exists o, load_latest_snapshot creator w = (Ok o, with_faults [] w) /\
    (o = None \/ exists n, o = Some (n, from_events (picked (of_creator_upto creator n) log))).
Proof.
  intros Hw Hf. unfold load_latest_snapshot, store_query, remote. run_m. rewrite Hf. simpl.
  eexists. split; [done |]. destruct (head _) as [s |] eqn:E; simpl; [right | by left].
  apply head_Some_elem_of in E. rewrite sort_by_perm in E. apply list_elem_of_In, filter_In in E as [Hin Heq].
  apply list_elem_of_In in Hin. apply String.eqb_eq in Heq. destruct (wk_snapshots _ _ Hw s Hin) as [_ Hd].
  rewrite Hd. simpl. exists (sn_sequence s). by rewrite Heq.
Qed.

Lemma select_run p log w :
  well_kept log w -> ew_faults w = [] ->
  store_query (fun w => (Ok (select_events p w), w)) w = (Ok (picked (fun ne => p (row_of ne)) log), with_faults [] w).
Proof.
  intros Hw Hf. unfold store_query, remote. run_m. rewrite Hf. simpl. rewrite (select_log p log); [done |].
  by apply well_kept_faults.
Qed.

Lemma replay_log log creator w :
  well_kept log w -> ew_faults w = [] ->
  fst (creator_state creator w) = Ok (from_events (of_creator creator (map snd log))).
Proof.
  intros Hw Hf. destruct (latest_snapshot log creator w Hw Hf) as (o & Hl & Ho). unfold creator_state.
  rewrite (bind_run _ _ _ _ _ Hl). pose proof (well_kept_faults log [] w Hw) as Hw'.
  destruct Ho as [-> | [n ->]]; cbn beta iota.
  - unfold load. rewrite (bind_run _ _ _ _ _ (select_run _ log _ Hw' eq_refl)). simpl. by rewrite <- picked_all.
  - unfold load_from. rewrite (bind_run _ _ _ _ _ (select_run _ log _ Hw' eq_refl)). simpl.
    rewrite <- (creator_split creator n log) by apply (wk_sorted _ _ Hw). unfold from_events. by rewrite fold_left_app.
Qed.

Lemma time_travel log creator n w :
  well_kept log w -> ew_faults w = [] ->
  exists k, fst (creator_state_at creator n w) = Ok (from_events (take k (of_creator creator (map snd log)))).
Proof.
  intros Hw Hf. unfold creator_state_at, load_up_to. rewrite (bind_run _ _ _ _ _ (select_run _ log _ Hw Hf)). simpl.
  exists (length (picked (of_creator_upto creator n) log)).
  rewrite <- (creator_split creator n log) by apply (wk_sorted _ _ Hw). by rewrite take_app_length.
Qed.

Lemma well_kept_empty : well_kept [] no_events.
Proof.
  split; simpl; [done | constructor | |]; intros ? ?%elem_of_nil; done.
Qed.

(** C27: in every history of appends, lost sequence numbers, synchronizations,
    restarts and faults the table is a log: it holds every event whose append
    answered, and no event that was not appended, in the order of the appends.
    Reading a creator gives its events of the log; its state from the latest
    snapshot and the events after it is the state from all its events; and its
    state at a sequence number is that of the events up to a point of the log. *)
Theorem event_log_replays h l :
  let w := with_faults [] (run_store h (with_faults l no_events)) in
  exists log,
    acknowledged h (with_faults l no_events) `sublist_of` log /\ log `sublist_of` requested h /\
    forall creator,
      fst (load creator w) = Ok (of_creator creator log) /\
      fst (creator_state creator w) = Ok (from_events (of_creator creator log)) /\
      forall n, exists k, fst (creator_state_at creator n w) = Ok (from_events (take k (of_creator creator log))).
Proof.
  intros w. destruct (run_store_log h [] _ (well_kept_faults _ l _ well_kept_empty)) as (log & Hw & Ha & Hr).
  simpl in Hw. pose proof (well_kept_faults log [] _ Hw) as Hw'. exists (map snd log). split_and!; try done.
  intros creator. split_and!.
  - rewrite <- picked_all. unfold load. by rewrite (select_run _ log).
  - by apply replay_log.
  - intros n. by apply time_travel.
Qed.
(** ** The read model *)

(** The tips a creator is credited with once an event is seen: a registration
    starts the count, and tips count from then on. *)
Definition credit (creator : string) (o : option Z) (e : Event) : option Z :=
  match e with
  | CreatorRegistered _ i _ _ _ => if String.eqb i creator then Some (default 0 o) else o
  | TipReceived _ _ c _ _ _ => if String.eqb c creator then Z.succ <$> o else o
  end.

Definition credited (creator : string) (l : list Event) : option Z := fold_left (credit creator) l None.

Definition tips_shown (creator : string) (w : world) : option Z := cv_tip_count <$> ew_read_model w !! creator.

Lemma project_credit creator e m m' :
  project e m = Ok m' -> cv_tip_count <$> m' !! creator = credit creator (cv_tip_count <$> m !! creator) e.
Proof.
  destruct e as [v i u a t | v i c a h t]; simpl.
  - unfold insert_creator. simpl. destruct (m !! i) eqn:E; [intros [= <-] |
      destruct (existsb _ _); [done |]; intros [= <-]]; destruct (String.eqb_spec i creator) as [-> | Hn].
    + by rewrite E.
    + done.
    + by rewrite lookup_insert_eq, E.
    + by rewrite lookup_insert_ne.
  - unfold count_tip. destruct (m !! c) eqn:E; [destruct (_ <=? _); [done |]; intros [= <-] | intros [= <-]];
      destruct (String.eqb_spec c creator) as [-> | Hn].
    + by rewrite lookup_insert_eq, E.
    + by rewrite lookup_insert_ne.
    + by rewrite E.
    + done.
Qed.

(** At least as many tips. *)
Definition covers (o o' : option Z) : Prop := (is_Some o -> is_Some o') /\ default 0 o <= default 0 o'.

#[local] Instance covers_preorder : PreOrder covers.
Proof. split; [by intros o |]. intros a b c [H1 H2] [H3 H4]. split; [auto | lia]. Qed.

Lemma credit_mono creator e o o' : covers o o' -> covers (credit creator o e) (credit creator o' e).
Proof.
  intros [H1 H2]. destruct e; simpl; destruct (String.eqb _ _); try done; split; simpl; eauto.
  - intros [x Hx]. destruct o as [n |]; [| done]. destruct (H1 (mk_is_Some _ _ eq_refl)) as [n' ->]. by eexists.
  - destruct o as [n |], o' as [n' |]; simpl in *; try lia.
    destruct (H1 (mk_is_Some _ _ eq_refl)) as [? [=]].
Qed.

Lemma credit_grows creator e o : covers o (credit creator o e).
Proof. destruct e, o; simpl; destruct (String.eqb _ _); split; simpl; eauto; lia. Qed.

Lemma credits_mono creator l o o' : covers o o' -> covers (fold_left (credit creator) l o) (fold_left (credit creator) l o').
Proof. revert o o'. induction l as [| e l IH]; intros o o' H; simpl; [done |]. by apply IH, credit_mono. Qed.

Lemma credits_grow creator l o : covers o (fold_left (credit creator) l o).
Proof. revert o. induction l as [| e l IH]; intros o; simpl; [done |]. etrans; [apply credit_grows | apply IH]. Qed.

(** What a synchronization leaves of the tables. *)
Definition tables (w : world) : list EventRow * Z * list SnapshotRow := (ew_events w, ew_sequence w, ew_snapshots w).

Lemma sync_event_run e w :
  let '(r, w') := sync_event e w in
  tables w' = tables w /\ ew_last_sequence w' = ew_last_sequence w /\
  (ew_faults w = [] -> ew_faults w' = []) /\
  exists seen, (seen = [e] \/ (seen = [] /\ is_ok r = false)) /\
    forall creator, tips_shown creator w' = fold_left (credit creator) seen (tips_shown creator w).
Proof.
  unfold sync_event, from_store, store_query, remote. run_m. destruct (pop_fault (ew_faults w)) as [f l] eqn:Ef.
  assert (ew_faults w = [] -> l = []) as Hl by (intros E; rewrite E in Ef; by injection Ef as _ <-).
  simpl. destruct (project e (ew_read_model w)) as [m | err] eqn:E; destruct f; simpl; split_and!; auto;
    first [exists [e]; split; [by left |]; intros creator; by apply project_credit
          | exists []; split; [by right | done]].
Qed.

(** Applying a list of events: all of them, or those before a failure. *)
Lemma sync_loop_run {B} (g : B -> B) l : forall n w,
  let '(r, w') := forM l n (fun n e => sync_event e;; mret (g n)) w in
  tables w' = tables w /\ ew_last_sequence w' = ew_last_sequence w /\
  (ew_faults w = [] -> ew_faults w' = []) /\
  exists seen rest, l = seen ++ rest /\ (forall m, r = Ok m -> rest = [] /\ m = Nat.iter (length l) g n) /\
    forall creator, tips_shown creator w' = fold_left (credit creator) seen (tips_shown creator w).
Proof.
  induction l as [| e l IH]; intros n w.
  { simpl. split_and!; try done. exists [], []. split_and!; [done | | done]. by intros m [= <-]. }
  simpl forM. unfold mbind, M_bind, mret, M_ret. pose proof (sync_event_run e w) as He.
  destruct (sync_event e w) as [[u | err] w1]; destruct He as (Ht & Hl & Hf & seen & Hseen & Hc).
  - specialize (IH (g n) w1). destruct (forM l (g n) _ w1) as [r w']. destruct IH as (Ht' & Hl' & Hf' & s & rest & -> & Hr & Hc').
    rewrite Ht', Hl'. split_and!; auto. exists (e :: s), rest. split_and!; [done | |].
    + intros m Hm. destruct (Hr m Hm) as [-> ->]. split; [done |]. by rewrite <- Nat.iter_succ_r.
    + intros creator. rewrite Hc', Hc. destruct Hseen as [-> | [_ [=]]]. done.
  - split_and!; auto. exists seen. destruct Hseen as [-> | [-> _]]; [exists l | exists (e :: l)]; by split_and!.
Qed.

Lemma iter_count k n : Nat.iter k (fun n => n + 1) n = n + Z.of_nat k.
Proof. induction k as [| k IH]; simpl; lia. Qed.

(** A synchronization applies the events after the last sequence number, all or
    those before a failure, and then moves on by their number. *)
Lemma sync_once_run log w :
  well_kept log w ->
  let '(r, w') := sync_once w in
  tables w' = tables w /\ (ew_faults w = [] -> ew_faults w' = []) /\
  exists seen rest, picked (after (ew_last_sequence w)) log = seen ++ rest /\
    (forall creator, tips_shown creator w' = fold_left (credit creator) seen (tips_shown creator w)) /\
    ((is_ok r = false /\ ew_last_sequence w' = ew_last_sequence w) \/
     (rest = [] /\ (ew_last_sequence w' = ew_last_sequence w + Z.of_nat (length seen) \/
                    ew_last_sequence w' = ew_last_sequence w /\ ew_last_sequence w + Z.of_nat (length seen) <= 0))).
Proof.
  intros Hw. unfold sync_once, sync_from_sequence, replay_from, from_store, store_query, remote. run_m.
  destruct (pop_fault (ew_faults w)) as [f l] eqn:Ef.
  assert (ew_faults w = [] -> l = []) as Hl by (intros E; rewrite E in Ef; by injection Ef as _ <-).
  destruct f; simpl; [| by split_and!; auto; exists [], (picked (after (ew_last_sequence w)) log); split_and!; auto..].
  rewrite (select_log _ log) by by apply well_kept_faults. simpl. fold (after (ew_last_sequence w)).
  change (fun ne : Z * Event => ew_last_sequence w + 1 <=? fst ne) with (after (ew_last_sequence w)).
  set (pending := picked _ log). pose proof (sync_loop_run (fun n => n + 1) pending 0 (with_faults l w)) as Hloop.
  unfold mbind, M_bind in Hloop. destruct (forM pending 0 _ (with_faults l w)) as [[n | e] w1].
  - destruct Hloop as (Ht & Hla & Hf & seen & rest & Hp & Hn & Hc). destruct (Hn n eq_refl) as [-> ->].
    rewrite iter_count. rewrite app_nil_r in Hp. simpl in Hp, Hc, Hf.
    replace (if _ =? 0 then _ else _) with (ew_last_sequence w + Z.of_nat (length pending)) by (case_match; zbool; lia).
    destruct (0 <? _) eqn:Hpos; zbool; simpl; (split_and!; auto); exists pending, []; rewrite app_nil_r, Hp;
      (split_and!; [done | done | right; split; [done |]]); [by left | right; simpl in Hpos; rewrite Hp in Hpos; split; [done | lia]].
  - destruct Hloop as (Ht & Hla & Hf & seen & rest & Hp & _ & Hc). split_and!; auto. exists seen, rest. split_and!; auto.
Qed.

Lemma sorted_room l : forall a b,
  StronglySorted Z.lt l -> (forall n, n ∈ l -> a < n <= b) -> a <= b -> Z.of_nat (length l) <= b - a.
Proof.
  induction l as [| n l IH]; intros a b; simpl; [lia |]. intros [Hl Hn]%StronglySorted_inv Hb Hab.
  pose proof (Hb n (list_elem_of_here _ _)). rewrite List.Forall_forall in Hn.
  assert (Z.of_nat (length l) <= b - n); [| lia]. apply IH; [done | | lia].
  intros m Hm. specialize (Hn m (proj1 (list_elem_of_In _ _) Hm)). specialize (Hb m (list_elem_of_further _ _ _ Hm)). lia.
Qed.

Lemma pending_room n log w :
  well_kept log w -> n <= ew_sequence w -> n + Z.of_nat (length (picked (after n) log)) <= ew_sequence w.
Proof.
  intros Hw Hn. unfold picked. rewrite length_map, <- (length_map fst).
  enough (Z.of_nat (length (map fst (List.filter (after n) log))) <= ew_sequence w - n) by lia.
  apply sorted_room; [| | done].
  - pose proof (wk_sorted _ _ Hw) as Hs. clear Hw Hn. induction log as [| [m e] log IH]; simpl in *; [done |].
    apply StronglySorted_inv in Hs as [Hl Hm]. destruct (after n (m, e)); simpl; [| auto]. constructor; [auto |].
    rewrite List.Forall_forall in Hm |- *. intros k ([k' e'] & <- & [Hin _]%filter_In)%in_map_iff.
    by apply Hm, (in_map fst _ (k', e')).
  - intros m (ne & <- & [Hin Ha]%filter_In)%list_elem_of_In%in_map_iff. apply list_elem_of_In in Hin.
    pose proof (wk_below _ _ Hw ne Hin). unfold after in Ha. zbool. lia.
Qed.

(** The events up to a later sequence number: those up to the earlier one and
    some of those after it, in order. *)
Lemma upto_later n m log :
  StronglySorted Z.lt (map fst log) -> n <= m ->
  exists mid, picked (upto m) log = picked (upto n) log ++ mid /\
              picked (after n) log = mid ++ picked (after m) log.
Proof.
  intros Hs Hnm. exists (picked (fun ne => after n ne && upto m ne) log).
  rewrite <- (picked_split (upto m) n log Hs), <- (picked_split (after n) m log Hs). unfold upto, after.
  split; f_equal; apply picked_ext; intros ne;
    destruct (Z.leb_spec (fst ne) n), (Z.leb_spec (fst ne) m), (Z.leb_spec (n + 1) (fst ne)), (Z.leb_spec (m + 1) (fst ne));
    simpl; try done; lia.
Qed.

(** Every event up to the last sequence number is counted, at least once. *)
Record tracked (log : list (Z * Event)) (w : world) : Prop := {
  tr_kept : well_kept log w;
  tr_last : 0 <= ew_last_sequence w <= ew_sequence w;
  tr_counted : forall creator,
    covers (credited creator (picked (upto (ew_last_sequence w)) log)) (tips_shown creator w)
}.

Lemma stable_sync_once log : stable (tracked log) sync_once.
Proof.
  intros w [Hk Hl Hc]. pose proof (sync_once_run log w Hk) as Hrun. pose proof (pending_room _ _ _ Hk (proj2 Hl)) as Hroom.
  destruct (sync_once w) as [r w']. destruct Hrun as ([= Hev Hsq Hsn] & _ & seen & rest & Hp & Hseen & Hlast). simpl.
  assert (well_kept log w') as Hk' by (apply (well_kept_same _ w); auto; lia).
  assert (ew_last_sequence w <= ew_last_sequence w' <= ew_sequence w') as Hl'.
  { rewrite Hp, length_app in Hroom. destruct Hlast as [[_ ->] | [_ [-> | [-> _]]]]; lia. }
  split; [done | lia |]. intros creator. rewrite Hseen.
  destruct Hlast as [[_ ->] | [-> Hlast]]; [etrans; [apply Hc | apply credits_grow] |].
  destruct (upto_later _ _ log (wk_sorted _ _ Hk) (proj1 Hl')) as (mid & Hu & Ha).
  rewrite app_nil_r, Ha in Hp. rewrite Hu, <- Hp. unfold credited. rewrite !fold_left_app.
  etrans; [| apply credits_grow]. apply credits_mono, Hc.
Qed.
(** Appending changes the log and the snapshots only, and takes one sequence number. *)
Lemma append_frame e w :
  ew_read_model (snd (append e w)) = ew_read_model w /\
  ew_last_sequence (snd (append e w)) = ew_last_sequence w /\
  ew_sequence w <= ew_sequence (snd (append e w)) <= ew_sequence w + 1 /\
  (ew_faults w = [] -> ew_faults (snd (append e w)) = []).
Proof.
  set (I n := fun w' : world => ew_read_model w' = ew_read_model w /\ ew_last_sequence w' = ew_last_sequence w /\
                      ew_sequence w <= ew_sequence w' <= ew_sequence w + n /\ (ew_faults w = [] -> ew_faults w' = [])).
  assert (forall n w', I n w' -> I n (snd (next_fault w'))) as Hnext.
  { intros n w' (H1 & H2 & H3 & H4). simpl. destruct (ew_faults w') as [| f l] eqn:E; unfold I; simpl;
      (split_and!; auto; try lia); intros Hw; by specialize (H4 Hw). }
  assert (forall A (q : world -> result A sqlx_error * world), (forall w', I 1 w' -> I 1 (snd (q w'))) ->
            stable (I 1) (store_query q)) as Hq.
  { intros A q Hq. apply stable_bind; [| auto with stable]. by apply stable_remote; [apply Hnext |]. }
  assert (I 1 (snd (store_query (insert_event e) w))) as Hi.
  { assert (I 0 (snd (next_fault w))) as Hw by (apply Hnext; unfold I; split_and!; auto; lia).
    unfold store_query, remote. run_m. destruct (pop_fault (ew_faults w)) as [f l]. simpl in Hw. unfold insert_event. simpl.
    unfold I in *. destruct Hw as (H1 & H2 & H3 & H4). simpl in *. destruct f, (i64_max <=? ew_sequence w); simpl; split_and!; auto; lia. }
  change (I 1 (snd (append e w))). unfold append. unfold mbind at 1, M_bind at 1. destruct (store_query (insert_event e) w) as [[seq | err] w1]; [| exact Hi].
  apply (stable_bind (I 1)); [by apply Hq | | exact Hi]. intros count. apply stable_bind; [| auto with stable].
  destruct (_ =? 0); [| auto with stable]. apply stable_bind; [| auto with stable]. apply stable_attempt.
  apply stable_bind; [by apply Hq |]. intros events. apply Hq. intros w' Hw. unfold insert_snapshot.
  by destruct (existsb _ _).
Qed.

Lemma tracked_append log e w :
  tracked log w -> exists new, tracked (log ++ new) (snd (append e w)).
Proof.
  intros [Hk Hl Hc]. pose proof (append_step log e w Hk) as Hs. destruct (append_frame e w) as (Hr & Hla & Hsq & _).
  destruct (append e w) as [r w']. simpl in *.
  assert (forall new, picked (upto (ew_last_sequence w)) new = [] -> well_kept (log ++ new) w' -> tracked (log ++ new) w') as Hnew.
  { intros new Hn Hw'. split; [done | lia |]. intros creator. rewrite Hla. unfold tips_shown. rewrite Hr. unfold picked in *.
    rewrite List.filter_app, map_app, Hn, app_nil_r. apply Hc. }
  destruct Hs as [[Hw' _] | Hw']; [exists []; apply Hnew; by rewrite ?app_nil_r | eexists; apply Hnew; [| done]].
  unfold picked, upto. simpl. replace (ew_sequence w + 1 <=? ew_last_sequence w) with false; [done |].
  symmetry. apply Z.leb_gt. lia.
Qed.

Lemma tracked_op o log w : tracked log w -> exists new, tracked (log ++ new) (run_store_op o w).
Proof.
  intros Ht. destruct o as [e | | n | | l]; simpl; [by apply tracked_append | exists []; rewrite app_nil_r..].
  - destruct Ht as [Hk Hl Hc]. split; [| simpl; case_match; lia | done].
    apply (well_kept_same _ w); simpl; [done.. | | done]. case_match; lia.
  - by apply stable_attempts; [apply stable_sync_once |].
  - destruct Ht as [Hk Hl Hc]. split; [by apply (well_kept_same _ w) | simpl; lia |].
    intros creator. simpl. etrans; [| apply Hc].
    destruct (upto_later 0 _ log (wk_sorted _ _ Hk) (proj1 Hl)) as (mid & -> & _).
    unfold credited. rewrite fold_left_app. apply credits_grow.
  - destruct Ht as [Hk Hl Hc]. split; [by apply well_kept_faults | done | done].
Qed.

Lemma tracked_run h : forall log w, tracked log w -> exists new, tracked (log ++ new) (run_store h w).
Proof.
  induction h as [| o h IH]; intros log w Ht; [exists []; by rewrite app_nil_r |].
  destruct (tracked_op o log w Ht) as [new Hn]. destruct (IH _ _ Hn) as [new' Hn'].
  exists (new ++ new'). by rewrite app_assoc.
Qed.

(** in every history, with lost sequence numbers, failed or repeated
    synchronizations and restarts, the read model misses no event: a creator
    registered among the events up to the last sequence number is in it with at
    least the tips those events give. *)
Theorem read_model_at_least_once h l creator n :
  let w := run_store h (with_faults l no_events) in
  credited creator (select_events (fun r => er_sequence r <=? ew_last_sequence w) w) = Some n ->
  exists v, ew_read_model w !! creator = Some v /\ n <= cv_tip_count v.
Proof.
  intros w Hn. assert (tracked [] (with_faults l no_events)) as H0.
  { split; [apply well_kept_faults, well_kept_empty | simpl; lia |]. intros c. by unfold credited, tips_shown. }
  destruct (tracked_run h [] _ H0) as [log [Hk _ Hc]]. simpl in Hk, Hc. fold w in Hk, Hc.
  rewrite (select_log _ log) in Hn by done. destruct (Hc creator) as [H1 H2].
  change (picked _ log) with (picked (upto (ew_last_sequence w)) log) in Hn. rewrite Hn in H1, H2.
  destruct (H1 (mk_is_Some _ _ eq_refl)) as [m Hm]. rewrite Hm in H2. simpl in H2. unfold tips_shown in Hm.
  destruct (ew_read_model w !! creator) as [v |]; [| done]. injection Hm as Hm. exists v. split; [done | lia].
Qed.
(** ** When nothing goes wrong *)

(** Appends that answer and synchronizations that work, in any order. *)
Fixpoint smooth (h : list store_op) (w : world) : bool :=
  match h with
  | [] => true
  | o :: h' =>
      match o with
      | OpAppend e => is_ok (fst (append e w))
      | OpSync _ => is_ok (fst (sync_once w))
      | _ => false
      end && smooth h' (run_store_op o w)
  end.

Fixpoint numbered (n : Z) (l : list Event) : list (Z * Event) :=
  match l with
  | [] => []
  | e :: l' => (n, e) :: numbered (n + 1) l'
  end.

Lemma numbered_snd n l : map snd (numbered n l) = l.
Proof. revert n. induction l as [| e l IH]; intros n; simpl; [done | by rewrite IH]. Qed.

Lemma numbered_app n l e : numbered n (l ++ [e]) = numbered n l ++ [(n + Z.of_nat (length l), e)].
Proof.
  revert n. induction l as [| x l IH]; intros n; simpl; [by rewrite Z.add_0_r |]. rewrite IH. do 4 f_equal. lia.
Qed.

Lemma upto_after n log : StronglySorted Z.lt (map fst log) -> picked (upto n) log ++ picked (after n) log = map snd log.
Proof.
  intros Hs. etrans; [symmetry; etrans; [symmetry; apply (picked_split (fun _ => true) n log Hs) | done] |].
  unfold picked. f_equal. clear. induction log as [| ne log IH]; simpl; congruence.
Qed.

(** [l] was appended, and the read model counts its events up to the last sequence number. *)
Record exact (l : list Event) (w : world) : Prop := {
  ex_kept : well_kept (numbered 1 l) w;
  ex_calm : ew_faults w = [];
  ex_sequence : ew_sequence w = Z.of_nat (length l);
  ex_last : 0 <= ew_last_sequence w <= ew_sequence w;
  ex_counted : forall creator, tips_shown creator w = credited creator (picked (upto (ew_last_sequence w)) (numbered 1 l))
}.

Lemma length_upto k n l :
  Z.of_nat (length (picked (upto k) (numbered (n + 1) l))) = Z.min (Z.max 0 (k - n)) (Z.of_nat (length l)).
Proof.
  revert n. induction l as [| e l IH]; intros n; simpl; [lia |]. specialize (IH (n + 1)).
  unfold picked, upto in *. simpl. destruct (n + 1 <=? k) eqn:E; zbool; simpl; lia.
Qed.

Lemma exact_after l w :
  exact l w -> Z.of_nat (length (picked (after (ew_last_sequence w)) (numbered 1 l))) = Z.of_nat (length l) - ew_last_sequence w.
Proof.
  intros [Hk _ Hs Hl _]. pose proof (upto_after (ew_last_sequence w) _ (wk_sorted _ _ Hk)) as Ha.
  apply (f_equal (@length Event)) in Ha. rewrite length_app, numbered_snd in Ha.
  pose proof (length_upto (ew_last_sequence w) 0 l) as Hu. change (0 + 1) with 1 in Hu. lia.
Qed.

Lemma exact_append l e w :
  exact l w -> is_ok (fst (append e w)) = true -> exact (l ++ [e]) (snd (append e w)).
Proof.
  intros [Hk Hf Hs Hl Hc] Hok. pose proof (append_step _ e w Hk) as Ha.
  destruct (append_frame e w) as (Hr & Hla & Hsq & Hf').
  destruct (append e w) as [r w']. simpl in *. destruct Ha as [[_ Ha] | Ha]; [by rewrite Ha in Hok |].
  assert (ew_sequence w' = ew_sequence w + 1) as Hs'.
  { enough (ew_sequence w + 1 <= ew_sequence w') by lia. apply (wk_below _ _ Ha (ew_sequence w + 1, e)).
    apply elem_of_app. right. by apply list_elem_of_singleton. }
  rewrite Hs, Z.add_comm in Ha. split; [by rewrite numbered_app | auto | | lia |].
  - rewrite length_app. simpl. lia.
  - intros creator. rewrite Hla. unfold tips_shown. rewrite Hr, numbered_app. unfold picked, upto.
    rewrite List.filter_app. simpl. replace (1 + Z.of_nat (length l) <=? ew_last_sequence w) with false
      by (symmetry; apply Z.leb_gt; lia). rewrite app_nil_r. apply Hc.
Qed.

Lemma picked_numbered p l n :
  (forall m e, n <= m < n + Z.of_nat (length l) -> p (m, e) = true) -> picked p (numbered n l) = l.
Proof.
  unfold picked. revert n. induction l as [| e l IH]; intros n Hp; simpl; [done |].
  rewrite Hp by (simpl; lia). simpl. f_equal. apply IH. intros m x Hm. apply Hp. simpl. lia.
Qed.

Lemma upto_all l : picked (upto (Z.of_nat (length l))) (numbered 1 l) = l.
Proof. apply picked_numbered. intros m e Hm. unfold upto. simpl. apply Z.leb_le. lia. Qed.

Lemma exact_sync l w :
  exact l w -> is_ok (fst (sync_once w)) = true ->
  exact l (snd (sync_once w)) /\ ew_last_sequence (snd (sync_once w)) = Z.of_nat (length l).
Proof.
  intros Hx Hok. pose proof (exact_after l w Hx) as Hlen. destruct Hx as [Hk Hf Hs Hl Hc].
  pose proof (sync_once_run _ w Hk) as Hrun. destruct (sync_once w) as [r w']. simpl in *.
  destruct Hrun as ([= Hev Hsq Hsn] & Hf' & seen & rest & Hp & Hseen & Hlast).
  destruct Hlast as [[Hr _] | [-> Hlast]]; [by rewrite Hr in Hok |]. rewrite app_nil_r in Hp. rewrite Hp in Hlen.
  assert (ew_last_sequence w' = Z.of_nat (length l)) as Hl' by (destruct Hlast as [-> | [-> ?]]; lia).
  split; [| done]. split; [by apply (well_kept_same _ w); auto; lia | auto | lia | lia |].
  intros creator. rewrite Hseen, Hc, <- Hp, Hl'. unfold credited. rewrite <- fold_left_app, upto_after by apply (wk_sorted _ _ Hk).
  by rewrite numbered_snd, upto_all.
Qed.

Lemma exact_run h : forall l w, exact l w -> smooth h w = true -> exact (l ++ requested h) (run_store h w).
Proof.
  induction h as [| o h IH]; intros l w Hx; [by rewrite app_nil_r |]. intros [Hok Hs]%andb_true_iff.
  destruct o as [e | | n | |]; try done.
  - replace (l ++ requested (OpAppend e :: h)) with ((l ++ [e]) ++ requested h) by by rewrite <- app_assoc.
    apply IH; [by apply exact_append | done].
  - apply IH; [| done]. simpl. unfold sync_with_retry.
    assert (snd (sync_attempts (n - 1) w) = snd (sync_once w)) as ->.
    { destruct (n - 1)%nat; simpl; unfold attempt; run_m; destruct (sync_once w) as [[a | e] w']; done. }
    by apply exact_sync.
Qed.

(** The read model from scratch. *)
Lemma rebuild_exact l w :
  exact l w -> is_ok (fst (rebuild w)) = true -> forall creator, tips_shown creator (snd (rebuild w)) = credited creator l.
Proof.
  intros [Hk Hf Hs Hl Hc]. unfold rebuild, replay_from, from_store, store_query, remote. run_m. rewrite Hf. simpl.
  rewrite (select_log _ (numbered 1 l)) by by apply (well_kept_same _ w).
  match goal with |- context [forM ?p tt _ ?v] => pose proof (sync_loop_run (fun _ => tt) p tt v) as Hloop end.
  unfold mbind, M_bind in Hloop. destruct (forM _ tt _ _) as [[u | err] w1]; simpl; [| done]. intros _ creator.
  destruct Hloop as (_ & _ & _ & seen & rest & Hp & Hn & Ht). destruct (Hn u eq_refl) as [-> _].
  rewrite app_nil_r in Hp. rewrite Ht, <- Hp. unfold credited, tips_shown. simpl. f_equal.
  apply picked_numbered. intros m e Hm. simpl. apply Z.leb_le. lia.
Qed.

(** as long as every append answers and every synchronization works, a
    synchronization leaves a read model that counts exactly the tips of the
    events appended so far, those after the creator's registration, and so does
    a rebuild, which therefore changes no count. *)
Theorem read_model_exact h creator :
  smooth h no_events = true ->
  let w := run_store h no_events in
  (is_ok (fst (sync_once w)) = true -> tips_shown creator (snd (sync_once w)) = credited creator (requested h)) /\
  (is_ok (fst (rebuild w)) = true -> tips_shown creator (snd (rebuild w)) = credited creator (requested h)).
Proof.
  intros Hs w. assert (exact [] no_events) as H0 by (split; try done; [apply well_kept_empty]).
  pose proof (exact_run h [] _ H0 Hs) as Hx. simpl in Hx. fold w in Hx. split.
  - intros Hok. destruct (exact_sync _ _ Hx Hok) as [Hx' Hl]. rewrite (ex_counted _ _ Hx'), Hl. unfold credited. f_equal.
    by rewrite upto_all.
  - intros Hok. by apply (rebuild_exact (requested h)).
Qed.
End histories.

(** ** Examples *)

(** The JSON of the examples: the value itself. *)
Definition document : Type := Event + CreatorProjection.

Definition document_event (d : document) : option Event := match d with inl e => Some e | inr _ => None end.

Definition document_projection (d : document) : option CreatorProjection :=
  match d with inl _ => None | inr p => Some p end.

Definition demo_registration : Event := CreatorRegistered 1 "c1" "alice" "GALICE" 10.
Definition demo_tip (n : nat) : Event := TipReceived 1 ("t" +:+ print_Z (Z.of_nat n)) "c1" "5.0" "hash" (20 + Z.of_nat n).

Definition demo_run (h : list store_op) : EventWorld document :=
  run_store inl document_event inr h no_events.

Definition demo_count (h : list store_op) : option Z := tips_shown "c1" (demo_run h).

(** Fifty-three events: the state comes from the snapshot at the fiftieth. *)
Example snapshot_used :
  let w := demo_run (OpAppend demo_registration :: map (fun n => OpAppend (demo_tip n)) (seq 0 52)) in
  map sn_sequence (ew_snapshots w) = [50] /\
  (cp_tip_count <$> match fst (creator_state document_event document_projection "c1" w) with
                    | Ok p => Some p | Err _ => None end) = Some 52.
Proof. by vm_compute. Qed.

(** After a lost sequence number the last event is applied again by the next
    synchronization, because the last sequence number moves on by the number of
    events and not to the last of them. *)
Example gap_counts_twice :
  let h := [OpAppend demo_registration; OpBurn; OpAppend (demo_tip 0); OpSync 1] in
  demo_count h = Some 1 /\ demo_count (h ++ [OpSync 1]) = Some 2.
Proof. by vm_compute. Qed.

(** A restarted process begins at the first event again, over the read model it had. *)
Example restart_counts_twice :
  let h := [OpAppend demo_registration; OpAppend (demo_tip 0); OpSync 1; OpRestart] in
  demo_count h = Some 1 /\ demo_count (h ++ [OpSync 1]) = Some 2.
Proof. by vm_compute. Qed.

(** A username taken by a new creator fails on every attempt: nothing after it
    is applied, and each attempt counts the tips before it again. *)
Example poison_event_blocks :
  let h := [OpAppend demo_registration; OpAppend (demo_tip 0);
            OpAppend (CreatorRegistered 1 "c2" "alice" "GOTHER" 30); OpAppend (demo_tip 1)] in
  demo_count (h ++ [OpSync 3]) = Some 3 /\ demo_count (h ++ [OpSync 3; OpSync 3]) = Some 6 /\
  ew_last_sequence (demo_run (h ++ [OpSync 3; OpSync 3])) = 0.
Proof. by vm_compute. Qed.

Definition demo_history : list store_op :=
  [OpAppend demo_registration; OpAppend (demo_tip 0); OpSync 3; OpAppend (demo_tip 1)].

Lemma event_log_replays_witness :
  let w := with_faults [] (run_store inl document_event inr demo_history (with_faults [Refused; Fine; ReplyLost] no_events)) in
  exists log,
    acknowledged inl document_event inr demo_history (with_faults [Refused; Fine; ReplyLost] no_events) `sublist_of` log /\
    log `sublist_of` requested demo_history /\
    forall creator,
      fst (load document_event creator w) = Ok (of_creator creator log) /\
      fst (creator_state document_event document_projection creator w) = Ok (from_events (of_creator creator log)) /\
      forall n, exists k,
        fst (creator_state_at document_event creator n w) = Ok (from_events (take k (of_creator creator log))).
Proof. apply (event_log_replays inl document_event inr document_projection); done. Defined.

Lemma read_model_at_least_once_witness :
  exists v, ew_read_model (run_store inl document_event inr [OpAppend demo_registration; OpAppend (demo_tip 0); OpSync 3]
                             (with_faults [Fine; Fine; Fine; Fine; Refused] no_events)) !! "c1" = Some v /\ 1 <= cv_tip_count v.
Proof. apply (read_model_at_least_once inl document_event inr document_projection); done. Defined.

Lemma read_model_exact_witness :
  let w := run_store inl document_event inr demo_history no_events in
  (is_ok (fst (sync_once document_event w)) = true ->
   tips_shown "c1" (snd (sync_once document_event w)) = credited "c1" (requested demo_history)) /\
  (is_ok (fst (rebuild document_event w)) = true ->
   tips_shown "c1" (snd (rebuild document_event w)) = credited "c1" (requested demo_history)).
Proof. apply (read_model_exact inl document_event inr document_projection); [done.. | by vm_compute]. Defined.
