(* ===== verification/Moderation.v ===== *)
(** * Content moderation

    src/src/moderation/: the rules, the detector that asks a language model, the
    service that combines them, and the review queue in Postgres with its
    history; the moderation handlers of src/src/routes/admin.rs.

    Matching a pattern (crate regex), lower-casing outside ASCII, the answers of
    the language model with their JSON, and random ids are parameters.  A
    statement is atomic and may meet a fault; a transaction takes effect at its
    commit. *)

From Stdlib Require Import SpecFloat.
From S2P Require Import Prelude Text Codec Errors.

(** ** 32-bit floats: literals, comparison and [clamp] *)

Definition f32 : Type := spec_float.

Definition f32_of_Z (z : Z) : f32 := binary_normalize 24 128 z 0 false.

(** The float nearest to [n / d]: the value of a decimal literal. *)
Definition f32_ratio (n d : Z) : f32 := SFdiv 24 128 (f32_of_Z n) (f32_of_Z d).

Definition percent (n : Z) : f32 := f32_ratio n 100.

(** [f32::clamp] *)
Definition f32_clamp (lo hi x : f32) : f32 :=
  let x := if SFltb x lo then lo else x in
  if SFltb hi x then hi else x.

Definition clamp_unit (x : f32) : f32 := f32_clamp (f32_of_Z 0) (f32_of_Z 1) x.

(** ** moderation/mod.rs: data *)

(** src/src/moderation/mod.rs:21-27 ViolationType *)
Inductive ViolationType : Type :=
| InappropriateContent
| Spam
| HateSpeech
| PersonalInformation
| PolicyViolation.

#[export] Instance ViolationType_eq_dec : EqDecision ViolationType.
Proof. solve_decision. Defined.

(** src/src/moderation/mod.rs:31-36 Violation *)
Record Violation : Type := {
  vi_violation_type : ViolationType;
  vi_description : string;
  vi_confidence : f32
}.

(** src/src/moderation/mod.rs:41-45 ContentType *)
Inductive ContentType : Type := Username | TipMessage | CreatorBio.

(** src/src/moderation/mod.rs:48-54 ContentType::as_str *)
Definition as_str (t : ContentType) : string :=
  match t with
  | Username => "username"
  | TipMessage => "tip_message"
  | CreatorBio => "creator_bio"
  end.

(** src/src/moderation/mod.rs:59-67 ModerationResult *)
Record ModerationResult : Type := {
  mr_is_flagged : bool;
  mr_violations : list Violation;
  mr_ai_score : option f32;
  mr_ai_reasoning : option string
}.

(** src/src/moderation/mod.rs:73-76 ModerationResult::has_high_confidence_violation *)
Definition has_high_confidence_violation (r : ModerationResult) (threshold : f32) : bool :=
  existsb (fun v => SFleb threshold (vi_confidence v)) (mr_violations r) ||
  match mr_ai_score r with Some s => SFleb threshold s | None => false end.

(** ** moderation/rules.rs *)

Section rules.
(** [Regex::new(pattern).is_match(text)] and [find_iter(text).count()], and
    [str::to_lowercase]. *)
Variable is_match : string -> string -> bool.
Variable find_count : string -> string -> Z.
Variable to_lowercase : string -> string.

(** src/src/moderation/rules.rs:14-15 URL_PATTERN *)
Definition URL_PATTERN : string := "https?://[^\s]{4,}".

(** src/src/moderation/rules.rs:18-20 SPAM_PHRASES *)
Definition SPAM_PHRASES : string :=
  "(?i)\b(buy\s+now|click\s+here|free\s+money|make\s+money\s+fast|crypto\s+giveaway|double\s+your|guaranteed\s+(profit|returns?)|act\s+now|limited\s+time\s+offer|earn\s+\$\d+)\b".

(** src/src/moderation/rules.rs:23-24 EMAIL_PATTERN *)
Definition EMAIL_PATTERN : string := "[a-zA-Z0-9._%+\-]+@[a-zA-Z0-9.\-]+\.[a-zA-Z]{2,}".

(** src/src/moderation/rules.rs:27-28 PHONE_PATTERN *)
Definition PHONE_PATTERN : string := "(\+?\d[\d\s\-().]{7,}\d)".

(** src/src/moderation/rules.rs:33-35 HATE_SPEECH_PATTERN *)
Definition HATE_SPEECH_PATTERN : string :=
  "(?i)\b(kys|kms|go\s+kill\s+yourself|i\s+will\s+(kill|harm|hurt)\s+you)\b".

(** src/src/moderation/rules.rs:39-55 RESERVED_USERNAMES *)
Definition RESERVED_USERNAMES : list string :=
  ["admin"; "administrator"; "root"; "system"; "support"; "help"; "api"; "null"; "undefined"; "moderator";
   "mod"; "staff"; "official"; "tipjar"; "stellar"].

(** [str::chars]: the scalar values, each as its UTF-8 bytes. *)
Definition continuation (c : ascii) : bool := Z.land (byte c) 192 =? 128.

Fixpoint chars (s : string) : list string :=
  match s with
  | EmptyString => []
  | String c s' =>
      match chars s' with
      | (String d t as x) :: l => if continuation d then String c x :: l else String c "" :: x :: l
      | l => String c "" :: l
      end
  end.

(** src/src/moderation/rules.rs:74-86 the scan of has_repeated_chars *)
Fixpoint repeats (prev : string) (run : nat) (l : list string) : bool :=
  match l with
  | [] => false
  | c :: l' =>
      if String.eqb c prev then if (7 <=? S run)%nat then true else repeats prev (S run) l'
      else repeats c 1 l'
  end.

(** src/src/moderation/rules.rs:69-87 RulesEngine::has_repeated_chars *)
Definition has_repeated_chars (text : string) : bool :=
  match chars text with
  | [] => false
  | c :: l => repeats c 1 l
  end.

Definition violation (t : ViolationType) (description : string) (confidence : f32) : Violation :=
  {| vi_violation_type := t; vi_description := description; vi_confidence := confidence |}.

(** src/src/moderation/rules.rs:109-119 RulesEngine::check_reserved_username *)
Definition check_reserved_username (username : string) : list Violation :=
  if existsb (String.eqb (to_lowercase username)) RESERVED_USERNAMES then
    [violation PolicyViolation ("'" +:+ username +:+ "' is a reserved username") (percent 100)]
  else [].

(** src/src/moderation/rules.rs:121-146 RulesEngine::check_spam_in_text *)
Definition check_spam_in_text (text : string) : list Violation :=
  let url_count := find_count URL_PATTERN text in
  (if 0 <? url_count then
     [violation Spam ("Content contains " +:+ print_Z url_count +:+ " URL(s)") (percent 75)] else []) ++
  (if is_match SPAM_PHRASES text then
     [violation Spam "Content matches known spam/scam phrasing" (percent 90)] else []) ++
  (if has_repeated_chars text then
     [violation Spam "Content contains excessive repeated characters" (percent 65)] else []).

(** src/src/moderation/rules.rs:148-164 RulesEngine::check_personal_information *)
Definition check_personal_information (text : string) : list Violation :=
  (if is_match EMAIL_PATTERN text then
     [violation PersonalInformation "Content may contain an email address" (percent 85)] else []) ++
  (if is_match PHONE_PATTERN text then
     [violation PersonalInformation "Content may contain a phone number" (percent 70)] else []).

(** src/src/moderation/rules.rs:166-174 RulesEngine::check_hate_speech *)
Definition check_hate_speech (text : string) : list Violation :=
  if is_match HATE_SPEECH_PATTERN text then
    [violation HateSpeech "Content matches hate speech / self-harm pattern" (percent 95)] else [].

(** src/src/moderation/rules.rs:91-107 RulesEngine::check *)
Definition check (content : string) (content_type : ContentType) : list Violation :=
  match content_type with
  | Username => check_reserved_username content ++ check_spam_in_text content
  | TipMessage | CreatorBio =>
      check_spam_in_text content ++ check_personal_information content ++ check_hate_speech content
  end.
End rules.

(** ** moderation/ai_detector.rs *)

(** src/src/moderation/ai_detector.rs:18-25 AiDetectionResult *)
Record AiDetectionResult : Type := {
  ad_score : f32;
  ad_reasoning : string;
  ad_violations : list Violation
}.

(** src/src/moderation/ai_detector.rs:63-68 AiViolation *)
Record AiViolation : Type := {
  av_violation_type : string;
  av_description : string;
  av_confidence : f32
}.

(** src/src/moderation/ai_detector.rs:55-60 ModerationResponse *)
Record ModerationResponse : Type := {
  mo_is_flagged : bool;
  mo_score : f32;
  mo_reasoning : string;
  mo_violations : list AiViolation
}.

(** src/src/moderation/ai_detector.rs:71-84 AiViolation::into_violation *)
Definition into_violation (v : AiViolation) : Violation :=
  let t := av_violation_type v in
  {| vi_violation_type :=
       if String.eqb t "spam" then Spam
       else if String.eqb t "hate_speech" then HateSpeech
       else if String.eqb t "personal_information" then PersonalInformation
       else if String.eqb t "policy_violation" then PolicyViolation
       else InappropriateContent;
     vi_description := av_description v;
     vi_confidence := clamp_unit (av_confidence v) |}.

(** [trim_start_matches] and [trim_end_matches] of a text. *)
Definition trim_start_matches (p s : string) : string :=
  string_of_list_ascii (trim_list [list_ascii_of_string p] (list_ascii_of_string s)).

Definition trim_end_matches (p s : string) : string :=
  string_of_list_ascii (rev (trim_list [rev (list_ascii_of_string p)] (rev (list_ascii_of_string s)))).

(** What a POST to the API came to: no response, a status without success, a
    body that is not the expected JSON, or the texts of its content blocks. *)
Inductive api_reply : Type :=
| ApiUnreachable
| ApiError
| ApiUndecodable
| ApiContent (blocks : list string).

Definition newline : string := String (chr 10) "".
Definition quote : string := String (chr 34) "".

(** src/src/moderation/ai_detector.rs:154-179 build_moderation_prompt *)
Definition build_moderation_prompt (content : string) : string :=
  join newline
    ["You are a content moderation assistant for a creator tipping platform.";
     "Evaluate the following user-submitted content for policy violations.";
     "";
     "Content to evaluate:";
     "<content>" +:+ content +:+ "</content>";
     "";
     "Respond with a JSON object using exactly this schema (no extra keys, no markdown):";
     "{";
     "  " +:+ quote +:+ "is_flagged" +:+ quote +:+ ": <true|false>,";
     "  " +:+ quote +:+ "score" +:+ quote +:+ ": <0.0 to 1.0 harm probability>,";
     "  " +:+ quote +:+ "reasoning" +:+ quote +:+ ": " +:+ quote +:+ "<one sentence explanation>" +:+ quote +:+ ",";
     "  " +:+ quote +:+ "violations" +:+ quote +:+ ": [";
     "    {";
     "      " +:+ quote +:+ "type" +:+ quote +:+ ": " +:+ quote +:+
       "<spam|inappropriate_content|hate_speech|personal_information|policy_violation>" +:+ quote +:+ ",";
     "      " +:+ quote +:+ "description" +:+ quote +:+ ": " +:+ quote +:+ "<specific description>" +:+ quote +:+ ",";
     "      " +:+ quote +:+ "confidence" +:+ quote +:+ ": <0.0 to 1.0>";
     "    }";
     "  ]";
     "}";
     "";
     "Return an empty violations array when the content is acceptable."].

Section detector.
(** [serde_json::from_str] of a [ModerationResponse]; the answer to the n-th POST of a prompt. *)
Variable from_str : string -> option ModerationResponse.
Variable post : nat -> string -> api_reply.

(** src/src/moderation/ai_detector.rs:183-188 the text without markdown fences *)
Definition strip_fences (text : string) : string :=
  trim (trim_end_matches "```" (trim_start_matches "```" (trim_start_matches "```json" (trim text)))).

(** src/src/moderation/ai_detector.rs:181-209 parse_moderation_response *)
Definition parse_moderation_response (text : string) : result AiDetectionResult string :=
  match from_str (strip_fences text) with
  | None => Err "Failed to parse moderation response"
  | Some parsed =>
      Ok {| ad_score := clamp_unit (mo_score parsed); ad_reasoning := mo_reasoning parsed;
            ad_violations := map into_violation (mo_violations parsed) |}
  end.

(** src/src/moderation/ai_detector.rs:108-151 AiDetector::analyze, the n-th call *)
Definition analyze (api_key : option string) (n : nat) (content : string) : result AiDetectionResult string :=
  match api_key with
  | None => Err "ANTHROPIC_API_KEY not configured"
  | Some _ =>
      match post n (build_moderation_prompt content) with
      | ApiUnreachable => Err "error sending request"
      | ApiError => Err "Anthropic API error"
      | ApiUndecodable => Err "error decoding response body"
      | ApiContent blocks => parse_moderation_response (default "" (head blocks))
      end
  end.
End detector.

(** ** moderation/review_queue.rs *)

(** src/src/moderation/review_queue.rs:8-24 ModerationQueueItem *)
Record ModerationQueueItem : Type := {
  mq_id : string;
  mq_content_type : string;
  mq_content_id : option string;
  mq_content_text : string;
  mq_flags : list Violation;
  mq_status : string;
  mq_action : option string;
  mq_flagged_by : option string;
  mq_flag_reason : option string;
  mq_ai_score : option f32;
  mq_ai_reasoning : option string;
  mq_reviewed_by : option string;
  mq_reviewed_at : option Z;
  mq_created_at : Z
}.

(** src/src/moderation/review_queue.rs:26-35 ModerationFlag *)
Record ModerationFlag : Type := {
  mf_content_type : string;
  mf_content_id : string;
  mf_content_text : string;
  mf_reason : string;
  mf_flagged_by : string;
  mf_created_at : Z
}.

(** src/src/moderation/review_queue.rs:37-45 ModerationHistoryEntry *)
Record ModerationHistoryEntry : Type := {
  mh_queue_item_id : string;
  mh_action : string;
  mh_performed_by : string;
  mh_note : option string;
  mh_created_at : Z
}.

(** src/src/moderation/review_queue.rs:47-53 ModerationStats *)
Record ModerationStats : Type := {
  ms_pending : Z;
  ms_approved : Z;
  ms_rejected : Z;
  ms_total : Z
}.

Record ModWorld : Type := {
  mw_queue : list ModerationQueueItem;
  mw_flags : list ModerationFlag;
  mw_history : list ModerationHistoryEntry;
  mw_now : Z;
  mw_uuids : nat;
  mw_posts : nat;
  mw_faults : list fault
}.

Definition with_mod_faults (l : list fault) (w : ModWorld) : ModWorld :=
  {| mw_queue := mw_queue w; mw_flags := mw_flags w; mw_history := mw_history w; mw_now := mw_now w;
     mw_uuids := mw_uuids w; mw_posts := mw_posts w; mw_faults := l |}.

Definition with_mod_tables (queue : list ModerationQueueItem) (flags : list ModerationFlag)
    (history : list ModerationHistoryEntry) (w : ModWorld) : ModWorld :=
  {| mw_queue := queue; mw_flags := flags; mw_history := history; mw_now := mw_now w;
     mw_uuids := mw_uuids w; mw_posts := mw_posts w; mw_faults := mw_faults w |}.

#[export] Instance ModWorld_networked : Networked ModWorld := {
  next_fault w := let '(f, l) := pop_fault (mw_faults w) in (f, with_mod_faults l w)
}.

Definition Mod : Type -> Type := M ModWorld sqlx_error.

Definition mod_query {A} (q : ModWorld -> result A sqlx_error * ModWorld) : Mod A :=
  r ← remote SqlxOther q;
  lift r.

(** A transaction: its statements take effect at the commit; when one of them
    or the commit fails the tables are as before. *)
Definition mod_transaction {A} (body : Mod A) : Mod A := fun w =>
  let rolled_back w' := with_mod_tables (mw_queue w) (mw_flags w) (mw_history w) w' in
  match mod_query (fun w => (Ok tt, w)) w with
  | (Err e, w1) => (Err e, w1)
  | (Ok _, w1) =>
      match body w1 with
      | (Err e, w2) => (Err e, rolled_back w2)
      | (Ok a, w2) =>
          match pop_fault (mw_faults w2) with
          | (Fine, l) => (Ok a, with_mod_faults l w2)
          | (Refused, l) => (Err SqlxOther, rolled_back (with_mod_faults l w2))
          | (ReplyLost, l) => (Err SqlxOther, with_mod_faults l w2)
          end
      end
  end.

Section queue.
Variable uuid : nat -> string.

Definition mod_uuid : Mod string := fun w =>
  (Ok (uuid (mw_uuids w)),
   {| mw_queue := mw_queue w; mw_flags := mw_flags w; mw_history := mw_history w; mw_now := mw_now w;
      mw_uuids := S (mw_uuids w); mw_posts := mw_posts w; mw_faults := mw_faults w |}).

(** The CHECK constraint of the column content_type. *)
Definition queued_type (t : string) : bool := existsb (String.eqb t) ["username"; "tip_message"; "creator_bio"].

Definition has_item (i : string) (w : ModWorld) : bool := existsb (fun x => String.eqb (mq_id x) i) (mw_queue w).

Definition check_violation : sqlx_error := SqlxDatabase (Some "23514") (Some "moderation_queue_content_type_check").

Definition add_item (x : ModerationQueueItem) (w : ModWorld) : ModWorld :=
  with_mod_tables (mw_queue w ++ [x]) (mw_flags w) (mw_history w) w.

(** src/src/moderation/review_queue.rs:75-89 the statement that queues a detected item *)
Definition insert_detected (i content content_type : string) (content_id : option string) (r : ModerationResult)
    (w : ModWorld) : result string sqlx_error * ModWorld :=
  if negb (queued_type content_type) then (Err check_violation, w)
  else if has_item i w then (Err (SqlxDatabase (Some "23505") (Some "moderation_queue_pkey")), w)
  else (Ok i, add_item {| mq_id := i; mq_content_type := content_type; mq_content_id := content_id;
                          mq_content_text := content; mq_flags := mr_violations r; mq_status := "pending";
                          mq_action := None; mq_flagged_by := None; mq_flag_reason := None;
                          mq_ai_score := mr_ai_score r; mq_ai_reasoning := mr_ai_reasoning r;
                          mq_reviewed_by := None; mq_reviewed_at := None; mq_created_at := mw_now w |} w).

(** src/src/moderation/review_queue.rs:65-92 ReviewQueue::enqueue *)
Definition enqueue (content : string) (content_type : ContentType) (content_id : option string) (r : ModerationResult)
    : Mod string :=
  i ← mod_uuid;
  mod_query (insert_detected i content (as_str content_type) content_id r).

(** src/src/moderation/review_queue.rs:104-113 the statement that records a flag *)
Definition insert_flag (content_type content_id content_text reason flagged_by : string) (w : ModWorld)
    : result unit sqlx_error * ModWorld :=
  (Ok tt, with_mod_tables (mw_queue w)
            (mw_flags w ++ [{| mf_content_type := content_type; mf_content_id := content_id;
                               mf_content_text := content_text; mf_reason := reason; mf_flagged_by := flagged_by;
                               mf_created_at := mw_now w |}]) (mw_history w) w).

(** src/src/moderation/review_queue.rs:117-131 the statement that queues a flagged item: only the
    primary key can conflict *)
Definition insert_flagged (i content_type content_id content_text reason flagged_by : string) (w : ModWorld)
    : result (option string) sqlx_error * ModWorld :=
  if negb (queued_type content_type) then (Err check_violation, w)
  else if has_item i w then (Ok None, w)
  else (Ok (Some i), add_item {| mq_id := i; mq_content_type := content_type; mq_content_id := Some content_id;
                                 mq_content_text := content_text; mq_flags := []; mq_status := "pending";
                                 mq_action := None; mq_flagged_by := Some flagged_by; mq_flag_reason := Some reason;
                                 mq_ai_score := None; mq_ai_reasoning := None; mq_reviewed_by := None;
                                 mq_reviewed_at := None; mq_created_at := mw_now w |} w).

(** src/src/moderation/review_queue.rs:95-135 ReviewQueue::flag *)
Definition flag (content_type content_id content_text reason flagged_by : string) : Mod string :=
  mod_query (insert_flag content_type content_id content_text reason flagged_by);;
  i ← mod_uuid;
  queued ← mod_query (insert_flagged i content_type content_id content_text reason flagged_by);
  match queued with
  | Some i => mret i
  | None => mod_uuid
  end.

Definition newest_first (a b : ModerationQueueItem) : bool := mq_created_at b <=? mq_created_at a.

(** src/src/moderation/review_queue.rs:138-171 ReviewQueue::list *)
Definition list_items (status : option string) (limit : Z) : Mod (list ModerationQueueItem) :=
  mod_query (fun w =>
    (Ok (take (Z.to_nat limit)
           (sort_by newest_first
              (match status with
               | Some s => List.filter (fun x => String.eqb (mq_status x) s) (mw_queue w)
               | None => mw_queue w
               end))), w)).

Definition settle_item (status action reviewed_by : string) (now : Z) (x : ModerationQueueItem) : ModerationQueueItem :=
  {| mq_id := mq_id x; mq_content_type := mq_content_type x; mq_content_id := mq_content_id x;
     mq_content_text := mq_content_text x; mq_flags := mq_flags x; mq_status := status; mq_action := Some action;
     mq_flagged_by := mq_flagged_by x; mq_flag_reason := mq_flag_reason x; mq_ai_score := mq_ai_score x;
     mq_ai_reasoning := mq_ai_reasoning x; mq_reviewed_by := Some reviewed_by; mq_reviewed_at := Some now;
     mq_created_at := mq_created_at x |}.

(** src/src/moderation/review_queue.rs:227-227 the condition of the update *)
Definition is_pending (i : string) (x : ModerationQueueItem) : bool :=
  String.eqb (mq_id x) i && String.eqb (mq_status x) "pending".

(** src/src/moderation/review_queue.rs:224-235 the statement that settles an item: the rows affected *)
Definition update_item (i status action reviewed_by : string) (w : ModWorld) : result Z sqlx_error * ModWorld :=
  (Ok (Z.of_nat (length (List.filter (is_pending i) (mw_queue w)))),
   with_mod_tables
     (map (fun x => if is_pending i x then settle_item status action reviewed_by (mw_now w) x else x) (mw_queue w))
     (mw_flags w) (mw_history w) w).

(** src/src/moderation/review_queue.rs:238-247 the statement that keeps the action *)
Definition insert_history (i action reviewed_by : string) (note : option string) (w : ModWorld)
    : result unit sqlx_error * ModWorld :=
  if has_item i w then
    (Ok tt, with_mod_tables (mw_queue w) (mw_flags w)
              (mw_history w ++ [{| mh_queue_item_id := i; mh_action := action; mh_performed_by := reviewed_by;
                                   mh_note := note; mh_created_at := mw_now w |}]) w)
  else (Err (SqlxDatabase (Some "23503") (Some "moderation_history_queue_item_id_fkey")), w).

(** src/src/moderation/review_queue.rs:214-252 ReviewQueue::apply_action *)
Definition apply_action (i status action reviewed_by : string) (note : option string) : Mod bool :=
  mod_transaction (
    rows ← mod_query (update_item i status action reviewed_by);
    (if 0 <? rows then mod_query (insert_history i action reviewed_by note) else mret tt);;
    mret (0 <? rows)).

(** src/src/moderation/review_queue.rs:173-176 ReviewQueue::approve *)
Definition approve (i reviewed_by : string) : Mod bool := apply_action i "approved" "approve" reviewed_by None.

(** src/src/moderation/review_queue.rs:178-181 ReviewQueue::reject *)
Definition reject (i reviewed_by : string) : Mod bool := apply_action i "rejected" "reject" reviewed_by None.

(** src/src/moderation/review_queue.rs:183-191 ReviewQueue::dismiss *)
Definition dismiss (i reviewed_by : string) (note : option string) : Mod bool :=
  apply_action i "approved" "dismiss" reviewed_by note.

(** src/src/moderation/review_queue.rs:193-201 ReviewQueue::warn *)
Definition warn (i reviewed_by : string) (note : option string) : Mod bool :=
  apply_action i "rejected" "warn" reviewed_by note.

(** src/src/moderation/review_queue.rs:203-211 ReviewQueue::ban *)
Definition ban (i reviewed_by : string) (note : option string) : Mod bool :=
  apply_action i "rejected" "ban" reviewed_by note.

(** src/src/moderation/review_queue.rs:255-268 ReviewQueue::history *)
Definition history (i : string) : Mod (list ModerationHistoryEntry) :=
  mod_query (fun w =>
    (Ok (sort_by (fun a b => mh_created_at a <=? mh_created_at b)
           (List.filter (fun h => String.eqb (mh_queue_item_id h) i) (mw_history w))), w)).

Definition count_status (status : string) : Mod Z :=
  mod_query (fun w => (Ok (Z.of_nat (length (List.filter (fun x => String.eqb (mq_status x) status) (mw_queue w)))), w)).

(** src/src/moderation/review_queue.rs:270-289 ReviewQueue::stats *)
Definition stats : Mod ModerationStats :=
  pending ← count_status "pending";
  approved ← count_status "approved";
  rejected ← count_status "rejected";
  mret {| ms_pending := pending; ms_approved := approved; ms_rejected := rejected;
          ms_total := pending + approved + rejected |}.

(** ** moderation/mod.rs: the service *)

Variable is_match : string -> string -> bool.
Variable find_count : string -> string -> Z.
Variable to_lowercase : string -> string.
Variable from_str : string -> option ModerationResponse.
Variable post : nat -> string -> api_reply.
(** The variable ANTHROPIC_API_KEY of the environment. *)
Variable api_key : option string.

(** src/src/moderation/ai_detector.rs:103-105 AiDetector::is_enabled *)
Definition is_enabled : bool := bool_decide (is_Some api_key).

(** One call of the detector. *)
Definition call_detector (content : string) (w : ModWorld) : result AiDetectionResult string * ModWorld :=
  (analyze from_str post api_key (mw_posts w) content,
   {| mw_queue := mw_queue w; mw_flags := mw_flags w; mw_history := mw_history w; mw_now := mw_now w;
      mw_uuids := mw_uuids w; mw_posts := S (mw_posts w); mw_faults := mw_faults w |}).

(** src/src/moderation/mod.rs:123-130 the result from the violations of the rules and the answer of the detector *)
Definition combine (violations : list Violation) (ai : option AiDetectionResult) : ModerationResult :=
  let all := violations ++ match ai with Some a => ad_violations a | None => [] end in
  let score := ad_score <$> ai in
  {| mr_is_flagged := negb (bool_decide (all = [])) ||
                      match score with Some s => SFltb (percent 70) s | None => false end;
     mr_violations := all; mr_ai_score := score; mr_ai_reasoning := ad_reasoning <$> ai |}.

(** src/src/moderation/mod.rs:98-144 ModerationService::check_content; it does not fail *)
Definition check_content (content : string) (content_type : ContentType) (content_id : option string) (w : ModWorld)
    : ModerationResult * ModWorld :=
  let violations := check is_match find_count to_lowercase content content_type in
  let '(ai, w1) :=
    if is_enabled then
      match call_detector content w with
      | (Ok a, w1) => (Some a, w1)
      | (Err _, w1) => (None, w1)
      end
    else (None, w) in
  let r := combine violations ai in
  if mr_is_flagged r then (r, snd (enqueue content content_type content_id r w1)) else (r, w1).
End queue.

(** ** routes/admin.rs

    The reviewer is the administrator the key of the request belongs to; an
    answer is its status and its message. *)

Definition response : Type := Z * string.

(** src/src/routes/admin.rs:362-385 dispatch_moderation_action *)
Definition dispatch_moderation_action (r : result bool sqlx_error) (action : string) : response :=
  match r with
  | Ok true => (200, "Action '" +:+ action +:+ "' applied")
  | Ok false => (404, "Item not found or already reviewed")
  | Err _ => (500, "Failed to apply action '" +:+ action +:+ "'")
  end.

Definition answer (action : string) (m : Mod bool) (w : ModWorld) : response * ModWorld :=
  let '(r, w') := m w in (dispatch_moderation_action r action, w').

(** src/src/routes/admin.rs:228-239 moderation_approve *)
Definition moderation_approve (i reviewer : string) : ModWorld -> response * ModWorld :=
  answer "approve" (approve i reviewer).

(** src/src/routes/admin.rs:241-252 moderation_reject *)
Definition moderation_reject (i reviewer : string) : ModWorld -> response * ModWorld :=
  answer "reject" (reject i reviewer).

(** src/src/routes/admin.rs:300-313 moderation_dismiss *)
Definition moderation_dismiss (i reviewer : string) (note : option string) : ModWorld -> response * ModWorld :=
  answer "dismiss" (dismiss i reviewer note).

(** src/src/routes/admin.rs:315-328 moderation_warn *)
Definition moderation_warn (i reviewer : string) (note : option string) : ModWorld -> response * ModWorld :=
  answer "warn" (warn i reviewer note).

(** src/src/routes/admin.rs:330-343 moderation_ban *)
Definition moderation_ban (i reviewer : string) (note : option string) : ModWorld -> response * ModWorld :=
  answer "ban" (ban i reviewer note).

(** src/src/routes/admin.rs:267-298 moderation_flag *)
Definition moderation_flag (uuid : nat -> string) (content_type content_id content_text reason flagged_by : string)
    (w : ModWorld) : response * ModWorld :=
  match flag uuid content_type content_id content_text reason flagged_by w with
  | (Ok i, w') => ((201, i), w')
  | (Err _, w') => ((500, "Failed to flag content"), w')
  end.

(** src/src/routes/admin.rs:195-212 moderation_queue *)
Definition moderation_queue (status : option string) (limit : Z) (w : ModWorld)
    : (Z * list ModerationQueueItem) * ModWorld :=
  match list_items status (Z.min 200 (Z.max 1 limit)) w with
  | (Ok items, w') => ((200, items), w')
  | (Err _, w') => ((500, []), w')
  end.

(** ** Histories of the review queue *)

(** The actions of a reviewer and the status each gives. *)
Inductive review : Type :=
| Approve
| Reject
| Dismiss (note : option string)
| Warn (note : option string)
| Ban (note : option string).

Definition review_status (action : string) : string :=
  if existsb (String.eqb action) ["approve"; "dismiss"] then "approved" else "rejected".

Inductive mod_op : Type :=
| OpCheck (content : string) (content_type : ContentType) (content_id : option string)
| OpFlag (content_type content_id content_text reason flagged_by : string)
| OpReview (i reviewed_by : string) (r : review)
| OpWait (secs : Z)
| OpFaults (l : list fault).

Section reviews.
Variable uuid : nat -> string.
Variable is_match : string -> string -> bool.
Variable find_count : string -> string -> Z.
Variable to_lowercase : string -> string.
Variable from_str : string -> option ModerationResponse.
Variable post : nat -> string -> api_reply.
Variable api_key : option string.

Abbreviation moderated := (check_content uuid is_match find_count to_lowercase from_str post api_key).

Definition run_review (i reviewed_by : string) (r : review) : Mod bool :=
  match r with
  | Approve => approve i reviewed_by
  | Reject => reject i reviewed_by
  | Dismiss note => dismiss i reviewed_by note
  | Warn note => warn i reviewed_by note
  | Ban note => ban i reviewed_by note
  end.

Definition run_mod_op (o : mod_op) (w : ModWorld) : ModWorld :=
  match o with
  | OpCheck c t i => snd (moderated c t i w)
  | OpFlag t i c r b => snd (flag uuid t i c r b w)
  | OpReview i b r => snd (run_review i b r w)
  | OpWait secs =>
      {| mw_queue := mw_queue w; mw_flags := mw_flags w; mw_history := mw_history w; mw_now := mw_now w + secs;
         mw_uuids := mw_uuids w; mw_posts := mw_posts w; mw_faults := mw_faults w |}
  | OpFaults l => with_mod_faults l w
  end.

Definition run_mod (h : list mod_op) (w : ModWorld) : ModWorld := fold_left (fun w o => run_mod_op o w) h w.

(** What is in the tables of the queue and its history. *)
Definition board : Type := list ModerationQueueItem * list ModerationHistoryEntry.

Definition board_of (w : ModWorld) : board := (mw_queue w, mw_history w).

Definition entries (i : string) (l : list ModerationHistoryEntry) : list ModerationHistoryEntry :=
  List.filter (fun h => String.eqb (mh_queue_item_id h) i) l.

(** The abstract queue: an item comes in pending, and a pending item is settled
    together with the entry of its history. *)
Inductive board_step : board -> board -> Prop :=
| step_queued x q hs :
    mq_status x = "pending" -> mq_action x = None -> mq_reviewed_by x = None ->
    mq_id x ∉ map mq_id q ->
    board_step (q, hs) (q ++ [x], hs)
| step_settled i action by_ note now q hs :
    (exists x, x ∈ q /\ is_pending i x = true) ->
    action ∈ ["approve"; "reject"; "dismiss"; "warn"; "ban"] ->
    board_step (q, hs)
      (map (fun x => if is_pending i x then settle_item (review_status action) action by_ now x else x) q,
       hs ++ [{| mh_queue_item_id := i; mh_action := action; mh_performed_by := by_; mh_note := note;
                 mh_created_at := now |}]).

Lemma has_item_iff i w : has_item i w = true <-> i ∈ map mq_id (mw_queue w).
Proof.
  unfold has_item. rewrite existsb_exists, list_elem_of_In, in_map_iff. split.
  - intros (x & Hx & <-%String.eqb_eq). eauto.
  - intros (x & <- & Hx). exists x. split; [done | apply String.eqb_refl].
Qed.

(** A statement on the queue under a fault: its effect on the board is that of
    the statement or nothing. *)
Lemma mod_query_board {A} (q : ModWorld -> result A sqlx_error * ModWorld) w (P : board -> Prop) :
  P (board_of w) -> (forall l, P (board_of (snd (q (with_mod_faults l w))))) -> P (board_of (snd (mod_query q w))).
Proof.
  intros Hw Hq. unfold mod_query, remote. run_m. destruct (pop_fault (mw_faults w)) as [f l]. specialize (Hq l).
  destruct f; simpl; [| done |]; destruct (q _) as [[a | e] w2]; done.
Qed.

Lemma enqueue_board c t i r w : rtc board_step (board_of w) (board_of (snd (enqueue uuid c t i r w))).
Proof.
  unfold enqueue. unfold mbind, M_bind, mod_uuid.
  match goal with |- context [mod_query ?q ?w1] => change (board_of w) with (board_of w1); apply (mod_query_board q w1) end;
    [done |]. intros l. unfold insert_detected. destruct (negb _); [done |]. destruct (has_item _ _) eqn:E; [done |].
  simpl. apply rtc_once, step_queued; try done. simpl. intros Hin. apply (has_item_iff _ (with_mod_faults l w)) in Hin.
  unfold has_item in *. simpl in *. congruence.
Qed.

Lemma check_board c t i w : rtc board_step (board_of w) (board_of (snd (moderated c t i w))).
Proof.
  unfold check_content, is_enabled, call_detector.
  destruct (bool_decide _); [destruct (analyze _ _ _ _ _) as [a | e] |];
    (destruct (mr_is_flagged _); simpl; [| done]);
    match goal with |- rtc _ _ (board_of (snd (enqueue _ _ _ _ _ ?w1))) => change (board_of w) with (board_of w1) end;
    apply enqueue_board.
Qed.

Lemma flag_board t i c r b w : rtc board_step (board_of w) (board_of (snd (flag uuid t i c r b w))).
Proof.
  unfold flag. unfold mbind at 1, M_bind at 1.
  assert (board_of (snd (mod_query (insert_flag t i c r b) w)) = board_of w) as Hf
    by by apply (mod_query_board _ w (fun b => b = board_of w)).
  destruct (mod_query (insert_flag t i c r b) w) as [[[] | e] w1]; simpl in Hf; [rewrite <- Hf; clear Hf w | by rewrite <- Hf].
  unfold mbind at 1, M_bind at 1, mod_uuid at 1. unfold mbind, M_bind.
  match goal with |- context [mod_query ?q ?w2] =>
    assert (rtc board_step (board_of w1) (board_of (snd (mod_query q w2)))) as Hq;
      [change (board_of w1) with (board_of w2); apply (mod_query_board q w2); [done |]
      | destruct (mod_query q w2) as [[[j |] | e] w3]; done] end.
  intros l. unfold insert_flagged. destruct (negb _); [done |]. destruct (has_item _ _) eqn:E; [done |].
  simpl. apply rtc_once, step_queued; try done. simpl. intros Hin. apply (has_item_iff _ (with_mod_faults l w1)) in Hin.
  unfold has_item in *. simpl in *. congruence.
Qed.

(** A transaction changes the board as its body did, or not at all. *)
Lemma transaction_board {A} (body : Mod A) w (P : board -> Prop) :
  P (board_of w) ->
  (forall l a w2, body (with_mod_faults l w) = (Ok a, w2) -> P (board_of w2)) ->
  P (board_of (snd (mod_transaction body w))).
Proof.
  intros Hw Hb. unfold mod_transaction, mod_query, remote. run_m. destruct (pop_fault (mw_faults w)) as [f l].
  destruct f; simpl; [| done | done]. specialize (Hb l). destruct (body _) as [[a | e] w2]; simpl; [| done].
  specialize (Hb a w2 eq_refl). destruct (pop_fault (mw_faults w2)) as [f' l']. by destruct f'.
Qed.

(** A statement that succeeded ran. *)
Lemma mod_query_ok {A} (q : ModWorld -> result A sqlx_error * ModWorld) w a w' :
  mod_query q w = (Ok a, w') -> exists l, q (with_mod_faults l w) = (Ok a, w').
Proof.
  unfold mod_query, remote. run_m. destruct (pop_fault (mw_faults w)) as [f l].
  destruct f; [| done |]; destruct (q (with_mod_faults l w)) as [r w2] eqn:E; [| done]. intros [= -> ->]. by exists l.
Qed.

Lemma apply_action_board i action by_ note w :
  action ∈ ["approve"; "reject"; "dismiss"; "warn"; "ban"] ->
  rtc board_step (board_of w) (board_of (snd (apply_action i (review_status action) action by_ note w))).
Proof.
  intros Ha. apply (transaction_board _ w (rtc board_step (board_of w))); [done |]. intros l a w2. unfold mbind, M_bind, mret, M_ret.
  destruct (mod_query (update_item _ _ _ _) _) as [[rows | e] w1] eqn:Hu; [| done].
  apply mod_query_ok in Hu as [l1 [= <- <-]]. simpl. destruct (0 <? _) eqn:Hrows.
  - destruct (mod_query (insert_history _ _ _ _) _) as [[[] | e] w3] eqn:Hi; [| done]. intros [= <- <-].
    apply mod_query_ok in Hi as [l2 Hi]. unfold insert_history in Hi. destruct (has_item _ _); [| done].
    injection Hi as <-. apply rtc_once. simpl. apply step_settled; [| done].
    zbool. destruct (List.filter (is_pending i) (mw_queue w)) as [| x q] eqn:Hf; [done |].
    exists x. assert (In x (List.filter (is_pending i) (mw_queue w))) as Hx by (rewrite Hf; by left).
    apply filter_In in Hx as [Hx Hp]. split; [by apply list_elem_of_In | done].
  - intros [= <- <-]. unfold board_of. simpl. zbool.
    assert (List.filter (is_pending i) (mw_queue w) = []) as Hf by (destruct (List.filter _ _); [done | simpl in *; lia]).
    rewrite map_ext_in with (g := id); [by rewrite map_id |]. intros x Hx. destruct (is_pending i x) eqn:Hp; [| done].
    assert (In x []) as []. rewrite <- Hf. by apply filter_In.
Qed.

(** Every operation is a run of the abstract queue. *)
Lemma run_mod_board h w : rtc board_step (board_of w) (board_of (run_mod h w)).
Proof.
  revert w. induction h as [| o h IH]; intros w; [done |]. simpl. etrans; [| apply IH].
  destruct o as [c t i | t i c r b | i b r | secs | l]; simpl; [apply check_board | apply flag_board | | done | done].
  destruct r; apply apply_action_board; set_solver.
Qed.

(** An item is pending and has no history, or was settled by the only entry of its history. *)
Definition item_ok (hs : list ModerationHistoryEntry) (x : ModerationQueueItem) : Prop :=
  (mq_status x = "pending" /\ mq_action x = None /\ mq_reviewed_by x = None /\ entries (mq_id x) hs = []) \/
  (exists e, entries (mq_id x) hs = [e] /\ mq_action x = Some (mh_action e) /\
             mq_reviewed_by x = Some (mh_performed_by e) /\ mq_status x = review_status (mh_action e)).

Definition board_ok (b : board) : Prop :=
  NoDup (map mq_id (fst b)) /\
  (forall h, h ∈ snd b -> mh_queue_item_id h ∈ map mq_id (fst b)) /\
  (forall x, x ∈ fst b -> item_ok (snd b) x).

Lemma entries_none i hs (q : list ModerationQueueItem) :
  (forall h, h ∈ hs -> mh_queue_item_id h ∈ map mq_id q) -> i ∉ map mq_id q -> entries i hs = [].
Proof.
  intros Hh Hi. unfold entries. rewrite (List.filter_ext_in _ (fun _ => false)); [clear; by induction hs |].
  intros h Hin. apply String.eqb_neq. intros <-. apply Hi, Hh. by apply list_elem_of_In.
Qed.

Lemma settled_ids i st a b now q :
  map mq_id (map (fun x => if is_pending i x then settle_item st a b now x else x) q) = map mq_id q.
Proof. rewrite map_map. apply map_ext. intros x. by destruct (is_pending i x). Qed.

Lemma not_pending a : review_status a <> "pending".
Proof. unfold review_status. by destruct (existsb _ _). Qed.

Lemma board_step_ok b b' : board_step b b' -> board_ok b -> board_ok b'.
Proof.
  intros Hs (Hnd & Hh & Hx). destruct Hs as [x q hs Hst Hac Hre Hid | i a r note now q hs (p & Hp & Hpp) Ha]; simpl in *.
  - split_and!; simpl.
    + rewrite map_app. simpl. apply NoDup_app. split_and!; [done | | apply NoDup_singleton].
      intros j Hj ->%list_elem_of_singleton. done.
    + intros h Hin. rewrite map_app. apply elem_of_app. left. by apply Hh.
    + intros y [Hy | ->%list_elem_of_singleton]%elem_of_app; [by apply Hx |]. left. by rewrite (entries_none _ hs q).
  - unfold is_pending in Hpp. apply andb_true_iff in Hpp as [Hpi%String.eqb_eq Hps%String.eqb_eq].
    split_and!; simpl; rewrite ?settled_ids; [done | |].
    + intros h [Hin | ->%list_elem_of_singleton]%elem_of_app; simpl; [by apply Hh |].
      rewrite <- Hpi. apply list_elem_of_In, in_map. by apply list_elem_of_In.
    + intros y (x & <- & Hin)%list_elem_of_In%in_map_iff. apply list_elem_of_In in Hin.
      unfold item_ok, entries. destruct (is_pending i x) eqn:E; simpl; rewrite List.filter_app; simpl.
      * unfold is_pending in E. apply andb_true_iff in E as [Ei%String.eqb_eq Es%String.eqb_eq]. right.
        destruct (Hx x Hin) as [(_ & _ & _ & He) | (e & _ & _ & _ & He)];
          [| exfalso; apply (not_pending (mh_action e)); congruence].
        unfold entries in He. rewrite He, Ei, String.eqb_refl. simpl. eexists. by split_and!.
      * destruct (String.eqb_spec i (mq_id x)) as [Hi | Hi]; [| rewrite app_nil_r; by apply Hx].
        assert (x = p) as -> by (eapply (nodup_key_inj mq_id q); eauto; congruence).
        unfold is_pending in E. by rewrite Hpi, Hps, !String.eqb_refl in E.
Qed.

Lemma board_step_keeps b b' x :
  board_step b b' -> x ∈ fst b -> mq_status x <> "pending" -> x ∈ fst b'.
Proof.
  intros Hs Hx Hst. destruct Hs as [y q hs | i a r note now q hs]; simpl in *; [apply elem_of_app; by left |].
  apply list_elem_of_In, in_map_iff. exists x. split; [| by apply list_elem_of_In]. unfold is_pending.
  destruct (String.eqb_spec (mq_status x) "pending"); [done |]. by rewrite andb_false_r.
Qed.

Definition empty_board (now : Z) (l : list fault) : ModWorld :=
  {| mw_queue := []; mw_flags := []; mw_history := []; mw_now := now; mw_uuids := O; mw_posts := O; mw_faults := l |}.

(** C29: whatever moderators, users and the detector do, in any order and with
    any database faults, the review queue behaves as the abstract one: every
    item is either pending with no history, or was settled by exactly one action
    of one reviewer, which is the one its history tells; and a settled item
    never changes again. *)
Theorem reviews_settle_once h h' now l :
  let w := run_mod h (empty_board now l) in
  rtc board_step ([], []) (board_of w) /\ board_ok (board_of w) /\
  forall x, x ∈ mw_queue w -> mq_status x <> "pending" -> x ∈ mw_queue (run_mod h' w).
Proof.
  intros w. pose proof (run_mod_board h (empty_board now l)) as Hr. fold w in Hr.
  split_and!; [done | |].
  - eapply (rtc_ind_r board_ok); [| | exact Hr].
    + split_and!; [constructor | by intros ? ?%elem_of_nil..].
    + intros b b' _ Hs Hb. by eapply board_step_ok.
  - intros x Hx Hst. pose proof (run_mod_board h' w) as Hr'.
    change (x ∈ fst (board_of (run_mod h' w))).
    refine (rtc_ind_r (fun b => x ∈ fst b) (board_of w) Hx _ _ Hr').
    intros b b' _ Hs Hb. by eapply board_step_keeps.
Qed.

End reviews.

(** ** The rules *)

Section verdict.
Variable uuid : nat -> string.
Variable is_match : string -> string -> bool.
Variable find_count : string -> string -> Z.
Variable to_lowercase : string -> string.
Variable from_str : string -> option ModerationResponse.
Variable post : nat -> string -> api_reply.
Variable api_key : option string.

Abbreviation moderated := (check_content uuid is_match find_count to_lowercase from_str post api_key).

(** What the detector says of a content in a world: nothing when it is off or fails. *)
Definition opinion (content : string) (w : ModWorld) : option AiDetectionResult :=
  match analyze from_str post api_key (mw_posts w) content with Ok a => Some a | Err _ => None end.

Lemma check_content_result content t i w :
  fst (moderated content t i w) = combine (check is_match find_count to_lowercase content t) (opinion content w).
Proof.
  unfold check_content, is_enabled, call_detector, opinion.
  destruct (bool_decide (is_Some api_key)) eqn:Hk.
  - destruct (analyze from_str post api_key (mw_posts w) content) as [a | e]; cbn beta iota zeta; by case_match.
  - destruct api_key as [k |]; [by apply bool_decide_eq_false in Hk; destruct Hk; eexists |]. cbn beta iota zeta. by case_match.
Qed.

(** What the detector alone is sure of. *)
Definition detector_certain (threshold : f32) (o : option AiDetectionResult) : bool :=
  match o with
  | Some a => existsb (fun v => SFleb threshold (vi_confidence v)) (ad_violations a) || SFleb threshold (ad_score a)
  | None => false
  end.

Definition rules_certain (content : string) (t : ContentType) : bool :=
  is_match SPAM_PHRASES content ||
  match t with
  | Username => existsb (String.eqb (to_lowercase content)) RESERVED_USERNAMES
  | TipMessage | CreatorBio => is_match HATE_SPEECH_PATTERN content
  end.

Lemma confident_rules content t :
  existsb (fun v => SFleb (percent 90) (vi_confidence v)) (check is_match find_count to_lowercase content t) =
  rules_certain content t.
Proof.
  unfold check, rules_certain, check_spam_in_text, check_reserved_username, check_personal_information, check_hate_speech.
  destruct t; rewrite !existsb_app; destruct (0 <? find_count URL_PATTERN content), (is_match SPAM_PHRASES content),
    (has_repeated_chars content); try destruct (existsb (String.eqb _) _); try destruct (is_match EMAIL_PATTERN content);
    try destruct (is_match PHONE_PATTERN content); try destruct (is_match HATE_SPEECH_PATTERN content); by vm_compute.
Qed.

Lemma enqueue_works content t i r w :
  mw_faults w = [] -> has_item (uuid (mw_uuids w)) w = false ->
  exists x, mw_queue (snd (enqueue uuid content t i r w)) = mw_queue w ++ [x] /\
    mq_content_text x = content /\ mq_content_type x = as_str t /\ mq_status x = "pending" /\ mq_flags x = mr_violations r.
Proof.
  intros Hw Hi. unfold enqueue, mod_uuid, mod_query, remote. run_m. rewrite Hw. simpl. unfold insert_detected, has_item in *.
  assert (queued_type (as_str t) = true) as -> by by destruct t. simpl. rewrite Hi. simpl. eexists. by split_and!.
Qed.

(** Certain is above the score that flags. *)
Lemma certain_flags x : SFleb (percent 90) x = true -> SFltb (percent 70) x = true.
Proof.
  replace (percent 90) with (S754_finite false 15099494 (-24)) by by vm_compute.
  replace (percent 70) with (S754_finite false 11744051 (-24)) by by vm_compute.
  assert (11744051 < 15099494)%positive as Hlt by done. revert Hlt.
  generalize 15099494%positive as a, 11744051%positive as b. intros a b Hlt.
  unfold SFleb, SFltb, SFcompare. destruct x as [| [] | | [] m e]; try done.
  destruct (-24 ?= e); try done. change (PosDef.Pos.compare_cont Eq) with Pos.compare.
  destruct (Pos.compare_spec a m), (Pos.compare_spec b m); try done; lia.
Qed.

(** a content is refused exactly when it holds a spam phrase, when a username
    is reserved or a text holds a threat, or when the detector is certain; links,
    addresses, telephone numbers and runs of a character do not refuse it.  What
    is refused is flagged, and whatever is flagged is put on the review queue
    when the database works. *)
Theorem moderation_verdict content t i w :
  let r := fst (moderated content t i w) in
  has_high_confidence_violation r (percent 90) =
    rules_certain content t || detector_certain (percent 90) (opinion content w) /\
  (has_high_confidence_violation r (percent 90) = true -> mr_is_flagged r = true) /\
  (mr_is_flagged r = true -> mw_faults w = [] -> has_item (uuid (mw_uuids w)) w = false ->
   exists x, mw_queue (snd (moderated content t i w)) = mw_queue w ++ [x] /\
     mq_content_text x = content /\ mq_content_type x = as_str t /\ mq_status x = "pending" /\
     mq_flags x = mr_violations r).
Proof.
  intros r. split_and!.
  - unfold r. rewrite check_content_result. unfold has_high_confidence_violation, combine. simpl.
    rewrite existsb_app, confident_rules, <- orb_assoc. f_equal. by destruct (opinion content w).
  - unfold r. rewrite check_content_result. unfold has_high_confidence_violation, combine. simpl.
    intros [H | H]%orb_true_iff; apply orb_true_iff.
    + left. apply existsb_exists in H as (v & Hv & _). apply negb_true_iff, bool_decide_eq_false. intros E. by rewrite E in Hv.
    + right. destruct (opinion content w); simpl in *; [by apply certain_flags | done].
  - unfold r. clear r. intros Hf Hw Hi. rewrite check_content_result in Hf |- *.
    unfold check_content, is_enabled, call_detector, opinion in *.
    destruct (bool_decide (is_Some api_key)) eqn:Hk.
    + destruct (analyze from_str post api_key (mw_posts w) content) as [a | e]; cbn beta iota zeta in *; rewrite Hf;
        match goal with |- context [enqueue _ _ _ _ _ ?w1] => exact (enqueue_works content t i _ w1 Hw Hi) end.
    + destruct api_key as [k |]; [by apply bool_decide_eq_false in Hk; destruct Hk; eexists |].
      change (analyze from_str post None (mw_posts w) content) with (@Err AiDetectionResult string "ANTHROPIC_API_KEY not configured") in *. cbn beta iota zeta in *. rewrite Hf. by apply enqueue_works.
Qed.
End verdict.

(** *** Repeated characters *)

Lemma repeats_spec l : forall prev run,
  (1 <= run <= 6)%nat ->
  repeats prev run l = true <->
  exists pre c suf, replicate run prev ++ l = pre ++ replicate 7 c ++ suf.
Proof.
  induction l as [| d l IH]; intros prev run Hrun; cbn [repeats].
  - split; [done |]. intros (pre & c & suf & E). apply (f_equal (@length string)) in E.
    rewrite !length_app, !length_replicate in E. simpl in E. lia.
  - destruct (String.eqb_spec d prev) as [-> | Hd].
    + assert (replicate run prev ++ prev :: l = replicate (S run) prev ++ l) as Heq
        by by rewrite replicate_S_end, <- app_assoc.
      destruct (7 <=? S run)%nat eqn:E.
      * apply Nat.leb_le in E. assert (run = 6)%nat as -> by lia. split; [| done]. intros _.
        exists [], prev, l. by rewrite Heq.
      * apply Nat.leb_gt in E. rewrite Heq. apply IH. lia.
    + rewrite (IH d 1%nat) by lia. change (replicate 1 d ++ l) with (d :: l). split.
      * intros (pre & c & suf & E). exists (replicate run prev ++ pre), c, suf. by rewrite E, <- app_assoc.
      * intros (pre & c & suf & E). destruct (Nat.le_gt_cases run (length pre)) as [Hle | Hlt].
        -- exists (drop run pre), c, suf. apply (f_equal (drop run)) in E.
           rewrite drop_app_length' in E by by rewrite length_replicate. rewrite E. by apply drop_app_le.
        -- assert (c = prev) as ->.
           { apply (f_equal (fun l => l !! length pre)) in E. rewrite lookup_app_l in E by (rewrite length_replicate; lia).
             rewrite lookup_replicate_2 in E by lia. rewrite lookup_app_r, Nat.sub_diag in E by lia. simpl in E. congruence. }
           assert (d = prev); [| done]. apply (f_equal (fun l => l !! run)) in E.
           rewrite list_lookup_middle in E by by rewrite length_replicate. rewrite lookup_app_r in E by lia.
           rewrite lookup_app_l in E by (rewrite length_replicate; lia). rewrite lookup_replicate_2 in E by lia. congruence.
Qed.

(** The scan finds exactly the runs of seven equal characters. *)
Theorem repeated_chars_correct text :
  has_repeated_chars text = true <-> exists pre c suf, chars text = pre ++ replicate 7 c ++ suf.
Proof.
  unfold has_repeated_chars. destruct (chars text) as [| c l].
  - split; [done |]. intros (pre & c & suf & E). apply (f_equal (@length string)) in E.
    rewrite !length_app in E. simpl in E. lia.
  - apply (repeats_spec l c 1). lia.
Qed.

(** The handlers tell what was done: an action is answered 200 exactly when this
    call settled the item and the answer of the database arrived. *)
Lemma applied_answers i by_ r w :
  let '(a, w') := answer "action" (run_review i by_ r) w in
  fst a = 200 -> exists e, mw_history w' = mw_history w ++ [e] /\ mh_queue_item_id e = i /\ mh_performed_by e = by_.
Proof.
  assert (forall st ac note, let '(a, w') := answer "action" (apply_action i st ac by_ note) w in
    fst a = 200 -> exists e, mw_history w' = mw_history w ++ [e] /\ mh_queue_item_id e = i /\ mh_performed_by e = by_) as H;
    [| destruct r; apply H].
  intros st ac note. unfold answer, apply_action, mod_transaction. unfold mod_query at 1, remote. run_m.
  destruct (pop_fault (mw_faults w)) as [f l]. destruct f; simpl; [| done | done].
  destruct (mod_query (update_item i st ac by_) (with_mod_faults l w)) as [[rows | e] w1] eqn:Hu; [| done].
  apply mod_query_ok in Hu as [l1 [= <- <-]]. destruct (0 <? _) eqn:Hr.
  - destruct (mod_query (insert_history i ac by_ note) _) as [[[] | e] w2] eqn:Hi; [| done].
    apply mod_query_ok in Hi as [l2 Hi]. unfold insert_history in Hi. destruct (has_item _ _); [| done].
    injection Hi as <-. simpl. destruct (pop_fault l2) as [[] l3]; simpl; try done. intros _. by eexists.
  - simpl. destruct (pop_fault l1) as [[] l3]; done.
Qed.

(** ** Examples *)

Definition no_match (p text : string) : bool := false.
Definition demo_match (p text : string) : bool := String.eqb p SPAM_PHRASES && contains "free money" text.
Definition no_count (p text : string) : Z := 0.
Definition demo_ids (n : nat) : string := "id" +:+ print_Z (Z.of_nat n).
Definition no_parse (s : string) : option ModerationResponse := None.
Definition no_post (n : nat) (prompt : string) : api_reply := ApiUnreachable.

(** The same content flagged twice is queued twice: nothing but the primary key
    of the queue can conflict, and it is new each time. *)
Example flagged_twice :
  let op := OpFlag "tip_message" "tip1" "text" "rude" "bob" in
  map mq_id (mw_queue (run_mod demo_ids no_match no_count id no_parse no_post None [op; op] (empty_board 0 []))) =
  ["id0"; "id1"].
Proof. by vm_compute. Qed.

(** A content type the queue does not know leaves a flag without an item. *)
Example flag_without_item :
  let '(a, w) := moderation_flag demo_ids "comment" "c1" "text" "rude" "bob" (empty_board 0 []) in
  fst a = 500 /\ length (mw_flags w) = 1%nat /\ mw_queue w = [].
Proof. by vm_compute. Qed.

Definition demo_reviews : list mod_op :=
  [OpCheck "free money here" TipMessage None; OpReview "id0" "ann" (Warn None); OpReview "id0" "bob" Approve].

Lemma reviews_settle_once_witness :
  let w := run_mod demo_ids demo_match no_count id no_parse no_post None demo_reviews (empty_board 0 [Refused; Fine]) in
  rtc board_step ([], []) (board_of w) /\ board_ok (board_of w) /\
  forall x, x ∈ mw_queue w -> mq_status x <> "pending" ->
    x ∈ mw_queue (run_mod demo_ids demo_match no_count id no_parse no_post None demo_reviews w).
Proof. apply reviews_settle_once. Defined.

Lemma moderation_verdict_witness :
  has_high_confidence_violation
    (fst (check_content demo_ids demo_match no_count id no_parse no_post None "get free money" TipMessage None (empty_board 0 [])))
    (percent 90) = true.
Proof.
  rewrite (proj1 (moderation_verdict demo_ids demo_match no_count id no_parse no_post None "get free money" TipMessage None
                    (empty_board 0 []))). by vm_compute.
Defined.
