(* ===== verification/Indexer.v ===== *)
(** * The blockchain indexer

    src/src/indexer/: the listener that pages through the transactions Horizon
    reports after a cursor, the processor that keeps each payment and each merge
    once in the table indexed_events, the cursor in Redis, and the status of the
    synchronization.

    Horizon's replies and the parsing of a transaction, which may fail, are
    parameters; Redis is the
    interface [Redis].  A call may meet a fault.  A restart loses the cursor in
    memory and reads the one in Redis. *)

From S2P Require Import Prelude Text Errors Redis.

(** src/src/indexer/listener.rs:14-14 MAX_RETRY_DELAY_SECS *)
Definition MAX_RETRY_DELAY_SECS : Z := 60.

(** src/src/indexer/listener.rs:15-15 BASE_RETRY_DELAY_SECS *)
Definition BASE_RETRY_DELAY_SECS : Z := 2.

(** src/src/indexer/listener.rs:19-24 StellarEvent *)
Record StellarEvent : Type := {
  se_id : string;
  se_event_type : string;
  se_transaction_hash : string;
  se_paging_token : string
}.

(** src/src/indexer/listener.rs:28-35 HorizonTransaction *)
Record HorizonTransaction : Type := {
  ht_id : string;
  ht_paging_token : string;
  ht_hash : string;
  ht_successful : bool;
  ht_tx_type : option string
}.

(** A row of indexed_events. *)
Record IndexedEvent : Type := {
  ie_event_id : string;
  ie_event_type : string;
  ie_transaction_hash : string;
  ie_ledger_sequence : Z
}.

(** src/src/indexer/sync.rs:6-11 SyncStatus *)
Record SyncStatus : Type := {
  sy_latest_indexed : Z;
  sy_latest_network : Z;
  sy_blocks_behind : Z;
  sy_is_synced : bool
}.

(** What a GET of the transactions came to. *)
Inductive horizon_reply : Type :=
| HorizonUnreachable
| HorizonStatus (status : Z)
| HorizonBodyLost
| HorizonBody (body : string).

Definition newline : ascii := chr 10.
Definition quote : string := String (chr 34) "".

(** [str::lines] *)
Definition strip_cr (s : string) : string :=
  match rev (list_ascii_of_string s) with
  | c :: l => if Ascii.eqb c (chr 13) then string_of_list_ascii (rev l) else s
  | [] => s
  end.

Definition lines (s : string) : list string :=
  let l := split_on newline s in
  map strip_cr (if bool_decide (last l = Some "") then removelast l else l).

Section indexer.
Context {St : Type} `{Redis string St}.
(** [serde_json::from_str] of a [HorizonTransaction]; the reply to the n-th
    request for the transactions after a cursor; the configured contract. *)
Variable from_str : string -> option HorizonTransaction.
Variable horizon : nat -> string -> horizon_reply.
Variable contract_id : string.

Record IndexWorld : Type := {
  ix_rows : list IndexedEvent;
  ix_cursor : string;
  ix_redis : St;
  ix_now : Z;
  ix_requests : nat;
  ix_faults : list fault
}.

Definition with_ix_faults (l : list fault) (w : IndexWorld) : IndexWorld :=
  {| ix_rows := ix_rows w; ix_cursor := ix_cursor w; ix_redis := ix_redis w; ix_now := ix_now w;
     ix_requests := ix_requests w; ix_faults := l |}.

Definition with_rows (l : list IndexedEvent) (w : IndexWorld) : IndexWorld :=
  {| ix_rows := l; ix_cursor := ix_cursor w; ix_redis := ix_redis w; ix_now := ix_now w;
     ix_requests := ix_requests w; ix_faults := ix_faults w |}.

Definition with_cursor (c : string) (w : IndexWorld) : IndexWorld :=
  {| ix_rows := ix_rows w; ix_cursor := c; ix_redis := ix_redis w; ix_now := ix_now w;
     ix_requests := ix_requests w; ix_faults := ix_faults w |}.

Definition with_redis (s : St) (w : IndexWorld) : IndexWorld :=
  {| ix_rows := ix_rows w; ix_cursor := ix_cursor w; ix_redis := s; ix_now := ix_now w;
     ix_requests := ix_requests w; ix_faults := ix_faults w |}.

Definition later (secs : Z) (w : IndexWorld) : IndexWorld :=
  {| ix_rows := ix_rows w; ix_cursor := ix_cursor w; ix_redis := ix_redis w; ix_now := ix_now w + secs * 1000;
     ix_requests := ix_requests w; ix_faults := ix_faults w |}.

#[export] Instance IndexWorld_networked : Networked IndexWorld := {
  next_fault w := let '(f, l) := pop_fault (ix_faults w) in (f, with_ix_faults l w)
}.

Definition Index : Type -> Type := M IndexWorld AppError.

(** A query whose error becomes [AppError::database_error]. *)
Definition index_query {A} (q : IndexWorld -> AppResult A * IndexWorld) : Index A :=
  r ← remote (database_error "connection") q;
  lift r.

(** ** indexer/cursor.rs *)

Definition CURSOR_KEY : string := "indexer:cursor".

(** src/src/indexer/cursor.rs:13-20 CursorManager::save_cursor *)
Definition save_cursor (cursor : string) : Index unit :=
  index_query (fun w => (Ok tt, with_redis (r_set CURSOR_KEY cursor (ix_redis w)) w)).

(** src/src/indexer/cursor.rs:22-28 CursorManager::get_cursor *)
Definition get_cursor : Index (option string) :=
  index_query (fun w => (Ok (r_get (ix_now w) CURSOR_KEY (ix_redis w)), w)).

(** ** indexer/processor.rs *)

(** src/src/indexer/processor.rs:33-38 the ledger of a paging token *)
Definition ledger_sequence (paging_token : string) : Z :=
  default 0 (s ← head (split_on "-" paging_token); in_range (- 2 ^ 31) (2 ^ 31 - 1) (parse_i64 s)).

Definition indexed (event_id : string) (w : IndexWorld) : bool :=
  existsb (fun r => String.eqb (ie_event_id r) event_id) (ix_rows w).

(** src/src/indexer/processor.rs:40-52 the statement that keeps an event; the columns are VARCHAR(255) *)
Definition insert_event (e : StellarEvent) (event_type : string) (w : IndexWorld) : AppResult unit * IndexWorld :=
  if (255 <? char_count (se_id e))%nat || (255 <? char_count (se_transaction_hash e))%nat then
    (Err (database_error "value too long"), w)
  else if indexed (se_id e) w then (Ok tt, w)
  else (Ok tt, with_rows (ix_rows w ++ [{| ie_event_id := se_id e; ie_event_type := event_type;
                                           ie_transaction_hash := se_transaction_hash e;
                                           ie_ledger_sequence := ledger_sequence (se_paging_token e) |}]) w).

(** src/src/indexer/processor.rs:31-55 EventProcessor::persist_event *)
Definition persist_event (e : StellarEvent) (event_type : string) : Index unit :=
  index_query (insert_event e event_type).

(** src/src/indexer/processor.rs:57-66 EventProcessor::is_processed *)
Definition is_processed (event_id : string) : Index bool := index_query (fun w => (Ok (indexed event_id w), w)).

(** src/src/indexer/processor.rs:14-20 EventProcessor::process_tip_event *)
Definition process_tip_event (e : StellarEvent) : Index unit :=
  processed ← is_processed (se_id e);
  if (processed : bool) then mret tt else persist_event e "tip".

(** src/src/indexer/processor.rs:22-28 EventProcessor::process_withdraw_event *)
Definition process_withdraw_event (e : StellarEvent) : Index unit :=
  processed ← is_processed (se_id e);
  if (processed : bool) then mret tt else persist_event e "withdraw".

(** ** indexer/listener.rs *)

(** src/src/indexer/listener.rs:220-225 BlockchainListener::is_relevant *)
Definition is_relevant (tx : HorizonTransaction) : bool := negb (String.eqb contract_id "") && ht_successful tx.

(** src/src/indexer/listener.rs:228-234 BlockchainListener::classify_event *)
Definition classify_event (tx : HorizonTransaction) : string :=
  match ht_tx_type tx with
  | Some t =>
      if String.eqb t "payment" then "tip" else if String.eqb t "account_merge" then "withdraw" else "unknown"
  | None => "unknown"
  end.

(** src/src/indexer/listener.rs:237-240 BlockchainListener::update_cursor *)
Definition update_cursor (paging_token : string) : Index unit :=
  modify (with_cursor paging_token);;
  save_cursor paging_token.

(** src/src/indexer/listener.rs:182-187 the event of a transaction *)
Definition event_of (tx : HorizonTransaction) : StellarEvent :=
  {| se_id := ht_id tx; se_event_type := classify_event tx; se_transaction_hash := ht_hash tx;
     se_paging_token := ht_paging_token tx |}.

(** src/src/indexer/listener.rs:189-193 the dispatch to the processor *)
Definition dispatch (e : StellarEvent) : Index unit :=
  if String.eqb (se_event_type e) "tip" then process_tip_event e
  else if String.eqb (se_event_type e) "withdraw" then process_withdraw_event e
  else mret tt.

(** src/src/indexer/listener.rs:170-217 BlockchainListener::handle_transaction *)
Definition handle_transaction (tx : HorizonTransaction) : Index unit :=
  if negb (ht_successful tx) then mret tt
  else if negb (is_relevant tx) then update_cursor (ht_paging_token tx)
  else
    dispatch (event_of tx);;
    update_cursor (ht_paging_token tx).

(** src/src/indexer/listener.rs:139-153 the record a line carries, if it carries one *)
Definition payload (line : string) : option string :=
  let line := trim line in
  if String.eqb line "" || starts_with ":" line then None
  else
    match strip_prefix "data: " line with
    | None => None
    | Some data =>
        if String.eqb data (quote +:+ "hello" +:+ quote) || String.eqb data (quote +:+ "bye" +:+ quote) then None
        else Some data
    end.

Definition payloads (body : string) : list string := omap payload (lines body).

(** A record that does not parse is skipped.

    src/src/indexer/listener.rs:155-163 the loop over the lines of a page *)
Definition frames (body : string) : list HorizonTransaction := omap from_str (payloads body).

(** The GET of the transactions after a cursor. *)
Definition fetch (cursor : string) : Index string := fun w =>
  let w' := {| ix_rows := ix_rows w; ix_cursor := ix_cursor w; ix_redis := ix_redis w; ix_now := ix_now w;
               ix_requests := S (ix_requests w); ix_faults := ix_faults w |} in
  match horizon (ix_requests w) cursor with
  | HorizonUnreachable => (Err (internal_with_message "error sending request"), w')
  | HorizonStatus s => (Err (internal_with_message ("Horizon returned HTTP " +:+ print_Z s)), w')
  | HorizonBodyLost => (Err (internal_with_message "error reading a body"), w')
  | HorizonBody body => (Ok body, w')
  end.

(** src/src/indexer/listener.rs:109-167 BlockchainListener::stream_events *)
Definition stream_events (cursor : string) : Index unit :=
  body ← fetch cursor;
  forM (frames body) tt (fun _ tx => handle_transaction tx).

(** src/src/indexer/listener.rs:243-246 BlockchainListener::backoff_delay *)
Definition backoff_delay (attempt : Z) : Z :=
  Z.min (BASE_RETRY_DELAY_SECS * 2 ^ Z.min attempt 10) MAX_RETRY_DELAY_SECS.

(** src/src/indexer/listener.rs:86-105 one round of the loop of start_listening *)
Definition listen_round (st : Z * IndexWorld) : Z * IndexWorld :=
  let '(retry_count, w) := st in
  match stream_events (ix_cursor w) w with
  | (Ok _, w') => (0, w')
  | (Err _, w') =>
      let retry_count := wrap_u32 (retry_count + 1) in
      (retry_count, later (backoff_delay retry_count) w')
  end.

(** src/src/indexer/listener.rs:75-77 the cursor start_listening begins with, in a new process *)
Definition restore_cursor (w : IndexWorld) : IndexWorld :=
  match get_cursor (with_cursor "0" w) with
  | (Ok (Some saved), w') => with_cursor saved w'
  | (_, w') => w'
  end.

(** src/src/indexer/listener.rs:74-106 BlockchainListener::start_listening, the first [n] rounds *)
Definition start_listening (n : nat) (w : IndexWorld) : Z * IndexWorld :=
  Nat.iter n listen_round (0, restore_cursor w).

(** ** indexer/sync.rs *)

(** src/src/indexer/sync.rs:39-47 SyncManager::get_latest_indexed_ledger *)
Definition get_latest_indexed_ledger : Index Z :=
  index_query (fun w =>
    (Ok match map ie_ledger_sequence (ix_rows w) with
        | [] => 0
        | n :: l => wrap_u32 (fold_left Z.max l n)
        end, w)).

(** src/src/indexer/sync.rs:49-51 SyncManager::get_latest_network_ledger *)
Definition get_latest_network_ledger : Z := 1000.

(** src/src/indexer/sync.rs:27-37 SyncManager::get_sync_status *)
Definition get_sync_status : Index SyncStatus :=
  latest_indexed ← get_latest_indexed_ledger;
  let behind := Z.max 0 (get_latest_network_ledger - latest_indexed) in
  mret {| sy_latest_indexed := latest_indexed; sy_latest_network := get_latest_network_ledger;
          sy_blocks_behind := behind; sy_is_synced := behind <? 10 |}.
End indexer.

(** ** Every payment and merge once *)

(** A transaction of the network as the stream tells it. *)
Record NetworkRecord : Type := { nr_token : string; nr_data : string }.

Section indexing.
Context {St : Type} `{RedisLaws string St}.
Variable from_str : string -> option HorizonTransaction.
Variable horizon : nat -> string -> horizon_reply.
Variable contract_id : string.

Abbreviation world := (IndexWorld (St := St)).
Abbreviation framed := (frames from_str).
Abbreviation stream := (stream_events from_str horizon contract_id).
Abbreviation handle := (handle_transaction contract_id).
Abbreviation round := (listen_round from_str horizon contract_id).
Abbreviation listen := (start_listening from_str horizon contract_id).

(** The transactions of the network, in order: the paging token of each, and the
    text of its record on the stream, which may or may not parse. *)
Variable ledger : list NetworkRecord.

Definition parsed (r : NetworkRecord) : option HorizonTransaction := from_str (nr_data r).

Fixpoint after_token (c : string) (l : list NetworkRecord) : list NetworkRecord :=
  match l with
  | [] => []
  | r :: l' => if String.eqb (nr_token r) c then l' else after_token c l'
  end.

Definition after (c : string) : list NetworkRecord := if String.eqb c "0" then ledger else after_token c ledger.

(** Horizon's documented behaviour: the records after a cursor are the first
    ones, however many, of those that follow the transaction with that paging
    token, or of all of them after the cursor 0; and a record that parses tells
    its paging token. *)
Definition pages_in_order : Prop :=
  forall k c body, horizon k c = HorizonBody body -> exists n, payloads body = map nr_data (take n (after c)).
Definition tokens_told : Prop := forall r tx, r ∈ ledger -> parsed r = Some tx -> ht_paging_token tx = nr_token r.

Hypothesis tokens_distinct : NoDup (map nr_token ledger).
Hypothesis token_zero : "0" ∉ map nr_token ledger.
Hypothesis ids_distinct : NoDup (map ht_id (omap parsed ledger)).
Hypothesis horizon_law : pages_in_order.
Hypothesis token_law : tokens_told.

(** The transactions the indexer keeps, and the row of each: where a contract is
    configured, the successful payments and merges. *)
Definition kept (tx : HorizonTransaction) : bool :=
  is_relevant contract_id tx && negb (String.eqb (classify_event tx) "unknown").

Definition row_of (tx : HorizonTransaction) : IndexedEvent :=
  {| ie_event_id := ht_id tx; ie_event_type := classify_event tx; ie_transaction_hash := ht_hash tx;
     ie_ledger_sequence := ledger_sequence (ht_paging_token tx) |}.

(** The transactions of the records that parse. *)
Definition readable : list HorizonTransaction := omap parsed ledger.

Definition covered (l : list NetworkRecord) (rows : list IndexedEvent) : Prop :=
  forall tx, tx ∈ omap parsed l -> kept tx = true -> row_of tx ∈ rows.

(** A cursor no transaction before which is missing. *)
Definition good (c : string) (rows : list IndexedEvent) : Prop :=
  exists l, ledger = l ++ after c /\ covered l rows.

Record indexing (w : world) : Prop := {
  in_cursor : good (ix_cursor w) (ix_rows w);
  in_saved : forall t c, r_get t CURSOR_KEY (ix_redis w) = Some c -> good c (ix_rows w);
  in_once : NoDup (map ie_event_id (ix_rows w));
  in_sound : forall r, r ∈ ix_rows w -> exists tx, tx ∈ readable /\ kept tx = true /\ r = row_of tx
}.

Lemma after_position l r rest : ledger = l ++ r :: rest -> after (nr_token r) = rest.
Proof.
  intros E. unfold after. destruct (String.eqb_spec (nr_token r) "0") as [Hz | _].
  { exfalso. apply token_zero. rewrite <- Hz, E, map_app. apply elem_of_app. right. by left. }
  rewrite E in tokens_distinct |- *. clear E. induction l as [| x l IH]; simpl.
  - by rewrite String.eqb_refl.
  - simpl in tokens_distinct. apply NoDup_cons in tokens_distinct as [Hx Hnd].
    destruct (String.eqb_spec (nr_token x) (nr_token r)) as [Hxt | _]; [| by apply IH].
    exfalso. apply Hx. rewrite Hxt, map_app. apply elem_of_app. right. by left.
Qed.

Lemma covered_app l l' rows : covered (l ++ l') rows <-> covered l rows /\ covered l' rows.
Proof. unfold covered. rewrite omap_app. set_solver. Qed.

Lemma covered_more l rows rows' : rows ⊆ rows' -> covered l rows -> covered l rows'.
Proof. unfold covered. set_solver. Qed.

Lemma good_more c rows rows' : rows ⊆ rows' -> good c rows -> good c rows'.
Proof. intros Hr (l & E & Hc). exists l. split; [done | by eapply covered_more]. Qed.

Lemma good_at l r rest rows :
  ledger = l ++ r :: rest -> covered (l ++ [r]) rows -> good (nr_token r) rows.
Proof. intros E Hc. exists (l ++ [r]). by rewrite (after_position l r rest E), <- app_assoc. Qed.

Lemma indexing_faults l (w : world) : indexing w -> indexing (with_ix_faults l w).
Proof. intros [H1 H2 H3 H4]. by split. Qed.

(** A statement under a fault ran or not; when it answers it ran. *)
Lemma index_query_run {A} (q : world -> AppResult A * world) w :
  exists l, index_query q w = (Err (database_error "connection"), with_ix_faults l w) \/
            index_query q w = q (with_ix_faults l w) \/
            index_query q w = (Err (database_error "connection"), snd (q (with_ix_faults l w))).
Proof.
  unfold index_query, remote. run_m. destruct (pop_fault (ix_faults w)) as [f l]. exists l.
  destruct f; [right; left | by left | right; right]; by destruct (q _) as [[a | e] w2].
Qed.

Lemma update_cursor_keeps c (w : world) :
  good c (ix_rows w) -> indexing w ->
  indexing (snd (update_cursor c w)) /\ ix_rows (snd (update_cursor c w)) = ix_rows w.
Proof.
  intros Hc [H1 H2 H3 H4]. unfold update_cursor. unfold mbind, M_bind, modify. unfold save_cursor.
  assert (indexing (with_cursor c w)) as Hw by by split.
  destruct (index_query_run (fun w => (Ok tt, with_redis (r_set CURSOR_KEY c (ix_redis w)) w)) (with_cursor c w))
    as [l [-> | [-> | ->]]]; simpl; (split; [| done]); [by apply indexing_faults | |];
    (split; simpl; try done; intros t c'; rewrite r_get_set_plain; by intros [= <-]).
Qed.

Lemma indexed_iff i (w : world) : indexed i w = true <-> i ∈ map ie_event_id (ix_rows w).
Proof.
  unfold indexed. rewrite existsb_exists, list_elem_of_In, in_map_iff. split.
  - intros (r & Hr & <-%String.eqb_eq). eauto.
  - intros (r & <- & Hr). exists r. split; [done | apply String.eqb_refl].
Qed.

(** The row with the id of a transaction is its row. *)
Lemma indexed_row tx (w : world) :
  indexing w -> tx ∈ readable -> indexed (ht_id tx) w = true -> row_of tx ∈ ix_rows w.
Proof.
  intros Hw Htx (r & Hid & Hr)%indexed_iff%list_elem_of_In%in_map_iff. apply list_elem_of_In in Hr.
  destruct (in_sound _ Hw r Hr) as (tx' & Htx' & _ & ->). simpl in Hid.
  by rewrite <- (nodup_key_inj ht_id readable tx' tx ids_distinct Htx' Htx Hid).
Qed.

Lemma persist_keeps tx (w : world) :
  indexing w -> tx ∈ readable -> kept tx = true ->
  let '(r, w') := persist_event (event_of tx) (classify_event tx) w in
  indexing w' /\ ix_rows w ⊆ ix_rows w' /\ (is_ok r = true -> row_of tx ∈ ix_rows w').
Proof.
  intros Hw Htx Hk. unfold persist_event.
  assert (forall l, let '(r, w') := insert_event (event_of tx) (classify_event tx) (with_ix_faults l w) in
            indexing w' /\ ix_rows w ⊆ ix_rows w' /\ (is_ok r = true -> row_of tx ∈ ix_rows w')) as Hi.
  { intros l. pose proof (indexing_faults l w Hw) as Hw'. unfold insert_event. destruct (_ || _); [done |].
    destruct (indexed _ _) eqn:E; [split_and!; try done; intros _; by apply (indexed_row tx _ Hw') |].
    destruct Hw as [H1 H2 H3 H4]. assert (ix_rows w ⊆ ix_rows w ++ [row_of tx]) as Hsub by set_solver.
    split_and!; simpl; [| done | set_solver]. split; simpl.
    - by eapply good_more.
    - intros t c Hc. eapply good_more; eauto.
    - rewrite map_app. simpl. apply NoDup_app. split_and!; [done | | apply NoDup_singleton].
      intros i Hin ->%list_elem_of_singleton. apply (indexed_iff _ (with_ix_faults l w)) in Hin. simpl in *. congruence.
    - intros r [Hr | ->%list_elem_of_singleton]%elem_of_app; [auto | by exists tx]. }
  destruct (index_query_run (insert_event (event_of tx) (classify_event tx)) w) as [l Hrun]. specialize (Hi l).
  destruct (insert_event _ _ (with_ix_faults l w)) as [r w']. destruct Hrun as [-> | [-> | ->]].
  - split_and!; [by apply indexing_faults | done | done].
  - done.
  - simpl. destruct Hi as (? & ? & _). by split_and!.
Qed.

Lemma process_keeps tx (w : world) :
  indexing w -> tx ∈ readable -> kept tx = true ->
  let '(r, w') := (processed ← is_processed (ht_id tx);
                   if (processed : bool) then mret tt else persist_event (event_of tx) (classify_event tx)) w in
  indexing w' /\ ix_rows w ⊆ ix_rows w' /\ (is_ok r = true -> row_of tx ∈ ix_rows w').
Proof.
  intros Hw Htx Hk. unfold mbind, M_bind, is_processed.
  destruct (index_query_run (fun w => (Ok (indexed (ht_id tx) w), w)) w) as [l [-> | [-> | ->]]]; simpl;
    [by split_and!; [apply indexing_faults | |] | | by split_and!; [apply indexing_faults | |]].
  pose proof (indexing_faults l w Hw) as Hw'.
  destruct (indexed _ _) eqn:E; [| by apply (persist_keeps tx (with_ix_faults l w))].
  split_and!; [done | done |]. intros _. by apply (indexed_row tx _ Hw').
Qed.

(** What a transaction leads to keeps the rows it had and, when it succeeds, adds its own. *)
Definition leads (l : list NetworkRecord) (w : world) (o : AppResult unit * world) : Prop :=
  indexing (snd o) /\ ix_rows w ⊆ ix_rows (snd o) /\ (is_ok (fst o) = true -> covered l (ix_rows (snd o))).

Lemma covered_one r tx rows :
  parsed r = Some tx -> (kept tx = true -> row_of tx ∈ rows) -> covered [r] rows.
Proof. intros Hp Hk x. simpl. rewrite Hp. by intros ->%list_elem_of_singleton. Qed.

Lemma covered_unparsed r rows : parsed r = None -> covered [r] rows.
Proof. intros Hp x. simpl. rewrite Hp. by intros ?%elem_of_nil. Qed.

Lemma dispatch_keeps r tx (w : world) :
  indexing w -> tx ∈ readable -> parsed r = Some tx -> is_relevant contract_id tx = true ->
  leads [r] w (dispatch (event_of tx) w).
Proof.
  intros Hw Htx Hr Hs.
  assert (kept tx = true -> leads [r] w ((processed ← is_processed (ht_id tx);
            if (processed : bool) then mret tt else persist_event (event_of tx) (classify_event tx)) w)) as Hp.
  { intros Hk. pose proof (process_keeps tx w Hw Htx Hk) as Hp.
    match goal with |- leads _ _ ?o => destruct o as [ans w'] end. destruct Hp as (? & ? & Hans).
    split_and!; [done | done |]. simpl. intros Hok. apply (covered_one r tx); auto. }
  unfold dispatch, process_tip_event, process_withdraw_event. simpl. unfold kept in Hp. rewrite Hs in Hp. simpl in Hp.
  destruct (String.eqb_spec (classify_event tx) "tip") as [Ht | Ht]; [rewrite Ht in Hp; by apply Hp |].
  destruct (String.eqb_spec (classify_event tx) "withdraw") as [Hd | Hd]; [rewrite Hd in Hp; by apply Hp |].
  split_and!; [done | done |]. simpl. intros _. apply (covered_one r tx); [done |]. unfold kept.
  assert (classify_event tx = "unknown") as ->; [| by rewrite andb_false_r].
  revert Ht Hd. unfold classify_event. destruct (ht_tx_type tx) as [t |]; [| done]. by repeat case_match.
Qed.

Lemma handle_keeps l r tx rest (w : world) :
  indexing w -> ledger = l ++ r :: rest -> parsed r = Some tx -> covered l (ix_rows w) -> leads (l ++ [r]) w (handle tx w).
Proof.
  intros Hw E Hp Hl. assert (r ∈ ledger) as Hin by (rewrite E; set_solver).
  assert (tx ∈ readable) as Htx by (apply list_elem_of_omap; eauto). pose proof (token_law r tx Hin Hp) as Htoken.
  unfold handle_transaction. destruct (ht_successful tx) eqn:Hs; simpl.
  2: { split_and!; try done. intros _. apply covered_app. split; [done |]. apply (covered_one r tx); [done |].
       unfold kept, is_relevant. by rewrite Hs, andb_false_r. }
  destruct (is_relevant contract_id tx) eqn:Hrel; simpl.
  - unfold mbind, M_bind. pose proof (dispatch_keeps r tx w Hw Htx Hp Hrel) as Hd.
    destruct (dispatch (event_of tx) w) as [[[] | e] w1]; destruct Hd as (Hw1 & Hsub & Hc); simpl in *; [| done].
    assert (covered (l ++ [r]) (ix_rows w1)) as Hc1 by (apply covered_app; split; [by eapply covered_more | by apply Hc]).
    pose proof (good_at l r rest _ E Hc1) as Hg. rewrite <- Htoken in Hg.
    destruct (update_cursor_keeps (ht_paging_token tx) w1 Hg Hw1) as [Hw2 Hr].
    destruct (update_cursor (ht_paging_token tx) w1) as [o w2]. simpl in *. by split_and!; simpl; rewrite ?Hr.
  - assert (covered (l ++ [r]) (ix_rows w)) as Hc1.
    { apply covered_app. split; [done |]. apply (covered_one r tx); [done |]. unfold kept. by rewrite Hrel. }
    pose proof (good_at l r rest _ E Hc1) as Hg. rewrite <- Htoken in Hg.
    destruct (update_cursor_keeps (ht_paging_token tx) w Hg Hw) as [Hw2 Hr].
    destruct (update_cursor (ht_paging_token tx) w) as [o w2]. simpl in *. by split_and!; simpl; rewrite ?Hr.
Qed.

(** A page, from where it begins: the records that do not parse are passed over. *)
Lemma page_keeps rs : forall l rest (w : world),
  indexing w -> ledger = l ++ rs ++ rest -> covered l (ix_rows w) ->
  leads (l ++ rs) w (forM (omap parsed rs) tt (fun _ tx => handle tx) w).
Proof.
  induction rs as [| r rs IH]; intros l rest w Hw E Hl; simpl.
  - split_and!; [done | done |]. intros _. by rewrite app_nil_r.
  - specialize (IH (l ++ [r]) rest). rewrite <- !app_assoc in IH. simpl in IH.
    destruct (parsed r) as [tx |] eqn:Hp; simpl.
    + unfold mbind, M_bind. pose proof (handle_keeps l r tx (rs ++ rest) w Hw E Hp Hl) as Hh.
      destruct (handle tx w) as [[[] | e] w1]; destruct Hh as (Hw1 & Hsub & Hc); simpl in *; [| done].
      destruct (IH w1 Hw1 E (Hc eq_refl)) as (Hw2 & Hsub2 & Hc2).
      split_and!; [done | by etrans |]. intros Hok. by apply Hc2.
    + apply IH; [done | done |]. apply covered_app. split; [done | by apply covered_unparsed].
Qed.

Lemma framed_payloads body rs : payloads body = map nr_data rs -> framed body = omap parsed rs.
Proof.
  intros Hb. unfold frames. rewrite Hb. clear Hb. induction rs as [| r rs IH]; [done |].
  cbn [map omap list_omap]. unfold parsed at 1. by destruct (from_str (nr_data r)); rewrite IH.
Qed.

Lemma fetch_keeps c (w : world) :
  indexing w -> indexing (snd (fetch horizon c w)) /\ ix_rows (snd (fetch horizon c w)) = ix_rows w /\
  ix_cursor (snd (fetch horizon c w)) = ix_cursor w.
Proof. intros [H1 H2 H3 H4]. unfold fetch. destruct (horizon _ _); by split_and!. Qed.

Lemma stream_keeps (w : world) :
  indexing w -> indexing (snd (stream (ix_cursor w) w)) /\ ix_rows w ⊆ ix_rows (snd (stream (ix_cursor w) w)).
Proof.
  intros Hw. unfold stream_events. unfold mbind, M_bind. destruct (fetch_keeps (ix_cursor w) w Hw) as (Hw1 & Hr & Hcur).
  destruct (fetch horizon (ix_cursor w) w) as [[body | e] w1] eqn:Ef; simpl in *; [| by rewrite Hr].
  assert (exists k, horizon k (ix_cursor w) = HorizonBody body) as [k Hk].
  { unfold fetch in Ef. destruct (horizon (ix_requests w) (ix_cursor w)) eqn:E; try done. exists (ix_requests w).
    injection Ef as <- _. done. }
  destruct (horizon_law _ _ _ Hk) as [n Hn]. destruct (in_cursor _ Hw) as (l & E & Hc).
  rewrite (framed_payloads _ _ Hn).
  destruct (page_keeps (take n (after (ix_cursor w))) l (drop n (after (ix_cursor w))) w1 Hw1) as (Hw2 & Hsub & _).
  - by rewrite take_drop.
  - by rewrite Hr.
  - split; [done | by rewrite <- Hr].
Qed.

Lemma round_keeps st : indexing (snd st) -> indexing (snd (round st)) /\ ix_rows (snd st) ⊆ ix_rows (snd (round st)).
Proof.
  destruct st as [rc w]. simpl. intros Hw. destruct (stream_keeps w Hw) as [Hs Hr]. destruct (stream (ix_cursor w) w) as [[[] | e] w']; simpl in *; [done |].
  split; [| done]. destruct Hs as [H1 H2 H3 H4]. by split.
Qed.

Lemma restore_keeps (w : world) : indexing w -> indexing (restore_cursor w) /\ ix_rows (restore_cursor w) = ix_rows w.
Proof.
  intros Hw. assert (indexing (with_cursor "0" w)) as Hz.
  { destruct Hw as [H1 H2 H3 H4]. split; try done. exists []. split; [done |]. by intros ? ?%elem_of_nil. }
  unfold restore_cursor, get_cursor.
  destruct (index_query_run (fun w : world => (Ok (r_get (ix_now w) CURSOR_KEY (ix_redis w)), w)) (with_cursor "0" w))
    as [l [-> | [-> | ->]]]; [split; [by apply indexing_faults | done] | | split; [by apply indexing_faults | done]].
  simpl. destruct (r_get (ix_now w) CURSOR_KEY (ix_redis w)) as [c |] eqn:Hc; [| split; [by apply indexing_faults | done]].
  split; [| done]. destruct Hw as [H1 H2 H3 H4]. split; try done. by apply (H2 (ix_now w)).
Qed.

(** *** Without faults a page goes through *)

Definition fits (tx : HorizonTransaction) : Prop := (char_count (ht_id tx) <= 255)%nat /\ (char_count (ht_hash tx) <= 255)%nat.

Definition goes_through (o : AppResult unit * world) : Prop := fst o = Ok tt /\ ix_faults (snd o) = [].

Lemma calm_query {A} (q : world -> AppResult A * world) w :
  ix_faults w = [] -> index_query q w = q (with_ix_faults [] w).
Proof. intros Hw. unfold index_query, remote. run_m. rewrite Hw. simpl. by destruct (q _) as [[a | e] w']. Qed.

Lemma update_cursor_calm c (w : world) : ix_faults w = [] -> goes_through (update_cursor c w).
Proof. intros Hw. unfold update_cursor, save_cursor. unfold mbind, M_bind, modify. rewrite calm_query by done. done. Qed.

Lemma process_calm tx t (w : world) :
  ix_faults w = [] -> fits tx ->
  goes_through ((processed ← is_processed (ht_id tx);
                 if (processed : bool) then mret tt else persist_event (event_of tx) t) w).
Proof.
  intros Hw [Hi Hh]. unfold mbind, M_bind, is_processed, persist_event. rewrite calm_query by done.
  destruct (indexed _ _); [done |]. rewrite calm_query by done. unfold insert_event. simpl.
  replace (255 <? char_count (ht_id tx))%nat with false by (symmetry; apply Nat.ltb_ge; lia).
  replace (255 <? char_count (ht_hash tx))%nat with false by (symmetry; apply Nat.ltb_ge; lia). simpl.
  by destruct (indexed _ _).
Qed.

Lemma handle_calm tx (w : world) : ix_faults w = [] -> fits tx -> goes_through (handle tx w).
Proof.
  intros Hw Hf. unfold handle_transaction. destruct (negb (ht_successful tx)); [done |].
  destruct (negb (is_relevant contract_id tx)); [by apply update_cursor_calm |]. unfold mbind at 1, M_bind at 1.
  assert (goes_through (dispatch (event_of tx) w)) as Hd.
  { unfold dispatch, process_tip_event, process_withdraw_event. simpl.
    destruct (String.eqb _ _); [by apply process_calm |]. destruct (String.eqb _ _); [by apply process_calm | done]. }
  destruct (dispatch (event_of tx) w) as [r w1]. destruct Hd as [Hr Hw1]. simpl in *. subst r. by apply update_cursor_calm.
Qed.

Lemma page_calm txs : forall w : world,
  ix_faults w = [] -> Forall fits txs -> goes_through (forM txs tt (fun _ tx => handle tx) w).
Proof.
  induction txs as [| tx txs IH]; intros w Hw Hf; [done |]. apply Forall_cons in Hf as [Ht Hf].
  simpl. unfold mbind, M_bind. pose proof (handle_calm tx w Hw Ht) as Hh.
  destruct (handle tx w) as [r w1]. destruct Hh as [Hr Hw1]. simpl in *. subst r. by apply IH.
Qed.

(** The life of the indexer: processes one after another, each listening for
    some rounds under its own faults. *)
Definition run_process (n : nat) (l : list fault) (w : world) : world := snd (listen n (with_ix_faults l w)).

Definition run_processes (ps : list (nat * list fault)) (w : world) : world :=
  fold_left (fun w p => run_process (fst p) (snd p) w) ps w.

Lemma rounds_keep n : forall st, indexing (snd st) -> indexing (snd (Nat.iter n round st)) /\ ix_rows (snd st) ⊆ ix_rows (snd (Nat.iter n round st)).
Proof.
  induction n as [| n IH]; intros st Hst; simpl; [done |]. destruct (IH st Hst) as [H1 H2].
  destruct (round_keeps _ H1) as [H3 H4]. split; [done | by etrans].
Qed.

Lemma process_run_keeps n l (w : world) : indexing w -> indexing (run_process n l w) /\ ix_rows w ⊆ ix_rows (run_process n l w).
Proof.
  intros Hw. unfold run_process, start_listening. destruct (restore_keeps _ (indexing_faults l w Hw)) as [Hr Hrows].
  destruct (rounds_keep n (0, restore_cursor (with_ix_faults l w)) Hr) as [H1 H2]. simpl in *. rewrite Hrows in H2. by split.
Qed.

Lemma processes_keep ps : forall (w : world), indexing w -> indexing (run_processes ps w).
Proof.
  induction ps as [| p ps IH]; intros w Hw; simpl; [done |]. apply IH. by apply process_run_keeps.
Qed.

Lemma indexing_start (s : St) now :
  (forall t, r_get t CURSOR_KEY s = None) ->
  indexing {| ix_rows := []; ix_cursor := "0"; ix_redis := s; ix_now := now; ix_requests := O; ix_faults := [] |}.
Proof.
  intros Hs. split; simpl.
  - exists []. split; [done |]. by intros ? ?%elem_of_nil.
  - intros t c Hc. by rewrite Hs in Hc.
  - constructor.
  - by intros ? ?%elem_of_nil.
Qed.

(** C30: Let a record be understood when it parses as a transaction, and kept when
    moreover a contract is configured and it is a successful payment or merge.
    Through any number of processes one after another, rounds, failures of
    Horizon, of the database and of Redis, the table holds only rows of kept
    transactions of the ledger, one for each; the cursors in memory and in Redis
    have passed none of them without its row; and a round that Horizon answers
    in full and no fault meets leaves none missing.  A record that does not
    parse is passed over for good ([unparsed_frame_lost]), and without a
    configured contract, the default, nothing is kept: the last clause. *)
Theorem indexer_exactly_once s now ps :
  (forall t, r_get t CURSOR_KEY s = None) ->
  let w := run_processes ps {| ix_rows := []; ix_cursor := "0"; ix_redis := s; ix_now := now; ix_requests := O;
                               ix_faults := [] |} in
  NoDup (map ie_event_id (ix_rows w)) /\
  (forall r, r ∈ ix_rows w -> exists tx, tx ∈ readable /\ kept tx = true /\ r = row_of tx) /\
  (exists l, ledger = l ++ after (ix_cursor w) /\ covered l (ix_rows w)) /\
  (forall body, horizon (ix_requests w) (ix_cursor w) = HorizonBody body ->
     payloads body = map nr_data (after (ix_cursor w)) ->
     ix_faults w = [] -> Forall fits readable -> covered ledger (ix_rows (snd (stream (ix_cursor w) w)))) /\
  (contract_id = "" -> ix_rows w = []).
Proof.
  intros Hs w. pose proof (processes_keep ps _ (indexing_start s now Hs)) as Hw. fold w in Hw.
  split_and!; [apply Hw | apply Hw | apply Hw | |].
  2: { intros Hno. destruct (ix_rows w) as [| r rows] eqn:Hrows; [done |]. exfalso.
       destruct (in_sound _ Hw r) as (tx & _ & Hk & _); [rewrite Hrows; left |].
       unfold kept, is_relevant in Hk. by rewrite Hno in Hk. }
  intros body Hb Hf Hcalm Hfits.
  destruct (in_cursor _ Hw) as (l & E & Hc). destruct (fetch_keeps (ix_cursor w) w Hw) as (Hw1 & Hr & _).
  unfold stream_events in *. unfold mbind, M_bind in *.
  assert (fst (fetch horizon (ix_cursor w) w) = Ok body /\ ix_faults (snd (fetch horizon (ix_cursor w) w)) = []) as [Hfetch Hcalm1]
    by (unfold fetch; by rewrite Hb).
  destruct (fetch horizon (ix_cursor w) w) as [r w1]. simpl in *. subst r. rewrite (framed_payloads _ _ Hf).
  destruct (page_keeps (after (ix_cursor w)) l [] w1 Hw1) as (_ & _ & Hc2); [by rewrite app_nil_r | by rewrite Hr |].
  assert (Forall fits (omap parsed (after (ix_cursor w)))) as Ha.
  { unfold readable in Hfits. rewrite E, omap_app in Hfits. by apply Forall_app in Hfits as [_ ?]. }
  destruct (page_calm _ w1 Hcalm1 Ha) as [Hok _]. rewrite E. apply Hc2. by rewrite Hok.
Qed.
End indexing.

(** ** Delays, pages and cursors *)

Lemma backoff_delay_spec n : 1 <= n -> backoff_delay n = if n <? 5 then 2 ^ (n + 1) else 60.
Proof.
  intros Hn. unfold backoff_delay, BASE_RETRY_DELAY_SECS, MAX_RETRY_DELAY_SECS. destruct (n <? 5) eqn:E; zbool.
  - rewrite (Z.min_l n 10) by lia. rewrite Z.pow_add_r by lia. rewrite Z.min_l; [lia |].
    assert (2 ^ n <= 2 ^ 4) by (apply Z.pow_le_mono_r; lia). lia.
  - assert (2 ^ 5 <= 2 ^ Z.min n 10) by (apply Z.pow_le_mono_r; lia). lia.
Qed.

Section pages.
Context {St : Type} `{Redis string St}.

(** A page of failed transactions leaves the cursor where it was: the next round
    asks for the same page. *)
Lemma failed_page_stays contract_id txs (w : IndexWorld (St := St)) :
  Forall (fun tx => ht_successful tx = false) txs ->
  forM txs tt (fun _ tx => handle_transaction contract_id tx) w = (Ok tt, w).
Proof.
  induction txs as [| tx txs IH]; intros Hf; [done |]. apply Forall_cons in Hf as [Ht Hf]. simpl.
  unfold mbind, M_bind, handle_transaction. rewrite Ht. simpl. by apply IH.
Qed.

(** Without a configured contract the cursor passes over everything. *)
Lemma unset_contract_skips tx (w : IndexWorld (St := St)) :
  ht_successful tx = true ->
  ix_rows (snd (handle_transaction "" tx w)) = ix_rows w /\
  ix_cursor (snd (handle_transaction "" tx w)) = ht_paging_token tx.
Proof.
  intros Hs. unfold handle_transaction, is_relevant. rewrite Hs. simpl. unfold update_cursor, save_cursor, index_query, remote.
  run_m. destruct (pop_fault (ix_faults w)) as [[] l]; done.
Qed.
End pages.

(** ** Examples *)

(** A paging token of Horizon is one number, far above the range of an [i32]:
    its ledger is recorded as 0. *)
Example ledger_is_lost :
  ledger_sequence "213456789012480" = 0 /\ ledger_sequence "51234567-3" = 51234567.
Proof. by vm_compute. Qed.

Definition demo_tx (n : string) (t : option string) : HorizonTransaction :=
  {| ht_id := "id" +:+ n; ht_paging_token := n; ht_hash := "hash" +:+ n; ht_successful := true; ht_tx_type := t |}.

(** Two transactions, and between them a record that does not parse. *)
Definition demo_ledger : list NetworkRecord :=
  [{| nr_token := "1"; nr_data := "one" |}; {| nr_token := "2"; nr_data := "{" |}; {| nr_token := "3"; nr_data := "two" |}].

Definition demo_from_str (s : string) : option HorizonTransaction :=
  if String.eqb s "one" then Some (demo_tx "1" (Some "payment"))
  else if String.eqb s "two" then Some (demo_tx "3" (Some "account_merge")) else None.

Definition demo_horizon (k : nat) (c : string) : horizon_reply :=
  if (k =? 1)%nat then HorizonStatus 503
  else if String.eqb c "0" then
    HorizonBody ("data: one" +:+ String newline ("data: {" +:+ String newline "data: two"))
  else if String.eqb c "1" then HorizonBody ("data: {" +:+ String newline "data: two")
  else HorizonBody "".

Lemma demo_pages : pages_in_order demo_horizon demo_ledger.
Proof.
  intros k c body. unfold demo_horizon, after. destruct (k =? 1)%nat; [done |].
  destruct (String.eqb_spec c "0") as [-> | Hz]; [intros [= <-]; by exists 3%nat |].
  destruct (String.eqb_spec c "1") as [-> | Ho]; [intros [= <-]; by exists 2%nat |].
  intros [= <-]. by exists 0%nat.
Qed.

Lemma demo_tokens : tokens_told demo_from_str demo_ledger.
Proof.
  intros r tx Hr. unfold demo_ledger in Hr. rewrite !elem_of_cons, elem_of_nil in Hr.
  destruct Hr as [-> | [-> | [-> | []]]]; intros Hp; vm_compute in Hp; [injection Hp as <- | | injection Hp as <-]; done.
Qed.

Definition demo_start : IndexWorld (St := redis_map string) :=
  {| ix_rows := []; ix_cursor := "0"; ix_redis := ∅; ix_now := 0; ix_requests := O; ix_faults := [] |}.

Definition demo_processes : list (nat * list fault) := [(1%nat, [Fine; Fine; Fine; ReplyLost]); (2%nat, [])].

Lemma indexer_exactly_once_witness :
  let w := run_processes demo_from_str demo_horizon "contract" demo_processes demo_start in
  NoDup (map ie_event_id (ix_rows w)) /\ ix_cursor w = "3" /\
  (exists l, demo_ledger = l ++ after demo_ledger "3" /\ covered demo_from_str "contract" l (ix_rows w)).
Proof.
  destruct (indexer_exactly_once demo_from_str demo_horizon "contract" demo_ledger
    ltac:(apply (bool_decide_unpack _); by vm_compute) ltac:(apply (bool_decide_unpack _); by vm_compute)
    ltac:(apply (bool_decide_unpack _); by vm_compute) demo_pages demo_tokens (∅ : redis_map string) 0 demo_processes
    ltac:(done)) as (H1 & _ & H3 & _).
  split; [exact H1 |]. assert (ix_cursor (run_processes demo_from_str demo_horizon "contract" demo_processes demo_start) = "3")
    as Hc by (vm_compute; reflexivity).
  split; [exact Hc |]. rewrite <- Hc. exact H3.
Defined.

(** A record that does not parse is skipped, and the next transaction moves the
    cursor past it, in memory and in Redis: no later round asks for it again,
    not even one of a program that could read it. *)
Example unparsed_frame_lost :
  let w := run_processes demo_from_str demo_horizon "contract" demo_processes demo_start in
  r_get 0 CURSOR_KEY (ix_redis w) = Some "3" /\ after demo_ledger "3" = [] /\ map ie_event_id (ix_rows w) = ["id1"; "id3"].
Proof. by vm_compute. Qed.
