(* ===== verification/Sql.v ===== *)
(** * Tables in Postgres: statements, transactions and histories

    What the components whose whole state is a set of tables share.  A statement
    (crate sqlx, src/src/db/) reads the clock of the server and the tables; it
    answers and replaces the tables, or fails and leaves them.  A transaction
    takes effect at its commit: the other statements of a history do not see
    the states in between.  Every call meets what the schedule of faults holds
    for it, and the commit may lose its reply. *)

From S2P Require Import Prelude Errors.

(** The tables, [NOW()] of the server and [Utc::now()] of the process in
    microseconds, the random ids drawn so far, and the schedule of faults. *)
Record Db (T : Type) : Type := {
  db_tables : T;
  db_now : Z;
  db_utc : Z;
  db_uuids : nat;
  db_faults : list fault
}.
Arguments db_tables {T}. Arguments db_now {T}. Arguments db_utc {T}.
Arguments db_uuids {T}. Arguments db_faults {T}.

Definition with_tables {T} (t : T) (w : Db T) : Db T :=
  {| db_tables := t; db_now := db_now w; db_utc := db_utc w; db_uuids := db_uuids w; db_faults := db_faults w |}.

Definition with_faults {T} (l : list fault) (w : Db T) : Db T :=
  {| db_tables := db_tables w; db_now := db_now w; db_utc := db_utc w; db_uuids := db_uuids w; db_faults := l |}.

Definition with_clocks {T} (now utc : Z) (w : Db T) : Db T :=
  {| db_tables := db_tables w; db_now := now; db_utc := utc; db_uuids := db_uuids w; db_faults := db_faults w |}.

#[export] Instance Db_networked {T} : Networked (Db T) := {
  next_fault w := let '(f, l) := pop_fault (db_faults w) in (f, with_faults l w)
}.

Definition Sql (T : Type) : Type -> Type := M (Db T) sqlx_error.

(** ** Statements *)

Definition statement (T A : Type) : Type := Z -> T -> result (A * T) sqlx_error.

Definition run_statement {T A} (q : statement T A) (w : Db T) : result A sqlx_error * Db T :=
  match q (db_now w) (db_tables w) with
  | Ok (a, t) => (Ok a, with_tables t w)
  | Err e => (Err e, w)
  end.

Definition sql {T A} (q : statement T A) : Sql T A :=
  r ← remote SqlxOther (run_statement q);
  lift r.

(** [SELECT]: all its rows, or [fetch_one] of the row it finds. *)
Definition select {T A} (f : Z -> T -> A) : Sql T A := sql (fun now t => Ok (f now t, t)).

Definition select_one {T A} (f : Z -> T -> option A) : Sql T A :=
  sql (fun now t => match f now t with Some a => Ok (a, t) | None => Err SqlxRowNotFound end).

(** [Uuid::new_v4()], and [DEFAULT gen_random_uuid()] of the row that is about to be inserted *)
Definition fresh {T E} (uuid : nat -> string) : M (Db T) E string := fun w =>
  (Ok (uuid (db_uuids w)),
   {| db_tables := db_tables w; db_now := db_now w; db_utc := db_utc w; db_uuids := S (db_uuids w);
      db_faults := db_faults w |}).

(** [Utc::now()] *)
Definition utc_now {T E} : M (Db T) E Z := gets db_utc.

(** The violations a constraint is reported with. *)
Definition unique_violation (constraint : string) : sqlx_error := SqlxDatabase (Some "23505") (Some constraint).
Definition foreign_key_violation (constraint : string) : sqlx_error := SqlxDatabase (Some "23503") (Some constraint).
Definition check_violation (constraint : string) : sqlx_error := SqlxDatabase (Some "23514") (Some constraint).
Definition datatype_mismatch : sqlx_error := SqlxDatabase (Some "42804") None.

(** ** Rows *)

(** [UPDATE .. SET .. WHERE p]: the rows after it, and the rows it changed. *)
Definition update_where {R} (p : R -> bool) (f : R -> R) (l : list R) : list R :=
  map (fun r => if p r then f r else r) l.

Definition updated {R} (p : R -> bool) (f : R -> R) (l : list R) : list R := map f (List.filter p l).

(** [DELETE .. WHERE p] *)
Definition delete_where {R} (p : R -> bool) (l : list R) : list R := List.filter (fun r => negb (p r)) l.

(** ** Transactions *)

(** [pool.begin()], the body on the transaction, and [tx.commit()]; it is
    dropped, hence rolled back, when the body returns early. *)
Definition transaction {T E A} (of_sqlx : sqlx_error -> E) (body : M (Db T) E A) : M (Db T) E A := fun w =>
  match map_err of_sqlx (sql (fun _ t => Ok (tt, t))) w with
  | (Err e, w1) => (Err e, w1)
  | (Ok _, w1) =>
      match body w1 with
      | (Err e, w2) => (Err e, with_tables (db_tables w) w2)
      | (Ok a, w2) =>
          match pop_fault (db_faults w2) with
          | (Fine, l) => (Ok a, with_faults l w2)
          | (Refused, l) => (Err (of_sqlx SqlxOther), with_tables (db_tables w) (with_faults l w2))
          | (ReplyLost, l) => (Err (of_sqlx SqlxOther), with_faults l w2)
          end
      end
  end.

(** ** Histories *)

(** What happens to the tables: an operation of some process, the clocks move,
    and the faults of the next calls are drawn. *)
Inductive happening (Op : Type) : Type :=
| Does (o : Op)
| Clocks (now utc : Z)
| Weather (l : list fault).
Arguments Does {Op} o. Arguments Clocks {Op} now utc. Arguments Weather {Op} l.

Definition happens {T Op} (exec : Op -> Db T -> Db T) (w : Db T) (h : happening Op) : Db T :=
  match h with
  | Does o => exec o w
  | Clocks now utc => with_clocks now utc w
  | Weather l => with_faults l w
  end.

Definition play {T Op} (exec : Op -> Db T -> Db T) (l : list (happening Op)) (w : Db T) : Db T :=
  fold_left (happens exec) l w.

(** ** Lemmas *)

(** What a call did: nothing, or what the statement does; when it answers, it is the statement's answer. *)
Lemma sql_outcome {T A} (q : statement T A) w r w' :
  sql q w = (r, w') ->
  db_uuids w' = db_uuids w /\ db_now w' = db_now w /\ db_utc w' = db_utc w /\
  match r with
  | Ok a => q (db_now w) (db_tables w) = Ok (a, db_tables w')
  | Err e => db_tables w' = db_tables w \/ exists a, q (db_now w) (db_tables w) = Ok (a, db_tables w')
  end.
Proof.
  unfold sql, remote, run_statement, lift. bind_step. simpl.
  destruct (pop_fault (db_faults w)) as [[] l]; simpl;
    destruct (q (db_now w) (db_tables w)) as [[a t] | e] eqn:Hq; intros [= <- <-]; simpl; eauto 7.
Qed.

(** Invariants of the tables.  Because a statement fails on a primary key that
    is taken, they need not speak of the ids drawn. *)
Abbreviation kept J m := (stable (fun w => J (db_tables w)) m).

(** A call that answers. *)
Lemma sql_ok {T A} (q : statement T A) w a w' :
  sql q w = (Ok a, w') -> q (db_now w) (db_tables w) = Ok (a, db_tables w') /\ db_now w' = db_now w.
Proof. intros H. by apply sql_outcome in H as (_ & ? & _ & ?). Qed.

Lemma select_ok {T A} (f : Z -> T -> A) w a w' :
  select f w = (Ok a, w') -> a = f (db_now w) (db_tables w) /\ db_tables w' = db_tables w /\ db_now w' = db_now w.
Proof. intros [[= Ha Ht] ?]%sql_ok. auto. Qed.

Lemma select_one_ok {T A} (f : Z -> T -> option A) w a w' :
  select_one f w = (Ok a, w') ->
  f (db_now w) (db_tables w) = Some a /\ db_tables w' = db_tables w /\ db_now w' = db_now w.
Proof. intros [H ?]%sql_ok. destruct (f _ _) as [x|]; simplify_eq; auto. Qed.

Section invariants.
Context {T E : Type} (J : T -> Prop).

Lemma kept_sql {A} (q : statement T A) :
  (forall now t a t', J t -> q now t = Ok (a, t') -> J t') -> kept J (sql q).
Proof.
  intros Hq w Hw. destruct (sql q w) as [r w'] eqn:Hr.
  apply sql_outcome in Hr as (_ & _ & _ & Hr). simpl.
  destruct r as [a | e]; [eauto | destruct Hr as [Hr | [a Ha]]; [by rewrite Hr | eauto]].
Qed.

Lemma kept_select {A} (f : Z -> T -> A) : kept J (select f).
Proof. apply kept_sql. by intros now t a t' Hw [= <- <-]. Qed.

Lemma kept_select_one {A} (f : Z -> T -> option A) : kept J (select_one f).
Proof. apply kept_sql. intros now t a t' Hw. by destruct (f now t); intros [= <- <-]. Qed.

Lemma kept_fresh uuid : kept J (fresh uuid : M (Db T) E string).
Proof. by intros w Hw. Qed.

(** A transaction that commits keeps [J] when its body as a whole does. *)
Lemma kept_transaction_body {A} (of_sqlx : sqlx_error -> E) (body : M (Db T) E A) :
  (forall w a w', J (db_tables w) -> body w = (Ok a, w') -> J (db_tables w')) -> kept J (transaction of_sqlx body).
Proof.
  intros Hbody w Hw. unfold transaction, map_err.
  destruct (sql _ w) as [[[] | e] w1] eqn:Hbegin; apply sql_outcome in Hbegin as (_ & _ & _ & Ht).
  2: { simpl. destruct Ht as [Ht | [[] [= Ht]]]; [by rewrite Ht | by rewrite <- Ht]. }
  injection Ht as Ht. specialize (Hbody w1). rewrite <- Ht in Hbody.
  destruct (body w1) as [[a | e] w2]; [|done].
  destruct (pop_fault (db_faults w2)) as [[] l]; simpl; [by eapply Hbody | done | by eapply Hbody].
Qed.

Lemma kept_transaction {A} (of_sqlx : sqlx_error -> E) (body : M (Db T) E A) :
  kept J body -> kept J (transaction of_sqlx body).
Proof.
  intros Hbody. apply kept_transaction_body. intros w a w' Hw Hb. specialize (Hbody w Hw). by rewrite Hb in Hbody.
Qed.

Lemma play_kept_in {Op} (exec : Op -> Db T -> Db T) l w :
  (forall o w, Does o ∈ l -> J (db_tables w) -> J (db_tables (exec o w))) -> J (db_tables w) ->
  J (db_tables (play exec l w)).
Proof.
  revert w. induction l as [|h l IH]; intros w Hexec Hw; [done|].
  apply IH; [intros o w' Ho; apply Hexec; by right|]. destruct h; simpl; [apply Hexec; [by left | done] | done | done].
Qed.

Lemma play_kept {Op} (exec : Op -> Db T -> Db T) l w :
  (forall o w, J (db_tables w) -> J (db_tables (exec o w))) -> J (db_tables w) -> J (db_tables (play exec l w)).
Proof. intros Hexec. apply play_kept_in. auto. Qed.
End invariants.

#[export] Hint Resolve kept_select kept_select_one kept_fresh kept_transaction : stable.

(** Without faults a call is its statement. *)
Lemma sql_calm {T A} (q : statement T A) w : db_faults w = [] -> sql q w = run_statement q w.
Proof.
  intros Hw. unfold sql, remote, lift. bind_step. simpl. rewrite Hw. simpl.
  replace (with_faults [] w) with w by (destruct w; simpl in *; by subst).
  by destruct (run_statement q w).
Qed.

Lemma transaction_calm {T E A} (of_sqlx : sqlx_error -> E) (body : M (Db T) E A) w r w' :
  db_faults w = [] -> body w = (r, w') -> db_faults w' = [] ->
  transaction of_sqlx body w = (r, if is_ok r then w' else with_tables (db_tables w) w').
Proof.
  intros Hw Hb Hw'. unfold transaction, map_err. rewrite sql_calm by done. unfold run_statement. simpl.
  replace (with_tables (db_tables w) w) with w by (by destruct w). rewrite Hb.
  destruct r as [a | e]; [|done]. rewrite Hw'. simpl. f_equal. destruct w'; simpl in *. by subst.
Qed.

(** Calls draw no faults when there are none left. *)

Lemma play_app {T Op} (exec : Op -> Db T -> Db T) l1 l2 w : play exec (l1 ++ l2) w = play exec l2 (play exec l1 w).
Proof. apply fold_left_app. Qed.

(** ** Rows after an update or a deletion *)

Lemma update_where_fmap {R K} (k : R -> K) p f (l : list R) :
  (forall r, k (f r) = k r) -> k <$> update_where p f l = k <$> l.
Proof.
  intros Hk. induction l as [|r l IH]; [done|]. cbn. fold (update_where p f l). rewrite IH. by destruct (p r); rewrite ?Hk.
Qed.

Lemma elem_of_update_where {R} p (f : R -> R) l x :
  x ∈ update_where p f l <-> (x ∈ l /\ p x = false) \/ exists r, r ∈ l /\ p r = true /\ x = f r.
Proof.
  unfold update_where. rewrite list_elem_of_fmap. split.
  - intros (r & -> & Hr). destruct (p r) eqn:Hp; [right; by exists r | left; done].
  - intros [[Hx Hp] | (r & Hr & Hp & ->)]; eexists; (split; [|eassumption]); by rewrite Hp.
Qed.

Lemma update_where_image {R} (p : R -> bool) (f : R -> R) l x : x ∈ l -> (if p x then f x else x) ∈ update_where p f l.
Proof. intros Hx. apply elem_of_update_where. destruct (p x) eqn:Hp; [right; by exists x | by left]. Qed.

Lemma elem_of_delete_where {R} p (l : list R) x : x ∈ delete_where p l <-> x ∈ l /\ p x = false.
Proof. unfold delete_where. rewrite !list_elem_of_In, filter_In, negb_true_iff. done. Qed.

Lemma list_filter_sublist {R} (p : R -> bool) l : sublist (List.filter p l) l.
Proof. induction l as [|r l IH]; [constructor|]. simpl. destruct (p r); by constructor. Qed.

Lemma delete_where_sublist {R} p (l : list R) : sublist (delete_where p l) l.
Proof. apply list_filter_sublist. Qed.

Lemma list_filter_none {R} (p : R -> bool) l : (forall x, x ∈ l -> p x = false) -> List.filter p l = [].
Proof.
  induction l as [|x l IH]; intros H; [done|]. simpl. rewrite H by set_solver. apply IH. set_solver.
Qed.
