(* ===== verification/Subscriptions.v ===== *)
(** * Subscriptions

    src/src/controllers/subscription_controller.rs (tiers, benefits,
    subscriptions and their payments), the renewal loop of
    src/src/services/subscription_service.rs and the handlers of
    src/src/routes/subscriptions.rs.

    The tables carry the constraints of migration 0038.  Times are in
    microseconds; the sessions of sqlx are in UTC, where an interval of 30 days
    is 30 times 24 hours. *)

From S2P Require Import Prelude Text Codec Errors Sql.

(** ** models/subscription.rs *)

(** src/src/models/subscription.rs:8-18 SubscriptionTier *)
Record SubscriptionTier : Type := {
  tr_id : string;
  tr_creator_username : string;
  tr_name : string;
  tr_description : option string;
  tr_price_xlm : string;
  tr_is_active : bool;
  tr_position : Z;
  tr_created_at : Z;
  tr_updated_at : Z
}.

(** src/src/models/subscription.rs:21-26 TierBenefit *)
Record TierBenefit : Type := {
  tb_id : string;
  tb_tier_id : string;
  tb_description : string;
  tb_position : Z
}.

(** src/src/models/subscription.rs:29-41 Subscription *)
Record Subscription : Type := {
  su_id : string;
  su_tier_id : string;
  su_creator_username : string;
  su_subscriber_ref : string;
  su_status : string;
  su_started_at : Z;
  su_current_period_start : Z;
  su_current_period_end : Z;
  su_cancelled_at : option Z;
  su_created_at : Z;
  su_updated_at : Z
}.

(** src/src/models/subscription.rs:44-53 SubscriptionPayment *)
Record SubscriptionPayment : Type := {
  sp_id : string;
  sp_subscription_id : string;
  sp_amount_xlm : string;
  sp_transaction_hash : option string;
  sp_status : string;
  sp_period_start : Z;
  sp_period_end : Z;
  sp_created_at : Z
}.

(** src/src/models/subscription.rs:58-66 CreateTierRequest *)
Record CreateTierRequest : Type := {
  ct_name : string;
  ct_description : option string;
  ct_price_xlm : string;
  ct_benefits : list string;
  ct_position : Z
}.

(** src/src/models/subscription.rs:69-75 UpdateTierRequest *)
Record UpdateTierRequest : Type := {
  ut_name : option string;
  ut_description : option string;
  ut_price_xlm : option string;
  ut_is_active : option bool;
  ut_position : option Z
}.

(** src/src/models/subscription.rs:78-82 AddBenefitRequest *)
Record AddBenefitRequest : Type := {
  ab_description : string;
  ab_position : Z
}.

(** src/src/models/subscription.rs:85-90 CreateSubscriptionRequest *)
Record CreateSubscriptionRequest : Type := {
  cs_tier_id : string;
  cs_subscriber_ref : string;
  cs_transaction_hash : option string
}.

(** The job [dispatch_notification] queues: the two notification types it uses. *)
Inductive NotificationType : Type := TipReceived | TipFailed.

(** src/src/services/subscription_service.rs:96-101 the payload of the job *)
Record Notice : Type := {
  no_creator_id : string;
  no_tip_id : string;
  no_notification_type : NotificationType;
  no_recipient_email : string
}.

(** The tables; of the creators the username and the id. *)
Record SubTables : Type := {
  sb_creators : list (string * string);
  sb_tiers : list SubscriptionTier;
  sb_benefits : list TierBenefit;
  sb_subscriptions : list Subscription;
  sb_payments : list SubscriptionPayment;
  sb_jobs : list Notice
}.

Definition with_tiers (tiers : list SubscriptionTier) (benefits : list TierBenefit) (t : SubTables) : SubTables :=
  {| sb_creators := sb_creators t; sb_tiers := tiers; sb_benefits := benefits;
     sb_subscriptions := sb_subscriptions t; sb_payments := sb_payments t; sb_jobs := sb_jobs t |}.

Definition with_subscriptions (l : list Subscription) (t : SubTables) : SubTables :=
  {| sb_creators := sb_creators t; sb_tiers := sb_tiers t; sb_benefits := sb_benefits t;
     sb_subscriptions := l; sb_payments := sb_payments t; sb_jobs := sb_jobs t |}.

Definition with_payments (l : list SubscriptionPayment) (t : SubTables) : SubTables :=
  {| sb_creators := sb_creators t; sb_tiers := sb_tiers t; sb_benefits := sb_benefits t;
     sb_subscriptions := sb_subscriptions t; sb_payments := l; sb_jobs := sb_jobs t |}.

Definition with_jobs (l : list Notice) (t : SubTables) : SubTables :=
  {| sb_creators := sb_creators t; sb_tiers := sb_tiers t; sb_benefits := sb_benefits t;
     sb_subscriptions := sb_subscriptions t; sb_payments := sb_payments t; sb_jobs := l |}.

Definition Subs : Type -> Type := Sql SubTables.

Definition find_tier (i : string) (t : SubTables) : option SubscriptionTier :=
  find (fun x => String.eqb (tr_id x) i) (sb_tiers t).

Definition find_subscription (i : string) (t : SubTables) : option Subscription :=
  find (fun s => String.eqb (su_id s) i) (sb_subscriptions t).

(** ** controllers/subscription_controller.rs: tiers *)

Section operations.
Variable uuid : nat -> string.

(** src/src/controllers/subscription_controller.rs:19-30 the statement that inserts a tier *)
Definition insert_tier (i creator_username : string) (req : CreateTierRequest) : statement SubTables SubscriptionTier :=
  fun now t =>
    let tier := {| tr_id := i; tr_creator_username := creator_username; tr_name := ct_name req;
                   tr_description := ct_description req; tr_price_xlm := ct_price_xlm req; tr_is_active := true;
                   tr_position := ct_position req; tr_created_at := now; tr_updated_at := now |} in
    if existsb (fun c => String.eqb (fst c) creator_username) (sb_creators t) then
      if find_tier i t then Err (unique_violation "subscription_tiers_pkey")
      else Ok (tier, with_tiers (sb_tiers t ++ [tier]) (sb_benefits t) t)
    else Err (foreign_key_violation "subscription_tiers_creator_username_fkey").

(** src/src/controllers/subscription_controller.rs:119-126 the statement that inserts a benefit *)
Definition insert_benefit (i tier_id description : string) (position : Z) : statement SubTables TierBenefit :=
  fun now t =>
    let b := {| tb_id := i; tb_tier_id := tier_id; tb_description := description; tb_position := position |} in
    if find_tier tier_id t then
      if existsb (fun x => String.eqb (tb_id x) i) (sb_benefits t) then Err (unique_violation "tier_benefits_pkey")
      else Ok (b, with_tiers (sb_tiers t) (sb_benefits t ++ [b]) t)
    else Err (foreign_key_violation "tier_benefits_tier_id_fkey").

(** [iter().enumerate()] *)
Definition enumerate {A} (l : list A) : list (nat * A) := combine (seq 0 (length l)) l.

(** src/src/controllers/subscription_controller.rs:12-47 create_tier *)
Definition create_tier (creator_username : string) (req : CreateTierRequest)
    : Subs (SubscriptionTier * list TierBenefit) :=
  transaction id (
    i ← fresh uuid;
    tier ← sql (insert_tier i creator_username req);
    benefits ← forM (enumerate (ct_benefits req)) [] (fun acc '(k, desc) =>
      j ← fresh uuid;
      b ← sql (insert_benefit j (tr_id tier) desc (wrap_i32 (Z.of_nat k)));
      mret (acc ++ [b]));
    mret (tier, benefits)).

(** src/src/controllers/subscription_controller.rs:49-54 get_tier *)
Definition get_tier (i : string) : Subs SubscriptionTier := select_one (fun _ t => find_tier i t).

Definition by_position (x y : SubscriptionTier) : bool :=
  (tr_position x <? tr_position y) || ((tr_position x =? tr_position y) && (tr_created_at x <=? tr_created_at y)).

(** src/src/controllers/subscription_controller.rs:56-66 list_tiers *)
Definition list_tiers (creator_username : string) : Subs (list SubscriptionTier) :=
  select (fun _ t =>
    sort_by by_position (List.filter (fun x => String.eqb (tr_creator_username x) creator_username) (sb_tiers t))).

(** src/src/controllers/subscription_controller.rs:74-81 what the update does to the row *)
Definition edit_tier (req : UpdateTierRequest) (now : Z) (x : SubscriptionTier) : SubscriptionTier :=
  {| tr_id := tr_id x; tr_creator_username := tr_creator_username x; tr_name := default (tr_name x) (ut_name req);
     tr_description := match ut_description req with Some d => Some d | None => tr_description x end;
     tr_price_xlm := default (tr_price_xlm x) (ut_price_xlm req);
     tr_is_active := default (tr_is_active x) (ut_is_active req);
     tr_position := default (tr_position x) (ut_position req); tr_created_at := tr_created_at x;
     tr_updated_at := now |}.

(** src/src/controllers/subscription_controller.rs:68-92 update_tier *)
Definition update_tier (i : string) (req : UpdateTierRequest) : Subs SubscriptionTier :=
  sql (fun now t =>
    let p x := String.eqb (tr_id x) i in
    match updated p (edit_tier req now) (sb_tiers t) with
    | x :: _ => Ok (x, with_tiers (update_where p (edit_tier req now) (sb_tiers t)) (sb_benefits t) t)
    | [] => Err SqlxRowNotFound
    end).

(** src/src/controllers/subscription_controller.rs:94-101 delete_tier: its benefits go with it, its
    subscriptions stand in the way *)
Definition delete_tier (i : string) : Subs bool :=
  sql (fun _ t =>
    if find_tier i t then
      if existsb (fun s => String.eqb (su_tier_id s) i) (sb_subscriptions t) then
        Err (foreign_key_violation "subscriptions_tier_id_fkey")
      else Ok (true, with_tiers (delete_where (fun x => String.eqb (tr_id x) i) (sb_tiers t))
                       (delete_where (fun b => String.eqb (tb_tier_id b) i) (sb_benefits t)) t)
    else Ok (false, t)).

(** ** Benefits *)

(** src/src/controllers/subscription_controller.rs:105-112 list_benefits *)
Definition list_benefits (tier_id : string) : Subs (list TierBenefit) :=
  select (fun _ t =>
    sort_by (fun x y => tb_position x <=? tb_position y)
      (List.filter (fun b => String.eqb (tb_tier_id b) tier_id) (sb_benefits t))).

(** src/src/controllers/subscription_controller.rs:114-127 add_benefit *)
Definition add_benefit (tier_id : string) (req : AddBenefitRequest) : Subs TierBenefit :=
  i ← fresh uuid;
  sql (insert_benefit i tier_id (ab_description req) (ab_position req)).

(** src/src/controllers/subscription_controller.rs:129-136 remove_benefit *)
Definition remove_benefit (benefit_id : string) : Subs bool :=
  sql (fun _ t =>
    let p b := String.eqb (tb_id b) benefit_id in
    Ok (existsb p (sb_benefits t), with_tiers (sb_tiers t) (delete_where p (sb_benefits t)) t)).

(** ** Subscriptions *)

Definition thirty_days : Z := 30 * 86400 * 1000000.

(** src/src/controllers/subscription_controller.rs:149-160 the statement that inserts a subscription *)
Definition insert_subscription (i : string) (req : CreateSubscriptionRequest) (creator_username : string)
    (period_end : Z) : statement SubTables Subscription :=
  fun now t =>
    let s := {| su_id := i; su_tier_id := cs_tier_id req; su_creator_username := creator_username;
                su_subscriber_ref := cs_subscriber_ref req; su_status := "active"; su_started_at := now;
                su_current_period_start := now; su_current_period_end := period_end; su_cancelled_at := None;
                su_created_at := now; su_updated_at := now |} in
    if find_tier (cs_tier_id req) t then
      if find_subscription i t then Err (unique_violation "subscriptions_pkey")
      else if existsb (fun x => String.eqb (su_tier_id x) (cs_tier_id req) &&
                                String.eqb (su_subscriber_ref x) (cs_subscriber_ref req)) (sb_subscriptions t)
      then Err (unique_violation "subscriptions_tier_id_subscriber_ref_key")
      else Ok (s, with_subscriptions (sb_subscriptions t ++ [s]) t)
    else Err (foreign_key_violation "subscriptions_tier_id_fkey").

(** src/src/controllers/subscription_controller.rs:163-179 the statement that records a payment *)
Definition insert_payment (i : string) (s : Subscription) (amount : string) (transaction_hash : option string)
    (period_end : Z) : statement SubTables unit :=
  fun now t =>
    let p := {| sp_id := i; sp_subscription_id := su_id s; sp_amount_xlm := amount;
                sp_transaction_hash := transaction_hash;
                sp_status := if transaction_hash then "completed" else "pending";
                sp_period_start := su_current_period_start s; sp_period_end := period_end; sp_created_at := now |} in
    if find_subscription (su_id s) t then
      if existsb (fun x => String.eqb (sp_id x) i) (sb_payments t) then
        Err (unique_violation "subscription_payments_pkey")
      else Ok (tt, with_payments (sb_payments t ++ [p]) t)
    else Err (foreign_key_violation "subscription_payments_subscription_id_fkey").

(** src/src/controllers/subscription_controller.rs:140-183 subscribe *)
Definition subscribe (req : CreateSubscriptionRequest) : Subs Subscription :=
  tier ← get_tier (cs_tier_id req);
  now ← utc_now;
  let period_end := now + thirty_days in
  transaction id (
    i ← fresh uuid;
    sub ← sql (insert_subscription i req (tr_creator_username tier) period_end);
    j ← fresh uuid;
    _ ← sql (insert_payment j sub (tr_price_xlm tier) (cs_transaction_hash req) period_end);
    mret sub).

(** src/src/controllers/subscription_controller.rs:185-190 get_subscription *)
Definition get_subscription (i : string) : Subs Subscription := select_one (fun _ t => find_subscription i t).

Definition newest_first (x y : Subscription) : bool := su_created_at y <=? su_created_at x.

(** src/src/controllers/subscription_controller.rs:192-202 list_subscriptions_for_subscriber *)
Definition list_subscriptions_for_subscriber (subscriber_ref : string) : Subs (list Subscription) :=
  select (fun _ t =>
    sort_by newest_first (List.filter (fun s => String.eqb (su_subscriber_ref s) subscriber_ref) (sb_subscriptions t))).

(** src/src/controllers/subscription_controller.rs:204-214 list_subscriptions_for_creator *)
Definition list_subscriptions_for_creator (creator_username : string) : Subs (list Subscription) :=
  select (fun _ t =>
    sort_by newest_first
      (List.filter (fun s => String.eqb (su_creator_username s) creator_username && String.eqb (su_status s) "active")
         (sb_subscriptions t))).

Definition set_status (status : string) (cancelled_at : option Z) (now : Z) (s : Subscription) : Subscription :=
  {| su_id := su_id s; su_tier_id := su_tier_id s; su_creator_username := su_creator_username s;
     su_subscriber_ref := su_subscriber_ref s; su_status := status; su_started_at := su_started_at s;
     su_current_period_start := su_current_period_start s; su_current_period_end := su_current_period_end s;
     su_cancelled_at := cancelled_at; su_created_at := su_created_at s; su_updated_at := now |}.

(** src/src/controllers/subscription_controller.rs:216-226 cancel_subscription *)
Definition cancel_subscription (i : string) : Subs bool :=
  sql (fun now t =>
    let p s := String.eqb (su_id s) i && String.eqb (su_status s) "active" in
    Ok (existsb p (sb_subscriptions t),
        with_subscriptions (update_where p (set_status "cancelled" (Some now) now) (sb_subscriptions t)) t)).

(** src/src/controllers/subscription_controller.rs:237-241 what a renewal does to the row *)
Definition renew_row (now : Z) (s : Subscription) : Subscription :=
  {| su_id := su_id s; su_tier_id := su_tier_id s; su_creator_username := su_creator_username s;
     su_subscriber_ref := su_subscriber_ref s; su_status := "active"; su_started_at := su_started_at s;
     su_current_period_start := su_current_period_end s;
     su_current_period_end := su_current_period_end s + thirty_days;
     su_cancelled_at := su_cancelled_at s; su_created_at := su_created_at s; su_updated_at := now |}.

(** src/src/controllers/subscription_controller.rs:236-247 the statement that renews *)
Definition advance_period (i : string) : statement SubTables Subscription :=
  fun now t =>
    let p s := String.eqb (su_id s) i in
    match updated p (renew_row now) (sb_subscriptions t) with
    | s :: _ => Ok (s, with_subscriptions (update_where p (renew_row now) (sb_subscriptions t)) t)
    | [] => Err SqlxRowNotFound
    end.

(** src/src/controllers/subscription_controller.rs:229-271 renew_subscription *)
Definition renew_subscription (i : string) (transaction_hash : option string) : Subs Subscription :=
  transaction id (
    sub ← sql (advance_period i);
    tier ← get_tier (su_tier_id sub);
    j ← fresh uuid;
    _ ← sql (insert_payment j sub (tr_price_xlm tier) transaction_hash (su_current_period_end sub));
    mret sub).

(** ** Payments *)

(** src/src/controllers/subscription_controller.rs:275-285 list_payments *)
Definition list_payments (subscription_id : string) : Subs (list SubscriptionPayment) :=
  select (fun _ t =>
    sort_by (fun x y => sp_created_at y <=? sp_created_at x)
      (List.filter (fun p => String.eqb (sp_subscription_id p) subscription_id) (sb_payments t))).

(** src/src/controllers/subscription_controller.rs:290-293 the rows that are due, the oldest hundred *)
Definition due (now : Z) (l : list Subscription) : list Subscription :=
  take 100 (sort_by (fun x y => su_current_period_end x <=? su_current_period_end y)
    (List.filter (fun s => String.eqb (su_status s) "active" && (su_current_period_end s <=? now)) l)).

(** src/src/controllers/subscription_controller.rs:288-297 due_renewals *)
Definition due_renewals : Subs (list Subscription) := select (fun now t => due now (sb_subscriptions t)).

(** src/src/controllers/subscription_controller.rs:300-306 mark_past_due *)
Definition mark_past_due (i : string) : Subs unit :=
  sql (fun now t =>
    Ok (tt, with_subscriptions (update_where (fun s => String.eqb (su_id s) i)
              (fun s => set_status "past_due" (su_cancelled_at s) now s) (sb_subscriptions t)) t)).

(** ** services/subscription_service.rs *)

(** src/src/services/subscription_service.rs:64-110 dispatch_notification *)
Definition dispatch_notification (creator_username subscription_id event_type : string) : Subs unit :=
  creator ← attempt (select (fun _ t => find (fun c => String.eqb (fst c) creator_username) (sb_creators t)));
  match creator with
  | Ok (Some row) =>
      let notice := {| no_creator_id := snd row; no_tip_id := subscription_id;
                       no_notification_type := if String.eqb event_type "subscription_renewed" then TipReceived
                                               else TipFailed;
                       no_recipient_email := creator_username +:+ "@placeholder.invalid" |} in
      _ ← attempt (E := sqlx_error) (sql (fun _ t => Ok (tt, with_jobs (sb_jobs t ++ [notice]) t)));
      mret tt
  | _ => mret tt
  end.

(** src/src/services/subscription_service.rs:23-59 one turn of the loop *)
Definition process_renewal (sub : Subscription) : Subs unit :=
  r ← attempt (renew_subscription (su_id sub) None);
  match r with
  | Ok _ => dispatch_notification (su_creator_username sub) (su_id sub) "subscription_renewed"
  | Err _ =>
      _ ← attempt (E := sqlx_error) (mark_past_due (su_id sub));
      dispatch_notification (su_creator_username sub) (su_id sub) "subscription_past_due"
  end.

(** src/src/services/subscription_service.rs:20-62 process_renewals *)
Definition process_renewals : Subs unit :=
  due ← due_renewals;
  forM due tt (fun _ sub => process_renewal sub).

(** ** routes/subscriptions.rs *)

Definition Handler : Type -> Type := M (Db SubTables) AppError.

Definition from_err {A} (m : Subs A) : Handler A := map_err app_error_from_sqlx m.

(** src/src/routes/subscriptions.rs:269-274 not_found_or *)
Definition not_found_or (e : sqlx_error) : AppError :=
  match e with
  | SqlxRowNotFound => Unauthorized "Resource not found"
  | other => app_error_from_sqlx other
  end.

(** src/src/routes/subscriptions.rs:53-64 create_tier *)
Definition create_tier_handler (username : string) (body : CreateTierRequest)
    : Handler (Z * (SubscriptionTier * list TierBenefit)) :=
  r ← from_err (create_tier username body);
  mret (201, r).

(** src/src/routes/subscriptions.rs:66-75 get_tier *)
Definition get_tier_handler (i : string) : Handler (Z * (SubscriptionTier * list TierBenefit)) :=
  tier ← map_err not_found_or (get_tier i);
  benefits ← from_err (list_benefits i);
  mret (200, (tier, benefits)).

(** src/src/routes/subscriptions.rs:77-94 list_tiers *)
Definition list_tiers_handler (username : string) : Handler (Z * list (SubscriptionTier * list TierBenefit)) :=
  tiers ← from_err (list_tiers username);
  responses ← forM tiers [] (fun acc tier =>
    benefits ← from_err (list_benefits (tr_id tier));
    mret (acc ++ [(tier, benefits)]));
  mret (200, responses).

(** src/src/routes/subscriptions.rs:96-108 update_tier *)
Definition update_tier_handler (i : string) (body : UpdateTierRequest)
    : Handler (Z * (SubscriptionTier * list TierBenefit)) :=
  tier ← map_err not_found_or (update_tier i body);
  benefits ← from_err (list_benefits i);
  mret (200, (tier, benefits)).

(** src/src/routes/subscriptions.rs:110-122 delete_tier *)
Definition delete_tier_handler (i : string) : Handler Z :=
  deleted ← from_err (delete_tier i);
  if deleted : bool then mret 204 else throw (Unauthorized "Tier not found").

(** src/src/routes/subscriptions.rs:126-135 add_benefit *)
Definition add_benefit_handler (i : string) (body : AddBenefitRequest) : Handler (Z * TierBenefit) :=
  benefit ← from_err (add_benefit i body);
  mret (201, benefit).

(** src/src/routes/subscriptions.rs:137-146 list_benefits *)
Definition list_benefits_handler (i : string) : Handler (Z * list TierBenefit) :=
  benefits ← from_err (list_benefits i);
  mret (200, benefits).

(** src/src/routes/subscriptions.rs:148-160 remove_benefit *)
Definition remove_benefit_handler (benefit_id : string) : Handler Z :=
  removed ← from_err (remove_benefit benefit_id);
  if removed : bool then mret 204 else throw (Unauthorized "Benefit not found").

(** src/src/routes/subscriptions.rs:169-177 subscribe *)
Definition subscribe_handler (body : CreateSubscriptionRequest) : Handler (Z * Subscription) :=
  sub ← from_err (subscribe body);
  mret (201, sub).

(** src/src/routes/subscriptions.rs:179-187 get_subscription *)
Definition get_subscription_handler (i : string) : Handler (Z * Subscription) :=
  sub ← map_err not_found_or (get_subscription i);
  mret (200, sub).

(** src/src/routes/subscriptions.rs:189-198 list_subscriptions *)
Definition list_subscriptions_handler (subscriber_ref : string) : Handler (Z * list Subscription) :=
  subs ← from_err (list_subscriptions_for_subscriber subscriber_ref);
  mret (200, subs).

(** src/src/routes/subscriptions.rs:211-225 cancel_subscription *)
Definition cancel_subscription_handler (i : string) : Handler Z :=
  cancelled ← from_err (cancel_subscription i);
  if cancelled : bool then mret 204 else throw (Unauthorized "Subscription not found or not active").

(** src/src/routes/subscriptions.rs:227-237 renew_subscription *)
Definition renew_subscription_handler (i : string) (body : option (option string)) : Handler (Z * Subscription) :=
  sub ← map_err not_found_or (renew_subscription i (mjoin body));
  mret (200, sub).

(** src/src/routes/subscriptions.rs:239-248 list_payments *)
Definition list_payments_handler (i : string) : Handler (Z * list SubscriptionPayment) :=
  payments ← from_err (list_payments i);
  mret (200, payments).

(** What happens to the tables of the subscriptions. *)
Inductive sub_op : Type :=
| CreateTier (username : string) (body : CreateTierRequest)
| UpdateTier (i : string) (body : UpdateTierRequest)
| DeleteTier (i : string)
| AddBenefit (i : string) (body : AddBenefitRequest)
| RemoveBenefit (i : string)
| Subscribe (body : CreateSubscriptionRequest)
| CancelSubscription (i : string)
| RenewSubscription (i : string) (body : option (option string))
| ProcessRenewals
| ProcessRenewal (sub : Subscription).

(** [ProcessRenewal] is a turn of a loop whose list was read at any time before,
    by this process or another. *)
Definition sub_exec (o : sub_op) (w : Db SubTables) : Db SubTables :=
  match o with
  | CreateTier u b => snd (create_tier_handler u b w)
  | UpdateTier i b => snd (update_tier_handler i b w)
  | DeleteTier i => snd (delete_tier_handler i w)
  | AddBenefit i b => snd (add_benefit_handler i b w)
  | RemoveBenefit i => snd (remove_benefit_handler i w)
  | Subscribe b => snd (subscribe_handler b w)
  | CancelSubscription i => snd (cancel_subscription_handler i w)
  | RenewSubscription i b => snd (renew_subscription_handler i b w)
  | ProcessRenewals => snd (process_renewals w)
  | ProcessRenewal s => snd (process_renewal s w)
  end.
End operations.

(** ** What the tables keep *)

(** The periods a subscription was billed for, and how far they reach when each
    begins where the one before ended. *)
Definition periods (i : string) (t : SubTables) : list (Z * Z) :=
  map (fun p => (sp_period_start p, sp_period_end p))
    (List.filter (fun p => String.eqb (sp_subscription_id p) i) (sb_payments t)).

Fixpoint covers (from : Z) (l : list (Z * Z)) : option Z :=
  match l with
  | [] => Some from
  | (a, b) :: l' => if a =? from then covers b l' else None
  end.

(** Billed from its start to the end of its current period, without gap or overlap; the current period last. *)
Definition billed (s : Subscription) (l : list (Z * Z)) : Prop :=
  exists earlier, l = earlier ++ [(su_current_period_start s, su_current_period_end s)] /\
    covers (su_started_at s) earlier = Some (su_current_period_start s).

(** In the middle of a transaction the current period of a subscription may still be [unpaid]. *)
Record WellBilledBut (unpaid : string -> bool) (t : SubTables) : Prop := {
  wb_ids : NoDup (su_id <$> sb_subscriptions t);
  wb_once : NoDup ((fun s => (su_tier_id s, su_subscriber_ref s)) <$> sb_subscriptions t);
  wb_billed : forall s, s ∈ sb_subscriptions t ->
    if unpaid (su_id s) then covers (su_started_at s) (periods (su_id s) t) = Some (su_current_period_start s)
    else billed s (periods (su_id s) t);
  wb_payments : forall p, p ∈ sb_payments t ->
    sp_status p = (if sp_transaction_hash p then "completed" else "pending") /\
    is_Some (find_subscription (sp_subscription_id p) t);
  wb_tiers : forall s, s ∈ sb_subscriptions t -> is_Some (find_tier (su_tier_id s) t);
  wb_status : forall s, s ∈ sb_subscriptions t -> su_status s ∈ ["active"; "cancelled"; "past_due"]
}.

Definition WellBilled : SubTables -> Prop := WellBilledBut (fun _ => false).

Lemma covers_snoc from l a b : covers from (l ++ [(a, b)]) = (if decide (covers from l = Some a) then Some b else None).
Proof.
  revert from. induction l as [|[x y] l IH]; intros from; simpl.
  - destruct (Z.eqb_spec a from) as [-> | Hne]; case_decide; simplify_eq; done.
  - destruct (x =? from); [apply IH | by rewrite decide_False].
Qed.

Lemma find_tier_some i t x : find_tier i t = Some x -> x ∈ sb_tiers t /\ tr_id x = i.
Proof. intros [Hx Hp]%find_some. apply String.eqb_eq in Hp. by rewrite list_elem_of_In. Qed.

Lemma find_subscription_some i t s : find_subscription i t = Some s -> s ∈ sb_subscriptions t /\ su_id s = i.
Proof. intros [Hx Hp]%find_some. apply String.eqb_eq in Hp. by rewrite list_elem_of_In. Qed.

Lemma find_is_Some {R} (p : R -> bool) l : is_Some (find p l) <-> exists r, r ∈ l /\ p r = true.
Proof.
  split.
  - intros [r [Hr Hp]%find_some]. exists r. by rewrite list_elem_of_In.
  - intros (r & Hr & Hp). destruct (find p l) eqn:E; [by eexists|].
    apply list_elem_of_In in Hr. by rewrite (find_none _ _ E _ Hr) in Hp.
Qed.

Lemma periods_with_payment i p t :
  periods i (with_payments (sb_payments t ++ [p]) t) =
  periods i t ++ if String.eqb (sp_subscription_id p) i then [(sp_period_start p, sp_period_end p)] else [].
Proof.
  unfold periods. simpl. rewrite List.filter_app, map_app. simpl. by destruct (String.eqb _ i).
Qed.

(** The payment closes the current period of its subscription. *)
Lemma insert_payment_bills j s amount h now t a t' :
  WellBilledBut (fun i => String.eqb i (su_id s)) t -> s ∈ sb_subscriptions t ->
  insert_payment j s amount h (su_current_period_end s) now t = Ok (a, t') -> WellBilled t'.
Proof.
  intros Ht Hs. unfold insert_payment. destruct (find_subscription (su_id s) t) as [x|] eqn:Hf; [|done].
  destruct (existsb _ _); [done|]. intros [= <- <-].
  split; [apply Ht | apply Ht | | | apply Ht | apply Ht].
  - simpl. intros s' Hs'. pose proof (wb_billed _ _ Ht s' Hs') as Hb. simpl in Hb. rewrite periods_with_payment. simpl.
    rewrite String.eqb_sym. destruct (String.eqb_spec (su_id s') (su_id s)) as [Hid | Hne].
    + assert (s' = s) as -> by (eapply nodup_key_inj; [apply Ht | done | done | done]).
      exists (periods (su_id s) t). done.
    + by rewrite app_nil_r.
  - simpl. intros p [Hp | ->%list_elem_of_singleton]%elem_of_app; [by apply (wb_payments _ _ Ht)|].
    split; [done|]. simpl. unfold find_subscription in *. simpl. by rewrite Hf.
Qed.

Lemma no_periods unpaid i t : WellBilledBut unpaid t -> find_subscription i t = None -> periods i t = [].
Proof.
  intros Ht Hi. unfold periods. rewrite list_filter_none; [done|]. intros p Hp. apply String.eqb_neq. intros <-.
  apply (wb_payments _ _ Ht) in Hp as [_ [s Hs]]. congruence.
Qed.

Lemma insert_subscription_opens i req u e now t s t' :
  WellBilled t -> insert_subscription i req u e now t = Ok (s, t') ->
  WellBilledBut (fun k => String.eqb k (su_id s)) t' /\ s ∈ sb_subscriptions t' /\ su_current_period_end s = e.
Proof.
  intros Ht. unfold insert_subscription. destruct (find_tier _ t) as [tier|] eqn:Htier; [|done].
  destruct (find_subscription i t) eqn:Hi; [done|]. destruct (existsb _ _) eqn:Hdup; [done|].
  intros [= <- <-]. simpl. split; [|set_solver].
  assert (forall x, x ∈ sb_subscriptions t -> su_id x <> i) as Hnew.
  { intros x Hx <-. apply list_elem_of_In in Hx. apply (find_none _ _ Hi) in Hx. by rewrite String.eqb_refl in Hx. }
  split; simpl.
  - rewrite fmap_app. apply NoDup_app. split; [apply Ht|]. split; [|apply NoDup_singleton].
    intros k (x & -> & Hx)%list_elem_of_fmap. cbn. rewrite list_elem_of_singleton. by apply Hnew.
  - rewrite fmap_app. apply NoDup_app. split; [apply Ht|]. split; [|apply NoDup_singleton].
    intros k (x & -> & Hx)%list_elem_of_fmap. cbn. rewrite list_elem_of_singleton. intros [= H1 H2].
    apply existsb_false_iff with (x := x) in Hdup; [|done]. rewrite H1, H2, !String.eqb_refl in Hdup. done.
  - intros x [Hx | ->%list_elem_of_singleton]%elem_of_app; simpl.
    + replace (String.eqb (su_id x) i) with false by (symmetry; apply String.eqb_neq, Hnew, Hx).
      by apply (wb_billed _ _ Ht).
    + rewrite String.eqb_refl. change (periods i _) with (periods i t). by rewrite (no_periods _ i t Ht Hi).
  - intros p Hp. apply (wb_payments _ _ Ht) in Hp as [Hst Hsub]. split; [done|].
    apply find_is_Some. apply find_is_Some in Hsub as (x & Hx & Hp). exists x. set_solver.
  - intros x [Hx | ->%list_elem_of_singleton]%elem_of_app; [by apply (wb_tiers _ _ Ht)|]. by eexists.
  - intros x [Hx | ->%list_elem_of_singleton]%elem_of_app; [by apply (wb_status _ _ Ht)|]. set_solver.
Qed.

Lemma updated_head {R} (p : R -> bool) f l x l' : updated p f l = x :: l' -> exists r, r ∈ l /\ p r = true /\ x = f r.
Proof.
  unfold updated. destruct (List.filter p l) as [|r l1] eqn:E; intros [= <- <-]. exists r.
  assert (In r (List.filter p l)) as [Hr Hp]%filter_In by (rewrite E; by left). by rewrite list_elem_of_In.
Qed.

Lemma advance_period_opens i now t s t' :
  WellBilled t -> advance_period i now t = Ok (s, t') ->
  WellBilledBut (fun k => String.eqb k (su_id s)) t' /\ s ∈ sb_subscriptions t'.
Proof.
  intros Ht. unfold advance_period. destruct (updated _ _ _) as [|x l] eqn:Hup; [done|]. intros [= <- <-].
  apply updated_head in Hup as (r & Hr & Hi & ->). apply String.eqb_eq in Hi. subst i. simpl.
  set (p x := String.eqb (su_id x) (su_id r)).
  assert (renew_row now r ∈ update_where p (renew_row now) (sb_subscriptions t)) as Hin.
  { apply elem_of_update_where. right. exists r. unfold p. by rewrite String.eqb_refl. }
  split; [|done]. split; simpl.
  - rewrite update_where_fmap by done. apply Ht.
  - rewrite update_where_fmap by done. apply Ht.
  - intros x Hx. change (periods (su_id x) _) with (periods (su_id x) t).
    apply elem_of_update_where in Hx as [[Hx Hp] | (y & Hy & Hp & ->)]; unfold p in *.
    + rewrite Hp. by apply (wb_billed _ _ Ht).
    + simpl. rewrite Hp. destruct (wb_billed _ _ Ht y Hy) as (earlier & -> & Hc). rewrite covers_snoc.
      by rewrite decide_True.
  - intros q Hq. apply (wb_payments _ _ Ht) in Hq as [Hst Hsub]. split; [done|].
    apply find_is_Some. apply find_is_Some in Hsub as (x & Hx & Hp).
    exists (if p x then renew_row now x else x). split; [by apply update_where_image | by destruct (p x)].
  - intros x [[Hx _] | (y & Hy & _ & ->)]%elem_of_update_where;
      [exact (wb_tiers _ _ Ht x Hx) | exact (wb_tiers _ _ Ht y Hy)].
  - intros x [[Hx _] | (y & Hy & _ & ->)]%elem_of_update_where; [by apply (wb_status _ _ Ht) | set_solver].
Qed.

(** Changing the status of subscriptions. *)
Lemma set_status_keeps p status f now t :
  status ∈ ["active"; "cancelled"; "past_due"] -> WellBilled t ->
  WellBilled (with_subscriptions (update_where p (fun s => set_status status (f s) now s) (sb_subscriptions t)) t).
Proof.
  intros Hst Ht. split; simpl.
  - rewrite update_where_fmap by done. apply Ht.
  - rewrite update_where_fmap by done. apply Ht.
  - intros x [[Hx _] | (y & Hy & _ & ->)]%elem_of_update_where;
      [exact (wb_billed _ _ Ht x Hx) | exact (wb_billed _ _ Ht y Hy)].
  - intros q Hq. apply (wb_payments _ _ Ht) in Hq as [Hq Hsub]. split; [done|].
    apply find_is_Some. apply find_is_Some in Hsub as (x & Hx & Hp).
    exists (if p x then set_status status (f x) now x else x).
    split; [by apply update_where_image with (f := fun s => set_status status (f s) now s) | by destruct (p x)].
  - intros x [[Hx _] | (y & Hy & _ & ->)]%elem_of_update_where;
      [exact (wb_tiers _ _ Ht x Hx) | exact (wb_tiers _ _ Ht y Hy)].
  - intros x [[Hx _] | (y & Hy & _ & ->)]%elem_of_update_where; [by apply (wb_status _ _ Ht) | done].
Qed.

Lemma with_tiers_keeps tiers benefits t :
  (forall s, s ∈ sb_subscriptions t -> is_Some (find_tier (su_tier_id s) t) ->
    is_Some (find_tier (su_tier_id s) (with_tiers tiers benefits t))) ->
  WellBilled t -> WellBilled (with_tiers tiers benefits t).
Proof. intros Htiers [H1 H2 H3 H4 H5 H6]. split; try done. intros s Hs. apply Htiers; auto. Qed.

Lemma with_jobs_keeps l t : WellBilled t -> WellBilled (with_jobs l t).
Proof. intros [H1 H2 H3 H4 H5 H6]. by split. Qed.

Lemma insert_tier_keeps i u req now t a t' : WellBilled t -> insert_tier i u req now t = Ok (a, t') -> WellBilled t'.
Proof.
  intros Ht. unfold insert_tier. destruct (existsb _ _); [|done]. destruct (find_tier i t); [done|]. intros [= <- <-].
  apply with_tiers_keeps; [|done]. intros s _ (x & Hx & Hp)%find_is_Some. apply find_is_Some. exists x. set_solver.
Qed.

Lemma insert_benefit_keeps i k d pos now t a t' :
  WellBilled t -> insert_benefit i k d pos now t = Ok (a, t') -> WellBilled t'.
Proof.
  intros Ht. unfold insert_benefit. destruct (find_tier k t); [|done]. destruct (existsb _ _); [done|].
  intros [= <- <-]. by apply with_tiers_keeps.
Qed.

Section kept.
Variable uuid : nat -> string.

Lemma create_tier_kept u req : kept WellBilled (create_tier uuid u req).
Proof.
  unfold create_tier. apply kept_transaction. apply stable_bind; [apply kept_fresh | intros i].
  apply stable_bind; [apply kept_sql; intros ????; apply insert_tier_keeps | intros tier].
  apply stable_bind; [apply stable_forM; intros acc [k d] | intros; apply stable_ret].
  apply stable_bind; [apply kept_fresh | intros j].
  apply stable_bind; [apply kept_sql; intros ????; apply insert_benefit_keeps | intros; apply stable_ret].
Qed.

Lemma update_tier_kept i req : kept WellBilled (update_tier i req).
Proof.
  apply kept_sql. intros now t a t' Ht. cbv beta zeta. destruct (updated _ _ _); [done|]. intros [= _ <-].
  apply with_tiers_keeps; [|done]. intros sub _ (x & Hx & Hp)%find_is_Some. apply find_is_Some.
  exists (if String.eqb (tr_id x) i then edit_tier req now x else x).
  split; [|by destruct (String.eqb (tr_id x) i)].
  by apply update_where_image with (p := fun x => String.eqb (tr_id x) i) (f := edit_tier req now).
Qed.

Lemma delete_tier_kept i : kept WellBilled (delete_tier i).
Proof.
  apply kept_sql. intros now t a t' Ht. destruct (find_tier i t) as [tier|]; [|by intros [= <- <-]].
  destruct (existsb _ _) eqn:Hsubs; [done|]. intros [= <- <-].
  apply with_tiers_keeps; [|done]. intros sub Hs (x & Hx & Hp)%find_is_Some. apply find_is_Some. exists x.
  split; [|done]. apply elem_of_delete_where. split; [done|]. apply String.eqb_eq in Hp. rewrite Hp.
  by apply existsb_false_iff with (x := sub) in Hsubs.
Qed.

Lemma add_benefit_kept i req : kept WellBilled (add_benefit uuid i req).
Proof.
  apply stable_bind; [apply kept_fresh | intros j]. apply kept_sql. intros ????. apply insert_benefit_keeps.
Qed.

Lemma remove_benefit_kept i : kept WellBilled (remove_benefit i).
Proof. apply kept_sql. intros now t a t' Ht [= <- <-]. by apply with_tiers_keeps. Qed.

Lemma subscribe_kept req : kept WellBilled (subscribe uuid req).
Proof.
  unfold subscribe. apply stable_bind; [apply kept_select_one | intros tier].
  apply stable_bind; [by intros w Hw | intros now]. apply kept_transaction_body. intros w a w' Hw.
  intros (i & w1 & [= <- <-] & (s & w2 & [Hs Hn]%sql_ok & (j & w3 & [= <- <-] & ([] & w4 & [Hp _]%sql_ok & [= <- <-])%bind_answers)%bind_answers)%bind_answers)%bind_answers.
  simpl in *. apply insert_subscription_opens in Hs as (Hs & Hin & He); [|done]. rewrite <- He in Hp.
  by eapply insert_payment_bills.
Qed.

Lemma renew_subscription_kept i h : kept WellBilled (renew_subscription uuid i h).
Proof.
  unfold renew_subscription. apply kept_transaction_body. intros w a w' Hw.
  intros (s & w1 & [Hs Hn]%sql_ok & (tier & w2 & (_ & Ht & _)%select_one_ok & (j & w3 & [= <- <-] & ([] & w4 & [Hp _]%sql_ok & [= <- <-])%bind_answers)%bind_answers)%bind_answers)%bind_answers.
  simpl in *. rewrite Ht in Hp. apply advance_period_opens in Hs as (Hs & Hin); [|done].
  by eapply insert_payment_bills.
Qed.

Lemma cancel_subscription_kept i : kept WellBilled (cancel_subscription i).
Proof.
  apply kept_sql. intros now t a t' Ht [= <- <-].
  apply set_status_keeps with (f := fun _ => Some now); [set_solver | done].
Qed.

Lemma mark_past_due_kept i : kept WellBilled (mark_past_due i).
Proof.
  apply kept_sql. intros now t a t' Ht [= <- <-].
  apply set_status_keeps with (f := su_cancelled_at); [set_solver | done].
Qed.

Lemma dispatch_notification_kept u i e : kept WellBilled (dispatch_notification u i e).
Proof.
  unfold dispatch_notification. apply stable_bind; [apply stable_attempt, kept_select | intros [[c|] | err]];
    try apply stable_ret.
  apply stable_bind; [apply stable_attempt, kept_sql | intros; apply stable_ret].
  intros now t a t' Ht [= <- <-]. by apply with_jobs_keeps.
Qed.

Lemma process_renewal_kept s : kept WellBilled (process_renewal uuid s).
Proof.
  unfold process_renewal. apply stable_bind; [apply stable_attempt, renew_subscription_kept | intros [r | e]].
  - apply dispatch_notification_kept.
  - apply stable_bind; [apply stable_attempt, mark_past_due_kept | intros; apply dispatch_notification_kept].
Qed.

Lemma process_renewals_kept : kept WellBilled (process_renewals uuid).
Proof.
  apply stable_bind; [apply kept_select | intros l]. apply stable_forM. intros. apply process_renewal_kept.
Qed.
End kept.

(** ** The renewal pass *)

(** The payment a renewal of [s] records, and the row it leaves. *)
Definition payment_row (i amount : string) (h : option string) (now : Z) (s : Subscription) : SubscriptionPayment :=
  {| sp_id := i; sp_subscription_id := su_id s; sp_amount_xlm := amount; sp_transaction_hash := h;
     sp_status := if h then "completed" else "pending"; sp_period_start := su_current_period_end s;
     sp_period_end := su_current_period_end s + thirty_days; sp_created_at := now |}.

Definition price (t : SubTables) (s : Subscription) : string :=
  match find_tier (su_tier_id s) t with Some x => tr_price_xlm x | None => "" end.

Definition renewed_notice (t : SubTables) (s : Subscription) : list Notice :=
  match find (fun c => String.eqb (fst c) (su_creator_username s)) (sb_creators t) with
  | Some row => [{| no_creator_id := snd row; no_tip_id := su_id s; no_notification_type := TipReceived;
                    no_recipient_email := su_creator_username s +:+ "@placeholder.invalid" |}]
  | None => []
  end.

Definition ids_among (l : list Subscription) (s : Subscription) : bool :=
  existsb (fun x => String.eqb (su_id x) (su_id s)) l.

(** The tables after renewing [l], the first payment taking the [n]-th id. *)
Fixpoint renewed (uuid : nat -> string) (n : nat) (now : Z) (l : list Subscription) (t : SubTables) : SubTables :=
  match l with
  | [] => t
  | s :: l' =>
      renewed uuid (S n) now l'
        {| sb_creators := sb_creators t; sb_tiers := sb_tiers t; sb_benefits := sb_benefits t;
           sb_subscriptions := update_where (fun x => String.eqb (su_id x) (su_id s)) (renew_row now) (sb_subscriptions t);
           sb_payments := sb_payments t ++ [payment_row (uuid n) (price t s) None now s];
           sb_jobs := sb_jobs t ++ renewed_notice t s |}
  end.

Section pass.
Variable uuid : nat -> string.

(** The ids still to be drawn are not taken. *)
Definition ids_free (w : Db SubTables) : Prop :=
  forall n p, (db_uuids w <= n)%nat -> p ∈ sb_payments (db_tables w) -> sp_id p <> uuid n.

Lemma updated_by_id i now s l :
  NoDup (su_id <$> l) -> s ∈ l -> su_id s = i ->
  exists rest, updated (fun x => String.eqb (su_id x) i) (renew_row now) l = renew_row now s :: rest.
Proof.
  intros Hnd Hs Hi. unfold updated.
  destruct (List.filter (fun x => String.eqb (su_id x) i) l) as [|x rest] eqn:Hf.
  - apply list_elem_of_In in Hs. assert (In s []) as [].
    rewrite <- Hf. apply filter_In. by rewrite Hi, String.eqb_refl.
  - assert (In x (List.filter (fun x => String.eqb (su_id x) i) l)) as [Hx Hp]%filter_In by (rewrite Hf; by left).
    apply list_elem_of_In in Hx. apply String.eqb_eq in Hp.
    replace s with x by (eapply nodup_key_inj; eauto; congruence). by eexists.
Qed.

Lemma find_by_id s (l : list Subscription) :
  NoDup (su_id <$> l) -> s ∈ l -> find (fun x => String.eqb (su_id x) (su_id s)) l = Some s.
Proof.
  intros Hnd Hs. destruct (find _ l) as [x|] eqn:Hf.
  - apply find_some in Hf as [Hx%list_elem_of_In Hp%String.eqb_eq]. f_equal. by eapply nodup_key_inj.
  - apply list_elem_of_In in Hs. apply (find_none _ _ Hf) in Hs. by rewrite String.eqb_refl in Hs.
Qed.

Lemma renew_calm s h w :
  db_faults w = [] -> WellBilled (db_tables w) -> s ∈ sb_subscriptions (db_tables w) -> ids_free w ->
  exists w', renew_subscription uuid (su_id s) h w = (Ok (renew_row (db_now w) s), w') /\
    db_faults w' = [] /\ db_now w' = db_now w /\ db_uuids w' = S (db_uuids w) /\
    db_tables w' =
      with_payments (sb_payments (db_tables w) ++
                       [payment_row (uuid (db_uuids w)) (price (db_tables w) s) h (db_now w) s])
        (with_subscriptions (update_where (fun x => String.eqb (su_id x) (su_id s)) (renew_row (db_now w))
           (sb_subscriptions (db_tables w))) (db_tables w)).
Proof.
  intros Hf Ht Hs Hfree. unfold renew_subscription.
  destruct (wb_tiers _ _ Ht s Hs) as [tier Htier].
  destruct (updated_by_id (su_id s) (db_now w) s (sb_subscriptions (db_tables w))) as [rest Hup]; [apply Ht | done..|].
  set (subs' := update_where (fun x => String.eqb (su_id x) (su_id s)) (renew_row (db_now w))
                  (sb_subscriptions (db_tables w))).
  set (t1 := with_subscriptions subs' (db_tables w)).
  assert (find_subscription (su_id s) t1 = Some (renew_row (db_now w) s)) as Hfind.
  { apply (find_by_id (renew_row (db_now w) s)); unfold t1, subs'; simpl.
    - rewrite update_where_fmap by done. apply Ht.
    - apply elem_of_update_where. right. exists s. by rewrite String.eqb_refl. }
  assert (existsb (fun x => String.eqb (sp_id x) (uuid (db_uuids w))) (sb_payments t1) = false) as Hnew.
  { apply existsb_false_iff. intros p Hp. apply String.eqb_neq. by apply (Hfree (db_uuids w)). }
  eexists. split; [eapply transaction_calm; [done | | ] |].
  - bind_step. rewrite sql_calm by done. unfold run_statement, advance_period at 1. rewrite Hup. fold subs' t1.
    bind_step. unfold get_tier, select_one. rewrite sql_calm by done. unfold run_statement at 1. simpl.
    unfold find_tier in *. simpl. rewrite Htier.
    bind_step. simpl. bind_step. rewrite sql_calm by done. unfold run_statement, insert_payment. simpl.
    rewrite Hfind. unfold t1 in Hnew. simpl in Hnew. rewrite Hnew. simpl. reflexivity.
  - done.
  - simpl. unfold price, payment_row. rewrite Htier. done.
Qed.

Lemma process_renewal_calm s w :
  db_faults w = [] -> WellBilled (db_tables w) -> s ∈ sb_subscriptions (db_tables w) -> ids_free w ->
  exists w', process_renewal uuid s w = (Ok tt, w') /\ db_faults w' = [] /\ db_now w' = db_now w /\
    db_uuids w' = S (db_uuids w) /\
    db_tables w' = renewed uuid (db_uuids w) (db_now w) [s] (db_tables w).
Proof.
  intros Hf Ht Hs Hfree. destruct (renew_calm s None w) as (w1 & Hr & Hf1 & Hn1 & Hu1 & Ht1); [done..|].
  unfold process_renewal. bind_step. unfold attempt at 1. rewrite Hr.
  unfold dispatch_notification. bind_step. unfold attempt at 1, select at 1. rewrite sql_calm by done.
  unfold run_statement at 1. simpl. rewrite Ht1. simpl. unfold renewed_notice. simpl.
  destruct (find _ (sb_creators (db_tables w))) as [c|] eqn:Hc; simpl.
  - bind_step. unfold attempt. rewrite sql_calm by done. unfold run_statement. simpl. eexists.
    split; [reflexivity|]. done.
  - eexists. split; [reflexivity|]. rewrite app_nil_r. simpl. done.
Qed.

Lemma renewed_subscriptions n now l t :
  NoDup (su_id <$> l) ->
  sb_subscriptions (renewed uuid n now l t) = update_where (ids_among l) (renew_row now) (sb_subscriptions t).
Proof.
  revert n t. induction l as [|s l IH]; intros n t Hnd; simpl.
  - unfold update_where. simpl. by rewrite map_id.
  - apply NoDup_cons in Hnd as [Hnotin Hnd]. rewrite IH by done. simpl. unfold update_where. rewrite map_map.
    apply map_ext. intros x. unfold ids_among. simpl. rewrite (String.eqb_sym (su_id s)).
    destruct (String.eqb_spec (su_id x) (su_id s)) as [Heq | Hne]; simpl; [|done]. rewrite Heq.
    replace (existsb _ l) with false; [done|]. symmetry. apply existsb_false_iff. intros y Hy.
    apply String.eqb_neq. intros Hys. apply Hnotin. rewrite <- Hys. by apply list_elem_of_fmap_2.
Qed.

Lemma forM_renewals_calm l w :
  db_faults w = [] -> WellBilled (db_tables w) -> ids_free w -> (forall i j, uuid i = uuid j -> i = j) ->
  NoDup (su_id <$> l) -> (forall s, s ∈ l -> s ∈ sb_subscriptions (db_tables w)) ->
  exists w', forM l tt (fun _ s => process_renewal uuid s) w = (Ok tt, w') /\ db_faults w' = [] /\
    db_tables w' = renewed uuid (db_uuids w) (db_now w) l (db_tables w).
Proof.
  intros Hf Ht Hfree Hinj. revert w Hf Ht Hfree. induction l as [|s l IH]; intros w Hf Ht Hfree Hnd Hin.
  { eexists. by split. }
  apply NoDup_cons in Hnd as [Hnotin Hnd].
  destruct (process_renewal_calm s w) as (w1 & Hr & Hf1 & Hn1 & Hu1 & Ht1); [done | done | set_solver | done |].
  simpl. bind_step. rewrite Hr.
  assert (WellBilled (db_tables w1)) as Hw1.
  { pose proof (process_renewal_kept uuid s w Ht) as H. by rewrite Hr in H. }
  destruct (IH w1) as (w' & Hw' & Hf' & Ht'); [done.. | | done | |].
  - intros n p Hle. rewrite Ht1. simpl. intros [Hp | ->%list_elem_of_singleton]%elem_of_app.
    + apply Hfree; [lia | done].
    + simpl. intros <-%Hinj. lia.
  - intros x Hx. rewrite Ht1. simpl. apply elem_of_update_where. left. split; [apply Hin; set_solver|].
    apply String.eqb_neq. intros Heq. apply Hnotin. rewrite <- Heq. by apply list_elem_of_fmap_2.
  - exists w'. split; [done|]. split; [done|]. by rewrite Ht', Hn1, Hu1, Ht1.
Qed.
End pass.

Lemma renewed_payments uuid n now l t :
  sb_payments (renewed uuid n now l t) =
    sb_payments t ++ imap (fun k s => payment_row (uuid (n + k)%nat) (price t s) None now s) l.
Proof.
  revert n t. induction l as [|s l IH]; intros n t; simpl; [by rewrite app_nil_r|].
  rewrite IH. simpl. rewrite <- app_assoc. simpl. rewrite Nat.add_0_r. do 2 f_equal.
  apply imap_ext. intros k x _. simpl. by rewrite Nat.add_succ_r.
Qed.

Lemma renewed_jobs uuid n now l t :
  sb_jobs (renewed uuid n now l t) = sb_jobs t ++ flat_map (renewed_notice t) l.
Proof.
  revert n t. induction l as [|s l IH]; intros n t; simpl; [by rewrite app_nil_r|].
  rewrite IH. simpl. by rewrite <- app_assoc.
Qed.

Lemma due_sub_elem now l s : s ∈ due now l -> s ∈ l /\ su_status s = "active" /\ su_current_period_end s <= now.
Proof.
  unfold due. intros (i & Hs & _)%elem_of_take. apply list_elem_of_lookup_2 in Hs. rewrite sort_by_perm in Hs.
  apply list_elem_of_In, filter_In in Hs as [Hs Hp]. zbool. rewrite list_elem_of_In. split; [done|].
  split; [by apply String.eqb_eq | lia].
Qed.

Lemma due_sub_nodup now l : NoDup (su_id <$> l) -> NoDup (su_id <$> due now l).
Proof.
  intros Hl. unfold due. eapply sublist_NoDup; [|apply fmap_sublist, sublist_take]. rewrite sort_by_perm.
  eapply sublist_NoDup; [exact Hl | apply fmap_sublist, list_filter_sublist].
Qed.

(** What is due and not among the hundred is due no earlier than any of them. *)
Lemma due_oldest now l s x :
  s ∈ l -> su_status s = "active" -> su_current_period_end s <= now -> x ∈ due now l -> s ∉ due now l ->
  su_current_period_end x <= su_current_period_end s.
Proof.
  intros Hs Ha He Hx Hn. unfold due in *. set (le := fun x y => su_current_period_end x <=? su_current_period_end y) in *.
  set (rows := List.filter _ l) in *.
  assert (s ∈ take 100 (sort_by le rows) ++ drop 100 (sort_by le rows)) as Hin.
  { rewrite take_drop, sort_by_perm. apply list_elem_of_In, filter_In. rewrite list_elem_of_In in Hs.
    split; [done|]. rewrite Ha. simpl. by apply Z.leb_le. }
  apply elem_of_app in Hin as [Hin | Hin]; [done|].
  apply Z.leb_le. apply (ordered_take le 100 (sort_by le rows)); [|done..].
  apply sort_by_ordered; unfold le; intros; zbool; lia.
Qed.

(** ** Claims *)

Definition no_subscriptions (creators : list (string * string)) : SubTables :=
  {| sb_creators := creators; sb_tiers := []; sb_benefits := []; sb_subscriptions := []; sb_payments := [];
     sb_jobs := [] |}.

Definition sub_world (creators : list (string * string)) (now : Z) : Db SubTables :=
  {| db_tables := no_subscriptions creators; db_now := now; db_utc := now; db_uuids := 0; db_faults := [] |}.

Lemma no_subscriptions_billed creators : WellBilled (no_subscriptions creators).
Proof. split; simpl; try constructor; set_solver. Qed.

(** A handler: the call with its errors mapped, then an answer. *)
Lemma handler_kept {A B} (f : sqlx_error -> AppError) (m : Subs A) (k : A -> Handler B) :
  kept WellBilled m -> (forall a, kept WellBilled (k a)) -> kept WellBilled (map_err f m ≫= k).
Proof. intros Hm Hk. apply stable_bind; [by apply stable_map_err | done]. Qed.

Lemma sub_exec_kept uuid o w : WellBilled (db_tables w) -> WellBilled (db_tables (sub_exec uuid o w)).
Proof.
  revert w. change (kept WellBilled (fun w => (Ok tt : result unit sqlx_error, sub_exec uuid o w))).
  destruct o; intros w Hw; cbn -[create_tier update_tier delete_tier add_benefit remove_benefit subscribe
    cancel_subscription renew_subscription process_renewals process_renewal list_benefits].
  - apply (handler_kept _ _ _ (create_tier_kept uuid username body) (fun a => stable_ret _ _) w Hw).
  - apply (handler_kept _ _ _ (update_tier_kept i body)); [|done]. intros a.
    apply handler_kept; [apply kept_select | intros; apply stable_ret].
  - apply (handler_kept _ _ _ (delete_tier_kept i)); [|done]. intros []; [apply stable_ret | apply stable_throw].
  - apply (handler_kept _ _ _ (add_benefit_kept uuid i body) (fun a => stable_ret _ _) w Hw).
  - apply (handler_kept _ _ _ (remove_benefit_kept i)); [|done]. intros []; [apply stable_ret | apply stable_throw].
  - apply (handler_kept _ _ _ (subscribe_kept uuid body) (fun a => stable_ret _ _) w Hw).
  - apply (handler_kept _ _ _ (cancel_subscription_kept i)); [|done].
    intros []; [apply stable_ret | apply stable_throw].
  - apply (handler_kept _ _ _ (renew_subscription_kept uuid i (mjoin body)) (fun a => stable_ret _ _) w Hw).
  - by apply process_renewals_kept.
  - by apply process_renewal_kept.
Qed.

(** C31: In every history of the handlers, of renewal loops reading their lists
    at any time and of failures, the payments of a subscription cover the time
    from its start to the end of its current period without gap or overlap,
    the current period last; a payment is completed exactly when it carries a
    transaction hash; and a subscriber holds a tier once. *)
Theorem subscription_periods_contiguous uuid creators now l s :
  let t := db_tables (play (sub_exec uuid) l (sub_world creators now)) in
  s ∈ sb_subscriptions t ->
  covers (su_started_at s) (periods (su_id s) t) = Some (su_current_period_end s) /\
  last (periods (su_id s) t) = Some (su_current_period_start s, su_current_period_end s) /\
  (forall p, p ∈ sb_payments t ->
     (sp_status p = "completed" <-> is_Some (sp_transaction_hash p)) /\
     (sp_status p = "pending" <-> sp_transaction_hash p = None)) /\
  (forall s', s' ∈ sb_subscriptions t -> su_tier_id s' = su_tier_id s -> su_subscriber_ref s' = su_subscriber_ref s ->
     s' = s).
Proof.
  intros t Hs. assert (WellBilled t) as Ht.
  { apply play_kept; [intros; by apply sub_exec_kept | apply no_subscriptions_billed]. }
  destruct (wb_billed _ _ Ht s Hs) as (earlier & Hp & Hc). rewrite Hp, covers_snoc, last_snoc, decide_True by done.
  repeat split; try done.
  - intros Hst. apply (wb_payments _ _ Ht) in H as [Hp' _]. destruct (sp_transaction_hash p); [by eexists | congruence].
  - intros [h Hh]. apply (wb_payments _ _ Ht) in H as [-> _]. by rewrite Hh.
  - intros Hst. apply (wb_payments _ _ Ht) in H as [Hp' _]. destruct (sp_transaction_hash p); congruence.
  - intros Hh. apply (wb_payments _ _ Ht) in H as [-> _]. by rewrite Hh.
  - intros s' Hs' H1 H2.
    apply (nodup_key_inj (fun s => (su_tier_id s, su_subscriber_ref s)) (sb_subscriptions t)); [apply Ht | done..|].
    congruence.
Qed.

(** Without failures a renewal pass renews the active subscriptions that
    are longest overdue, at most a hundred, each by one period only, with a
    pending payment of the price of its tier, tells their creators, and touches
    no other subscription. *)
Theorem renewal_pass_exact uuid w :
  (forall i j, uuid i = uuid j -> i = j) -> db_faults w = [] -> WellBilled (db_tables w) -> ids_free uuid w ->
  let t := db_tables w in
  let l := due (db_now w) (sb_subscriptions t) in
  exists w', process_renewals uuid w = (Ok tt, w') /\
    sb_subscriptions (db_tables w') = update_where (ids_among l) (renew_row (db_now w)) (sb_subscriptions t) /\
    sb_payments (db_tables w') = sb_payments t ++
      imap (fun k s => payment_row (uuid (db_uuids w + k)%nat) (price t s) None (db_now w) s) l /\
    sb_jobs (db_tables w') = sb_jobs t ++ flat_map (renewed_notice t) l /\
    (length l <= 100)%nat /\
    forall s, s ∈ sb_subscriptions t -> su_status s = "active" -> su_current_period_end s <= db_now w -> s ∉ l ->
      forall x, x ∈ l -> su_current_period_end x <= su_current_period_end s.
Proof.
  intros Hinj Hf Ht Hfree t l.
  destruct (forM_renewals_calm uuid l w) as (w' & Hw' & _ & Ht'); [done..| | |].
  { apply due_sub_nodup, Ht. }
  { intros s Hs. by apply due_sub_elem in Hs as [Hs _]. }
  exists w'. rewrite Ht', renewed_subscriptions, renewed_payments, renewed_jobs by (apply due_sub_nodup, Ht).
  unfold process_renewals, due_renewals, select. bind_step. rewrite sql_calm by done. unfold run_statement.
  replace (with_tables (db_tables w) w) with w by (by destruct w). split; [done|]. do 3 (split; [done|]).
  split; [apply firstn_le_length | intros s Hs Ha He Hn x Hx; by eapply due_oldest].
Qed.

(** A tier at 5 XLM, a subscriber who paid for the first period, and a pass 31 days later. *)
Definition gold : CreateTierRequest :=
  {| ct_name := "Gold"; ct_description := None; ct_price_xlm := "5"; ct_benefits := ["Badge"]; ct_position := 0 |}.

Definition gold_for_bob : CreateSubscriptionRequest :=
  {| cs_tier_id := tally 0; cs_subscriber_ref := "bob"; cs_transaction_hash := Some "cafe" |}.

Definition day : Z := 86400 * 1000000.

Definition opening : list (happening sub_op) := [Does (CreateTier "alice" gold); Does (Subscribe gold_for_bob)].

Definition sub_after (l : list (happening sub_op)) : Db SubTables :=
  play (sub_exec tally) l (sub_world [("alice", "a1")] 0).

Definition one_pass : list (happening sub_op) := opening ++ [Clocks (31 * day) (31 * day); Does ProcessRenewals].

Definition after_one_pass : Db SubTables := Eval vm_compute in sub_after one_pass.

Lemma after_one_pass_reached : after_one_pass = play (sub_exec tally) one_pass (sub_world [("alice", "a1")] 0).
Proof. vm_compute. reflexivity. Qed.

Definition bobs : Subscription :=
  {| su_id := tally 2; su_tier_id := tally 0; su_creator_username := "alice"; su_subscriber_ref := "bob";
     su_status := "active"; su_started_at := 0; su_current_period_start := 30 * day;
     su_current_period_end := 60 * day; su_cancelled_at := None; su_created_at := 0; su_updated_at := 31 * day |}.

Lemma subscription_periods_contiguous_witness :
  let t := db_tables after_one_pass in
  bobs ∈ sb_subscriptions t /\ periods (su_id bobs) t = [(0, 30 * day); (30 * day, 60 * day)] /\
  covers (su_started_at bobs) (periods (su_id bobs) t) = Some (su_current_period_end bobs).
Proof.
  assert (bobs ∈ sb_subscriptions (db_tables after_one_pass)) as Hin by (vm_compute; left).
  split; [exact Hin|]. split; [vm_compute; reflexivity|].
  pose proof (subscription_periods_contiguous tally [("alice", "a1")] 0 one_pass bobs) as H. cbv zeta in H.
  rewrite <- after_one_pass_reached in H. exact (proj1 (H Hin)).
Defined.

Definition late : list (happening sub_op) := opening ++ [Clocks (31 * day) (31 * day)].

Definition overdue : Db SubTables := Eval vm_compute in sub_after late.

Lemma overdue_reached : overdue = play (sub_exec tally) late (sub_world [("alice", "a1")] 0).
Proof. vm_compute. reflexivity. Qed.

Lemma overdue_billed : WellBilled (db_tables overdue).
Proof.
  rewrite overdue_reached. apply (play_kept WellBilled); [intros; by apply sub_exec_kept | apply no_subscriptions_billed].
Qed.

Lemma renewal_pass_exact_witness :
  length (due (db_now overdue) (sb_subscriptions (db_tables overdue))) = 1%nat /\
  exists w', process_renewals tally overdue = (Ok tt, w') /\
    sb_subscriptions (db_tables w') =
      update_where (ids_among (due (db_now overdue) (sb_subscriptions (db_tables overdue))))
        (renew_row (db_now overdue)) (sb_subscriptions (db_tables overdue)).
Proof.
  split; [reflexivity|].
  destruct (renewal_pass_exact tally overdue) as (w' & H1 & H2 & _).
  - exact tally_inj.
  - reflexivity.
  - exact overdue_billed.
  - intros n p Hn Hp. simpl in Hn, Hp. apply list_elem_of_singleton in Hp as ->. simpl.
    change (tally 3 <> tally n). intros Heq%tally_inj. lia.
  - by exists w'.
Defined.

(** What a subscription of bob looks like: its status, its period in days, and whether it was cancelled. *)
Definition subscription_now (w : Db SubTables) : list (string * Z * Z * bool) :=
  map (fun s => (su_status s, su_current_period_start s / day, su_current_period_end s / day,
                 match su_cancelled_at s with Some _ => true | None => false end)) (sb_subscriptions (db_tables w)).

Definition payments_now (w : Db SubTables) : list (string * Z * Z) :=
  map (fun p => (sp_status p, sp_period_start p / day, sp_period_end p / day)) (sb_payments (db_tables w)).

(** Nobody has to pay: every pass extends the subscription against a pending payment. *)
Example unpaid_renewals :
  let pass n := [Clocks (n * day) (n * day); Does ProcessRenewals] in
  let w := sub_after (opening ++ pass 30 ++ pass 60 ++ pass 90) in
  subscription_now w = [("active", 90, 120, false)] /\
  payments_now w = [("completed", 0, 30); ("pending", 30, 60); ("pending", 60, 90); ("pending", 90, 120)].
Proof. vm_compute. done. Qed.

(** Two replicas that read the same list renew the subscription twice. *)
Example renewed_by_two_replicas :
  let s := hd_error (sb_subscriptions (db_tables (sub_after opening))) in
  match s with
  | Some s =>
      payments_now (sub_after (opening ++ [Clocks (30 * day) (30 * day); Does (ProcessRenewal s); Does (ProcessRenewal s)]))
      = [("completed", 0, 30); ("pending", 30, 60); ("pending", 60, 90)]
  | None => False
  end.
Proof. vm_compute. done. Qed.

(** A renewal revives a cancelled subscription, which keeps its time of cancellation. *)
Example renewal_revives_cancelled :
  subscription_now (sub_after (opening ++ [Does (CancelSubscription (tally 2)); Does (RenewSubscription (tally 2) None)]))
  = [("active", 30, 60, true)].
Proof. vm_compute. done. Qed.

(** A subscriber who cancelled cannot subscribe to the tier again: 409. *)
Example resubscribe_conflicts :
  fst (subscribe_handler tally gold_for_bob (sub_after (opening ++ [Does (CancelSubscription (tally 2))]))) =
    Err (Database (UniqueViolation "subscriptions_tier_id_subscriber_ref_key")).
Proof. vm_compute. done. Qed.

(** A renewal whose commit lost its reply is marked past due: the loop passes it
    over from then on, and it cannot be cancelled. *)
Example renewed_but_past_due :
  let late := [Clocks (30 * day) (30 * day); Weather [Fine; Fine; Fine; Fine; Fine; ReplyLost]; Does ProcessRenewals] in
  let w := sub_after (opening ++ late ++ [Clocks (60 * day) (60 * day); Does ProcessRenewals]) in
  subscription_now w = [("past_due", 30, 60, false)] /\
  fst (cancel_subscription_handler (tally 2) w) = Err (Unauthorized "Subscription not found or not active").
Proof. vm_compute. done. Qed.
