(* ===== verification/ScheduledTips.v ===== *)
(** * Scheduled tips

    src/src/models/scheduled_tip.rs, src/src/controllers/scheduled_tip_controller.rs,
    the loop of src/src/services/scheduled_tip_service.rs and the handlers of
    src/src/routes/scheduled_tips.rs; the table has the constraints of migration
    0036.

    Times are in microseconds.  Adding a calendar month (crate chrono) is a
    parameter.  Several processes run the loop: each reads the tips that are due
    and then takes them one by one, so that the rows it holds may be old. *)

From S2P Require Import Prelude Text Codec Errors Sql.

(** ** models/scheduled_tip.rs *)

(** src/src/models/scheduled_tip.rs:6-23 ScheduledTip *)
Record ScheduledTip : Type := {
  sc_id : string;
  sc_creator_username : string;
  sc_amount : string;
  sc_tipper_ref : string;
  sc_message : option string;
  sc_status : string;
  sc_scheduled_at : Z;
  sc_is_recurring : bool;
  sc_recurrence_rule : option string;
  sc_recurrence_end : option Z;
  sc_next_run_at : option Z;
  sc_last_run_at : option Z;
  sc_run_count : Z;
  sc_last_error : option string;
  sc_created_at : Z;
  sc_updated_at : Z
}.

(** src/src/models/scheduled_tip.rs:26-40 CreateScheduledTipRequest *)
Record CreateScheduledTipRequest : Type := {
  cq_creator_username : string;
  cq_amount : string;
  cq_tipper_ref : string;
  cq_message : option string;
  cq_scheduled_at : Z;
  cq_is_recurring : bool;
  cq_recurrence_rule : option string;
  cq_recurrence_end : option Z
}.

(** src/src/models/scheduled_tip.rs:43-49 UpdateScheduledTipRequest *)
Record UpdateScheduledTipRequest : Type := {
  uq_scheduled_at : option Z;
  uq_amount : option string;
  uq_message : option string;
  uq_recurrence_rule : option string;
  uq_recurrence_end : option Z
}.

(** src/src/services/scheduled_tip_service.rs:94-99 the payload of the job *)
Record Notice : Type := {
  nt_creator_id : string;
  nt_tip_id : string;
  nt_recipient_email : string
}.

Record SchedTables : Type := {
  sd_creators : list (string * string);
  sd_tips : list ScheduledTip;
  sd_jobs : list Notice
}.

Definition with_tips (l : list ScheduledTip) (t : SchedTables) : SchedTables :=
  {| sd_creators := sd_creators t; sd_tips := l; sd_jobs := sd_jobs t |}.

Definition with_notices (l : list Notice) (t : SchedTables) : SchedTables :=
  {| sd_creators := sd_creators t; sd_tips := sd_tips t; sd_jobs := l |}.

Definition Sched : Type -> Type := Sql SchedTables.

Definition one_day : Z := 86400 * 1000000.

Section operations.
(** [DateTime::checked_add_months(Months::new(1))]; the ids of new rows. *)
Variable add_month : Z -> option Z.
Variable uuid : nat -> string.

(** src/src/models/scheduled_tip.rs:92-113 next_run *)
Definition next_run (from : Z) (rule : string) (end_ : option Z) : option Z :=
  next ← (if String.eqb rule "daily" then Some (from + one_day)
          else if String.eqb rule "weekly" then Some (from + 7 * one_day)
          else if String.eqb rule "monthly" then add_month from
          else None);
  match end_ with
  | Some e => if e <? next then None else Some next
  | None => Some next
  end.

(** ** controllers/scheduled_tip_controller.rs *)

(** The statement that inserts a tip, with the defaults of the table. *)
Definition insert_scheduled (i : string) (req : CreateScheduledTipRequest) (next_run_at : option Z)
    : statement SchedTables ScheduledTip :=
  fun now t =>
    let r := {| sc_id := i; sc_creator_username := cq_creator_username req; sc_amount := cq_amount req;
                sc_tipper_ref := cq_tipper_ref req; sc_message := cq_message req; sc_status := "pending";
                sc_scheduled_at := cq_scheduled_at req; sc_is_recurring := cq_is_recurring req;
                sc_recurrence_rule := cq_recurrence_rule req; sc_recurrence_end := cq_recurrence_end req;
                sc_next_run_at := next_run_at; sc_last_run_at := None; sc_run_count := 0; sc_last_error := None;
                sc_created_at := now; sc_updated_at := now |} in
    if existsb (fun x => String.eqb (sc_id x) i) (sd_tips t) then Err (unique_violation "scheduled_tips_pkey")
    else Ok (r, with_tips (sd_tips t ++ [r]) t).

(** src/src/controllers/scheduled_tip_controller.rs:9-37 create *)
Definition create (req : CreateScheduledTipRequest) : Sched ScheduledTip :=
  let next_run_at := if cq_is_recurring req then Some (cq_scheduled_at req) else Some (cq_scheduled_at req) in
  i ← fresh uuid;
  sql (insert_scheduled i req next_run_at).

(** src/src/controllers/scheduled_tip_controller.rs:39-44 get *)
Definition get (i : string) : Sched ScheduledTip :=
  select_one (fun _ t => find (fun r => String.eqb (sc_id r) i) (sd_tips t)).

(** src/src/controllers/scheduled_tip_controller.rs:46-56 list_for_tipper *)
Definition list_for_tipper (tipper_ref : string) : Sched (list ScheduledTip) :=
  select (fun _ t =>
    sort_by (fun x y => sc_scheduled_at y <=? sc_scheduled_at x)
      (List.filter (fun r => String.eqb (sc_tipper_ref r) tipper_ref) (sd_tips t))).

Definition coalesce {A} (new old : option A) : option A := match new with Some a => Some a | None => old end.

(** src/src/controllers/scheduled_tip_controller.rs:64-71 what the update does to the row *)
Definition edit_row (req : UpdateScheduledTipRequest) (now : Z) (r : ScheduledTip) : ScheduledTip :=
  {| sc_id := sc_id r; sc_creator_username := sc_creator_username r; sc_amount := default (sc_amount r) (uq_amount req);
     sc_tipper_ref := sc_tipper_ref r; sc_message := coalesce (uq_message req) (sc_message r);
     sc_status := sc_status r; sc_scheduled_at := default (sc_scheduled_at r) (uq_scheduled_at req);
     sc_is_recurring := sc_is_recurring r;
     sc_recurrence_rule := coalesce (uq_recurrence_rule req) (sc_recurrence_rule r);
     sc_recurrence_end := coalesce (uq_recurrence_end req) (sc_recurrence_end r);
     sc_next_run_at := coalesce (uq_scheduled_at req) (sc_next_run_at r); sc_last_run_at := sc_last_run_at r;
     sc_run_count := sc_run_count r; sc_last_error := sc_last_error r; sc_created_at := sc_created_at r;
     sc_updated_at := now |}.

(** [WHERE id = $1 AND status = 'pending'] *)
Definition pending_row (i : string) (r : ScheduledTip) : bool :=
  String.eqb (sc_id r) i && String.eqb (sc_status r) "pending".

(** src/src/controllers/scheduled_tip_controller.rs:58-83 update *)
Definition update (i : string) (req : UpdateScheduledTipRequest) : Sched ScheduledTip :=
  sql (fun now t =>
    match updated (pending_row i) (edit_row req now) (sd_tips t) with
    | r :: _ => Ok (r, with_tips (update_where (pending_row i) (edit_row req now) (sd_tips t)) t)
    | [] => Err SqlxRowNotFound
    end).

Definition with_status (status : string) (last_error : option string) (now : Z) (r : ScheduledTip) : ScheduledTip :=
  {| sc_id := sc_id r; sc_creator_username := sc_creator_username r; sc_amount := sc_amount r;
     sc_tipper_ref := sc_tipper_ref r; sc_message := sc_message r; sc_status := status;
     sc_scheduled_at := sc_scheduled_at r; sc_is_recurring := sc_is_recurring r;
     sc_recurrence_rule := sc_recurrence_rule r; sc_recurrence_end := sc_recurrence_end r;
     sc_next_run_at := sc_next_run_at r; sc_last_run_at := sc_last_run_at r; sc_run_count := sc_run_count r;
     sc_last_error := last_error; sc_created_at := sc_created_at r; sc_updated_at := now |}.

(** src/src/controllers/scheduled_tip_controller.rs:112-120 the statement of mark_processing, which cancel has too
    with another status, and whether it affected a row *)
Definition set_pending_to (status : string) (i : string) : statement SchedTables bool :=
  fun now t =>
    Ok (existsb (pending_row i) (sd_tips t),
        with_tips (update_where (pending_row i) (fun r => with_status status (sc_last_error r) now r) (sd_tips t)) t).

(** src/src/controllers/scheduled_tip_controller.rs:85-95 cancel *)
Definition cancel (i : string) : Sched bool := sql (set_pending_to "cancelled" i).

Definition due_at (now : Z) (r : ScheduledTip) : bool :=
  String.eqb (sc_status r) "pending" && match sc_next_run_at r with Some n => n <=? now | None => false end.

Definition next_run_first (x y : ScheduledTip) : bool :=
  match sc_next_run_at x, sc_next_run_at y with
  | Some a, Some b => a <=? b
  | Some _, None => true
  | None, Some _ => false
  | None, None => true
  end.

(** src/src/controllers/scheduled_tip_controller.rs:100-103 the rows that are due, the oldest hundred *)
Definition due (now : Z) (l : list ScheduledTip) : list ScheduledTip :=
  take 100 (sort_by next_run_first (List.filter (due_at now) l)).

(** src/src/controllers/scheduled_tip_controller.rs:98-108 due_tips *)
Definition due_tips : Sched (list ScheduledTip) :=
  now ← utc_now;
  select (fun _ t => due now (sd_tips t)).

(** src/src/controllers/scheduled_tip_controller.rs:111-121 mark_processing *)
Definition mark_processing (i : string) : Sched bool := sql (set_pending_to "processing" i).

(** src/src/controllers/scheduled_tip_controller.rs:129-142 what completing does to the row *)
Definition complete_row (next_run_at : option Z) (now : Z) (r : ScheduledTip) : ScheduledTip :=
  {| sc_id := sc_id r; sc_creator_username := sc_creator_username r; sc_amount := sc_amount r;
     sc_tipper_ref := sc_tipper_ref r; sc_message := sc_message r;
     sc_status := if next_run_at then "pending" else "completed";
     sc_scheduled_at := sc_scheduled_at r; sc_is_recurring := sc_is_recurring r;
     sc_recurrence_rule := sc_recurrence_rule r; sc_recurrence_end := sc_recurrence_end r;
     sc_next_run_at := next_run_at; sc_last_run_at := Some now; sc_run_count := sc_run_count r + 1;
     sc_last_error := None; sc_created_at := sc_created_at r; sc_updated_at := now |}.

(** src/src/controllers/scheduled_tip_controller.rs:124-150 mark_completed *)
Definition mark_completed (i : string) (next_run_at : option Z) : Sched unit :=
  sql (fun now t =>
    Ok (tt, with_tips (update_where (fun r => String.eqb (sc_id r) i) (complete_row next_run_at now) (sd_tips t)) t)).

(** src/src/controllers/scheduled_tip_controller.rs:153-166 mark_failed *)
Definition mark_failed (i error : string) : Sched unit :=
  sql (fun now t =>
    Ok (tt, with_tips (update_where (fun r => String.eqb (sc_id r) i) (with_status "failed" (Some error) now)
                         (sd_tips t)) t)).

(** ** services/scheduled_tip_service.rs *)

(** src/src/services/scheduled_tip_service.rs:70-111 enqueue_notification *)
Definition enqueue_notification (creator_username scheduled_tip_id : string) : Sched unit :=
  creator ← select (fun _ t => find (fun c => String.eqb (fst c) creator_username) (sd_creators t));
  match creator with
  | None => mret tt
  | Some row =>
      let notice := {| nt_creator_id := snd row; nt_tip_id := scheduled_tip_id;
                       nt_recipient_email := creator_username +:+ "@placeholder.invalid" |} in
      _ ← attempt (E := sqlx_error) (sql (fun _ t => Ok (tt, with_notices (sd_jobs t ++ [notice]) t)));
      mret tt
  end.

(** src/src/services/scheduled_tip_service.rs:40-50 the next recurrence, of the row as it was read *)
Definition next_of (tip : ScheduledTip) : option Z :=
  rule ← (if sc_is_recurring tip then sc_recurrence_rule tip else None);
  next_run (default (sc_scheduled_at tip) (sc_next_run_at tip)) rule (sc_recurrence_end tip).

(** src/src/services/scheduled_tip_service.rs:39-58 the turn once the tip is taken *)
Definition finish_tip (tip : ScheduledTip) : Sched unit :=
  let next := next_of tip in
  _ ← attempt (E := sqlx_error) (enqueue_notification (sc_creator_username tip) (sc_id tip));
  mark_completed (sc_id tip) next.

(** src/src/services/scheduled_tip_service.rs:24-65 one turn of the loop *)
Definition process_tip (tip : ScheduledTip) : Sched unit :=
  taken ← mark_processing (sc_id tip);
  if taken : bool then finish_tip tip else mret tt.

(** src/src/services/scheduled_tip_service.rs:21-68 process_due *)
Definition process_due : Sched unit :=
  due ← due_tips;
  forM due tt (fun _ tip => process_tip tip).

(** ** routes/scheduled_tips.rs *)

Definition Handler : Type -> Type := M (Db SchedTables) AppError.

Definition from_err {A} (m : Sched A) : Handler A := map_err app_error_from_sqlx m.

Definition missing_or (message : string) (e : sqlx_error) : AppError :=
  match e with
  | SqlxRowNotFound => Unauthorized message
  | other => app_error_from_sqlx other
  end.

(** src/src/routes/scheduled_tips.rs:39-55 create *)
Definition create_handler (body : CreateScheduledTipRequest) : Handler (Z * ScheduledTip) :=
  if cq_is_recurring body && negb (if cq_recurrence_rule body then true else false) then
    throw (Validation (InvalidRequest "recurrence_rule is required when is_recurring is true"))
  else
    tip ← from_err (create body);
    mret (201, tip).

(** src/src/routes/scheduled_tips.rs:57-66 get_one *)
Definition get_one_handler (i : string) : Handler (Z * ScheduledTip) :=
  tip ← map_err (missing_or "Scheduled tip not found") (get i);
  mret (200, tip).

(** src/src/routes/scheduled_tips.rs:68-77 list *)
Definition list_handler (tipper_ref : string) : Handler (Z * list ScheduledTip) :=
  tips ← from_err (list_for_tipper tipper_ref);
  mret (200, tips).

(** src/src/routes/scheduled_tips.rs:79-93 update *)
Definition update_handler (i : string) (body : UpdateScheduledTipRequest) : Handler (Z * ScheduledTip) :=
  tip ← map_err (missing_or "Scheduled tip not found or not pending") (update i body);
  mret (200, tip).

(** src/src/routes/scheduled_tips.rs:95-107 cancel *)
Definition cancel_handler (i : string) : Handler Z :=
  cancelled ← from_err (cancel i);
  if cancelled : bool then mret 204 else throw (Unauthorized "Scheduled tip not found or not pending").
End operations.

(** ** Several processes at work

    What the processes hold between their calls: the rows they have read as due
    and the tips they have taken. *)
Record Fleet : Type := {
  fl_db : Db SchedTables;
  fl_seen : list ScheduledTip;
  fl_held : list ScheduledTip
}.

Definition same_id (tip x : ScheduledTip) : bool := String.eqb (sc_id x) (sc_id tip).

Section fleet.
Variable add_month : Z -> option Z.
Variable uuid : nat -> string.

Inductive step (f : Fleet) : Fleet -> Prop :=
| step_create body :
    step f {| fl_db := snd (create_handler uuid body (fl_db f)); fl_seen := fl_seen f; fl_held := fl_held f |}
| step_update i body :
    step f {| fl_db := snd (update_handler i body (fl_db f)); fl_seen := fl_seen f; fl_held := fl_held f |}
| step_cancel i :
    step f {| fl_db := snd (cancel_handler i (fl_db f)); fl_seen := fl_seen f; fl_held := fl_held f |}
| step_read l w :
    due_tips (fl_db f) = (Ok l, w) -> step f {| fl_db := w; fl_seen := fl_seen f ++ l; fl_held := fl_held f |}
| step_read_fails e w :
    due_tips (fl_db f) = (Err e, w) -> step f {| fl_db := w; fl_seen := fl_seen f; fl_held := fl_held f |}
| step_take tip w :
    tip ∈ fl_seen f -> mark_processing (sc_id tip) (fl_db f) = (Ok true, w) ->
    step f {| fl_db := w; fl_seen := fl_seen f; fl_held := tip :: fl_held f |}
| step_miss tip r w :
    tip ∈ fl_seen f -> mark_processing (sc_id tip) (fl_db f) = (r, w) -> r <> Ok true ->
    step f {| fl_db := w; fl_seen := fl_seen f; fl_held := fl_held f |}
| step_finish tip :
    tip ∈ fl_held f ->
    step f {| fl_db := snd (finish_tip add_month tip (fl_db f)); fl_seen := fl_seen f;
              fl_held := delete_where (same_id tip) (fl_held f) |}
| step_crash tip :
    step f {| fl_db := fl_db f; fl_seen := fl_seen f; fl_held := delete_where (same_id tip) (fl_held f) |}
| step_clocks now utc :
    step f {| fl_db := with_clocks now utc (fl_db f); fl_seen := fl_seen f; fl_held := fl_held f |}
| step_weather l :
    step f {| fl_db := with_faults l (fl_db f); fl_seen := fl_seen f; fl_held := fl_held f |}.

(** Running one turn, or a whole pass, is a sequence of steps. *)
Lemma process_tip_steps tip w seen held :
  tip ∈ seen ->
  exists held', rtc step {| fl_db := w; fl_seen := seen; fl_held := held |}
    {| fl_db := snd (process_tip add_month tip w); fl_seen := seen; fl_held := held' |}.
Proof.
  intros Htip. unfold process_tip. bind_step.
  destruct (mark_processing (sc_id tip) w) as [[[] | e] w1] eqn:Hm.
  - eexists. eapply rtc_l; [by eapply (step_take {| fl_db := w; fl_seen := seen; fl_held := held |} tip)|].
    simpl. eapply rtc_once. apply (step_finish {| fl_db := w1; fl_seen := seen; fl_held := tip :: held |} tip). by left.
  - eexists. eapply rtc_once. by eapply (step_miss {| fl_db := w; fl_seen := seen; fl_held := held |} tip).
  - eexists. eapply rtc_once. by eapply (step_miss {| fl_db := w; fl_seen := seen; fl_held := held |} tip).
Qed.

Lemma forM_steps l w seen held :
  (forall tip, tip ∈ l -> tip ∈ seen) ->
  exists held', rtc step {| fl_db := w; fl_seen := seen; fl_held := held |}
    {| fl_db := snd (forM l tt (fun _ tip => process_tip add_month tip) w); fl_seen := seen; fl_held := held' |}.
Proof.
  revert w held. induction l as [|tip l IH]; intros w held Hl; simpl; [by eexists|].
  destruct (process_tip_steps tip w seen held) as (held1 & H1); [apply Hl; by left|].
  bind_step. destruct (process_tip add_month tip w) as [[[] | e] w1]; simpl in *; [|by eexists].
  destruct (IH w1 held1) as (held2 & H2); [intros; apply Hl; by right|].
  exists held2. by etrans.
Qed.

Lemma process_due_steps w seen held :
  exists seen' held', rtc step {| fl_db := w; fl_seen := seen; fl_held := held |}
    {| fl_db := snd (process_due add_month w); fl_seen := seen'; fl_held := held' |}.
Proof.
  unfold process_due. bind_step. destruct (due_tips w) as [[l | e] w1] eqn:Hd.
  - destruct (forM_steps l w1 (seen ++ l) held) as (held' & H); [set_solver|].
    exists (seen ++ l), held'. eapply rtc_l; [|exact H].
    by apply (step_read {| fl_db := w; fl_seen := seen; fl_held := held |}).
  - exists seen, held. eapply rtc_once. by eapply (step_read_fails {| fl_db := w; fl_seen := seen; fl_held := held |}).
Qed.

(** ** Invariants *)

Definition notices (i : string) (t : SchedTables) : nat :=
  length (List.filter (fun n => String.eqb (nt_tip_id n) i) (sd_jobs t)).

(** What is known of a row: [held] says whether some process has taken it. *)
Definition row_ok (t : SchedTables) (held : bool) (r : ScheduledTip) : Prop :=
  sc_status r ∈ ["pending"; "processing"; "completed"; "cancelled"] /\
  (sc_is_recurring r = false ->
     sc_run_count r = (if decide (sc_status r = "completed") then 1 else 0) /\
     (notices (sc_id r) t <= 1)%nat /\
     (sc_status r = "pending" \/ sc_status r = "cancelled" \/ held = true -> notices (sc_id r) t = 0%nat)).

Definition is_held (held : list ScheduledTip) (i : string) : bool := existsb (fun x => String.eqb (sc_id x) i) held.

Record Inv (f : Fleet) : Prop := {
  inv_ids : NoDup (sc_id <$> sd_tips (db_tables (fl_db f)));
  inv_seen : forall s, s ∈ fl_seen f -> exists r, r ∈ sd_tips (db_tables (fl_db f)) /\ sc_id r = sc_id s /\
    sc_is_recurring r = sc_is_recurring s;
  inv_held : forall s, s ∈ fl_held f -> s ∈ fl_seen f /\
    exists r, r ∈ sd_tips (db_tables (fl_db f)) /\ sc_id r = sc_id s /\ sc_status r = "processing";
  inv_rows : forall r, r ∈ sd_tips (db_tables (fl_db f)) ->
    row_ok (db_tables (fl_db f)) (is_held (fl_held f) (sc_id r)) r;
  inv_jobs : forall n, n ∈ sd_jobs (db_tables (fl_db f)) ->
    exists r, r ∈ sd_tips (db_tables (fl_db f)) /\ sc_id r = nt_tip_id n
}.

Lemma is_held_spec held i : is_held held i = true <-> exists s, s ∈ held /\ sc_id s = i.
Proof.
  unfold is_held. rewrite existsb_exists. split; intros (s & Hs & Hi); exists s.
  - by apply String.eqb_eq in Hi; rewrite list_elem_of_In.
  - rewrite <- list_elem_of_In, String.eqb_eq. done.
Qed.

Lemma Inv_update f w seen held p g :
  Inv f -> sd_tips (db_tables w) = update_where p g (sd_tips (db_tables (fl_db f))) ->
  (forall r, sc_id (g r) = sc_id r) -> (forall r, sc_is_recurring (g r) = sc_is_recurring r) ->
  (forall n, n ∈ sd_jobs (db_tables w) -> n ∈ sd_jobs (db_tables (fl_db f)) \/
     exists s, s ∈ fl_seen f /\ nt_tip_id n = sc_id s) ->
  (forall s, s ∈ seen -> s ∈ fl_seen f \/ s ∈ sd_tips (db_tables (fl_db f))) ->
  (forall s, s ∈ held -> s ∈ seen /\ exists r, r ∈ sd_tips (db_tables (fl_db f)) /\ sc_id r = sc_id s /\
     sc_status (if p r then g r else r) = "processing") ->
  (forall r, r ∈ sd_tips (db_tables (fl_db f)) ->
     row_ok (db_tables w) (is_held held (sc_id r)) (if p r then g r else r)) ->
  Inv {| fl_db := w; fl_seen := seen; fl_held := held |}.
Proof.
  intros Hf Ht Hgi Hgr Hjobs Hseen Hheld Hrows.
  assert (forall r, r ∈ sd_tips (db_tables (fl_db f)) -> (if p r then g r else r) ∈ sd_tips (db_tables w)) as Himg.
  { intros r Hr. rewrite Ht. by apply update_where_image. }
  assert (forall r, sc_id (if p r then g r else r) = sc_id r) as Hid by (intros r; by destruct (p r)).
  split; simpl.
  - rewrite Ht, update_where_fmap by done. apply Hf.
  - intros s Hs. assert (exists r, r ∈ sd_tips (db_tables (fl_db f)) /\ sc_id r = sc_id s /\
      sc_is_recurring r = sc_is_recurring s) as (r & Hr & Hi & Hrec).
    { apply Hseen in Hs as [Hs | Hs]; [by apply (inv_seen _ Hf) | by exists s]. }
    exists (if p r then g r else r). rewrite Hid. repeat split; [by apply Himg | done | by destruct (p r); rewrite ?Hgr].
  - intros s Hs. apply Hheld in Hs as (Hs & r & Hr & Hi & Hst). split; [done|].
    exists (if p r then g r else r). rewrite Hid. by repeat split; [apply Himg | ..].
  - intros r' Hr'. rewrite Ht in Hr'. apply elem_of_update_where in Hr' as [[Hr Hp] | (r & Hr & Hp & ->)].
    + apply Hrows in Hr. by rewrite Hp in Hr.
    + apply Hrows in Hr as Hok. rewrite Hp in Hok. by rewrite Hgi.
  - intros n Hn. assert (exists r, r ∈ sd_tips (db_tables (fl_db f)) /\ sc_id r = nt_tip_id n) as (r & Hr & Hi).
    { apply Hjobs in Hn as [Hn | (s & Hs & ->)]; [by apply (inv_jobs _ Hf)|].
      apply (inv_seen _ Hf) in Hs as (r & Hr & Hi & _). by exists r. }
    exists (if p r then g r else r). rewrite Hid. split; [by apply Himg | done].
Qed.

(** Nothing changed but the clocks, the faults, and what is remembered. *)
Lemma Inv_same f w seen held :
  Inv f -> db_tables w = db_tables (fl_db f) ->
  (forall s, s ∈ seen -> s ∈ fl_seen f \/ s ∈ sd_tips (db_tables (fl_db f))) ->
  (forall s, s ∈ fl_seen f -> s ∈ seen) -> (forall s, s ∈ held -> s ∈ fl_held f) ->
  Inv {| fl_db := w; fl_seen := seen; fl_held := held |}.
Proof.
  intros Hf Ht Hseen Hmore Hheld.
  apply (Inv_update f w seen held (fun _ => false) (fun r => r)); try done.
  - rewrite Ht. symmetry. apply map_id.
  - rewrite Ht. auto.
  - intros s Hs. apply Hheld, (inv_held _ Hf) in Hs as [Hs Hr]. auto.
  - intros r Hr. rewrite Ht. destruct (inv_rows _ Hf r Hr) as [Hst Hok]. split; [done|]. intros Hrec.
    destruct (Hok Hrec) as (H1 & H2 & H3). repeat split; [done..|]. intros Hcase. apply H3.
    destruct Hcase as [? | [? | Hh]]; [by left | by right; left|]. right; right.
    apply is_held_spec in Hh as (s & Hs & Hi). apply is_held_spec. eauto.
Qed.

(** A statement on the rows of one pending tip that is not taken. *)
Lemma Inv_pending f w i g :
  Inv f -> db_tables w = with_tips (update_where (pending_row i) g (sd_tips (db_tables (fl_db f)))) (db_tables (fl_db f)) ->
  (forall r, sc_id (g r) = sc_id r) -> (forall r, sc_is_recurring (g r) = sc_is_recurring r) ->
  (forall r, sc_run_count (g r) = sc_run_count r) ->
  (forall r, sc_status r = "pending" -> sc_status (g r) ∈ ["pending"; "processing"; "cancelled"]) ->
  Inv {| fl_db := w; fl_seen := fl_seen f; fl_held := fl_held f |}.
Proof.
  intros Hf Ht Hgi Hgr Hgc Hgs.
  apply (Inv_update f w _ _ (pending_row i) g); try done; rewrite ?Ht; auto.
  - intros s Hs. pose proof (inv_held _ Hf s Hs) as (Hseen & r & Hr & Hi & Hst). split; [done|]. exists r.
    unfold pending_row. rewrite Hst, andb_false_r. done.
  - intros r Hr. destruct (inv_rows _ Hf r Hr) as [Hst Hok]. unfold row_ok.
    destruct (pending_row i r) eqn:Hp; [|done]. unfold pending_row in Hp. zbool.
    match goal with H : String.eqb (sc_status r) _ = true |- _ => apply String.eqb_eq in H; rename H into Hpend end.
    pose proof (Hgs r Hpend) as Hgs'. split; [set_solver|]. intros Hrec. rewrite Hgr in Hrec.
    destruct (Hok Hrec) as (H1 & H2 & H3). rewrite Hgi, Hgc, H1, !decide_False.
    + change (notices (sc_id r) (with_tips _ _)) with (notices (sc_id r) (db_tables (fl_db f))). auto.
    + intros Hc. rewrite Hc in Hgs'. set_solver.
    + by rewrite Hpend.
Qed.

Lemma Inv_create f body :
  Inv f -> Inv {| fl_db := snd (create_handler uuid body (fl_db f)); fl_seen := fl_seen f; fl_held := fl_held f |}.
Proof.
  intros Hf. unfold create_handler. destruct (_ && _); [by destruct f|]. bind_step. unfold from_err, map_err, create.
  bind_step. simpl. set (w0 := {| db_tables := _ |}).
  destruct (sql _ w0) as [r w1] eqn:Hsql. apply sql_outcome in Hsql as (_ & _ & _ & Hsql).
  assert (db_tables w0 = db_tables (fl_db f)) as Hw0 by done.
  assert (db_tables w1 = db_tables (fl_db f) \/
    exists a, insert_scheduled (uuid (db_uuids (fl_db f))) body
      (if cq_is_recurring body then Some (cq_scheduled_at body) else Some (cq_scheduled_at body))
      (db_now w0) (db_tables w0) = Ok (a, db_tables w1)) as [Hsame | [a Ha]].
  { destruct r; [right; eauto | destruct Hsql; auto]. }
  - destruct r; simpl; by apply Inv_same with (f := f); auto.
  - assert (Inv {| fl_db := w1; fl_seen := fl_seen f; fl_held := fl_held f |}) as H; [|by destruct r].
    clear Hsql. unfold insert_scheduled in Ha. destruct (existsb _ _) eqn:Hnew; [done|]. injection Ha as Ha Ht.
    assert (forall x, x ∈ sd_tips (db_tables (fl_db f)) -> sc_id x <> uuid (db_uuids (fl_db f))) as Hfresh.
    { intros x Hx Heq. apply existsb_false_iff with (x := x) in Hnew; [|done]. by rewrite Heq, String.eqb_refl in Hnew. }
    split; simpl; rewrite <- Ht; simpl; rewrite ?Hw0.
    + rewrite fmap_app. apply NoDup_app. split; [apply Hf|]. split; [|apply NoDup_singleton].
      intros k (x & -> & Hx)%list_elem_of_fmap. cbn. rewrite list_elem_of_singleton. by apply Hfresh.
    + intros s Hs. apply (inv_seen _ Hf) in Hs as (x & Hx & H). exists x. set_solver.
    + intros s Hs. apply (inv_held _ Hf) in Hs as (Hs & x & Hx & H). split; [done|]. exists x. set_solver.
    + intros x [Hx | Hx]%elem_of_app; [by apply (inv_rows _ Hf)|]. apply list_elem_of_singleton in Hx. rewrite Hx.
      split; simpl; [set_solver|]. intros _.
      assert (notices (uuid (db_uuids (fl_db f))) (db_tables (fl_db f)) = 0%nat) as Hno.
      { unfold notices. rewrite list_filter_none; [done|]. intros n Hn. apply String.eqb_neq. intros Heq.
        apply (inv_jobs _ Hf) in Hn as (x' & Hx' & Hi). apply (Hfresh x' Hx'). congruence. }
      unfold notices in *. simpl in *. rewrite Hno. auto.
    + intros n Hn. apply (inv_jobs _ Hf) in Hn as (x & Hx & H). exists x. set_solver.
Qed.

(** What the statement on pending rows did, and what its answer says. *)
Lemma set_pending_cases status i w r w' :
  sql (set_pending_to status i) w = (r, w') ->
  (db_tables w' = db_tables w \/
   db_tables w' = with_tips (update_where (pending_row i) (fun x => with_status status (sc_last_error x) (db_now w) x)
                               (sd_tips (db_tables w))) (db_tables w)) /\
  (r = Ok true ->
     db_tables w' = with_tips (update_where (pending_row i) (fun x => with_status status (sc_last_error x) (db_now w) x)
                                 (sd_tips (db_tables w))) (db_tables w) /\
     exists x, x ∈ sd_tips (db_tables w) /\ sc_id x = i /\ sc_status x = "pending").
Proof.
  intros (_ & _ & _ & Hr)%sql_outcome. unfold set_pending_to in Hr. destruct r as [b | e].
  - injection Hr as Hb Ht. split; [by right|]. intros [= ->]. split; [done|].
    apply existsb_exists in Hb as (x & Hx & Hp). unfold pending_row in Hp. zbool. exists x.
    rewrite list_elem_of_In, <- !String.eqb_eq. done.
  - split; [|done]. destruct Hr as [Hr | [a [= _ Hr]]]; auto.
Qed.

Lemma Inv_take f tip r w :
  Inv f -> tip ∈ fl_seen f -> mark_processing (sc_id tip) (fl_db f) = (r, w) ->
  Inv {| fl_db := w; fl_seen := fl_seen f;
         fl_held := match r with Ok true => tip :: fl_held f | _ => fl_held f end |}.
Proof.
  intros Hf Htip [Ht Hok]%set_pending_cases.
  set (g := fun x => with_status "processing" (sc_last_error x) (db_now (fl_db f)) x) in *.
  destruct (match r with Ok b => b | Err _ => false end) eqn:Hr.
  2: { replace (match r with Ok true => _ | _ => _ end) with (fl_held f) by (by destruct r as [[]|]).
       destruct Ht as [Ht | Ht]; [by apply Inv_same with (f := f); auto|].
       eapply Inv_pending; [done | exact Ht | done..|]. simpl. set_solver. }
  destruct r as [[]|]; [|done..]. destruct (Hok eq_refl) as (Ht' & x & Hx & Hi & Hst).
  apply (Inv_update f w _ _ (pending_row (sc_id tip)) g); try done; rewrite ?Ht'; auto.
  - intros s [-> | Hs]%elem_of_cons.
    + split; [done|]. exists x. unfold pending_row. by rewrite Hi, Hst, String.eqb_refl.
    + pose proof (inv_held _ Hf s Hs) as (Hseen & y & Hy & Hyi & Hyst). split; [done|]. exists y.
      unfold pending_row. by rewrite Hyst, andb_false_r.
  - intros y Hy. destruct (inv_rows _ Hf y Hy) as [Hyst Hyok]. unfold row_ok.
    change (notices (sc_id _) (with_tips _ _)) with (notices (sc_id (if pending_row (sc_id tip) y then g y else y))
      (db_tables (fl_db f))).
    destruct (pending_row (sc_id tip) y) eqn:Hp.
    + unfold pending_row in Hp. zbool.
      match goal with H : String.eqb (sc_status y) _ = true |- _ => apply String.eqb_eq in H; rename H into Hpend end.
      split; [simpl; set_solver|]. intros Hrec. destruct (Hyok Hrec) as (H1 & H2 & H3).
      change (sc_run_count (g y)) with (sc_run_count y). change (sc_id (g y)) with (sc_id y).
      rewrite H1, Hpend, !decide_False by done. rewrite H3 by auto. auto.
    + split; [done|]. intros Hrec. destruct (Hyok Hrec) as (H1 & H2 & H3). split; [done|]. split; [done|].
      intros Hc. apply H3. destruct Hc as [? | [? | Hc]]; [by left | by right; left|].
      apply is_held_spec in Hc as (s & Hs & Hsi). apply elem_of_cons in Hs as [-> | Hs].
      * assert (y = x) as -> by (eapply nodup_key_inj; [apply Hf | done | done | congruence]). by left.
      * right; right. apply is_held_spec. eauto.
Qed.

(** What finishing did: perhaps a notice, perhaps the row completed. *)
Lemma finish_cases tip w r w' :
  finish_tip add_month tip w = (r, w') ->
  exists jobs tips, db_tables w' = {| sd_creators := sd_creators (db_tables w); sd_tips := tips; sd_jobs := jobs |} /\
    (jobs = sd_jobs (db_tables w) \/ exists n, jobs = sd_jobs (db_tables w) ++ [n] /\ nt_tip_id n = sc_id tip) /\
    (tips = sd_tips (db_tables w) \/
     tips = update_where (fun x => String.eqb (sc_id x) (sc_id tip)) (complete_row (next_of add_month tip) (db_now w))
              (sd_tips (db_tables w))).
Proof.
  unfold finish_tip. bind_step. unfold attempt at 1.
  destruct (enqueue_notification (sc_creator_username tip) (sc_id tip) w) as [r1 w1] eqn:Henq.
  assert (db_now w1 = db_now w /\ exists jobs, db_tables w1 = with_notices jobs (db_tables w) /\
    (jobs = sd_jobs (db_tables w) \/ exists n, jobs = sd_jobs (db_tables w) ++ [n] /\ nt_tip_id n = sc_id tip))
    as (Hn1 & jobs & Ht1 & Hjobs).
  { assert (with_notices (sd_jobs (db_tables w)) (db_tables w) = db_tables w) as Hid by (by destruct (db_tables w)).
    unfold enqueue_notification in Henq. revert Henq. bind_step. unfold select.
    destruct (sql _ w) as [[[c|] | e] w2] eqn:H2; apply sql_outcome in H2 as (_ & Hnow & _ & H2).
    2: { intros [= _ <-]. injection H2 as _ H2. split; [done|]. eexists. rewrite <- H2, Hid. auto. }
    2: { intros [= _ <-]. split; [done|]. eexists. rewrite Hid. split; [|by left]. destruct H2 as [-> | (? & [= _ <-])]; done. }
    bind_step. unfold attempt. destruct (sql _ w2) as [r3 w3] eqn:H3.
    apply sql_outcome in H3 as (_ & Hnow3 & _ & H3). intros [= _ <-]. injection H2 as _ H2. rewrite <- H2 in H3.
    split; [congruence|].
    assert (db_tables w3 = db_tables w \/ exists n, db_tables w3 = with_notices (sd_jobs (db_tables w) ++ [n]) (db_tables w)
      /\ nt_tip_id n = sc_id tip) as [-> | (n & -> & Hn)].
    { destruct r3 as [[] | e]; [|destruct H3 as [H3 | [[] H3]]]; [|by left|]; injection H3 as H3;
        right; eexists; (split; [by symmetry | done]). }
    - eexists. rewrite Hid. auto.
    - eexists. split; [done|]. right. by exists n. }
  intros (_ & _ & _ & Hm)%sql_outcome.
  assert (db_tables w' = db_tables w1 \/ db_tables w' = with_tips
    (update_where (fun x => String.eqb (sc_id x) (sc_id tip)) (complete_row (next_of add_month tip) (db_now w1))
       (sd_tips (db_tables w1))) (db_tables w1)) as [-> | ->].
  { destruct r as [[] | e]; [|destruct Hm as [Hm | [[] Hm]]]; [|by left|]; injection Hm as Hm; by right. }
  - rewrite Ht1. eexists jobs, _. split; [reflexivity|]. auto.
  - rewrite Ht1, Hn1. eexists jobs, _. split; [reflexivity|]. simpl. auto.
Qed.

Lemma next_of_one_shot tip : sc_is_recurring tip = false -> next_of add_month tip = None.
Proof. intros Hr. unfold next_of. by rewrite Hr. Qed.

(** The row of the finished tip, and the others. *)
Lemma finished_row f tip t jobs p g r :
  Inv f -> tip ∈ fl_held f -> r ∈ sd_tips (db_tables (fl_db f)) -> sd_jobs t = jobs ->
  jobs = sd_jobs (db_tables (fl_db f)) \/
    (exists n, jobs = sd_jobs (db_tables (fl_db f)) ++ [n] /\ nt_tip_id n = sc_id tip) ->
  (p = (fun _ => false) \/
   p = (fun x => String.eqb (sc_id x) (sc_id tip)) /\ exists now, g = complete_row (next_of add_month tip) now) ->
  row_ok t (is_held (delete_where (same_id tip) (fl_held f)) (sc_id r)) (if p r then g r else r).
Proof.
  intros Hf Htip Hr Ht Hjobs Hpg. destruct (inv_rows _ Hf r Hr) as [Hst Hok].
  destruct (inv_held _ Hf tip Htip) as (Hseen & y & Hy & Hyi & Hyst).
  assert (forall i, (notices i t <= notices i (db_tables (fl_db f)) + 1)%nat /\
    (i <> sc_id tip -> notices i t = notices i (db_tables (fl_db f)))) as Hcount.
  { intros i. unfold notices. rewrite Ht. destruct Hjobs as [-> | (n & -> & Hn)]; [split; [lia | done]|].
    rewrite List.filter_app, length_app. simpl. rewrite Hn.
    destruct (String.eqb_spec (sc_id tip) i); simpl; split; try lia. congruence. }
  destruct (decide (sc_id r = sc_id tip)) as [Hi | Hi].
  - assert (r = y) as -> by (eapply nodup_key_inj; [apply Hf | done | done | congruence]).
    assert (is_held (delete_where (same_id tip) (fl_held f)) (sc_id y) = false) as ->.
    { apply not_true_iff_false. intros (s & [_ Hs]%elem_of_delete_where & Hsi)%is_held_spec. unfold same_id in Hs.
      rewrite Hsi, Hi, String.eqb_refl in Hs. done. }
    assert (is_held (fl_held f) (sc_id y) = true) as Hheld by (apply is_held_spec; eauto).
    assert (sc_is_recurring y = sc_is_recurring tip) as Hrec.
    { destruct (inv_seen _ Hf tip Hseen) as (z & Hz & Hzi & <-). f_equal.
      eapply nodup_key_inj; [apply Hf | done | done | congruence]. }
    assert (sc_is_recurring y = false -> (notices (sc_id y) t <= 1)%nat) as Hone.
    { intros Hrec'. destruct (Hok Hrec') as (_ & _ & H0). specialize (Hcount (sc_id y)). rewrite H0 in Hcount by auto. lia. }
    destruct Hpg as [-> | [-> [now ->]]].
    + split; [done|]. intros Hrec'. destruct (Hok Hrec') as (H1 & _ & _). split; [done|]. split; [auto|].
      rewrite Hyst. intros [[=] | [[=] | [=]]].
    + rewrite Hi, String.eqb_refl. split; [simpl; destruct (next_of add_month tip); set_solver|]. intros Hrec'.
      simpl in Hrec'. destruct (Hok Hrec') as (H1 & _ & _). simpl. rewrite next_of_one_shot by congruence.
      rewrite H1, Hyst, decide_False, decide_True by done. split; [done|]. split; [auto|]. intros [[=] | [[=] | [=]]].
  - assert ((if p r then g r else r) = r) as ->.
    { destruct Hpg as [-> | [-> _]]; [done|]. by destruct (String.eqb_spec (sc_id r) (sc_id tip)). }
    split; [done|]. intros Hrec. destruct (Hok Hrec) as (H1 & H2 & H3). split; [done|].
    rewrite (proj2 (Hcount (sc_id r)) Hi).
    split; [done|]. intros Hc. apply H3. destruct Hc as [? | [? | Hc]]; [by left | by right; left|]. right; right.
    apply is_held_spec in Hc as (s & [Hs _]%elem_of_delete_where & Hsi). apply is_held_spec. eauto.
Qed.

Lemma Inv_finish f tip :
  Inv f -> tip ∈ fl_held f ->
  Inv {| fl_db := snd (finish_tip add_month tip (fl_db f)); fl_seen := fl_seen f;
         fl_held := delete_where (same_id tip) (fl_held f) |}.
Proof.
  intros Hf Htip. destruct (finish_tip add_month tip (fl_db f)) as [r w] eqn:Hfin. simpl.
  apply finish_cases in Hfin as (jobs & tips & Ht & Hjobs & Htips).
  destruct (inv_held _ Hf tip Htip) as (Hseen & _).
  set (g := complete_row (next_of add_month tip) (db_now (fl_db f))) in *.
  assert (exists p, sd_tips (db_tables w) = update_where p g (sd_tips (db_tables (fl_db f))) /\
    (p = (fun _ => false) \/
     p = (fun x => String.eqb (sc_id x) (sc_id tip)) /\ exists now, g = complete_row (next_of add_month tip) now))
    as (p & Hp & Hpg).
  { rewrite Ht. destruct Htips as [-> | ->]; [|by eexists; split; [done | right; eauto]].
    exists (fun _ => false). split; [|by left]. symmetry. apply map_id. }
  apply (Inv_update f w _ _ p g); try done; auto.
  - intros n Hn. rewrite Ht in Hn. simpl in Hn. destruct Hjobs as [-> | (m & -> & Hm)]; [by left|].
    apply elem_of_app in Hn as [Hn | ->%list_elem_of_singleton]; [by left | right; eauto].
  - intros s [Hs Hne]%elem_of_delete_where. destruct (inv_held _ Hf s Hs) as (Hss & x & Hx & Hi & Hst).
    split; [done|]. exists x. split; [done|]. split; [done|]. destruct Hpg as [-> | [-> _]]; [done|].
    rewrite Hi. unfold same_id in Hne. by rewrite Hne.
  - intros x Hx. eapply finished_row; [done.. | | |]; rewrite ?Ht; done.
Qed.

Lemma fleet_step_inv f f' : Inv f -> step f f' -> Inv f'.
Proof.
  intros Hf Hs. destruct Hs as [body | i body | i | l w Hr | e w Hr | tip w Htip Hr | tip r w Htip Hr Hne | tip Htip |
    tip | now utc | l].
  - by apply Inv_create.
  - unfold update_handler. bind_step. unfold map_err.
    destruct (update i body (fl_db f)) as [r w] eqn:Hu.
    assert (Inv {| fl_db := w; fl_seen := fl_seen f; fl_held := fl_held f |}) as H; [|by destruct r].
    apply sql_outcome in Hu as (_ & _ & _ & Hu).
    assert (db_tables w = db_tables (fl_db f) \/ db_tables w = with_tips (update_where (pending_row i)
      (edit_row body (db_now (fl_db f))) (sd_tips (db_tables (fl_db f)))) (db_tables (fl_db f))) as [Hw | Hw].
    { destruct r as [a | e]; [|destruct Hu as [Hu | [a Hu]]]; [|by left|];
        destruct (updated _ _ _); simplify_eq; by right. }
    + by apply Inv_same with (f := f); auto.
    + eapply Inv_pending; [done | exact Hw | done..|]. simpl. intros r0 ->. set_solver.
  - unfold cancel_handler, from_err. bind_step. unfold map_err.
    destruct (cancel i (fl_db f)) as [r w] eqn:Hu.
    assert (Inv {| fl_db := w; fl_seen := fl_seen f; fl_held := fl_held f |}) as H; [|by destruct r as [[]|]].
    apply set_pending_cases in Hu as [[Hw | Hw] _].
    + by apply Inv_same with (f := f); auto.
    + eapply Inv_pending; [done | exact Hw | done..|]. simpl. set_solver.
  - unfold due_tips in Hr. apply bind_answers in Hr as (now & w1 & [= <- <-] & (-> & Hw & _)%select_ok).
    apply Inv_same with (f := f); [done | done | | set_solver | done].
    intros s [Hs | Hs]%elem_of_app; [by left | right]. unfold due in Hs.
    apply elem_of_take in Hs as (k & Hs & _). apply list_elem_of_lookup_2 in Hs. rewrite sort_by_perm in Hs.
    by apply list_elem_of_In, filter_In in Hs as [Hs%list_elem_of_In _].
  - unfold due_tips in Hr. revert Hr. bind_step. simpl. unfold select. intros (_ & _ & _ & Hr)%sql_outcome.
    apply Inv_same with (f := f); [done | | auto..]. destruct Hr as [Hr | [a [= _ Hr]]]; done.
  - by apply (Inv_take f tip (Ok true) w).
  - pose proof (Inv_take f tip r w Hf Htip Hr) as H. by destruct r as [[]|].
  - by apply Inv_finish.
  - apply Inv_same with (f := f); auto. by intros s [Hs _]%elem_of_delete_where.
  - apply Inv_same with (f := f); auto.
  - apply Inv_same with (f := f); auto.
Qed.
End fleet.

(** ** The pass without failures *)

Definition ids_among (l : list ScheduledTip) (r : ScheduledTip) : bool :=
  existsb (fun x => String.eqb (sc_id x) (sc_id r)) l.

Definition notice_of (t : SchedTables) (r : ScheduledTip) : list Notice :=
  match find (fun c => String.eqb (fst c) (sc_creator_username r)) (sd_creators t) with
  | Some row => [{| nt_creator_id := snd row; nt_tip_id := sc_id r;
                    nt_recipient_email := sc_creator_username r +:+ "@placeholder.invalid" |}]
  | None => []
  end.

(** A due row is run: its creator told, and the row moved to its next occurrence or completed. *)
Definition run_row (add_month : Z -> option Z) (now : Z) (r : ScheduledTip) : ScheduledTip :=
  complete_row (next_of add_month r) now r.

Section pass.
Variable add_month : Z -> option Z.

Lemma update_where_others {R} (p : R -> bool) f (l : list R) : (forall r, r ∈ l -> p r = false) -> update_where p f l = l.
Proof.
  induction l as [|r l IH]; intros H; [done|]. cbn. rewrite H by set_solver. f_equal. apply IH. set_solver.
Qed.

Lemma process_tip_calm tip w :
  db_faults w = [] -> NoDup (sc_id <$> sd_tips (db_tables w)) -> tip ∈ sd_tips (db_tables w) ->
  sc_status tip = "pending" ->
  exists w', process_tip add_month tip w = (Ok tt, w') /\ db_faults w' = [] /\ db_now w' = db_now w /\
    db_tables w' = {| sd_creators := sd_creators (db_tables w);
      sd_tips := update_where (same_id tip) (run_row add_month (db_now w)) (sd_tips (db_tables w));
      sd_jobs := sd_jobs (db_tables w) ++ notice_of (db_tables w) tip |}.
Proof.
  intros Hf Hnd Htip Hst. unfold process_tip, mark_processing. bind_step. rewrite sql_calm by done.
  unfold run_statement at 1, set_pending_to at 1.
  assert (existsb (pending_row (sc_id tip)) (sd_tips (db_tables w)) = true) as ->.
  { apply existsb_exists. exists tip. rewrite <- list_elem_of_In. unfold pending_row. by rewrite Hst, String.eqb_refl. }
  assert (forall now f g, update_where (fun x => String.eqb (sc_id x) (sc_id tip)) (complete_row f now)
     (update_where (pending_row (sc_id tip)) (fun x => with_status "processing" (g x) now x) (sd_tips (db_tables w))) =
     update_where (same_id tip) (complete_row f now) (sd_tips (db_tables w))) as Hcompose.
  { intros now f g. unfold update_where. rewrite map_map. apply map_ext_in. intros x Hx%list_elem_of_In.
    unfold pending_row, same_id. destruct (String.eqb_spec (sc_id x) (sc_id tip)) as [Hi | Hi]; simpl.
    - assert (x = tip) as -> by (by eapply nodup_key_inj). rewrite Hst. simpl. by rewrite String.eqb_refl.
    - by destruct (String.eqb_spec (sc_id x) (sc_id tip)). }
  assert (update_where (same_id tip) (complete_row (next_of add_month tip) (db_now w)) (sd_tips (db_tables w)) =
    update_where (same_id tip) (run_row add_month (db_now w)) (sd_tips (db_tables w))) as Hrun.
  { apply map_ext_in. intros x Hx%list_elem_of_In. unfold same_id, run_row.
    destruct (String.eqb_spec (sc_id x) (sc_id tip)) as [Hi | Hi]; [|done].
    assert (x = tip) as -> by (by eapply nodup_key_inj). done. }
  unfold finish_tip. bind_step. unfold attempt at 1, enqueue_notification, select at 1, notice_of.
  bind_step. rewrite sql_calm by done. unfold run_statement at 1. simpl.
  destruct (find _ (sd_creators (db_tables w))) as [c|] eqn:Hc; simpl.
  - bind_step. unfold attempt. rewrite sql_calm by done. unfold run_statement at 1. simpl.
    unfold mark_completed. rewrite sql_calm by done. unfold run_statement. simpl.
    eexists. split; [reflexivity|]. simpl. rewrite Hcompose, Hrun. done.
  - unfold mark_completed. rewrite sql_calm by done. unfold run_statement. simpl.
    eexists. split; [reflexivity|]. simpl. rewrite Hcompose, Hrun, app_nil_r. done.
Qed.

Lemma forM_tips_calm l w :
  db_faults w = [] -> NoDup (sc_id <$> sd_tips (db_tables w)) -> NoDup (sc_id <$> l) ->
  (forall r, r ∈ l -> r ∈ sd_tips (db_tables w) /\ sc_status r = "pending") ->
  exists w', forM l tt (fun _ tip => process_tip add_month tip) w = (Ok tt, w') /\
    db_tables w' = {| sd_creators := sd_creators (db_tables w);
      sd_tips := update_where (ids_among l) (run_row add_month (db_now w)) (sd_tips (db_tables w));
      sd_jobs := sd_jobs (db_tables w) ++ flat_map (notice_of (db_tables w)) l |}.
Proof.
  revert w. induction l as [|tip l IH]; intros w Hf Hnd Hl Hin.
  { exists w. split; [done|]. simpl. rewrite app_nil_r, update_where_others by done. by destruct (db_tables w). }
  destruct (process_tip_calm tip w) as (w1 & H1 & Hf1 & Hn1 & Ht1); [done | done | apply Hin; by left.. |].
  apply NoDup_cons in Hl as [Hnotin Hl].
  destruct (IH w1) as (w' & Hw' & Ht'); [done | | done | |].
  - rewrite Ht1. simpl. rewrite update_where_fmap; done.
  - intros r Hr. rewrite Ht1. simpl. destruct (Hin r) as [Hin' Hst]; [by right|]. split; [|done].
    apply elem_of_update_where. left. split; [done|]. apply String.eqb_neq. intros Heq. apply Hnotin. rewrite <- Heq.
    by apply list_elem_of_fmap_2.
  - exists w'. simpl. bind_step. rewrite H1. split; [done|]. rewrite Ht', Ht1, Hn1. simpl. f_equal.
    + unfold update_where. rewrite map_map. apply map_ext_in. intros x Hx. unfold ids_among, same_id. simpl.
      rewrite (String.eqb_sym (sc_id tip)).
      destruct (String.eqb_spec (sc_id x) (sc_id tip)) as [Hi | Hi]; simpl; [|done]. rewrite Hi.
      replace (existsb _ l) with false; [done|]. symmetry. apply existsb_false_iff. intros y Hy.
      apply String.eqb_neq. intros Hys. apply Hnotin. rewrite <- Hys. by apply list_elem_of_fmap_2.
    + by rewrite <- app_assoc.
Qed.

Lemma due_tip_elem now l r :
  r ∈ due now l -> r ∈ l /\ sc_status r = "pending" /\ exists n, sc_next_run_at r = Some n /\ n <= now.
Proof.
  unfold due. intros (i & Hs & _)%elem_of_take. apply list_elem_of_lookup_2 in Hs. rewrite sort_by_perm in Hs.
  apply list_elem_of_In, filter_In in Hs as [Hs Hp]. unfold due_at in Hp. zbool. rewrite list_elem_of_In.
  split; [done|]. split; [by apply String.eqb_eq|]. destruct (sc_next_run_at r) as [n|]; [|done]. exists n. by zbool.
Qed.

Lemma due_tip_nodup now l : NoDup (sc_id <$> l) -> NoDup (sc_id <$> due now l).
Proof.
  intros Hl. unfold due. eapply sublist_NoDup; [|apply fmap_sublist, sublist_take]. rewrite sort_by_perm.
  eapply sublist_NoDup; [exact Hl | apply fmap_sublist, list_filter_sublist].
Qed.
End pass.

(** ** Claims *)

Definition sched_world (creators : list (string * string)) (now : Z) : Db SchedTables :=
  {| db_tables := {| sd_creators := creators; sd_tips := []; sd_jobs := [] |}; db_now := now; db_utc := now;
     db_uuids := 0; db_faults := [] |}.

Definition fleet_start (creators : list (string * string)) (now : Z) : Fleet :=
  {| fl_db := sched_world creators now; fl_seen := []; fl_held := [] |}.

Lemma fleet_start_inv creators now : Inv (fleet_start creators now).
Proof. split; simpl; try constructor; set_solver. Qed.

Lemma reachable_inv add_month uuid f f' : Inv f -> rtc (step add_month uuid) f f' -> Inv f'.
Proof. intros Hf H. induction H; [done|]. eauto using fleet_step_inv. Qed.

(** C32: However many processes run the loop, whenever they read their lists,
    wherever they stop and whatever calls fail, a tip that does not recur is
    run and announced to its creator at most once, not before it is taken and
    never once it is cancelled; no tip is ever marked failed. *)
Theorem one_shot_runs_once add_month uuid creators now f r :
  rtc (step add_month uuid) (fleet_start creators now) f ->
  let t := db_tables (fl_db f) in
  r ∈ sd_tips t ->
  sc_status r <> "failed" /\
  (sc_is_recurring r = false ->
     sc_run_count r = (if decide (sc_status r = "completed") then 1 else 0) /\
     (notices (sc_id r) t <= 1)%nat /\
     (sc_status r = "pending" \/ sc_status r = "cancelled" -> notices (sc_id r) t = 0%nat)).
Proof.
  intros Hrun t Hr. pose proof (reachable_inv _ _ _ _ (fleet_start_inv creators now) Hrun) as Hf.
  destruct (inv_rows _ Hf r Hr) as [Hst Hok]. split; [intros Hfail; rewrite Hfail in Hst; set_solver|].
  intros Hrec. destruct (Hok Hrec) as (H1 & H2 & H3). repeat split; [done..|]. intros Hc. apply H3. tauto.
Qed.

(** A row outside what an update selects stays. *)
Lemma stays {t} r p g : r ∈ sd_tips t -> p r = false -> r ∈ update_where p g (sd_tips t).
Proof. intros Hr Hp. apply elem_of_update_where. by left. Qed.

Lemma processing_not_pending i r : sc_status r = "processing" -> pending_row i r = false.
Proof. intros Hst. unfold pending_row. by rewrite Hst, andb_false_r. Qed.

Lemma create_keeps uuid body w r : r ∈ sd_tips (db_tables w) -> r ∈ sd_tips (db_tables (snd (create_handler uuid body w))).
Proof.
  intros Hr. unfold create_handler. destruct (_ && _); [done|]. bind_step. unfold from_err, map_err, create.
  bind_step. simpl. destruct (sql _ _) as [r1 w1] eqn:Hsql. apply sql_outcome in Hsql as (_ & _ & _ & Hsql).
  assert (r ∈ sd_tips (db_tables w1)) as H; [|by destruct r1].
  destruct r1 as [a | e]; [|destruct Hsql as [-> | [a Hsql]]; [done|]];
    unfold insert_scheduled in Hsql; destruct (existsb _ _); try done; injection Hsql as _ Ht; rewrite <- Ht;
    simpl; set_solver.
Qed.

Lemma pending_keeps {A} (q : statement SchedTables A) i g w r r1 w1 :
  sql q w = (r1, w1) -> r ∈ sd_tips (db_tables w) -> sc_status r = "processing" ->
  (forall a t, q (db_now w) (db_tables w) = Ok (a, t) ->
     t = with_tips (update_where (pending_row i) g (sd_tips (db_tables w))) (db_tables w)) ->
  r ∈ sd_tips (db_tables w1).
Proof.
  intros (_ & _ & _ & Hq)%sql_outcome Hr Hst Hall.
  assert (db_tables w1 = db_tables w \/ exists a, q (db_now w) (db_tables w) = Ok (a, db_tables w1)) as [-> | [a Ha]].
  { destruct r1; [right; eauto | destruct Hq; auto]. }
  - done.
  - rewrite (Hall _ _ Ha). simpl. apply stays; [done | by apply processing_not_pending].
Qed.

Lemma stranded_step add_month uuid f f' r :
  Inv f -> step add_month uuid f f' ->
  r ∈ sd_tips (db_tables (fl_db f)) -> sc_status r = "processing" -> is_held (fl_held f) (sc_id r) = false ->
  r ∈ sd_tips (db_tables (fl_db f')) /\ is_held (fl_held f') (sc_id r) = false.
Proof.
  intros Hf Hs Hr Hst Hh.
  assert (forall tip, is_held (delete_where (same_id tip) (fl_held f)) (sc_id r) = false) as Hless.
  { intros tip. apply not_true_iff_false. intros (s & [Hs' _]%elem_of_delete_where & Hi)%is_held_spec.
    apply not_true_iff_false in Hh. apply Hh, is_held_spec. eauto. }
  destruct Hs as [body | i body | i | l w Hd | e w Hd | tip w Htip Hd | tip r1 w Htip Hd Hne | tip Htip |
    tip | now utc | l]; simpl; (split; [|try apply Hless]); try done.
  - by apply create_keeps.
  - unfold update_handler. bind_step. unfold map_err. destruct (update i body (fl_db f)) as [r1 w] eqn:Hu.
    assert (r ∈ sd_tips (db_tables w)) as H; [|by destruct r1].
    eapply pending_keeps; [exact Hu | done..|]. intros a t. cbv beta. destruct (updated _ _ _); [done|].
    by intros [= _ <-].
  - unfold cancel_handler, from_err. bind_step. unfold map_err. destruct (cancel i (fl_db f)) as [r1 w] eqn:Hu.
    assert (r ∈ sd_tips (db_tables w)) as H; [|by destruct r1 as [[]|]].
    eapply pending_keeps; [exact Hu | done..|]. by intros a t [= _ <-].
  - apply bind_answers in Hd as (now & w1 & [= <- <-] & (-> & Hw & _)%select_ok). by rewrite Hw.
  - revert Hd. unfold due_tips. bind_step. simpl. unfold select. intros (_ & _ & _ & Hd)%sql_outcome.
    destruct Hd as [-> | [a [= _ <-]]]; done.
  - eapply pending_keeps; [exact Hd | done..|]. by intros a t [= _ <-].
  - apply set_pending_cases in Hd as [_ Hd]. destruct (Hd eq_refl) as (_ & x & Hx & Hi & Hxst).
    fold (is_held (fl_held f) (sc_id r)). rewrite Hh, orb_false_r. apply String.eqb_neq. intros Heq.
    assert (x = r) as -> by (eapply nodup_key_inj; [apply Hf | done | done | congruence]). congruence.
  - eapply pending_keeps; [exact Hd | done..|]. by intros a t [= _ <-].
  - destruct (finish_tip add_month tip (fl_db f)) as [r1 w] eqn:Hfin.
    apply finish_cases in Hfin as (jobs & tips & Ht & _ & Htips). simpl. rewrite Ht. simpl.
    destruct Htips as [-> | ->]; [done|]. apply stays; [done|]. apply String.eqb_neq. intros Hi.
    apply not_true_iff_false in Hh. apply Hh, is_held_spec. eauto.
Qed.

(** A tip left in processing by a process that stopped, or whose call failed,
    stays there in every history: nothing takes it up again. *)
Theorem stranded_forever add_month uuid f f' r :
  Inv f -> rtc (step add_month uuid) f f' ->
  r ∈ sd_tips (db_tables (fl_db f)) -> sc_status r = "processing" -> is_held (fl_held f) (sc_id r) = false ->
  r ∈ sd_tips (db_tables (fl_db f')).
Proof.
  intros Hf H. induction H as [f | f f1 f' Hs H IH]; [done|]. intros Hr Hst Hh.
  destruct (stranded_step _ _ _ _ _ Hf Hs Hr Hst Hh) as [Hr1 Hh1]. apply IH; eauto using fleet_step_inv.
Qed.

(** The next occurrence of a rule: later than the one before, and not after the end. *)
Lemma next_run_sound add_month from rule e n :
  (forall t t', add_month t = Some t' -> t < t') -> next_run add_month from rule e = Some n ->
  from < n /\ (forall m, e = Some m -> n <= m) /\ In rule ["daily"; "weekly"; "monthly"]%list.
Proof.
  intros Hmonth. unfold next_run.
  destruct (String.eqb_spec rule "daily"); [|destruct (String.eqb_spec rule "weekly");
    [|destruct (String.eqb_spec rule "monthly"); [|done]]]; subst.
  - simpl. destruct e as [m|]; [destruct (m <? _) eqn:E|]; intros [= <-]; zbool; unfold one_day in *;
      (split; [lia|]); (split; [intros ? [=]; lia|]); simpl; auto.
  - simpl. destruct e as [m|]; [destruct (m <? _) eqn:E|]; intros [= <-]; zbool; unfold one_day in *;
      (split; [lia|]); (split; [intros ? [=]; lia|]); simpl; auto.
  - destruct (add_month from) as [k|] eqn:Hk; [|done]. apply Hmonth in Hk. simpl.
    destruct e as [m|]; [destruct (m <? _) eqn:E|]; intros [= <-]; zbool;
      (split; [lia|]); (split; [intros ? [=]; lia|]); simpl; auto.
Qed.

(** Without failures a pass runs each of the pending tips that are due, the
    hundred earliest, exactly once: its creator hears of it, its count grows by
    one, and it is completed or pending again at the next occurrence of its rule;
    no other tip changes. *)
Theorem due_pass_exact add_month w :
  db_faults w = [] -> NoDup (sc_id <$> sd_tips (db_tables w)) ->
  let t := db_tables w in
  let l := due (db_utc w) (sd_tips t) in
  exists w', process_due add_month w = (Ok tt, w') /\
    sd_tips (db_tables w') = update_where (ids_among l) (run_row add_month (db_now w)) (sd_tips t) /\
    sd_jobs (db_tables w') = sd_jobs t ++ flat_map (notice_of t) l /\
    (forall r, r ∈ l -> r ∈ sd_tips t /\ sc_status r = "pending" /\
       exists n, sc_next_run_at r = Some n /\ n <= db_utc w).
Proof.
  intros Hf Hnd t l. destruct (forM_tips_calm add_month l w) as (w' & Hw' & Ht'); [done | done | by apply due_tip_nodup | |].
  { intros r Hr. apply due_tip_elem in Hr as (Hr & Hst & _). done. }
  exists w'. rewrite Ht'. unfold process_due, due_tips. bind_step. bind_step. simpl. unfold select.
  rewrite sql_calm by done. unfold run_statement.
  replace (with_tables (db_tables w) w) with w by (by destruct w). split; [done|]. split; [done|]. split; [done|].
  intros r Hr. by apply due_tip_elem in Hr.
Qed.

(** A daily tip of 1 XLM to alice, a one-shot tip, and the processes that run them. *)
Definition daily_tip : CreateScheduledTipRequest :=
  {| cq_creator_username := "alice"; cq_amount := "1"; cq_tipper_ref := "bob"; cq_message := None;
     cq_scheduled_at := 0; cq_is_recurring := true; cq_recurrence_rule := Some "daily"; cq_recurrence_end := None |}.

Definition single_tip : CreateScheduledTipRequest :=
  {| cq_creator_username := "alice"; cq_amount := "1"; cq_tipper_ref := "bob"; cq_message := None;
     cq_scheduled_at := 0; cq_is_recurring := false; cq_recurrence_rule := None; cq_recurrence_end := None |}.

Definition no_months (_ : Z) : option Z := None.

Definition created (body : CreateScheduledTipRequest) : Db SchedTables :=
  snd (create_handler tally body (sched_world [("alice", "a1")] 0)).

Definition tip_now (w : Db SchedTables) : list (string * Z * option Z * nat) :=
  map (fun r => (sc_status r, sc_run_count r, option_map (fun n => n / one_day) (sc_next_run_at r),
                 notices (sc_id r) (db_tables w))) (sd_tips (db_tables w)).

(** A pass over the one-shot tip. *)
Definition single_done : Db SchedTables := Eval vm_compute in snd (process_due no_months (created single_tip)).

Lemma one_shot_runs_once_witness :
  exists f r, rtc (step no_months tally) (fleet_start [("alice", "a1")] 0) f /\
    r ∈ sd_tips (db_tables (fl_db f)) /\ sc_is_recurring r = false /\ sc_status r = "completed" /\
    sc_run_count r = 1 /\ (notices (sc_id r) (db_tables (fl_db f)) <= 1)%nat.
Proof.
  set (w0 := snd (create_handler tally single_tip (sched_world [("alice", "a1")] 0))).
  destruct (process_due_steps no_months tally w0 [] []) as (seen & held & Hrun).
  assert (snd (process_due no_months w0) = single_done) as Hdone by (vm_compute; reflexivity).
  set (f := {| fl_db := single_done; fl_seen := seen; fl_held := held |}).
  set (r := hd {| sc_id := ""; sc_creator_username := ""; sc_amount := ""; sc_tipper_ref := ""; sc_message := None;
    sc_status := ""; sc_scheduled_at := 0; sc_is_recurring := true; sc_recurrence_rule := None;
    sc_recurrence_end := None; sc_next_run_at := None; sc_last_run_at := None; sc_run_count := 0;
    sc_last_error := None; sc_created_at := 0; sc_updated_at := 0 |} (sd_tips (db_tables single_done))).
  assert (rtc (step no_months tally) (fleet_start [("alice", "a1")] 0) f) as Hreach.
  { unfold f. rewrite <- Hdone. eapply rtc_l; [|exact Hrun].
    exact (step_create no_months tally (fleet_start [("alice", "a1")] 0) single_tip). }
  assert (r ∈ sd_tips (db_tables (fl_db f))) as Hin by (vm_compute; left).
  destruct (one_shot_runs_once no_months tally [("alice", "a1")] 0 f r Hreach Hin) as [_ H].
  destruct H as (H1 & H2 & _); [reflexivity|].
  exists f, r. split; [exact Hreach|]. split; [exact Hin|]. split; [reflexivity|]. split; [reflexivity|].
  split; [exact H1 | exact H2].
Defined.

Definition daily_world : Db SchedTables := Eval vm_compute in with_clocks one_day one_day (created daily_tip).

Lemma due_pass_exact_witness :
  exists w', process_due no_months daily_world = (Ok tt, w') /\
    sd_tips (db_tables w') =
      update_where (ids_among (due one_day (sd_tips (db_tables daily_world)))) (run_row no_months one_day)
        (sd_tips (db_tables daily_world)) /\
    tip_now w' = [("pending", 1, Some 1, 1%nat)].
Proof.
  destruct (due_pass_exact no_months daily_world) as (w' & H1 & H2 & H3 & _).
  - reflexivity.
  - vm_compute. apply NoDup_singleton.
  - exists w'. split; [exact H1|]. split; [exact H2|].
    replace w' with (snd (process_due no_months daily_world)) by (rewrite H1; reflexivity). vm_compute. reflexivity.
Defined.

(** Two processes that read the same list run one occurrence twice: the second
    finds the tip pending again and takes it, with the row it had read. *)
Example occurrence_run_twice :
  match due_tips (created daily_tip) with
  | (Ok [tip], w) =>
      let w1 := snd (process_tip no_months tip w) in
      let w2 := snd (process_tip no_months tip w1) in
      tip_now w1 = [("pending", 1, Some 1, 1%nat)] /\ tip_now w2 = [("pending", 2, Some 1, 2%nat)]
  | _ => False
  end.
Proof. vm_compute. done. Qed.

(** A call that fails after the tip was taken strands it: announced, never run again. *)
Example taken_and_stranded :
  let w1 := snd (process_due no_months (with_faults [Fine; Fine; Fine; Fine; Refused] (created daily_tip))) in
  let w2 := snd (process_due no_months (with_clocks (9 * one_day) (9 * one_day) w1)) in
  tip_now w1 = [("processing", 0, Some 0, 1%nat)] /\ tip_now w2 = tip_now w1 /\
  fst (cancel_handler (tally 0) w2) = Err (Unauthorized "Scheduled tip not found or not pending").
Proof. vm_compute. done. Qed.

(** An unknown rule is accepted, and runs once. *)
Example unknown_rule_runs_once :
  let yearly := {| cq_creator_username := "alice"; cq_amount := "1"; cq_tipper_ref := "bob"; cq_message := None;
     cq_scheduled_at := 0; cq_is_recurring := true; cq_recurrence_rule := Some "yearly"; cq_recurrence_end := None |} in
  tip_now (snd (process_due no_months (created yearly))) = [("completed", 1, None, 1%nat)].
Proof. vm_compute. done. Qed.

(** Marking a tip failed does not make it pending again. *)
Example failed_is_not_retried :
  tip_now (snd (mark_failed (tally 0) "horizon" (created daily_tip))) = [("failed", 0, Some 0, 0%nat)].
Proof. vm_compute. done. Qed.
