(* ===== verification/Decimal.v ===== *)
(** * Decimals of crate rust_decimal

    The interface the code uses of [rust_decimal::Decimal], what it relies on,
    and one implementation that satisfies it.  A decimal is an integer number
    of units of 10^-28; sums and differences of amounts in stroops are exact as
    long as they fit the 96 bits of the mantissa, products and quotients are
    rounded.  Operations that overflow panic and are outside the interface. *)

From S2P Require Import Prelude Text Errors Amount.

Class RustDecimal (D : Type) : Type := {
  d_from_str : string -> option D;
  d_to_string : D -> string;
  d_zero : D;
  d_from_i32 : Z -> D;
  d_add : D -> D -> D;
  d_sub : D -> D -> D;
  d_mul : D -> D -> D;
  d_div : D -> D -> D;
  d_min : D -> D -> D;
  d_round_dp : Z -> D -> D;
  d_ltb : D -> D -> bool;
  d_leb : D -> D -> bool
}.

(** The units of one, and of one stroop. *)
Definition ONE : Z := 10 ^ 28.
Definition STROOP : Z := 10 ^ 21.

(** The units of the fourteenth decimal: the product of two amounts in stroops. *)
Definition GRAIN : Z := 10 ^ 14.

(** What is known of a decimal: [in_stroops x n] says that it is [n] stroops, within reach of exact arithmetic. *)
Class DecimalLaws (D : Type) `{RustDecimal D} : Type := {
  units : D -> Z;
  units_zero : units d_zero = 0;
  units_ltb : forall a b, d_ltb a b = (units a <? units b);
  units_leb : forall a b, d_leb a b = (units a <=? units b);
  units_min : forall a b, units (d_min a b) = Z.min (units a) (units b);
  units_add : forall a b m n, units a = m * STROOP -> units b = n * STROOP -> Z.abs m < 2 ^ 90 -> Z.abs n < 2 ^ 90 ->
    units (d_add a b) = (m + n) * STROOP;
  units_sub : forall a b m n, units a = m * STROOP -> units b = n * STROOP -> Z.abs m < 2 ^ 90 -> Z.abs n < 2 ^ 90 ->
    units (d_sub a b) = (m - n) * STROOP;
  (** a share of at most one, and the part of an amount it takes *)
  units_div : forall s t, 0 <= s <= t -> 0 < t -> 0 <= units (d_div (d_from_i32 s) (d_from_i32 t)) <= ONE;
  units_mul : forall a b, 0 <= units a -> 0 <= units b <= ONE -> 0 <= units (d_mul a b) <= units a;
  (** amounts with seven decimals multiply exactly while the product fits the mantissa *)
  units_mul_exact : forall a b m n, units a = m * STROOP -> units b = n * STROOP -> Z.abs (m * n) < 2 ^ 96 ->
    units (d_mul a b) = m * n * GRAIN;
  (** rounding to seven places stays below an amount in stroops *)
  units_round : forall a n, 0 <= units a <= n * STROOP ->
    exists m, units (d_round_dp 7 a) = m * STROOP /\ 0 <= m <= n
}.

Definition in_stroops {D} `{DecimalLaws D} (a : D) (n : Z) : Prop := units a = n * STROOP.

(** Rounding to the nearest, ties to even. *)
Definition round_half_even (a b : Z) : Z :=
  let q := a / b in
  let r := a mod b in
  if 2 * r <? b then q else if b <? 2 * r then q + 1 else if Z.even q then q else q + 1.

(** A plain decimal with at most 28 decimals, and its printing: seven decimals
    for an amount in stroops, all of them otherwise. *)
Definition parse_units (s : string) : option Z :=
  let '(w, f) := match split_once "." s with Some p => p | None => (s, "") end in
  if String.eqb w "" then None
  else
    wv ← parse_digits w;
    fv ← parse_digits f;
    if (28 <? slength f)%nat then None else Some (wv * ONE + fv * 10 ^ Z.of_nat (28 - slength f)).

Definition print_units (a : Z) : string :=
  (if a <? 0 then "-" else "") +:+
  (let a := Z.abs a in
   if a mod STROOP =? 0 then format_stroops (a / STROOP)
   else print_Z (a / ONE) +:+ String "." (print_fixed 28 (a mod ONE) "")).

(** Units as integers; products and quotients are truncated. *)
#[export] Instance Units_decimal : RustDecimal Z := {
  d_from_str := parse_units;
  d_to_string := print_units;
  d_zero := 0;
  d_from_i32 n := n * ONE;
  d_add := Z.add;
  d_sub := Z.sub;
  d_mul a b := a * b / ONE;
  d_div a b := a * ONE / b;
  d_min := Z.min;
  d_round_dp dp a := round_half_even a (10 ^ (28 - dp)) * 10 ^ (28 - dp);
  d_ltb := Z.ltb;
  d_leb := Z.leb
}.

Lemma parse_units_parts s w f wv fv :
  (split_once "." s = Some (w, f) \/ (split_once "." s = None /\ w = s /\ f = "")) ->
  w <> "" -> parse_digits w = Some wv -> parse_digits f = Some fv -> (slength f <= 28)%nat ->
  parse_units s = Some (wv * ONE + fv * 10 ^ Z.of_nat (28 - slength f)).
Proof.
  intros Hs Hw Hwv Hfv Hl. unfold parse_units.
  assert (match split_once "." s with Some p => p | None => (s, "") end = (w, f)) as ->.
  { destruct Hs as [-> | (-> & -> & ->)]; done. }
  destruct (String.eqb_spec w ""); [done|]. rewrite Hwv, Hfv. simpl.
  by rewrite (proj2 (Nat.ltb_ge _ _)).
Qed.

Lemma parse_print_units a : 0 <= a -> parse_units (print_units a) = Some a.
Proof.
  intros Ha. unfold print_units. rewrite (proj2 (Z.ltb_ge _ _)), Z.abs_eq by lia. cbv beta iota zeta.
  change ("" +:+ ?x) with x.
  destruct (a mod STROOP =? 0) eqn:Hm; zbool.
  - assert (0 <= a / STROOP) as Hn by (apply Z.div_pos; [lia | done]).
    destruct (decimal_amount_parts _ _ (decimal_amount_format _ Hn)) as (w & f & wv & fv & Hs & Hw & Hwv & Hfv & Hl & Hn').
    rewrite (parse_units_parts _ w f wv fv) by (done || lia). f_equal.
    pose proof (Z.div_mod a STROOP ltac:(done)) as Hdiv. rewrite Hdiv at 1. rewrite Hm, Hn'.
    replace (28 - slength f)%nat with (21 + (7 - slength f))%nat by lia.
    rewrite Nat2Z.inj_add, Z.pow_add_r by lia. unfold ONE, STROOP, STROOPS_PER_XLM. change (Z.of_nat 21) with 21. ring.
  - pose proof (Z.mod_pos_bound a ONE ltac:(done)) as Hr.
    destruct (print_Z_spec (a / ONE)) as (Hne & Hd & Hw); [apply Z.div_pos; [lia | done]|].
    destruct (print_fixed_spec 28 (a mod ONE) "") as (f & Hf & Hl & Hp); [lia|]. rewrite string_app_nil_r in Hf.
    rewrite Hf. rewrite (parse_units_parts _ (print_Z (a / ONE)) f (a / ONE) (a mod ONE)); [| | done | done | | lia].
    + rewrite Hl. change (10 ^ Z.of_nat (28 - 28)) with 1. f_equal. pose proof (Z.div_mod a ONE ltac:(done)). lia.
    + left. by apply split_once_app, digits_lack_dot.
    + rewrite Hp. f_equal. apply Z.mod_small. exact Hr.
Qed.

Lemma round_half_even_bound a b n : 0 < b -> 0 <= a <= n * b -> 0 <= round_half_even a b <= n.
Proof.
  intros Hb Ha. unfold round_half_even. pose proof (Z.div_mod a b ltac:(lia)) as Hdm.
  pose proof (Z.mod_pos_bound a b Hb) as Hr.
  assert (0 <= a / b) by (apply Z.div_pos; lia).
  assert (a / b <= n) by (apply Z.div_le_upper_bound; lia).
  assert (0 < a mod b -> a / b + 1 <= n) by nia.
  destruct (2 * (a mod b) <? b) eqn:E1; [lia|]. destruct (b <? 2 * (a mod b)) eqn:E2; zbool; [lia|].
  destruct (Z.even (a / b)); lia.
Qed.

#[export] Instance Units_laws : DecimalLaws Z.
Proof.
  refine {| units := fun a => a |}; try done; simpl.
  - intros a b m n -> ->. lia.
  - intros a b m n -> ->. lia.
  - intros s t Hs Ht. unfold ONE. split; [apply Z.div_pos; lia | apply Z.div_le_upper_bound; nia].
  - intros a b Ha Hb. unfold ONE in *. split; [apply Z.div_pos; nia | apply Z.div_le_upper_bound; nia].
  - intros a b m n -> -> _. unfold ONE, STROOP, GRAIN.
    replace (m * 10 ^ 21 * (n * 10 ^ 21)) with (m * n * 10 ^ 14 * 10 ^ 28) by ring. by rewrite Z.div_mul.
  - intros a n Ha. exists (round_half_even a STROOP). split; [done|]. by apply round_half_even_bound.
Defined.
