(* ===== verification/Teams.v ===== *)
(** * Teams and the splits of their tips

    src/src/controllers/team_controller.rs, src/src/models/team.rs and the
    handlers of src/src/routes/teams.rs; the tables carry the constraints of
    migration 0037.  The shares of a tip are computed with the decimals of
    crate rust_decimal.  [record_tip_splits] runs inside the transaction of its
    caller; nothing in src/src calls it. *)

From S2P Require Import Prelude Text Codec Errors Amount Decimal Sql.

(** ** models/team.rs *)

(** src/src/models/team.rs:8-13 Team *)
Record Team : Type := {
  te_id : string;
  te_name : string;
  te_owner_username : string;
  te_created_at : Z
}.

(** src/src/models/team.rs:16-21 TeamMember *)
Record TeamMember : Type := {
  tm_team_id : string;
  tm_creator_username : string;
  tm_share_percentage : Z;
  tm_added_at : Z
}.

(** src/src/models/team.rs:24-31 TipSplit *)
Record TipSplit : Type := {
  ts_id : string;
  ts_tip_id : string;
  ts_team_id : string;
  ts_member_username : string;
  ts_amount : string;
  ts_created_at : Z
}.

(** src/src/models/team.rs:34-44 TeamMemberRequest *)
Record TeamMemberRequest : Type := {
  mr_creator_username : string;
  mr_share_percentage : Z
}.

(** src/src/models/team.rs:47-64 CreateTeamRequest *)
Record CreateTeamRequest : Type := {
  cr_name : string;
  cr_owner_username : string;
  cr_members : option (list TeamMemberRequest)
}.

(** src/src/models/team.rs:73-76 TeamMemberResponse *)
Record TeamMemberResponse : Type := {
  mp_creator_username : string;
  mp_share_percentage : Z
}.

(** src/src/models/team.rs:79-85 TeamResponse *)
Record TeamResponse : Type := {
  rp_id : string;
  rp_name : string;
  rp_owner_username : string;
  rp_members : list TeamMemberResponse;
  rp_created_at : Z
}.

(** src/src/models/team.rs:88-94 TipSplitResponse *)
Record TipSplitResponse : Type := {
  sr_id : string;
  sr_tip_id : string;
  sr_member_username : string;
  sr_amount : string;
  sr_created_at : Z
}.

(** src/src/models/team.rs:96-103 From<TeamMember> *)
Definition member_response (m : TeamMember) : TeamMemberResponse :=
  {| mp_creator_username := tm_creator_username m; mp_share_percentage := tm_share_percentage m |}.

(** src/src/models/team.rs:105-115 From<(Team, Vec<TeamMember>)> *)
Definition team_response (team : Team) (members : list TeamMember) : TeamResponse :=
  {| rp_id := te_id team; rp_name := te_name team; rp_owner_username := te_owner_username team;
     rp_members := map member_response members; rp_created_at := te_created_at team |}.

(** src/src/models/team.rs:117-127 From<TipSplit> *)
Definition split_response (s : TipSplit) : TipSplitResponse :=
  {| sr_id := ts_id s; sr_tip_id := ts_tip_id s; sr_member_username := ts_member_username s;
     sr_amount := ts_amount s; sr_created_at := ts_created_at s |}.

(** The tables; of the creators the usernames, of the tips the ids. *)
Record TeamTables : Type := {
  tt_creators : list string;
  tt_tips : list string;
  tt_teams : list Team;
  tt_members : list TeamMember;
  tt_splits : list TipSplit
}.

Definition with_teams (l : list Team) (t : TeamTables) : TeamTables :=
  {| tt_creators := tt_creators t; tt_tips := tt_tips t; tt_teams := l; tt_members := tt_members t;
     tt_splits := tt_splits t |}.

Definition with_members (l : list TeamMember) (t : TeamTables) : TeamTables :=
  {| tt_creators := tt_creators t; tt_tips := tt_tips t; tt_teams := tt_teams t; tt_members := l;
     tt_splits := tt_splits t |}.

Definition with_splits (l : list TipSplit) (t : TeamTables) : TeamTables :=
  {| tt_creators := tt_creators t; tt_tips := tt_tips t; tt_teams := tt_teams t; tt_members := tt_members t;
     tt_splits := l |}.

Definition Teams : Type -> Type := M (Db TeamTables) AppError.

(** [?] on a query *)
Definition query {A} (m : Sql TeamTables A) : Teams A := map_err app_error_from_sqlx m.

Definition find_team (i : string) (t : TeamTables) : option Team := find (fun x => String.eqb (te_id x) i) (tt_teams t).

Definition is_creator (u : string) (t : TeamTables) : bool := existsb (String.eqb u) (tt_creators t).

Definition members_of (i : string) (t : TeamTables) : list TeamMember :=
  List.filter (fun m => String.eqb (tm_team_id m) i) (tt_members t).

Definition invalid_request (message : string) : AppError := Validation (InvalidRequest message).

(** ** controllers/team_controller.rs *)

(** The statement that inserts a team. *)
Definition insert_team (i : string) (req : CreateTeamRequest) : statement TeamTables Team :=
  fun now t =>
    let team := {| te_id := i; te_name := cr_name req; te_owner_username := cr_owner_username req; te_created_at := now |} in
    if find_team i t then Err (unique_violation "teams_pkey")
    else if existsb (fun x => String.eqb (te_name x) (cr_name req)) (tt_teams t) then
      Err (unique_violation "teams_name_key")
    else if is_creator (cr_owner_username req) t then Ok (team, with_teams (tt_teams t ++ [team]) t)
    else Err (foreign_key_violation "teams_owner_username_fkey").

(** The statement that inserts a member: its CHECK, its keys, its references. *)
Definition insert_member (team_id : string) (member : TeamMemberRequest) : statement TeamTables TeamMember :=
  fun now t =>
    let m := {| tm_team_id := team_id; tm_creator_username := mr_creator_username member;
                tm_share_percentage := mr_share_percentage member; tm_added_at := now |} in
    if mr_share_percentage member <=? 0 then Err (check_violation "team_members_share_percentage_check")
    else if existsb (fun x => String.eqb (tm_creator_username x) (mr_creator_username member)) (tt_members t) then
      Err (unique_violation "team_members_creator_unique")
    else if find_team team_id t then
      if is_creator (mr_creator_username member) t then Ok (m, with_members (tt_members t ++ [m]) t)
      else Err (foreign_key_violation "team_members_creator_username_fkey")
    else Err (foreign_key_violation "team_members_team_id_fkey").

(** src/src/controllers/team_controller.rs:72-82 the error of a member that is taken *)
Definition member_error (message : string) (e : sqlx_error) : AppError :=
  match e with
  | SqlxDatabase (Some code) _ =>
      if String.eqb code "23505" then Conflict "TEAM_MEMBER_CONFLICT" message else app_error_from_sqlx e
  | _ => app_error_from_sqlx e
  end.

(** src/src/controllers/team_controller.rs:25-43 the members of the request: no name twice, and their total
    in an i32 that wraps around (a release build) *)
Fixpoint check_members (seen : list string) (total_share : Z) (l : list TeamMemberRequest) : AppResult unit :=
  match l with
  | [] =>
      if total_share <=? 0 then
        Err (invalid_request "Team member share percentages must total more than zero")
      else Ok tt
  | m :: l' =>
      if existsb (String.eqb (mr_creator_username m)) seen then
        Err (invalid_request "Duplicate team member username")
      else check_members (mr_creator_username m :: seen) (wrap_i32 (total_share + mr_share_percentage m)) l'
  end.

Section operations.
(** The ids of new rows, and the order of the database's collation. *)
Variable uuid : nat -> string.
Variable collates : string -> string -> bool.

(** [ORDER BY creator_username ASC] *)
Definition by_username (x y : TeamMember) : bool := collates (tm_creator_username x) (tm_creator_username y).

(** src/src/controllers/team_controller.rs:14-89 create_team *)
Definition create_team (req : CreateTeamRequest) : Teams TeamResponse :=
  let members := default [] (cr_members req) in
  let member_requests :=
    match members with
    | [] => [{| mr_creator_username := cr_owner_username req; mr_share_percentage := 100 |}]
    | _ => members
    end in
  _ ← lift (check_members [] 0 member_requests);
  transaction app_error_from_sqlx (
    i ← fresh uuid;
    team ← query (sql (insert_team i req));
    members_rows ← forM member_requests [] (fun rows member =>
      row ← map_err (member_error "A team member already belongs to another team or this member is already added")
              (sql (insert_member (te_id team) member));
      mret (rows ++ [row]));
    mret (team_response team members_rows)).

(** src/src/controllers/team_controller.rs:92-108 get_team *)
Definition get_team (team_id : string) : Teams TeamResponse :=
  team ← query (select_one (fun _ t => find_team team_id t));
  members ← query (select (fun _ t => sort_by by_username (members_of team_id t)));
  mret (team_response team members).

(** src/src/controllers/team_controller.rs:111-130 list_teams *)
Definition list_teams : Teams (list TeamResponse) :=
  teams ← query (select (fun _ t => sort_by (fun x y => te_created_at y <=? te_created_at x) (tt_teams t)));
  forM teams [] (fun results team =>
    members ← query (select (fun _ t => sort_by by_username (members_of (te_id team) t)));
    mret (results ++ [team_response team members])).

(** src/src/controllers/team_controller.rs:133-161 add_member *)
Definition add_member (team_id : string) (member : TeamMemberRequest) : Teams TeamMember :=
  map_err (member_error "A team member already belongs to another team or is already a member of this team")
    (sql (insert_member team_id member)).

Definition this_member (team_id username : string) (m : TeamMember) : bool :=
  String.eqb (tm_team_id m) team_id && String.eqb (tm_creator_username m) username.

Definition set_share (share_percentage : Z) (m : TeamMember) : TeamMember :=
  {| tm_team_id := tm_team_id m; tm_creator_username := tm_creator_username m;
     tm_share_percentage := share_percentage; tm_added_at := tm_added_at m |}.

(** src/src/controllers/team_controller.rs:164-183 update_member_share *)
Definition update_member_share (team_id member_username : string) (share_percentage : Z) : Teams TeamMember :=
  query (sql (fun _ t =>
    match updated (this_member team_id member_username) (set_share share_percentage) (tt_members t) with
    | m :: _ =>
        if share_percentage <=? 0 then Err (check_violation "team_members_share_percentage_check")
        else Ok (m, with_members (update_where (this_member team_id member_username) (set_share share_percentage)
                                    (tt_members t)) t)
    | [] => Err SqlxRowNotFound
    end)).

(** src/src/controllers/team_controller.rs:186-197 remove_member *)
Definition remove_member (team_id member_username : string) : Teams unit :=
  query (sql (fun _ t => Ok (tt, with_members (delete_where (this_member team_id member_username) (tt_members t)) t))).

(** src/src/controllers/team_controller.rs:200-212 get_split_history *)
Definition get_split_history (team_id : string) : Teams (list TipSplitResponse) :=
  splits ← query (select (fun _ t =>
    sort_by (fun x y => ts_created_at y <=? ts_created_at x)
      (List.filter (fun s => String.eqb (ts_team_id s) team_id) (tt_splits t))));
  mret (map split_response splits).

Section splits.
Context {D : Type} `{RustDecimal D}.

(** src/src/controllers/team_controller.rs:259-267 the amount of the idx-th member, and what is accumulated *)
Definition member_amount (amount : D) (total_shares : Z) (count idx : nat) (share_percentage : Z) (accumulated : D)
    : D * D :=
  if (idx =? count - 1)%nat then (d_sub amount accumulated, accumulated)
  else
    let share := d_from_i32 share_percentage in
    let percent := d_div share (d_from_i32 total_shares) in
    let split := d_round_dp 7 (d_mul amount percent) in
    (split, d_add accumulated split).

(** src/src/controllers/team_controller.rs:269-278 the statement that records a split *)
Definition insert_split (i tip_id team_id username amount : string) : statement TeamTables unit :=
  fun now t =>
    let s := {| ts_id := i; ts_tip_id := tip_id; ts_team_id := team_id; ts_member_username := username;
                ts_amount := amount; ts_created_at := now |} in
    if existsb (fun x => String.eqb (ts_id x) i) (tt_splits t) then Err (unique_violation "tip_splits_pkey")
    else if existsb (String.eqb tip_id) (tt_tips t) then
      if find_team team_id t then
        if is_creator username t then Ok (tt, with_splits (tt_splits t ++ [s]) t)
        else Err (foreign_key_violation "tip_splits_member_username_fkey")
      else Err (foreign_key_violation "tip_splits_team_id_fkey")
    else Err (foreign_key_violation "tip_splits_tip_id_fkey").

(** [members.iter().map(..).sum()] of i32, wrapping around *)
Definition sum_i32 (l : list Z) : Z := fold_left (fun acc x => wrap_i32 (acc + x)) l 0.

(** src/src/controllers/team_controller.rs:257-279 the loop over the members *)
Definition record_loop (tip_id team_id : string) (amount : D) (total_shares : Z) (members : list TeamMember)
    : Teams (nat * D) :=
  forM members (0%nat, d_zero) (fun '(idx, accumulated) member =>
    let '(split, accumulated') :=
      member_amount amount total_shares (length members) idx (tm_share_percentage member) accumulated in
    i ← fresh uuid;
    _ ← query (sql (insert_split i tip_id team_id (tm_creator_username member) (d_to_string split)));
    mret (S idx, accumulated')).

(** src/src/controllers/team_controller.rs:215-282 record_tip_splits *)
Definition record_tip_splits (tip_id recipient_username amount : string) : Teams unit :=
  team_id ← query (select (fun _ t =>
    option_map tm_team_id (find (fun m => String.eqb (tm_creator_username m) recipient_username) (tt_members t))));
  match team_id with
  | None => mret tt
  | Some team_id =>
      members ← query (select (fun _ t => sort_by by_username (members_of team_id t)));
      match members with
      | [] => mret tt
      | _ =>
          amount_decimal ← expect (invalid_request "Invalid tip amount for split calculation") (d_from_str amount);
          let total_shares := sum_i32 (map tm_share_percentage members) in
          if total_shares <=? 0 then mret tt
          else
            _ ← record_loop tip_id team_id amount_decimal total_shares members;
            mret tt
      end
  end.
End splits.

(** ** routes/teams.rs *)

(** src/src/routes/teams.rs:40-46 create_team *)
Definition create_team_handler (body : CreateTeamRequest) : Teams (Z * TeamResponse) :=
  team ← create_team body;
  mret (201, team).

(** src/src/routes/teams.rs:56-59 list_teams *)
Definition list_teams_handler : Teams (Z * list TeamResponse) :=
  teams ← list_teams;
  mret (200, teams).

(** src/src/routes/teams.rs:71-77 get_team *)
Definition get_team_handler (team_id : string) : Teams (Z * TeamResponse) :=
  team ← get_team team_id;
  mret (200, team).

(** src/src/routes/teams.rs:91-98 add_member *)
Definition add_member_handler (team_id : string) (body : TeamMemberRequest) : Teams (Z * TeamMember) :=
  member ← add_member team_id body;
  mret (201, member).

(** src/src/routes/teams.rs:114-123 update_member_share *)
Definition update_member_share_handler (team_id username : string) (share_percentage : Z) : Teams (Z * TeamMember) :=
  member ← update_member_share team_id username share_percentage;
  mret (200, member).

(** src/src/routes/teams.rs:138-144 remove_member *)
Definition remove_member_handler (team_id username : string) : Teams Z :=
  _ ← remove_member team_id username;
  mret 204.

(** src/src/routes/teams.rs:155-161 get_team_splits *)
Definition get_team_splits_handler (team_id : string) : Teams (Z * list TipSplitResponse) :=
  splits ← get_split_history team_id;
  mret (200, splits).
End operations.

(** What happens to the tables of the teams. *)
Inductive team_op : Type :=
| CreateTeam (body : CreateTeamRequest)
| AddMember (team_id : string) (body : TeamMemberRequest)
| UpdateMemberShare (team_id username : string) (share_percentage : Z)
| RemoveMember (team_id username : string).

Definition team_exec (uuid : nat -> string) (o : team_op) (w : Db TeamTables) : Db TeamTables :=
  match o with
  | CreateTeam b => snd (create_team_handler uuid b w)
  | AddMember i b => snd (add_member_handler i b w)
  | UpdateMemberShare i u s => snd (update_member_share_handler i u s w)
  | RemoveMember i u => snd (remove_member_handler i u w)
  end.

(** ** What the tables keep *)

Record WellTeamed (t : TeamTables) : Prop := {
  wt_ids : NoDup (te_id <$> tt_teams t);
  wt_names : NoDup (te_name <$> tt_teams t);
  wt_once : NoDup (tm_creator_username <$> tt_members t);
  wt_members : forall m, m ∈ tt_members t ->
    0 < tm_share_percentage m /\ is_Some (find_team (tm_team_id m) t) /\ is_creator (tm_creator_username m) t = true
}.

Lemma find_app_some {R} (p : R -> bool) l1 l2 : is_Some (find p l1) -> is_Some (find p (l1 ++ l2)).
Proof. intros [x Hx]. induction l1 as [|y l IH]; [done|]. simpl in *. by destruct (p y); [eexists | auto]. Qed.

Lemma fresh_key {R} (k : R -> string) l x :
  NoDup (k <$> l) -> existsb (fun y => String.eqb (k y) (k x)) l = false -> NoDup (k <$> (l ++ [x])).
Proof.
  intros Hl Hx. rewrite fmap_app. apply NoDup_app. split; [done|]. split; [|apply NoDup_singleton].
  intros i (y & -> & Hy)%list_elem_of_fmap. cbn. rewrite list_elem_of_singleton. intros Heq.
  apply existsb_false_iff with (x := y) in Hx; [|done]. by rewrite Heq, String.eqb_refl in Hx.
Qed.

Lemma insert_team_keeps i req now t a t' : WellTeamed t -> insert_team i req now t = Ok (a, t') -> WellTeamed t'.
Proof.
  intros Ht. unfold insert_team, find_team. destruct (find _ (tt_teams t)) eqn:Hid; [done|].
  destruct (existsb _ _) eqn:Hname; [done|]. destruct (is_creator _ _); [|done]. intros [= <- <-]. split; simpl.
  - apply (fresh_key te_id); [apply Ht|]. simpl. apply existsb_false_iff. intros x Hx%list_elem_of_In.
    exact (find_none _ _ Hid x Hx).
  - by apply (fresh_key te_name); [apply Ht|].
  - apply Ht.
  - intros m Hm. destruct (wt_members _ Ht m Hm) as (H1 & H2 & H3). split; [done|]. split; [|done].
    by apply find_app_some.
Qed.

Lemma insert_member_keeps i req now t a t' : WellTeamed t -> insert_member i req now t = Ok (a, t') -> WellTeamed t'.
Proof.
  intros Ht. unfold insert_member. destruct (_ <=? 0) eqn:Hs; [done|]. destruct (existsb _ _) eqn:Hone; [done|].
  destruct (find_team i t) as [team|] eqn:Hteam; [|done]. destruct (is_creator _ t) eqn:Hc; [|done].
  intros [= <- <-]. zbool. split; simpl; try apply Ht.
  - by apply (fresh_key tm_creator_username); [apply Ht|].
  - intros m [Hm | ->%list_elem_of_singleton]%elem_of_app; [by apply (wt_members _ Ht)|]. simpl.
    split; [done|]. split; [|done]. change (find_team i (with_members _ t)) with (find_team i t). by rewrite Hteam.
Qed.

Lemma create_team_kept uuid req : kept WellTeamed (create_team uuid req).
Proof.
  unfold create_team. apply stable_bind; [apply stable_lift | intros _]. apply kept_transaction.
  apply stable_bind; [apply kept_fresh | intros i].
  apply stable_bind; [apply stable_map_err, kept_sql; intros ????; apply insert_team_keeps | intros team].
  apply stable_bind; [apply stable_forM; intros rows m | intros; apply stable_ret].
  apply stable_bind; [apply stable_map_err, kept_sql; intros ????; apply insert_member_keeps | intros; apply stable_ret].
Qed.

Lemma add_member_kept i req : kept WellTeamed (add_member i req).
Proof. apply stable_map_err, kept_sql. intros ????. apply insert_member_keeps. Qed.

Lemma update_member_share_kept i u s : kept WellTeamed (update_member_share i u s).
Proof.
  apply stable_map_err, kept_sql. intros now t a t' Ht. cbv beta. destruct (updated _ _ _); [done|].
  destruct (s <=? 0) eqn:Hs; [done|]. intros [= _ <-]. zbool. split; simpl; try apply Ht.
  - rewrite update_where_fmap by done. apply Ht.
  - intros m [[Hm _] | (x & Hx & _ & ->)]%elem_of_update_where; [by apply (wt_members _ Ht)|].
    destruct (wt_members _ Ht x Hx) as (_ & H2 & H3). done.
Qed.

Lemma remove_member_kept i u : kept WellTeamed (remove_member i u).
Proof.
  apply stable_map_err, kept_sql. intros now t a t' Ht [= _ <-]. split; simpl; try apply Ht.
  - eapply sublist_NoDup; [exact (wt_once _ Ht) | apply fmap_sublist, delete_where_sublist].
  - intros m [Hm _]%elem_of_delete_where. by apply (wt_members _ Ht).
Qed.

Lemma team_exec_kept uuid o w : WellTeamed (db_tables w) -> WellTeamed (db_tables (team_exec uuid o w)).
Proof.
  intros Hw. destruct o; simpl.
  - apply (stable_bind _ _ _ (create_team_kept uuid body) (fun a => stable_ret _ _) w Hw).
  - apply (stable_bind _ _ _ (add_member_kept team_id body) (fun a => stable_ret _ _) w Hw).
  - apply (stable_bind _ _ _ (update_member_share_kept team_id username share_percentage) (fun a => stable_ret _ _) w Hw).
  - apply (stable_bind _ _ _ (remove_member_kept team_id username) (fun a => stable_ret _ _) w Hw).
Qed.

Definition no_teams (creators tips : list string) : TeamTables :=
  {| tt_creators := creators; tt_tips := tips; tt_teams := []; tt_members := []; tt_splits := [] |}.

Definition team_world (creators tips : list string) : Db TeamTables :=
  {| db_tables := no_teams creators tips; db_now := 0; db_utc := 0; db_uuids := 0; db_faults := [] |}.

Lemma no_teams_well creators tips : WellTeamed (no_teams creators tips).
Proof. split; simpl; try constructor; set_solver. Qed.

(** In every history and under any database faults a creator is in one team
    at most, with a positive share, and the names of the teams differ. *)
Theorem teams_disjoint uuid creators tips l m m' :
  let t := db_tables (play (team_exec uuid) l (team_world creators tips)) in
  m ∈ tt_members t -> m' ∈ tt_members t -> tm_creator_username m = tm_creator_username m' ->
  m = m' /\ 0 < tm_share_percentage m /\ NoDup (te_name <$> tt_teams t).
Proof.
  intros t Hm Hm' Heq. assert (WellTeamed t) as Ht.
  { apply play_kept; [intros; by apply team_exec_kept | apply no_teams_well]. }
  split; [|split; [by apply (wt_members _ Ht) | apply Ht]].
  apply (nodup_key_inj tm_creator_username (tt_members t)); [apply Ht | done..].
Qed.

(** ** The splits of a tip *)

Section amounts.
Context {D : Type} `{DecimalLaws D}.

(** The amounts the loop computes, from the [idx]-th member on. *)
Fixpoint split_amounts (amount : D) (total_shares : Z) (count idx : nat) (accumulated : D) (shares : list Z) : list D :=
  match shares with
  | [] => []
  | s :: l =>
      let '(x, accumulated') := member_amount amount total_shares count idx s accumulated in
      x :: split_amounts amount total_shares count (S idx) accumulated' l
  end.

Lemma split_amounts_length amount total count idx acc shares :
  length (split_amounts amount total count idx acc shares) = length shares.
Proof.
  revert idx acc. induction shares as [|s l IH]; intros idx acc; simpl; [done|].
  destruct (member_amount _ _ _ _ _ _). simpl. by rewrite IH.
Qed.

(** One share of an amount of [n] stroops: a whole number of stroops, at most all of it. *)
Lemma one_split amount n share total :
  in_stroops amount n -> 0 <= n -> 0 <= share <= total -> 0 < total ->
  exists m, in_stroops (d_round_dp 7 (d_mul amount (d_div (d_from_i32 share) (d_from_i32 total)))) m /\ 0 <= m <= n.
Proof.
  intros Ha Hn Hs Ht. apply units_round. unfold in_stroops in Ha. rewrite <- Ha. apply units_mul.
  - rewrite Ha. unfold STROOP. lia.
  - by apply units_div.
Qed.

Lemma split_amounts_sum amount n total count idx acc k shares :
  in_stroops amount n -> 0 <= n -> 0 < total -> Forall (fun s => 0 <= s <= total) shares ->
  shares <> [] -> (idx + length shares)%nat = count -> n * Z.of_nat count < 2 ^ 90 ->
  in_stroops acc k -> 0 <= k <= n * Z.of_nat idx ->
  exists ms last, split_amounts amount total count idx acc shares =
      ms ++ [last] /\ Forall (fun x => exists m, in_stroops x m /\ 0 <= m <= n) ms /\
    sumZ (map units (split_amounts amount total count idx acc shares)) = (n - k) * STROOP.
Proof.
  intros Ha Hn Ht Hs Hne Hcount Hfit. revert idx acc k Hne Hcount.
  induction shares as [|s l IH]; intros idx acc k Hne Hcount Hacc Hk; [done|].
  inversion_clear Hs as [|? ? Hs1 Hs2]. simpl. unfold member_amount.
  destruct l as [|s' l].
  - simpl in Hcount. rewrite (proj2 (Nat.eqb_eq idx (count - 1))) by lia. simpl.
    exists [], (d_sub amount acc). split; [done|]. split; [constructor|]. rewrite Z.add_0_r.
    apply units_sub; [done | done | |]; rewrite Z.abs_eq by lia; nia.
  - simpl in Hcount. rewrite (proj2 (Nat.eqb_neq idx (count - 1))) by lia.
    destruct (one_split amount n s total) as (m & Hm & Hmn); [done..|].
    set (x := d_round_dp 7 _) in *.
    assert (in_stroops (d_add acc x) (k + m)) as Hacc'.
    { apply units_add; [done | done | |]; rewrite Z.abs_eq by lia; nia. }
    destruct (IH Hs2 (S idx) (d_add acc x) (k + m)) as (ms & last & Hl & Hms & Hsum); [done | simpl; lia | done | nia |].
    exists (x :: ms), last. rewrite Hl in Hsum |- *. split; [done|]. split; [by constructor; eauto|].
    simpl. rewrite Hsum, Hm. lia.
Qed.

Variable uuid : nat -> string.

(** The rows of the splits, the first taking the [n]-th id. *)
Definition split_row (tip_id team_id : string) (now : Z) (n : nat) (m : TeamMember) (x : D) : TipSplit :=
  {| ts_id := uuid n; ts_tip_id := tip_id; ts_team_id := team_id; ts_member_username := tm_creator_username m;
     ts_amount := d_to_string x; ts_created_at := now |}.

Fixpoint split_rows (tip_id team_id : string) (now : Z) (n : nat) (ms : list TeamMember) (xs : list D) : list TipSplit :=
  match ms, xs with
  | m :: ms', x :: xs' => split_row tip_id team_id now n m x :: split_rows tip_id team_id now (S n) ms' xs'
  | _, _ => []
  end.

Lemma record_loop_calm tip_id team_id amount total count ms idx acc w :
  db_faults w = [] -> (forall i j, uuid i = uuid j -> i = j) ->
  (forall n s, (db_uuids w <= n)%nat -> s ∈ tt_splits (db_tables w) -> ts_id s <> uuid n) ->
  tip_id ∈ tt_tips (db_tables w) -> is_Some (find_team team_id (db_tables w)) ->
  (forall m, m ∈ ms -> is_creator (tm_creator_username m) (db_tables w) = true) ->
  exists r w', forM ms (idx, acc) (fun '(idx, accumulated) member =>
      let '(split, accumulated') := member_amount amount total count idx (tm_share_percentage member) accumulated in
      i ← fresh uuid;
      _ ← query (sql (insert_split i tip_id team_id (tm_creator_username member) (d_to_string split)));
      mret (S idx, accumulated')) w = (Ok r, w') /\
    db_tables w' = with_splits (tt_splits (db_tables w) ++
      split_rows tip_id team_id (db_now w) (db_uuids w) ms
        (split_amounts amount total count idx acc (map tm_share_percentage ms))) (db_tables w).
Proof.
  intros Hf Hinj Hfree Htip Hteam Hms. revert idx acc w Hf Hfree Htip Hteam Hms.
  induction ms as [|m ms IH]; intros idx acc w Hf Hfree Htip Hteam Hms.
  { eexists _, _. split; [reflexivity|]. simpl. rewrite app_nil_r. by destruct (db_tables w). }
  simpl. bind_step. destruct (member_amount amount total count idx (tm_share_percentage m) acc) as [x acc'].
  bind_step. simpl. bind_step. unfold query, map_err. rewrite sql_calm by done. unfold run_statement, insert_split. simpl.
  replace (existsb _ (tt_splits (db_tables w))) with false.
  2: { symmetry. apply existsb_false_iff. intros s Hs. apply String.eqb_neq. by apply Hfree. }
  assert (existsb (String.eqb tip_id) (tt_tips (db_tables w)) = true) as ->.
  { apply existsb_exists. exists tip_id. by rewrite <- list_elem_of_In, String.eqb_refl. }
  destruct Hteam as [team Hteam]. rewrite Hteam, (Hms m) by (by left).
  destruct (IH (S idx) acc' {| db_tables := with_splits (tt_splits (db_tables w) ++
      [split_row tip_id team_id (db_now w) (db_uuids w) m x]) (db_tables w); db_now := db_now w; db_utc := db_utc w;
      db_uuids := S (db_uuids w); db_faults := db_faults w |}) as (r & w' & Hw' & Ht'); [done | | done | | |].
  - intros n s Hn. simpl. intros [Hs | ->%list_elem_of_singleton]%elem_of_app; [apply Hfree; [simpl in Hn; lia | done]|].
    simpl. intros Heq%Hinj. simpl in Hn. lia.
  - by exists team.
  - intros m' Hm'. apply Hms. by right.
  - exists r, w'. split; [exact Hw'|]. rewrite Ht'. simpl. rewrite <- app_assoc. done.
Qed.

Lemma wrap_i32_id z : - 2 ^ 31 <= z < 2 ^ 31 -> wrap_i32 z = z.
Proof. intros Hz. unfold wrap_i32. rewrite Z.mod_small; lia. Qed.

Lemma sum_i32_exact l acc :
  Forall (fun s => 0 < s) l -> 0 <= acc -> acc + sumZ l < 2 ^ 31 ->
  fold_left (fun acc x => wrap_i32 (acc + x)) l acc = acc + sumZ l.
Proof.
  intros Hl. revert acc. induction Hl as [|s l Hs Hl IH]; intros acc Hacc Hsum; simpl in *; [lia|].
  assert (0 <= sumZ l) by (clear -Hl; induction Hl; simpl; lia).
  rewrite wrap_i32_id by lia. rewrite IH by lia. lia.
Qed.

Lemma share_of_sum l s : Forall (fun s => 0 < s) l -> s ∈ l -> 0 < s <= sumZ l.
Proof.
  induction 1 as [|x l Hx Hl IH]; [by intros ?%elem_of_nil|].
  assert (0 <= sumZ l) by (clear -Hl; induction Hl; simpl; lia).
  intros [-> | Hs]%elem_of_cons; simpl; [lia|]. specialize (IH Hs). lia.
Qed.

Lemma find_member t m :
  WellTeamed t -> m ∈ tt_members t ->
  find (fun x => String.eqb (tm_creator_username x) (tm_creator_username m)) (tt_members t) = Some m.
Proof.
  intros Ht Hm. destruct (find _ _) as [y|] eqn:Hy.
  - apply find_some in Hy as [Hy%list_elem_of_In Hp%String.eqb_eq]. f_equal.
    eapply nodup_key_inj; [apply (wt_once _ Ht) | done | done | congruence].
  - apply list_elem_of_In in Hm. apply (find_none _ _ Hy) in Hm. by rewrite String.eqb_refl in Hm.
Qed.

(** The members of a team in the order of their names: they share its tips. *)
Lemma sorted_members collates t m :
  WellTeamed t -> m ∈ tt_members t ->
  let members := sort_by (by_username collates) (members_of (tm_team_id m) t) in
  m ∈ members /\ (forall x, x ∈ members -> x ∈ tt_members t) /\
  Forall (fun s => 0 < s) (map tm_share_percentage members).
Proof.
  intros Ht Hm members.
  assert (forall x, x ∈ members -> x ∈ tt_members t) as Hmem.
  { intros x Hx. unfold members in Hx. rewrite sort_by_perm in Hx.
    by apply list_elem_of_In, filter_In in Hx as [Hx%list_elem_of_In _]. }
  split_and!; [|done|].
  - unfold members. rewrite sort_by_perm. apply list_elem_of_In, filter_In. by rewrite <- list_elem_of_In, String.eqb_refl.
  - apply Forall_forall. intros s (x & <- & Hx)%list_elem_of_In%in_map_iff. by apply list_elem_of_In, Hmem, (wt_members _ Ht) in Hx as [? _].
Qed.

(** C33: What [record_tip_splits] does when it is called for a tip to a member of a
    team (the repository calls it from nowhere, so no tip is split today): while
    no call of the database fails, for an amount of a whole number [n] of
    stroops, shares of the team that sum below 2^31 and [n] times the number of
    members below 2^90, it adds one split per member, in the order of their
    names: the amounts sum exactly to the tip, and all but the last are between
    nothing and the whole of it. *)
Theorem tip_splits_exact collates tip_id recipient amount a n w m :
  (forall i j, uuid i = uuid j -> i = j) -> db_faults w = [] -> WellTeamed (db_tables w) ->
  (forall k s, (db_uuids w <= k)%nat -> s ∈ tt_splits (db_tables w) -> ts_id s <> uuid k) ->
  tip_id ∈ tt_tips (db_tables w) -> m ∈ tt_members (db_tables w) -> tm_creator_username m = recipient ->
  d_from_str amount = Some a -> in_stroops a n -> 0 <= n ->
  let members := sort_by (by_username collates) (members_of (tm_team_id m) (db_tables w)) in
  sumZ (map tm_share_percentage members) < 2 ^ 31 -> n * Z.of_nat (length members) < 2 ^ 90 ->
  exists w' xs, record_tip_splits uuid collates tip_id recipient amount w = (Ok tt, w') /\
    length xs = length members /\
    tt_splits (db_tables w') = tt_splits (db_tables w) ++
      split_rows tip_id (tm_team_id m) (db_now w) (db_uuids w) members xs /\
    sumZ (map units xs) = n * STROOP /\
    exists xs' last, xs = xs' ++ [last] /\ Forall (fun x => exists k, in_stroops x k /\ 0 <= k <= n) xs'.
Proof.
  intros Hinj Hf Ht Hfree Htip Hm Hrec Hparse Ha Hn members Hsum Hfit.
  destruct (sorted_members collates _ m Ht Hm) as (Hin & Hmem & Hpos). fold members in Hin, Hmem, Hpos.
  assert (members <> []) as Hne by (intros He; rewrite He in Hin; by apply elem_of_nil in Hin).
  assert (0 < sumZ (map tm_share_percentage members)) as Htotal.
  { apply list_elem_of_In, (in_map tm_share_percentage), list_elem_of_In in Hin.
    pose proof (share_of_sum _ _ Hpos Hin). lia. }
  destruct (split_amounts_sum a n (sumZ (map tm_share_percentage members)) (length members) 0 d_zero 0
    (map tm_share_percentage members)) as (xs' & last & Hxs & Hxs' & Hall); [done..| | | | done | | lia |].
  { apply Forall_forall. intros s Hs. pose proof (share_of_sum _ _ Hpos Hs). lia. }
  { by destruct members. }
  { by rewrite length_map. }
  { unfold in_stroops. by rewrite units_zero. }
  destruct (record_loop_calm tip_id (tm_team_id m) a (sumZ (map tm_share_percentage members)) (length members) members
    0 d_zero w) as (r & w' & Hw' & Ht'); [done..| | |].
  { by destruct (wt_members _ Ht m Hm) as (_ & ? & _). }
  { intros x Hx. by destruct (wt_members _ Ht x (Hmem x Hx)) as (_ & _ & ?). }
  exists w', (split_amounts a (sumZ (map tm_share_percentage members)) (length members) 0 d_zero
    (map tm_share_percentage members)).
  split_and!.
  - unfold record_tip_splits. bind_step. unfold query, map_err, select. rewrite sql_calm by done.
    unfold run_statement at 1. simpl.
    rewrite <- Hrec, find_member by done.
    replace (with_tables (db_tables w) w) with w by (by destruct w). simpl. bind_step. rewrite sql_calm by done.
    unfold run_statement at 1. simpl. replace (with_tables (db_tables w) w) with w by (by destruct w). fold members.
    destruct members as [|x l] eqn:Hmembers; [done|]. rewrite <- Hmembers in *. bind_step. rewrite Hparse. simpl.
    unfold sum_i32. rewrite sum_i32_exact by (done || lia). rewrite Z.add_0_l.
    rewrite (proj2 (Z.leb_gt _ _)) by lia. bind_step. unfold record_loop. rewrite Hw'. done.
  - by rewrite split_amounts_length, length_map.
  - by rewrite Ht'.
  - by rewrite Hall, Z.sub_0_r.
  - exists xs', last. done.
Qed.
End amounts.

(** ** On concrete teams, with decimals as integers of units *)

Definition collates_all (_ _ : string) : bool := true.

Definition member (u : string) (s : Z) : TeamMemberRequest := {| mr_creator_username := u; mr_share_percentage := s |}.

(** A team of the members [ms], and the tip [t1]. *)
Definition team_of (ms : list TeamMemberRequest) : list (happening team_op) :=
  [Does (CreateTeam {| cr_name := "band"; cr_owner_username := "ann"; cr_members := Some ms |})].

Definition band (ms : list TeamMemberRequest) : Db TeamTables :=
  play (team_exec tally) (team_of ms) (team_world ["ann"; "bob"; "cid"; "dan"; "eve"] ["t1"]).

Definition recorded (ms : list TeamMemberRequest) (amount : string) : list (string * string) :=
  map (fun s => (ts_member_username s, ts_amount s))
    (tt_splits (db_tables (snd (record_tip_splits (D := Z) tally collates_all "t1" "bob" amount (band ms))))).

(** The last of the members takes what the rounding leaves. *)
Example split_of_ten :
  recorded [member "ann" 1; member "bob" 1; member "cid" 1] "10" =
    [("ann", "3.3333333"); ("bob", "3.3333333"); ("cid", "3.3333334")].
Proof. vm_compute. done. Qed.

(** Five equal shares of three stroops: the four first are rounded up, the last is negative. *)
Example negative_split :
  recorded [member "ann" 1; member "bob" 1; member "cid" 1; member "dan" 1; member "eve" 1] "0.0000003" =
    [("ann", "0.0000001"); ("bob", "0.0000001"); ("cid", "0.0000001"); ("dan", "0.0000001"); ("eve", "-0.0000001")].
Proof. vm_compute. done. Qed.

(** A team that is not there: the query answers an error of the database, 500. *)
Example missing_team_is_500 :
  match fst (get_team_handler collates_all "no" (team_world [] [])) with Err e => status_code e = 500 | Ok _ => False end.
Proof. vm_compute. done. Qed.

(** Removing somebody who is not a member: 204. *)
Example missing_member_is_204 : fst (remove_member_handler "no" "ann" (team_world [] [])) = Ok 204.
Proof. vm_compute. done. Qed.

(** A total that wraps around is refused as not positive. *)
Example wrapped_total_refused :
  check_members [] 0 [member "ann" (2 ^ 31 - 1); member "bob" 1] =
    Err (invalid_request "Team member share percentages must total more than zero").
Proof. vm_compute. done. Qed.

Definition duo : Db TeamTables := Eval vm_compute in band [member "ann" 70; member "bob" 30].

Lemma duo_reached : duo = play (team_exec tally) (team_of [member "ann" 70; member "bob" 30])
  (team_world ["ann"; "bob"; "cid"; "dan"; "eve"] ["t1"]).
Proof. vm_compute. reflexivity. Qed.

Definition bob_in_duo : TeamMember :=
  {| tm_team_id := tally 0; tm_creator_username := "bob"; tm_share_percentage := 30; tm_added_at := 0 |}.

Lemma bob_in_duo_in : bob_in_duo ∈ tt_members (db_tables duo).
Proof. vm_compute. right. left. Qed.

Lemma teams_disjoint_witness :
  bob_in_duo ∈ tt_members (db_tables duo) /\ 0 < tm_share_percentage bob_in_duo /\
  NoDup (te_name <$> tt_teams (db_tables duo)).
Proof.
  pose proof (teams_disjoint tally ["ann"; "bob"; "cid"; "dan"; "eve"] ["t1"]
    (team_of [member "ann" 70; member "bob" 30]) bob_in_duo bob_in_duo) as H. cbv zeta in H.
  rewrite <- duo_reached in H. destruct (H bob_in_duo_in bob_in_duo_in eq_refl) as (_ & H1 & H2).
  split; [exact bob_in_duo_in|]. split; [exact H1 | exact H2].
Defined.

Lemma duo_well : WellTeamed (db_tables duo).
Proof.
  rewrite duo_reached. apply (play_kept WellTeamed); [intros; by apply team_exec_kept | apply no_teams_well].
Qed.

Lemma tip_splits_exact_witness :
  exists w' xs, record_tip_splits (D := Z) tally collates_all "t1" "bob" "2.5" duo = (Ok tt, w') /\
    length xs = 2%nat /\ sumZ (map units xs) = 25000000 * STROOP /\
    map ts_amount (tt_splits (db_tables w')) = ["1.7500000"; "0.7500000"].
Proof.
  destruct (tip_splits_exact (D := Z) tally collates_all "t1" "bob" "2.5" (25000000 * STROOP) 25000000 duo bob_in_duo)
    as (w' & xs & Hw & Hlen & _ & Hsum & _).
  - exact tally_inj.
  - reflexivity.
  - exact duo_well.
  - intros k s _ Hs. by apply elem_of_nil in Hs.
  - vm_compute. left.
  - exact bob_in_duo_in.
  - reflexivity.
  - reflexivity.
  - reflexivity.
  - lia.
  - vm_compute. reflexivity.
  - vm_compute. reflexivity.
  - exists w', xs. split; [exact Hw|]. split; [exact Hlen|]. split; [exact Hsum|].
    replace w' with (snd (record_tip_splits (D := Z) tally collates_all "t1" "bob" "2.5" duo)) by (rewrite Hw; reflexivity).
    vm_compute. reflexivity.
Defined.
