(* ===== verification/Campaigns.v ===== *)
(** * Matching campaigns

    src/src/controllers/campaign_controller.rs, src/src/models/campaign.rs and
    the handlers of src/src/routes/campaigns.rs; the tables are those of
    migrations 0029 and 0069.  Sponsors match the tips of a creator out of a
    budget.  [apply_tip_matching_campaign] runs inside the transaction of its
    caller and locks the row of the campaign until it ends; nothing in src/src
    calls it, and nothing creates a campaign.

    Amounts are texts: the code computes with the decimals of crate
    rust_decimal, the statements with the [numeric] of Postgres. *)

From S2P Require Import Prelude Text Codec Errors Amount Decimal Sql.

(** ** [numeric] of Postgres: [text::numeric], [numeric::text], comparison and exact subtraction *)

Class PgNumeric (N : Type) : Type := {
  pg_cast : string -> option N;
  pg_text : N -> string;
  pg_zero : N;
  pg_sub : N -> N -> N;
  pg_ltb : N -> N -> bool
}.

(** A text with at most fourteen decimals, read by either side, is the same
    amount while it fits the mantissa of a decimal. *)
Class PgNumericLaws (D N : Type) `{DecimalLaws D, PgNumeric N} : Type := {
  pg_units : N -> Z;
  pg_units_zero : pg_units pg_zero = 0;
  pg_units_sub : forall a b, pg_units (pg_sub a b) = pg_units a - pg_units b;
  pg_units_ltb : forall a b, pg_ltb a b = (pg_units a <? pg_units b);
  pg_cast_text : forall v g, pg_units v = g * GRAIN -> 0 <= g < 2 ^ 96 -> exists v', pg_cast (pg_text v) = Some v' /\
    pg_units v' = pg_units v;
  pg_reads_decimal : forall a g, units a = g * GRAIN -> 0 <= g < 2 ^ 96 -> exists v, pg_cast (d_to_string a) = Some v /\
    pg_units v = units a;
  decimal_reads_pg : forall s v g, pg_cast s = Some v -> pg_units v = g * GRAIN -> 0 <= g < 2 ^ 96 ->
    exists a, d_from_str s = Some a /\ units a = pg_units v
}.

(** ** models/campaign.rs *)

(** src/src/models/campaign.rs:7-19 Campaign *)
Record Campaign : Type := {
  ca_id : string;
  ca_sponsor_name : string;
  ca_creator_username : string;
  ca_match_ratio : string;
  ca_per_tip_cap : string;
  ca_total_budget : string;
  ca_remaining_budget : string;
  ca_active : bool;
  ca_starts_at : option Z;
  ca_ends_at : option Z;
  ca_created_at : Z
}.

(** src/src/models/campaign.rs:22-28 CampaignContribution *)
Record CampaignContribution : Type := {
  cc_id : string;
  cc_campaign_id : string;
  cc_tip_id : string;
  cc_matched_amount : string;
  cc_created_at : Z
}.

(** src/src/models/campaign.rs:48-52 CampaignMatchResult *)
Record CampaignMatchResult : Type := {
  cm_campaign_id : string;
  cm_sponsor_name : string;
  cm_matched_amount : string
}.

(** The tables; of the tips the ids.  The rows of [campaign_matches] have the columns of the contributions. *)
Record CampaignTables : Type := {
  cp_campaigns : list Campaign;
  cp_tips : list string;
  cp_matches : list CampaignContribution;
  cp_contributions : list CampaignContribution
}.

Definition with_campaigns (l : list Campaign) (t : CampaignTables) : CampaignTables :=
  {| cp_campaigns := l; cp_tips := cp_tips t; cp_matches := cp_matches t; cp_contributions := cp_contributions t |}.

Definition with_matches (l : list CampaignContribution) (t : CampaignTables) : CampaignTables :=
  {| cp_campaigns := cp_campaigns t; cp_tips := cp_tips t; cp_matches := l; cp_contributions := cp_contributions t |}.

Definition with_contributions (l : list CampaignContribution) (t : CampaignTables) : CampaignTables :=
  {| cp_campaigns := cp_campaigns t; cp_tips := cp_tips t; cp_matches := cp_matches t; cp_contributions := l |}.

Definition Camp : Type -> Type := M (Db CampaignTables) AppError.

Definition query {A} (m : Sql CampaignTables A) : Camp A := map_err app_error_from_sqlx m.

(** A text that is not a number where a [numeric] is needed. *)
Definition invalid_text : sqlx_error := SqlxDatabase (Some "22P02") None.

Section operations.
Context {D N : Type} `{RustDecimal D, PgNumeric N}.
Variable uuid : nat -> string.

(** ** controllers/campaign_controller.rs *)

(** src/src/controllers/campaign_controller.rs:21-24 the condition of an active campaign, its budget apart *)
Definition running (creator_username : string) (now : Z) (c : Campaign) : bool :=
  String.eqb (ca_creator_username c) creator_username && ca_active c &&
  match ca_starts_at c with Some s => s <=? now | None => true end &&
  match ca_ends_at c with Some e => now <=? e | None => true end.

(** [remaining_budget::numeric > 0] *)
Definition has_budget (c : Campaign) : bool :=
  match pg_cast (ca_remaining_budget c) with Some v => pg_ltb pg_zero v | None => false end.

(** src/src/controllers/campaign_controller.rs:26-26 the order: the highest ratio first, then the oldest *)
Definition better (x y : Campaign) : bool :=
  match pg_cast (ca_match_ratio x), pg_cast (ca_match_ratio y) with
  | Some a, Some b => pg_ltb b a || (negb (pg_ltb a b) && (ca_created_at x <=? ca_created_at y))
  | _, _ => true
  end.

Definition is_number (s : string) : bool := match pg_cast s with Some _ => true | None => false end.

(** src/src/controllers/campaign_controller.rs:12-36 find_active_campaign_for_creator *)
Definition find_active_campaign_for_creator (creator_username : string) : Camp (option Campaign) :=
  query (sql (fun now t =>
    let rows := List.filter (running creator_username now) (cp_campaigns t) in
    if forallb (fun c => is_number (ca_remaining_budget c) && is_number (ca_match_ratio c)) rows then
      Ok (head (sort_by better (List.filter has_budget rows)), t)
    else Err invalid_text)).

(** src/src/controllers/campaign_controller.rs:49-63 the amount to match *)
Definition matched_amount (campaign : Campaign) (tip_amount : string) : AppResult D :=
  tip_amount ← ok_or internal (d_from_str tip_amount);
  match_ratio ← ok_or internal (d_from_str (ca_match_ratio campaign));
  let matched := d_mul tip_amount match_ratio in
  per_tip_cap ← ok_or internal (d_from_str (ca_per_tip_cap campaign));
  let matched := if d_ltb d_zero per_tip_cap then d_min matched per_tip_cap else matched in
  remaining_budget ← ok_or internal (d_from_str (ca_remaining_budget campaign));
  Ok (d_min matched remaining_budget).

(** src/src/controllers/campaign_controller.rs:70-92 the statements that insert a match and a contribution *)
Definition insert_matched (pkey : string) (rows : CampaignTables -> list CampaignContribution)
    (put : list CampaignContribution -> CampaignTables -> CampaignTables)
    (i campaign_id tip_id amount : string) : statement CampaignTables unit :=
  fun now t =>
    let r := {| cc_id := i; cc_campaign_id := campaign_id; cc_tip_id := tip_id; cc_matched_amount := amount;
                cc_created_at := now |} in
    if existsb (fun x => String.eqb (cc_id x) i) (rows t) then Err (unique_violation pkey)
    else if existsb (fun c => String.eqb (ca_id c) campaign_id) (cp_campaigns t) &&
            existsb (String.eqb tip_id) (cp_tips t)
    then Ok (tt, put (rows t ++ [r]) t)
    else Err (foreign_key_violation "campaign_id_or_tip_id_fkey").

Definition spend_row (v : N) (c : Campaign) : Campaign :=
  {| ca_id := ca_id c; ca_sponsor_name := ca_sponsor_name c; ca_creator_username := ca_creator_username c;
     ca_match_ratio := ca_match_ratio c; ca_per_tip_cap := ca_per_tip_cap c; ca_total_budget := ca_total_budget c;
     ca_remaining_budget := match pg_cast (ca_remaining_budget c) with
                            | Some r => pg_text (pg_sub r v) | None => ca_remaining_budget c end;
     ca_active := ca_active c; ca_starts_at := ca_starts_at c; ca_ends_at := ca_ends_at c;
     ca_created_at := ca_created_at c |}.

(** src/src/controllers/campaign_controller.rs:94-104 the statement that takes the amount from the budget *)
Definition spend (campaign_id amount : string) : statement CampaignTables unit :=
  fun _ t =>
    let p c := String.eqb (ca_id c) campaign_id in
    match pg_cast amount with
    | None => Err invalid_text
    | Some v =>
        if forallb (fun c => is_number (ca_remaining_budget c)) (List.filter p (cp_campaigns t)) then
          Ok (tt, with_campaigns (update_where p (spend_row v) (cp_campaigns t)) t)
        else Err invalid_text
    end.

(** src/src/controllers/campaign_controller.rs:39-111 apply_tip_matching_campaign *)
Definition apply_tip_matching_campaign (creator_username tip_id tip_amount : string)
    : Camp (option CampaignMatchResult) :=
  campaign ← find_active_campaign_for_creator creator_username;
  match campaign with
  | None => mret None
  | Some campaign =>
      matched ← lift (matched_amount campaign tip_amount);
      if d_leb matched d_zero then mret None
      else
        let matched_amount_str := d_to_string matched in
        i ← fresh uuid;
        _ ← query (sql (insert_matched "campaign_matches_pkey" cp_matches with_matches i (ca_id campaign) tip_id
                          matched_amount_str));
        j ← fresh uuid;
        _ ← query (sql (insert_matched "campaign_contributions_pkey" cp_contributions with_contributions j
                          (ca_id campaign) tip_id matched_amount_str));
        _ ← query (sql (spend (ca_id campaign) matched_amount_str));
        mret (Some {| cm_campaign_id := ca_id campaign; cm_sponsor_name := ca_sponsor_name campaign;
                      cm_matched_amount := matched_amount_str |})
  end.

(** src/src/controllers/campaign_controller.rs:113-150 list_campaigns_for_creator: the column [progress_pct] is
    a [numeric], which sqlx does not decode into an [f64] *)
Definition list_campaigns_for_creator (creator_username : string) : Camp (list Campaign) :=
  query (sql (fun _ t =>
    match List.filter (fun c => String.eqb (ca_creator_username c) creator_username) (cp_campaigns t) with
    | [] => Ok ([], t)
    | _ => Err SqlxOther
    end)).

(** src/src/controllers/campaign_controller.rs:152-169 get_campaign_contributions *)
Definition get_campaign_contributions (campaign_id : string) : Camp (list CampaignContribution) :=
  query (select (fun _ t =>
    sort_by (fun x y => cc_created_at y <=? cc_created_at x)
      (List.filter (fun x => String.eqb (cc_campaign_id x) campaign_id) (cp_contributions t)))).

(** src/src/routes/campaigns.rs:25-31 list_creator_campaigns *)
Definition list_creator_campaigns_handler (username : string) : Camp (Z * list Campaign) :=
  campaigns ← list_campaigns_for_creator username;
  mret (200, campaigns).

(** src/src/routes/campaigns.rs:33-40 get_campaign_contributions *)
Definition get_campaign_contributions_handler (campaign_id : string) : Camp (Z * list CampaignContribution) :=
  contributions ← get_campaign_contributions campaign_id;
  mret (200, contributions).

(** A tip recorded and matched in one transaction of the caller. *)
Inductive campaign_op : Type :=
| MatchTip (creator_username tip_id tip_amount : string).

Definition campaign_exec (o : campaign_op) (w : Db CampaignTables) : Db CampaignTables :=
  match o with
  | MatchTip creator tip_id amount =>
      snd (transaction app_error_from_sqlx (apply_tip_matching_campaign creator tip_id amount) w)
  end.
End operations.

(** ** What the tables keep *)

Section budgets.
Context {D N : Type} `{PgNumericLaws D N}.
Variable uuid : nat -> string.

(** The units of a text, and how much of the budget a campaign has given. *)
Definition amount_units (s : string) : Z := match pg_cast s with Some v => pg_units v | None => 0 end.

Definition given (i : string) (t : CampaignTables) : Z :=
  sumZ (map (fun x => amount_units (cc_matched_amount x))
          (List.filter (fun x => String.eqb (cc_campaign_id x) i) (cp_contributions t))).

(** What a sponsor may set up: a ratio, a cap and a budget with at most seven decimals, the ratio below 858. *)
Record SoundCampaign (c : Campaign) : Prop := {
  so_ratio : exists a r, d_from_str (ca_match_ratio c) = Some a /\ in_stroops a r /\ Z.abs r < 2 ^ 33;
  so_cap : exists a k, d_from_str (ca_per_tip_cap c) = Some a /\ in_stroops a k;
  so_total : exists v b, pg_cast (ca_total_budget c) = Some v /\ pg_units v = b * GRAIN /\ 0 <= b < 2 ^ 96;
  so_remaining : exists v g, pg_cast (ca_remaining_budget c) = Some v /\ pg_units v = g * GRAIN /\ 0 <= g < 2 ^ 96
}.

(** The units of the cap. *)
Definition cap_units (c : Campaign) : Z :=
  match d_from_str (ca_per_tip_cap c) with Some a => units a | None => 0 end.

Definition pair_of (x : CampaignContribution) : string * string * string :=
  (cc_campaign_id x, cc_tip_id x, cc_matched_amount x).

Record Balanced (t : CampaignTables) : Prop := {
  ba_ids : NoDup (ca_id <$> cp_campaigns t);
  ba_sound : forall c, c ∈ cp_campaigns t -> SoundCampaign c;
  ba_conserved : forall c, c ∈ cp_campaigns t ->
    amount_units (ca_remaining_budget c) + given (ca_id c) t = amount_units (ca_total_budget c);
  ba_amounts : forall x c, x ∈ cp_contributions t -> c ∈ cp_campaigns t -> ca_id c = cc_campaign_id x ->
    0 < amount_units (cc_matched_amount x) /\
    (0 < cap_units c -> amount_units (cc_matched_amount x) <= cap_units c);
  ba_known : forall x, x ∈ cp_contributions t -> exists c, c ∈ cp_campaigns t /\ ca_id c = cc_campaign_id x;
  ba_matches : map pair_of (cp_matches t) = map pair_of (cp_contributions t)
}.

(** A tip of the pipeline: at most seven decimals, in an i64 of stroops. *)
Definition tip_text (s : string) : Prop :=
  exists a n, d_from_str s = Some a /\ in_stroops a n /\ 0 <= n < 2 ^ 63.

Lemma matched_amount_spec c s m :
  SoundCampaign c -> tip_text s -> matched_amount (D := D) c s = Ok m -> d_leb m d_zero = false ->
  exists g r k, units m = g * GRAIN /\ 0 < g /\ amount_units (ca_remaining_budget c) = r * GRAIN /\ g <= r < 2 ^ 96 /\
    cap_units c = k * GRAIN /\ (0 < k -> g <= k).
Proof.
  intros [(ra & r & Hra & Hr & Hrb) (ka & k & Hka & Hk) _ (v & g & Hv & Hg & Hgb)] (ta & n & Hta & Hn & Hnb).
  destruct (decimal_reads_pg (D := D) _ v g Hv Hg Hgb) as (rem & Hrem & Hremu).
  unfold matched_amount. rewrite Hta, Hra, Hka, Hrem. simpl. intros [= <-].
  assert (units (d_mul ta ra) = n * r * GRAIN) as Hprod by (apply units_mul_exact; [done..|]; rewrite Z.abs_mul; nia).
  rewrite units_leb, units_zero, units_min, Hremu, Hg. unfold cap_units. rewrite Hka. unfold in_stroops in Hk.
  unfold amount_units. rewrite Hv, Hg, Hk, units_ltb, units_zero, Hk.
  replace (k * STROOP) with (k * 10 ^ 7 * GRAIN) by (unfold STROOP, GRAIN; lia).
  assert (0 < GRAIN) as HG by done.
  destruct (0 <? k * 10 ^ 7 * GRAIN) eqn:Hcap; zbool.
  - rewrite units_min, Hprod, Hk. replace (k * STROOP) with (k * 10 ^ 7 * GRAIN) by (unfold STROOP, GRAIN; lia).
    intros Hpos. rewrite !Z.mul_min_distr_nonneg_r in * by lia. zbool.
    exists (Z.min (Z.min (n * r) (k * 10 ^ 7)) g), g, (k * 10 ^ 7). repeat split; try done; nia.
  - rewrite Hprod. intros Hpos. rewrite !Z.mul_min_distr_nonneg_r in * by lia. zbool.
    exists (Z.min (n * r) g), g, (k * 10 ^ 7). repeat split; try done; nia.
Qed.

Lemma find_active_ok creator w o w' :
  find_active_campaign_for_creator (N := N) creator w = (Ok o, w') ->
  db_tables w' = db_tables w /\ forall c, o = Some c -> c ∈ cp_campaigns (db_tables w).
Proof.
  unfold find_active_campaign_for_creator, query, map_err. destruct (sql _ w) as [[a | e] w1] eqn:Hs; [|done].
  intros [= <- <-]. apply sql_ok in Hs as [Hs _]. destruct (forallb _ _); [|done]. injection Hs as Ha Ht.
  split; [done|]. intros c ->. destruct (sort_by better _) as [|x l] eqn:Hsort; [done|]. injection Ha as ->.
  assert (c ∈ sort_by better (List.filter has_budget (List.filter (running creator (db_now w))
    (cp_campaigns (db_tables w))))) as Hin by (rewrite Hsort; left).
  rewrite sort_by_perm in Hin. by apply list_elem_of_In, filter_In in Hin as [[Hin%list_elem_of_In _]%filter_In _].
Qed.

Lemma insert_matched_ok pkey rows put i cid tid amount now t a t' :
  insert_matched pkey rows put i cid tid amount now t = Ok (a, t') ->
  t' = put (rows t ++ [{| cc_id := i; cc_campaign_id := cid; cc_tip_id := tid; cc_matched_amount := amount;
                         cc_created_at := now |}]) t.
Proof. unfold insert_matched. destruct (existsb _ _); [done|]. destruct (_ && _); [|done]. by intros [= _ <-]. Qed.

Lemma given_snoc i t t' l x :
  cp_contributions t' = l ++ [x] -> cp_contributions t = l ->
  given i t' = given i t + (if String.eqb (cc_campaign_id x) i then amount_units (cc_matched_amount x) else 0).
Proof.
  intros Hl1 Hl2. unfold given. rewrite Hl1, Hl2, List.filter_app, map_app, sumZ_app. simpl.
  destruct (String.eqb _ i); simpl; lia.
Qed.

(** The three statements of a match, after a campaign [c] of the tables and an amount the code computed for it. *)
Lemma match_balanced c (m : D) text tid i j now1 now2 now3 t t1 t2 t3 u1 u2 u3 :
  Balanced t -> c ∈ cp_campaigns t -> tip_text text -> matched_amount c text = Ok m -> d_leb m d_zero = false ->
  insert_matched "campaign_matches_pkey" cp_matches with_matches i (ca_id c) tid (d_to_string m) now1 t = Ok (u1, t1) ->
  insert_matched "campaign_contributions_pkey" cp_contributions with_contributions j (ca_id c) tid (d_to_string m) now2 t1
    = Ok (u2, t2) ->
  spend (ca_id c) (d_to_string m) now3 t2 = Ok (u3, t3) ->
  Balanced t3.
Proof.
  intros Ht Hc Htext Hm Hpos Hs1 Hs2 Hs3.
  destruct (matched_amount_spec c text m (ba_sound _ Ht c Hc) Htext Hm Hpos)
    as (g & r & k & Hg & Hg0 & Hr & Hgr & Hk & Hcap).
  destruct (pg_reads_decimal (D := D) (N := N) m g Hg) as (v & Hv & Hvu); [lia|].
  apply insert_matched_ok in Hs1, Hs2. subst t1 t2. simpl in Hs3.
  set (x1 := {| cc_id := i |}) in *. set (x2 := {| cc_id := j |}) in *.
  unfold spend in Hs3. rewrite Hv in Hs3. destruct (forallb _ _); [|done]. injection Hs3 as _ <-. simpl.
  set (p := fun y => String.eqb (ca_id y) (ca_id c)).
  assert (amount_units (d_to_string m) = g * GRAIN) as Hamount by (unfold amount_units; rewrite Hv; congruence).
  assert (forall y, y ∈ cp_campaigns t -> p y = true -> y = c) as Hsame.
  { intros y Hy Hp. apply String.eqb_eq in Hp. eapply nodup_key_inj; [apply (ba_ids _ Ht) | done..]. }
  assert (exists v', pg_cast (ca_remaining_budget (spend_row v c)) = Some v' /\ pg_units v' = (r - g) * GRAIN) as Hspent.
  { destruct (so_remaining _ (ba_sound _ Ht c Hc)) as (w & gw & Hw & Hwu & Hwb). simpl. rewrite Hw.
    unfold amount_units in Hr. rewrite Hw in Hr.
    destruct (pg_cast_text (D := D) (pg_sub w v) (r - g)) as (v' & Hv' & Hvu').
    - rewrite pg_units_sub, Hr, Hvu, Hg. lia.
    - lia.
    - exists v'. split; [done|]. rewrite Hvu', pg_units_sub, Hr, Hvu, Hg. lia. }
  split; simpl.
  - rewrite update_where_fmap by done. apply Ht.
  - intros y [[Hy _] | (y' & Hy & Hp & ->)]%elem_of_update_where; [by apply Ht|].
    apply Hsame in Hp; [subst y' | done]. destruct (ba_sound _ Ht c Hc) as [S1 S2 S3 S4].
    split; [done.. |]. destruct Hspent as (v' & Hv' & Hvu'). exists v', (r - g). repeat split; [done | done | lia | lia].
  - intros y Hy. rewrite (given_snoc _ t _ (cp_contributions t) x2) by done. simpl.
    apply elem_of_update_where in Hy as [[Hy Hp] | (y' & Hy & Hp & ->)].
    + unfold p in Hp. rewrite String.eqb_sym in Hp. rewrite Hp, Z.add_0_r. by apply Ht.
    + apply Hsame in Hp; [subst y' | done]. change (ca_id (spend_row v c)) with (ca_id c). rewrite String.eqb_refl, Hamount.
      pose proof (ba_conserved _ Ht c Hc) as Hcons. rewrite Hr in Hcons.
      destruct Hspent as (v' & Hv' & Hvu'). change (ca_total_budget (spend_row v c)) with (ca_total_budget c).
      unfold amount_units at 1. rewrite Hv', Hvu'. lia.
  - intros x y Hx Hy Hid. assert (exists y', y' ∈ cp_campaigns t /\ ca_id y' = ca_id y /\ cap_units y' = cap_units y) as (y' & Hy' & Hid' & Hcap').
    { apply elem_of_update_where in Hy as [[Hy Hp] | (y' & Hy & Hp & ->)]; [by exists y | by exists y']. }
    rewrite <- Hcap'. apply elem_of_app in Hx as [Hx | Hx].
    + apply (ba_amounts _ Ht x y'); [done | done | congruence].
    + apply list_elem_of_singleton in Hx. subst x. simpl in *.
      assert (y' = c) as -> by (eapply nodup_key_inj; [apply (ba_ids _ Ht) | done | done | congruence]).
      rewrite Hamount, Hk. unfold GRAIN in *. split; lia.
  - intros x Hx. assert (exists y, y ∈ cp_campaigns t /\ ca_id y = cc_campaign_id x) as (y & Hy & Hid).
    { apply elem_of_app in Hx as [Hx | Hx]; [by apply Ht|]. apply list_elem_of_singleton in Hx. subst x. by exists c. }
    exists (if p y then spend_row v y else y). split; [by apply update_where_image | by destruct (p y)].
  - rewrite !map_app, (ba_matches _ Ht). done.
Qed.

Lemma apply_kept creator tid text :
  tip_text text -> kept Balanced (transaction app_error_from_sqlx (apply_tip_matching_campaign (D := D) (N := N) uuid creator tid text)).
Proof.
  intros Htext. apply kept_transaction_body. intros w o w' Hw.
  intros (c & w1 & (Ht1 & Hc)%find_active_ok & Hrun)%bind_answers.
  destruct c as [c|]; [|by injection Hrun as _ <-; rewrite Ht1]. specialize (Hc c eq_refl).
  apply bind_answers in Hrun as (m & w2 & Hm & Hrun). injection Hm as Hm <-.
  destruct (d_leb m d_zero) eqn:Hpos; [by injection Hrun as _ <-; rewrite Ht1|].
  apply bind_answers in Hrun as (i & w3 & [= <- <-] & Hrun).
  apply bind_answers in Hrun as (u1 & w4 & Hs1 & (j & w5 & [= <- <-] & (u2 & w6 & Hs2 & (u3 & w7 & Hs3 & [= _ <-])
    %bind_answers)%bind_answers)%bind_answers).
  assert (forall A (q : statement CampaignTables A) x a y, query (sql q) x = (Ok a, y) ->
    q (db_now x) (db_tables x) = Ok (a, db_tables y)) as Hok.
  { intros A q x a y. unfold query, map_err. destruct (sql q x) as [[b | e] z] eqn:Hs; [|done].
    intros [= <- <-]. by apply sql_ok in Hs as [Hs _]. }
  apply Hok in Hs1, Hs2, Hs3. simpl in Hs1, Hs2, Hs3. rewrite Ht1 in Hs1.
  by eapply match_balanced.
Qed.

(** C34: Over every history of tips, interleaved as their transactions commit
    and under any failures, a campaign set up with its budget untouched gives
    out exactly what leaves its budget and never more than the budget: each
    match is positive and within the cap per tip, and the matches and the
    contributions are the same. *)
Theorem campaign_budget_conserved t0 now l c :
  Balanced t0 -> (forall creator tid text, Does (MatchTip creator tid text) ∈ l -> tip_text text) ->
  let t := db_tables (play (campaign_exec (D := D) (N := N) uuid) l
    {| db_tables := t0; db_now := now; db_utc := now; db_uuids := 0; db_faults := [] |}) in
  c ∈ cp_campaigns t ->
  amount_units (ca_remaining_budget c) + given (ca_id c) t = amount_units (ca_total_budget c) /\
  0 <= amount_units (ca_remaining_budget c) /\
  (forall x, x ∈ cp_contributions t -> cc_campaign_id x = ca_id c ->
     0 < amount_units (cc_matched_amount x) /\
     (0 < cap_units c -> amount_units (cc_matched_amount x) <= cap_units c)) /\
  map pair_of (cp_matches t) = map pair_of (cp_contributions t).
Proof.
  intros Hstart Htexts t Hc. assert (Balanced t) as Ht.
  { apply play_kept_in; [|done]. intros [creator tid text] w Ho Hw. simpl. apply apply_kept; eauto. }
  split; [by apply Ht|]. split; [|split; [intros x Hx Hid; by apply (ba_amounts _ Ht) | apply Ht]].
  destruct (so_remaining _ (ba_sound _ Ht c Hc)) as (v & g & Hv & Hg & Hgb). unfold amount_units. rewrite Hv, Hg.
  unfold GRAIN. lia.
Qed.
End budgets.

(** ** On concrete campaigns, with the amounts of both sides as integers of units *)

#[export] Instance Units_numeric : PgNumeric Z := {
  pg_cast := parse_units;
  pg_text := print_units;
  pg_zero := 0;
  pg_sub := Z.sub;
  pg_ltb := Z.ltb
}.

#[export] Instance Units_numeric_laws : PgNumericLaws Z Z.
Proof.
  refine {| pg_units := fun a => a |}; try done; simpl.
  - intros v g -> Hg. exists (g * GRAIN). split; [|done]. apply parse_print_units. unfold GRAIN. lia.
  - intros a g -> Hg. exists (g * GRAIN). split; [|done]. apply parse_print_units. unfold GRAIN. lia.
  - intros s v g Hv _ _. by exists v.
Defined.

Definition campaign (ratio cap total : string) : Campaign :=
  {| ca_id := "c1"; ca_sponsor_name := "acme"; ca_creator_username := "ann"; ca_match_ratio := ratio;
     ca_per_tip_cap := cap; ca_total_budget := total; ca_remaining_budget := total; ca_active := true;
     ca_starts_at := None; ca_ends_at := None; ca_created_at := 0 |}.

Definition tables_of (c : Campaign) : CampaignTables :=
  {| cp_campaigns := [c]; cp_tips := ["t1"; "t2"; "t3"]; cp_matches := []; cp_contributions := [] |}.

Definition campaign_world (c : Campaign) : Db CampaignTables :=
  {| db_tables := tables_of c; db_now := 0; db_utc := 0; db_uuids := 0; db_faults := [] |}.

Definition after_tips (c : Campaign) (l : list (happening campaign_op)) : Db CampaignTables :=
  play (campaign_exec (D := Z) (N := Z) tally) l (campaign_world c).

Definition amounts_now (w : Db CampaignTables) : list string * list string :=
  (map ca_remaining_budget (cp_campaigns (db_tables w)), map cc_matched_amount (cp_contributions (db_tables w))).

(** The cap, the ratio and the rest of the budget, in turn; then nothing is left to match. *)
Example budget_runs_out :
  amounts_now (after_tips (campaign "0.5" "10" "15")
    [Does (MatchTip "ann" "t1" "100"); Does (MatchTip "ann" "t2" "6"); Does (MatchTip "ann" "t3" "8");
     Does (MatchTip "ann" "t3" "8")]) =
  (["0.0000000"], ["10.0000000"; "3.0000000"; "2.0000000"]).
Proof. vm_compute. done. Qed.

(** Nothing keeps a tip from being matched twice. *)
Example tip_matched_twice :
  amounts_now (after_tips (campaign "1" "0" "15") [Does (MatchTip "ann" "t1" "5"); Does (MatchTip "ann" "t1" "5")]) =
  (["5.0000000"], ["5.0000000"; "5.0000000"]).
Proof. vm_compute. done. Qed.

(** The list of the campaigns of a creator who has one fails. *)
Example campaigns_do_not_list :
  match fst (list_creator_campaigns_handler "ann" (campaign_world (campaign "1" "0" "15"))) with
  | Err e => status_code e = 500
  | Ok _ => False
  end.
Proof. vm_compute. done. Qed.

Definition two_tips : list (happening campaign_op) :=
  [Does (MatchTip "ann" "t1" "100"); Weather [Fine; Fine; Fine; Fine; Fine; Refused]; Does (MatchTip "ann" "t2" "3");
   Does (MatchTip "ann" "t2" "6")].

Definition after_two : Db CampaignTables := Eval vm_compute in after_tips (campaign "0.5" "10" "15") two_tips.

Lemma after_two_reached :
  after_two = play (campaign_exec (D := Z) (N := Z) tally) two_tips (campaign_world (campaign "0.5" "10" "15")).
Proof. vm_compute. reflexivity. Qed.

Lemma opening_balanced : Balanced (D := Z) (N := Z) (tables_of (campaign "0.5" "10" "15")).
Proof.
  split.
  - apply NoDup_singleton.
  - intros c ->%list_elem_of_singleton. split.
    + exists (5000000 * STROOP), 5000000. repeat split; vm_compute; done.
    + exists (100000000 * STROOP), 100000000. split; vm_compute; done.
    + exists (15 * ONE), (15 * 10 ^ 14). repeat split; vm_compute; done.
    + exists (15 * ONE), (15 * 10 ^ 14). repeat split; vm_compute; done.
  - intros c ->%list_elem_of_singleton. vm_compute. done.
  - intros x c Hx. by apply elem_of_nil in Hx.
  - intros x Hx. by apply elem_of_nil in Hx.
  - done.
Qed.

Lemma campaign_budget_conserved_witness :
  exists c, c ∈ cp_campaigns (db_tables after_two) /\
    amount_units (D := Z) (N := Z) (ca_remaining_budget c) = 2 * ONE /\
    amount_units (D := Z) (N := Z) (ca_remaining_budget c) + given (D := Z) (N := Z) (ca_id c) (db_tables after_two)
      = 15 * ONE.
Proof.
  destruct (cp_campaigns (db_tables after_two)) as [|c rest] eqn:Hc; [by vm_compute in Hc|]. exists c.
  assert (c ∈ cp_campaigns (db_tables after_two)) as Hin by (rewrite Hc; left).
  split; [by left|]. split; [by vm_compute in Hc; injection Hc as <- <-|].
  pose proof (campaign_budget_conserved (D := Z) (N := Z) tally (tables_of (campaign "0.5" "10" "15")) 0 two_tips c
    opening_balanced) as H. cbv zeta in H.
  change {| db_tables := tables_of (campaign "0.5" "10" "15"); db_now := 0; db_utc := 0; db_uuids := 0; db_faults := [] |}
    with (campaign_world (campaign "0.5" "10" "15")) in H.
  rewrite <- after_two_reached in H. destruct H as [H _]; [| exact Hin |].
  - intros creator tid text Hd.
    assert (text = "100" \/ text = "3" \/ text = "6") as Ht.
    { repeat (apply elem_of_cons in Hd as [[= -> -> ->] | Hd]; [auto|] || apply elem_of_cons in Hd as [[=] | Hd]).
      by apply elem_of_nil in Hd. }
    destruct Ht as [-> | [-> | ->]].
    + exists (1000000000 * STROOP), 1000000000. repeat split; vm_compute; done.
    + exists (30000000 * STROOP), 30000000. repeat split; vm_compute; done.
    + exists (60000000 * STROOP), 60000000. repeat split; vm_compute; done.
  - rewrite H. vm_compute in Hc. injection Hc as <- <-. vm_compute. reflexivity.
Defined.
