(* ===== verification/Refunds.v ===== *)
(** * Refunds

    src/src/controllers/refund_controller.rs, src/src/models/refund.rs and the
    handlers of src/src/routes/refunds.rs; the table carries the constraints of
    migration 0032.  A refund is asked for by anybody and reviewed by an admin,
    who sends the money outside of the program and gives the hash of that
    transaction. *)

From S2P Require Import Prelude Text Codec Errors Sql.

(** ** models/refund.rs *)

(** src/src/models/refund.rs:6-16 TipRefund *)
Record TipRefund : Type := {
  rf_id : string;
  rf_tip_id : string;
  rf_reason : string;
  rf_status : string;
  rf_refund_tx_hash : option string;
  rf_reviewed_by : option string;
  rf_reviewed_at : option Z;
  rf_created_at : Z;
  rf_updated_at : Z
}.

(** src/src/models/refund.rs:19-22 CreateRefundRequest *)
Record CreateRefundRequest : Type := {
  rc_tip_id : string;
  rc_reason : string
}.

(** src/src/models/refund.rs:25-30 ReviewRefundRequest *)
Record ReviewRefundRequest : Type := {
  rv_action : string;
  rv_refund_tx_hash : option string
}.

(** The tables; of the tips the ids, of the admins the key hash and the username. *)
Record RefundTables : Type := {
  rt_tips : list string;
  rt_admins : list (string * string);
  rt_refunds : list TipRefund
}.

Definition with_refunds (l : list TipRefund) (t : RefundTables) : RefundTables :=
  {| rt_tips := rt_tips t; rt_admins := rt_admins t; rt_refunds := l |}.

Definition Refunds : Type -> Type := M (Db RefundTables) AppError.

Definition query {A} (m : Sql RefundTables A) : Refunds A := map_err app_error_from_sqlx m.

Definition invalid_request (message : string) : AppError := Validation (InvalidRequest message).

Section operations.
Variable uuid : nat -> string.

(** ** controllers/refund_controller.rs *)

(** src/src/controllers/refund_controller.rs:8-33 the two checks before a refund is recorded *)
Definition refund_checks (req : CreateRefundRequest) : Refunds unit :=
  tip_exists ← query (select (fun _ t => existsb (String.eqb (rc_tip_id req)) (rt_tips t)));
  if negb tip_exists then throw (invalid_request ("Tip " +:+ rc_tip_id req +:+ " not found"))
  else
    pending_exists ← query (select (fun _ t =>
      existsb (fun r => String.eqb (rf_tip_id r) (rc_tip_id req) && String.eqb (rf_status r) "pending") (rt_refunds t)));
    if pending_exists : bool then
      throw (Conflict "REFUND_ALREADY_PENDING" "A refund request for this tip is already pending")
    else mret tt.

Definition new_refund (i : string) (req : CreateRefundRequest) (now : Z) : TipRefund :=
  {| rf_id := i; rf_tip_id := rc_tip_id req; rf_reason := rc_reason req; rf_status := "pending";
     rf_refund_tx_hash := None; rf_reviewed_by := None; rf_reviewed_at := None; rf_created_at := now;
     rf_updated_at := now |}.

(** src/src/controllers/refund_controller.rs:35-46 the statement that records a refund *)
Definition insert_refund (req : CreateRefundRequest) : Refunds TipRefund :=
  i ← fresh uuid;
  query (sql (fun now t =>
    if existsb (fun r => String.eqb (rf_id r) i) (rt_refunds t) then Err (unique_violation "tip_refunds_pkey")
    else if existsb (String.eqb (rc_tip_id req)) (rt_tips t) then
      Ok (new_refund i req now, with_refunds (rt_refunds t ++ [new_refund i req now]) t)
    else Err (foreign_key_violation "tip_refunds_tip_id_fkey"))).

(** src/src/controllers/refund_controller.rs:7-47 create_refund *)
Definition create_refund (req : CreateRefundRequest) : Refunds TipRefund :=
  _ ← refund_checks req;
  insert_refund req.

(** src/src/controllers/refund_controller.rs:49-67 list_refunds *)
Definition list_refunds (status : option string) : Refunds (list TipRefund) :=
  query (select (fun _ t =>
    sort_by (fun x y => rf_created_at y <=? rf_created_at x)
      (match status with
       | Some s => List.filter (fun r => String.eqb (rf_status r) s) (rt_refunds t)
       | None => rt_refunds t
       end))).

(** src/src/controllers/refund_controller.rs:69-78 get_refund *)
Definition get_refund (i : string) : Refunds (option TipRefund) :=
  query (select (fun _ t => find (fun r => String.eqb (rf_id r) i) (rt_refunds t))).

(** src/src/controllers/refund_controller.rs:109-112 what a review does to the row *)
Definition review_row (new_status reviewer : string) (hash : option string) (now : Z) (r : TipRefund) : TipRefund :=
  {| rf_id := rf_id r; rf_tip_id := rf_tip_id r; rf_reason := rf_reason r; rf_status := new_status;
     rf_refund_tx_hash := match hash with Some h => Some h | None => rf_refund_tx_hash r end;
     rf_reviewed_by := Some reviewer; rf_reviewed_at := Some now; rf_created_at := rf_created_at r;
     rf_updated_at := now |}.

(** src/src/controllers/refund_controller.rs:111-111 the condition of the update *)
Definition pending_refund (i : string) (r : TipRefund) : bool :=
  String.eqb (rf_id r) i && String.eqb (rf_status r) "pending".

Definition has_hash (h : string) (r : TipRefund) : bool :=
  match rf_refund_tx_hash r with Some h' => String.eqb h' h | None => false end.

(** src/src/controllers/refund_controller.rs:108-120 the statement of a review: the hash is UNIQUE *)
Definition review_statement (i new_status reviewer : string) (hash : option string)
    : statement RefundTables (option TipRefund) :=
  fun now t =>
    match updated (pending_refund i) (review_row new_status reviewer hash now) (rt_refunds t) with
    | [] => Ok (None, t)
    | r :: _ =>
        if match hash with
           | Some h => existsb (fun x => negb (pending_refund i x) && has_hash h x) (rt_refunds t)
           | None => false
           end
        then Err (unique_violation "tip_refunds_refund_tx_hash_key")
        else Ok (Some r, with_refunds (update_where (pending_refund i) (review_row new_status reviewer hash now)
                                         (rt_refunds t)) t)
    end.

(** src/src/controllers/refund_controller.rs:80-123 review_refund *)
Definition review_refund (i reviewer : string) (req : ReviewRefundRequest) : Refunds (option TipRefund) :=
  let action := rv_action req in
  if negb (String.eqb action "approved") && negb (String.eqb action "rejected") then
    throw (invalid_request "action must be 'approved' or 'rejected'")
  else if String.eqb action "approved" && negb (if rv_refund_tx_hash req then true else false) then
    throw (invalid_request "refund_tx_hash is required when approving a refund")
  else
    let new_status := if String.eqb action "approved" then "completed" else "rejected" in
    query (sql (review_statement i new_status reviewer (rv_refund_tx_hash req))).

(** ** routes/refunds.rs *)

Section routes.
(** The hexadecimal SHA-256 of a text. *)
Variable sha256_hex : string -> string.

(** What a refund handler answers: a status with the refunds of the body, the
    message of a 404, or an [AppError]. *)
Inductive answer : Type :=
| Answer (status : Z) (refunds : list TipRefund)
| Missing (message : string)
| Failed (e : AppError).

Definition answering {A} (ok : A -> answer) (m : Refunds A) : M (Db RefundTables) Empty_set answer := fun w =>
  match m w with
  | (Ok a, w') => (Ok (ok a), w')
  | (Err e, w') => (Ok (Failed e), w')
  end.

(** src/src/routes/refunds.rs:45-53 create_refund *)
Definition create_refund_handler (body : CreateRefundRequest) : M (Db RefundTables) Empty_set answer :=
  answering (fun r => Answer 201 [r]) (create_refund body).

(** src/src/routes/refunds.rs:55-65 get_refund *)
Definition get_refund_handler (i : string) : M (Db RefundTables) Empty_set answer :=
  answering (fun r => match r with Some r => Answer 200 [r] | None => Missing "Refund not found" end) (get_refund i).

(** src/src/routes/refunds.rs:67-75 list_refunds *)
Definition list_refunds_handler (status : option string) : M (Db RefundTables) Empty_set answer :=
  answering (Answer 200) (list_refunds status).

(** src/src/routes/refunds.rs:95-114 resolve_admin *)
Definition resolve_admin (admin_key : option string) : M (Db RefundTables) Empty_set string :=
  match option_map sha256_hex admin_key with
  | None => mret "unknown"
  | Some h =>
      name ← attempt (query (select (fun _ t =>
        option_map snd (find (fun a => String.eqb (fst a) h) (rt_admins t)))));
      mret (match name with Ok (Some n) => n | _ => "unknown" end)
  end.

(** src/src/routes/refunds.rs:77-93 review_refund *)
Definition review_refund_handler (admin_key : option string) (i : string) (body : ReviewRefundRequest)
    : M (Db RefundTables) Empty_set answer :=
  reviewer ← resolve_admin admin_key;
  answering (fun r => match r with Some r => Answer 200 [r] | None => Missing "Refund not found or not pending" end)
    (review_refund i reviewer body).

(** What happens to the refunds.  [InsertRefund] is the second half of a
    creation whose checks were made at any time before. *)
Inductive refund_op : Type :=
| CreateRefund (body : CreateRefundRequest)
| InsertRefund (body : CreateRefundRequest)
| ReviewRefund (admin_key : option string) (i : string) (body : ReviewRefundRequest).

Definition refund_exec (o : refund_op) (w : Db RefundTables) : Db RefundTables :=
  match o with
  | CreateRefund b => snd (create_refund_handler b w)
  | InsertRefund b => snd (insert_refund b w)
  | ReviewRefund k i b => snd (review_refund_handler k i b w)
  end.
End routes.
End operations.

(** ** What the table keeps *)

Record SoundRefunds (t : RefundTables) : Prop := {
  sr_ids : NoDup (rf_id <$> rt_refunds t);
  sr_status : forall r, r ∈ rt_refunds t ->
    rf_status r = "pending" /\ rf_refund_tx_hash r = None /\ rf_reviewed_by r = None \/
    rf_status r = "completed" /\ is_Some (rf_refund_tx_hash r) /\ is_Some (rf_reviewed_by r) \/
    rf_status r = "rejected" /\ is_Some (rf_reviewed_by r);
  sr_hashes : forall r r' h, r ∈ rt_refunds t -> r' ∈ rt_refunds t ->
    rf_refund_tx_hash r = Some h -> rf_refund_tx_hash r' = Some h -> r = r'
}.

(** A statement, through the monad of the handlers. *)
Lemma kept_query (J : RefundTables -> Prop) {A} (q : statement RefundTables A) :
  (forall now t a t', J t -> q now t = Ok (a, t') -> J t') -> kept J (query (sql q)).
Proof. intros Hq. by apply stable_map_err, kept_sql. Qed.

Lemma kept_query_select (J : RefundTables -> Prop) {A} (f : Z -> RefundTables -> A) : kept J (query (select f)).
Proof. apply stable_map_err, kept_select. Qed.

Lemma kept_answering (J : RefundTables -> Prop) {A} (ok : A -> answer) (m : Refunds A) :
  kept J m -> kept J (answering ok m).
Proof. intros Hm w Hw. specialize (Hm w Hw). unfold answering. by destruct (m w) as [[a | e] w']. Qed.

(** What changes the table: a row is added, or a pending one is reviewed. *)
Section changes.
Variable uuid : nat -> string.
Variable sha256_hex : string -> string.
Variable J : RefundTables -> Prop.
Hypothesis Jinsert : forall i req now t,
  existsb (fun r => String.eqb (rf_id r) i) (rt_refunds t) = false -> J t ->
  J (with_refunds (rt_refunds t ++ [new_refund i req now]) t).
Hypothesis Jreview : forall i reviewer req now t a t',
  J t -> String.eqb (rv_action req) "approved" = true /\ is_Some (rv_refund_tx_hash req) \/
         String.eqb (rv_action req) "approved" = false ->
  review_statement i (if String.eqb (rv_action req) "approved" then "completed" else "rejected") reviewer
    (rv_refund_tx_hash req) now t = Ok (a, t') -> J t'.

Lemma insert_refund_kept req : kept J (insert_refund uuid req).
Proof.
  apply stable_bind; [apply kept_fresh | intros i]. apply kept_query. intros now t a t' Ht.
  destruct (existsb _ (rt_refunds t)) eqn:Hid; [done|]. destruct (existsb (String.eqb (rc_tip_id req)) (rt_tips t)); [|done]. intros [= _ <-]. auto.
Qed.

Lemma refund_checks_kept req : kept J (refund_checks req).
Proof.
  apply stable_bind; [apply kept_query_select | intros b]. destruct (negb b); [apply stable_throw|].
  apply stable_bind; [apply kept_query_select | intros []]; [apply stable_throw | apply stable_ret].
Qed.

Lemma review_refund_kept i reviewer req : kept J (review_refund i reviewer req).
Proof.
  unfold review_refund. destruct (negb _ && negb _); [apply stable_throw|].
  destruct (String.eqb (rv_action req) "approved" && _) eqn:Hno; [apply stable_throw|].
  apply kept_query. intros now t a t' Ht. apply Jreview; [done|].
  destruct (String.eqb (rv_action req) "approved"); [left; split; [done|] | by right].
  destruct (rv_refund_tx_hash req); [by eexists | done].
Qed.

Lemma review_refund_handler_kept key i body : kept J (review_refund_handler sha256_hex key i body).
Proof.
  apply stable_bind; [unfold resolve_admin; destruct (option_map _ _); [|apply stable_ret] |
    intros reviewer; apply kept_answering, review_refund_kept].
  apply stable_bind; [apply stable_attempt, kept_query_select | intros; apply stable_ret].
Qed.

Lemma refund_exec_kept o w : J (db_tables w) -> J (db_tables (refund_exec uuid sha256_hex o w)).
Proof.
  intros Hw. destruct o as [body | body | key i body]; simpl.
  - apply (kept_answering J _ (create_refund uuid body)); [|done].
    apply stable_bind; [apply refund_checks_kept | intros; apply insert_refund_kept].
  - by apply insert_refund_kept.
  - by apply review_refund_handler_kept.
Qed.
End changes.

Lemma pending_refund_true i r : pending_refund i r = true -> rf_id r = i /\ rf_status r = "pending".
Proof. unfold pending_refund. intros [H1 H2]%andb_true_iff. by apply String.eqb_eq in H1, H2. Qed.

Lemma insert_sound i req now t :
  existsb (fun r => String.eqb (rf_id r) i) (rt_refunds t) = false -> SoundRefunds t ->
  SoundRefunds (with_refunds (rt_refunds t ++ [new_refund i req now]) t).
Proof.
  intros Hid [H1 H2 H3]. split; simpl.
  - rewrite fmap_app. apply NoDup_app. split; [done|]. split; [|apply NoDup_singleton].
    intros k (r & -> & Hr)%list_elem_of_fmap. cbn. rewrite list_elem_of_singleton. intros Heq.
    apply existsb_false_iff with (x := r) in Hid; [|done]. by rewrite Heq, String.eqb_refl in Hid.
  - intros r [Hr | ->%list_elem_of_singleton]%elem_of_app; [auto | by left].
  - intros r r' h [Hr | ->%list_elem_of_singleton]%elem_of_app [Hr' | ->%list_elem_of_singleton]%elem_of_app;
      simpl; [eauto | done..].
Qed.

Lemma review_sound i reviewer req now t a t' :
  SoundRefunds t -> String.eqb (rv_action req) "approved" = true /\ is_Some (rv_refund_tx_hash req) \/
    String.eqb (rv_action req) "approved" = false ->
  review_statement i (if String.eqb (rv_action req) "approved" then "completed" else "rejected") reviewer
    (rv_refund_tx_hash req) now t = Ok (a, t') -> SoundRefunds t'.
Proof.
  intros Ht Hreq. unfold review_statement.
  set (status := if String.eqb (rv_action req) "approved" then _ else _) in *.
  set (f := review_row status reviewer (rv_refund_tx_hash req) now).
  destruct (updated _ f _) as [|x l] eqn:Hup; [by intros [= _ <-]|].
  destruct (match rv_refund_tx_hash req with Some h => _ | None => false end) eqn:Hdup; [done|]. intros [= _ <-].
  destruct Ht as [H1 H2 H3].
  assert (forall r, r ∈ rt_refunds t -> pending_refund i r = true -> rf_refund_tx_hash r = None) as Hnone.
  { intros r Hr [_ Hp]%pending_refund_true. destruct (H2 r Hr) as [(_ & H & _) | [(H & _) | (H & _)]]; congruence. }
  assert (forall r, r ∈ rt_refunds t -> pending_refund i r = true -> rf_refund_tx_hash (f r) = rv_refund_tx_hash req) as Hf.
  { intros r Hr Hp. simpl. rewrite (Hnone r Hr Hp). by destruct (rv_refund_tx_hash req). }
  split; simpl.
  - rewrite update_where_fmap by done. done.
  - intros r [[Hr _] | (y & Hy & Hp & ->)]%elem_of_update_where; [auto|]. right. rewrite (Hf y Hy Hp).
    unfold f, status. simpl. destruct Hreq as [[Ha Hh] | Ha]; rewrite Ha; [left | right]; repeat split; try done; by eexists.
  - assert (forall r h, r ∈ rt_refunds t -> pending_refund i r = false -> rv_refund_tx_hash req = Some h ->
      rf_refund_tx_hash r = Some h -> False) as Hother.
    { intros r h Hr Hp Hh Hr'. rewrite Hh in Hdup. apply existsb_false_iff with (x := r) in Hdup; [|done].
      unfold has_hash in Hdup. by rewrite Hp, Hr', String.eqb_refl in Hdup. }
    intros r r' h [[Hr Hp] | (y & Hy & Hp & ->)]%elem_of_update_where [[Hr' Hp'] | (y' & Hy' & Hp' & ->)]%elem_of_update_where.
    + eauto.
    + rewrite (Hf y' Hy' Hp'). intros Ha Hb. destruct (Hother r h Hr Hp Hb Ha).
    + rewrite (Hf y Hy Hp). intros Ha Hb. destruct (Hother r' h Hr' Hp' Ha Hb).
    + intros _ _. f_equal. apply pending_refund_true in Hp as [Hi _], Hp' as [Hi' _].
      eapply nodup_key_inj; [exact H1 | done | done | congruence].
Qed.

Definition refund_world (tips : list string) (admins : list (string * string)) : Db RefundTables :=
  {| db_tables := {| rt_tips := tips; rt_admins := admins; rt_refunds := [] |}; db_now := 0; db_utc := 0;
     db_uuids := 0; db_faults := [] |}.

Definition refunds_after uuid sha256_hex tips admins (l : list (happening refund_op)) : list TipRefund :=
  rt_refunds (db_tables (play (refund_exec uuid sha256_hex) l (refund_world tips admins))).

(** C35: In every history and under any database faults a refund is reviewed
    once: from then on its row never changes.  A completed refund has the hash
    of its transaction and no other refund has the same; no refund is ever
    "approved". *)
Theorem refund_settles_once uuid sha256_hex tips admins l1 l2 r :
  r ∈ refunds_after uuid sha256_hex tips admins l1 ->
  (rf_status r <> "pending" -> r ∈ refunds_after uuid sha256_hex tips admins (l1 ++ l2)) /\
  (rf_status r = "completed" -> is_Some (rf_refund_tx_hash r) /\ is_Some (rf_reviewed_by r)) /\
  rf_status r <> "approved" /\
  (forall r' h, r' ∈ refunds_after uuid sha256_hex tips admins l1 ->
     rf_refund_tx_hash r = Some h -> rf_refund_tx_hash r' = Some h -> r' = r).
Proof.
  unfold refunds_after. intros Hr.
  assert (SoundRefunds (db_tables (play (refund_exec uuid sha256_hex) l1 (refund_world tips admins)))) as Ht.
  { apply play_kept.
    - intros o w. apply refund_exec_kept; [apply insert_sound | apply review_sound].
    - split; simpl; try constructor; set_solver. }
  split_and!.
  - intros Hst. rewrite play_app. revert Hr. apply (play_kept (fun t => r ∈ rt_refunds t)). intros o w.
    apply (refund_exec_kept uuid sha256_hex (fun t => r ∈ rt_refunds t)).
    + intros i req now t _ Hin. simpl. set_solver.
    + intros i reviewer req now t a t' Hin _. unfold review_statement. destruct (updated _ _ _); [by intros [= _ <-]|].
      destruct (match rv_refund_tx_hash req with Some h => _ | None => false end); [done|]. intros [= _ <-]. simpl.
      apply elem_of_update_where. left. split; [done|]. unfold pending_refund.
      destruct (String.eqb_spec (rf_status r) "pending"); [done | by rewrite andb_false_r].
  - intros Hst. destruct (sr_status _ Ht r Hr) as [(Hs & _) | [(_ & Hh) | (Hs & _)]]; [congruence | done | congruence].
  - intros Hst. destruct (sr_status _ Ht r Hr) as [(Hs & _) | [(Hs & _) | (Hs & _)]]; congruence.
  - intros r' h Hr' Hh Hh'. by apply (sr_hashes _ Ht r' r h).
Qed.

(** One pending refund per tip. *)
Definition one_pending (t : RefundTables) : Prop :=
  forall r r', r ∈ rt_refunds t -> r' ∈ rt_refunds t -> rf_status r = "pending" -> rf_status r' = "pending" ->
  rf_tip_id r = rf_tip_id r' -> r = r'.

Lemma query_ok {A} (m : Sql RefundTables A) w a w' : query m w = (Ok a, w') -> m w = (Ok a, w').
Proof. unfold query, map_err. destruct (m w) as [[b | e] w1]; [by intros [= -> ->] | done]. Qed.

Lemma refund_checks_ok req w w' :
  refund_checks req w = (Ok tt, w') -> db_tables w' = db_tables w /\
  forall r, r ∈ rt_refunds (db_tables w) -> rf_tip_id r = rc_tip_id req -> rf_status r <> "pending".
Proof.
  intros (b & w1 & (-> & Ht1 & _)%query_ok%select_ok & Hrun)%bind_answers.
  destruct (negb _); [done|]. apply bind_answers in Hrun as (c & w2 & (-> & Ht2 & _)%query_ok%select_ok & Hrun).
  destruct (existsb _ (rt_refunds (db_tables w1))) eqn:Hno; [done|]. injection Hrun as <-.
  split; [congruence|]. intros r Hr Htip Hst. rewrite Ht1 in Hno.
  apply existsb_false_iff with (x := r) in Hno; [|done]. by rewrite Htip, Hst, !String.eqb_refl in Hno.
Qed.

Lemma insert_refund_cases uuid req w :
  db_tables (snd (insert_refund uuid req w)) = db_tables w \/
  exists i now, db_tables (snd (insert_refund uuid req w)) =
    with_refunds (rt_refunds (db_tables w) ++ [new_refund i req now]) (db_tables w).
Proof.
  unfold insert_refund. bind_step. simpl. unfold query, map_err. destruct (sql _ _) as [r w1] eqn:Hs.
  apply sql_outcome in Hs as (_ & _ & _ & Hs). simpl in Hs.
  assert (db_tables w1 = db_tables w \/ exists i now, db_tables w1 =
    with_refunds (rt_refunds (db_tables w) ++ [new_refund i req now]) (db_tables w)) as H; [|by destruct r].
  destruct r as [a | e]; [|destruct Hs as [Hs | [a Hs]]]; [|by left|];
    destruct (existsb _ (rt_refunds (db_tables w))); try done;
    destruct (existsb (String.eqb (rc_tip_id req)) (rt_tips (db_tables w))); try done; injection Hs as _ Hs; right; eauto.
Qed.

(** When no creation is cut in two, a tip has one pending refund at most. *)
Theorem one_pending_refund uuid sha256_hex tips admins l r r' :
  (forall body, Does (InsertRefund body) ∉ l) ->
  r ∈ refunds_after uuid sha256_hex tips admins l -> r' ∈ refunds_after uuid sha256_hex tips admins l ->
  rf_status r = "pending" -> rf_status r' = "pending" -> rf_tip_id r = rf_tip_id r' -> r = r'.
Proof.
  intros Hno. apply (play_kept_in one_pending); [|by intros x x' Hx%elem_of_nil].
  intros o w Ho Hw. destruct o as [body | body | key i body]; [| by apply Hno in Ho |].
  - simpl. unfold create_refund_handler, answering, create_refund. bind_step.
    destruct (refund_checks body w) as [[[] | e] w1] eqn:Hc.
    + apply refund_checks_ok in Hc as [Ht Hfree].
      assert (one_pending (db_tables (snd (insert_refund uuid body w1)))) as H; [|by destruct (insert_refund uuid body w1) as [[]]].
      destruct (insert_refund_cases uuid body w1) as [-> | (i & now & ->)]; rewrite Ht; [done|].
      intros x x'. simpl.
      intros [Hx | ->%list_elem_of_singleton]%elem_of_app [Hx' | ->%list_elem_of_singleton]%elem_of_app; simpl.
      * by apply Hw.
      * intros Hst _ Htip. by destruct (Hfree x Hx Htip).
      * intros _ Hst Htip. by destruct (Hfree x' Hx' (eq_sym Htip)).
      * done.
    + pose proof (refund_checks_kept one_pending body w Hw) as H. by rewrite Hc in H.
  - simpl. apply (review_refund_handler_kept sha256_hex one_pending); [|done].
    intros j reviewer req now t a t' Ht _. unfold review_statement. set (status := if _ : bool then _ else _).
    assert (status <> "pending") as Hst by (subst status; by destruct (String.eqb _ _)). clearbody status.
    destruct (updated _ _ _); [by intros [= _ <-]|].
    destruct (match rv_refund_tx_hash req with Some h => _ | None => false end); [done|]. intros [= _ <-].
    intros x x'. simpl.
    intros [[Hx _] | (y & Hy & _ & ->)]%elem_of_update_where [[Hx' _] | (y' & Hy' & _ & ->)]%elem_of_update_where;
      [by apply Ht | by simpl; intros _ ? | by simpl; intros ? | by simpl; intros ?].
Qed.

Definition hashed (s : string) : string := s.

Definition ask (tip : string) : CreateRefundRequest := {| rc_tip_id := tip; rc_reason := "mistake" |}.

Definition approve (h : string) : ReviewRefundRequest := {| rv_action := "approved"; rv_refund_tx_hash := Some h |}.

Definition refunds_of (l : list (happening refund_op)) : list (string * string * option string) :=
  map (fun r => (rf_tip_id r, rf_status r, rf_refund_tx_hash r)) (refunds_after tally hashed ["t1"; "t2"] [("k", "root")] l).

(** A refunded tip is refunded again: only pending requests stand in the way. *)
Example refunded_twice :
  refunds_of [Does (CreateRefund (ask "t1")); Does (ReviewRefund (Some "k") (tally 0) (approve "aa"));
              Does (CreateRefund (ask "t1")); Does (ReviewRefund (Some "k") (tally 1) (approve "bb"))] =
    [("t1", "completed", Some "aa"); ("t1", "completed", Some "bb")].
Proof. vm_compute. done. Qed.

(** Two requests whose checks both passed before either row was there. *)
Example pending_twice :
  let w := refund_world ["t1"; "t2"] [("k", "root")] in
  fst (refund_checks (ask "t1") w) = Ok tt /\
  refunds_of [Does (InsertRefund (ask "t1")); Does (InsertRefund (ask "t1"))] =
    [("t1", "pending", None); ("t1", "pending", None)].
Proof. vm_compute. done. Qed.

(** One transaction cannot pay two refunds: the second review fails. *)
Example hash_used_once :
  refunds_of [Does (CreateRefund (ask "t1")); Does (CreateRefund (ask "t2"));
              Does (ReviewRefund (Some "k") (tally 0) (approve "aa"));
              Does (ReviewRefund (Some "k") (tally 1) (approve "aa"))] =
    [("t1", "completed", Some "aa"); ("t2", "pending", None)].
Proof. vm_compute. done. Qed.

Definition reviewed : list (happening refund_op) :=
  [Does (CreateRefund (ask "t1")); Does (ReviewRefund (Some "k") (tally 0) (approve "aa"))].

Definition paid_back : TipRefund :=
  {| rf_id := tally 0; rf_tip_id := "t1"; rf_reason := "mistake"; rf_status := "completed";
     rf_refund_tx_hash := Some "aa"; rf_reviewed_by := Some "root"; rf_reviewed_at := Some 0; rf_created_at := 0;
     rf_updated_at := 0 |}.

Lemma refund_settles_once_witness :
  paid_back ∈ refunds_after tally hashed ["t1"; "t2"] [("k", "root")] reviewed /\
  paid_back ∈ refunds_after tally hashed ["t1"; "t2"] [("k", "root")]
    (reviewed ++ [Does (ReviewRefund (Some "k") (tally 0) (approve "bb"))]).
Proof.
  assert (paid_back ∈ refunds_after tally hashed ["t1"; "t2"] [("k", "root")] reviewed) as Hin by (vm_compute; left).
  split; [exact Hin|].
  apply (refund_settles_once tally hashed ["t1"; "t2"] [("k", "root")] reviewed
    [Does (ReviewRefund (Some "k") (tally 0) (approve "bb"))] paid_back Hin).
  intros Heq. discriminate Heq.
Defined.
