(* ===== verification/Accounts.v ===== *)
(** * Accounts: passwords and second factors

    The handlers of src/src/routes/auth.rs that read the account of a creator:
    login, the change of password, the enrolment of a TOTP secret and its
    removal, backup codes and the recovery with one; with the functions of
    src/src/services/auth_service.rs they use.  Sessions and tokens are those of
    file Auth.

    The columns of an account are encrypted texts (file Crypto): a row decodes
    when all of them decrypt.  bcrypt, base32, the TOTP function and what is
    drawn at random are parameters. *)

From S2P Require Import Prelude Text Codec Errors Redis Auth Crypto.

(** An account: the row of a creator with its columns decrypted.

    src/src/models/creator.rs:16-33 Creator, the columns of the account *)
Record Account : Type := {
  us_password_hash : string;
  us_totp_secret : option string;
  us_totp_enabled : bool;
  us_backup_code_hashes : list string
}.

Definition set_password (hash : string) (c : Creator) : Creator :=
  {| cr_password_hash := hash; cr_totp_secret := cr_totp_secret c; cr_totp_enabled := cr_totp_enabled c;
     cr_backup_code_hashes := cr_backup_code_hashes c |}.

Definition set_totp (secret : option string) (enabled : bool) (c : Creator) : Creator :=
  {| cr_password_hash := cr_password_hash c; cr_totp_secret := secret; cr_totp_enabled := enabled;
     cr_backup_code_hashes := cr_backup_code_hashes c |}.

Definition set_codes (hashes : list string) (c : Creator) : Creator :=
  {| cr_password_hash := cr_password_hash c; cr_totp_secret := cr_totp_secret c; cr_totp_enabled := cr_totp_enabled c;
     cr_backup_code_hashes := hashes |}.

(** What the handlers use that is not of this program: the environment, the
    random draws (the [n]-th uuid, nonce, secret and backup code), the crates
    for JWT, bcrypt, base32, TOTP, AES-GCM and base64; and the global encryption
    manager, which is loaded at start. *)
Class Platform : Type := {
  server_env : environment;
  draw_uuid : nat -> string;
  draw_nonce : nat -> string;
  draw_secret : nat -> string;
  draw_code : nat -> string;
  jwt_encode : string -> string -> Claims -> option string;
  bcrypt_hash : string -> option string;
  bcrypt_verify : string -> string -> option bool;
  base32_encode : string -> string;
  base32_decode : string -> option string;
  totp_custom : Z -> string -> string;
  aes_encrypt : string -> string -> string -> option string;
  aes_decrypt : string -> string -> string -> option string;
  b64_encode : string -> string;
  b64_decode : string -> option string;
  manager : option EncryptionKeyManager
}.

(** What was encrypted is read back; file Crypto shows when. *)
Class ReadsBack `{Platform} : Prop :=
  reads_back : forall n s v, valid_utf8 s = true ->
    encode_column aes_encrypt b64_encode (draw_nonce n) s manager = Some v ->
    decode_column aes_decrypt b64_decode v manager = Some s.

Section accounts.
Context {St : Type} `{RedisLaws string St} {platform : Platform}.

Implicit Types w : AuthWorld (St := St).

(** ** Reading and writing accounts *)

Definition decrypt (raw : string) : option string := decode_column aes_decrypt b64_decode raw manager.

Definition decode_creator (c : Creator) : option Account :=
  password_hash ← decrypt (cr_password_hash c);
  totp_secret ← match cr_totp_secret c with None => Some None | Some s => Some <$> decrypt s end;
  backup_code_hashes ← mapM decrypt (cr_backup_code_hashes c);
  Some {| us_password_hash := password_hash; us_totp_secret := totp_secret; us_totp_enabled := cr_totp_enabled c;
          us_backup_code_hashes := backup_code_hashes |}.

(** [SELECT .. FROM creators WHERE username = $1] with [fetch_optional]: a row that does not decode is an error *)
Definition select_creator (username : string) : Auth (St := St) (option Account) :=
  row ← sql_creators (fun t => (t !! username, t));
  match row with
  | None => mret None
  | Some c => match decode_creator c with Some a => mret (Some a) | None => throw query_failed end
  end.

(** The same with [fetch_one]: no row is an error too *)
Definition select_one_creator (username : string) : Auth (St := St) Account :=
  row ← select_creator username;
  expect query_failed row.

(** [UPDATE creators SET .. WHERE username = $1] *)
Definition update_creator (username : string) (f : Creator -> Creator) : Auth (St := St) unit :=
  sql_creators (fun t => (tt, alter f username t)).

(** A number for what is drawn. *)
Definition fresh_draw : Auth (St := St) nat := fun w =>
  (Ok (aw_uuids w),
   {| aw_families := aw_families w; aw_redis := aw_redis w; aw_creators := aw_creators w;
      aw_now := aw_now w; aw_uuids := S (aw_uuids w); aw_faults := aw_faults w |}).

(** Binding an [EncryptedString]: a failure to encrypt fails the statement before it is sent. *)
Definition encrypt (s : string) : Auth (St := St) string :=
  n ← fresh_draw;
  expect query_failed (encode_column aes_encrypt b64_encode (draw_nonce n) s manager).

Fixpoint encrypt_all (l : list string) : Auth (St := St) (list string) :=
  match l with
  | [] => mret []
  | s :: l =>
      v ← encrypt s;
      vs ← encrypt_all l;
      mret (v :: vs)
  end.

(** [UPDATE creators SET backup_code_hashes = $1 WHERE username = $2] *)
Definition store_codes (username : string) (hashes : list string) : Auth (St := St) unit :=
  encrypted ← encrypt_all hashes;
  update_creator username (set_codes encrypted).

(** ** services/auth_service.rs *)

(** src/src/services/auth_service.rs:253-258 hash_password *)
Definition hash_password (password : string) : result string failure :=
  ok_or (EApp Internal) (bcrypt_hash password).

(** src/src/services/auth_service.rs:261-266 verify_password *)
Definition verify_password (password hash : string) : result bool failure :=
  ok_or (EApp Internal) (bcrypt_verify password hash).

(** src/src/services/auth_service.rs:269-273 generate_totp_secret *)
Definition generate_totp_secret : Auth (St := St) string :=
  n ← fresh_draw;
  mret (base32_encode (draw_secret n)).

Definition i64_saturating_add (a b : Z) : Z := Z.max i64_min (Z.min i64_max (a + b)).

(** src/src/services/auth_service.rs:285-285 the time step at an offset *)
Definition totp_step (now offset : Z) : Z := Z.max (i64_saturating_add now (offset * 30)) 0 / 30.

(** src/src/services/auth_service.rs:276-293 validate_totp_code *)
Definition validate_totp_code (secret code : string) : Auth (St := St) bool :=
  secret_bytes ← expect (EApp (Unauthorized "Invalid two-factor secret")) (base32_decode secret);
  now ← utc_now;
  mret (existsb (fun offset => String.eqb code (totp_custom (totp_step now offset) secret_bytes)) [-1; 0; 1]).

Fixpoint draw_codes (n : nat) : Auth (St := St) (list string) :=
  match n with
  | O => mret []
  | S n =>
      i ← fresh_draw;
      l ← draw_codes n;
      mret (draw_code i :: l)
  end.

(** src/src/services/auth_service.rs:296-307 generate_backup_codes *)
Definition generate_backup_codes : Auth (St := St) (list string) := draw_codes 8.

(** src/src/services/auth_service.rs:310-315 hash_backup_code *)
Definition hash_backup_code (code : string) : result string failure := ok_or (EApp Internal) (bcrypt_hash code).

Fixpoint hash_backup_codes (l : list string) : result (list string) failure :=
  match l with
  | [] => Ok []
  | c :: l =>
      match hash_backup_code c, hash_backup_codes l with
      | Ok h, Ok hs => Ok (h :: hs)
      | Err e, _ | _, Err e => Err e
      end
  end.

(** src/src/services/auth_service.rs:322-330 verify_backup_code, from an index on *)
Fixpoint verify_backup_code_from (idx : nat) (code : string) (hashes : list string) : result (option nat) failure :=
  match hashes with
  | [] => Ok None
  | h :: hashes' =>
      match bcrypt_verify code h with
      | None => Err (EApp Internal)
      | Some true => Ok (Some idx)
      | Some false => verify_backup_code_from (S idx) code hashes'
      end
  end.

(** src/src/services/auth_service.rs:318-331 verify_backup_code *)
Definition verify_backup_code (code : string) (hashes : list string) : result (option nat) failure :=
  verify_backup_code_from 0 code hashes.

(** ** routes/auth.rs *)

(** src/src/routes/auth.rs:199-203 the TOTP code of a login *)
Definition totp_valid (creator : Account) (totp_code : option string) : Auth (St := St) bool :=
  match totp_code, us_totp_secret creator with
  | Some code, Some secret => validate_totp_code secret code
  | _, _ => mret false
  end.

(** src/src/routes/auth.rs:206-224 the backup code of a login, which is removed when it is used *)
Definition backup_code_valid (username : string) (creator : Account) (backup_code : option string)
    : Auth (St := St) bool :=
  match backup_code with
  | None => mret false
  | Some code =>
      found ← lift (verify_backup_code code (us_backup_code_hashes creator));
      match found with
      | None => mret false
      | Some idx =>
          _ ← store_codes username (delete idx (us_backup_code_hashes creator));
          mret true
      end
  end.

(** src/src/routes/auth.rs:196-231 the two-factor part of login *)
Definition second_factor (username : string) (creator : Account) (totp_code backup_code : option string)
    : Auth (St := St) unit :=
  if us_totp_enabled creator then
    ok ← totp_valid creator totp_code;
    ok ← (if ok : bool then mret true else backup_code_valid username creator backup_code);
    if ok : bool then mret tt else fail_with (Unauthorized "Two-factor code or backup code is required")
  else mret tt.

(** src/src/routes/auth.rs:169-240 login *)
Definition login (user_agent ip : option string) (username password : string) (totp_code backup_code : option string)
    : Auth (St := St) IssuedTokens :=
  row ← select_creator username;
  creator ← expect (EApp (Unauthorized "Invalid credentials")) row;
  valid ← lift (verify_password password (us_password_hash creator));
  if negb valid then fail_with (Unauthorized "Invalid credentials")
  else
    _ ← second_factor username creator totp_code backup_code;
    issue_new_session server_env draw_uuid jwt_encode user_agent ip username "creator".

(** The new hash is bound as a plain text.

    src/src/routes/auth.rs:366-397 change_password *)
Definition change_password (claims : Claims) (old_password new_password : string) : Auth (St := St) unit :=
  creator ← select_one_creator (sub claims);
  valid ← lift (verify_password old_password (us_password_hash creator));
  if negb valid then fail_with (Unauthorized "Invalid current password")
  else
    new_hash ← lift (hash_password new_password);
    _ ← update_creator (sub claims) (set_password new_hash);
    _ ← bump_epoch (sub claims);
    _ ← revoke_all_for_user (sub claims) "password_change";
    mret tt.

(** src/src/routes/auth.rs:407-418 list_sessions *)
Definition list_sessions (claims : Claims) : Auth (St := St) (list TokenFamily) := list_active_for_user (sub claims).

Definition already_enabled : AppError :=
  Conflict "TWO_FACTOR_ALREADY_ENABLED" "Two-factor authentication is already enabled".

Definition not_enabled : AppError := Conflict "TWO_FACTOR_NOT_ENABLED" "Two-factor authentication is not enabled".

(** src/src/routes/auth.rs:517-520 the URL of the response *)
Definition otpauth_url (username secret : string) : string :=
  "otpauth://totp/StellarTipJar:" +:+ username +:+ "?secret=" +:+ secret +:+ "&issuer=StellarTipJar&digits=6&period=30".

(** The UPDATE reads its row back.

    src/src/routes/auth.rs:476-530 totp_enroll *)
Definition totp_enroll (claims : Claims) : Auth (St := St) (string * string) :=
  creator ← select_one_creator (sub claims);
  if us_totp_enabled creator then fail_with already_enabled
  else
    secret ← generate_totp_secret;
    v ← encrypt secret;
    row ← sql_creators (fun t =>
      let t' := alter (fun c => set_totp (Some v) (cr_totp_enabled c) c) (sub claims) t in (t' !! sub claims, t'));
    _ ← expect query_failed (c ← row; decode_creator c);
    mret (secret, otpauth_url (sub claims) secret).

(** src/src/routes/auth.rs:575-598 the new codes, stored by the statement that [f] completes *)
Definition new_codes (username : string) (f : list string -> Creator -> Creator) : Auth (St := St) (list string) :=
  backup_codes ← generate_backup_codes;
  backup_hashes ← lift (hash_backup_codes backup_codes);
  encrypted ← encrypt_all backup_hashes;
  _ ← update_creator username (f encrypted);
  mret backup_codes.

(** src/src/routes/auth.rs:543-605 totp_verify *)
Definition totp_verify (claims : Claims) (totp_code : string) : Auth (St := St) (list string) :=
  creator ← select_one_creator (sub claims);
  if us_totp_enabled creator then fail_with already_enabled
  else
    secret ← expect (EApp (Unauthorized "Two-factor setup has not been initiated")) (us_totp_secret creator);
    ok ← validate_totp_code secret totp_code;
    if negb ok then fail_with (Unauthorized "Invalid two-factor code")
    else new_codes (sub claims) (fun hashes c => set_codes hashes (set_totp (cr_totp_secret c) true c)).

(** src/src/routes/auth.rs:618-669 totp_disable *)
Definition totp_disable (claims : Claims) (password : string) : Auth (St := St) unit :=
  creator ← select_one_creator (sub claims);
  if negb (us_totp_enabled creator) then fail_with not_enabled
  else
    valid ← lift (verify_password password (us_password_hash creator));
    if negb valid then fail_with (Unauthorized "Invalid password")
    else update_creator (sub claims) (fun c => set_codes [] (set_totp None false c)).

(** src/src/routes/auth.rs:681-730 regenerate_backup_codes *)
Definition regenerate_backup_codes (claims : Claims) : Auth (St := St) (list string) :=
  creator ← select_one_creator (sub claims);
  if negb (us_totp_enabled creator) then fail_with not_enabled
  else new_codes (sub claims) set_codes.

(** src/src/routes/auth.rs:747-783 recover up to the consumption of the code: the codes that remain *)
Definition recover_checks (username password backup_code : string) : Auth (St := St) (list string) :=
  row ← select_creator username;
  creator ← expect (EApp (Unauthorized "Invalid credentials")) row;
  valid ← lift (verify_password password (us_password_hash creator));
  if negb valid then fail_with (Unauthorized "Invalid credentials")
  else if negb (us_totp_enabled creator) then
    fail_with (Unauthorized "Two-factor authentication is not enabled for this account")
  else
    backup_index ← lift (verify_backup_code backup_code (us_backup_code_hashes creator));
    idx ← expect (EApp (Unauthorized "Invalid backup code")) backup_index;
    mret (delete idx (us_backup_code_hashes creator)).

(** src/src/routes/auth.rs:784-796 recover from the consumption of the code on *)
Definition recover_consumes (user_agent ip : option string) (username : string) (remaining_codes : list string)
    : Auth (St := St) IssuedTokens :=
  _ ← store_codes username remaining_codes;
  issue_new_session server_env draw_uuid jwt_encode user_agent ip username "creator".

(** src/src/routes/auth.rs:742-797 recover *)
Definition recover (user_agent ip : option string) (username password backup_code : string)
    : Auth (St := St) IssuedTokens :=
  remaining_codes ← recover_checks username password backup_code;
  recover_consumes user_agent ip username remaining_codes.

(** ** What the calls do to the accounts *)

Lemma creators_cases {A} (q : gmap string Creator -> A * gmap string Creator) w r w' :
  sql_creators q w = (r, w') ->
  aw_now w' = aw_now w /\
  ((r = Ok (fst (q (aw_creators w))) /\ aw_creators w' = snd (q (aw_creators w))) \/
   (r = Err query_failed /\ (aw_creators w' = snd (q (aw_creators w)) \/ aw_creators w' = aw_creators w))).
Proof.
  unfold sql_creators, remote. simpl. destruct (q (aw_creators w)) as [a t] eqn:Hq.
  destruct (pop_fault (aw_faults w)) as [[] l]; simpl; rewrite ?Hq; simpl; intros [= <- <-]; simpl; naive_solver.
Qed.

(** Where the accounts are concerned, the calls on families, Redis and ids change nothing. *)
Section kept.
Variable P : gmap string Creator -> Prop.

Abbreviation kept m := (stable (fun w => P (aw_creators w)) m).

Lemma kept_families {A} (q : Z -> families -> A * families) : kept (sql q).
Proof.
  apply stable_remote; intros w Hw; unfold next_fault; simpl; [by destruct (pop_fault _)|].
  by destruct (q (aw_now w) (aw_families w)).
Qed.

Lemma kept_redis {A} (q : Z -> St -> A * St) : kept (redis q).
Proof.
  intros w Hw. unfold redis. destruct (aw_redis w); [|done]. unfold next_fault. simpl.
  destruct (pop_fault (aw_faults w)) as [[] l]; simpl; by destruct (q _ _).
Qed.

Lemma kept_uuid : kept (new_uuid draw_uuid).
Proof. by intros w Hw. Qed.

Lemma kept_draw : kept fresh_draw.
Proof. by intros w Hw. Qed.

Lemma kept_creators {A} (q : gmap string Creator -> A * gmap string Creator) :
  (forall t, P t -> P (snd (q t))) -> kept (sql_creators q).
Proof.
  intros Hq w Hw. destruct (sql_creators q w) as [r w'] eqn:Hs. apply creators_cases in Hs as (_ & Hc). simpl.
  destruct Hc as [[_ ->] | [_ [-> | ->]]]; auto.
Qed.
End kept.

Hint Resolve kept_families kept_redis kept_uuid kept_draw : stable.

Abbreviation kept P m := (stable (fun w => P (aw_creators w)) m).

Ltac keeps := repeat (intros; first
  [ apply stable_ret | apply stable_throw | apply stable_lift | apply stable_gets | apply kept_families | apply kept_redis
  | apply kept_uuid | apply kept_draw | apply stable_bind; [|intros] | case_match ]).

Lemma kept_issue P user_agent ip username role : kept P (issue_new_session server_env draw_uuid jwt_encode user_agent ip username role).
Proof. unfold issue_new_session, current_epoch, issue_tokens, create_family, utc_now. keeps. Qed.

Lemma kept_revoke_sessions P username reason :
  kept P (_ ← bump_epoch username; _ ← revoke_all_for_user username reason; mret tt).
Proof. unfold bump_epoch, revoke_all_for_user. keeps. Qed.

Lemma kept_encrypt P s : kept P (encrypt s).
Proof. unfold encrypt. keeps. Qed.

Lemma kept_encrypt_all P l : kept P (encrypt_all l).
Proof.
  induction l as [|s l IH]; [apply stable_ret|]. simpl. apply stable_bind; [apply kept_encrypt|]. intros v.
  apply stable_bind; [apply IH|]. intros vs. apply stable_ret.
Qed.

Lemma kept_account P username : kept P (select_creator username).
Proof. unfold select_creator. apply stable_bind; [by apply kept_creators|]. keeps. Qed.

Lemma kept_one_account P username : kept P (select_one_creator username).
Proof. unfold select_one_creator. apply stable_bind; [apply kept_account|]. keeps. Qed.

Lemma kept_draw_codes P n : kept P (draw_codes n).
Proof. induction n as [|n IH]; [apply stable_ret|]. simpl. keeps. apply IH. Qed.

(** What a selected account is. *)
Lemma select_creator_ok username w o w' :
  select_creator username w = (Ok o, w') ->
  aw_creators w' = aw_creators w /\ aw_now w' = aw_now w /\
  match o with
  | Some a => exists c, aw_creators w !! username = Some c /\ decode_creator c = Some a
  | None => aw_creators w !! username = None
  end.
Proof.
  unfold select_creator. destruct (sql_creators (fun t => (t !! username, t)) w) as [[row | e] w1] eqn:Hs.
  2: { rewrite (bind_err _ _ _ _ _ Hs). done. }
  rewrite (bind_ok _ _ _ _ _ Hs). apply creators_cases in Hs as (Hn & [[[= ->] Ht] | [? _]]); [|done]. simpl in *.
  destruct (aw_creators w !! username) as [c|] eqn:Hc; [|by intros [= <- <-]].
  destruct (decode_creator c) as [a|] eqn:Ha; [|done]. intros [= <- <-]. split_and!; eauto.
Qed.

Lemma select_one_creator_ok username w a w' :
  select_one_creator username w = (Ok a, w') ->
  aw_creators w' = aw_creators w /\ aw_now w' = aw_now w /\
  exists c, aw_creators w !! username = Some c /\ decode_creator c = Some a.
Proof.
  unfold select_one_creator. destruct (select_creator username w) as [[o | e] w1] eqn:Hs;
    [rewrite (bind_ok _ _ _ _ _ Hs) | by rewrite (bind_err _ _ _ _ _ Hs)].
  apply select_creator_ok in Hs as (Ht & Hn & Ho). destruct o; [|done]. by intros [= <- <-].
Qed.

Lemma encrypt_all_ok l w vs w' :
  encrypt_all l w = (Ok vs, w') ->
  aw_creators w' = aw_creators w /\ aw_now w' = aw_now w /\ aw_faults w' = aw_faults w /\
  Forall2 (fun s v => exists n, encode_column aes_encrypt b64_encode (draw_nonce n) s manager = Some v) l vs.
Proof.
  revert w vs. induction l as [|s l IH]; intros w vs; simpl; [by intros [= <- <-]|].
  unfold encrypt, fresh_draw, expect, lift. do 2 bind_step.
  destruct (encode_column _ _ _ s manager) as [v|] eqn:Hv; simpl; [|done]. bind_step.
  destruct (encrypt_all l _) as [[vs' | e] w1] eqn:Hl; [|done]. intros [= <- <-].
  apply IH in Hl as (-> & -> & -> & Hl). simpl. split_and!; try done. constructor; eauto.
Qed.

Lemma store_codes_ok username hashes w w' :
  store_codes username hashes w = (Ok tt, w') ->
  aw_now w' = aw_now w /\
  exists vs, Forall2 (fun s v => exists n, encode_column aes_encrypt b64_encode (draw_nonce n) s manager = Some v) hashes vs /\
    aw_creators w' = alter (set_codes vs) username (aw_creators w).
Proof.
  unfold store_codes. destruct (encrypt_all hashes w) as [[vs | e] w1] eqn:He; [|by rewrite (bind_err _ _ _ _ _ He)].
  rewrite (bind_ok _ _ _ _ _ He). apply encrypt_all_ok in He as (Hc & Hn & _ & Hvs).
  intros (Hn' & [[_ Hu] | [? _]])%creators_cases; [|done]. simpl in Hu. rewrite Hn', Hn, Hu, Hc. eauto.
Qed.

Lemma verify_backup_code_from_spec idx code hashes r :
  verify_backup_code_from idx code hashes = Ok r ->
  match r with
  | Some k => exists j h, k = (idx + j)%nat /\ hashes !! j = Some h /\ bcrypt_verify code h = Some true
  | None => Forall (fun h => bcrypt_verify code h = Some false) hashes
  end.
Proof.
  revert idx. induction hashes as [|h l IH]; intros idx; simpl; [intros [= <-]; constructor|].
  destruct (bcrypt_verify code h) as [[]|] eqn:Hv; [|  |done].
  - intros [= <-]. exists 0%nat, h. by rewrite Nat.add_0_r.
  - intros Hr%IH. destruct r as [k|]; [|by constructor]. destruct Hr as (j & h' & -> & Hj & Hv'). exists (S j), h'.
    split_and!; [lia | done | done].
Qed.

(** A code of a time step around now. *)
Definition totp_code_of (secret : string) (now : Z) (code : string) : Prop :=
  exists bytes offset, base32_decode secret = Some bytes /\ offset ∈ [-1; 0; 1] /\
    code = totp_custom (totp_step now offset) bytes.

Lemma validate_totp_code_ok secret code w w' :
  validate_totp_code secret code w = (Ok true, w') -> w' = w /\ totp_code_of secret (aw_now w) code.
Proof.
  unfold validate_totp_code, expect, lift. bind_step. destruct (base32_decode secret) as [bytes|] eqn:Hb; simpl; [|done].
  bind_step. simpl. intros [= He <-]. split; [done|]. exists bytes.
  rewrite !orb_false_r, !orb_true_iff in He. destruct He as [He | [He | He]]; apply String.eqb_eq in He;
    (eexists; split_and!; [done | | exact He]); set_solver.
Qed.

Lemma decrypt_utf8 raw s : decrypt raw = Some s -> valid_utf8 s = true.
Proof.
  unfold decrypt, decode_column. destruct manager as [m|]; [|done].
  change ((match decrypt_to_string aes_decrypt b64_decode raw m with Ok s => Some s | Err _ => None end) = Some s ->
    valid_utf8 s = true).
  unfold decrypt_to_string. destruct (strip_prefix FORMAT_PREFIX raw) as [r|]; [|done]. cbn -[strip_prefix split_once].
  destruct (strip_prefix ":" r) as [r1|]; [|done]. cbn -[strip_prefix split_once]. destruct (split_once ":" r1) as [[k r2]|]; [|done]. cbn -[strip_prefix split_once].
  destruct (split_once ":" r2) as [[p1 p2]|]; [|done]. cbn -[strip_prefix split_once]. destruct (b64_decode p1) as [n|]; [|done]. cbn -[strip_prefix split_once].
  destruct (b64_decode p2) as [c|]; [|done]. cbn -[strip_prefix split_once]. destruct (km_keys m !! k) as [key|]; [|done]. cbn -[strip_prefix split_once].
  destruct (negb _); [done|]. destruct (aes_decrypt key n c) as [p|]; [|done]. cbn -[strip_prefix split_once].
  destruct (valid_utf8 p) eqn:Hp; [|done]. by intros [= <-].
Qed.

Lemma decoded_codes c a :
  decode_creator c = Some a ->
  Forall2 (fun raw h => decrypt raw = Some h) (cr_backup_code_hashes c) (us_backup_code_hashes a).
Proof.
  unfold decode_creator. destruct (decrypt (cr_password_hash c)) as [p|]; [|done]. simpl.
  destruct (match cr_totp_secret c with None => Some None | Some s => Some <$> decrypt s end) as [t|]; [|done]. simpl.
  destruct (mapM decrypt (cr_backup_code_hashes c)) as [l|] eqn:Hl; [|done]. simpl. intros [= <-]. simpl.
  by apply mapM_Some.
Qed.

Context {law : ReadsBack}.

Lemma decrypt_encrypted_code n s v : valid_utf8 s = true ->
  encode_column aes_encrypt b64_encode (draw_nonce n) s manager = Some v -> decrypt v = Some s.
Proof. apply reads_back. Qed.

(** The account with other codes: what a row holds once they are stored. *)
Definition with_codes (hashes : list string) (a : Account) : Account :=
  {| us_password_hash := us_password_hash a; us_totp_secret := us_totp_secret a; us_totp_enabled := us_totp_enabled a;
     us_backup_code_hashes := hashes |}.

Lemma stored_codes c a hashes vs :
  decode_creator c = Some a -> Forall (fun h => valid_utf8 h = true) hashes ->
  Forall2 (fun s v => exists n, encode_column aes_encrypt b64_encode (draw_nonce n) s manager = Some v) hashes vs ->
  decode_creator (set_codes vs c) = Some (with_codes hashes a).
Proof.
  intros Hc Hu Hvs. revert Hc. unfold decode_creator. simpl.
  destruct (decrypt (cr_password_hash c)) as [p|]; [|done]. simpl.
  destruct (match cr_totp_secret c with None => Some None | Some s => Some <$> decrypt s end) as [t|]; [|done]. simpl.
  destruct (mapM decrypt (cr_backup_code_hashes c)) as [l|]; [|done]. simpl. intros [= <-].
  assert (mapM decrypt vs = Some hashes) as ->; [|done].
  apply mapM_Some. induction Hvs as [|s v l1 l2 [n Hn] _ IH]; [constructor|]. inversion_clear Hu as [|? ? Hs Hl].
  constructor; [by apply (decrypt_encrypted_code n) | by apply IH].
Qed.

Lemma decoded_utf8 c a : decode_creator c = Some a -> Forall (fun h => valid_utf8 h = true) (us_backup_code_hashes a).
Proof.
  intros Hd%decoded_codes. induction Hd as [|raw h l1 l2 Hr _ IH]; constructor; [by apply (decrypt_utf8 raw) | done].
Qed.

(** The code at [k] is taken off the account. *)
Definition code_taken (username : string) (k : nat) (a : Account) (t t' : gmap string Creator) : Prop :=
  exists c', t' = <[username := c']> t /\
    decode_creator c' = Some (with_codes (delete k (us_backup_code_hashes a)) a).

Lemma store_rest username k c a w w' :
  store_codes username (delete k (us_backup_code_hashes a)) w = (Ok tt, w') ->
  aw_creators w !! username = Some c -> decode_creator c = Some a ->
  code_taken username k a (aw_creators w) (aw_creators w').
Proof.
  intros (_ & vs & Hvs & ->)%store_codes_ok Hc Ha. exists (set_codes vs c). split.
  - apply map_eq. intros i. destruct (decide (i = username)) as [->|Hne].
    + by rewrite lookup_alter_eq, lookup_insert_eq, Hc.
    + by rewrite lookup_alter_ne, lookup_insert_ne.
  - eapply stored_codes; [exact Ha | | exact Hvs]. by apply Forall_delete, (decoded_utf8 c).
Qed.

(** The factor that was given. *)
Definition totp_given (a : Account) (now : Z) (totp_code : option string) : Prop :=
  exists code secret, totp_code = Some code /\ us_totp_secret a = Some secret /\ totp_code_of secret now code.

Definition backup_given (a : Account) (backup_code : option string) (k : nat) : Prop :=
  exists code h, backup_code = Some code /\ us_backup_code_hashes a !! k = Some h /\ bcrypt_verify code h = Some true.

Lemma totp_valid_ok a totp_code w w' b :
  totp_valid a totp_code w = (Ok b, w') -> w' = w /\ (b = true -> totp_given a (aw_now w) totp_code).
Proof.
  unfold totp_valid. destruct totp_code as [code|]; [|by intros [= <- <-]].
  destruct (us_totp_secret a) as [secret|] eqn:Hs; [|by intros [= <- <-]]. intros Hv. destruct b.
  - apply validate_totp_code_ok in Hv as [-> Hv]. split; [done|]. intros _. by exists code, secret.
  - split; [|done]. revert Hv. unfold validate_totp_code, expect, lift. bind_step.
    destruct (base32_decode secret); simpl; [|done]. bind_step. by intros [= _ <-].
Qed.

Lemma backup_code_valid_ok username c a backup_code w w' b :
  backup_code_valid username a backup_code w = (Ok b, w') ->
  aw_creators w !! username = Some c -> decode_creator c = Some a -> b = true ->
  exists k, backup_given a backup_code k /\ code_taken username k a (aw_creators w) (aw_creators w').
Proof.
  intros Hv Hc Ha ->. revert Hv. unfold backup_code_valid. destruct backup_code as [code|]; [|done].
  unfold lift. bind_step. destruct (verify_backup_code code (us_backup_code_hashes a)) as [[k|]|] eqn:Hv; [|done..].
  apply verify_backup_code_from_spec in Hv as (j & h & -> & Hj & Hv). simpl.
  destruct (store_codes username (delete j (us_backup_code_hashes a)) w) as [[[] | e] w1] eqn:Hs; [|by rewrite (bind_err _ _ _ _ _ Hs)].
  rewrite (bind_ok _ _ _ _ _ Hs). intros [= <-]. exists j. split; [by exists code, h|]. by eapply store_rest.
Qed.

Lemma second_factor_ok username c a totp_code backup_code w w' :
  second_factor username a totp_code backup_code w = (Ok tt, w') ->
  aw_creators w !! username = Some c -> decode_creator c = Some a ->
  (aw_creators w' = aw_creators w /\ (us_totp_enabled a = true -> totp_given a (aw_now w) totp_code)) \/
  exists k, backup_given a backup_code k /\ code_taken username k a (aw_creators w) (aw_creators w').
Proof.
  intros Hs Hc Ha. revert Hs. unfold second_factor. destruct (us_totp_enabled a); [|intros [= <-]; by left].
  destruct (totp_valid a totp_code w) as [[b | e] w1] eqn:Ht; [|by rewrite (bind_err _ _ _ _ _ Ht)].
  rewrite (bind_ok _ _ _ _ _ Ht). apply totp_valid_ok in Ht as [-> Ht]. destruct b.
  - bind_step. intros [= <-]. left. split; [done|]. intros _. by apply Ht.
  - destruct (backup_code_valid username a backup_code w) as [[b | e] w2] eqn:Hb; [|by rewrite (bind_err _ _ _ _ _ Hb)].
    rewrite (bind_ok _ _ _ _ _ Hb). destruct b; [|done]. intros [= <-]. right. by eapply backup_code_valid_ok.
Qed.

(** A session is opened only for the password of the account and, where
    two-factor authentication is on, for a TOTP code of a step next to now or a
    stored backup code, which is then taken off the account. *)
Theorem session_needs_both_factors user_agent ip username password totp_code backup_code w tokens w' :
  login user_agent ip username password totp_code backup_code w = (Ok tokens, w') ->
  exists c a, aw_creators w !! username = Some c /\ decode_creator c = Some a /\
    bcrypt_verify password (us_password_hash a) = Some true /\
    ((aw_creators w' = aw_creators w /\ (us_totp_enabled a = true -> totp_given a (aw_now w) totp_code)) \/
     exists k, backup_given a backup_code k /\ code_taken username k a (aw_creators w) (aw_creators w')).
Proof.
  unfold login. destruct (select_creator username w) as [[o | e] w1] eqn:Hs; [|by rewrite (bind_err _ _ _ _ _ Hs)].
  rewrite (bind_ok _ _ _ _ _ Hs). apply select_creator_ok in Hs as (Ht & Hn & Ho). unfold expect at 1, lift at 1. bind_step.
  destruct o as [a|]; [|done]. destruct Ho as (c & Hc & Ha). simpl. unfold lift. bind_step. unfold verify_password.
  destruct (bcrypt_verify password (us_password_hash a)) as [[]|] eqn:Hp; [|done..]. simpl.
  destruct (second_factor username a totp_code backup_code w1) as [[[] | e] w2] eqn:Hf; [|by rewrite (bind_err _ _ _ _ _ Hf)].
  rewrite (bind_ok _ _ _ _ _ Hf). intros Hi.
  pose proof (kept_issue (fun t => t = aw_creators w2) user_agent ip username "creator" w2 eq_refl) as Hk.
  rewrite Hi in Hk. simpl in Hk. apply (second_factor_ok username c) in Hf; [|congruence | done].
  exists c, a. rewrite Hk, <- Ht, <- Hn. rewrite Ht at 1. done.
Qed.

Lemma recover_checks_ok username password code w l w' :
  recover_checks username password code w = (Ok l, w') ->
  exists c a k, aw_creators w !! username = Some c /\ decode_creator c = Some a /\
    bcrypt_verify password (us_password_hash a) = Some true /\ us_totp_enabled a = true /\
    backup_given a (Some code) k /\ l = delete k (us_backup_code_hashes a) /\ aw_creators w' = aw_creators w.
Proof.
  unfold recover_checks. destruct (select_creator username w) as [[o | e] w1] eqn:Hs; [|by rewrite (bind_err _ _ _ _ _ Hs)].
  rewrite (bind_ok _ _ _ _ _ Hs). apply select_creator_ok in Hs as (Ht & _ & Ho). unfold expect, lift. bind_step.
  destruct o as [a|]; [|done]. destruct Ho as (c & Hc & Ha). simpl. bind_step. unfold verify_password.
  destruct (bcrypt_verify password (us_password_hash a)) as [[]|] eqn:Hp; [|done..]. simpl.
  destruct (us_totp_enabled a) eqn:He; [|done]. simpl. bind_step.
  destruct (verify_backup_code code (us_backup_code_hashes a)) as [[k|]|] eqn:Hv; [|done..].
  apply verify_backup_code_from_spec in Hv as (j & h & -> & Hj & Hv). bind_step. simpl. intros [= <- <-].
  exists c, a, j. split_and!; try done. by exists code, h.
Qed.

Lemma recover_ok user_agent ip username password code w tokens w' :
  recover user_agent ip username password code w = (Ok tokens, w') ->
  exists c a k, aw_creators w !! username = Some c /\ decode_creator c = Some a /\
    bcrypt_verify password (us_password_hash a) = Some true /\ us_totp_enabled a = true /\
    backup_given a (Some code) k /\ code_taken username k a (aw_creators w) (aw_creators w').
Proof.
  unfold recover. intros Hr. destruct (recover_checks username password code w) as [[l | e] w1] eqn:Hc;
    [rewrite (bind_ok _ _ _ _ _ Hc) in Hr | by rewrite (bind_err _ _ _ _ _ Hc) in Hr].
  apply recover_checks_ok in Hc as (c & a & k & H1 & H2 & H3 & H4 & H5 & -> & Ht). exists c, a, k.
  split_and!; try done. unfold recover_consumes in Hr.
  destruct (store_codes username (delete k (us_backup_code_hashes a)) w1) as [[[] | e] w2] eqn:Hs;
    [rewrite (bind_ok _ _ _ _ _ Hs) in Hr | by rewrite (bind_err _ _ _ _ _ Hs) in Hr].
  pose proof (kept_issue (fun t => t = aw_creators w2) user_agent ip username "creator" w2 eq_refl) as Hk.
  rewrite Hr in Hk. simpl in Hk. rewrite Hk, <- Ht. apply (store_rest username k c); [done | congruence | done].
Qed.

(** ** Histories *)

Inductive account_op : Type :=
| Login (username password : string) (totp_code backup_code : option string)
| Recover (username password code : string)
| ChangePassword (claims : Claims) (old_password new_password : string)
| Enroll (claims : Claims)
| Verify (claims : Claims) (totp_code : string)
| Disable (claims : Claims) (password : string)
| Regenerate (claims : Claims)
| Logout_everywhere (claims : Claims)
| Passes (now : Z) (faults : list fault).

Definition with_clock (now : Z) (faults : list fault) w : AuthWorld :=
  {| aw_families := aw_families w; aw_redis := aw_redis w; aw_creators := aw_creators w; aw_now := now;
     aw_uuids := aw_uuids w; aw_faults := faults |}.

Definition account_exec w (o : account_op) : AuthWorld :=
  match o with
  | Login u p t b => snd (login None None u p t b w)
  | Recover u p c => snd (recover None None u p c w)
  | ChangePassword c old new => snd (change_password c old new w)
  | Enroll c => snd (totp_enroll c w)
  | Verify c t => snd (totp_verify c t w)
  | Disable c p => snd (totp_disable c p w)
  | Regenerate c => snd (regenerate_backup_codes c w)
  | Logout_everywhere c => snd (revoke_all_sessions c w)
  | Passes now faults => with_clock now faults w
  end.

Definition account_run (l : list account_op) w : AuthWorld := fold_left account_exec l w.

(** The operations that give a user new backup codes. *)
Definition issues_codes (username : string) (o : account_op) : bool :=
  match o with
  | Verify c _ | Regenerate c => String.eqb (sub c) username
  | _ => false
  end.

Section spent.
Variable username code : string.

Definition unmatched (h : string) : Prop := bcrypt_verify code h <> Some true.

(** No code stored for the user matches. *)
Definition Spent (t : gmap string Creator) : Prop :=
  forall c raw h, t !! username = Some c -> raw ∈ cr_backup_code_hashes c -> decrypt raw = Some h -> unmatched h.

Lemma spent_account t c a : Spent t -> t !! username = Some c -> decode_creator c = Some a ->
  Forall unmatched (us_backup_code_hashes a).
Proof.
  intros Ht Hc Ha. apply Forall_forall. intros h Hh.
  apply decoded_codes in Ha. apply list_elem_of_lookup_1 in Hh as [j Hj].
  destruct (Forall2_lookup_r _ _ _ _ _ Ha Hj) as (raw & Hraw & Hd). apply (Ht c raw h Hc); [|done].
  by eapply list_elem_of_lookup_2.
Qed.

(** An update keeps the codes of the user, or stores codes that do not match. *)
Lemma spent_update u f t :
  (forall c raw, u = username -> raw ∈ cr_backup_code_hashes (f c) ->
     raw ∈ cr_backup_code_hashes c \/ forall h, decrypt raw = Some h -> unmatched h) ->
  Spent t -> Spent (alter f u t).
Proof.
  intros Hf Ht c raw h Hc Hraw Hd. destruct (decide (u = username)) as [->|Hne].
  - rewrite lookup_alter_eq in Hc. destruct (t !! username) as [c0|] eqn:Hc0; [|done]. injection Hc as <-.
    destruct (Hf c0 raw eq_refl Hraw) as [Hin | Hu]; [by eapply Ht | by apply Hu].
  - rewrite lookup_alter_ne in Hc by done. by eapply Ht.
Qed.

Abbreviation spends m := (stable (fun w => Spent (aw_creators w)) m).

Lemma spends_update u f :
  (forall c raw, u = username -> raw ∈ cr_backup_code_hashes (f c) ->
     raw ∈ cr_backup_code_hashes c \/ forall h, decrypt raw = Some h -> unmatched h) ->
  spends (update_creator u f).
Proof. intros Hf. apply kept_creators. intros t. simpl. by apply spent_update. Qed.

(** Storing encrypted codes. *)
Lemma spends_stored u hashes (f : list string -> Creator -> Creator) :
  (forall vs c, cr_backup_code_hashes (f vs c) = vs) ->
  (u = username -> Forall (fun h => valid_utf8 h = true /\ unmatched h) hashes) ->
  spends (encrypted ← encrypt_all hashes; update_creator u (f encrypted)).
Proof.
  intros Hf Hh. apply (stable_bind_value _ (Forall2 (fun s v => exists n,
    encode_column aes_encrypt b64_encode (draw_nonce n) s manager = Some v) hashes)).
  - apply kept_encrypt_all.
  - intros w vs w' _ He. by apply encrypt_all_ok in He as (_ & _ & _ & He).
  - intros vs Hvs. apply spends_update. intros c raw Hu. rewrite Hf. intros Hraw. right. intros h Hd.
    apply list_elem_of_lookup_1 in Hraw as [j Hj]. destruct (Forall2_lookup_r _ _ _ _ _ Hvs Hj) as (s & Hs & n & Hn).
    specialize (Hh Hu). rewrite Forall_forall in Hh. destruct (Hh s) as [Hutf Hs']; [by eapply list_elem_of_lookup_2|].
    rewrite (decrypt_encrypted_code n s raw Hutf Hn) in Hd. by injection Hd as <-.
Qed.

(** After a selection, what is known of the account of the user. *)
Definition unmatched_in (u : string) (a : Account) : Prop :=
  u = username -> Forall (fun h => valid_utf8 h = true /\ unmatched h) (us_backup_code_hashes a).

Lemma spends_select {B} u (k : option Account -> Auth (St := St) B) :
  (forall o, (forall a, o = Some a -> unmatched_in u a) -> spends (k o)) -> spends (select_creator u ≫= k).
Proof.
  intros Hk. apply (stable_bind_value _ (fun o => forall a, o = Some a -> unmatched_in u a)).
  - apply kept_account.
  - intros w o w' Hw Hs a -> ->. apply select_creator_ok in Hs as (_ & _ & c & Hc & Ha).
    apply Forall_and. split; [by apply (decoded_utf8 c) | by eapply spent_account].
  - exact Hk.
Qed.

Lemma spends_select_one {B} u (k : Account -> Auth (St := St) B) :
  (forall a, unmatched_in u a -> spends (k a)) -> spends (select_one_creator u ≫= k).
Proof.
  intros Hk. apply (stable_bind_value _ (unmatched_in u)).
  - apply kept_one_account.
  - intros w a w' Hw. unfold select_one_creator. destruct (select_creator u w) as [[o | e] w1] eqn:Hs;
      [rewrite (bind_ok _ _ _ _ _ Hs) | by rewrite (bind_err _ _ _ _ _ Hs)].
    destruct o as [a'|]; [|done]. intros [= <- <-] ->. apply select_creator_ok in Hs as (_ & _ & c & Hc & Ha).
    apply Forall_and. split; [by apply (decoded_utf8 c) | by eapply spent_account].
  - exact Hk.
Qed.

Lemma spends_store u a k : unmatched_in u a -> spends (store_codes u (delete k (us_backup_code_hashes a))).
Proof. intros Ha. apply (spends_stored u _ set_codes); [done|]. intros Hu. by apply Forall_delete, Ha. Qed.

Lemma spends_expect {A B} e (o : option A) (k : A -> Auth (St := St) B) :
  (forall a, o = Some a -> spends (k a)) -> spends (expect e o ≫= k).
Proof. intros Hk. destruct o as [a|]; [by apply Hk|]. by intros w Hw. Qed.

Ltac spend := repeat (match goal with |- forall _, _ => intros | _ => idtac end; first
  [ apply stable_ret | apply stable_throw | apply stable_lift | apply stable_gets | apply kept_families | apply kept_redis
  | apply kept_draw | apply kept_issue | apply kept_encrypt | apply kept_encrypt_all | apply kept_draw_codes
  | by apply spends_store | apply spends_expect | apply spends_select | apply spends_select_one | apply stable_bind; [|intros] | case_match ]).

Lemma spends_second_factor u a totp_code backup_code :
  unmatched_in u a -> spends (second_factor u a totp_code backup_code).
Proof.
  intros Ha. unfold second_factor, totp_valid, backup_code_valid, validate_totp_code, utc_now, fail_with. spend.
Qed.

Lemma spends_recover u p c : spends (recover None None u p c).
Proof.
  unfold recover. apply (stable_bind_value _ (fun l => u = username -> Forall (fun h => valid_utf8 h = true /\ unmatched h) l)).
  - unfold recover_checks, fail_with. spend.
  - intros w l w' Hw (row & a & k & Hc & Ha & _ & _ & _ & -> & _)%recover_checks_ok ->. apply Forall_delete, Forall_and.
    split; [by apply (decoded_utf8 row) | by eapply spent_account].
  - intros l Hl. unfold recover_consumes. apply stable_bind; [by apply (spends_stored u l set_codes)|]. intros _. apply kept_issue.
Qed.

Lemma spends_change_password c old new : spends (change_password c old new).
Proof.
  unfold change_password, bump_epoch, fail_with. spend. apply spends_update. tauto.
Qed.

Lemma spends_enroll c : spends (totp_enroll c).
Proof.
  unfold totp_enroll, generate_totp_secret, fail_with. spend. apply kept_creators. intros t. simpl. apply spent_update. tauto.
Qed.

Lemma spends_disable c p : spends (totp_disable c p).
Proof. unfold totp_disable, fail_with. spend. apply spends_update. simpl. intros c' raw _ []%elem_of_nil. Qed.

Lemma spends_new_codes u f : u <> username -> spends (new_codes u f).
Proof.
  intros Hu. unfold new_codes. apply stable_bind; [apply kept_draw_codes|]. intros codes. spend. by apply spends_update.
Qed.

(** Whatever happens, a spent code is not stored again before new ones are issued. *)
Lemma spends_op w o : issues_codes username o = false -> Spent (aw_creators w) -> Spent (aw_creators (account_exec w o)).
Proof.
  intros Ho Hw. destruct o as [u p t b | u p c | c old new | c | c t | c p | c | c | now faults]; simpl; try done; revert w Hw;
    match goal with |- forall w, _ -> Spent (aw_creators (snd (?m w))) => change (spends m) end.
  - unfold login, fail_with. spend. apply spends_second_factor. eauto.
  - apply spends_recover.
  - apply spends_change_password.
  - apply spends_enroll.
  - unfold totp_verify. apply spends_select_one. intros a _. destruct (us_totp_enabled a); [apply stable_throw|].
    apply spends_expect. intros secret _. apply stable_bind; [unfold validate_totp_code, utc_now; spend|].
    intros ok. destruct (negb ok); [apply stable_throw | by apply spends_new_codes, String.eqb_neq].
  - apply spends_disable.
  - unfold regenerate_backup_codes. apply spends_select_one. intros a _.
    destruct (negb (us_totp_enabled a)); [apply stable_throw | by apply spends_new_codes, String.eqb_neq].
  - unfold revoke_all_sessions, revoke_all_for_user, bump_epoch. spend.
Qed.

Lemma spends_run l w :
  Forall (fun o => issues_codes username o = false) l -> Spent (aw_creators w) -> Spent (aw_creators (account_run l w)).
Proof.
  unfold account_run. revert w. induction l as [|o l IH]; intros w Hl Hw; [done|]. inversion_clear Hl as [|? ? Ho Hl'].
  apply IH; [done|]. by apply spends_op.
Qed.
End spent.

(** Each stored code of the account matches another text at most. *)
Definition codes_differ (a : Account) (code : string) : Prop :=
  forall i j h h', us_backup_code_hashes a !! i = Some h -> us_backup_code_hashes a !! j = Some h' ->
    bcrypt_verify code h = Some true -> bcrypt_verify code h' = Some true -> i = j.

Lemma taken_spent username code k a t t' :
  code_taken username k a t t' -> backup_given a (Some code) k -> codes_differ a code -> Spent username code t'.
Proof.
  intros (c' & -> & Hd) (code' & h & [= <-] & Hk & Hv) Hdiff c raw h' Hc Hraw Hd' Hv'.
  rewrite lookup_insert_eq in Hc. injection Hc as <-. apply decoded_codes in Hd. simpl in Hd.
  apply list_elem_of_lookup_1 in Hraw as [i Hi]. destruct (Forall2_lookup_l _ _ _ _ _ Hd Hi) as (h2 & Hi2 & Hd2).
  rewrite Hd' in Hd2. injection Hd2 as <-.
  destruct (decide (i < k)%nat) as [Hlt | Hge].
  - rewrite list_lookup_delete_lt in Hi2 by done. specialize (Hdiff i k h' h Hi2 Hk Hv' Hv). lia.
  - rewrite list_lookup_delete_ge in Hi2 by lia. specialize (Hdiff (S i) k h' h Hi2 Hk Hv' Hv). lia.
Qed.

Lemma spent_refused username code w :
  Spent username code (aw_creators w) ->
  (forall user_agent ip password, is_ok (fst (recover user_agent ip username password code w)) = false) /\
  (forall user_agent ip password tokens w' c a, login user_agent ip username password None (Some code) w = (Ok tokens, w') ->
     aw_creators w !! username = Some c -> decode_creator c = Some a -> us_totp_enabled a = false).
Proof.
  intros Hs. split.
  - intros user_agent ip password. destruct (recover user_agent ip username password code w) as [[tokens | e] w'] eqn:Hr; [|done].
    apply recover_ok in Hr as (c & a & k & Hc & Ha & _ & _ & (code' & h & [= <-] & Hk & Hv) & _).
    pose proof (spent_account _ _ _ c a Hs Hc Ha) as Hf. apply (Forall_lookup_1 _ _ _ _ Hf) in Hk. by destruct Hk.
  - intros user_agent ip password tokens w' c a Hl Hc Ha.
    apply session_needs_both_factors in Hl as (c1 & a1 & Hc1 & Ha1 & _ & Hfactor). assert (c1 = c) as -> by congruence.
    assert (a1 = a) as -> by congruence. destruct (us_totp_enabled a); [exfalso|done].
    destruct Hfactor as [[_ Ht] | (k & (code' & h & [= <-] & Hk & Hv) & _)].
    + by destruct Ht as (? & ? & ? & _).
    + pose proof (spent_account _ _ _ c a Hs Hc Ha) as Hf. apply (Forall_lookup_1 _ _ _ _ Hf) in Hk. by destruct Hk.
Qed.

(** C36: In every history of requests one after another, whatever calls of the
    database fail, a backup code that opened a session without a TOTP code never
    opens another that way: after the recovery or the login that used it,
    neither a recovery nor a login with it and no TOTP code succeeds as long as
    no new codes were issued to the user, unless two-factor authentication has
    been switched off. *)
Theorem backup_code_single_use user_agent ip username password code w c a tokens w1 l :
  aw_creators w !! username = Some c -> decode_creator c = Some a -> codes_differ a code ->
  recover user_agent ip username password code w = (Ok tokens, w1) \/
  us_totp_enabled a = true /\ login user_agent ip username password None (Some code) w = (Ok tokens, w1) ->
  Forall (fun o => issues_codes username o = false) l ->
  (forall user_agent' ip' password', is_ok (fst (recover user_agent' ip' username password' code (account_run l w1))) = false) /\
  (forall user_agent' ip' password' tokens' w' c' a',
     login user_agent' ip' username password' None (Some code) (account_run l w1) = (Ok tokens', w') ->
     aw_creators (account_run l w1) !! username = Some c' -> decode_creator c' = Some a' -> us_totp_enabled a' = false).
Proof.
  intros Hc Ha Hdiff Huse Hl. apply spent_refused, spends_run; [done|]. destruct Huse as [Hr | [He Hlog]].
  - apply recover_ok in Hr as (c1 & a1 & k & Hc1 & Ha1 & _ & _ & Hk & Ht). assert (c1 = c) as -> by congruence.
    assert (a1 = a) as -> by congruence. by eapply taken_spent.
  - apply session_needs_both_factors in Hlog as (c1 & a1 & Hc1 & Ha1 & _ & Hfactor). assert (c1 = c) as -> by congruence.
    assert (a1 = a) as -> by congruence. destruct Hfactor as [[_ Ht] | (k & Hk & Ht)].
    + by destruct (Ht He) as (? & ? & ? & _).
    + destruct Hk as (code' & h & [= <-] & Hk & Hv). eapply taken_spent; [exact Ht | by exists code, h | done].
Qed.


(** ** The codes of an enrolment *)

Lemma draw_codes_length n w codes w' : draw_codes n w = (Ok codes, w') -> length codes = n /\ aw_creators w' = aw_creators w.
Proof.
  revert w codes. induction n as [|n IH]; intros w codes; simpl; [by intros [= <- <-]|].
  unfold fresh_draw. bind_step. set (v := Build_AuthWorld _ _ _ _ _ _). destruct (draw_codes n v) as [[l | e] w1] eqn:Hl;
    [rewrite (bind_ok _ _ _ _ _ Hl) | by rewrite (bind_err _ _ _ _ _ Hl)].
  intros [= <- <-]. apply IH in Hl as [<- ->]. done.
Qed.

Lemma hash_backup_codes_ok codes hs :
  hash_backup_codes codes = Ok hs -> Forall2 (fun c h => bcrypt_hash c = Some h) codes hs.
Proof.
  revert hs. induction codes as [|c l IH]; intros hs; simpl; [intros [= <-]; constructor|].
  unfold hash_backup_code. destruct (bcrypt_hash c) as [h|] eqn:Hh; simpl; [|by destruct (hash_backup_codes l)].
  destruct (hash_backup_codes l) as [hs'|]; [|done]. intros [= <-]. constructor; auto.
Qed.

(** The first stored code that matches. *)
Lemma verify_backup_code_from_at idx code k h hashes :
  hashes !! k = Some h -> bcrypt_verify code h = Some true ->
  (forall j h', (j < k)%nat -> hashes !! j = Some h' -> bcrypt_verify code h' = Some false) ->
  verify_backup_code_from idx code hashes = Ok (Some (idx + k)%nat).
Proof.
  revert idx k. induction hashes as [|h0 l IH]; intros idx k Hk Hv Hbefore; [done|]. simpl. destruct k as [|k].
  - injection Hk as ->. by rewrite Hv, Nat.add_0_r.
  - rewrite (Hbefore 0%nat h0) by (done || lia). rewrite (IH (S idx) k Hk Hv); [do 2 f_equal; lia|].
    intros j h' Hj Hh'. apply (Hbefore (S j)); [lia | done].
Qed.

Lemma select_creator_calm username c a w :
  aw_faults w = [] -> aw_creators w !! username = Some c -> decode_creator c = Some a ->
  exists w', select_creator username w = (Ok (Some a), w').
Proof.
  intros Hf Hc Ha. unfold select_creator, sql_creators, remote. bind_step. simpl. rewrite Hf. simpl. rewrite Hc, Ha. by eexists.
Qed.

Lemma new_codes_ok username f w codes w' :
  new_codes username f w = (Ok codes, w') ->
  exists hashes vs, length codes = 8%nat /\ Forall2 (fun c h => bcrypt_hash c = Some h) codes hashes /\
    Forall2 (fun s v => exists n, encode_column aes_encrypt b64_encode (draw_nonce n) s manager = Some v) hashes vs /\
    aw_creators w' = alter (f vs) username (aw_creators w).
Proof.
  unfold new_codes. destruct (generate_backup_codes w) as [[l | e] w1] eqn:Hg;
    [rewrite (bind_ok _ _ _ _ _ Hg) | by rewrite (bind_err _ _ _ _ _ Hg)].
  apply draw_codes_length in Hg as [Hlen Ht1]. unfold lift. bind_step.
  destruct (hash_backup_codes l) as [hashes | e] eqn:Hh; [|done]. apply hash_backup_codes_ok in Hh.
  destruct (encrypt_all hashes w1) as [[vs | e] w2] eqn:He;
    [rewrite (bind_ok _ _ _ _ _ He) | by rewrite (bind_err _ _ _ _ _ He)].
  apply encrypt_all_ok in He as (Ht2 & _ & _ & Hvs).
  destruct (update_creator username (f vs) w2) as [[[] | e] w3] eqn:Hu;
    [rewrite (bind_ok _ _ _ _ _ Hu) | by rewrite (bind_err _ _ _ _ _ Hu)].
  intros [= <- <-]. apply creators_cases in Hu as (_ & [[_ Hu] | [? _]]); [|done]. simpl in Hu.
  exists hashes, vs. by rewrite Hu, Ht2, Ht1.
Qed.

(** What is relied on of bcrypt. *)
Definition bcrypt_laws : Prop :=
  forall p h, bcrypt_hash p = Some h -> valid_utf8 h = true /\ forall q, bcrypt_verify q h = Some (String.eqb q p).

(** Each of differing codes matches its own hash and no other. *)
Lemma hashed_code_found codes hashes k code :
  bcrypt_laws -> NoDup codes -> Forall2 (fun c h => bcrypt_hash c = Some h) codes hashes ->
  codes !! k = Some code -> verify_backup_code code hashes = Ok (Some k).
Proof.
  intros Hlaws Hnd Hh Hk. destruct (Forall2_lookup_l _ _ _ _ _ Hh Hk) as (h & Hhk & Hc).
  apply (verify_backup_code_from_at 0 code k h); [done | destruct (Hlaws _ _ Hc) as [_ ->]; by rewrite String.eqb_refl |].
  intros j h' Hj Hh'. destruct (Forall2_lookup_r _ _ _ _ _ Hh Hh') as (c' & Hc' & Hch). destruct (Hlaws _ _ Hch) as [_ ->].
  destruct (String.eqb_spec code c') as [->|]; [|done]. rewrite (NoDup_lookup _ _ _ _ Hnd Hk Hc') in Hj. lia.
Qed.

Lemma recover_checks_calm username c a password code k w :
  aw_faults w = [] -> aw_creators w !! username = Some c -> decode_creator c = Some a -> us_totp_enabled a = true ->
  bcrypt_verify password (us_password_hash a) = Some true ->
  verify_backup_code code (us_backup_code_hashes a) = Ok (Some k) ->
  fst (recover_checks username password code w) = Ok (delete k (us_backup_code_hashes a)).
Proof.
  intros Hf Hc Ha He Hp Hv. unfold recover_checks. destruct (select_creator_calm username c a w Hf Hc Ha) as [w' Hs].
  rewrite (bind_ok _ _ _ _ _ Hs). unfold expect, lift. bind_step. simpl. bind_step. unfold verify_password. rewrite Hp. simpl.
  rewrite He. simpl. bind_step. rewrite Hv. done.
Qed.

Definition switched_on (a : Account) : Account :=
  {| us_password_hash := us_password_hash a; us_totp_secret := us_totp_secret a; us_totp_enabled := true;
     us_backup_code_hashes := us_backup_code_hashes a |}.

Lemma decode_switched_on c a :
  decode_creator c = Some a -> decode_creator (set_totp (cr_totp_secret c) true c) = Some (switched_on a).
Proof.
  unfold decode_creator. simpl. destruct (decrypt (cr_password_hash c)) as [p|]; [|done]. simpl.
  destruct (match cr_totp_secret c with None => Some None | Some s => Some <$> decrypt s end) as [t|]; [|done]. simpl.
  destruct (mapM decrypt (cr_backup_code_hashes c)); [|done]. simpl. by intros [= <-].
Qed.

(** An enrolment that succeeds was given a TOTP code of the secret the account
    holds; it switches two-factor authentication on and answers eight backup
    codes, and each of them, when they differ, is accepted by the recovery with the
    password of the account and leaves the seven others. *)
Theorem enrolment_codes_recover claims totp_code w codes w' :
  bcrypt_laws -> totp_verify claims totp_code w = (Ok codes, w') -> NoDup codes ->
  exists c a, aw_creators w' !! sub claims = Some c /\ decode_creator c = Some a /\ us_totp_enabled a = true /\
    length codes = 8%nat /\ length (us_backup_code_hashes a) = 8%nat /\
    (exists secret, us_totp_secret a = Some secret /\ totp_code_of secret (aw_now w) totp_code) /\
    forall v k code password, aw_creators v = aw_creators w' -> aw_faults v = [] -> codes !! k = Some code ->
      bcrypt_verify password (us_password_hash a) = Some true ->
      fst (recover_checks (sub claims) password code v) = Ok (delete k (us_backup_code_hashes a)).
Proof.
  intros Hlaws Hrun Hnd. revert Hrun. unfold totp_verify.
  destruct (select_one_creator (sub claims) w) as [[a | e] w1] eqn:Hs;
    [rewrite (bind_ok _ _ _ _ _ Hs) | by rewrite (bind_err _ _ _ _ _ Hs)].
  apply select_one_creator_ok in Hs as (Ht & Hn & c & Hc & Ha). destruct (us_totp_enabled a) eqn:He; [done|].
  destruct (us_totp_secret a) as [secret|] eqn:Hsec; [|done]. unfold expect, lift. bind_step. simpl.
  destruct (validate_totp_code secret totp_code w1) as [[[] | e] w2] eqn:Hv;
    [rewrite (bind_ok _ _ _ _ _ Hv) | by rewrite (bind_ok _ _ _ _ _ Hv) | by rewrite (bind_err _ _ _ _ _ Hv)].
  apply validate_totp_code_ok in Hv as [-> Hv]. simpl. intros (hashes & vs & Hlen & Hh & Hvs & Ht')%new_codes_ok.
  rewrite Ht, Hn in *. set (row := set_codes vs (set_totp (cr_totp_secret c) true c)).
  assert (aw_creators w' !! sub claims = Some row) as Hrow by (by rewrite Ht', lookup_alter_eq, Hc).
  assert (decode_creator row = Some (with_codes hashes (switched_on a))) as Hdec.
  { apply stored_codes; [by apply decode_switched_on | | done]. apply Forall_forall. intros h [k Hk]%list_elem_of_lookup_1.
    destruct (Forall2_lookup_r _ _ _ _ _ Hh Hk) as (p & _ & Hp). by apply (Hlaws p h). }
  eexists row, _. split_and!; [done | exact Hdec | done | done | simpl; by rewrite <- (Forall2_length _ _ _ Hh) | by exists secret |].
  intros v k code password Hvt Hf Hk Hp. eapply recover_checks_calm; [done | by rewrite Hvt | exact Hdec | done | done |].
  by apply (hashed_code_found codes).
Qed.

(** ** The change of a password *)

Lemma undecodable hash c : strip_prefix FORMAT_PREFIX hash = None -> decode_creator (set_password hash c) = None.
Proof.
  intros Hh. unfold decode_creator. simpl. unfold decrypt, decode_column. destruct manager as [m|]; [|done].
  unfold decrypt_to_string. by rewrite Hh.
Qed.

Lemma select_undecodable username c w :
  aw_creators w !! username = Some c -> decode_creator c = None ->
  fst (select_creator username w) = Err query_failed.
Proof.
  intros Hc Hd. unfold select_creator. destruct (sql_creators (fun t => (t !! username, t)) w) as [r w1] eqn:Hs.
  apply creators_cases in Hs as Hcases. destruct Hcases as (_ & [[-> _] | [-> _]]);
    [rewrite (bind_ok _ _ _ _ _ Hs) | by rewrite (bind_err _ _ _ _ _ Hs)].
  simpl. by rewrite Hc, Hd.
Qed.

Lemma fst_bind_err {A B} (m : Auth (St := St) A) (k : A -> Auth (St := St) B) w e :
  fst (m w) = Err e -> fst ((m ≫= k) w) = Err e.
Proof. destruct (m w) as [[a | e'] w1] eqn:Hm; simpl; [done|]. intros [= ->]. by rewrite (bind_err _ _ _ _ _ Hm). Qed.

(** A change of password that succeeds locks the creator out: the hash is
    stored as a plain text in a column that is read through decryption, so from
    then on logging in, changing the password again, recovering and every
    operation on the second factor answer 500. *)
Theorem password_change_locks_out claims old_password new_password hash w w' v :
  bcrypt_hash new_password = Some hash -> strip_prefix FORMAT_PREFIX hash = None ->
  change_password claims old_password new_password w = (Ok tt, w') ->
  aw_creators v = aw_creators w' ->
  (forall user_agent ip password totp_code backup_code,
     fst (login user_agent ip (sub claims) password totp_code backup_code v) = Err query_failed) /\
  (forall old new, fst (change_password claims old new v) = Err query_failed) /\
  (forall user_agent ip password code, fst (recover user_agent ip (sub claims) password code v) = Err query_failed) /\
  fst (totp_enroll claims v) = Err query_failed /\ (forall code, fst (totp_verify claims code v) = Err query_failed).
Proof.
  intros Hh Hp Hrun Hv.
  assert (exists c, aw_creators v !! sub claims = Some c /\ decode_creator c = None) as (c & Hc & Hd).
  { rewrite Hv. revert Hrun. unfold change_password.
    destruct (select_one_creator (sub claims) w) as [[a | e] w1] eqn:Hs; [|by rewrite (bind_err _ _ _ _ _ Hs)].
    rewrite (bind_ok _ _ _ _ _ Hs). apply select_one_creator_ok in Hs as (Ht & _ & c & Hc & Ha). unfold lift. bind_step. unfold verify_password. destruct (bcrypt_verify old_password _) as [[]|]; [|done..]. simpl.
    bind_step. unfold hash_password. rewrite Hh. simpl.
    destruct (update_creator (sub claims) (set_password hash) w1) as [[[] | e] w2] eqn:Hu; [|by rewrite (bind_err _ _ _ _ _ Hu)].
    rewrite (bind_ok _ _ _ _ _ Hu). apply creators_cases in Hu as (_ & [[_ Hu] | [? _]]); [|done]. simpl in Hu.
    intros Hrest. pose proof (kept_revoke_sessions (fun t => t = aw_creators w2) (sub claims) "password_change" w2 eq_refl) as Hk.
    rewrite Hrest in Hk. simpl in Hk. rewrite Hk, Hu, lookup_alter_eq, Ht, Hc. eexists. split; [done | by apply undecodable]. }
  pose proof (select_undecodable (sub claims) c v Hc Hd) as Hs.
  assert (fst (select_one_creator (sub claims) v) = Err query_failed) as Hone by by apply fst_bind_err.
  split_and!; intros; first [by apply fst_bind_err | by do 2 apply fst_bind_err].
Qed.
End accounts.

(** ** A concrete server *)

(** bcrypt, base32, TOTP and a cipher as plain texts. *)
#[export] Instance plain_platform : Platform := {
  server_env := demo_env;
  draw_uuid n := print_Z (Z.of_nat n);
  draw_nonce _ := "nonce 12byte";
  draw_secret n := "secret" +:+ print_Z (Z.of_nat n);
  draw_code n := "code" +:+ print_Z (Z.of_nat n);
  jwt_encode := demo_encode;
  bcrypt_hash p := if valid_utf8 p then Some ("$2b$" +:+ p) else None;
  bcrypt_verify p h := Some (String.eqb h ("$2b$" +:+ p));
  base32_encode s := s;
  base32_decode s := Some s;
  totp_custom step secret := print_Z step +:+ secret;
  aes_encrypt _ _ p := Some p;
  aes_decrypt _ _ c := Some c;
  b64_encode s := s;
  b64_decode s := Some s;
  manager := Some toy_manager
}.

#[export] Instance plain_reads_back : ReadsBack.
Proof.
  intros n s v Hu.
  change (encode_column aes_encrypt b64_encode (draw_nonce n) s manager) with
    (Some (FORMAT_PREFIX +:+ ":" +:+ "current" +:+ ":" +:+ "nonce 12byte" +:+ ":" +:+ s)).
  intros [= <-]. unfold decode_column, decrypt_to_string. simpl.
  rewrite string_app_nil_l, lookup_singleton_eq. simpl. by rewrite Hu.
Qed.

Definition ann : Claims :=
  {| sub := "ann"; kind := "access"; role := "creator"; exp := 5000; iat := 0; nbf := 0; iss := ""; aud := ""; jti := "j";
     family := None; tv := 0 |}.

Definition anns_row : Creator :=
  {| cr_password_hash := default "" (encode_column aes_encrypt b64_encode "nonce 12byte" "$2b$pw" manager);
     cr_totp_secret := None; cr_totp_enabled := false; cr_backup_code_hashes := [] |}.

Definition account_world (now : Z) : AuthWorld (St := redis_map string) :=
  {| aw_families := ∅; aw_redis := Some ∅; aw_creators := {["ann" := anns_row]}; aw_now := now; aw_uuids := 0;
     aw_faults := [] |}.

(** ann enrols at 3000, the hundredth step: her secret is "secret0" and her codes are code2 to code9. *)
Definition enrolled : AuthWorld (St := redis_map string) :=
  Eval vm_compute in account_run [Enroll ann; Verify ann "100secret0"] (account_world 3000).

Definition opened (r : result IssuedTokens failure) : bool := is_ok r.

Example codes_of_enrolment :
  option_map us_backup_code_hashes (c ← aw_creators enrolled !! "ann"; decode_creator c) =
    Some ["$2b$code2"; "$2b$code3"; "$2b$code4"; "$2b$code5"; "$2b$code6"; "$2b$code7"; "$2b$code8"; "$2b$code9"].
Proof. vm_compute. reflexivity. Qed.

(** The TOTP code of one step is accepted as often as it is sent while it is current: nothing records its use. *)
Example totp_code_replayed :
  let code := Some "100secret0" in
  let '(r1, w1) := login None None "ann" "pw" code None enrolled in
  opened r1 = true /\ opened (fst (login None None "ann" "pw" code None (with_clock 3029 [] w1))) = true.
Proof. vm_compute. split; reflexivity. Qed.

(** Two recoveries with one code: both read the codes before either stores what remains. *)
Example backup_code_used_twice :
  let '(r1, w1) := recover_checks "ann" "pw" "code3" enrolled in
  let '(r2, w2) := recover_checks "ann" "pw" "code3" w1 in
  match r1, r2 with
  | Ok l1, Ok l2 =>
      let '(s1, w3) := recover_consumes None None "ann" l1 w2 in
      opened s1 = true /\ opened (fst (recover_consumes None None "ann" l2 w3)) = true
  | _, _ => False
  end.
Proof. vm_compute. split; reflexivity. Qed.

(** Two recoveries with two codes: the one that stores last puts back the code of the other. *)
Example spent_code_returns :
  let '(r1, w1) := recover_checks "ann" "pw" "code3" enrolled in
  let '(r2, w2) := recover_checks "ann" "pw" "code4" w1 in
  match r1, r2 with
  | Ok l1, Ok l2 =>
      let '(s1, w3) := recover_consumes None None "ann" l1 w2 in
      let '(s2, w4) := recover_consumes None None "ann" l2 w3 in
      opened s1 = true /\ opened s2 = true /\ opened (fst (recover None None "ann" "pw" "code3" w4)) = true
  | _, _ => False
  end.
Proof. vm_compute. repeat split; reflexivity. Qed.

(** A recovery that crosses a regeneration puts the old codes back and drops the new ones. *)
Example old_codes_return :
  let '(r1, w1) := recover_checks "ann" "pw" "code3" enrolled in
  let '(codes, w2) := regenerate_backup_codes ann w1 in
  match r1, codes with
  | Ok l1, Ok (new :: _) =>
      let w3 := snd (recover_consumes None None "ann" l1 w2) in
      opened (fst (recover None None "ann" "pw" "code4" w3)) = true /\
      opened (fst (recover None None "ann" "pw" new w3)) = false
  | _, _ => False
  end.
Proof. vm_compute. split; reflexivity. Qed.

Definition anns_account : Account :=
  {| us_password_hash := "$2b$pw"; us_totp_secret := Some "secret0"; us_totp_enabled := true;
     us_backup_code_hashes := ["$2b$code2"; "$2b$code3"; "$2b$code4"; "$2b$code5"; "$2b$code6"; "$2b$code7"; "$2b$code8";
                               "$2b$code9"] |}.

Definition enrolled_row : Creator := Eval vm_compute in default anns_row (aw_creators enrolled !! "ann").

Definition after_recovery : result IssuedTokens failure * AuthWorld :=
  Eval vm_compute in recover None None "ann" "pw" "code3" enrolled.

Lemma backup_code_single_use_witness :
  opened (fst after_recovery) = true /\
  opened (fst (recover None None "ann" "pw" "code3"
    (account_run [Recover "ann" "pw" "code4"; Passes 4000 [ReplyLost]; Disable ann "wrong"; Login "ann" "pw" None (Some "code5")]
       (snd after_recovery)))) = false.
Proof.
  split; [reflexivity|].
  destruct (fst after_recovery) as [tokens | e] eqn:Ht; [|discriminate Ht].
  destruct (backup_code_single_use None None "ann" "pw" "code3" enrolled enrolled_row anns_account tokens (snd after_recovery)
    [Recover "ann" "pw" "code4"; Passes 4000 [ReplyLost]; Disable ann "wrong"; Login "ann" "pw" None (Some "code5")]) as [Hr _].
  - vm_compute. reflexivity.
  - vm_compute. reflexivity.
  - intros i j h h' Hi Hj Hv Hv'. simpl in Hv, Hv'. injection Hv as ->%String.eqb_eq. injection Hv' as ->%String.eqb_eq.
    assert (NoDup (us_backup_code_hashes anns_account)) as Hnd by (apply (bool_decide_unpack _); vm_compute; exact I).
    exact (NoDup_lookup _ _ _ _ Hnd Hi Hj).
  - left. rewrite <- Ht. vm_compute. reflexivity.
  - repeat constructor.
  - apply Hr.
Defined.

Definition after_change : AuthWorld (St := redis_map string) :=
  Eval vm_compute in snd (change_password ann "pw" "longer password" enrolled).

Lemma after_change_reached : change_password ann "pw" "longer password" enrolled = (Ok tt, after_change).
Proof. vm_compute. reflexivity. Qed.

Lemma password_change_locks_out_witness :
  fst (login None None "ann" "longer password" (Some "100secret0") None after_change) = Err query_failed.
Proof.
  destruct (password_change_locks_out ann "pw" "longer password" "$2b$longer password" enrolled after_change after_change)
    as [Hl _]; [reflexivity | reflexivity | exact after_change_reached | reflexivity |].
  exact (Hl None None "longer password" (Some "100secret0") None).
Defined.

Lemma plain_bcrypt_laws : bcrypt_laws.
Proof.
  intros p h. simpl. destruct (valid_utf8 p) eqn:Hp; [|done]. intros [= <-]. split; [exact Hp|]. intros q. f_equal.
  destruct (String.eqb_spec q p) as [->|Hne]; simpl; [apply String.eqb_refl | by apply String.eqb_neq].
Qed.

Definition codes_answered : list string :=
  ["code2"; "code3"; "code4"; "code5"; "code6"; "code7"; "code8"; "code9"].

Lemma enrolled_by : totp_verify ann "100secret0" (account_run [Enroll ann] (account_world 3000)) = (Ok codes_answered, enrolled).
Proof. vm_compute. reflexivity. Qed.

Lemma enrolment_codes_recover_witness :
  exists a, us_totp_enabled a = true /\
    fst (recover_checks "ann" "pw" "code7" enrolled) = Ok (delete 5%nat (us_backup_code_hashes a)).
Proof.
  destruct (enrolment_codes_recover ann "100secret0" (account_run [Enroll ann] (account_world 3000)) codes_answered enrolled)
    as (c & a & Hc & Ha & He & _ & _ & _ & Hrec).
  - exact plain_bcrypt_laws.
  - exact enrolled_by.
  - apply (bool_decide_unpack _). vm_compute. exact I.
  - exists a. split; [exact He|]. apply Hrec; [reflexivity | reflexivity | reflexivity |].
    assert (decode_creator enrolled_row = Some anns_account) as Hd by (vm_compute; reflexivity).
    assert (aw_creators enrolled !! "ann" = Some enrolled_row) as Hrow by (vm_compute; reflexivity).
    change (sub ann) with "ann" in Hc. rewrite Hrow in Hc. injection Hc as <-. rewrite Hd in Ha. injection Ha as <-. reflexivity.
Defined.
