(* ===== verification/Live.v ===== *)
(** * Live tip updates over WebSockets

    src/src/ws.rs: channels and who may subscribe to them, the frames of a
    client, the loop that drives one connection and the upgrade that starts it.

    The loop is a [tokio::select!] with [biased]: each time it is polled the
    first branch that is ready runs.  A [Poll] says what is ready; the broadcast
    channel, the socket and the timers are crates tokio and axum, so what they
    deliver is given by the polls.  Durations and times are in nanoseconds.
    Frames are values: their JSON is serde's. *)

From S2P Require Import Prelude Text Codec Errors Redis StellarService TipPipeline Auth.

(** ** Configuration *)

(** src/src/ws.rs:23-23 DEFAULT_CHANNEL_CAPACITY *)
Definition DEFAULT_CHANNEL_CAPACITY : Z := 128.

(** src/src/ws.rs:26-31 channel_capacity *)
Definition channel_capacity (env : environment) : Z :=
  default DEFAULT_CHANNEL_CAPACITY (v ← env "WS_CHANNEL_CAPACITY"; parse_u64 v).

(** src/src/ws.rs:37-44 WsConfig *)
Record WsConfig : Type := {
  ping_interval : Z;
  max_missed_pongs : Z;
  idle_timeout : Z
}.

Definition secs (n : Z) : Z := n * 10 ^ 9.

(** src/src/ws.rs:47-64 WsConfig::from_env *)
Definition ws_config_from_env (env : environment) : WsConfig :=
  {| ping_interval := default (secs 30) (secs <$> (v ← env "WS_PING_INTERVAL_SECS"; parse_u64 v));
     max_missed_pongs := default 2 (v ← env "WS_MAX_MISSED_PONGS"; parse_u32 v);
     idle_timeout := default (secs 60) (secs <$> (v ← env "WS_IDLE_TIMEOUT_SECS"; parse_u64 v)) |}.

(** ** Channels *)

(** src/src/ws.rs:83-86 Channel *)
Inductive Channel : Type :=
| Public
| OfCreator (name : string).

#[export] Instance Channel_eq_dec : EqDecision Channel.
Proof. solve_decision. Defined.

#[export] Instance Channel_countable : Countable Channel.
Proof.
  refine (inj_countable' (fun c => match c with Public => None | OfCreator n => Some n end)
            (fun o => match o with None => Public | Some n => OfCreator n end) _).
  by intros [].
Defined.

(** src/src/ws.rs:91-103 Channel::parse *)
Definition parse (s : string) : option Channel :=
  if String.eqb s "public" then Some Public
  else
    match strip_prefix "creator:" s with
    | Some name => if String.eqb name "" then None else Some (OfCreator name)
    | None => None
    end.

(** src/src/ws.rs:105-110 Channel::as_wire *)
Definition as_wire (c : Channel) : string :=
  match c with
  | Public => "public"
  | OfCreator name => "creator:" +:+ name
  end.

(** src/src/ws.rs:113-115 Channel::requires_auth *)
Definition requires_auth (c : Channel) : bool := match c with Public => false | OfCreator _ => true end.

(** src/src/ws.rs:122-127 Channel::is_authorized_for *)
Definition is_authorized_for (identity : option string) (c : Channel) : bool :=
  match c with
  | Public => true
  | OfCreator name => match identity with Some i => String.eqb i name | None => false end
  end.

(** src/src/ws.rs:130-135 Channel::matches *)
Definition matches (event : TipEvent) (c : Channel) : bool :=
  match c with
  | Public => true
  | OfCreator name => String.eqb name (ev_creator_id event)
  end.

(** src/src/ws.rs:139-141 should_forward *)
Definition should_forward (subs : gset Channel) (event : TipEvent) : bool := existsb (matches event) (elements subs).

(** The wire form of a channel reads back as the channel, and nothing else does. *)
Lemma channel_round_trip s c : parse s = Some c <-> s = as_wire c /\ c <> OfCreator "".
Proof.
  unfold parse. split.
  - destruct (String.eqb_spec s "public") as [->|]; [by intros [= <-]|].
    destruct (strip_prefix _ s) as [name|] eqn:Hs; [|done]. destruct (String.eqb_spec name "") as [|Hn]; [done|].
    intros [= <-]. apply strip_prefix_Some in Hs. split; [done | congruence].
  - intros [-> Hc]. destruct c as [|name]; [done|]. cbn [as_wire]. rewrite strip_prefix_app.
    destruct (String.eqb_spec name ""); [congruence | done].
Qed.

(** ** Frames of the client *)

(** src/src/ws.rs:146-149 ClientOp *)
Inductive ClientOp : Type :=
| Subscribe (channel : string)
| Unsubscribe (channel : string).

(** src/src/ws.rs:153-159 OpOutcome *)
Inductive OpOutcome : Type :=
| Subscribed (c : Channel)
| Unsubscribed (c : Channel)
| AuthRequired
| InvalidChannel
| InvalidFrame.

(** src/src/ws.rs:190-196 SubscriptionState *)
Record SubscriptionState : Type := {
  identity : option string;
  channels : gset Channel
}.

(** src/src/ws.rs:199-204 SubscriptionState::new *)
Definition subscription_state_new (identity : option string) : SubscriptionState :=
  {| identity := identity; channels := ∅ |}.

Definition with_channels (l : gset Channel) (s : SubscriptionState) : SubscriptionState :=
  {| identity := identity s; channels := l |}.

(** The frames the server sends: a tip, a gap, the answer to an operation, and those of the protocol. *)
Inductive Frame : Type :=
| TipFrame (event : TipEvent)
| GapFrame (missed : Z)
| OpFrame (outcome : OpOutcome)
| PingFrame
| PongFrame (payload : string)
| CloseFrame (code : Z) (reason : string).

(** What the socket receives; [Ended] is the end of the stream. *)
Inductive Incoming : Type :=
| TextIn (text : string)
| PingIn (payload : string)
| PongIn
| CloseIn
| BinaryIn
| RecvError
| Ended.

(** What [broadcast::Receiver::recv] answers. *)
Inductive Recv : Type :=
| Received (event : TipEvent)
| Lagged (missed : Z)
| Closed.

(** ** One connection *)

(** What is ready when the loop is polled, the time, and whether frames sent in this turn reach the socket. *)
Record Poll : Type := {
  po_now : Z;
  po_shutdown : bool;
  po_tick : bool;
  po_event : option Recv;
  po_incoming : option Incoming;
  po_sends : bool
}.

(** The gauges and counters the connections share. *)
Record WsMetrics : Type := {
  WS_ACTIVE_CONNECTIONS : Z;
  WS_SUBSCRIPTIONS : Z;
  WS_EVENTS_SENT_TOTAL : Z;
  WS_EVENTS_DROPPED_TOTAL : Z;
  AUTH_FAILURES_TOTAL : Z
}.

Definition count_metrics (active subs sent dropped failures : Z) (m : WsMetrics) : WsMetrics :=
  {| WS_ACTIVE_CONNECTIONS := WS_ACTIVE_CONNECTIONS m + active; WS_SUBSCRIPTIONS := WS_SUBSCRIPTIONS m + subs;
     WS_EVENTS_SENT_TOTAL := WS_EVENTS_SENT_TOTAL m + sent; WS_EVENTS_DROPPED_TOTAL := WS_EVENTS_DROPPED_TOTAL m + dropped;
     AUTH_FAILURES_TOTAL := AUTH_FAILURES_TOTAL m + failures |}.

(** The locals of the loop, the frames that were sent, and whether it still runs. *)
Record Socket : Type := {
  so_subs : SubscriptionState;
  so_missed_pongs : Z;
  so_idle_deadline : Z;
  so_sent : list Frame;
  so_open : bool;
  so_metrics : WsMetrics
}.

Definition with_subs (s : SubscriptionState) (so : Socket) : Socket :=
  {| so_subs := s; so_missed_pongs := so_missed_pongs so; so_idle_deadline := so_idle_deadline so;
     so_sent := so_sent so; so_open := so_open so; so_metrics := so_metrics so |}.

Definition with_missed (n : Z) (so : Socket) : Socket :=
  {| so_subs := so_subs so; so_missed_pongs := n; so_idle_deadline := so_idle_deadline so;
     so_sent := so_sent so; so_open := so_open so; so_metrics := so_metrics so |}.

Definition with_deadline (n : Z) (so : Socket) : Socket :=
  {| so_subs := so_subs so; so_missed_pongs := so_missed_pongs so; so_idle_deadline := n;
     so_sent := so_sent so; so_open := so_open so; so_metrics := so_metrics so |}.

Definition with_metrics (f : WsMetrics -> WsMetrics) (so : Socket) : Socket :=
  {| so_subs := so_subs so; so_missed_pongs := so_missed_pongs so; so_idle_deadline := so_idle_deadline so;
     so_sent := so_sent so; so_open := so_open so; so_metrics := f (so_metrics so) |}.

Definition put (f : Frame) (so : Socket) : Socket :=
  {| so_subs := so_subs so; so_missed_pongs := so_missed_pongs so; so_idle_deadline := so_idle_deadline so;
     so_sent := so_sent so ++ [f]; so_open := so_open so; so_metrics := so_metrics so |}.

Definition subscriptions (so : Socket) : Z := Z.of_nat (size (channels (so_subs so))).

(** src/src/ws.rs:426-428 leaving the loop *)
Definition leave (so : Socket) : Socket :=
  {| so_subs := so_subs so; so_missed_pongs := so_missed_pongs so; so_idle_deadline := so_idle_deadline so;
     so_sent := so_sent so; so_open := false;
     so_metrics := count_metrics (-1) (- subscriptions so) 0 0 0 (so_metrics so) |}.

Section connection.
(** [serde_json::from_str] for an operation. *)
Variable parse_op : string -> option ClientOp.

(** src/src/ws.rs:207-228 SubscriptionState::apply_text *)
Definition apply_text (text : string) (s : SubscriptionState) : OpOutcome * SubscriptionState :=
  match parse_op text with
  | Some (Subscribe channel) =>
      match parse channel with
      | Some c =>
          if negb (is_authorized_for (identity s) c) then (AuthRequired, s)
          else (Subscribed c, with_channels ({[c]} ∪ channels s) s)
      | None => (InvalidChannel, s)
      end
  | Some (Unsubscribe channel) =>
      match parse channel with
      | Some c => (Unsubscribed c, with_channels (channels s ∖ {[c]}) s)
      | None => (InvalidChannel, s)
      end
  | None => (InvalidFrame, s)
  end.

Variable config : WsConfig.

(** src/src/ws.rs:302-315 the start of handle_socket *)
Definition start_socket (initial : Channel) (identity : option string) (now : Z) (m : WsMetrics) : Socket :=
  {| so_subs := with_channels {[initial]} (subscription_state_new identity); so_missed_pongs := 0;
     so_idle_deadline := now + idle_timeout config; so_sent := []; so_open := true;
     so_metrics := count_metrics 1 1 0 0 0 m |}.

(** A frame is sent, or the loop is left. *)
Definition send_or_leave (p : Poll) (f : Frame) (so : Socket) : Socket :=
  if po_sends p then put f so else leave so.

(** src/src/ws.rs:319-324 the first branch, of idle connections *)
Definition on_idle (so : Socket) : Socket := leave so.

(** src/src/ws.rs:326-334 the branch of the shutdown *)
Definition on_shutdown (p : Poll) (so : Socket) : Socket :=
  leave (if po_sends p then put (CloseFrame 1001 "server shutting down") so else so).

(** src/src/ws.rs:336-351 the branch of the ticker *)
Definition on_tick (p : Poll) (so : Socket) : Socket :=
  if max_missed_pongs config <=? so_missed_pongs so then
    leave (if po_sends p then put (CloseFrame 1000 "ping timeout") so else so)
  else send_or_leave p PingFrame (with_missed (so_missed_pongs so + 1) so).

(** src/src/ws.rs:353-382 the branch of the broadcast channel *)
Definition on_event (p : Poll) (r : Recv) (so : Socket) : Socket :=
  match r with
  | Received event =>
      if negb (should_forward (channels (so_subs so)) event) then so
      else if po_sends p then with_metrics (count_metrics 0 0 1 0 0) (put (TipFrame event) so) else leave so
  | Lagged missed => send_or_leave p (GapFrame missed) (with_metrics (count_metrics 0 0 0 missed 0) so)
  | Closed => leave so
  end.

(** src/src/ws.rs:386-414 the frame received, [before] being the number of subscriptions *)
Definition on_frame (p : Poll) (i : Incoming) (so : Socket) : Socket :=
  match i with
  | TextIn text =>
      let '(outcome, s) := apply_text text (so_subs so) in
      let failures := match outcome with AuthRequired => 1 | _ => 0 end in
      send_or_leave p (OpFrame outcome) (with_metrics (count_metrics 0 0 0 0 failures) (with_subs s so))
  | PingIn payload => send_or_leave p (PongFrame payload) so
  | PongIn => with_missed 0 so
  | CloseIn | Ended => leave so
  | BinaryIn => so
  | RecvError => leave so
  end.

(** src/src/ws.rs:384-422 the branch of the socket *)
Definition on_incoming (p : Poll) (i : Incoming) (so : Socket) : Socket :=
  let before := subscriptions so in
  let so' := on_frame p i so in
  if negb (so_open so') then so'
  else
    let after := subscriptions so' in
    let so' := if after =? before then so' else with_metrics (count_metrics 0 (after - before) 0 0 0) so' in
    if after =? 0 then with_deadline (po_now p + idle_timeout config) so' else so'.

(** The branch that runs. *)
Inductive Branch : Type :=
| Idle
| Shutdown
| Tick
| Event (r : Recv)
| Socket_ (i : Incoming).

(** src/src/ws.rs:318-422 the branch [select!] takes: the first that is ready, in the order written *)
Definition select (p : Poll) (so : Socket) : option Branch :=
  if bool_decide (channels (so_subs so) = ∅) && (so_idle_deadline so <=? po_now p) then Some Idle
  else if po_shutdown p then Some Shutdown
  else if po_tick p then Some Tick
  else
    match po_event p with
    | Some r => Some (Event r)
    | None => Socket_ <$> po_incoming p
    end.

Definition run_branch (p : Poll) (b : Branch) (so : Socket) : Socket :=
  match b with
  | Idle => on_idle so
  | Shutdown => on_shutdown p so
  | Tick => on_tick p so
  | Event r => on_event p r so
  | Socket_ i => on_incoming p i so
  end.

(** src/src/ws.rs:317-424 one turn of the loop; when nothing is ready it waits *)
Definition turn (so : Socket) (p : Poll) : Socket :=
  if negb (so_open so) then so
  else match select p so with Some b => run_branch p b so | None => so end.

(** src/src/ws.rs:294-428 handle_socket *)
Definition handle_socket (initial : Channel) (identity : option string) (now : Z) (m : WsMetrics) (l : list Poll)
    : Socket := fold_left turn l (start_socket initial identity now m).
End connection.

(** ** The upgrade *)

(** src/src/ws.rs:240-248 token_from_protocol_header *)
Definition token_from_protocol_header (header : option string) : option string :=
  value ← header;
  value ← header_to_str value;
  head (omap (fun p => strip_prefix "bearer." (trim p)) (split_on "," value)).

(** src/src/ws.rs:232-236 WsQuery *)
Record WsQuery : Type := {
  wq_token : option string;
  wq_channel : option string
}.

(** What the handler answers: an error, or the switch of protocols, the
    subprotocol echoed, and the connection that starts. *)
Inductive Upgrade : Type :=
| NotUpgraded (e : AppError)
| Upgraded (protocol : option string) (channel : Channel) (claims : option Claims).

Section upgrade.
Context {St : Type} `{RedisLaws string St}.
Variable env : environment.
Variable jwt_decode_header : string -> option (string * option string).
Variable jwt_decode : string -> Z -> Z -> string -> option Claims.

(** [validate_token(..).ok()]; a panic goes on. *)
Definition claims_of (token : option string) : Auth (St := St) (option Claims) :=
  match token with
  | None => mret None
  | Some t =>
      r ← attempt (validate_token env jwt_decode_header jwt_decode t "access");
      match r with
      | Ok c => mret (Some c)
      | Err (EApp _) => mret None
      | Err EPanic => throw EPanic
      end
  end.

(** src/src/ws.rs:255-289 ws_handler *)
Definition ws_handler (query : WsQuery) (protocol_header : option string) : Auth (St := St) Upgrade :=
  let requested := default "public" (wq_channel query) in
  match parse requested with
  | None => mret (NotUpgraded (bad_request ("invalid channel '" +:+ requested +:+ "'")))
  | Some channel =>
      let protocol_token := token_from_protocol_header protocol_header in
      let token := match wq_token query with Some t => Some t | None => protocol_token end in
      claims ← claims_of token;
      if negb (is_authorized_for (sub <$> claims) channel) then
        mret (NotUpgraded (Unauthorized "not authorized for this channel"))
      else mret (Upgraded ((fun t => "bearer." +:+ t) <$> protocol_token) channel claims)
  end.
End upgrade.

(** ** What a connection should answer

    The inputs a connection took, and the frames they ask for: an account of the
    loop that knows nothing of timers and gauges.  A channel is subscribed to
    when the last valid operation on it says so. *)

Inductive Input : Type :=
| ITip (event : TipEvent)
| IGap (missed : Z)
| IText (text : string)
| IPing (payload : string)
| IPong
| IBinary
| ITick.

Section transcript.
Variable parse_op : string -> option ClientOp.
Variable initial : Channel.
Variable who : option string.

Definition operation_on (c : Channel) (i : Input) : option bool :=
  match i with
  | IText t =>
      match parse_op t with
      | Some (Subscribe s) => if bool_decide (parse s = Some c) && is_authorized_for who c then Some true else None
      | Some (Unsubscribe s) => if bool_decide (parse s = Some c) then Some false else None
      | None => None
      end
  | _ => None
  end.

Definition subscribed (l : list Input) (c : Channel) : bool :=
  default (bool_decide (c = initial)) (last (omap (operation_on c) l)).

Definition answer (t : string) : OpOutcome :=
  match parse_op t with
  | None => InvalidFrame
  | Some (Subscribe s) =>
      match parse s with
      | None => InvalidChannel
      | Some c => if is_authorized_for who c then Subscribed c else AuthRequired
      end
  | Some (Unsubscribe s) => match parse s with None => InvalidChannel | Some c => Unsubscribed c end
  end.

Definition respond (l : list Input) (i : Input) : list Frame :=
  match i with
  | ITip e => if subscribed l Public || subscribed l (OfCreator (ev_creator_id e)) then [TipFrame e] else []
  | IGap n => [GapFrame n]
  | IText t => [OpFrame (answer t)]
  | IPing payload => [PongFrame payload]
  | ITick => [PingFrame]
  | IPong | IBinary => []
  end.

(** The answers to [l] after [past]. *)
Fixpoint transcript (past l : list Input) : list Frame :=
  match l with
  | [] => []
  | i :: l => respond past i ++ transcript (past ++ [i]) l
  end.

(** Pings without a pong since. *)
Definition unanswered (l : list Input) : Z :=
  fold_left (fun n i => match i with ITick => n + 1 | IPong => 0 | _ => n end) l 0.

Lemma transcript_snoc past l i : transcript past (l ++ [i]) = transcript past l ++ respond (past ++ l) i.
Proof.
  revert past. induction l as [|j l IH]; intros past; simpl; [by rewrite !app_nil_r|].
  rewrite IH, <- !app_assoc. done.
Qed.

Lemma subscribed_snoc l i c :
  subscribed (l ++ [i]) c = default (subscribed l c) (operation_on c i).
Proof.
  unfold subscribed. rewrite omap_app. simpl. destruct (operation_on c i); simpl; [by rewrite last_snoc|].
  by rewrite app_nil_r.
Qed.

Lemma unanswered_snoc l i :
  unanswered (l ++ [i]) = match i with ITick => unanswered l + 1 | IPong => 0 | _ => unanswered l end.
Proof. unfold unanswered. by rewrite fold_left_app. Qed.

Lemma unanswered_nonneg l : 0 <= unanswered l.
Proof. induction l as [|i l IH] using rev_ind; [done|]. rewrite unanswered_snoc. destruct i; lia. Qed.
End transcript.

(** The input a turn answered, if the loop goes on. *)
Definition input_of (b : Branch) : option Input :=
  match b with
  | Tick => Some ITick
  | Event (Received e) => Some (ITip e)
  | Event (Lagged n) => Some (IGap n)
  | Socket_ (TextIn t) => Some (IText t)
  | Socket_ (PingIn payload) => Some (IPing payload)
  | Socket_ PongIn => Some IPong
  | Socket_ BinaryIn => Some IBinary
  | _ => None
  end.

Section connections.
Variable parse_op : string -> option ClientOp.
Variable config : WsConfig.

Definition taken_by (so : Socket) (p : Poll) : list Input :=
  if so_open so && so_open (turn parse_op config so p) then
    match select p so with Some b => option_list (input_of b) | None => [] end
  else [].

Fixpoint taken (so : Socket) (l : list Poll) : list Input :=
  match l with
  | [] => []
  | p :: l => taken_by so p ++ taken (turn parse_op config so p) l
  end.

Variable initial : Channel.
Variable who : option string.

(** An open connection after the inputs [l]. *)
Record Serving (l : list Input) (so : Socket) : Prop := {
  se_identity : identity (so_subs so) = who;
  se_channels : forall c, c ∈ channels (so_subs so) <-> subscribed parse_op initial who l c = true;
  se_missed : so_missed_pongs so = unanswered l;
  se_alive : unanswered l <= max_missed_pongs config;
  se_sent : so_sent so = transcript parse_op initial who [] l
}.

(** A connection that was left after the inputs [l], maybe with a closing frame. *)
Definition Left (l : list Input) (so : Socket) : Prop :=
  exists closing, so_sent so = transcript parse_op initial who [] l ++ closing /\
    (closing = [] \/ closing = [CloseFrame 1001 "server shutting down"] \/
     closing = [CloseFrame 1000 "ping timeout"] /\ unanswered l = max_missed_pongs config).

Definition Follows (l : list Input) (so : Socket) : Prop :=
  if so_open so then Serving l so else Left l so.

Lemma should_forward_spec subs e :
  should_forward subs e = true <-> Public ∈ subs \/ OfCreator (ev_creator_id e) ∈ subs.
Proof.
  unfold should_forward. rewrite existsb_exists. split.
  - intros (c & Hc%list_elem_of_In%elem_of_elements & Hm). destruct c as [|n]; [by left|].
    simpl in Hm. apply String.eqb_eq in Hm. subst n. by right.
  - intros [Hc | Hc]; eexists; (split; [apply list_elem_of_In, elem_of_elements, Hc|]); simpl; [done|].
    by rewrite String.eqb_refl.
Qed.

Lemma forwards l so e :
  Serving l so -> should_forward (channels (so_subs so)) e =
    subscribed parse_op initial who l Public || subscribed parse_op initial who l (OfCreator (ev_creator_id e)).
Proof. intros Hs. apply eq_true_iff_eq. by rewrite should_forward_spec, orb_true_iff, !(se_channels _ _ Hs). Qed.

Lemma apply_text_follows l t s outcome s' :
  identity s = who -> (forall c, c ∈ channels s <-> subscribed parse_op initial who l c = true) ->
  apply_text parse_op t s = (outcome, s') ->
  outcome = answer parse_op who t /\ identity s' = who /\
  (forall c, c ∈ channels s' <-> subscribed parse_op initial who (l ++ [IText t]) c = true).
Proof.
  intros Hid Hc. unfold apply_text, answer. rewrite Hid.
  assert (forall c, operation_on parse_op who c (IText t) = None ->
    (c ∈ channels s <-> subscribed parse_op initial who (l ++ [IText t]) c = true)) as Hsame.
  { intros c Hn. rewrite subscribed_snoc, Hn. apply Hc. }
  unfold operation_on in Hsame.
  destruct (parse_op t) as [[x | x]|] eqn:Ht; [| |intros [= <- <-]; split_and!; try done; intros c; by apply Hsame].
  - destruct (parse x) as [c|] eqn:Hx; [|intros [= <- <-]; split_and!; try done; intros c; by apply Hsame].
    destruct (is_authorized_for who c) eqn:Ha; intros [= <- <-]; split_and!; try done.
    + intros c'. simpl. rewrite elem_of_union, elem_of_singleton, subscribed_snoc. unfold operation_on. rewrite Ht, Hx.
      destruct (decide (c' = c)) as [->|Hne]; [rewrite bool_decide_true, Ha by done; simpl; tauto|].
      rewrite bool_decide_false by congruence. simpl. rewrite <- Hc. naive_solver.
    + intros c'. apply Hsame. destruct (decide (c' = c)) as [->|Hne]; [by rewrite Ha, andb_false_r|].
      by rewrite bool_decide_false by congruence.
  - destruct (parse x) as [c|] eqn:Hx; [|intros [= <- <-]; split_and!; try done; intros c; by apply Hsame].
    intros [= <- <-]; split_and!; try done. intros c'. simpl. rewrite elem_of_difference, elem_of_singleton, subscribed_snoc.
    unfold operation_on. rewrite Ht, Hx.
    destruct (decide (c' = c)) as [->|Hne]; [rewrite bool_decide_true by done; simpl; naive_solver|].
    rewrite bool_decide_false by congruence. simpl. rewrite <- Hc. naive_solver.
Qed.

(** A turn that takes an input nothing but its answer comes from. *)
Lemma serving_takes l i so so' :
  Serving l so -> (forall c, operation_on parse_op who c i = None) ->
  so_subs so' = so_subs so -> so_sent so' = so_sent so ++ respond parse_op initial who l i ->
  so_missed_pongs so' = unanswered (l ++ [i]) -> unanswered (l ++ [i]) <= max_missed_pongs config ->
  Serving (l ++ [i]) so'.
Proof.
  intros [H1 H2 H3 H4 H5] Hop Hs Hsent Hm Hle. split; rewrite ?Hs; try done.
  - intros c. by rewrite subscribed_snoc, Hop.
  - by rewrite Hsent, transcript_snoc, H5.
Qed.

Lemma left_now l so so' closing :
  Serving l so -> so_sent so' = so_sent so ++ closing ->
  (closing = [] \/ closing = [CloseFrame 1001 "server shutting down"] \/
   closing = [CloseFrame 1000 "ping timeout"] /\ unanswered l = max_missed_pongs config) -> Left l so'.
Proof. intros Hs Hsent Hc. exists closing. by rewrite Hsent, (se_sent _ _ Hs). Qed.

Ltac leaves := eapply left_now; [eassumption | simpl; try reflexivity; by rewrite app_nil_r | tauto].

Lemma shutdown_follows l so p : Serving l so -> Left l (on_shutdown p so).
Proof. intros Hs. unfold on_shutdown. destruct (po_sends p); leaves. Qed.

Lemma tick_follows l so p :
  Serving l so -> so_open so = true -> let so' := on_tick config p so in
  if so_open so' then Serving (l ++ [ITick]) so' else Left l so'.
Proof.
  intros Hs Ho. unfold on_tick. pose proof (se_missed _ _ Hs) as Hm. pose proof (se_alive _ _ Hs) as Ha.
  destruct (Z.leb_spec (max_missed_pongs config) (so_missed_pongs so)) as [Hle | Hlt]; simpl.
  - destruct (po_sends p); [|leaves]. eapply left_now; [eassumption | reflexivity | right; right; split; [done | lia]].
  - unfold send_or_leave. destruct (po_sends p); simpl; [|leaves]. rewrite Ho.
    apply (serving_takes l ITick so); try done; rewrite unanswered_snoc; simpl; lia.
Qed.

Lemma event_follows l so p r :
  Serving l so -> so_open so = true -> let so' := on_event p r so in
  if so_open so' then Serving (l ++ option_list (input_of (Event r))) so' else Left l so'.
Proof.
  intros Hs Ho. destruct r as [e | n |]; simpl; [| |leaves].
  - pose proof (forwards _ _ e Hs) as Hf.
    destruct (should_forward _ e); simpl; [destruct (po_sends p); simpl; [|leaves] |]; rewrite Ho;
      (apply (serving_takes l (ITip e) so); try done; rewrite ?unanswered_snoc; try apply Hs; simpl;
       rewrite <- Hf, ?app_nil_r; done).
  - unfold send_or_leave. destruct (po_sends p); simpl; [|leaves]. rewrite Ho.
    apply (serving_takes l (IGap n) so); try done; rewrite ?unanswered_snoc; by apply Hs.
Qed.

(** The gauge and the idle deadline after a frame change nothing the client sees. *)
Lemma serving_same l so so' :
  Serving l so -> so_subs so' = so_subs so -> so_missed_pongs so' = so_missed_pongs so -> so_sent so' = so_sent so ->
  Serving l so'.
Proof. intros [] Hs Hm Hsent. split; rewrite ?Hs, ?Hm, ?Hsent; done. Qed.

Lemma frame_follows l so p i :
  Serving l so -> so_open so = true -> let so' := on_frame parse_op p i so in
  if so_open so' then Serving (l ++ option_list (input_of (Socket_ i))) so' else Left l so'.
Proof.
  intros Hs Ho. destruct i as [t | payload | | | | |]; simpl; try leaves.
  - destruct (apply_text parse_op t (so_subs so)) as [outcome s'] eqn:Ht.
    apply (apply_text_follows l) in Ht as (-> & Hid & Hc); [|apply Hs..].
    unfold send_or_leave. destruct (po_sends p); simpl; [|leaves]. rewrite Ho.
    split; simpl; try done; rewrite ?unanswered_snoc, ?transcript_snoc; simpl; try apply Hs.
    by rewrite (se_sent _ _ Hs).
  - unfold send_or_leave. destruct (po_sends p); simpl; [|leaves]. rewrite Ho.
    apply (serving_takes l (IPing payload) so); try done; rewrite ?unanswered_snoc; by apply Hs.
  - rewrite Ho. apply (serving_takes l IPong so); try done; rewrite ?unanswered_snoc; simpl; [by rewrite app_nil_r | done |].
    pose proof (unanswered_nonneg l). pose proof (se_alive _ _ Hs). lia.
  - rewrite Ho. apply (serving_takes l IBinary so); try done; rewrite ?unanswered_snoc; simpl; [by rewrite app_nil_r|..]; by apply Hs.
Qed.

Lemma incoming_follows l so p i :
  Serving l so -> so_open so = true -> let so' := on_incoming parse_op config p i so in
  if so_open so' then Serving (l ++ option_list (input_of (Socket_ i))) so' else Left l so'.
Proof.
  intros Hs Ho. unfold on_incoming. pose proof (frame_follows l so p i Hs Ho) as Hf. simpl in Hf.
  destruct (so_open (on_frame parse_op p i so)) eqn:Ho'; simpl; [|by rewrite Ho'].
  destruct (_ =? subscriptions so); destruct (_ =? 0); simpl; rewrite Ho'; simpl in Hf;
    by eapply serving_same; first apply Hf.
Qed.

Lemma turn_follows l so p :
  Follows l so -> Follows (l ++ taken_by so p) (turn parse_op config so p).
Proof.
  unfold Follows, taken_by, turn. destruct (so_open so) eqn:Ho; simpl; [|rewrite Ho, app_nil_r; done].
  intros Hs. destruct (select p so) as [b|]; [|by rewrite Ho, app_nil_r].
  destruct b as [| | | r | i]; cbn [run_branch].
  - simpl. rewrite app_nil_r. leaves.
  - simpl. rewrite app_nil_r. by apply shutdown_follows.
  - pose proof (tick_follows l so p Hs Ho) as H. cbv zeta in H. revert H.
    destruct (so_open (on_tick config p so)); by rewrite ?app_nil_r.
  - pose proof (event_follows l so p r Hs Ho) as H. cbv zeta in H. revert H.
    destruct (so_open (on_event p r so)); by rewrite ?app_nil_r.
  - pose proof (incoming_follows l so p i Hs Ho) as H. cbv zeta in H. revert H.
    destruct (so_open (on_incoming parse_op config p i so)); by rewrite ?app_nil_r.
Qed.

Lemma start_follows now m : 0 <= max_missed_pongs config -> Follows [] (start_socket config initial who now m).
Proof.
  intros Hmax. unfold Follows. simpl. split; try done; simpl.
  - intros c. rewrite elem_of_singleton. unfold subscribed. simpl. by rewrite bool_decide_eq_true.
Qed.
End connections.

Lemma elem_of_transcript parse_op initial who f past l :
  f ∈ transcript parse_op initial who past l ->
  exists l1 i l2, l = l1 ++ i :: l2 /\ f ∈ respond parse_op initial who (past ++ l1) i.
Proof.
  revert past. induction l as [|i l IH]; intros past; simpl; [by intros ?%elem_of_nil|].
  intros [Hf | Hf]%elem_of_app; [exists [], i, l; by rewrite app_nil_r|].
  destruct (IH _ Hf) as (l1 & j & l2 & -> & Hj). exists (i :: l1), j, l2. by rewrite <- app_assoc in Hj.
Qed.

Lemma subscribed_why parse_op initial who l c :
  subscribed parse_op initial who l c = true -> c = initial \/
  is_authorized_for who c = true /\
  exists t s, IText t ∈ l /\ parse_op t = Some (Subscribe s) /\ parse s = Some c.
Proof.
  unfold subscribed. destruct (last _) as [b|] eqn:Hl; simpl; [|rewrite bool_decide_eq_true; tauto].
  intros ->. right. apply last_Some_elem_of, list_elem_of_omap in Hl as (i & Hi & Hop).
  destruct i; try done. unfold operation_on in Hop. destruct (parse_op text) as [[s | s]|] eqn:Ht; [| |done].
  - destruct (bool_decide (parse s = Some c)) eqn:Hs; [|done]. apply bool_decide_eq_true in Hs.
    destruct (is_authorized_for who c); [|done]. split; [done|]. by exists text, s.
  - by destruct (bool_decide _).
Qed.

Lemma handle_socket_follows parse_op config initial who now m polls :
  0 <= max_missed_pongs config ->
  Follows parse_op config initial who (taken parse_op config (start_socket config initial who now m) polls)
    (handle_socket parse_op config initial who now m polls).
Proof.
  intros Hmax. unfold handle_socket. pose proof (start_follows parse_op config initial who now m Hmax) as Hf.
  set (so := start_socket config initial who now m) in *. clearbody so. change (taken _ _ _ _) with ([] ++ taken parse_op config so polls).
  revert so Hf. generalize (@nil Input). induction polls as [|p polls IH]; intros past so Hf; simpl; [by rewrite app_nil_r|].
  rewrite app_assoc. by apply IH, turn_follows.
Qed.

(** A tip that was sent was taken, and a channel of it was subscribed to. *)
Lemma tip_sent parse_op config initial who now m polls e :
  0 <= max_missed_pongs config ->
  TipFrame e ∈ so_sent (handle_socket parse_op config initial who now m polls) ->
  exists l1 l2, taken parse_op config (start_socket config initial who now m) polls = l1 ++ ITip e :: l2 /\
    subscribed parse_op initial who l1 Public || subscribed parse_op initial who l1 (OfCreator (ev_creator_id e)) = true.
Proof.
  intros Hmax He. pose proof (handle_socket_follows parse_op config initial who now m polls Hmax) as Hf.
  set (l := taken _ _ _ _) in *. unfold Follows in Hf.
  assert (TipFrame e ∈ transcript parse_op initial who [] l) as Ht.
  { destruct (so_open _); [by rewrite <- (se_sent _ _ _ _ _ _ Hf)|]. destruct Hf as (closing & Hsent & Hc). rewrite Hsent in He.
    apply elem_of_app in He as [He | He]; [done|]. destruct Hc as [-> | [-> | [-> _]]]; set_solver. }
  apply elem_of_transcript in Ht as (l1 & i & l2 & Hl & Hi). simpl in Hi. exists l1, l2. rewrite Hl.
  destruct i; simpl in Hi; try (by apply elem_of_nil in Hi); try (by apply list_elem_of_singleton in Hi).
  destruct (_ || _) eqn:Hs; [|by apply elem_of_nil in Hi]. apply list_elem_of_singleton in Hi as [= ->]. done.
Qed.

(** C38: In every history a client is sent, in order, what its connection should
    answer to the inputs it took: a tip exactly when the last valid operations
    subscribe it to a channel of the tip, the number of tips it missed, an answer
    to each operation; then at most one closing frame.  Counting the pongs the
    loop has read, a connection that is open has answered for every ping but
    [max_missed_pongs], and "ping timeout" is said only to one that left as many
    unanswered. *)
Theorem live_transcript parse_op config initial who now m polls :
  0 <= max_missed_pongs config ->
  let so := handle_socket parse_op config initial who now m polls in
  let l := taken parse_op config (start_socket config initial who now m) polls in
  exists closing, so_sent so = transcript parse_op initial who [] l ++ closing /\
    (so_open so = true -> closing = [] /\ unanswered l <= max_missed_pongs config /\
       forall c, c ∈ channels (so_subs so) <-> subscribed parse_op initial who l c = true) /\
    (closing = [] \/ closing = [CloseFrame 1001 "server shutting down"] \/
     closing = [CloseFrame 1000 "ping timeout"] /\ unanswered l = max_missed_pongs config).
Proof.
  intros Hmax so l. pose proof (handle_socket_follows parse_op config initial who now m polls Hmax) as Hf.
  fold so in Hf. fold l in Hf. unfold Follows in Hf. destruct (so_open so) eqn:Ho.
  - exists []. rewrite app_nil_r. split; [apply Hf|]. split; [|by left]. intros _. split_and!; [done | apply Hf..].
  - destruct Hf as (closing & Hsent & Hc). exists closing. done.
Qed.

(** A client that never asked for the public channel is sent the tips of one
    creator only: the subject of an access token the server validated when it
    connected. *)
Theorem live_isolation {St} `{RedisLaws string St} env jwt_decode_header jwt_decode query header
    (w w' : AuthWorld (St := St)) protocol channel claims parse_op config now m polls e :
  ws_handler env jwt_decode_header jwt_decode query header w = (Ok (Upgraded protocol channel claims), w') ->
  0 <= max_missed_pongs config ->
  TipFrame e ∈ so_sent (handle_socket parse_op config channel (sub <$> claims) now m polls) ->
  channel = Public \/
  (exists t s, IText t ∈ taken parse_op config (start_socket config channel (sub <$> claims) now m) polls /\
     parse_op t = Some (Subscribe s) /\ parse s = Some Public) \/
  exists token c,
    (wq_token query = Some token \/ wq_token query = None /\ token_from_protocol_header header = Some token) /\
    fst (validate_token env jwt_decode_header jwt_decode token "access" w) = Ok c /\ sub c = ev_creator_id e.
Proof.
  intros Hup Hmax He.
  assert (is_authorized_for (sub <$> claims) channel = true /\
    (forall c, claims = Some c -> exists token,
       (wq_token query = Some token \/ wq_token query = None /\ token_from_protocol_header header = Some token) /\
       fst (validate_token env jwt_decode_header jwt_decode token "access" w) = Ok c)) as [Hauth Htoken].
  { revert Hup. unfold ws_handler. destruct (parse _) as [ch|]; [|done]. unfold claims_of.
    set (token := match wq_token query with Some t => Some t | None => _ end).
    assert (forall t, token = Some t -> wq_token query = Some t \/ wq_token query = None /\
      token_from_protocol_header header = Some t) as Hwhich.
    { unfold token. intros t. destruct (wq_token query); [by left | by right]. }
    clearbody token. destruct token as [t|].
    - unfold attempt. run_m. destruct (validate_token _ _ _ t "access" w) as [[c | [err |]] w1] eqn:Hv; simpl;
        try (destruct (is_authorized_for _ ch) eqn:Ha; simpl; [|done]; intros [= _ <- <- _]; split; [done|]);
        [|done | done].
      intros c' [= <-]. exists t. split; [by apply Hwhich | by rewrite Hv].
    - run_m. destruct (is_authorized_for _ ch) eqn:Ha; simpl; [|done]. intros [= _ <- <- _]. done. }
  set (l := taken _ _ _ _). apply tip_sent in He as (l1 & l2 & Hl & Hs); [|done]. fold l in Hl.
  apply orb_true_iff in Hs as [Hs | Hs]; apply subscribed_why in Hs as [Hs | (Ha & t & s & Ht & Hop & Hp)].
  - by left.
  - right. left. exists t, s. split; [|done]. rewrite Hl. set_solver.
  - subst channel. right. right. simpl in Hauth. destruct claims as [c|]; [|done]. simpl in Hauth.
    apply String.eqb_eq in Hauth. destruct (Htoken c eq_refl) as (token & Hw & Hv). by exists token, c.
  - right. right. simpl in Ha. destruct claims as [c|]; [|done]. simpl in Ha.
    apply String.eqb_eq in Ha. destruct (Htoken c eq_refl) as (token & Hw & Hv). by exists token, c.
Qed.

(** ** Timers *)

(** One round of a client that only answers pings: the ping at [t], its pong a little later. *)
Definition quiet_round (t : Z) : list Poll :=
  [ {| po_now := t; po_shutdown := false; po_tick := true; po_event := None; po_incoming := None; po_sends := true |};
    {| po_now := t + 1; po_shutdown := false; po_tick := false; po_event := None; po_incoming := Some PongIn;
       po_sends := true |} ].

Fixpoint quiet_rounds (interval t : Z) (n : nat) : list Poll :=
  match n with
  | O => []
  | S n => quiet_round t ++ quiet_rounds interval (t + interval) n
  end.

(** The deadline of an idle connection is put off by every frame, pongs
    included: where pings are more frequent than the timeout, a client that
    answers them sits without subscriptions for as long as it likes. *)
Theorem idle_never_closes parse_op config so t n :
  0 < ping_interval config -> ping_interval config + 1 < idle_timeout config -> 1 <= max_missed_pongs config ->
  so_open so = true -> channels (so_subs so) = ∅ -> so_missed_pongs so = 0 -> t + 1 < so_idle_deadline so ->
  let so' := fold_left (turn parse_op config) (quiet_rounds (ping_interval config) t n) so in
  so_open so' = true /\ channels (so_subs so') = ∅.
Proof.
  intros Hp Hidle Hmax. revert so t. induction n as [|n IH]; intros so t Ho Hc Hm Hd; [done|].
  assert (fold_left (turn parse_op config) (quiet_round t) so =
    with_deadline (t + 1 + idle_timeout config) (with_missed 0 (put PingFrame (with_missed 1 so)))) as Hround.
  { unfold quiet_round. simpl. unfold turn at 2. rewrite Ho. simpl. unfold select at 1. simpl.
    rewrite (proj2 (Z.leb_gt _ _)), andb_false_r by lia. simpl. unfold on_tick. rewrite Hm.
    rewrite (proj2 (Z.leb_gt _ _)) by lia. unfold send_or_leave. simpl.
    unfold turn. simpl. rewrite Ho. simpl. unfold select. simpl.
    rewrite (proj2 (Z.leb_gt _ _)), andb_false_r by lia. simpl. unfold on_incoming, subscriptions. simpl. rewrite Ho, Hc. done. }
  cbn [quiet_rounds]. rewrite fold_left_app, Hround. apply IH; simpl; try done; lia.
Qed.

Definition ticks (l : list Poll) : Z := sumZ (map (fun p => if po_tick p then 1 else 0) l).

Lemma busy_turn parse_op config so p :
  is_Some (po_event p) -> channels (so_subs so) <> ∅ -> so_open (turn parse_op config so p) = true ->
  so_open so = true /\ channels (so_subs (turn parse_op config so p)) = channels (so_subs so) /\
  so_missed_pongs (turn parse_op config so p) = so_missed_pongs so + (if po_tick p then 1 else 0) /\
  (po_tick p = true -> so_missed_pongs so < max_missed_pongs config).
Proof.
  intros [r Hr] Hc. unfold turn. destruct (so_open so) eqn:Ho; simpl; [|congruence]. unfold select.
  rewrite bool_decide_false by done. simpl. destruct (po_shutdown p); [done|]. destruct (po_tick p); simpl.
  - unfold on_tick, send_or_leave. destruct (Z.leb_spec (max_missed_pongs config) (so_missed_pongs so)); [done|].
    destruct (po_sends p); simpl; [|done]. intros _. split_and!; done || lia.
  - rewrite Hr. simpl. rewrite Z.add_0_r. unfold on_event, send_or_leave. destruct r as [e | k |]; [| |done].
    + destruct (negb _); [done|]. by destruct (po_sends p).
    + by destruct (po_sends p).
Qed.

(** While tips are waiting no frame of the client is read, pongs included: a
    client that answers every ping is closed as soon as it was sent more pings
    than may be missed. *)
Theorem busy_stream_times_out parse_op config initial who now m polls :
  Forall (fun p => is_Some (po_event p)) polls -> 0 <= max_missed_pongs config -> max_missed_pongs config < ticks polls ->
  so_open (handle_socket parse_op config initial who now m polls) = false.
Proof.
  intros Hp Hmax Ht. apply not_true_iff_false. intros Ho.
  assert (so_missed_pongs (handle_socket parse_op config initial who now m polls) = ticks polls /\
    ticks polls <= max_missed_pongs config /\
    channels (so_subs (handle_socket parse_op config initial who now m polls)) = {[initial]}) as (_ & Hle & _); [|lia].
  clear Ht. revert Ho. unfold handle_socket. induction polls as [|p polls IH] using rev_ind; [intros _; simpl; split_and!; done || lia|].
  apply Forall_app in Hp as [Hpolls [Hr _]%Forall_cons]. rewrite fold_left_app. simpl. intros Ho.
  unfold ticks in *. rewrite map_app, sumZ_app. simpl. rewrite Z.add_0_r.
  set (so := fold_left _ _ _) in *. destruct (decide (so_open so = true)) as [Ho1 | Hn].
  - destruct (IH Hpolls Ho1) as (H1 & H2 & H3). apply busy_turn in Ho as (_ & Hc & Hm & Hb); [|done | rewrite H3; set_solver].
    rewrite Hm, Hc, H1. split_and!; [done | | done]. destruct (po_tick p); [specialize (Hb eq_refl) |]; lia.
  - exfalso. unfold turn in Ho. destruct (so_open so) eqn:Hso; [done|]. simpl in Ho. congruence.
Qed.

(** ** On concrete connections *)

Definition default_config : WsConfig := ws_config_from_env (fun _ => None).

Definition no_metrics : WsMetrics :=
  {| WS_ACTIVE_CONNECTIONS := 0; WS_SUBSCRIPTIONS := 0; WS_EVENTS_SENT_TOTAL := 0; WS_EVENTS_DROPPED_TOTAL := 0;
     AUTH_FAILURES_TOTAL := 0 |}.

(** Operations as the words of a line. *)
Definition parse_words (t : string) : option ClientOp :=
  match split_on " " t with
  | ["subscribe"; c] => Some (Subscribe c)
  | ["unsubscribe"; c] => Some (Unsubscribe c)
  | _ => None
  end.

Definition reads (now : Z) (i : Incoming) (sends : bool) : Poll :=
  {| po_now := now; po_shutdown := false; po_tick := false; po_event := None; po_incoming := Some i; po_sends := sends |}.

Definition hears (now : Z) (r : Recv) : Poll :=
  {| po_now := now; po_shutdown := false; po_tick := false; po_event := Some r; po_incoming := None; po_sends := true |}.

Definition tip_to (creator : string) : TipEvent :=
  {| ev_creator_id := creator; ev_tipper_id := "G"; ev_amount := 1; ev_timestamp := 0 |}.

(** A client unsubscribes and then only answers pings: with the default
    configuration it is still connected after an hour. *)
Lemma idle_never_closes_witness :
  let so := fold_left (turn parse_words default_config) (quiet_rounds (ping_interval default_config) (secs 30) 120)
    (handle_socket parse_words default_config Public None 0 no_metrics [reads 1 (TextIn "unsubscribe public") true]) in
  so_open so = true /\ channels (so_subs so) = ∅.
Proof.
  apply (idle_never_closes parse_words default_config
    (handle_socket parse_words default_config Public None 0 no_metrics [reads 1 (TextIn "unsubscribe public") true])
    (secs 30) 120); vm_compute; reflexivity || discriminate.
Defined.

Lemma busy_stream_times_out_witness :
  so_open (handle_socket parse_words default_config Public None 0 no_metrics
    (concat (replicate 3 [ {| po_now := 0; po_shutdown := false; po_tick := true;
                              po_event := Some (Received (tip_to "ann")); po_incoming := Some PongIn; po_sends := true |};
                           {| po_now := 1; po_shutdown := false; po_tick := false;
                              po_event := Some (Received (tip_to "ann")); po_incoming := Some PongIn; po_sends := true |}])))
  = false.
Proof.
  apply busy_stream_times_out; [repeat constructor; by eexists | vm_compute; discriminate | reflexivity].
Defined.

(** The answer to a subscription does not reach the client: the gauge has lost
    one more than it was given. *)
Example gauge_drifts :
  WS_SUBSCRIPTIONS (so_metrics (handle_socket parse_words default_config Public (Some "ann") 0 no_metrics
    [reads 1 (TextIn "subscribe creator:ann") false])) = -1.
Proof. reflexivity. Qed.

Definition session : list Poll :=
  [hears 1 (Received (tip_to "ann")); hears 2 (Received (tip_to "bob"));
   reads 3 (TextIn "subscribe creator:bob") true; hears 4 (Lagged 7);
   reads 5 (TextIn "unsubscribe creator:ann") true; hears 6 (Received (tip_to "ann"))].

Lemma live_transcript_witness :
  so_sent (handle_socket parse_words default_config (OfCreator "ann") (Some "ann") 0 no_metrics session) =
    [TipFrame (tip_to "ann"); OpFrame AuthRequired; GapFrame 7; OpFrame (Unsubscribed (OfCreator "ann"))].
Proof.
  destruct (live_transcript parse_words default_config (OfCreator "ann") (Some "ann") 0 no_metrics session)
    as (closing & Hsent & Hopen & _); [vm_compute; discriminate|].
  rewrite Hsent. destruct Hopen as [-> _]; [reflexivity|]. reflexivity.
Defined.

Definition anns_world : AuthWorld (St := redis_map string) :=
  {| aw_families := ∅; aw_redis := Some ∅; aw_creators := ∅; aw_now := 1000; aw_uuids := 0; aw_faults := [] |}.

Definition anns_token : string :=
  Eval vm_compute in
    match fst (issue_tokens demo_env (fun n => print_Z (Z.of_nat n)) demo_encode "ann" "creator" "F" 0 anns_world) with
    | Ok t => access_token t
    | Err _ => ""
    end.

Definition anns_claims : option Claims :=
  Eval vm_compute in
    match fst (validate_token demo_env demo_header demo_decode anns_token "access" anns_world) with
    | Ok c => Some c
    | Err _ => None
    end.

Definition anns_query : WsQuery := {| wq_token := None; wq_channel := Some "creator:ann" |}.

Lemma session_taken :
  taken parse_words default_config (start_socket default_config (OfCreator "ann") (Some "ann") 0 no_metrics) session =
  [ITip (tip_to "ann"); ITip (tip_to "bob"); IText "subscribe creator:bob"; IGap 7; IText "unsubscribe creator:ann";
   ITip (tip_to "ann")].
Proof. reflexivity. Qed.

Lemma live_isolation_witness :
  TipFrame (tip_to "ann") ∈
    so_sent (handle_socket parse_words default_config (OfCreator "ann") (sub <$> anns_claims) 0 no_metrics session) /\
  exists token c, token_from_protocol_header (Some ("v1, bearer." +:+ anns_token)) = Some token /\
    fst (validate_token demo_env demo_header demo_decode token "access" anns_world) = Ok c /\ sub c = "ann".
Proof.
  assert (TipFrame (tip_to "ann") ∈
    so_sent (handle_socket parse_words default_config (OfCreator "ann") (sub <$> anns_claims) 0 no_metrics session)) as Hin.
  { replace (so_sent _) with [TipFrame (tip_to "ann"); OpFrame AuthRequired; GapFrame 7;
      OpFrame (Unsubscribed (OfCreator "ann"))] by (vm_compute; reflexivity). by left. }
  split; [exact Hin|].
  destruct (live_isolation demo_env demo_header demo_decode anns_query (Some ("v1, bearer." +:+ anns_token)) anns_world anns_world
    (Some ("bearer." +:+ anns_token)) (OfCreator "ann") anns_claims parse_words default_config 0 no_metrics session
    (tip_to "ann")) as [Hpub | [(t & s & Ht & Hop & Hp) | (token & c & [Hq | [_ Hq]] & Hv & Hs)]].
  - vm_compute. reflexivity.
  - vm_compute. discriminate.
  - exact Hin.
  - discriminate Hpub.
  - exfalso. change (sub <$> anns_claims) with (Some "ann") in Ht. rewrite session_taken in Ht.
    repeat (apply elem_of_cons in Ht as [Ht | Ht]; [first [discriminate Ht | injection Ht as ->;
      first [discriminate Hop | injection Hop as <-; discriminate Hp]]|]).
    by apply elem_of_nil in Ht.
  - discriminate Hq.
  - exists token, c. split; [exact Hq | split; [exact Hv | exact Hs]].
Defined.

Definition revoked_jti : string := match anns_claims with Some c => jti c | None => "" end.

Definition after_revocation : AuthWorld (St := redis_map string) := snd (revoke_jti revoked_jti 900 anns_world).

(** A token that was revoked, and that every other route refuses, still opens a
    connection: the upgrade asks the revocation list nothing. *)
Example revoked_token_listens :
  fst (check_not_revoked revoked_jti "ann" 0 after_revocation) = Err (EApp (Unauthorized "Token has been revoked")) /\
  fst (ws_handler demo_env demo_header demo_decode anns_query (Some ("bearer." +:+ anns_token)) after_revocation) =
    Ok (Upgraded (Some ("bearer." +:+ anns_token)) (OfCreator "ann") anns_claims).
Proof. vm_compute. split; reflexivity. Qed.
