(* ===== verification/Mesh.v ===== *)
(** * Service mesh routing

    The registry of instances (src/src/service_mesh/discovery.rs), the load
    balancer with its sticky sessions (service_mesh/load_balancer.rs), the
    canary router (service_mesh/traffic_router.rs), the upstream resolution of
    the gateway (src/src/gateway/api_gateway.rs) with the breaker of file
    Resilience, and the routes over them (src/src/routes/load_balancer.rs).

    An instance is identified by the text of its uuid.  A map behind a lock and
    an atomic counter are fields of the balancer; [select] is made of the
    atomic accesses it makes ([pinned_instance], [choose], [pin]), so that a
    history may interleave them.  [usize] has 64 bits and wraps around. *)

From S2P Require Import Prelude Text Errors Resilience.
From Stdlib Require Import Znumtheory.

(** ** service_mesh/discovery.rs *)

(** src/src/service_mesh/discovery.rs:7-14 ServiceInstance *)
Record ServiceInstance : Type := {
  si_id : string;
  si_name : string;
  si_host : string;
  si_port : Z;
  si_healthy : bool
}.

#[export] Instance ServiceInstance_eq_dec : EqDecision ServiceInstance.
Proof. solve_decision. Defined.

(** src/src/service_mesh/discovery.rs:16-18 ServiceRegistry *)
Definition ServiceRegistry : Type := gmap string (list ServiceInstance).

(** src/src/service_mesh/discovery.rs:21-25 ServiceRegistry::new *)
Definition registry_new : ServiceRegistry := ∅.

(** src/src/service_mesh/discovery.rs:27-33 ServiceRegistry::register *)
Definition register (service : ServiceInstance) (services : ServiceRegistry) : ServiceRegistry :=
  <[si_name service := default [] (services !! si_name service) ++ [service]]> services.

(** src/src/service_mesh/discovery.rs:35-40 ServiceRegistry::deregister *)
Definition deregister (service_name service_id : string) (services : ServiceRegistry) : ServiceRegistry :=
  match services !! service_name with
  | Some instances => <[service_name := List.filter (fun s => negb (String.eqb (si_id s) service_id)) instances]> services
  | None => services
  end.

(** src/src/service_mesh/discovery.rs:42-47 ServiceRegistry::discover *)
Definition discover (service_name : string) (services : ServiceRegistry) : option ServiceInstance :=
  services !! service_name ≫= head.

(** src/src/service_mesh/discovery.rs:49-55 ServiceRegistry::discover_all *)
Definition discover_all (service_name : string) (services : ServiceRegistry) : list ServiceInstance :=
  default [] (services !! service_name).

(** ** service_mesh/load_balancer.rs *)

(** src/src/service_mesh/load_balancer.rs:7-11 LoadBalancingStrategy *)
Inductive LoadBalancingStrategy : Type := RoundRobin | LeastConnections | Random.

(** src/src/service_mesh/load_balancer.rs:13-20 LoadBalancer *)
Record LoadBalancer : Type := {
  lb_strategy : LoadBalancingStrategy;
  lb_counter : Z;
  lb_connections : gmap string Z;
  lb_sticky : gmap string string
}.

(** src/src/service_mesh/load_balancer.rs:23-30 LoadBalancer::new *)
Definition balancer_new (strategy : LoadBalancingStrategy) : LoadBalancer :=
  {| lb_strategy := strategy; lb_counter := 0; lb_connections := ∅; lb_sticky := ∅ |}.

Definition with_counter (n : Z) (lb : LoadBalancer) : LoadBalancer :=
  {| lb_strategy := lb_strategy lb; lb_counter := n; lb_connections := lb_connections lb; lb_sticky := lb_sticky lb |}.
Definition with_connections (m : gmap string Z) (lb : LoadBalancer) : LoadBalancer :=
  {| lb_strategy := lb_strategy lb; lb_counter := lb_counter lb; lb_connections := m; lb_sticky := lb_sticky lb |}.
Definition with_sticky (m : gmap string string) (lb : LoadBalancer) : LoadBalancer :=
  {| lb_strategy := lb_strategy lb; lb_counter := lb_counter lb; lb_connections := lb_connections lb; lb_sticky := m |}.

(** src/src/service_mesh/load_balancer.rs:38-38 LoadBalancer::select *)
Definition healthy_of (instances : list ServiceInstance) : list ServiceInstance := List.filter si_healthy instances.

(** src/src/service_mesh/load_balancer.rs:44-51 LoadBalancer::select *)
Definition pinned_instance (healthy : list ServiceInstance) (session_key : option string) (lb : LoadBalancer)
    : option ServiceInstance :=
  match session_key with
  | Some key =>
      pinned_id ← lb_sticky lb !! key;
      List.find (fun i => String.eqb (si_id i) pinned_id) healthy
  | None => None
  end.

(** The requests an instance is serving, as far as the balancer was told. *)
Definition connections (lb : LoadBalancer) (i : ServiceInstance) : Z := default 0 (lb_connections lb !! si_id i).

(** [Iterator::min_by_key]: the first of the minima. *)
Fixpoint min_by_key {A} (key : A -> Z) (l : list A) : option A :=
  match l with
  | [] => None
  | x :: l' =>
      match min_by_key key l' with
      | Some y => if key y <? key x then Some y else Some x
      | None => Some x
      end
  end.

(** [healthy[idx]]: out of range it would panic, here [None]. *)
Definition at_index (healthy : list ServiceInstance) (n : Z) : option ServiceInstance :=
  healthy !! Z.to_nat (n mod Z.of_nat (length healthy)).

(** src/src/service_mesh/load_balancer.rs:53-69 LoadBalancer::select *)
Definition choose (healthy : list ServiceInstance) (lb : LoadBalancer) : option ServiceInstance * LoadBalancer :=
  match lb_strategy lb with
  | RoundRobin => (at_index healthy (lb_counter lb), with_counter (wrap_u64 (lb_counter lb + 1)) lb)
  | LeastConnections => (min_by_key (connections lb) healthy, lb)
  | Random => (at_index healthy (wrap_u64 (lb_counter lb * 7919)), with_counter (wrap_u64 (lb_counter lb + 1)) lb)
  end.

(** src/src/service_mesh/load_balancer.rs:71-77 LoadBalancer::select *)
Definition pin (session_key : option string) (chosen : ServiceInstance) (lb : LoadBalancer) : LoadBalancer :=
  match session_key with
  | Some key => with_sticky (<[key := si_id chosen]> (lb_sticky lb)) lb
  | None => lb
  end.

(** src/src/service_mesh/load_balancer.rs:33-80 LoadBalancer::select *)
Definition select (instances : list ServiceInstance) (session_key : option string) (lb : LoadBalancer)
    : option ServiceInstance * LoadBalancer :=
  let healthy := healthy_of instances in
  match healthy with
  | [] => (None, lb)
  | _ =>
      match pinned_instance healthy session_key lb with
      | Some inst => (Some inst, lb)
      | None =>
          match choose healthy lb with
          | (Some chosen, lb) => (Some chosen, pin session_key chosen lb)
          | (None, lb) => (None, lb)
          end
      end
  end.

(** src/src/service_mesh/load_balancer.rs:83-90 LoadBalancer::on_request_start *)
Definition on_request_start (instance_id : string) (lb : LoadBalancer) : LoadBalancer :=
  with_connections (<[instance_id := wrap_u64 (default 0 (lb_connections lb !! instance_id) + 1)]> (lb_connections lb)) lb.

(** src/src/service_mesh/load_balancer.rs:93-97 LoadBalancer::on_request_end *)
Definition on_request_end (instance_id : string) (lb : LoadBalancer) : LoadBalancer :=
  with_connections (<[instance_id := u64_saturating_sub (default 0 (lb_connections lb !! instance_id)) 1]> (lb_connections lb)) lb.

(** src/src/service_mesh/load_balancer.rs:100-102 LoadBalancer::clear_session *)
Definition clear_session (session_key : string) (lb : LoadBalancer) : LoadBalancer :=
  with_sticky (delete session_key (lb_sticky lb)) lb.

Section health.
(** The status an instance answers to a request for this URL; [None] when it cannot be reached. *)
Variable http_get : string -> option Z.

(** src/src/service_mesh/load_balancer.rs:106-112 check_instance_health *)
Definition check_instance_health (instance : ServiceInstance) : bool :=
  match http_get ("http://" +:+ si_host instance +:+ ":" +:+ print_Z (si_port instance) +:+ "/health") with
  | Some status => (200 <=? status) && (status <=? 299)
  | None => false
  end.

(** src/src/service_mesh/load_balancer.rs:115-127 refresh_health *)
Definition refresh_health (instances : list ServiceInstance) : list ServiceInstance :=
  map (fun i => {| si_id := si_id i; si_name := si_name i; si_host := si_host i; si_port := si_port i;
                   si_healthy := check_instance_health i |}) instances.

(** The answer of GET /lb/health. *)
Record LbHealth : Type := { lh_total : Z; lh_healthy : Z; lh_unhealthy : Z; lh_instances : list ServiceInstance }.

(** src/src/routes/load_balancer.rs:15-30 lb_health *)
Definition lb_health (registry : ServiceRegistry) : LbHealth :=
  let instances := refresh_health (discover_all "stellar-tipjar-backend" registry) in
  let healthy := Z.of_nat (length (healthy_of instances)) in
  {| lh_total := Z.of_nat (length instances); lh_healthy := healthy;
     lh_unhealthy := Z.of_nat (length instances) - healthy; lh_instances := instances |}.
End health.

(** ** routes/load_balancer.rs, service_mesh/mesh_monitor.rs *)

(** src/src/routes/load_balancer.rs:33-50 lb_failover *)
Definition lb_failover (registry : ServiceRegistry) : Z * option ServiceInstance :=
  let instances := discover_all "stellar-tipjar-backend" registry in
  match fst (select instances None (balancer_new RoundRobin)) with
  | Some inst => (200, Some inst)
  | None => (503, None)
  end.

(** The balancer that the handler creates, uses and drops.
    src/src/routes/load_balancer.rs:53-63 clear_sticky_session *)
Definition clear_sticky_session (registry : ServiceRegistry) (key : string) : Z * LoadBalancer :=
  let instances := discover_all "stellar-tipjar-backend" registry in
  let lb := snd (select instances (Some key) (balancer_new RoundRobin)) in
  (204, clear_session key lb).

(** src/src/service_mesh/mesh_monitor.rs:4-9 ServiceHealth *)
Record ServiceHealth : Type := { sh_name : string; sh_total : Z; sh_healthy : Z }.

(** src/src/service_mesh/mesh_monitor.rs:12-36 mesh_health *)
Definition mesh_health (registry : ServiceRegistry) : list ServiceHealth :=
  flat_map (fun name =>
    match discover_all name registry with
    | [] => []
    | instances => [{| sh_name := name; sh_total := Z.of_nat (length instances);
                       sh_healthy := Z.of_nat (length (healthy_of instances)) |}]
    end) ["stellar-tipjar-backend"; "stellar-horizon"; "database"; "redis"].

(** ** service_mesh/traffic_router.rs *)

(** src/src/service_mesh/traffic_router.rs:6-10 TrafficRouter *)
Record TrafficRouter : Type := { tr_canary_weight : Z; tr_counter : Z }.

(** src/src/service_mesh/traffic_router.rs:13-18 TrafficRouter::new *)
Definition router_new (canary_weight : Z) : TrafficRouter :=
  {| tr_canary_weight := Z.min canary_weight 100; tr_counter := 0 |}.

(** src/src/service_mesh/traffic_router.rs:21-23 TrafficRouter::set_canary_weight *)
Definition set_canary_weight (weight : Z) (r : TrafficRouter) : TrafficRouter :=
  {| tr_canary_weight := Z.min weight 100; tr_counter := tr_counter r |}.

(** src/src/service_mesh/traffic_router.rs:31-45 TrafficRouter::route *)
Definition route (stable canary : list ServiceInstance) (r : TrafficRouter) : option ServiceInstance * TrafficRouter :=
  let n := tr_counter r in
  let weight := tr_canary_weight r in
  let use_canary := negb (bool_decide (canary = [])) && (n mod 100 <? weight) in
  (if use_canary then canary !! Z.to_nat (n mod Z.of_nat (length canary))
   else stable !! Z.to_nat (n mod Z.max (Z.of_nat (length stable)) 1),
   {| tr_canary_weight := weight; tr_counter := wrap_u64 (n + 1) |}).

(** [k] requests, one after the other. *)
Fixpoint routes (k : nat) (stable canary : list ServiceInstance) (r : TrafficRouter) : list (option ServiceInstance) :=
  match k with
  | O => []
  | S k' => let '(o, r) := route stable canary r in o :: routes k' stable canary r
  end.

(** ** gateway/api_gateway.rs *)

(** src/src/gateway/api_gateway.rs:15-19 ApiGateway *)
Record ApiGateway : Type := {
  gw_registry : ServiceRegistry;
  gw_breakers : gmap string MeshBreaker;
  gw_balancer : LoadBalancer
}.

(** src/src/gateway/api_gateway.rs:22-28 ApiGateway::new *)
Definition gateway_new (registry : ServiceRegistry) : ApiGateway :=
  {| gw_registry := registry; gw_breakers := ∅; gw_balancer := balancer_new RoundRobin |}.

(** src/src/gateway/api_gateway.rs:46-58 ApiGateway::route_request *)
Definition breaker_of (service_name : string) (gw : ApiGateway) : MeshBreaker :=
  default (mb_new 5 2 (30 * 10 ^ 9)) (gw_breakers gw !! service_name).

Definition with_breaker (service_name : string) (b : MeshBreaker) (gw : ApiGateway) : ApiGateway :=
  {| gw_registry := gw_registry gw; gw_breakers := <[service_name := b]> (gw_breakers gw); gw_balancer := gw_balancer gw |}.
Definition with_balancer (lb : LoadBalancer) (gw : ApiGateway) : ApiGateway :=
  {| gw_registry := gw_registry gw; gw_breakers := gw_breakers gw; gw_balancer := lb |}.
Definition with_registry (f : ServiceRegistry -> ServiceRegistry) (gw : ApiGateway) : ApiGateway :=
  {| gw_registry := f (gw_registry gw); gw_breakers := gw_breakers gw; gw_balancer := gw_balancer gw |}.

Definition upstream (instance : ServiceInstance) : string :=
  "http://" +:+ si_host instance +:+ ":" +:+ print_Z (si_port instance).

(** Time is in nanoseconds.
    src/src/gateway/api_gateway.rs:36-81 ApiGateway::route_request *)
Definition route_request (service_name : string) (now : Z) (gw : ApiGateway) : result string AppError * ApiGateway :=
  match discover_all service_name (gw_registry gw) with
  | [] => (Err (not_found ("No instances registered for service '" +:+ service_name +:+ "'")), gw)
  | instances =>
      let breaker := mb_check_half_open now (breaker_of service_name gw) in
      let gw := with_breaker service_name breaker gw in
      if mb_is_open breaker
      then (Err (service_unavailable ("Service '" +:+ service_name +:+
                   "' is temporarily unavailable (circuit breaker open)")), gw)
      else
        match select instances None (gw_balancer gw) with
        | (None, lb) => (Err (service_unavailable "No healthy instances available"), with_balancer lb gw)
        | (Some instance, lb) =>
            (Ok (upstream instance), with_breaker service_name (mb_record_success breaker) (with_balancer lb gw))
        end
  end.

(** ** Histories *)

(** What reaches the registry. *)
Inductive registry_op : Type :=
| RegisterOp (s : ServiceInstance)
| DeregisterOp (name id : string).

Definition registry_apply (services : ServiceRegistry) (op : registry_op) : ServiceRegistry :=
  match op with
  | RegisterOp s => register s services
  | DeregisterOp name id => deregister name id services
  end.

(** The abstract registry: what was registered under a name and not taken away since, in order. *)
Definition removes (name id : string) (op : registry_op) : bool :=
  match op with
  | DeregisterOp n i => String.eqb n name && String.eqb i id
  | RegisterOp _ => false
  end.

Fixpoint present (ops : list registry_op) (name : string) : list ServiceInstance :=
  match ops with
  | [] => []
  | RegisterOp s :: rest =>
      if String.eqb (si_name s) name && negb (existsb (removes name (si_id s)) rest)
      then s :: present rest name else present rest name
  | DeregisterOp _ _ :: rest => present rest name
  end.

(** One atomic access of a task to the balancer: the choice of a request, the
    pin it makes later, the two counts of a request, the end of a session. *)
Inductive access : Type :=
| AChoose
| APin (session_key : option string) (chosen : ServiceInstance)
| AStart (id : string)
| AEnd (id : string)
| AClear (session_key : string).

Definition access_run (healthy : list ServiceInstance) (a : access) (lb : LoadBalancer)
    : list (option ServiceInstance) * LoadBalancer :=
  match a with
  | AChoose => let '(o, lb) := choose healthy lb in ([o], lb)
  | APin key chosen => ([], pin key chosen lb)
  | AStart id => ([], on_request_start id lb)
  | AEnd id => ([], on_request_end id lb)
  | AClear key => ([], clear_session key lb)
  end.

(** The choices made along a history of accesses, while the healthy instances stay the same. *)
Fixpoint choices (healthy : list ServiceInstance) (h : list access) (lb : LoadBalancer) : list (option ServiceInstance) :=
  match h with
  | [] => []
  | a :: h' => let '(o, lb) := access_run healthy a lb in o ++ choices healthy h' lb
  end.

(** Whole requests, each with the instances known when it came. *)
Inductive lb_op : Type :=
| OSelect (instances : list ServiceInstance) (session_key : option string)
| OStart (id : string)
| OEnd (id : string)
| OClear (session_key : string).

Definition lb_apply (lb : LoadBalancer) (op : lb_op) : LoadBalancer :=
  match op with
  | OSelect instances key => snd (select instances key lb)
  | OStart id => on_request_start id lb
  | OEnd id => on_request_end id lb
  | OClear key => clear_session key lb
  end.

(** An operation that leaves the session [key] where it is: not its end, and
    not a request of it that finds its instance gone while another is healthy. *)
Definition keeps (key id : string) (op : lb_op) : Prop :=
  match op with
  | OClear k => k <> key
  | OSelect instances (Some k) =>
      k = key -> healthy_of instances = [] \/ id ∈ (si_id <$> healthy_of instances)
  | _ => True
  end.

(** The factor by which a strategy steps through the healthy instances. *)
Definition stride (s : LoadBalancingStrategy) : option Z :=
  match s with
  | RoundRobin => Some 1
  | Random => Some 7919
  | LeastConnections => None
  end.

(** What happens at the gateway. *)
Inductive gw_op : Type :=
| GRegistry (op : registry_op)
| GRequest (service_name : string) (now : Z).

Definition gw_apply (gw : ApiGateway) (op : gw_op) : ApiGateway :=
  match op with
  | GRegistry op => with_registry (fun r => registry_apply r op) gw
  | GRequest service_name now => snd (route_request service_name now gw)
  end.

(** * Lemmas *)

(** ** The registry *)

Lemma present_snoc_register ops s name :
  present (ops ++ [RegisterOp s]) name = present ops name ++ (if String.eqb (si_name s) name then [s] else []).
Proof.
  induction ops as [|[s'|n i] ops IH]; simpl.
  - rewrite andb_true_r. by destruct (String.eqb (si_name s) name).
  - rewrite existsb_app. simpl. rewrite !orb_false_r, IH. by destruct (_ && _).
  - apply IH.
Qed.

Lemma present_snoc_deregister ops n i name :
  present (ops ++ [DeregisterOp n i]) name =
  if String.eqb n name then List.filter (fun s => negb (String.eqb (si_id s) i)) (present ops name) else present ops name.
Proof.
  induction ops as [|[s'|n' i'] ops IH]; simpl.
  - by destruct (String.eqb n name).
  - rewrite existsb_app. simpl. rewrite orb_false_r, IH, (String.eqb_sym i).
    destruct (String.eqb (si_name s') name), (existsb _ ops), (String.eqb n name); simpl; try reflexivity;
      by destruct (String.eqb (si_id s') i).
  - apply IH.
Qed.

Lemma discover_all_register s name r :
  discover_all name (register s r) = discover_all name r ++ (if String.eqb (si_name s) name then [s] else []).
Proof.
  unfold discover_all, register, ServiceRegistry in *. destruct (String.eqb_spec (si_name s) name) as [->|].
  - by rewrite lookup_insert_eq.
  - by rewrite lookup_insert_ne, app_nil_r.
Qed.

Lemma discover_all_deregister n i name r :
  discover_all name (deregister n i r) =
  if String.eqb n name then List.filter (fun s => negb (String.eqb (si_id s) i)) (discover_all name r) else discover_all name r.
Proof.
  unfold discover_all, deregister, ServiceRegistry in *. destruct (String.eqb_spec n name) as [->|].
  - destruct (r !! name) eqn:E; simpl; [by rewrite lookup_insert_eq|by rewrite E].
  - destruct (r !! n); [by rewrite lookup_insert_ne|done].
Qed.

(** In every history of registrations and deregistrations the instances
    discovered under a name are those registered under it and not
    deregistered since, in the order of their registration. *)
Theorem registry_refines ops name :
  discover_all name (fold_left registry_apply ops registry_new) = present ops name.
Proof.
  induction ops as [|op ops IH] using rev_ind; [done|].
  rewrite fold_left_app. simpl. destruct op as [s|n i]; simpl.
  - by rewrite discover_all_register, present_snoc_register, IH.
  - by rewrite discover_all_deregister, present_snoc_deregister, IH.
Qed.

(** ** The choice of an instance *)

Lemma healthy_of_spec instances i : i ∈ healthy_of instances <-> i ∈ instances /\ si_healthy i = true.
Proof. unfold healthy_of. rewrite !list_elem_of_In, filter_In. done. Qed.

Lemma at_index_some healthy n : healthy <> [] -> exists i, at_index healthy n = Some i /\ i ∈ healthy.
Proof.
  intros H. unfold at_index. assert (0 < Z.of_nat (length healthy)) by (destruct healthy; [done|simpl; lia]).
  pose proof (Z.mod_pos_bound n (Z.of_nat (length healthy))) as B.
  destruct (lookup_lt_is_Some_2 healthy (Z.to_nat (n mod Z.of_nat (length healthy)))) as [i Hi]; [lia|].
  exists i. split; [done|]. by eapply list_elem_of_lookup_2.
Qed.

Lemma min_by_key_spec {A} (key : A -> Z) l :
  match min_by_key key l with
  | None => l = []
  | Some x => exists before after, l = before ++ x :: after /\
                (forall y, y ∈ before -> key x < key y) /\ (forall y, y ∈ after -> key x <= key y)
  end.
Proof.
  induction l as [|x l IH]; simpl; [done|].
  destruct (min_by_key key l) as [y|].
  - destruct IH as (b & a & -> & Hb & Ha). destruct (key y <? key x) eqn:E; zbool.
    + exists (x :: b), a. split; [done|]. split; [|done]. intros z [->|Hz]%elem_of_cons; [lia|by apply Hb].
    + exists [], (b ++ y :: a). split; [done|]. split; [by intros z ?%elem_of_nil|].
      intros z [Hz|[->|Hz]%elem_of_cons]%elem_of_app; [specialize (Hb z Hz)|..]; try lia. specialize (Ha z Hz). lia.
  - subst. exists [], []. split; [done|]. split; by intros ? ?%elem_of_nil.
Qed.

Lemma choose_some healthy lb : healthy <> [] ->
  exists i lb', choose healthy lb = (Some i, lb') /\ i ∈ healthy /\ lb_sticky lb' = lb_sticky lb.
Proof.
  intros H. unfold choose. destruct (lb_strategy lb).
  - destruct (at_index_some healthy (lb_counter lb) H) as (i & -> & ?). eauto.
  - pose proof (min_by_key_spec (connections lb) healthy) as M.
    destruct (min_by_key _ healthy) as [i|]; [|done]. destruct M as (b & a & -> & _).
    exists i, lb. split; [done|]. split; [apply elem_of_app; right; by left|done].
  - destruct (at_index_some healthy (wrap_u64 (lb_counter lb * 7919)) H) as (i & -> & ?). eauto.
Qed.

Lemma pinned_instance_some healthy key lb i : pinned_instance healthy (Some key) lb = Some i ->
  i ∈ healthy /\ lb_sticky lb !! key = Some (si_id i).
Proof.
  unfold pinned_instance. intros H. apply bind_Some in H as (id & Hid & [Hin E]%find_some).
  apply String.eqb_eq in E. subst. by rewrite list_elem_of_In.
Qed.

Lemma pinned_instance_found healthy key lb id :
  lb_sticky lb !! key = Some id -> id ∈ (si_id <$> healthy) ->
  exists i, pinned_instance healthy (Some key) lb = Some i /\ i ∈ healthy /\ si_id i = id.
Proof.
  intros Hs (x & -> & Hx)%list_elem_of_fmap. unfold pinned_instance. rewrite Hs. simpl.
  destruct (List.find _ healthy) as [i|] eqn:E.
  - apply find_some in E as [Hi Hd]. apply String.eqb_eq in Hd. exists i. by rewrite list_elem_of_In.
  - apply list_elem_of_In in Hx. apply (find_none _ _ E) in Hx. by rewrite String.eqb_refl in Hx.
Qed.

Lemma select_cases instances key lb :
  healthy_of instances <> [] ->
  exists i lb', select instances key lb = (Some i, lb') /\ i ∈ healthy_of instances /\
    (pinned_instance (healthy_of instances) key lb = Some i /\ lb' = lb \/
     pinned_instance (healthy_of instances) key lb = None /\
       lb' = pin key i (snd (choose (healthy_of instances) lb)) /\ fst (choose (healthy_of instances) lb) = Some i).
Proof.
  intros H. unfold select. destruct (healthy_of instances) as [|x hs] eqn:Eh; [done|].
  destruct (pinned_instance (x :: hs) key lb) as [i|] eqn:Ep.
  - exists i, lb. split; [done|]. split; [|by left].
    destruct key as [k|]; [|done]. by apply pinned_instance_some in Ep as [? _].
  - destruct (choose_some (x :: hs) lb H) as (i & lb' & E & Hi & _). rewrite E.
    exists i, (pin key i lb'). split; [done|]. split; [done|]. right. done.
Qed.

(** A request is given an instance exactly when one is healthy, and only a
    healthy one of those it was given; the index is never out of range. *)
Theorem select_sound instances key lb :
  match fst (select instances key lb) with
  | Some i => i ∈ instances /\ si_healthy i = true
  | None => forall i, i ∈ instances -> si_healthy i = false
  end.
Proof.
  destruct (decide (healthy_of instances = [])) as [E|N].
  - unfold select. rewrite E. simpl. intros i Hi. destruct (si_healthy i) eqn:Hh; [|done].
    assert (i ∈ healthy_of instances) as Hin by by apply healthy_of_spec.
    rewrite E in Hin. by apply elem_of_nil in Hin.
  - destruct (select_cases instances key lb N) as (i & lb' & -> & Hi & _). by apply healthy_of_spec.
Qed.

(** Least connections: the chosen instance serves no more requests than any
    other healthy one, and fewer than those before it. *)
Theorem least_loaded instances lb i :
  lb_strategy lb = LeastConnections ->
  fst (select instances None lb) = Some i ->
  exists before after, healthy_of instances = before ++ i :: after /\
    (forall j, j ∈ before -> connections lb i < connections lb j) /\
    (forall j, j ∈ after -> connections lb i <= connections lb j).
Proof.
  intros Hs. unfold select. destruct (healthy_of instances) as [|x hs] eqn:E; [done|].
  change (pinned_instance (x :: hs) None lb) with (@None ServiceInstance).
  unfold choose. rewrite Hs.
  pose proof (min_by_key_spec (connections lb) (x :: hs)) as M.
  destruct (min_by_key (connections lb) (x :: hs)); simpl; [|done]. intros [= ->]. exact M.
Qed.

(** ** Sticky sessions *)

Lemma lb_sticky_select key id instances k lb :
  lb_sticky lb !! key = Some id -> keeps key id (OSelect instances k) ->
  lb_sticky (snd (select instances k lb)) !! key = Some id.
Proof.
  intros Hs Hk. destruct (decide (healthy_of instances = [])) as [E|N].
  { unfold select. by rewrite E. }
  destruct (select_cases instances k lb N) as (i & lb' & -> & Hi & [[Hp ->]|(Hp & -> & _)]); [done|].
  destruct (choose_some _ lb N) as (j & lb'' & Ec & _ & Es). rewrite Ec. simpl.
  destruct k as [k|]; simpl; [|by rewrite Es].
  destruct (decide (k = key)) as [->|]; [|by rewrite lookup_insert_ne, Es].
  destruct (Hk eq_refl) as [?|Hin]; [done|].
  destruct (pinned_instance_found _ key lb id Hs Hin) as (z & Hz & _). by rewrite Hz in Hp.
Qed.

Lemma sticky_kept key id ops lb :
  lb_sticky lb !! key = Some id -> Forall (keeps key id) ops ->
  lb_sticky (fold_left lb_apply ops lb) !! key = Some id.
Proof.
  revert lb. induction ops as [|op ops IH]; intros lb Hs [Hk Hks]%Forall_cons || intros lb Hs _; [done|].
  simpl. apply IH; [|done]. destruct op as [l k|?|?|k]; simpl; [by apply lb_sticky_select|done..|].
  rewrite lookup_delete_ne; [done|]. simpl in Hk. congruence.
Qed.

(** Once a request of a session was answered with an instance, every later
    request of the session is answered with the same instance while it is
    healthy, whatever other sessions, loads and changes of the registry come
    in between, until the session is cleared. *)
Theorem sticky_session_holds instances key lb i ops instances' :
  fst (select instances (Some key) lb) = Some i ->
  Forall (keeps key (si_id i)) ops ->
  si_id i ∈ (si_id <$> healthy_of instances') ->
  si_id <$> fst (select instances' (Some key) (fold_left lb_apply ops (snd (select instances (Some key) lb)))) = Some (si_id i).
Proof.
  intros Hi Hk Hin.
  assert (lb_sticky (snd (select instances (Some key) lb)) !! key = Some (si_id i)) as Hs.
  { destruct (decide (healthy_of instances = [])) as [E|N].
    { unfold select in Hi. by rewrite E in Hi. }
    destruct (select_cases instances (Some key) lb N) as (j & lb' & E & Hj & [[Hp ->]|(_ & -> & _)]);
      rewrite E in Hi |- *; simpl in Hi |- *; injection Hi as ->.
    - by apply pinned_instance_some in Hp as [_ ?].
    - apply lookup_insert_eq. }
  apply (sticky_kept _ _ ops) in Hs; [|done].
  set (lb' := fold_left _ _ _) in *.
  destruct (pinned_instance_found _ key lb' _ Hs Hin) as (j & Hj & _ & Hid).
  unfold select. destruct (healthy_of instances') as [|x hs]; [by apply elem_of_nil in Hin|].
  rewrite Hj. simpl. by rewrite Hid.
Qed.

(** ** Fairness *)

Lemma stride_permutes c s m : 0 < m -> Z.gcd s m = 1 ->
  map (fun t => ((c + t) * s) mod m) (seqZ 0 m) ≡ₚ seqZ 0 m.
Proof.
  intros Hm Hg. apply NoDup_Permutation_bis.
  - apply NoDup_ListNoDup. apply (NoDup_fmap_2_strong (fun t => ((c + t) * s) mod m)); [|apply NoDup_seqZ].
    intros x y Hx%elem_of_seqZ Hy%elem_of_seqZ E.
    assert ((m | (x - y) * s)) as D.
    { apply Z.mod_divide; [lia|]. replace ((x - y) * s) with ((c + x) * s - (c + y) * s) by lia.
      rewrite Zminus_mod, E, Z.sub_diag. apply Z.mod_0_l; lia. }
    rewrite Z.mul_comm in D. apply Z.gauss in D; [|by rewrite Z.gcd_comm].
    destruct D as [q Hq]. assert (q = 0) by nia. lia.
  - by rewrite length_map.
  - intros z (t & <- & _)%in_map_iff. apply list_elem_of_In, elem_of_seqZ.
    pose proof (Z.mod_pos_bound ((c + t) * s) m Hm). lia.
Qed.

Lemma lookups_all {A} (l : list A) : map (fun k => l !! Z.to_nat k) (seqZ 0 (Z.of_nat (length l))) = map Some l.
Proof.
  unfold seqZ. rewrite Nat2Z.id. change (fmap ?f ?x) with (map f x). rewrite map_map.
  rewrite (map_ext _ (fun k => l !! k)) by (intros; f_equal; lia).
  induction l as [|x l IH]; [done|]. simpl. f_equal. by rewrite <- seq_shift, map_map.
Qed.

Lemma choices_stride s healthy h lb :
  stride (lb_strategy lb) = Some s -> 0 <= lb_counter lb ->
  let n := Z.of_nat (length (choices healthy h lb)) in
  (lb_counter lb + n) * s <= u64_max ->
  choices healthy h lb = map (fun t => at_index healthy ((lb_counter lb + t) * s)) (seqZ 0 n).
Proof.
  intros Hs Hc n Hn. subst n. revert lb Hs Hc Hn.
  induction h as [|a h IH]; intros lb Hs Hc Hn; [done|].
  assert (1 <= s) by (destruct (lb_strategy lb); simplify_eq/=; lia).
  destruct a as [|[k|] i|id|id|k]; [|exact (IH (pin (Some k) i lb) Hs Hc Hn)|exact (IH lb Hs Hc Hn)|
    exact (IH (on_request_start id lb) Hs Hc Hn)|exact (IH (on_request_end id lb) Hs Hc Hn)|
    exact (IH (clear_session k lb) Hs Hc Hn)].
  simpl in Hn |- *.
  destruct (choose healthy lb) as [o lb'] eqn:E. simpl in Hn |- *.
  assert (lb_strategy lb' = lb_strategy lb /\ lb_counter lb' = lb_counter lb + 1 /\ o = at_index healthy (lb_counter lb * s)) as (E1 & E2 & ->).
  { unfold choose in E. destruct (lb_strategy lb) eqn:Est; simplify_eq/=;
      rewrite ?wrap_u64_id by nia; split_and!; try done. f_equal; lia. }
  rewrite IH; [|by rewrite E1|lia|rewrite E2; lia].
  rewrite length_map, length_seqZ, Nat2Z.id. generalize (length (choices healthy h lb')). intros k.
  rewrite (seqZ_cons 0 (Z.of_nat (S k))) by lia. simpl. f_equal; [f_equal; lia|].
  rewrite E2. replace (Z.pred _) with (Z.of_nat k) by lia.
  change (Z.succ 0) with (1 + 0). rewrite <- (fmap_add_seqZ 1 0). unfold fmap.
  change @list_fmap with @map. rewrite map_map. apply map_ext. intros t. do 2 f_equal. lia.
Qed.

(** C39: In any [m] consecutive choices for one service among the same [m] healthy
    instances each of them is chosen exactly once, with the round robin, and
    with the random strategy when [m] is no multiple of 7919, whatever requests,
    pins, loads and ends of sessions of other tasks come in between, as long as
    the counter does not wrap.  The gateway shares one balancer, so one counter,
    over all its services: the choices for another service move it as well, and
    are not among these. *)
Theorem balancer_fair s healthy h lb :
  stride (lb_strategy lb) = Some s ->
  Z.gcd s (Z.of_nat (length healthy)) = 1 ->
  length (choices healthy h lb) = length healthy ->
  0 <= lb_counter lb -> (lb_counter lb + Z.of_nat (length healthy)) * s <= u64_max ->
  choices healthy h lb ≡ₚ map Some healthy.
Proof.
  intros Hs Hg Hl Hc Hn. rewrite (choices_stride s), Hl by (rewrite ?Hl; done).
  destruct (decide (healthy = [])) as [->|N]; [done|].
  assert (0 < Z.of_nat (length healthy)) as Hm by (destruct healthy; [done|simpl; lia]).
  rewrite <- (lookups_all healthy).
  rewrite <- (stride_permutes (lb_counter lb) s (Z.of_nat (length healthy)) Hm Hg) at 2.
  by rewrite map_map.
Qed.

Lemma balancer_fair_witness :
  let i n h := {| si_id := n; si_name := "svc"; si_host := "10.0.0.1"; si_port := 80; si_healthy := h |} in
  let healthy := [i "a" true; i "b" true; i "c" true] in
  let lb := with_counter 5 (balancer_new Random) in
  choices healthy [AChoose; AStart "a"; AChoose; APin (Some "k") (i "b" true); AEnd "a"; AChoose] lb ≡ₚ map Some healthy.
Proof.
  intros i healthy lb. apply (balancer_fair 7919); vm_compute; try reflexivity; intros H; discriminate H.
Defined.

(** ** The canary *)

Lemma routes_map k stable canary r : 0 <= tr_counter r -> tr_counter r + Z.of_nat k <= u64_max ->
  routes k stable canary r =
  map (fun t => fst (route stable canary {| tr_canary_weight := tr_canary_weight r; tr_counter := tr_counter r + t |}))
    (seqZ 0 (Z.of_nat k)).
Proof.
  revert r. induction k as [|k IH]; intros r H0 Hk; [done|].
  rewrite (seqZ_cons 0 (Z.of_nat (S k))) by lia. cbn [routes map]. unfold route at 1. rewrite wrap_u64_id by lia.
  f_equal; [by rewrite Z.add_0_r|].
  rewrite IH by (simpl; lia). replace (Z.pred _) with (Z.of_nat k) by lia.
  change (Z.succ 0) with (1 + 0). rewrite <- (fmap_add_seqZ 1 0). unfold fmap.
  change @list_fmap with @map. rewrite map_map. apply map_ext. intros t. simpl.
  by replace (tr_counter r + 1 + t) with (tr_counter r + (1 + t)) by lia.
Qed.

Definition from_canary (canary : list ServiceInstance) (o : option ServiceInstance) : bool :=
  match o with Some i => bool_decide (i ∈ canary) | None => false end.

Lemma route_from_canary stable canary r : canary <> [] -> (forall i, i ∈ stable -> i ∉ canary) ->
  from_canary canary (fst (route stable canary r)) = (tr_counter r mod 100 <? tr_canary_weight r).
Proof.
  intros Hc Hd. unfold route. rewrite (bool_decide_eq_false_2 (canary = [])) by done. cbn [negb andb fst].
  destruct (_ <? _).
  - destruct (at_index_some canary (tr_counter r) Hc) as (i & E & Hi). unfold at_index in E. rewrite E.
    by apply bool_decide_eq_true_2.
  - destruct (stable !! _) as [i|] eqn:E; [|done]. simpl. apply bool_decide_eq_false_2, Hd.
    by eapply list_elem_of_lookup_2.
Qed.

Lemma count_permutation {A} (p : A -> bool) l1 l2 : l1 ≡ₚ l2 -> length (List.filter p l1) = length (List.filter p l2).
Proof. induction 1; simpl; try destruct (p x); try destruct (p y); simpl; congruence. Qed.

Lemma count_map {A B} (p : B -> bool) (f : A -> B) l : length (List.filter p (map f l)) = length (List.filter (fun x => p (f x)) l).
Proof. induction l; simpl; [done|]. destruct (p (f a)); simpl; congruence. Qed.

Lemma count_below w k : 0 <= w ->
  Z.of_nat (length (List.filter (fun t => t <? w) (seqZ 0 (Z.of_nat k)))) = Z.min w (Z.of_nat k).
Proof.
  intros Hw. induction k as [|k IH]; [simpl; lia|].
  rewrite seqZ_S, List.filter_app, length_app, Nat2Z.inj_add, IH. simpl. zcase; simpl; lia.
Qed.

(** Of any hundred consecutive requests exactly as many as the weight of
    the canary are answered from the canary pool (which the router's weight
    keeps at most 100), all others from the stable one. *)
Theorem canary_exact stable canary r :
  canary <> [] -> (forall i, i ∈ stable -> i ∉ canary) ->
  0 <= tr_canary_weight r <= 100 -> 0 <= tr_counter r -> tr_counter r + 100 <= u64_max ->
  Z.of_nat (length (List.filter (from_canary canary) (routes 100 stable canary r))) = tr_canary_weight r.
Proof.
  intros Hc Hd Hw H0 Hn. rewrite routes_map by (simpl; lia). rewrite count_map.
  rewrite (filter_ext _ (fun t => ((tr_counter r + t) * 1) mod 100 <? tr_canary_weight r)).
  2:{ intros t. rewrite route_from_canary by done. simpl. do 2 f_equal. lia. }
  rewrite <- (count_map (fun t => t <? tr_canary_weight r) (fun t => ((tr_counter r + t) * 1) mod 100)).
  rewrite (count_permutation _ _ _ (stride_permutes (tr_counter r) 1 100 eq_refl eq_refl)).
  change (seqZ 0 100) with (seqZ 0 (Z.of_nat 100)). rewrite count_below; lia.
Qed.

Lemma canary_exact_witness :
  let i n := {| si_id := n; si_name := "svc"; si_host := "10.0.0.1"; si_port := 80; si_healthy := true |} in
  let r := set_canary_weight 25 (router_new 0) in
  Z.of_nat (length (List.filter (from_canary [i "c"]) (routes 100 [i "a"; i "b"] [i "c"] r))) = 25.
Proof.
  intros i r. apply (canary_exact [i "a"; i "b"] [i "c"] r).
  - discriminate.
  - intros j Hj E. apply list_elem_of_singleton in E. subst j.
    apply elem_of_cons in Hj as [E|E%list_elem_of_singleton]; discriminate E.
  - split; vm_compute; discriminate.
  - vm_compute. discriminate.
  - vm_compute. discriminate.
Defined.

(** A weight over 100 is taken for 100. *)
Lemma canary_weight_capped w r : 0 <= w -> 0 <= tr_canary_weight (set_canary_weight w r) <= 100.
Proof. simpl. lia. Qed.

(** With a weight of 1 and a canary pool of two the second canary never gets a
    request: the requests of the canary are the multiples of 100, and the
    instance is picked by the same number. *)
Theorem second_canary_starves a b stable r :
  tr_canary_weight r = 1 -> b <> a -> b ∉ stable -> fst (route stable [a; b] r) <> Some b.
Proof.
  intros Hw Hab Hs. unfold route. rewrite (bool_decide_eq_false_2 ([a; b] = [])) by done. cbn [negb andb fst].
  rewrite Hw. destruct (_ <? _) eqn:E; zbool.
  - assert (tr_counter r mod 2 = 0) as E2.
    { pose proof (Z.mod_pos_bound (tr_counter r) 100 eq_refl).
      rewrite (Z.div_mod (tr_counter r) 100) by lia. replace (tr_counter r mod 100) with 0 by lia.
      rewrite Z.add_0_r, Z.mul_comm. replace (_ * 100) with (tr_counter r / 100 * 50 * 2) by lia. by apply Z.mod_mul. }
    change (Z.of_nat (length [a; b])) with 2. rewrite E2. simpl. congruence.
  - intros H. by apply list_elem_of_lookup_2 in H.
Qed.

(** ** The gateway *)

Definition breakers_closed (gw : ApiGateway) : Prop :=
  lb_strategy (gw_balancer gw) = RoundRobin /\ forall name, mb_state (breaker_of name gw) = Closed.

Lemma breaker_of_with name b gw n :
  breaker_of n (with_breaker name b gw) = if decide (n = name) then b else breaker_of n gw.
Proof.
  unfold breaker_of, with_breaker. simpl. destruct (decide (n = name)) as [->|].
  - by rewrite lookup_insert_eq.
  - by rewrite lookup_insert_ne.
Qed.

Lemma with_breaker_closed name b gw : breakers_closed gw -> mb_state b = Closed -> breakers_closed (with_breaker name b gw).
Proof. intros [H1 H2] Hb. split; [done|]. intros n. rewrite breaker_of_with. by destruct (decide _). Qed.

Lemma select_strategy instances key lb : lb_strategy (snd (select instances key lb)) = lb_strategy lb.
Proof.
  unfold select. destruct (healthy_of instances) as [|x hs]; [done|].
  destruct (pinned_instance _ _ _); [done|].
  assert (lb_strategy (snd (choose (x :: hs) lb)) = lb_strategy lb) as H.
  { unfold choose. by destruct (lb_strategy lb) eqn:E. }
  destruct (choose (x :: hs) lb) as [[i|] lb']; [|exact H]. by destruct key.
Qed.

(** The whole answer while the breakers are closed. *)
Lemma route_request_closed name now gw : breakers_closed gw ->
  let '(r, gw') := route_request name now gw in
  breakers_closed gw' /\
  r = match discover_all name (gw_registry gw) with
      | [] => Err (not_found ("No instances registered for service '" +:+ name +:+ "'"))
      | instances =>
          match healthy_of instances with
          | [] => Err (service_unavailable "No healthy instances available")
          | healthy => match at_index healthy (lb_counter (gw_balancer gw)) with
                       | Some i => Ok (upstream i)
                       | None => Err (service_unavailable "No healthy instances available")
                       end
          end
      end.
Proof.
  intros Hb. unfold route_request. destruct (discover_all name (gw_registry gw)) as [|x l] eqn:Ed; [done|].
  assert (mb_check_half_open now (breaker_of name gw) = breaker_of name gw) as ->.
  { unfold mb_check_half_open. destruct Hb as [_ Hb]. by rewrite Hb. }
  assert (mb_is_open (breaker_of name gw) = false) as ->.
  { unfold mb_is_open. destruct Hb as [_ Hb]. by rewrite Hb. }
  assert (mb_state (mb_record_success (breaker_of name gw)) = Closed) as Hr.
  { unfold mb_record_success. destruct Hb as [_ Hb]. by rewrite Hb. }
  assert (forall lb, lb_strategy lb = RoundRobin -> breakers_closed (with_balancer lb (with_breaker name (breaker_of name gw) gw))) as Hw.
  { intros lb Hlb. split; [done|]. apply (with_breaker_closed name (breaker_of name gw) gw Hb), Hb. }
  cbn [gw_balancer with_breaker]. pose proof (select_strategy (x :: l) None (gw_balancer gw)) as Hs.
  destruct (select (x :: l) None (gw_balancer gw)) as [[i|] lb] eqn:E; simpl in Hs; rewrite (proj1 Hb) in Hs.
  - split; [by apply with_breaker_closed, Hr; apply Hw|].
    unfold select in E. destruct (healthy_of (x :: l)) as [|y hs]; [done|]. cbn [pinned_instance] in E.
    unfold choose in E. rewrite (proj1 Hb) in E.
    destruct (at_index (y :: hs) _); simpl in E; [|done]. by injection E as -> _.
  - split; [by apply Hw|].
    unfold select in E. destruct (healthy_of (x :: l)) as [|y hs]; [done|]. cbn [pinned_instance] in E.
    unfold choose in E. rewrite (proj1 Hb) in E. by destruct (at_index (y :: hs) _).
Qed.

Lemma gateway_closed ops registry : breakers_closed (fold_left gw_apply ops (gateway_new registry)).
Proof.
  assert (breakers_closed (gateway_new registry)) as H by (split; [done|intros n; unfold breaker_of; simpl; by rewrite lookup_empty]).
  revert H. generalize (gateway_new registry). induction ops as [|op ops IH]; intros gw H; [done|]. simpl. apply IH.
  destruct op as [op|name now]; simpl; [exact H|].
  pose proof (route_request_closed name now gw H) as R. destruct (route_request name now gw) as [r gw']. apply R.
Qed.

(** In every history of the gateway a request for a service is refused as
    unknown exactly when no instance is registered, as unavailable exactly when
    none is healthy, and otherwise sent to the next healthy one; the breaker,
    which hears of successes only, never refuses a request. *)
Theorem gateway_answers ops registry name now :
  let gw := fold_left gw_apply ops (gateway_new registry) in
  fst (route_request name now gw) =
  match discover_all name (gw_registry gw) with
  | [] => Err (not_found ("No instances registered for service '" +:+ name +:+ "'"))
  | instances =>
      let healthy := healthy_of instances in
      match healthy !! Z.to_nat (lb_counter (gw_balancer gw) mod Z.of_nat (length healthy)) with
      | Some i => Ok (upstream i)
      | None => Err (service_unavailable "No healthy instances available")
      end
  end.
Proof.
  intros gw. pose proof (route_request_closed name now gw (gateway_closed ops registry)) as R.
  destruct (route_request name now gw) as [r gw']. destruct R as [_ ->]. cbn [fst].
  destruct (discover_all name (gw_registry gw)) as [|x l]; [done|]. cbv zeta.
  by destruct (healthy_of (x :: l)).
Qed.

(** ** Loads *)

Definition load_apply (lb : LoadBalancer) (a : bool * string) : LoadBalancer :=
  if fst a then on_request_start (snd a) lb else on_request_end (snd a) lb.

(** Starts less ends of an instance. *)
Definition open_requests (id : string) (h : list (bool * string)) : Z :=
  sumZ (map (fun a : bool * string => if String.eqb (snd a) id then if fst a then 1 else -1 else 0) h).

(** The count of an instance is the number of its open requests, as long as
    every end was preceded by its start. *)
Theorem loads_exact id h strategy :
  (forall k, 0 <= open_requests id (take k h) <= u64_max) ->
  default 0 (lb_connections (fold_left load_apply h (balancer_new strategy)) !! id) = open_requests id h.
Proof.
  induction h as [|[start i] h IH] using rev_ind; intros Hk; [done|].
  rewrite fold_left_app. unfold open_requests in *. rewrite map_app, sumZ_app. simpl.
  assert (forall k, 0 <= open_requests id (take k h) <= u64_max) as Hk'.
  { intros k. destruct (decide (k <= length h)%nat).
    - specialize (Hk k). by rewrite take_app_le in Hk.
    - specialize (Hk (length h)). rewrite take_app_le, firstn_all in Hk by lia. by rewrite take_ge by lia. }
  specialize (IH Hk'). specialize (Hk' (length h)). rewrite firstn_all in Hk'.
  specialize (Hk (S (length h))). rewrite take_ge in Hk by (rewrite length_app; simpl; lia).
  rewrite map_app, sumZ_app in Hk. simpl in Hk. unfold open_requests in Hk'.
  set (lb := fold_left _ _ _) in *. unfold load_apply, on_request_start, on_request_end. simpl.
  destruct (String.eqb_spec i id) as [->|Hne].
  - destruct start; simpl; rewrite lookup_insert_eq; simpl; rewrite IH.
    + rewrite wrap_u64_id; lia.
    + unfold u64_saturating_sub. lia.
  - destruct start; simpl; rewrite lookup_insert_ne by done; rewrite IH; lia.
Qed.

(** ** What the routes show *)

(** The balancer of a request of /lb/failover is new: the "next" healthy
    instance is always the first one. *)
Theorem failover_is_first registry :
  lb_failover registry =
  match healthy_of (discover_all "stellar-tipjar-backend" registry) with
  | [] => (503, None)
  | i :: _ => (200, Some i)
  end.
Proof.
  unfold lb_failover, select. destruct (healthy_of _) as [|i hs]; [done|].
  cbn [pinned_instance]. unfold choose, at_index. cbn [balancer_new lb_strategy lb_counter].
  by rewrite Z.mod_0_l by (simpl; lia).
Qed.

Definition demo (n : string) (h : bool) : ServiceInstance :=
  {| si_id := n; si_name := "svc"; si_host := "10.0.0.1"; si_port := 80; si_healthy := h |}.

Lemma sticky_session_holds_witness :
  let instances := [demo "a" true; demo "b" true] in
  let lb := with_counter 1 (balancer_new RoundRobin) in
  let ops := [OSelect [demo "a" true] None; OStart "b"; OSelect instances (Some "t"); OClear "t"; OSelect [] (Some "s")] in
  si_id <$> fst (select [demo "c" true; demo "b" true] (Some "s")
                   (fold_left lb_apply ops (snd (select instances (Some "s") lb)))) = Some "b".
Proof.
  intros instances lb ops.
  apply (sticky_session_holds instances "s" lb (demo "b" true) ops [demo "c" true; demo "b" true]).
  - vm_compute. reflexivity.
  - repeat constructor; simpl; try discriminate.
  - apply elem_of_cons. right. apply list_elem_of_singleton. reflexivity.
Defined.

(** Two first requests of a session that both read before either pins are
    answered with different instances; the last pin stays. *)
Example sticky_race :
  let healthy := [demo "a" true; demo "b" true] in
  let lb := balancer_new RoundRobin in
  let '(o1, lb1) := choose healthy lb in
  let '(o2, lb2) := choose healthy lb1 in
  pinned_instance healthy (Some "s") lb = None /\ pinned_instance healthy (Some "s") lb1 = None /\
  o1 = Some (demo "a" true) /\ o2 = Some (demo "b" true) /\
  pinned_instance healthy (Some "s") (pin (Some "s") (demo "a" true) (pin (Some "s") (demo "b" true) lb2)) = Some (demo "a" true).
Proof. vm_compute. repeat split. Qed.

(** An instance that answers no health check: the route reports it unhealthy,
    the gateway goes on sending requests to it. *)
Example probe_is_not_recorded :
  let registry := register {| si_id := "a"; si_name := "stellar-tipjar-backend"; si_host := "10.0.0.1"; si_port := 80;
                              si_healthy := true |} registry_new in
  lh_healthy (lb_health (fun _ => None) registry) = 0 /\
  fst (route_request "stellar-tipjar-backend" 0 (gateway_new registry)) = Ok "http://10.0.0.1:80".
Proof. split; vm_compute; reflexivity. Qed.

(** [discover] answers the first instance even when it is not healthy. *)
Example discover_ignores_health :
  discover "svc" (register (demo "b" true) (register (demo "a" false) registry_new)) = Some (demo "a" false).
Proof. vm_compute. reflexivity. Qed.

(** With no load reported the least loaded instance is the first healthy one. *)
Example unreported_load :
  fst (select [demo "a" false; demo "b" true; demo "c" true] None (balancer_new LeastConnections)) = Some (demo "b" true).
Proof. vm_compute. reflexivity. Qed.

(** An end without a start counts nothing, so that the start after it does. *)
Example unmatched_end :
  connections (fold_left load_apply [(false, "a"); (true, "a")] (balancer_new LeastConnections)) (demo "a" true) = 1.
Proof. vm_compute. reflexivity. Qed.

(** A large counter wraps before it is reduced: the random strategy then skips. *)
Example random_wraps :
  fst (choose [demo "a" true; demo "b" true; demo "c" true] (with_counter (2 ^ 63) (balancer_new Random))) = Some (demo "c" true) /\
  2 ^ 63 * 7919 mod 3 = 1.
Proof. vm_compute. split; reflexivity. Qed.

Example gateway_run :
  let registry := register (demo "b" true) (register (demo "a" false) registry_new) in
  let gw := fold_left gw_apply [GRequest "svc" 0; GRequest "svc" 1] (gateway_new registry) in
  fst (route_request "svc" 5 gw) = Ok "http://10.0.0.1:80" /\
  fst (route_request "svc" 5 (gw_apply gw (GRegistry (DeregisterOp "svc" "b")))) =
    Err (service_unavailable "No healthy instances available") /\
  fst (route_request "other" 5 gw) = Err (not_found "No instances registered for service 'other'").
Proof. vm_compute. repeat split. Qed.
