(* ===== verification/Layers.v ===== *)
(** * The layers around the routes

    The middlewares that src/src/main.rs puts around the handlers: negotiation
    of the API version (src/src/gateway/versioning.rs, middleware/version.rs),
    deprecation notices (middleware/deprecation.rs), transformation of requests
    (gateway/request_transformer.rs), request ids, latency and identity headers
    (gateway/middleware.rs, middleware/request_id.rs), the distributed throttle
    (middleware/rate_limiter.rs), content types, security headers and the log of
    uses, and their order in main.rs.

    A handler runs in the handler monad over the world of the process; a panic
    is an error.  The routers of axum and the tower layers are parameters, and
    so are JSON, Unicode lower case and the order of iteration of a HashMap.  A
    header value is text; [HeaderMap::insert] is [header_insert]. *)

From S2P Require Import Prelude Text Redis Errors RateLimit.

(** A task that panics. *)
Inductive panic : Type := Panicked.

(** What the middlewares read of a request: its parts, and the extensions set by
    the layers around them ([lr_redis] is the presence of the one that carries
    the Redis connection, [lr_tracker] of the one with the tracker). *)
Record LRequest : Type := {
  lr_method : string;
  lr_path : string;
  lr_headers : list (string * string);
  lr_body : string;
  lr_identity : option GatewayIdentity;
  lr_request_id : option string;
  lr_peer : option string;
  lr_redis : bool;
  lr_tracker : bool
}.

Definition with_path (p : string) (r : LRequest) : LRequest :=
  {| lr_method := lr_method r; lr_path := p; lr_headers := lr_headers r; lr_body := lr_body r;
     lr_identity := lr_identity r; lr_request_id := lr_request_id r; lr_peer := lr_peer r;
     lr_redis := lr_redis r; lr_tracker := lr_tracker r |}.
Definition with_parts (hs : list (string * string)) (body : string) (r : LRequest) : LRequest :=
  {| lr_method := lr_method r; lr_path := lr_path r; lr_headers := hs; lr_body := body;
     lr_identity := lr_identity r; lr_request_id := lr_request_id r; lr_peer := lr_peer r;
     lr_redis := lr_redis r; lr_tracker := lr_tracker r |}.
Definition with_extensions (redis tracker : bool) (r : LRequest) : LRequest :=
  {| lr_method := lr_method r; lr_path := lr_path r; lr_headers := lr_headers r; lr_body := lr_body r;
     lr_identity := lr_identity r; lr_request_id := lr_request_id r; lr_peer := lr_peer r;
     lr_redis := redis || lr_redis r; lr_tracker := tracker || lr_tracker r |}.

(** [HeaderMap::get]: the first value of the name. *)
Definition header_get (name : string) (hs : list (string * string)) : option string :=
  snd <$> List.find (fun h => String.eqb (map_chars lower (fst h)) (map_chars lower name)) hs.

Definition header_str (name : string) (hs : list (string * string)) : option string :=
  header_get name hs ≫= header_to_str.

(** [s.ends_with(p)] *)
Fixpoint ends_with (p s : string) : bool :=
  String.eqb p s ||
  match s with
  | EmptyString => false
  | String _ s' => ends_with p s'
  end.

(** A log line of an API call.
    src/src/middleware/usage_tracker.rs:28-41 the row of the spawned task *)
Record UsageRow : Type := { ur_method : string; ur_path : string; ur_status : Z; ur_duration : Z }.

(** ** gateway/versioning.rs *)

(** src/src/gateway/versioning.rs:8-15 ApiVersion *)
Record ApiVersion : Type := {
  av_version : string;
  av_deprecated : bool;
  av_sunset_date : option string;
  av_migration_url : option string
}.

(** src/src/gateway/versioning.rs:19-22 ApiVersionManager *)
Record ApiVersionManager : Type := {
  vm_versions : gmap string ApiVersion;
  vm_current : string
}.

(** src/src/gateway/versioning.rs:25-30 ApiVersionManager::new *)
Definition manager_new (current_version : string) : ApiVersionManager :=
  {| vm_versions := ∅; vm_current := current_version |}.

(** src/src/gateway/versioning.rs:32-49 ApiVersionManager::register *)
Definition register_version (version : string) (deprecated : bool) (sunset_date migration_url : option string)
    (mgr : ApiVersionManager) : ApiVersionManager :=
  {| vm_versions := <[version := {| av_version := version; av_deprecated := deprecated;
                                    av_sunset_date := sunset_date; av_migration_url := migration_url |}]> (vm_versions mgr);
     vm_current := vm_current mgr |}.

(** src/src/gateway/versioning.rs:55-60 ApiVersionManager::is_supported *)
Definition is_supported (version : string) (mgr : ApiVersionManager) : bool :=
  match vm_versions mgr !! version with
  | Some v => negb (av_deprecated v)
  | None => false
  end.

(** src/src/gateway/versioning.rs:72-82 default_version_manager *)
Definition default_version_manager : ApiVersionManager :=
  register_version "v2" false None None
    (register_version "v1" true (Some "Sat, 01 Jan 2027 00:00:00 GMT")
       (Some "https://docs.example.com/migration/v1-to-v2") (manager_new "v2")).

(** src/src/gateway/versioning.rs:87-95 detect_version *)
Definition detect_version (path : string) : option string :=
  if contains "/v1/" path || ends_with "/v1" path then Some "v1"
  else if contains "/v2/" path || ends_with "/v2" path then Some "v2"
  else None.

(** src/src/gateway/versioning.rs:98-108 detect_version_from_accept *)
Definition detect_version_from_accept (accept_header : string) : option string :=
  if contains "version=v1" accept_header || contains "vnd.api.v1" accept_header then Some "v1"
  else if contains "version=v2" accept_header || contains "vnd.api.v2" accept_header then Some "v2"
  else None.

Definition known_version (v : string) : option string :=
  if String.eqb v "v1" then Some "v1" else if String.eqb v "v2" then Some "v2" else None.

(** src/src/gateway/versioning.rs:111-133 detect_version_from_header *)
Definition detect_version_from_header (hs : list (string * string)) : option string :=
  match header_str "X-API-Version" hs ≫= known_version with
  | Some v => Some v
  | None => header_str "API-Version" hs ≫= known_version
  end.

(** src/src/gateway/versioning.rs:184-189 VersionSource *)
Inductive VersionSource : Type := FromPath | FromHeader | FromAccept | FromDefault.

(** The confidence, which is set and never read, is left out.
    src/src/gateway/versioning.rs:176-180 VersionResolution *)
Record VersionResolution : Type := { vr_version : string; vr_source : VersionSource }.

(** src/src/gateway/versioning.rs:136-172 resolve_api_version *)
Definition resolve_api_version (req : LRequest) : option VersionResolution :=
  match detect_version (lr_path req) with
  | Some version => Some {| vr_version := version; vr_source := FromPath |}
  | None =>
      match detect_version_from_header (lr_headers req) with
      | Some version => Some {| vr_version := version; vr_source := FromHeader |}
      | None =>
          accept_str ← header_str "accept" (lr_headers req);
          version ← detect_version_from_accept accept_str;
          Some {| vr_version := version; vr_source := FromAccept |}
      end
  end.

(** src/src/gateway/versioning.rs:245-250 the text of a source *)
Definition source_str (s : VersionSource) : string :=
  match s with FromPath => "path" | FromHeader => "header" | FromAccept => "accept" | FromDefault => "default" end.

(** [<url>; rel="..."] *)
Definition link (url rel : string) : string :=
  "<" +:+ url +:+ ">; rel=" +:+ String (chr 34) "" +:+ rel +:+ String (chr 34) "".

(** [HeaderValue::from_str]: no control character but tab. *)
Definition header_value (s : string) : option string :=
  if all_chars (fun c => (32 <=? byte c) && negb (byte c =? 127) || (byte c =? 9)) s then Some s else None.

(** [if let Ok(v) = HeaderValue::from_str(value) { headers.insert(name, v) }] *)
Definition insert_valid (name value : string) (hs : list (string * string)) : list (string * string) :=
  match header_value value with Some v => header_insert name v hs | None => hs end.

Definition insert_option (name : string) (f : string -> string) (o : option string) (hs : list (string * string)) :=
  match o with Some v => insert_valid name (f v) hs | None => hs end.

Definition DEPRECATION_WARNING : string := "This API version is deprecated. Please migrate to /api/v2".

(** src/src/gateway/versioning.rs:232-297 the headers of a negotiated answer *)
Definition negotiated_headers (mgr : ApiVersionManager) (version_str : string) (resolution : option VersionResolution)
    (hs : list (string * string)) : list (string * string) :=
  let hs := header_insert "X-API-Version" (default "unknown" (header_value version_str)) hs in
  let hs := match resolution with
            | Some r => header_insert "X-Version-Detection-Method" (source_str (vr_source r)) hs
            | None => hs
            end in
  let hs := header_insert "vary" "Accept, X-API-Version, API-Version" hs in
  let hs := match vm_versions mgr !! version_str with
            | Some meta =>
                if av_deprecated meta then
                  let hs := header_insert "Deprecation" "true" hs in
                  let hs := insert_option "Sunset" (fun s => s) (av_sunset_date meta) hs in
                  let hs := insert_option "Link" (fun url => link url "successor-version") (av_migration_url meta) hs in
                  header_insert "X-Deprecation-Warning" DEPRECATION_WARNING hs
                else hs
            | None => hs
            end in
  insert_valid "Link" (link ("https://docs.example.com/api/" +:+ version_str) "api-documentation") hs.

(** ** The world and the middlewares *)

Section layers.
Context {St : Type} `{RedisLaws string St}.
Context {App : Type}.
Variable env : environment.
(** The order of iteration over the keys of a HashMap. *)
Variable visit : list string -> list string.
Variable json_body : json -> string.
(** serde_json's values, their text and their string fields; Unicode lower case. *)
Context {J : Type}.
Variable from_slice : string -> option J.
Variable to_vec : J -> option string.
Variable get_str : string -> J -> option string.
Variable set_str : string -> string -> J -> J.
Variable to_lowercase : string -> string.
(** The path a nested router shows to its layers. *)
Variable strip_nest : string -> string -> string.

(** [lw_clock] is in milliseconds; [lw_redis] is [None] where the pool was not
    connected. *)
Record LWorld : Type := {
  lw_redis : option St;
  lw_clock : Z;
  lw_faults : list fault;
  lw_counts : gmap string Z;
  lw_usage : list UsageRow;
  lw_app : App
}.

Definition with_store (s : St) (w : LWorld) : LWorld :=
  {| lw_redis := Some s; lw_clock := lw_clock w; lw_faults := lw_faults w; lw_counts := lw_counts w;
     lw_usage := lw_usage w; lw_app := lw_app w |}.
Definition with_counts (m : gmap string Z) (w : LWorld) : LWorld :=
  {| lw_redis := lw_redis w; lw_clock := lw_clock w; lw_faults := lw_faults w; lw_counts := m;
     lw_usage := lw_usage w; lw_app := lw_app w |}.
Definition with_usage (l : list UsageRow) (w : LWorld) : LWorld :=
  {| lw_redis := lw_redis w; lw_clock := lw_clock w; lw_faults := lw_faults w; lw_counts := lw_counts w;
     lw_usage := l; lw_app := lw_app w |}.

#[export] Instance LWorld_net : Networked LWorld := {
  next_fault w :=
    let '(f, l) := pop_fault (lw_faults w) in
    (f, {| lw_redis := lw_redis w; lw_clock := lw_clock w; lw_faults := l; lw_counts := lw_counts w;
           lw_usage := lw_usage w; lw_app := lw_app w |})
}.

Abbreviation L A := (M LWorld panic A).
Definition Next : Type := LRequest -> L (Response string).

(** src/src/gateway/versioning.rs:211-230 the refusal of an unknown version, as
    the code writes it: without the closing brace *)
Definition unsupported_version (mgr : ApiVersionManager) (version_str : string) : Response string :=
  let supported := join ", " (visit (map fst (map_to_list (vm_versions mgr)))) in
  let q := String (chr 34) "" in
  {| resp_status := 400;
     resp_headers := [("content-type", "application/json");
                      ("X-API-Versions", default "v1,v2" (header_value supported))];
     resp_body := "{" +:+ q +:+ "error" +:+ q +:+ ": " +:+ q +:+ "Unsupported API version '" +:+ version_str +:+
                  "', supported versions: " +:+ supported |}.

(** src/src/gateway/versioning.rs:192-298 version_negotiation *)
Definition version_negotiation (next : Next) (req : LRequest) : L (Response string) :=
  let mgr := default_version_manager in
  let resolution := resolve_api_version req in
  if negb (bool_decide (is_Some resolution)) && negb (starts_with "/api/" (lr_path req)) then next req
  else
    let version_str := default (vm_current mgr) (vr_version <$> resolution) in
    if negb (bool_decide (is_Some (vm_versions mgr !! version_str)))
    then mret (unsupported_version mgr version_str)
    else
      response ← next req;
      mret (with_headers (negotiated_headers mgr version_str resolution) response).

(** ** middleware/version.rs *)

Definition SUNSET_DATE : string := "Sat, 01 Jan 2027 00:00:00 GMT".

(** src/src/middleware/version.rs:4-4 MIGRATION_LINK *)
Definition MIGRATION_LINK : string := link "https://docs.example.com/migration/v1-to-v2" "deprecation".

(** src/src/middleware/version.rs:24-30 detect_version *)
Definition detect_version_or_v2 (path : string) : string :=
  if contains "/v1/" path || ends_with "/v1" path then "v1" else "v2".

(** src/src/middleware/version.rs:8-22 version_headers *)
Definition version_headers (next : Next) (req : LRequest) : L (Response string) :=
  let version := detect_version_or_v2 (lr_path req) in
  response ← next req;
  mret (with_headers (fun hs =>
    let hs := header_insert "X-API-Version" version hs in
    if String.eqb version "v1"
    then header_insert "Link" MIGRATION_LINK (header_insert "Sunset" SUNSET_DATE (header_insert "Deprecation" "true" hs))
    else hs) response).

(** ** middleware/deprecation.rs *)

(** src/src/middleware/deprecation.rs:47-52 DeprecationTracker::record *)
Definition record_use (path : string) : L unit :=
  modify (fun w => with_counts (<[path := wrap_u64 (default 0 (lw_counts w !! path) + 1)]> (lw_counts w)) w).

(** src/src/middleware/deprecation.rs:54-61 DeprecationTracker::snapshot *)
Definition snapshot : L (gmap string Z) := gets lw_counts.

(** src/src/middleware/deprecation.rs:17-27 the headers of a notice *)
Definition notice_headers (hs : list (string * string)) : list (string * string) :=
  header_insert "X-Deprecation-Warning" DEPRECATION_WARNING
    (header_insert "Sunset" SUNSET_DATE
       (header_insert "Link" (link "/api/v2" "successor-version") (header_insert "Deprecation" "true" hs))).

(** src/src/middleware/deprecation.rs:11-34 deprecation_notice *)
Definition deprecation_notice (next : Next) (req : LRequest) : L (Response string) :=
  response ← next req;
  let response := with_headers notice_headers response in
  (if lr_tracker req then record_use (lr_path req) else mret tt);;
  mret response.

(** src/src/middleware/deprecation.rs:66-84 track_deprecated_usage *)
Definition track_deprecated_usage (next : Next) (req : LRequest) : L (Response string) :=
  record_use (lr_path req);;
  response ← next req;
  mret (with_headers (fun hs =>
    header_insert "X-Deprecation-Warning" DEPRECATION_WARNING
      (header_insert "Link" MIGRATION_LINK (header_insert "Sunset" SUNSET_DATE (header_insert "Deprecation" "true" hs)))) response).

(** ** gateway/request_transformer.rs *)

(** src/src/gateway/request_transformer.rs:14-23 TransformationRule *)
Record TransformationRule : Type := {
  tf_path_prefix : string;
  tf_add_headers : list (string * string);
  tf_remove_headers : list string;
  tf_body_transform : option string
}.

(** src/src/gateway/request_transformer.rs:42-44 RequestTransformer::find_rule *)
Definition find_rule (path : string) (rules : list TransformationRule) : option TransformationRule :=
  List.find (fun r => starts_with (tf_path_prefix r) path) rules.

(** src/src/gateway/request_transformer.rs:47-71 RequestTransformer::apply_body_transform *)
Definition apply_body_transform (body : J) (transform : string) : J :=
  if String.eqb transform "normalize_amount" then
    match get_str "amount" body with
    | Some amount => set_str "amount" (trim amount) body
    | None => body
    end
  else if String.eqb transform "lowercase_username" then
    match get_str "username" body with
    | Some username => set_str "username" (to_lowercase username) body
    | None => body
    end
  else body.

(** src/src/gateway/request_transformer.rs:75-107 default_transformer *)
Definition default_transformer : list TransformationRule :=
  let rule prefix transform :=
    {| tf_path_prefix := prefix; tf_add_headers := []; tf_remove_headers := []; tf_body_transform := Some transform |} in
  [rule "/api/v1/tips" "normalize_amount"; rule "/api/v2/tips" "normalize_amount";
   rule "/api/v1/creators" "lowercase_username"; rule "/api/v2/creators" "lowercase_username"].

Definition header_remove (name : string) (hs : list (string * string)) : list (string * string) :=
  List.filter (fun h => negb (String.eqb (map_chars lower (fst h)) (map_chars lower name))) hs.

Definition is_write (method : string) : bool :=
  String.eqb method "POST" || String.eqb method "PUT" || String.eqb method "PATCH".

(** src/src/gateway/request_transformer.rs:145-178 the body and headers handed on *)
Definition transform_body (rule : TransformationRule) (method : string) (hs : list (string * string)) (body : string)
    : list (string * string) * string :=
  match tf_body_transform rule with
  | None => (hs, body)
  | Some transform =>
      if negb (is_write method) then (hs, body)
      else if 1048576 <? Z.of_nat (slength body) then (hs, "")
      else
        match from_slice body with
        | None => (hs, body)
        | Some json =>
            match to_vec (apply_body_transform json transform) with
            | Some new_bytes => (header_insert "content-length" (print_Z (Z.of_nat (slength new_bytes))) hs, new_bytes)
            | None => (hs, body)
            end
        end
  end.

(** src/src/gateway/request_transformer.rs:118-181 transform_request *)
Definition transform_request (next : Next) (req : LRequest) : L (Response string) :=
  match find_rule (lr_path req) default_transformer with
  | None => next req
  | Some rule =>
      let hs := fold_left (fun hs name => header_remove name hs) (tf_remove_headers rule) (lr_headers req) in
      let hs := fold_left (fun hs h => insert_valid (fst h) (snd h) hs) (tf_add_headers rule) hs in
      let '(hs, body) := transform_body rule (lr_method req) hs (lr_body req) in
      next (with_parts hs body req)
  end.

(** ** gateway/middleware.rs, middleware/request_id.rs *)

(** [&key[..8]] panics on a shorter key.
    src/src/gateway/context.rs:44-50 GatewayIdentity::display *)
Definition display (id : GatewayIdentity) : L string :=
  match id with
  | Jwt subject role => mret ("jwt:" +:+ role +:+ ":" +:+ subject)
  | ApiKey key name _ =>
      if (slength key <? 8)%nat then throw Panicked
      else mret ("apikey:" +:+ name +:+ ":" +:+ Stdlib.Strings.String.substring 0 8 key)
  | AnonymousId => mret "anonymous"
  end.

(** src/src/gateway/middleware.rs:60-90 gateway_metrics *)
Definition gateway_metrics (next : Next) (req : LRequest) : L (Response string) :=
  (match lr_identity req with Some id => _ ← display id; mret tt | None => mret tt end);;
  start ← gets lw_clock;
  response ← next req;
  stop ← gets lw_clock;
  mret (with_headers (insert_valid "x-gateway-latency-ms" (print_Z (stop - start))) response).

(** src/src/gateway/middleware.rs:96-106 propagate_request_id_to_response *)
Definition propagate_request_id_to_response (next : Next) (req : LRequest) : L (Response string) :=
  response ← next req;
  match header_get "x-request-id" (lr_headers req) with
  | Some id => mret (with_headers (header_insert "x-request-id" id) response)
  | None => mret response
  end.

(** src/src/gateway/middleware.rs:112-133 inject_identity_header *)
Definition inject_identity_header (next : Next) (req : LRequest) : L (Response string) :=
  let is_dev := match env "DEPLOYMENT_ENVIRONMENT" with
                | Some e => String.eqb e "development" || String.eqb e "staging"
                | None => true
                end in
  identity_str ← match lr_identity req with Some id => s ← display id; mret (Some s) | None => mret None end;
  response ← next req;
  mret (if is_dev then with_headers (insert_option "x-authenticated-as" (fun s => s) identity_str) response else response).

(** src/src/middleware/request_id.rs:23-46 propagate_request_id *)
Definition propagate_request_id (next : Next) (req : LRequest) : L (Response string) :=
  let request_id := default "unknown" (lr_request_id req ≫= header_to_str) in
  response ← next req;
  mret (with_headers (insert_valid "x-request-id" request_id) response).

(** ** middleware/body_limit.rs, middleware/cors.rs, middleware/usage_tracker.rs *)

(** src/src/middleware/body_limit.rs:31-53 require_json_content_type *)
Definition require_json_content_type (next : Next) (req : LRequest) : L (Response string) :=
  if is_write (lr_method req) && negb (contains "application/json" (default "" (header_str "content-type" (lr_headers req))))
  then mret {| resp_status := 415; resp_headers := [("content-type", "application/json")];
               resp_body := json_body (JObj [("error", JStr "Unsupported Media Type"); ("code", JStr "UNSUPPORTED_MEDIA_TYPE");
                                             ("status", JNum 415); ("details", JObj [("required", JStr "application/json")])]) |}
  else next req.

(** src/src/middleware/cors.rs:33-55 security_headers *)
Definition security_headers : Response string -> Response string :=
  with_headers (fun hs =>
    header_insert "x-content-type-options" "nosniff"
      (header_insert "x-frame-options" "DENY"
         (header_insert "strict-transport-security" "max-age=31536000; includeSubDomains"
            (header_insert "content-security-policy" "default-src 'self'" hs)))).

(** src/src/middleware/usage_tracker.rs:13-44 track_api_usage *)
Definition track_api_usage (next : Next) (req : LRequest) : L (Response string) :=
  start ← gets lw_clock;
  response ← next req;
  stop ← gets lw_clock;
  modify (fun w => with_usage (lw_usage w ++ [{| ur_method := lr_method req; ur_path := lr_path req;
                                                 ur_status := resp_status response; ur_duration := wrap_i32 (stop - start) |}]) w);;
  mret response.

(** ** middleware/rate_limiter.rs *)

(** src/src/middleware/rate_limiter.rs:257-262 env_u64 *)
Definition env_u64 (key : string) (dflt : Z) : Z :=
  default dflt (env key ≫= parse_u64).

(** src/src/middleware/rate_limiter.rs:23-30 UserTier *)
Inductive UserTier : Type := TierAnonymous | TierFree | TierPremium.

(** src/src/middleware/rate_limiter.rs:34-40 UserTier::limits *)
Definition tier_limits (t : UserTier) : Z * Z :=
  match t with TierAnonymous => (2, 5) | TierFree => (10, 20) | TierPremium => (60, 120) end.

(** The canonical text of the address that a text parses to. *)
Variable parse_ip : string -> option string.

(** src/src/middleware/rate_limiter.rs:64-70 is_whitelisted *)
Definition is_whitelisted (ip : string) : bool :=
  existsb (fun s => bool_decide (parse_ip (trim s) = Some ip)) (split_on "," (default "" (env "RATE_LIMIT_WHITELIST"))).

(** src/src/middleware/rate_limiter.rs:49-62 whitelist_middleware *)
Definition whitelist_middleware (next : Next) (req : LRequest) : L (Response string) :=
  match lr_peer req with
  | Some ip => if is_whitelisted ip then next req else next req
  | None => next req
  end.

(** What the governor answers instead of a permit. *)
Inductive GovernorError : Type := TooManyRequests (wait_time : Z) | UnableToExtractKey | OtherError.

(** src/src/middleware/rate_limiter.rs:76-104 rate_limit_error_handler *)
Definition rate_limit_error_handler (rid : json) (err : GovernorError) : Response string :=
  let '(retry_after, message) :=
    match err with
    | TooManyRequests wait_time => (wait_time, "Rate limit exceeded. Please slow down.")
    | UnableToExtractKey => (0, "Unable to identify client.")
    | OtherError => (0, "Rate limiting error.")
    end in
  let body := JObj [("error", JStr message); ("code", JStr "RATE_LIMIT_EXCEEDED"); ("status", JNum 429);
                    ("details", JObj [("retry_after_secs", JNum retry_after)]); ("request_id", rid)] in
  let resp := {| resp_status := 429; resp_headers := [("content-type", "application/json")]; resp_body := json_body body |} in
  if 0 <? retry_after then with_headers (header_insert "Retry-After" (print_Z retry_after)) resp else resp.

(** A command to Redis: [None] when it fails, its reply is lost or the server
    answers an error. *)
Definition redis_call {A} (q : Z -> St -> option A * St) : L (option A) := fun w =>
  match lw_redis w with
  | None => (Ok None, w)
  | Some _ =>
      let '(r, w') := remote tt (fun w =>
        match lw_redis w with
        | Some s => let '(a, s') := q (lw_clock w) s in (a, with_store s' w)
        | None => (None, w)
        end) w in
      (Ok (match r with Ok a => a | Err _ => None end), w')
  end.

(** [INCR k], which keeps the expiry of the key. *)
Definition r_incr_keep (now : Z) (k : string) (s : St) : option Z * St :=
  match r_get now k s with
  | None => (Some 1, r_set k "1" s)
  | Some v =>
      match parse_i64 v with
      | Some n => if n <? i64_max then (Some (n + 1), r_overwrite now k (print_i64 (n + 1)) s) else (None, s)
      | None => (None, s)
      end
  end.

Definition throttle_limit : Z := wrap_i64 (env_u64 "REDIS_RATE_LIMIT" 100).
Definition throttle_window : Z := env_u64 "REDIS_RATE_WINDOW_SECS" 60.

(** [Utc::now().timestamp()] *)
Definition timestamp (w : LWorld) : Z := lw_clock w / 1000.

(** src/src/middleware/rate_limiter.rs:181-196 the key of a request *)
Definition throttle_key (req : LRequest) (w : LWorld) : string :=
  "throttle:" +:+ default "unknown" (lr_peer req) +:+ ":" +:+
  print_i64 (Z.quot (timestamp w) (wrap_i64 throttle_window)).

(** src/src/middleware/rate_limiter.rs:198-211 the count of a request; [None]
    when the INCR failed *)
Definition throttle_count (key : string) : L (option Z) :=
  count ← redis_call (fun now => r_incr_keep now key);
  match count with
  | Some c =>
      (if c =? 1 then _ ← redis_call (fun now => r_expire now key (wrap_i64 throttle_window)); mret tt else mret tt);;
      mret (Some c)
  | None => mret None
  end.

(** The division by a window of 0 panics.
    src/src/middleware/rate_limiter.rs:175-251 redis_throttle_middleware *)
Definition redis_throttle_middleware (rid : json) (next : Next) (req : LRequest) : L (Response string) :=
  connected ← gets (fun w => bool_decide (is_Some (lw_redis w)));
  if lr_redis req && connected then
    if throttle_window =? 0 then throw Panicked
    else
      key ← gets (throttle_key req);
      count ← throttle_count key;
      match count with
      | None => next req
      | Some count =>
          let remaining := Z.max (wrap_i64 (throttle_limit - count)) 0 in
          reset_secs ← gets (fun w => throttle_window - wrap_u64 (timestamp w) mod throttle_window);
          if throttle_limit <? count then
            let body := JObj [("error", JStr "Too many requests. Please slow down."); ("code", JStr "RATE_LIMIT_EXCEEDED");
                              ("status", JNum 429); ("details", JObj [("retry_after_secs", JNum reset_secs)]);
                              ("request_id", rid)] in
            mret (with_headers (fun hs =>
              header_insert "Retry-After" (print_Z reset_secs)
                (header_insert "X-RateLimit-Reset" (print_Z reset_secs)
                   (header_insert "X-RateLimit-Remaining" "0" (header_insert "X-RateLimit-Limit" (print_i64 throttle_limit) hs))))
              {| resp_status := 429; resp_headers := [("content-type", "application/json")]; resp_body := json_body body |})
          else
            resp ← next req;
            mret (with_headers (fun hs =>
              header_insert "X-RateLimit-Reset" (print_Z reset_secs)
                (header_insert "X-RateLimit-Remaining" (print_i64 remaining)
                   (header_insert "X-RateLimit-Limit" (print_i64 throttle_limit) hs))) resp)
      end
  else next req.

(** ** The order in main.rs *)

(** src/src/main.rs:455-461 the gateway layers of a versioned router *)
Definition gateway_layers (inner : Next) : Next :=
  version_negotiation (transform_request (propagate_request_id_to_response (gateway_metrics (inject_identity_header inner)))).

(** A router nested under a prefix, whose layers see the rest of the path. *)
Definition nested (prefix : string) (inner : Next) : Next :=
  fun req => inner (with_path (strip_nest prefix (lr_path req)) req).

(** src/src/main.rs:447-461 the router of version 1, inside the gateway's
    authentication, limits and quotas *)
Definition v1_router (routes : Next) : Next :=
  gateway_layers (nested "/api/v1" (fun req => deprecation_notice routes (with_extensions false true req))).

(** src/src/main.rs:508-516 the router of version 2 *)
Definition v2_router (routes : Next) : Next := gateway_layers (nested "/api/v2" routes).

(** The layers that are not of this file: CORS; tracing; metrics, the setting
    of request ids, the cache, the timeout and the limit of bodies. *)
Variables cors trace outer : Next -> Next.

(** src/src/main.rs:565-599 the layers of the application, from the extension
    with the Redis connection outwards *)
Definition app_layers (rid : json) (router : Next) : Next :=
  track_api_usage (whitelist_middleware (redis_throttle_middleware rid (outer (propagate_request_id (trace
    (fun req =>
       response ← cors (fun req => router (with_extensions true false req)) req;
       mret (security_headers response))))))).
End layers.

(** * Lemmas *)

(** ** Headers *)

Lemma header_get_insert_same k v hs : header_get k (header_insert k v hs) = Some v.
Proof.
  unfold header_get, header_insert. induction hs as [|[k' v'] hs IH]; simpl.
  - by rewrite String.eqb_refl.
  - rewrite filter_cons. simpl. case_decide; [|done]. simpl.
    destruct (String.eqb_spec (map_chars lower k') (map_chars lower k)); [done|exact IH].
Qed.

Lemma header_get_insert_other k k' v hs : map_chars lower k <> map_chars lower k' ->
  header_get k (header_insert k' v hs) = header_get k hs.
Proof.
  intros Hne. unfold header_get, header_insert. induction hs as [|[x y] hs IH]; simpl.
  - destruct (String.eqb_spec (map_chars lower k') (map_chars lower k)); [congruence|done].
  - rewrite filter_cons. simpl. case_decide as Hd; simpl.
    + destruct (String.eqb _ _); [done|exact IH].
    + rewrite IH.
      destruct (String.eqb_spec (map_chars lower x) (map_chars lower k)); [congruence|done].
Qed.

(** How many headers have a name. *)
Definition header_count (k : string) (hs : list (string * string)) : nat :=
  length (List.filter (fun h => String.eqb (map_chars lower (fst h)) (map_chars lower k)) hs).

Lemma header_count_insert k v hs : header_count k (header_insert k v hs) = 1%nat.
Proof.
  unfold header_count, header_insert. induction hs as [|[x y] hs IH]; simpl.
  - by rewrite String.eqb_refl.
  - rewrite filter_cons. simpl. case_decide; simpl; [|exact IH].
    destruct (String.eqb_spec (map_chars lower x) (map_chars lower k)); [done|exact IH].
Qed.

(** ** Versions *)

Lemma known_version_cases v x : known_version v = Some x -> x = "v1" \/ x = "v2".
Proof. unfold known_version. case_all; intros [= <-]; auto. Qed.

Lemma resolve_known req r : resolve_api_version req = Some r -> vr_version r = "v1" \/ vr_version r = "v2".
Proof.
  unfold resolve_api_version, detect_version, detect_version_from_header, detect_version_from_accept.
  intros E. case_all; simplify_eq/=; auto; repeat match goal with
  | H : (_ ≫= known_version) = Some _ |- _ => apply bind_Some in H as (? & _ & H); apply known_version_cases in H
  | H : _ ≫= _ = Some _ |- _ => apply bind_Some in H as (? & ? & H); case_all; simplify_eq/=
  end; auto.
Qed.

Section facts.
Context {St : Type} `{RedisLaws string St} {App : Type}.
Abbreviation World := (LWorld (St := St) (App := App)).
Abbreviation Handler := (Next (St := St) (App := App)).
Implicit Types (w : World) (next : Handler).

Definition with_source (resolution : option VersionResolution) (hs : list (string * string)) :=
  match resolution with
  | Some r => header_insert "X-Version-Detection-Method" (source_str (vr_source r)) hs
  | None => hs
  end.

Definition docs_link (version : string) : string :=
  link ("https://docs.example.com/api/" +:+ version) "api-documentation".

Lemma negotiated_v1 resolution hs :
  negotiated_headers default_version_manager "v1" resolution hs =
  header_insert "Link" (docs_link "v1") (header_insert "X-Deprecation-Warning" DEPRECATION_WARNING
    (header_insert "Link" (link "https://docs.example.com/migration/v1-to-v2" "successor-version")
      (header_insert "Sunset" SUNSET_DATE (header_insert "Deprecation" "true"
        (header_insert "vary" "Accept, X-API-Version, API-Version"
          (with_source resolution (header_insert "X-API-Version" "v1" hs))))))).
Proof. reflexivity. Qed.

Lemma negotiated_v2 resolution hs :
  negotiated_headers default_version_manager "v2" resolution hs =
  header_insert "Link" (docs_link "v2")
    (header_insert "vary" "Accept, X-API-Version, API-Version"
      (with_source resolution (header_insert "X-API-Version" "v2" hs))).
Proof. reflexivity. Qed.

Lemma with_source_get resolution k hs : map_chars lower k <> "x-version-detection-method" ->
  header_get k (with_source resolution hs) = header_get k hs.
Proof. intros Hk. destruct resolution; [|done]. by apply header_get_insert_other. Qed.

#[local] Ltac headers :=
  repeat first [rewrite header_get_insert_same
               | rewrite header_get_insert_other by (vm_compute; discriminate)
               | rewrite with_source_get by (vm_compute; discriminate)].

(** The version a request is answered in: that of its path, its headers or its
    Accept header, and the current one without any. *)
Definition answered_version (req : LRequest) : string :=
  default "v2" (vr_version <$> resolve_api_version req).

Lemma answered_known req : answered_version req = "v1" \/ answered_version req = "v2".
Proof.
  unfold answered_version. destruct (resolve_api_version req) as [r|] eqn:E; [|by right].
  by apply resolve_known in E.
Qed.

(** Whether a request is negotiated at all. *)
Definition negotiates (req : LRequest) : bool :=
  bool_decide (is_Some (resolve_api_version req)) || starts_with "/api/" (lr_path req).

Lemma version_negotiation_spec visit next req w :
  version_negotiation visit next req w =
  if negotiates req then
    (response ← next req;
     mret (with_headers (negotiated_headers default_version_manager (answered_version req) (resolve_api_version req)) response)) w
  else next req w.
Proof.
  pose proof (answered_known req) as K. unfold version_negotiation, negotiates, answered_version in *.
  cbv zeta. change (vm_current default_version_manager) with "v2". rewrite <- negb_orb.
  destruct (_ || _); cbn [negb]; [|done].
  rewrite bool_decide_eq_true_2; [done|].
  destruct K as [-> | ->]; by eexists.
Qed.

(** Every request is negotiated to one of the two known versions, never
    refused: a versioned answer is the handler's answer with the headers of the
    version of the path, else of the version headers, else of Accept, else the
    current version; a v1 answer tells its deprecation and sunset, a v2 answer
    adds none, and in either the only Link is the documentation. *)
Theorem version_answered visit next req w :
  let '(r, w') := version_negotiation visit next req w in
  match next req w with
  | (Ok answer, w1) =>
      w' = w1 /\
      if negotiates req then
        exists hs, r = Ok (with_headers (fun _ => hs) answer) /\
          header_get "X-API-Version" hs = Some (answered_version req) /\
          header_get "Link" hs = Some (docs_link (answered_version req)) /\ header_count "Link" hs = 1%nat /\
          if String.eqb (answered_version req) "v1"
          then header_get "Deprecation" hs = Some "true" /\ header_get "Sunset" hs = Some SUNSET_DATE
          else header_get "Deprecation" hs = header_get "Deprecation" (resp_headers answer) /\
               header_get "Sunset" hs = header_get "Sunset" (resp_headers answer)
      else r = Ok answer
  | (Err e, w1) => r = Err e /\ w' = w1
  end.
Proof.
  rewrite version_negotiation_spec. destruct (negotiates req) eqn:E.
  2:{ by destruct (next req w) as [[answer|e] w1]. }
  unfold mbind, M_bind. destruct (next req w) as [[answer|e] w1]; simpl; [|done]. split; [done|].
  exists (negotiated_headers default_version_manager (answered_version req) (resolve_api_version req) (resp_headers answer)).
  split; [done|].
  destruct (answered_known req) as [-> | ->]; rewrite ?negotiated_v1, ?negotiated_v2; simpl String.eqb; cbv iota;
    rewrite header_count_insert; headers; done.
Qed.

Definition a_request (method path : string) (hs : list (string * string)) (body : string) : LRequest :=
  {| lr_method := method; lr_path := path; lr_headers := hs; lr_body := body; lr_identity := None;
     lr_request_id := None; lr_peer := None; lr_redis := false; lr_tracker := false |}.

(** The unknown version of a header is passed over, not refused. *)
Example unknown_version_is_current :
  answered_version (a_request "GET" "/api/creators/ann" [("x-api-version", "v9")] "") = "v2" /\
  answered_version (a_request "GET" "/api/creators/ann" [("x-api-version", "v9"); ("api-version", "v1")] "") = "v1" /\
  answered_version (a_request "GET" "/metrics" [("accept", "application/vnd.api.v1+json")] "") = "v1" /\
  negotiates (a_request "GET" "/metrics" [] "") = false.
Proof. vm_compute. repeat split. Qed.

(** The version is looked for anywhere in the path: the tips of a creator with
    the username "v1" are answered by version 2 as deprecated version 1. *)
Example username_is_a_version :
  answered_version (a_request "GET" "/api/v2/creators/v1/tips" [] "") = "v1".
Proof. vm_compute. reflexivity. Qed.

(** ** Deprecation *)

(** A request of version 1 passes the notice of its router and the negotiation
    outside it: the answer is counted, and of the links only the documentation
    is left; that of the notice and that of the migration guide are replaced. *)
Theorem v1_migration_link_lost env visit {J} (from_slice : string -> option J) to_vec get_str set_str to_lowercase
    strip_nest routes req w answer w' :
  detect_version (lr_path req) = Some "v1" ->
  v1_router env visit from_slice to_vec get_str set_str to_lowercase strip_nest routes req w = (Ok answer, w') ->
  header_get "Link" (resp_headers answer) = Some (docs_link "v1") /\ header_count "Link" (resp_headers answer) = 1%nat /\
  header_get "Deprecation" (resp_headers answer) = Some "true".
Proof.
  intros Hv. unfold v1_router, gateway_layers. set (inner := transform_request _ _ _ _ _ _).
  assert (resolve_api_version req = Some {| vr_version := "v1"; vr_source := FromPath |}) as Hr.
  { unfold resolve_api_version. by rewrite Hv. }
  pose proof (version_answered visit inner req w) as K. intros E. rewrite E in K.
  assert (negotiates req = true) as Hn by (unfold negotiates; by rewrite Hr).
  assert (answered_version req = "v1") as Ha by (unfold answered_version; by rewrite Hr).
  destruct (inner req w) as [[a|[]] w1]; [|by destruct K]. rewrite Hn, Ha in K.
  destruct K as (_ & hs & [= ->] & _ & Hlk & Hc & Hd & _). done.
Qed.

(** The uses counted of a path. *)
Definition uses (p : string) (w : World) : Z := default 0 (lw_counts w !! p).

(** Without other changes of the counts a path counts as many uses as it was
    requested, modulo 2^64. *)
Theorem uses_counted paths p w :
  0 <= uses p w <= u64_max ->
  uses p (fold_left (fun w q => snd (record_use q w)) paths w) =
  wrap_u64 (uses p w + Z.of_nat (length (List.filter (String.eqb p) paths))).
Proof.
  revert w. induction paths as [|q paths IH]; intros w Hw; simpl.
  { by rewrite Z.add_0_r, wrap_u64_id. }
  unfold uses in *. rewrite IH; simpl.
  - destruct (String.eqb_spec p q) as [->|Hne]; simpl.
    + rewrite lookup_insert_eq. simpl. unfold wrap_u64. rewrite Zplus_mod_idemp_l. f_equal. lia.
    + by rewrite lookup_insert_ne.
  - destruct (decide (p = q)) as [->|Hne]; [rewrite lookup_insert_eq; apply wrap_u64_range|by rewrite lookup_insert_ne].
Qed.

(** ** Transformation *)

Section transform.
Context {J : Type}.
Variable from_slice : string -> option J.
Variable to_vec : J -> option string.
Variable get_str : string -> J -> option string.
Variable set_str : string -> string -> J -> J.
Variable to_lowercase : string -> string.
(** serde_json: a value that was printed is read back, and a field has the value set. *)
Hypothesis reads_back : forall j s, to_vec j = Some s -> from_slice s = Some j.
Hypothesis get_set : forall f s j, get_str f (set_str f s j) = Some s.

Abbreviation transform next req := (transform_request from_slice to_vec get_str set_str to_lowercase (next : Handler) req).

Lemma transform_rule next req rule name j s :
  find_rule (lr_path req) default_transformer = Some rule -> tf_body_transform rule = Some name ->
  tf_add_headers rule = [] -> tf_remove_headers rule = [] ->
  is_write (lr_method req) = true -> Z.of_nat (slength (lr_body req)) <= 1048576 ->
  from_slice (lr_body req) = Some j ->
  to_vec (apply_body_transform get_str set_str to_lowercase j name) = Some s ->
  transform next req =
  next (with_parts (header_insert "content-length" (print_Z (Z.of_nat (slength s))) (lr_headers req)) s req).
Proof.
  intros Hr Ht Ha Hd Hw Hl Hj Hs. unfold transform_request. rewrite Hr, Ha, Hd. simpl.
  unfold transform_body. rewrite Ht, Hw, Hj, Hs. simpl. destruct (1048576 <? _) eqn:E; zbool; [lia|done].
Qed.

(** A write to the tips of either version whose body is a JSON object with an
    amount reaches the handler with the amount trimmed, as JSON whose length
    the headers tell. *)
Theorem amount_normalized next req j a s :
  starts_with "/api/v1/tips" (lr_path req) || starts_with "/api/v2/tips" (lr_path req) = true ->
  is_write (lr_method req) = true -> Z.of_nat (slength (lr_body req)) <= 1048576 ->
  from_slice (lr_body req) = Some j -> get_str "amount" j = Some a ->
  to_vec (set_str "amount" (trim a) j) = Some s ->
  exists hs, transform next req = next (with_parts hs s req) /\
    header_get "content-length" hs = Some (print_Z (Z.of_nat (slength s))) /\
    exists j', from_slice s = Some j' /\ get_str "amount" j' = Some (trim a).
Proof.
  intros Hp Hw Hl Hj Ha Hs. eexists. split; [|split; [apply header_get_insert_same|]].
  2:{ eexists. split; [by apply reads_back|apply get_set]. }
  assert (exists rule, find_rule (lr_path req) default_transformer = Some rule /\
            tf_body_transform rule = Some "normalize_amount" /\ tf_add_headers rule = [] /\ tf_remove_headers rule = [])
    as (rule & Hr & Ht & Hadd & Hrem).
  { unfold find_rule. simpl. destruct (starts_with "/api/v1/tips" _); [by eexists|].
    simpl in Hp. rewrite Hp. by eexists. }
  apply (transform_rule next req rule "normalize_amount" j s); try done.
  unfold apply_body_transform. simpl. by rewrite Ha.
Qed.

(** A body over one mebibyte is replaced by nothing, under its old headers. *)
Theorem large_body_dropped next req rule :
  find_rule (lr_path req) default_transformer = Some rule -> is_write (lr_method req) = true ->
  1048576 < Z.of_nat (slength (lr_body req)) ->
  transform next req = next (with_parts (lr_headers req) "" req).
Proof.
  intros Hr Hw Hl. unfold transform_request. rewrite Hr.
  assert (tf_add_headers rule = [] /\ tf_remove_headers rule = [] /\ exists t, tf_body_transform rule = Some t) as (-> & -> & t & Ht).
  { apply find_some in Hr as [Hin _]. unfold default_transformer in Hin. simpl in Hin.
    destruct Hin as [<-|[<-|[<-|[<-|[]]]]]; eauto. }
  simpl. unfold transform_body. rewrite Ht, Hw. simpl.
  destruct (1048576 <? _) eqn:E; zbool; [done|lia].
Qed.

(** Everything else reaches the handler as it came: reads, other paths, and
    bodies that are not JSON. *)
Theorem transform_passes next req :
  find_rule (lr_path req) default_transformer = None -> transform next req = next req.
Proof. intros Hr. unfold transform_request. by rewrite Hr. Qed.
End transform.

(** ** The throttle *)

Section throttle.
Variable env : environment.
(** The key, the bucket of its window and the limit. *)
Variables (k : string) (b : Z).
Hypothesis window_fits : 0 < throttle_window env <= i64_max.

Abbreviation window_end := ((b + 1) * throttle_window env * 1000).

(** Nothing was counted in the bucket yet, or the key holds the count until the
    bucket is over and the admitted are no more than the count and the limit. *)
Definition counts_to (admitted : Z) (s : St) (now : Z) : Prop :=
  admitted = 0 /\ (forall t, now <= t < window_end -> r_get t k s = None) \/
  exists m, 1 <= m <= i64_max /\ admitted <= Z.max 0 (Z.min (throttle_limit env) m) /\
    forall t, now <= t < window_end -> r_get t k s = Some (print_i64 m).

Definition in_bucket (w : World) : Prop := b * throttle_window env * 1000 <= lw_clock w < window_end.

Definition bucket_inv (admitted : Z) (w : World) : Prop :=
  exists s, lw_redis w = Some s /\ counts_to admitted s (lw_clock w).

Lemma redis_answers {A} (q : Z -> St -> option A * St) w s : lw_redis w = Some s ->
  exists a s' w', redis_call q w = (Ok a, w') /\ lw_redis w' = Some s' /\ lw_clock w' = lw_clock w /\
    (s' = s /\ a = None \/ s' = snd (q (lw_clock w) s) /\ (a = None \/ a = fst (q (lw_clock w) s))).
Proof.
  intros Hs. unfold redis_call. rewrite Hs. unfold remote. simpl. destruct (pop_fault (lw_faults w)) as [f l]. rewrite Hs.
  destruct (q (lw_clock w) s) as [a s'] eqn:E. destruct f; simpl; rewrite ?E.
  - exists a, s'. eexists. split_and!; try done. right. split; [done|by right].
  - exists None, s. eexists. split_and!; try done. by left.
  - exists None, s'. eexists. split_and!; try done. right. split; [done|by left].
Qed.

Lemma print_i64_parse m : 1 <= m <= i64_max -> parse_i64 (print_i64 m) = Some m.
Proof. intros Hm. unfold print_i64. destruct (m <? 0) eqn:E; zbool; [lia|]. apply parse_i64_print. lia. Qed.

Lemma r_overwrite_get now key v v' s t : r_get now key s = Some v' -> now <= t ->
  r_get t key s = Some v' -> r_get t key (r_overwrite now key v s) = Some v.
Proof.
  intros H1 Ht H2. unfold r_overwrite. pose proof (r_pttl_spec now t key v' s H1 Ht) as P.
  destruct (r_pttl now key s =? -1); [by apply r_get_set_plain|].
  apply r_get_set_same. apply P in H2. lia.
Qed.

Lemma r_overwrite_other now key v s t : key <> k -> r_get t k (r_overwrite now key v s) = r_get t k s.
Proof.
  intros Hk. unfold r_overwrite. destruct (_ =? _); [by apply r_get_set_plain_other|by apply r_get_set_other].
Qed.

Lemma r_incr_keep_other now key s t : key <> k -> r_get t k (snd (r_incr_keep now key s)) = r_get t k s.
Proof.
  intros Hk. unfold r_incr_keep. destruct (r_get now key s) as [v|]; [|by apply r_get_set_plain_other].
  destruct (parse_i64 v) as [n|]; [|done]. destruct (n <? i64_max); [|done]. by apply r_overwrite_other.
Qed.

Lemma r_expire_other now key ttl s t : key <> k -> r_get t k (snd (r_expire now key ttl s)) = r_get t k s.
Proof.
  intros Hk. unfold r_expire. destruct (i64_max <? _); [done|]. destruct (r_get now key s); [|done].
  simpl. destruct (0 <? ttl); [by apply r_get_set_other|by apply r_get_del_other].
Qed.

Lemma counts_to_same admitted s s' now : (forall t, r_get t k s' = r_get t k s) ->
  counts_to admitted s now -> counts_to admitted s' now.
Proof.
  intros Hs [[-> Hn]|(m & Hm & Ha & Hn)]; [left|right; exists m]; split_and!; try done; try lia;
    intros t Ht; rewrite Hs; by apply Hn.
Qed.

(** Setting the expiry in the bucket keeps the key until it is over. *)
Lemma counts_to_expire admitted s now : b * throttle_window env * 1000 <= now < window_end ->
  counts_to admitted s now ->
  counts_to admitted (snd (r_expire now k (wrap_i64 (throttle_window env)) s)) now.
Proof.
  intros Hb Hc. rewrite wrap_i64_id by (unfold i64_min; lia). unfold r_expire.
  destruct (i64_max <? _) eqn:E; [done|]. destruct Hc as [[-> Hn]|(m & Hm & Ha & Hn)].
  - rewrite Hn by lia. by left.
  - rewrite Hn by lia. simpl. destruct (0 <? throttle_window env) eqn:E2; zbool; [|lia].
    right. exists m. split_and!; try done; try lia. intros t Ht. apply r_get_set_same. nia.
Qed.

(** What the count of a request adds. *)
Definition admits (o : option Z) : Z :=
  match o with Some c => if c <=? throttle_limit env then 1 else 0 | None => 0 end.

Lemma counts_to_incr admitted s now : now < window_end -> counts_to admitted s now ->
  let '(o, s') := r_incr_keep now k s in
  counts_to admitted s' now /\ counts_to (admitted + admits o) s' now.
Proof.
  intros Hb Hc. unfold r_incr_keep. destruct Hc as [[-> Hn]|(m & Hm & Ha & Hn)]; rewrite Hn by lia.
  - assert (forall t, r_get t k (r_set k "1" s) = Some (print_i64 1)) as Hg by (intros t; apply r_get_set_plain).
    simpl. split; right; exists 1; (split; [vm_compute; split; congruence|]); (split; [|done]); [lia|].
    unfold admits. destruct (1 <=? throttle_limit env) eqn:E; zbool; lia.
  - rewrite print_i64_parse by done. destruct (m <? i64_max) eqn:E; zbool.
    + assert (forall t, now <= t < window_end -> r_get t k (r_overwrite now k (print_i64 (m + 1)) s) = Some (print_i64 (m + 1))) as Hg.
      { intros t Ht. eapply r_overwrite_get; [apply Hn; lia|lia|by apply Hn]. }
      split; right; exists (m + 1); (split; [lia|]); (split; [|done]); [lia|].
      unfold admits. destruct (m + 1 <=? throttle_limit env) eqn:E2; zbool; lia.
    + split; right; exists m; (split; [lia|]); (split; [|done]); unfold admits; lia.
Qed.

Lemma throttle_count_inv admitted key w :
  in_bucket w -> bucket_inv admitted w ->
  exists o w', throttle_count env key w = (Ok o, w') /\ lw_clock w' = lw_clock w /\
    bucket_inv (admitted + if String.eqb key k then admits o else 0) w'.
Proof.
  intros Hb (s & Hs & Hc). unfold throttle_count.
  destruct (redis_answers (fun now => r_incr_keep now key) w s Hs) as (o & s1 & w1 & E & Hs1 & Hc1 & Hcase).
  rewrite (bind_run _ _ _ _ _ E).
  assert (counts_to (admitted + if String.eqb key k then admits o else 0) s1 (lw_clock w1)) as Hinv.
  { rewrite Hc1. destruct (String.eqb_spec key k) as [->|Hne].
    - pose proof (counts_to_incr admitted s (lw_clock w) (proj2 Hb) Hc) as K.
      destruct (r_incr_keep (lw_clock w) k s) as [c s'].
      destruct Hcase as [[-> ->]|[-> [-> | ->]]]; simpl; rewrite ?Z.add_0_r; tauto.
    - rewrite Z.add_0_r. destruct Hcase as [[-> ->]|[-> _]]; [done|].
      eapply counts_to_same; [|exact Hc]. intros t. by apply r_incr_keep_other. }
  destruct o as [c|]; [|exists None, w1; split_and!; try done; by exists s1].
  destruct (c =? 1).
  2:{ exists (Some c), w1. split_and!; try done. by exists s1. }
  destruct (redis_answers (fun now => r_expire now key (wrap_i64 (throttle_window env))) w1 s1 Hs1)
    as (o2 & s2 & w2 & E2 & Hs2 & Hc2 & Hcase2).
  exists (Some c), w2. split; [|split; [congruence|]].
  { unfold mbind, M_bind in *. by rewrite E2. }
  exists s2. split; [done|]. rewrite Hc2.
  destruct Hcase2 as [[-> _]|[-> _]]; [done|].
  destruct (String.eqb_spec key k) as [->|Hne].
  - apply counts_to_expire; [|done]. rewrite Hc1. exact Hb.
  - eapply counts_to_same; [|exact Hinv]. intros t. by apply r_expire_other.
Qed.

(** What happens during the bucket: requests are counted, of this key and of
    others, and everything else leaves the counts alone while time goes on. *)
Inductive throttled : World -> list (string * Z) -> World -> Prop :=
| TStart w : throttled w [] w
| TCount w log w1 key o w2 :
    throttled w log w1 -> throttle_count env key w1 = (Ok o, w2) -> throttled w (log ++ [(key, admits o)]) w2
| TOther w log w1 w2 :
    throttled w log w1 -> lw_clock w1 <= lw_clock w2 ->
    (forall s1, lw_redis w1 = Some s1 -> exists s2, lw_redis w2 = Some s2 /\ forall t, r_get t k s2 = r_get t k s1) ->
    throttled w log w2.

Definition admitted_in (log : list (string * Z)) : Z :=
  sumZ (map (fun e => if String.eqb (fst e) k then snd e else 0) log).

Lemma redis_call_clock {A} (q : Z -> St -> option A * St) w : lw_clock (snd (redis_call q w)) = lw_clock w.
Proof.
  unfold redis_call. destruct (lw_redis w) as [s|] eqn:Hs; [|done].
  destruct (redis_answers q w s Hs) as (a & s' & w' & E & _ & Hc & _).
  unfold redis_call in E. rewrite Hs in E. destruct (remote _ _ _) as [r w2]. injection E as _ ->. exact Hc.
Qed.

Lemma throttle_count_clock key w : lw_clock (snd (throttle_count env key w)) = lw_clock w.
Proof.
  unfold throttle_count, mbind, M_bind.
  pose proof (redis_call_clock (fun now => r_incr_keep now key) w) as C1.
  destruct (redis_call _ w) as [[[c|]|e] w1]; simpl in *; [|done|done].
  destruct (c =? 1); simpl; [|done].
  pose proof (redis_call_clock (fun now => r_expire now key (wrap_i64 (throttle_window env))) w1) as C2.
  destruct (redis_call _ w1) as [[o|e] w2]; simpl in *; congruence.
Qed.

Lemma throttled_inv w log w' : throttled w log w' -> bucket_inv 0 w ->
  b * throttle_window env * 1000 <= lw_clock w -> lw_clock w' < window_end ->
  lw_clock w <= lw_clock w' /\ bucket_inv (admitted_in log) w'.
Proof.
  intros Ht Hi Hb. induction Ht as [w|w log w1 key o w2 Ht IH E|w log w1 w2 Ht IH Hc Hs]; intros He.
  - split; [lia|exact Hi].
  - assert (lw_clock w2 = lw_clock w1) as Hc by (pose proof (throttle_count_clock key w1) as C; by rewrite E in C).
    destruct IH as [Hle Hinv]; [done|done|congruence|]. split; [lia|].
    destruct (throttle_count_inv (admitted_in log) key w1) as (o' & w2' & E' & _ & K); [unfold in_bucket; lia|done|].
    rewrite E in E'. injection E' as -> ->.
    unfold admitted_in in *. rewrite map_app, sumZ_app. simpl. by rewrite Z.add_0_r.
  - destruct IH as [Hle (s1 & Hs1 & Hcount)]; [done|done|lia|]. split; [lia|].
    destruct (Hs s1 Hs1) as (s2 & Hs2 & Hg). exists s2. split; [done|].
    eapply counts_to_same; [exact Hg|].
    destruct Hcount as [[-> Hn]|(m & Hm & Ha & Hn)]; [left|right; exists m]; split_and!; try done; try lia;
      intros t Ht'; apply Hn; lia.
Qed.

(** In one bucket of the window at most the limit of requests of an address
    are admitted on their count, over any number of replicas and any failures
    of Redis (a request whose count cannot be had is let through without one). *)
Theorem throttle_bound w log w' :
  lw_redis w <> None ->
  (forall s, lw_redis w = Some s -> forall t, lw_clock w <= t < window_end -> r_get t k s = None) ->
  b * throttle_window env * 1000 <= lw_clock w -> lw_clock w' < window_end ->
  throttled w log w' ->
  admitted_in log <= Z.max 0 (throttle_limit env).
Proof.
  intros Hr Hn Hb He Ht. destruct (lw_redis w) as [s|] eqn:Hs; [|done].
  destruct (throttled_inv w log w' Ht) as [_ (s' & _ & Hc)]; try done.
  { exists s. split; [done|]. left. split; [done|]. intros t Ht'. by apply (Hn s). }
  destruct Hc as [[-> _]|(m & _ & Ha & _)]; lia.
Qed.
End throttle.

(** A request is handled unless its count is over the limit. *)
Lemma throttle_decides env json_body rid next req w :
  lr_redis req = true -> is_Some (lw_redis w) -> throttle_window env <> 0 ->
  let '(o, w1) := throttle_count env (throttle_key env req w) w in
  match o with
  | Ok (Some c) =>
      if throttle_limit env <? c
      then exists resp, redis_throttle_middleware env json_body rid next req w = (Ok resp, w1) /\ resp_status resp = 429
      else snd (redis_throttle_middleware env json_body rid next req w) = snd (next req w1)
  | Ok None => redis_throttle_middleware env json_body rid next req w = next req w1
  | Err _ => True
  end.
Proof.
  intros Hr Hs Hw. unfold redis_throttle_middleware. cbv [mbind M_bind gets mret M_ret].
  rewrite bool_decide_eq_true_2, Hr by done. cbn [andb].
  destruct (throttle_window env =? 0) eqn:E; zbool; [done|].
  destruct (throttle_count env (throttle_key env req w) w) as [[[c|]|e] w1]; [|done|done].
  destruct (throttle_limit env <? c).
  - eexists. split; reflexivity.
  - by destruct (next req w1) as [[a|e] w2].
Qed.

(** The throttle sits outside the layer that adds the connection it looks for:
    in the application it lets every request through uncounted. *)
Theorem throttle_unreachable env json_body parse_ip cors trace outer rid router req w :
  lr_redis req = false ->
  app_layers env json_body parse_ip cors trace outer rid router req w =
  track_api_usage (outer (propagate_request_id (trace (fun req =>
    response ← cors (fun req => router (with_extensions true false req)) req;
    mret (security_headers response))))) req (w : World).
Proof.
  intros Hr. unfold app_layers. set (inner := outer _).
  assert (forall v : World, whitelist_middleware env parse_ip (redis_throttle_middleware env json_body rid inner) req v = inner req v) as E.
  { intros v. unfold whitelist_middleware, redis_throttle_middleware. rewrite Hr.
    destruct (lr_peer req); [|done]. by destruct (is_whitelisted _ _ _). }
  unfold track_api_usage, mbind, M_bind, gets. by rewrite E.
Qed.

(** Whitelisted or not, a request goes the same way. *)
Theorem whitelist_bypasses_nothing env parse_ip next req w :
  whitelist_middleware env parse_ip next req w = next req (w : World).
Proof. unfold whitelist_middleware. destruct (lr_peer req); [|done]. by destruct (is_whitelisted _ _ _). Qed.

(** A window of 0 seconds is accepted and makes every throttled request panic. *)
Theorem zero_window_panics env json_body rid next req w :
  throttle_window env = 0 -> lr_redis req = true -> is_Some (lw_redis w) ->
  redis_throttle_middleware env json_body rid next req w = (Err Panicked, w : World).
Proof.
  intros Hw Hr Hs. unfold redis_throttle_middleware, mbind, M_bind, gets. rewrite bool_decide_eq_true_2, Hr by done.
  simpl. by rewrite Hw.
Qed.
End facts.

(** ** A concrete server *)

Definition two_a_minute : environment := fun v =>
  if String.eqb v "REDIS_RATE_LIMIT" then Some "2" else None.

Abbreviation DemoWorld := (LWorld (St := redis_map string) (App := unit)).

Definition quiet (faults : list fault) : DemoWorld :=
  {| lw_redis := Some ∅; lw_clock := 1000; lw_faults := faults; lw_counts := ∅; lw_usage := []; lw_app := tt |}.

Definition demo_key : string := "throttle:10.0.0.1:0".

Definition counted (n : nat) : DemoWorld :=
  Nat.iter n (fun w => snd (throttle_count two_a_minute demo_key w)) (quiet []).

Lemma throttle_bound_witness :
  admitted_in demo_key [(demo_key, 1); (demo_key, 1); (demo_key, 0)] <= 2.
Proof.
  apply (throttle_bound two_a_minute demo_key 0 ltac:(split; vm_compute; congruence) (quiet [])
           [(demo_key, 1); (demo_key, 1); (demo_key, 0)] (counted 3)).
  - discriminate.
  - intros s [= <-] t _. reflexivity.
  - vm_compute. congruence.
  - vm_compute. congruence.
  - apply (TCount two_a_minute demo_key (quiet []) [(demo_key, 1); (demo_key, 1)] (counted 2) demo_key (Some 3)).
    2:{ vm_compute. reflexivity. }
    apply (TCount two_a_minute demo_key (quiet []) [(demo_key, 1)] (counted 1) demo_key (Some 2)).
    2:{ vm_compute. reflexivity. }
    apply (TCount two_a_minute demo_key (quiet []) [] (quiet []) demo_key (Some 1)).
    2:{ vm_compute. reflexivity. }
    apply TStart.
Defined.

(** The INCR and the EXPIRE are two commands: when the reply of the first INCR is
    lost, or the EXPIRE fails, the key never expires. *)
Example key_without_expiry :
  forall faults, faults = [ReplyLost] \/ faults = [Fine; Refused] ->
  (s ← lw_redis (snd (throttle_count two_a_minute demo_key (quiet faults))); s !! demo_key) = Some ("1", None).
Proof. intros faults [-> | ->]; vm_compute; reflexivity. Qed.

Definition ok_handler : Next (St := redis_map string) (App := unit) :=
  fun _ => mret {| resp_status := 200; resp_headers := []; resp_body := "ok" |}.

(** The third request of a minute is refused, until the next bucket. *)
Example throttled_run :
  let req := with_extensions true false
               {| lr_method := "GET"; lr_path := "/tips"; lr_headers := []; lr_body := ""; lr_identity := None;
                  lr_request_id := None; lr_peer := Some "10.0.0.1"; lr_redis := false; lr_tracker := false |} in
  let run w := redis_throttle_middleware two_a_minute (fun _ => "refused") (JStr "r") ok_handler req w in
  let '(r1, w1) := run (quiet []) in
  let '(r2, w2) := run w1 in
  let '(r3, w3) := run w2 in
  let later := {| lw_redis := lw_redis w3; lw_clock := 60000; lw_faults := []; lw_counts := ∅; lw_usage := []; lw_app := tt |} in
  let '(r4, _) := run later in
  let status (r : result (Response string) panic) := match r with Ok a => resp_status a | Err _ => 0 end in
  (status r1, status r2, status r3, status r4) = (200, 200, 429, 200) /\
  (match r3 with Ok a => header_get "Retry-After" (resp_headers a) | Err _ => None end) = Some "59".
Proof. vm_compute. split; reflexivity. Qed.

(** A tip with blanks around its amount, with JSON that is its amount. *)
Lemma amount_normalized_witness :
  let req := a_request "POST" "/api/v2/tips" [("Content-Length", "6")] "  5.0 " in
  exists hs, transform_request (St := redis_map string) (App := unit) Some Some (fun _ j => Some j) (fun _ s _ => s) (fun s => s) ok_handler req =
               ok_handler (with_parts hs "5.0" req) /\
    header_get "content-length" hs = Some "3" /\
    exists j', Some "5.0" = Some j' /\ Some j' = Some "5.0".
Proof.
  intros req.
  apply (amount_normalized Some Some (fun _ j => Some j) (fun _ s _ => s) (fun s => s)
           ltac:(intros j s [= ->]; reflexivity) ltac:(reflexivity) ok_handler req "  5.0 " "  5.0 " "5.0");
    vm_compute; try reflexivity. discriminate.
Defined.
