(* ===== verification/Creators.v ===== *)
(** * Creators

    The pages of the creators: src/src/controllers/creator_controller.rs behind
    src/src/routes/creators.rs, over the table of creators, the cache in Redis
    (src/src/cache/redis_client.rs) and the rows of src/src/models/creator.rs.
    Money reaches a creator at the wallet address of this table.

    A row holds the columns of file Accounts too, and a statement that returns a
    row with columns that do not decrypt takes effect and fails.  What is cached
    is the public part of a row.  Moderation, the validator and JSON of serde,
    base32, base64 and ed25519, the full-text search of Postgres and the row of a
    profile's links are parameters. *)

From S2P Require Import Prelude Text Codec Redis Errors Amount Auth Crypto Accounts Sql.

(** ** models/creator.rs *)

Section creators.
(** Social links as JSON. *)
Context {J : Type}.

(** src/src/models/creator.rs:57-66 SocialLink *)
Record SocialLink : Type := { sl_platform : string; sl_url : string }.

(** The public part of a creator, which is what is cached and answered.
    src/src/models/creator.rs:16-55 Creator *)
Record CreatorView : Type := {
  vw_id : string;
  vw_username : string;
  vw_wallet_address : string;
  vw_email : option string;
  vw_totp_enabled : bool;
  vw_created_at : Z;
  vw_bio : option string;
  vw_display_name : option string;
  vw_avatar_url : option string;
  vw_is_verified : bool;
  vw_social_links : J;
  vw_categories : list string;
  vw_tags : list string
}.

(** A row: its columns for the pages ([vw_totp_enabled] is not read) and those of the account. *)
Record CreatorRow : Type := { rw_view : CreatorView; rw_account : Creator }.

(** What a row shows. *)
Definition shown (r : CreatorRow) : CreatorView :=
  let v := rw_view r in
  {| vw_id := vw_id v; vw_username := vw_username v; vw_wallet_address := vw_wallet_address v; vw_email := vw_email v;
     vw_totp_enabled := cr_totp_enabled (rw_account r); vw_created_at := vw_created_at v; vw_bio := vw_bio v;
     vw_display_name := vw_display_name v; vw_avatar_url := vw_avatar_url v; vw_is_verified := vw_is_verified v;
     vw_social_links := vw_social_links v; vw_categories := vw_categories v; vw_tags := vw_tags v |}.

(** src/src/models/creator.rs:68-107 CreateCreatorRequest *)
Record CreateCreatorRequest : Type := {
  cc_username : string;
  cc_wallet_address : string;
  cc_email : option string;
  cc_bio : option string;
  cc_display_name : option string;
  cc_avatar_url : option string;
  cc_social_links : option (list SocialLink);
  cc_categories : option (list string);
  cc_tags : option (list string)
}.

(** src/src/models/creator.rs:109-120 UpdateCreatorWalletRequest *)
Record UpdateCreatorWalletRequest : Type := { uw_new_wallet_address : string; uw_signature : string }.

(** src/src/models/creator.rs:158-182 UpdateCreatorProfileRequest *)
Record UpdateCreatorProfileRequest : Type := {
  up_bio : option string;
  up_display_name : option string;
  up_avatar_url : option string;
  up_social_links : option (list SocialLink);
  up_categories : option (list string);
  up_tags : option (list string)
}.

(** src/src/models/creator.rs:122-137 CreatorResponse *)
Record CreatorResponse : Type := {
  rp_id : string;
  rp_username : string;
  rp_wallet_address : string;
  rp_email : option string;
  rp_created_at : Z;
  rp_bio : option string;
  rp_display_name : option string;
  rp_avatar_url : option string;
  rp_is_verified : bool;
  rp_social_links : J;
  rp_categories : list string;
  rp_tags : list string
}.

(** src/src/models/creator.rs:139-156 CreatorResponse::from *)
Definition response_of (c : CreatorView) : CreatorResponse :=
  {| rp_id := vw_id c; rp_username := vw_username c; rp_wallet_address := vw_wallet_address c; rp_email := vw_email c;
     rp_created_at := vw_created_at c; rp_bio := vw_bio c; rp_display_name := vw_display_name c;
     rp_avatar_url := vw_avatar_url c; rp_is_verified := vw_is_verified c; rp_social_links := vw_social_links c;
     rp_categories := vw_categories c; rp_tags := vw_tags c |}.

(** ** Validation *)

(** [#[validate(length(min, max))]] of an optional text: its characters. *)
Definition length_within (lo hi : nat) (s : string) : bool := (lo <=? char_count s)%nat && (char_count s <=? hi)%nat.

Definition optional {A} (p : A -> bool) (o : option A) : bool := match o with Some a => p a | None => true end.

(** src/src/models/creator.rs:13-13 USERNAME_REGEX *)
Definition username_regex (s : string) : bool :=
  negb (String.eqb s "") && all_chars (fun c => is_alphanumeric c || Ascii.eqb c "_" || Ascii.eqb c "-") s.

(** The validator's check of an email. *)
Variable is_email : string -> bool.

(** The links of a new creator are not validated.
    src/src/models/creator.rs:72-107 the rules of CreateCreatorRequest *)
Definition valid_create (r : CreateCreatorRequest) : bool :=
  length_within 3 30 (cc_username r) && username_regex (cc_username r) &&
  is_ok (validate_stellar_address (cc_wallet_address r)) && optional is_email (cc_email r) &&
  optional (length_within 0 1000) (cc_bio r) && optional (length_within 0 100) (cc_display_name r) &&
  optional (length_within 0 500) (cc_avatar_url r).

(** src/src/models/creator.rs:111-120 the rules of UpdateCreatorWalletRequest *)
Definition valid_wallet (r : UpdateCreatorWalletRequest) : bool :=
  is_ok (validate_stellar_address (uw_new_wallet_address r)) && (1 <=? char_count (uw_signature r))%nat.

(** src/src/models/creator.rs:61-65 the rules of SocialLink *)
Definition valid_link (l : SocialLink) : bool :=
  length_within 1 50 (sl_platform l) && length_within 1 500 (sl_url l).

(** src/src/models/creator.rs:162-181 the rules of UpdateCreatorProfileRequest *)
Definition valid_profile (r : UpdateCreatorProfileRequest) : bool :=
  optional (length_within 0 1000) (up_bio r) && optional (length_within 0 100) (up_display_name r) &&
  optional (length_within 0 500) (up_avatar_url r) && optional (forallb valid_link) (up_social_links r).

(** ** The world *)

Context {St : Type} `{RedisLaws string St} {platform : Platform}.

(** What an audit entry keeps of a row before and after. *)
Inductive AuditData : Type :=
| NoData
| WalletData (wallet_address : string)
| ProfileData (bio display_name avatar_url : option string) (social_links : J) (categories tags : list string).

(** The entry a spawned task is going to write. *)
Record AuditEntry : Type := {
  au_event : string;
  au_actor : string;
  au_resource_id : string;
  au_action : string;
  au_before : AuditData;
  au_after : AuditData
}.

(** The table by its UNIQUE column, the ids of the tenants, Redis (absent when it
    is not connected) and its clock in milliseconds, the schedule of faults, the
    uuids drawn, the patterns sent to the invalidator, the webhook events and the
    audit entries of spawned tasks. *)
Record CreatorWorld : Type := {
  cw_creators : gmap string CreatorRow;
  cw_tenants : list string;
  cw_redis : option St;
  cw_clock : Z;
  cw_faults : list fault;
  cw_uuids : nat;
  cw_invalidated : list string;
  cw_hooks : list (string * CreatorView);
  cw_audit : list AuditEntry
}.

Definition with_creators (t : gmap string CreatorRow) (w : CreatorWorld) : CreatorWorld :=
  {| cw_creators := t; cw_tenants := cw_tenants w; cw_redis := cw_redis w; cw_clock := cw_clock w;
     cw_faults := cw_faults w; cw_uuids := cw_uuids w; cw_invalidated := cw_invalidated w;
     cw_hooks := cw_hooks w; cw_audit := cw_audit w |}.
Definition with_redis (s : St) (w : CreatorWorld) : CreatorWorld :=
  {| cw_creators := cw_creators w; cw_tenants := cw_tenants w; cw_redis := Some s; cw_clock := cw_clock w;
     cw_faults := cw_faults w; cw_uuids := cw_uuids w; cw_invalidated := cw_invalidated w;
     cw_hooks := cw_hooks w; cw_audit := cw_audit w |}.
Definition with_weather (clock : Z) (l : list fault) (w : CreatorWorld) : CreatorWorld :=
  {| cw_creators := cw_creators w; cw_tenants := cw_tenants w; cw_redis := cw_redis w; cw_clock := clock;
     cw_faults := l; cw_uuids := cw_uuids w; cw_invalidated := cw_invalidated w;
     cw_hooks := cw_hooks w; cw_audit := cw_audit w |}.
Definition with_effects (invalidated : list string) (hooks : list (string * CreatorView)) (audit : list AuditEntry)
    (w : CreatorWorld) : CreatorWorld :=
  {| cw_creators := cw_creators w; cw_tenants := cw_tenants w; cw_redis := cw_redis w; cw_clock := cw_clock w;
     cw_faults := cw_faults w; cw_uuids := cw_uuids w; cw_invalidated := cw_invalidated w ++ invalidated;
     cw_hooks := cw_hooks w ++ hooks; cw_audit := cw_audit w ++ audit |}.

#[export] Instance CreatorWorld_networked : Networked CreatorWorld := {
  next_fault w := let '(f, l) := pop_fault (cw_faults w) in (f, with_weather (cw_clock w) l w)
}.

Abbreviation C A := (M CreatorWorld AppError A).

(** A statement on the table. *)
Definition creators_sql {A} (q : gmap string CreatorRow -> result (A * gmap string CreatorRow) sqlx_error) : C A :=
  r ← remote (app_error_from_sqlx SqlxOther) (fun w =>
    match q (cw_creators w) with
    | Ok (a, t) => (Ok a, with_creators t w)
    | Err e => (Err (app_error_from_sqlx e), w)
    end);
  lift r.

(** A row that is read: [None] when a column does not decrypt. *)
Definition decode_row (r : CreatorRow) : option CreatorView :=
  _ ← decode_creator (rw_account r);
  Some (shown r).

Definition decoded (r : CreatorRow) : C CreatorView := expect (app_error_from_sqlx SqlxOther) (decode_row r).

(** ** cache/redis_client.rs *)

Variable to_json : CreatorView -> option string.
Variable of_json : string -> option CreatorView.

(** A command: [None] when it fails or its reply is lost. *)
Definition cache_call {A} (q : Z -> St -> option A * St) : C (option A) := fun w =>
  match cw_redis w with
  | None => (Ok None, w)
  | Some _ =>
      let '(r, w') := remote tt (fun w =>
        match cw_redis w with
        | Some s => let '(a, s') := q (cw_clock w) s in (a, with_redis s' w)
        | None => (None, w)
        end) w in
      (Ok (match r with Ok a => a | Err _ => None end), w')
  end.

(** src/src/cache/redis_client.rs:8-19 get *)
Definition cache_get (key : string) : C (option CreatorView) :=
  raw ← cache_call (fun now s => (r_get now key s, s));
  mret (raw ≫= of_json).

(** src/src/cache/redis_client.rs:4-4 TTL_CREATOR *)
Definition TTL_CREATOR : Z := 300.

(** src/src/cache/redis_client.rs:23-35 set *)
Definition cache_set (key : string) (value : CreatorView) (ttl_secs : Z) : C unit :=
  match to_json value with
  | Some raw => _ ← cache_call (fun now s => setex now key ttl_secs raw s); mret tt
  | None => mret tt
  end.

(** src/src/cache/keys.rs:7-9 creator *)
Definition creator_cache_key (username : string) : string := "creator:" +:+ username.

(** ** controllers/creator_controller.rs *)

(** Whether the moderation of a username finds a violation with a confidence of 0.90. *)
Variable username_violates : string -> bool.
(** The JSON of links. *)
Variable links_value : list SocialLink -> J.
(** The [n]-th drawn uuid; [NOW()] of the database at a time of the clock. *)
Variable uuid : nat -> string.
(** Whether the application has an invalidator. *)
Variable invalidator : bool.
(** The text of the validator's errors. *)
Variable validation_text : string.

Definition fresh_uuid : C string := fun w =>
  (Ok (uuid (cw_uuids w)),
   {| cw_creators := cw_creators w; cw_tenants := cw_tenants w; cw_redis := cw_redis w; cw_clock := cw_clock w;
      cw_faults := cw_faults w; cw_uuids := S (cw_uuids w); cw_invalidated := cw_invalidated w;
      cw_hooks := cw_hooks w; cw_audit := cw_audit w |}).

(** The invalidation that follows a write.
    src/src/controllers/creator_controller.rs:92-97 *)
Definition invalidate_listings : C unit :=
  modify (with_effects (if invalidator then ["search:creators:*"; "http:*:/creators/:*"] else []) [] []).

Definition audit (e : AuditEntry) : C unit := modify (with_effects [] [] [e]).

Definition not_null_violation : sqlx_error := SqlxDatabase (Some "23502") None.

(** The INSERT binds the columns it is not given as NULL, and leaves the tenant
    to its default, a random uuid that references the table of tenants.
    src/src/controllers/creator_controller.rs:47-71 the statement of create_creator *)
Definition insert_creator (req : CreateCreatorRequest) (id tenant : string) (now : Z) (tenants : list string)
    (t : gmap string CreatorRow) : result (CreatorRow * gmap string CreatorRow) sqlx_error :=
  match cc_social_links req, cc_categories req, cc_tags req with
  | Some links, Some categories, Some tags =>
      if bool_decide (is_Some (t !! cc_username req)) then Err (unique_violation "creators_username_key")
      else if existsb (fun kv => bool_decide (vw_email (rw_view (snd kv)) = cc_email req)) (map_to_list t) &&
              bool_decide (is_Some (cc_email req))
      then Err (unique_violation "idx_creators_email")
      else if negb (bool_decide (tenant ∈ tenants)) then Err (foreign_key_violation "fk_creators_tenant")
      else
        let row := {| rw_view := {| vw_id := id; vw_username := cc_username req; vw_wallet_address := cc_wallet_address req;
                                    vw_email := cc_email req; vw_totp_enabled := false; vw_created_at := now;
                                    vw_bio := cc_bio req; vw_display_name := cc_display_name req;
                                    vw_avatar_url := cc_avatar_url req; vw_is_verified := false;
                                    vw_social_links := links_value links; vw_categories := categories; vw_tags := tags |};
                      rw_account := {| cr_password_hash := ""; cr_totp_secret := None; cr_totp_enabled := false;
                                       cr_backup_code_hashes := [] |} |} in
        Ok (row, <[cc_username req := row]> t)
  | _, _, _ => Err not_null_violation
  end.

(** src/src/controllers/creator_controller.rs:33-45 the check of the email *)
Definition check_email (email : option string) : C unit :=
  match email with
  | None => mret tt
  | Some e =>
      exists_ ← creators_sql (fun t => Ok (existsb (fun kv => bool_decide (vw_email (rw_view (snd kv)) = Some e)) (map_to_list t), t));
      if exists_ : bool then throw (Conflict "DUPLICATE_EMAIL" "A creator with this email already exists") else mret tt
  end.

(** src/src/controllers/creator_controller.rs:20-130 create_creator *)
Definition create_creator (req : CreateCreatorRequest) : C CreatorView :=
  if username_violates (cc_username req)
  then throw (Validation (InvalidRequest "Username was rejected by content moderation"))
  else
    check_email (cc_email req);;
    id ← fresh_uuid;
    tenant ← fresh_uuid;
    now ← gets cw_clock;
    tenants ← gets cw_tenants;
    row ← creators_sql (insert_creator req id tenant now tenants);
    creator ← decoded row;
    cache_set (creator_cache_key (vw_username creator)) creator TTL_CREATOR;;
    invalidate_listings;;
    _ ← expect Internal (to_json creator);
    modify (with_effects [] [("creator.created", creator)] []);;
    audit {| au_event := "creator.created"; au_actor := vw_username creator; au_resource_id := vw_id creator;
             au_action := "create"; au_before := NoData; au_after := NoData |};;
    mret creator.

(** src/src/controllers/creator_controller.rs:133-180 get_creator_by_username *)
Definition get_creator_by_username (username : string) : C (option CreatorView) :=
  cached ← cache_get (creator_cache_key username);
  match cached with
  | Some c => mret (Some c)
  | None =>
      row ← creators_sql (fun t => Ok (t !! username, t));
      match row with
      | None => mret None
      | Some r =>
          c ← decoded r;
          cache_set (creator_cache_key username) c TTL_CREATOR;;
          mret (Some c)
      end
  end.

(** src/src/controllers/creator_controller.rs:183-189 get_creator_or_not_found *)
Definition get_creator_or_not_found (username : string) : C CreatorView :=
  c ← get_creator_by_username username;
  expect (CreatorNotFound username) c.

(** base32 and base64; whether bytes are an ed25519 key and a signature; the
    verification of a message. *)
Variable base32_decode : string -> option (list Z).
Variable base64_decode : string -> option (list Z).
Variable is_public_key : list Z -> bool.
Variable is_signature : list Z -> bool.
Variable ed25519_verify : list Z -> string -> list Z -> bool.

(** src/src/controllers/creator_controller.rs:388-402 verify_wallet_signature *)
Definition verify_wallet_signature (public_key signature message : string) : result unit AppError :=
  match decode_stellar_public_key base32_decode public_key with
  | Err _ => Err (bad_request "Invalid Stellar public key")
  | Ok public_key_bytes =>
      if negb (is_public_key public_key_bytes) then Err (bad_request "Invalid Stellar public key")
      else
        match base64_decode signature with
        | None => Err (bad_request "Invalid signature encoding")
        | Some signature_bytes =>
            if negb (is_signature signature_bytes) then Err (bad_request "Invalid signature")
            else if ed25519_verify public_key_bytes message signature_bytes then Ok tt
            else Err (bad_request "Wallet signature verification failed")
        end
  end.

Definition set_wallet (a : string) (r : CreatorRow) : CreatorRow :=
  let v := rw_view r in
  {| rw_view := {| vw_id := vw_id v; vw_username := vw_username v; vw_wallet_address := a; vw_email := vw_email v;
                   vw_totp_enabled := vw_totp_enabled v; vw_created_at := vw_created_at v; vw_bio := vw_bio v;
                   vw_display_name := vw_display_name v; vw_avatar_url := vw_avatar_url v;
                   vw_is_verified := vw_is_verified v; vw_social_links := vw_social_links v;
                   vw_categories := vw_categories v; vw_tags := vw_tags v |};
     rw_account := rw_account r |}.

(** [COALESCE($1, column)] for every column of the profile. *)
Definition set_profile (req : UpdateCreatorProfileRequest) (r : CreatorRow) : CreatorRow :=
  let v := rw_view r in
  let coalesce {A} (new old : option A) := match new with Some a => Some a | None => old end in
  {| rw_view := {| vw_id := vw_id v; vw_username := vw_username v; vw_wallet_address := vw_wallet_address v;
                   vw_email := vw_email v; vw_totp_enabled := vw_totp_enabled v; vw_created_at := vw_created_at v;
                   vw_bio := coalesce (up_bio req) (vw_bio v);
                   vw_display_name := coalesce (up_display_name req) (vw_display_name v);
                   vw_avatar_url := coalesce (up_avatar_url req) (vw_avatar_url v);
                   vw_is_verified := vw_is_verified v;
                   vw_social_links := default (vw_social_links v) (links_value <$> up_social_links req);
                   vw_categories := default (vw_categories v) (up_categories req);
                   vw_tags := default (vw_tags v) (up_tags req) |};
     rw_account := rw_account r |}.

(** [UPDATE creators SET .. WHERE username = $n RETURNING ..] with [fetch_one] *)
Definition update_returning (username : string) (f : CreatorRow -> CreatorRow) : C CreatorView :=
  row ← creators_sql (fun t =>
    match t !! username with
    | Some r => Ok (f r, <[username := f r]> t)
    | None => Err SqlxRowNotFound
    end);
  decoded row.

(** src/src/controllers/creator_controller.rs:193-274 update_creator_wallet_address *)
Definition update_creator_wallet_address (username : string) (req : UpdateCreatorWalletRequest) : C CreatorView :=
  if negb (valid_wallet req) then throw (Validation (InvalidRequest validation_text))
  else
    existing_creator ← get_creator_or_not_found username;
    lift (verify_wallet_signature (uw_new_wallet_address req) (uw_signature req) (uw_new_wallet_address req));;
    creator ← update_returning username (set_wallet (uw_new_wallet_address req));
    cache_set (creator_cache_key (vw_username creator)) creator TTL_CREATOR;;
    invalidate_listings;;
    audit {| au_event := "creator.wallet_address.updated"; au_actor := vw_username creator; au_resource_id := vw_id creator;
             au_action := "update"; au_before := WalletData (vw_wallet_address existing_creator);
             au_after := WalletData (vw_wallet_address creator) |};;
    mret creator.

Definition profile_data (v : CreatorView) : AuditData :=
  ProfileData (vw_bio v) (vw_display_name v) (vw_avatar_url v) (vw_social_links v) (vw_categories v) (vw_tags v).

(** src/src/controllers/creator_controller.rs:279-386 update_creator_profile *)
Definition update_creator_profile (username : string) (req : UpdateCreatorProfileRequest) : C CreatorView :=
  if negb (valid_profile req) then throw (Validation (InvalidRequest validation_text))
  else
    existing ← get_creator_or_not_found username;
    creator ← update_returning username (set_profile req);
    cache_set (creator_cache_key (vw_username creator)) creator TTL_CREATOR;;
    invalidate_listings;;
    audit {| au_event := "creator.profile.updated"; au_actor := vw_username creator; au_resource_id := vw_id creator;
             au_action := "update"; au_before := profile_data existing; au_after := profile_data creator |};;
    mret creator.

(** The search of Postgres: whether a row matches a term, and its rank. *)
Variable search_matches : string -> CreatorView -> bool.
Variable ts_rank : string -> CreatorView -> Z.

(** [ORDER BY ts_rank DESC, created_at DESC] *)
Definition found_before (term : string) (a b : CreatorRow) : bool :=
  (ts_rank term (rw_view b) <? ts_rank term (rw_view a)) ||
  (ts_rank term (rw_view a) =? ts_rank term (rw_view b)) && (vw_created_at (rw_view b) <=? vw_created_at (rw_view a)).

(** src/src/controllers/creator_controller.rs:405-433 search_creators *)
Definition search_creators (q : string) (limit : Z) : C (list CreatorView) :=
  let term := trim q in
  if String.eqb term "" then throw (Validation (InvalidRequest "Query parameter 'q' must not be empty"))
  else
    let limit := Z.max 1 (Z.min 100 limit) in
    rows ← creators_sql (fun t =>
      Ok (take (Z.to_nat limit) (sort_by (found_before term)
            (List.filter (fun r => search_matches term (rw_view r)) (map snd (map_to_list t)))), t));
    expect (app_error_from_sqlx SqlxOther) (mapM decode_row rows).

(** ** routes/creators.rs *)

(** [ValidatedJson]: the structured refusal of a body. *)
Variable invalid_fields : list (string * json).

(** src/src/routes/creators.rs:49-56 create_creator *)
Definition create_creator_route (body : CreateCreatorRequest) : C (Z * CreatorResponse) :=
  if negb (valid_create body) then throw (Validation (InvalidFields invalid_fields))
  else creator ← create_creator body; mret (201, response_of creator).

(** src/src/routes/creators.rs:69-76 get_creator *)
Definition get_creator_route (username : string) : C (Z * CreatorResponse) :=
  creator ← get_creator_or_not_found username; mret (200, response_of creator).

(** src/src/routes/creators.rs:131-142 update_creator_wallet *)
Definition update_creator_wallet_route (username : string) (body : UpdateCreatorWalletRequest) : C (Z * CreatorResponse) :=
  if negb (valid_wallet body) then throw (Validation (InvalidFields invalid_fields))
  else creator ← update_creator_wallet_address username body; mret (200, response_of creator).

(** src/src/routes/creators.rs:160-170 update_creator_profile *)
Definition update_creator_profile_route (username : string) (body : UpdateCreatorProfileRequest) : C (Z * CreatorResponse) :=
  if negb (valid_profile body) then throw (Validation (InvalidFields invalid_fields))
  else creator ← update_creator_profile username body; mret (200, response_of creator).

(** [Err ..] of the search is answered as a 500 of its own ([None]).
    src/src/routes/creators.rs:183-206 search_creators *)
Definition search_creators_route (q : string) (limit : Z) : C (Z * option (list CreatorResponse)) :=
  if String.eqb (trim q) "" then throw (Validation (InvalidRequest "Query parameter 'q' must not be empty"))
  else
    r ← attempt (search_creators q limit);
    match r with
    | Ok creators => mret (200, Some (map response_of creators))
    | Err _ => mret (500, None)
    end.
End creators.

(** * Lemmas *)

Section facts.
Context {J St : Type} `{RedisLaws string St} {platform : Platform}.
Variable to_json : CreatorView (J := J) -> option string.
Variable of_json : string -> option (CreatorView (J := J)).
Variable username_violates : string -> bool.
Variable links_value : list SocialLink -> J.
Variable uuid : nat -> string.
Variable invalidator : bool.
Variable validation_text : string.
Variables base32_decode base64_decode : string -> option (list Z).
Variables is_public_key is_signature : list Z -> bool.
Variable ed25519_verify : list Z -> string -> list Z -> bool.
Variable search_matches : string -> CreatorView (J := J) -> bool.
Variable ts_rank : string -> CreatorView (J := J) -> Z.

Abbreviation World := (CreatorWorld (J := J) (St := St)).
Abbreviation Row := (CreatorRow (J := J)).
Abbreviation View := (CreatorView (J := J)).
Implicit Types (w : World) (u : string).

Abbreviation verify := (verify_wallet_signature base32_decode base64_decode is_public_key is_signature ed25519_verify).
Abbreviation update_wallet := (update_creator_wallet_address to_json of_json invalidator validation_text
  base32_decode base64_decode is_public_key is_signature ed25519_verify).
Abbreviation update_profile := (update_creator_profile to_json of_json links_value invalidator validation_text).
Abbreviation create := (create_creator to_json username_violates links_value uuid invalidator).
Abbreviation get_creator := (get_creator_by_username to_json of_json).
Abbreviation search := (search_creators search_matches ts_rank).

Definition wallet (r : Row) : string := vw_wallet_address (rw_view r).

(** ** What a call does to the world *)

(** The world but for the table, Redis and what was drawn or queued. *)
Lemma creators_sql_cases {A} (q : gmap string Row -> result (A * gmap string Row) sqlx_error) w :
  let '(r, w') := creators_sql q w in
  cw_redis w' = cw_redis w /\ cw_clock w' = cw_clock w /\
  match r with
  | Ok a => q (cw_creators w) = Ok (a, cw_creators w')
  | Err _ => cw_creators w' = cw_creators w \/ exists a, q (cw_creators w) = Ok (a, cw_creators w')
  end.
Proof.
  unfold creators_sql, remote, lift. bind_step. simpl.
  destruct (pop_fault (cw_faults w)) as [[] l]; simpl;
    destruct (q (cw_creators w)) as [[a t]|e] eqn:E; simpl; eauto 6.
Qed.

Lemma cache_call_cases {A} (q : Z -> St -> option A * St) w :
  let '(r, w') := cache_call q w in
  cw_creators w' = cw_creators w /\ cw_clock w' = cw_clock w /\
  (cw_redis w' = cw_redis w \/ exists s, cw_redis w = Some s /\ cw_redis w' = Some (snd (q (cw_clock w) s))) /\
  exists a, r = Ok a /\ (a = None \/ exists s, cw_redis w = Some s /\ a = fst (q (cw_clock w) s)).
Proof.
  unfold cache_call. destruct (cw_redis w) as [s|] eqn:Hs; [|by eauto 10].
  unfold remote. simpl. destruct (pop_fault (cw_faults w)) as [f l]. simpl. rewrite Hs.
  destruct (q (cw_clock w) s) as [a s'] eqn:E.
  destruct f; simpl; (split; [done|]); (split; [done|]); (split; [first [by left|right; exists s; by rewrite E]|]); eexists;
    (split; [reflexivity|]); [right; exists s; by rewrite E|by left|by left].
Qed.

(** ** Wallets *)

Section wallets.
(** The wallets that are in order. *)
Variable fine : string -> string -> Prop.

Definition wallets_fine (w : World) : Prop := forall u r, cw_creators w !! u = Some r -> fine u (wallet r).

Lemma stable_creators_sql {A} (q : gmap string Row -> result (A * gmap string Row) sqlx_error) :
  (forall t a t', (forall u r, t !! u = Some r -> fine u (wallet r)) -> q t = Ok (a, t') ->
     forall u r, t' !! u = Some r -> fine u (wallet r)) ->
  stable wallets_fine (creators_sql q).
Proof.
  intros Hq w Hw. pose proof (creators_sql_cases q w) as K. destruct (creators_sql q w) as [[a|e] w'].
  - destruct K as (_ & _ & K). intros u r. eapply Hq; [|exact K]. exact Hw.
  - destruct K as (_ & _ & [K|[a K]]); intros u r; simpl; [rewrite K; apply Hw|].
    eapply Hq; [|exact K]. exact Hw.
Qed.

Lemma stable_select {A} (f : gmap string Row -> A) : stable wallets_fine (creators_sql (fun t => Ok (f t, t))).
Proof. apply stable_creators_sql. by intros t a t' Ht [= _ <-]. Qed.

Lemma stable_cache_call {A} (q : Z -> St -> option A * St) : stable wallets_fine (cache_call q).
Proof.
  intros w Hw. pose proof (cache_call_cases q w) as K. destruct (cache_call q w) as [r w'].
  destruct K as (K & _). intros u x. simpl. rewrite K. apply Hw.
Qed.

Lemma stable_effects i h a : stable wallets_fine (modify (with_effects i h a) : M World AppError unit).
Proof. by apply stable_modify. Qed.

Lemma stable_fresh_uuid : stable wallets_fine (fresh_uuid uuid).
Proof. intros w Hw. exact Hw. Qed.

Lemma stable_cache_set key v ttl : stable wallets_fine (cache_set to_json key v ttl).
Proof.
  unfold cache_set. destruct (to_json v); [|apply stable_ret].
  apply stable_bind; [apply stable_cache_call|intros; apply stable_ret].
Qed.

Lemma stable_cache_get key : stable wallets_fine (cache_get of_json key).
Proof. unfold cache_get. apply stable_bind; [apply stable_cache_call|intros; apply stable_ret]. Qed.

Lemma stable_decoded (r : Row) : stable wallets_fine (decoded r).
Proof. apply stable_lift. Qed.

Lemma stable_invalidate : stable wallets_fine (invalidate_listings (J := J) (St := St) invalidator).
Proof. apply stable_effects. Qed.

Lemma stable_audit e : stable wallets_fine (audit (J := J) (St := St) e).
Proof. apply stable_effects. Qed.

#[local] Hint Resolve stable_select stable_cache_call stable_effects stable_fresh_uuid stable_cache_set stable_cache_get
  stable_decoded stable_invalidate stable_audit : stable.

Lemma stable_get u : stable wallets_fine (get_creator u).
Proof.
  unfold get_creator_by_username. apply stable_bind; [auto with stable|]. intros [c|]; [auto with stable|].
  apply stable_bind; [auto with stable|]. intros [r|]; [|auto with stable].
  apply stable_bind; [auto with stable|]. intros c. apply stable_bind; auto with stable.
Qed.

Lemma stable_get_or_not_found u : stable wallets_fine (get_creator_or_not_found to_json of_json u).
Proof. unfold get_creator_or_not_found. apply stable_bind; [apply stable_get|]. intros c. apply stable_lift. Qed.

Lemma stable_update u f : (forall r : Row, fine u (wallet r) -> fine u (wallet (f r))) ->
  stable wallets_fine (update_returning u f).
Proof.
  intros Hf. unfold update_returning. apply stable_bind; [|auto with stable].
  apply stable_creators_sql. intros t a t' Ht E. destruct (t !! u) as [r0|] eqn:E0; [|done]. injection E as _ <-.
  intros u' r. destruct (decide (u' = u)) as [->|].
  - rewrite lookup_insert_eq. intros [= <-]. by apply Hf, Ht.
  - rewrite lookup_insert_ne by done. apply Ht.
Qed.

Lemma stable_wallet u req :
  (verify (uw_new_wallet_address req) (uw_signature req) (uw_new_wallet_address req) = Ok tt -> fine u (uw_new_wallet_address req)) ->
  stable wallets_fine (update_wallet u req).
Proof.
  intros Hv. unfold update_creator_wallet_address. destruct (negb _); [auto with stable|].
  apply stable_bind; [apply stable_get_or_not_found|]. intros existing.
  apply (stable_bind_value _ (fun _ => fine u (uw_new_wallet_address req))); [auto with stable| |].
  { intros w [] w' _ [= E _]. by apply Hv. }
  intros _ Hf. apply stable_bind; [by apply stable_update|]. intros c.
  repeat (apply stable_bind; [auto with stable|]; intros _). auto with stable.
Qed.

Lemma stable_profile u req : stable wallets_fine (update_profile u req).
Proof.
  unfold update_creator_profile. destruct (negb _); [auto with stable|].
  apply stable_bind; [apply stable_get_or_not_found|]. intros existing.
  apply stable_bind; [by apply stable_update|]. intros c.
  repeat (apply stable_bind; [auto with stable|]; intros _). auto with stable.
Qed.

Lemma stable_create req : fine (cc_username req) (cc_wallet_address req) -> stable wallets_fine (create req).
Proof.
  intros Hf. unfold create_creator. destruct (username_violates _); [auto with stable|].
  apply stable_bind.
  { unfold check_email. destruct (cc_email req); [|auto with stable].
    apply stable_bind; [apply stable_select|]. intros []; auto with stable. }
  intros _. apply stable_bind; [auto with stable|]. intros id. apply stable_bind; [auto with stable|]. intros tenant.
  apply stable_bind; [auto with stable|]. intros now. apply stable_bind; [auto with stable|]. intros tenants.
  apply stable_bind.
  { apply stable_creators_sql. intros t row t' Ht E. unfold insert_creator in E.
    destruct (cc_social_links req), (cc_categories req), (cc_tags req); try done.
    repeat (destruct (bool_decide _) || destruct (existsb _ _)); try done; simpl in E; injection E as _ <-; intros u r;
      (destruct (decide (u = cc_username req)) as [->|]; [rewrite lookup_insert_eq; by intros [= <-]|]);
      rewrite lookup_insert_ne by done; apply Ht. }
  intros row. apply stable_bind; [auto with stable|]. intros c.
  repeat (apply stable_bind; [auto with stable|]; intros ?). auto with stable.
Qed.

Lemma stable_search q limit : stable wallets_fine (search q limit).
Proof.
  unfold search_creators. destruct (String.eqb _ _); [auto with stable|].
  apply stable_bind; [apply stable_select|]. intros rows. apply stable_lift.
Qed.
End wallets.

(** ** Histories *)

(** A request, what the account handlers and the registration do to the table,
    and the time and the faults of the next calls. *)
Inductive creator_op : Type :=
| OCreate (req : CreateCreatorRequest)
| OGet (u : string)
| OWallet (u : string) (req : UpdateCreatorWalletRequest)
| OProfile (u : string) (req : UpdateCreatorProfileRequest)
| OSearch (q : string) (limit : Z)
| OAccount (u : string) (f : Creator -> Creator)
| ORegister (u : string) (r : Row)
| OWeather (clock : Z) (l : list fault).

Definition creator_exec (w : World) (o : creator_op) : World :=
  match o with
  | OCreate req => snd (create req w)
  | OGet u => snd (get_creator u w)
  | OWallet u req => snd (update_wallet u req w)
  | OProfile u req => snd (update_profile u req w)
  | OSearch q limit => snd (search q limit w)
  | OAccount u f => with_creators (alter (fun r => {| rw_view := rw_view r; rw_account := f (rw_account r) |}) u (cw_creators w)) w
  | ORegister u r => match cw_creators w !! u with Some _ => w | None => with_creators (<[u := r]> (cw_creators w)) w end
  | OWeather clock l => with_weather (Z.max (cw_clock w) clock) l w
  end.

(** A signature of the text of an address by the key it encodes. *)
Definition signed_by_key (a sig : string) : Prop :=
  exists pk bytes, decode_stellar_public_key base32_decode a = Ok pk /\ base64_decode sig = Some bytes /\
    ed25519_verify pk a bytes = true.

Lemma verified_signed a sig : verify a sig a = Ok tt -> signed_by_key a sig.
Proof.
  unfold verify_wallet_signature. destruct (decode_stellar_public_key base32_decode a) as [pk|] eqn:Ea; [|done].
  destruct (is_public_key pk); [|done]. destruct (base64_decode sig) as [bytes|] eqn:Es; [|done].
  destruct (is_signature bytes); [|done]. destruct (ed25519_verify pk a bytes) eqn:Ev; [|done]. intros _. by exists pk, bytes.
Qed.

(** Where a wallet may come from: the creator was opened with it, or a request
    to change it carried a signature of its text by its own key. *)
Definition wallet_origin (w : World) (ops : list creator_op) (u a : string) : Prop :=
  (exists r, cw_creators w !! u = Some r /\ wallet r = a) \/
  (exists r, ORegister u r ∈ ops /\ wallet r = a) \/
  (exists req, OCreate req ∈ ops /\ cc_username req = u /\ cc_wallet_address req = a) \/
  (exists req, OWallet u req ∈ ops /\ uw_new_wallet_address req = a /\ signed_by_key a (uw_signature req)).

Lemma exec_wallets fine w o : wallets_fine fine w ->
  (forall u r, o = ORegister u r -> fine u (wallet r)) ->
  (forall req, o = OCreate req -> fine (cc_username req) (cc_wallet_address req)) ->
  (forall u req, o = OWallet u req -> verify (uw_new_wallet_address req) (uw_signature req) (uw_new_wallet_address req) = Ok tt ->
     fine u (uw_new_wallet_address req)) ->
  wallets_fine fine (creator_exec w o).
Proof.
  intros Hw Hreg Hcr Hwal. destruct o as [req|u|u req|u req|q limit|u f|u r|clock l]; simpl.
  - by apply stable_create; [apply Hcr|].
  - by apply stable_get.
  - apply stable_wallet; [|done]. by apply Hwal.
  - by apply stable_profile.
  - by apply stable_search.
  - intros u' r'. simpl. destruct (decide (u' = u)) as [->|]; [|rewrite lookup_alter_ne by done; apply Hw].
    rewrite lookup_alter_eq. destruct (cw_creators w !! u) as [r|] eqn:E; [|done]. intros [= <-]. by apply (Hw u r).
  - destruct (cw_creators w !! u) eqn:E; [exact Hw|]. intros u' r'. simpl.
    destruct (decide (u' = u)) as [->|]; [rewrite lookup_insert_eq; intros [= <-]; by apply Hreg|].
    rewrite lookup_insert_ne by done. apply Hw.
  - exact Hw.
Qed.

(** C37: In every history of requests, account changes and faults the wallet at
    which a creator is paid is one the creator was opened with, or one whose key
    signed the bare text of that address.  The signed text names no creator, so
    a signature made for one page serves for any other ([wallet_redirected]). *)
Theorem wallet_proved ops w u r :
  cw_creators (fold_left creator_exec ops w) !! u = Some r -> wallet_origin w ops u (wallet r).
Proof.
  assert (forall ops' v, (forall o, o ∈ ops' -> o ∈ ops) -> wallets_fine (wallet_origin w ops) v ->
            wallets_fine (wallet_origin w ops) (fold_left creator_exec ops' v)) as K.
  { induction ops' as [|o ops' IH]; intros v Hin Hv; [done|]. simpl. apply IH; [intros o' Ho'; apply Hin; by right|].
    assert (o ∈ ops) as Ho by (apply Hin; by left).
    apply exec_wallets; [done|..].
    - intros u' r' ->. right. left. by exists r'.
    - intros req ->. right. right. left. by exists req.
    - intros u' req -> Hver%verified_signed. right. right. right. by exists req. }
  apply (K ops w); [done|]. intros u' r' Hr. left. by exists r'.
Qed.

(** ** The cache *)

Abbreviation key := creator_cache_key.

(** The rows are under their usernames. *)
Definition named (t : gmap string Row) : Prop := forall u r, t !! u = Some r -> vw_username (rw_view r) = u.

Definition shows (t : gmap string Row) (u : string) (v : View) : Prop := exists r, t !! u = Some r /\ shown r = v.

(** What is cached in [w'] was cached in [w], or is what [P] allows and set now. *)
Definition entries (P : string -> View -> Prop) (w w' : World) : Prop :=
  cw_clock w' = cw_clock w /\
  forall u t raw s', cw_redis w' = Some s' -> cw_clock w <= t -> r_get t (key u) s' = Some raw ->
    (exists s, cw_redis w = Some s /\ r_get t (key u) s = Some raw) \/
    exists v, to_json v = Some raw /\ P u v /\ t < cw_clock w + TTL_CREATOR * 1000.

Lemma entries_same P w w' : cw_redis w' = cw_redis w -> cw_clock w' = cw_clock w -> entries P w w'.
Proof. intros Hr Hc. split; [done|]. intros u t raw s' Hs Ht Hg. left. exists s'. by rewrite <- Hr. Qed.

Lemma entries_trans (P : string -> View -> Prop) w w1 w2 : entries P w w1 -> entries P w1 w2 -> entries P w w2.
Proof.
  intros [Hc1 H1] [Hc2 H2]. split; [congruence|]. intros u t raw s' Hs Ht Hg.
  destruct (H2 u t raw s' Hs ltac:(lia) Hg) as [(s1 & Hs1 & Hg1)|(v & Hv & Hp & Hl)]; [by eapply H1|].
  right. exists v. rewrite <- Hc1. done.
Qed.

Lemma entries_impl (P Q : string -> View -> Prop) w w' : (forall u v, P u v -> Q u v) -> entries P w w' -> entries Q w w'.
Proof.
  intros HPQ [Hc H']. split; [done|]. intros u t raw s' Hs Ht Hg.
  destruct (H' u t raw s' Hs Ht Hg) as [?|(v & Hv & Hp & Hl)]; [by left|right; exists v; auto].
Qed.

Lemma creator_key_inj u u' : key u = key u' -> u = u'.
Proof. by intros [=]. Qed.

Lemma entries_set (P : string -> View -> Prop) u v w : P u v -> entries P w (snd (cache_set to_json (key u) v TTL_CREATOR w)).
Proof.
  intros HP. unfold cache_set. destruct (to_json v) as [raw|] eqn:Ej; [|by apply entries_same].
  pose proof (cache_call_cases (fun now s => setex now (key u) TTL_CREATOR raw s) w) as K.
  unfold mbind, M_bind. destruct (cache_call _ w) as [r w1]. destruct K as (_ & Hc & Hr & a & -> & _). simpl.
  destruct Hr as [Hr|(s & Hs & Hr)]; [by apply entries_same|]. split; [done|].
  intros u' t raw' s' Hs' Ht Hg. rewrite Hr in Hs'. injection Hs' as <-. unfold setex in Hg.
  destruct ((0 <? TTL_CREATOR) && _); simpl in Hg; [|left; by exists s].
  destruct (decide (u' = u)) as [->|Hne].
  - destruct (decide (t < cw_clock w + TTL_CREATOR * 1000)) as [Hlt|Hge].
    + rewrite r_get_set_same in Hg by lia. injection Hg as <-. right. by exists v.
    + rewrite r_get_set_expired in Hg; [done|done|lia].
  - rewrite r_get_set_other in Hg; [left; by exists s|]. intros E. by apply creator_key_inj in E.
Qed.

(** A part of a handler: the table keeps its names, and what it caches is shown
    by the table before or after it. *)
Definition spans {A} (m : M World AppError A) : Prop := forall w, named (cw_creators w) ->
  let w' := snd (m w) in
  named (cw_creators w') /\
  entries (fun u v => shows (cw_creators w) u v \/ shows (cw_creators w') u v) w w'.

Definition keeps_table {A} (m : M World AppError A) : Prop := forall w, cw_creators (snd (m w)) = cw_creators w.

(** A part that touches neither the table nor the cache nor the clock. *)
Definition inert {A} (m : M World AppError A) : Prop := forall w,
  cw_creators (snd (m w)) = cw_creators w /\ cw_redis (snd (m w)) = cw_redis w /\ cw_clock (snd (m w)) = cw_clock w.

Lemma inert_bind {A B} (m : M World AppError A) (k : A -> M World AppError B) :
  inert m -> (forall a, inert (k a)) -> inert (m ≫= k).
Proof.
  intros Hm Hk w. unfold mbind, M_bind. specialize (Hm w). destruct (m w) as [[a|e] w1]; simpl in *; [|done].
  destruct (Hk a w1) as (-> & -> & ->). done.
Qed.

Lemma inert_spans {A} (m : M World AppError A) : inert m -> spans m /\ keeps_table m.
Proof.
  intros Hm. split; intros w; destruct (Hm w) as (Ht & Hr & Hc); [intros Hn|done].
  simpl. rewrite Ht. split; [done|]. by apply entries_same.
Qed.

Lemma inert_ret {A} (a : A) : inert (mret a). Proof. by intros w. Qed.
Lemma inert_lift {A} (r : result A AppError) : inert (lift r). Proof. by intros w. Qed.
Lemma inert_gets {A} (f : World -> A) : inert (gets f). Proof. by intros w. Qed.
Lemma inert_effects i h a : inert (modify (with_effects i h a)). Proof. by intros w. Qed.
Lemma inert_fresh : inert (fresh_uuid uuid). Proof. by intros w. Qed.

Lemma inert_select {A} (f : gmap string Row -> A) : inert (creators_sql (fun t => Ok (f t, t))).
Proof.
  intros w. pose proof (creators_sql_cases (fun t => Ok (f t, t)) w) as K. destruct (creators_sql _ w) as [[a|e] w'].
  - destruct K as (? & ? & [= _ ?]). done.
  - destruct K as (? & ? & [?|[a [= _ ?]]]); done.
Qed.

Lemma inert_cache_get k : inert (cache_get of_json k).
Proof.
  unfold cache_get. apply inert_bind; [|intros; apply inert_ret]. intros w.
  pose proof (cache_call_cases (fun now s => (r_get now k s, s)) w) as K.
  destruct (cache_call _ w) as [r w']. destruct K as (? & ? & [?|(s & Hs & ?)] & _); simpl in *; split_and!; congruence.
Qed.

#[local] Hint Resolve inert_ret inert_lift inert_gets inert_effects inert_fresh inert_select inert_cache_get : inert.

(** A part that leaves the table alone, and then the rest. *)
Lemma spans_bind {A B} (m : M World AppError A) (k : A -> M World AppError B) :
  spans m -> keeps_table m -> (forall a, spans (k a)) -> spans (m ≫= k).
Proof.
  intros Hm Ht Hk w Hn. specialize (Hm w Hn). specialize (Ht w). unfold mbind, M_bind in *.
  destruct (m w) as [[a|e] w1]; simpl in *; [|done]. destruct Hm as [Hn1 He1].
  destruct (Hk a w1 Hn1) as [Hn2 He2]. split; [done|]. rewrite Ht in *.
  eapply entries_trans; [|exact He2]. eapply entries_impl; [|exact He1]. simpl. tauto.
Qed.

Lemma spans_inert_bind {A B} (m : M World AppError A) (k : A -> M World AppError B) :
  inert m -> (forall a, spans (k a)) -> spans (m ≫= k).
Proof. intros Hm. destruct (inert_spans m Hm). by apply spans_bind. Qed.

Lemma keeps_table_bind {A B} (m : M World AppError A) (k : A -> M World AppError B) :
  keeps_table m -> (forall a, keeps_table (k a)) -> keeps_table (m ≫= k).
Proof.
  intros Hm Hk w. unfold mbind, M_bind. specialize (Hm w). destruct (m w) as [[a|e] w1]; simpl in *; [|done].
  by rewrite Hk.
Qed.

Lemma keeps_table_set k v ttl : keeps_table (cache_set to_json k v ttl).
Proof.
  unfold cache_set. destruct (to_json v) as [raw|]; [|by intros w].
  apply keeps_table_bind; [|by intros ? w]. intros w.
  pose proof (cache_call_cases (fun now s => setex now k ttl raw s) w) as K. destruct (cache_call _ w). apply K.
Qed.

Lemma decode_row_shown (r : Row) v : decode_row r = Some v -> shown r = v.
Proof. unfold decode_row. intros (a & _ & [= <-])%bind_Some. done. Qed.

(** A row that was read or written is cached as it is in the table. *)
Lemma spans_publish {A} u (r : Row) (m : View -> M World AppError A) w :
  named (cw_creators w) -> cw_creators w !! u = Some r -> (forall c, inert (m c)) ->
  forall c, decode_row r = Some c ->
  let w' := snd ((cache_set to_json (key u) c TTL_CREATOR;; m c) w) in
  cw_creators w' = cw_creators w /\ entries (shows (cw_creators w)) w w'.
Proof.
  intros Hn Hr Hm c Hc. pose proof (entries_set (shows (cw_creators w)) u c w) as He.
  pose proof (keeps_table_set (key u) c TTL_CREATOR w) as Ht.
  unfold mbind, M_bind. destruct (cache_set _ _ _ _ w) as [[[]|e] w1]; simpl in *.
  - destruct (Hm c w1) as (Ht2 & Hr2 & Hc2). split; [congruence|].
    eapply entries_trans; [|by apply entries_same]. apply He. exists r. split; [done|]. by apply decode_row_shown.
  - split; [done|]. apply He. exists r. split; [done|]. by apply decode_row_shown.
Qed.

Lemma inert_keeps {A} (m : M World AppError A) : inert m -> keeps_table m.
Proof. intros Hm w. apply Hm. Qed.

Lemma keeps_table_get u : keeps_table (get_creator u).
Proof.
  unfold get_creator_by_username. apply keeps_table_bind; [apply inert_keeps; auto with inert|].
  intros [c|]; [by intros w|]. apply keeps_table_bind; [apply inert_keeps; auto with inert|].
  intros [r|]; [|by intros w]. apply keeps_table_bind; [by intros w|].
  intros c. apply keeps_table_bind; [apply keeps_table_set|by intros ? w].
Qed.

Lemma entries_get u w : named (cw_creators w) -> entries (shows (cw_creators w)) w (snd (get_creator u w)).
Proof.
  intros Hn. unfold get_creator_by_username.
  destruct (inert_cache_get (key u) w) as (Ht & Hr & Hc). unfold mbind at 1, M_bind at 1.
  destruct (cache_get of_json (key u) w) as [[[c|]|e] w1]; simpl in *; try by apply entries_same.
  destruct (inert_select (fun t => t !! u) w1) as (Ht2 & Hr2 & Hc2).
  pose proof (creators_sql_cases (fun t => Ok (t !! u, t)) w1) as Q.
  unfold mbind at 1, M_bind at 1.
  destruct (creators_sql _ w1) as [[[r|]|e] w2]; simpl in *; try (apply entries_same; congruence).
  destruct Q as (_ & _ & [= Hrow _]). unfold decoded, expect, lift, mbind at 1, M_bind at 1.
  destruct (decode_row r) as [c|] eqn:Ed; simpl; [|apply entries_same; congruence].
  assert (cw_creators w2 = cw_creators w) as E2 by congruence.
  destruct (spans_publish u r (fun c => mret (Some c)) w2) with (c := c) as [_ He3]; try done.
  - by rewrite E2.
  - rewrite E2. congruence.
  - rewrite E2 in He3. eapply entries_trans; [|exact He3]. apply entries_same; congruence.
Qed.

Lemma spans_get u : spans (get_creator u).
Proof.
  intros w Hn. simpl. rewrite keeps_table_get. split; [done|].
  eapply entries_impl; [|by apply entries_get]. simpl. tauto.
Qed.

Lemma spans_get_or_not_found u :
  spans (get_creator_or_not_found to_json of_json u) /\ keeps_table (get_creator_or_not_found to_json of_json u).
Proof.
  unfold get_creator_or_not_found. split.
  - apply spans_bind; [apply spans_get|apply keeps_table_get|]. intros c. apply inert_spans. auto with inert.
  - apply keeps_table_bind; [apply keeps_table_get|]. intros c. by intros w.
Qed.

(** A write of a row that is then cached. *)
Lemma spans_write {A} (q : gmap string Row -> result (Row * gmap string Row) sqlx_error) (k : View -> M World AppError A) :
  (forall t r t', named t -> q t = Ok (r, t') -> t' !! vw_username (rw_view r) = Some r /\ named t') ->
  (forall c, inert (k c)) ->
  spans (row ← creators_sql q; c ← decoded row; cache_set to_json (key (vw_username c)) c TTL_CREATOR;; k c).
Proof.
  intros Hq Hk w Hn. pose proof (creators_sql_cases q w) as Q.
  destruct (creators_sql q w) as [[r|e] w1] eqn:E.
  - destruct Q as (Hr & Hc & Q). destruct (Hq _ _ _ Hn Q) as [Hrow Hn1].
    rewrite (bind_ok _ _ _ _ _ E). destruct (decode_row r) as [c|] eqn:Ed.
    2:{ rewrite (bind_err (decoded r) _ w1 (app_error_from_sqlx SqlxOther) w1)
          by (unfold decoded, expect, lift; by rewrite Ed). simpl. split; [done|by apply entries_same]. }
    rewrite (bind_ok (decoded r) _ w1 c w1) by (unfold decoded, expect, lift; by rewrite Ed).
    pose proof (decode_row_shown r c Ed) as Hs.
    assert (vw_username c = vw_username (rw_view r)) as Hu by by rewrite <- Hs.
    rewrite Hu. destruct (spans_publish _ r k w1 Hn1 Hrow Hk c Ed) as [Ht2 He2].
    cbv zeta in *. rewrite Ht2. split; [done|]. eapply entries_trans; [by apply entries_same|].
    eapply entries_impl; [|exact He2]. simpl. tauto.
  - rewrite (bind_err _ _ _ _ _ E). simpl. destruct Q as (Hr & Hc & Q). split; [|by apply entries_same].
    destruct Q as [->|[a Q]]; [done|]. by destruct (Hq _ _ _ Hn Q).
Qed.

Lemma spans_ext {A} (m m' : M World AppError A) : (forall w, m w = m' w) -> spans m' -> spans m.
Proof. intros E Hm w Hn. rewrite E. by apply Hm. Qed.

Lemma spans_update {A} u f (k : View -> M World AppError A) :
  (forall r : Row, vw_username (rw_view (f r)) = vw_username (rw_view r)) -> (forall c, inert (k c)) ->
  spans (c ← update_returning u f; cache_set to_json (key (vw_username c)) c TTL_CREATOR;; k c).
Proof.
  intros Hf Hk. eapply spans_ext; [|apply (spans_write (fun t =>
    match t !! u with Some r => Ok (f r, <[u := f r]> t) | None => Err SqlxRowNotFound end) k); [|done]].
  - intros w. unfold update_returning, mbind, M_bind. by destruct (creators_sql _ w) as [[r|e] w1].
  - intros t r t' Hn E. destruct (t !! u) as [r0|] eqn:Er; [|done]. injection E as <- <-.
    rewrite Hf, (Hn u r0 Er), lookup_insert_eq. split; [done|]. intros u' r' Hr'.
    destruct (decide (u' = u)) as [->|]; [rewrite lookup_insert_eq in Hr'; injection Hr' as <-; by rewrite Hf, (Hn u r0 Er)|].
    rewrite lookup_insert_ne in Hr' by done. by apply Hn.
Qed.

Lemma inert_tail e (c : View) : inert (invalidate_listings (J := J) (St := St) invalidator;; audit e;; mret c).
Proof. apply inert_bind; [auto with inert|]. intros _. apply inert_bind; [apply inert_effects|]. intros _. auto with inert. Qed.

Lemma spans_wallet u req : spans (update_wallet u req).
Proof.
  unfold update_creator_wallet_address. destruct (negb _); [apply inert_spans; by intros w|].
  apply spans_bind; [apply spans_get_or_not_found..|]. intros existing.
  apply spans_inert_bind; [auto with inert|]. intros _.
  apply spans_update; [done|]. intros c. apply inert_tail.
Qed.

Lemma spans_profile u req : spans (update_profile u req).
Proof.
  unfold update_creator_profile. destruct (negb _); [apply inert_spans; by intros w|].
  apply spans_bind; [apply spans_get_or_not_found..|]. intros existing.
  apply spans_update; [done|]. intros c. apply inert_tail.
Qed.

Lemma insert_creator_named req id tenant now tenants t r t' :
  named t -> insert_creator links_value req id tenant now tenants t = Ok (r, t') ->
  t' !! vw_username (rw_view r) = Some r /\ named t'.
Proof.
  intros Hn E. unfold insert_creator in E. destruct (cc_social_links req), (cc_categories req), (cc_tags req); try done.
  repeat (destruct (bool_decide _) || destruct (existsb _ _)); try done; simpl in E; injection E as <- <-; simpl;
    (split; [apply lookup_insert_eq|]); intros u' r';
    (destruct (decide (u' = cc_username req)) as [->|]; [rewrite lookup_insert_eq; by intros [= <-]|]);
    rewrite lookup_insert_ne by done; apply Hn.
Qed.

Lemma inert_check_email email : inert (check_email (J := J) (St := St) email).
Proof.
  unfold check_email. destruct email; [|by intros w]. apply inert_bind; [apply inert_select|].
  intros []; by intros w.
Qed.

Lemma spans_create req : spans (create req).
Proof.
  unfold create_creator. destruct (username_violates _); [apply inert_spans; by intros w|].
  apply spans_inert_bind; [apply inert_check_email|]. intros _.
  apply spans_inert_bind; [auto with inert|]. intros id. apply spans_inert_bind; [auto with inert|]. intros tenant.
  apply spans_inert_bind; [auto with inert|]. intros now. apply spans_inert_bind; [auto with inert|]. intros tenants.
  apply spans_write; [by intros t r t'; apply insert_creator_named|]. intros c.
  apply inert_bind; [apply inert_effects|]. intros _. apply inert_bind; [apply inert_lift|]. intros _.
  apply inert_bind; [apply inert_effects|]. intros _. apply inert_bind; [apply inert_effects|]. intros _. auto with inert.
Qed.

Lemma inert_search q limit : inert (search q limit).
Proof.
  unfold search_creators. destruct (String.eqb _ _); [by intros w|].
  apply inert_bind; [apply (inert_select (fun t => take _ (sort_by _ (List.filter _ (map snd (map_to_list t))))))|].
  intros rows. apply inert_lift.
Qed.

Lemma exec_spans o w : named (cw_creators w) -> (forall u r, o = ORegister u r -> vw_username (rw_view r) = u) ->
  let w' := creator_exec w o in
  named (cw_creators w') /\
  (entries (fun u v => shows (cw_creators w) u v \/ shows (cw_creators w') u v) w w' \/
   cw_redis w' = cw_redis w /\ cw_clock w <= cw_clock w').
Proof.
  intros Hn Hreg. destruct o as [req|u|u req|u req|q limit|u f|u r|clock l]; simpl.
  - destruct (spans_create req w Hn). auto.
  - destruct (spans_get u w Hn). auto.
  - destruct (spans_wallet u req w Hn). auto.
  - destruct (spans_profile u req w Hn). auto.
  - destruct (inert_spans _ (inert_search q limit)) as [Hs _]. destruct (Hs w Hn). auto.
  - split; [|right; split; [done|simpl; lia]]. intros u' r'. simpl.
    destruct (decide (u' = u)) as [->|]; [rewrite lookup_alter_eq|rewrite lookup_alter_ne by done; apply Hn].
    destruct (cw_creators w !! u) as [r|] eqn:E; [|done]. intros [= <-]. simpl. by apply (Hn u r).
  - destruct (cw_creators w !! u) eqn:E; [split; [done|right; split; [done|lia]]|].
    split; [|right; split; [done|simpl; lia]]. intros u' r'. simpl.
    destruct (decide (u' = u)) as [->|]; [rewrite lookup_insert_eq; intros [= <-]; by apply Hreg|].
    rewrite lookup_insert_ne by done. apply Hn.
  - split; [done|]. right. split; [done|lia].
Qed.

Section freshness.
Variables (w : World).
Hypothesis json_reads : forall v raw, to_json v = Some raw -> of_json raw = Some v.
Hypothesis starts_named : named (cw_creators w).
Hypothesis starts_uncached : forall u t s, cw_redis w = Some s -> cw_clock w <= t -> r_get t (key u) s = None.

Abbreviation after ops := (fold_left creator_exec ops w).

(** Every cached text is that of a page of the last five minutes. *)
Definition cache_fresh (ops : list creator_op) : Prop :=
  named (cw_creators (after ops)) /\
  forall u t raw s, cw_redis (after ops) = Some s -> cw_clock (after ops) <= t -> r_get t (key u) s = Some raw ->
    exists past v, past `prefix_of` ops /\ shows (cw_creators (after past)) u v /\ to_json v = Some raw /\
      t < cw_clock (after past) + TTL_CREATOR * 1000.

Lemma cache_stays_fresh ops : (forall u r, ORegister u r ∈ ops -> vw_username (rw_view r) = u) -> cache_fresh ops.
Proof.
  induction ops as [|o ops IH] using rev_ind; intros Hreg.
  { split; [done|]. intros u t raw s Hs Ht Hg. by rewrite (starts_uncached u t s Hs Ht) in Hg. }
  destruct IH as [Hn Hf]; [intros u r Hin; apply Hreg, elem_of_app; by left|].
  assert (after (ops ++ [o]) = creator_exec (after ops) o) as E by by rewrite fold_left_app.
  destruct (exec_spans o (after ops) Hn) as [Hn' Hcase].
  { intros u r ->. apply Hreg, elem_of_app. right. by left. }
  unfold cache_fresh. rewrite E. split; [done|]. intros u t raw s Hs Ht Hg.
  destruct Hcase as [[Hc He]|[Hr Hc]].
  - destruct (He u t raw s Hs ltac:(lia) Hg) as [(s0 & Hs0 & Hg0)|(v & Hv & Hshow & Hl)].
    + destruct (Hf u t raw s0 Hs0 ltac:(lia) Hg0) as (past & v & Hp & ?). exists past, v. split; [|done].
      by apply prefix_app_r.
    + destruct Hshow as [Hshow|Hshow].
      * exists ops, v. split; [by apply prefix_app_r|done].
      * exists (ops ++ [o]), v. rewrite E, Hc. done.
  - rewrite Hr in Hs. destruct (Hf u t raw s Hs ltac:(lia) Hg) as (past & v & Hp & ?). exists past, v.
    split; [|done]. by apply prefix_app_r.
Qed.

(** A page that is answered, from the cache or from the database, is the page
    the creator had at some time in the last five minutes, whatever requests,
    changes and faults came before (a request at a time). *)
Theorem creator_page_fresh ops u v w' :
  (forall u r, ORegister u r ∈ ops -> vw_username (rw_view r) = u) ->
  get_creator u (after ops) = (Ok (Some v), w') ->
  exists past, past `prefix_of` ops /\ shows (cw_creators (after past)) u v /\
    cw_clock (after ops) < cw_clock (after past) + TTL_CREATOR * 1000.
Proof.
  intros Hreg Hget. destruct (cache_stays_fresh ops Hreg) as [Hn Hf]. unfold get_creator_by_username in Hget.
  apply bind_answers in Hget as (cached & w1 & Hcache & Hget).
  pose proof (inert_cache_get (key u) (after ops)) as (Ht & _). rewrite Hcache in Ht. simpl in Ht.
  destruct cached as [c|].
  - injection Hget as -> <-. apply bind_answers in Hcache as (raw & w0 & Hraw & Hret). injection Hret as Ec _.
    pose proof (cache_call_cases (fun now s => (r_get now (key u) s, s)) (after ops)) as K. rewrite Hraw in K.
    destruct K as (_ & _ & _ & raw' & [= <-] & K). apply bind_Some in Ec as (x & -> & Hx).
    destruct K as [?|(s & Hs & Hg)]; [done|]. simpl in Hg.
    destruct (Hf u (cw_clock (after ops)) x s Hs ltac:(lia) (eq_sym Hg)) as (past & v0 & Hp & Hshow & Hj & Hl).
    exists past. split; [done|]. rewrite (json_reads v0 x Hj) in Hx. injection Hx as ->. done.
  - apply bind_answers in Hget as (o & w2 & Hsel & Hget).
    pose proof (creators_sql_cases (fun t => Ok (t !! u, t)) w1) as Q. rewrite Hsel in Q.
    destruct Q as (_ & _ & [= Hrow _]). destruct o as [r|]; [|done].
    apply bind_answers in Hget as (c & w3 & Hdec & Hget). apply bind_answers in Hget as (x & w4 & _ & Hget).
    injection Hget as <- _. unfold decoded, expect, lift, ok_or in Hdec.
    destruct (decode_row r) as [c'|] eqn:Ed; [|done]. injection Hdec as -> _.
    exists ops. split; [done|]. split; [|unfold TTL_CREATOR; lia].
    exists r. split; [congruence|]. by apply decode_row_shown.
Qed.
End freshness.

(** ** Without faults *)

Lemma calm_sql {A} (q : gmap string Row -> result (A * gmap string Row) sqlx_error) w : cw_faults w = [] ->
  creators_sql q w = match q (cw_creators w) with
                     | Ok (a, t) => (Ok a, with_creators t w)
                     | Err e => (Err (app_error_from_sqlx e), w)
                     end.
Proof.
  intros Hw. unfold creators_sql, remote, lift. bind_step. simpl. rewrite Hw. simpl.
  replace (with_weather (cw_clock w) [] w) with w by (destruct w; simpl in *; by subst).
  by destruct (q (cw_creators w)) as [[a t]|e].
Qed.

Lemma calm_cache {A} (q : Z -> St -> option A * St) w : cw_faults w = [] ->
  exists a w', cache_call q w = (Ok a, w') /\ cw_faults w' = [] /\ cw_creators w' = cw_creators w.
Proof.
  intros Hw. unfold cache_call. destruct (cw_redis w) as [s|] eqn:Hs; [|by eauto].
  unfold remote. simpl. rewrite Hw. simpl. rewrite Hs. destruct (q (cw_clock w) s) as [a s']. simpl. by eauto.
Qed.

Lemma calm_cache_set k v ttl w : cw_faults w = [] ->
  exists w', cache_set to_json k v ttl w = (Ok tt, w') /\ cw_faults w' = [] /\ cw_creators w' = cw_creators w.
Proof.
  intros Hw. unfold cache_set. destruct (to_json v) as [raw|]; [|by eauto].
  destruct (calm_cache (fun now s => setex now k ttl raw s) w Hw) as (a & w' & E & ?).
  exists w'. by rewrite (bind_ok _ _ _ _ _ E).
Qed.

Lemma calm_get u r v w : cw_faults w = [] -> cw_creators w !! u = Some r -> decode_row r = Some v ->
  exists c w', get_creator u w = (Ok (Some c), w') /\ cw_faults w' = [] /\ cw_creators w' = cw_creators w.
Proof.
  intros Hw Hr Hv. unfold get_creator_by_username, cache_get.
  destruct (calm_cache (fun now s => (r_get now (key u) s, s)) w Hw) as (raw & w1 & E & Hw1 & Ht1).
  assert ((raw0 ← cache_call (fun now s => (r_get now (key u) s, s)); mret (raw0 ≫= of_json)) w = (Ok (raw ≫= of_json), w1)) as E'.
  { by rewrite (bind_ok _ _ _ _ _ E). }
  rewrite (bind_ok _ _ _ _ _ E'). destruct (raw ≫= of_json) as [c|]; [by eauto|].
  assert (creators_sql (fun t => Ok (t !! u, t)) w1 = (Ok (Some r), w1)) as E2.
  { rewrite calm_sql by done. replace (cw_creators w1 !! u) with (Some r) by congruence. by destruct w1. }
  rewrite (bind_ok _ _ _ _ _ E2).
  assert (decoded r w1 = (Ok v, w1)) as E3 by (unfold decoded, expect, lift; by rewrite Hv).
  rewrite (bind_ok _ _ _ _ _ E3).
  destruct (calm_cache_set (key u) v TTL_CREATOR w1 Hw1) as (w2 & E4 & Hw2 & Ht2).
  rewrite (bind_ok _ _ _ _ _ E4). exists v, w2. split_and!; [done|done|congruence].
Qed.

(** Nothing but a signature by the new key is asked for: whoever holds any key
    pair sends the tips of any creator to it, and one signature does for all
    creators, for ever. *)
Theorem wallet_redirected a sig u r v w :
  valid_wallet {| uw_new_wallet_address := a; uw_signature := sig |} = true ->
  verify a sig a = Ok tt ->
  cw_faults w = [] -> cw_creators w !! u = Some r -> decode_row r = Some v ->
  let '(res, w') := update_wallet u {| uw_new_wallet_address := a; uw_signature := sig |} w in
  is_ok res = true /\ wallet <$> cw_creators w' !! u = Some a.
Proof.
  intros Hvalid Hver Hw Hr Hv. unfold update_creator_wallet_address. rewrite Hvalid. cbn [negb uw_new_wallet_address uw_signature].
  destruct (calm_get u r v w Hw Hr Hv) as (c & w1 & E1 & Hw1 & Ht1).
  assert (get_creator_or_not_found to_json of_json u w = (Ok c, w1)) as E1' by (unfold get_creator_or_not_found; by rewrite (bind_ok _ _ _ _ _ E1)).
  rewrite (bind_ok _ _ _ _ _ E1'). rewrite (bind_ok (lift _) _ w1 tt w1) by (unfold lift; by rewrite Hver).
  set (r' := set_wallet a r).
  assert (exists v', decode_row r' = Some v') as [v' Hv'].
  { unfold decode_row in *. apply bind_Some in Hv as (x & Hx & _). exists (shown r'). unfold r', set_wallet. simpl. by rewrite Hx. }
  assert (update_returning u (set_wallet a) w1 = (Ok v', with_creators (<[u := r']> (cw_creators w1)) w1)) as E2.
  { unfold update_returning.
    rewrite (bind_ok _ _ w1 r' (with_creators (<[u := r']> (cw_creators w1)) w1)).
    - unfold decoded, expect, lift. by rewrite Hv'.
    - rewrite calm_sql by done. by rewrite Ht1, Hr. }
  rewrite (bind_ok _ _ _ _ _ E2).
  destruct (calm_cache_set (key (vw_username v')) v' TTL_CREATOR (with_creators (<[u := r']> (cw_creators w1)) w1) Hw1)
    as (w2 & E3 & Hw2 & Ht2).
  rewrite (bind_ok _ _ _ _ _ E3). simpl. split; [done|].
  rewrite Ht2. simpl. by rewrite lookup_insert_eq.
Qed.

(** A page without links, categories or tags cannot be created, and one with them
    gets a tenant that does not exist. *)
Theorem no_creator_is_created req w :
  (forall n, uuid n ∉ cw_tenants w) ->
  let '(res, w') := create req w in is_ok res = false /\ cw_creators w' = cw_creators w.
Proof.
  intros Huuid. unfold create_creator. destruct (username_violates _); [done|].
  pose proof (inert_check_email (cc_email req) w) as (Ht & _).
  assert (cw_tenants (snd (check_email (J := J) (St := St) (cc_email req) w)) = cw_tenants w) as Htn.
  { unfold check_email. destruct (cc_email req); [|done]. unfold creators_sql, remote, mbind, M_bind, lift. simpl.
    destruct (pop_fault (cw_faults w)) as [[] l]; simpl; try done. by destruct (existsb _ _). }
  destruct (check_email (cc_email req) w) as [[[]|e] w1] eqn:E1; simpl in *.
  2:{ rewrite (bind_err _ _ _ _ _ E1). done. }
  rewrite (bind_ok _ _ _ _ _ E1).
  set (q := insert_creator links_value req (uuid (cw_uuids w1)) (uuid (S (cw_uuids w1))) (cw_clock w1) (cw_tenants w1)).
  assert (forall t x, q t <> Ok x) as Hq.
  { intros t x. unfold q, insert_creator. destruct (cc_social_links req), (cc_categories req), (cc_tags req); try done.
    rewrite (bool_decide_eq_false_2 (_ ∈ cw_tenants w1)) by (rewrite Htn; apply Huuid). simpl.
    by repeat (destruct (bool_decide _) || destruct (existsb _ _)). }
  unfold fresh_uuid, gets, mbind at 1 2 3 4, M_bind at 1 2 3 4. cbn [cw_uuids cw_clock cw_tenants].
  match goal with |- context [(creators_sql _ ≫= _) ?v] =>
    pose proof (creators_sql_cases q v) as K; change (cw_creators v) with (cw_creators w1) in K;
    destruct (creators_sql q v) as [[row|e] w2] eqn:E2 end.
  - destruct K as (_ & _ & K). by apply Hq in K.
  - rewrite (bind_err _ _ _ _ _ E2). destruct K as (_ & _ & [K|[x K]]); [|by apply Hq in K].
    simpl. split; [done|congruence].
Qed.
End facts.

(** ** Two creators *)

#[export] Instance CreatorView_eq_dec {J} `{EqDecision J} : EqDecision (CreatorView (J := J)).
Proof. solve_decision. Defined.

Definition a_wallet (c : ascii) : string := String "G" (string_of_list_ascii (repeat c 55)).

Definition a_row (u : string) (c : ascii) : CreatorRow (J := unit) :=
  {| rw_view := {| vw_id := "id of " +:+ u; vw_username := u; vw_wallet_address := a_wallet c; vw_email := None;
                   vw_totp_enabled := false; vw_created_at := 0; vw_bio := None; vw_display_name := None;
                   vw_avatar_url := None; vw_is_verified := false; vw_social_links := tt; vw_categories := []; vw_tags := [] |};
     rw_account := {| cr_password_hash := FORMAT_PREFIX +:+ ":current:nonce 12byte:hash"; cr_totp_secret := None;
                      cr_totp_enabled := false; cr_backup_code_hashes := [] |} |}.

Definition two_creators : CreatorWorld (J := unit) (St := redis_map string) :=
  {| cw_creators := {["ann" := a_row "ann" "A"; "bob" := a_row "bob" "B"]}; cw_tenants := ["t"]; cw_redis := Some ∅;
     cw_clock := 0; cw_faults := []; cw_uuids := 0; cw_invalidated := []; cw_hooks := []; cw_audit := [] |}.

(** JSON of two pages, that of ann before and after her wallet is changed. *)
Definition old_page : CreatorView := Eval vm_compute in shown (a_row "ann" "A").
Definition new_page : CreatorView := Eval vm_compute in shown (set_wallet (a_wallet "M") (a_row "ann" "A")).
Definition page_json (v : CreatorView (J := unit)) : option string :=
  if decide (v = old_page) then Some "old" else if decide (v = new_page) then Some "new" else None.
Definition json_page (s : string) : option (CreatorView (J := unit)) :=
  if String.eqb s "old" then Some old_page else if String.eqb s "new" then Some new_page else None.

(** Every address is of one key, which signs with [1]. *)
Definition one_key : string -> option (list Z) := fun _ => Some (strkey_bytes (repeat 7 32)).
Definition one_signature : string -> option (list Z) := fun s => if String.eqb s "AQ==" then Some [1] else None.
Definition any_bytes : list Z -> bool := fun _ => true.
Definition signs : list Z -> string -> list Z -> bool := fun _ _ s => bool_decide (s = [1]).

Abbreviation demo_exec := (creator_exec page_json json_page (fun _ => false) (fun _ => tt) (fun n => print_Z (Z.of_nat n)) true
  "invalid" one_key one_signature any_bytes any_bytes signs (fun _ _ => true) (fun _ _ => 0)).

Definition mallory : UpdateCreatorWalletRequest :=
  {| uw_new_wallet_address := a_wallet "M"; uw_signature := "AQ==" |}.

Definition demo_ops : list (creator_op (J := unit)) :=
  [OGet "ann"; OWeather 1000 [Refused]; OWallet "bob" mallory; OWallet "ann" mallory; OWeather 9000 []].

Definition demo_row : CreatorRow := Eval vm_compute in set_wallet (a_wallet "M") (a_row "ann" "A").

Lemma wallet_proved_witness :
  wallet_origin one_key one_signature signs two_creators demo_ops "ann" (wallet demo_row).
Proof.
  apply (wallet_proved page_json json_page (fun _ => false) (fun _ => tt) (fun n => print_Z (Z.of_nat n)) true
           "invalid" one_key one_signature any_bytes any_bytes signs (fun _ _ => true) (fun _ _ => 0) demo_ops two_creators "ann" demo_row).
  vm_compute. reflexivity.
Defined.

(** The signature that moved the wallet of ann moves that of bob too. *)
Lemma wallet_redirected_witness :
  let '(res, w') := update_creator_wallet_address page_json json_page true "invalid" one_key one_signature any_bytes any_bytes
                      signs "bob" mallory two_creators in
  is_ok res = true /\ wallet <$> cw_creators w' !! "bob" = Some (a_wallet "M").
Proof.
  apply (wallet_redirected page_json json_page true "invalid" one_key one_signature any_bytes any_bytes signs
           (a_wallet "M") "AQ==" "bob" (a_row "bob" "B") (shown (a_row "bob" "B")) two_creators); vm_compute; reflexivity.
Defined.

(** A page a minute old is answered from the cache, with the wallet of before. *)
Lemma creator_page_fresh_witness :
  exists past, past `prefix_of` demo_ops /\
    shows (cw_creators (fold_left demo_exec past two_creators)) "ann" new_page /\
    cw_clock (fold_left demo_exec demo_ops two_creators) < cw_clock (fold_left demo_exec past two_creators) + TTL_CREATOR * 1000.
Proof.
  apply (creator_page_fresh page_json json_page (fun _ => false) (fun _ => tt) (fun n => print_Z (Z.of_nat n)) true
           "invalid" one_key one_signature any_bytes any_bytes signs (fun _ _ => true) (fun _ _ => 0) two_creators)
    with (w' := snd (get_creator_by_username page_json json_page "ann" (fold_left demo_exec demo_ops two_creators))).
  - intros v raw. unfold page_json. repeat destruct (decide _); intros [= <-]; subst; vm_compute; reflexivity.
  - intros u r. unfold two_creators. simpl. intros [[<- <-]|[_ [<- <-]%lookup_singleton_Some]]%lookup_insert_Some; reflexivity.
  - intros u t s [= <-] _. reflexivity.
  - intros u r Hin. unfold demo_ops in Hin. repeat (apply elem_of_cons in Hin as [E|Hin]; [discriminate E|]).
    by apply elem_of_nil in Hin.
  - vm_compute. reflexivity.
Defined.

(** A reader that read the row before a change and caches it after: for five
    minutes the page shows the wallet of before, to which tips are sent. *)
Example stale_wallet_cached :
  let w1 := snd (update_creator_wallet_address page_json json_page true "invalid" one_key one_signature any_bytes any_bytes
                   signs "ann" mallory two_creators) in
  let w2 := snd (cache_set page_json (creator_cache_key "ann") old_page TTL_CREATOR w1) in
  let w3 := with_weather 299999 [] w2 in
  wallet <$> cw_creators w3 !! "ann" = Some (a_wallet "M") /\
  fst (get_creator_by_username page_json json_page "ann" w3) = Ok (Some old_page).
Proof. vm_compute. split; reflexivity. Qed.

(** An account whose password was changed no longer decodes: its page is answered
    while it is cached, a change of its wallet is stored and answered 500. *)
Example undecodable_wallet_changes :
  let spoil c := {| cr_password_hash := "$2b$plain"; cr_totp_secret := cr_totp_secret c; cr_totp_enabled := cr_totp_enabled c;
                    cr_backup_code_hashes := cr_backup_code_hashes c |} in
  let w := fold_left demo_exec [OGet "ann"; OAccount "ann" spoil] two_creators in
  let '(r, w') := update_creator_wallet_address page_json json_page true "invalid" one_key one_signature any_bytes any_bytes
                    signs "ann" mallory w in
  fst (get_creator_by_username page_json json_page "ann" w) = Ok (Some old_page) /\
  r = Err (app_error_from_sqlx SqlxOther) /\ wallet <$> cw_creators w' !! "ann" = Some (a_wallet "M").
Proof. vm_compute. repeat split. Qed.
