(* ===== verification/Buses.v ===== *)
(** * The command bus and the query bus

    src/src/cqrs/command_bus.rs with its commands and handlers, and
    src/src/cqrs/query_bus.rs: what composes the creators (file Creators), the
    tips (TipPipeline, Pages) and the log of events with its read model (Events).

    The handlers of the commands are written against the interface
    [CommandServices] of the operations they call, with the laws [ServiceLaws]
    that the theorems need; [bus_services] is the instance over the three
    worlds, which discharges them. *)

From S2P Require Import Prelude Text Codec Redis Errors Amount Auth Crypto Accounts Sql StellarService TipPipeline Pages Events Creators.

(** ** cqrs/commands.rs *)

(** src/src/cqrs/commands.rs:5-18 Command *)
Inductive Command : Type :=
| RegisterCreator (username wallet_address : string) (email : option string)
| RecordTip (creator_username amount transaction_hash tipper_source_account : string) (memo : option string).

(** src/src/cqrs/commands.rs:21-25 CommandResult, the constructors CreatorRegistered and TipRecorded *)
Inductive CommandResult : Type :=
| WasRegistered (id : string)
| WasRecorded (id : string).

(** ** What the handlers call *)

(** The operations of controllers/ and events/ on a world, the clock, the rows
    of tips and the log of events. *)
Class CommandServices (L W : Type) : Type := {
  sv_create_creator : CreateCreatorRequest -> M W AppError (CreatorView (J := L));
  sv_get_creator_by_username : string -> M W AppError (option (CreatorView (J := L)));
  sv_record_tip : RecordTipRequest -> M W AppError Tip;
  sv_append : Event -> M W sqlx_error Z;
  sv_sync_with_retry : nat -> M W AppError ProjectionSyncReport;
  sv_now : W -> Z;
  sv_tips : W -> list Tip;
  sv_logged : list Event -> W -> Prop
}.

(** What of a row its event repeats, and no operation changes. *)
Definition identity (t : Tip) : string * string * string := (tip_id t, tip_amount t, tip_hash t).

(** What of two worlds is the same for the log and the tips. *)
Definition untouched {L W} `{CommandServices L W} (w w' : W) : Prop :=
  sv_tips w' = sv_tips w /\ forall l, sv_logged l w -> sv_logged l w'.

(** An append adds its event or nothing, and adds it when it answers; a tip is
    recorded as a new row, and there when it is answered; nothing else reaches
    the tips or the log. *)
Class ServiceLaws (L W : Type) `{CommandServices L W} : Prop := {
  create_untouched : forall req w, untouched w (snd (sv_create_creator req w));
  get_untouched : forall u w, untouched w (snd (sv_get_creator_by_username u w));
  sync_untouched : forall n w, untouched w (snd (sv_sync_with_retry n w));
  append_tips : forall e w, sv_tips (snd (sv_append e w)) = sv_tips w;
  append_log : forall e l w, sv_logged l w ->
    let '(r, w') := sv_append e w in (sv_logged l w' /\ is_ok r = false) \/ sv_logged (l ++ [e]) w';
  record_log : forall req l w, sv_logged l w -> sv_logged l (snd (sv_record_tip req w));
  record_tips : forall req w, let '(r, w') := sv_record_tip req w in
    (sv_tips w' = sv_tips w /\ is_ok r = false) \/
    exists t, sv_tips w' = sv_tips w ++ [t] /\ tip_id t ∉ tip_id <$> sv_tips w /\ forall t', r = Ok t' -> t' = t
}.

(** ** cqrs/handlers.rs and cqrs/command_bus.rs *)

Section command_bus.
Context {L W : Type} `{CommandServices L W}.

(** src/src/cqrs/handlers.rs:15-19 CommandHandler *)
Record CommandHandler : Type := {
  handles : Command -> bool;
  handle : Command -> M W AppError (option CommandResult)
}.

(** src/src/cqrs/handlers.rs:32-70 RegisterCreatorHandler *)
Definition RegisterCreatorHandler : CommandHandler := {|
  handles cmd := match cmd with RegisterCreator _ _ _ => true | _ => false end;
  handle cmd :=
    match cmd with
    | RegisterCreator username wallet_address email =>
        creator ← sv_create_creator
          {| cc_username := username; cc_wallet_address := wallet_address; cc_email := email; cc_bio := None;
             cc_display_name := None; cc_avatar_url := None; cc_social_links := None; cc_categories := None;
             cc_tags := None |};
        now ← gets sv_now;
        _ ← attempt (sv_append (CreatorRegistered EVENT_VERSION (vw_id creator) (vw_username creator)
                                  (vw_wallet_address creator) now));
        mret (Some (WasRegistered (vw_id creator)))
    | _ => mret None
    end
|}.

(** The event of a recorded tip, when the page of its creator is found.
    src/src/cqrs/handlers.rs:116-128 RecordTipHandler::handle, the announcement *)
Definition announce (tip : Tip) : M W AppError unit :=
  found ← attempt (sv_get_creator_by_username (tip_creator tip));
  match found with
  | Ok (Some creator) =>
      now ← gets sv_now;
      _ ← attempt (sv_append (TipReceived EVENT_VERSION (tip_id tip) (vw_id creator) (tip_amount tip) (tip_hash tip) now));
      mret tt
  | _ => mret tt
  end.

(** src/src/cqrs/handlers.rs:83-132 RecordTipHandler *)
Definition RecordTipHandler : CommandHandler := {|
  handles cmd := match cmd with RecordTip _ _ _ _ _ => true | _ => false end;
  handle cmd :=
    match cmd with
    | RecordTip creator_username amount transaction_hash tipper_source_account memo =>
        tip ← sv_record_tip
          {| rq_username := creator_username; rq_amount := amount; rq_tipper_wallet := None;
             rq_transaction_hash := transaction_hash; rq_message := None; rq_memo := memo;
             rq_message_visibility := "public"; rq_tipper_source_account := tipper_source_account |};
        announce tip;;
        mret (Some (WasRecorded (tip_id tip)))
    | _ => mret None
    end
|}.

(** src/src/cqrs/command_bus.rs:11-14 CommandBus *)
Record CommandBus : Type := {
  bus_handlers : list CommandHandler;
  bus_synchronizer : bool
}.

(** src/src/cqrs/command_bus.rs:17-32 CommandBus::new *)
Definition bus_new : CommandBus :=
  {| bus_handlers := [RegisterCreatorHandler; RecordTipHandler]; bus_synchronizer := false |}.

(** src/src/cqrs/command_bus.rs:34-37 CommandBus::with_synchronizer *)
Definition with_synchronizer (b : CommandBus) : CommandBus :=
  {| bus_handlers := bus_handlers b; bus_synchronizer := true |}.

Definition no_handler : AppError := internal_with_message "No command handler registered".

(** src/src/cqrs/command_bus.rs:39-55 CommandBus::execute *)
Definition execute (b : CommandBus) (cmd : Command) : M W AppError CommandResult :=
  match List.find (fun handler => handles handler cmd) (bus_handlers b) with
  | Some handler =>
      handled ← handle handler cmd;
      match handled with
      | Some result =>
          (if bus_synchronizer b
           then _ ← attempt (E' := AppError) (sv_sync_with_retry 3); mret tt
           else mret tt);;
          mret result
      | None => throw no_handler
      end
  | None => throw no_handler
  end.
End command_bus.

(** ** The process: three worlds *)

Section process.
Context {L J St V : Type} `{RedisLaws string St} {platform : Platform} {verifier : TipVerifier V}.

(** The creators with their cache, the tips with their verification, and the
    log of events with the read model. *)
Record BusWorld : Type := {
  bw_creators : CreatorWorld (J := L) (St := St);
  bw_pipeline : World (V := V);
  bw_events : EventWorld J
}.

Definition put_creators (c : CreatorWorld) (w : BusWorld) : BusWorld :=
  {| bw_creators := c; bw_pipeline := bw_pipeline w; bw_events := bw_events w |}.
Definition put_pipeline (p : World) (w : BusWorld) : BusWorld :=
  {| bw_creators := bw_creators w; bw_pipeline := p; bw_events := bw_events w |}.
Definition put_events (e : EventWorld J) (w : BusWorld) : BusWorld :=
  {| bw_creators := bw_creators w; bw_pipeline := bw_pipeline w; bw_events := e |}.

(** The tips are recorded for the creators of the table. *)
Definition get_pipeline (w : BusWorld) : World :=
  let p := bw_pipeline w in
  with_env ((fun r => vw_wallet_address (rw_view r)) <$> cw_creators (bw_creators w)) (w_now p) (w_uuids p) (w_faults p) p.

(** The listing reads the rows of the tips. *)
Definition get_pages (w : BusWorld) : PageWorld :=
  {| pg_tips := w_tips (bw_pipeline w); pg_faults := w_faults (bw_pipeline w) |}.
Definition put_pages (p : PageWorld) (w : BusWorld) : BusWorld :=
  let t := bw_pipeline w in put_pipeline (with_env (w_creators t) (w_now t) (w_uuids t) (pg_faults p) t) w.

Variable to_json : CreatorView (J := L) -> option string.
Variable of_json : string -> option (CreatorView (J := L)).
Variable username_violates : string -> bool.
Variable links_value : list SocialLink -> L.
Variable creator_uuid : nat -> string.
Variable invalidator : bool.
Variable tip_uuid : nat -> string.
Variable from_row : list string -> bool.
Variable moderation_rejects : string -> bool.
Variable event_to_json : Event -> J.
Variable event_from_json : J -> option Event.
Variable projection_to_json : CreatorProjection -> J.
Variable projection_from_json : J -> option CreatorProjection.

Definition get_creator (username : string) : M BusWorld AppError (option (CreatorView (J := L))) :=
  zoom bw_creators put_creators (get_creator_by_username to_json of_json username).

(** The operations on the process. *)
Definition bus_services : CommandServices L BusWorld := {|
  sv_create_creator req := zoom bw_creators put_creators (create_creator to_json username_violates links_value creator_uuid invalidator req);
  sv_get_creator_by_username := get_creator;
  sv_record_tip req := zoom get_pipeline put_pipeline (record_tip tip_uuid from_row moderation_rejects req);
  sv_append e := zoom bw_events put_events (append event_to_json event_from_json projection_to_json e);
  sv_sync_with_retry n := zoom bw_events put_events (sync_with_retry event_from_json n);
  sv_now w := cw_clock (bw_creators w);
  sv_tips w := w_tips (bw_pipeline w);
  sv_logged l w := exists log, well_kept event_to_json projection_from_json log (bw_events w) /\ map snd log = l
|}.
#[local] Existing Instance bus_services.

(** ** cqrs/queries.rs and cqrs/query_bus.rs *)

(** src/src/cqrs/queries.rs:9-23 Query *)
Inductive Query : Type :=
| GetCreator (username : string)
| ListTipsForCreator (username : string) (params : PaginationParams)
| GetCreatorTipCount (creator_id : string)
| GetCreatorSummary (username : string).

(** src/src/cqrs/queries.rs:26-32 QueryResult *)
Inductive QueryResult : Type :=
| ACreator (creator : option (CreatorView (J := L)))
| Tips (page : PaginatedResponse Tip)
| TipCount (count : Z)
| CreatorSummary (summary : option CreatorSummaryView).

(** The parameters of the listing (file Pages). *)
Variable hmac_hex : string -> string -> string.
Variable b64_encode : string -> string.
Variable b64_decode : string -> option string.
Variable parse_uuid : string -> option string.
Variable timestamp_micros : Z -> option Z.
Variable secret : string.
Context {Num : Type}.
Variable numeric : string -> option Num.
Variable num_le : Num -> Num -> bool.
Variable env : environment.

(** src/src/cqrs/query_bus.rs:13-16 QueryBus: whether it has a projection *)
Record QueryBus : Type := { qb_projection : bool }.

(** src/src/cqrs/query_bus.rs:19-24 QueryBus::new *)
Definition query_bus_new : QueryBus := {| qb_projection := false |}.

(** src/src/cqrs/query_bus.rs:26-31 QueryBus::with_projection *)
Definition with_projection : QueryBus := {| qb_projection := true |}.

(** src/src/models/tip.rs:198-198 TipFilters::default *)
Definition default_filters : TipFilters :=
  {| tf_min_amount := None; tf_max_amount := None; tf_from_date := None; tf_to_date := None |}.

(** The tips whose creator has an id: tips JOIN creators.
    src/src/cqrs/query_bus.rs:54-61 the statement that counts the tips *)
Definition count_tips_of (creator_id : string) (w : BusWorld) : Z :=
  Z.of_nat (length (List.filter (fun t =>
    match cw_creators (bw_creators w) !! tip_creator t with
    | Some r => String.eqb (vw_id (rw_view r)) creator_id
    | None => false
    end) (w_tips (bw_pipeline w)))).

(** src/src/cqrs/query_bus.rs:33-75 QueryBus::execute *)
Definition execute_query (b : QueryBus) (query : Query) : M BusWorld page_error QueryResult :=
  match query with
  | GetCreator username =>
      creator ← map_err Answered (get_creator username);
      mret (ACreator creator)
  | ListTipsForCreator username params =>
      page ← zoom get_pages put_pages
        (get_tips_paginated hmac_hex b64_encode b64_decode parse_uuid timestamp_micros secret numeric num_le from_row env
           (Some username) params default_filters tip_sort_default);
      mret (Tips page)
  | GetCreatorTipCount creator_id =>
      counted ← gets (count_tips_of creator_id);
      count ← zoom bw_pipeline put_pipeline (map_err Answered (TipPipeline.query (fun p => (counted, p))));
      mret (TipCount count)
  | GetCreatorSummary username =>
      if qb_projection b then
        summary ← map_err Answered (zoom bw_events put_events (get_creator_summary_by_username username));
        mret (CreatorSummary summary)
      else mret (CreatorSummary None)
  end.
End process.

(** * Lemmas *)

(** ** Commands, against the interface *)

Section commands.
Context {L W : Type} `{ServiceLaws L W}.
Implicit Types (w : W) (l : list Event).

(** The tips an event log tells of. *)
Definition told (e : Event) : option (string * string * string) :=
  match e with
  | TipReceived _ i _ amount hash _ => Some (i, amount, hash)
  | CreatorRegistered _ _ _ _ _ => None
  end.

(** Each tip of the log is a row of the table, and told once. *)
Definition sound_log (l : list Event) (w : W) : Prop :=
  sv_logged l w /\ omap told l ⊆ identity <$> sv_tips w /\ NoDup ((fun i => i.1.1) <$> omap told l).

(** The event by which a handler announces what it answers. *)
Definition announces (res : CommandResult) (w : W) (e : Event) : Prop :=
  match res, e with
  | WasRegistered i, CreatorRegistered _ j _ _ _ => i = j
  | WasRecorded i, TipReceived _ j _ amount hash _ => i = j /\ (i, amount, hash) ∈ identity <$> sv_tips w
  | _, _ => False
  end.

Lemma untouched_refl w : untouched w w.
Proof. by split. Qed.

Lemma untouched_trans w1 w2 w3 : untouched w1 w2 -> untouched w2 w3 -> untouched w1 w3.
Proof. intros [T1 L1] [T2 L2]. split; [congruence|auto]. Qed.

Lemma untouched_sound l w w' : untouched w w' -> sound_log l w -> sound_log l w'.
Proof. intros [Ht Hl] (Hlog & Hin & Hnd). unfold sound_log. rewrite Ht. auto. Qed.

(** An ignored append. *)
Lemma append_ignored e l w : sv_logged l w ->
  let w' := snd (attempt (E' := AppError) (sv_append e) w) in
  sv_tips w' = sv_tips w /\ (sv_logged l w' \/ sv_logged (l ++ [e]) w').
Proof.
  intros Hl. unfold attempt. pose proof (append_tips e w) as Ht. pose proof (append_log e l w Hl) as Ha.
  destruct (sv_append e w) as [r w']. simpl in *. tauto.
Qed.

(** What a handler does to the log: nothing, or its one event. *)
Definition logs_once (res : CommandResult) (l : list Event) (w' : W) : Prop :=
  sv_logged l w' \/ exists e, announces res w' e /\ sv_logged (l ++ [e]) w'.

Lemma attempt_run {E E' A} (m : M W E A) w : attempt (E' := E') m w = (Ok (fst (m w)), snd (m w)).
Proof. unfold attempt. by destruct (m w). Qed.

Lemma announce_run tip l w : sv_logged l w -> identity tip ∈ identity <$> sv_tips w ->
  exists w', announce tip w = (Ok tt, w') /\ sv_tips w' = sv_tips w /\ logs_once (WasRecorded (tip_id tip)) l w'.
Proof.
  intros Hl Hin. unfold announce. destruct (get_untouched (tip_creator tip) w) as [Ht Hg].
  rewrite (bind_ok _ _ _ _ _ (attempt_run _ w)).
  set (w1 := snd (sv_get_creator_by_username (tip_creator tip) w)) in *. specialize (Hg l Hl).
  assert (exists w', (mret tt : M W AppError unit) w1 = (Ok tt, w') /\ sv_tips w' = sv_tips w /\ logs_once (WasRecorded (tip_id tip)) l w') as Hnone
    by (exists w1; split_and!; [done|done|by left]).
  destruct (fst (sv_get_creator_by_username (tip_creator tip) w)) as [[c|]|e]; try exact Hnone.
  rewrite (bind_ok _ _ w1 (sv_now w1) w1) by done. set (e := TipReceived _ _ _ _ _ _).
  rewrite (bind_ok _ _ _ _ _ (attempt_run _ w1)). eexists; split; [reflexivity|].
  pose proof (append_ignored e l w1 Hg) as [Ht2 Hc]. rewrite attempt_run in Ht2, Hc. simpl in Ht2, Hc.
  split; [congruence|]. destruct Hc as [Hc|Hc]; [by left|]. right. exists e. split; [|exact Hc].
  split; [done|]. by rewrite Ht2, Ht.
Qed.

Definition tips_grow w w' : Prop :=
  sv_tips w' = sv_tips w \/ exists t, sv_tips w' = sv_tips w ++ [t] /\ tip_id t ∉ tip_id <$> sv_tips w.

(** What a command does: it logs nothing when it fails, and nothing or its event
    when it answers; the event of a tip is of a row that was not there. *)
Definition command_effect (r : result CommandResult AppError) l w w' : Prop :=
  tips_grow w w' /\
  match r with
  | Err _ => sv_logged l w'
  | Ok res =>
      logs_once res l w' /\
      match res with WasRecorded i => i ∉ tip_id <$> sv_tips w /\ i ∈ tip_id <$> sv_tips w' | WasRegistered _ => True end
  end.

(** The synchronization after a command. *)
Lemma after_sync (sync : bool) (res : CommandResult) l w w1 :
  command_effect (Ok res) l w w1 ->
  exists w2, ((if sync then _ ← attempt (E' := AppError) (sv_sync_with_retry 3); mret tt else mret tt) : M W AppError unit) w1 = (Ok tt, w2) /\
    command_effect (Ok res) l w w2.
Proof.
  intros Heff. destruct sync; [|by exists w1]. destruct (sync_untouched 3 w1) as [Ht Hl].
  rewrite (bind_ok _ _ _ _ _ (attempt_run _ w1)). eexists; split; [reflexivity|].
  set (w2 := snd (sv_sync_with_retry 3 w1)) in *. destruct Heff as (Hg & Hlog & Hrow).
  split; [unfold tips_grow; by rewrite Ht|]. split.
  - destruct Hlog as [Hlog|(e & He & Hlog)]; [left; auto|right]. exists e. split; [|auto].
    destruct res, e; simpl in *; by rewrite ?Ht.
  - destruct res; [done|]. by rewrite Ht.
Qed.

Lemma register_effect u a m l w : sv_logged l w ->
  let '(r, w') := handle RegisterCreatorHandler (RegisterCreator u a m) w in
  match r with
  | Ok (Some res) => command_effect (Ok res) l w w'
  | Ok None => False
  | Err e => command_effect (Err e) l w w'
  end.
Proof.
  intros Hl. simpl. unfold mbind at 1, M_bind at 1. set (req := {| cc_username := u |}).
  destruct (create_untouched req w) as [Ht Hg]. destruct (sv_create_creator req w) as [[c|e] w1] eqn:E; simpl in *.
  2:{ split; [by left|auto]. }
  unfold mbind at 1, M_bind at 1. simpl. set (e := CreatorRegistered _ _ _ _ _).
  rewrite (bind_ok _ _ _ _ _ (attempt_run _ w1)). simpl.
  pose proof (append_ignored e l w1 (Hg l Hl)) as [Ht2 Hc]. rewrite attempt_run in Ht2, Hc. simpl in Ht2, Hc.
  split; [left; congruence|]. split; [|done]. destruct Hc as [Hc|Hc]; [by left|]. right. by exists e.
Qed.

Lemma record_effect u a h s m l w : sv_logged l w ->
  let '(r, w') := handle RecordTipHandler (RecordTip u a h s m) w in
  match r with
  | Ok (Some res) => command_effect (Ok res) l w w'
  | Ok None => False
  | Err e => command_effect (Err e) l w w'
  end.
Proof.
  intros Hl. simpl. unfold mbind at 1, M_bind at 1. set (req := {| rq_username := u |}).
  pose proof (record_tips req w) as Ht. pose proof (record_log req l w Hl) as Hg.
  destruct (sv_record_tip req w) as [[t|e] w1] eqn:E; simpl in *.
  2:{ split; [|done]. destruct Ht as [[Ht _]|(t & Ht & Hf & _)]; [by left|right; by exists t]. }
  destruct Ht as [[_ Ht]|(t' & Ht & Hf & Heq)]; [done|]. rewrite <- (Heq t eq_refl) in *. clear t' Heq.
  destruct (announce_run t l w1 Hg) as (w2 & Ha & Ht2 & Hlog); [rewrite Ht, fmap_app; set_solver|].
  rewrite (bind_ok _ _ _ _ _ Ha). simpl. split; [right; exists t; split; [congruence|done]|].
  split; [done|]. rewrite Ht2, Ht, fmap_app. set_solver.
Qed.

(** Rows that are added only add to what the log may tell of. *)
Lemma grown_sound l w w' : sound_log l w -> sv_logged l w' -> identity <$> sv_tips w ⊆ identity <$> sv_tips w' -> sound_log l w'.
Proof. intros (_ & Hin & Hnd) Hl Hg. split_and!; [done|by etrans|done]. Qed.

(** The bus, with its synchronizer or without. *)
Definition the_bus (sync : bool) : CommandBus := if sync then with_synchronizer bus_new else bus_new.

Lemma execute_effect sync cmd l w : sv_logged l w ->
  let '(r, w') := execute (the_bus sync) cmd w in command_effect r l w w'.
Proof.
  intros Hl. unfold execute.
  assert (bus_synchronizer (the_bus sync) = sync) as -> by by destruct sync.
  assert (List.find (fun h => handles h cmd) (bus_handlers (the_bus sync)) =
          Some (match cmd with RegisterCreator _ _ _ => RegisterCreatorHandler | _ => RecordTipHandler end)) as ->
    by by destruct sync, cmd.
  assert (forall h, (let '(r, w') := handle h cmd w in
      match r with Ok (Some res) => command_effect (Ok res) l w w' | Ok None => False | Err e => command_effect (Err e) l w w' end) ->
    let '(r, w') := (handled ← handle h cmd;
      match handled with
      | Some result =>
          (if sync then _ ← attempt (E' := AppError) (sv_sync_with_retry 3); mret tt else mret tt);; mret result
      | None => throw no_handler
      end) w in command_effect r l w w') as K.
  { intros h Hh. unfold mbind at 1, M_bind at 1. destruct (handle h cmd w) as [[[res|]|e] w1]; [|done|done].
    destruct (after_sync sync res l w w1 Hh) as (w2 & Hs & Heff). by rewrite (bind_ok _ _ _ _ _ Hs). }
  apply K. destruct cmd; [by apply register_effect|by apply record_effect].
Qed.

(** ** Histories of commands *)

(** A command, or whatever else runs in the program between two commands. *)
Inductive bus_op : Type :=
| Commanded (cmd : Command)
| Elsewhere (f : W -> W).

Definition bus_exec (sync : bool) (w : W) (o : bus_op) : W :=
  match o with
  | Commanded cmd => snd (execute (the_bus sync) cmd w)
  | Elsewhere f => f w
  end.

Definition bus_run (sync : bool) (ops : list bus_op) (w : W) : W := fold_left (bus_exec sync) ops w.

(** It may add rows of tips and settle them, and leaves the log alone. *)
Definition respects (f : W -> W) : Prop :=
  forall w, identity <$> sv_tips w ⊆ identity <$> sv_tips (f w) /\ forall l, sv_logged l w -> sv_logged l (f w).

(** The commands that were answered. *)
Fixpoint answered (sync : bool) (ops : list bus_op) (w : W) : list CommandResult :=
  match ops with
  | [] => []
  | o :: ops' =>
      match o with
      | Commanded cmd => match fst (execute (the_bus sync) cmd w) with Ok res => [res] | Err _ => [] end
      | Elsewhere _ => []
      end ++ answered sync ops' (bus_exec sync w o)
  end.

(** The aggregate of an answer and of an event: what was registered or recorded. *)
Definition subject (e : Event) : CommandResult :=
  match e with
  | CreatorRegistered _ i _ _ _ => WasRegistered i
  | TipReceived _ i _ _ _ _ => WasRecorded i
  end.

Lemma told_ids l : (fun i => i.1.1) <$> omap told l = omap (fun e => match e with TipReceived _ i _ _ _ _ => Some i | _ => None end) l.
Proof. induction l as [|[] l IH]; simpl; [done|done|]. by f_equal. Qed.

Lemma ids_of (l : list Tip) : (fun i => i.1.1) <$> (identity <$> l) = tip_id <$> l.
Proof. by rewrite <- list_fmap_compose. Qed.

Lemma effect_sound r l w w' : sound_log l w -> command_effect r l w w' ->
  exists new, sound_log (l ++ new) w' /\ map subject new `sublist_of` match r with Ok res => [res] | Err _ => [] end.
Proof.
  intros Hs (Hg & Heff). pose proof Hs as (_ & Hin & Hnd).
  assert (identity <$> sv_tips w ⊆ identity <$> sv_tips w') as Hsub.
  { destruct Hg as [->|(t & -> & _)]; [done|]. rewrite fmap_app. set_solver. }
  assert (sv_logged l w' -> exists new, sound_log (l ++ new) w' /\ map subject new `sublist_of` match r with Ok res => [res] | Err _ => [] end) as Hnone.
  { intros Hl. exists []. rewrite app_nil_r. split; [by apply (grown_sound l w)|apply sublist_nil_l]. }
  destruct r as [res|e]; [|by apply Hnone]. destruct Heff as ([Hl|(e & Ha & Hl)] & Hrow); [by apply Hnone|].
  exists [e]. assert (subject e = res) as Hsubj by (destruct res, e; simpl in *; naive_solver).
  split; [|simpl; by rewrite Hsubj].
  split; [done|]. rewrite omap_app. destruct res as [i|i], e as [v i' u a t|v i' c a h t]; simpl in Ha; try done.
  - simpl. rewrite app_nil_r. split; [by etrans|done].
  - destruct Ha as [<- Ha]. destruct Hrow as [Hfresh _]. simpl. split; [set_solver|].
    rewrite fmap_app. apply NoDup_app. split_and!; [done| |apply NoDup_singleton].
    intros j Hj ->%list_elem_of_singleton. simpl in *. apply Hfresh. rewrite <- ids_of.
    apply list_elem_of_fmap in Hj as (x & -> & Hx). apply list_elem_of_fmap. exists x. split; [done|]. by apply Hin.
Qed.

Lemma run_sound sync ops : (forall f, Elsewhere f ∈ ops -> respects f) -> forall l w, sound_log l w ->
  exists new, sound_log (l ++ new) (bus_run sync ops w) /\ map subject new `sublist_of` answered sync ops w.
Proof.
  induction ops as [|o ops IH]; intros Hok l w Hs; [exists []; by rewrite app_nil_r|].
  assert (forall f, Elsewhere f ∈ ops -> respects f) as Hok' by (intros f Hf; apply Hok; by right).
  destruct o as [cmd|f]; simpl.
  - pose proof (execute_effect sync cmd l w (proj1 Hs)) as He. destruct (execute (the_bus sync) cmd w) as [r w1] eqn:E.
    destruct (effect_sound r l w w1 Hs He) as (new1 & Hs1 & Ha1). simpl.
    destruct (IH Hok' _ _ Hs1) as (new2 & Hs2 & Ha2). exists (new1 ++ new2). rewrite app_assoc. split; [done|].
    rewrite map_app. by apply sublist_app.
  - destruct (Hok f (list_elem_of_here _ _) w) as [Hsub Hlog].
    destruct (IH Hok' l (f w)) as (new & Hs1 & Ha1); [|by exists new].
    apply (grown_sound l w); [done| |done]. by apply Hlog, (proj1 Hs).
Qed.

Lemma told_cons e l : length (omap told (e :: l)) = ((if told e then 1 else 0) + length (omap told l))%nat.
Proof. simpl. by destruct (told e). Qed.

(** A creator's count in the log is of tips that are there. *)
Lemma applied_tips l p : 0 <= cp_tip_count p -> 0 <= cp_tip_count (fold_left apply l p) <= cp_tip_count p + Z.of_nat (length (omap told l)).
Proof.
  revert p. induction l as [|e l IH]; intros p Hp; [simpl; lia|].
  destruct e as [v i u a t|v i c a h t]; cbn [fold_left apply].
  - rewrite told_cons. exact (IH (apply p (CreatorRegistered v i u a t)) Hp).
  - set (p' := {| cp_id := cp_id p |}). assert (0 <= cp_tip_count p' <= cp_tip_count p + 1) as Hp'.
    { unfold p'. cbn [cp_tip_count]. unfold wrap_u64. split; [apply Z.mod_pos_bound; lia|apply Z.mod_le; lia]. }
    specialize (IH p' (proj1 Hp')). rewrite told_cons. cbn [told]. lia.
Qed.

Lemma told_of_creator creator l : (length (omap told (of_creator creator l)) <= length (omap told l))%nat.
Proof.
  unfold of_creator. induction l as [|e l IH]; [done|]. rewrite told_cons. cbn [List.filter].
  destruct (String.eqb (aggregate_id e) creator); [rewrite told_cons|]; lia.
Qed.

Lemma told_below l w : sound_log l w -> (length (omap told l) <= length (sv_tips w))%nat.
Proof.
  intros (_ & Hin & Hnd). rewrite <- (length_fmap (fun i => i.1.1) (omap told l)), <- (length_fmap tip_id (sv_tips w)), <- ids_of.
  apply NoDup_incl_length; [by apply NoDup_ListNoDup|]. intros j Hj%list_elem_of_In. apply list_elem_of_In.
  apply list_elem_of_fmap in Hj as (x & -> & Hx). apply list_elem_of_fmap. exists x. split; [done|]. by apply Hin.
Qed.

(** In every history of commands, and of whatever else records and settles
    tips in between, the log of events gains only events of commands that were
    answered, in their order; every tip it tells of is a row of the table with
    that amount and transaction, told once; so the state of a creator replayed
    from the log never counts more tips than were recorded. *)
Theorem command_log_sound sync ops l w :
  sound_log l w -> (forall f, Elsewhere f ∈ ops -> respects f) ->
  exists new, sound_log (l ++ new) (bus_run sync ops w) /\
    map subject new `sublist_of` answered sync ops w /\
    forall creator, 0 <= cp_tip_count (from_events (of_creator creator (l ++ new))) <= Z.of_nat (length (sv_tips (bus_run sync ops w))).
Proof.
  intros Hs Hok. destruct (run_sound sync ops Hok l w Hs) as (new & Hs' & Ha). exists new. split_and!; [done|done|].
  intros creator. pose proof (told_below _ _ Hs'). pose proof (told_of_creator creator (l ++ new)).
  pose proof (applied_tips (of_creator creator (l ++ new)) projection_default ltac:(simpl; lia)) as K. simpl in K.
  unfold from_events. lia.
Qed.
End commands.

(** ** The process keeps the laws *)

(** A tip is recorded as a new row at the end. *)
Section recording.
Context {V : Type} {verifier : TipVerifier V}.
Variable uuid : nat -> string.
Variable from_row : list string -> bool.
Variable moderation_rejects : string -> bool.
Implicit Types p : World (V := V).

Definition has_rows (l : list Tip) (p : World (V := V)) : Prop := w_tips p = l.

Lemma silent_rows {A} (m : Pipe A) l : silent m -> stable (has_rows l) m.
Proof. intros Hm p Hp. unfold has_rows in *. by rewrite (proj1 (Hm p)). Qed.

Lemma record_rest_rows req t l : stable (has_rows l) (record_rest (V := V) req t).
Proof.
  unfold record_rest. apply stable_bind; [apply silent_rows, silent_log|]. intros _.
  apply stable_bind; [apply stable_map_err, stable_lift|]. intros n.
  apply stable_bind; [apply silent_rows, silent_wallet|]. intros a. apply stable_bind; [apply stable_lift|]. intros d.
  apply stable_bind.
  { apply stable_attempt. intros p Hp. unfold enqueue. by destruct (w_queue_open p). }
  intros _. apply stable_bind; [by apply stable_modify|]. intros _.
  apply stable_bind; [apply silent_rows, silent_invalidate|]. intros _. apply stable_ret.
Qed.

Lemma record_rest_answer req t p t' p' : record_rest (V := V) req t p = (Ok t', p') -> t' = t.
Proof. unfold record_rest. intros K. repeat (apply bind_answers in K as (? & ? & _ & K)). by injection K. Qed.

(** The row of a request. *)
Definition row_of_request (req : RecordTipRequest) (t : Tip) : Prop :=
  tip_creator t = rq_username req /\ tip_amount t = rq_amount req /\ tip_hash t = rq_transaction_hash req /\
  tip_status t = Some PendingVerification.

Lemma record_rows req p :
  let '(r, p') := record_tip uuid from_row moderation_rejects req p in
  (w_tips p' = w_tips p /\ is_ok r = false) \/
  exists t, w_tips p' = w_tips p ++ [t] /\ (tip_id t ∉ tip_id <$> w_tips p /\ row_of_request req t) /\ forall t', r = Ok t' -> t' = t.
Proof.
  unfold record_tip. unfold mbind at 1, M_bind at 1.
  pose proof (silent_moderate moderation_rejects (rq_message req) p) as (H1 & _).
  destruct (moderate moderation_rejects (rq_message req) p) as [[[]|e] p1]; simpl in H1; [|by left]. rewrite <- H1. clear p H1.
  unfold mbind at 1, M_bind at 1. cbn [new_uuid]. set (p2 := with_env _ _ _ _ p1). set (tid := uuid (w_uuids p1)).
  change (w_tips p1) with (w_tips p2). unfold mbind at 1, M_bind at 1.
  destruct (query_cases (insert_tip tid req) p2) as (p3 & (H3 & _) & Hcases). rewrite <- H3.
  pose proof (insert_tip_cases tid req p3) as Hins.
  destruct (insert_tip tid req p3) as [[[t|]|e] p4] eqn:Hi; simpl in Hcases.
  2,3: subst p4; destruct Hcases as [[e' ->]|[[e' ->]| ->]]; by left.
  destruct Hins as (-> & _ & Hh & _ & Ha & Hc & Hst & Hfresh & _).
  assert (tip_id t ∉ tip_id <$> w_tips p3 /\ row_of_request req t) as Hrow by done.
  destruct Hcases as [[e ->]|[[e ->]| ->]]; [by left|right; by exists t|].
  set (p5 := with_tables _ _ p3). cbn beta iota. bind_step. cbn [map_err lift]. bind_step. unfold decode_tip.
  destruct (from_row tip_columns); [|right; exists t; split; [done|by split]].
  cbn [mret M_ret]. bind_step. cbn [expect lift ok_or].
  change (let '(r, p') := record_rest req t p5 in (w_tips p' = w_tips p3 /\ is_ok r = false) \/
            exists t, w_tips p' = w_tips p3 ++ [t] /\ (tip_id t ∉ tip_id <$> w_tips p3 /\ row_of_request req t) /\ forall t', r = Ok t' -> t' = t).
  pose proof (record_rest_rows req t (w_tips p5) p5 eq_refl) as Hrows.
  destruct (record_rest req t p5) as [r p6] eqn:E. right. exists t. split; [exact Hrows|]. split; [done|].
  intros t' ->. by eapply record_rest_answer.
Qed.
End recording.

Section refinement.
Context {L J St V : Type} `{RedisLaws string St} {platform : Platform} {verifier : TipVerifier V}.
Variable to_json : CreatorView (J := L) -> option string.
Variable of_json : string -> option (CreatorView (J := L)).
Variable username_violates : string -> bool.
Variable links_value : list SocialLink -> L.
Variable creator_uuid : nat -> string.
Variable invalidator : bool.
Variable tip_uuid : nat -> string.
Variable from_row : list string -> bool.
Variable moderation_rejects : string -> bool.
Variable event_to_json : Event -> J.
Variable event_from_json : J -> option Event.
Variable projection_to_json : CreatorProjection -> J.
Variable projection_from_json : J -> option CreatorProjection.
Hypothesis event_law : forall e, event_from_json (event_to_json e) = Some e.
Hypothesis projection_law : forall p, projection_from_json (projection_to_json p) = Some p.

Abbreviation World := (BusWorld (L := L) (J := J) (St := St) (V := V)).
#[local] Instance services : CommandServices L World :=
  bus_services to_json of_json username_violates links_value creator_uuid invalidator tip_uuid from_row
    moderation_rejects event_to_json event_from_json projection_to_json projection_from_json.

Lemma creators_untouched {A} (m : M CreatorWorld AppError A) (w : World) : untouched (L := L) w (snd (zoom bw_creators put_creators m w)).
Proof. unfold zoom. by destruct (m (bw_creators w)). Qed.

#[export] Instance bus_laws : ServiceLaws L World.
Proof.
  split.
  - intros req w. apply creators_untouched.
  - intros u w. apply creators_untouched.
  - intros n w. simpl. unfold zoom. destruct (sync_with_retry event_from_json n (bw_events w)) as [r e] eqn:E. split; [done|].
    intros l (log & Hk & Hl). exists log. split; [|done]. simpl.
    pose proof (stable_sync event_to_json event_from_json projection_from_json log n (bw_events w) Hk) as K. by rewrite E in K.
  - intros e w. simpl. unfold zoom. by destruct (append _ _ _ e (bw_events w)).
  - intros e l w (log & Hk & <-). simpl. unfold zoom.
    pose proof (append_step event_to_json event_from_json projection_to_json projection_from_json event_law projection_law log e (bw_events w) Hk) as K.
    destruct (append _ _ _ e (bw_events w)) as [r e']. destruct K as [[K Hr]|K]; [left|right].
    + split; [by exists log|done].
    + eexists. split; [exact K|]. by rewrite map_app.
  - intros req l w Hl. simpl. unfold zoom. by destruct (record_tip _ _ _ req (get_pipeline w)).
  - intros req w. simpl. unfold zoom.
    pose proof (record_rows tip_uuid from_row moderation_rejects req (get_pipeline w)) as K.
    destruct (record_tip _ _ _ req (get_pipeline w)) as [r p]. destruct K as [K|(t & Ht & [Hid _] & Ha)]; [by left|right; by exists t].
Qed.

(** ** What the commands answer as the program is *)

Lemma zoom_answer {S E A} (get : World -> S) (put : S -> World -> World) (m : M S E A) (w : World) :
  fst (zoom get put m w) = fst (m (get w)).
Proof. unfold zoom. by destruct (m (get w)). Qed.

(** The command carries no links, and NULL is refused. *)
Lemma no_links_no_creator req c w w' : cc_social_links req = None ->
  create_creator to_json username_violates links_value creator_uuid invalidator req w = (Ok c, w') -> False.
Proof.
  intros Hnone. unfold create_creator. destruct (username_violates _); [done|]. intros K.
  do 5 (apply bind_answers in K as (? & ? & _ & K)). apply bind_answers in K as (row & w6 & K & _).
  match type of K with creators_sql ?q ?v = _ => pose proof (creators_sql_cases q v) as Q; rewrite K in Q end.
  destruct Q as (_ & _ & Q). unfold Creators.insert_creator in Q. by rewrite Hnone in Q.
Qed.

Lemma register_refused sync u a m (w : World) : is_ok (fst (execute (the_bus sync) (RegisterCreator u a m) w)) = false.
Proof.
  destruct (execute (the_bus sync) (RegisterCreator u a m) w) as [[res|e] w'] eqn:E; [exfalso|done].
  unfold execute in E.
  assert (List.find (fun h => handles h (RegisterCreator u a m)) (bus_handlers (the_bus sync)) = Some (RegisterCreatorHandler (W := World))) as Hf
    by by destruct sync.
  rewrite Hf in E. apply bind_answers in E as (o & w1 & E & _). simpl in E.
  apply bind_answers in E as (c & w2 & E & _). apply (f_equal fst) in E. rewrite zoom_answer in E. simpl in E.
  eapply (no_links_no_creator _ c (bw_creators w)); [|by apply injective_projections]. done.
Qed.

Lemma record_refused sync u a h s m (w : World) : from_row tip_columns = false ->
  is_ok (fst (execute (the_bus sync) (RecordTip u a h s m) w)) = false.
Proof.
  intros Hrow. destruct (execute (the_bus sync) (RecordTip u a h s m) w) as [[res|e] w'] eqn:E; [exfalso|done].
  unfold execute in E.
  assert (List.find (fun h' => handles h' (RecordTip u a h s m)) (bus_handlers (the_bus sync)) = Some (RecordTipHandler (W := World))) as Hf
    by by destruct sync.
  rewrite Hf in E. apply bind_answers in E as (o & w1 & E & _). simpl in E.
  apply bind_answers in E as (t & w2 & E & _). apply (f_equal fst) in E. rewrite zoom_answer in E. simpl in E.
  match type of E with fst (record_tip _ _ _ ?req ?p) = _ =>
    assert (is_ok (fst (record_tip tip_uuid from_row moderation_rejects req p)) = false) as Hno end.
  { revert E. generalize (get_pipeline w). intros p _. revert p. apply fails_bind; intros _. apply fails_bind; intros tid.
    apply fails_bind; intros inserted. apply fails_bind; intros row. by apply undecoded. }
  by rewrite E in Hno.
Qed.

(** No command is ever answered, so the log stays as it was: a registration binds
    NULL into columns that refuse it, and the rows of tips do not decode (the
    hypothesis is that of [tip_rows_do_not_decode]). *)
Theorem commands_never_answered sync ops (w : World) :
  (forall columns, from_row columns = true -> "message" ∈ columns) -> answered sync ops w = [].
Proof.
  intros Hrow. assert (from_row tip_columns = false) as Hf.
  { apply not_true_is_false. intros Hin%Hrow. unfold tip_columns in Hin. set_solver. }
  revert w. induction ops as [|[cmd|f] ops IH]; intros w; simpl; [done| |apply IH].
  assert (is_ok (fst (execute (the_bus sync) cmd w)) = false) as Hno
    by (destruct cmd; [apply register_refused|by apply record_refused]).
  destruct (fst (execute (the_bus sync) cmd w)); [done|]. apply IH.
Qed.
End refinement.

(** ** Queries *)

Section queries.
Context {L J St V Num : Type} `{RedisLaws string St} {platform : Platform} {verifier : TipVerifier V}.
Variable to_json : CreatorView (J := L) -> option string.
Variable of_json : string -> option (CreatorView (J := L)).
Variable from_row : list string -> bool.
Variable hmac_hex : string -> string -> string.
Variable b64_encode : string -> string.
Variable b64_decode : string -> option string.
Variable parse_uuid : string -> option string.
Variable timestamp_micros : Z -> option Z.
Variable secret : string.
Variable numeric : string -> option Num.
Variable num_le : Num -> Num -> bool.
Variable env : environment.

Abbreviation World := (BusWorld (L := L) (J := J) (St := St) (V := V)).
Abbreviation run_query := (execute_query (J := J) (V := V) to_json of_json from_row hmac_hex b64_encode b64_decode parse_uuid
  timestamp_micros secret numeric num_le env).
Implicit Types w : World.

(** The tables a query reads: creators, tips, log and read model. *)
Definition tables w : gmap string (CreatorRow (J := L)) * list Tip * list EventRow * gmap string CreatorSummaryView :=
  (cw_creators (bw_creators w), w_tips (bw_pipeline w), ew_events (bw_events w), ew_read_model (bw_events w)).

Lemma query_bind {E A B} (m : M World E A) (k : A -> M World E B) :
  (forall w, tables (snd (m w)) = tables w) -> (forall a w, tables (snd (k a w)) = tables w) -> forall w, tables (snd ((m ≫= k) w)) = tables w.
Proof.
  intros Hm Hk w. unfold mbind, M_bind. specialize (Hm w). destruct (m w) as [[a|e] w1]; simpl in *; [|done]. by rewrite Hk.
Qed.

Lemma query_zoom {S E A} (get : World -> S) (put : S -> World -> World) (m : M S E A) :
  (forall w, tables (put (snd (m (get w))) w) = tables w) -> forall w, tables (snd (zoom get put m w)) = tables w.
Proof. intros Hm w. specialize (Hm w). unfold zoom. by destruct (m (get w)). Qed.

Lemma query_map_err {E E' A} (f : E -> E') (m : M World E A) :
  (forall w, tables (snd (m w)) = tables w) -> forall w, tables (snd (map_err f m w)) = tables w.
Proof. intros Hm w. specialize (Hm w). unfold map_err. by destruct (m w) as [[a|e] w1]. Qed.

Lemma page_of_creator_reads u w : tables (snd (get_creator (J := J) (V := V) to_json of_json u w)) = tables w.
Proof.
  revert w. apply query_zoom. intros w. unfold tables. simpl. by rewrite (keeps_table_get to_json of_json u (bw_creators w)).
Qed.

(** A query changes no table: it reads, and the reader's cache is all it fills. *)
Theorem queries_read b q w : tables (snd (run_query b q w)) = tables w.
Proof.
  revert w. destruct q as [u|u params|i|u]; simpl.
  - apply query_bind; [|done]. apply query_map_err, page_of_creator_reads.
  - apply query_bind; [|done]. by apply query_zoom.
  - apply query_bind; [done|]. intros n. apply query_bind; [|done]. apply query_zoom. intros w. unfold tables. simpl.
    unfold map_err, TipPipeline.query, remote. simpl. destruct (pop_fault (w_faults (bw_pipeline w))) as [[] l]; done.
  - destruct (qb_projection b); [|done]. apply query_bind; [|done]. apply query_map_err, query_zoom. intros w.
    unfold tables. simpl. unfold get_creator_summary_by_username, from_store, map_err, store_query, remote. run_m.
    by destruct (pop_fault (ew_faults (bw_events w))) as [[] l].
Qed.

(** The count of a creator's tips is that of the rows under its username. *)
Theorem tip_count_of_creator b u r n w w' :
  (forall u1 u2 r1 r2, cw_creators (bw_creators w) !! u1 = Some r1 -> cw_creators (bw_creators w) !! u2 = Some r2 ->
     vw_id (rw_view r1) = vw_id (rw_view r2) -> u1 = u2) ->
  cw_creators (bw_creators w) !! u = Some r ->
  run_query b (GetCreatorTipCount (vw_id (rw_view r))) w = (Ok (TipCount n), w') ->
  n = Z.of_nat (length (List.filter (fun t => String.eqb (tip_creator t) u) (w_tips (bw_pipeline w)))).
Proof.
  intros Hids Hr K. apply bind_answers in K as (c & w1 & [= <- <-] & K).
  apply bind_answers in K as (m & w2 & K & [= <- _]).
  assert (m = count_tips_of (vw_id (rw_view r)) w) as ->.
  { unfold zoom, map_err, TipPipeline.query, remote in K. simpl in K.
    destruct (pop_fault (w_faults (bw_pipeline w))) as [[] l]; simpl in K; congruence. }
  unfold count_tips_of. do 2 f_equal. apply List.filter_ext. intros t.
  destruct (String.eqb_spec (tip_creator t) u) as [->|Hne]; [rewrite Hr; by rewrite String.eqb_refl|].
  destruct (cw_creators (bw_creators w) !! tip_creator t) as [r'|] eqn:E; [|done].
  apply String.eqb_neq. intros Hid. by apply Hne, (Hids _ _ r' r).
Qed.
End queries.

(** ** A process *)

Abbreviation DemoWorld := (BusWorld (L := unit) (J := document) (St := redis_map string) (V := unit)).

(** The services when rows of tips decode: a column [message] was added to the statements. *)
Definition demo_services : CommandServices unit DemoWorld :=
  bus_services page_json json_page (fun _ => false) (fun _ => tt)
    (fun n => print_Z (Z.of_nat n)) true demo_uuid (fun _ => true) (fun _ => false) inl document_event inr document_projection.
#[local] Existing Instance demo_services.

#[local] Instance demo_laws : ServiceLaws unit DemoWorld.
Proof. unfold demo_services. apply bus_laws; done. Qed.

Definition demo_process : DemoWorld :=
  {| bw_creators := two_creators; bw_pipeline := demo_start; bw_events := no_events |}.

Definition tip_ann (hash : string) : bus_op (W := DemoWorld) := Commanded (RecordTip "ann" "10.5" hash "GFAN" None).

(** The log meets faults; all tips are settled. *)
Definition log_faults (l : list fault) (w : DemoWorld) : DemoWorld := put_events (Events.with_faults l (bw_events w)) w.
Definition settle_all (w : DemoWorld) : DemoWorld :=
  let p := bw_pipeline w in put_pipeline (with_tables (map (set_status StatusConfirmed) (w_tips p)) (w_logs p) p) w.

Definition demo_bus_ops : list (bus_op (W := DemoWorld)) :=
  [tip_ann "h1"; Elsewhere settle_all; tip_ann "h1"; Elsewhere (log_faults [Refused]); tip_ann "h2"; tip_ann "h3"].

Definition demo_after : DemoWorld := bus_run true demo_bus_ops demo_process.

(** The tips of the commands [1] and [4] are in the log; that of the third, whose
    append was refused, is not, although it was answered. *)
Definition demo_log : list Event :=
  [TipReceived 1 "tip-0" "id of ann" "10.5" "h1" 0; TipReceived 1 "tip-3" "id of ann" "10.5" "h3" 0].

Lemma demo_respects f : Elsewhere f ∈ demo_bus_ops -> respects (L := unit) f.
Proof.
  intros Hin. unfold demo_bus_ops in Hin. repeat (apply elem_of_cons in Hin as [E|Hin]); try discriminate E;
    try (by apply elem_of_nil in Hin); injection E as ->; intros w; (split; [|intros l (log & [] & Hl); by exists log]).
  - simpl. assert (map identity (map (set_status StatusConfirmed) (w_tips (bw_pipeline w))) = map identity (w_tips (bw_pipeline w))) as K
      by (rewrite List.map_map; by apply List.map_ext).
    change (map identity (w_tips (bw_pipeline w)) ⊆ map identity (map (set_status StatusConfirmed) (w_tips (bw_pipeline w)))). by rewrite K.
  - done.
Qed.

Lemma demo_sound : sound_log (L := unit) [] demo_process.
Proof.
  split; [exists []; split; [apply well_kept_empty|done]|]. split; [apply list_subseteq_nil|constructor].
Qed.

Lemma command_log_sound_witness :
  exists new, sound_log (L := unit) new demo_after /\
    map subject new `sublist_of` [WasRecorded "tip-0"; WasRecorded "tip-2"; WasRecorded "tip-3"] /\
    forall creator, 0 <= cp_tip_count (from_events (of_creator creator new)) <= 3.
Proof.
  exact (command_log_sound true demo_bus_ops [] demo_process demo_sound demo_respects).
Defined.

(** An answered tip is lost to the log, and so to the state of its creator and to
    the read model, for ever. *)
Example answered_tip_lost :
  fst (replay_from document_event 0 (bw_events demo_after)) = Ok demo_log /\
  answered true demo_bus_ops demo_process = [WasRecorded "tip-0"; WasRecorded "tip-2"; WasRecorded "tip-3"] /\
  tip_id <$> w_tips (bw_pipeline demo_after) = ["tip-0"; "tip-2"; "tip-3"].
Proof. vm_compute. repeat split. Qed.
