(* ===== verification/TipRoutes.v ===== *)
(** * The routes that record tips

    src/src/services/validation_service.rs (the limits of a creator and the rate of
    tips), src/src/validation/amount.rs, the rules of src/src/models/tip.rs, and the
    routes that post a tip: src/src/routes/v1/mod.rs and v2/mod.rs, which check the
    limits and the transaction first, src/src/routes/tips.rs, which does not, and
    the routers src/src/main.rs merges for both versions.

    A tip is recorded by file TipPipeline and its transaction looked up by file
    StellarService.  The columns tipper_wallet and tipper_ip of a tip are kept by its
    id: the INSERT of a tip leaves them NULL.  The parsing of floats and decimals,
    the text of an address, JSON and axum are parameters. *)

From Stdlib Require Import SpecFloat.
From S2P Require Import Prelude Text F64 Errors Sql Amount Decimal StellarService TipPipeline Creators Buses.

(** ** validation/amount.rs and models/tip.rs *)

Section rules.
(** [str::parse::<f64>] *)
Variable parse_f64 : string -> option f64.

(** src/src/validation/amount.rs:4-27 validate_xlm_amount *)
Definition validate_xlm_amount (amount : string) : result unit string :=
  match parse_f64 amount with
  | None => Err "Amount must be a valid number"
  | Some parsed =>
      if SFleb parsed (f64_of_Z 0) then Err "Amount must be greater than zero"
      else
        match nth_error (split_on "." amount) 1 with
        | Some decimals =>
            if (7 <? slength decimals)%nat then Err "Amount must have at most 7 decimal places" else Ok tt
        | None => Ok tt
        end
  end.

(** src/src/models/tip.rs:188-195 validate_tx_hash *)
Definition validate_tx_hash (hash : string) : result unit string :=
  if all_chars is_hexdigit hash then Ok tt else Err "Transaction hash must contain only hexadecimal characters".

(** src/src/models/tip.rs:148-186 the rules of RecordTipRequest *)
Definition valid_tip (r : RecordTipRequest) : bool :=
  length_within 3 30 (rq_username r) && username_regex (rq_username r) && is_ok (validate_xlm_amount (rq_amount r)) &&
  optional (fun w => is_ok (validate_stellar_address w)) (rq_tipper_wallet r) &&
  length_within 64 64 (rq_transaction_hash r) && is_ok (validate_tx_hash (rq_transaction_hash r)) &&
  optional (length_within 0 280) (rq_message r) && length_within 56 56 (rq_tipper_source_account r).
End rules.

(** ** services/validation_service.rs *)

Section routes.
Context {D : Type} `{RustDecimal D}.

(** src/src/services/validation_service.rs:10-14 ValidationRules *)
Record ValidationRules : Type := {
  min_tip_xlm : D;
  max_tip_xlm : D;
  tips_per_minute : Z
}.

Variable env : environment.
(** [Decimal::from_str] of the two literals. *)
Variables default_min default_max : D.

(** src/src/services/validation_service.rs:36-40 decimal_env *)
Definition decimal_env (key : string) : option D := env key ≫= d_from_str.

Definition or_else {A} (a b : option A) : option A := match a with Some x => Some x | None => b end.

(** src/src/services/validation_service.rs:16-34 ValidationRules::default *)
Definition rules_default : ValidationRules := {|
  min_tip_xlm := default default_min (or_else (decimal_env "MIN_TIP_AMOUNT") (decimal_env "TIP_MIN_XLM"));
  max_tip_xlm := default default_max (or_else (decimal_env "MAX_TIP_AMOUNT") (decimal_env "TIP_MAX_XLM"));
  tips_per_minute := default 10 (env "TIP_RATE_LIMIT_PER_MINUTE" ≫= parse_i64)
|}.

(** src/src/services/validation_service.rs:46-50 CreatorTipLimits *)
Record CreatorTipLimits : Type := {
  min_tip_amount : option string;
  max_tip_amount : option string;
  max_tips_per_minute : option Z
}.

Definition no_limits : CreatorTipLimits :=
  {| min_tip_amount := None; max_tip_amount := None; max_tips_per_minute := None |}.

(** Horizon's replies and the parts of the pipeline (files StellarService, TipPipeline). *)
Variable get_tx : nat -> string -> http_reply HorizonTransactionResponse.
Variable get_ops : nat -> string -> http_reply (list HorizonOperation).
Variable uuid : nat -> string.
Variable from_row : list string -> bool.
Variable moderation_rejects : string -> bool.
Variable parse_f64 : string -> option f64.
Context {IpAddr : Type} (show_ip : IpAddr -> string).
Variable invalid_fields : list (string * json).

Abbreviation Pipeline := (World (V := StellarService)).

(** The pipeline with the columns it does not read: the limits of the creators,
    and what tipper_wallet and tipper_ip hold for the tips where they are not NULL. *)
Record RouteWorld : Type := {
  rw_pipeline : Pipeline;
  rw_limits : gmap string CreatorTipLimits;
  rw_wallets : gmap string string;
  rw_ips : gmap string string
}.

Definition put_pipe (p : Pipeline) (w : RouteWorld) : RouteWorld :=
  {| rw_pipeline := p; rw_limits := rw_limits w; rw_wallets := rw_wallets w; rw_ips := rw_ips w |}.

Definition Route : Type -> Type := M RouteWorld AppError.

Definition piped {A} (m : M Pipeline AppError A) : Route A := zoom rw_pipeline put_pipe m.

(** A query of the tables. *)
Definition reads {A} (f : RouteWorld -> A) : Route A :=
  fun w => piped (query (fun p => (f (put_pipe p w), p))) w.

(** src/src/services/validation_service.rs:78-100 fetch_creator_limits *)
Definition fetch_creator_limits (username : string) : Route CreatorTipLimits :=
  limits ← reads (fun w =>
    match w_creators (rw_pipeline w) !! username with
    | Some _ => Some (default no_limits (rw_limits w !! username))
    | None => None
    end);
  expect (CreatorNotFound username) limits.

(** The bounds of a creator, or those of the rules. *)
Definition bounds (rules : ValidationRules) (l : CreatorTipLimits) : D * D :=
  (default (min_tip_xlm rules) (min_tip_amount l ≫= d_from_str),
   default (max_tip_xlm rules) (max_tip_amount l ≫= d_from_str)).

(** src/src/services/validation_service.rs:102-132 check_amount *)
Definition check_amount (rules : ValidationRules) (amount : string) (l : CreatorTipLimits) : AppResult unit :=
  match d_from_str amount with
  | None => Err (Conflict "INVALID_AMOUNT" "Tip amount is not a valid decimal")
  | Some value =>
      let '(min, max) := bounds rules l in
      if d_ltb value min then Err (Conflict "AMOUNT_TOO_LOW" ("Minimum tip amount is " +:+ d_to_string min +:+ " XLM"))
      else if d_ltb max value then Err (Conflict "AMOUNT_TOO_HIGH" ("Maximum tip amount is " +:+ d_to_string max +:+ " XLM"))
      else Ok tt
  end.

(** [created_at > NOW() - INTERVAL '..'] with a column that holds a text. *)
Definition recent_with (column : gmap string string) (v : string) (secs : Z) (p : Pipeline) : Z :=
  Z.of_nat (length (List.filter (fun t => bool_decide (column !! tip_id t = Some v) && (w_now p - secs <? tip_created_at t)) (w_tips p))).

(** src/src/services/validation_service.rs:134-180 check_rate_limits *)
Definition check_rate_limits (rules : ValidationRules) (req : RecordTipRequest) (ip : option IpAddr) (l : CreatorTipLimits) : Route unit :=
  let limit := default (tips_per_minute rules) (max_tips_per_minute l) in
  match ip with
  | Some ip =>
      count ← reads (fun w => recent_with (rw_ips w) (show_ip ip) 60 (rw_pipeline w));
      if limit <=? count then throw (rate_limited_with_retry "Too many tips from this IP address. Please slow down." 60)
      else mret tt
  | None => mret tt
  end;;
  match rq_tipper_wallet req with
  | Some wallet =>
      count ← reads (fun w => recent_with (rw_wallets w) wallet 60 (rw_pipeline w));
      if limit <=? count then throw (rate_limited_with_retry "Too many tips from this wallet. Please slow down." 60)
      else mret tt
  | None => mret tt
  end.

(** src/src/services/validation_service.rs:182-196 check_duplicate *)
Definition check_duplicate (tx_hash : string) : Route unit :=
  exists_ ← reads (fun w => existsb (fun t => String.eqb (tip_hash t) tx_hash) (w_tips (rw_pipeline w)));
  if exists_ : bool then throw (Conflict "DUPLICATE_TRANSACTION" "This transaction has already been recorded") else mret tt.

(** The count is logged when it is more than five.
    src/src/services/validation_service.rs:200-222 check_fraud_indicators *)
Definition check_fraud_indicators (req : RecordTipRequest) : Route unit :=
  _ ← attempt (E' := AppError) (reads (fun w => length (List.filter (fun t =>
        String.eqb (tip_creator t) (rq_username req) && String.eqb (tip_amount t) (rq_amount req) &&
        (w_now (rw_pipeline w) - 3600 <? tip_created_at t)) (w_tips (rw_pipeline w)))));
  mret tt.

(** src/src/services/validation_service.rs:63-76 validate_with_client *)
Definition validate_with_client (rules : ValidationRules) (req : RecordTipRequest) (ip : option IpAddr) : Route unit :=
  creator_limits ← fetch_creator_limits (rq_username req);
  lift (check_amount rules (rq_amount req) creator_limits);;
  check_rate_limits rules req ip creator_limits;;
  check_duplicate (rq_transaction_hash req);;
  check_fraud_indicators req.

(** src/src/services/validation_service.rs:59-61 validate *)
Definition validate (rules : ValidationRules) (req : RecordTipRequest) : Route unit := validate_with_client rules req None.

(** ** The routes *)

Definition look_up (hash : string) : Route bool :=
  piped (zoom w_verifier with_verifier (verify_transaction get_tx env hash)).

Definition record (req : RecordTipRequest) : Route Tip := piped (record_tip uuid from_row moderation_rejects req).

(** A tip is recorded for a body that meets the rules, within the limits, when its
    transaction is known to have succeeded.
    src/src/routes/v1/mod.rs:99-130 record_tip, up to its answer *)
Definition record_checked (body : RecordTipRequest) (client_ip : option IpAddr) : Route Tip :=
  if negb (valid_tip parse_f64 body) then throw (Validation (InvalidFields invalid_fields))
  else
    validate_with_client rules_default body client_ip;;
    verified ← look_up (rq_transaction_hash body);
    if verified : bool then record body
    else throw (Stellar (TransactionNotFound (rq_transaction_hash body))).

(** src/src/routes/v1/mod.rs:27-33 TipResponseV1 *)
Record TipResponseV1 : Type := {
  v1_id : string;
  v1_creator_username : string;
  v1_amount : string;
  v1_transaction_hash : string
}.

(** src/src/routes/v1/mod.rs:99-140 record_tip *)
Definition record_tip_v1 (body : RecordTipRequest) (client_ip : option IpAddr) : Route (Z * TipResponseV1) :=
  t ← record_checked body client_ip;
  mret (201, {| v1_id := tip_id t; v1_creator_username := tip_creator t; v1_amount := tip_amount t;
                v1_transaction_hash := tip_hash t |}).

(** src/src/models/tip.rs:256-266 TipResponse *)
Record TipResponse : Type := {
  tr_id : string;
  tr_creator_username : string;
  tr_amount : string;
  tr_transaction_hash : string;
  tr_message : option string;
  tr_message_visibility : string;
  tr_created_at : Z;
  tr_status : TipStatus
}.

(** src/src/models/tip.rs:268-282 TipResponse::from *)
Definition tip_response (t : Tip) : TipResponse := {|
  tr_id := tip_id t; tr_creator_username := tip_creator t; tr_amount := tip_amount t; tr_transaction_hash := tip_hash t;
  tr_message := tip_message t; tr_message_visibility := default "public" (tip_message_visibility t);
  tr_created_at := tip_created_at t; tr_status := effective_status t
|}.

(** src/src/routes/v2/mod.rs:90-123 record_tip *)
Definition record_tip_v2 (body : RecordTipRequest) (client_ip : option IpAddr) : Route (Z * TipResponse) :=
  t ← record_checked body client_ip;
  mret (201, tip_response t).

(** src/src/routes/tips.rs:55-62 record_tip *)
Definition record_tip_unversioned (body : RecordTipRequest) : Route (Z * TipResponse) :=
  if negb (valid_tip parse_f64 body) then throw (Validation (InvalidFields invalid_fields))
  else t ← record body; mret (201, tip_response t).
End routes.

(** ** The routers *)

(** What the program uses of axum: routers with routes for a method and a path.
    Adding or merging fails ([None]: it panics) when a path would have two handlers
    of a method, and keeps all routes otherwise. *)
Class Axum (R : Type) : Type := {
  router_new : R;
  route : string -> string -> R -> option R;
  merge : R -> R -> option R;
  serves : R -> string -> string -> bool
}.

Class AxumLaws (R : Type) `{Axum R} : Prop := {
  new_serves : forall m p, serves router_new m p = false;
  route_serves : forall m p r r', route m p r = Some r' ->
    forall m' p', serves r' m' p' = (String.eqb m m' && String.eqb p p') || serves r m' p';
  merge_serves : forall a b c, merge a b = Some c -> forall m p, serves c m p = serves a m p || serves b m p;
  merge_overlap : forall a b m p, serves a m p = true -> serves b m p = true -> merge a b = None
}.

Section routers.
Context {R : Type} `{AxumLaws R}.

(** [Router::new().route(..)...] *)
Definition routed (l : list (string * string)) : option R :=
  fold_left (fun o mp => r ← o; route (fst mp) (snd mp) r) l (Some router_new).

(** [.merge(..)...] on a router *)
Definition merged (l : list (option R)) : option R :=
  fold_left (fun o x => r ← o; r' ← x; merge r r') l (Some router_new).

(** src/src/routes/tips.rs:19-32 router *)
Definition tips_router : option R :=
  routed [("POST", "/tips"); ("GET", "/tips"); ("POST", "/tips/:id/report")].

(** src/src/routes/creators.rs:23-28 write_router *)
Definition creators_write_router : option R :=
  routed [("POST", "/creators"); ("PATCH", "/creators/:username/wallet"); ("PUT", "/creators/:username")].

(** src/src/routes/v1/mod.rs:35-41 router *)
Definition v1_router : option R :=
  routed [("POST", "/creators"); ("GET", "/creators/:username"); ("GET", "/creators/:username/tips"); ("POST", "/tips")].

(** src/src/routes/v2/mod.rs:30-36 router *)
Definition v2_router : option R :=
  routed [("POST", "/creators"); ("GET", "/creators/:username"); ("GET", "/creators/:username/tips"); ("POST", "/tips"); ("GET", "/tips")].

(** The other routers that are merged with these.
    src/src/main.rs:416-426 the routes that write, version 1 *)
Definition v1_write_routes (auth teams comments verification goals scheduled_tips tx_pool : option R) : option R :=
  merged [auth; teams; tips_router; comments; creators_write_router; verification; goals; scheduled_tips; tx_pool; v1_router].

(** src/src/main.rs:480-489 the routes that write, version 2 *)
Definition v2_write_routes (auth teams verification goals scheduled_tips tx_pool : option R) : option R :=
  merged [auth; teams; tips_router; creators_write_router; verification; goals; scheduled_tips; tx_pool; v2_router].
End routers.

(** * Lemmas *)

(** ** The routers never come to be *)

Section panics.
Context {R : Type} `{AxumLaws R}.

Lemma routed_from l : forall r r' m p, fold_left (fun o mp => r ← o; route (fst mp) (snd mp) r) l (Some r) = Some r' ->
  (m, p) ∈ l \/ serves r m p = true -> serves r' m p = true.
Proof.
  induction l as [|[m1 p1] l IH]; intros r r' m p; simpl.
  - intros [= ->] [Hin|Hs]; [by apply elem_of_nil in Hin|done].
  - destruct (route m1 p1 r) as [r1|] eqn:E.
    + intros K [Hin|Hs]; apply (IH r1 r' m p K).
      * apply elem_of_cons in Hin as [[= -> ->]|Hin]; [right|by left].
        rewrite (route_serves _ _ _ _ E), !String.eqb_refl. done.
      * right. by rewrite (route_serves _ _ _ _ E), Hs, orb_true_r.
    + clear. intros K. exfalso. induction l as [|x l IHl]; simpl in K; [done|by apply IHl].
Qed.

Lemma merged_none l : fold_left (fun o (x : option R) => r ← o; r' ← x; merge r r') l None = None.
Proof. induction l as [|x l IH]; simpl; [done|apply IH]. Qed.

Lemma merged_from l : forall r r' m p, fold_left (fun o (x : option R) => r ← o; r' ← x; merge r r') l (Some r) = Some r' ->
  serves r m p = true -> serves r' m p = true.
Proof.
  induction l as [|x l IH]; intros r r' m p; simpl; [by intros [= ->]|].
  destruct x as [x|]; simpl; [|by rewrite merged_none]. destruct (merge r x) as [r1|] eqn:E; [|by rewrite merged_none].
  intros K Hs. apply (IH r1 r' m p K). by rewrite (merge_serves _ _ _ E), Hs.
Qed.

(** Two routers of a merge that handle a method of a path. *)
Lemma merged_overlap l1 a l2 b l3 m p :
  (forall x, a = Some x -> serves x m p = true) -> (forall x, b = Some x -> serves x m p = true) ->
  merged (l1 ++ a :: l2 ++ b :: l3) = None.
Proof.
  intros Ha Hb. unfold merged. rewrite fold_left_app. generalize (fold_left (fun o (x : option R) => r ← o; r' ← x; merge r r') l1 (Some router_new)).
  intros [r|]; simpl; [|apply merged_none]. destruct a as [a|]; simpl; [|apply merged_none].
  destruct (merge r a) as [r1|] eqn:E; [|apply merged_none]. specialize (Ha a eq_refl).
  assert (serves r1 m p = true) as H1 by (by rewrite (merge_serves _ _ _ E), Ha, orb_true_r).
  rewrite fold_left_app. destruct (fold_left _ l2 (Some r1)) as [r2|] eqn:E2; simpl; [|apply merged_none].
  destruct b as [b|]; simpl; [|apply merged_none].
  rewrite (merge_overlap _ _ m p); [apply merged_none|by apply (merged_from l2 r1)|by apply Hb].
Qed.

Lemma routed_serves l x m p : routed (R := R) l = Some x -> (m, p) ∈ l -> serves x m p = true.
Proof. intros K Hin. apply (routed_from l router_new x m p K). by left. Qed.

(** Both versions of the API merge two routers that post tips: the program
    panics before it serves anything, whatever the other routers are. *)
Theorem server_never_starts :
  (forall auth teams comments verification goals scheduled_tips tx_pool,
     v1_write_routes (R := R) auth teams comments verification goals scheduled_tips tx_pool = None) /\
  (forall auth teams verification goals scheduled_tips tx_pool,
     v2_write_routes (R := R) auth teams verification goals scheduled_tips tx_pool = None).
Proof.
  assert (forall l x, routed (R := R) l = Some x -> ("POST", "/tips") ∈ l -> serves x "POST" "/tips" = true) as K
    by (intros l x Hx Hin; by apply (routed_serves l)).
  split; intros.
  - apply (merged_overlap [auth; teams] tips_router [comments; creators_write_router; verification; goals; scheduled_tips; tx_pool]
             v1_router [] "POST" "/tips"); intros x Hx; apply (K _ x Hx), list_elem_of_In; simpl; auto.
  - apply (merged_overlap [auth; teams] tips_router [creators_write_router; verification; goals; scheduled_tips; tx_pool]
             v2_router [] "POST" "/tips"); intros x Hx; apply (K _ x Hx), list_elem_of_In; simpl; auto 6.
Qed.
End panics.

(** A list of routes is such a router. *)
#[export] Instance list_axum : Axum (list (string * string)) := {
  router_new := [];
  route m p r := if existsb (fun x => String.eqb (fst x) m && String.eqb (snd x) p) r then None else Some ((m, p) :: r);
  merge a b := if existsb (fun x => existsb (fun y => String.eqb (fst x) (fst y) && String.eqb (snd x) (snd y)) b) a
               then None else Some (a ++ b);
  serves r m p := existsb (fun x => String.eqb (fst x) m && String.eqb (snd x) p) r
}.

#[export] Instance list_axum_laws : AxumLaws (list (string * string)).
Proof.
  split; simpl.
  - done.
  - intros m p r r'. destruct (existsb _ r); [done|]. intros [= <-] m' p'. simpl. done.
  - intros a b c. destruct (existsb _ a); [done|]. intros [= <-] m p. by rewrite existsb_app.
  - intros a b m p (x & Hx & Ex)%existsb_exists (y & Hy & Ey)%existsb_exists.
    apply andb_true_iff in Ex as [Ex1%String.eqb_eq Ex2%String.eqb_eq]. apply andb_true_iff in Ey as [Ey1%String.eqb_eq Ey2%String.eqb_eq].
    replace (existsb _ a) with true; [done|]. symmetry. apply existsb_exists. exists x. split; [done|].
    apply existsb_exists. exists y. split; [done|]. by rewrite Ex1, Ex2, Ey1, Ey2, !String.eqb_refl.
Qed.

(** Each of the routers alone is fine. *)
Example routers_alone :
  is_Some (tips_router (R := list (string * string))) /\ is_Some (creators_write_router (R := list (string * string))) /\
  is_Some (v1_router (R := list (string * string))) /\ is_Some (v2_router (R := list (string * string))).
Proof. vm_compute. eauto 10. Qed.

(** ** Validation *)

Section validation.
Context {D : Type} `{DecimalLaws D}.
Variable env : environment.
Variables default_min default_max : D.
Variable get_tx : nat -> string -> http_reply HorizonTransactionResponse.
Variable uuid : nat -> string.
Variable from_row : list string -> bool.
Variable moderation_rejects : string -> bool.
Variable parse_f64 : string -> option f64.
Context {IpAddr : Type} (show_ip : IpAddr -> string).
Variable invalid_fields : list (string * json).

Implicit Types (w : RouteWorld) (req : RecordTipRequest) (rules : ValidationRules (D := D)).
Abbreviation check_rates := (check_rate_limits (D := D) show_ip).
Abbreviation validated_by := (validate_with_client (D := D) show_ip).
Abbreviation checked := (record_checked env default_min default_max get_tx uuid from_row moderation_rejects parse_f64 show_ip invalid_fields).
Abbreviation rules_now := (rules_default env default_min default_max).

(** What a query leaves alone: everything but the schedule of faults. *)
Definition same w w' : Prop :=
  w_tips (rw_pipeline w') = w_tips (rw_pipeline w) /\ w_creators (rw_pipeline w') = w_creators (rw_pipeline w) /\
  w_now (rw_pipeline w') = w_now (rw_pipeline w) /\ rw_limits w' = rw_limits w /\ rw_wallets w' = rw_wallets w /\ rw_ips w' = rw_ips w.

Lemma same_refl w : same w w.
Proof. by repeat split. Qed.

Lemma same_trans w1 w2 w3 : same w1 w2 -> same w2 w3 -> same w1 w3.
Proof. unfold same. intros (? & ? & ? & ? & ? & ?) (? & ? & ? & ? & ? & ?). repeat split; congruence. Qed.

Lemma reads_cases {A} (f : RouteWorld -> A) w :
  exists w', same w w' /\ (reads f w = (Ok (f w'), w') \/ reads f w = (Err (app_error_from_sqlx SqlxOther), w')).
Proof.
  unfold reads, piped, zoom, query, remote. simpl. destruct (pop_fault (w_faults (rw_pipeline w))) as [fault l].
  exists (put_pipe (with_env (w_creators (rw_pipeline w)) (w_now (rw_pipeline w)) (w_uuids (rw_pipeline w)) l (rw_pipeline w)) w).
  split; [by repeat split|]. destruct fault; eauto.
Qed.

Lemma reads_calm {A} (f : RouteWorld -> A) w : w_faults (rw_pipeline w) = [] -> reads f w = (Ok (f w), w).
Proof.
  intros Hw. unfold reads, piped, zoom. rewrite query_calm by done. cbn [fst snd].
  assert (put_pipe (rw_pipeline w) w = w) as Hp by by destruct w. by rewrite Hp.
Qed.

(** The creator's limits, its absence included. *)
Definition limits_of w (username : string) : option CreatorTipLimits :=
  match w_creators (rw_pipeline w) !! username with
  | Some _ => Some (default no_limits (rw_limits w !! username))
  | None => None
  end.

Definition limit_in_force rules (l : CreatorTipLimits) : Z := default (tips_per_minute rules) (max_tips_per_minute l).

Definition ip_count w (ip : IpAddr) : Z := recent_with (rw_ips w) (show_ip ip) 60 (rw_pipeline w).
Definition wallet_count w (wallet : string) : Z := recent_with (rw_wallets w) wallet 60 (rw_pipeline w).
Definition hash_taken w (hash : string) : bool := existsb (fun t => String.eqb (tip_hash t) hash) (w_tips (rw_pipeline w)).

(** The verdict on a tip, without the queries. *)
Definition verdict rules req (ip : option IpAddr) w : AppResult unit :=
  match limits_of w (rq_username req) with
  | None => Err (CreatorNotFound (rq_username req))
  | Some l =>
      match check_amount rules (rq_amount req) l with
      | Err e => Err e
      | Ok _ =>
          if match ip with Some i => limit_in_force rules l <=? ip_count w i | None => false end
          then Err (rate_limited_with_retry "Too many tips from this IP address. Please slow down." 60)
          else if match rq_tipper_wallet req with Some a => limit_in_force rules l <=? wallet_count w a | None => false end
          then Err (rate_limited_with_retry "Too many tips from this wallet. Please slow down." 60)
          else if hash_taken w (rq_transaction_hash req)
          then Err (Conflict "DUPLICATE_TRANSACTION" "This transaction has already been recorded")
          else Ok tt
      end
  end.

(** The verdict depends on what queries leave alone. *)
Lemma verdict_same rules req ip w w' : same w w' -> verdict rules req ip w' = verdict rules req ip w.
Proof.
  intros (Ht & Hc & Hn & Hl & Hw & Hi).
  unfold verdict, limits_of, ip_count, wallet_count, hash_taken, recent_with. by rewrite Ht, Hc, Hn, Hl, Hw, Hi.
Qed.

(** Without database faults the validation of a tip is its verdict: the creator
    exists, the amount is within the bounds of the creator or else of the rules,
    both counts of the last minute are below the limit and the transaction is new,
    in this order. *)
Theorem validation_decides rules req ip w :
  w_faults (rw_pipeline w) = [] -> validated_by rules req ip w = (verdict rules req ip w, w).
Proof.
  intros Hw. unfold validate_with_client, fetch_creator_limits, verdict.
  fold (limits_of w (rq_username req)).
  assert (fetch_creator_limits (rq_username req) w = (ok_or (CreatorNotFound (rq_username req)) (limits_of w (rq_username req)), w)) as E.
  { unfold fetch_creator_limits. rewrite (bind_ok _ _ _ _ _ (reads_calm _ w Hw)). done. }
  fold (fetch_creator_limits (rq_username req)).
  destruct (limits_of w (rq_username req)) as [l|]; simpl in E; [rewrite (bind_ok _ _ _ _ _ E)|by rewrite (bind_err _ _ _ _ _ E)].
  destruct (check_amount rules (rq_amount req) l) as [[]|e] eqn:Ea.
  2:{ by bind_step. }
  bind_step. cbn [lift].
  assert (forall v c text, (count ← reads (fun w => recent_with (c w) v 60 (rw_pipeline w));
            if limit_in_force rules l <=? count then throw (rate_limited_with_retry text 60) else mret tt) w =
          (if limit_in_force rules l <=? recent_with (c w) v 60 (rw_pipeline w)
           then (Err (rate_limited_with_retry text 60), w) else (Ok tt, w))) as K.
  { intros v c text. rewrite (bind_ok _ _ _ _ _ (reads_calm _ w Hw)). by destruct (_ <=? _). }
  assert (check_rates rules req ip l w =
    (if match ip with Some i => limit_in_force rules l <=? ip_count w i | None => false end
     then (Err (rate_limited_with_retry "Too many tips from this IP address. Please slow down." 60), w)
     else if match rq_tipper_wallet req with Some a => limit_in_force rules l <=? wallet_count w a | None => false end
     then (Err (rate_limited_with_retry "Too many tips from this wallet. Please slow down." 60), w) else (Ok tt, w))) as Er.
  { unfold check_rate_limits. fold (limit_in_force rules l). unfold mbind at 1, M_bind at 1.
    destruct ip as [i|]; [rewrite (K (show_ip i) rw_ips); fold (ip_count w i); destruct (_ <=? _); [done|]|];
      unfold mret at 1, M_ret at 1; cbn beta iota; (destruct (rq_tipper_wallet req) as [a|]; [by rewrite (K a rw_wallets)|done]). }
  destruct (match ip with Some i => _ | None => false end); [by rewrite (bind_err _ _ _ _ _ Er)|].
  destruct (match rq_tipper_wallet req with Some a => _ | None => false end); [by rewrite (bind_err _ _ _ _ _ Er)|].
  rewrite (bind_ok _ _ _ _ _ Er).
  assert (check_duplicate (rq_transaction_hash req) w =
    (if hash_taken w (rq_transaction_hash req)
     then Err (Conflict "DUPLICATE_TRANSACTION" "This transaction has already been recorded") else Ok tt, w)) as Ed.
  { unfold check_duplicate. rewrite (bind_ok _ _ _ _ _ (reads_calm _ w Hw)). fold (hash_taken w (rq_transaction_hash req)).
    by destruct (hash_taken w (rq_transaction_hash req)). }
  destruct (hash_taken w (rq_transaction_hash req)); [by rewrite (bind_err _ _ _ _ _ Ed)|]. rewrite (bind_ok _ _ _ _ _ Ed).
  unfold check_fraud_indicators, attempt. unfold mbind, M_bind. by rewrite reads_calm.
Qed.

(** ** Under faults *)

(** A part that reads. *)
Definition only_reads {A} (m : Route A) : Prop := forall w, same w (snd (m w)).

Lemma only_reads_bind {A B} (m : Route A) (k : A -> Route B) :
  only_reads m -> (forall a, only_reads (k a)) -> only_reads (m ≫= k).
Proof.
  intros Hm Hk w. specialize (Hm w). unfold mbind, M_bind. destruct (m w) as [[a|e] w1]; simpl in *; [|done].
  by apply (same_trans _ w1); [|apply Hk].
Qed.

Lemma only_reads_lift {A} (r : result A AppError) : only_reads (lift r).
Proof. intros w. apply same_refl. Qed.

Lemma only_reads_ret {A} (a : A) : only_reads (mret a).
Proof. intros w. apply same_refl. Qed.

Lemma only_reads_query {A} (f : RouteWorld -> A) : only_reads (reads f).
Proof. intros w. destruct (reads_cases f w) as (w' & Hs & [-> | ->]); done. Qed.

Lemma only_reads_refuse {A} (f : RouteWorld -> A) (p : A -> bool) e :
  only_reads (a ← reads f; if p a then throw e else mret tt).
Proof. apply only_reads_bind; [apply only_reads_query|]. intros a w. destruct (p a); apply same_refl. Qed.

Lemma reads_ok {A} (f : RouteWorld -> A) w a w1 : reads f w = (Ok a, w1) -> same w w1 /\ a = f w1.
Proof. intros E. destruct (reads_cases f w) as (w' & Hs & [K|K]); rewrite K in E; [|done]. by injection E as <- <-. Qed.

Lemma rates_read rules req ip l : only_reads (check_rates rules req ip l).
Proof.
  unfold check_rate_limits. apply only_reads_bind.
  - destruct ip; [apply (only_reads_refuse _ (fun count => _ <=? count))|apply only_reads_ret].
  - intros _. destruct (rq_tipper_wallet req); [apply (only_reads_refuse _ (fun count => _ <=? count))|apply only_reads_ret].
Qed.

Lemma validation_reads rules req ip : only_reads (validated_by rules req ip).
Proof.
  unfold validate_with_client, fetch_creator_limits.
  apply only_reads_bind; [apply only_reads_bind; [apply only_reads_query|intros; apply only_reads_lift]|]. intros l.
  apply only_reads_bind; [apply only_reads_lift|]. intros _. apply only_reads_bind; [apply rates_read|].
  intros _. apply only_reads_bind; [apply (only_reads_refuse _ id)|]. intros _ w.
  unfold check_fraud_indicators, attempt, mbind, M_bind.
  match goal with |- context [reads ?f w] => destruct (reads_cases f w) as (w' & Hs & [-> | ->]); done end.
Qed.

(** What a validation that passes has seen. *)
Lemma validation_passed rules req ip w w' : validated_by rules req ip w = (Ok tt, w') ->
  exists l, limits_of w (rq_username req) = Some l /\ check_amount rules (rq_amount req) l = Ok tt /\
    hash_taken w (rq_transaction_hash req) = false.
Proof.
  intros E. apply bind_answers in E as (l & w1 & E1 & E). apply bind_answers in E1 as (o & w0 & Eo & El).
  apply reads_ok in Eo as [S0 ->]. injection El as El <-.
  apply bind_answers in E as ([] & w2 & E2 & E). injection E2 as E2 <-.
  apply bind_answers in E as ([] & w3 & E3 & E).
  assert (same w0 w3) as S3.
  { pose proof (rates_read rules req ip l w0) as K. by rewrite E3 in K. }
  apply bind_answers in E as ([] & w4 & E4 & _). apply bind_answers in E4 as (taken & w5 & E5 & E4).
  apply reads_ok in E5 as [S5 ->].
  pose proof (same_trans _ _ _ (same_trans _ _ _ S0 S3) S5) as S. exists l.
  assert (limits_of w (rq_username req) = limits_of w0 (rq_username req)) as ->.
  { destruct S0 as (_ & Hc & _ & Hl & _). unfold limits_of. by rewrite Hc, Hl. }
  split; [|split; [done|]].
  - fold (limits_of w0 (rq_username req)) in El. destruct (limits_of w0 (rq_username req)); [by injection El as <-|done].
  - unfold hash_taken. rewrite <- (proj1 S). by destruct (existsb _ (w_tips (rw_pipeline w5))).
Qed.

(** ** Recording *)

Lemma look_up_ok hash w b w' : look_up env get_tx hash w = (Ok b, w') ->
  same w w' /\ exists o, tx_reported get_tx hash o /\ b = match o with Some t => successful t | None => false end.
Proof.
  unfold look_up, piped, zoom. set (v := w_verifier (rw_pipeline w)).
  destruct (verify_transaction get_tx env hash v) as [r v'] eqn:E. intros [= -> <-]. split; [by repeat split|].
  apply bind_answers in E as (o & v1 & E & Eb). exists o. split; [by eapply fetch_reported|]. by injection Eb as <-.
Qed.

Lemma look_up_same hash : only_reads (look_up env get_tx hash).
Proof. intros w. unfold look_up, piped, zoom. by destruct (verify_transaction get_tx env hash (w_verifier (rw_pipeline w))). Qed.

Lemma amount_bounds rules amount l : check_amount rules amount l = Ok tt ->
  exists v, d_from_str amount = Some v /\ units (fst (bounds rules l)) <= units v <= units (snd (bounds rules l)).
Proof.
  unfold check_amount. destruct (d_from_str amount) as [v|]; [|done]. destruct (bounds rules l) as [min max]. simpl.
  rewrite !units_ltb. destruct (units v <? units min) eqn:E1; [done|]. destruct (units max <? units v) eqn:E2; [done|]. zbool.
  intros _. by exists v.
Qed.

(** A row that a checked request adds. *)
Definition added (body : RecordTipRequest) w w' (t : Tip) : Prop :=
  w_tips (rw_pipeline w') = w_tips (rw_pipeline w) ++ [t] /\ row_of_request body t.

Lemma record_adds body w w' : snd (record uuid from_row moderation_rejects body w) = w' ->
  w_tips (rw_pipeline w') = w_tips (rw_pipeline w) \/ exists t, added body w w' t.
Proof.
  unfold record, piped, zoom. pose proof (record_rows uuid from_row moderation_rejects body (rw_pipeline w)) as K.
  destruct (record_tip uuid from_row moderation_rejects body (rw_pipeline w)) as [r p]. intros <-. simpl.
  destruct K as [[K _]|(t & Ht & [_ Hrow] & _)]; [by left|right; by exists t].
Qed.

(** C40: Through the versioned routes, and under any faults, a row is added only for a
    body that meets the rules, with an amount within the bounds of its creator, of a
    new transaction that Horizon reported successful. *)
Theorem tip_limits_enforced body ip w :
  let w' := snd (checked body ip w) in
  w_tips (rw_pipeline w') = w_tips (rw_pipeline w) \/
  exists t, added body w w' t /\ valid_tip parse_f64 body = true /\ hash_taken w (tip_hash t) = false /\
    (exists l v, limits_of w (tip_creator t) = Some l /\ d_from_str (tip_amount t) = Some v /\
       units (fst (bounds rules_now l)) <= units v <= units (snd (bounds rules_now l))) /\
    exists tx, tx_reported get_tx (tip_hash t) (Some tx) /\ successful tx = true.
Proof.
  unfold record_checked. destruct (valid_tip parse_f64 body) eqn:Hv; [simpl|by left].
  pose proof (validation_reads rules_now body ip w) as S1.
  destruct (validated_by rules_now body ip w) as [[[]|e] w1] eqn:E1;
    [rewrite (bind_ok _ _ _ _ _ E1)|rewrite (bind_err _ _ _ _ _ E1); left; apply S1].
  pose proof (look_up_same (rq_transaction_hash body) w1) as S2.
  destruct (look_up env get_tx (rq_transaction_hash body) w1) as [[b|e] w2] eqn:E2;
    [rewrite (bind_ok _ _ _ _ _ E2)|rewrite (bind_err _ _ _ _ _ E2); left; apply (same_trans _ _ _ S1 S2)].
  pose proof (same_trans _ _ _ S1 S2) as S. simpl in S. destruct b; [|left; apply S].
  destruct (record_adds body w2 _ eq_refl) as [K|(t & Ht & Hrow)]; [left; rewrite K; apply S|right].
  exists t. rewrite (proj1 S) in Ht. split; [by split|]. split; [done|].
  destruct Hrow as (-> & -> & -> & _). destruct (validation_passed _ _ _ _ _ E1) as (l & Hl & Ha & Hh). split; [done|].
  destruct (amount_bounds _ _ _ Ha) as (v & Hd & Hb). split; [by exists l, v|].
  apply look_up_ok in E2 as (_ & [tx|] & Hr & Hok); [by exists tx|done].
Qed.

(** ** The rate of tips *)

(** A request to record a tip, by the versioned routes or by the other, or anything
    else that happens to the pipeline and to the limits. *)
Inductive route_op : Type :=
| OpChecked (body : RecordTipRequest) (client_ip : option IpAddr)
| OpUnchecked (body : RecordTipRequest)
| OpPipeline (f : World (V := StellarService) -> World (V := StellarService))
| OpLimits (l : gmap string CreatorTipLimits).

Definition route_exec w (o : route_op) : RouteWorld :=
  match o with
  | OpChecked body ip => snd (checked body ip w)
  | OpUnchecked body => snd (record_tip_unversioned uuid from_row moderation_rejects parse_f64 invalid_fields body w)
  | OpPipeline f => put_pipe (f (rw_pipeline w)) w
  | OpLimits l => {| rw_pipeline := rw_pipeline w; rw_limits := l; rw_wallets := rw_wallets w; rw_ips := rw_ips w |}
  end.

Definition unmarked w : Prop := rw_ips w = ∅ /\ rw_wallets w = ∅.

Lemma piped_unmarked {A} (m : M (World (V := StellarService)) AppError A) : stable unmarked (piped m).
Proof. intros w Hw. unfold piped, zoom. by destruct (m (rw_pipeline w)). Qed.

Lemma reads_unmarked {A} (m : Route A) : only_reads m -> stable unmarked m.
Proof. intros Hm w [Hi Hw]. destruct (Hm w) as (_ & _ & _ & _ & Ew & Ei). split; congruence. Qed.

Lemma exec_unmarked w o : unmarked w -> unmarked (route_exec w o).
Proof.
  intros Hw. destruct o as [body ip|body|f|l]; [| |exact Hw|exact Hw].
  - revert w Hw. change (stable unmarked (checked body ip)). unfold record_checked. destruct (negb _); [apply stable_throw|].
    apply stable_bind; [apply reads_unmarked, validation_reads|]. intros _.
    apply stable_bind; [apply piped_unmarked|]. intros []; [apply piped_unmarked|apply stable_throw].
  - simpl. unfold record_tip_unversioned. destruct (negb _); [exact Hw|].
    revert w Hw. apply stable_bind; [apply piped_unmarked|intros; apply stable_ret].
Qed.

(** A count of a column that is NULL refuses nothing. *)
Lemma null_column_counts (c : RouteWorld -> gmap string string) v limit text w :
  (forall w', same w w' -> c w' = ∅) -> 0 < limit ->
  exists w', same w w' /\
    ((count ← reads (fun w => recent_with (c w) v 60 (rw_pipeline w));
      if limit <=? count then throw (rate_limited_with_retry text 60) else mret tt) w = (Ok tt, w') \/
     (count ← reads (fun w => recent_with (c w) v 60 (rw_pipeline w));
      if limit <=? count then throw (rate_limited_with_retry text 60) else mret tt) w = (Err (app_error_from_sqlx SqlxOther), w')).
Proof.
  intros Hc Hl. destruct (reads_cases (fun w => recent_with (c w) v 60 (rw_pipeline w)) w) as (w' & Hs & E).
  exists w'. split; [done|]. unfold mbind, M_bind. destruct E as [-> | ->]; [left|by right].
  replace (recent_with (c w') v 60 (rw_pipeline w')) with 0; [by rewrite (proj2 (Z.leb_gt _ _) Hl)|].
  unfold recent_with. rewrite (Hc w' Hs). clear. induction (w_tips (rw_pipeline w')) as [|t ts IH]; [done|]. simpl.
  rewrite bool_decide_eq_false_2 by (by rewrite lookup_empty). exact IH.
Qed.

(** The columns the limit counts by are written by nothing: from a database where
    they are NULL, no history of requests makes a positive limit refuse a tip. *)
Theorem tip_rate_unlimited ops w rules req ip l :
  unmarked w -> 0 < limit_in_force rules l ->
  let '(r, _) := check_rates rules req ip l (fold_left route_exec ops w) in
  r = Ok tt \/ r = Err (app_error_from_sqlx SqlxOther).
Proof.
  intros Hw Hl. assert (unmarked (fold_left route_exec ops w)) as Hun.
  { revert w Hw. induction ops as [|o ops IH]; intros w Hw; [done|]. simpl. by apply IH, exec_unmarked. }
  generalize dependent (fold_left route_exec ops w). clear w Hw. intros w [Hi Hwl].
  assert (forall v, rw_wallets v = ∅ -> forall w', same v w' -> rw_wallets w' = ∅) as Kw
    by (intros v Hv w' (_ & _ & _ & _ & E & _); congruence).
  assert (forall w', same w w' -> rw_ips w' = ∅) as Ki by (intros w' (_ & _ & _ & _ & _ & E); congruence).
  unfold check_rate_limits. fold (limit_in_force rules l). unfold mbind at 1, M_bind at 1.
  destruct ip as [i|].
  - destruct (null_column_counts rw_ips (show_ip i) (limit_in_force rules l) "Too many tips from this IP address. Please slow down." w Ki Hl)
      as (w1 & Hs & [-> | ->]); [|by right].
    destruct (rq_tipper_wallet req) as [a|]; [|by left].
    destruct (null_column_counts rw_wallets a (limit_in_force rules l) "Too many tips from this wallet. Please slow down." w1
                (Kw w1 (Kw w Hwl w1 Hs)) Hl) as (w2 & _ & [-> | ->]); [by left|by right].
  - unfold mret at 1, M_ret at 1. cbn beta iota. destruct (rq_tipper_wallet req) as [a|]; [|by left].
    destruct (null_column_counts rw_wallets a (limit_in_force rules l) "Too many tips from this wallet. Please slow down." w
                (Kw w Hwl) Hl) as (w2 & _ & [-> | ->]); [by left|by right].
Qed.
End validation.

(** ** Requests *)

Definition no_env : environment := fun _ => None.

(** A tip is worth one, but for the text that floats call NaN. *)
Definition toy_f64 (s : string) : option f64 := if String.eqb s "NaN" then Some S754_nan else Some (f64_of_Z 1).

Definition start : RouteWorld :=
  {| rw_pipeline := {| w_verifier := stellar_new no_env 0; w_tips := []; w_creators := {[ "alice" := "GALICE" ]}; w_logs := [];
                       w_queue := []; w_queue_open := true; w_redis := false; w_cache := ∅; w_webhooks := []; w_broadcasts := [];
                       w_moderated := []; w_now := 1000; w_uuids := O; w_faults := [] |};
     rw_limits := {[ "alice" := {| min_tip_amount := Some "1"; max_tip_amount := None; max_tips_per_minute := Some 2 |} ]};
     rw_wallets := ∅; rw_ips := ∅ |}.

(** The [n]-th hash, and a tip by it. *)
Definition hash_of (n : nat) : string := string_of_list_ascii (repeat "0"%char 62) +:+ print_Z (10 + Z.of_nat n).
Definition tip_of (amount : string) (n : nat) : RecordTipRequest :=
  {| rq_username := "alice"; rq_amount := amount; rq_tipper_wallet := Some (a_wallet "B"); rq_transaction_hash := hash_of n;
     rq_message := None; rq_memo := None; rq_message_visibility := "public"; rq_tipper_source_account := a_wallet "B" |}.

Abbreviation posted := (record_checked (D := Z) no_env (10 ^ 26) (10 ^ 32) (fun _ _ => Reply 200 None (Some demo_tx)) demo_uuid
  (fun _ => true) (fun _ => false) toy_f64 (fun ip : string => ip) []).
Abbreviation posted_unversioned := (record_tip_unversioned demo_uuid (fun _ => true) (fun _ => false) toy_f64 []).

(** Five tips in a second from one address and one wallet, where two a minute are allowed. *)
Example limit_is_not_kept :
  let '(rs, w) := fold_left (fun '(rs, w) n => let '(r, w') := posted (tip_of "5" n) (Some "10.0.0.1") w in (rs ++ [is_ok r], w')) (seq 0 5) ([], start) in
  rs = [true; true; true; true; true] /\ length (w_tips (rw_pipeline w)) = 5%nat.
Proof. vm_compute. split; reflexivity. Qed.

(** The minimum of the creator holds on the versioned routes, and on the other not. *)
Example unversioned_route_has_no_limits :
  fst (posted (tip_of "0.5" 0) None start) = Err (Conflict "AMOUNT_TOO_LOW" "Minimum tip amount is 1.0000000 XLM") /\
  is_ok (fst (posted_unversioned (tip_of "0.5" 0) start)) = true.
Proof. vm_compute. split; reflexivity. Qed.

(** An amount that is a float and no amount: the tip is stored, answered 400, and
    no job ever settles it. *)
Example nan_is_an_amount :
  let '(r, w) := posted_unversioned (tip_of "NaN" 0) start in
  is_ok r = false /\ map tip_amount (w_tips (rw_pipeline w)) = ["NaN"] /\ w_queue (rw_pipeline w) = [] /\
  fst (run_once (rw_pipeline w)) = Ok 0.
Proof. vm_compute. repeat split. Qed.

Lemma validation_decides_witness :
  validate_with_client (D := Z) (fun ip : string => ip) (rules_default no_env (10 ^ 26) (10 ^ 32)) (tip_of "5" 0) None start =
  (Ok tt, start).
Proof.
  etransitivity; [apply (validation_decides (fun ip : string => ip) (rules_default no_env (10 ^ 26) (10 ^ 32)) (tip_of "5" 0) None start); reflexivity|].
  vm_compute. reflexivity.
Defined.

Lemma tip_limits_enforced_witness :
  exists t l v, added (tip_of "5" 0) start (snd (posted (tip_of "5" 0) None start)) t /\
    limits_of start (tip_creator t) = Some l /\ parse_units (tip_amount t) = Some v /\
    fst (bounds (rules_default no_env (10 ^ 26) (10 ^ 32)) l) <= v <= snd (bounds (rules_default no_env (10 ^ 26) (10 ^ 32)) l).
Proof.
  destruct (tip_limits_enforced no_env (10 ^ 26) (10 ^ 32) (fun _ _ => Reply 200 None (Some demo_tx)) demo_uuid (fun _ => true)
              (fun _ => false) toy_f64 (fun ip : string => ip) [] (tip_of "5" 0) None start)
    as [K|(t & Ha & _ & _ & (l & v & Hl & Hd & Hb) & _)]; [exfalso; vm_compute in K; discriminate|].
  exists t, l, v. split; [exact Ha|]. split; [exact Hl|]. split; [exact Hd|exact Hb].
Defined.
