(* ===== verification/Notices.v ===== *)
(** * Notifications

    src/src/controllers/notification_controller.rs, src/src/models/notification.rs
    and the handlers of src/src/routes/notifications.rs; the tables are those of
    migration 0021.  The tables of notifications are a part of the tables of the
    components that notify: the operations are written once, for any store with
    such a part. *)

From S2P Require Import Prelude Text Errors Sql.

(** ** A part of a store *)

Class Part (S T : Type) : Type := {
  part : T -> S;
  with_part : S -> T -> T
}.

Class PartLaws (S T : Type) `{Part S T} : Prop := {
  part_with : forall s t, part (with_part s t) = s;
  with_part_id : forall t, with_part (part t) t = t
}.

(** A statement on the part. *)
Definition within {S T A} `{Part S T} (q : statement S A) : statement T A :=
  fun now t => match q now (part t) with Ok (a, s) => Ok (a, with_part s t) | Err e => Err e end.

(** ** models/notification.rs *)

(** src/src/models/notification.rs:6-11 NotificationPreferences *)
Record NotificationPreferences : Type := {
  np_creator_username : string;
  np_notify_on_tip : bool;
  np_notify_on_milestone : bool;
  np_updated_at : Z
}.

(** src/src/models/notification.rs:14-17 UpdatePreferencesRequest *)
Record UpdatePreferencesRequest : Type := {
  up_notify_on_tip : option bool;
  up_notify_on_milestone : option bool
}.

(** src/src/models/notification.rs:20-29 Notification *)
Record Notification : Type := {
  no_id : string;
  no_creator_username : string;
  no_notification_type : string;
  no_payload : json;
  no_read : bool;
  no_created_at : Z
}.

(** The tables; of the creators the usernames.  New rows come first. *)
Record NoticeTables : Type := {
  nt_creators : list string;
  nt_preferences : list NotificationPreferences;
  nt_notifications : list Notification
}.

Definition with_preferences (l : list NotificationPreferences) (t : NoticeTables) : NoticeTables :=
  {| nt_creators := nt_creators t; nt_preferences := l; nt_notifications := nt_notifications t |}.

Definition with_notifications (l : list Notification) (t : NoticeTables) : NoticeTables :=
  {| nt_creators := nt_creators t; nt_preferences := nt_preferences t; nt_notifications := l |}.

Definition is_creator (u : string) (t : NoticeTables) : bool := existsb (String.eqb u) (nt_creators t).

Definition find_preferences (u : string) (t : NoticeTables) : option NotificationPreferences :=
  find (fun p => String.eqb (np_creator_username p) u) (nt_preferences t).

(** The creator leaves: its rows go with it. *)
Definition drop_creator (u : string) (t : NoticeTables) : NoticeTables :=
  {| nt_creators := delete_where (String.eqb u) (nt_creators t);
     nt_preferences := delete_where (fun p => String.eqb (np_creator_username p) u) (nt_preferences t);
     nt_notifications := delete_where (fun n => String.eqb (no_creator_username n) u) (nt_notifications t) |}.

(** ** controllers/notification_controller.rs: the statements *)

(** [INSERT .. ON CONFLICT (creator_username) DO UPDATE SET ..]: a row of the
    creator is changed; without one the new row is kept, when there is such a
    creator. *)
Definition upsert_preferences (username : string) (fresh_row : Z -> NotificationPreferences)
    (change : Z -> NotificationPreferences -> NotificationPreferences) : statement NoticeTables NotificationPreferences :=
  fun now t =>
    match find_preferences username t with
    | Some p =>
        Ok (change now p, with_preferences
              (update_where (fun q => String.eqb (np_creator_username q) username) (change now) (nt_preferences t)) t)
    | None =>
        if is_creator username t then Ok (fresh_row now, with_preferences (fresh_row now :: nt_preferences t) t)
        else Err (foreign_key_violation "notification_preferences_creator_username_fkey")
    end.

(** src/src/controllers/notification_controller.rs:12-17 the statement of get_preferences *)
Definition default_preferences (username : string) : statement NoticeTables NotificationPreferences :=
  upsert_preferences username
    (fun now => {| np_creator_username := username; np_notify_on_tip := true; np_notify_on_milestone := true;
                   np_updated_at := now |})
    (fun _ p => p).

(** [COALESCE($n, ..)] *)
Definition merged_row (req : UpdatePreferencesRequest) (now : Z) (p : NotificationPreferences) : NotificationPreferences :=
  {| np_creator_username := np_creator_username p;
     np_notify_on_tip := default (np_notify_on_tip p) (up_notify_on_tip req);
     np_notify_on_milestone := default (np_notify_on_milestone p) (up_notify_on_milestone req);
     np_updated_at := now |}.

(** src/src/controllers/notification_controller.rs:31-39 the statement of update_preferences *)
Definition merge_preferences (username : string) (req : UpdatePreferencesRequest)
    : statement NoticeTables NotificationPreferences :=
  upsert_preferences username
    (fun now => {| np_creator_username := username; np_notify_on_tip := default true (up_notify_on_tip req);
                   np_notify_on_milestone := default true (up_notify_on_milestone req); np_updated_at := now |})
    (merged_row req).

(** src/src/controllers/notification_controller.rs:57-61 the statement of create_notification *)
Definition insert_notification (i username notification_type : string) (payload : json)
    : statement NoticeTables Notification :=
  fun now t =>
    let n := {| no_id := i; no_creator_username := username; no_notification_type := notification_type;
                no_payload := payload; no_read := false; no_created_at := now |} in
    if existsb (fun x => String.eqb (no_id x) i) (nt_notifications t) then Err (unique_violation "notifications_pkey")
    else if is_creator username t then Ok (n, with_notifications (n :: nt_notifications t) t)
    else Err (foreign_key_violation "notifications_creator_username_fkey").

(** src/src/controllers/notification_controller.rs:77-95 the rows of list_notifications *)
Definition newest (username : string) (unread_only : bool) (t : NoticeTables) : list Notification :=
  take 100 (sort_by (fun x y => no_created_at y <=? no_created_at x)
    (List.filter (fun n => String.eqb (no_creator_username n) username && (negb unread_only || negb (no_read n)))
       (nt_notifications t))).

Definition read_row (n : Notification) : Notification :=
  {| no_id := no_id n; no_creator_username := no_creator_username n; no_notification_type := no_notification_type n;
     no_payload := no_payload n; no_read := true; no_created_at := no_created_at n |}.

(** [UPDATE notifications SET read = TRUE WHERE ..] *)
Definition mark (p : Notification -> bool) : statement NoticeTables unit :=
  fun _ t => Ok (tt, with_notifications (update_where p read_row (nt_notifications t)) t).

(** ** controllers/notification_controller.rs *)

Section operations.
Context {T : Type} `{Part NoticeTables T}.
Variable uuid : nat -> string.

Definition Notice (A : Type) : Type := M (Db T) AppError A.

(** [?] on a query *)
Definition asked {A} (q : statement NoticeTables A) : Notice A := map_err app_error_from_sqlx (sql (within q)).

(** src/src/controllers/notification_controller.rs:10-23 get_preferences *)
Definition get_preferences (username : string) : Notice NotificationPreferences :=
  asked (default_preferences username).

(** src/src/controllers/notification_controller.rs:25-47 update_preferences *)
Definition update_preferences (username : string) (req : UpdatePreferencesRequest) : Notice NotificationPreferences :=
  asked (merge_preferences username req).

(** src/src/controllers/notification_controller.rs:50-70 create_notification *)
Definition create_notification (username notification_type : string) (payload : json) : Notice Notification :=
  i ← fresh uuid;
  asked (insert_notification i username notification_type payload).

(** src/src/controllers/notification_controller.rs:72-97 list_notifications *)
Definition list_notifications (username : string) (unread_only : bool) : Notice (list Notification) :=
  asked (fun _ t => Ok (newest username unread_only t, t)).

(** src/src/controllers/notification_controller.rs:99-106 mark_read *)
Definition mark_read (username notification_id : string) : Notice unit :=
  asked (mark (fun n => String.eqb (no_id n) notification_id && String.eqb (no_creator_username n) username)).

(** src/src/controllers/notification_controller.rs:108-114 mark_all_read *)
Definition mark_all_read (username : string) : Notice unit :=
  asked (mark (fun n => String.eqb (no_creator_username n) username)).

(** ** routes/notifications.rs *)

(** src/src/routes/notifications.rs:40-46 get_preferences *)
Definition get_preferences_route (username : string) : Notice (Z * NotificationPreferences) :=
  prefs ← get_preferences username; mret (200, prefs).

(** src/src/routes/notifications.rs:48-55 update_preferences *)
Definition update_preferences_route (username : string) (body : UpdatePreferencesRequest)
    : Notice (Z * NotificationPreferences) :=
  prefs ← update_preferences username body; mret (200, prefs).

(** src/src/routes/notifications.rs:57-65 list_notifications *)
Definition list_notifications_route (username : string) (unread_only : bool) : Notice (Z * list Notification) :=
  l ← list_notifications username unread_only; mret (200, l).

(** src/src/routes/notifications.rs:67-73 mark_read *)
Definition mark_read_route (username i : string) : Notice Z := mark_read username i;; mret 204.

(** src/src/routes/notifications.rs:75-81 mark_all_read *)
Definition mark_all_read_route (username : string) : Notice Z := mark_all_read username;; mret 204.

Inductive notice_op : Type :=
| GetPreferences (username : string)
| UpdatePreferences (username : string) (body : UpdatePreferencesRequest)
| ListNotifications (username : string) (unread_only : bool)
| MarkRead (username i : string)
| MarkAllRead (username : string).

(** What a request of these routes does to the store. *)
Definition notice_exec (o : notice_op) (w : Db T) : Db T :=
  match o with
  | GetPreferences u => snd (get_preferences_route u w)
  | UpdatePreferences u body => snd (update_preferences_route u body w)
  | ListNotifications u b => snd (list_notifications_route u b w)
  | MarkRead u i => snd (mark_read_route u i w)
  | MarkAllRead u => snd (mark_all_read_route u w)
  end.
End operations.

(** ** What the tables keep *)

Record NoticesSound (t : NoticeTables) : Prop := {
  ns_preferences : NoDup (np_creator_username <$> nt_preferences t);
  ns_known : forall p, p ∈ nt_preferences t -> np_creator_username p ∈ nt_creators t;
  ns_notified : forall n, n ∈ nt_notifications t -> no_creator_username n ∈ nt_creators t;
  ns_ids : NoDup (no_id <$> nt_notifications t)
}.

Lemma is_creator_spec u t : is_creator u t = true <-> u ∈ nt_creators t.
Proof.
  unfold is_creator. rewrite existsb_exists, list_elem_of_In. split.
  - intros (x & Hx & He). apply String.eqb_eq in He. congruence.
  - intros Hu. exists u. by rewrite String.eqb_refl.
Qed.

(** A statement of the notifications keeps its tables sound and the creators. *)
Definition sound_statement {A} (q : statement NoticeTables A) : Prop :=
  forall now t a t', NoticesSound t -> q now t = Ok (a, t') -> NoticesSound t' /\ nt_creators t' = nt_creators t.

Lemma upsert_sound u fresh_row change :
  (forall now, np_creator_username (fresh_row now) = u) ->
  (forall now p, np_creator_username (change now p) = np_creator_username p) ->
  sound_statement (upsert_preferences u fresh_row change).
Proof.
  intros Hf Hc now t a t' [Hp Hk Hn Hi]. unfold upsert_preferences, find_preferences.
  destruct (find _ _) as [p|] eqn:Hfind; [|destruct (is_creator u t) eqn:Hu; [|done]];
    intros [= <- <-]; (split; [|done]); split; simpl; try done.
  - by rewrite update_where_fmap.
  - intros q [[Hq _] | (r & Hr & _ & ->)]%elem_of_update_where; [by apply Hk | rewrite Hc; by apply Hk].
  - rewrite Hf. apply NoDup_cons. split; [|done]. intros (q & Hq & Hin)%list_elem_of_fmap.
    apply list_elem_of_In in Hin. apply find_none with (x := q) in Hfind; [|done].
    by rewrite <- Hq, String.eqb_refl in Hfind.
  - intros q [-> | Hq]%elem_of_cons; [rewrite Hf; by apply is_creator_spec | by apply Hk].
Qed.

Lemma insert_notification_sound i u ty payload : sound_statement (insert_notification i u ty payload).
Proof.
  intros now t a t' [Hp Hk Hn Hi]. unfold insert_notification.
  destruct (existsb _ _) eqn:He; [done|]. destruct (is_creator u t) eqn:Hu; [|done]. intros [= <- <-].
  split; [|done]. rewrite existsb_false_iff in He. split; simpl; try done.
  - intros n [-> | Hin]%elem_of_cons; [by apply is_creator_spec | by apply Hn].
  - apply NoDup_cons. split; [|done]. intros (n & -> & Hin)%list_elem_of_fmap. apply He in Hin.
    by rewrite String.eqb_refl in Hin.
Qed.

Lemma mark_sound p : sound_statement (mark p).
Proof.
  intros now t a t' [Hp Hk Hn Hi] [= <- <-]. split; [|done]. split; simpl; try done.
  - intros n [[Hin _] | (m & Hin & _ & ->)]%elem_of_update_where; by apply Hn in Hin.
  - by rewrite update_where_fmap.
Qed.

Lemma drop_creator_sound u t : NoticesSound t -> NoticesSound (drop_creator u t).
Proof.
  intros [Hp Hk Hn Hi]. split; simpl.
  - eapply sublist_NoDup; [exact Hp | apply fmap_sublist, delete_where_sublist].
  - intros p [Hin Hne]%elem_of_delete_where. apply elem_of_delete_where. split; [by apply Hk|].
    by rewrite String.eqb_sym.
  - intros n [Hin Hne]%elem_of_delete_where. apply elem_of_delete_where. split; [by apply Hn|].
    by rewrite String.eqb_sym.
  - eapply sublist_NoDup; [exact Hi | apply fmap_sublist, delete_where_sublist].
Qed.

(** A store with the part keeps what a change of the part that keeps it sound keeps. *)
Section kept.
Context {T : Type} `{PartLaws NoticeTables T}.
Variable J : T -> Prop.
Hypothesis J_sound : forall t, J t -> NoticesSound (part t).
Hypothesis J_part : forall t s, J t -> NoticesSound s -> nt_creators s = nt_creators (part t) -> J (with_part s t).

Lemma kept_asked {A} (q : statement NoticeTables A) : sound_statement q -> kept J (asked q).
Proof.
  intros Hq. apply stable_map_err, kept_sql. intros now t a t' Ht. unfold within.
  destruct (q now (part t)) as [[b s] | e] eqn:He; [|done]. intros [= <- <-].
  apply Hq in He as [Hs Hc]; [|by apply J_sound]. by apply J_part.
Qed.

Lemma kept_create_notification uuid u ty payload : kept J (create_notification uuid u ty payload).
Proof. apply stable_bind; [apply kept_fresh|]. intros i. apply kept_asked, insert_notification_sound. Qed.

Lemma notice_exec_kept o w : J (db_tables w) -> J (db_tables (notice_exec o w)).
Proof.
  revert w. destruct o as [u | u body | u b | u i | u]; refine (stable_bind (fun w => J (db_tables w)) _ _ _ _);
    try (intros; apply stable_ret); apply kept_asked; try apply upsert_sound; try apply mark_sound; try done.
  by intros now t a t' Ht [= <- <-].
Qed.
End kept.

(** ** Preferences and reading *)

Lemma asked_calm {T A} `{PartLaws NoticeTables T} (q : statement NoticeTables A) (w : Db T) a s :
  db_faults w = [] -> q (db_now w) (part (db_tables w)) = Ok (a, s) ->
  asked q w = (Ok a, with_tables (with_part s (db_tables w)) w).
Proof.
  intros Hw Hq. unfold asked, map_err. rewrite sql_calm by done. unfold run_statement, within. by rewrite Hq.
Qed.

Lemma find_preferences_update u f t p :
  find_preferences u t = Some p -> (forall q, np_creator_username (f q) = np_creator_username q) ->
  find (fun q => String.eqb (np_creator_username q) u)
    (update_where (fun q => String.eqb (np_creator_username q) u) f (nt_preferences t)) = Some (f p).
Proof.
  intros Hp Hf. unfold find_preferences in Hp. induction (nt_preferences t) as [|q l IH]; [done|]. simpl in *.
  destruct (String.eqb (np_creator_username q) u) eqn:He.
  - injection Hp as ->. by rewrite Hf, He.
  - rewrite He. by apply IH.
Qed.

(** Preferences are merged: without faults, what a creator reads after an
    update is what the update sets, and for the rest what it read before, which
    is true to begin with; the first reading makes the row. *)
Theorem preferences_merged {T} `{PartLaws NoticeTables T} (w : Db T) u body p w1 :
  db_faults w = [] -> get_preferences u w = (Ok p, w1) ->
  exists q w2, update_preferences u body w1 = (Ok q, w2) /\ get_preferences u w2 = (Ok q, w2) /\
    np_notify_on_tip q = default (np_notify_on_tip p) (up_notify_on_tip body) /\
    np_notify_on_milestone q = default (np_notify_on_milestone p) (up_notify_on_milestone body) /\
    (find_preferences u (part (db_tables w)) = None -> np_notify_on_tip p = true /\ np_notify_on_milestone p = true).
Proof.
  intros Hw. unfold get_preferences, update_preferences.
  assert (forall v x, db_faults v = [] -> find_preferences u (part (db_tables v)) = Some x ->
    asked (default_preferences u) v = (Ok x, v)) as Hread.
  { intros v x Hv Hx. erewrite asked_calm; [|done|]. 2: { unfold default_preferences, upsert_preferences. by rewrite Hx. }
    f_equal. destruct v as [t]; simpl in *. unfold with_tables. simpl. f_equal.
    replace (update_where _ (fun p => p) _) with (nt_preferences (part t)).
    - transitivity (with_part (part t) t); [by destruct (part t) | apply with_part_id].
    - unfold update_where. symmetry. erewrite map_ext; [apply map_id|]. intros r. by destruct (String.eqb _ _). }
  assert (forall v x, db_faults v = [] -> find_preferences u (part (db_tables v)) = Some x ->
    exists q w2, asked (merge_preferences u body) v = (Ok q, w2) /\ asked (default_preferences u) w2 = (Ok q, w2) /\
      np_notify_on_tip q = default (np_notify_on_tip x) (up_notify_on_tip body) /\
      np_notify_on_milestone q = default (np_notify_on_milestone x) (up_notify_on_milestone body)) as Hmerge.
  { intros v x Hv Hx. do 2 eexists. split.
    { apply asked_calm; [done|]. unfold merge_preferences, upsert_preferences. by rewrite Hx. }
    split; [|done]. apply Hread; [done|]. simpl. rewrite part_with. unfold find_preferences at 1. simpl.
    by apply (find_preferences_update u (merged_row body (db_now v))). }
  destruct (find_preferences u (part (db_tables w))) as [x|] eqn:Hx.
  - rewrite (Hread w x) by done. intros [= -> <-]. destruct (Hmerge w p Hw Hx) as (q & w2 & ? & ? & ? & ?).
    exists q, w2. by repeat split.
  - destruct (is_creator u (part (db_tables w))) eqn:Hu.
    2: { unfold asked, map_err. rewrite sql_calm by done. unfold run_statement, within, default_preferences, upsert_preferences.
         by rewrite Hx, Hu. }
    erewrite asked_calm; [|done|]. 2: { unfold default_preferences, upsert_preferences. by rewrite Hx, Hu. }
    intros [= <- <-]. edestruct Hmerge as (q & w2 & ? & ? & ? & ?).
    3: { exists q, w2. repeat split; eassumption. }
    + done.
    + simpl. rewrite part_with. unfold find_preferences. simpl. by rewrite String.eqb_refl.
Qed.

(** After all were marked read a creator has nothing unread until it is
    notified again. *)
Theorem all_read {T} `{PartLaws NoticeTables T} (w w1 w2 : Db T) u l :
  mark_all_read u w = (Ok tt, w1) -> list_notifications u true w1 = (Ok l, w2) -> l = [].
Proof.
  unfold mark_all_read, list_notifications, asked, map_err.
  destruct (sql _ w) as [[[] | e] v] eqn:Hm; [|done]. intros [= <-].
  destruct (sql _ v) as [[x | e] v2] eqn:Hl; [|done]. intros [= <- <-].
  apply sql_ok in Hm as [Hm _]. apply sql_ok in Hl as [Hl _]. unfold within, mark in *.
  injection Hm as Hm. injection Hl as <- _. rewrite <- Hm, part_with. unfold newest. simpl.
  rewrite list_filter_none; [done|]. intros n [[Hn Hu] | (r & Hr & Hu & ->)]%elem_of_update_where.
  - by rewrite Hu.
  - simpl. by rewrite andb_false_r.
Qed.
