(* ===== verification/Comments.v ===== *)
(** * Comments on tips

    src/src/controllers/comment_controller.rs, src/src/models/comment.rs and the
    handlers of src/src/routes/comments.rs.  A comment is checked by the
    moderation service (file Moderation), kept, and the creator of the tip is
    notified (file Notices).  Replies refer to their parents; the constraints
    ON DELETE CASCADE of the migrations take the replies with a comment, the
    comments with a tip, and the tips with a creator. *)

From stdpp Require Import relations.
From S2P Require Import Prelude Text Codec Errors Sql Moderation Creators Notices.

(** ** models/comment.rs *)

(** src/src/models/comment.rs:7-16 Comment *)
Record Comment : Type := {
  cm_id : string;
  cm_tip_id : string;
  cm_parent_id : option string;
  cm_author : string;
  cm_body : string;
  cm_is_flagged : bool;
  cm_created_at : Z;
  cm_updated_at : Z
}.

(** src/src/models/comment.rs:19-30 CreateCommentRequest *)
Record CreateCommentRequest : Type := {
  ccr_author : string;
  ccr_body : string;
  ccr_parent_id : option string
}.

(** src/src/models/comment.rs:21-26 the rules of CreateCommentRequest *)
Definition valid_comment (r : CreateCommentRequest) : bool :=
  length_within 1 50 (ccr_author r) && length_within 1 1000 (ccr_body r).

(** src/src/models/comment.rs:33-41 CommentResponse *)
Record CommentResponse : Type := {
  crs_id : string;
  crs_tip_id : string;
  crs_parent_id : option string;
  crs_author : string;
  crs_body : string;
  crs_is_flagged : bool;
  crs_created_at : Z
}.

(** src/src/models/comment.rs:43-55 From<Comment> *)
Definition response_of (c : Comment) : CommentResponse :=
  {| crs_id := cm_id c; crs_tip_id := cm_tip_id c; crs_parent_id := cm_parent_id c; crs_author := cm_author c;
     crs_body := cm_body c; crs_is_flagged := cm_is_flagged c; crs_created_at := cm_created_at c |}.

(** The tables; of the tips the id and the creator.  New comments come first. *)
Record CommentTables : Type := {
  ct_notices : NoticeTables;
  ct_tips : list (string * string);
  ct_comments : list Comment
}.

Definition with_comments (l : list Comment) (t : CommentTables) : CommentTables :=
  {| ct_notices := ct_notices t; ct_tips := ct_tips t; ct_comments := l |}.

#[export] Instance comment_notices : Part NoticeTables CommentTables := {
  part := ct_notices;
  with_part s t := {| ct_notices := s; ct_tips := ct_tips t; ct_comments := ct_comments t |}
}.

#[export] Instance comment_notices_laws : PartLaws NoticeTables CommentTables.
Proof. split; [done | by intros []]. Qed.

(** ** The cascade of a deletion *)

(** The row [i] or one of those it answers meets [p]; the row a comment answers
    is older, hence further down the table. *)
Fixpoint falls (p : Comment -> bool) (l : list Comment) (i : string) : bool :=
  match l with
  | [] => false
  | c :: l' =>
      if String.eqb (cm_id c) i then
        p c || match cm_parent_id c with Some q => falls p l' q | None => false end
      else falls p l' i
  end.

(** The rows that meet [p] go, and with them the replies to rows that go. *)
Definition drop_comments (p : Comment -> bool) (l : list Comment) : list Comment :=
  delete_where (fun c => falls p l (cm_id c)) l.

Definition drop_tips (p : string * string -> bool) (t : CommentTables) : CommentTables :=
  let gone i := existsb (fun x => String.eqb (fst x) i && p x) (ct_tips t) in
  {| ct_notices := ct_notices t; ct_tips := delete_where p (ct_tips t);
     ct_comments := drop_comments (fun c => gone (cm_tip_id c)) (ct_comments t) |}.

(** ** controllers/comment_controller.rs: the statements *)

Definition has_tip (i : string) (t : CommentTables) : bool := existsb (fun x => String.eqb (fst x) i) (ct_tips t).

Definition has_comment (i : string) (l : list Comment) : bool := existsb (fun c => String.eqb (cm_id c) i) l.

(** src/src/controllers/comment_controller.rs:14-18 the statement of create_comment *)
Definition insert_comment (i tip_id : string) (req : CreateCommentRequest) : statement CommentTables Comment :=
  fun now t =>
    let c := {| cm_id := i; cm_tip_id := tip_id; cm_parent_id := ccr_parent_id req; cm_author := ccr_author req;
                cm_body := ccr_body req; cm_is_flagged := false; cm_created_at := now; cm_updated_at := now |} in
    if negb (length_within 1 1000 (ccr_body req)) then Err (Sql.check_violation "comments_body_check")
    else if has_comment i (ct_comments t) then Err (unique_violation "comments_pkey")
    else if negb (has_tip tip_id t) then Err (foreign_key_violation "comments_tip_id_fkey")
    else if match ccr_parent_id req with Some q => has_comment q (ct_comments t) | None => true end then
      Ok (c, with_comments (c :: ct_comments t) t)
    else Err (foreign_key_violation "comments_parent_id_fkey").

Definition oldest_first (x y : Comment) : bool := cm_created_at x <=? cm_created_at y.

Definition is_some {A} (o : option A) : bool := match o with Some _ => true | None => false end.

(** src/src/controllers/comment_controller.rs:34-37 the rows of list_comments *)
Definition top_level (tip_id : string) (l : list Comment) : list Comment :=
  sort_by oldest_first
    (List.filter (fun c => String.eqb (cm_tip_id c) tip_id && negb (is_some (cm_parent_id c)) && negb (cm_is_flagged c)) l).

(** src/src/controllers/comment_controller.rs:50-53 the rows of list_replies *)
Definition replies_of (parent_id : string) (l : list Comment) : list Comment :=
  sort_by oldest_first
    (List.filter (fun c => bool_decide (cm_parent_id c = Some parent_id) && negb (cm_is_flagged c)) l).

Definition flag_row (now : Z) (c : Comment) : Comment :=
  {| cm_id := cm_id c; cm_tip_id := cm_tip_id c; cm_parent_id := cm_parent_id c; cm_author := cm_author c;
     cm_body := cm_body c; cm_is_flagged := true; cm_created_at := cm_created_at c; cm_updated_at := now |}.

(** src/src/controllers/comment_controller.rs:75-77 the statement of flag_comment *)
Definition mark_flagged (i : string) : statement CommentTables Comment :=
  fun now t =>
    match find (fun c => String.eqb (cm_id c) i) (ct_comments t) with
    | Some c => Ok (flag_row now c,
                    with_comments (update_where (fun c => String.eqb (cm_id c) i) (flag_row now) (ct_comments t)) t)
    | None => Err SqlxRowNotFound
    end.

(** ** controllers/comment_controller.rs *)

Section operations.
Variable uuid : nat -> string.

Definition Comments : Type -> Type := M (Db CommentTables) AppError.

Definition query {A} (m : Sql CommentTables A) : Comments A := map_err app_error_from_sqlx m.

(** src/src/controllers/comment_controller.rs:8-28 create_comment *)
Definition create_comment (tip_id : string) (req : CreateCommentRequest) : Comments Comment :=
  i ← fresh uuid;
  query (sql (insert_comment i tip_id req)).

(** src/src/controllers/comment_controller.rs:31-44 list_comments *)
Definition list_comments (tip_id : string) : Comments (list Comment) :=
  query (select (fun _ t => top_level tip_id (ct_comments t))).

(** src/src/controllers/comment_controller.rs:47-60 list_replies *)
Definition list_replies (parent_id : string) : Comments (list Comment) :=
  query (select (fun _ t => replies_of parent_id (ct_comments t))).

(** src/src/controllers/comment_controller.rs:63-69 delete_comment *)
Definition delete_comment (comment_id : string) : Comments unit :=
  query (sql (fun _ t => Ok (tt, with_comments (drop_comments (fun c => String.eqb (cm_id c) comment_id) (ct_comments t)) t))).

(** src/src/controllers/comment_controller.rs:72-84 flag_comment *)
Definition flag_comment (comment_id : string) : Comments Comment := query (sql (mark_flagged comment_id)).

(** The creator, its tips and what refers to them.
    src/src/controllers/admin_controller.rs:34-41 delete_creator *)
Definition delete_creator (username : string) : Comments bool :=
  query (sql (fun _ t =>
    let t' := drop_tips (fun x => String.eqb (snd x) username) t in
    Ok (is_creator username (part t), with_part (drop_creator username (part t')) t'))).

(** ** routes/comments.rs *)

Variable is_match : string -> string -> bool.
Variable find_count : string -> string -> Z.
Variable to_lowercase : string -> string.
Variable from_str : string -> option ModerationResponse.
Variable post : nat -> string -> api_reply.
Variable api_key : option string.
(** [ValidatedJson]: the structured refusal of a body. *)
Variable invalid_fields : list (string * json).

(** The store and the moderation service with its tables. *)
Record CommentWorld : Type := {
  cw_db : Db CommentTables;
  cw_mod : ModWorld
}.

Definition put_db (d : Db CommentTables) (w : CommentWorld) : CommentWorld := {| cw_db := d; cw_mod := cw_mod w |}.

Definition put_mod (m : ModWorld) (w : CommentWorld) : CommentWorld := {| cw_db := cw_db w; cw_mod := m |}.

Definition Handler : Type -> Type := M CommentWorld AppError.

Definition stored {A} (m : Comments A) : Handler A := zoom cw_db put_db m.

Definition checked (content : string) : Handler ModerationResult :=
  zoom cw_mod put_mod (fun m =>
    let '(r, m') := check_content uuid is_match find_count to_lowercase from_str post api_key content TipMessage None m in
    (Ok r, m')).

(** src/src/routes/comments.rs:48-49 the creator of a tip *)
Definition creator_of (tip_id : string) : Comments string :=
  query (select_one (fun _ t => snd <$> find (fun x => String.eqb (fst x) tip_id) (ct_tips t))).

(** src/src/routes/comments.rs:59-63 the payload of the notification *)
Definition comment_payload (tip_id : string) (c : Comment) : json :=
  JObj [("tip_id", JStr tip_id); ("comment_id", JStr (cm_id c)); ("author", JStr (cm_author c))].

(** src/src/routes/comments.rs:45-66 the notification of the creator; its errors are dropped *)
Definition notify_creator (tip_id : string) (c : Comment) : Comments unit :=
  row ← attempt (creator_of tip_id);
  match row with
  | Ok username => _ ← attempt (create_notification uuid username "comment_received" (comment_payload tip_id c)); mret tt
  | Err _ => mret tt
  end.

(** src/src/routes/comments.rs:29-69 create_comment *)
Definition create_comment_route (tip_id : string) (body : CreateCommentRequest) : Handler (Z * CommentResponse) :=
  if negb (valid_comment body) then throw (Validation (InvalidFields invalid_fields))
  else
    moderation ← checked (ccr_body body);
    if has_high_confidence_violation moderation (percent 90) then
      throw (bad_request "Comment was rejected by content moderation")
    else
      comment ← stored (create_comment tip_id body);
      stored (notify_creator tip_id comment);;
      mret (201, response_of comment).

(** src/src/routes/comments.rs:71-78 list_comments *)
Definition list_comments_route (tip_id : string) : Handler (Z * list CommentResponse) :=
  comments ← stored (list_comments tip_id); mret (200, map response_of comments).

(** src/src/routes/comments.rs:80-87 list_replies *)
Definition list_replies_route (_tip_id comment_id : string) : Handler (Z * list CommentResponse) :=
  replies ← stored (list_replies comment_id); mret (200, map response_of replies).

(** src/src/routes/comments.rs:89-95 delete_comment *)
Definition delete_comment_route (_tip_id comment_id : string) : Handler Z :=
  stored (delete_comment comment_id);; mret 204.

(** src/src/routes/comments.rs:97-103 flag_comment *)
Definition flag_comment_route (_tip_id comment_id : string) : Handler (Z * CommentResponse) :=
  comment ← stored (flag_comment comment_id); mret (200, response_of comment).

(** ** Histories *)

(** The requests of these routes and of the notifications, the removal of a
    creator, and what the other components do: creators join, tips are kept and
    removed; the clocks move and faults are drawn. *)
Inductive comment_op : Type :=
| Posts (tip_id : string) (body : CreateCommentRequest)
| Lists (tip_id : string)
| ListsReplies (tip_id comment_id : string)
| Removes (tip_id comment_id : string)
| Flags (tip_id comment_id : string)
| OnNotices (o : notice_op)
| Expels (username : string)
| Joins (username : string)
| Tips (tip_id creator : string)
| TipGone (tip_id : string)
| Moves (now utc : Z)
| Draws (l : list fault) (moderation : list fault).

Definition on_tables (f : CommentTables -> CommentTables) (w : CommentWorld) : CommentWorld :=
  put_db (with_tables (f (db_tables (cw_db w))) (cw_db w)) w.

Definition join (u : string) (t : CommentTables) : CommentTables :=
  if is_creator u (part t) then t
  else with_part {| nt_creators := u :: nt_creators (part t); nt_preferences := nt_preferences (part t);
                    nt_notifications := nt_notifications (part t) |} t.

Definition keep_tip (i creator : string) (t : CommentTables) : CommentTables :=
  if has_tip i t || negb (is_creator creator (part t)) then t
  else {| ct_notices := ct_notices t; ct_tips := (i, creator) :: ct_tips t; ct_comments := ct_comments t |}.

Definition comment_exec (o : comment_op) (w : CommentWorld) : CommentWorld :=
  match o with
  | Posts i body => snd (create_comment_route i body w)
  | Lists i => snd (list_comments_route i w)
  | ListsReplies i j => snd (list_replies_route i j w)
  | Removes i j => snd (delete_comment_route i j w)
  | Flags i j => snd (flag_comment_route i j w)
  | OnNotices o => put_db (notice_exec o (cw_db w)) w
  | Expels u => snd (stored (delete_creator u) w)
  | Joins u => on_tables (join u) w
  | Tips i u => on_tables (keep_tip i u) w
  | TipGone i => on_tables (drop_tips (fun x => String.eqb (fst x) i)) w
  | Moves now utc => put_db (with_clocks now utc (cw_db w)) w
  | Draws l lm => put_mod (with_mod_faults lm (cw_mod w)) (put_db (with_faults l (cw_db w)) w)
  end.

Definition nothing : CommentTables :=
  {| ct_notices := {| nt_creators := []; nt_preferences := []; nt_notifications := [] |}; ct_tips := []; ct_comments := [] |}.

Definition start : CommentWorld :=
  {| cw_db := {| db_tables := nothing; db_now := 0; db_utc := 0; db_uuids := 0; db_faults := [] |};
     cw_mod := {| mw_queue := []; mw_flags := []; mw_history := []; mw_now := 0; mw_uuids := 0; mw_posts := 0;
                  mw_faults := [] |} |}.

Definition after (l : list comment_op) : CommentWorld := fold_left (fun w o => comment_exec o w) l start.
End operations.

(** ** Threads *)

(** The comments of a table with their parents: older, and known. *)
Fixpoint threaded (l : list Comment) : Prop :=
  match l with
  | [] => True
  | c :: l' => has_comment (cm_id c) l' = false /\
               match cm_parent_id c with Some q => has_comment q l' = true | None => True end /\ threaded l'
  end.

(** A comment answers another of the table. *)
Definition answers (l : list Comment) (c d : Comment) : Prop :=
  c ∈ l /\ d ∈ l /\ cm_parent_id c = Some (cm_id d).

Lemma has_comment_spec i l : has_comment i l = true <-> exists c, c ∈ l /\ cm_id c = i.
Proof.
  unfold has_comment. rewrite existsb_exists. split; intros (c & Hc & Hi); exists c;
    (split; [by apply list_elem_of_In | by apply String.eqb_eq]).
Qed.

Lemma has_comment_none i l : has_comment i l = false <-> forall c, c ∈ l -> cm_id c <> i.
Proof.
  unfold has_comment. rewrite existsb_false_iff. split; intros H c Hc.
  - by apply String.eqb_neq, H.
  - by apply String.eqb_neq, H.
Qed.

Lemma answers_cons c l d e : answers l d e -> answers (c :: l) d e.
Proof. intros (? & ? & ?). repeat split; [by right | by right | done]. Qed.

(** In the rest of the table the same rows are answered. *)
Lemma rtc_cons_inv c l d e : threaded (c :: l) -> d ∈ l -> rtc (answers (c :: l)) d e -> e ∈ l /\ rtc (answers l) d e.
Proof.
  intros (Hc & _ & Hl) Hd Hrtc. induction Hrtc as [d | d d' e Hdd' _ IH]; [done|].
  assert (d' ∈ l /\ answers l d d') as [Hd' Ha].
  { destruct Hdd' as (_ & Hd' & Hp). apply elem_of_cons in Hd' as [-> | Hd']; [|done]. exfalso.
    clear IH. induction l as [|x l IHl]; [by apply elem_of_nil in Hd|].
    destruct Hl as (Hx & Hq & Hl). simpl in Hc. apply orb_false_iff in Hc as [Hne Hc].
    apply elem_of_cons in Hd as [-> | Hd]; [|by apply IHl].
    rewrite Hp in Hq. congruence. }
  destruct (IH Hd') as [He Hrest]. split; [done|]. by eapply rtc_l.
Qed.

Lemma rtc_weaken c l d e : rtc (answers l) d e -> rtc (answers (c :: l)) d e.
Proof. apply rtc_subrel. intros x y. apply answers_cons. Qed.

(** What falls are the rows from which a row that meets the condition is
    reached, parent by parent. *)
Lemma falls_spec p l c : threaded l -> c ∈ l ->
  falls p l (cm_id c) = true <-> exists d, rtc (answers l) c d /\ d ∈ l /\ p d = true.
Proof.
  revert c. induction l as [|x l IH]; intros c Ht Hc; [by apply elem_of_nil in Hc|].
  pose proof Ht as (Hx & Hq & Hl). rewrite has_comment_none in Hx. simpl.
  assert (x ∈ x :: l) as Hxl by left.
  apply elem_of_cons in Hc as [-> | Hc].
  - rewrite String.eqb_refl, orb_true_iff. split.
    + intros [Hp | Hf]; [by exists x|]. destruct (cm_parent_id x) as [q|] eqn:Hpx; [|done].
      apply has_comment_spec in Hq as (y & Hy & <-). apply IH in Hf as (d & Hd & Hdl & Hp); [|done..].
      exists d. split; [|split; [by right | done]]. eapply rtc_l; [|by apply rtc_weaken].
      repeat split; [by left | by right | done].
    + intros (d & Hd & Hdl & Hp). apply rtc_inv in Hd as [-> | (y & (_ & Hy & Hpx) & Hyd)]; [by left|]. right.
      rewrite Hpx in *. apply has_comment_spec in Hq as (z & Hz & Hzy).
      apply elem_of_cons in Hy as [-> | Hy]; [by destruct (Hx z Hz)|].
      apply (rtc_cons_inv x l) in Hyd as [Hdl' Hyd]; [|done..]. apply IH; [done..|]. by exists d.
  - destruct (String.eqb (cm_id x) (cm_id c)) eqn:He; [apply String.eqb_eq in He; by destruct (Hx c Hc)|].
    rewrite IH by done. split; intros (d & Hd & Hdl & Hp); exists d.
    + split; [by apply rtc_weaken | split; [by right | done]].
    + apply (rtc_cons_inv x l) in Hd as [Hdl' Hd]; done.
Qed.

(** Every comment answers, in the end, a comment of the top level. *)
Lemma threaded_root l c : threaded l -> c ∈ l -> exists r, rtc (answers l) c r /\ r ∈ l /\ cm_parent_id r = None.
Proof.
  revert c. induction l as [|x l IH]; intros c Ht Hc; [by apply elem_of_nil in Hc|]. destruct Ht as (Hx & Hq & Hl).
  apply elem_of_cons in Hc as [-> | Hc].
  - destruct (cm_parent_id x) as [q|] eqn:Hp; [|exists x; repeat split; [done | by left | done]].
    apply has_comment_spec in Hq as (y & Hy & <-). destruct (IH y Hl Hy) as (r & Hr & Hrl & Hrp).
    exists r. split; [|split; [by right | done]]. eapply rtc_l; [|by apply rtc_weaken].
    repeat split; [by left | by right | done].
  - destruct (IH c Hl Hc) as (r & Hr & Hrl & Hrp). exists r. split; [by apply rtc_weaken | split; [by right | done]].
Qed.

(** ** What a deletion leaves *)

Lemma falls_older p c l i : has_comment (cm_id c) l = false -> has_comment i l = true -> falls p (c :: l) i = falls p l i.
Proof.
  rewrite has_comment_none, has_comment_spec. intros Hc (d & Hd & <-). simpl.
  destruct (String.eqb (cm_id c) (cm_id d)) eqn:He; [|done]. apply String.eqb_eq in He. by destruct (Hc d Hd).
Qed.

Lemma drop_older p c l : has_comment (cm_id c) l = false ->
  drop_comments p (c :: l) = (if falls p (c :: l) (cm_id c) then [] else [c]) ++ drop_comments p l.
Proof.
  intros Hc. unfold drop_comments, delete_where.
  assert (List.filter (fun d => negb (falls p (c :: l) (cm_id d))) l = List.filter (fun d => negb (falls p l (cm_id d))) l) as E.
  { apply List.filter_ext_in. intros d Hd. f_equal. apply falls_older; [done|]. apply has_comment_spec. exists d.
    by rewrite list_elem_of_In. }
  rewrite <- E. cbn [List.filter]. by destruct (falls p (c :: l) (cm_id c)).
Qed.

Lemma elem_of_drop p l c : c ∈ drop_comments p l <-> c ∈ l /\ falls p l (cm_id c) = false.
Proof. unfold drop_comments. by rewrite elem_of_delete_where. Qed.

Lemma threaded_drop p l : threaded l -> threaded (drop_comments p l).
Proof.
  induction l as [|c l IH]; [done|]. intros (Hc & Hq & Hl). rewrite drop_older by done.
  destruct (falls p (c :: l) (cm_id c)) eqn:Hf; simpl; [by apply IH|]. split; [|split; [|by apply IH]].
  - apply has_comment_none. intros d [Hd _]%elem_of_drop. by apply has_comment_none with l.
  - destruct (cm_parent_id c) as [q|] eqn:Hp; [|done]. simpl in Hf. rewrite String.eqb_refl, Hp in Hf.
    apply orb_false_iff in Hf as [_ Hf]. apply has_comment_spec in Hq as (d & Hd & <-).
    apply has_comment_spec. exists d. by rewrite elem_of_drop.
Qed.

Lemma threaded_map f l : (forall c, cm_id (f c) = cm_id c /\ cm_parent_id (f c) = cm_parent_id c) ->
  threaded l -> threaded (map f l).
Proof.
  intros Hf. assert (forall i k, has_comment i (map f k) = has_comment i k) as Hh.
  { intros i k. unfold has_comment. induction k as [|d k IHk]; [done|]. simpl. by rewrite (proj1 (Hf d)), IHk. }
  induction l as [|c l IH]; [done|]. simpl. destruct (Hf c) as [-> ->]. rewrite Hh. intros (? & ? & ?).
  split; [done|]. split; [|by apply IH]. destruct (cm_parent_id c); [by rewrite Hh | done].
Qed.

(** ** What the tables keep *)

Record CommentsSound (t : CommentTables) : Prop := {
  cs_notices : NoticesSound (ct_notices t);
  cs_tips : forall x, x ∈ ct_tips t -> snd x ∈ nt_creators (ct_notices t);
  cs_threads : threaded (ct_comments t);
  cs_known : forall c, c ∈ ct_comments t -> exists u, (cm_tip_id c, u) ∈ ct_tips t
}.

Lemma has_tip_spec i t : has_tip i t = true <-> exists u, (i, u) ∈ ct_tips t.
Proof.
  unfold has_tip. rewrite existsb_exists. split.
  - intros ([j u] & Hx%list_elem_of_In & He). apply String.eqb_eq in He. simpl in He. subst. by exists u.
  - intros (u & Hx%list_elem_of_In). exists (i, u). split; [done | apply String.eqb_refl].
Qed.

(** Fewer comments, closed under answering. *)
Lemma drop_sound p t : CommentsSound t -> CommentsSound (with_comments (drop_comments p (ct_comments t)) t).
Proof.
  intros [Hn Ht Hl Hk]. split; simpl; [done | done | by apply threaded_drop |].
  intros c [Hc _]%elem_of_drop. by apply Hk.
Qed.

Lemma drop_tips_sound p t : CommentsSound t -> CommentsSound (drop_tips p t).
Proof.
  intros [Hn Ht Hl Hk]. split; simpl; [done | | by apply threaded_drop |].
  - intros x [Hx _]%elem_of_delete_where. by apply Ht.
  - intros c [Hc Hf]%elem_of_drop. destruct (Hk c Hc) as (u & Hu). exists u. apply elem_of_delete_where. split; [done|].
    destruct (p (cm_tip_id c, u)) eqn:Hp; [|done]. exfalso. apply not_true_iff_false in Hf. apply Hf.
    apply falls_spec; [done..|]. exists c. split; [done|]. split; [done|]. apply existsb_exists.
    exists (cm_tip_id c, u). simpl. by rewrite String.eqb_refl, Hp, <- list_elem_of_In.
Qed.

Lemma insert_comment_sound i tip_id req now t a t' :
  CommentsSound t -> insert_comment i tip_id req now t = Ok (a, t') -> CommentsSound t'.
Proof.
  intros [Hn Ht Hl Hk]. unfold insert_comment. destruct (negb (length_within _ _ _)); [done|].
  destruct (has_comment i _) eqn:Hi; [done|]. destruct (has_tip tip_id t) eqn:Htip; [|done]. simpl.
  destruct (match ccr_parent_id req with Some q => _ | None => _ end) eqn:Hq; [|done]. intros [= _ <-].
  split; simpl; [done | done | |].
  - split; [done|]. split; [|done]. revert Hq. by destruct (ccr_parent_id req).
  - intros c [-> | Hc]%elem_of_cons; [by apply has_tip_spec | by apply Hk].
Qed.

Lemma mark_flagged_sound i now t a t' : CommentsSound t -> mark_flagged i now t = Ok (a, t') -> CommentsSound t'.
Proof.
  intros [Hn Ht Hl Hk]. unfold mark_flagged. destruct (find _ _) as [r|]; [|done]. intros [= _ <-].
  split; simpl; [done | done | |].
  - apply threaded_map; [|done]. intros d. by destruct (String.eqb _ _).
  - intros c [[Hc _] | (d & Hd & _ & ->)]%elem_of_update_where; [by apply Hk | exact (Hk d Hd)].
Qed.

Lemma delete_creator_sound u t : CommentsSound t ->
  CommentsSound (with_part (drop_creator u (part (drop_tips (fun x => String.eqb (snd x) u) t)))
                   (drop_tips (fun x => String.eqb (snd x) u) t)).
Proof.
  intros Ht. apply (drop_tips_sound (fun x => String.eqb (snd x) u)) in Ht as [Hn Htips Hl Hk].
  split; simpl in *; [by apply drop_creator_sound | | done | done].
  intros x Hx. apply elem_of_delete_where. split; [by apply Htips|].
  apply elem_of_delete_where in Hx as [_ Hx]. by rewrite String.eqb_sym.
Qed.

Lemma comments_part t s :
  CommentsSound t -> NoticesSound s -> nt_creators s = nt_creators (part t) -> CommentsSound (with_part s t).
Proof. intros [Hn Ht Hl Hk] Hs Hc. simpl in Hc. split; simpl; [done | by rewrite Hc | done | done]. Qed.

Lemma join_sound u t : CommentsSound t -> CommentsSound (join u t).
Proof.
  intros [Hn Ht Hl Hk]. unfold join. destruct (is_creator u (part t)) eqn:Hu; [by split|].
  destruct Hn as [N1 N2 N3 N4]. split; [split; simpl; [done | | | done] | | done | done]; simpl.
  - intros p Hp. right. by apply N2.
  - intros n Hn. right. by apply N3.
  - intros x Hx. right. by apply Ht.
Qed.

Lemma keep_tip_sound i u t : CommentsSound t -> CommentsSound (keep_tip i u t).
Proof.
  intros [Hn Ht Hl Hk]. unfold keep_tip. destruct (has_tip i t || _) eqn:Hc; [by split|].
  apply orb_false_iff in Hc as [_ Hu%negb_false_iff%is_creator_spec].
  split; simpl; [done | | done |].
  - intros x [-> | Hx]%elem_of_cons; [done | by apply Ht].
  - intros c Hc. destruct (Hk c Hc) as (v & Hv). exists v. by right.
Qed.

Section histories.
Variable uuid : nat -> string.
Variable is_match : string -> string -> bool.
Variable find_count : string -> string -> Z.
Variable to_lowercase : string -> string.
Variable from_str : string -> option ModerationResponse.
Variable post : nat -> string -> api_reply.
Variable api_key : option string.
Variable invalid_fields : list (string * json).

Abbreviation exec := (comment_exec uuid is_match find_count to_lowercase from_str post api_key invalid_fields).
Abbreviation reached := (after uuid is_match find_count to_lowercase from_str post api_key invalid_fields).
Abbreviation accepts content m := (negb (has_high_confidence_violation
  (fst (check_content uuid is_match find_count to_lowercase from_str post api_key content TipMessage None m)) (percent 90))).

Abbreviation holds m := (stable (fun w => CommentsSound (db_tables (cw_db w))) m).

Lemma kept_statement {A} (q : statement CommentTables A) :
  (forall now t a t', CommentsSound t -> q now t = Ok (a, t') -> CommentsSound t') -> kept CommentsSound (query (sql q)).
Proof. intros Hq. by apply stable_map_err, kept_sql. Qed.

Lemma holds_stored {A} (m : Comments A) : kept CommentsSound m -> holds (stored m).
Proof. intros Hm w Hw. unfold stored, zoom. specialize (Hm (cw_db w) Hw). by destruct (m (cw_db w)). Qed.

Lemma holds_checked content : holds (checked uuid is_match find_count to_lowercase from_str post api_key content).
Proof. intros w Hw. unfold checked, zoom. by destruct (check_content _ _ _ _ _ _ _ content TipMessage None (cw_mod w)). Qed.

Lemma kept_notify tip_id c : kept CommentsSound (notify_creator uuid tip_id c).
Proof.
  apply stable_bind; [apply stable_attempt, stable_map_err, kept_select_one|]. intros [u | e]; [|apply stable_ret].
  apply stable_bind; [|intros; apply stable_ret]. apply stable_attempt, kept_create_notification.
  - intros t Ht. apply Ht.
  - apply comments_part.
Qed.

Lemma comment_exec_sound o w : CommentsSound (db_tables (cw_db w)) -> CommentsSound (db_tables (cw_db (exec o w))).
Proof.
  intros Hw. destruct o as [i body | i | i j | i j | i j | o | u | u | i u | i | now utc | l lm]; simpl.
  - revert w Hw. change (holds (create_comment_route uuid is_match find_count to_lowercase from_str post api_key invalid_fields i body)).
    unfold create_comment_route. destruct (negb _); [apply stable_throw|].
    apply stable_bind; [apply holds_checked|]. intros r. destruct (has_high_confidence_violation _ _); [apply stable_throw|].
    apply stable_bind.
    + apply holds_stored, stable_bind; [apply kept_fresh|]. intros k. apply kept_statement. intros. by eapply insert_comment_sound.
    + intros c. apply stable_bind; [apply holds_stored, kept_notify | intros; apply stable_ret].
  - refine (stable_bind (fun w => CommentsSound (db_tables (cw_db w))) _ _ _ (fun a => stable_ret _ _) w Hw). apply holds_stored, stable_map_err, kept_select.
  - refine (stable_bind (fun w => CommentsSound (db_tables (cw_db w))) _ _ _ (fun a => stable_ret _ _) w Hw). apply holds_stored, stable_map_err, kept_select.
  - refine (stable_bind (fun w => CommentsSound (db_tables (cw_db w))) _ _ _ (fun a => stable_ret _ _) w Hw). apply holds_stored, kept_statement.
    intros now t a t' Ht [= _ <-]. by apply drop_sound.
  - refine (stable_bind (fun w => CommentsSound (db_tables (cw_db w))) _ _ _ (fun a => stable_ret _ _) w Hw). apply holds_stored, kept_statement.
    intros. by eapply mark_flagged_sound.
  - apply (notice_exec_kept CommentsSound); [by intros t Ht; apply Ht | apply comments_part | done].
  - refine (holds_stored _ _ w Hw). apply kept_statement. intros now t a t' Ht [= _ <-]. by apply delete_creator_sound.
  - by apply join_sound.
  - by apply keep_tip_sound.
  - by apply drop_tips_sound.
  - done.
  - done.
Qed.

Lemma reached_sound l : CommentsSound (db_tables (cw_db (reached l))).
Proof.
  unfold after. set (w := start). assert (CommentsSound (db_tables (cw_db w))) as Hw.
  { split; simpl; [split; simpl; try apply NoDup_nil_2; set_solver | set_solver | done | set_solver]. }
  clearbody w. revert w Hw. induction l as [|o l IH]; intros w Hw; [done|]. apply IH. by apply comment_exec_sound.
Qed.

(** C21: In every history of requests one after another to these routes and to
    those of the notifications, of removed creators and tips, and under any
    faults, every comment is one of a kept tip and answers in the end a comment
    of the top level; and a deletion that is then answered removes exactly the
    comment and what answers it, directly or not. *)
Theorem comment_threads ops :
  let w := cw_db (reached ops) in let l := ct_comments (db_tables w) in
  (forall c, c ∈ l -> (exists u, (cm_tip_id c, u) ∈ ct_tips (db_tables w)) /\
     exists r, rtc (answers l) c r /\ r ∈ l /\ cm_parent_id r = None) /\
  (forall i w', delete_comment i w = (Ok tt, w') ->
     forall c, c ∈ ct_comments (db_tables w') <-> c ∈ l /\ ~ exists d, rtc (answers l) c d /\ cm_id d = i).
Proof.
  intros w l. destruct (reached_sound ops) as [Hn Ht Hl Hk]. fold w l in Hl, Hk. split.
  { intros c Hc. split; [by apply Hk | by apply threaded_root]. }
  intros i w' Hdel. unfold delete_comment, query, map_err in Hdel. destruct (sql _ w) as [[[] | e] v] eqn:Hs; [|done].
  injection Hdel as <-. apply sql_ok in Hs as [[= Hs] _]. intros c. rewrite <- Hs. simpl. fold l.
  rewrite elem_of_drop. split; intros [Hc Hf]; (split; [done|]).
  - intros (d & Hd & Hi). apply not_true_iff_false in Hf. apply Hf. apply falls_spec; [done..|]. exists d.
    split; [done|]. split; [|by apply String.eqb_eq]. by apply rtc_inv_r in Hd as [<- | (? & _ & _ & ? & _)].
  - apply not_true_iff_false. intros (d & Hd & _ & Hi)%falls_spec; [|done..]. apply String.eqb_eq in Hi. eauto.
Qed.

(** A call that fails: the statement does, or the network. *)
Lemma sql_error {T A} (q : statement T A) w e w' :
  sql q w = (Err e, w') -> e = SqlxOther \/ q (db_now w) (db_tables w) = Err e /\ db_tables w' = db_tables w.
Proof.
  unfold sql, remote, run_statement, lift. bind_step. simpl.
  destruct (pop_fault (db_faults w)) as [[] l]; simpl; destruct (q (db_now w) (db_tables w)) as [[a t] | e'];
    simpl; intros [=]; subst; auto.
Qed.

(** What a request for a comment asks for. *)
Definition as_asked (tip_id : string) (body : CreateCommentRequest) (c : Comment) : Prop :=
  cm_tip_id c = tip_id /\ cm_parent_id c = ccr_parent_id body /\ cm_author c = ccr_author body /\
  cm_body c = ccr_body body /\ cm_is_flagged c = false.

Lemma insert_comment_row i tip_id req now t c t' :
  insert_comment i tip_id req now t = Ok (c, t') ->
  ct_comments t' = c :: ct_comments t /\ ct_notices t' = ct_notices t /\ ct_tips t' = ct_tips t /\ as_asked tip_id req c.
Proof.
  unfold insert_comment. destruct (negb (length_within _ _ _)); [done|].
  destruct (has_comment i (ct_comments t)); [done|]. destruct (negb (has_tip tip_id t)); [done|].
  destruct (match ccr_parent_id req with Some q => _ | None => _ end); [|done]. by intros [= <- <-].
Qed.

(** The new row of a comment the route was asked for, and no notification. *)
Definition kept_comment (tip_id : string) (body : CreateCommentRequest) (t t' : CommentTables) (c : Comment) : Prop :=
  ct_comments t' = c :: ct_comments t /\ as_asked tip_id body c /\ ct_tips t' = ct_tips t.

Lemma notify_creator_row tip_id c w r w' :
  notify_creator uuid tip_id c w = (r, w') ->
  r = Ok tt /\ ct_comments (db_tables w') = ct_comments (db_tables w) /\ ct_tips (db_tables w') = ct_tips (db_tables w) /\
  (ct_notices (db_tables w') = ct_notices (db_tables w) \/
   exists n, nt_notifications (ct_notices (db_tables w')) = n :: nt_notifications (ct_notices (db_tables w)) /\
     (tip_id, no_creator_username n) ∈ ct_tips (db_tables w) /\ no_notification_type n = "comment_received" /\
     no_payload n = comment_payload tip_id c /\ no_read n = false).
Proof.
  unfold notify_creator, attempt. bind_step. unfold creator_of, query, map_err.
  destruct (select_one _ w) as [r1 w1] eqn:Hs.
  assert (db_tables w1 = db_tables w /\ forall u, r1 = Ok u -> (tip_id, u) ∈ ct_tips (db_tables w)) as [Hw1 Hu].
  { apply sql_outcome in Hs as (_ & _ & _ & Hs). destruct r1 as [u | e].
    - destruct (find _ _) as [[j v]|] eqn:Hf; [|done]. injection Hs as -> Hs. split; [done|]. intros u' [= <-].
      apply find_some in Hf as [Hf%list_elem_of_In Hj%String.eqb_eq]. simpl in *. by subst.
    - split; [|done]. destruct Hs as [Hs | (a & Ha)]; [done|]. destruct (find _ _); [|done]. by injection Ha. }
  destruct r1 as [u | e]; simpl; [|by intros [= <- <-]; rewrite Hw1; auto]. specialize (Hu u eq_refl).
  bind_step. unfold create_notification. bind_step. simpl. unfold asked, map_err.
  destruct (sql _ _) as [r2 w2] eqn:Hq. apply sql_outcome in Hq as (_ & _ & _ & Hq). simpl in Hq. rewrite Hw1 in Hq.
  assert (db_tables w2 = db_tables w \/ exists a, within (insert_notification (uuid (db_uuids w1)) u "comment_received"
    (comment_payload tip_id c)) (db_now w1) (db_tables w) = Ok (a, db_tables w2)) as Ht.
  { destruct r2 as [a | e]; [right; by exists a | done]. }
  intros H. assert (r = Ok tt /\ w' = w2) as [-> ->] by (destruct r2; simpl in H; by injection H as <- <-).
  split; [done|]. destruct Ht as [-> | (a & Ha)]; [auto|]. unfold within, insert_notification in Ha.
  destruct (existsb _ _); [done|]. destruct (is_creator _ _); [|done]. injection Ha as _ <-. simpl.
  split; [done|]. split; [done|]. right. by eexists.
Qed.

(** A request for a comment that is answered has kept the comment as asked,
    which meets the rules and the moderation accepts, and no other; at most one
    notification was made, for the creator of the tip and about this comment.  A
    request that fails notified nobody, and kept the comment at most when the
    reply of its insertion was lost. *)
Theorem comment_kept_once tip_id body w r w' :
  create_comment_route uuid is_match find_count to_lowercase from_str post api_key invalid_fields tip_id body w = (r, w') ->
  let t := db_tables (cw_db w) in let t' := db_tables (cw_db w') in
  match r with
  | Ok (status, resp) =>
      status = 201 /\ valid_comment body = true /\ accepts (ccr_body body) (cw_mod w) = true /\
      exists c, kept_comment tip_id body t t' c /\ resp = response_of c /\
        (ct_notices t' = ct_notices t \/
         exists n, nt_notifications (ct_notices t') = n :: nt_notifications (ct_notices t) /\
           (tip_id, no_creator_username n) ∈ ct_tips t /\ no_notification_type n = "comment_received" /\
           no_payload n = comment_payload tip_id c /\ no_read n = false)
  | Err e =>
      t' = t \/
      ct_notices t' = ct_notices t /\ valid_comment body = true /\ accepts (ccr_body body) (cw_mod w) = true /\
      e = app_error_from_sqlx SqlxOther /\ exists c, kept_comment tip_id body t t' c
  end.
Proof.
  intros Hrun t t'. unfold create_comment_route in Hrun. destruct (valid_comment body); simpl in Hrun.
  2: { injection Hrun as <- <-. by left. }
  unfold checked, zoom in Hrun. revert Hrun. bind_step.
  destruct (check_content _ _ _ _ _ _ _ (ccr_body body) TipMessage None (cw_mod w)) as [m mw]. simpl.
  destruct (has_high_confidence_violation m _); simpl; [intros [= <- <-]; by left|].
  bind_step. unfold stored at 1, zoom at 1, create_comment. cbn [cw_db put_mod]. bind_step. simpl. unfold query, map_err.
  destruct (sql _ _) as [r1 w1] eqn:Hr1. pose proof Hr1 as (_ & _ & _ & Hq)%sql_outcome. simpl in Hq. fold t in Hq.
  destruct r1 as [c | e].
  2: { intros [= <- <-]. subst t'. simpl. destruct Hq as [Hq | (c & Hq)]; [by left|]. right.
       assert (e = SqlxOther) as -> by (apply sql_error in Hr1 as [? | [He _]]; [done | simpl in He; fold t in He; congruence]).
       apply insert_comment_row in Hq as (? & ? & ? & ?). repeat split; try done. by exists c. }
  apply insert_comment_row in Hq as (Hc & Hn & Ht & Hask).
  bind_step. unfold stored, zoom. cbn [cw_db put_db]. destruct (notify_creator uuid tip_id c w1) as [r2 w2] eqn:Hnot.
  apply notify_creator_row in Hnot as (-> & Hc2 & Ht2 & Hn2). intros [= <- <-]. subst t'. cbn [cw_db put_db] in *.
  rewrite Hn, Ht in Hn2. split; [done|]. split; [done|]. split; [done|]. exists c. split; [|by split].
  split; [congruence|]. split; [done | congruence].
Qed.
End histories.

(** ** On concrete comments *)

Definition ask (author body : string) (parent : option string) : CreateCommentRequest :=
  {| ccr_author := author; ccr_body := body; ccr_parent_id := parent |}.

(** No rule matches and no detector is configured. *)
Abbreviation calm_world := (after tally (fun _ _ => false) (fun _ _ => 0) (fun s => s) (fun _ => None) (fun _ _ => ApiUnreachable)
  None []).

Definition thread : list comment_op :=
  [Joins "ann"; Tips "t1" "ann"; Tips "t2" "ann"; Posts "t1" (ask "bob" "first" None);
   Posts "t1" (ask "eve" "second" (Some (tally 0))); Posts "t2" (ask "joe" "elsewhere" (Some (tally 2)));
   Posts "t2" (ask "kim" "other" None)].

Definition bodies (w : CommentWorld) : list string := map cm_body (ct_comments (db_tables (cw_db w))).

Definition listed (r : result (Z * list CommentResponse) AppError) : list string :=
  match r with Ok (_, l) => map crs_body l | Err _ => [] end.

(** A comment of another tip may be answered, and the answer goes with it;
    the tip of the path is not looked at. *)
Example replies_cross_tips :
  bodies (calm_world thread) = ["other"; "elsewhere"; "second"; "first"] /\
  bodies (calm_world (thread ++ [Removes "t2" (tally 0)])) = ["other"] /\
  bodies (calm_world (thread ++ [TipGone "t1"])) = ["other"].
Proof. repeat split; vm_compute; done. Qed.

(** A flagged comment is hidden, what answers it is not, and nothing shows or
    hides it again. *)
Example flagged_thread_listed :
  let w := calm_world (thread ++ [Flags "t1" (tally 0)]) in
  listed (fst (list_comments_route "t1" w)) = [] /\
  listed (fst (list_replies_route "t1" (tally 0) w)) = ["second"].
Proof. split; vm_compute; done. Qed.

(** A creator who wants no notifications is notified. *)
Example unwilling_notified :
  let w := calm_world [Joins "ann"; Tips "t1" "ann";
    OnNotices (UpdatePreferences "ann" {| up_notify_on_tip := Some false; up_notify_on_milestone := Some false |});
    Posts "t1" (ask "bob" "hello" None)] in
  map no_notification_type (nt_notifications (ct_notices (db_tables (cw_db w)))) = ["comment_received"] /\
  map np_notify_on_tip (nt_preferences (ct_notices (db_tables (cw_db w)))) = [false].
Proof. split; vm_compute; done. Qed.

(** The reply of the insertion is lost: the client reads a 500, the comment is
    kept and nobody is notified; the client who tries again keeps it twice. *)
Example comment_kept_twice :
  let w := calm_world [Joins "ann"; Tips "t1" "ann"; Draws [ReplyLost] []; Posts "t1" (ask "bob" "hello" None);
    Posts "t1" (ask "bob" "hello" None)] in
  bodies w = ["hello"; "hello"] /\ length (nt_notifications (ct_notices (db_tables (cw_db w)))) = 1%nat.
Proof. split; vm_compute; done. Qed.

Lemma comment_threads_witness :
  exists w', delete_comment (tally 2) (cw_db (calm_world thread)) = (Ok tt, w') /\
    map cm_body (ct_comments (db_tables w')) = ["other"; "first"] /\
    forall c, c ∈ ct_comments (db_tables w') ->
      ~ exists d, rtc (answers (ct_comments (db_tables (cw_db (calm_world thread))))) c d /\ cm_id d = tally 2.
Proof.
  pose proof (comment_threads tally (fun _ _ => false) (fun _ _ => 0) (fun s => s) (fun _ => None) (fun _ _ => ApiUnreachable)
    None [] thread) as H.
  destruct (delete_comment (tally 2) (cw_db (calm_world thread))) as [[[] | e] w'] eqn:E.
  - exists w'. split; [done|]. split.
    + vm_compute in E. injection E as <-. vm_compute. reflexivity.
    + cbv zeta in H. destruct H as [_ H2]. intros c Hc. apply (H2 (tally 2) w' E) in Hc as [_ Hc]. exact Hc.
  - exfalso. vm_compute in E. discriminate E.
Defined.
