(* ===== verification/Goals.v ===== *)
(** * Goals of creators

    src/src/controllers/goal_controller.rs, src/src/models/goal.rs and the
    handlers of src/src/routes/goals.rs; the tables are those of migrations 0027
    and 0065.  A goal counts the tips of its creator and records the milestones
    it passes, each of which a task of its own notifies (file Notices).  Nothing
    in src/src calls [apply_tip_to_goals].

    Amounts are columns [NUMERIC(20, 7)] that the code reads as texts and
    computes with as [f64]; two functions stand for the conversions. *)

From Stdlib Require Import SpecFloat.
From S2P Require Import Prelude Text Codec F64 Errors Sql Creators Notices.

(** ** models/goal.rs *)

(** src/src/models/goal.rs:8-20 TipGoal *)
Record TipGoal : Type := {
  tg_id : string;
  tg_creator_username : string;
  tg_title : string;
  tg_description : option string;
  tg_target_amount : string;
  tg_current_amount : string;
  tg_status : string;
  tg_deadline : option Z;
  tg_is_active : bool;
  tg_created_at : Z;
  tg_completed_at : option Z
}.

(** src/src/models/goal.rs:23-29 GoalMilestone *)
Record GoalMilestone : Type := {
  gm_id : string;
  gm_goal_id : string;
  gm_creator_username : string;
  gm_threshold_pct : Z;
  gm_reached_at : Z
}.

(** src/src/models/goal.rs:33-51 CreateGoalRequest *)
Record CreateGoalRequest : Type := {
  cg_title : string;
  cg_description : option string;
  cg_target_amount : string;
  cg_deadline : option Z
}.

(** src/src/models/goal.rs:35-44 the rules of CreateGoalRequest *)
Definition valid_goal (r : CreateGoalRequest) : bool :=
  length_within 1 100 (cg_title r) && optional (length_within 0 500) (cg_description r).

(** src/src/models/goal.rs:55-69 TipGoalResponse *)
Record TipGoalResponse : Type := {
  gr_id : string;
  gr_creator_username : string;
  gr_title : string;
  gr_description : option string;
  gr_target_amount : string;
  gr_current_amount : string;
  gr_progress_pct : f64;
  gr_status : string;
  gr_is_active : bool;
  gr_deadline : option Z;
  gr_created_at : Z;
  gr_completed_at : option Z
}.

(** The tables.  New milestones come first. *)
Record GoalTables : Type := {
  gt_notices : NoticeTables;
  gt_goals : list TipGoal;
  gt_milestones : list GoalMilestone
}.

Definition with_goals (l : list TipGoal) (t : GoalTables) : GoalTables :=
  {| gt_notices := gt_notices t; gt_goals := l; gt_milestones := gt_milestones t |}.

Definition with_milestones (l : list GoalMilestone) (t : GoalTables) : GoalTables :=
  {| gt_notices := gt_notices t; gt_goals := gt_goals t; gt_milestones := l |}.

#[export] Instance goal_notices : Part NoticeTables GoalTables := {
  part := gt_notices;
  with_part s t := {| gt_notices := s; gt_goals := gt_goals t; gt_milestones := gt_milestones t |}
}.

#[export] Instance goal_notices_laws : PartLaws NoticeTables GoalTables.
Proof. split; [done | by intros []]. Qed.

Definition f64_add (x y : f64) : f64 := SFadd 53 1024 x y.

Section operations.
(** [str::parse::<f64>]; the text of the NUMERIC(20, 7) a [float8] is stored as, unless it overflows. *)
Variable parse_f64 : string -> option f64.
Variable store_f64 : f64 -> option string.
Variable uuid : nat -> string.

(** src/src/models/goal.rs:71-79 the percentage of From<TipGoal> *)
Definition progress_pct (g : TipGoal) : f64 :=
  let target := default (f64_of_Z 1) (parse_f64 (tg_target_amount g)) in
  let current := default (f64_of_Z 0) (parse_f64 (tg_current_amount g)) in
  if SFltb (f64_of_Z 0) target then f64_min (f64_mul (f64_div current target) (f64_of_Z 100)) (f64_of_Z 100)
  else f64_of_Z 0.

(** src/src/models/goal.rs:71-95 From<TipGoal> *)
Definition goal_response (g : TipGoal) : TipGoalResponse :=
  {| gr_id := tg_id g; gr_creator_username := tg_creator_username g; gr_title := tg_title g;
     gr_description := tg_description g; gr_target_amount := tg_target_amount g;
     gr_current_amount := tg_current_amount g; gr_progress_pct := progress_pct g; gr_status := tg_status g;
     gr_is_active := tg_is_active g; gr_deadline := tg_deadline g; gr_created_at := tg_created_at g;
     gr_completed_at := tg_completed_at g |}.

(** ** controllers/goal_controller.rs *)

(** A task to run later: a notification of a milestone. *)
Record Spawned : Type := {
  sp_goal_id : string;
  sp_goal_title : string;
  sp_username : string;
  sp_pct : Z
}.

(** The store, and the tasks that were spawned and did not run yet. *)
Record GoalWorld : Type := {
  gw_db : Db GoalTables;
  gw_spawned : list Spawned
}.

Definition put_db (d : Db GoalTables) (w : GoalWorld) : GoalWorld := {| gw_db := d; gw_spawned := gw_spawned w |}.

Definition Goals : Type -> Type := M GoalWorld AppError.

Definition stored {A} (m : M (Db GoalTables) AppError A) : Goals A := zoom gw_db put_db m.

(** [?] on a query *)
Definition query {A} (q : statement GoalTables A) : Goals A := stored (map_err app_error_from_sqlx (sql q)).

Definition spawn (s : Spawned) : Goals unit := modify (fun w => {| gw_db := gw_db w; gw_spawned := gw_spawned w ++ [s] |}).

Definition new_id : Goals string := stored (fresh uuid).

Definition invalid_request (message : string) : AppError := Validation (InvalidRequest message).

(** src/src/controllers/goal_controller.rs:33-37 the creator is looked for *)
Definition creator_exists (username : string) : Goals bool := query (fun _ t => Ok (is_creator username (part t), t)).

(** The amount is bound as a text, to a column that is a numeric.
    src/src/controllers/goal_controller.rs:46-60 the statement of create_goal *)
Definition insert_goal (i username : string) (req : CreateGoalRequest) : statement GoalTables TipGoal :=
  fun _ _ => Err datatype_mismatch.

(** src/src/controllers/goal_controller.rs:15-70 create_goal *)
Definition create_goal (username : string) (req : CreateGoalRequest) : Goals TipGoal :=
  target ← expect (invalid_request "target_amount must be a valid number") (parse_f64 (cg_target_amount req));
  if SFleb target (f64_of_Z 0) then throw (invalid_request "target_amount must be positive")
  else
    exists_ ← creator_exists username;
    if negb exists_ then throw (CreatorNotFound username)
    else
      i ← new_id;
      query (insert_goal i username req).

Definition newest_first (x y : TipGoal) : bool := tg_created_at y <=? tg_created_at x.

Definition active_of (username : string) (t : GoalTables) : list TipGoal :=
  List.filter (fun g => String.eqb (tg_creator_username g) username && tg_is_active g) (gt_goals t).

(** src/src/controllers/goal_controller.rs:73-100 list_goals *)
Definition list_goals (username : string) : Goals (list TipGoal) :=
  exists_ ← creator_exists username;
  if negb exists_ then throw (CreatorNotFound username)
  else query (fun _ t => Ok (sort_by newest_first (active_of username t), t)).

(** src/src/controllers/goal_controller.rs:103-115 get_goal *)
Definition get_goal (goal_id : string) : Goals TipGoal :=
  g ← query (fun _ t => Ok (find (fun g => String.eqb (tg_id g) goal_id) (gt_goals t), t));
  expect (invalid_request ("Goal " +:+ goal_id +:+ " not found")) g.

Definition cancel_row (g : TipGoal) : TipGoal :=
  {| tg_id := tg_id g; tg_creator_username := tg_creator_username g; tg_title := tg_title g;
     tg_description := tg_description g; tg_target_amount := tg_target_amount g;
     tg_current_amount := tg_current_amount g; tg_status := "cancelled"; tg_deadline := tg_deadline g;
     tg_is_active := false; tg_created_at := tg_created_at g; tg_completed_at := tg_completed_at g |}.

(** src/src/controllers/goal_controller.rs:118-139 cancel_goal *)
Definition cancel_goal (goal_id username : string) : Goals TipGoal :=
  let p g := String.eqb (tg_id g) goal_id && String.eqb (tg_creator_username g) username && tg_is_active g in
  g ← query (fun _ t =>
        Ok (head (updated p cancel_row (gt_goals t)), with_goals (update_where p cancel_row (gt_goals t)) t));
  expect (invalid_request "Goal not found or cannot be cancelled (may already be inactive)") g.

Definition progress_row (now : Z) (amount : string) (completed : bool) (g : TipGoal) : TipGoal :=
  {| tg_id := tg_id g; tg_creator_username := tg_creator_username g; tg_title := tg_title g;
     tg_description := tg_description g; tg_target_amount := tg_target_amount g; tg_current_amount := amount;
     tg_status := if completed then "completed" else tg_status g; tg_deadline := tg_deadline g;
     tg_is_active := if completed then false else tg_is_active g; tg_created_at := tg_created_at g;
     tg_completed_at := if completed then Some now else tg_completed_at g |}.

(** src/src/controllers/goal_controller.rs:172-187 the statement that counts a tip *)
Definition set_progress (goal_id : string) (new_current : f64) (completed : bool) : statement GoalTables unit :=
  fun now t =>
    match store_f64 new_current with
    | None => Err (SqlxDatabase (Some "22003") None)
    | Some s =>
        Ok (tt, with_goals (update_where (fun g => String.eqb (tg_id g) goal_id) (progress_row now s completed) (gt_goals t)) t)
    end.

(** src/src/controllers/goal_controller.rs:198-205 whether a milestone is recorded; [false] when that is not known *)
Definition already_recorded (goal_id : string) (pct : Z) : Goals bool :=
  r ← attempt (query (fun _ t =>
        Ok (existsb (fun m => String.eqb (gm_goal_id m) goal_id && (gm_threshold_pct m =? pct)) (gt_milestones t), t)));
  mret (match r with Ok b => b | Err _ => false end).

(** src/src/controllers/goal_controller.rs:208-219 the statement that records a milestone *)
Definition insert_milestone (i goal_id username : string) (pct : Z) : statement GoalTables unit :=
  fun now t =>
    if existsb (fun m => String.eqb (gm_id m) i) (gt_milestones t) then Err (unique_violation "goal_milestones_pkey")
    else if existsb (fun g => String.eqb (tg_id g) goal_id) (gt_goals t) then
      Ok (tt, with_milestones ({| gm_id := i; gm_goal_id := goal_id; gm_creator_username := username;
                                  gm_threshold_pct := pct; gm_reached_at := now |} :: gt_milestones t) t)
    else Err (foreign_key_violation "goal_milestones_goal_id_fkey").

(** src/src/controllers/goal_controller.rs:195-257 one threshold of a goal *)
Definition check_milestone (username : string) (goal : TipGoal) (prev_current target new_current : f64) (pct : Z)
    : Goals unit :=
  let threshold := f64_mul target (f64_div (f64_of_Z pct) (f64_of_Z 100)) in
  if SFltb prev_current threshold && SFleb threshold new_current then
    recorded ← already_recorded (tg_id goal) pct;
    if recorded : bool then mret tt
    else
      i ← new_id;
      query (insert_milestone i (tg_id goal) username pct);;
      spawn {| sp_goal_id := tg_id goal; sp_goal_title := tg_title goal; sp_username := username; sp_pct := pct |}
  else mret tt.

(** src/src/controllers/goal_controller.rs:166-258 a tip on one goal *)
Definition apply_to_goal (username : string) (amount : f64) (goal : TipGoal) : Goals unit :=
  let prev_current := default (f64_of_Z 0) (parse_f64 (tg_current_amount goal)) in
  let target := default (f64_of_Z 1) (parse_f64 (tg_target_amount goal)) in
  let new_current := f64_add prev_current amount in
  let completed := SFleb target new_current in
  query (set_progress (tg_id goal) new_current completed);;
  forM [25; 50; 75; 100] tt (fun _ pct => check_milestone username goal prev_current target new_current pct).

(** src/src/controllers/goal_controller.rs:144-262 apply_tip_to_goals *)
Definition apply_tip_to_goals (username tip_amount : string) : Goals unit :=
  match parse_f64 tip_amount with
  | None => mret tt
  | Some amount =>
      goals ← query (fun _ t => Ok (active_of username t, t));
      forM goals tt (fun _ goal => apply_to_goal username amount goal)
  end.

(** src/src/controllers/goal_controller.rs:234-247 the payload and the task of a milestone *)
Definition milestone_task (s : Spawned) : Goals unit :=
  let payload := JObj [("goal_id", JStr (sp_goal_id s)); ("goal_title", JStr (sp_goal_title s));
                       ("threshold_pct", JNum (sp_pct s))] in
  _ ← attempt (stored (create_notification uuid (sp_username s) "goal_milestone" payload));
  mret tt.

(** The next task runs. *)
Definition run_task (w : GoalWorld) : GoalWorld :=
  match gw_spawned w with
  | [] => w
  | s :: l => snd (milestone_task s {| gw_db := gw_db w; gw_spawned := l |})
  end.

(** ** routes/goals.rs *)

(** [ValidatedJson]: the structured refusal of a body. *)
Variable invalid_fields : list (string * json).

(** src/src/routes/goals.rs:29-37 create_goal *)
Definition create_goal_route (username : string) (body : CreateGoalRequest) : Goals (Z * TipGoalResponse) :=
  if negb (valid_goal body) then throw (Validation (InvalidFields invalid_fields))
  else goal ← create_goal username body; mret (201, goal_response goal).

(** src/src/routes/goals.rs:39-46 list_goals *)
Definition list_goals_route (username : string) : Goals (Z * list TipGoalResponse) :=
  goals ← list_goals username; mret (200, map goal_response goals).

(** src/src/routes/goals.rs:48-55 get_goal *)
Definition get_goal_route (_username goal_id : string) : Goals (Z * TipGoalResponse) :=
  goal ← get_goal goal_id; mret (200, goal_response goal).

(** src/src/routes/goals.rs:57-64 cancel_goal *)
Definition cancel_goal_route (username goal_id : string) : Goals (Z * TipGoalResponse) :=
  goal ← cancel_goal goal_id username; mret (200, goal_response goal).

(** ** Histories *)

(** Requests, a tip on a goal as some process read it before, and tasks; the
    clocks move and faults are drawn. *)
Inductive goal_op : Type :=
| Creates (username : string) (body : CreateGoalRequest)
| Cancels (username goal_id : string)
| Tip (username tip_amount : string)
| TipOn (username : string) (amount : f64) (as_read : TipGoal)
| Runs
| Moves (now utc : Z)
| Draws (l : list fault).

Definition goal_exec (o : goal_op) (w : GoalWorld) : GoalWorld :=
  match o with
  | Creates u body => snd (create_goal_route u body w)
  | Cancels u i => snd (cancel_goal_route u i w)
  | Tip u amount => snd (apply_tip_to_goals u amount w)
  | TipOn u amount g => snd (apply_to_goal u amount g w)
  | Runs => run_task w
  | Moves now utc => put_db (with_clocks now utc (gw_db w)) w
  | Draws l => put_db (with_faults l (gw_db w)) w
  end.

Definition goals_after (l : list goal_op) (w : GoalWorld) : GoalWorld := fold_left (fun w o => goal_exec o w) l w.
End operations.

(** ** What the tables keep *)

Definition THRESHOLDS : list Z := [25; 50; 75; 100].

(** A goal is active, completed at some time, or cancelled. *)
Definition goal_status (g : TipGoal) : Prop :=
  (tg_status g = "active" /\ tg_is_active g = true /\ tg_completed_at g = None) \/
  (tg_status g = "completed" /\ tg_is_active g = false /\ is_Some (tg_completed_at g)) \/
  (tg_status g = "cancelled" /\ tg_is_active g = false /\ tg_completed_at g = None).

Record GoalsSound (t : GoalTables) : Prop := {
  gs_notices : NoticesSound (gt_notices t);
  gs_status : forall g, g ∈ gt_goals t -> goal_status g;
  gs_milestones : forall m, m ∈ gt_milestones t ->
    gm_threshold_pct m ∈ THRESHOLDS /\ exists g, g ∈ gt_goals t /\ tg_id g = gm_goal_id m
}.

(** A change of the goals that keeps their ids and their statuses. *)
Lemma update_goals_sound p f t :
  (forall g, g ∈ gt_goals t -> p g = true -> goal_status (f g)) -> (forall g, tg_id (f g) = tg_id g) ->
  GoalsSound t -> GoalsSound (with_goals (update_where p f (gt_goals t)) t).
Proof.
  intros Hf Hid [Hn Hs Hm]. split; simpl; [done | |].
  - intros g [[Hg _] | (g' & Hg & Hp & ->)]%elem_of_update_where; [by apply Hs | by apply Hf].
  - intros m (Hpct & g & Hg & He)%Hm. split; [done|]. exists (if p g then f g else g).
    split; [by apply update_where_image | destruct (p g); by rewrite ?Hid].
Qed.

Lemma cancel_row_status g : goal_status g -> tg_is_active g = true -> goal_status (cancel_row g).
Proof.
  intros [(_ & _ & Hc) | [(_ & Ha & _) | (_ & Ha & _)]] Hact; [right; by right | congruence | congruence].
Qed.

Lemma progress_row_status now s b g : goal_status g -> goal_status (progress_row now s b g).
Proof. intros Hg. destruct b; [right; left; simpl; eauto | by destruct Hg as [? | [? | ?]]; [left | right; left | right; right]]. Qed.

Lemma goals_part t s :
  GoalsSound t -> NoticesSound s -> nt_creators s = nt_creators (part t) -> GoalsSound (with_part s t).
Proof. intros [Hn Hs Hm] Hs' _. by split. Qed.

Section histories.
Variable parse_f64 : string -> option f64.
Variable store_f64 : f64 -> option string.
Variable uuid : nat -> string.
Variable invalid_fields : list (string * json).

Abbreviation exec := (goal_exec parse_f64 store_f64 uuid invalid_fields).
Abbreviation run := (goals_after parse_f64 store_f64 uuid invalid_fields).

(** What the operations keep of the whole world, when the statements keep it. *)
Section kept.
Variable I : GoalWorld -> Prop.
Hypothesis I_spawned : forall w l, I w -> I {| gw_db := gw_db w; gw_spawned := l |}.
Hypothesis I_drawn : forall w u, I w ->
  I (put_db {| db_tables := db_tables (gw_db w); db_now := db_now (gw_db w); db_utc := db_utc (gw_db w); db_uuids := u;
               db_faults := db_faults (gw_db w) |} w).
Hypothesis I_read : forall A (f : Z -> GoalTables -> A), stable I (query (fun now t => Ok (f now t, t))).
Hypothesis I_progress : forall i x b, stable I (query (set_progress store_f64 i x b)).

Lemma kept_new_id : stable I (new_id uuid).
Proof using I_drawn. intros w Hw. by apply I_drawn. Qed.

Lemma kept_recorded i pct : stable I (already_recorded i pct).
Proof using I_read. apply stable_bind; [apply stable_attempt, I_read | intros; apply stable_ret]. Qed.

Lemma kept_spawn s : stable I (spawn s).
Proof using I_spawned. apply stable_modify. intros w Hw. by apply I_spawned. Qed.

Lemma kept_apply_to_goal u amount g :
  (forall prev target new pct, pct ∈ THRESHOLDS -> stable I (check_milestone uuid u g prev target new pct)) ->
  stable I (apply_to_goal parse_f64 store_f64 uuid u amount g).
Proof using I_progress.
  intros Hcheck. apply stable_bind; [apply I_progress|]. intros _. simpl.
  repeat (apply stable_bind; [apply Hcheck, (bool_decide_unpack _); done | intros ?]). apply stable_ret.
Qed.
End kept.

(** *** The statuses, in every interleaving *)

Abbreviation holds m := (stable (fun w => GoalsSound (db_tables (gw_db w))) m).

Lemma holds_query {A} (q : statement GoalTables A) :
  (forall now t a t', GoalsSound t -> q now t = Ok (a, t') -> GoalsSound t') -> holds (query q).
Proof.
  intros Hq w Hw. unfold query, stored, zoom. assert (kept GoalsSound (map_err app_error_from_sqlx (sql q))) as Hk
    by (by apply stable_map_err, kept_sql).
  specialize (Hk (gw_db w) Hw). by destruct (map_err _ _ (gw_db w)).
Qed.

Lemma holds_read {A} (f : Z -> GoalTables -> A) : holds (query (fun now t => Ok (f now t, t))).
Proof. apply holds_query. by intros now t a t' Ht [= _ <-]. Qed.

Lemma holds_progress i x b : holds (query (set_progress store_f64 i x b)).
Proof.
  apply holds_query. intros now t a t' Ht. unfold set_progress. destruct (store_f64 x); [|done]. intros [= _ <-].
  apply update_goals_sound; [|done | done]. intros g Hg _. by apply progress_row_status, Ht.
Qed.

Lemma holds_check u g prev target new pct : pct ∈ THRESHOLDS -> holds (check_milestone uuid u g prev target new pct).
Proof.
  intros Hpct. unfold check_milestone. destruct (_ && _); [|apply stable_ret].
  apply stable_bind; [apply kept_recorded; intros; apply holds_read|]. intros [|]; [apply stable_ret|].
  apply stable_bind; [by apply kept_new_id|]. intros i. apply stable_bind; [|intros; by apply kept_spawn].
  apply holds_query. intros now t a t' [Hn Hs Hm]. unfold insert_milestone. destruct (existsb _ (gt_milestones t)); [done|].
  destruct (existsb _ (gt_goals t)) eqn:Hg; [|done]. intros [= _ <-]. split; simpl; [done | done |].
  intros m [-> | Hin]%elem_of_cons; [|by apply Hm]. split; [done|]. apply existsb_exists in Hg as (x & Hx & He).
  exists x. by rewrite list_elem_of_In, <- String.eqb_eq.
Qed.

Lemma holds_apply_to_goal u amount g : holds (apply_to_goal parse_f64 store_f64 uuid u amount g).
Proof. apply kept_apply_to_goal; [apply holds_progress|]. intros. by apply holds_check. Qed.

Lemma goals_stored {A} (m : M (Db GoalTables) AppError A) : kept GoalsSound m -> holds (stored m).
Proof. intros Hm w Hw. unfold stored, zoom. specialize (Hm (gw_db w) Hw). by destruct (m (gw_db w)). Qed.

Lemma goal_exec_sound o w : GoalsSound (db_tables (gw_db w)) -> GoalsSound (db_tables (gw_db (exec o w))).
Proof.
  intros Hw. destruct o as [u body | u i | u s | u amount g | | now utc | l]; simpl; try done.
  - refine ((_ : holds (create_goal_route _ _ _ u body)) w Hw). unfold create_goal_route, create_goal.
    destruct (negb _); [apply stable_throw|]. apply stable_bind; [|intros; apply stable_ret].
    apply stable_bind; [apply stable_lift|]. intros x. destruct (SFleb _ _); [apply stable_throw|].
    apply stable_bind; [apply holds_read|]. intros b. destruct (negb b); [apply stable_throw|].
    apply stable_bind; [by apply kept_new_id|]. intros i. by apply holds_query.
  - refine ((_ : holds (cancel_goal_route _ u i)) w Hw). apply stable_bind; [|intros; apply stable_ret].
    apply stable_bind; [|intros; apply stable_lift]. apply holds_query. intros now t a t' Ht [= _ <-].
    apply update_goals_sound; [|done | done]. intros g Hg Hp. apply andb_true_iff in Hp as [_ Hp].
    by apply cancel_row_status; [apply Ht|].
  - refine ((_ : holds (apply_tip_to_goals _ _ _ u s)) w Hw). unfold apply_tip_to_goals.
    destruct (parse_f64 s) as [amount|]; [|apply stable_ret]. apply stable_bind; [apply holds_read|]. intros l.
    apply stable_forM. intros _ g. apply holds_apply_to_goal.
  - by apply holds_apply_to_goal.
  - unfold run_task. destruct (gw_spawned w) as [|s l]; [done|].
    refine ((_ : holds (milestone_task uuid s)) {| gw_db := gw_db w; gw_spawned := l |} Hw).
    apply stable_bind; [|intros; apply stable_ret]. apply stable_attempt, goals_stored, kept_create_notification.
    + intros t Ht. apply Ht.
    + apply goals_part.
Qed.

(** Whatever interleaves, with any faults, on tables where it is so to begin
    with: a goal is active, or was completed at some time, or is cancelled, and
    the milestones are quarters of known goals. *)
Theorem goal_status_sound ops w :
  GoalsSound (db_tables (gw_db w)) -> GoalsSound (db_tables (gw_db (run ops w))).
Proof. revert w. induction ops as [|o ops IH]; intros w Hw; [done|]. apply IH. by apply goal_exec_sound. Qed.

(** *** The milestones, without faults *)

Definition milestone_key (m : GoalMilestone) : string * Z := (gm_goal_id m, gm_threshold_pct m).

Definition once (w : GoalWorld) : Prop :=
  db_faults (gw_db w) = [] /\ NoDup (milestone_key <$> gt_milestones (db_tables (gw_db w))).

Lemma goal_query_calm {A} (q : statement GoalTables A) w : db_faults (gw_db w) = [] ->
  query q w = match q (db_now (gw_db w)) (db_tables (gw_db w)) with
              | Ok (a, t) => (Ok a, put_db (with_tables t (gw_db w)) w)
              | Err e => (Err (app_error_from_sqlx e), w)
              end.
Proof.
  intros Hw. unfold query, stored, zoom, map_err. rewrite sql_calm by done. unfold run_statement.
  destruct (q _ _) as [[a t] | e]; [done|]. by destruct w.
Qed.

(** A statement that leaves the milestones. *)
Lemma once_query {A} (q : statement GoalTables A) :
  (forall now t a t', q now t = Ok (a, t') -> gt_milestones t' = gt_milestones t) -> stable once (query q).
Proof.
  intros Hq w [Hf Hn]. rewrite goal_query_calm by done. destruct (q _ _) as [[a t] | e] eqn:He; [|done].
  split; [done|]. simpl. by rewrite (Hq _ _ _ _ He).
Qed.

Lemma once_read {A} (f : Z -> GoalTables -> A) : stable once (query (fun now t => Ok (f now t, t))).
Proof. apply once_query. by intros now t a t' [= _ <-]. Qed.

Lemma once_progress i x b : stable once (query (set_progress store_f64 i x b)).
Proof. apply once_query. intros now t a t'. unfold set_progress. destruct (store_f64 x); [|done]. by intros [= _ <-]. Qed.

Lemma once_check u g prev target new pct : stable once (check_milestone uuid u g prev target new pct).
Proof.
  intros w Hw. unfold check_milestone. destruct (_ && _); [|done].
  pose proof Hw as [Hf Hn]. unfold already_recorded, attempt. bind_step. bind_step. rewrite goal_query_calm by done.
  set (w1 := put_db _ w). assert (w1 = w) as -> by (destruct w as [[] ?]; done). simpl.
  destruct (existsb _ _) eqn:Hrec; [done|]. rewrite existsb_false_iff in Hrec.
  unfold new_id, stored, zoom, fresh. repeat bind_step. simpl. rewrite goal_query_calm by done. simpl.
  unfold insert_milestone. destruct (existsb _ (gt_milestones _)); [done|]. destruct (existsb _ (gt_goals _)); [|done].
  simpl. split; [done|]. simpl. apply NoDup_cons. split; [|done]. intros (m & Hk & Hm)%list_elem_of_fmap.
  injection Hk as Hi Hp. apply Hrec in Hm. by rewrite Hi, Hp, String.eqb_refl, Z.eqb_refl in Hm.
Qed.

Lemma once_apply_to_goal u amount g : stable once (apply_to_goal parse_f64 store_f64 uuid u amount g).
Proof. apply kept_apply_to_goal; [apply once_progress|]. intros. apply once_check. Qed.

Lemma once_stored {A} (q : statement NoticeTables A) :
  sound_statement q -> stable once (stored (asked q)).
Proof.
  intros _ w [Hf Hn]. unfold stored, zoom, asked, map_err. rewrite sql_calm by done. unfold run_statement, within.
  by destruct (q _ _) as [[a t] | e].
Qed.

Lemma exec_once o w : (forall l, o <> Draws l) -> once w -> once (exec o w).
Proof.
  intros Ho Hw. destruct o as [u body | u i | u s | u amount g | | now utc | l]; simpl; try done.
  - refine ((_ : stable once (create_goal_route _ _ _ u body)) w Hw). unfold create_goal_route, create_goal.
    destruct (negb _); [apply stable_throw|]. apply stable_bind; [|intros; apply stable_ret].
    apply stable_bind; [apply stable_lift|]. intros x. destruct (SFleb _ _); [apply stable_throw|].
    apply stable_bind; [apply once_read|]. intros b. destruct (negb b); [apply stable_throw|].
    apply stable_bind; [by apply kept_new_id|]. intros i. by apply once_query.
  - refine ((_ : stable once (cancel_goal_route _ u i)) w Hw). apply stable_bind; [|intros; apply stable_ret].
    apply stable_bind; [|intros; apply stable_lift]. apply once_query. by intros now t a t' [= _ <-].
  - refine ((_ : stable once (apply_tip_to_goals _ _ _ u s)) w Hw). unfold apply_tip_to_goals.
    destruct (parse_f64 s) as [amount|]; [|apply stable_ret]. apply stable_bind; [apply once_read|]. intros l.
    apply stable_forM. intros _ g. apply once_apply_to_goal.
  - by apply once_apply_to_goal.
  - unfold run_task. destruct (gw_spawned w) as [|s l]; [done|]. destruct Hw as [Hf Hn].
    unfold milestone_task, attempt, stored, zoom, create_notification. repeat bind_step. simpl. unfold asked, map_err.
    rewrite sql_calm by done. unfold run_statement, within. by destruct (insert_notification _ _ _ _ _ _) as [[a t] | e].
  - by destruct (Ho l).
Qed.

(** Without faults each milestone of a goal is recorded once, even by
    processes that read the goal before another tip was counted. *)
Theorem milestones_once ops w :
  (forall l, Draws l ∉ ops) -> once w -> NoDup (milestone_key <$> gt_milestones (db_tables (gw_db (run ops w)))).
Proof.
  intros Hops Hw. enough (once (run ops w)) as [_ H] by done. revert w Hw Hops.
  induction ops as [|o ops IH]; intros w Hw Hops; [done|]. apply IH.
  - apply exec_once; [|done]. intros l ->. apply (Hops l). left.
  - intros l Hl. apply (Hops l). by right.
Qed.

(** No goal is ever created: the request fails whatever it asks and leaves
    the tables as they are. *)
Theorem no_goal_is_created u body w r w' :
  create_goal_route parse_f64 uuid invalid_fields u body w = (r, w') ->
  is_ok r = false /\ db_tables (gw_db w') = db_tables (gw_db w).
Proof.
  unfold create_goal_route, create_goal. destruct (negb _); [by intros [= <- <-]|].
  unfold expect, lift. repeat bind_step. destruct (parse_f64 (cg_target_amount body)) as [x|]; simpl; [|by intros [= <- <-]].
  destruct (SFleb _ _); [by intros [= <- <-]|]. bind_step. unfold creator_exists, query, stored, zoom, map_err.
  destruct (sql _ (gw_db w)) as [r1 d1] eqn:H1. apply sql_outcome in H1 as (_ & _ & _ & H1).
  assert (db_tables d1 = db_tables (gw_db w)) as Hd1.
  { destruct r1 as [b | e]; [by injection H1 | by destruct H1 as [? | (a & [= _ ->])]]. }
  destruct r1 as [b | e]; simpl; [|by intros [= <- <-]]. destruct (negb b); [by intros [= <- <-]|].
  unfold new_id, stored, zoom, fresh. bind_step. simpl. destruct (sql _ _) as [r2 d2] eqn:H2.
  apply sql_outcome in H2 as (_ & _ & _ & H2). destruct r2 as [g | e]; [done|].
  intros [= <- <-]. simpl. destruct H2 as [-> | (a & [=])]. by rewrite Hd1.
Qed.

Lemma f64_not_below x y : x <> S754_nan -> y <> S754_nan -> SFltb y x = false -> SFleb x y = true.
Proof.
  unfold SFltb, SFleb. destruct x as [s | s | | s m e], y as [s' | s' | | s' m' e']; try done; intros _ _;
    destruct s, s'; try done; simpl; rewrite (Z.compare_antisym e e'); destruct (e ?= e')%Z; simpl; try done;
    fold (Pos.compare m m') (Pos.compare m' m); rewrite (Pos.compare_antisym m m'); by destruct (m ?= m')%positive.
Qed.

(** The progress that is shown is at most 100 per cent. *)
Theorem progress_at_most_full g : SFleb (progress_pct parse_f64 g) (f64_of_Z 100) = true.
Proof.
  unfold progress_pct. destruct (SFltb _ _); [|by vm_compute].
  generalize (f64_mul (f64_div (default (f64_of_Z 0) (parse_f64 (tg_current_amount g)))
    (default (f64_of_Z 1) (parse_f64 (tg_target_amount g)))) (f64_of_Z 100)). intros x. unfold f64_min.
  assert (f64_of_Z 100 = S754_finite false 7036874417766400 (-46)) as -> by (by vm_compute).
  destruct x as [s | s | | s m e]; [.. | done | ]; (destruct (SFltb _ _) eqn:Hlt; [done | by apply f64_not_below]).
Qed.
End histories.

(** ** On a concrete goal, with whole amounts *)

Definition read_whole (s : string) : option f64 := f64_of_Z <$> parse_digits s.
Definition store_whole (x : f64) : option string := Some (print_Z (f64_trunc x)).

Definition goal_row (current : string) : TipGoal :=
  {| tg_id := "g1"; tg_creator_username := "ann"; tg_title := "camera"; tg_description := None; tg_target_amount := "100";
     tg_current_amount := current; tg_status := "active"; tg_deadline := None; tg_is_active := true; tg_created_at := 0;
     tg_completed_at := None |}.

Definition goal_world : GoalWorld :=
  {| gw_db := {| db_tables := {| gt_notices := {| nt_creators := ["ann"]; nt_preferences := []; nt_notifications := [] |};
                                 gt_goals := [goal_row "0"]; gt_milestones := [] |};
                 db_now := 7; db_utc := 7; db_uuids := 0; db_faults := [] |};
     gw_spawned := [] |}.

Abbreviation played ops := (goals_after read_whole store_whole tally [] ops goal_world).

Definition goal_now (w : GoalWorld) : list (string * string) :=
  map (fun g => (tg_current_amount g, tg_status g)) (gt_goals (db_tables (gw_db w))).

Definition milestones_now (w : GoalWorld) : list Z := map gm_threshold_pct (gt_milestones (db_tables (gw_db w))).

(** Tips are counted and milestones notified; the goal completes. *)
Example goal_completes :
  let w := played [Tip "ann" "60"; Tip "ann" "x"; Tip "ann" "50"; Runs; Runs; Runs; Runs; Tip "ann" "5"] in
  goal_now w = [("110", "completed")] /\ milestones_now w = [100; 75; 50; 25] /\
  length (nt_notifications (gt_notices (db_tables (gw_db w)))) = 4%nat /\
  progress_pct read_whole (goal_row "110") = f64_of_Z 100.
Proof. repeat split; vm_compute; done. Qed.

(** Two tips that read the goal before either is counted: one is lost. *)
Example tip_not_counted :
  goal_now (played [TipOn "ann" (f64_of_Z 30) (goal_row "0"); TipOn "ann" (f64_of_Z 40) (goal_row "0")]) =
  [("40", "active")].
Proof. vm_compute. done. Qed.

(** A tip that read the goal before it was cancelled completes it. *)
Example cancelled_goal_completes :
  goal_now (played [Cancels "ann" "g1"; TipOn "ann" (f64_of_Z 100) (goal_row "0")]) = [("100", "completed")].
Proof. vm_compute. done. Qed.

(** A failed look at the milestones counts as none. *)
Example milestone_twice :
  milestones_now (played [TipOn "ann" (f64_of_Z 30) (goal_row "0"); Draws [Fine; Refused];
    TipOn "ann" (f64_of_Z 30) (goal_row "0")]) = [25; 25].
Proof. vm_compute. done. Qed.

Lemma goal_world_sound : GoalsSound (db_tables (gw_db goal_world)).
Proof.
  split; simpl.
  - split; simpl; try apply NoDup_nil_2; set_solver.
  - intros g ->%list_elem_of_singleton. left. done.
  - set_solver.
Qed.

Lemma goal_status_sound_witness :
  GoalsSound (db_tables (gw_db (played [Cancels "ann" "g1"; TipOn "ann" (f64_of_Z 100) (goal_row "0")]))).
Proof. apply (goal_status_sound read_whole store_whole tally []), goal_world_sound. Defined.

Lemma milestones_once_witness :
  milestones_now (played [Tip "ann" "60"; Tip "ann" "50"]) = [100; 75; 50; 25] /\
  NoDup (milestone_key <$> gt_milestones (db_tables (gw_db (played [Tip "ann" "60"; Tip "ann" "50"])))).
Proof.
  split; [vm_compute; reflexivity|]. apply (milestones_once read_whole store_whole tally []).
  - intros l Hl. set_solver.
  - split; [reflexivity|]. apply NoDup_nil_2.
Defined.
