(* ===== verification/Admin.v ===== *)
(** * The guard of the administrators' routes

    src/src/middleware/admin_auth.rs, for the routes whose store has the table of
    administrators: a request passes when the hash of its key is in the table.
    (The gateway's own layers are in file Access.) *)

From S2P Require Import Prelude Errors Sql.

(** A store with the administrators: the hash of the key and the username. *)
Class Admins (T : Type) : Type := {
  admins : T -> list (string * string)
}.

Section guard.
Context {T : Type} `{Admins T}.
Variable sha256_hex : string -> string.

Definition is_admin (hash : string) (t : T) : bool := existsb (fun a => String.eqb (fst a) hash) (admins t).

(** src/src/middleware/admin_auth.rs:14-48 require_admin *)
Definition require_admin {A} (key : option string) (next : M (Db T) AppError A) : M (Db T) AppError A :=
  match key with
  | None => throw (Unauthorized "Missing X-Admin-Key header")
  | Some raw_key =>
      exists_ ← map_err app_error_from_sqlx (select (fun _ t => is_admin (sha256_hex raw_key) t));
      if exists_ : bool then next else throw (Unauthorized "Invalid admin key")
  end.

(** What is behind the guard runs for administrators only, on the tables as they were. *)
Lemma require_admin_ran {A} key (next : M (Db T) AppError A) w r w' :
  require_admin key next w = (r, w') ->
  db_tables w' = db_tables w /\ is_ok r = false \/
  exists raw w1, key = Some raw /\ is_admin (sha256_hex raw) (db_tables w) = true /\ db_tables w1 = db_tables w /\
    next w1 = (r, w').
Proof.
  unfold require_admin. destruct key as [raw|]; [|intros [= <- <-]; by left].
  bind_step. unfold map_err. destruct (select _ w) as [[b | e] w1] eqn:Hs; simpl.
  - apply select_ok in Hs as (-> & Ht & _). destruct (is_admin _ _) eqn:Ha.
    + intros Hn. right. by exists raw, w1.
    + intros [= <- <-]. by left.
  - intros [= <- <-]. left. split; [|done]. apply sql_outcome in Hs as (_ & _ & _ & [Hs | (a & [= _ <-])]); done.
Qed.

Lemma kept_require_admin {A} (J : T -> Prop) key (next : M (Db T) AppError A) :
  kept J next -> kept J (require_admin key next).
Proof.
  intros Hn w Hw. destruct (require_admin key next w) as [r w'] eqn:E.
  apply require_admin_ran in E as [[Ht _] | (raw & w1 & _ & _ & Ht & E)]; simpl; [by rewrite Ht|].
  specialize (Hn w1). rewrite E, Ht in Hn. by apply Hn.
Qed.
End guard.

#[export] Hint Resolve kept_require_admin : stable.
