(* ===== verification/Verification.v ===== *)
(** * Verification of creators

    src/src/controllers/verification_controller.rs, src/src/models/verification.rs
    and the handlers of src/src/routes/verification.rs; the tables are those of
    migration 0026.  A creator asks for the badge with the links that prove who it
    is; an administrator reviews the request, and an approval sets the badge. *)

From S2P Require Import Prelude Text Codec Errors Sql Admin.

(** ** models/verification.rs *)

(** src/src/models/verification.rs:6-18 CreatorVerification *)
Record CreatorVerification : Type := {
  vf_id : string;
  vf_creator_username : string;
  vf_status : string;
  vf_identity_doc_url : option string;
  vf_twitter_handle : option string;
  vf_github_handle : option string;
  vf_website_url : option string;
  vf_rejection_reason : option string;
  vf_reviewed_by : option string;
  vf_submitted_at : Z;
  vf_reviewed_at : option Z
}.

(** src/src/models/verification.rs:22-27 SubmitVerificationRequest *)
Record SubmitVerificationRequest : Type := {
  sv_identity_doc_url : option string;
  sv_twitter_handle : option string;
  sv_github_handle : option string;
  sv_website_url : option string
}.

(** src/src/models/verification.rs:31-34 ReviewVerificationRequest *)
Record ReviewVerificationRequest : Type := {
  rw_approved : bool;
  rw_rejection_reason : option string
}.

(** src/src/models/verification.rs:37-46 VerificationResponse *)
Record VerificationResponse : Type := {
  vr_id : string;
  vr_creator_username : string;
  vr_status : string;
  vr_twitter_handle : option string;
  vr_github_handle : option string;
  vr_website_url : option string;
  vr_submitted_at : Z;
  vr_reviewed_at : option Z
}.

(** src/src/models/verification.rs:48-61 From<CreatorVerification> *)
Definition verification_response (v : CreatorVerification) : VerificationResponse :=
  {| vr_id := vf_id v; vr_creator_username := vf_creator_username v; vr_status := vf_status v;
     vr_twitter_handle := vf_twitter_handle v; vr_github_handle := vf_github_handle v;
     vr_website_url := vf_website_url v; vr_submitted_at := vf_submitted_at v; vr_reviewed_at := vf_reviewed_at v |}.

(** The tables; of the creators the username and the badge. *)
Record VerificationTables : Type := {
  vt_creators : list (string * bool);
  vt_admins : list (string * string);
  vt_requests : list CreatorVerification
}.

#[export] Instance verification_admins : Admins VerificationTables := { admins := vt_admins }.

Definition with_badges (l : list (string * bool)) (t : VerificationTables) : VerificationTables :=
  {| vt_creators := l; vt_admins := vt_admins t; vt_requests := vt_requests t |}.

Definition with_requests (l : list CreatorVerification) (t : VerificationTables) : VerificationTables :=
  {| vt_creators := vt_creators t; vt_admins := vt_admins t; vt_requests := l |}.

(** ** controllers/verification_controller.rs *)

Section operations.
Variable uuid : nat -> string.
Variable sha256_hex : string -> string.

Definition Verif : Type -> Type := M (Db VerificationTables) AppError.

(** [?] on a query *)
Definition query {A} (m : Sql VerificationTables A) : Verif A := map_err app_error_from_sqlx m.

Definition is_creator (u : string) (t : VerificationTables) : bool := existsb (fun c => String.eqb (fst c) u) (vt_creators t).

Definition of_creator (u : string) (v : CreatorVerification) : bool := String.eqb (vf_creator_username v) u.

Definition has_id (i : string) (v : CreatorVerification) : bool := String.eqb (vf_id v) i.

(** src/src/controllers/verification_controller.rs:35-44 the row of a request asked for again *)
Definition resubmit_row (req : SubmitVerificationRequest) (now : Z) (v : CreatorVerification) : CreatorVerification :=
  {| vf_id := vf_id v; vf_creator_username := vf_creator_username v;
     vf_status := if String.eqb (vf_status v) "rejected" then "pending" else vf_status v;
     vf_identity_doc_url := sv_identity_doc_url req; vf_twitter_handle := sv_twitter_handle req;
     vf_github_handle := sv_github_handle req; vf_website_url := sv_website_url req; vf_rejection_reason := None;
     vf_reviewed_by := None; vf_submitted_at := now; vf_reviewed_at := None |}.

Definition new_request (i u : string) (req : SubmitVerificationRequest) (now : Z) : CreatorVerification :=
  {| vf_id := i; vf_creator_username := u; vf_status := "pending"; vf_identity_doc_url := sv_identity_doc_url req;
     vf_twitter_handle := sv_twitter_handle req; vf_github_handle := sv_github_handle req;
     vf_website_url := sv_website_url req; vf_rejection_reason := None; vf_reviewed_by := None; vf_submitted_at := now;
     vf_reviewed_at := None |}.

(** src/src/controllers/verification_controller.rs:30-46 the statement of submit_verification *)
Definition upsert_request (i u : string) (req : SubmitVerificationRequest) : statement VerificationTables CreatorVerification :=
  fun now t =>
    match find (of_creator u) (vt_requests t) with
    | Some v => Ok (resubmit_row req now v,
                    with_requests (update_where (of_creator u) (resubmit_row req now) (vt_requests t)) t)
    | None =>
        if existsb (has_id i) (vt_requests t) then Err (unique_violation "creator_verifications_pkey")
        else if is_creator u t then
          Ok (new_request i u req now, with_requests (vt_requests t ++ [new_request i u req now]) t)
        else Err (foreign_key_violation "creator_verifications_creator_username_fkey")
    end.

(** src/src/controllers/verification_controller.rs:10-58 submit_verification *)
Definition submit_verification (username : string) (req : SubmitVerificationRequest) : Verif CreatorVerification :=
  exists_ ← query (select (fun _ t => is_creator username t));
  if negb exists_ then throw (CreatorNotFound username)
  else
    i ← fresh uuid;
    query (sql (upsert_request i username req)).

(** src/src/controllers/verification_controller.rs:61-73 get_verification *)
Definition get_verification (username : string) : Verif (option CreatorVerification) :=
  query (select (fun _ t => find (of_creator username) (vt_requests t))).

(** src/src/controllers/verification_controller.rs:76-84 list_pending *)
Definition list_pending : Verif (list CreatorVerification) :=
  query (select (fun _ t =>
    sort_by (fun x y => vf_submitted_at x <=? vf_submitted_at y)
      (List.filter (fun v => String.eqb (vf_status v) "pending") (vt_requests t)))).

(** src/src/controllers/verification_controller.rs:97-103 what a review does to the row *)
Definition review_row (status reviewer : string) (reason : option string) (now : Z) (v : CreatorVerification)
    : CreatorVerification :=
  {| vf_id := vf_id v; vf_creator_username := vf_creator_username v; vf_status := status;
     vf_identity_doc_url := vf_identity_doc_url v; vf_twitter_handle := vf_twitter_handle v;
     vf_github_handle := vf_github_handle v; vf_website_url := vf_website_url v; vf_rejection_reason := reason;
     vf_reviewed_by := Some reviewer; vf_submitted_at := vf_submitted_at v; vf_reviewed_at := Some now |}.

(** src/src/controllers/verification_controller.rs:95-110 the statement that settles a request *)
Definition settle (i status reviewer : string) (reason : option string)
    : statement VerificationTables (option CreatorVerification) :=
  fun now t =>
    Ok (head (updated (has_id i) (review_row status reviewer reason now) (vt_requests t)),
        with_requests (update_where (has_id i) (review_row status reviewer reason now) (vt_requests t)) t).

(** src/src/controllers/verification_controller.rs:120-123 the statement that sets the badge *)
Definition set_badge (u : string) : statement VerificationTables unit :=
  fun _ t => Ok (tt, with_badges (update_where (fun c => String.eqb (fst c) u) (fun c => (fst c, true)) (vt_creators t)) t).

(** src/src/controllers/verification_controller.rs:87-127 review_verification *)
Definition review_verification (i reviewer : string) (req : ReviewVerificationRequest) : Verif CreatorVerification :=
  let new_status := if rw_approved req then "approved" else "rejected" in
  row ← query (sql (settle i new_status reviewer (rw_rejection_reason req)));
  row ← expect (Validation (InvalidRequest ("Verification request " +:+ i +:+ " not found"))) row;
  if rw_approved req then _ ← query (sql (set_badge (vf_creator_username row))); mret row
  else mret row.

(** ** routes/verification.rs *)

(** src/src/routes/verification.rs:37-45 submit_verification *)
Definition submit_verification_route (username : string) (body : SubmitVerificationRequest)
    : Verif (Z * VerificationResponse) :=
  v ← submit_verification username body; mret (201, verification_response v).

(** src/src/routes/verification.rs:47-62 get_verification *)
Definition get_verification_route (username : string) : Verif (Z * option VerificationResponse) :=
  v ← get_verification username;
  mret (match v with Some v => (200, Some (verification_response v)) | None => (404, None) end).

(** src/src/routes/verification.rs:64-68 list_pending *)
Definition list_pending_route (admin_key : option string) : Verif (Z * list VerificationResponse) :=
  require_admin sha256_hex admin_key (rows ← list_pending; mret (200, map verification_response rows)).

(** src/src/routes/verification.rs:76-88 the username of the administrator *)
Definition resolve_admin (admin_key : option string) : Verif string :=
  let key_hash := sha256_hex (default "unknown" admin_key) in
  u ← query (select (fun _ t => snd <$> find (fun a => String.eqb (fst a) key_hash) (vt_admins t)));
  mret (default "admin" u).

(** src/src/routes/verification.rs:70-93 review_verification *)
Definition review_verification_route (admin_key : option string) (i : string) (body : ReviewVerificationRequest)
    : Verif (Z * VerificationResponse) :=
  require_admin sha256_hex admin_key (
    admin_username ← resolve_admin admin_key;
    v ← review_verification i admin_username body;
    mret (200, verification_response v)).

(** ** Histories *)

(** Requests, and creators that join and leave. *)
Inductive verification_op : Type :=
| Submits (username : string) (body : SubmitVerificationRequest)
| Looks (username : string)
| ListsPending (admin_key : option string)
| Reviews (admin_key : option string) (i : string) (body : ReviewVerificationRequest)
| Joins (username : string)
| Leaves (username : string).

Definition join (u : string) (t : VerificationTables) : VerificationTables :=
  if is_creator u t then t else with_badges (vt_creators t ++ [(u, false)]) t.

Definition leave (u : string) (t : VerificationTables) : VerificationTables :=
  with_requests (delete_where (of_creator u) (vt_requests t))
    (with_badges (delete_where (fun c => String.eqb (fst c) u) (vt_creators t)) t).

Definition verification_exec (o : verification_op) (w : Db VerificationTables) : Db VerificationTables :=
  match o with
  | Submits u body => snd (submit_verification_route u body w)
  | Looks u => snd (get_verification_route u w)
  | ListsPending key => snd (list_pending_route key w)
  | Reviews key i body => snd (review_verification_route key i body w)
  | Joins u => with_tables (join u (db_tables w)) w
  | Leaves u => with_tables (leave u (db_tables w)) w
  end.

Definition verification_world (admins : list (string * string)) : Db VerificationTables :=
  {| db_tables := {| vt_creators := []; vt_admins := admins; vt_requests := [] |}; db_now := 0; db_utc := 0; db_uuids := 0;
     db_faults := [] |}.

Definition verified_after (admins : list (string * string)) (l : list (happening verification_op)) : Db VerificationTables :=
  play verification_exec l (verification_world admins).
End operations.

(** ** What the tables keep *)

(** One request of each creator, and of creators only. *)
Record VerificationSound (t : VerificationTables) : Prop := {
  vs_creators : NoDup (fst <$> vt_creators t);
  vs_ids : NoDup (vf_id <$> vt_requests t);
  vs_once : NoDup (vf_creator_username <$> vt_requests t);
  vs_known : forall v, v ∈ vt_requests t -> vf_creator_username v ∈ (fst <$> vt_creators t);
  vs_status : forall v, v ∈ vt_requests t -> vf_status v ∈ ["pending"; "approved"; "rejected"]
}.

Lemma joined_spec u t : is_creator u t = true <-> u ∈ (fst <$> vt_creators t).
Proof.
  unfold is_creator. rewrite existsb_exists, list_elem_of_fmap. split.
  - intros (c & Hc%list_elem_of_In & He). apply String.eqb_eq in He. by exists c.
  - intros (c & -> & Hc%list_elem_of_In). exists c. by rewrite String.eqb_refl.
Qed.

(** A change of requests that keeps whose they are. *)
Lemma update_requests_sound p f t :
  (forall v, vf_id (f v) = vf_id v /\ vf_creator_username (f v) = vf_creator_username v) ->
  (forall v, v ∈ vt_requests t -> vf_status (f v) ∈ ["pending"; "approved"; "rejected"]) ->
  VerificationSound t -> VerificationSound (with_requests (update_where p f (vt_requests t)) t).
Proof.
  intros Hf Hs [Hc Hi Ho Hk Hst]. split; simpl; [done | | | |].
  - rewrite (update_where_fmap vf_id); [done | intros v; apply Hf].
  - rewrite (update_where_fmap vf_creator_username); [done | intros v; apply Hf].
  - intros v [[Hv _] | (r & Hr & _ & ->)]%elem_of_update_where; [by apply Hk|].
    rewrite (proj2 (Hf r)). by apply Hk.
  - intros v [[Hv _] | (r & Hr & _ & ->)]%elem_of_update_where; [by apply Hst | by apply Hs].
Qed.

Lemma upsert_request_sound i u req now t a t' :
  VerificationSound t -> upsert_request i u req now t = Ok (a, t') -> VerificationSound t'.
Proof.
  intros Ht. unfold upsert_request. destruct (find _ _) as [v|] eqn:Hf.
  - intros [= _ <-]. apply update_requests_sound; [done | | done]. intros r Hr. simpl.
    destruct (String.eqb _ _); [left | by apply Ht].
  - destruct (existsb (has_id i) _) eqn:Hi; [done|]. destruct (is_creator u t) eqn:Hu; [|done]. intros [= _ <-].
    rewrite existsb_false_iff in Hi. destruct Ht as [Hc Hid Ho Hk Hst]. split; simpl; [done | | | |].
    + rewrite fmap_app, NoDup_app. split; [done|]. split; [|apply NoDup_singleton].
      intros x (v & -> & Hv)%list_elem_of_fmap Heq%list_elem_of_singleton. apply Hi in Hv. unfold has_id in Hv.
      rewrite Heq in Hv. simpl in Hv. by rewrite String.eqb_refl in Hv.
    + rewrite fmap_app, NoDup_app. split; [done|]. split; [|apply NoDup_singleton].
      intros x (v & -> & Hv)%list_elem_of_fmap Heq%list_elem_of_singleton. apply list_elem_of_In in Hv.
      apply find_none with (x := v) in Hf; [|done]. unfold of_creator in Hf. rewrite Heq in Hf. simpl in Hf.
      by rewrite String.eqb_refl in Hf.
    + intros v [Hv | ->%list_elem_of_singleton]%elem_of_app; [by apply Hk | by apply joined_spec].
    + intros v [Hv | ->%list_elem_of_singleton]%elem_of_app; [by apply Hst | left].
Qed.

Lemma leave_sound u t : VerificationSound t -> VerificationSound (leave u t).
Proof.
  intros [Hc Hi Ho Hk Hst]. split; simpl.
  - eapply sublist_NoDup; [exact Hc | apply fmap_sublist, delete_where_sublist].
  - eapply sublist_NoDup; [exact Hi | apply fmap_sublist, delete_where_sublist].
  - eapply sublist_NoDup; [exact Ho | apply fmap_sublist, delete_where_sublist].
  - intros v [Hv Hne]%elem_of_delete_where. apply Hk, list_elem_of_fmap in Hv as (c & He & Hin).
    apply list_elem_of_fmap. exists c. split; [done|]. apply elem_of_delete_where. split; [done|].
    unfold of_creator in Hne. by rewrite <- He.
  - intros v [Hv _]%elem_of_delete_where. by apply Hst.
Qed.

Section histories.
Variable uuid : nat -> string.
Variable sha256_hex : string -> string.

Abbreviation exec := (verification_exec uuid sha256_hex).
Abbreviation reached := (verified_after uuid sha256_hex).

Lemma requests_statement {A} (J : VerificationTables -> Prop) (q : statement VerificationTables A) :
  (forall now t a t', J t -> q now t = Ok (a, t') -> J t') -> kept J (query (sql q)).
Proof. intros Hq. by apply stable_map_err, kept_sql. Qed.

Lemma requests_read {A} (J : VerificationTables -> Prop) (f : Z -> VerificationTables -> A) : kept J (query (select f)).
Proof. apply stable_map_err, kept_select. Qed.

(** The routes keep what their statements keep. *)
Section routes.
Variable J : VerificationTables -> Prop.
Hypothesis J_upsert : forall i u req now t a t', J t -> upsert_request i u req now t = Ok (a, t') -> J t'.

Lemma kept_submit u body : kept J (submit_verification_route uuid u body).
Proof using J_upsert.
  apply stable_bind; [|intros; apply stable_ret]. apply stable_bind; [apply requests_read|]. intros b.
  destruct (negb b); [apply stable_throw|]. apply stable_bind; [apply kept_fresh|]. intros i.
  apply requests_statement. intros. by eapply J_upsert.
Qed.

Lemma kept_look u : kept J (get_verification_route u).
Proof using Type. apply stable_bind; [apply requests_read | intros; apply stable_ret]. Qed.

Lemma kept_pending key : kept J (list_pending_route sha256_hex key).
Proof using Type.
  apply kept_require_admin, stable_bind; [apply requests_read | intros; apply stable_ret].
Qed.

(** A review, when settling keeps [J], and setting the badge of what it settled does. *)
Lemma kept_review (Q : CreatorVerification -> Prop) key i body :
  (forall status reviewer reason now t a t', status ∈ ["approved"; "rejected"] -> J t ->
     settle i status reviewer reason now t = Ok (a, t') -> J t' /\ match a with Some row => Q row | None => True end) ->
  (forall row now t a t', rw_approved body = true -> Q row -> J t ->
     set_badge (vf_creator_username row) now t = Ok (a, t') -> J t') ->
  kept J (review_verification_route sha256_hex key i body).
Proof using Type.
  intros Hs Hb. apply kept_require_admin, stable_bind.
  { apply stable_bind; [apply requests_read | intros; apply stable_ret]. }
  intros reviewer. apply stable_bind; [|intros; apply stable_ret]. unfold review_verification.
  set (status := if rw_approved body then _ else _).
  assert (status ∈ ["approved"; "rejected"]) as Hstatus by (subst status; destruct (rw_approved body); [left | right; left]).
  apply (stable_bind_value _ (fun o => match o with Some row => Q row | None => True end)).
  - apply requests_statement. intros now t a t' Ht E. by apply Hs in E as [? _].
  - intros w o w' Hw E. unfold query, map_err in E. destruct (sql _ w) as [[a | e] w1] eqn:Hq; [|done].
    injection E as -> _. apply sql_ok in Hq as [Hq _]. by apply Hs in Hq as [_ ?].
  - intros o HQ. apply (stable_bind_value _ Q); [apply stable_lift | |].
    + intros w row w' _ E. unfold expect, lift in E. destruct o; [|done]. by injection E as <-.
    + intros row Hrow. destruct (rw_approved body) eqn:Happ; [|apply stable_ret].
      apply stable_bind; [|intros; apply stable_ret]. apply requests_statement. intros. by eapply Hb.
Qed.
End routes.

Lemma exec_keeps_sound o w : VerificationSound (db_tables w) -> VerificationSound (db_tables (exec o w)).
Proof.
  intros Hw. destruct o as [u body | u | key | key i body | u | u]; simpl.
  - by apply (kept_submit VerificationSound); [apply upsert_request_sound|].
  - by apply kept_look.
  - by apply kept_pending.
  - apply (kept_review VerificationSound (fun _ => True)); [| |done].
    + intros status reviewer reason now t a t' Hs Ht [= <- <-]. split; [|by destruct (head _)].
      apply update_requests_sound; [done | | done]. intros v _. simpl. set_solver.
    + intros row now t a t' _ _ [Hc Hi Ho Hk Hst] [= <- <-].
      assert (fst <$> update_where (fun c => String.eqb (fst c) (vf_creator_username row)) (fun c => (fst c, true))
        (vt_creators t) = fst <$> vt_creators t) as E by (by apply update_where_fmap).
      by split; simpl; rewrite ?E.
  - unfold join. destruct (is_creator u (db_tables w)) eqn:Hu; [done|]. destruct Hw as [Hc Hi Ho Hk Hst].
    split; simpl; [| done | done | | done].
    + rewrite fmap_app, NoDup_app. split; [done|]. split; [|apply NoDup_singleton].
      intros x Hx Heq%list_elem_of_singleton. simpl in Heq. subst x. apply joined_spec in Hx. congruence.
    + intros v Hv. rewrite fmap_app. apply elem_of_app. left. by apply Hk.
  - by apply leave_sound.
Qed.

Theorem requests_sound admins l : VerificationSound (db_tables (reached admins l)).
Proof. apply (play_kept VerificationSound); [apply exec_keeps_sound|]. split; simpl; try apply NoDup_nil_2; set_solver. Qed.

(** ** Whose badge it is *)

(** [u] has no badge and the request [i], if there is one, is not its own. *)
Definition unbadged (u i : string) (t : VerificationTables) : Prop :=
  (u, true) ∉ vt_creators t /\ forall v, v ∈ vt_requests t -> vf_id v = i -> vf_creator_username v <> u.

Lemma review_unbadged u key i body : kept (unbadged u i) (review_verification_route sha256_hex key i body).
Proof.
  apply (kept_review _ (fun row => vf_creator_username row <> u)).
  - intros status reviewer reason now t a t' _ [Hn Hr] [= <- <-]. split; [split; [done|]|].
    + intros v [[Hv _] | (r & Hv & _ & ->)]%elem_of_update_where; [by apply Hr | exact (Hr r Hv)].
    + unfold updated. destruct (List.filter (has_id i) (vt_requests t)) as [|r rest] eqn:E; [done|]. simpl.
      assert (In r (List.filter (has_id i) (vt_requests t))) as [Hr1%list_elem_of_In Hr2]%filter_In by (rewrite E; by left).
      apply String.eqb_eq in Hr2. by apply Hr.
  - intros row now t a t' _ Hrow [Hn Hr] [= <- <-]. split; [|done]. simpl.
    intros [[Hv _] | (c & Hc & He & Hx)]%elem_of_update_where; [done|]. injection Hx as ->.
    by apply String.eqb_eq in He.
Qed.

(** A review that does not approve, or that no administrator asked for, sets no badge. *)
Lemma review_refused u key i body w :
  (u, true) ∉ vt_creators (db_tables w) ->
  (u, true) ∈ vt_creators (db_tables (snd (review_verification_route sha256_hex key i body w))) ->
  rw_approved body = true /\ exists raw, key = Some raw /\ is_admin (sha256_hex raw) (db_tables w) = true.
Proof.
  intros Hn Hin. split.
  - destruct (rw_approved body) eqn:Happ; [done|]. exfalso. revert Hin.
    apply (kept_review (fun t => (u, true) ∉ vt_creators t) (fun _ => True)); [| |done].
    + intros status reviewer reason now t a t' _ Ht [= <- <-]. split; [done | by destruct (head _)].
    + intros row now t a t' E. congruence.
  - destruct (review_verification_route _ _ _ _ w) as [r w'] eqn:E.
    apply require_admin_ran in E as [[Ht _] | (raw & w1 & Hk & Ha & _)]; [simpl in Hin; by rewrite Ht in Hin | by exists raw].
Qed.

Definition approves (u : string) (h : happening verification_op) (t : VerificationTables) : Prop :=
  exists raw i body v, h = Does (Reviews (Some raw) i body) /\ rw_approved body = true /\
    is_admin (sha256_hex raw) t = true /\ v ∈ vt_requests t /\ vf_id v = i /\ vf_creator_username v = u.

Lemma badge_step u h w :
  (u, true) ∈ vt_creators (db_tables (happens exec w h)) ->
  (u, true) ∈ vt_creators (db_tables w) \/ approves u h (db_tables w).
Proof.
  intros Hin. destruct (decide ((u, true) ∈ vt_creators (db_tables w))) as [Hw | Hw]; [by left|]. right.
  destruct h as [o | now utc | l]; [|done..]. destruct o as [u' body | u' | key | key i body | u' | u']; simpl in Hin.
  - exfalso. revert Hin. apply (kept_submit (fun t => (u, true) ∉ vt_creators t)); [|done].
    intros i u2 req now t a t' Ht. unfold upsert_request. destruct (find _ _); [by intros [= _ <-]|].
    destruct (existsb _ _); [done|]. destruct (is_creator _ _); [|done]. by intros [= _ <-].
  - exfalso. revert Hin. by apply (kept_look (fun t => (u, true) ∉ vt_creators t)).
  - exfalso. revert Hin. by apply (kept_pending (fun t => (u, true) ∉ vt_creators t)).
  - destruct (review_refused u key i body w Hw Hin) as (Happ & raw & -> & Ha).
    destruct (decide (Exists (fun v => vf_id v = i /\ vf_creator_username v = u) (vt_requests (db_tables w)))) as [He | He].
    + apply Exists_exists in He as (v & Hv & Hid & Hu). by exists raw, i, body, v.
    + exfalso. enough (unbadged u i (db_tables (snd (review_verification_route sha256_hex (Some raw) i body w)))) as [? _]
        by done. apply review_unbadged. split; [done|]. intros v Hv Hid Hu. apply He, Exists_exists. by exists v.
  - exfalso. apply Hw. revert Hin. unfold join. destruct (is_creator u' _); [done|]. simpl.
    intros [? | [=]%list_elem_of_singleton]%elem_of_app; done.
  - exfalso. apply Hw. by apply elem_of_delete_where in Hin as [? _].
Qed.

(** C28: In every history of requests one after another, and under any faults, a
    username has the badge only when before an administrator, one whose key's
    hash is stored, approved a request of this username. *)
Theorem badge_was_approved admins l u :
  (u, true) ∈ vt_creators (db_tables (reached admins l)) ->
  exists past h rest, l = past ++ h :: rest /\ approves u h (db_tables (reached admins past)).
Proof.
  induction l as [|h l IH] using rev_ind; [by intros ?%elem_of_nil|].
  unfold verified_after. rewrite play_app. intros [Hb | Ha]%badge_step.
  - apply IH in Hb as (past & h' & rest & -> & Hp). exists past, h', (rest ++ [h]). split; [|done].
    by rewrite <- app_assoc.
  - by exists l, h, [].
Qed.
End histories.

(** ** On concrete creators *)

Definition links (doc : string) : SubmitVerificationRequest :=
  {| sv_identity_doc_url := Some doc; sv_twitter_handle := None; sv_github_handle := None; sv_website_url := None |}.

Definition decide_on (b : bool) : ReviewVerificationRequest := {| rw_approved := b; rw_rejection_reason := None |}.

Definition office : list (string * string) := [("root-key", "root")].

Abbreviation settled l := (verified_after tally (fun s => s) office l).

Definition shown (w : Db VerificationTables) : list (string * bool) * list (string * option string * option string) :=
  (vt_creators (db_tables w), map (fun v => (vf_status v, vf_identity_doc_url v, vf_reviewed_by v)) (vt_requests (db_tables w))).

Definition approved : list (happening verification_op) :=
  [Does (Joins "ann"); Does (Submits "ann" (links "passport")); Does (Reviews (Some "root-key") (tally 0) (decide_on true))].

Example badge_is_set : shown (settled approved) = ([("ann", true)], [("approved", Some "passport", Some "root")]).
Proof. vm_compute. done. Qed.

(** What was approved can be replaced, and stays approved. *)
Example approved_document_replaced :
  shown (settled (approved ++ [Does (Submits "ann" (links "else"))])) = ([("ann", true)], [("approved", Some "else", None)]).
Proof. vm_compute. done. Qed.

(** A later rejection leaves the badge. *)
Example rejected_keeps_badge :
  shown (settled (approved ++ [Does (Reviews (Some "root-key") (tally 0) (decide_on false))])) =
  ([("ann", true)], [("rejected", Some "passport", Some "root")]).
Proof. vm_compute. done. Qed.

(** The second statement fails: approved, without the badge. *)
Example approved_without_badge :
  shown (settled (firstn 2 approved ++ [Weather [Fine; Fine; Fine; Refused];
    Does (Reviews (Some "root-key") (tally 0) (decide_on true))])) =
  ([("ann", false)], [("approved", Some "passport", Some "root")]).
Proof. vm_compute. done. Qed.

Lemma badge_was_approved_witness :
  exists past h rest, approved = past ++ h :: rest /\ approves (fun s => s) "ann" h (db_tables (settled past)).
Proof. apply (badge_was_approved tally (fun s => s) office approved "ann"). vm_compute. left. Defined.
