(* ===== verification/Flags.v ===== *)
(** * Feature flags

    src/src/controllers/feature_flag_controller.rs, src/src/models/feature_flag.rs
    and the handlers of src/src/routes/feature_flags.rs; the table is that of the
    migration that creates [feature_flags], with its CHECK and its UNIQUE name. *)

From S2P Require Import Prelude Text Codec Errors Sql Admin.

(** ** models/feature_flag.rs *)

(** The column [targeting], a JSON value: an array, whose elements may be
    strings, or another value. *)
Inductive Targeting : Type :=
| TArray (elements : list (option string))
| TOther (value : json).

(** src/src/models/feature_flag.rs:37-39 default_targeting *)
Definition default_targeting : Targeting := TArray [].

(** src/src/models/feature_flag.rs:6-15 FeatureFlag *)
Record FeatureFlag : Type := {
  ff_id : string;
  ff_name : string;
  ff_description : option string;
  ff_enabled : bool;
  ff_rollout_pct : Z;
  ff_targeting : Targeting;
  ff_created_at : Z;
  ff_updated_at : Z
}.

(** src/src/models/feature_flag.rs:18-27 CreateFlagRequest *)
Record CreateFlagRequest : Type := {
  cf_name : string;
  cf_description : option string;
  cf_enabled : bool;
  cf_rollout_pct : Z;
  cf_targeting : Targeting
}.

(** src/src/models/feature_flag.rs:30-35 UpdateFlagRequest *)
Record UpdateFlagRequest : Type := {
  uf_description : option string;
  uf_enabled : option bool;
  uf_rollout_pct : option Z;
  uf_targeting : option Targeting
}.

Record FlagTables : Type := {
  ft_admins : list (string * string);
  ft_flags : list FeatureFlag
}.

#[export] Instance flag_admins : Admins FlagTables := { admins := ft_admins }.

Definition with_flags (l : list FeatureFlag) (t : FlagTables) : FlagTables :=
  {| ft_admins := ft_admins t; ft_flags := l |}.

(** ** controllers/feature_flag_controller.rs *)

Section operations.
Variable uuid : nat -> string.
Variable sha256_hex : string -> string.
(** The order of texts in the collation of the database. *)
Variable text_leb : string -> string -> bool.

Definition Flag : Type -> Type := M (Db FlagTables) AppError.

(** [?] on a query *)
Definition query {A} (m : Sql FlagTables A) : Flag A := map_err app_error_from_sqlx m.

Definition named (name : string) (f : FeatureFlag) : bool := String.eqb (ff_name f) name.

Definition pct_check (pct : Z) : bool := (0 <=? pct) && (pct <=? 100).

(** src/src/controllers/feature_flag_controller.rs:7-15 list_flags *)
Definition list_flags : Flag (list FeatureFlag) :=
  query (select (fun _ t => sort_by (fun x y => text_leb (ff_name x) (ff_name y)) (ft_flags t))).

(** src/src/controllers/feature_flag_controller.rs:17-26 get_flag *)
Definition get_flag (name : string) : Flag (option FeatureFlag) :=
  query (select (fun _ t => find (named name) (ft_flags t))).

(** src/src/controllers/feature_flag_controller.rs:29-33 the statement of create_flag *)
Definition insert_flag (i : string) (req : CreateFlagRequest) : statement FlagTables FeatureFlag :=
  fun now t =>
    let f := {| ff_id := i; ff_name := cf_name req; ff_description := cf_description req; ff_enabled := cf_enabled req;
                ff_rollout_pct := cf_rollout_pct req; ff_targeting := cf_targeting req; ff_created_at := now;
                ff_updated_at := now |} in
    if negb (pct_check (cf_rollout_pct req)) then Err (check_violation "feature_flags_rollout_pct_check")
    else if existsb (fun x => String.eqb (ff_id x) i) (ft_flags t) then Err (unique_violation "feature_flags_pkey")
    else if existsb (named (cf_name req)) (ft_flags t) then Err (unique_violation "feature_flags_name_key")
    else Ok (f, with_flags (ft_flags t ++ [f]) t).

(** src/src/controllers/feature_flag_controller.rs:28-43 create_flag *)
Definition create_flag (req : CreateFlagRequest) : Flag FeatureFlag :=
  i ← fresh uuid;
  query (sql (insert_flag i req)).

(** src/src/controllers/feature_flag_controller.rs:52-56 what an update does to the row *)
Definition update_row (req : UpdateFlagRequest) (now : Z) (f : FeatureFlag) : FeatureFlag :=
  {| ff_id := ff_id f; ff_name := ff_name f;
     ff_description := match uf_description req with Some d => Some d | None => ff_description f end;
     ff_enabled := default (ff_enabled f) (uf_enabled req);
     ff_rollout_pct := default (ff_rollout_pct f) (uf_rollout_pct req);
     ff_targeting := default (ff_targeting f) (uf_targeting req); ff_created_at := ff_created_at f; ff_updated_at := now |}.

(** src/src/controllers/feature_flag_controller.rs:51-58 the statement of update_flag *)
Definition change_flag (name : string) (req : UpdateFlagRequest) : statement FlagTables (option FeatureFlag) :=
  fun now t =>
    let rows := updated (named name) (update_row req now) (ft_flags t) in
    if forallb (fun f => pct_check (ff_rollout_pct f)) rows then
      Ok (head rows, with_flags (update_where (named name) (update_row req now) (ft_flags t)) t)
    else Err (check_violation "feature_flags_rollout_pct_check").

(** src/src/controllers/feature_flag_controller.rs:45-68 update_flag *)
Definition update_flag (name : string) (req : UpdateFlagRequest) : Flag (option FeatureFlag) :=
  query (sql (change_flag name req)).

(** src/src/controllers/feature_flag_controller.rs:70-76 delete_flag *)
Definition delete_flag (name : string) : Flag bool :=
  query (sql (fun _ t => Ok (existsb (named name) (ft_flags t), with_flags (delete_where (named name) (ft_flags t)) t))).

(** src/src/controllers/feature_flag_controller.rs:107-109 one byte of the hash *)
Definition hash_byte (acc : Z) (c : ascii) : Z := wrap_u32 (wrap_u32 (acc * 31) + byte c).

(** src/src/controllers/feature_flag_controller.rs:106-111 username_bucket *)
Definition username_bucket (username : string) : Z :=
  fold_left hash_byte (list_ascii_of_string username) 0 mod 100.

(** src/src/controllers/feature_flag_controller.rs:89-91 the target list of a flag *)
Definition targets (username : string) (f : FeatureFlag) : bool :=
  match ff_targeting f with
  | TArray l => existsb (fun e => bool_decide (e = Some username)) l
  | TOther _ => false
  end.

(** src/src/controllers/feature_flag_controller.rs:81-103 evaluate *)
Definition evaluate (flag_name username : string) : Flag bool :=
  flag ← get_flag flag_name;
  match flag with
  | None => mret false
  | Some flag =>
      if negb (ff_enabled flag) then mret false
      else if targets username flag then mret true
      else if 100 <=? ff_rollout_pct flag then mret true
      else if 0 <? ff_rollout_pct flag then
        mret (username_bucket username <? Z.land (ff_rollout_pct flag) u8_max)
      else mret false
  end.

(** ** routes/feature_flags.rs *)

(** src/src/routes/feature_flags.rs:36-41 list_flags *)
Definition list_flags_route (admin_key : option string) : Flag (Z * list FeatureFlag) :=
  require_admin sha256_hex admin_key (flags ← list_flags; mret (200, flags)).

(** src/src/routes/feature_flags.rs:43-56 get_flag *)
Definition get_flag_route (admin_key : option string) (name : string) : Flag (Z * option FeatureFlag) :=
  require_admin sha256_hex admin_key
    (flag ← get_flag name; mret (match flag with Some f => (200, Some f) | None => (404, None) end)).

(** src/src/routes/feature_flags.rs:58-66 create_flag *)
Definition create_flag_route (admin_key : option string) (body : CreateFlagRequest) : Flag (Z * FeatureFlag) :=
  require_admin sha256_hex admin_key (flag ← create_flag body; mret (201, flag)).

(** src/src/routes/feature_flags.rs:68-82 update_flag *)
Definition update_flag_route (admin_key : option string) (name : string) (body : UpdateFlagRequest)
    : Flag (Z * option FeatureFlag) :=
  require_admin sha256_hex admin_key
    (flag ← update_flag name body; mret (match flag with Some f => (200, Some f) | None => (404, None) end)).

(** src/src/routes/feature_flags.rs:84-101 delete_flag *)
Definition delete_flag_route (admin_key : option string) (name : string) : Flag Z :=
  require_admin sha256_hex admin_key (deleted ← delete_flag name; mret (if deleted : bool then 200 else 404)).

(** src/src/routes/feature_flags.rs:103-116 evaluate_flag *)
Definition evaluate_flag_route (name username : string) : Flag (Z * bool) :=
  enabled ← evaluate name username; mret (200, enabled).

Inductive flag_op : Type :=
| ListFlags (admin_key : option string)
| GetFlag (admin_key : option string) (name : string)
| CreateFlag (admin_key : option string) (body : CreateFlagRequest)
| UpdateFlag (admin_key : option string) (name : string) (body : UpdateFlagRequest)
| DeleteFlag (admin_key : option string) (name : string)
| EvaluateFlag (name username : string).

Definition flag_exec (o : flag_op) (w : Db FlagTables) : Db FlagTables :=
  match o with
  | ListFlags key => snd (list_flags_route key w)
  | GetFlag key name => snd (get_flag_route key name w)
  | CreateFlag key body => snd (create_flag_route key body w)
  | UpdateFlag key name body => snd (update_flag_route key name body w)
  | DeleteFlag key name => snd (delete_flag_route key name w)
  | EvaluateFlag name username => snd (evaluate_flag_route name username w)
  end.

Definition flags_after (admins : list (string * string)) (l : list (happening flag_op)) : Db FlagTables :=
  play flag_exec l {| db_tables := {| ft_admins := admins; ft_flags := [] |}; db_now := 0; db_utc := 0; db_uuids := 0;
                      db_faults := [] |}.
End operations.

(** ** What the table keeps *)

Record FlagsSound (t : FlagTables) : Prop := {
  fs_names : NoDup (ff_name <$> ft_flags t);
  fs_pct : forall f, f ∈ ft_flags t -> 0 <= ff_rollout_pct f <= 100
}.

Lemma pct_check_spec pct : pct_check pct = true <-> 0 <= pct <= 100.
Proof. unfold pct_check. rewrite andb_true_iff, !Z.leb_le. done. Qed.

Lemma insert_flag_sound i req now t a t' : FlagsSound t -> insert_flag i req now t = Ok (a, t') -> FlagsSound t'.
Proof.
  intros [Hn Hp]. unfold insert_flag. destruct (pct_check (cf_rollout_pct req)) eqn:Hc; [|done].
  destruct (existsb _ (ft_flags t)); [done|]. destruct (existsb (named _) _) eqn:He; [done|]. intros [= _ <-].
  rewrite existsb_false_iff in He. split; simpl.
  - rewrite fmap_app, NoDup_app. split; [done|]. split; [|apply NoDup_singleton].
    intros x (f & -> & Hf)%list_elem_of_fmap Heq%list_elem_of_singleton. apply He in Hf. unfold named in Hf.
    rewrite Heq in Hf. simpl in Hf. by rewrite String.eqb_refl in Hf.
  - intros f [Hf | ->%list_elem_of_singleton]%elem_of_app; [by apply Hp | by apply pct_check_spec].
Qed.

Lemma change_flag_sound name req now t a t' : FlagsSound t -> change_flag name req now t = Ok (a, t') -> FlagsSound t'.
Proof.
  intros [Hn Hp]. unfold change_flag. destruct (forallb _ _) eqn:Hc; [|done]. intros [= _ <-]. split; simpl.
  - by rewrite (update_where_fmap ff_name).
  - intros f [[Hf _] | (r & Hr & Hname & ->)]%elem_of_update_where; [by apply Hp|]. apply pct_check_spec.
    rewrite forallb_forall in Hc. apply Hc. apply in_map, filter_In. by rewrite <- list_elem_of_In.
Qed.

Section histories.
Variable uuid : nat -> string.
Variable sha256_hex : string -> string.
Variable text_leb : string -> string -> bool.

Lemma flags_statement {A} (q : statement FlagTables A) :
  (forall now t a t', FlagsSound t -> q now t = Ok (a, t') -> FlagsSound t') -> kept FlagsSound (query (sql q)).
Proof. intros Hq. by apply stable_map_err, kept_sql. Qed.

Lemma flags_read {A} (f : Z -> FlagTables -> A) : kept FlagsSound (query (select f)).
Proof. apply stable_map_err, kept_select. Qed.

Lemma flag_exec_sound o w : FlagsSound (db_tables w) -> FlagsSound (db_tables (flag_exec uuid sha256_hex text_leb o w)).
Proof.
  revert w. destruct o as [key | key name | key body | key name body | key name | name u].
  - refine (kept_require_admin _ FlagsSound _ _ _). apply stable_bind; [apply flags_read | intros; apply stable_ret].
  - refine (kept_require_admin _ FlagsSound _ _ _). apply stable_bind; [apply flags_read | intros; apply stable_ret].
  - refine (kept_require_admin _ FlagsSound _ _ _). apply stable_bind; [|intros; apply stable_ret].
    apply stable_bind; [apply kept_fresh|]. intros i. apply flags_statement. intros. by eapply insert_flag_sound.
  - refine (kept_require_admin _ FlagsSound _ _ _). apply stable_bind; [|intros; apply stable_ret].
    apply flags_statement. intros. by eapply change_flag_sound.
  - refine (kept_require_admin _ FlagsSound _ _ _). apply stable_bind; [|intros; apply stable_ret].
    apply flags_statement. intros now t a t' [Hn Hp] [= _ <-]. split; simpl.
    + eapply sublist_NoDup; [exact Hn | apply fmap_sublist, delete_where_sublist].
    + intros f [Hf _]%elem_of_delete_where. by apply Hp.
  - refine (stable_bind (fun w => FlagsSound (db_tables w)) _ _ _ (fun _ => stable_ret _ _)).
    apply stable_bind; [apply flags_read|]. intros [f|]; [|apply stable_ret]. case_all; apply stable_ret.
Qed.

Theorem flags_sound admins l : FlagsSound (db_tables (flags_after uuid sha256_hex text_leb admins l)).
Proof. apply (play_kept FlagsSound); [apply flag_exec_sound|]. split; simpl; [apply NoDup_nil_2 | set_solver]. Qed.

(** ** Evaluation *)

Lemma username_bucket_range u : 0 <= username_bucket u < 100.
Proof. apply Z.mod_pos_bound. done. Qed.

(** Whether a flag is on for a username: enabled, and the username is targeted
    or its bucket is below the percentage. *)
Definition on_for (username : string) (f : FeatureFlag) : Prop :=
  ff_enabled f = true /\ (targets username f = true \/ username_bucket username < ff_rollout_pct f).

Lemma evaluate_flag_spec u f : 0 <= ff_rollout_pct f <= 100 ->
  (if negb (ff_enabled f) then false
   else if targets u f then true
   else if 100 <=? ff_rollout_pct f then true
   else if 0 <? ff_rollout_pct f then username_bucket u <? Z.land (ff_rollout_pct f) u8_max
   else false) = true <-> on_for u f.
Proof.
  intros Hp. unfold on_for. pose proof (username_bucket_range u) as Hb.
  replace (Z.land (ff_rollout_pct f) u8_max) with (ff_rollout_pct f)
    by (unfold u8_max; change (2 ^ 8 - 1) with (Z.ones 8); rewrite Z.land_ones, Z.mod_small; lia).
  destruct (ff_enabled f); simpl; [|naive_solver]. destruct (targets u f); [naive_solver|].
  destruct (100 <=? _) eqn:H1; [|destruct (0 <? _) eqn:H2]; zbool.
  - split; [intros _; split; [done | right; lia] | done].
  - rewrite Z.ltb_lt. split; [by auto | by intros [_ [? | ?]]].
  - split; [done | intros [_ [? | ?]]; [done | lia]].
Qed.

(** In every history of the administrators' requests and under any faults, an
    evaluation that is answered says whether there is a flag of the name that is
    enabled and targets the username or has its bucket below the percentage. *)
Theorem evaluate_decides admins l name u b w' :
  let w := flags_after uuid sha256_hex text_leb admins l in
  evaluate name u w = (Ok b, w') ->
  b = true <-> exists f, f ∈ ft_flags (db_tables w) /\ ff_name f = name /\ on_for u f.
Proof.
  intros w. pose proof (flags_sound admins l) as [Hn Hp]. fold w in Hn, Hp.
  unfold evaluate, get_flag, query, map_err. bind_step.
  destruct (select _ w) as [[o | e] w1] eqn:Hs; [|done]. apply select_ok in Hs as (-> & _ & _).
  destruct (find (named name) _) as [f|] eqn:Hf.
  - apply find_some in Hf as [Hf%list_elem_of_In Hname%String.eqb_eq]. pose proof (evaluate_flag_spec u f (Hp f Hf)) as Hspec.
    intros H. assert (b = if negb (ff_enabled f) then false else if targets u f then true
      else if 100 <=? ff_rollout_pct f then true
      else if 0 <? ff_rollout_pct f then username_bucket u <? Z.land (ff_rollout_pct f) u8_max else false) as ->.
    { revert H. case_all; by intros [= <- _]. }
    rewrite Hspec. split; [by exists f|]. intros (g & Hg & Hgn & Hon).
    assert (g = f) as -> by (eapply nodup_key_inj; [exact Hn | done | done | congruence]). done.
  - intros [= <- _]. split; [done|]. intros (g & Hg & Hgn & _). apply list_elem_of_In in Hg.
    apply find_none with (x := g) in Hf; [|done]. unfold named in Hf. by rewrite Hgn, String.eqb_refl in Hf.
Qed.

(** A rollout only grows: an update that changes nothing but the percentage,
    to a greater one, leaves the flag on for all it was on for. *)
Theorem rollout_grows f now u pct :
  ff_rollout_pct f <= pct -> on_for u f ->
  on_for u (update_row {| uf_description := None; uf_enabled := None; uf_rollout_pct := Some pct; uf_targeting := None |}
              now f).
Proof. intros Hle [He [Ht | Hb]]; (split; [done|]); [by left | right; simpl; lia]. Qed.

(** Nothing but the administrators' requests changes the flags: a request
    without the key of one leaves them as they are. *)
Theorem flags_are_guarded o w :
  (forall raw, match o with
               | ListFlags k | GetFlag k _ | CreateFlag k _ | UpdateFlag k _ _ | DeleteFlag k _ => k = Some raw
               | EvaluateFlag _ _ => False
               end -> is_admin (sha256_hex raw) (db_tables w) = false) ->
  db_tables (flag_exec uuid sha256_hex text_leb o w) = db_tables w.
Proof.
  assert (forall A key (m : Flag A), (forall raw, key = Some raw -> is_admin (sha256_hex raw) (db_tables w) = false) ->
    db_tables (snd (require_admin sha256_hex key m w)) = db_tables w) as Hguard.
  { intros A key m Hkey. destruct (require_admin sha256_hex key m w) as [r w'] eqn:E.
    apply require_admin_ran in E as [[Ht _] | (raw & w1 & Hk & Ha & _)]; [done|].
    apply Hkey in Hk. congruence. }
  intros Ho. destruct o as [key | key name | key body | key name body | key name | name u]; try (by apply Hguard).
  refine (stable_bind (fun w1 => db_tables w1 = db_tables w) _ _ _ (fun _ => stable_ret _ _) w eq_refl).
  apply stable_bind; [apply stable_map_err, (kept_select (fun t => t = db_tables w))|].
  intros [f|]; [case_all|]; apply stable_ret.
Qed.
End histories.

(** ** On concrete flags *)

Definition flag_office : list (string * string) := [("root-key", "root")].

Abbreviation flagged l := (flags_after tally (fun s => s) (fun _ _ => true) flag_office l).

Definition half : CreateFlagRequest :=
  {| cf_name := "dark"; cf_description := None; cf_enabled := true; cf_rollout_pct := 50;
     cf_targeting := TArray [Some "zoe"; None] |}.

Definition told (r : result bool AppError * Db FlagTables) : option bool := match fst r with Ok b => Some b | Err _ => None end.

Example half_rolled_out :
  map (fun u => (username_bucket u, told (evaluate "dark" u (flagged [Does (CreateFlag (Some "root-key") half)]))))
    ["ann"; "kim"; "zoe"] = [(37, Some true); (91, Some false); (84, Some true)].
Proof. vm_compute. done. Qed.

Lemma evaluate_decides_witness :
  exists f, f ∈ ft_flags (db_tables (flagged [Does (CreateFlag (Some "root-key") half)])) /\ ff_name f = "dark" /\
    on_for "zoe" f.
Proof.
  apply (evaluate_decides tally (fun s => s) (fun _ _ => true) flag_office [Does (CreateFlag (Some "root-key") half)]
    "dark" "zoe" true (flagged [Does (CreateFlag (Some "root-key") half)])); [vm_compute; reflexivity | reflexivity].
Defined.
