(* ===== verification/Analytics.v ===== *)
(** * Analytics of the stream of tips

    src/src/analytics/: a task that subscribes to the broadcast of tips and, for
    each, updates the statistics of the creator, looks for an anomaly, counts the
    tip in the window of its minute and evaluates the alerts.  The tables are
    those of the migrations of [creator_stats] and [analytics_windows]; of the
    rows the ids are left out, which nothing reads.  The sliding window of
    windowing.rs is here too. *)

From S2P Require Import Prelude Errors TipPipeline Sql.

(** ** The tables *)

Record CreatorStats : Type := {
  st_creator_username : string;
  st_tip_count : Z;
  st_total : Z;
  st_avg : Z;
  st_last_tip_at : Z;
  st_updated_at : Z
}.

Record Window : Type := {
  wn_creator_username : string;
  wn_bucket : Z;
  wn_total : Z;
  wn_tip_count : Z
}.

Record Anomaly : Type := {
  an_creator_username : string;
  an_amount : Z;
  an_baseline : Z;
  an_detected_at : Z
}.

Record Alert : Type := {
  al_creator_username : string;
  al_alert_type : string;
  al_value : Z;
  al_fired_at : Z
}.

Record AnalyticsTables : Type := {
  at_stats : list CreatorStats;
  at_windows : list Window;
  at_anomalies : list Anomaly;
  at_alerts : list Alert
}.

Definition with_stats (l : list CreatorStats) (t : AnalyticsTables) : AnalyticsTables :=
  {| at_stats := l; at_windows := at_windows t; at_anomalies := at_anomalies t; at_alerts := at_alerts t |}.
Definition with_windows (l : list Window) (t : AnalyticsTables) : AnalyticsTables :=
  {| at_stats := at_stats t; at_windows := l; at_anomalies := at_anomalies t; at_alerts := at_alerts t |}.
Definition with_anomalies (l : list Anomaly) (t : AnalyticsTables) : AnalyticsTables :=
  {| at_stats := at_stats t; at_windows := at_windows t; at_anomalies := l; at_alerts := at_alerts t |}.
Definition with_alerts (l : list Alert) (t : AnalyticsTables) : AnalyticsTables :=
  {| at_stats := at_stats t; at_windows := at_windows t; at_anomalies := at_anomalies t; at_alerts := l |}.

Definition Analytics : Type -> Type := M (Db AnalyticsTables) AppError.

(** [?] on a query *)
Definition query {A} (m : Sql AnalyticsTables A) : Analytics A := map_err app_error_from_sqlx m.

(** A sum of BIGINTs out of range. *)
Definition out_of_range : sqlx_error := SqlxDatabase (Some "22003") None.

(** ** analytics/aggregators.rs *)

Definition of_creator (u : string) (s : CreatorStats) : bool := String.eqb (st_creator_username s) u.

(** src/src/analytics/aggregators.rs:17-20 the new columns of a row *)
Definition count_tip (amount now : Z) (s : CreatorStats) : CreatorStats :=
  {| st_creator_username := st_creator_username s; st_tip_count := st_tip_count s + 1; st_total := st_total s + amount;
     st_avg := Z.quot (st_total s + amount) (st_tip_count s + 1); st_last_tip_at := now; st_updated_at := now |}.

(** src/src/analytics/aggregators.rs:13-22 the statement of update_creator_stats *)
Definition upsert_stats (u : string) (amount : Z) : statement AnalyticsTables unit :=
  fun now t =>
    match find (of_creator u) (at_stats t) with
    | Some s =>
        match i64_checked (st_total s + amount), i64_checked (st_tip_count s + 1) with
        | Some _, Some _ => Ok (tt, with_stats (update_where (of_creator u) (count_tip amount now) (at_stats t)) t)
        | _, _ => Err out_of_range
        end
    | None =>
        Ok (tt, with_stats (at_stats t ++ [{| st_creator_username := u; st_tip_count := 1; st_total := amount;
                                              st_avg := amount; st_last_tip_at := now; st_updated_at := now |}]) t)
    end.

(** src/src/analytics/aggregators.rs:7-29 update_creator_stats *)
Definition update_creator_stats (u : string) (amount_stroops : Z) : Analytics unit :=
  query (sql (upsert_stats u (wrap_i64 amount_stroops))).

(** The columns of the row, or zeros. *)
Definition stats_of (u : string) (t : AnalyticsTables) : Z * Z :=
  match find (of_creator u) (at_stats t) with Some s => (st_tip_count s, st_avg s) | None => (0, 0) end.

(** src/src/analytics/aggregators.rs:32-40 get_creator_stats *)
Definition get_creator_stats (u : string) : Analytics (Z * Z) := query (select (fun _ t => stats_of u t)).

(** ** analytics/anomaly_detector.rs *)

(** src/src/analytics/anomaly_detector.rs:6-6 SPIKE_THRESHOLD *)
Definition SPIKE_THRESHOLD : Z := 10.

(** src/src/analytics/anomaly_detector.rs:28-28 is_spike *)
Definition is_spike (amount_stroops avg : Z) : bool := u64_saturating_mul (wrap_u64 avg) SPIKE_THRESHOLD <? amount_stroops.

(** src/src/analytics/anomaly_detector.rs:10-48 check_and_log *)
Definition check_and_log (u : string) (amount_stroops : Z) : Analytics bool :=
  stats ← query (select (fun _ t => stats_of u t));
  let '(tip_count, avg) := stats in
  if (tip_count <? 5) || (avg =? 0) then mret false
  else if is_spike amount_stroops avg then
    _ ← query (sql (fun now t =>
          Ok (tt, with_anomalies (at_anomalies t ++ [{| an_creator_username := u; an_amount := wrap_i64 amount_stroops;
                                                        an_baseline := avg; an_detected_at := now |}]) t)));
    mret true
  else mret false.

(** ** analytics/windowing.rs: the tumbling window *)

(** [date_trunc('minute', now())] *)
Definition minute (now : Z) : Z := now - now mod 60000000.

Definition of_bucket (u : string) (bucket : Z) (w : Window) : bool :=
  String.eqb (wn_creator_username w) u && (wn_bucket w =? bucket).

Definition count_in_window (amount : Z) (w : Window) : Window :=
  {| wn_creator_username := wn_creator_username w; wn_bucket := wn_bucket w; wn_total := wn_total w + amount;
     wn_tip_count := wn_tip_count w + 1 |}.

(** src/src/analytics/windowing.rs:60-68 the statement of update_tumbling_window *)
Definition upsert_window (u : string) (amount : Z) : statement AnalyticsTables (Z * Z) :=
  fun now t =>
    match find (of_bucket u (minute now)) (at_windows t) with
    | Some w =>
        match i64_checked (wn_total w + amount), i64_checked (wn_tip_count w + 1) with
        | Some total, Some count =>
            Ok ((total, count), with_windows (update_where (of_bucket u (minute now)) (count_in_window amount) (at_windows t)) t)
        | _, _ => Err out_of_range
        end
    | None =>
        Ok ((amount, 1), with_windows (at_windows t ++ [{| wn_creator_username := u; wn_bucket := minute now;
                                                          wn_total := amount; wn_tip_count := 1 |}]) t)
    end.

(** src/src/analytics/windowing.rs:55-75 update_tumbling_window *)
Definition update_tumbling_window (u : string) (amount_stroops : Z) : Analytics (Z * Z) :=
  query (sql (upsert_window u (wrap_i64 amount_stroops))).

(** ** analytics/alerting.rs *)

(** src/src/analytics/alerting.rs:6-6 MIN_WINDOW_TIPS *)
Definition MIN_WINDOW_TIPS : Z := 3.

(** src/src/analytics/alerting.rs:8-8 HIGH_VOLUME_THRESHOLD_STROOPS *)
Definition HIGH_VOLUME_THRESHOLD_STROOPS : Z := 1000000000.

Definition same_alert (a b : Alert) : bool :=
  String.eqb (al_creator_username a) (al_creator_username b) && String.eqb (al_alert_type a) (al_alert_type b) &&
  (al_fired_at a =? al_fired_at b).

(** src/src/analytics/alerting.rs:23-27 the statement that keeps an alert *)
Definition insert_alert (u : string) (value : Z) : statement AnalyticsTables unit :=
  fun now t =>
    let a := {| al_creator_username := u; al_alert_type := "high_volume_window"; al_value := value; al_fired_at := now |} in
    Ok (tt, if existsb (same_alert a) (at_alerts t) then t else with_alerts (at_alerts t ++ [a]) t).

(** src/src/analytics/alerting.rs:12-41 evaluate *)
Definition evaluate (u : string) (window_total_stroops window_tip_count : Z) : Analytics unit :=
  if window_tip_count <? MIN_WINDOW_TIPS then mret tt
  else if HIGH_VOLUME_THRESHOLD_STROOPS <=? window_total_stroops then
    query (sql (insert_alert u window_total_stroops))
  else mret tt.

(** ** analytics/stream_processor.rs *)

(** The errors of the parts are logged and dropped.
    src/src/analytics/stream_processor.rs:27-52 process *)
Definition process (event : TipEvent) : M (Db AnalyticsTables) Empty_set unit :=
  _ ← attempt (update_creator_stats (ev_creator_id event) (ev_amount event));
  _ ← attempt (check_and_log (ev_creator_id event) (ev_amount event));
  w ← attempt (update_tumbling_window (ev_creator_id event) (ev_amount event));
  let '(window_total, window_count) := match w with Ok p => p | Err _ => (0, 0) end in
  _ ← attempt (evaluate (ev_creator_id event) window_total window_count);
  mret tt.

(** What the channel hands the task: an event, how many it lost, or its end. *)
Inductive received : Type :=
| Event (e : TipEvent)
| Lagged (n : Z)
| Closed.

Definition receive (r : received) (w : Db AnalyticsTables) : Db AnalyticsTables :=
  match r with Event e => snd (process e w) | _ => w end.

(** The task over what it receives, while the clock moves and faults are drawn.
    src/src/analytics/stream_processor.rs:15-25 run *)
Fixpoint run (l : list (happening received)) (w : Db AnalyticsTables) : Db AnalyticsTables :=
  match l with
  | [] => w
  | Does Closed :: _ => w
  | h :: l' => run l' (happens receive w h)
  end.

(** ** analytics/windowing.rs: the sliding window *)

Section sliding.
(** The length of the window. *)
Variable duration : Z.

(** src/src/analytics/windowing.rs:15-19 WindowMetrics *)
Record WindowMetrics : Type := {
  wm_count : nat;
  wm_total_stroops : Z;
  wm_avg_stroops : Z
}.

(** The events of a window, the oldest first: an instant and an amount.
    src/src/analytics/windowing.rs:34-39 TimeWindow::evict *)
Fixpoint evict_before (cutoff : Z) (events : list (Z * Z)) : list (Z * Z) :=
  match events with
  | [] => []
  | (t, a) :: rest => if t <? cutoff then evict_before cutoff rest else events
  end.

Definition evict (now : Z) (events : list (Z * Z)) : list (Z * Z) := evict_before (now - duration) events.

(** src/src/analytics/windowing.rs:29-32 TimeWindow::push *)
Definition push (now amount_stroops : Z) (events : list (Z * Z)) : list (Z * Z) :=
  evict now events ++ [(now, amount_stroops)].

(** The sum of [u64]s wraps, as in a release build.
    src/src/analytics/windowing.rs:41-50 TimeWindow::metrics *)
Definition metrics (now : Z) (events : list (Z * Z)) : WindowMetrics * list (Z * Z) :=
  let events := evict now events in
  let count := length events in
  let total := fold_left (fun acc e => wrap_u64 (acc + snd e)) events 0 in
  ({| wm_count := count; wm_total_stroops := total;
      wm_avg_stroops := if (0 <? count)%nat then total / Z.of_nat count else 0 |}, events).
End sliding.

(** ** What the tables keep, under any faults *)

Record AnalyticsSound (t : AnalyticsTables) : Prop := {
  as_creators : NoDup (st_creator_username <$> at_stats t);
  as_average : forall s, s ∈ at_stats t -> 0 < st_tip_count s /\ st_avg s = Z.quot (st_total s) (st_tip_count s);
  as_alerts : forall a, a ∈ at_alerts t -> HIGH_VOLUME_THRESHOLD_STROOPS <= al_value a
}.

Lemma upsert_stats_sound u amount now t a t' : AnalyticsSound t -> upsert_stats u amount now t = Ok (a, t') -> AnalyticsSound t'.
Proof.
  intros [Hc Ha Hal]. unfold upsert_stats. destruct (find _ _) as [s|] eqn:Hf.
  - destruct (i64_checked _); [|done]. destruct (i64_checked _); [|done]. intros [= _ <-]. split; simpl; [ | | done].
    + by rewrite (update_where_fmap st_creator_username).
    + intros r [[Hr _] | (r' & Hr & _ & ->)]%elem_of_update_where; [by apply Ha|]. apply Ha in Hr as [? _].
      simpl. split; [lia | done].
  - intros [= _ <-]. split; simpl; [ | | done].
    + rewrite fmap_app, NoDup_app. split; [done|]. split; [|apply NoDup_singleton].
      intros x (s & -> & Hs)%list_elem_of_fmap Heq%list_elem_of_singleton. apply list_elem_of_In in Hs.
      apply find_none with (x := s) in Hf; [|done]. unfold of_creator in Hf. rewrite Heq in Hf. simpl in Hf.
      by rewrite String.eqb_refl in Hf.
    + intros s [Hs | ->%list_elem_of_singleton]%elem_of_app; [by apply Ha|]. simpl. by rewrite Z.quot_1_r.
Qed.

Lemma query_kept {A} (J : AnalyticsTables -> Prop) (q : statement AnalyticsTables A) :
  (forall now t a t', J t -> q now t = Ok (a, t') -> J t') -> kept J (query (sql q)).
Proof. intros Hq. by apply stable_map_err, kept_sql. Qed.

Lemma process_sound e : kept AnalyticsSound (process e).
Proof.
  unfold process. apply stable_bind.
  { apply stable_attempt, query_kept. intros. by eapply upsert_stats_sound. }
  intros _. apply stable_bind.
  { apply stable_attempt. unfold check_and_log. apply stable_bind; [apply stable_map_err, kept_select|].
    intros [count avg]. destruct (_ || _); [apply stable_ret|]. destruct (is_spike _ _); [|apply stable_ret].
    apply stable_bind; [|intros; apply stable_ret]. apply query_kept. intros now t a t' [? ? ?] [= _ <-]. by split. }
  intros _. apply stable_bind.
  { apply stable_attempt, query_kept. intros now t a t' [? ? ?]. unfold upsert_window. destruct (find _ _).
    - destruct (i64_checked _); [|done]. destruct (i64_checked _); [|done]. intros [= _ <-]. by split.
    - intros [= _ <-]. by split. }
  intros w. destruct (match w with Ok p => p | Err _ => (0, 0) end) as [total count].
  apply stable_bind; [|intros; apply stable_ret]. apply stable_attempt. unfold evaluate.
  destruct (count <? _); [apply stable_ret|]. destruct (HIGH_VOLUME_THRESHOLD_STROOPS <=? total) eqn:Ht; [|apply stable_ret].
  apply query_kept. intros now t a t' [? ? Hal] [= _ <-]. destruct (existsb _ _); [by split|].
  split; simpl; [done | done |]. intros x [Hx | ->%list_elem_of_singleton]%elem_of_app; [by apply Hal|]. simpl. lia.
Qed.

(** Under any faults and losses there is one row of statistics for a creator,
    its average is its total over its count, and an alert tells of a volume at or
    above the threshold. *)
Theorem analytics_sound l w : AnalyticsSound (db_tables w) -> AnalyticsSound (db_tables (run l w)).
Proof.
  revert w. induction l as [|h l IH]; intros w Hw; [done|]. destruct h as [[e | n |] | now utc | faults]; simpl; auto.
  apply IH. by apply process_sound.
Qed.

(** ** What the tables tell of the tips, without faults *)

(** The amounts of a creator that were received, and all events. *)
Fixpoint delivered (l : list (happening received)) : list TipEvent :=
  match l with
  | [] => []
  | Does (Event e) :: l' => e :: delivered l'
  | Does Closed :: _ => []
  | _ :: l' => delivered l'
  end.

Definition amounts_of (u : string) (l : list TipEvent) : list Z :=
  map ev_amount (List.filter (fun e => String.eqb (ev_creator_id e) u) l).

Lemma amounts_of_snoc u l e :
  amounts_of u (l ++ [e]) = amounts_of u l ++ (if String.eqb (ev_creator_id e) u then [ev_amount e] else []).
Proof. unfold amounts_of. rewrite List.filter_app, map_app. simpl. by destruct (String.eqb _ _). Qed.

(** The tables after a statement whose errors are dropped. *)
Definition effect {A} (q : statement AnalyticsTables A) (now : Z) (t : AnalyticsTables) : AnalyticsTables :=
  match q now t with Ok (_, t') => t' | Err _ => t end.

Lemma query_calm_effect {A} (q : statement AnalyticsTables A) (w : Db AnalyticsTables) : db_faults w = [] ->
  exists r, query (sql q) w = (r, with_tables (effect q (db_now w) (db_tables w)) w) /\
    forall a t, q (db_now w) (db_tables w) = Ok (a, t) -> r = Ok a.
Proof.
  intros Hw. unfold query, map_err. rewrite sql_calm by done. unfold run_statement, effect.
  destruct (q _ _) as [[a t] | e].
  - exists (Ok a). split; [done|]. by intros a' t' [= <- _].
  - exists (Err (app_error_from_sqlx e)). split; [by destruct w | done].
Qed.

(** What is recorded of the tips of a log. *)
Definition recorded (log : list TipEvent) (t : AnalyticsTables) : Prop :=
  forall u, match find (of_creator u) (at_stats t) with
            | Some s => amounts_of u log <> [] /\ st_tip_count s = Z.of_nat (length (amounts_of u log)) /\
                        st_total s = sumZ (amounts_of u log) /\
                        st_avg s = sumZ (amounts_of u log) / Z.of_nat (length (amounts_of u log))
            | None => amounts_of u log = []
            end.

Lemma find_update_other {A} (p q : A -> bool) (f : A -> A) l :
  (forall x, q (f x) = q x) -> (forall x, q x = true -> p x = false) -> find q (update_where p f l) = find q l.
Proof.
  intros Hf Hd. induction l as [|x l IH]; [done|]. simpl. fold (update_where p f l).
  destruct (p x) eqn:Hp; rewrite ?Hf; destruct (q x) eqn:Hq; try done. by rewrite (Hd x Hq) in Hp.
Qed.

Lemma find_update_same {A} (p : A -> bool) (f : A -> A) l :
  (forall x, p (f x) = p x) -> find p (update_where p f l) = f <$> find p l.
Proof.
  intros Hf. induction l as [|x l IH]; [done|]. simpl. fold (update_where p f l).
  destruct (p x) eqn:Hp; rewrite ?Hf, Hp; done.
Qed.

Lemma find_app {A} (p : A -> bool) l1 l2 : find p (l1 ++ l2) = match find p l1 with Some x => Some x | None => find p l2 end.
Proof. induction l1 as [|x l1 IH]; [done|]. simpl. by destruct (p x). Qed.

Lemma sumZ_nonneg l : (forall x, x ∈ l -> 0 <= x) -> 0 <= sumZ l.
Proof. induction l as [|x l IH]; intros H; simpl; [lia|]. pose proof (H x ltac:(left)). specialize (IH ltac:(set_solver)). lia. Qed.

Lemma upsert_stats_recorded log e now t :
  recorded log t -> (forall x, x ∈ log ++ [e] -> 0 <= ev_amount x) ->
  sumZ (amounts_of (ev_creator_id e) (log ++ [e])) <= i64_max ->
  Z.of_nat (length (log ++ [e])) <= i64_max ->
  recorded (log ++ [e]) (effect (upsert_stats (ev_creator_id e) (ev_amount e)) now t).
Proof.
  intros Hr Hpos Hsum Hlen v. specialize (Hr v) as Hv. specialize (Hr (ev_creator_id e)) as Hu.
  rewrite amounts_of_snoc in *. rewrite String.eqb_refl in Hsum. rewrite sumZ_app in Hsum. simpl in Hsum.
  assert (0 <= ev_amount e) as He by (apply Hpos, elem_of_app; right; left).
  assert (0 <= sumZ (amounts_of (ev_creator_id e) log)) as Hs0.
  { apply sumZ_nonneg. unfold amounts_of. intros x (y & -> & [Hy _]%list_elem_of_In%filter_In)%list_elem_of_fmap.
    apply Hpos, elem_of_app. left. by apply list_elem_of_In. }
  assert (length (amounts_of (ev_creator_id e) log) <= length log)%nat as Hn.
  { unfold amounts_of. rewrite length_map. apply List.filter_length_le. }
  rewrite length_app in Hlen. simpl in Hlen.
  unfold effect, upsert_stats. destruct (find (of_creator (ev_creator_id e)) (at_stats t)) as [s|] eqn:Hf.
  - destruct Hu as (_ & Hc & Ht & _).
    rewrite (proj2 (i64_checked_Some (st_total s + ev_amount e) _)) by (split; [reflexivity | unfold i64_min; lia]).
    rewrite (proj2 (i64_checked_Some (st_tip_count s + 1) _)) by (split; [reflexivity | unfold i64_min; lia]).
    simpl. destruct (String.eqb (ev_creator_id e) v) eqn:Hev.
    + apply String.eqb_eq in Hev. subst v. rewrite find_update_same by done. rewrite Hf. simpl.
      rewrite length_app, sumZ_app. simpl. split; [by destruct (amounts_of _ _)|]. split; [lia|]. split; [lia|].
      rewrite Z.quot_div_nonneg by lia. f_equal; lia.
    + rewrite find_update_other; [by rewrite app_nil_r | done |]. intros x Hx. unfold of_creator in *.
      apply String.eqb_eq in Hx. subst v. by rewrite String.eqb_sym.
  - simpl. rewrite find_app. simpl. unfold of_creator at 2. simpl. destruct (String.eqb (ev_creator_id e) v) eqn:Hev.
    + apply String.eqb_eq in Hev. subst v. rewrite Hf, Hu. simpl. rewrite Z.div_1_r. repeat split; [done | lia..].
    + rewrite app_nil_r. by destruct (find (of_creator v) (at_stats t)).
Qed.

Lemma effect_stats {A} (q : statement AnalyticsTables A) now t :
  (forall a t', q now t = Ok (a, t') -> at_stats t' = at_stats t) -> at_stats (effect q now t) = at_stats t.
Proof. unfold effect. intros H. destruct (q now t) as [[a t'] | e]; [by eapply H | done]. Qed.

Lemma effect_anomalies {A} (q : statement AnalyticsTables A) now t :
  (forall a t', q now t = Ok (a, t') -> at_anomalies t' = at_anomalies t) -> at_anomalies (effect q now t) = at_anomalies t.
Proof. unfold effect. intros H. destruct (q now t) as [[a t'] | e]; [by eapply H | done]. Qed.

Lemma upsert_window_effect u amount now t :
  at_stats (effect (upsert_window u amount) now t) = at_stats t /\
  at_anomalies (effect (upsert_window u amount) now t) = at_anomalies t.
Proof.
  unfold effect, upsert_window. destruct (find _ _); [|done].
  destruct (i64_checked _); [|done]. by destruct (i64_checked _).
Qed.

Lemma evaluate_calm u total count w : db_faults w = [] ->
  exists r t, evaluate u total count w = (r, with_tables t w) /\ at_stats t = at_stats (db_tables w) /\
    at_anomalies t = at_anomalies (db_tables w).
Proof.
  intros Hw. unfold evaluate.
  destruct (count <? _); [exists (Ok tt), (db_tables w); by destruct w|].
  destruct (HIGH_VOLUME_THRESHOLD_STROOPS <=? total); [|exists (Ok tt), (db_tables w); by destruct w].
  destruct (query_calm_effect (insert_alert u total) w Hw) as (r & -> & _). do 2 eexists. split; [reflexivity|].
  unfold effect, insert_alert. by destruct (existsb _ _).
Qed.

Lemma read_calm {A} (f : Z -> AnalyticsTables -> A) w : db_faults w = [] ->
  query (select f) w = (Ok (f (db_now w) (db_tables w)), w).
Proof. intros Hw. unfold query, map_err, select. rewrite sql_calm by done. unfold run_statement. by destruct w. Qed.

(** A spike of which the statistics are known. *)
Definition spike (u : string) (amount : Z) (t : AnalyticsTables) : Prop :=
  let '(count, avg) := stats_of u t in 5 <= count /\ avg <> 0 /\ is_spike amount avg = true.

Lemma check_calm u amount w : db_faults w = [] ->
  exists r t, check_and_log u amount w = (r, with_tables t w) /\ at_stats t = at_stats (db_tables w) /\
    forall a, a ∈ at_anomalies t -> a ∈ at_anomalies (db_tables w) \/
      an_creator_username a = u /\ spike u amount (db_tables w).
Proof.
  intros Hw. unfold check_and_log. bind_step. rewrite read_calm by done. unfold spike.
  destruct (stats_of u (db_tables w)) as [count avg].
  destruct ((count <? 5) || (avg =? 0)) eqn:Hc; [exists (Ok false), (db_tables w); split; [by destruct w | auto]|].
  destruct (is_spike amount avg) eqn:Hs; [|exists (Ok false), (db_tables w); split; [by destruct w | auto]].
  bind_step. match goal with |- context [query (sql ?q) w] => destruct (query_calm_effect q w Hw) as (r & -> & Hr) end.
  rewrite (Hr tt _ eq_refl). do 2 eexists. split; [reflexivity|]. split; [done|]. unfold effect. simpl.
  intros a [Ha | ->%list_elem_of_singleton]%elem_of_app; [by left|]. right. zbool. repeat split; try done; lia.
Qed.

(** The statistics after an event, and the anomalies it may have added. *)
Lemma tip_processed e w : db_faults w = [] -> 0 <= ev_amount e <= i64_max ->
  let u := ev_creator_id e in
  let t1 := effect (upsert_stats u (ev_amount e)) (db_now w) (db_tables w) in
  exists t, process e w = (Ok tt, with_tables t w) /\ at_stats t = at_stats t1 /\
    forall a, a ∈ at_anomalies t -> a ∈ at_anomalies (db_tables w) \/
      an_creator_username a = u /\ spike u (ev_amount e) t1.
Proof.
  intros Hw He u t1. unfold process, attempt. fold u. unfold update_creator_stats, update_tumbling_window.
  rewrite wrap_i64_id by (unfold i64_min; lia). bind_step.
  destruct (query_calm_effect (upsert_stats u (ev_amount e)) w Hw) as (r1 & -> & _). fold t1.
  assert (at_anomalies t1 = at_anomalies (db_tables w)) as Ht1.
  { apply effect_anomalies. intros a t'. unfold upsert_stats. destruct (find _ _); [|by intros [= _ <-]].
    destruct (i64_checked _); [|done]. destruct (i64_checked _); [|done]. by intros [= _ <-]. }
  bind_step. destruct (check_calm u (ev_amount e) (with_tables t1 w) Hw) as (r2 & t2 & -> & Hs2 & Ha2). simpl in Hs2, Ha2.
  bind_step. destruct (query_calm_effect (upsert_window u (ev_amount e)) (with_tables t2 (with_tables t1 w)) Hw)
    as (r3 & -> & _). simpl. destruct (upsert_window_effect u (ev_amount e) (db_now w) t2) as [Hs3 Ha3].
  destruct (match r3 with Ok p => p | Err _ => (0, 0) end) as [total count].
  bind_step. match goal with |- context [evaluate u total count ?w'] =>
    destruct (evaluate_calm u total count w' Hw) as (r4 & t4 & -> & Hs4 & Ha4) end. simpl in Hs4, Ha4.
  exists t4. split; [done|]. split; [congruence|]. rewrite Ha4, Ha3. intros a [Ha | Ha]%Ha2; [left; congruence | by right].
Qed.

(** With a tip of three stroops at least before it, the tips of a creator are
    no spike before the eleventh: the average counts the tip itself. *)
Lemma no_early_spike (amounts : list Z) (amount : Z) :
  (forall x, x ∈ amounts -> 3 <= x) -> 0 <= amount <= i64_max ->
  let n := Z.of_nat (length (amounts ++ [amount])) in
  5 <= n <= 10 -> is_spike amount (sumZ (amounts ++ [amount]) / n) = false \/ i64_max < sumZ (amounts ++ [amount]).
Proof.
  intros Hmin Ha n Hn. assert (3 * Z.of_nat (length amounts) <= sumZ amounts) as Hs.
  { clear - Hmin. induction amounts as [|x l IH]; simpl; [lia|]. pose proof (Hmin x ltac:(left)).
    specialize (IH ltac:(intros y Hy; apply Hmin; by right)). lia. }
  subst n. rewrite length_app, sumZ_app in *. simpl in *. set (s := sumZ amounts) in *.
  destruct (Z.le_gt_cases (s + (amount + 0)) i64_max) as [Hle | ?]; [left | by right].
  set (n := Z.of_nat (length amounts + 1)) in *. assert (n = Z.of_nat (length amounts) + 1) as Hnl by lia.
  pose proof (Z.div_mod (s + (amount + 0)) n ltac:(lia)) as Hd. pose proof (Z.mod_pos_bound (s + (amount + 0)) n ltac:(lia)).
  set (q := (s + (amount + 0)) / n) in *. assert (0 <= q) as Hq by (apply Z.div_pos; lia).
  assert (q <= i64_max) as Hq2 by nia.
  unfold is_spike, SPIKE_THRESHOLD, u64_saturating_mul. rewrite wrap_u64_id by (unfold u64_max, i64_max in *; lia).
  apply Z.ltb_ge. apply Z.min_glb; [unfold u64_max, i64_max in *; lia|]. nia.
Qed.

(** What a log may hold: no amount below [m], and nothing that overflows. *)
Record Fits (m : Z) (log : list TipEvent) : Prop := {
  ft_min : forall e, e ∈ log -> m <= ev_amount e;
  ft_sum : forall u, sumZ (amounts_of u log) <= i64_max;
  ft_length : Z.of_nat (length log) <= i64_max
}.

Lemma amounts_of_elem u log x : x ∈ amounts_of u log -> exists e, e ∈ log /\ ev_amount e = x.
Proof.
  unfold amounts_of. intros (e & -> & [He _]%list_elem_of_In%filter_In)%list_elem_of_fmap. exists e.
  by rewrite list_elem_of_In.
Qed.

Lemma fits_prefix m log1 log2 : 0 <= m -> Fits m (log1 ++ log2) -> Fits m log1.
Proof.
  intros Hm [H1 H2 H3]. split.
  - intros e He. apply H1, elem_of_app. by left.
  - intros u. specialize (H2 u). unfold amounts_of in H2. rewrite List.filter_app, map_app, sumZ_app in H2.
    assert (0 <= sumZ (amounts_of u log2)) as Hp; [|unfold amounts_of in *; lia].
    apply sumZ_nonneg. intros x (e & He & <-)%amounts_of_elem. specialize (H1 e). rewrite elem_of_app in H1.
    specialize (H1 (or_intror He)). lia.
  - rewrite length_app in H3. lia.
Qed.

Lemma amount_fits m log e : 0 <= m -> Fits m (log ++ [e]) -> 0 <= ev_amount e <= i64_max.
Proof.
  intros Hm H. pose proof (fits_prefix m log [e] Hm H) as [L1 _ _]. destruct H as [H1 H2 _].
  specialize (H2 (ev_creator_id e)). rewrite amounts_of_snoc, String.eqb_refl, sumZ_app in H2. simpl in H2.
  assert (0 <= sumZ (amounts_of (ev_creator_id e) log)).
  { apply sumZ_nonneg. intros x (d & Hd & <-)%amounts_of_elem. specialize (L1 d Hd). lia. }
  assert (m <= ev_amount e) by (apply H1, elem_of_app; right; left). lia.
Qed.

Definition eleven (log : list TipEvent) (t : AnalyticsTables) : Prop :=
  forall a, a ∈ at_anomalies t -> (11 <= length (amounts_of (an_creator_username a) log))%nat.

Lemma process_recorded m log e w : db_faults w = [] -> 0 <= m -> Fits m (log ++ [e]) -> recorded log (db_tables w) ->
  (3 <= m -> eleven log (db_tables w)) ->
  exists t, process e w = (Ok tt, with_tables t w) /\ recorded (log ++ [e]) t /\ (3 <= m -> eleven (log ++ [e]) t).
Proof.
  intros Hw Hm Hfit Hrec Hel. pose proof (amount_fits m log e Hm Hfit) as He.
  destruct (tip_processed e w Hw He) as (t & Hp & Hs & Ha). exists t. split; [done|].
  set (u := ev_creator_id e) in *. set (t1 := effect (upsert_stats u (ev_amount e)) (db_now w) (db_tables w)) in *.
  assert (recorded (log ++ [e]) t1) as Hr1.
  { apply upsert_stats_recorded; [done | | apply Hfit | apply Hfit].
    intros x Hx. apply (ft_min _ _ Hfit) in Hx. lia. }
  split; [intros v; rewrite Hs; apply Hr1|]. intros H3 a [Hin | [Hu Hspike]]%Ha.
  - specialize (Hel H3 a Hin). rewrite amounts_of_snoc, length_app. lia.
  - rewrite Hu. unfold spike, stats_of in Hspike. specialize (Hr1 u).
    destruct (find (of_creator u) (at_stats t1)) as [s|]; [|lia].
    destruct Hr1 as (_ & Hc & Ht & Hv). destruct Hspike as (H5 & _ & Hspike).
    destruct (decide (11 <= length (amounts_of u (log ++ [e])))%nat) as [|Hlt]; [done|]. exfalso.
    rewrite Hv in Hspike. rewrite Hc in H5. pose proof (ft_sum _ _ Hfit u) as Hsum.
    rewrite amounts_of_snoc, String.eqb_refl in *.
    destruct (no_early_spike (amounts_of u log) (ev_amount e)) as [Hf | Hf]; [ | done | lia | congruence | lia].
    intros x (d & Hd & <-)%amounts_of_elem. specialize (ft_min _ _ Hfit d). rewrite elem_of_app. intros Hmin.
    specialize (Hmin (or_introl Hd)). lia.
Qed.

Lemma run_recorded m l : forall log w, db_faults w = [] -> (forall f, Weather f ∉ l) -> 0 <= m -> Fits m (log ++ delivered l) ->
  recorded log (db_tables w) -> (3 <= m -> eleven log (db_tables w)) ->
  recorded (log ++ delivered l) (db_tables (run l w)) /\ (3 <= m -> eleven (log ++ delivered l) (db_tables (run l w))).
Proof.
  induction l as [|h l IH]; intros log w Hw Hno Hm Hfit Hrec Hel; simpl; [by rewrite app_nil_r|].
  assert (forall f, Weather f ∉ l) as Hno' by (intros f Hf; apply (Hno f); by right).
  destruct h as [[e | n |] | now utc | f]; simpl in *; [ | by apply IH | by rewrite app_nil_r | by apply IH |].
  - replace (log ++ e :: delivered l) with ((log ++ [e]) ++ delivered l) in * by (by rewrite <- app_assoc).
    destruct (process_recorded m log e w Hw Hm) as (t & -> & Hr & He); [by apply (fits_prefix m _ (delivered l)) | done | done |].
    simpl. by apply IH.
  - exfalso. apply (Hno f). left.
Qed.

Definition no_analytics : AnalyticsTables := {| at_stats := []; at_windows := []; at_anomalies := []; at_alerts := [] |}.

Definition analytics_world : Db AnalyticsTables :=
  {| db_tables := no_analytics; db_now := 0; db_utc := 0; db_uuids := 0; db_faults := [] |}.

(** Without faults the statistics of a creator are exactly those of the tips
    the task received: how many, their sum, and the sum over the number. *)
Theorem stats_exact l :
  (forall f, Weather f ∉ l) -> Fits 0 (delivered l) -> recorded (delivered l) (db_tables (run l analytics_world)).
Proof. intros Hno Hfit. by apply (run_recorded 0 l [] analytics_world). Qed.

(** Without faults, and with tips of three stroops or more, no anomaly of a
    creator is recorded before its eleventh tip: the baseline counts the tip that
    is compared with it, and a tip is no more than ten times an average of ten. *)
Theorem anomaly_needs_eleven l a :
  (forall f, Weather f ∉ l) -> Fits 3 (delivered l) -> a ∈ at_anomalies (db_tables (run l analytics_world)) ->
  (11 <= length (amounts_of (an_creator_username a) (delivered l)))%nat.
Proof.
  intros Hno Hfit Ha. destruct (run_recorded 3 l [] analytics_world eq_refl Hno ltac:(lia) Hfit) as [_ H].
  - by intros u.
  - by intros _ x Hx%elem_of_nil.
  - apply H; [lia | done].
Qed.

(** ** The sliding window *)

Fixpoint ascending (events : list (Z * Z)) : Prop :=
  match events with
  | [] => True
  | (t, _) :: rest => (forall x, x ∈ rest -> t <= fst x) /\ ascending rest
  end.

Lemma evict_before_filter cutoff events : ascending events ->
  evict_before cutoff events = List.filter (fun x => cutoff <=? fst x) events.
Proof.
  induction events as [|[t a] rest IH]; [done|]. intros [Hle Hrest]. simpl.
  destruct (t <? cutoff) eqn:Ht; zbool.
  - rewrite (proj2 (Z.leb_gt _ _)) by lia. by apply IH.
  - rewrite (proj2 (Z.leb_le _ _)) by lia. f_equal. clear IH Hrest. induction rest as [|y rest IH]; [done|]. simpl.
    rewrite (proj2 (Z.leb_le _ _)) by (specialize (Hle y ltac:(left)); lia). f_equal. apply IH. set_solver.
Qed.

Lemma ascending_snoc events now a : ascending events -> (forall x, x ∈ events -> fst x <= now) -> ascending (events ++ [(now, a)]).
Proof.
  induction events as [|[t b] rest IH]; simpl; [by intros _ _; split; [set_solver|]|]. intros [Hle Hrest] Hnow. split.
  - intros x [Hx | ->%list_elem_of_singleton]%elem_of_app; [by apply Hle | apply (Hnow (t, b)); left].
  - apply IH; [done|]. intros x Hx. apply Hnow. by right.
Qed.

(** A window into which amounts were pushed, each at its instant. *)
Definition pushed (duration : Z) (pushes : list (Z * Z)) : list (Z * Z) :=
  fold_left (fun events p => push duration (fst p) (snd p) events) pushes [].

Lemma ascending_filter (p : Z * Z -> bool) events : ascending events -> ascending (List.filter p events).
Proof.
  induction events as [|[t a] rest IH]; [done|]. intros [Hle Hrest]. simpl. destruct (p (t, a)); [|by apply IH].
  split; [|by apply IH]. intros x [Hx%list_elem_of_In _]%list_elem_of_In%filter_In. by apply Hle.
Qed.

Lemma filter_later (c1 c2 : Z) (events : list (Z * Z)) : c1 <= c2 ->
  List.filter (fun x => c2 <=? fst x) (List.filter (fun x => c1 <=? fst x) events) = List.filter (fun x => c2 <=? fst x) events.
Proof.
  intros Hc. induction events as [|x l IH]; [done|]. simpl. destruct (c1 <=? fst x) eqn:H1; simpl; rewrite IH; [done|].
  zbool. by rewrite (proj2 (Z.leb_gt _ _)) by lia.
Qed.

Lemma ascending_snoc_inv events now a : ascending (events ++ [(now, a)]) ->
  ascending events /\ forall x, x ∈ events -> fst x <= now.
Proof.
  induction events as [|[t b] rest IH]; simpl; [by split; [|set_solver]|]. intros [Hle Hrest].
  destruct (IH Hrest) as [Ha Hn]. split; [split; [|done]|].
  - intros x Hx. apply Hle, elem_of_app. by left.
  - intros x [-> | Hx]%elem_of_cons; [|by apply Hn]. apply (Hle (now, a)), elem_of_app. right. left.
Qed.

Lemma evict_pushed duration pushes now : ascending pushes -> (forall x, x ∈ pushes -> fst x <= now) ->
  evict duration now (pushed duration pushes) = List.filter (fun x => now - duration <=? fst x) pushes.
Proof.
  revert now. induction pushes as [|[t a] pushes IH] using rev_ind; intros now Hasc Hnow; [done|].
  apply ascending_snoc_inv in Hasc as [Hasc Ht]. unfold pushed. rewrite fold_left_app. simpl. fold (pushed duration pushes).
  unfold push. rewrite IH by done. assert (t <= now) as Htn by (apply (Hnow (t, a)), elem_of_app; right; left).
  unfold evict. rewrite evict_before_filter.
  - by rewrite !List.filter_app, filter_later by lia.
  - apply ascending_snoc; [by apply ascending_filter|]. intros x [Hx%list_elem_of_In _]%list_elem_of_In%filter_In. by apply Ht.
Qed.

Lemma wrapping_sum l acc : 0 <= acc -> (forall x, x ∈ l -> 0 <= snd x) -> acc + sumZ (map snd l) <= u64_max ->
  fold_left (fun acc (e : Z * Z) => wrap_u64 (acc + snd e)) l acc = acc + sumZ (map snd l).
Proof.
  revert acc. induction l as [|x l IH]; intros acc Hacc Hpos Hsum; simpl in *; [lia|].
  assert (0 <= snd x) by (apply Hpos; left).
  assert (0 <= sumZ (map snd l)) by (apply sumZ_nonneg; intros y (z & -> & Hz)%list_elem_of_fmap; apply Hpos; by right).
  rewrite wrap_u64_id by lia. rewrite IH; [lia | lia | | lia]. intros y Hy. apply Hpos. by right.
Qed.

(** The metrics of a sliding window, at any instant, are those of exactly the
    amounts that were pushed within its length before, as long as their sum fits. *)
Theorem window_metrics duration pushes now :
  ascending pushes -> (forall x, x ∈ pushes -> fst x <= now) -> (forall x, x ∈ pushes -> 0 <= snd x) ->
  let recent := List.filter (fun x => now - duration <=? fst x) pushes in
  sumZ (map snd recent) <= u64_max ->
  fst (metrics duration now (pushed duration pushes)) =
  {| wm_count := length recent; wm_total_stroops := sumZ (map snd recent);
     wm_avg_stroops := if (0 <? length recent)%nat then sumZ (map snd recent) / Z.of_nat (length recent) else 0 |}.
Proof.
  intros Hasc Hnow Hpos recent Hsum. unfold metrics. simpl. rewrite evict_pushed by done. fold recent.
  rewrite wrapping_sum; [done | done | | done].
  intros x [Hx%list_elem_of_In _]%list_elem_of_In%filter_In. by apply Hpos.
Qed.

(** ** On concrete tips *)

Definition tip_of (amount : Z) : received :=
  Event {| ev_creator_id := "ann"; ev_tipper_id := "bob"; ev_amount := amount; ev_timestamp := 0 |}.

Definition after_amounts (l : list Z) : Db AnalyticsTables := run (map (fun a => Does (tip_of a)) l) analytics_world.

(** Five tips, the last a thousand times the others: no anomaly; after ten, the same tip is one. *)
Example early_spike_unnoticed :
  map an_amount (at_anomalies (db_tables (after_amounts [10; 10; 10; 10; 10000]))) = [] /\
  map an_amount (at_anomalies (db_tables (after_amounts [10; 10; 10; 10; 10; 10; 10; 10; 10; 10; 10000]))) = [10000].
Proof. split; vm_compute; done. Qed.

(** Every tip after the threshold alerts again, in the same window. *)
Example alerted_again :
  let tips := [Does (tip_of 400000000); Does (tip_of 400000000); Does (tip_of 400000000); Clocks 1 1; Does (tip_of 1);
               Clocks 2 2; Does (tip_of 1)] in
  map al_value (at_alerts (db_tables (run tips analytics_world))) = [1200000000; 1200000001; 1200000002].
Proof. vm_compute. done. Qed.

(** Events that are lost are counted nowhere. *)
Example lost_tips_uncounted :
  map st_tip_count (at_stats (db_tables (run [Does (tip_of 5); Does (Lagged 3); Does (tip_of 7)] analytics_world))) = [2].
Proof. vm_compute. done. Qed.

Definition eleven_tips : list (happening received) := map (fun a => Does (tip_of a)) [10; 10; 10; 10; 10; 10; 10; 10; 10; 10; 10000].

Lemma eleven_tips_fit m : m <= 3 -> Fits m (delivered eleven_tips).
Proof.
  intros Hm. split.
  - intros e He. simpl in He. repeat (apply elem_of_cons in He as [-> | He]; [simpl; lia|]). by apply elem_of_nil in He.
  - intros u. unfold amounts_of. cbn -[String.eqb i64_max]. destruct (String.eqb "ann" u); by vm_compute.
  - done.
Qed.

Lemma stats_exact_witness :
  recorded (delivered eleven_tips) (db_tables (run eleven_tips analytics_world)) /\
  map st_avg (at_stats (db_tables (run eleven_tips analytics_world))) = [918].
Proof.
  split; [|vm_compute; reflexivity]. apply (stats_exact eleven_tips).
  - intros f Hf. unfold eleven_tips in Hf. simpl in Hf. set_solver.
  - apply eleven_tips_fit. lia.
Defined.

Lemma anomaly_needs_eleven_witness :
  (11 <= length (amounts_of "ann" (delivered eleven_tips)))%nat.
Proof.
  apply (anomaly_needs_eleven eleven_tips
    {| an_creator_username := "ann"; an_amount := 10000; an_baseline := 918; an_detected_at := 0 |}).
  - intros f Hf. unfold eleven_tips in Hf. simpl in Hf. set_solver.
  - apply eleven_tips_fit. lia.
  - vm_compute. left.
Defined.
